(* ===== verification/_CoqProject ===== *)
-Q . S2P
Prelude.v
Pulse.v
PulseRange.v
PulseStore.v
Reference.v
Jet.v
JetKeeper.v
HeavyNode.v
WriteController.v
Records.v
Payload.v
Filaments.v
FilamentChain.v
LightHandlers.v
LightLedger.v
LightReads.v
JetSplitter.v
HotWaiter.v
IndexLocker.v
HotData.v
PulseChange.v
Cleaner.v
Coordinator.v
Broker.v
StateStorage.v
ResultMatcher.v
ContractRequester.v
SeedManager.v
Store.v
Tables.v
RecordStorage.v
BadgerRecords.v
PostgresRecords.v
RecordStoragesAgree.v
IndexStorage.v
BadgerIndexes.v
PostgresIndexes.v
LatestIndex.v
DropStorage.v
JetStorage.v
NodeHistory.v
PostgresPulses.v
KeeperStorage.v
HeavyReplicator.v
HeavySamples.v
HeavyDurability.v
HeavyFinalization.v
Exporter.v
ExportedPages.v
BigInt.v
Foundation.v
Vesting.v
World.v
Contracts.v
Members.v
Money.v
ContractRules.v
MemberPower.v
MemberRank.v
NodeStats.v
ConsensusDecision.v
Wire.v
PacketHeader.v
PacketBody.v
PacketRead.v
PacketCodec.v
PacketBuilder.v
PacketDelivery.v
LongBits.v
NodeVector.v
VectorBuilder.v
VectorInspector.v
VectorsAgree.v
VectorsBelieved.v
Phase3.v
VectorSamples.v
