(* ===== verification/Prelude.v ===== *)
(** * Insolar platform: a verification library

    Insolar is a platform for contracts over a sharded ledger.  Time advances
    in pulses.  Contracts are objects that call each other (virtual nodes);
    their records are kept per jet, a shard of the hash space, by light nodes
    for the current pulse and by heavy nodes for good.  At the end of a pulse
    a light node seals each of its jets with a drop, may split the jet for the
    next pulse, and replicates; the heavy node counts the confirmations of
    every jet and moves its top sync pulse once a pulse is complete.  A virtual
    node executes the requests of an object in the order of the ledger and
    hands over to the next node when the pulse ends.  Built-in contracts
    implement members, accounts, deposits and migration of money.

    ** How the code is modelled

    Definitions keep the names of the Go code (a method [m] of a type [T] is
    [T_m] or [m]) and follow it statement by statement.
    - Integers are [Z] with the wrap-around of their width written out ([u8],
      [u16], [u32], [u64], [i64]); bytes are [Z] below 256, arrays and slices
      are lists, Go maps are [gmap].
    - A function that may panic returns in [go]; one that returns an error
      returns a [result] (or the pair of the Go code where it returns both);
      one that changes a state as well is a program of the monad [io], with
      the rules of [wp].  Errors keep their literal text; formatted arguments
      are left out.
    - Loops that are not structural have fuel, and their theorems show that
      the fuel given is enough: [segmentsFuel] (PulseRange.v) is one more than
      the segments of a gap, [updateFuel] (Jet.v) is 257, one more than the
      depths a byte holds, [Shift] (PulseStore.v) has one step per stored
      pulse, the filament iterator (FilamentChain.v) is run with
      [calculator_fuel], which has to exceed the length of the chain.  The
      model panics out of fuel; the theorems exclude it.
    - Pointers: a node of a jet tree is the path to it; the nodes of the
      memory pulse storage, channels, mutexes, brokers and registries live on
      explicit heaps.
    - Locks and goroutines: an operation that holds its lock from start to end
      is one step of a state machine; where a call releases the lock and
      waits, the parts are steps of their own, and every interleaving is a run
      ([reach]).
    - Databases: the key-value store is a map of byte strings under the keys
      the code builds, with its ordered iterators (Store.v); a relational
      table is a map by its primary key, and a query without ORDER BY gives
      its rows in any order ([RowOrder] in Tables.v).  Transactions succeed;
      the code's retry loops end with such a transaction.  The storages of one
      database have scopes or tables of their own, so each is a state of its
      own.  Protobuf is a parameter ([Codec]) of which only the round trip is
      used.
    - Crashes: the node of HeavyReplicator.v may stop between any two calls,
      which keeps the storages and loses the goroutines.
    - Interfaces of the code are classes or arguments: [PulseStorage] with its
      laws [LawfulStorage] (PulseStore.v), [TruncatableStorage] (HeavyNode.v),
      the environment of a contract [ContractEnv] (Contracts.v), the other
      nodes that answer a light node ([Node] in Payload.v, [LightNode] in
      LightHandlers.v), the hash functions ([Scheme] in Records.v), the jet trees and the pulse calculator
      of the jet keeper, the record count of the splitter; the storages of the
      heavy node, each with its laws: [RecordStorage], [IndexStorage],
      [DropStorage], [JetStorage], [NodeHistory].

    ** Files

    Prelude.v: the three effect monads, fixed-width integers, big-endian codec,
    reachability, callbacks, the tactics [go_step], [splits_if], [decide_Z].

    Time.
    - Pulse.v (src/pulse): pulse numbers, epochs, pulse data.  Stepping numbers
      forth and back never mistakes a wrap-around for a success; the byte and
      flag encodings and Unix times round trip; epoch compatibility is a
      partial equivalence; a created pulse is valid and linked both ways.
    - PulseRange.v (src/pulse/pulse_range.go): the four kinds of range and
      their three enumerations, which all visit one gapless list.
    - PulseStore.v (src/insolar/pulse): the memory storage, a doubly linked
      list on a heap, and the database storage refine the increasing list of
      the pulses they hold; so they agree with each other.

    Identifiers, jets and the heavy node.
    - Reference.v (src/reference): record identifiers and references, their
      binary round trip and their order.
    - Jet.v (src/insolar/jet, src/insolar/bits): jet identifiers, the jet tree
      and the store of a tree per pulse.  Trees are specified by their
      leaves: [Find] answers the one leaf a record belongs to, [Split]
      replaces a leaf by its children, [Update] and [LeafIDs] likewise.
    - JetKeeper.v (src/ledger/heavy/executor): confirmations per jet and the
      top sync pulse: invariants over all histories, when a pulse is complete,
      that the top sync pulse follows the chain of pulses.
    - HeavyNode.v: the keeper at work with a pulse storage, with the rollback
      at start (db_rollback.go): every stored pulse is synced, in order, once.

    The heavy node: storages, each with a contract, over the key-value store
    and over SQL.
    - Store.v (src/insolar/store), Tables.v: the two kinds of database.
    - RecordStorage.v, BadgerRecords.v, PostgresRecords.v (src/ledger/object):
      the log of records with a position per pulse; a batch is taken as a whole
      or not at all.  RecordStoragesAgree.v: both answer the same.
    - IndexStorage.v, BadgerIndexes.v, PostgresIndexes.v: indexes per pulse.
      LatestIndex.v: which index is answered as the latest.
    - DropStorage.v (src/ledger/drop), JetStorage.v (src/insolar/jet),
      NodeHistory.v (src/insolar/node): drops, jet trees and nodes per pulse,
      both implementations of each.
    - PostgresPulses.v (src/insolar/pulse/postgres_db.go): pulses and their
      signatures in tables; it answers what the key-value storage answers,
      except that it remembers pulses it has truncated.
    - KeeperStorage.v (badger_jetkeeper.go, postgres_jetkeeper.go): both jet
      keepers over their databases; they do what JetKeeper.v says.

    The heavy node at work, over any storages that keep their contracts.
    - HeavyReplicator.v (heavyreplicator.go, finalize_pulse.go,
      finalization_keeper.go, backuper.go, db_rollback.go, the handler of hot
      confirmations, the pulse manager): the node as a machine of goroutines
      that make one call at a time, with crashes and the rollback at start.
      HeavySamples.v: a scheduler that runs it on concrete messages.
    - HeavyDurability.v: a finalized pulse has all its data and keeps it; the
      machine refines the abstract node of HeavyNode.v.
    - HeavyFinalization.v: a pulse confirmed only while it is stored is not
      left behind; one whose confirmations come before it can be.
    - Exporter.v, ExportedPages.v (src/ledger/heavy/exporter): records and
      pulses, page by page, while the node goes on.

    The light node: records.
    - Records.v (src/insolar/record, src/ledger/object): the records, the
      memory storages of records and indexes.  A batch is stored as a whole or
      not at all; an index only advances while it is kept.
    - Payload.v (src/insolar/payload): the messages the node sends.
    - Filaments.v, FilamentChain.v (src/ledger/light/executor/filaments.go):
      the chain of an object's requests and results, the caches, the iterator
      over records wherever they are kept, and the queries on top of it:
      open requests, request info, duplicates.  Each is specified on the
      chain as a list.
    - LightHandlers.v (src/ledger/light/proc, request_checker.go): the
      procedures with all their checks, as programs over the node's storages.
    - LightLedger.v: setting a request or a result keeps the ledger together,
      on every branch; over any run the index leads along the filament, counts
      its open requests, and these are what is answered.
    - LightReads.v: what the reading procedures answer, and that they change
      nothing but caches.

    The light node: the end of a pulse.
    - JetSplitter.v (jet_splitter.go, src/ledger/drop/memory.go): sealing and
      splitting, and when a jet splits.
    - WriteController.v (both write controllers): the barriers that close a
      pulse for writing, under every interleaving of writers and manager.
    - HotWaiter.v (waiter.go): waiting for hot data: safety, and liveness of
      fair runs.
    - IndexLocker.v (src/ledger/object/lock.go): a lock per object.
    - HotData.v (hot_sender.go, jet_calculator.go, proc/hot_objects.go): which
      indexes are sent with which jet, and what the receiver does.
    - PulseChange.v (pulsemanager.go, state_initer.go): the whole change of a
      pulse, composed of the parts above: nothing in use is lost.
    - Cleaner.v (cleaner.go): exactly the pulse leaving the window is removed.
    - Coordinator.v (src/insolar/jetcoordinator, src/utils/entropy): which
      nodes are responsible; all nodes agree, nobody validates itself.

    The virtual node.
    - Broker.v (executionbroker.go, execution_registry.go): the broker of an
      object with its goroutines: what never executes together, what the next
      executor is told of, and when it is told nothing.
    - StateStorage.v (statestorage.go, shutdown/flag.go): the brokers and
      registries of all objects over pulse changes.  The machine of Broker.v
      refines the steps allowed here.
    - ContractRequester.v (src/contractrequester): waiting for the result of a
      call: each result is in exactly one place, nothing blocks under the lock.
    - ResultMatcher.v (result_matcher.go): results for callers that go on on
      another node.
    - SeedManager.v (src/api/seedmanager): a seed of the API is good once.

    The consensus of the network: its values, its decision, its packets and the
    vectors of nodes.
    - MemberPower.v, MemberRank.v (src/network/consensus/gcpv2/api/member and
      api/power): the power of a node as a small floating-point number, power
      sets and requests; ranks packed in 32 bits, the order of nodes, trust.
    - NodeStats.v (phasebundle/stats, phasebundle/nodeset): what the nodes of
      a round say of each other, counted as rows come, change and go.
    - ConsensusDecision.v (phasebundle/consensus): the decision over each
      node, by the rows that count it in or call it fraud.
    - Wire.v, PacketHeader.v, PacketBody.v (src/network/consensus/serialization):
      programs that read and write a packet, its header, and each structure of
      its body with its serializer and deserializer.
    - PacketRead.v: what each structure must satisfy to be sent, what is
      received of it, and that the deserializer reads what the serializer
      wrote; every deserializer on any bytes.
    - PacketCodec.v (unified_protocol.go, context.go, packet_reader.go): whole
      packets: whatever is serialized, less claims, is parsed again, and
      whatever arrives is refused or has the length and the signature it says.
    - PacketBuilder.v (packet_builder.go, fillers.go, packet_reader.go): what a
      node puts into the packets of each phase, and what a reader is told.
    - PacketDelivery.v: of the packets of phases 1, 2 and 3, what one node
      announces is what the other hears.
    - LongBits.v (src/longbits/long_bits.go): digests folded into 64 bits.
    - NodeVector.v (gcpv2/core/population/realm_vector_helper.go, phasebundle/
      nodeset/seq_calc.go): the nodes by index and by rank, joiners after the
      nodes that introduce them, the sequences digested over them.
    - VectorBuilder.v (phasebundle/nodeset/vector_builder.go): digests of the
      announcements and the ranked states of trusted and of all nodes.
    - VectorInspector.v (phasebundle/inspectors, vector_classifier.go): the
      vectors nodes send each other, what one concludes from the vector of
      another, and the next population.
    - VectorsAgree.v, VectorsBelieved.v, VectorSamples.v: digests depend on
      what was announced only; the vector of a node that knows the same
      announcements is believed, whatever the trust of either in the others.
    - Phase3.v (phasebundle/ph3ctl): the worker of the last phase over what is
      received; honest nodes do not decide to the contrary, whatever vectors a
      minority sends.  VectorSamples.v also has inputs where inspection and
      decision go wrong.

    Contracts.
    - BigInt.v, Foundation.v (src/logicrunner/builtin/foundation,
      src/application/appfoundation): decimal integers, safe arithmetic, the
      deterministic map, addresses and shard indexes.
    - Vesting.v (deposit_vesting.go): the vesting table; the vested amount is
      between zero and the whole, monotone, and ends with the whole.
    - World.v: the contract data and the method monad, in which a contract
      calls others through the runtime.
    - Contracts.v, Members.v (src/application/builtin/contract,
      src/applicationbase/builtin/contract): every contract with its
      constructor and methods, up to the API entry [Call] of a member.
    - Money.v: the money of the world (accounts, deposits, saga calls under
      way) is kept by every API call and every delivery, except for the
      amounts of deliveries that fail; one such failure can be provoked by a
      negative amount, which the theorem [negative_deposit_transfer_mints]
      shows at work.
    - ContractRules.v: what account and deposit transfers and the
      confirmation of a migration guarantee, on every branch.

    ** Not modelled

    The network (transport, gateways, the phases of the consensus beyond the
    vectors of the last, their timers and censuses), the message bus with its
    retries and the dispatch of messages to the procedures, fetching jets and
    requests from other nodes beyond their answers, the execution of contracts
    by the logic runner beyond the rules of World.v, the goroutine of a light
    node that sends its data to the heavy node, copying the files of a backup,
    the API and its HTTP server, keys,
    signatures and certificates, configuration, logging, metrics, commands and
    tests: I/O, goroutine plumbing or calls of libraries.  Of the modelled
    packages, debug printing and text encodings are left out.  The cleaning
    goroutine of the seed manager is left out: its ticker is stopped when the
    constructor returns, so it never does anything.
    Parts that could be modelled in the same way and are not: the jet fetcher
    and the replicator of the light node, the reads of the heavy node, the
    request fetcher and the requests executor of the logic runner, the census
    and the realms of the consensus, the bit builder, the text encoders of
    references, the backoff; for the contracts, uniqueness of keys in the
    shards and balances that never go negative over whole histories. *)
From Stdlib Require Export ZArith Lia.
From stdpp Require Export base option list gmap sets strings numbers countable.

#[global] Open Scope Z_scope.
Abbreviation last := stdpp.list_basics.list.last.
Set Default Goal Selector "!".

(** ** Go calls: a value, or a panic

    A Go function that may call [panic] is a computation in [go]; one that
    returns [(T, error)] returns a [result T]. *)
Inductive go (A : Type) : Type :=
  | Ret (a : A)
  | Panic (msg : string).
Arguments Ret {_} _.
Arguments Panic {_} _.

#[export] Instance go_ret : MRet go := fun A => @Ret A.
#[export] Instance go_bind : MBind go := fun A B f m =>
  match m with Ret a => f a | Panic s => Panic s end.
#[export] Instance go_fmap : FMap go := fun A B f m =>
  match m with Ret a => Ret (f a) | Panic s => Panic s end.

Definition panics {A} (m : go A) : Prop :=
  match m with Ret _ => False | Panic _ => True end.

(** The errors of [errors.New]/[fmt.Errorf] (the literal text, formatted
    arguments left out), of [errors.Wrap], and payload.CodedError. *)
Inductive error : Type :=
  | Errorf (msg : string)
  | Wrap (e : error) (msg : string)
  | CodedError (text : string) (code : Z).

#[export] Instance error_eq_dec : EqDecision error.
Proof. solve_decision. Defined.

Inductive result (A : Type) : Type :=
  | Good (a : A)
  | Fail (e : error).
Arguments Good {_} _.
Arguments Fail {_} _.

#[export] Instance result_ret : MRet result := fun A => @Good A.
#[export] Instance result_bind : MBind result := fun A B f m =>
  match m with Good a => f a | Fail e => Fail e end.

(** [if err != nil { return errors.Wrap(err, msg) }] *)
Definition wrap_err {A} (m : result A) (msg : string) : result A :=
  match m with Good a => Good a | Fail e => Fail (Wrap e msg) end.

Definition is_good {A} (m : result A) : bool :=
  match m with Good _ => true | Fail _ => false end.

Lemma go_bind_ret {A B} (m : go A) (f : A -> go B) (b : B) :
  m ≫= f = Ret b <-> exists a, m = Ret a /\ f a = Ret b.
Proof.
  destruct m as [a|]; simpl; split; [by exists a| |done|].
  all: by intros (? & [= ] & ?); subst.
Qed.

Lemma result_bind_good {A B} (m : result A) (f : A -> result B) (b : B) :
  m ≫= f = Good b <-> exists a, m = Good a /\ f a = Good b.
Proof.
  destruct m as [a|]; simpl; split; [by exists a| |done|].
  all: by intros (? & [= ] & ?); subst.
Qed.

(** ** Fixed-width integers *)
Definition u8 (z : Z) : Z := z mod 2^8.
Definition u16 (z : Z) : Z := z mod 2^16.
Definition u32 (z : Z) : Z := z mod 2^32.
Definition u64 (z : Z) : Z := z mod 2^64.
Definition i64 (z : Z) : Z := (z + 2^63) mod 2^64 - 2^63.

Lemma u8_small z : 0 <= z < 2^8 -> u8 z = z.
Proof. apply Z.mod_small. Qed.
Lemma u16_small z : 0 <= z < 2^16 -> u16 z = z.
Proof. apply Z.mod_small. Qed.
Lemma u32_small z : 0 <= z < 2^32 -> u32 z = z.
Proof. apply Z.mod_small. Qed.
Lemma u64_small z : 0 <= z < 2^64 -> u64 z = z.
Proof. apply Z.mod_small. Qed.
Lemma i64_small z : -2^63 <= z < 2^63 -> i64 z = z.
Proof. intros. unfold i64. rewrite Z.mod_small; lia. Qed.
Lemma u8_bound z : 0 <= u8 z < 2^8.
Proof. apply Z.mod_pos_bound; lia. Qed.
Lemma u16_bound z : 0 <= u16 z < 2^16.
Proof. apply Z.mod_pos_bound; lia. Qed.
Lemma u32_bound z : 0 <= u32 z < 2^32.
Proof. apply Z.mod_pos_bound; lia. Qed.
Lemma u64_bound z : 0 <= u64 z < 2^64.
Proof. apply Z.mod_pos_bound; lia. Qed.
Lemma i64_bound z : -2^63 <= i64 z < 2^63.
Proof. unfold i64. pose proof (Z.mod_pos_bound (z + 2^63) (2^64)). lia. Qed.

Create Rewrite HintDb ints.
#[export] Hint Rewrite u8_small u16_small u32_small u64_small i64_small using lia : ints.
Create HintDb insolar.
#[export] Hint Resolve u8_bound u16_bound u32_bound u64_bound : insolar.

(** Split on every condition of the goal, keeping the equations. *)
Ltac splits_if :=
  repeat match goal with
  | |- context [if ?b then _ else _] =>
      lazymatch type of b with bool => destruct b eqn:? end
  end.
Ltac splits_if_in H :=
  repeat match type of H with
  | context [if ?b then _ else _] =>
      lazymatch type of b with bool => destruct b eqn:? end
  end.

(** Decide every comparison of integers in the goal, dropping the cases that
    cannot be. *)
Ltac decide_Z :=
  repeat (first
    [ match goal with |- context [?x =? ?y] => destruct (Z.eqb_spec x y) end
    | match goal with |- context [?x <=? ?y] => destruct (Z.leb_spec x y) end
    | match goal with |- context [?x <? ?y] => destruct (Z.ltb_spec x y) end];
    cbn [andb orb negb]; try (exfalso; lia)).

(** Peel a successful monadic call: every bind of the hypothesis becomes an
    intermediate value with its equation. *)
Ltac go_step H :=
  match type of H with
  | Ret _ = Ret _ => injection H as H
  | Good _ = Good _ => injection H as H
  | Panic _ = Ret _ => discriminate H
  | Fail _ = Good _ => discriminate H
  | mbind _ _ = Ret _ =>
      let v := fresh "v" in let E := fresh "E" in
      apply go_bind_ret in H as (v & E & H)
  | mbind _ _ = Good _ =>
      let v := fresh "v" in let E := fresh "E" in
      apply result_bind_good in H as (v & E & H)
  end.

(** ** Calls that change a state, may fail and may panic

    A Go method with effects on [S] that returns [(T, error)]: the state after
    an error is the state reached so far, a panic loses everything. *)
Definition io (S A : Type) : Type := S -> go (S * result A).

#[export] Instance io_ret {S} : MRet (io S) := fun A a s => Ret (s, Good a).
#[export] Instance io_bind {S} : MBind (io S) := fun A B f m s =>
  match m s with
  | Ret (s', Good a) => f a s'
  | Ret (s', Fail e) => Ret (s', Fail e)
  | Panic msg => Panic msg
  end.

Definition throw {S A} (e : error) : io S A := fun s => Ret (s, Fail e).
Definition lift_result {S A} (r : result A) : io S A := fun s => Ret (s, r).
Definition lift_go {S A} (m : go A) : io S A := fun s =>
  match m with Ret a => Ret (s, Good a) | Panic msg => Panic msg end.
Definition gets {S A} (f : S -> A) : io S A := fun s => Ret (s, Good (f s)).
Definition modify {S} (f : S -> S) : io S unit := fun s => Ret (f s, Good tt).
(** [if err != nil { return errors.Wrap(err, msg) }] around a call. *)
Definition wrapped {S A} (msg : string) (m : io S A) : io S A := fun s =>
  match m s with
  | Ret (s', Fail e) => Ret (s', Fail (Wrap e msg))
  | r => r
  end.
(** [if c { return err }] *)
Definition guard_io {S} (c : bool) (e : error) : io S unit := if c then throw e else mret tt.

(** The call ends in a state and with an outcome in [Q], and it does not panic
    when [ok] holds: [wp True] is total correctness, [wp False] partial. *)
Definition wp {S A} (ok : Prop) (m : io S A) (s : S) (Q : S -> result A -> Prop) : Prop :=
  match m s with Ret (s', r) => Q s' r | Panic _ => ~ ok end.

Lemma wp_bind {S A B} ok (m : io S A) (f : A -> io S B) s Q :
  wp ok m s (fun s' r => match r with Good a => wp ok (f a) s' Q | Fail e => Q s' (Fail e) end) ->
  wp ok (m ≫= f) s Q.
Proof. unfold wp, mbind, io_bind. by destruct (m s) as [[s' []]|]. Qed.

Lemma wp_wrapped {S A} ok msg (m : io S A) s Q :
  wp ok m s (fun s' r => Q s' (wrap_err r msg)) -> wp ok (wrapped msg m) s Q.
Proof. unfold wp, wrapped. by destruct (m s) as [[s' []]|]. Qed.

Lemma wp_mono {S A} ok (m : io S A) s (Q Q' : S -> result A -> Prop) :
  wp ok m s Q -> (forall s' r, Q s' r -> Q' s' r) -> wp ok m s Q'.
Proof. unfold wp. destruct (m s) as [[s' r]|]; auto. Qed.

Lemma wp_ok {S A} (ok ok' : Prop) (m : io S A) s Q :
  (ok' -> ok) -> wp ok m s Q -> wp ok' m s Q.
Proof. unfold wp. destruct (m s) as [[s' r]|]; auto. Qed.

Lemma wp_total {S A} ok (m : io S A) s Q :
  ok -> wp ok m s Q -> exists s' r, m s = Ret (s', r) /\ Q s' r.
Proof. unfold wp. destruct (m s) as [[s' r]|]; [by exists s', r|done]. Qed.

(** ** State machines *)
Section Reach.
Context {S : Type} (step : S -> S -> Prop).

Inductive reach (s0 : S) : S -> Prop :=
  | reach_init : reach s0 s0
  | reach_step s s' : reach s0 s -> step s s' -> reach s0 s'.

Lemma reach_invariant (I : S -> Prop) s0 s :
  I s0 -> (forall a b, I a -> step a b -> I b) -> reach s0 s -> I s.
Proof. intros H0 Hs Hr. induction Hr; eauto. Qed.
End Reach.

(** ** Generic list facts *)
Section ListFacts.
Context {A : Type}.

(** [for _, x := range xs { if fn(x) { return true } }; return false] with
    the callback's effects on a state of type [S] made explicit. *)
Fixpoint visit {S} (fn : A -> S -> bool * S) (xs : list A) (s : S) : bool * S :=
  match xs with
  | [] => (false, s)
  | x :: xs' =>
      let '(stop, s') := fn x s in
      if stop then (true, s') else visit fn xs' s'
  end.

Lemma visit_app {S} (fn : A -> S -> bool * S) xs ys s :
  visit fn (xs ++ ys) s =
  let '(stop, s') := visit fn xs s in
  if stop then (true, s') else visit fn ys s'.
Proof.
  revert s. induction xs as [|x xs IH]; intros s; simpl; [done|].
  destruct (fn x s) as [[] s']; [done|]. apply IH.
Qed.

(** The callback that collects what it is called with and never stops. *)
Definition collect (x : A) (acc : list A) : bool * list A := (false, acc ++ [x]).

Lemma visit_collect xs acc : visit collect xs acc = (false, acc ++ xs).
Proof.
  revert acc. induction xs as [|x xs IH]; intros acc; simpl.
  - by rewrite app_nil_r.
  - rewrite IH. by rewrite <- (assoc_L (++)).
Qed.
End ListFacts.

Lemma filter_ext_in {A} (P Q : A -> Prop) `{!forall x, Decision (P x)} `{!forall x, Decision (Q x)} (l : list A) :
  (forall x, x ∈ l -> P x <-> Q x) -> filter P l = filter Q l.
Proof.
  induction l as [|x l IH]; intros HPQ; [done|].
  rewrite !filter_cons, IH by (intros y Hy; apply HPQ; by right).
  assert (P x <-> Q x) by (apply HPQ; by left). destruct (decide (P x)), (decide (Q x)); try tauto; done.
Qed.

Lemma filter_all {A} (P : A -> Prop) `{!forall x, Decision (P x)} (l : list A) :
  (forall x, x ∈ l -> P x) -> filter P l = l.
Proof.
  induction l as [|x l IH]; intros HPQ; [done|].
  rewrite filter_cons_True by (apply HPQ; by left). f_equal. apply IH. intros y Hy. apply HPQ. by right.
Qed.

Lemma filter_none {A} (P : A -> Prop) `{!forall x, Decision (P x)} (l : list A) :
  (forall x, x ∈ l -> ~ P x) -> filter P l = [].
Proof.
  induction l as [|x l IH]; intros HPQ; [done|].
  rewrite filter_cons_False by (apply HPQ; by left). apply IH. intros y Hy. apply HPQ. by right.
Qed.

Lemma Forall2_impl_in {A B} (P Q : A -> B -> Prop) (l : list A) (k : list B) :
  Forall2 P l k -> (forall x y, x ∈ l -> P x y -> Q x y) -> Forall2 Q l k.
Proof.
  induction 1 as [|x y l k Hxy Hl IH]; intros HPQ; constructor; [apply HPQ; [by left|done]|].
  apply IH. intros x' y' Hx. apply HPQ. by right.
Qed.

Lemma visit_map {A B S} (f : A -> B) (fn : B -> S -> bool * S) xs s :
  visit (fun a => fn (f a)) xs s = visit fn (f <$> xs) s.
Proof.
  revert s. induction xs as [|x xs IH]; intros s; simpl; [done|].
  destruct (fn (f x) s) as [[] s']; [done|]. apply IH.
Qed.

(** ** Big-endian 32-bit codec ([encoding/binary]) *)
Definition be32 (n : Z) : list Z :=
  [u8 (Z.shiftr n 24); u8 (Z.shiftr n 16); u8 (Z.shiftr n 8); u8 n].
Definition of_be32 (b : list Z) : Z :=
  match b with
  | a :: b :: c :: d :: _ =>
      Z.lor (Z.lor (Z.lor (Z.shiftl a 24) (Z.shiftl b 16)) (Z.shiftl c 8)) d
  | _ => 0
  end.

(** Disjoint bit ranges: [or] is addition. *)
Lemma lor_add a b n :
  0 <= n -> a mod 2^n = 0 -> 0 <= b < 2^n -> Z.lor a b = a + b.
Proof.
  intros Hn Ha Hb. rewrite <- Z.lxor_lor, Z.add_nocarry_lxor; [done| |].
  all: apply Z.bits_inj'; intros i Hi; rewrite Z.land_spec, Z.bits_0.
  all: destruct (Z.lt_ge_cases i n).
  all: try (rewrite <- (Z.mod_pow2_bits_low a n) by lia; by rewrite Ha, Z.bits_0).
  all: rewrite <- (Z.mod_small b (2^n)), Z.mod_pow2_bits_high by lia.
  all: apply andb_false_r.
Qed.

Lemma mod_pow2_split n k : 0 <= k -> n mod 2^(k + 8) = n mod 2^k + 2^k * ((n / 2^k) mod 2^8).
Proof. intros. rewrite Z.pow_add_r, Z.rem_mul_r by lia. done. Qed.

Lemma be32_arith n :
  n mod 2^32 = u8 (n / 2^24) * 2^24 + u8 (n / 2^16) * 2^16 + u8 (n / 2^8) * 2^8 + u8 n.
Proof.
  unfold u8. change 32 with (24 + 8) at 1. rewrite mod_pow2_split by lia.
  change 24 with (16 + 8) at 1. rewrite mod_pow2_split by lia.
  change 16 with (8 + 8) at 1. rewrite mod_pow2_split by lia. lia.
Qed.

Lemma of_be32_be32 n rest : 0 <= n < 2^32 -> of_be32 (be32 n ++ rest) = n.
Proof.
  intros Hn. rewrite <- (Z.mod_small n (2^32)) at 2 by done. rewrite be32_arith.
  unfold of_be32, be32. simpl. rewrite !Z.shiftl_mul_pow2, !Z.shiftr_div_pow2 by lia.
  set (b1 := u8 (n / 2^8)). set (b2 := u8 (n / 2^16)). set (b3 := u8 (n / 2^24)).
  pose proof (u8_bound n). pose proof (u8_bound (n / 2^8) : 0 <= b1 < _).
  pose proof (u8_bound (n / 2^16) : 0 <= b2 < _).
  rewrite (lor_add (b3 * 2^24) _ 24), (lor_add _ (b1 * 2^8) 16), (lor_add _ _ 8); try lia.
  all: apply Z.mod_divide; [lia|].
  - exists (b3 * 2^16 + b2 * 2^8 + b1); ring.
  - exists (b3 * 2^8 + b2); ring.
  - by exists b3.
Qed.
