(* ===== verification/Pulse.v ===== *)
(** * Pulse numbers, epochs and pulse data (src/pulse)

    [Number] and [Epoch] are 32-bit unsigned integers kept in [Z]; their
    additions wrap with [u32].  A [time.Time] is its Unix time in nanoseconds.
    Methods keep their Go names behind the receiver's type:
    [Number_TryNext] is [Number.TryNext] of pulse_number.go. *)
From S2P Require Import Prelude.

(** ** pulse_number.go *)
Definition Unknown : Z := 0.
Definition LocalRelative : Z := 65536.
Definition MinTimePulse : Z := LocalRelative + 1.
Definition MaxTimePulse : Z := Z.shiftl 1 30 - 1.
Definition NumberSize : Z := 4.
Definition UnixTimeOfMinTimePulse : Z := 1546300800.
Definition UnixTimeOfMaxTimePulse : Z := UnixTimeOfMinTimePulse - MinTimePulse + MaxTimePulse.

(** [time.Time] as nanoseconds since the Unix epoch *)
Definition Second : Z := 1000000000.
Definition time_Unix (t : Z) : Z := t / Second.
Definition timeOfMinTimePulse : Z := UnixTimeOfMinTimePulse * Second.

Definition OfUnixTime (u : Z) : Z :=
  if (u <? UnixTimeOfMinTimePulse) || (u >? UnixTimeOfMaxTimePulse) then Unknown
  else u32 (MinTimePulse + u32 (i64 (u - UnixTimeOfMinTimePulse))).

Definition OfTime (t : Z) : Z := OfUnixTime (time_Unix t).

Definition IsValidAsPulseNumber (n : Z) : bool :=
  (n >=? MinTimePulse) && (n <=? MaxTimePulse).

Definition Number_IsTimePulse (n : Z) : bool := IsValidAsPulseNumber (i64 n).

(** The error comes with a fallback time in Go; callers drop it. *)
Definition Number_AsApproximateTime (n : Z) : result Z :=
  if negb (Number_IsTimePulse n) then Fail (Errorf "illegal state")
  else Good (timeOfMinTimePulse + i64 (Second * u32 (n - MinTimePulse))).

Definition Number_IsBefore (n pn : Z) : bool := (n >=? MinTimePulse) && (n <? pn).
Definition Number_IsAfter (n pn : Z) : bool := (n >? pn) && (n <=? MaxTimePulse).
Definition Number_IsBeforeOrEq (n pn : Z) : bool := (n >=? MinTimePulse) && (n <=? pn).
Definition Number_IsEqOrAfter (n pn : Z) : bool := (n >=? pn) && (n <=? MaxTimePulse).
Definition Number_IsSpecialOrTimePulse (n : Z) : bool := (n >? Unknown) && (n <=? MaxTimePulse).
Definition Number_IsSpecial (n : Z) : bool := (n >? Unknown) && (n <? MinTimePulse).
Definition Number_IsUnknown (n : Z) : bool := n =? Unknown.
Definition Number_IsUnknownOrTimePulse (n : Z) : bool :=
  (n =? Unknown) || ((n >=? MinTimePulse) && (n <=? MaxTimePulse)).
Definition Number_IsUnknownOrEqualTo (n o : Z) : bool := Number_IsUnknown n || (n =? o).

Definition Number_TryNext (n delta : Z) : Z * bool :=
  if negb (Number_IsTimePulse n) then (Unknown, false)
  else
    let n := u32 (n + delta) in
    if n >? MaxTimePulse then (MaxTimePulse, false) else (n, true).

Definition Number_Next (n delta : Z) : go Z :=
  let '(n, ok) := Number_TryNext n delta in
  if ok then Ret n
  else if Number_IsUnknown n then Panic "not a time pulse"
  else Panic "overflow".

Definition Number_TryPrev (n delta : Z) : Z * bool :=
  if negb (Number_IsTimePulse n) then (Unknown, false)
  else
    let n := u32 (n - delta) in
    if n <? MinTimePulse then (MinTimePulse, false) else (n, true).

Definition Number_Prev (n delta : Z) : go Z :=
  let '(n, ok) := Number_TryPrev n delta in
  if ok then Ret n
  else if Number_IsUnknown n then Panic "not a time pulse"
  else Panic "underflow".

Definition Number_WithFlags (n flags : Z) : go Z :=
  if n >? MaxTimePulse then Panic "illegal value"
  else if flags >? 3 then Panic "illegal value"
  else Ret (Z.lor n (u32 (Z.shiftl flags 30))).

Definition Number_Bytes (n : Z) : list Z := be32 n.

(** [MarshalTo] writes into the caller's buffer: the result is the count and
    the buffer afterwards. *)
Definition Number_MarshalTo (n : Z) (data : list Z) : result (Z * list Z) :=
  if Z.of_nat (length data) <? NumberSize
  then Fail (Errorf "not enough bytes to marshal pulse.Number")
  else Good (NumberSize, be32 n ++ drop 4 data).

Definition Number_Unmarshal (data : list Z) : result Z :=
  if Z.of_nat (length data) <? NumberSize
  then Fail (Errorf "not enough bytes to unmarshal pulse.Number")
  else Good (of_be32 data).

Definition Number_EnsureTimePulse (n : Z) : go Z :=
  if Number_IsTimePulse n then Ret n else Panic "illegal value".

Definition Number_AsEpoch (n : Z) : go Z :=
  if Number_IsTimePulse n then Ret n else Panic "illegal value".

Definition OfInt (n : Z) : Z := Z.land (u32 n) MaxTimePulse.
Definition OfUint32 (n : Z) : Z := Z.land n MaxTimePulse.
Definition FlagsOf (n : Z) : Z := Z.shiftr n 30.

(** ** pulse_epoch.go *)
Definition InvalidPulseEpoch : Z := 0.
Definition EphemeralPulseEpoch : Z := 1.
Definition ArticulationPulseEpoch : Z := 2.
Definition MaxSpecialEpoch : Z := 2.

Definition Epoch_IsUnknown (v : Z) : bool := v =? InvalidPulseEpoch.
Definition Epoch_IsEphemeral (v : Z) : bool := v =? EphemeralPulseEpoch.
Definition Epoch_IsArticulation (v : Z) : bool := v =? ArticulationPulseEpoch.

(** (isValid, isSpecial) *)
Definition Epoch_Classify (v : Z) : bool * bool :=
  if v >? MaxTimePulse then (false, false)
  else if v >=? MinTimePulse then (true, false)
  else if v <=? MaxSpecialEpoch then (negb (v =? InvalidPulseEpoch), true)
  else (false, false).

Definition Epoch_IsTimeEpoch (v : Z) : bool :=
  let '(isValid, isSpecial) := Epoch_Classify v in isValid && negb isSpecial.

Definition Epoch_IsValidEpoch (v : Z) : bool := (Epoch_Classify v).1.

Definition Epoch_IsCompatible (v vv : Z) : bool :=
  let '(isValid, isSpecial) := Epoch_Classify v in
  if negb isValid then false
  else if negb isSpecial then (vv =? ArticulationPulseEpoch) || Epoch_IsTimeEpoch vv
  else if v =? vv then true
  else if v =? ArticulationPulseEpoch then Epoch_IsTimeEpoch vv
  else false.

(** ** pulse_data.go *)
Record Data : Type := mkData {
  PulseNumber : Z;
  PulseEpoch : Z;
  NextPulseDelta : Z;
  PrevPulseDelta : Z;
  Timestamp : Z;
  PulseEntropy : list Z;
}.

#[export] Instance Data_eq_dec : EqDecision Data.
Proof. solve_decision. Defined.

(** The fields fit the widths Go gives them. *)
Definition Data_typed (d : Data) : Prop :=
  0 <= PulseNumber d < 2^32 /\ 0 <= PulseEpoch d < 2^32 /\
  0 <= NextPulseDelta d < 2^16 /\ 0 <= PrevPulseDelta d < 2^16.

(** longbits.FillBitsWithStaticNoise over the 32 bytes of a Bits256 (Go's
    [base + i>>3] parses as [base + (i>>3)]). *)
Definition onesCount32 (z : Z) : Z :=
  foldr (fun i acc => Z.b2z (Z.testbit z i) + acc) 0 (seqZ 0 32).

Definition staticNoiseWord (base i : Z) : Z :=
  let n := u32 (base + Z.shiftr i 3) in
  let u := Z.lxor (u32 (Z.lnot n)) (u32 (Z.shiftl n 16)) in
  let u := Z.lor u (u64 (Z.shiftl (u64 (u + 1)) 31)) in
  Z.lxor u (Z.shiftr u 1).

Definition le64 (u : Z) : list Z := (fun k => u8 (Z.shiftr u (8 * k))) <$> seqZ 0 8.

Definition FillBitsWithStaticNoise (base : Z) (words : Z) : list Z :=
  let base := if onesCount32 base <? 8 then Z.lxor base 0x6206cc91 else base in
  mjoin ((fun k => le64 (staticNoiseWord base (8 * k))) <$> seqZ 0 words).

Definition fixedPulseEntropy (pn : Z) : list Z := FillBitsWithStaticNoise pn 4.
Definition zeroEntropy : list Z := replicate 32 0.

Section PulseData.
(** [time.Now().Unix()] *)
Variable now : Z.

Definition newPulsarData (pn delta : Z) (entropy : list Z) : go Data :=
  if delta =? 0 then Panic "delta cant be zero"
  else
    ep ← Number_AsEpoch pn;
    Ret {| PulseNumber := pn; PulseEpoch := ep; NextPulseDelta := delta;
           PrevPulseDelta := 0; Timestamp := u32 now; PulseEntropy := entropy |}.

Definition NewPulsarData (pn deltaNext deltaPrev : Z) (entropy : list Z) : go Data :=
  r ← newPulsarData pn deltaNext entropy;
  Ret {| PulseNumber := PulseNumber r; PulseEpoch := PulseEpoch r;
         NextPulseDelta := NextPulseDelta r; PrevPulseDelta := deltaPrev;
         Timestamp := Timestamp r; PulseEntropy := PulseEntropy r |}.

Definition NewFirstPulsarData (delta : Z) (entropy : list Z) : go Data :=
  newPulsarData (OfTime (now * Second)) delta entropy.

Definition newEphemeralData (pn : Z) : Data :=
  {| PulseNumber := pn; PulseEpoch := EphemeralPulseEpoch; NextPulseDelta := 1;
     PrevPulseDelta := 0; Timestamp := 0; PulseEntropy := fixedPulseEntropy pn |}.

Definition NewFirstEphemeralData : Data := newEphemeralData MinTimePulse.

Definition Data_isExpected (r : Data) : bool := NextPulseDelta r =? 0.
Definition Data_isFirst (r : Data) : bool := PrevPulseDelta r =? 0.

Definition Data_HasValidEpoch (r : Data) : bool :=
  let '(isValid, isSpecial) := Epoch_Classify (PulseEpoch r) in
  if negb isValid then false
  else if isSpecial then true
  else PulseEpoch r <=? PulseNumber r.

Definition Data_HasValidTimeEpoch (r : Data) : bool :=
  (PulseEpoch r <=? PulseNumber r) && Epoch_IsTimeEpoch (PulseEpoch r).

Definition Data_EnsurePulseData (r : Data) : go unit :=
  if Data_isExpected r then Panic "next delta can't be zero"
  else if negb (Number_IsTimePulse (PulseNumber r)) then Panic "incorrect pulse number"
  else if negb (Data_HasValidEpoch r) then Panic "incorrect pulse epoch"
  else _ ← Number_Prev (PulseNumber r) (PrevPulseDelta r); Ret tt.

Definition Data_IsValidPulseData (r : Data) : bool :=
  if Data_isExpected r then false
  else if negb (Number_IsTimePulse (PulseNumber r)) then false
  else if negb (Data_HasValidEpoch r) then false
  else true.

Definition Data_IsEmpty (r : Data) : bool := Number_IsUnknown (PulseNumber r).
Definition Data_IsEmptyCompatibleWith (r : Data) (epoch : Z) : bool :=
  Number_IsUnknown (PulseNumber r) && Epoch_IsCompatible (PulseEpoch r) epoch.
Definition Data_IsValidExpectedPulseData (r : Data) : bool :=
  Data_isExpected r && Number_IsTimePulse (PulseNumber r) && Data_HasValidEpoch r.
Definition Data_IsValidExpectedPulsarData (r : Data) : bool :=
  Data_isExpected r && Number_IsTimePulse (PulseNumber r) && Data_HasValidTimeEpoch r.

Definition Data_EnsurePulsarData (r : Data) : go unit :=
  if negb (Epoch_IsTimeEpoch (PulseEpoch r)) then Panic "incorrect pulse epoch by pulsar"
  else Data_EnsurePulseData r.
Definition Data_IsValidPulsarData (r : Data) : bool :=
  if negb (Epoch_IsTimeEpoch (PulseEpoch r)) then false else Data_IsValidPulseData r.
Definition Data_EnsureEphemeralData (r : Data) : go unit :=
  if negb (Epoch_IsEphemeral (PulseEpoch r)) then Panic "incorrect pulse epoch"
  else Data_EnsurePulseData r.
Definition Data_IsValidEphemeralData (r : Data) : bool :=
  if negb (Epoch_IsEphemeral (PulseEpoch r)) then false else Data_IsValidPulseData r.

Definition Data_IsFromPulsar (r : Data) : bool :=
  Epoch_IsTimeEpoch (PulseEpoch r) && Number_IsTimePulse (PulseNumber r).
Definition Data_IsFromEphemeral (r : Data) : bool :=
  Epoch_IsEphemeral (PulseEpoch r) && Number_IsTimePulse (PulseNumber r).

Definition Data_GetStartOfEpoch (r : Data) : Z :=
  if negb (Number_IsTimePulse (PulseNumber r)) then Unknown
  else if Data_HasValidTimeEpoch r then OfUint32 (PulseEpoch r)
  else PulseNumber r.

Definition Data_IsValidNext (r n : Data) : bool :=
  if negb (NextPulseDelta r =? PrevPulseDelta n) || Data_isExpected r || Data_isExpected n
  then false
  else if negb (Number_IsTimePulse (PulseNumber r)) then false
  else if negb (u32 (PulseNumber r + NextPulseDelta r) =? PulseNumber n) then false
  else if negb (Epoch_IsCompatible (PulseEpoch r) (PulseEpoch n)) then false
  else true.

Definition Data_IsValidPrev (r p : Data) : bool :=
  if negb (NextPulseDelta p =? PrevPulseDelta r) || Data_isFirst r then false
  else if negb (Number_IsTimePulse (PulseNumber r)) then false
  else if negb (u32 (PulseNumber p + NextPulseDelta p) =? PulseNumber r) then false
  else if negb (Epoch_IsCompatible (PulseEpoch r) (PulseEpoch p)) then false
  else true.

Definition Data_GetNextPulseNumber (r : Data) : Z * bool :=
  if Data_isExpected r then (PulseNumber r, false)
  else Number_TryNext (PulseNumber r) (NextPulseDelta r).
Definition Data_GetPrevPulseNumber (r : Data) : Z * bool :=
  if Data_isFirst r then (PulseNumber r, false)
  else Number_TryPrev (PulseNumber r) (PrevPulseDelta r).
Definition Data_NextPulseNumber (r : Data) : go Z :=
  if Data_isExpected r then Panic "illegal state"
  else Number_Next (PulseNumber r) (NextPulseDelta r).
Definition Data_PrevPulseNumber (r : Data) : go Z :=
  if Data_isFirst r then Panic "illegal state"
  else Number_Prev (PulseNumber r) (PrevPulseDelta r).

Definition Data_CreateNextExpected (r : Data) : go Data :=
  pn ← Data_NextPulseNumber r;
  ep ← (if Epoch_IsTimeEpoch (PulseEpoch r) then Number_AsEpoch pn
        else Ret (PulseEpoch r));
  Ret {| PulseNumber := pn; PulseEpoch := ep; NextPulseDelta := 0;
         PrevPulseDelta := NextPulseDelta r; Timestamp := 0;
         PulseEntropy := zeroEntropy |}.

Definition setPrevDelta (s : Data) (d : Z) : Data :=
  {| PulseNumber := PulseNumber s; PulseEpoch := PulseEpoch s;
     NextPulseDelta := NextPulseDelta s; PrevPulseDelta := d;
     Timestamp := Timestamp s; PulseEntropy := PulseEntropy s |}.

Definition Data_createNextEphemeralPulse (r : Data) : go Data :=
  pn ← Data_NextPulseNumber r;
  Ret (setPrevDelta (newEphemeralData pn) (NextPulseDelta r)).

Definition Data_CreateNextEphemeralPulse (r : Data) : go Data :=
  if negb (Data_IsFromEphemeral r) then Panic "prev is not ephemeral"
  else Data_createNextEphemeralPulse r.

(** [entropyGen] is called once: its value is an argument. *)
Definition Data_createNextPulsarPulse (r : Data) (delta : Z) (entropyGen : list Z) : go Data :=
  pn ← Data_NextPulseNumber r;
  s ← newPulsarData pn delta entropyGen;
  Ret (setPrevDelta s (NextPulseDelta r)).

Definition Data_CreateNextPulsarPulse (r : Data) (delta : Z) (entropyGen : list Z) : go Data :=
  if negb (Epoch_IsTimeEpoch (PulseEpoch r)) then Panic "not time pulse"
  else Data_createNextPulsarPulse r delta entropyGen.

Definition Data_CreateNextPulse (r : Data) (entropyGen : list Z) : go Data :=
  if Epoch_IsEphemeral (PulseEpoch r) then Data_createNextEphemeralPulse r
  else if Epoch_IsTimeEpoch (PulseEpoch r)
  then Data_createNextPulsarPulse r (NextPulseDelta r) entropyGen
  else if Epoch_IsArticulation (PulseEpoch r) then Panic "articulation pulse"
  else Panic "unknown pulse type".

Definition Data_IsExpectedPulse (r : Data) : bool :=
  Data_isExpected r && Number_IsTimePulse (PulseNumber r).
Definition Data_IsFirstPulse (r : Data) : bool :=
  Data_isFirst r && Number_IsTimePulse (PulseNumber r).
End PulseData.

(** DataSorter.Less *)
Definition DataSorter_Less (a b : Data) : bool := PulseNumber a <? PulseNumber b.

(** ** Properties of numbers *)

(** The constants in figures, everywhere. *)
Ltac pulse_consts :=
  change UnixTimeOfMaxTimePulse with 2619977086 in *;
  change UnixTimeOfMinTimePulse with 1546300800 in *;
  change MaxTimePulse with 1073741823 in *; change MinTimePulse with 65537 in *;
  change MaxSpecialEpoch with 2 in *; change ArticulationPulseEpoch with 2 in *;
  change EphemeralPulseEpoch with 1 in *; change InvalidPulseEpoch with 0 in *;
  change Unknown with 0 in *; change NumberSize with 4 in *.
Ltac pulse_lia := pulse_consts; lia.

Lemma Number_IsTimePulse_eq n :
  0 <= n < 2^32 -> Number_IsTimePulse n = (MinTimePulse <=? n) && (n <=? MaxTimePulse).
Proof.
  intros. unfold Number_IsTimePulse, IsValidAsPulseNumber. rewrite i64_small by lia. lia.
Qed.

Lemma Number_TryNext_ok n d m :
  0 <= n < 2^32 -> 0 <= d < 2^16 ->
  Number_TryNext n d = (m, true) <->
  MinTimePulse <= n /\ m = n + d /\ m <= MaxTimePulse.
Proof.
  intros Hn Hd. unfold Number_TryNext. rewrite Number_IsTimePulse_eq by done.
  pulse_consts. destruct ((_ <=? n) && _) eqn:E; simpl.
  - rewrite u32_small by lia. case_match; (split; [intros [= <-]|]; try lia).
    by intros (_ & -> & _).
  - split; [done|lia].
Qed.

Lemma Number_TryPrev_ok n d m :
  0 <= n < 2^32 -> 0 <= d < 2^16 ->
  Number_TryPrev n d = (m, true) <->
  n <= MaxTimePulse /\ m = n - d /\ MinTimePulse <= m.
Proof.
  intros Hn Hd. unfold Number_TryPrev. rewrite Number_IsTimePulse_eq by done.
  pulse_consts. destruct ((_ <=? n) && _) eqn:E; simpl.
  - rewrite u32_small by lia. case_match; (split; [intros [= <-]|]; try lia).
    by intros (_ & -> & _).
  - split; [done|lia].
Qed.

Lemma Number_Next_ok n d m :
  0 <= n < 2^32 -> 0 <= d < 2^16 ->
  Number_Next n d = Ret m <-> MinTimePulse <= n /\ m = n + d /\ m <= MaxTimePulse.
Proof.
  intros Hn Hd. rewrite <- Number_TryNext_ok by done. unfold Number_Next.
  destruct (Number_TryNext n d) as [x []]; [|destruct (Number_IsUnknown x)].
  all: split; intros [= ]; by subst.
Qed.

Lemma Number_Prev_ok n d m :
  0 <= n < 2^32 -> 0 <= d < 2^16 ->
  Number_Prev n d = Ret m <-> n <= MaxTimePulse /\ m = n - d /\ MinTimePulse <= m.
Proof.
  intros Hn Hd. rewrite <- Number_TryPrev_ok by done. unfold Number_Prev.
  destruct (Number_TryPrev n d) as [x []]; [|destruct (Number_IsUnknown x)].
  all: split; intros [= ]; by subst.
Qed.

(** [TryNext] and [TryPrev] are inverse to each other exactly on the
    successes: no 32-bit wrap-around is ever taken for a success, and a step
    forward succeeds precisely when the same step back from its result does. *)
Theorem Number_TryNext_TryPrev n m d :
  0 <= n < 2^32 -> 0 <= m < 2^32 -> 0 <= d < 2^16 ->
  Number_TryNext n d = (m, true) <-> Number_TryPrev m d = (n, true).
Proof.
  intros. rewrite Number_TryNext_ok, Number_TryPrev_ok by done. lia.
Qed.

Example Number_TryNext_TryPrev_witness :
  Number_TryNext 65537 10 = (65547, true) <-> Number_TryPrev 65547 10 = (65537, true).
Proof. apply (Number_TryNext_TryPrev 65537 65547 10); lia. Defined.

Lemma AsApproximateTime_good n :
  MinTimePulse <= n <= MaxTimePulse ->
  Number_AsApproximateTime n = Good ((UnixTimeOfMinTimePulse + (n - MinTimePulse)) * Second).
Proof.
  intros Hn. unfold Number_AsApproximateTime, timeOfMinTimePulse, Second.
  pulse_consts. rewrite Number_IsTimePulse_eq by lia.
  replace (_ && _) with true by pulse_lia. simpl.
  rewrite u32_small, i64_small by lia. f_equal. lia.
Qed.

Lemma OfUnixTime_in u :
  UnixTimeOfMinTimePulse <= u <= UnixTimeOfMaxTimePulse ->
  OfUnixTime u = MinTimePulse + (u - UnixTimeOfMinTimePulse).
Proof.
  intros Hu. unfold OfUnixTime. pulse_consts.
  replace ((u <? _) || (u >? _)) with false by lia.
  by rewrite i64_small, (u32_small (u - _)), u32_small by lia.
Qed.

(** the pulse number of a Unix time and the approximate time of a pulse
    number are inverse on the supported range 2019-01-01 .. 2053-01-08, and
    every time outside it maps to [Unknown]. *)
Theorem OfUnixTime_AsApproximateTime :
  (forall u, UnixTimeOfMinTimePulse <= u <= UnixTimeOfMaxTimePulse ->
    exists t, Number_AsApproximateTime (OfUnixTime u) = Good t /\ time_Unix t = u) /\
  (forall n, MinTimePulse <= n <= MaxTimePulse ->
    exists t, Number_AsApproximateTime n = Good t /\ OfTime t = n) /\
  (forall u, ~ (UnixTimeOfMinTimePulse <= u <= UnixTimeOfMaxTimePulse) ->
    OfUnixTime u = Unknown).
Proof.
  repeat split.
  - intros u Hu. rewrite OfUnixTime_in, AsApproximateTime_good by
      (rewrite ?OfUnixTime_in by done; pulse_lia).
    eexists; split; [done|]. unfold time_Unix, Second. rewrite Z.div_mul; lia.
  - intros n Hn. rewrite AsApproximateTime_good by done. eexists; split; [done|].
    unfold OfTime, time_Unix, Second. rewrite Z.div_mul by lia.
    rewrite OfUnixTime_in by pulse_lia. lia.
  - intros u Hu. unfold OfUnixTime. by replace ((u <? _) || (u >? _)) with true by lia.
Qed.

Example OfUnixTime_AsApproximateTime_witness :
  (exists t, Number_AsApproximateTime (OfUnixTime 1600000000) = Good t /\
             time_Unix t = 1600000000) /\ OfUnixTime 0 = Unknown.
Proof.
  destruct OfUnixTime_AsApproximateTime as (H1 & _ & H3). split.
  - apply H1. vm_compute. split; discriminate.
  - apply H3. vm_compute. intros [H _]. by apply H.
Defined.

Lemma lor_flags n f :
  0 <= n <= MaxTimePulse -> 0 <= f <= 3 -> Z.lor n (u32 (Z.shiftl f 30)) = f * 2^30 + n.
Proof.
  pulse_consts. intros Hn Hf.
  rewrite Z.shiftl_mul_pow2, u32_small by lia. rewrite Z.lor_comm.
  apply (lor_add _ _ 30); [lia| |lia]. apply Z.mod_mul. lia.
Qed.

(** a pulse number survives its two encodings: packed with 2 flag bits into
    a 32-bit word ([WithFlags], [OfUint32], [FlagsOf]), and as 4 big-endian
    bytes at the front of any buffer ([Bytes], [MarshalTo], [Unmarshal]). *)
Theorem Number_encodings n flags buf :
  0 <= n <= MaxTimePulse -> 0 <= flags <= 3 -> 4 <= Z.of_nat (length buf) ->
  (exists w, Number_WithFlags n flags = Ret w /\ 0 <= w < 2^32 /\
             OfUint32 w = n /\ FlagsOf w = flags) /\
  Number_Unmarshal (Number_Bytes n) = Good n /\
  (exists out, Number_MarshalTo n buf = Good (NumberSize, out) /\
               length out = length buf /\ Number_Unmarshal out = Good n).
Proof.
  intros Hn Hf Hb. pose proof (Hn : 0 <= n <= 1073741823) as Hn'. repeat split.
  - exists (flags * 2^30 + n). unfold Number_WithFlags.
    replace (n >? MaxTimePulse) with false by lia. replace (flags >? 3) with false by lia.
    rewrite lor_flags by lia. split; [done|]. split; [lia|].
    unfold OfUint32, FlagsOf. change MaxTimePulse with (Z.ones 30).
    rewrite Z.land_ones, Z.shiftr_div_pow2 by lia.
    Z.to_euclidean_division_equations. lia.
  - transitivity (Good (of_be32 (be32 n ++ []))); [done|]. by rewrite of_be32_be32 by lia.
  - assert (length (be32 n ++ drop 4 buf) = length buf) as Hl.
    { rewrite length_app, length_drop. simpl. lia. }
    unfold Number_MarshalTo, Number_Unmarshal, NumberSize in *.
    replace (Z.of_nat (length buf) <? 4) with false by lia.
    eexists; split; [done|]. rewrite Hl. split; [done|].
    replace (_ <? 4) with false by lia. by rewrite of_be32_be32 by lia.
Qed.

Example Number_encodings_witness :
  (exists w, Number_WithFlags 65600 2 = Ret w /\ 0 <= w < 2^32 /\
             OfUint32 w = 65600 /\ FlagsOf w = 2) /\
  Number_Unmarshal (Number_Bytes 65600) = Good 65600.
Proof.
  destruct (Number_encodings 65600 2 [0;0;0;0;9]) as (H1 & H2 & _); [..|by split].
  - vm_compute; split; discriminate.
  - lia.
  - vm_compute; discriminate.
Defined.

(** ** Properties of epochs and pulse data *)
Lemma Epoch_Classify_spec v :
  0 <= v < 2^32 ->
  Epoch_Classify v =
    (bool_decide (1 <= v <= 2 \/ MinTimePulse <= v <= MaxTimePulse), bool_decide (v <= 2)).
Proof.
  intros Hv. unfold Epoch_Classify. pulse_consts.
  repeat case_match; f_equal; symmetry;
    first [apply bool_decide_eq_true | apply bool_decide_eq_false
          | destruct (v =? 0) eqn:?; simpl;
            [apply bool_decide_eq_false|apply bool_decide_eq_true]]; lia.
Qed.

Lemma Epoch_IsTimeEpoch_spec v :
  0 <= v < 2^32 -> Epoch_IsTimeEpoch v = true <-> MinTimePulse <= v <= MaxTimePulse.
Proof.
  intros Hv. unfold Epoch_IsTimeEpoch. rewrite Epoch_Classify_spec by done. pulse_consts.
  rewrite andb_true_iff, negb_true_iff, bool_decide_eq_true, bool_decide_eq_false. lia.
Qed.

(** The two families of epochs: the ephemeral network and the timeline. *)
Definition epoch_timeline (v : Z) : Prop :=
  v = ArticulationPulseEpoch \/ MinTimePulse <= v <= MaxTimePulse.

Lemma Epoch_IsCompatible_spec v vv :
  0 <= v < 2^32 -> 0 <= vv < 2^32 ->
  Epoch_IsCompatible v vv = true <->
  (v = EphemeralPulseEpoch /\ vv = EphemeralPulseEpoch) \/
  (epoch_timeline v /\ epoch_timeline vv).
Proof.
  intros Hv Hvv. unfold Epoch_IsCompatible, epoch_timeline.
  pose proof (Epoch_IsTimeEpoch_spec vv Hvv). rewrite Epoch_Classify_spec by done.
  pulse_consts. destruct (bool_decide (1 <= v <= 2 \/ _)) eqn:E1;
    destruct (bool_decide (v <= 2)) eqn:E2; simpl;
    rewrite ?bool_decide_eq_true, ?bool_decide_eq_false in *.
  - destruct (v =? vv) eqn:?; [lia|]. destruct (v =? 2) eqn:?; [|lia].
    rewrite H. lia.
  - rewrite orb_true_iff, H. lia.
  - lia.
  - lia.
Qed.

Lemma Epoch_IsCompatible_sym v w :
  0 <= v < 2^32 -> 0 <= w < 2^32 -> Epoch_IsCompatible v w = Epoch_IsCompatible w v.
Proof. intros Hv Hw. apply eq_true_iff_eq. rewrite !Epoch_IsCompatible_spec by done. tauto. Qed.

(** [IsCompatible] relates epochs symmetrically and transitively, and each
    valid epoch with itself (an invalid epoch with nothing): the check does
    not depend on which side of a pulse link asks. *)
Theorem Epoch_IsCompatible_per :
  (forall v w, 0 <= v < 2^32 -> 0 <= w < 2^32 ->
     Epoch_IsCompatible v w = Epoch_IsCompatible w v) /\
  (forall v w x, 0 <= v < 2^32 -> 0 <= w < 2^32 -> 0 <= x < 2^32 ->
     Epoch_IsCompatible v w = true -> Epoch_IsCompatible w x = true ->
     Epoch_IsCompatible v x = true) /\
  (forall v, 0 <= v < 2^32 -> Epoch_IsCompatible v v = Epoch_IsValidEpoch v).
Proof.
  repeat split.
  - by apply Epoch_IsCompatible_sym.
  - intros v w x Hv Hw Hx. rewrite !Epoch_IsCompatible_spec by done.
    unfold epoch_timeline. pulse_lia.
  - intros v Hv. apply eq_true_iff_eq. rewrite Epoch_IsCompatible_spec by done.
    unfold Epoch_IsValidEpoch, epoch_timeline. rewrite Epoch_Classify_spec by done.
    simpl. rewrite bool_decide_eq_true. pulse_lia.
Qed.

Example Epoch_IsCompatible_per_witness :
  Epoch_IsCompatible 2 65537 = Epoch_IsCompatible 65537 2 /\
  Epoch_IsCompatible 70000 65537 = true /\ Epoch_IsCompatible 1 1 = Epoch_IsValidEpoch 1.
Proof.
  destruct Epoch_IsCompatible_per as (H1 & H2 & H3). split; [|split].
  - apply H1; lia.
  - apply (H2 70000 2 65537); try lia; reflexivity.
  - apply H3; lia.
Defined.

Lemma Data_HasValidEpoch_spec r :
  Data_typed r ->
  Data_HasValidEpoch r = true <->
  1 <= PulseEpoch r <= 2 \/
  (MinTimePulse <= PulseEpoch r <= MaxTimePulse /\ PulseEpoch r <= PulseNumber r).
Proof.
  intros (H1 & H2 & _). unfold Data_HasValidEpoch. rewrite Epoch_Classify_spec by done.
  pulse_consts. destruct (bool_decide (1 <= _ <= 2 \/ _)) eqn:E1;
    destruct (bool_decide (_ <= 2)) eqn:E2; simpl;
    rewrite ?bool_decide_eq_true, ?bool_decide_eq_false in *; lia.
Qed.

Lemma Data_IsValidPulseData_spec r :
  Data_typed r ->
  Data_IsValidPulseData r = true <->
  NextPulseDelta r <> 0 /\ MinTimePulse <= PulseNumber r <= MaxTimePulse /\
  Data_HasValidEpoch r = true.
Proof.
  intros (H1 & _). unfold Data_IsValidPulseData, Data_isExpected.
  rewrite Number_IsTimePulse_eq by done. pulse_consts.
  destruct (NextPulseDelta r =? 0) eqn:?; [lia|].
  destruct ((_ <=? _) && _) eqn:?; simpl; [|lia].
  destruct (Data_HasValidEpoch r); simpl; lia.
Qed.

Lemma Data_EnsurePulseData_ok r :
  Data_typed r ->
  Data_EnsurePulseData r = Ret tt <->
  NextPulseDelta r <> 0 /\ MinTimePulse <= PulseNumber r <= MaxTimePulse /\
  Data_HasValidEpoch r = true /\ MinTimePulse <= PulseNumber r - PrevPulseDelta r.
Proof.
  intros Ht. pose proof Ht as (H1 & H2 & H3 & H4).
  unfold Data_EnsurePulseData, Data_isExpected. rewrite Number_IsTimePulse_eq by done.
  destruct (NextPulseDelta r =? 0) eqn:?; [split; [done|lia]|].
  destruct ((_ <=? _) && _) eqn:?; simpl; [|split; [done|lia]].
  destruct (Data_HasValidEpoch r); simpl; [|split; [done|by intros (_ & _ & [= ] & _)]].
  rewrite go_bind_ret. split.
  - intros (p & Hp & _). apply Number_Prev_ok in Hp; [|done..]. lia.
  - intros (_ & _ & _ & Hp). eexists; split; [|done]. apply Number_Prev_ok; [done..|].
    repeat split; [lia|done].
Qed.

(** [EnsurePulseData] returns, rather than panics, exactly on the data that
    [IsValidPulseData] accepts and whose previous pulse number does not fall
    below the first time pulse: the predicate alone is the weaker test. *)
Theorem Data_EnsurePulseData_iff r :
  Data_typed r ->
  Data_EnsurePulseData r = Ret tt <->
  Data_IsValidPulseData r = true /\ MinTimePulse <= PulseNumber r - PrevPulseDelta r.
Proof.
  intros Ht. rewrite Data_EnsurePulseData_ok, Data_IsValidPulseData_spec by done. tauto.
Qed.

Example Data_EnsurePulseData_iff_witness :
  Data_EnsurePulseData (mkData 65600 65537 10 10 0 []) = Ret tt <->
  Data_IsValidPulseData (mkData 65600 65537 10 10 0 []) = true /\ 65537 <= 65600 - 10.
Proof.
  apply (Data_EnsurePulseData_iff (mkData 65600 65537 10 10 0 [])).
  repeat split; vm_compute; congruence.
Defined.

Lemma Data_IsValidNext_spec r n :
  Data_typed r -> Data_typed n ->
  Data_IsValidNext r n = true <->
  NextPulseDelta r = PrevPulseDelta n /\ NextPulseDelta r <> 0 /\ NextPulseDelta n <> 0 /\
  MinTimePulse <= PulseNumber r <= MaxTimePulse /\
  PulseNumber n = PulseNumber r + NextPulseDelta r /\
  Epoch_IsCompatible (PulseEpoch r) (PulseEpoch n) = true.
Proof.
  intros (Hr & _ & Hrd & _) _. unfold Data_IsValidNext, Data_isExpected.
  rewrite Number_IsTimePulse_eq by done. pulse_consts.
  destruct (negb (NextPulseDelta r =? _) || _ || _) eqn:?; [lia|].
  destruct ((_ <=? _) && _) eqn:?; simpl; [|lia]. rewrite u32_small by lia.
  destruct (_ + _ =? _) eqn:?; simpl; [|lia].
  destruct (Epoch_IsCompatible _ _); simpl; lia.
Qed.

Lemma Data_IsValidPrev_spec r p :
  Data_typed r -> Data_typed p -> MinTimePulse <= PulseNumber p <= MaxTimePulse ->
  Data_IsValidPrev r p = true <->
  NextPulseDelta p = PrevPulseDelta r /\ PrevPulseDelta r <> 0 /\
  MinTimePulse <= PulseNumber r <= MaxTimePulse /\
  PulseNumber r = PulseNumber p + NextPulseDelta p /\
  Epoch_IsCompatible (PulseEpoch r) (PulseEpoch p) = true.
Proof.
  intros (Hr & _) (Hp & _ & Hpd & _) Hpt. unfold Data_IsValidPrev, Data_isFirst.
  rewrite Number_IsTimePulse_eq by done. pulse_consts.
  destruct (negb _ || _) eqn:?; [lia|].
  destruct ((_ <=? _) && _) eqn:?; simpl; [|lia]. rewrite u32_small by lia.
  destruct (_ + _ =? _) eqn:?; simpl; [|lia].
  destruct (Epoch_IsCompatible _ _); simpl; lia.
Qed.

Lemma Data_IsValidNext_Prev r n :
  Data_typed r -> Data_typed n -> MinTimePulse <= PulseNumber n <= MaxTimePulse ->
  Data_IsValidNext r n = true -> Data_IsValidPrev n r = true.
Proof.
  intros Hr Hn Hnt Hl. apply Data_IsValidNext_spec in Hl as (H1 & H2 & H3 & H4 & H5 & H6); [|done..].
  apply Data_IsValidPrev_spec; [done..|]. rewrite Epoch_IsCompatible_sym by (apply Hr || apply Hn).
  repeat split; (done || lia).
Qed.

(** the two directions of the link test agree on time pulses: [n] is a
    valid next of [r] exactly when [r] is a valid previous of [n] and [n] is
    not an expected pulse. *)
Theorem Data_IsValidNext_IsValidPrev r n :
  Data_typed r -> Data_typed n ->
  MinTimePulse <= PulseNumber r <= MaxTimePulse ->
  MinTimePulse <= PulseNumber n <= MaxTimePulse ->
  Data_IsValidNext r n = Data_IsValidPrev n r && negb (Data_isExpected n).
Proof.
  intros Hr Hn Hrt Hnt. apply eq_true_iff_eq.
  rewrite andb_true_iff, Data_IsValidNext_spec, Data_IsValidPrev_spec by done.
  unfold Data_isExpected. rewrite (Epoch_IsCompatible_sym (PulseEpoch n)) by (apply Hr || apply Hn). destruct (Epoch_IsCompatible _ _); lia.
Qed.

Example Data_IsValidNext_IsValidPrev_witness :
  Data_IsValidNext (mkData 65600 65537 10 5 0 []) (mkData 65610 2 7 10 0 []) =
  Data_IsValidPrev (mkData 65610 2 7 10 0 []) (mkData 65600 65537 10 5 0 []) && true.
Proof.
  apply (Data_IsValidNext_IsValidPrev (mkData 65600 65537 10 5 0 []) (mkData 65610 2 7 10 0 []));
    repeat split; vm_compute; congruence.
Defined.

Lemma Data_NextPulseNumber_ok r pn :
  Data_typed r ->
  Data_NextPulseNumber r = Ret pn <->
  NextPulseDelta r <> 0 /\ MinTimePulse <= PulseNumber r /\
  pn = PulseNumber r + NextPulseDelta r /\ pn <= MaxTimePulse.
Proof.
  intros (Hr & _ & Hd & _). unfold Data_NextPulseNumber, Data_isExpected.
  destruct (_ =? 0) eqn:?; [split; [done|lia]|]. rewrite Number_Next_ok by done. lia.
Qed.

Lemma Number_AsEpoch_ok n e :
  0 <= n < 2^32 -> Number_AsEpoch n = Ret e <-> e = n /\ MinTimePulse <= n <= MaxTimePulse.
Proof.
  intros. unfold Number_AsEpoch. rewrite Number_IsTimePulse_eq by done.
  case_match; (split; [intros [= <-]|]; try lia). by intros (-> & _).
Qed.

(** What [CreateNextPulse] yields for a link of either kind. *)
Definition next_pulse_of (now : Z) (r : Data) (entropyGen : list Z) : Data :=
  let pn := PulseNumber r + NextPulseDelta r in
  if Epoch_IsEphemeral (PulseEpoch r)
  then mkData pn EphemeralPulseEpoch 1 (NextPulseDelta r) 0 (fixedPulseEntropy pn)
  else mkData pn pn (NextPulseDelta r) (NextPulseDelta r) (u32 now) entropyGen.

Lemma Data_CreateNextPulse_eq now r ent :
  Data_typed r -> PulseEpoch r = EphemeralPulseEpoch \/ Epoch_IsTimeEpoch (PulseEpoch r) = true ->
  NextPulseDelta r <> 0 -> MinTimePulse <= PulseNumber r ->
  PulseNumber r + NextPulseDelta r <= MaxTimePulse ->
  Data_CreateNextPulse now r ent = Ret (next_pulse_of now r ent).
Proof.
  intros Ht Hk Hd Hlo Hhi. pose proof Ht as (Hr & He & Hdb & _).
  set (pn := PulseNumber r + NextPulseDelta r) in *.
  assert (Data_NextPulseNumber r = Ret pn) as Hn by (apply Data_NextPulseNumber_ok; done).
  unfold Data_CreateNextPulse, next_pulse_of. fold pn.
  destruct (Epoch_IsEphemeral (PulseEpoch r)) eqn:E.
  - unfold Data_createNextEphemeralPulse. rewrite Hn. done.
  - assert (Epoch_IsTimeEpoch (PulseEpoch r) = true) as ->.
    { destruct Hk as [Hk|Hk]; [|done]. unfold Epoch_IsEphemeral in E. lia. }
    unfold Data_createNextPulsarPulse. rewrite Hn. simpl. unfold newPulsarData.
    replace (NextPulseDelta r =? 0) with false by lia.
    assert (Number_AsEpoch pn = Ret pn) as -> by
      (apply Number_AsEpoch_ok; subst pn; pulse_lia).
    done.
Qed.

Lemma Data_CreateNextPulse_inv now r ent n :
  Data_typed r -> Data_CreateNextPulse now r ent = Ret n ->
  PulseNumber r + NextPulseDelta r <= MaxTimePulse.
Proof.
  intros Ht Hn. assert (exists pn, Data_NextPulseNumber r = Ret pn) as (pn & Hpn).
  { unfold Data_CreateNextPulse in Hn.
    destruct (Epoch_IsEphemeral _);
      [|destruct (Epoch_IsTimeEpoch _); [|by destruct (Epoch_IsArticulation _)]];
      apply go_bind_ret in Hn as (pn & Hpn & _); eauto. }
  apply Data_NextPulseNumber_ok in Hpn; [lia|done].
Qed.

Lemma next_pulse_of_spec now r ent (n := next_pulse_of now r ent) :
  Data_typed r ->
  PulseEpoch r = EphemeralPulseEpoch \/ Epoch_IsTimeEpoch (PulseEpoch r) = true ->
  NextPulseDelta r <> 0 -> MinTimePulse <= PulseNumber r ->
  PulseNumber r + NextPulseDelta r <= MaxTimePulse ->
  Data_typed n /\ PulseNumber n = PulseNumber r + NextPulseDelta r /\
  PrevPulseDelta n = NextPulseDelta r /\ NextPulseDelta n <> 0 /\
  Data_HasValidEpoch n = true /\ Epoch_IsCompatible (PulseEpoch r) (PulseEpoch n) = true /\
  Epoch_IsEphemeral (PulseEpoch n) = Epoch_IsEphemeral (PulseEpoch r).
Proof.
  intros Ht Hk Hd Hp Hinv. pose proof Ht as (Hr & He & Hdb & _).
  unfold n, next_pulse_of. destruct (Epoch_IsEphemeral (PulseEpoch r)) eqn:E.
  - apply Z.eqb_eq in E. rewrite E. repeat split; simpl; try pulse_lia.
  - assert (Epoch_IsTimeEpoch (PulseEpoch r) = true) as Hte.
    { destruct Hk as [Hk|]; [|done]. unfold Epoch_IsEphemeral in E. lia. }
    apply Epoch_IsTimeEpoch_spec in Hte; [|done].
    assert (Data_typed (mkData (PulseNumber r + NextPulseDelta r)
      (PulseNumber r + NextPulseDelta r) (NextPulseDelta r) (NextPulseDelta r) (u32 now) ent))
      as Hty by (repeat split; simpl; pulse_lia).
    split; [done|]. repeat split; simpl; try done.
    + apply Data_HasValidEpoch_spec; [done|]. simpl. pulse_lia.
    + apply Epoch_IsCompatible_spec; [done|simpl; pulse_lia|].
      right. unfold epoch_timeline. simpl. pulse_lia.
    + unfold Epoch_IsEphemeral. pulse_lia.
Qed.

(** from a pulse that is not an expected one, on the pulsar's or the
    ephemeral network's epoch, [CreateNextPulse] succeeds exactly when the
    next number is still a time pulse; its result is a valid pulse of the same
    network, linked to its predecessor in both directions. *)
Theorem Data_CreateNextPulse_linked now r ent :
  Data_typed r -> Data_IsValidPulseData r = true ->
  PulseEpoch r = EphemeralPulseEpoch \/ Epoch_IsTimeEpoch (PulseEpoch r) = true ->
  (PulseNumber r + NextPulseDelta r <= MaxTimePulse <->
   exists n, Data_CreateNextPulse now r ent = Ret n) /\
  (forall n, Data_CreateNextPulse now r ent = Ret n ->
     Data_typed n /\ Data_IsValidPulseData n = true /\
     Data_IsFromEphemeral n = Data_IsFromEphemeral r /\
     Data_IsValidNext r n = true /\ Data_IsValidPrev n r = true /\
     Data_EnsurePulseData n = Ret tt).
Proof.
  intros Ht Hv Hk. pose proof Ht as (Hr & He & Hdb & _).
  apply Data_IsValidPulseData_spec in Hv as (Hd & Hp & Hve); [|done].
  assert (PulseNumber r + NextPulseDelta r <= MaxTimePulse ->
            Data_CreateNextPulse now r ent = Ret (next_pulse_of now r ent)) as Hret.
  { intros. apply Data_CreateNextPulse_eq; (done || lia). }
  split; [split; [eauto|intros (n & Hn); eauto using Data_CreateNextPulse_inv]|].
  intros n Hn. pose proof (Data_CreateNextPulse_inv _ _ _ _ Ht Hn) as Hinv.
  rewrite (Hret Hinv) in Hn. injection Hn as <-. clear Hret.
  destruct (next_pulse_of_spec now r ent Ht Hk Hd ltac:(lia) Hinv)
    as (Hnt & Hnp & Hnd & Hnn & Hne & Hnc & Hnk).
  set (n := next_pulse_of now r ent) in *.
  assert (Data_IsValidPulseData n = true) as Hnv
    by (apply Data_IsValidPulseData_spec; [done|]; split; [done|]; split; [lia|done]).
  assert (Data_IsValidNext r n = true) as Hlink
    by (apply Data_IsValidNext_spec; [done..|]; repeat split; (done || lia)).
  split; [done|]. split; [done|]. split; [|split; [done|split]].
  - unfold Data_IsFromEphemeral. rewrite Hnk. f_equal.
    rewrite !Number_IsTimePulse_eq by pulse_lia. pulse_lia.
  - apply Data_IsValidNext_Prev; (done || lia).
  - apply Data_EnsurePulseData_ok; [done|]. split; [lia|]. split; [lia|]. split; [done|lia].
Qed.

Example Data_CreateNextPulse_linked_witness :
  exists n, Data_CreateNextPulse 1600000000 (mkData 65600 65537 10 10 0 []) [7] = Ret n /\
    Data_IsValidNext (mkData 65600 65537 10 10 0 []) n = true.
Proof.
  destruct (Data_CreateNextPulse_linked 1600000000 (mkData 65600 65537 10 10 0 []) [7])
    as (H1 & H2).
  - repeat split; vm_compute; congruence.
  - reflexivity.
  - right. reflexivity.
  - destruct (proj1 H1) as (n & Hn); [vm_compute; congruence|].
    exists n. split; [exact Hn|]. apply (H2 n Hn).
Defined.
