(* ===== verification/PulseRange.v ===== *)
(** * Pulse ranges (src/pulse/pulse_range.go)

    The [Range] interface is an inductive with the four implementations; its
    enumerations take a callback whose effects are an explicit state.  A
    missing slice element is Go's index panic. *)
From S2P Require Import Prelude Pulse.

Definition MaxUint16 : Z := 65535.
Definition minSegmentPulseDelta : Z := 10.

Inductive Range : Type :=
  | onePulseRange (data : Data)
  | gapPulseRange (start prevDelta : Z) (end_ : Data)
  | seqPulseRange (data : list Data)
  | sparsePulseRange (data : list Data).

Definition index {A} (l : list A) (i : nat) : go A :=
  match l !! i with Some x => Ret x | None => Panic "index out of range" end.

(** ** Constructors *)
Definition Data_AsRange (r : Data) : go Range :=
  _ ← Data_EnsurePulseData r; Ret (onePulseRange r).

Definition NewLeftGapRange (left leftPrevDelta : Z) (right : Data) : go Range :=
  _ ← Data_EnsurePulseData right;
  if left =? PulseNumber right then
    if leftPrevDelta =? PrevPulseDelta right then Data_AsRange right else Panic "illegal value"
  else
    p ← Data_PrevPulseNumber right;
    if Number_IsBeforeOrEq left p then
      _ ← Number_Prev left leftPrevDelta;
      Ret (gapPulseRange left leftPrevDelta right)
    else Panic "illegal value".

(** The loop of [checkSequence] from the second element on; [sequence] is its
    accumulator. *)
Fixpoint checkSequence_loop (prev : Data) (data : list Data) (sequence : bool) : go bool :=
  match data with
  | [] => Ret sequence
  | d :: rest =>
      _ ← Data_EnsurePulseData d;
      if Data_IsValidNext prev d then checkSequence_loop d rest sequence
      else
        n ← Data_NextPulseNumber prev;
        p ← Data_PrevPulseNumber d;
        if n >? p then Panic "illegal value - unordered or intersecting pulses"
        else checkSequence_loop d rest false
  end.

Definition checkSequence (data : list Data) : go bool :=
  match data with
  | [] => Ret true
  | d :: rest => _ ← Data_EnsurePulseData d; checkSequence_loop d rest true
  end.

Definition NewSequenceRange (data : list Data) : go Range :=
  match data with
  | [] => Panic "illegal value"
  | [d] => Data_AsRange d
  | _ =>
      ok ← checkSequence data;
      if (ok : bool) then Ret (seqPulseRange data) else Panic "illegal value"
  end.

Definition NewPulseRange (data : list Data) : go Range :=
  match data with
  | [] => Panic "illegal value"
  | [d] => Data_AsRange d
  | d0 :: d1 :: rest =>
      if negb (Data_isExpected d0) then
        ok ← checkSequence data;
        Ret (if (ok : bool) then seqPulseRange data else sparsePulseRange data)
      else
        p ← Data_PrevPulseNumber d1;
        if (p <? PulseNumber d0) || negb (Data_IsValidExpectedPulseData d0)
        then Panic "illegal value"
        else match rest with
             | [] => NewLeftGapRange (PulseNumber d0) (PrevPulseDelta d0) d1
             | _ => _ ← checkSequence (d1 :: rest); Ret (sparsePulseRange data)
             end
  end.

(** ** Accessors

    One definition per implementation, and the interface's dispatch. *)
Definition onePulseRange_LeftPrevDelta (data : Data) : Z := PrevPulseDelta data.
Definition gapPulseRange_LeftPrevDelta (prevDelta : Z) : Z := prevDelta.
Definition seqPulseRange_LeftPrevDelta (data : list Data) : go Z :=
  d ← index data 0; Ret (PrevPulseDelta d).
Definition sparsePulseRange_LeftPrevDelta (data : list Data) : go Z :=
  d ← index data 0; Ret (PrevPulseDelta d).
Definition Range_LeftPrevDelta (p : Range) : go Z :=
  match p with
  | onePulseRange d => Ret (onePulseRange_LeftPrevDelta d)
  | gapPulseRange _ prevDelta _ => Ret (gapPulseRange_LeftPrevDelta prevDelta)
  | seqPulseRange data => seqPulseRange_LeftPrevDelta data
  | sparsePulseRange data => sparsePulseRange_LeftPrevDelta data
  end.

Definition onePulseRange_LeftBoundNumber (data : Data) : Z := PulseNumber data.
Definition gapPulseRange_LeftBoundNumber (start : Z) : Z := start.
Definition seqPulseRange_LeftBoundNumber (data : list Data) : go Z :=
  d ← index data 0; Ret (PulseNumber d).
Definition sparsePulseRange_LeftBoundNumber (data : list Data) : go Z :=
  d ← index data 0; Ret (PulseNumber d).
Definition Range_LeftBoundNumber (p : Range) : go Z :=
  match p with
  | onePulseRange d => Ret (onePulseRange_LeftBoundNumber d)
  | gapPulseRange start _ _ => Ret (gapPulseRange_LeftBoundNumber start)
  | seqPulseRange data => seqPulseRange_LeftBoundNumber data
  | sparsePulseRange data => sparsePulseRange_LeftBoundNumber data
  end.

Definition onePulseRange_RightBoundData (data : Data) : Data := data.
Definition gapPulseRange_RightBoundData (end_ : Data) : Data := end_.
Definition seqPulseRange_RightBoundData (data : list Data) : go Data :=
  index data (length data - 1).
Definition sparsePulseRange_RightBoundData (data : list Data) : go Data :=
  index data (length data - 1).
Definition Range_RightBoundData (p : Range) : go Data :=
  match p with
  | onePulseRange d => Ret (onePulseRange_RightBoundData d)
  | gapPulseRange _ _ e => Ret (gapPulseRange_RightBoundData e)
  | seqPulseRange data => seqPulseRange_RightBoundData data
  | sparsePulseRange data => sparsePulseRange_RightBoundData data
  end.

Definition Range_IsArticulated (p : Range) : bool :=
  match p with gapPulseRange _ _ _ | sparsePulseRange _ => true | _ => false end.

Definition Range_IsSingular (p : Range) : bool :=
  match p with onePulseRange _ => true | _ => false end.

Definition onePulseRange_IsValidNext (data : Data) (a : Range) : go bool :=
  lpd ← Range_LeftPrevDelta a;
  if negb (NextPulseDelta data =? lpd) then Ret false
  else
    let '(n, ok) := Data_GetNextPulseNumber data in
    if ok then lbn ← Range_LeftBoundNumber a; Ret (n =? lbn) else Ret false.

Definition gapPulseRange_IsValidNext (end_ : Data) (a : Range) : go bool :=
  lpd ← Range_LeftPrevDelta a;
  if negb (NextPulseDelta end_ =? lpd) then Ret false
  else
    let '(n, ok) := Data_GetNextPulseNumber end_ in
    if ok then lbn ← Range_LeftBoundNumber a; Ret (n =? lbn) else Ret false.

Definition seqPulseRange_IsValidNext (data : list Data) (a : Range) : go bool :=
  end_ ← seqPulseRange_RightBoundData data;
  lpd ← Range_LeftPrevDelta a;
  if negb (NextPulseDelta end_ =? lpd) then Ret false
  else
    let '(n, ok) := Data_GetNextPulseNumber end_ in
    if ok then lbn ← Range_LeftBoundNumber a; Ret (n =? lbn) else Ret false.

Definition sparsePulseRange_IsValidNext (data : list Data) (a : Range) : go bool :=
  end_ ← sparsePulseRange_RightBoundData data;
  lpd ← Range_LeftPrevDelta a;
  if negb (NextPulseDelta end_ =? lpd) then Ret false
  else
    let '(n, ok) := Data_GetNextPulseNumber end_ in
    if ok then lbn ← Range_LeftBoundNumber a; Ret (n =? lbn) else Ret false.

Definition Range_IsValidNext (p a : Range) : go bool :=
  match p with
  | onePulseRange d => onePulseRange_IsValidNext d a
  | gapPulseRange _ _ e => gapPulseRange_IsValidNext e a
  | seqPulseRange data => seqPulseRange_IsValidNext data a
  | sparsePulseRange data => sparsePulseRange_IsValidNext data a
  end.

Definition Range_IsValidPrev (p a : Range) : go bool := Range_IsValidNext a p.

(** ** Enumeration *)
Section Enum.
Context {St : Type}.
Implicit Types fn : Z -> Z -> Z -> St -> bool * St.
Implicit Types fd : Data -> St -> bool * St.

Fixpoint enumSegments_loop (fuel : nat) (next prevDelta end_ endNextDelta : Z) fn (s : St)
    : go (bool * St) :=
  match fuel with
  | O => Panic "out of fuel"
  | S fuel' =>
      if next <? end_ then
        let delta := u32 (end_ - next) in
        let delta :=
          if delta <=? MaxUint16 then delta
          else if delta <? MaxUint16 + minSegmentPulseDelta
          then u32 (delta - minSegmentPulseDelta)
          else MaxUint16 in
        let '(stop, s) := fn next prevDelta (u16 delta) s in
        if stop then Ret (true, s)
        else
          let prevDelta := u16 delta in
          next ← Number_Next next prevDelta;
          enumSegments_loop fuel' next prevDelta end_ endNextDelta fn s
      else if next =? end_ then Ret (fn next prevDelta endNextDelta s)
      else Panic "illegal state"
  end.

(** Each pass but the last two covers at least 65526 pulses. *)
Definition segmentsFuel (next end_ : Z) : nat := Z.to_nat ((end_ - next) / 65526 + 2).

Definition enumSegments (next prevDelta end_ endNextDelta : Z) fn (s : St) : go (bool * St) :=
  enumSegments_loop (segmentsFuel next end_) next prevDelta end_ endNextDelta fn s.

Definition articulation (n prevDelta nextDelta : Z) : Data :=
  mkData n ArticulationPulseEpoch nextDelta prevDelta 0 zeroEntropy.

(** [if start != end && _enumSegments(..) { return true }; return fn(end)] *)
Definition enumSegmentData (start prevDelta : Z) (end_ : Data) fd (s : St) : go (bool * St) :=
  r ← (if negb (start =? PulseNumber end_) then
         p ← Data_PrevPulseNumber end_;
         enumSegments start prevDelta p (PrevPulseDelta end_)
           (fun n pd nd => fd (articulation n pd nd)) s
       else Ret (false, s));
  let '(stop, s) := r in
  if (stop : bool) then Ret (true, s) else Ret (fd end_ s).

Definition triple_of (d : Data) : Z * Z * Z := (PulseNumber d, PrevPulseDelta d, NextPulseDelta d).
Definition call3 fn (t : Z * Z * Z) : St -> bool * St := let '(n, p, d) := t in fn n p d.

(** where the enumeration of a sparse range starts *)
Definition sparse_start (first : Data) : go (Z * Z) :=
  if NextPulseDelta first =? 0 then Ret (PulseNumber first, PrevPulseDelta first)
  else n ← Data_NextPulseNumber first; Ret (n, NextPulseDelta first).

Fixpoint sparse_EnumNumbers_loop (next prevDelta : Z) (data : list Data) fn (s : St)
    : go (bool * St) :=
  match data with
  | [] => Ret (false, s)
  | d :: rest =>
      r ← (if next =? PulseNumber d
           then enumSegments next prevDelta (PulseNumber d) (NextPulseDelta d) fn s
           else
             p ← Data_PrevPulseNumber d;
             r ← enumSegments next prevDelta p (PrevPulseDelta d) fn s;
             let '(stop, s) := r in
             if (stop : bool) then Ret (true, s) else Ret (call3 fn (triple_of d) s));
      let '(stop, s) := r in
      if (stop : bool) then Ret (true, s)
      else
        n ← Data_NextPulseNumber d;
        sparse_EnumNumbers_loop n (NextPulseDelta d) rest fn s
  end.

Fixpoint sparse_EnumData_loop (next prevDelta : Z) (data : list Data) fd (s : St)
    : go (bool * St) :=
  match data with
  | [] => Ret (false, s)
  | d :: rest =>
      r ← enumSegmentData next prevDelta d fd s;
      let '(stop, s) := r in
      if (stop : bool) then Ret (true, s)
      else
        n ← Data_NextPulseNumber d;
        sparse_EnumData_loop n (NextPulseDelta d) rest fd s
  end.

Definition onePulseRange_EnumNumbers (d : Data) fn (s : St) : bool * St :=
  fn (PulseNumber d) (PrevPulseDelta d) (NextPulseDelta d) s.

Definition gapPulseRange_EnumNumbers (start prevDelta : Z) (e : Data) fn (s : St)
    : go (bool * St) :=
  pn ← Data_PrevPulseNumber e;
  r ← enumSegments start prevDelta pn (PrevPulseDelta e) fn s;
  let '(stop, s) := r in
  if (stop : bool) then Ret (true, s)
  else Ret (fn (PulseNumber e) (PrevPulseDelta e) (NextPulseDelta e) s).

Definition seqPulseRange_EnumNumbers (data : list Data) fn (s : St) : bool * St :=
  visit (fun d => fn (PulseNumber d) (PrevPulseDelta d) (NextPulseDelta d)) data s.

(** When the range starts with a provided pulse the first call's answer is
    dropped: only its effect on the state stays. *)
Definition sparsePulseRange_EnumNumbers (data : list Data) fn (s : St) : go (bool * St) :=
  first ← index data 0;
  start ← sparse_start first;
  let s := if NextPulseDelta first =? 0 then s
           else (fn (PulseNumber first) (PrevPulseDelta first) (NextPulseDelta first) s).2 in
  sparse_EnumNumbers_loop start.1 start.2 (drop 1 data) fn s.

Definition Range_EnumNumbers (p : Range) fn (s : St) : go (bool * St) :=
  match p with
  | onePulseRange d => Ret (onePulseRange_EnumNumbers d fn s)
  | gapPulseRange start prevDelta e => gapPulseRange_EnumNumbers start prevDelta e fn s
  | seqPulseRange data => Ret (seqPulseRange_EnumNumbers data fn s)
  | sparsePulseRange data => sparsePulseRange_EnumNumbers data fn s
  end.

Definition onePulseRange_EnumData (d : Data) fd (s : St) : bool * St := fd d s.
Definition gapPulseRange_EnumData (start prevDelta : Z) (e : Data) fd (s : St) : go (bool * St) :=
  enumSegmentData start prevDelta e fd s.
Definition seqPulseRange_EnumData (data : list Data) fd (s : St) : bool * St :=
  visit fd data s.
Definition sparsePulseRange_EnumData (data : list Data) fd (s : St) : go (bool * St) :=
  first ← index data 0;
  start ← sparse_start first;
  let s := if NextPulseDelta first =? 0 then s else (fd first s).2 in
  sparse_EnumData_loop start.1 start.2 (drop 1 data) fd s.

Definition Range_EnumData (p : Range) fd (s : St) : go (bool * St) :=
  match p with
  | onePulseRange d => Ret (onePulseRange_EnumData d fd s)
  | gapPulseRange start prevDelta e => gapPulseRange_EnumData start prevDelta e fd s
  | seqPulseRange data => Ret (seqPulseRange_EnumData data fd s)
  | sparsePulseRange data => sparsePulseRange_EnumData data fd s
  end.

Definition onePulseRange_EnumNonArticulatedData (d : Data) fd (s : St) : bool * St := fd d s.
Definition gapPulseRange_EnumNonArticulatedData (e : Data) fd (s : St) : bool * St := fd e s.
Definition seqPulseRange_EnumNonArticulatedData (data : list Data) fd (s : St) : bool * St :=
  visit fd data s.
Definition sparsePulseRange_EnumNonArticulatedData (data : list Data) fd (s : St)
    : go (bool * St) :=
  first ← index data 0;
  let startIdx := if NextPulseDelta first =? 0 then 1%nat else 0%nat in
  Ret (visit fd (drop startIdx data) s).

Definition Range_EnumNonArticulatedData (p : Range) fd (s : St) : go (bool * St) :=
  match p with
  | onePulseRange d => Ret (onePulseRange_EnumNonArticulatedData d fd s)
  | gapPulseRange _ _ e => Ret (gapPulseRange_EnumNonArticulatedData e fd s)
  | seqPulseRange data => Ret (seqPulseRange_EnumNonArticulatedData data fd s)
  | sparsePulseRange data => sparsePulseRange_EnumNonArticulatedData data fd s
  end.
End Enum.

(** ** Gapless paths of (number, previous delta, next delta) *)
Inductive path : Z -> Z -> list (Z * Z * Z) -> Z -> Z -> Prop :=
  | path_nil n p : path n p [] n p
  | path_cons n p d l n' p' :
      0 < d < 2^16 -> path (n + d) d l n' p' -> path n p ((n, p, d) :: l) n' p'.

Lemma path_app n p l1 n1 p1 l2 n2 p2 :
  path n p l1 n1 p1 -> path n1 p1 l2 n2 p2 -> path n p (l1 ++ l2) n2 p2.
Proof. induction 1; simpl; [done|]. intros. constructor; auto. Qed.

Lemma path_le n p l n' p' : path n p l n' p' -> n <= n' /\ (l <> [] -> n < n').
Proof. induction 1 as [|???????? [IH _]]; split; (done || lia). Qed.

#[export] Hint Constructors path : insolar.
#[export] Hint Resolve path_app : insolar.

(** A segment as [_enumSegments] cuts it: a path to the end whose articulated
    deltas are at least 10, unless one step spans the whole gap. *)
Definition good_cut (next end_ : Z) (cut : list (Z * Z * Z)) : Prop :=
  Forall (fun t => minSegmentPulseDelta <= t.2 <= MaxUint16) cut \/
  exists p, cut = [(next, p, end_ - next)] /\ end_ - next < minSegmentPulseDelta.

Section EnumSpec.
Context {St : Type}.
Implicit Types fn : Z -> Z -> Z -> St -> bool * St.

Lemma call3_eq fn n p d s : call3 fn (n, p, d) s = fn n p d s.
Proof. done. Qed.

(** One pass of the loop that is not the last. *)
Lemma enumSegments_pass fuel next prevDelta end_ endNextDelta fn s d :
  MinTimePulse <= next -> next < end_ -> end_ <= MaxTimePulse ->
  d = (if end_ - next <=? MaxUint16 then end_ - next
       else if end_ - next <? MaxUint16 + minSegmentPulseDelta
       then end_ - next - minSegmentPulseDelta else MaxUint16) ->
  enumSegments_loop (S fuel) next prevDelta end_ endNextDelta fn s =
  let '(stop, s) := fn next prevDelta d s in
  if stop then Ret (true, s)
  else enumSegments_loop fuel (next + d) d end_ endNextDelta fn s.
Proof.
  intros Hlo Hlt Hhi Hd. simpl. pulse_consts.
  replace (next <? end_) with true by lia. rewrite (u32_small (end_ - next)) by lia.
  assert ((if end_ - next <=? MaxUint16 then end_ - next
    else if end_ - next <? MaxUint16 + minSegmentPulseDelta
    then u32 (end_ - next - minSegmentPulseDelta) else MaxUint16) = d) as ->.
  { rewrite Hd. unfold MaxUint16, minSegmentPulseDelta in *.
    repeat case_match; rewrite ?u32_small; lia. }
  assert (0 < d < 2^16 /\ next + d <= end_) as (Hd1 & Hd2).
  { revert Hd. unfold MaxUint16, minSegmentPulseDelta. repeat case_match; lia. }
  rewrite u16_small by lia. destruct (fn next prevDelta d s) as [[] s']; [done|].
  assert (Number_Next next d = Ret (next + d)) as -> by (apply Number_Next_ok; pulse_lia).
  done.
Qed.

End EnumSpec.

Lemma enumSegments_loop_spec fuel : forall next prevDelta end_ endNextDelta,
  MinTimePulse <= next -> next <= end_ -> end_ <= MaxTimePulse ->
  (if next =? end_ then 1 else (end_ - next) / 65526 + 2) <= Z.of_nat fuel ->
  exists cut p,
    path next prevDelta cut end_ p /\ good_cut next end_ cut /\
    forall (St : Type) (fn : Z -> Z -> Z -> St -> bool * St) (s : St),
      enumSegments_loop fuel next prevDelta end_ endNextDelta fn s =
      Ret (visit (call3 fn) (cut ++ [(end_, p, endNextDelta)]) s).
Proof.
  induction fuel as [|fuel IH]; intros next prevDelta end_ endNextDelta Hlo Hle Hhi Hf.
  { pose proof (Z.div_pos (end_ - next) 65526). case_match; lia. }
  destruct (decide (next = end_)) as [<-|Hne].
  { exists [], prevDelta. split; [constructor|]. split; [by left|].
    intros St fn s. simpl. rewrite Z.ltb_irrefl, Z.eqb_refl.
    by destruct (fn next prevDelta endNextDelta s) as [[] ?]. }
  remember (if end_ - next <=? MaxUint16 then end_ - next
       else if end_ - next <? MaxUint16 + minSegmentPulseDelta
       then end_ - next - minSegmentPulseDelta else MaxUint16) as d eqn:Hd.
  assert (0 < d < 2^16 /\ next + d <= end_ /\
    (next + d = end_ \/ (10 <= d /\ 10 <= end_ - (next + d) /\
       (end_ - (next + d)) / 65526 + 1 <= (end_ - next) / 65526))) as (Hd1 & Hd2 & Hd3).
  { revert Hd. unfold MaxUint16, minSegmentPulseDelta. clear IH Hf.
    repeat case_match; intros; subst; (split; [lia|]; split; [lia|]);
      try (left; lia); right; (split; [lia|]; split; [lia|]);
      Z.to_euclidean_division_equations; lia. }
  destruct (IH (next + d) d end_ endNextDelta) as (cut & p & Hp & Hc & Hrun); try lia.
  { replace (next =? end_) with false in Hf by lia.
    pose proof (Z.div_pos (end_ - next) 65526 ltac:(lia) ltac:(lia)).
    destruct (next + d =? end_) eqn:?; [lia|]. destruct Hd3 as [Hd3|(_ & _ & Hd3)]; lia. }
  exists ((next, prevDelta, d) :: cut), p. split; [by constructor|]. split.
  - destruct Hd3 as [Hd3|(Hd3 & Hd4 & _)].
    + assert (cut = []) as ->.
      { destruct cut; [done|]. apply path_le in Hp as [_ Hp]. specialize (Hp ltac:(done)). lia. }
      destruct (decide (10 <= end_ - next)); [left|right].
      * constructor; [|done]. unfold minSegmentPulseDelta, MaxUint16; simpl; lia.
      * eexists. split; [do 3 f_equal; lia|]. unfold minSegmentPulseDelta; lia.
    + left. constructor; [unfold minSegmentPulseDelta, MaxUint16; simpl; lia|].
      destruct Hc as [Hc|(q & -> & Hc)]; [done|]. unfold minSegmentPulseDelta in Hc. lia.
  - intros St fn s. rewrite (enumSegments_pass _ _ _ _ _ _ _ d) by (done || lia).
    simpl. by destruct (fn next prevDelta d s) as [[] s'].
Qed.

Lemma enumSegments_cut next prevDelta end_ endNextDelta :
  MinTimePulse <= next -> next <= end_ -> end_ <= MaxTimePulse ->
  exists cut p,
    path next prevDelta cut end_ p /\ good_cut next end_ cut /\
    forall (St : Type) (fn : Z -> Z -> Z -> St -> bool * St) (s : St),
      enumSegments_loop (segmentsFuel next end_) next prevDelta end_ endNextDelta fn s =
      Ret (visit (call3 fn) (cut ++ [(end_, p, endNextDelta)]) s).
Proof.
  intros. apply enumSegments_loop_spec; [done..|]. unfold segmentsFuel.
  pose proof (Z.div_pos (end_ - next) 65526). case_match; lia.
Qed.

(** C39: the segment enumeration terminates within its fuel on any pair of time
    pulses in order; it calls the callback on a gapless path of numbers from
    [next] to [end_] (each step's delta fits 16 bits and is at least 10 unless
    the whole gap is shorter), then on [end_] itself, and stops at the first
    call that answers true. *)
Theorem enumSegments_spec next prevDelta end_ endNextDelta :
  MinTimePulse <= next -> next <= end_ -> end_ <= MaxTimePulse ->
  exists cut p,
    path next prevDelta cut end_ p /\ good_cut next end_ cut /\
    forall (St : Type) (fn : Z -> Z -> Z -> St -> bool * St) (s : St),
      enumSegments next prevDelta end_ endNextDelta fn s =
      Ret (visit (call3 fn) (cut ++ [(end_, p, endNextDelta)]) s).
Proof.
  intros. by apply enumSegments_cut.
Qed.

Example enumSegments_spec_witness :
  (exists cut p,
    path 65537 5 cut 200000 p /\ good_cut 65537 200000 cut /\
    forall (St : Type) (fn : Z -> Z -> Z -> St -> bool * St) (s : St),
      enumSegments 65537 5 200000 7 fn s = Ret (visit (call3 fn) (cut ++ [(200000, p, 7)]) s)) /\
  enumSegments 65537 5 200000 7 (fun n p d => collect (n, p, d)) [] =
    Ret (false, [(65537, 5, 65535); (131072, 65535, 65535); (196607, 65535, 3393);
                 (200000, 3393, 7)]).
Proof.
  split; [apply (enumSegments_spec 65537 5 200000 7); pulse_lia | reflexivity].
Defined.

(** ** Well-formed ranges: what the constructors establish *)

(** Pulse data a constructor has checked. *)
Definition Data_ok (d : Data) : Prop := Data_typed d /\ Data_EnsurePulseData d = Ret tt.

Lemma Data_ok_spec d :
  Data_ok d ->
  0 < NextPulseDelta d < 2^16 /\ MinTimePulse <= PulseNumber d <= MaxTimePulse /\
  0 <= PrevPulseDelta d < 2^16 /\ MinTimePulse <= PulseNumber d - PrevPulseDelta d.
Proof.
  intros (Ht & He). apply Data_EnsurePulseData_ok in He as (Hd & Hn & _ & Hp); [|done].
  destruct Ht as (_ & _ & ? & ?). lia.
Qed.

Lemma Data_PrevPulseNumber_ok d p :
  Data_typed d ->
  Data_PrevPulseNumber d = Ret p <->
  PrevPulseDelta d <> 0 /\ PulseNumber d <= MaxTimePulse /\
  p = PulseNumber d - PrevPulseDelta d /\ MinTimePulse <= p.
Proof.
  intros (Hr & _ & _ & Hd). unfold Data_PrevPulseNumber, Data_isFirst.
  destruct (_ =? 0) eqn:?; [split; [done|lia]|]. rewrite Number_Prev_ok by done. lia.
Qed.

(** The place [(next, prevDelta)] reached so far connects to the pulse [d]:
    directly, or over a gap. *)
Definition connects (next prevDelta : Z) (d : Data) : Prop :=
  (next = PulseNumber d /\ prevDelta = PrevPulseDelta d) \/
  (PrevPulseDelta d <> 0 /\ MinTimePulse <= next /\
   next <= PulseNumber d - PrevPulseDelta d).

Fixpoint connected (next prevDelta : Z) (data : list Data) : Prop :=
  match data with
  | [] => True
  | d :: rest =>
      Data_ok d /\ connects next prevDelta d /\
      connected (PulseNumber d + NextPulseDelta d) (NextPulseDelta d) rest
  end.

(** Directly linked, as [seqPulseRange] requires. *)
Fixpoint linked (next prevDelta : Z) (data : list Data) : Prop :=
  match data with
  | [] => True
  | d :: rest =>
      Data_ok d /\ next = PulseNumber d /\ prevDelta = PrevPulseDelta d /\
      linked (PulseNumber d + NextPulseDelta d) (NextPulseDelta d) rest
  end.

Definition wf_range (p : Range) : Prop :=
  match p with
  | onePulseRange d => Data_ok d
  | gapPulseRange start prevDelta e =>
      Data_ok e /\ start <> PulseNumber e /\ connects start prevDelta e
  | seqPulseRange data =>
      match data with [] => False | d :: _ => linked (PulseNumber d) (PrevPulseDelta d) data end
  | sparsePulseRange data =>
      match data with
      | [] => False
      | d :: rest =>
          rest <> [] /\
          if NextPulseDelta d =? 0 then connected (PulseNumber d) (PrevPulseDelta d) rest
          else connected (PulseNumber d) (PrevPulseDelta d) data
      end
  end.

Lemma checkSequence_loop_spec prev data sequence b :
  Data_ok prev -> Forall Data_typed data ->
  checkSequence_loop prev data sequence = Ret b ->
  connected (PulseNumber prev + NextPulseDelta prev) (NextPulseDelta prev) data /\
  (b = true -> sequence = true /\
     linked (PulseNumber prev + NextPulseDelta prev) (NextPulseDelta prev) data).
Proof.
  revert prev sequence. induction data as [|d data IH]; intros prev sequence Hp Ht H; simpl in *.
  { injection H as ->. done. }
  apply Forall_cons_1 in Ht as [Htd Ht].
  go_step H. assert (Data_ok d) as Hd by (split; [done|by destruct v]).
  destruct (Data_IsValidNext prev d) eqn:Hn.
  - apply Data_IsValidNext_spec in Hn; [|by destruct Hp|done].
    destruct (IH d sequence Hd Ht H) as (Hc & Hl). split.
    + split; [done|]. split; [left; lia|done].
    + intros Hb. destruct (Hl Hb). split; [done|]. split; [done|]. split; [lia|]. split; [lia|done].
  - go_step H. go_step H.
    apply Data_NextPulseNumber_ok in E0 as (_ & Hlo & -> & _); [|by destruct Hp].
    apply Data_PrevPulseNumber_ok in E1 as (Hd0 & _ & -> & _); [|done].
    destruct (_ >? _) eqn:Hgt; [done|].
    destruct (IH d false Hd Ht H) as (Hc & Hl). pose proof (Data_ok_spec _ Hp). split.
    + split; [done|]. split; [right; lia|done].
    + intros Hb. destruct (Hl Hb). done.
Qed.

Lemma checkSequence_spec d data b :
  Forall Data_typed (d :: data) -> checkSequence (d :: data) = Ret b ->
  connected (PulseNumber d) (PrevPulseDelta d) (d :: data) /\
  (b = true -> linked (PulseNumber d) (PrevPulseDelta d) (d :: data)).
Proof.
  intros Ht H. apply Forall_cons_1 in Ht as [Htd Ht]. simpl in H. go_step H.
  assert (Data_ok d) as Hd by (split; [done|by destruct v]).
  destruct (checkSequence_loop_spec _ _ _ _ Hd Ht H) as (Hc & Hl). simpl.
  split; [split; [done|]; split; [by left|done]|].
  intros Hb. destruct (Hl Hb). done.
Qed.

Lemma NewLeftGapRange_wf left leftPrevDelta right p :
  0 <= left < 2^32 -> Data_typed right ->
  NewLeftGapRange left leftPrevDelta right = Ret p -> wf_range p.
Proof.
  intros Hl Ht H. unfold NewLeftGapRange in H. go_step H.
  assert (Data_ok right) as Hr by (split; [done|by destruct v]).
  destruct (left =? _) eqn:?.
  - destruct (leftPrevDelta =? _); [|done]. unfold Data_AsRange in H. go_step H. go_step H.
    by subst.
  - go_step H. apply Data_PrevPulseNumber_ok in E0 as (Hd & _ & -> & _); [|done].
    destruct (Number_IsBeforeOrEq _ _) eqn:Hb; [|done]. go_step H. go_step H. subst p.
    unfold Number_IsBeforeOrEq in Hb. simpl. split; [done|]. split; [lia|]. right. lia.
Qed.

Lemma NewPulseRange_wf data p :
  Forall Data_typed data -> NewPulseRange data = Ret p -> wf_range p.
Proof.
  intros Ht H. destruct data as [|d0 [|d1 rest]]; [done|..].
  { simpl in H. unfold Data_AsRange in H. go_step H. go_step H. subst p.
    apply Forall_cons_1 in Ht as [Ht _]. split; [done|by destruct v]. }
  unfold NewPulseRange in H. destruct (Data_isExpected d0) eqn:Hx.
  - simpl negb in H. cbv iota in H. go_step H.
    apply Forall_cons_1 in Ht as [Ht0 Ht]. pose proof Ht as Ht'.
    apply Forall_cons_1 in Ht' as [Ht1 _].
    apply Data_PrevPulseNumber_ok in E as (Hd1 & _ & -> & _); [|done].
    destruct ((_ <? _) || _) eqn:Hc; [done|]. apply orb_false_iff in Hc as [Hc Hv].
    apply negb_false_iff in Hv. unfold Data_IsValidExpectedPulseData in Hv.
    apply andb_true_iff in Hv as [Hv _]. apply andb_true_iff in Hv as [_ Hv].
    rewrite Number_IsTimePulse_eq in Hv by apply Ht0.
    destruct rest as [|d2 rest].
    + by apply NewLeftGapRange_wf in H; [|apply Ht0|].
    + go_step H. go_step H. subst p.
      destruct (checkSequence_spec _ _ _ Ht E) as (Hcn & _).
      unfold wf_range. unfold Data_isExpected in Hx. rewrite Hx.
      split; [done|]. destruct Hcn as (Hok & _ & Hcn). split; [done|]. split; [|done].
      right. lia.
  - simpl negb in H. cbv iota in H. go_step H. go_step H.
    destruct (checkSequence_spec _ _ _ Ht E) as (Hcn & Hl). subst p.
    destruct v; [by apply Hl|]. unfold Data_isExpected in Hx. simpl wf_range. rewrite Hx. done.
Qed.

Lemma NewSequenceRange_wf data p :
  Forall Data_typed data -> NewSequenceRange data = Ret p -> wf_range p.
Proof.
  intros Ht H. destruct data as [|d0 [|d1 rest]]; [done|..].
  { simpl in H. unfold Data_AsRange in H. go_step H. go_step H. subst p.
    apply Forall_cons_1 in Ht as [Ht _]. split; [done|by destruct v]. }
  unfold NewSequenceRange in H. go_step H. destruct v; [|done]. go_step H. subst p.
  destruct (checkSequence_spec _ _ _ Ht E) as (_ & Hl). by apply Hl.
Qed.

(** ** What the enumerations deliver *)

Definition is_articulation (d : Data) : Prop :=
  PulseEpoch d = ArticulationPulseEpoch /\ Timestamp d = 0 /\ PulseEntropy d = zeroEntropy.

Definition art3 (t : Z * Z * Z) : Data := let '(n, p, d) := t in articulation n p d.

Lemma triple_of_art3 (l : list (Z * Z * Z)) : triple_of <$> (art3 <$> l) = l.
Proof. induction l as [|[[? ?] ?] l IH]; [done|]. by rewrite !fmap_cons, IH. Qed.

Lemma enumSegments_same {St} n p nd (fn : Z -> Z -> Z -> St -> bool * St) s :
  enumSegments n p n nd fn s = Ret (fn n p nd s).
Proof. unfold enumSegments, segmentsFuel. rewrite Z.sub_diag. simpl. by rewrite Z.ltb_irrefl, Z.eqb_refl. Qed.

Lemma visit_art3 {St} (fd : Data -> St -> bool * St) l s :
  visit (call3 (fun n pd nd => fd (articulation n pd nd))) l s = visit fd (art3 <$> l) s.
Proof.
  rewrite <- visit_map.
  induction l as [|[[? ?] ?] l IH] in s |- *; simpl; [done|].
  destruct (fd _ s) as [[] ?]; [done|]. apply IH.
Qed.

Lemma visit_snoc {A St} (fn : A -> St -> bool * St) l x s :
  visit fn (l ++ [x]) s =
  (let '(stop, s') := visit fn l s in if stop then (true, s') else fn x s').
Proof.
  rewrite visit_app. destruct (visit fn l s) as [[] s']; [done|]. simpl.
  by destruct (fn x s') as [[] ?].
Qed.

(** The articulated pulses between a place and a pulse it connects to. *)
Lemma connects_articulations next prevDelta d :
  Data_ok d -> connects next prevDelta d ->
  exists arts,
    Forall is_articulation arts /\
    path next prevDelta (triple_of <$> (arts ++ [d]))
      (PulseNumber d + NextPulseDelta d) (NextPulseDelta d) /\
    (arts = [] <-> next = PulseNumber d) /\
    (arts <> [] -> Data_PrevPulseNumber d = Ret (PulseNumber d - PrevPulseDelta d) /\
       forall (St : Type) (fn : Z -> Z -> Z -> St -> bool * St) s,
         enumSegments next prevDelta (PulseNumber d - PrevPulseDelta d) (PrevPulseDelta d) fn s =
         Ret (visit (call3 fn) (triple_of <$> arts) s)).
Proof.
  intros Hok Hc. pose proof (Data_ok_spec _ Hok) as (Hd & Hn & Hp & Hlo).
  assert (forall q, path (PulseNumber d) q [(PulseNumber d, q, NextPulseDelta d)]
    (PulseNumber d + NextPulseDelta d) (NextPulseDelta d)) as Hlast by (constructor; [lia|constructor]).
  destruct Hc as [(-> & ->)|(Hd0 & Hlo' & Hle)].
  - exists []. split; [done|]. split; [apply Hlast|]. done.
  - set (pn := PulseNumber d - PrevPulseDelta d) in *.
    destruct (enumSegments_cut next prevDelta pn (PrevPulseDelta d))
      as (cut & q & Hcut & _ & Hrun); [lia..|].
    exists (art3 <$> (cut ++ [(pn, q, PrevPulseDelta d)])).
    split; [|split; [|split]].
    + apply Forall_fmap, Forall_true. by intros [[? ?] ?].
    + rewrite fmap_app, triple_of_art3. eapply path_app; [|apply Hlast].
      eapply path_app; [exact Hcut|]. constructor; [lia|].
      replace (pn + PrevPulseDelta d) with (PulseNumber d) by lia. constructor.
    + rewrite fmap_app. split; [by destruct cut|lia].
    + intros _. split; [apply Data_PrevPulseNumber_ok; [apply Hok|lia]|].
      intros St fn s. unfold enumSegments. by rewrite Hrun, triple_of_art3.
Qed.

Lemma art3_triple_of (l : list Data) :
  Forall is_articulation l -> art3 <$> (triple_of <$> l) = l.
Proof.
  induction 1 as [|d l (He & Ht & Hen) _ IH]; [done|].
  rewrite !fmap_cons, IH. destruct d; simpl in *; subst. done.
Qed.

(** Enumerating up to one pulse, by data and by number. *)
Lemma enumSegmentData_spec next prevDelta d :
  Data_ok d -> connects next prevDelta d ->
  exists arts,
    Forall is_articulation arts /\
    path next prevDelta (triple_of <$> (arts ++ [d]))
      (PulseNumber d + NextPulseDelta d) (NextPulseDelta d) /\
    (forall (St : Type) (fd : Data -> St -> bool * St) s,
      enumSegmentData next prevDelta d fd s = Ret (visit fd (arts ++ [d]) s)) /\
    (forall (St : Type) (fn : Z -> Z -> Z -> St -> bool * St) s,
      (if next =? PulseNumber d
       then enumSegments next prevDelta (PulseNumber d) (NextPulseDelta d) fn s
       else
         p ← Data_PrevPulseNumber d;
         r ← enumSegments next prevDelta p (PrevPulseDelta d) fn s;
         let '(stop, s) := r in
         if (stop : bool) then Ret (true, s) else Ret (call3 fn (triple_of d) s)) =
      Ret (visit (call3 fn) (triple_of <$> (arts ++ [d])) s)).
Proof.
  intros Hok Hc. destruct (connects_articulations _ _ _ Hok Hc) as (arts & Ha & Hp & Hnil & Hrun).
  exists arts. split; [done|]. split; [done|]. split.
  - intros St fd s. unfold enumSegmentData. rewrite visit_snoc.
    destruct (next =? PulseNumber d) eqn:E; simpl.
    + assert (arts = []) as -> by (apply Hnil; lia). done.
    + destruct Hrun as (Hpn & Hrun); [by intros ->%Hnil; lia|].
      rewrite Hpn. simpl. rewrite Hrun. simpl. rewrite visit_art3.
      rewrite art3_triple_of by done.
      by destruct (visit fd arts s) as [[] s'].
  - intros St fn s. destruct (next =? PulseNumber d) eqn:E.
    + assert (arts = []) as -> by (apply Hnil; lia). apply Z.eqb_eq in E. subst next.
      rewrite enumSegments_same. simpl.
      assert (prevDelta = PrevPulseDelta d) as ->.
      { pose proof (Data_ok_spec _ Hok). unfold connects in Hc. lia. }
      by destruct (fn _ _ _ s) as [[] ?].
    + destruct Hrun as (Hpn & Hrun); [by intros ->%Hnil; lia|].
    rewrite Hpn. simpl. rewrite Hrun. simpl. rewrite fmap_app. simpl. rewrite visit_snoc.
    by destruct (visit _ (triple_of <$> arts) s) as [[] s'].
Qed.

(** The pulses of [provided] in [full], in order, with articulations between. *)
Inductive interleaved : list Data -> list Data -> Prop :=
  | inter_nil : interleaved [] []
  | inter_provided d full provided :
      interleaved full provided -> interleaved (d :: full) (d :: provided)
  | inter_art d full provided :
      is_articulation d -> interleaved full provided -> interleaved (d :: full) provided.
#[export] Hint Constructors interleaved : insolar.

Lemma interleaved_app arts d full provided :
  Forall is_articulation arts -> interleaved full provided ->
  interleaved ((arts ++ [d]) ++ full) (d :: provided).
Proof. induction 1; simpl; eauto with insolar. Qed.

(** Where the pulses of a sparse range end: its last pulse still has a next
    number, which the loops compute. *)
Fixpoint last_next_ok (data : list Data) : Prop :=
  match data with
  | [] => True
  | [d] => PulseNumber d + NextPulseDelta d <= MaxTimePulse
  | _ :: rest => last_next_ok rest
  end.

Lemma connected_next_ok next prevDelta d rest :
  connected next prevDelta (d :: rest) -> last_next_ok (d :: rest) ->
  Data_NextPulseNumber d = Ret (PulseNumber d + NextPulseDelta d).
Proof.
  intros (Hok & _ & Hrest) Hl. apply Data_NextPulseNumber_ok; [apply Hok|].
  pose proof (Data_ok_spec _ Hok) as (? & ? & _).
  assert (PulseNumber d + NextPulseDelta d <= MaxTimePulse); [|lia].
  destruct rest as [|d' rest]; [done|]. destruct Hrest as (Hok' & Hc & _).
  pose proof (Data_ok_spec _ Hok'). unfold connects in Hc. lia.
Qed.

Lemma sparse_loops_spec data : forall next prevDelta,
  connected next prevDelta data -> last_next_ok data ->
  exists full n' p',
    interleaved full data /\ path next prevDelta (triple_of <$> full) n' p' /\
    (data = [] -> full = [] /\ n' = next /\ p' = prevDelta) /\
    (forall r, last data = Some r ->
       last full = Some r /\ n' = PulseNumber r + NextPulseDelta r /\ p' = NextPulseDelta r) /\
    (forall (St : Type) (fd : Data -> St -> bool * St) s,
       sparse_EnumData_loop next prevDelta data fd s = Ret (visit fd full s)) /\
    (forall (St : Type) (fn : Z -> Z -> Z -> St -> bool * St) s,
       sparse_EnumNumbers_loop next prevDelta data fn s =
       Ret (visit (call3 fn) (triple_of <$> full) s)).
Proof.
  induction data as [|d rest IH]; intros next prevDelta Hc Hl.
  { exists [], next, prevDelta. repeat split; (constructor || done). }
  pose proof (connected_next_ok _ _ _ _ Hc Hl) as Hn. destruct Hc as (Hok & Hcd & Hc).
  destruct (enumSegmentData_spec _ _ _ Hok Hcd) as (arts & Ha & Hp & Hdata & Hnum).
  destruct (IH _ _ Hc ltac:(by destruct rest)) as (full & n' & p' & Hi & Hp' & Hnil & Hr & Hd' & Hn').
  exists ((arts ++ [d]) ++ full), n', p'. split; [by apply interleaved_app|]. split.
  { rewrite fmap_app. by eapply path_app. }
  split; [done|]. split; [|split].
  - intros r Hlast. destruct rest as [|d2 rest].
    + injection Hlast as ->. destruct Hnil as (-> & -> & ->); [done|].
      by rewrite app_nil_r, last_snoc.
    + destruct (Hr r Hlast) as (H1 & H2 & H3). by rewrite last_app, H1.
  - intros St fd s. simpl. rewrite Hdata. simpl. rewrite (visit_app fd (arts ++ [d]) full).
    destruct (visit fd (arts ++ [d]) s) as [[] s']; [done|]. rewrite Hn. apply Hd'.
  - intros St fn s. cbn [sparse_EnumNumbers_loop]. rewrite Hnum, (fmap_app _ (arts ++ [d]) full), (visit_app _ (triple_of <$> (arts ++ [d]))). simpl.
    destruct (visit (call3 fn) _ s) as [[] s']; [done|]. rewrite Hn. apply Hn'.
Qed.

(** A range some constructor returned. *)
Inductive built : Range -> Prop :=
  | built_gap left leftPrevDelta right p :
      0 <= left < 2^32 -> Data_typed right ->
      NewLeftGapRange left leftPrevDelta right = Ret p -> built p
  | built_sequence data p :
      Forall Data_typed data -> NewSequenceRange data = Ret p -> built p
  | built_range data p :
      Forall Data_typed data -> NewPulseRange data = Ret p -> built p.

Lemma built_wf p : built p -> wf_range p.
Proof.
  destruct 1; eauto using NewLeftGapRange_wf, NewSequenceRange_wf, NewPulseRange_wf.
Qed.

(** A sparse range that starts with a provided pulse ignores the answer of the
    first call. *)
Definition drops_first (p : Range) : bool :=
  match p with
  | sparsePulseRange (d :: _) => negb (NextPulseDelta d =? 0)
  | _ => false
  end.

Definition visit_range {A St} (drops : bool) (fn : A -> St -> bool * St) (l : list A) (s : St)
    : bool * St :=
  match l with
  | x :: rest => if drops then visit fn rest (fn x s).2 else visit fn l s
  | [] => (false, s)
  end.

Lemma last_next_ok_last data r :
  last data = Some r -> PulseNumber r + NextPulseDelta r <= MaxTimePulse -> last_next_ok data.
Proof.
  induction data as [|d data IH]; [done|]. destruct data as [|d' data]; simpl in *; [|done].
  by intros [= ->].
Qed.

Lemma linked_path next prevDelta data r :
  linked next prevDelta data -> last data = Some r ->
  path next prevDelta (triple_of <$> data) (PulseNumber r + NextPulseDelta r) (NextPulseDelta r).
Proof.
  revert next prevDelta. induction data as [|d data IH]; [done|].
  intros next prevDelta (Hok & -> & -> & Hl) Hr. pose proof (Data_ok_spec _ Hok).
  rewrite fmap_cons. constructor; [lia|]. destruct data as [|d' data].
  - injection Hr as ->. constructor.
  - by apply IH.
Qed.

Lemma interleaved_refl l : interleaved l l.
Proof. induction l; eauto with insolar. Qed.

(** The contract of a range: one gapless list of pulses behind all three
    enumerations. *)
Definition range_contract (p : Range) (right : Data) : Prop :=
  exists full provided start prevDelta,
    Range_LeftBoundNumber p = Ret start /\ Range_LeftPrevDelta p = Ret prevDelta /\
    path start prevDelta (triple_of <$> full)
      (PulseNumber right + NextPulseDelta right) (NextPulseDelta right) /\
    last full = Some right /\ interleaved full provided /\
    forall St : Type,
      (forall fd (s : St),
         Range_EnumData p fd s = Ret (visit_range (drops_first p) fd full s)) /\
      (forall fn (s : St),
         Range_EnumNumbers p fn s =
         Ret (visit_range (drops_first p) (call3 fn) (triple_of <$> full) s)) /\
      (forall fd (s : St), Range_EnumNonArticulatedData p fd s = Ret (visit fd provided s)).

Lemma visit_one {A St} (fn : A -> St -> bool * St) x s : visit fn [x] s = fn x s.
Proof. simpl. by destruct (fn x s) as [[] ?]. Qed.

Lemma one_contract d : Data_ok d -> range_contract (onePulseRange d) d.
Proof.
  intros Hok. pose proof (Data_ok_spec _ Hok).
  exists [d], [d], (PulseNumber d), (PrevPulseDelta d).
  split; [done|]. split; [done|]. split; [constructor; [lia|constructor]|].
  split; [done|]. split; [apply interleaved_refl|]. intros St.
  split; [|split]; intros f s; simpl; f_equal; symmetry.
  - apply (visit_one f).
  - apply (visit_one (call3 f) (triple_of d)).
  - apply (visit_one f).
Qed.

Lemma gap_contract start prevDelta e :
  wf_range (gapPulseRange start prevDelta e) ->
  range_contract (gapPulseRange start prevDelta e) e.
Proof.
  intros (Hok & Hne & Hc).
  destruct (enumSegmentData_spec _ _ _ Hok Hc) as (arts & Ha & Hp & Hd & Hn).
  exists (arts ++ [e]), [e], start, prevDelta. split; [done|]. split; [done|].
  split; [done|]. split; [apply list.last_snoc|]. split.
  { rewrite <- (app_nil_r (arts ++ [e])). apply interleaved_app; [done|constructor]. }
  assert (forall A St' (fn : A -> St' -> bool * St') l s, visit_range false fn l s = visit fn l s) as Hv
    by (by intros ??? []).
  intros St. split; [|split].
  - intros fd s. simpl. unfold gapPulseRange_EnumData. by rewrite Hd, Hv.
  - intros fn s. simpl drops_first. rewrite Hv, <- Hn. simpl Range_EnumNumbers.
    unfold gapPulseRange_EnumNumbers. by replace (start =? PulseNumber e) with false by lia.
  - intros fd s. simpl. f_equal. symmetry. apply (visit_one fd).
Qed.

Lemma seq_contract data r :
  wf_range (seqPulseRange data) -> last data = Some r -> range_contract (seqPulseRange data) r.
Proof.
  intros Hwf Hr. destruct data as [|d data]; [done|].
  exists (d :: data), (d :: data), (PulseNumber d), (PrevPulseDelta d).
  split; [done|]. split; [done|]. split; [by apply linked_path|].
  split; [done|]. split; [apply interleaved_refl|]. intros St. split; [done|]. split; [|done].
  intros fn s. simpl drops_first. simpl Range_EnumNumbers.
  f_equal. exact (visit_map triple_of (call3 fn) (d :: data) s).
Qed.

Lemma sparse_contract data r :
  wf_range (sparsePulseRange data) -> last data = Some r ->
  PulseNumber r + NextPulseDelta r <= MaxTimePulse -> range_contract (sparsePulseRange data) r.
Proof.
  intros Hwf Hr Hmax. destruct data as [|d rest]; [done|]. destruct Hwf as (Hrest & Hwf).
  assert (last rest = Some r) as Hr' by (by destruct rest).
  pose proof (last_next_ok_last _ _ Hr' Hmax) as Hl.
  unfold range_contract. simpl. destruct (NextPulseDelta d =? 0) eqn:E.
  - destruct (sparse_loops_spec _ _ _ Hwf Hl) as (full & n' & p' & Hi & Hp & _ & Hlast & Hd & Hn).
    destruct (Hlast _ Hr') as (? & -> & ->).
    exists full, rest, (PulseNumber d), (PrevPulseDelta d). repeat split; try done.
    + intros fd s. unfold sparsePulseRange_EnumData. simpl. unfold sparse_start. rewrite E.
      simpl. rewrite Hd. by destruct full.
    + intros fn s. unfold sparsePulseRange_EnumNumbers. simpl. unfold sparse_start. rewrite E.
      simpl. rewrite Hn. by destruct full.
    + intros fd s. unfold sparsePulseRange_EnumNonArticulatedData. simpl. by rewrite E.
  - pose proof (connected_next_ok _ _ _ _ Hwf ltac:(by destruct rest)) as Hnext.
    destruct Hwf as (Hok & _ & Hwf). pose proof (Data_ok_spec _ Hok).
    destruct (sparse_loops_spec _ _ _ Hwf Hl) as (full & n' & p' & Hi & Hp & _ & Hlast & Hd & Hn).
    destruct (Hlast _ Hr') as (Hlf & -> & ->).
    exists (d :: full), (d :: rest), (PulseNumber d), (PrevPulseDelta d).
    split; [done|]. split; [done|]. split; [constructor; [lia|done]|].
    split; [by destruct full|]. split; [by constructor|]. intros St.
    split; [|split].
    + intros fd s. unfold sparsePulseRange_EnumData. simpl. unfold sparse_start.
      rewrite E, Hnext. apply Hd.
    + intros fn s. unfold sparsePulseRange_EnumNumbers. simpl. unfold sparse_start.
      rewrite E, Hnext. apply Hn.
    + intros fd s. unfold sparsePulseRange_EnumNonArticulatedData. simpl. by rewrite E.
Qed.

(** for every range a constructor returns (whose last pulse still has a next
    number) there is one list of pulses, gapless from the range's left bound to
    its right-bound data, such that [EnumData] visits exactly that list,
    [EnumNumbers] its numbers and deltas, and [EnumNonArticulatedData] exactly
    the provided pulses in it; everything between them is an articulation
    pulse.  Enumeration never panics. *)
Theorem Range_enumerations p right :
  built p -> Range_RightBoundData p = Ret right ->
  PulseNumber right + NextPulseDelta right <= MaxTimePulse ->
  range_contract p right.
Proof.
  intros Hb Hr Hmax. apply built_wf in Hb.
  assert (forall data, index data (length data - 1) = Ret right -> last data = Some right) as Hlast.
  { intros data. unfold index. rewrite list.last_lookup.
    replace (length data - 1)%nat with (pred (length data)) by lia.
    destruct (data !! _); [|done]. by intros [= ->]. }
  destruct p as [d|start prevDelta e|data|data]; simpl in Hr.
  - injection Hr as <-. by apply one_contract.
  - injection Hr as <-. by apply gap_contract.
  - apply seq_contract; auto.
  - apply sparse_contract; auto.
Qed.

Definition sparse_sample : list Data :=
  [mkData 65600 65600 10 10 1 []; mkData 65610 65610 20 10 2 []; mkData 70000 70000 30 5 3 []].

Example Range_enumerations_witness :
  range_contract (sparsePulseRange sparse_sample) (mkData 70000 70000 30 5 3 []).
Proof.
  apply (Range_enumerations (sparsePulseRange sparse_sample) (mkData 70000 70000 30 5 3 [])).
  - apply built_range with sparse_sample; [|reflexivity].
    repeat constructor; vm_compute; congruence.
  - reflexivity.
  - vm_compute. congruence.
Defined.

(** a sparse range whose first pulse is provided calls the callback again
    after it has answered [true] on that pulse, where a sequence stops: the
    first answer is lost. *)
Theorem sparse_ignores_first_stop :
  let stop_now (n pd nd : Z) (calls : list Z) := (true, calls ++ [n]) in
  exists p q,
    NewPulseRange sparse_sample = Ret p /\
    NewPulseRange (take 2 sparse_sample) = Ret q /\
    Range_EnumNumbers p stop_now [] = Ret (true, [65600; 65610]) /\
    Range_EnumNumbers q stop_now [] = Ret (true, [65600]).
Proof.
  intros stop_now.
  exists (sparsePulseRange sparse_sample), (seqPulseRange (take 2 sparse_sample)).
  repeat split.
Qed.
