(* ===== verification/PulseStore.v ===== *)
(** * Pulse storages (src/insolar/pulse)

    The in-memory storage (memory.go), a doubly linked list of heap nodes
    with an index by pulse number, and the database storage (badger_db.go),
    an ordered table.  Both are pulse storages in the sense of one interface:
    they answer as the increasing list of the pulses they hold does. *)
From stdpp Require Import sorting.
From S2P Require Import Prelude Pulse.

(** ** insolar.Pulse *)
Definition EntropySize : nat := 64.
Record PulseSenderConfirmation : Type := mkConfirmation {
  psc_PulseNumber : Z;
  ChosenPublicKey : string;
  psc_Entropy : list Z;
  Signature : list Z;
}.
Record Pulse : Type := mkPulse {
  num : Z;  (* PulseNumber *)
  PrevPulseNumber : Z;
  NextPulseNumber : Z;
  Pulse_Timestamp : Z;
  EpochPulseNumber : Z;
  OriginID : list Z;
  Entropy : list Z;
  Signs : gmap string PulseSenderConfirmation;
}.

(** ** errors.go *)
Definition ErrNotFound : error := Errorf "pulse not found".
Definition ErrBadPulse : error := Errorf "pulse should be greater than the latest".

(** ** The contract: a storage as the increasing list of its pulses *)
Definition increasing (l : list Pulse) : Prop :=
  forall i j p q, (i < j)%nat -> l !! i = Some p -> l !! j = Some q -> num p < num q.

Definition found (o : option Pulse) : result Pulse :=
  match o with Some p => Good p | None => Fail ErrNotFound end.

Definition list_ForPulseNumber (l : list Pulse) (pn : Z) : result Pulse :=
  found (snd <$> list_find (fun p => num p = pn) l).
Definition list_Latest (l : list Pulse) : result Pulse := found (last l).
Definition list_Append (l : list Pulse) (pulse : Pulse) : list Pulse * option error :=
  match last l with
  | Some q => if num pulse <=? num q then (l, Some ErrBadPulse) else (l ++ [pulse], None)
  | None => ([pulse], None)
  end.
Fixpoint list_Shift (l : list Pulse) (pn : Z) : list Pulse :=
  match l with
  | [] => []
  | p :: l' => if num p <=? pn then list_Shift l' pn else l
  end.

(** What a pulse storage offers (pulse.Accessor, Appender, Calculator). *)
Class PulseStorage (S : Type) : Type := {
  ForPulseNumber : S -> Z -> go (result Pulse);
  Latest : S -> go (result Pulse);
  Append : S -> Pulse -> go (S * option error);
  Forwards : S -> Z -> Z -> go (result Pulse);
  Backwards : S -> Z -> Z -> go (result Pulse);
}.

(** What it promises: [holds s l] says that [s] stores the list [l]. *)
Class LawfulStorage (S : Type) `{PulseStorage S} : Type := {
  holds : S -> list Pulse -> Prop;
  holds_increasing s l : holds s l -> increasing l;
  ForPulseNumber_law s l pn : holds s l -> ForPulseNumber s pn = Ret (list_ForPulseNumber l pn);
  Latest_law s l : holds s l -> Latest s = Ret (list_Latest l);
  Append_law s l p : holds s l -> 0 <= num p < 2^32 ->
    exists s', Append s p = Ret (s', (list_Append l p).2) /\ holds s' (list_Append l p).1;
  Forwards_law s l i p (k : nat) : holds s l -> l !! i = Some p ->
    Forwards s (num p) (Z.of_nat k) = Ret (found (l !! (i + k)%nat));
  Backwards_law s l i p (k : nat) : holds s l -> l !! i = Some p ->
    Backwards s (num p) (Z.of_nat k) = Ret (found (if (k <=? i)%nat then l !! (i - k)%nat else None));
}.

(** ** memory.go: nodes on a heap *)
Record memNode : Type := mkNode {
  node_pulse : Pulse;
  node_prev : option positive;
  node_next : option positive;
}.
Record StorageMem : Type := mkMem {
  heap : gmap positive memNode;
  storage : gmap Z positive;
  mem_head : option positive;
  mem_tail : option positive;
}.
Definition NewStorageMem : StorageMem := mkMem ∅ ∅ None None.

(** Following a pointer; [nil] panics. *)
Definition deref (h : gmap positive memNode) (a : option positive) : go memNode :=
  match a ≫= (h !!.) with Some n => Ret n | None => Panic "nil pointer dereference" end.

Definition Mem_ForPulseNumber (s : StorageMem) (pn : Z) : go (result Pulse) :=
  match storage s !! pn with
  | None => Ret (Fail ErrNotFound)
  | Some a => n ← deref (heap s) (Some a); Ret (Good (node_pulse n))
  end.

Definition Mem_Latest (s : StorageMem) : go (result Pulse) :=
  match mem_tail s with
  | None => Ret (Fail ErrNotFound)
  | t => n ← deref (heap s) t; Ret (Good (node_pulse n))
  end.

Definition appendTail (s : StorageMem) (pulse : Pulse) : go StorageMem :=
  let oldTail := mem_tail s in
  let newTail := fresh (dom (heap s)) in
  let h := <[newTail := mkNode pulse oldTail None]> (heap s) in
  n ← deref h oldTail;
  match oldTail with
  | None => Panic "nil pointer dereference"
  | Some t =>
      let h := <[t := mkNode (node_pulse n) (node_prev n) (Some newTail)]> h in
      Ret (mkMem h (<[num pulse := newTail]> (storage s)) (mem_head s) (Some newTail))
  end.

Definition appendHead (s : StorageMem) (pulse : Pulse) : StorageMem :=
  let t := fresh (dom (heap s)) in
  mkMem (<[t := mkNode pulse None None]> (heap s)) (<[num pulse := t]> (storage s))
    (Some t) (Some t).

Definition Mem_Append (s : StorageMem) (pulse : Pulse) : go (StorageMem * option error) :=
  match mem_head s with
  | None => Ret (appendHead s pulse, None)
  | Some _ =>
      t ← deref (heap s) (mem_tail s);
      if num pulse <=? num (node_pulse t) then Ret (s, Some ErrBadPulse)
      else s' ← appendTail s pulse; Ret (s', None)
  end.

(** The loop of [Shift]; it visits each stored node at most once. *)
Fixpoint Shift_loop (fuel : nat) (hp : gmap positive memNode) (st : gmap Z positive)
    (h : option positive) (pn : Z) : go (gmap Z positive * option positive) :=
  match fuel, h with
  | _, None => Ret (st, None)
  | O, _ => Panic "out of fuel"
  | S fuel', Some a =>
      n ← deref hp (Some a);
      if num (node_pulse n) <=? pn
      then Shift_loop fuel' hp (delete (num (node_pulse n)) st) (node_next n) pn
      else Ret (st, Some a)
  end.

Definition Mem_Shift (s : StorageMem) (pn : Z) : go (StorageMem * option error) :=
  match mem_head s with
  | None => Ret (s, Some (Errorf "nothing to shift"))
  | Some _ =>
      r ← Shift_loop (S (size (storage s))) (heap s) (storage s) (mem_head s) pn;
      let '(st, h) := r in
      match h with
      | None => Ret (mkMem (heap s) st None None, None)
      | Some a =>
          n ← deref (heap s) (Some a);
          Ret (mkMem (<[a := mkNode (node_pulse n) None (node_next n)]> (heap s)) st
                 (Some a) (mem_tail s), None)
      end
  end.

(** The loops of [Forwards] and [Backwards], [i] iterations left. *)
Fixpoint walk (link : memNode -> option positive) (hp : gmap positive memNode)
    (iterator : memNode) (i : nat) : go (result Pulse) :=
  match i with
  | O => Ret (Good (node_pulse iterator))
  | S i' =>
      match link iterator with
      | None => Ret (Fail ErrNotFound)
      | a => n ← deref hp a; walk link hp n i'
      end
  end.

Definition Mem_Forwards (s : StorageMem) (pn steps : Z) : go (result Pulse) :=
  match storage s !! pn with
  | None => Ret (Fail ErrNotFound)
  | Some a => n ← deref (heap s) (Some a); walk node_next (heap s) n (Z.to_nat steps)
  end.
Definition Mem_Backwards (s : StorageMem) (pn steps : Z) : go (result Pulse) :=
  match storage s !! pn with
  | None => Ret (Fail ErrNotFound)
  | Some a => n ← deref (heap s) (Some a); walk node_prev (heap s) n (Z.to_nat steps)
  end.

#[export] Instance StorageMem_storage : PulseStorage StorageMem := {
  ForPulseNumber := Mem_ForPulseNumber;
  Latest := Mem_Latest;
  Append := Mem_Append;
  Forwards := Mem_Forwards;
  Backwards := Mem_Backwards;
}.

(** ** badger_db.go: an ordered table

    Keys are the big-endian bytes of pulse numbers, so their order is that of
    the numbers.  The retries end with a transaction that succeeds; its
    effect is that of the function. *)
Record dbNode : Type := mkDbNode { dbn_Pulse : Pulse; Prev : option Z; Next : option Z }.
Abbreviation BadgerDB := (gmap Z dbNode).

Definition keys (db : BadgerDB) : list Z := merge_sort Z.le (elements (dom db)).

(** The keys an iterator visits, from [Seek pivot] on. *)
Definition iterator (db : BadgerDB) (pivot : Z) (reversed : bool) : list Z :=
  if reversed then reverse (filter (fun k => k <= pivot) (keys db))
  else filter (fun k => pivot <= k) (keys db).

Definition db_head (db : BadgerDB) : result Z :=
  match iterator db (2^32 - 1) true with [] => Fail ErrNotFound | k :: _ => Good k end.
Definition db_get (db : BadgerDB) (pn : Z) : result dbNode :=
  match db !! pn with Some n => Good n | None => Fail ErrNotFound end.

Definition DB_ForPulseNumber (db : BadgerDB) (pn : Z) : result Pulse :=
  node ← db_get db pn; mret (dbn_Pulse node).
Definition DB_Latest (db : BadgerDB) : result Pulse :=
  h ← db_head db; node ← db_get db h; mret (dbn_Pulse node).

Definition DB_TruncateHead (db : BadgerDB) (from : Z) : BadgerDB :=
  foldr delete db (iterator db from false).

(** The transaction of [Append]; [None] when it fails and is tried again. *)
Definition DB_Append_txn (db : BadgerDB) (pulse : Pulse) : option (BadgerDB * option error) :=
  match db_head db with
  | Fail _ => Some (<[num pulse := mkDbNode pulse None None]> db, None)
  | Good head =>
      if num pulse <=? head then Some (db, Some ErrBadPulse)
      else
        match db_get db head with
        | Fail _ => None
        | Good oldHead =>
            let old := num (dbn_Pulse oldHead) in
            let db := <[num pulse := mkDbNode pulse (Some old) None]> db in
            Some (<[old := mkDbNode (dbn_Pulse oldHead) (Prev oldHead) (Some (num pulse))]> db, None)
        end
  end.
Definition DB_Append (db : BadgerDB) (pulse : Pulse) : go (BadgerDB * option error) :=
  match DB_Append_txn db pulse with Some r => Ret r | None => Panic "retries forever" end.

Definition DB_traverse (db : BadgerDB) (pn steps : Z) (reversed : bool) : result Pulse :=
  if steps <? 0
  then Fail (Errorf "BadgerDB.traverse - `steps` argument should be not negative")
  else
    match iterator db pn reversed !! Z.to_nat steps with
    | Some k => node ← db_get db k; mret (dbn_Pulse node)
    | None => Fail ErrNotFound
    end.
Definition DB_Forwards (db : BadgerDB) (pn steps : Z) : result Pulse := DB_traverse db pn steps false.
Definition DB_Backwards (db : BadgerDB) (pn steps : Z) : result Pulse := DB_traverse db pn steps true.

#[export] Instance BadgerDB_storage : PulseStorage BadgerDB := {
  ForPulseNumber db pn := Ret (DB_ForPulseNumber db pn);
  Latest db := Ret (DB_Latest db);
  Append := DB_Append;
  Forwards db pn steps := Ret (DB_Forwards db pn steps);
  Backwards db pn steps := Ret (DB_Backwards db pn steps);
}.

(** ** Increasing lists *)
Lemma increasing_index l i j p q :
  increasing l -> l !! i = Some p -> l !! j = Some q -> num p = num q -> i = j.
Proof.
  intros Hl Hi Hj Heq. destruct (Nat.lt_total i j) as [Hlt|[|Hlt]]; [|done|].
  - specialize (Hl i j p q Hlt Hi Hj). lia.
  - specialize (Hl j i q p Hlt Hj Hi). lia.
Qed.

Lemma increasing_find l i p :
  increasing l -> l !! i = Some p -> list_find (fun q => num q = num p) l = Some (i, p).
Proof.
  intros Hl Hi. apply list_find_Some. split_and!; [done|done|].
  intros j q Hj Hlt Hq. specialize (Hl j i q p Hlt Hj Hi). lia.
Qed.

Lemma increasing_nil : increasing [].
Proof. by intros i j p q _ Hi. Qed.

Lemma increasing_snoc l p q :
  increasing l -> last l = Some q -> num q < num p -> increasing (l ++ [p]).
Proof.
  intros Hl Hq Hlt i j a b Hij Ha Hb. rewrite last_lookup in Hq.
  apply lookup_lt_Some in Hb as Hj. rewrite length_app in Hj. cbn in Hj.
  rewrite lookup_app_l in Ha by lia.
  destruct (decide (j < length l)%nat) as [Hj'|Hj'].
  - rewrite lookup_app_l in Hb by done. by apply (Hl i j).
  - assert (j = length l) as -> by lia. rewrite lookup_app_r, Nat.sub_diag in Hb by lia.
    injection Hb as <-. destruct (decide (i = pred (length l))) as [->|Hi]; [congruence|].
    specialize (Hl i (pred (length l)) a q ltac:(lia) Ha Hq). lia.
Qed.

Lemma increasing_drop l k : increasing l -> increasing (drop k l).
Proof.
  intros Hl i j p q Hij. rewrite !lookup_drop. apply Hl. lia.
Qed.

Lemma increasing_take l k : increasing l -> increasing (take k l).
Proof.
  intros Hl i j p q Hij Hi Hj. apply lookup_take_Some in Hi as [Hi _], Hj as [Hj _]. by apply (Hl i j).
Qed.

Lemma increasing_append l p :
  increasing l -> increasing (list_Append l p).1.
Proof.
  intros Hl. unfold list_Append. destruct (last l) as [q|] eqn:E.
  - destruct (Z.leb_spec (num p) (num q)); [done|]. cbn. by eapply increasing_snoc.
  - intros i j a b Hij Ha Hb. apply list_lookup_singleton_Some in Ha as [-> _], Hb as [-> _]. lia.
Qed.

Lemma list_Append_cases l p :
  (list_Append l p).1 = l \/ (list_Append l p).1 = l ++ [p].
Proof.
  unfold list_Append. destruct (last l) as [q|] eqn:E; [destruct (_ <=? _); auto|].
  apply last_None in E as ->. by right.
Qed.

(** ** The list on the heap *)
Record mem_chain (s : StorageMem) (l : list Pulse) (addrs : list positive) : Prop := {
  mc_increasing : increasing l;
  mc_length : length addrs = length l;
  mc_NoDup : NoDup addrs;
  mc_head : mem_head s = addrs !! 0%nat;
  mc_tail : mem_tail s = last addrs;
  mc_heap i a p : addrs !! i = Some a -> l !! i = Some p ->
    heap s !! a = Some (mkNode p (match i with O => None | S j => addrs !! j end) (addrs !! S i));
  mc_storage pn a : storage s !! pn = Some a <->
    exists i p, addrs !! i = Some a /\ l !! i = Some p /\ num p = pn;
}.
Definition mem_holds (s : StorageMem) (l : list Pulse) : Prop := exists addrs, mem_chain s l addrs.

Section MemChain.
Context (s : StorageMem) (l : list Pulse) (addrs : list positive) (Hs : mem_chain s l addrs).

Lemma mem_addr i p : l !! i = Some p -> exists a, addrs !! i = Some a.
Proof. intros Hi. apply lookup_lt_is_Some. rewrite (mc_length _ _ _ Hs). by eapply lookup_lt_Some. Qed.

Lemma mem_pulse i a : addrs !! i = Some a -> exists p, l !! i = Some p.
Proof. intros Hi. apply lookup_lt_is_Some. rewrite <- (mc_length _ _ _ Hs). by eapply lookup_lt_Some. Qed.

Lemma mem_lookup i p : l !! i = Some p ->
  exists a, addrs !! i = Some a /\ storage s !! num p = Some a /\
    deref (heap s) (Some a) =
      Ret (mkNode p (match i with O => None | S j => addrs !! j end) (addrs !! S i)).
Proof.
  intros Hi. destruct (mem_addr i p Hi) as [a Ha]. exists a. split; [done|]. split.
  - apply (mc_storage _ _ _ Hs). by exists i, p.
  - unfold deref. cbn. by rewrite (mc_heap _ _ _ Hs i a p Ha Hi).
Qed.

Lemma mem_missing pn : list_find (fun p => num p = pn) l = None -> storage s !! pn = None.
Proof.
  intros Hf. destruct (storage s !! pn) as [a|] eqn:E; [|done].
  apply (mc_storage _ _ _ Hs) in E as (i & p & _ & Hi & Hn).
  apply list_find_None in Hf. rewrite list.Forall_forall in Hf.
  exfalso. apply (Hf p); [|done]. by eapply list_elem_of_lookup_2.
Qed.

Lemma mem_ForPulseNumber pn : Mem_ForPulseNumber s pn = Ret (list_ForPulseNumber l pn).
Proof.
  unfold Mem_ForPulseNumber, list_ForPulseNumber.
  destruct (list_find _ l) as [[i p]|] eqn:E; [|by rewrite mem_missing].
  apply list_find_Some in E as (Hi & <- & _).
  destruct (mem_lookup i p Hi) as (a & _ & -> & Hd). by rewrite Hd.
Qed.

Lemma mem_Latest : Mem_Latest s = Ret (list_Latest l).
Proof.
  unfold Mem_Latest, list_Latest. rewrite (mc_tail _ _ _ Hs), !last_lookup, (mc_length _ _ _ Hs).
  destruct (l !! pred (length l)) as [p|] eqn:E.
  - destruct (mem_lookup _ p E) as (a & -> & _ & Hd). by rewrite Hd.
  - destruct (addrs !! _) as [a|] eqn:Ea; [|done]. destruct (mem_pulse _ _ Ea). congruence.
Qed.

Lemma walk_next k i p :
  l !! i = Some p ->
  walk node_next (heap s)
    (mkNode p (match i with O => None | S j => addrs !! j end) (addrs !! S i)) k =
  Ret (found (l !! (i + k)%nat)).
Proof.
  revert i p. induction k as [|k IH]; intros i p Hi; [by rewrite Nat.add_0_r, Hi|].
  cbn [walk node_next]. rewrite Nat.add_succ_r. destruct (addrs !! S i) as [a|] eqn:Ea.
  - destruct (mem_pulse _ _ Ea) as [q Hq]. destruct (mem_lookup _ q Hq) as (a' & Ha' & _ & Hd).
    assert (a' = a) as -> by congruence. rewrite Hd. cbn [mbind go_bind]. by apply (IH (S i)).
  - destruct (l !! S (i + k)) as [q|] eqn:Eq; [|done].
    apply lookup_lt_Some in Eq. apply lookup_ge_None in Ea. rewrite (mc_length _ _ _ Hs) in Ea. lia.
Qed.

Lemma walk_prev k i p next :
  l !! i = Some p ->
  walk node_prev (heap s)
    (mkNode p (match i with O => None | S j => addrs !! j end) next) k =
  Ret (found (if (k <=? i)%nat then l !! (i - k)%nat else None)).
Proof.
  revert i p next. induction k as [|k IH]; intros i p next Hi; [by rewrite Nat.sub_0_r, Hi|].
  cbn [walk node_prev]. destruct i as [|j]; [done|].
  destruct (addrs !! j) as [a|] eqn:Ea.
  - destruct (mem_pulse _ _ Ea) as [q Hq]. destruct (mem_lookup _ q Hq) as (a' & Ha' & _ & Hd).
    assert (a' = a) as -> by congruence. rewrite Hd. cbn [mbind go_bind]. rewrite (IH j q) by done.
    done.
  - apply lookup_ge_None in Ea. apply lookup_lt_Some in Hi. rewrite (mc_length _ _ _ Hs) in Ea. lia.
Qed.

Lemma mem_Forwards i p k :
  l !! i = Some p -> Mem_Forwards s (num p) k = Ret (found (l !! (i + Z.to_nat k)%nat)).
Proof.
  intros Hi. unfold Mem_Forwards. destruct (mem_lookup i p Hi) as (a & _ & -> & Hd).
  rewrite Hd. by apply walk_next.
Qed.

Lemma mem_Backwards i p k :
  l !! i = Some p ->
  Mem_Backwards s (num p) k =
  Ret (found (if (Z.to_nat k <=? i)%nat then l !! (i - Z.to_nat k)%nat else None)).
Proof.
  intros Hi. unfold Mem_Backwards. destruct (mem_lookup i p Hi) as (a & _ & -> & Hd).
  rewrite Hd. by apply walk_prev.
Qed.

(** A fresh address is none of the chain's. *)
Lemma mem_fresh i : addrs !! i <> Some (fresh (dom (heap s))).
Proof.
  intros Ha. destruct (mem_pulse _ _ Ha) as [p Hp]. pose proof (mc_heap _ _ _ Hs _ _ _ Ha Hp) as Hh.
  apply elem_of_dom_2 in Hh. by apply is_fresh in Hh.
Qed.
End MemChain.

Lemma mem_chain_nil : mem_chain NewStorageMem [] [].
Proof.
  split; cbn; [by apply increasing_nil|done|by apply NoDup_nil_2|done|done|done|].
  intros pn a. rewrite lookup_empty. split; [done|]. by intros (i & p & ? & _).
Qed.

Lemma mem_holds_nil : mem_holds NewStorageMem [].
Proof. exists []. apply mem_chain_nil. Qed.

(** Appending to an empty storage, and at the tail of a chain. *)
Lemma appendHead_chain s p addrs :
  mem_chain s [] addrs -> mem_chain (appendHead s p) [p] [fresh (dom (heap s))].
Proof.
  intros Hs. split; cbn.
  - apply (increasing_append [] p), increasing_nil.
  - done.
  - apply NoDup_singleton.
  - done.
  - done.
  - intros i a q [-> <-]%list_lookup_singleton_Some [_ <-]%list_lookup_singleton_Some.
    by rewrite lookup_insert_eq.
  - intros pn a. destruct (decide (pn = num p)) as [->|Hne].
    + rewrite lookup_insert_eq. split; [intros [= <-]; by exists 0%nat, p|].
      by intros (i & q & [_ <-]%list_lookup_singleton_Some & _).
    + rewrite lookup_insert_ne by done. split.
      * intros (i & q & _ & Hi & _)%(mc_storage _ _ _ Hs). by rewrite lookup_nil in Hi.
      * by intros (i & q & _ & [_ <-]%list_lookup_singleton_Some & ?).
Qed.

Lemma snoc_lookup {A} (xs : list A) x i y :
  (xs ++ [x]) !! i = Some y <-> xs !! i = Some y \/ i = length xs /\ y = x.
Proof.
  destruct (decide (i < length xs)%nat).
  - rewrite lookup_app_l by done. split; [by left|]. intros [?|[-> _]]; [done|lia].
  - rewrite lookup_app_r, list_lookup_singleton_Some by lia. split.
    + intros [? ->]. right. split; [lia|done].
    + intros [?%lookup_lt_Some|[-> ->]]; [lia|]. split; [lia|done].
Qed.

Lemma appendTail_chain s l addrs p q :
  mem_chain s l addrs -> last l = Some q -> num q < num p ->
  exists s' addrs', appendTail s p = Ret s' /\ mem_chain s' (l ++ [p]) addrs'.
Proof.
  intros Hs Hq Hlt. set (new := fresh (dom (heap s))).
  assert (Hl : l !! pred (length l) = Some q) by (by rewrite <- last_lookup).
  assert (Hlen : length l <> 0%nat) by (intros E; destruct l; done).
  destruct (mem_addr _ _ _ Hs _ _ Hl) as [t Ht].
  assert (Htail : mem_tail s = Some t)
    by (by rewrite (mc_tail _ _ _ Hs), last_lookup, (mc_length _ _ _ Hs)).
  assert (Hnew : forall i, addrs !! i <> Some new) by apply (mem_fresh _ _ _ Hs).
  assert (Htn : t <> new) by (intros ->; by apply (Hnew _ Ht)).
  pose proof (mc_heap _ _ _ Hs _ _ _ Ht Hl) as Hh.
  assert (Hnext : addrs !! S (pred (length l)) = None)
    by (apply lookup_ge_None; rewrite (mc_length _ _ _ Hs); lia).
  unfold appendTail. fold new. rewrite Htail. unfold deref. cbn [mbind option_bind].
  rewrite lookup_insert_ne, Hh by done. cbn [mbind go_bind].
  eexists _, (addrs ++ [new]). split; [done|]. split; cbn.
  - by eapply increasing_snoc; [apply Hs|..].
  - by rewrite !length_app, (mc_length _ _ _ Hs).
  - apply list.NoDup_app. split_and!; [apply Hs| |apply NoDup_singleton].
    intros a [i Hi]%list_elem_of_lookup ->%list_elem_of_singleton. by apply (Hnew i).
  - rewrite (mc_head _ _ _ Hs), lookup_app_l; [done|]. rewrite (mc_length _ _ _ Hs). lia.
  - by rewrite list.last_snoc.
  - intros i a r Ha Hr. apply snoc_lookup in Ha, Hr.
    assert (Hlen' := mc_length _ _ _ Hs).
    destruct Ha as [Ha|[-> ->]], Hr as [Hr|[Hi ->]].
    + pose proof (mc_heap _ _ _ Hs _ _ _ Ha Hr) as Hi. apply lookup_lt_Some in Hr as Hlt'.
      assert (a <> new) by (intros ->; by apply (Hnew i)).
      destruct (decide (i = pred (length l))) as [->|Hne].
      * assert (a = t) as -> by congruence. rewrite lookup_insert_eq. f_equal. f_equal.
        -- congruence.
        -- destruct (pred (length l)) eqn:E; [done|]. rewrite lookup_app_l by lia. done.
        -- symmetry. apply snoc_lookup. right. split; [lia|done].
      * rewrite lookup_insert_ne.
        2: { intros ->. apply Hne. by apply (NoDup_lookup addrs i _ a (mc_NoDup _ _ _ Hs)). }
        rewrite lookup_insert_ne by done. rewrite Hi. f_equal. f_equal.
        -- destruct i; [done|]. rewrite lookup_app_l by lia. done.
        -- rewrite lookup_app_l by lia. done.
    + apply lookup_lt_Some in Ha. lia.
    + apply lookup_lt_Some in Hr. lia.
    + rewrite lookup_insert_ne by done. rewrite lookup_insert_eq. rewrite Hlen'.
      f_equal. f_equal.
      * destruct (length l) as [|n] eqn:E; [done|]. rewrite lookup_app_l by lia.
        cbn in Ht. by rewrite Ht.
      * symmetry. apply lookup_ge_None. rewrite length_app. cbn. lia.
  - intros pn a. destruct (decide (pn = num p)) as [->|Hne].
    + rewrite lookup_insert_eq. split.
      * intros [= <-]. exists (length l), p. rewrite !snoc_lookup, (mc_length _ _ _ Hs). auto.
      * intros (i & r & Ha & Hr & Hn). apply snoc_lookup in Ha, Hr.
        destruct Hr as [Hr|[-> ->]].
        -- assert (increasing (l ++ [p])) as Hinc by (by eapply increasing_snoc; [apply Hs|..]).
           assert (i = length l) as ->.
           { eapply (increasing_index (l ++ [p]) _ _ r p); [done|..|done]; apply snoc_lookup; auto. }
           apply lookup_lt_Some in Hr. lia.
        -- destruct Ha as [Ha|[_ ->]]; [|done].
           apply lookup_lt_Some in Ha. rewrite (mc_length _ _ _ Hs) in Ha. lia.
    + rewrite lookup_insert_ne, (mc_storage _ _ _ Hs) by done.
      split; intros (i & r & Ha & Hr & Hn); exists i, r.
      * rewrite !snoc_lookup. auto.
      * apply snoc_lookup in Ha, Hr. destruct Hr as [Hr|[-> ->]]; [|done].
        destruct Ha as [Ha|[-> _]]; [done|].
        apply lookup_lt_Some in Hr. rewrite (mc_length _ _ _ Hs) in Hr. lia.
Qed.

Lemma Mem_Append_holds s l p :
  mem_holds s l ->
  exists s', Mem_Append s p = Ret (s', (list_Append l p).2) /\ mem_holds s' (list_Append l p).1.
Proof.
  intros [addrs Hs]. unfold Mem_Append, list_Append. rewrite (mc_head _ _ _ Hs).
  destruct (last l) as [q|] eqn:Eq.
  - assert (Hl : l !! pred (length l) = Some q) by (by rewrite <- last_lookup).
    assert (length l <> 0%nat) by (destruct l; done).
    destruct (addrs !! 0%nat) as [h|] eqn:Eh.
    2: { apply lookup_ge_None in Eh. rewrite (mc_length _ _ _ Hs) in Eh. lia. }
    rewrite (mc_tail _ _ _ Hs), last_lookup, (mc_length _ _ _ Hs).
    destruct (mem_lookup _ _ _ Hs _ _ Hl) as (a & -> & _ & ->). cbn [mbind go_bind node_pulse].
    destruct (Z.leb_spec (num p) (num q)).
    + eexists. split; [done|]. by exists addrs.
    + destruct (appendTail_chain s l addrs p q Hs Eq) as (s' & addrs' & -> & Hs'); [lia|].
      exists s'. split; [done|]. by exists addrs'.
  - apply last_None in Eq as ->. destruct (addrs !! 0%nat) as [h|] eqn:Eh.
    { destruct (mem_pulse _ _ _ Hs _ _ Eh) as [? Hn]. by rewrite lookup_nil in Hn. }
    eexists. split; [done|]. eexists. by eapply appendHead_chain.
Qed.

(** ** Shift *)
Lemma list_Shift_drop l pn :
  exists k, (k <= length l)%nat /\ list_Shift l pn = drop k l /\
    (forall p, l !! k = Some p -> pn < num p) /\
    (forall i p, (i < k)%nat -> l !! i = Some p -> num p <= pn).
Proof.
  induction l as [|p l (k & Hk & E & Hlo & Hhi)]; cbn; [by exists 0%nat|].
  destruct (Z.leb_spec (num p) pn).
  - exists (S k). split_and!; [lia|done|done|]. intros [|i] q Hi Hq; [by injection Hq as <-|].
    eapply Hhi; [|done]. lia.
  - exists 0%nat. split_and!; [lia|done| |lia]. by intros q [= <-].
Qed.

(** For an increasing list, [Shift] keeps exactly the later pulses. *)
Lemma list_Shift_later l pn p :
  increasing l -> p ∈ list_Shift l pn <-> p ∈ l /\ pn < num p.
Proof.
  intros Hl. destruct (list_Shift_drop l pn) as (k & _ & -> & Hlo & Hhi). split.
  - intros [i Hi]%list_elem_of_lookup. rewrite lookup_drop in Hi.
    split; [by eapply list_elem_of_lookup_2|].
    destruct (l !! k) as [q|] eqn:Eq.
    + specialize (Hlo q eq_refl). destruct i; [rewrite Nat.add_0_r in Hi; congruence|].
      specialize (Hl k (k + S i)%nat q p ltac:(lia) Eq Hi). lia.
    + apply lookup_lt_Some in Hi. apply lookup_ge_None in Eq. lia.
  - intros [[i Hi]%list_elem_of_lookup Hlt]. destruct (decide (i < k)%nat).
    + specialize (Hhi i p ltac:(done) Hi). lia.
    + apply list_elem_of_lookup. exists (i - k)%nat. rewrite lookup_drop. by rewrite Nat.add_sub_assoc, Nat.add_comm, Nat.add_sub by lia.
Qed.

(** The index [st] holds exactly the pulses from position [k] on. *)
Definition indexed (l : list Pulse) (addrs : list positive) (k : nat) (st : gmap Z positive) : Prop :=
  forall pn a, st !! pn = Some a <->
    exists i p, (k <= i)%nat /\ addrs !! i = Some a /\ l !! i = Some p /\ num p = pn.

Lemma indexed_delete l addrs k st p :
  increasing l -> indexed l addrs k st -> l !! k = Some p ->
  indexed l addrs (S k) (delete (num p) st).
Proof.
  intros Hl Hst Hk pn a. destruct (decide (pn = num p)) as [->|Hne].
  - rewrite lookup_delete_eq. split; [done|]. intros (i & q & Hi & _ & Hq & Hn).
    pose proof (increasing_index l i k q p Hl Hq Hk Hn). lia.
  - rewrite lookup_delete_ne, (Hst pn a) by done.
    split; intros (i & q & Hi & Ha & Hq & Hn); exists i, q.
    + destruct (decide (i = k)) as [->|]; [congruence|]. split_and!; [lia|done..].
    + split_and!; [lia|done..].
Qed.

Lemma Shift_loop_chain s l addrs pn fuel k st :
  mem_chain s l addrs -> indexed l addrs k st -> (length l < fuel + k)%nat -> (k <= length l)%nat ->
  (forall i p, (i < k)%nat -> l !! i = Some p -> num p <= pn) ->
  exists k' st', Shift_loop fuel (heap s) st (addrs !! k) pn = Ret (st', addrs !! k') /\
    indexed l addrs k' st' /\ (k' <= length l)%nat /\
    (forall p, l !! k' = Some p -> pn < num p) /\
    (forall i p, (i < k')%nat -> l !! i = Some p -> num p <= pn).
Proof.
  intros Hs. revert k st. induction fuel as [|fuel IH]; intros k st Hst Hf Hk Hlo; [lia|].
  destruct (l !! k) as [p|] eqn:Ep.
  - destruct (mem_lookup _ _ _ Hs _ _ Ep) as (a & Ha & _ & Hd). rewrite Ha.
    cbn [Shift_loop]. rewrite Hd. cbn [mbind go_bind node_pulse node_next].
    destruct (Z.leb_spec (num p) pn).
    + apply lookup_lt_Some in Ep as Hlt. apply IH; [|lia..|].
      * by apply indexed_delete; [apply Hs|..].
      * intros i q Hi Hq. destruct (decide (i = k)) as [->|]; [congruence|].
        apply (Hlo i); [lia|done].
    + exists k, st. rewrite Ha, Ep. split_and!; [done..| |done]. by intros q [= <-].
  - assert (addrs !! k = None) as Ha.
    { apply lookup_ge_None. rewrite (mc_length _ _ _ Hs). by apply lookup_ge_None. }
    exists k, st. rewrite Ha, Ep. by split_and!.
Qed.

Lemma mem_storage_size s l addrs : mem_chain s l addrs -> size (storage s) = length l.
Proof.
  intros Hs. rewrite <- size_dom. transitivity (size (list_to_set (num <$> l) : gset Z)).
  - f_equal. apply set_eq. intros pn. rewrite elem_of_dom, elem_of_list_to_set. split.
    + intros [a (i & p & _ & Hi & <-)%(mc_storage _ _ _ Hs)].
      apply list_elem_of_fmap. exists p. split; [done|]. by eapply list_elem_of_lookup_2.
    + intros (p & -> & [i Hi]%list_elem_of_lookup)%list_elem_of_fmap.
      destruct (mem_lookup _ _ _ Hs _ _ Hi) as (a & _ & -> & _). done.
  - rewrite size_list_to_set, length_fmap; [done|]. apply NoDup_alt. intros i j pn Hi Hj.
    apply list_lookup_fmap_Some in Hi as (p & -> & Hp), Hj as (q & Heq & Hq).
    by eapply increasing_index; [apply Hs|..].
Qed.

(** Cutting the chain before position [k]. *)
Lemma mem_chain_drop s l addrs k p a st :
  mem_chain s l addrs -> indexed l addrs k st -> l !! k = Some p -> addrs !! k = Some a ->
  mem_chain (mkMem (<[a := mkNode p None (addrs !! S k)]> (heap s)) st (Some a) (mem_tail s))
    (drop k l) (drop k addrs).
Proof.
  intros Hs Hst Hp Ha. apply lookup_lt_Some in Ha as Hlt. split; cbn.
  - apply increasing_drop, Hs.
  - by rewrite !length_drop, (mc_length _ _ _ Hs).
  - eapply sublist_NoDup; [|apply sublist_drop]. apply Hs.
  - by rewrite lookup_drop, Nat.add_0_r.
  - rewrite (mc_tail _ _ _ Hs), !last_lookup, lookup_drop, length_drop. f_equal. lia.
  - intros i b q. rewrite !lookup_drop. intros Hb Hq. destruct i as [|i].
    + rewrite Nat.add_0_r in Hb, Hq. assert (b = a) as -> by congruence.
      rewrite lookup_insert_eq. assert (q = p) as -> by congruence. f_equal. f_equal. f_equal. lia.
    + rewrite lookup_insert_ne.
      2: { intros ->. pose proof (NoDup_lookup _ _ _ _ (mc_NoDup _ _ _ Hs) Hb Ha). lia. }
      pose proof (mc_heap _ _ _ Hs _ _ _ Hb Hq) as Hh. rewrite Hh, lookup_drop.
      replace (k + S i)%nat with (S (k + i)) by lia. do 2 f_equal. f_equal. lia.
  - intros pn b. rewrite (Hst pn b). split.
    + intros (i & q & Hi & Hb & Hq & Hn). exists (i - k)%nat, q. rewrite !lookup_drop.
      replace (k + (i - k))%nat with i by lia. done.
    + intros (i & q & Hb & Hq & Hn). rewrite lookup_drop in Hb. rewrite lookup_drop in Hq. exists (k + i)%nat, q.
      split_and!; [lia|done..].
Qed.

Lemma Mem_Shift_holds s l pn :
  mem_holds s l ->
  (l = [] -> exists e, Mem_Shift s pn = Ret (s, Some e)) /\
  (l <> [] -> exists s', Mem_Shift s pn = Ret (s', None) /\ mem_holds s' (list_Shift l pn)).
Proof.
  intros [addrs Hs]. assert (Hlen := mc_length _ _ _ Hs). split.
  - intros ->. destruct addrs; [|done]. unfold Mem_Shift. rewrite (mc_head _ _ _ Hs). by eexists.
  - intros Hne. assert (length l <> 0%nat) by (by destruct l). unfold Mem_Shift.
    rewrite (mem_storage_size _ _ _ Hs), (mc_head _ _ _ Hs).
    destruct (Shift_loop_chain s l addrs pn (S (length l)) 0 (storage s) Hs)
      as (k & st & -> & Hst & Hk & Hlo & Hhi); [|lia..|].
    { intros q a. rewrite (mc_storage _ _ _ Hs). split; intros (i & p & ?); exists i, p; tauto || (split; [lia|done]). }
    destruct (list_Shift_drop l pn) as (k2 & Hk2 & -> & Hlo2 & Hhi2).
    assert (k2 = k) as ->.
    { destruct (Nat.lt_total k2 k) as [Hlt|[|Hlt]]; [|done|]; exfalso.
      - destruct (lookup_lt_is_Some_2 l k2) as [q Hq]; [lia|]. specialize (Hlo2 _ Hq).
        specialize (Hhi _ _ Hlt Hq). lia.
      - destruct (lookup_lt_is_Some_2 l k) as [q Hq]; [lia|]. specialize (Hlo _ Hq).
        specialize (Hhi2 _ _ Hlt Hq). lia. }
    destruct (addrs !! 0%nat) as [h|] eqn:Eh.
    2: { apply lookup_ge_None in Eh. lia. }
    cbn [mbind go_bind]. destruct (addrs !! k) as [a|] eqn:Ea.
    + destruct (mem_pulse _ _ _ Hs _ _ Ea) as [p Hp].
      destruct (mem_lookup _ _ _ Hs _ _ Hp) as (a' & Ha' & _ & Hd).
      assert (a' = a) as -> by congruence. rewrite Hd. cbn [mbind go_bind node_pulse node_next].
      eexists. split; [done|]. exists (drop k addrs). by apply mem_chain_drop.
    + apply lookup_ge_None in Ea. eexists. split; [done|]. exists [].
      rewrite drop_ge by lia. split; cbn; try done.
      * apply NoDup_nil_2.
      * intros q a. rewrite (Hst q a). split; intros (i & p & Hx); [|by destruct Hx].
        destruct Hx as (Hi & Ha & _). apply lookup_lt_Some in Ha. lia.
Qed.

(** ** The table *)
Record db_holds (db : BadgerDB) (l : list Pulse) : Prop := {
  dh_increasing : increasing l;
  dh_range p : p ∈ l -> 0 <= num p < 2^32;
  dh_table pn p : dbn_Pulse <$> db !! pn = Some p <-> p ∈ l /\ num p = pn;
}.

Lemma increasing_sorted l : increasing l -> StronglySorted Z.le (num <$> l).
Proof.
  induction l as [|p l IH]; intros Hl; cbn; constructor.
  - apply IH. intros i j a b Hij Ha Hb. by apply (Hl (S i) (S j)); [lia|..].
  - apply list.Forall_forall. intros z (q & -> & [j Hj]%list_elem_of_lookup)%list_elem_of_fmap.
    specialize (Hl 0%nat (S j) p q ltac:(lia) eq_refl Hj). lia.
Qed.

Lemma increasing_NoDup l : increasing l -> NoDup (num <$> l).
Proof.
  intros Hl. apply NoDup_alt. intros i j pn Hi Hj.
  apply list_lookup_fmap_Some in Hi as (p & -> & Hp), Hj as (q & Heq & Hq).
  by eapply increasing_index.
Qed.

Lemma db_node db l p : db_holds db l -> p ∈ l -> exists n, db !! num p = Some n /\ dbn_Pulse n = p.
Proof.
  intros Hdb Hp. pose proof (proj2 (dh_table _ _ Hdb (num p) p) (conj Hp eq_refl)) as H.
  destruct (db !! num p) as [n|]; [|done]. exists n. by injection H.
Qed.

Lemma keys_holds db l : db_holds db l -> keys db = num <$> l.
Proof.
  intros Hdb. apply (StronglySorted_unique Z.le).
  - apply StronglySorted_merge_sort; [apply _|]. intros x y. lia.
  - apply increasing_sorted, Hdb.
  - unfold keys. rewrite merge_sort_Permutation. apply NoDup_Permutation.
    + apply NoDup_elements.
    + apply increasing_NoDup, Hdb.
    + intros pn. rewrite elem_of_elements, elem_of_dom, list_elem_of_fmap. split.
      * intros [n Hn]. exists (dbn_Pulse n).
        destruct (proj1 (dh_table _ _ Hdb pn (dbn_Pulse n))); [by rewrite Hn|done].
      * intros (p & -> & Hp). destruct (db_node _ _ _ Hdb Hp) as (n & -> & _). done.
Qed.

Lemma filter_cut {A} (P : A -> Prop) `{!forall x, Decision (P x)} (l : list A) k :
  (forall i x, l !! i = Some x -> P x <-> (i < k)%nat) -> filter P l = take k l.
Proof.
  revert k. induction l as [|x l IH]; intros k Hcut; [by rewrite take_nil|].
  destruct k as [|k].
  - rewrite filter_cons_False; [|intros Hx; apply (Hcut 0%nat x eq_refl) in Hx; lia].
    rewrite (IH 0%nat); [done|]. intros i y Hi. rewrite (Hcut (S i) y Hi). lia.
  - rewrite filter_cons_True by (apply (Hcut 0%nat x eq_refl); lia). cbn. f_equal. apply IH.
    intros i y Hi. rewrite (Hcut (S i) y Hi). lia.
Qed.

Lemma filter_cut_after {A} (P : A -> Prop) `{!forall x, Decision (P x)} (l : list A) k :
  (forall i x, l !! i = Some x -> P x <-> (k <= i)%nat) -> filter P l = drop k l.
Proof.
  revert k. induction l as [|x l IH]; intros k Hcut; [by rewrite drop_nil|].
  destruct k as [|k].
  - rewrite filter_cons_True by (apply (Hcut 0%nat x eq_refl); lia). cbn. f_equal.
    rewrite (IH 0%nat); [done|]. intros i y Hi. rewrite (Hcut (S i) y Hi). lia.
  - rewrite filter_cons_False; [|intros Hx; apply (Hcut 0%nat x eq_refl) in Hx; lia]. cbn. apply IH.
    intros i y Hi. rewrite (Hcut (S i) y Hi). lia.
Qed.

(** Comparing a stored number with that of the pulse at position [i]. *)
Lemma db_order l i p j pn :
  increasing l -> l !! i = Some p -> (num <$> l) !! j = Some pn ->
  (pn <= num p <-> (j < S i)%nat) /\ (num p <= pn <-> (i <= j)%nat).
Proof.
  intros Hl Hi Hj. apply list_lookup_fmap_Some in Hj as (q & -> & Hj).
  destruct (Nat.lt_total i j) as [H|[->|H]].
  - specialize (Hl i j p q H Hi Hj). lia.
  - assert (q = p) as -> by congruence. lia.
  - specialize (Hl j i q p H Hj Hi). lia.
Qed.

Lemma iterator_back db l i p :
  db_holds db l -> l !! i = Some p -> iterator db (num p) true = reverse (num <$> take (S i) l).
Proof.
  intros Hdb Hi. unfold iterator. rewrite (keys_holds _ _ Hdb), fmap_take. f_equal.
  apply filter_cut. intros j pn Hj. by apply (db_order l i p j pn (dh_increasing _ _ Hdb)).
Qed.

Lemma iterator_forth db l i p :
  db_holds db l -> l !! i = Some p -> iterator db (num p) false = num <$> drop i l.
Proof.
  intros Hdb Hi. unfold iterator. rewrite (keys_holds _ _ Hdb), fmap_drop.
  apply filter_cut_after. intros j pn Hj. by apply (db_order l i p j pn (dh_increasing _ _ Hdb)).
Qed.

Lemma db_head_holds db l : db_holds db l -> db_head db = (p ← list_Latest l; mret (num p)).
Proof.
  intros Hdb. unfold db_head, iterator, list_Latest. rewrite (keys_holds _ _ Hdb).
  rewrite (filter_cut _ _ (length l)), <- fmap_take, firstn_all.
  - destruct l as [|q l _] using rev_ind; [done|].
    by rewrite fmap_app, reverse_app, list.last_snoc.
  - intros i pn Hi. apply list_lookup_fmap_Some in Hi as (q & -> & Hi).
    apply lookup_lt_Some in Hi as Hlt. apply list_elem_of_lookup_2, (dh_range _ _ Hdb) in Hi. lia.
Qed.

(** Reading the value under a key the table holds. *)
Lemma db_read db l o :
  db_holds db l -> (forall p, o = Some p -> p ∈ l) ->
  match num <$> o with Some k => node ← db_get db k; mret (dbn_Pulse node) | None => Fail ErrNotFound end =
  found o.
Proof.
  intros Hdb Ho. destruct o as [p|]; [|done]. cbn [fmap option_fmap option_map].
  destruct (db_node _ _ p Hdb (Ho p eq_refl)) as (n & Hn & Hp). unfold db_get. rewrite Hn. cbn.
  by rewrite Hp.
Qed.

Lemma DB_ForPulseNumber_holds db l pn :
  db_holds db l -> DB_ForPulseNumber db pn = list_ForPulseNumber l pn.
Proof.
  intros Hdb. unfold DB_ForPulseNumber, list_ForPulseNumber, db_get.
  destruct (list_find _ l) as [[i p]|] eqn:E.
  - apply list_find_Some in E as (Hi & <- & _). apply list_elem_of_lookup_2 in Hi.
    destruct (db_node _ _ p Hdb Hi) as (n & -> & Hp). cbn. by rewrite Hp.
  - destruct (db !! pn) as [n|] eqn:En; [|done].
    destruct (proj1 (dh_table _ _ Hdb pn (dbn_Pulse n))) as [Hin Hn]; [by rewrite En|].
    apply list_find_None in E. rewrite list.Forall_forall in E. by destruct (E _ Hin).
Qed.

Lemma DB_Latest_holds db l : db_holds db l -> DB_Latest db = list_Latest l.
Proof.
  intros Hdb. unfold DB_Latest. rewrite (db_head_holds _ _ Hdb). unfold list_Latest.
  destruct (last l) as [p|] eqn:E; [|done]. cbn. rewrite last_lookup in E.
  apply list_elem_of_lookup_2 in E. destruct (db_node _ _ p Hdb E) as (n & Hn & Hp).
  unfold db_get. rewrite Hn. cbn. by rewrite Hp.
Qed.

Lemma DB_traverse_holds db l i p k :
  db_holds db l -> l !! i = Some p ->
  DB_Forwards db (num p) (Z.of_nat k) = found (l !! (i + k)%nat) /\
  DB_Backwards db (num p) (Z.of_nat k) = found (if (k <=? i)%nat then l !! (i - k)%nat else None).
Proof.
  intros Hdb Hi. apply lookup_lt_Some in Hi as Hlt.
  unfold DB_Forwards, DB_Backwards, DB_traverse.
  replace (Z.of_nat k <? 0) with false by (symmetry; apply Z.ltb_ge; lia). rewrite Nat2Z.id.
  rewrite (iterator_back _ _ _ _ Hdb Hi), (iterator_forth _ _ _ _ Hdb Hi).
  rewrite list_lookup_fmap, lookup_drop. split.
  - apply (db_read _ _ _ Hdb). intros q Hq. by eapply list_elem_of_lookup_2.
  - assert (reverse (num <$> take (S i) l) !! k =
            num <$> (if (k <=? i)%nat then l !! (i - k)%nat else None)) as ->.
    { assert (Hlen : length (num <$> take (S i) l) = S i) by (rewrite length_fmap, length_take_le by lia; done).
      destruct (Nat.leb_spec k i).
      - rewrite reverse_lookup, Hlen, list_lookup_fmap, lookup_take_lt by lia. f_equal.
      - apply lookup_ge_None. rewrite length_reverse. lia. }
    apply (db_read _ _ _ Hdb). intros q Hq. destruct (_ <=? _)%nat; [|done].
    by eapply list_elem_of_lookup_2.
Qed.

Lemma db_holds_last db l q :
  db_holds db l -> last l = Some q -> exists n, db !! num q = Some n /\ dbn_Pulse n = q.
Proof.
  intros Hdb Hq. apply (db_node _ _ _ Hdb). rewrite last_lookup in Hq.
  by eapply list_elem_of_lookup_2.
Qed.

Lemma db_holds_nil : db_holds ∅ [].
Proof.
  split; [apply increasing_nil|by intros p ?%not_elem_of_nil|].
  intros pn p. rewrite lookup_empty. split; [done|]. by intros [?%not_elem_of_nil _].
Qed.

(** Links do not matter to what the table holds. *)
Lemma db_holds_relink db l pn n n' :
  db_holds db l -> db !! pn = Some n -> dbn_Pulse n' = dbn_Pulse n -> db_holds (<[pn := n']> db) l.
Proof.
  intros Hdb Hn He. split; [apply Hdb..|]. intros m p.
  destruct (decide (m = pn)) as [->|Hne]; [|rewrite lookup_insert_ne by done; apply Hdb].
  rewrite lookup_insert_eq, <- (dh_table _ _ Hdb pn p), Hn. cbn. by rewrite He.
Qed.

Lemma db_holds_insert db l p n :
  db_holds db l -> increasing (l ++ [p]) -> 0 <= num p < 2^32 -> dbn_Pulse n = p ->
  db_holds (<[num p := n]> db) (l ++ [p]).
Proof.
  intros Hdb Hl Hr Hn. split; [done| |].
  - intros q [Hq| ->%list_elem_of_singleton]%elem_of_app; [by apply Hdb|done].
  - intros pn q. rewrite elem_of_app, list_elem_of_singleton.
    destruct (decide (pn = num p)) as [->|Hne].
    + rewrite lookup_insert_eq. cbn. rewrite Hn. split; [intros [= <-]; auto|].
      intros [[Hq| ->] Heq]; [|done]. apply list_elem_of_lookup in Hq as [i Hi].
      assert (i = length l) as ->; [|by apply lookup_lt_Some in Hi; lia].
      eapply (increasing_index (l ++ [p]) _ _ q p); [done|..|done]; apply snoc_lookup; auto.
    + rewrite lookup_insert_ne, (dh_table _ _ Hdb pn q) by done.
      split; [intros [? ?]; auto|]. by intros [[?| ->] ?].
Qed.

Lemma DB_Append_holds db l p :
  db_holds db l -> 0 <= num p < 2^32 ->
  exists db', DB_Append db p = Ret (db', (list_Append l p).2) /\ db_holds db' (list_Append l p).1.
Proof.
  intros Hdb Hr. unfold DB_Append, DB_Append_txn, list_Append.
  rewrite (db_head_holds _ _ Hdb). unfold list_Latest. destruct (last l) as [q|] eqn:Eq.
  - destruct (db_holds_last _ _ _ Hdb Eq) as (n & Hn & Hp). cbn [found mbind result_bind mret result_ret].
    destruct (Z.leb_spec (num p) (num q)); [by exists db|].
    unfold db_get. rewrite Hn, Hp. eexists. split; [done|]. cbn [fst].
    apply (db_holds_relink _ _ _ n); [|by rewrite lookup_insert_ne by lia|by rewrite Hp].
    apply db_holds_insert; [done| |done..]. eapply increasing_snoc; [apply Hdb|done|lia].
  - apply last_None in Eq as ->. cbn. eexists. split; [done|].
    apply (db_holds_insert db [] p); [done| |done..]. apply (increasing_append [] p), increasing_nil.
Qed.

(** [TruncateHead] keeps the earlier pulses. *)
Lemma foldr_delete_lookup (db : BadgerDB) ks pn :
  foldr delete db ks !! pn = if decide (pn ∈ ks) then None else db !! pn.
Proof.
  induction ks as [|k ks IH]; cbn; [done|].
  destruct (decide (pn = k)) as [->|Hne].
  - rewrite lookup_delete_eq. by rewrite decide_True by left.
  - rewrite lookup_delete_ne, IH by done. destruct (decide (pn ∈ ks)).
    + by rewrite decide_True by (by right).
    + by rewrite decide_False by (by intros [?|?]%elem_of_cons).
Qed.

Lemma increasing_below l from : increasing l -> increasing (filter (fun p => num p < from) l).
Proof.
  intros Hl. assert (Hcut : exists k, filter (fun p => num p < from) l = take k l).
  { induction l as [|p l IH]; [by exists 0%nat|]. destruct (decide (num p < from)).
    - destruct IH as [k Hk]; [by apply (increasing_drop (p :: l) 1)|].
      exists (S k). rewrite filter_cons_True by done. cbn. by f_equal.
    - exists 0%nat. apply (filter_cut _ _ 0). intros [|i] q Hq; [injection Hq as <-; lia|].
      specialize (Hl 0%nat (S i) p q ltac:(lia) eq_refl Hq). lia. }
  destruct Hcut as [k ->]. by apply increasing_take.
Qed.

Lemma DB_TruncateHead_holds db l from :
  db_holds db l -> db_holds (DB_TruncateHead db from) (filter (fun p => num p < from) l).
Proof.
  intros Hdb. assert (Hkeys : forall pn, pn ∈ iterator db from false <-> from <= pn /\ is_Some (db !! pn)).
  { intros pn. unfold iterator. rewrite list_elem_of_filter, <- elem_of_dom. unfold keys.
    by rewrite merge_sort_Permutation, elem_of_elements. }
  split.
  - apply increasing_below, Hdb.
  - intros p [_ Hp]%list_elem_of_filter. by apply Hdb.
  - intros pn p. rewrite list_elem_of_filter. unfold DB_TruncateHead. rewrite foldr_delete_lookup.
    destruct (decide (pn ∈ iterator db from false)) as [Hin|Hout].
    + apply Hkeys in Hin as [Hle _]. split; [done|]. intros [[Hlt _] <-]. lia.
    + rewrite (dh_table _ _ Hdb pn p). split; [|tauto]. intros [Hp <-]. split; [|done].
      split; [|done]. destruct (Z.lt_ge_cases (num p) from); [done|]. exfalso. apply Hout, Hkeys.
      split; [done|]. destruct (db_node _ _ _ Hdb Hp) as (n & Hn & _). by eexists.
Qed.

(** ** Both are lawful storages *)
#[export, refine] Instance StorageMem_lawful : LawfulStorage StorageMem := { holds := mem_holds }.
Proof.
  - intros s l [addrs Hs]. apply Hs.
  - intros s l pn [addrs Hs]. by eapply mem_ForPulseNumber.
  - intros s l [addrs Hs]. by eapply mem_Latest.
  - intros s l p Hs _. by apply Mem_Append_holds.
  - intros s l i p k [addrs Hs] Hi. cbn. by rewrite (mem_Forwards s l addrs Hs i p), Nat2Z.id.
  - intros s l i p k [addrs Hs] Hi. cbn. by rewrite (mem_Backwards s l addrs Hs i p), Nat2Z.id.
Defined.

#[export, refine] Instance BadgerDB_lawful : LawfulStorage BadgerDB := { holds := db_holds }.
Proof.
  - intros db l Hdb. apply Hdb.
  - intros db l pn Hdb. cbn. by rewrite (DB_ForPulseNumber_holds db l).
  - intros db l Hdb. cbn. by rewrite (DB_Latest_holds db l).
  - intros db l p Hdb Hr. by apply DB_Append_holds.
  - intros db l i p k Hdb Hi. cbn. by rewrite (proj1 (DB_traverse_holds db l i p k Hdb Hi)).
  - intros db l i p k Hdb Hi. cbn. by rewrite (proj2 (DB_traverse_holds db l i p k Hdb Hi)).
Defined.

(** ** Properties *)

(** The doubly linked list of the memory storage stays a chain of exactly
    the stored pulses in increasing order, and every operation, [Shift]
    included, follows no dangling pointer and answers as that list does:
    appending refuses what is not later than the last pulse, shifting drops
    exactly the pulses up to the given one, stepping forwards and backwards
    moves along the list. *)
Theorem StorageMem_refines s l :
  mem_holds s l ->
  (forall pn, Mem_ForPulseNumber s pn = Ret (list_ForPulseNumber l pn)) /\
  Mem_Latest s = Ret (list_Latest l) /\
  (forall p, exists s', Mem_Append s p = Ret (s', (list_Append l p).2) /\
     mem_holds s' (list_Append l p).1) /\
  (forall pn, l <> [] -> exists s' l', Mem_Shift s pn = Ret (s', None) /\ mem_holds s' l' /\
     forall p, p ∈ l' <-> p ∈ l /\ pn < num p) /\
  (forall i p k, l !! i = Some p ->
     Mem_Forwards s (num p) k = Ret (found (l !! (i + Z.to_nat k)%nat)) /\
     Mem_Backwards s (num p) k =
       Ret (found (if (Z.to_nat k <=? i)%nat then l !! (i - Z.to_nat k)%nat else None))).
Proof.
  intros Hs. pose proof Hs as [addrs Ha]. split_and!.
  - intros pn. by eapply mem_ForPulseNumber.
  - by eapply mem_Latest.
  - intros p. by apply Mem_Append_holds.
  - intros pn Hne. destruct (Mem_Shift_holds s l pn Hs) as [_ Hsh].
    destruct (Hsh Hne) as (s' & E & Hs'). exists s', (list_Shift l pn). split_and!; [done..|].
    intros p. apply list_Shift_later, Ha.
  - intros i p k Hi. split; [by eapply mem_Forwards|by eapply mem_Backwards].
Qed.

(** Appending one pulse after the other, with the answers. *)
Fixpoint append_all `{PulseStorage St} (s : St) (ps : list Pulse) : go (St * list (option error)) :=
  match ps with
  | [] => Ret (s, [])
  | p :: ps' =>
      r ← Append s p;
      rs ← append_all r.1 ps';
      Ret (rs.1, r.2 :: rs.2)
  end.

Fixpoint list_append_all (l ps : list Pulse) : list Pulse * list (option error) :=
  match ps with
  | [] => (l, [])
  | p :: ps' =>
      let r := list_Append l p in
      let rs := list_append_all r.1 ps' in (rs.1, r.2 :: rs.2)
  end.

Lemma append_all_holds `{LawfulStorage St} ps (s : St) l :
  holds s l -> Forall (fun p => 0 <= num p < 2^32) ps ->
  exists s', append_all s ps =
      Ret (s', (list_append_all l ps).2) /\ holds s' (list_append_all l ps).1.
Proof.
  intros Hs Hps. revert s l Hs. induction Hps as [|p ps Hp Hps IH]; intros s l Hs; [by exists s|].
  destruct (Append_law s l p Hs Hp) as (s1 & E1 & Hs1). destruct (IH _ _ Hs1) as (s2 & E2 & Hs2).
  exists s2. cbn [append_all list_append_all]. rewrite E1. cbn [mbind go_bind fst snd].
  by rewrite E2.
Qed.

(** Lawful storages of the same pulses answer alike. *)
Lemma lawful_agree `{LawfulStorage St} `{LawfulStorage St'} (s : St) (t : St') l pn k :
  holds s l -> holds t l ->
  ForPulseNumber s pn = ForPulseNumber t pn /\ Latest s = Latest t /\
  forall p, ForPulseNumber s pn = Ret (Good p) ->
    Forwards s pn (Z.of_nat k) = Forwards t pn (Z.of_nat k) /\
    Backwards s pn (Z.of_nat k) = Backwards t pn (Z.of_nat k).
Proof.
  intros Hs Ht. rewrite !(ForPulseNumber_law _ l), !(Latest_law _ l) by done.
  split; [done|]. split; [done|]. intros p [= Hp]. unfold list_ForPulseNumber in Hp.
  destruct (list_find _ l) as [[i q]|] eqn:E; [|done].
  apply list_find_Some in E as (Hi & <- & _).
  by rewrite !(Forwards_law _ l i q), !(Backwards_law _ l i q) by done.
Qed.

(** Fed the same pulses, the memory storage and the database accept and
    refuse the same ones and answer every query about a pulse they hold
    alike. *)
Theorem memory_and_database_agree ps :
  Forall (fun p => 0 <= num p < 2^32) ps ->
  exists (s : StorageMem) (db : BadgerDB) es,
    append_all NewStorageMem ps = Ret (s, es) /\
    append_all (∅ : BadgerDB) ps = Ret (db, es) /\
    forall pn (k : nat),
      Mem_ForPulseNumber s pn = Ret (DB_ForPulseNumber db pn) /\
      Mem_Latest s = Ret (DB_Latest db) /\
      forall p, DB_ForPulseNumber db pn = Good p ->
        Mem_Forwards s pn (Z.of_nat k) = Ret (DB_Forwards db pn (Z.of_nat k)) /\
        Mem_Backwards s pn (Z.of_nat k) = Ret (DB_Backwards db pn (Z.of_nat k)).
Proof.
  intros Hps.
  destruct (append_all_holds (H0:=StorageMem_lawful) ps NewStorageMem [] mem_holds_nil Hps) as (s & E & Hs).
  destruct (append_all_holds (H0:=BadgerDB_lawful) ps ∅ [] db_holds_nil Hps) as (db & E' & Hdb).
  exists s, db, (list_append_all [] ps).2. split; [done|]. split; [done|]. intros pn k.
  destruct (lawful_agree (H0:=StorageMem_lawful) (H2:=BadgerDB_lawful) s db _ pn k Hs Hdb) as (H1 & H2 & H3). split; [done|]. split; [done|].
  intros p Hp. apply (H3 p). rewrite H1. cbn. by rewrite Hp.
Qed.

(** They differ on a pulse they do not hold: the database then steps from the
    nearest pulse it does hold. *)
Lemma Backwards_of_a_missing_pulse :
  let ps := [mkPulse 70000 0 0 0 0 [] [] ∅; mkPulse 70010 0 0 0 0 [] [] ∅] in
  exists s db es, append_all NewStorageMem ps = Ret (s, es) /\
    append_all (∅ : BadgerDB) ps = Ret (db, es) /\
    Mem_Backwards s 70020 1 = Ret (Fail ErrNotFound) /\
    DB_Backwards db 70020 1 = Good (mkPulse 70000 0 0 0 0 [] [] ∅).
Proof. eexists _, _, _. by vm_compute. Qed.

(** Three pulses, the first two shifted away. *)
Definition samplePulse (n : Z) : Pulse := mkPulse n 0 0 0 0 [] [] ∅.
Lemma sampleMem_holds : exists s, mem_holds s (samplePulse <$> [70000; 70010]).
Proof.
  destruct (append_all_holds (H0:=StorageMem_lawful) (samplePulse <$> [70000; 70010]) NewStorageMem []
    mem_holds_nil) as (s & _ & Hs); [by repeat constructor|]. by exists s.
Defined.
Lemma StorageMem_refines_witness :
  exists s, mem_holds s (samplePulse <$> [70000; 70010]) /\
    Mem_Backwards s 70010 1 = Ret (Good (samplePulse 70000)) /\
    (exists s', Mem_Append s (samplePulse 70005) = Ret (s', Some ErrBadPulse)).
Proof.
  destruct sampleMem_holds as [s Hs]. exists s. split; [done|].
  destruct (StorageMem_refines s _ Hs) as (_ & _ & Happ & _ & Hstep). split.
  - apply (Hstep 1%nat (samplePulse 70010) 1). done.
  - destruct (Happ (samplePulse 70005)) as (s' & E & _). by exists s'.
Defined.
Lemma memory_and_database_agree_witness :
  exists (s : StorageMem) (db : BadgerDB) es,
    append_all NewStorageMem (samplePulse <$> [70000; 70010; 70005]) = Ret (s, es) /\
    append_all (∅ : BadgerDB) (samplePulse <$> [70000; 70010; 70005]) = Ret (db, es) /\
    es = [None; None; Some ErrBadPulse].
Proof.
  destruct (memory_and_database_agree (samplePulse <$> [70000; 70010; 70005]))
    as (s & db & es & E & E' & _); [by repeat constructor|].
  exists s, db, es. split; [done|]. split; [done|].
  vm_compute in E. by injection E as _ <-.
Defined.
