(* ===== verification/Reference.v ===== *)
(** * Record identifiers and references (src/reference)

    A [Local] is a 32-bit word (pulse number and 2 scope bits) and a 28-byte
    hash; a [Global] is a pair of them.  Bytes are [Z] in 0..255, buffers are
    lists.  Text encodings are not modelled here. *)
From S2P Require Import Prelude Pulse.

Definition LocalBinaryHashSize : nat := 28.
Definition LocalBinaryPulseAndScopeSize : nat := 4.
Definition LocalBinarySize : nat := LocalBinaryPulseAndScopeSize + LocalBinaryHashSize.
Definition GlobalBinarySize : nat := 2 * LocalBinarySize.

Definition is_byte (b : Z) : Prop := 0 <= b < 2^8.

(** [copy(dst, src)]: the destination afterwards. *)
Definition copy {A} (dst src : list A) : list A :=
  take (length dst) src ++ drop (length src) dst.

Record Local : Type := mkLocal {
  pulseAndScope : Z;
  hash : list Z;
}.

#[export] Instance Local_eq_dec : EqDecision Local.
Proof. solve_decision. Defined.

#[export] Instance Local_countable : Countable Local.
Proof.
  refine (inj_countable' (fun v => (pulseAndScope v, hash v))
            (fun '(p, h) => mkLocal p h) _). by intros [].
Defined.

Definition emptyLocal : Local := mkLocal 0 (replicate 28 0).

(** The widths of Go's fields. *)
Definition Local_wf (v : Local) : Prop :=
  0 <= pulseAndScope v < 2^32 /\ length (hash v) = LocalBinaryHashSize /\
  Forall is_byte (hash v).

Definition NewLocal (pn scope : Z) (h : list Z) : go Local :=
  if negb (Number_IsSpecialOrTimePulse pn) then Panic "illegal value"
  else w ← Number_WithFlags pn scope; Ret (mkLocal w h).

Definition NewRecordID (pn : Z) (h : list Z) : go Local := NewLocal pn 0 h.

Definition Local_IsEmpty (v : Local) : bool := pulseAndScope v =? 0.
Definition Local_NotEmpty (v : Local) : bool := negb (Local_IsEmpty v).
Definition Local_GetPulseNumber (v : Local) : Z := OfUint32 (pulseAndScope v).
Definition Local_Pulse (v : Local) : Z := Local_GetPulseNumber v.
Definition Local_GetHash (v : Local) : list Z := hash v.
Definition Local_Hash (v : Local) : list Z := hash v.
Definition Local_getScope (v : Local) : Z := u8 (FlagsOf (pulseAndScope v)).
Definition Local_len (v : Local) : nat := LocalBinaryPulseAndScopeSize + length (hash v).

Definition Local_pulseAndScopeAsBytes (v : Local) : list Z := be32 (pulseAndScope v).

Definition Local_AsBytes (v : Local) : list Z := be32 (pulseAndScope v) ++ hash v.

(** [Read] fills the caller's buffer: count written and buffer afterwards. *)
Definition Local_Read (v : Local) (p : list Z) : nat * list Z :=
  if decide (length p < LocalBinaryPulseAndScopeSize)%nat then
    (Nat.min (length p) 4, copy p (Local_pulseAndScopeAsBytes v))
  else
    ((LocalBinaryPulseAndScopeSize + Nat.min (length p - 4) (length (hash v)))%nat,
     be32 (pulseAndScope v) ++ copy (drop 4 p) (hash v)).

(** byteWriter: the local under construction and the offset. *)
Record byteWriter : Type := mkWriter { bw_v : Local; bw_o : Z }.

Definition byteWriter_isFull (p : byteWriter) : bool :=
  Z.of_nat (Local_len (bw_v p)) <=? bw_o p.

Definition byteWriter_WriteByte (p : byteWriter) (c : Z) : result byteWriter :=
  let v := bw_v p in
  if bw_o p <=? 3 then
    let shift := Z.shiftl (3 - bw_o p) 3 in
    let w := Z.lor (u32 (Z.shiftl c shift))
                   (Z.ldiff (pulseAndScope v) (u32 (Z.shiftl 255 shift))) in
    Good (mkWriter (mkLocal w (hash v)) (u8 (bw_o p + 1)))
  else if byteWriter_isFull p then Fail (Errorf "unexpected EOF")
  else
    Good (mkWriter
      (mkLocal (pulseAndScope v) (<[Z.to_nat (bw_o p - 4) := c]> (hash v)))
      (u8 (bw_o p + 1))).

(** The writing loop of [Unmarshal]; write errors are ignored, as in Go. *)
Fixpoint writeAll (w : byteWriter) (data : list Z) : byteWriter :=
  match data with
  | [] => w
  | c :: rest =>
      match byteWriter_WriteByte w c with
      | Good w' => writeAll w' rest
      | Fail _ => writeAll w rest
      end
  end.

Definition Local_Unmarshal (v : Local) (data : list Z) : result Local :=
  if decide (length data < LocalBinarySize)%nat
  then Fail (Errorf "not enough bytes to unmarshal reference.Local")
  else Good (bw_v (writeAll (mkWriter v 0) (take LocalBinarySize data))).

Definition Local_MarshalTo (v : Local) (data : list Z) : result (nat * list Z) :=
  if decide (length data < LocalBinarySize)%nat
  then Fail (Errorf "not enough bytes to marshal reference.Local")
  else Good (Nat.min (length data) (length (Local_AsBytes v)), copy data (Local_AsBytes v)).

Definition Local_Equal (v other : Local) : bool :=
  (pulseAndScope v =? pulseAndScope other) && bool_decide (hash v = hash other).

(** bytes.Compare *)
Fixpoint bytesCompare (a b : list Z) : Z :=
  match a, b with
  | [], [] => 0
  | [], _ => -1
  | _, [] => 1
  | x :: a', y :: b' => if x <? y then -1 else if y <? x then 1 else bytesCompare a' b'
  end.

Definition Local_Compare (v other : Local) : Z :=
  if pulseAndScope v <? pulseAndScope other then -1
  else if pulseAndScope v >? pulseAndScope other then 1
  else bytesCompare (hash v) (hash other).

(** ** scope.go and global.go *)
Definition baseScopeLifeline : Z := 0.
Definition baseScopeLocalDomain : Z := 1.
Definition baseScopeReserved : Z := 2.
Definition baseScopeGlobal : Z := 3.
Definition LocalDomainMember : Z := 4 * baseScopeLocalDomain.
Definition GlobalDomainMember : Z := 4 * baseScopeGlobal + 3.

Record Global : Type := mkGlobal {
  addressLocal : Local;
  addressBase : Local;
}.

#[export] Instance Global_eq_dec : EqDecision Global.
Proof. solve_decision. Defined.

#[export] Instance Global_countable : Countable Global.
Proof.
  refine (inj_countable' (fun v => (addressLocal v, addressBase v))
            (fun '(l, b) => mkGlobal l b) _). by intros [].
Defined.

Definition emptyGlobal : Global := mkGlobal emptyLocal emptyLocal.

Definition NewRecordRef (recID : Local) : go Global :=
  if negb (Local_getScope recID =? 0) then Panic "illegal value"
  else Ret (mkGlobal recID emptyLocal).

Definition NewSelfRef (localID : Local) : go Global :=
  if Local_getScope localID =? baseScopeReserved then Panic "illegal value"
  else Ret (mkGlobal localID localID).

Definition NewGlobal (domainID localID : Local) : Global := mkGlobal localID domainID.

Definition Global_GetScope (v : Global) : Z :=
  Z.lor (u8 (Z.shiftl (Local_getScope (addressBase v)) 2)) (Local_getScope (addressLocal v)).

Definition Global_AsBytes (v : Global) : list Z :=
  Local_AsBytes (addressLocal v) ++ Local_AsBytes (addressBase v).

Definition Global_IsEmpty (v : Global) : bool :=
  Local_IsEmpty (addressLocal v) && Local_IsEmpty (addressBase v).

Definition Global_IsRecordScope (v : Global) : bool :=
  Local_IsEmpty (addressBase v) && negb (Local_IsEmpty (addressLocal v)) &&
  (Local_getScope (addressLocal v) =? baseScopeLifeline).

Definition Global_IsObjectReference (v : Global) : bool :=
  negb (Local_IsEmpty (addressBase v)) && negb (Local_IsEmpty (addressLocal v)) &&
  (Local_getScope (addressLocal v) =? baseScopeLifeline).

Definition Global_IsSelfScope (v : Global) : bool :=
  bool_decide (addressBase v = addressLocal v).
Definition Global_IsLifelineScope (v : Global) : bool :=
  Local_getScope (addressBase v) =? baseScopeLifeline.
Definition Global_IsLocalDomainScope (v : Global) : bool :=
  Local_getScope (addressBase v) =? baseScopeLocalDomain.
Definition Global_IsGlobalScope (v : Global) : bool :=
  Local_getScope (addressBase v) =? baseScopeGlobal.

(** Both "ONLY for parser" mutators: the flag and the value afterwards. *)
Definition Global_tryConvertToSelf (v : Global) : bool * Global :=
  if negb (Local_IsEmpty (addressBase v)) then (false, v)
  else (true, mkGlobal (addressLocal v) (addressLocal v)).

Definition Global_tryApplyBase (v base : Global) : bool * Global :=
  if negb (Local_IsEmpty (addressBase v)) then (false, v)
  else if negb (Global_IsSelfScope base) &&
          negb ((Global_GetScope base =? LocalDomainMember) ||
                (Global_GetScope base =? GlobalDomainMember))
  then (false, v)
  else (true, mkGlobal (addressLocal v) (addressLocal base)).

Definition Global_Equal (v other : Global) : bool :=
  Local_Equal (addressLocal v) (addressLocal other) &&
  Local_Equal (addressBase v) (addressBase other).

Definition Global_Compare (v other : Global) : Z :=
  let cmp := Local_Compare (addressBase v) (addressBase other) in
  if negb (cmp =? 0) then cmp else Local_Compare (addressLocal v) (addressLocal other).

Definition Global_MarshalTo (v : Global) (data : list Z) : result (nat * list Z) :=
  if decide (length data < GlobalBinarySize)%nat
  then Fail (Errorf "not enough bytes to marshal reference.Global")
  else Good (Nat.min (length data) (length (Global_AsBytes v)), copy data (Global_AsBytes v)).

Definition Global_Unmarshal (v : Global) (data : list Z) : result Global :=
  if decide (length data < GlobalBinarySize)%nat
  then Fail (Errorf "not enough bytes to unmarshal reference.Global")
  else
    Good (mkGlobal
      (bw_v (writeAll (mkWriter (addressLocal v) 0) (take LocalBinarySize data)))
      (bw_v (writeAll (mkWriter (addressBase v) 0)
               (take LocalBinarySize (drop LocalBinarySize data))))).


Lemma NewLocal_pulse pn h id : 0 < pn <= MaxTimePulse -> NewLocal pn 0 h = Ret id -> Local_Pulse id = pn.
Proof.
  intros Hp. unfold NewLocal, Number_WithFlags. destruct (negb _); [done|].
  destruct (pn >? MaxTimePulse); [done|]. cbn. rewrite Z.lor_0_r. intros [= <-].
  unfold Local_Pulse, Local_GetPulseNumber, OfUint32. cbn [pulseAndScope].
  change MaxTimePulse with (Z.ones 30) in *. rewrite Z.land_ones by lia.
  apply Z.mod_small. change (Z.ones 30) with 1073741823 in *. lia.
Qed.

(** ** Proofs: the byte writer *)
Lemma byte_bit b j : is_byte b -> j < 0 \/ 8 <= j -> Z.testbit b j = false.
Proof.
  intros Hb [?|?]; [by apply Z.testbit_neg_r|].
  rewrite <- (Z.mod_small b (2^8)) by exact Hb. apply Z.mod_pow2_bits_high; lia.
Qed.

Lemma bit_255 j : Z.testbit 255 j = ((0 <=? j) && (j <? 8)).
Proof.
  change 255 with (Z.ones 8).
  destruct (Z.leb_spec 0 j); [|by apply Z.testbit_neg_r].
  destruct (Z.ltb_spec j 8); [apply Z.ones_spec_low|apply Z.ones_spec_high]; lia.
Qed.

Lemma word_high w i : 0 <= w < 2^32 -> 32 <= i -> Z.testbit w i = false.
Proof.
  intros Hw ?. rewrite <- (Z.mod_small w (2^32)) by done.
  apply Z.mod_pow2_bits_high; lia.
Qed.

Lemma u32_bit z i : Z.testbit (u32 z) i = ((i <? 32) && Z.testbit z i).
Proof. apply Z.testbit_mod_pow2; lia. Qed.

(** The word after byte [c] was written at offset [o <= 3]. *)
Definition put_byte (w o c : Z) : Z :=
  Z.lor (u32 (Z.shiftl c (8 * (3 - o)))) (Z.ldiff w (u32 (Z.shiftl 255 (8 * (3 - o))))).

Lemma writeAll_word_step w h o c rest :
  0 <= o <= 3 ->
  writeAll (mkWriter (mkLocal w h) o) (c :: rest) =
  writeAll (mkWriter (mkLocal (put_byte w o c) h) (o + 1)) rest.
Proof.
  intros Ho. simpl writeAll. unfold byteWriter_WriteByte. cbn [bw_o bw_v pulseAndScope hash].
  destruct (Z.leb_spec o 3); [|lia]. unfold put_byte.
  rewrite u8_small by lia. rewrite (Z.shiftl_mul_pow2 (3 - o)) by lia.
  by rewrite (Z.mul_comm 8 (3 - o)).
Qed.

(** Overwriting the four bytes of a word, most significant first. *)
Lemma writeAll_word w h b0 b1 b2 b3 rest :
  0 <= w < 2^32 -> is_byte b0 -> is_byte b1 -> is_byte b2 -> is_byte b3 ->
  writeAll (mkWriter (mkLocal w h) 0) (b0 :: b1 :: b2 :: b3 :: rest) =
  writeAll (mkWriter (mkLocal (of_be32 [b0; b1; b2; b3]) h) 4) rest.
Proof.
  intros Hw H0 H1 H2 H3. rewrite !writeAll_word_step by lia.
  do 3 f_equal. unfold of_be32, put_byte. cbn [Z.add Z.sub Z.mul Z.opp Pos.add Pos.sub Z.pos_sub
    Pos.mul Pos.succ Pos.pred_double Z.double Z.succ_double Z.pred_double].
  apply Z.bits_inj'; intros i Hi.
  repeat rewrite ?Z.lor_spec, ?Z.ldiff_spec, ?u32_bit, ?Z.shiftl_spec, ?bit_255 by done.
  destruct (Z.ltb_spec i 32); cbn [andb].
  2: { repeat match goal with
       | Hb : is_byte ?b |- context [Z.testbit ?b ?j] => rewrite (byte_bit b j Hb) by lia
       end.
       rewrite ?(word_high w) by lia. done. }
  rewrite ?Z.sub_0_r.
  assert (0 <= i < 8 \/ 8 <= i < 16 \/ 16 <= i < 24 \/ 24 <= i < 32) as Hc by lia.
  destruct Hc as [Hc|[Hc|[Hc|Hc]]].
  all: repeat match goal with
  | |- context [?a <=? ?b] => destruct (Z.leb_spec a b); try lia
  | |- context [?a <? ?b] => destruct (Z.ltb_spec a b); try lia
  end; cbn [andb negb].
  all: repeat match goal with
  | Hb : is_byte ?b |- context [Z.testbit ?b ?j] => rewrite (byte_bit b j Hb) by lia
  end.
  all: rewrite ?orb_false_r, ?orb_false_l, ?andb_false_r, ?andb_true_r, ?orb_false_r; done.
Qed.

Lemma writeAll_hash w bs pre old :
  (length pre + length old = 28)%nat -> (length bs <= length old)%nat ->
  writeAll (mkWriter (mkLocal w (pre ++ old)) (4 + Z.of_nat (length pre))) bs =
  mkWriter (mkLocal w (pre ++ bs ++ drop (length bs) old))
           (4 + Z.of_nat (length pre + length bs)).
Proof.
  revert pre old. induction bs as [|c bs IH]; intros pre old Hlen Hle.
  { simpl. by rewrite Nat.add_0_r. }
  destruct old as [|o old]; simpl in Hle, Hlen; [lia|].
  simpl writeAll. unfold byteWriter_WriteByte, byteWriter_isFull, Local_len.
  cbn [bw_o bw_v pulseAndScope hash]. rewrite !length_app; cbn [length].
  destruct (Z.leb_spec (4 + Z.of_nat (length pre)) 3); [lia|].
  unfold LocalBinaryPulseAndScopeSize.
  destruct (Z.leb_spec (Z.of_nat (4 + (length pre + S (length old)))) (4 + Z.of_nat (length pre)));
    [lia|].
  rewrite u8_small by lia.
  replace (Z.to_nat (4 + Z.of_nat (length pre) - 4)) with (length pre + 0)%nat by lia.
  rewrite insert_app_r. cbn [insert list_insert].
  replace (4 + Z.of_nat (length pre) + 1) with (4 + Z.of_nat (length (pre ++ [c])))
    by (rewrite length_app; simpl; lia).
  replace (pre ++ c :: old) with ((pre ++ [c]) ++ old) by (rewrite <- (assoc_L (++)); done).
  rewrite IH by (rewrite ?length_app; simpl; lia).
  rewrite length_app, <- !(assoc_L (++)). simpl. do 2 f_equal. lia.
Qed.

Lemma be32_bytes n : Forall is_byte (be32 n).
Proof. repeat constructor; apply u8_bound. Qed.

Lemma writeAll_Local w h u rest :
  0 <= w < 2^32 -> length h = 28%nat -> Local_wf u ->
  bw_v (writeAll (mkWriter (mkLocal w h) 0) (take 32 (Local_AsBytes u ++ rest))) = u.
Proof.
  intros Hw Hh (Hp & Hl & _). unfold LocalBinaryHashSize in Hl.
  unfold Local_AsBytes. rewrite <- (assoc_L (++)).
  rewrite (take_app_ge (be32 _)) by (simpl; lia). simpl length.
  rewrite take_app_length' by (simpl; lia). unfold be32 at 1. simpl app.
  rewrite writeAll_word by (try lia; apply u8_bound).
  pose proof (of_be32_be32 (pulseAndScope u) [] Hp) as E. rewrite app_nil_r in E.
  unfold be32 in E. rewrite E.
  pose proof (writeAll_hash (pulseAndScope u) (hash u) [] h) as W.
  simpl in W. change (4 + Z.of_nat 0) with 4 in W. rewrite W by lia.
  simpl. rewrite drop_ge, app_nil_r by lia. by destruct u.
Qed.

Lemma Local_AsBytes_length v : Local_wf v -> length (Local_AsBytes v) = 32%nat.
Proof.
  intros (_ & Hl & _). unfold Local_AsBytes. rewrite length_app, Hl. done.
Qed.

Lemma Global_AsBytes_length v :
  Local_wf (addressLocal v) -> Local_wf (addressBase v) ->
  length (Global_AsBytes v) = 64%nat.
Proof.
  intros. unfold Global_AsBytes. by rewrite length_app, !Local_AsBytes_length.
Qed.

Lemma copy_ge {A} (dst src : list A) :
  (length src <= length dst)%nat -> copy dst src = src ++ drop (length src) dst.
Proof. intros. unfold copy. by rewrite take_ge. Qed.

Lemma Local_Unmarshal_AsBytes v u rest :
  Local_wf v -> Local_wf u -> Local_Unmarshal v (Local_AsBytes u ++ rest) = Good u.
Proof.
  intros (Hv & Hl & _) Hu. unfold Local_Unmarshal.
  destruct decide as [Hlt|_].
  { rewrite length_app, Local_AsBytes_length in Hlt by done.
    change LocalBinarySize with 32%nat in Hlt. lia. }
  f_equal. destruct v as [w h]. by apply writeAll_Local.
Qed.

(** Marshalling a [Local] into a large enough buffer writes exactly 32
    bytes, leaves the rest of the buffer alone, and unmarshalling the buffer
    over any value gives the original back; a shorter buffer is refused by
    both directions and nothing else is. *)
Theorem Local_binary_roundtrip u v buf :
  Local_wf u -> Local_wf v ->
  ((length buf < 32)%nat ->
   is_good (Local_MarshalTo u buf) = false /\ is_good (Local_Unmarshal v buf) = false) /\
  ((32 <= length buf)%nat ->
   exists buf', Local_MarshalTo u buf = Good (32%nat, buf') /\
     length buf' = length buf /\ drop 32 buf' = drop 32 buf /\
     Local_Unmarshal v buf' = Good u).
Proof.
  intros Hu Hv. unfold Local_MarshalTo. change LocalBinarySize with 32%nat. split; intros Hb.
  { unfold Local_Unmarshal. change LocalBinarySize with 32%nat. by rewrite !decide_True by done. }
  pose proof (Local_AsBytes_length u Hu) as Hlen.
  exists (Local_AsBytes u ++ drop 32 buf). rewrite decide_False by lia.
  rewrite copy_ge, Hlen by lia. rewrite Nat.min_r by lia. split_and!; [done| | |].
  - rewrite length_app, length_drop, Hlen. lia.
  - by rewrite drop_app_length' by done.
  - by apply Local_Unmarshal_AsBytes.
Qed.

Definition sampleLocal : Local := mkLocal 1220518656 (replicate 28 171).
Lemma sampleLocal_wf : Local_wf sampleLocal.
Proof.
  split; [|split]; [simpl; lia|done|]. repeat constructor; simpl; lia.
Qed.
Lemma emptyLocal_wf : Local_wf emptyLocal.
Proof. split; [|split]; [simpl; lia|done|]. repeat constructor; simpl; lia. Qed.

Lemma Local_binary_roundtrip_witness :
  exists buf', Local_MarshalTo sampleLocal (replicate 40 7) = Good (32%nat, buf') /\
    length buf' = 40%nat /\ drop 32 buf' = replicate 8 7 /\
    Local_Unmarshal emptyLocal buf' = Good sampleLocal.
Proof.
  destruct (Local_binary_roundtrip sampleLocal emptyLocal (replicate 40 7)
              sampleLocal_wf emptyLocal_wf) as [_ H].
  apply H. vm_compute. lia.
Defined.

Definition Global_wf (v : Global) : Prop := Local_wf (addressLocal v) /\ Local_wf (addressBase v).

Lemma Global_Unmarshal_AsBytes u v rest :
  Global_wf u -> Global_wf v -> Global_Unmarshal v (Global_AsBytes u ++ rest) = Good u.
Proof.
  intros [Hul Hub] [Hvl Hvb]. pose proof (Global_AsBytes_length u Hul Hub) as Hlen.
  unfold Global_Unmarshal. change GlobalBinarySize with 64%nat. rewrite length_app, Hlen, decide_False by lia.
  unfold Global_AsBytes. rewrite <- (assoc_L (++)). change LocalBinarySize with 32%nat.
  rewrite drop_app_length' by (by rewrite Local_AsBytes_length).
  destruct v as [[wl hl] [wb hb]], u as [ul ub].
  cbn [addressLocal addressBase] in *.
  f_equal. f_equal.
  - by apply writeAll_Local; [apply Hvl|apply Hvl|].
  - by apply writeAll_Local; [apply Hvb|apply Hvb|].
Qed.

(** The same round trip for a full reference: 64 bytes, local part first. *)
Theorem Global_binary_roundtrip u v buf :
  Global_wf u -> Global_wf v -> (64 <= length buf)%nat ->
  exists buf', Global_MarshalTo u buf = Good (64%nat, buf') /\
    length buf' = length buf /\ drop 64 buf' = drop 64 buf /\
    Global_Unmarshal v buf' = Good u /\
    Local_Unmarshal (addressLocal v) buf' = Good (addressLocal u).
Proof.
  intros [Hul Hub] [Hvl Hvb] Hb. unfold Global_MarshalTo. change GlobalBinarySize with 64%nat.
  pose proof (Global_AsBytes_length u Hul Hub) as Hlen.
  exists (Global_AsBytes u ++ drop 64 buf). rewrite decide_False by lia.
  rewrite copy_ge, Hlen by lia. rewrite Nat.min_r by lia.
  assert (Hlen' : length (Global_AsBytes u ++ drop 64 buf) = length buf)
    by (rewrite length_app, length_drop, Hlen; lia).
  split_and!; [done|done|by rewrite drop_app_length' by done|by apply Global_Unmarshal_AsBytes|].
  - unfold Global_AsBytes. rewrite <- (assoc_L (++)). by apply Local_Unmarshal_AsBytes.
Qed.

Lemma Global_binary_roundtrip_witness :
  exists buf', Global_MarshalTo (mkGlobal sampleLocal emptyLocal) (replicate 70 9) =
                 Good (64%nat, buf') /\
    length buf' = 70%nat /\ drop 64 buf' = replicate 6 9 /\
    Global_Unmarshal emptyGlobal buf' = Good (mkGlobal sampleLocal emptyLocal) /\
    Local_Unmarshal emptyLocal buf' = Good sampleLocal.
Proof.
  exact (Global_binary_roundtrip (mkGlobal sampleLocal emptyLocal) emptyGlobal (replicate 70 9)
    (conj sampleLocal_wf emptyLocal_wf) (conj emptyLocal_wf emptyLocal_wf)
    ltac:(vm_compute; lia)).
Defined.

(** ** Comparison *)
Lemma bytesCompare_app a b x y :
  length a = length b ->
  bytesCompare (a ++ x) (b ++ y) =
  if bytesCompare a b =? 0 then bytesCompare x y else bytesCompare a b.
Proof.
  revert b. induction a as [|p a IH]; intros [|q b] Hl; simpl in *; try done.
  destruct (p <? q); [done|]. destruct (q <? p); [done|]. apply IH. lia.
Qed.

Lemma bytesCompare_eq a b : bytesCompare a b = 0 <-> a = b.
Proof.
  revert b. induction a as [|p a IH]; intros [|q b]; simpl; try done.
  destruct (Z.ltb_spec p q); [split; [lia|intros [= ]; lia]|].
  destruct (Z.ltb_spec q p); [split; [lia|intros [= ]; lia]|].
  rewrite IH. assert (p = q) as -> by lia. split; [by intros ->|by intros [= ->]].
Qed.

Lemma bytesCompare_antisym a b : bytesCompare b a = - bytesCompare a b.
Proof.
  revert b. induction a as [|p a IH]; intros [|q b]; simpl; try done.
  destruct (Z.ltb_spec p q), (Z.ltb_spec q p); try done.
  lia.
Qed.

Lemma bytesCompare_trans a b c :
  bytesCompare a b <= 0 -> bytesCompare b c <= 0 -> bytesCompare a c <= 0.
Proof.
  revert b c. induction a as [|x a IH]; intros [|y b] [|z c]; simpl; try lia.
  destruct (Z.ltb_spec x y), (Z.ltb_spec y x), (Z.ltb_spec y z), (Z.ltb_spec z y),
    (Z.ltb_spec x z), (Z.ltb_spec z x); try lia. apply IH.
Qed.

Lemma bytesCompare_be32 p q :
  0 <= p < 2^32 -> 0 <= q < 2^32 ->
  bytesCompare (be32 p) (be32 q) = if p <? q then -1 else if q <? p then 1 else 0.
Proof.
  intros Hp Hq. pose proof (be32_arith p) as Ep. pose proof (be32_arith q) as Eq.
  rewrite Z.mod_small in Ep, Eq by done. unfold be32. rewrite !Z.shiftr_div_pow2 by lia.
  pose proof (u8_bound p). pose proof (u8_bound (p / 2^8)).
  pose proof (u8_bound (p / 2^16)). pose proof (u8_bound (p / 2^24)).
  pose proof (u8_bound q). pose proof (u8_bound (q / 2^8)).
  pose proof (u8_bound (q / 2^16)). pose proof (u8_bound (q / 2^24)).
  simpl bytesCompare.
  repeat match goal with
  | |- context [?a <? ?b] => destruct (Z.ltb_spec a b)
  end; try done; exfalso; lia.
Qed.

(** Comparing identifiers numerically and then by hash is comparing their
    binary images byte by byte: the in-memory order is the storage order. *)
Theorem Local_Compare_AsBytes u v :
  Local_wf u -> Local_wf v ->
  Local_Compare u v = bytesCompare (Local_AsBytes u) (Local_AsBytes v).
Proof.
  intros (Hp & _) (Hq & _). unfold Local_Compare, Local_AsBytes.
  rewrite bytesCompare_app, bytesCompare_be32 by done. rewrite Z.gtb_ltb.
  destruct (_ <? _); [done|]. by destruct (_ <? _).
Qed.

Lemma Local_Compare_AsBytes_witness :
  Local_Compare sampleLocal emptyLocal =
  bytesCompare (Local_AsBytes sampleLocal) (Local_AsBytes emptyLocal) /\
  Local_Compare sampleLocal emptyLocal = 1.
Proof.
  split; [|by vm_compute].
  apply (Local_Compare_AsBytes _ _ sampleLocal_wf emptyLocal_wf).
Defined.

Lemma Local_Compare_eq u v : Local_Compare u v = 0 <-> u = v.
Proof.
  unfold Local_Compare. rewrite Z.gtb_ltb. destruct u as [p h], v as [q k]; simpl.
  destruct (Z.ltb_spec p q); [split; [lia|intros [= ]; lia]|].
  destruct (Z.ltb_spec q p); [split; [lia|intros [= ]; lia]|].
  rewrite bytesCompare_eq. assert (p = q) as -> by lia. split; [by intros ->|by intros [= ->]].
Qed.

Lemma Local_Compare_antisym u v : Local_Compare v u = - Local_Compare u v.
Proof.
  unfold Local_Compare. rewrite !Z.gtb_ltb, (bytesCompare_antisym (hash u)).
  destruct (Z.ltb_spec (pulseAndScope u) (pulseAndScope v)),
    (Z.ltb_spec (pulseAndScope v) (pulseAndScope u)); lia.
Qed.

Lemma Local_Equal_true (a b : Local) : Local_Equal a b = true <-> a = b.
Proof.
  destruct a as [p h], b as [q k]. unfold Local_Equal. simpl.
  rewrite andb_true_iff, Z.eqb_eq, bool_decide_eq_true.
  split; [by intros [-> ->]|by intros [= -> ->]].
Qed.

(** [Compare] of references is a total comparison that agrees with
    [Equal]: zero exactly on equal references, antisymmetric. *)
Theorem Global_Compare_Equal u v :
  (Global_Compare u v = 0 <-> Global_Equal u v = true) /\
  (Global_Equal u v = true <-> u = v) /\
  Global_Compare v u = - Global_Compare u v.
Proof.
  assert (Hg : Global_Equal u v = true <-> u = v).
  { unfold Global_Equal. rewrite andb_true_iff, !Local_Equal_true. destruct u, v; simpl.
    split; [by intros [-> ->]|by intros [= -> ->]]. }
  split; [|split; [done|]].
  - rewrite Hg. unfold Global_Compare.
    destruct (Z.eqb_spec (Local_Compare (addressBase u) (addressBase v)) 0) as [E|E]; simpl.
    + apply Local_Compare_eq in E. rewrite Local_Compare_eq. destruct u, v; simpl in *; subst.
      split; [by intros ->|by intros [= ->]].
    + split; [done|]. intros ->. destruct E. by apply Local_Compare_eq.
  - unfold Global_Compare.
    rewrite (Local_Compare_antisym (addressBase u)), (Local_Compare_antisym (addressLocal u)).
    destruct (Z.eqb_spec (Local_Compare (addressBase u) (addressBase v)) 0) as [->|E]; [done|].
    destruct (Z.eqb_spec (- Local_Compare (addressBase u) (addressBase v)) 0); simpl; lia.
Qed.
