(* ===== verification/Jet.v ===== *)
(** * Jets (src/insolar/jet.go, src/insolar/bits, src/insolar/jet)

    Jet identifiers (a depth and a bit prefix packed in a record id), the
    binary tree of jets with its pointer-mutating operations, and the store
    of one tree per pulse.  A pointer to a node of a tree is its path from
    the head; [nil] is [JetNil]. *)
From Stdlib Require Import Ascii.
From S2P Require Import Prelude Pulse Reference.

(** ** bits.go *)
Definition ResetBits (value : list Z) (start : Z) : list Z :=
  if Z.of_nat (length value) * 8 <=? start then value
  else
    let startByte := Z.to_nat (start / 8) in
    let startBit := start mod 8 in
    let result := copy (replicate (length value) 0) (take startByte value) in
    let mask := u8 (Z.shiftl 255 (8 - startBit)) in
    <[startByte := Z.land (nth startByte value 0) mask]> result.

(** ** Jet identifiers *)
Definition pulse_Jet : Z := 257.
Definition JetPrefixSize : nat := 27.

Definition NewID (p : Z) (h : list Z) : go Local :=
  NewLocal p 0 (copy (replicate 28 0) h).

Definition NewJetID (depth : Z) (prefix : list Z) : go Local :=
  NewID pulse_Jet (depth :: copy (replicate JetPrefixSize 0) (ResetBits prefix depth)).

Definition IsValid (id : Local) : bool := Local_Pulse id =? pulse_Jet.

Definition Depth (id : Local) : go Z :=
  if IsValid id then Ret (nth 0 (Local_GetHash id) 0) else Panic "provided id is not a jet id".

Definition Prefix (id : Local) : go (list Z) :=
  if IsValid id then Ret (drop 1 (Local_Hash id)) else Panic "provided id is not a jet id".

(** ** getBit and setBit *)
Definition bit_mask (index : Z) : Z := Z.shiftl 1 (7 - index mod 8).

Definition getBit (value : list Z) (index : Z) : go bool :=
  if Z.of_nat (length value) * 8 <=? index then Panic "index overflow"
  else
    let byteIndex := Z.to_nat (index / 8) in
    Ret (negb (Z.land (nth byteIndex value 0) (bit_mask index) =? 0)).

Definition setBit (value : list Z) (index : Z) : go (list Z) :=
  if Z.of_nat (length value) * 8 <=? index then Panic "index overflow"
  else
    let byteIndex := Z.to_nat (index / 8) in
    Ret (<[byteIndex := Z.lor (nth byteIndex value 0) (bit_mask index)]> value).

(** ** jet.go *)
Definition Parent (id : Local) : go Local :=
  depth ← Depth id;
  prefix ← Prefix id;
  if depth =? 0 then Ret id
  else NewJetID (depth - 1) (ResetBits prefix (depth - 1)).

Definition Siblings (id : Local) : go (Local * Local) :=
  depth ← Depth id;
  prefix ← Prefix id;
  left ← NewJetID (u8 (depth + 1)) (ResetBits prefix depth);
  rightPrefix ← setBit (ResetBits prefix depth) depth;
  right ← NewJetID (u8 (depth + 1)) rightPrefix;
  Ret (left, right).

(** [strconv.ParseUint(s, 2, 8)] of an eight-character string *)
Fixpoint ParseUint2 (acc : Z) (s : string) : go Z :=
  match s with
  | EmptyString => Ret acc
  | String c s' =>
      if Ascii.eqb c "0"%char then ParseUint2 (2 * acc) s'
      else if Ascii.eqb c "1"%char then ParseUint2 (2 * acc + 1) s'
      else Panic "invalid syntax"
  end.

(** One byte per eight characters, the last chunk padded with zeros. *)
Fixpoint parsePrefix (s : string) : go (list Z) :=
  match s with
  | EmptyString => Ret []
  | String a (String b (String c (String d (String e (String f (String g (String h tail))))))) =>
      parsed ← ParseUint2 0 (String a (String b (String c (String d
                  (String e (String f (String g (String h EmptyString))))))));
      rest ← parsePrefix tail;
      Ret (parsed :: rest)
  | _ =>
      parsed ← ParseUint2 0 (String.append s (String.substring 0 (8 - String.length s) "00000000"));
      Ret [parsed]
  end.

Definition NewIDFromString (s : string) : go Local :=
  prefix ← parsePrefix s;
  NewJetID (u8 (Z.of_nat (String.length s))) prefix.

(** ** tree.go *)
Inductive Jet : Type :=
  | JetNil
  | JetNode (Actual : bool) (Left Right : Jet).

#[export] Instance Jet_eq_dec : EqDecision Jet.
Proof. solve_decision. Defined.

Definition isNil (j : Jet) : bool := match j with JetNil => true | _ => false end.

(** Dereference and assignment through a node pointer. *)
Fixpoint node_at (j : Jet) (p : list bool) : option Jet :=
  match p, j with
  | _, JetNil => None
  | [], _ => Some j
  | b :: p', JetNode _ l r => node_at (if b then r else l) p'
  end.

Fixpoint update_at (j : Jet) (p : list bool) (f : Jet -> Jet) : Jet :=
  match p, j with
  | _, JetNil => JetNil
  | [], _ => f j
  | b :: p', JetNode a l r =>
      if b then JetNode a l (update_at r p' f) else JetNode a (update_at l p' f) r
  end.

(** [Find]: the node pointer and its depth; [None] is the nil pointer. *)
Fixpoint Jet_Find (j : Jet) (val : list Z) (depth : Z) : go (option (list bool) * Z) :=
  match j with
  | JetNil => Ret (None, 0)
  | JetNode _ l r =>
      b ← getBit val depth;
      let child := if b : bool then r else l in
      if isNil child then Ret (Some [], depth)
      else
        res ← (if b then Jet_Find r val (u8 (depth + 1)) else Jet_Find l val (u8 (depth + 1)));
        Ret (option_map (cons b) res.1, res.2)
  end.

Definition emptyJet : Jet := JetNode false JetNil JetNil.
Definition or_new (j : Jet) : Jet := if isNil j then emptyJet else j.

Fixpoint Jet_Update (fuel : nat) (j : Jet) (prefix : list Z) (setActual : bool)
    (maxDepth depth : Z) : go Jet :=
  match fuel, j with
  | _, JetNil => Panic "nil pointer"
  | O, _ => Panic "out of fuel"
  | S fuel', JetNode a l r =>
      if depth =? maxDepth then Ret (JetNode (if setActual then true else a) l r)
      else
        let r := or_new r in
        let l := or_new l in
        b ← getBit prefix depth;
        if b : bool then
          r' ← Jet_Update fuel' r prefix setActual maxDepth (u8 (depth + 1));
          Ret (JetNode a l r')
        else
          l' ← Jet_Update fuel' l prefix setActual maxDepth (u8 (depth + 1));
          Ret (JetNode a l' r)
  end.

Fixpoint Jet_Clone (j : Jet) (keep : bool) : Jet :=
  match j with
  | JetNil => JetNil
  | JetNode a l r => JetNode (keep && a) (Jet_Clone l keep) (Jet_Clone r keep)
  end.

Fixpoint Jet_ExtractLeafIDs (j : Jet) (ids : list Local) (path : list Z) (depth : Z)
    : go (list Local) :=
  match j with
  | JetNil => Ret ids
  | JetNode a l r =>
      if isNil l && isNil r && a then
        id ← NewJetID depth path;
        Ret (ids ++ [id])
      else
        ids1 ← (if isNil l then Ret ids else Jet_ExtractLeafIDs l ids path (u8 (depth + 1)));
        if isNil r then Ret ids1
        else
          rightPath ← setBit path depth;
          Jet_ExtractLeafIDs r ids1 rightPath (u8 (depth + 1))
  end.

(** A [Tree] is its head. *)
Definition Tree : Type := Jet.
Definition NewTree (isActual : bool) : Tree := JetNode isActual JetNil JetNil.
Definition Tree_Clone (t : Tree) (keep : bool) : Tree := Jet_Clone t keep.

Definition Actual_of (j : option Jet) : go bool :=
  match j with Some (JetNode a _ _) => Ret a | _ => Panic "nil pointer" end.

Definition Tree_Find (t : Tree) (recordID : Local) : go (Local * bool) :=
  if Local_Pulse recordID =? pulse_Jet then Ret (recordID, true)
  else
    let h := Local_Hash recordID in
    res ← Jet_Find t h 0;
    id ← NewJetID res.2 (ResetBits h res.2);
    a ← Actual_of (res.1 ≫= node_at t);
    Ret (id, a).

Definition updateFuel : nat := 257.

Definition Tree_Update (t : Tree) (id : Local) (setActual : bool) : go Tree :=
  prefix ← Prefix id;
  depth ← Depth id;
  Jet_Update updateFuel t prefix setActual depth 0.

Definition ZeroJetID : Local := mkLocal pulse_Jet (replicate 28 0).

Definition grow (j : Jet) : Jet :=
  match j with
  | JetNil => JetNil
  | JetNode a _ _ => JetNode a (NewTree true) (NewTree true)
  end.

(** The error leaves the tree alone; [Siblings] runs before the two
    assignments, as in the code. *)
Definition Tree_Split (t : Tree) (id : Local) : go (Tree * result (Local * Local)) :=
  depth ← Depth id;
  prefix ← Prefix id;
  res ← Jet_Find t prefix 0;
  if negb (depth =? res.2)
  then Ret (t, Fail (Errorf "failed to split: incorrect jet provided"))
  else
    lr ← Siblings id;
    match res.1 with
    | None => Panic "nil pointer"
    | Some p => Ret (update_at t p grow, Good lr)
    end.

Definition Tree_LeafIDs (t : Tree) : go (list Local) :=
  Jet_ExtractLeafIDs t [] (replicate 28 0) 0.

(** ** store.go *)
Record Store : Type := mkStore { trees : gmap Z Tree }.
Definition NewStore : Store := mkStore ∅.
Definition GenesisPulseNumber : Z := MinTimePulse.

Definition ltreeForPulse (s : Store) (pulse : Z) : Tree * Store :=
  match trees s !! pulse with
  | Some t => (t, s)
  | None =>
      let t := NewTree (pulse =? GenesisPulseNumber) in
      (t, mkStore (<[pulse := t]> (trees s)))
  end.

Definition Store_All (s : Store) (pulse : Z) : go (list Local * Store) :=
  let '(t, s) := ltreeForPulse s pulse in
  ids ← Tree_LeafIDs t; Ret (ids, s).

Definition Store_ForID (s : Store) (pulse : Z) (recordID : Local) : go ((Local * bool) * Store) :=
  let '(t, s) := ltreeForPulse s pulse in
  r ← Tree_Find t recordID; Ret (r, s).

Fixpoint update_all (t : Tree) (setActual : bool) (ids : list Local) : go Tree :=
  match ids with
  | [] => Ret t
  | id :: ids' => t' ← Tree_Update t id setActual; update_all t' setActual ids'
  end.

Definition Store_Update (s : Store) (pulse : Z) (setActual : bool) (ids : list Local) : go Store :=
  let '(t, s) := ltreeForPulse s pulse in
  t' ← update_all t setActual ids;
  Ret (mkStore (<[pulse := t']> (trees s))).

Definition Store_Split (s : Store) (pulse : Z) (id : Local)
    : go (Store * result (Local * Local)) :=
  let '(t, s) := ltreeForPulse s pulse in
  r ← Tree_Split t id;
  Ret (mkStore (<[pulse := r.1]> (trees s)), r.2).

Definition Store_Clone (s : Store) (from to : Z) (keepActual : bool) : Store :=
  let '(t, s) := ltreeForPulse s from in
  mkStore (<[to := Tree_Clone t keepActual]> (trees s)).

Definition Store_DeleteForPN (s : Store) (pulse : Z) : Store :=
  mkStore (delete pulse (trees s)).

(** ** Bits of a byte string, most significant first *)
Definition bit_at (v : list Z) (i : Z) : bool :=
  Z.testbit (nth (Z.to_nat (i / 8)) v 0) (7 - i mod 8).

(** The first [n] bits. *)
Definition bits (v : list Z) (n : nat) : list bool := (fun i => bit_at v (Z.of_nat i)) <$> seq 0 n.

Definition byte_of (b0 b1 b2 b3 b4 b5 b6 b7 : bool) : Z :=
  128 * Z.b2z b0 + 64 * Z.b2z b1 + 32 * Z.b2z b2 + 16 * Z.b2z b3 +
  8 * Z.b2z b4 + 4 * Z.b2z b5 + 2 * Z.b2z b6 + Z.b2z b7.

(** [n] bytes of a path, padded with zeros. *)
Fixpoint bytes_of (n : nat) (p : list bool) : list Z :=
  match n with
  | O => []
  | S n' =>
      let b k := nth k p false in
      byte_of (b 0%nat) (b 1%nat) (b 2%nat) (b 3%nat) (b 4%nat) (b 5%nat) (b 6%nat) (b 7%nat)
        :: bytes_of n' (drop 8 p)
  end.

(** The identifier of the jet at a path. *)
Definition jet_id (p : list bool) : Local :=
  mkLocal pulse_Jet (Z.of_nat (length p) :: bytes_of JetPrefixSize p).

Lemma bit_at_cons c v i :
  0 <= i -> bit_at (c :: v) i = if i <? 8 then Z.testbit c (7 - i) else bit_at v (i - 8).
Proof.
  intros Hi. unfold bit_at. destruct (Z.ltb_spec i 8).
  - rewrite Z.div_small, Z.mod_small by lia. done.
  - replace (Z.to_nat (i / 8)) with (S (Z.to_nat ((i - 8) / 8))).
    + simpl. do 2 f_equal. replace i with (i - 8 + 1 * 8) at 1 by lia. by rewrite Z.mod_add by lia.
    + replace i with (i - 8 + 1 * 8) at 2 by lia. rewrite Z.div_add by lia.
      assert (0 <= (i - 8) / 8) by (apply Z.div_pos; lia). lia.
Qed.

Lemma byte_of_bit b0 b1 b2 b3 b4 b5 b6 b7 i :
  0 <= i < 8 ->
  Z.testbit (byte_of b0 b1 b2 b3 b4 b5 b6 b7) (7 - i) =
  nth (Z.to_nat i) [b0; b1; b2; b3; b4; b5; b6; b7] false.
Proof.
  intros Hi. assert (i = 0 \/ i = 1 \/ i = 2 \/ i = 3 \/ i = 4 \/ i = 5 \/ i = 6 \/ i = 7)
    as Hc by lia.
  destruct Hc as [->|[->|[->|[->|[->|[->|[->| ->]]]]]]].
  all: destruct b0, b1, b2, b3, b4, b5, b6, b7; reflexivity.
Qed.

Lemma bytes_of_bit n p i :
  0 <= i < 8 * Z.of_nat n -> bit_at (bytes_of n p) i = nth (Z.to_nat i) p false.
Proof.
  revert p i. induction n as [|n IH]; intros p i Hi; [lia|].
  simpl bytes_of. rewrite bit_at_cons by lia. destruct (Z.ltb_spec i 8).
  - rewrite byte_of_bit by lia.
    assert (i = 0 \/ i = 1 \/ i = 2 \/ i = 3 \/ i = 4 \/ i = 5 \/ i = 6 \/ i = 7) as Hc by lia.
    by destruct Hc as [->|[->|[->|[->|[->|[->|[->| ->]]]]]]].
  - rewrite IH by lia.
    rewrite !nth_lookup, lookup_drop. do 2 f_equal. lia.
Qed.

Lemma bytes_of_length n p : length (bytes_of n p) = n.
Proof. revert p. induction n; simpl; auto. Qed.

Lemma bytes_of_bytes n p : Forall is_byte (bytes_of n p).
Proof.
  revert p. induction n; intros p; simpl; constructor; auto.
  unfold is_byte, byte_of. repeat match goal with |- context [Z.b2z ?b] =>
    let H := fresh in assert (0 <= Z.b2z b <= 1) as H by (destruct b; simpl; lia);
    generalize dependent (Z.b2z b); intros end. lia.
Qed.

Lemma byte_ext b c :
  is_byte b -> is_byte c -> (forall i, 0 <= i < 8 -> Z.testbit b (7 - i) = Z.testbit c (7 - i)) ->
  b = c.
Proof.
  intros Hb Hc H. apply Z.bits_inj'. intros j Hj.
  destruct (Z.lt_ge_cases j 8).
  - replace j with (7 - (7 - j)) by lia. apply H. lia.
  - rewrite !byte_bit by (done || lia). done.
Qed.

(** Byte strings are their bits. *)
Lemma bit_at_ext v w :
  length v = length w -> Forall is_byte v -> Forall is_byte w ->
  (forall i, 0 <= i < 8 * Z.of_nat (length v) -> bit_at v i = bit_at w i) -> v = w.
Proof.
  revert w. induction v as [|b v IH]; intros [|c w] Hl Hv Hw H; simpl in *; try lia; [done|].
  apply Forall_cons_1 in Hv as [Hb Hv]. apply Forall_cons_1 in Hw as [Hc Hw]. f_equal.
  - apply byte_ext; [done..|]. intros i Hi. specialize (H i). rewrite !bit_at_cons in H by lia.
    destruct (Z.ltb_spec i 8); [|lia]. apply H. lia.
  - apply IH; [lia|done..|]. intros i Hi. specialize (H (i + 8)).
    rewrite !bit_at_cons in H by lia. destruct (Z.ltb_spec (i + 8) 8); [lia|].
    rewrite !Z.add_simpl_r in H. apply H. lia.
Qed.

Lemma bits_length v n : length (bits v n) = n.
Proof. unfold bits. by rewrite length_fmap, length_seq. Qed.

Lemma bits_nth v n i :
  0 <= i -> nth (Z.to_nat i) (bits v n) false = (i <? Z.of_nat n) && bit_at v i.
Proof.
  intros Hi. unfold bits. rewrite nth_lookup, list_lookup_fmap.
  destruct (Z.ltb_spec i (Z.of_nat n)).
  - rewrite lookup_seq_lt by lia. simpl. by rewrite Z2Nat.id.
  - rewrite lookup_seq_ge by lia. done.
Qed.

Lemma eight_cases (P : Z -> Prop) :
  P 0 -> P 1 -> P 2 -> P 3 -> P 4 -> P 5 -> P 6 -> P 7 -> forall i, 0 <= i < 8 -> P i.
Proof.
  intros. assert (i = 0 \/ i = 1 \/ i = 2 \/ i = 3 \/ i = 4 \/ i = 5 \/ i = 6 \/ i = 7)
    as Hc by lia.
  by destruct Hc as [->|[->|[->|[->|[->|[->|[->| ->]]]]]]].
Qed.

Lemma mask_bit s j :
  0 <= s < 8 -> 0 <= j < 8 ->
  Z.testbit (u8 (Z.shiftl 255 (8 - s))) (7 - j) = (j <? s).
Proof.
  intros Hs Hj. revert j Hj.
  apply (eight_cases (fun j => Z.testbit (u8 (Z.shiftl 255 (8 - s))) (7 - j) = (j <? s))).
  all: revert s Hs; apply eight_cases; reflexivity.
Qed.

Lemma bit_at_insert v k c i :
  (k < length v)%nat -> 0 <= i ->
  bit_at (<[k := c]> v) i =
  if i / 8 =? Z.of_nat k then Z.testbit c (7 - i mod 8) else bit_at v i.
Proof.
  intros Hk Hi. assert (0 <= i / 8) by (apply Z.div_pos; lia). unfold bit_at.
  rewrite !nth_lookup. destruct (Z.eqb_spec (i / 8) (Z.of_nat k)) as [E|E].
  - rewrite E, Nat2Z.id, list_lookup_insert_eq by done. done.
  - rewrite list_lookup_insert_ne by lia. done.
Qed.

Lemma copy_length {A} (dst src : list A) : length (copy dst src) = length dst.
Proof. unfold copy. rewrite length_app, length_take, length_drop. lia. Qed.

Lemma copy_nth (dst src : list Z) k :
  nth k (copy dst src) 0 =
  if decide (k < length src /\ k < length dst)%nat then nth k src 0 else nth k dst 0.
Proof.
  unfold copy. rewrite !nth_lookup.
  destruct decide as [[H1 H2]|Hn].
  - rewrite lookup_app_l by (rewrite length_take; lia). by rewrite lookup_take_lt by lia.
  - destruct (Nat.lt_ge_cases k (length dst)) as [Hd|Hd].
    + rewrite lookup_app_r by (rewrite length_take; lia).
      rewrite length_take, lookup_drop. do 2 f_equal. lia.
    + rewrite !lookup_ge_None_2; [done|lia|]. rewrite length_app, length_take, length_drop. lia.
Qed.

Lemma nth_replicate_0 k n : nth k (replicate n 0) 0 = 0.
Proof.
  rewrite nth_lookup. destruct (replicate n 0 !! k) eqn:E; [|done].
  apply lookup_replicate in E as [-> _]. done.
Qed.

Lemma ResetBits_length v s : length (ResetBits v s) = length v.
Proof.
  unfold ResetBits. destruct (_ <=? s); [done|].
  by rewrite length_insert, copy_length, length_replicate.
Qed.

(** [ResetBits v start] keeps the first [start] bits and clears the rest. *)
Lemma ResetBits_bit v s i :
  0 <= s -> 0 <= i < 8 * Z.of_nat (length v) ->
  bit_at (ResetBits v s) i = (i <? s) && bit_at v i.
Proof.
  intros Hs Hi. unfold ResetBits.
  destruct (Z.leb_spec (Z.of_nat (length v) * 8) s).
  { destruct (Z.ltb_spec i s); [done|lia]. }
  pose proof (Z.div_mod s 8). pose proof (Z.mod_pos_bound s 8).
  pose proof (Z.div_mod i 8). pose proof (Z.mod_pos_bound i 8).
  assert (0 <= s / 8) by (apply Z.div_pos; lia). assert (0 <= i / 8) by (apply Z.div_pos; lia).
  rewrite bit_at_insert by (rewrite ?copy_length, ?length_replicate; lia).
  rewrite Z2Nat.id by done. destruct (Z.eqb_spec (i / 8) (s / 8)) as [E|E].
  - rewrite Z.land_spec, mask_bit, <- E, andb_comm by lia. unfold bit_at.
    f_equal. destruct (Z.ltb_spec (i mod 8) (s mod 8)), (Z.ltb_spec i s); (done || lia).
  - unfold bit_at. rewrite copy_nth, length_take, length_replicate.
    destruct decide as [[Hk _]|Hn].
    + rewrite nth_lookup, lookup_take_lt, <- nth_lookup by lia.
      destruct (Z.ltb_spec i s); [done|lia].
    + rewrite nth_replicate_0, Z.bits_0. destruct (Z.ltb_spec i s); [lia|done].
Qed.

Lemma copy_bytes dst src : Forall is_byte dst -> Forall is_byte src -> Forall is_byte (copy dst src).
Proof. intros. apply Forall_app. split; [by apply Forall_take|by apply Forall_drop]. Qed.

Lemma nth_byte v k : Forall is_byte v -> is_byte (nth k v 0).
Proof.
  intros Hv. rewrite nth_lookup. destruct (v !! k) eqn:E; [|split; simpl; lia].
  by eapply Forall_lookup_1.
Qed.

Lemma land_byte b c : is_byte b -> is_byte (Z.land b c).
Proof.
  intros Hb. rewrite <- (Z.mod_small b (2^8)) by done. rewrite <- Z.land_ones by done.
  rewrite <- Z.land_assoc, (Z.land_comm (Z.ones 8)), Z.land_assoc, Z.land_ones by done.
  apply Z.mod_pos_bound. lia.
Qed.

Lemma replicate_0_bytes n : Forall is_byte (replicate n 0).
Proof. apply Forall_replicate. split; simpl; lia. Qed.

Lemma ResetBits_bytes v s : Forall is_byte v -> Forall is_byte (ResetBits v s).
Proof.
  intros Hv. unfold ResetBits. destruct (_ <=? s); [done|].
  apply Forall_insert; [|by apply land_byte, nth_byte].
  apply copy_bytes; [apply replicate_0_bytes|by apply Forall_take].
Qed.

Lemma land_bit_mask b i :
  negb (Z.land b (bit_mask i) =? 0) = Z.testbit b (7 - i mod 8).
Proof.
  pose proof (Z.mod_pos_bound i 8). unfold bit_mask.
  rewrite Z.shiftl_mul_pow2, Z.mul_1_l by lia. set (k := 7 - i mod 8).
  assert (0 <= k) by (subst k; lia). destruct (Z.testbit b k) eqn:E.
  - destruct (Z.eqb_spec (Z.land b (2^k)) 0) as [Hz|]; [|done].
    assert (Hb : Z.testbit (Z.land b (2^k)) k = true)
      by (by rewrite Z.land_spec, E, Z.pow2_bits_true by lia).
    by rewrite Hz, Z.bits_0 in Hb.
  - replace (Z.land b (2^k)) with 0; [done|]. symmetry. apply Z.bits_inj'. intros j Hj.
    rewrite Z.land_spec, Z.bits_0. destruct (Z.eq_dec j k) as [->|].
    + by rewrite E.
    + rewrite Z.pow2_bits_false by lia. apply andb_false_r.
Qed.

Lemma getBit_ret v i :
  0 <= i < 8 * Z.of_nat (length v) -> getBit v i = Ret (bit_at v i).
Proof.
  intros Hi. unfold getBit. destruct (Z.leb_spec (Z.of_nat (length v) * 8) i); [lia|].
  by rewrite land_bit_mask.
Qed.

Lemma getBit_panic v i : 8 * Z.of_nat (length v) <= i -> getBit v i = Panic "index overflow".
Proof. intros Hi. unfold getBit. destruct (Z.leb_spec (Z.of_nat (length v) * 8) i); [done|lia]. Qed.

Lemma bit_mask_byte i : is_byte (bit_mask i).
Proof.
  unfold bit_mask. pose proof (Z.mod_pos_bound i 8 ltac:(lia)) as Hj. revert Hj.
  generalize (i mod 8). apply eight_cases; split; vm_compute; congruence.
Qed.

Lemma lor_byte b c : is_byte b -> is_byte c -> is_byte (Z.lor b c).
Proof.
  intros Hb Hc. unfold is_byte. rewrite <- (Z.mod_small b (2^8)), <- (Z.mod_small c (2^8)) by done.
  rewrite <- !Z.land_ones, <- Z.land_lor_distr_l, Z.land_ones by done.
  apply Z.mod_pos_bound. lia.
Qed.

Lemma setBit_ret v i :
  0 <= i < 8 * Z.of_nat (length v) -> Forall is_byte v ->
  exists v', setBit v i = Ret v' /\ length v' = length v /\ Forall is_byte v' /\
    forall j, 0 <= j < 8 * Z.of_nat (length v) -> bit_at v' j = (j =? i) || bit_at v j.
Proof.
  intros Hi Hv. unfold setBit. destruct (Z.leb_spec (Z.of_nat (length v) * 8) i); [lia|].
  eexists. split; [done|]. split; [by rewrite length_insert|]. split.
  { apply Forall_insert; [done|]. apply lor_byte; [by apply nth_byte|apply bit_mask_byte]. }
  intros j Hj. pose proof (Z.div_mod i 8). pose proof (Z.mod_pos_bound i 8).
  pose proof (Z.div_mod j 8). pose proof (Z.mod_pos_bound j 8).
  assert (0 <= i / 8) by (apply Z.div_pos; lia).
  rewrite bit_at_insert by lia. rewrite Z2Nat.id by done.
  destruct (Z.eqb_spec (j / 8) (i / 8)) as [E|E].
  - unfold bit_mask. rewrite Z.lor_spec, Z.shiftl_mul_pow2, Z.mul_1_l by lia.
    unfold bit_at. rewrite E, orb_comm. f_equal. destruct (Z.eqb_spec j i) as [->|Hne].
    + by rewrite Z.pow2_bits_true by lia.
    + rewrite Z.pow2_bits_false by lia. done.
  - destruct (Z.eqb_spec j i) as [->|]; done.
Qed.

Lemma bit_at_copy dst src i :
  0 <= i < 8 * Z.of_nat (length dst) ->
  bit_at (copy dst src) i = if i <? 8 * Z.of_nat (length src) then bit_at src i else bit_at dst i.
Proof.
  intros Hi. pose proof (Z.div_mod i 8). pose proof (Z.mod_pos_bound i 8).
  assert (0 <= i / 8) by (apply Z.div_pos; lia).
  unfold bit_at. rewrite copy_nth.
  destruct decide, (Z.ltb_spec i (8 * Z.of_nat (length src))); try done; exfalso; lia.
Qed.

Lemma bit_at_zeros n i : bit_at (replicate n 0) i = false.
Proof. unfold bit_at. by rewrite nth_replicate_0, Z.bits_0. Qed.

Lemma NewID_jet h :
  length h = 28%nat -> NewID pulse_Jet h = Ret (mkLocal pulse_Jet h).
Proof.
  intros Hl. unfold NewID, NewLocal. rewrite copy_ge by (rewrite Hl; done).
  rewrite Hl, drop_ge, app_nil_r by done. reflexivity.
Qed.

(** [NewJetID] builds the canonical identifier of the first [depth] bits. *)
Lemma NewJetID_ret d v :
  Forall is_byte v -> 0 <= d <= 216 -> d <= 8 * Z.of_nat (length v) ->
  NewJetID d v = Ret (jet_id (bits v (Z.to_nat d))).
Proof.
  intros Hv Hd Hle. unfold NewJetID. rewrite NewID_jet.
  2: { simpl. by rewrite copy_length. }
  unfold jet_id. rewrite bits_length, Z2Nat.id by lia. do 3 f_equal.
  apply bit_at_ext.
  - by rewrite copy_length, length_replicate, bytes_of_length.
  - apply copy_bytes; [apply replicate_0_bytes|by apply ResetBits_bytes].
  - apply bytes_of_bytes.
  - rewrite copy_length, length_replicate. intros i Hi.
    rewrite bit_at_copy, ResetBits_length, bit_at_zeros, bytes_of_bit, bits_nth
      by (rewrite ?length_replicate; lia).
    rewrite Z2Nat.id by lia.
    destruct (Z.ltb_spec i (8 * Z.of_nat (length v))).
    + by rewrite ResetBits_bit by lia.
    + destruct (Z.ltb_spec i d); [lia|done].
Qed.

Lemma Depth_jet_id p : Depth (jet_id p) = Ret (Z.of_nat (length p)).
Proof. done. Qed.

Lemma Prefix_jet_id p : Prefix (jet_id p) = Ret (bytes_of 27 p).
Proof. done. Qed.

Lemma bits_bytes_of k n p :
  (k <= 8 * n)%nat -> (k <= length p)%nat -> bits (bytes_of n p) k = take k p.
Proof.
  intros Hk Hp. apply list_eq. intros i. unfold bits. rewrite list_lookup_fmap.
  destruct (Nat.lt_ge_cases i k).
  - rewrite lookup_seq_lt by done. simpl. rewrite bytes_of_bit, Nat2Z.id by lia.
    rewrite lookup_take_lt by done.
    rewrite nth_lookup. destruct (p !! i) eqn:E; [done|].
    apply lookup_ge_None_1 in E. lia.
  - rewrite lookup_seq_ge by done. simpl. rewrite lookup_take_ge by done. done.
Qed.

Lemma bits_eq v p :
  (forall i, 0 <= i < Z.of_nat (length p) -> bit_at v i = nth (Z.to_nat i) p false) ->
  bits v (length p) = p.
Proof.
  intros H. apply list_eq. intros i. unfold bits. rewrite list_lookup_fmap.
  destruct (Nat.lt_ge_cases i (length p)) as [Hi|Hi].
  - rewrite lookup_seq_lt by done. simpl. rewrite H, Nat2Z.id, nth_lookup by lia.
    apply lookup_lt_is_Some_2 in Hi as [b ->]. done.
  - rewrite lookup_seq_ge, lookup_ge_None_2 by done. done.
Qed.

Lemma bits_bit v p i :
  bits v (length p) = p -> 0 <= i < Z.of_nat (length p) -> bit_at v i = nth (Z.to_nat i) p false.
Proof.
  intros E Hi. rewrite <- E, bits_nth by lia.
  destruct (Z.ltb_spec i (Z.of_nat (length p))); [done|lia].
Qed.

Lemma nth_snoc (p : list bool) b i :
  0 <= i -> nth (Z.to_nat i) (p ++ [b]) false =
  if i =? Z.of_nat (length p) then b else nth (Z.to_nat i) p false.
Proof.
  intros Hi. rewrite !nth_lookup.
  destruct (Z.eqb_spec i (Z.of_nat (length p))) as [->|Hne].
  - rewrite Nat2Z.id. by rewrite list_lookup_middle.
  - destruct (Z.lt_ge_cases i (Z.of_nat (length p))).
    + by rewrite lookup_app_l by lia.
    + rewrite !lookup_ge_None_2; [done|lia|]. rewrite length_app. simpl. lia.
Qed.

Lemma jet_id_inj p q :
  (length p <= 216)%nat -> (length q <= 216)%nat -> jet_id p = jet_id q -> p = q.
Proof.
  intros Hp Hq E.
  assert (Hl : Z.of_nat (length p) = Z.of_nat (length q))
    by exact (f_equal (fun v => nth 0 (hash v) 0) E).
  assert (Hb : bytes_of 27 p = bytes_of 27 q) by exact (f_equal (fun v => drop 1 (hash v)) E).
  apply Nat2Z.inj in Hl. clear E.
  assert (E : bits (bytes_of 27 p) (length p) = bits (bytes_of 27 q) (length q))
    by (by rewrite Hb, Hl).
  by rewrite !bits_bytes_of, !take_ge in E by lia.
Qed.

Lemma Ret_inj {A} (a b : A) : Ret a = Ret b -> a = b.
Proof. congruence. Qed.

(** A jet identifier is the canonical form of its depth and of the first
    [depth] bits of the prefix: two calls of [NewJetID] agree exactly when
    those do, and [Depth] and [Prefix] read them back, zero padded. *)
Theorem NewJetID_canonical d v d' v' :
  Forall is_byte v -> 0 <= d <= 216 -> d <= 8 * Z.of_nat (length v) ->
  Forall is_byte v' -> 0 <= d' <= 216 -> d' <= 8 * Z.of_nat (length v') ->
  (NewJetID d v = NewJetID d' v' <->
   d = d' /\ bits v (Z.to_nat d) = bits v' (Z.to_nat d')) /\
  exists id, NewJetID d v = Ret id /\ IsValid id = true /\ Depth id = Ret d /\
    exists prefix, Prefix id = Ret prefix /\ length prefix = 27%nat /\
      forall i, 0 <= i < 216 -> bit_at prefix i = (i <? d) && bit_at v i.
Proof.
  intros Hv Hd Hl Hv' Hd' Hl'. rewrite !NewJetID_ret by done. split; [split|].
  - intros E%Ret_inj. apply jet_id_inj in E; rewrite ?bits_length; try lia.
    split; [|done]. apply (f_equal length) in E. rewrite !bits_length in E. lia.
  - by intros [-> ->].
  - eexists. split; [done|]. split; [done|]. rewrite Depth_jet_id, bits_length.
    rewrite Z2Nat.id by lia. split; [done|]. eexists. split; [apply Prefix_jet_id|].
    split; [apply bytes_of_length|]. intros i Hi. rewrite bytes_of_bit, bits_nth by lia.
    by rewrite Z2Nat.id by lia.
Qed.

Lemma NewJetID_canonical_witness :
  (NewJetID 3 [171; 5] = NewJetID 3 [160; 0] <->
   3 = 3 /\ bits [171; 5] 3 = bits [160; 0] 3) /\
  exists id, NewJetID 3 [171; 5] = Ret id /\ IsValid id = true /\ Depth id = Ret 3 /\
    exists prefix, Prefix id = Ret prefix /\ length prefix = 27%nat /\
      forall i, 0 <= i < 216 -> bit_at prefix i = (i <? 3) && bit_at [171; 5] i.
Proof.
  apply (NewJetID_canonical 3 [171; 5] 3 [160; 0]).
  all: first [simpl; lia | repeat constructor; simpl; lia].
Defined.

Lemma Siblings_jet_id p :
  (length p < 216)%nat -> Siblings (jet_id p) = Ret (jet_id (p ++ [false]), jet_id (p ++ [true])).
Proof.
  intros Hp. unfold Siblings. rewrite Depth_jet_id, Prefix_jet_id. cbn [mbind go_bind].
  pose proof (bytes_of_length 27 p) as Hlen. pose proof (bytes_of_bytes 27 p) as Hb.
  rewrite u8_small by lia.
  set (r := ResetBits (bytes_of 27 p) (Z.of_nat (length p))).
  assert (Hrl : length r = 27%nat) by (by subst r; rewrite ResetBits_length).
  assert (Hrb : Forall is_byte r) by (by apply ResetBits_bytes).
  assert (Hr : forall i, 0 <= i < 216 -> bit_at r i = nth (Z.to_nat i) p false).
  { intros i Hi. subst r. rewrite ResetBits_bit, bytes_of_bit by lia.
    destruct (Z.ltb_spec i (Z.of_nat (length p))); [done|].
    rewrite nth_overflow by lia. done. }
  rewrite NewJetID_ret by (done || lia). cbn [mbind go_bind].
  destruct (setBit_ret r (Z.of_nat (length p))) as (r' & -> & Hrl' & Hrb' & Hr'); [lia|done|].
  cbn [mbind go_bind]. rewrite NewJetID_ret by (done || lia). cbn [mbind go_bind].
  replace (Z.to_nat (Z.of_nat (length p) + 1)) with (length (p ++ [false]))
    by (rewrite length_app; simpl; lia). 
  rewrite (bits_eq r (p ++ [false])).
  2: { rewrite length_app. simpl. intros i Hi. rewrite nth_snoc, Hr by lia.
       destruct (Z.eqb_spec i (Z.of_nat (length p))) as [->|]; [|done].
       by rewrite nth_overflow by lia. }
  replace (length (p ++ [false])) with (length (p ++ [true])) by (by rewrite !length_app).
  rewrite (bits_eq r' (p ++ [true])); [done|].
  rewrite length_app. simpl. intros i Hi. rewrite nth_snoc, Hr', Hr by lia.
  by destruct (Z.eqb_spec i (Z.of_nat (length p))).
Qed.

Lemma Parent_jet_id p b : (length p < 216)%nat -> Parent (jet_id (p ++ [b])) = Ret (jet_id p).
Proof.
  intros Hp. unfold Parent. rewrite Depth_jet_id, Prefix_jet_id. cbn [mbind go_bind].
  rewrite length_app. simpl length.
  destruct (Z.eqb_spec (Z.of_nat (length p + 1)) 0); [lia|].
  rewrite NewJetID_ret.
  2: apply ResetBits_bytes, bytes_of_bytes.
  2: lia.
  2: rewrite ResetBits_length, bytes_of_length; lia.
  replace (Z.to_nat (Z.of_nat (length p + 1) - 1)) with (length p) by lia.
  rewrite (bits_eq _ p); [done|]. intros i Hi.
  rewrite ResetBits_bit, bytes_of_bit, nth_snoc by (rewrite ?bytes_of_length; lia).
  destruct (Z.ltb_spec i (Z.of_nat (length p + 1) - 1)); [|lia].
  destruct (Z.eqb_spec i (Z.of_nat (length p))); [lia|done].
Qed.

(** [Siblings] of a jet are its two children, [Parent] undoes it, the root
    is its own parent, and at the deepest level [Siblings] panics. *)
Theorem Siblings_Parent p :
  (length p < 216)%nat ->
  Siblings (jet_id p) = Ret (jet_id (p ++ [false]), jet_id (p ++ [true])) /\
  (forall b, Parent (jet_id (p ++ [b])) = Ret (jet_id p)) /\
  Parent (jet_id []) = Ret (jet_id []) /\
  (forall q, length q = 216%nat -> panics (Siblings (jet_id q))).
Proof.
  intros Hp. split; [|split; [|split]].
  - by apply Siblings_jet_id.
  - intros b. by apply Parent_jet_id.
  - reflexivity.
  - intros q Hq. unfold Siblings. rewrite Depth_jet_id, Prefix_jet_id. cbn [mbind go_bind].
    assert (Hlen : length (ResetBits (bytes_of 27 q) (Z.of_nat (length q))) = 27%nat)
      by (by rewrite ResetBits_length, bytes_of_length).
    unfold NewJetID. rewrite NewID_jet by (simpl; by rewrite copy_length).
    cbn [mbind go_bind]. unfold setBit. rewrite Hlen.
    destruct (Z.leb_spec (Z.of_nat 27 * 8) (Z.of_nat (length q))); [done|lia].
Qed.

Lemma Siblings_Parent_witness :
  Siblings (jet_id [true; false]) =
    Ret (jet_id [true; false; false], jet_id [true; false; true]) /\
  (forall b, Parent (jet_id [true; false; b]) = Ret (jet_id [true; false])) /\
  Parent (jet_id []) = Ret (jet_id []) /\
  (forall q, length q = 216%nat -> panics (Siblings (jet_id q))).
Proof. apply (Siblings_Parent [true; false]). simpl. lia. Defined.

(** ** The tree as a set of leaves

    [full]: every node is a leaf or has both children.  [leaves] lists the
    paths of the leaves with their flags, left to right. *)
Fixpoint full (j : Jet) : bool :=
  match j with
  | JetNil => false
  | JetNode _ JetNil JetNil => true
  | JetNode _ l r => full l && full r
  end.

Fixpoint height (j : Jet) : nat :=
  match j with
  | JetNil => 0
  | JetNode _ JetNil JetNil => 0
  | JetNode _ l r => S (Nat.max (height l) (height r))
  end.

Definition under (b : bool) (x : list bool * bool) : list bool * bool := (b :: x.1, x.2).

Fixpoint leaves (j : Jet) : list (list bool * bool) :=
  match j with
  | JetNil => []
  | JetNode a l r =>
      if isNil l && isNil r then [([], a)] else (under false <$> leaves l) ++ (under true <$> leaves r)
  end.

(** The path follows the bits of the string from a depth on. *)
Fixpoint follows (v : list Z) (depth : Z) (p : list bool) : Prop :=
  match p with
  | [] => True
  | b :: p' => b = bit_at v depth /\ follows v (depth + 1) p'
  end.

Definition flag_of (j : Jet) : option bool :=
  match j with JetNil => None | JetNode a _ _ => Some a end.
Definition flag (j : Jet) (p : list bool) : option bool := node_at j p ≫= flag_of.

Lemma full_node a l r :
  full (JetNode a l r) = true ->
  (l = JetNil /\ r = JetNil) \/
  (isNil l = false /\ isNil r = false /\ full l = true /\ full r = true /\
   height (JetNode a l r) = S (Nat.max (height l) (height r))).
Proof.
  destruct l, r; simpl; try (intros E; apply andb_true_iff in E as []); auto.
  all: try discriminate.
  all: intros; right; tauto.
Qed.

Lemma elem_of_leaves j p a :
  (p, a) ∈ leaves j <-> node_at j p = Some (JetNode a JetNil JetNil).
Proof.
  revert p. induction j as [|x l IHl r IHr]; intros p; simpl.
  { split; [by intros ?%elem_of_nil|]. by destruct p. }
  destruct (isNil l && isNil r) eqn:E.
  - destruct l, r; try discriminate. rewrite list_elem_of_singleton.
    destruct p as [|b p]; simpl; [split; congruence|]. split; [congruence|].
    by destruct p, b.
  - rewrite elem_of_app, !list_elem_of_fmap. destruct p as [|b p]; simpl.
    + split; [by intros [([] & [= ] & _)|([] & [= ] & _)]|].
      intros [= -> -> ->]. done.
    + destruct b; [rewrite <- IHr|rewrite <- IHl]; split.
      * by intros [([] & [= ] & _)|([] & [= -> ->] & ?)].
      * intros. right. by exists (p, a).
      * by intros [([] & [= -> ->] & ?)|([] & [= ] & _)].
      * intros. left. by exists (p, a).
Qed.

(** Descending from the head of a full tree ends in a leaf. *)
Lemma Jet_Find_leaf j v depth :
  full j = true -> 0 <= depth ->
  depth + Z.of_nat (height j) < 8 * Z.of_nat (length v) ->
  depth + Z.of_nat (height j) < 256 ->
  exists p a, Jet_Find j v depth = Ret (Some p, depth + Z.of_nat (length p)) /\
    (p, a) ∈ leaves j /\ follows v depth p /\ (length p <= height j)%nat.
Proof.
  revert depth. induction j as [|x l IHl r IHr]; intros depth Hf Hd Hv Hb; [done|].
  apply full_node in Hf as [[-> ->]|(Hl & Hr & Hfl & Hfr & Hh)].
  - exists [], x. simpl in *. rewrite getBit_ret by lia. simpl.
    destruct (bit_at v depth); simpl; rewrite Z.add_0_r; (split; [done|]).
    all: split; [by apply list_elem_of_singleton|done].
  - rewrite Hh in Hv, Hb |- *. cbn [Jet_Find leaves]. rewrite getBit_ret by lia. cbn [mbind go_bind].
    rewrite Hl, Hr. cbn [andb].
    destruct (bit_at v depth) eqn:Eb.
    + rewrite Hr. rewrite u8_small by lia.
      destruct (IHr (depth + 1)) as (p & a & -> & Hin & Hfo & Hle); [done|lia..|].
      exists (true :: p), a. simpl. split; [do 2 f_equal; lia|]. split; [|by rewrite Eb; split_and!; [|done|lia]].
      apply elem_of_app. right. apply list_elem_of_fmap. by exists (p, a).
    + rewrite Hl. rewrite u8_small by lia.
      destruct (IHl (depth + 1)) as (p & a & -> & Hin & Hfo & Hle); [done|lia..|].
      exists (false :: p), a. simpl. split; [do 2 f_equal; lia|]. split; [|by rewrite Eb; split_and!; [|done|lia]].
      apply elem_of_app. left. apply list_elem_of_fmap. by exists (p, a).
Qed.

(** No two leaves follow the same bits. *)
Lemma leaf_unique j v depth p q a b :
  (p, a) ∈ leaves j -> (q, b) ∈ leaves j -> follows v depth p -> follows v depth q ->
  p = q /\ a = b.
Proof.
  rewrite !elem_of_leaves. revert depth p q.
  induction j as [|x l IHl r IHr]; intros depth p q; [by destruct p|].
  destruct p as [|c p], q as [|d q]; simpl.
  - by intros [= -> -> ->] [= ->].
  - intros [= -> -> ->]. by destruct q, d.
  - intros Hp [= -> -> ->]. by destruct p, c.
  - intros Hp Hq [-> Hfp] [-> Hfq].
    destruct (bit_at v depth);
      [destruct (IHr (depth + 1) p q) as [-> ->]|destruct (IHl (depth + 1) p q) as [-> ->]]; done.
Qed.

Lemma follows_bit v depth p i :
  follows v depth p -> 0 <= i < Z.of_nat (length p) ->
  nth (Z.to_nat i) p false = bit_at v (depth + i).
Proof.
  revert depth i. induction p as [|b p IH]; intros depth i; simpl; [lia|].
  intros [-> Hf] Hi. destruct (Z.eq_dec i 0) as [->|].
  - by rewrite Z.add_0_r.
  - replace (Z.to_nat i) with (S (Z.to_nat (i - 1))) by lia. simpl.
    rewrite (IH (depth + 1)) by (done || lia). f_equal. lia.
Qed.

Lemma bit_follows v depth p :
  (forall i, 0 <= i < Z.of_nat (length p) -> nth (Z.to_nat i) p false = bit_at v (depth + i)) ->
  follows v depth p.
Proof.
  revert depth. induction p as [|b p IH]; intros depth H; simpl; [done|]. split.
  - specialize (H 0). rewrite Z.add_0_r in H. apply H. simpl. lia.
  - apply IH. intros i Hi. specialize (H (i + 1)). simpl in H.
    replace (Z.to_nat (i + 1)) with (S (Z.to_nat i)) in H by lia. simpl in H.
    rewrite H by lia. f_equal. lia.
Qed.

Lemma follows_bits v p : follows v 0 p -> bits v (length p) = p.
Proof. intros H. apply bits_eq. intros i Hi. by rewrite (follows_bit v 0 p) by done. Qed.

Lemma Tree_Find_jet t recordID :
  full t = true -> (height t <= 216)%nat -> Local_wf recordID ->
  (Local_Pulse recordID =? pulse_Jet) = false ->
  exists p a, Tree_Find t recordID = Ret (jet_id p, a) /\
    (p, a) ∈ leaves t /\ follows (hash recordID) 0 p.
Proof.
  intros Hf Hh (_ & Hl & Hb) Hp. unfold Tree_Find. rewrite Hp. unfold Local_Hash.
  change LocalBinaryHashSize with 28%nat in Hl.
  destruct (Jet_Find_leaf t (hash recordID) 0) as (p & a & -> & Hin & Hfo & Hle);
    [done|lia..|].
  rewrite Z.add_0_l. cbn [mbind go_bind fst snd].
  rewrite NewJetID_ret; [|by apply ResetBits_bytes|lia|rewrite ResetBits_length; lia].
  cbn [mbind go_bind option_bind].
  pose proof Hin as Hn. apply elem_of_leaves in Hn. rewrite Hn. cbn [Actual_of mbind go_bind].
  exists p, a. split; [|split; [done|done]].
  do 3 f_equal. rewrite Nat2Z.id. apply bits_eq. intros i Hi.
  rewrite ResetBits_bit by lia.
  destruct (Z.ltb_spec i (Z.of_nat (length p))); [|lia].
  by rewrite (follows_bit _ _ _ _ Hfo).
Qed.

(** On a full tree every record belongs to exactly one jet: [Find] answers
    the identifier and flag of the one leaf whose path is a prefix of the
    record's hash. *)
Theorem Tree_Find_leaf t recordID :
  full t = true -> (height t <= 216)%nat -> Local_wf recordID ->
  (Local_Pulse recordID =? pulse_Jet) = false ->
  exists p a, Tree_Find t recordID = Ret (jet_id p, a) /\
    (p, a) ∈ leaves t /\ follows (hash recordID) 0 p /\
    forall q b, (q, b) ∈ leaves t -> follows (hash recordID) 0 q -> q = p /\ b = a.
Proof.
  intros Hf Hh Hwf Hp. destruct (Tree_Find_jet t recordID Hf Hh Hwf Hp) as (p & a & E & Hin & Hfo).
  exists p, a. split_and!; [done..|]. intros q b Hq Hfq. eapply leaf_unique; eauto.
Qed.

(** A tree and a record used by the witnesses. *)
Definition sampleTree : Tree :=
  JetNode true (NewTree false) (JetNode false (NewTree true) (NewTree true)).

Lemma Tree_Find_leaf_witness :
  exists p a, Tree_Find sampleTree sampleLocal = Ret (jet_id p, a) /\
    (p, a) ∈ leaves sampleTree /\ follows (hash sampleLocal) 0 p /\
    forall q b, (q, b) ∈ leaves sampleTree -> follows (hash sampleLocal) 0 q -> q = p /\ b = a.
Proof.
  apply (Tree_Find_leaf sampleTree sampleLocal); [done|simpl; lia|exact sampleLocal_wf|done].
Defined.

(** [Split] replaces a leaf by two. *)
Lemma leaves_grow t p a q b :
  (p, a) ∈ leaves t ->
  (q, b) ∈ leaves (update_at t p grow) <->
  ((q, b) ∈ leaves t /\ q <> p) \/ (b = true /\ exists c, q = p ++ [c]).
Proof.
  rewrite !elem_of_leaves. revert t q. induction p as [|d p IH]; intros t q Hn.
  - assert (t = JetNode a JetNil JetNil) as -> by (destruct t; simpl in Hn; congruence).
    simpl. destruct q as [|c q]; simpl.
    + split; [discriminate|]. intros [[_ ?]|(_ & c & [= ])]; done.
    + destruct q as [|e q]; simpl.
      * destruct c; (split; [intros [= ->]; right; split; [done|by eexists]|]).
        all: by intros [[[= ] _]|(-> & c & [= ?])]; subst.
      * destruct c, e, q; (split; [discriminate|]).
        all: by intros [[[= ] _]|(_ & c & [= ])].
  - destruct t as [|x l r]; [done|]. simpl in Hn.
    assert (Hq : forall e q', e :: q' <> d :: p <-> (e <> d \/ q' <> p)).
    { intros e q'. destruct (decide (e = d)), (decide (q' = p)); subst; split; intros; try congruence; tauto. }
    destruct d; simpl.
    + destruct q as [|e q]; simpl.
      * split; [intros [= -> -> Hr]; destruct r, p as [|[] p]; done|].
        intros [[[= -> -> ->] _]|(_ & c & [= ])]. by destruct p.
      * destruct e.
        -- rewrite (IH r q Hn), Hq. split.
           ++ intros [[? ?]|(-> & c & ->)]; [left; tauto|right; split; [done|by exists c]].
           ++ intros [[? [?|?]]|(-> & c & [= ->])]; [done|left; done|right; split; [done|by exists c]].
        -- rewrite Hq. split; [intros; left; split; [done|by left]|].
           intros [[? _]|(_ & c & [= ])]; done.
    + destruct q as [|e q]; simpl.
      * split; [intros [= -> Hl ->]; destruct l, p as [|[] p]; done|].
        intros [[[= -> -> ->] _]|(_ & c & [= ])]. by destruct p.
      * destruct e.
        -- rewrite Hq. split; [intros; left; split; [done|by left]|].
           intros [[? _]|(_ & c & [= ])]; done.
        -- rewrite (IH l q Hn), Hq. split.
           ++ intros [[? ?]|(-> & c & ->)]; [left; tauto|right; split; [done|by exists c]].
           ++ intros [[? [?|?]]|(-> & c & [= ->])]; [done|left; done|right; split; [done|by exists c]].
Qed.

Lemma full_intro a l r :
  full l = true -> full r = true -> full (JetNode a l r) = true.
Proof. destruct l, r; simpl; try done. intros -> ->. done. Qed.

Lemma height_intro a l r :
  isNil l = false \/ isNil r = false -> height (JetNode a l r) = S (Nat.max (height l) (height r)).
Proof. destruct l, r; simpl; try done. by intros []. Qed.

Lemma full_grow t p a :
  full t = true -> (p, a) ∈ leaves t ->
  full (update_at t p grow) = true /\
  (height (update_at t p grow) <= Nat.max (height t) (S (length p)))%nat.
Proof.
  rewrite elem_of_leaves. revert t. induction p as [|d p IH]; intros t Hf Hn.
  - destruct t as [|x l r]; [done|]. simpl in Hn. injection Hn as -> -> ->. simpl. lia.
  - destruct t as [|x l r]; [done|]. simpl in Hn.
    apply full_node in Hf as [[-> ->]|(Hl & Hr & Hfl & Hfr & Hh)]; [by destruct d, p|].
    rewrite Hh. destruct d; cbn [update_at length].
    + destruct (IH r Hfr Hn) as [H1 H2]. split; [by apply full_intro|].
      rewrite height_intro by (left; done). lia.
    + destruct (IH l Hfl Hn) as [H1 H2]. split; [by apply full_intro|].
      rewrite height_intro by (right; done). lia.
Qed.

Lemma follows_zeros p q :
  (length p <= 216)%nat -> length q = length p ->
  follows (bytes_of 27 p) 0 q -> q = p.
Proof.
  intros Hp Hl Hf. rewrite <- (follows_bits _ _ Hf), Hl, bits_bytes_of by lia. by apply take_ge.
Qed.

Lemma follows_self p : (length p <= 216)%nat -> follows (bytes_of 27 p) 0 p.
Proof.
  intros Hp. apply bit_follows. intros i Hi. by rewrite Z.add_0_l, bytes_of_bit by lia.
Qed.

(** The pointer [Find] returns for the identifier of a leaf is that leaf;
    for any other identifier the depths differ. *)
Lemma Tree_Split_eq t p :
  full t = true -> (height t < 216)%nat -> (length p <= 216)%nat ->
  (forall a, (p, a) ∈ leaves t ->
     Tree_Split t (jet_id p) =
     Ret (update_at t p grow, Good (jet_id (p ++ [false]), jet_id (p ++ [true])))) /\
  ((forall a, (p, a) ∉ leaves t) ->
     Tree_Split t (jet_id p) =
     Ret (t, Fail (Errorf "failed to split: incorrect jet provided"))).
Proof.
  intros Hf Hh Hp.
  destruct (Jet_Find_leaf t (bytes_of 27 p) 0) as (q & b & HF & Hin & Hfo & Hle);
    [done|lia|rewrite bytes_of_length; lia|lia|].
  rewrite Z.add_0_l in HF. unfold Tree_Split. rewrite Depth_jet_id, Prefix_jet_id.
  cbn [mbind go_bind]. rewrite HF. cbn [mbind go_bind fst snd]. split.
  - intros a Ha.
    destruct (leaf_unique t (bytes_of 27 p) 0 p q a b) as [<- <-]; [done..|by apply follows_self|done|].
    rewrite Z.eqb_refl. cbn [negb]. by rewrite Siblings_jet_id by lia.
  - intros Hno. destruct (Z.eqb_spec (Z.of_nat (length p)) (Z.of_nat (length q))) as [E|E]; [|done].
    exfalso. apply (Hno b). rewrite <- (follows_zeros p q); [done|done|lia|done].
Qed.

(** [Split] succeeds exactly on the identifiers of leaves: it then replaces
    that leaf by its two children, both actual, keeps every other leaf and
    the shape of the tree, and answers the two identifiers; otherwise it
    returns the error and the tree is unchanged. *)
Theorem Tree_Split_leaf t p :
  full t = true -> (height t < 216)%nat -> (length p <= 216)%nat ->
  (forall a, (p, a) ∈ leaves t ->
     exists t', Tree_Split t (jet_id p) =
         Ret (t', Good (jet_id (p ++ [false]), jet_id (p ++ [true]))) /\
       full t' = true /\ (height t' <= Nat.max (height t) (S (length p)))%nat /\
       forall q b, (q, b) ∈ leaves t' <->
         ((q, b) ∈ leaves t /\ q <> p) \/ (b = true /\ exists c, q = p ++ [c])) /\
  ((forall a, (p, a) ∉ leaves t) ->
     Tree_Split t (jet_id p) =
     Ret (t, Fail (Errorf "failed to split: incorrect jet provided"))).
Proof.
  intros Hf Hh Hp. destruct (Tree_Split_eq t p Hf Hh Hp) as [HG HB]. split; [|done].
  intros a Ha. destruct (full_grow t p a Hf Ha). eexists. split; [by eapply HG|].
  split_and!; [done|done|]. intros q b. by eapply leaves_grow.
Qed.

Lemma Tree_Split_leaf_witness :
  (forall a, ([true; false], a) ∈ leaves sampleTree ->
     exists t', Tree_Split sampleTree (jet_id [true; false]) =
         Ret (t', Good (jet_id [true; false; false], jet_id [true; false; true])) /\
       full t' = true /\ (height t' <= 3)%nat /\
       forall q b, (q, b) ∈ leaves t' <->
         ((q, b) ∈ leaves sampleTree /\ q <> [true; false]) \/
         (b = true /\ exists c, q = [true; false; c])) /\
  ((forall a, ([true; false], a) ∉ leaves sampleTree) ->
     Tree_Split sampleTree (jet_id [true; false]) =
     Ret (sampleTree, Fail (Errorf "failed to split: incorrect jet provided"))).
Proof. apply (Tree_Split_leaf sampleTree [true; false]); [done|simpl; lia..]. Defined.

(** ** Update *)

(** The flags after [Update p]: [beside p q] holds for the nodes the update
    passes or creates: the prefixes of [p] and their siblings. *)
Fixpoint beside (p q : list bool) : bool :=
  match p, q with
  | _, [] => true
  | [], _ => false
  | b :: p', c :: q' => if Bool.eqb b c then beside p' q' else bool_decide (q' = [])
  end.

Lemma or_new_not_nil j : isNil (or_new j) = false.
Proof. by destruct j. Qed.

Lemma flag_or_new j q :
  flag (or_new j) q = match flag j q with
                      | Some a => Some a
                      | None => if isNil j && bool_decide (q = []) then Some false else None
                      end.
Proof.
  destruct j as [|a l r]; cbn [or_new isNil andb].
  - destruct q as [|b q]; [done|]. by destruct b, q.
  - by destruct (flag (JetNode a l r) q).
Qed.

Lemma flag_nil q : flag JetNil q = None.
Proof. by destruct q. Qed.

Lemma flag_none_root j : flag j [] = None <-> j = JetNil.
Proof. by destruct j. Qed.

Lemma full_or_new j : full j = true \/ j = JetNil -> full (or_new j) = true.
Proof. intros [| ->]; [by destruct j|done]. Qed.

Lemma flag_node a l r q :
  flag (JetNode a l r) q = match q with [] => Some a | b :: q' => flag (if b then r else l) q' end.
Proof. by destruct q. Qed.

(** The flags below the child the update does not enter, and below the one
    it does. *)
Lemma flag_passed j q (x : bool) :
  flag (or_new j) q =
  match flag j q with
  | Some a => Some (a || (x && false))
  | None => if bool_decide (q = []) then Some (x && false) else None
  end.
Proof.
  rewrite flag_or_new, andb_false_r. destruct (flag j q) eqn:E; [by rewrite orb_false_r|].
  destruct j; simpl; [done|]. by destruct (bool_decide_reflect (q = [])) as [->|].
Qed.

Definition updated_flag (j : Jet) (p q : list bool) (setActual : bool) : option bool :=
  match flag j q with
  | Some a => Some (a || (setActual && bool_decide (q = p)))
  | None => if beside p q then Some (setActual && bool_decide (q = p)) else None
  end.

Lemma flag_entered j p q x : updated_flag (or_new j) p q x = updated_flag j p q x.
Proof.
  unfold updated_flag. rewrite flag_or_new. destruct (flag j q); [done|].
  destruct (isNil j && bool_decide (q = [])) eqn:E; [|done].
  apply andb_true_iff in E as [_ E]. apply bool_decide_eq_true in E as ->. by destruct p.
Qed.

Lemma updated_flag_cons a l r b p c q x :
  updated_flag (JetNode a l r) (b :: p) (c :: q) x =
  if Bool.eqb b c then updated_flag (if b then r else l) p q x
  else flag (or_new (if c then r else l)) q.
Proof.
  unfold updated_flag. rewrite flag_node. cbn [beside].
  assert (E : bool_decide (c :: q = b :: p) = Bool.eqb b c && bool_decide (q = p)).
  { destruct b, c; cbn [Bool.eqb andb]; try (apply bool_decide_eq_false_2; congruence).
    all: apply bool_decide_ext; split; congruence. }
  rewrite E. destruct (Bool.eqb b c) eqn:Eb.
  - apply Bool.eqb_prop in Eb as ->. done.
  - cbn [andb]. by rewrite (flag_passed _ q x).
Qed.

(** [maxDepth - depth] recursive calls are enough, whatever the tree. *)
Lemma Jet_Update_spec fuel j v setActual maxDepth depth p :
  isNil j = false -> 0 <= depth -> maxDepth < 256 ->
  maxDepth = depth + Z.of_nat (length p) -> maxDepth <= 8 * Z.of_nat (length v) ->
  follows v depth p -> (length p < fuel)%nat ->
  exists j', Jet_Update fuel j v setActual maxDepth depth = Ret j' /\
    isNil j' = false /\ (full j = true -> full j' = true) /\
    forall q, flag j' q = updated_flag j p q setActual.
Proof.
  revert fuel j depth. induction p as [|b p IH]; intros fuel j depth Hj Hd Hm He Hv Hfo Hfu.
  - destruct fuel as [|fuel]; [lia|]. destruct j as [|a l r]; [done|]. simpl.
    destruct (Z.eqb_spec depth maxDepth); [|simpl in He; lia].
    eexists. split; [done|]. split; [done|]. split; [by destruct l, r|].
    intros q. unfold updated_flag. rewrite !flag_node. destruct q as [|c q].
    + by destruct a, setActual.
    + rewrite bool_decide_eq_false_2, andb_false_r by done.
      destruct (flag _ q); simpl; [by rewrite orb_false_r|done].
  - destruct fuel as [|fuel]; [simpl in Hfu; lia|]. destruct j as [|a l r]; [done|].
    cbn [Jet_Update]. cbn [length] in He, Hfu. destruct (Z.eqb_spec depth maxDepth); [lia|].
    destruct Hfo as [Hb Hfo]. rewrite getBit_ret by lia. rewrite <- Hb. cbn [mbind go_bind].
    rewrite u8_small by lia.
    assert (Hfl : full (JetNode a l r) = true -> full (or_new l) = true /\ full (or_new r) = true).
    { intros Hf. split; apply full_or_new.
      all: apply full_node in Hf as [[-> ->]|(? & ? & ? & ? & _)]; auto. }
    destruct (IH fuel (or_new (if b then r else l)) (depth + 1)) as (j' & HU & Hn & Hf & Hq);
      [apply or_new_not_nil|lia..|done|lia|].
    destruct b; rewrite HU; cbn [mbind go_bind]; eexists.
    all: split; [done|]; split; [done|]; split.
    1,3: intros []%Hfl; apply full_intro; auto.
    all: intros [|c q]; [by unfold updated_flag; simpl; rewrite andb_false_r, orb_false_r|].
    all: rewrite flag_node, updated_flag_cons; destruct c; simpl; try done.
    all: by rewrite Hq, flag_entered.
Qed.

Lemma Tree_Update_flags t p setActual :
  t <> JetNil -> (length p <= 216)%nat ->
  exists t', Tree_Update t (jet_id p) setActual = Ret t' /\ (full t = true -> full t' = true) /\
    (forall q, flag t' q = updated_flag t p q setActual).
Proof.
  intros Ht Hp. unfold Tree_Update. rewrite Prefix_jet_id, Depth_jet_id. cbn [mbind go_bind].
  destruct (Jet_Update_spec updateFuel t (bytes_of 27 p) setActual (Z.of_nat (length p)) 0 p)
    as (t' & -> & _ & Hf & Hq).
  - by destruct t.
  - done.
  - lia.
  - done.
  - rewrite bytes_of_length. lia.
  - by apply follows_self.
  - unfold updateFuel. lia.
  - by exists t'.
Qed.

(** *** A jet with nothing below it becomes a leaf *)

Lemma flag_leaf t q a :
  (q, a) ∈ leaves t <-> flag t q = Some a /\ flag t (q ++ [false]) = None /\ flag t (q ++ [true]) = None.
Proof.
  rewrite elem_of_leaves. revert t. induction q as [|b q IH]; intros [|x l r].
  - split; [done|]. by intros [? _].
  - cbn [app]. rewrite !flag_node, !flag_none_root. split; [by intros [= -> -> ->]|]. by intros ([= ->] & -> & ->).
  - split; [done|]. by intros [? _].
  - cbn [node_at app]. rewrite !flag_node. apply IH.
Qed.

Lemma beside_self p : beside p p = true.
Proof. induction p as [|b p IH]; [done|]. cbn. by rewrite eqb_reflx. Qed.
Lemma beside_below p b : beside p (p ++ [b]) = false.
Proof. induction p as [|c p IH]; [done|]. cbn. by rewrite eqb_reflx. Qed.
Lemma beside_length p q : beside p q = true -> (length q <= length p)%nat.
Proof.
  revert q. induction p as [|b p IH]; intros [|c q]; cbn; try done; try lia.
  destruct (Bool.eqb b c); [intros ?%IH; lia|]. intros ->%bool_decide_eq_true. cbn. lia.
Qed.

Lemma flag_length t q a : flag t q = Some a -> full t = true -> (length q <= height t)%nat.
Proof.
  revert q. induction t as [|x l IHl r IHr]; intros q; [by rewrite flag_nil|].
  rewrite flag_node. destruct q as [|b q]; [cbn; lia|]. intros Hq Hf.
  apply full_node in Hf as [[-> ->]|(Hl & Hr & Hfl & Hfr & ->)].
  { destruct b; by rewrite flag_nil in Hq. }
  cbn [length]. destruct b; [specialize (IHr _ Hq Hfr)|specialize (IHl _ Hq Hfl)]; lia.
Qed.

Lemma height_flag t n :
  full t = true -> (forall q a, flag t q = Some a -> (length q <= n)%nat) -> (height t <= n)%nat.
Proof.
  revert n. induction t as [|x l IHl r IHr]; intros n Hf Hq; [done|].
  apply full_node in Hf as [[-> ->]|(Hl & Hr & Hfl & Hfr & ->)]; [cbn; lia|].
  destruct n as [|n].
  { destruct l as [|y ? ?]; [done|]. specialize (Hq [false] y eq_refl). cbn in Hq. lia. }
  apply le_n_S, Nat.max_lub; [apply IHl|apply IHr]; try done; intros q a Ha.
  - specialize (Hq (false :: q) a). rewrite flag_node in Hq. specialize (Hq Ha). cbn in Hq. lia.
  - specialize (Hq (true :: q) a). rewrite flag_node in Hq. specialize (Hq Ha). cbn in Hq. lia.
Qed.

Lemma Tree_Update_makes_leaf t p :
  full t = true -> (height t <= 216)%nat -> (length p <= 216)%nat ->
  flag t (p ++ [false]) = None -> flag t (p ++ [true]) = None ->
  exists t', Tree_Update t (jet_id p) true = Ret t' /\ full t' = true /\ (height t' <= 216)%nat /\
    (p, true) ∈ leaves t'.
Proof.
  intros Hf Hh Hp H0 H1. destruct (Tree_Update_flags t p true) as (t' & E & Hf' & Hq);
    [by destruct t|done|]. specialize (Hf' Hf). exists t'. split; [done|]. split; [done|]. split.
  - apply height_flag; [done|]. intros q a. rewrite Hq. unfold updated_flag.
    destruct (flag t q) eqn:E'; [intros _; apply flag_length in E'; [lia|done]|].
    destruct (beside p q) eqn:Eb; [|done]. intros _. apply beside_length in Eb. lia.
  - apply flag_leaf. rewrite !Hq. unfold updated_flag. rewrite H0, H1, !beside_below.
    split; [|done]. rewrite bool_decide_true, beside_self by done. destruct (flag t p); [|done].
    by rewrite orb_true_r.
Qed.

(** [Update] makes sure a jet exists.  Every flag of the new tree is known:
    the nodes of the old tree keep theirs, the missing nodes on the way to
    the jet and their siblings appear inactive, and with [setActual] the jet
    itself becomes actual.  Fullness is preserved and the recursion ends
    within the model's fuel. *)
Theorem Tree_Update_ensures t p setActual :
  t <> JetNil -> (length p <= 216)%nat ->
  exists t', Tree_Update t (jet_id p) setActual = Ret t' /\ (full t = true -> full t' = true) /\
    (forall q, flag t' q =
       match flag t q with
       | Some a => Some (a || (setActual && bool_decide (q = p)))
       | None => if beside p q then Some (setActual && bool_decide (q = p)) else None
       end).
Proof. apply Tree_Update_flags. Qed.

Lemma Tree_Update_ensures_witness :
  exists t', Tree_Update sampleTree (jet_id [false; true]) true = Ret t' /\
    (full sampleTree = true -> full t' = true) /\
    (forall q, flag t' q =
       match flag sampleTree q with
       | Some a => Some (a || (true && bool_decide (q = [false; true])))
       | None => if beside [false; true] q then Some (true && bool_decide (q = [false; true]))
                 else None
       end).
Proof. apply (Tree_Update_ensures sampleTree [false; true] true); [done|simpl; lia]. Defined.

(** ** Leaf identifiers *)
Definition if_actual (x : list bool * bool) : option (list bool) :=
  if x.2 then Some x.1 else None.
Definition actual_paths (j : Jet) : list (list bool) := omap if_actual (leaves j).

Lemma omap_under b (xs : list (list bool * bool)) : omap if_actual (under b <$> xs) = cons b <$> omap if_actual xs.
Proof.
  induction xs as [|[p a] xs IH]; [done|]. destruct a; cbn; [f_equal|]; exact IH.
Qed.

Lemma actual_paths_node a l r :
  isNil l = false ->
  actual_paths (JetNode a l r) = (cons false <$> actual_paths l) ++ (cons true <$> actual_paths r).
Proof.
  intros Hl. unfold actual_paths. cbn [leaves]. rewrite Hl. cbn [andb].
  by rewrite omap_app, !omap_under.
Qed.

Lemma Jet_ExtractLeafIDs_spec j p ids path :
  full j = true -> (length p + height j <= 216)%nat ->
  length path = 28%nat -> Forall is_byte path ->
  (forall i, 0 <= i < 224 -> bit_at path i = nth (Z.to_nat i) p false) ->
  Jet_ExtractLeafIDs j ids path (Z.of_nat (length p)) =
  Ret (ids ++ ((fun q => jet_id (p ++ q)) <$> actual_paths j)).
Proof.
  revert p ids path. induction j as [|a l IHl r IHr]; intros p ids path Hf Hh Hlen Hb Hp; [done|].
  apply full_node in Hf as [[-> ->]|(Hl & Hr & Hfl & Hfr & Hht)].
  - cbn [height] in Hh. cbn [Jet_ExtractLeafIDs isNil andb].
    destruct a; cbn; [|by rewrite app_nil_r].
    rewrite NewJetID_ret by (done || lia). cbn. rewrite Nat2Z.id, app_nil_r.
    rewrite bits_eq; [done|]. intros i Hi. apply Hp. lia.
  - rewrite actual_paths_node by done. cbn [Jet_ExtractLeafIDs]. rewrite Hl, Hr.
    rewrite Hht in Hh. cbn [andb]. rewrite u8_small by lia.
    assert (Hside : forall b, Z.of_nat (length p) + 1 = Z.of_nat (length (p ++ [b])))
      by (intros; rewrite length_app; simpl; lia).
    rewrite (Hside false), IHl; [|done|rewrite length_app; simpl; lia|done|done|].
    2: { intros i Hi. rewrite nth_snoc, Hp by lia.
         destruct (Z.eqb_spec i (Z.of_nat (length p))) as [->|]; [|done].
         by rewrite nth_overflow by lia. }
    cbn [mbind go_bind].
    destruct (setBit_ret path (Z.of_nat (length p))) as (path' & -> & Hlen' & Hb' & Hp');
      [lia|done|]. cbn [mbind go_bind]. rewrite <- (Hside false), (Hside true).
    rewrite IHr; [|done|rewrite length_app; simpl; lia|lia|done|].
    2: { intros i Hi. rewrite nth_snoc, Hp', Hp by lia.
         by destruct (Z.eqb_spec i (Z.of_nat (length p))). }
    f_equal. rewrite <- (assoc_L (++)). f_equal. rewrite fmap_app, <- !list_fmap_compose.
    f_equal; apply list_fmap_ext; intros i q _; simpl; by rewrite <- (assoc_L (++)).
Qed.

Lemma leaf_height j p a : (p, a) ∈ leaves j -> (length p <= height j)%nat.
Proof.
  rewrite elem_of_leaves. revert p. induction j as [|x l IHl r IHr]; intros p Hn; [by destruct p|].
  destruct p as [|b p]; [simpl; lia|]. cbn [length].
  destruct (isNil l) eqn:El, (isNil r) eqn:Er.
  { destruct l, r; try done. by destruct b, p. }
  all: rewrite height_intro by auto.
  all: destruct b; [specialize (IHr _ Hn)|specialize (IHl _ Hn)]; lia.
Qed.

Lemma actual_paths_NoDup j : NoDup (actual_paths j).
Proof.
  unfold actual_paths. induction j as [|a l IHl r IHr]; simpl; [constructor|].
  destruct (isNil l && isNil r).
  - destruct a; cbn; repeat constructor. set_solver.
  - rewrite omap_app, !omap_under. apply list.NoDup_app. split_and!.
    + by apply (NoDup_fmap_2 _).
    + intros p. rewrite !list_elem_of_fmap. by intros (? & -> & _) (? & [= ] & _).
    + by apply (NoDup_fmap_2 _).
Qed.

Lemma Tree_LeafIDs_paths t :
  full t = true -> (height t <= 216)%nat ->
  Tree_LeafIDs t = Ret (jet_id <$> actual_paths t) /\
  (forall p, p ∈ actual_paths t <-> (p, true) ∈ leaves t) /\
  NoDup (jet_id <$> actual_paths t).
Proof.
  intros Hf Hh. split; [|split].
  - unfold Tree_LeafIDs. apply (Jet_ExtractLeafIDs_spec t [] []); try done.
    + apply replicate_0_bytes.
    + intros i Hi. rewrite bit_at_zeros. by destruct (Z.to_nat i).
  - intros p. unfold actual_paths. rewrite list_elem_of_omap. split.
    + intros ([q []] & Hin & [= ->]). done.
    + intros Hin. by exists (p, true).
  - assert (Hlen : forall p, p ∈ actual_paths t -> (length p <= 216)%nat).
    { intros p Hp. cut (length p <= height t)%nat; [lia|].
      unfold actual_paths in Hp. rewrite list_elem_of_omap in Hp.
      destruct Hp as ([q b] & Hin & E). destruct b; [|done]. injection E as ->. by eapply leaf_height. }
    apply NoDup_fmap_2_strong; [|apply actual_paths_NoDup].
    intros p q Hp Hq. apply jet_id_inj; auto.
Qed.

(** [LeafIDs] is the list of the actual leaves of the tree, from left to
    right, without repetition. *)
Theorem Tree_LeafIDs_actual t :
  full t = true -> (height t <= 216)%nat ->
  Tree_LeafIDs t = Ret (jet_id <$> actual_paths t) /\
  (forall p, p ∈ actual_paths t <-> (p, true) ∈ leaves t) /\
  NoDup (jet_id <$> actual_paths t).
Proof. apply Tree_LeafIDs_paths. Qed.

Lemma Tree_LeafIDs_actual_witness :
  Tree_LeafIDs sampleTree = Ret (jet_id <$> [[true; false]; [true; true]]) /\
  (forall p, p ∈ actual_paths sampleTree <-> (p, true) ∈ leaves sampleTree) /\
  NoDup (jet_id <$> actual_paths sampleTree).
Proof. apply (Tree_LeafIDs_actual sampleTree); [done|simpl; lia]. Defined.

(** ** The store *)
Definition tree_of (s : Store) (pulse : Z) : Tree := (ltreeForPulse s pulse).1.

Lemma tree_of_insert s pulse t pn :
  tree_of (mkStore (<[pulse := t]> (trees s))) pn = if decide (pn = pulse) then t else tree_of s pn.
Proof.
  unfold tree_of, ltreeForPulse. simpl. destruct decide as [->|].
  - by rewrite lookup_insert_eq.
  - rewrite lookup_insert_ne by done. by destruct (trees s !! pn).
Qed.

Lemma ltreeForPulse_eq s pulse :
  exists s', ltreeForPulse s pulse = (tree_of s pulse, s') /\
    forall pn, tree_of s' pn = tree_of s pn.
Proof.
  unfold tree_of at 1, ltreeForPulse at 1 2. destruct (trees s !! pulse) eqn:E.
  - by exists s.
  - eexists. split; [done|]. intros pn. rewrite tree_of_insert. destruct decide as [->|]; [|done].
    unfold tree_of, ltreeForPulse. by rewrite E.
Qed.

Lemma follows_snoc v depth p :
  follows v depth p -> follows v depth (p ++ [bit_at v (depth + Z.of_nat (length p))]).
Proof.
  revert depth. induction p as [|b p IH]; intros depth; simpl.
  - intros _. by rewrite Z.add_0_r.
  - intros [-> Hf]. split; [done|]. specialize (IH _ Hf).
    replace (depth + Z.of_nat (S (length p))) with (depth + 1 + Z.of_nat (length p)) by lia. done.
Qed.

(** After a jet of a pulse was split, a record of that jet is found in the
    child its next hash bit selects, marked actual, and the trees of every
    other pulse are what they were. *)
Theorem Store_Split_ForID s pulse p a recordID :
  full (tree_of s pulse) = true -> (height (tree_of s pulse) < 216)%nat ->
  (p, a) ∈ leaves (tree_of s pulse) ->
  Local_wf recordID -> (Local_Pulse recordID =? pulse_Jet) = false ->
  follows (hash recordID) 0 p ->
  exists s', Store_Split s pulse (jet_id p) =
      Ret (s', Good (jet_id (p ++ [false]), jet_id (p ++ [true]))) /\
    (exists s'', Store_ForID s' pulse recordID =
      Ret (jet_id (p ++ [bit_at (hash recordID) (Z.of_nat (length p))]), true, s'')) /\
    forall pn, pn <> pulse -> tree_of s' pn = tree_of s pn.
Proof.
  intros Hf Hh Hin Hwf Hp Hfo.
  pose proof (leaf_height _ _ _ Hin) as Hle.
  destruct (ltreeForPulse_eq s pulse) as (s1 & E1 & Hs1).
  unfold Store_Split. rewrite E1.
  destruct (Tree_Split_eq _ p Hf Hh) as [HS _]; [lia|]. rewrite (HS a Hin). cbn [mbind go_bind fst snd].
  destruct (full_grow _ p a Hf Hin) as [Hf' Hh'].
  set (t' := update_at (tree_of s pulse) p grow) in *.
  exists (mkStore (<[pulse := t']> (trees s1))). split; [done|]. split.
  - unfold Store_ForID.
    destruct (ltreeForPulse_eq (mkStore (<[pulse := t']> (trees s1))) pulse) as (s2 & E2 & _).
    rewrite E2, tree_of_insert, decide_True by done. exists s2.
    destruct (Tree_Find_jet t' recordID) as (q & b & -> & Hq & Hfq); [done|lia|done|done|].
    destruct (leaf_unique t' (hash recordID) 0 q (p ++ [bit_at (hash recordID) (Z.of_nat (length p))]) b true)
      as [<- <-]; [done| |done| |done].
    + apply (leaves_grow _ p a); [done|]. right. split; [done|by eexists].
    + by apply (follows_snoc (hash recordID) 0 p).
  - intros pn Hne. by rewrite tree_of_insert, decide_False.
Qed.

Lemma Store_Split_ForID_witness :
  exists s', Store_Split (mkStore {[65537 := sampleTree]}) 65537 (jet_id [true; false]) =
      Ret (s', Good (jet_id [true; false; false], jet_id [true; false; true])) /\
    (exists s'', Store_ForID s' 65537 sampleLocal =
      Ret (jet_id [true; false; true], true, s'')) /\
    forall pn, pn <> 65537 -> tree_of s' pn = tree_of (mkStore {[65537 := sampleTree]}) pn.
Proof.
  apply (Store_Split_ForID (mkStore {[65537 := sampleTree]}) 65537 [true; false] true sampleLocal).
  - by vm_compute.
  - apply Nat.ltb_lt. by vm_compute.
  - apply elem_of_leaves. by vm_compute.
  - exact sampleLocal_wf.
  - by vm_compute.
  - by vm_compute.
Defined.

(** [Clone] copies one pulse's tree over another's: same leaves, flags kept
    or cleared. *)
Lemma leaves_Clone j keep :
  leaves (Jet_Clone j keep) = (fun x => (x.1, keep && x.2)) <$> leaves j.
Proof.
  induction j as [|a l IHl r IHr]; [done|]. cbn [Jet_Clone leaves].
  assert (Hn : forall x, isNil (Jet_Clone x keep) = isNil x) by (by intros []).
  rewrite !Hn. destruct (isNil l && isNil r); [done|].
  rewrite IHl, IHr, fmap_app, <- !list_fmap_compose. done.
Qed.

Lemma Store_Clone_tree s from to keep pn :
  tree_of (Store_Clone s from to keep) pn =
  if decide (pn = to) then Tree_Clone (tree_of s from) keep else tree_of s pn.
Proof.
  destruct (ltreeForPulse_eq s from) as (s' & E & Hs). unfold Store_Clone. rewrite E.
  rewrite tree_of_insert. by destruct decide.
Qed.
