(* ===== verification/JetKeeper.v ===== *)
(** * The heavy node's jet keeper (src/ledger/heavy/executor)

    Confirmations of jets per pulse ([JetInfo], jetinfo.go) and the keeper
    that advances the top sync pulse (badger_jetkeeper.go).  The database is
    a store whose reads and writes succeed; its values are kept decoded.  The
    pulse calculator and the jet storage are interfaces: [Backwards] and
    [All] are parameters. *)
From S2P Require Import Prelude Pulse Reference Jet.

Record JetInfo : Type := mkInfo {
  JetID : Local;
  HotConfirmed : list Local;
  DropConfirmed : bool;
  BackupConfirmed : bool;
  Split : bool;
  IsSplitSet : bool;
}.

#[export] Instance JetInfo_eq_dec : EqDecision JetInfo.
Proof. solve_decision. Defined.

Definition newInfo : JetInfo := mkInfo emptyLocal [] false false false false.

(** ** jetinfo.go: each method is the receiver afterwards and the error *)
Definition updateSplit (j : JetInfo) (split : bool) : JetInfo * option error :=
  if negb (IsSplitSet j) then
    (mkInfo (JetID j) (HotConfirmed j) (DropConfirmed j) (BackupConfirmed j) split true, None)
  else if negb (Bool.eqb (Split j) split) then (j, Some (Errorf "try to change split"))
  else (j, None).

Definition addDrop (j : JetInfo) (newJetID : Local) (split : bool) : JetInfo * option error :=
  if DropConfirmed j then (j, Some (Errorf "addDrop. try to rewrite drop confirmation"))
  else
    match updateSplit j split with
    | (j, Some e) => (j, Some (Wrap e "updateSplit return error"))
    | (j, None) =>
        (mkInfo newJetID (HotConfirmed j) true (BackupConfirmed j) (Split j) (IsSplitSet j), None)
    end.

Definition checkIncomingHot (j : JetInfo) (incomingJetID : Local) : option error :=
  match HotConfirmed j with
  | _ :: _ :: _ => Some (Errorf "num hot confirmations exceeds 2")
  | [h] => if Local_Equal h incomingJetID
           then Some (Errorf "try add already existing hot confirmation") else None
  | [] => None
  end.

Definition addBackup (j : JetInfo) : JetInfo :=
  mkInfo (JetID j) (HotConfirmed j) (DropConfirmed j) true (Split j) (IsSplitSet j).

Definition addHot (j : JetInfo) (newJetID parentID : Local) (split : bool)
    : JetInfo * option error :=
  match checkIncomingHot j newJetID with
  | Some e => (j, Some (Wrap e "incorrect incoming jet"))
  | None =>
      let j := mkInfo parentID (HotConfirmed j ++ [newJetID]) (DropConfirmed j)
                      (BackupConfirmed j) (Split j) (IsSplitSet j) in
      match updateSplit j split with
      | (j, Some e) => (j, Some (Wrap e "updateSplit return error"))
      | (j, None) => (j, None)
      end
  end.

Definition isConfirmed (j : JetInfo) (checkBackup : bool) : go bool :=
  if checkBackup && negb (BackupConfirmed j) then Ret false
  else if negb (DropConfirmed j) then Ret false
  else
    match HotConfirmed j with
    | [] => Ret false
    | h0 :: hs =>
        if negb (IsSplitSet j) then Ret false
        else if negb (Split j) then Ret (Local_Equal h0 (JetID j))
        else
          match hs with
          | [h1] =>
              parentFirst ← Parent h0;
              parentSecond ← Parent h1;
              Ret (Local_Equal parentFirst parentSecond && Local_Equal parentSecond (JetID j))
          | _ => Ret false
          end
    end.

(** ** badger_jetkeeper.go *)
Record keeper : Type := mkKeeper {
  db_jets : gmap Z (list JetInfo);
  db_sync : option Z;
}.

Definition topSyncPulse (jk : keeper) : Z := default GenesisPulseNumber (db_sync jk).

Definition get (jk : keeper) (pn : Z) : result (list JetInfo) :=
  match db_jets jk !! pn with Some js => Good js | None => Fail (Errorf "value not found") end.
Definition set (jk : keeper) (pn : Z) (js : list JetInfo) : keeper :=
  mkKeeper (<[pn := js]> (db_jets jk)) (db_sync jk).
Definition updateSyncPulse (jk : keeper) (pn : Z) : keeper := mkKeeper (db_jets jk) (Some pn).
Definition all (jk : keeper) (pulse : Z) : list JetInfo := default [] (db_jets jk !! pulse).

(** The index of the info of a jet, appended when there is none. *)
Definition getForJet (jk : keeper) (pulse : Z) (jet : Local) : nat * list JetInfo :=
  let jets := all jk pulse in
  match list_find (fun j => Local_Equal (JetID j) jet = true) jets with
  | Some (i, _) => (i, jets)
  | None => (length jets, jets ++ [newInfo])
  end.

Definition updateHot (jk : keeper) (pulse : Z) (id : Local) (split : bool)
    : go (keeper * option error) :=
  parentID ← (if split then Parent id else Ret id);
  let '(idx, jets) := getForJet jk pulse parentID in
  match addHot (nth idx jets newInfo) id parentID split with
  | (_, Some e) => Ret (jk, Some (Wrap e "can't addHot"))
  | (j, None) => Ret (set jk pulse (<[idx := j]> jets), None)
  end.

Definition updateDrop (jk : keeper) (pulse : Z) (id : Local) (split : bool)
    : keeper * option error :=
  let '(idx, jets) := getForJet jk pulse id in
  match addDrop (nth idx jets newInfo) id split with
  | (_, Some e) => (jk, Some (Wrap e "can't addHot"))
  | (j, None) => (set jk pulse (<[idx := j]> jets), None)
  end.

Definition updateBackup (jk : keeper) (pulse : Z) : keeper * option error :=
  let jets := all jk pulse in
  if (length jets =? 0)%nat
  then (jk, Some (Errorf "Received backup confirmation before replication data"))
  else (set jk pulse (addBackup <$> jets), None).

Fixpoint infoToSet_loop (r : gset Local) (s : list JetInfo) (checkBackup : bool)
    : go (option (gset Local)) :=
  match s with
  | [] => Ret (Some r)
  | el :: s' =>
      c ← isConfirmed el checkBackup;
      if c : bool then infoToSet_loop ({[JetID el]} ∪ r) s' checkBackup else Ret None
  end.

Definition infoToSet (s : list JetInfo) (checkBackup : bool) : go (gset Local * bool) :=
  r ← infoToSet_loop ∅ s checkBackup;
  match r with
  | None => Ret (∅, false)
  | Some r => Ret (r, negb (size r =? 0)%nat)
  end.

Fixpoint syncJets_loop (acc : list Local) (jets : list JetInfo) : go (result (list Local)) :=
  match jets with
  | [] => Ret (Good acc)
  | ji :: jets' =>
      if negb (IsSplitSet ji)
      then Ret (Fail (Errorf "IsSplitJet must be set before calling for isConfirmed"))
      else if Split ji then
        lr ← Siblings (JetID ji);
        syncJets_loop (acc ++ [lr.1; lr.2]) jets'
      else syncJets_loop (acc ++ [JetID ji]) jets'
  end.

Definition getTopSyncJets (jk : keeper) : go (result (list Local)) :=
  let top := topSyncPulse jk in
  if top =? MinTimePulse then Ret (Good [ZeroJetID])
  else
    match get jk top with
    | Fail e => Ret (Fail (Wrap e "can't getTopSyncJets"))
    | Good jets => syncJets_loop [] jets
    end.

Definition compareJets (what : list Local) (actualJetsSet : gset Local) : result bool :=
  if negb (size actualJetsSet =? length what)%nat then Good false
  else if forallb (fun expID => bool_decide (expID ∈ actualJetsSet)) what then Good true
  else Fail (Errorf "jet sets are different. it's too bad. ").

Section Keeper.
(** [pulses.Backwards(pulse, 1)] and [jetTrees.All(pulse)]. *)
Context (Backwards : Z -> result Z) (All : Z -> list Local).

Definition checkPulseConsistency (jk : keeper) (pulse : Z) (checkBackup : bool) : go bool :=
  match Backwards pulse with
  | Fail _ => Ret false
  | Good prev =>
      if negb (prev =? topSyncPulse jk) then Ret false
      else
        r ← getTopSyncJets jk;
        match r with
        | Fail _ => Panic "can't get jets for top sync pulse"
        | Good topSyncJets =>
            r ← infoToSet (all jk pulse) checkBackup;
            let '(actualJetsSet, allConfirmed) := r in
            if negb allConfirmed then Ret false
            else
              match compareJets topSyncJets actualJetsSet with
              | Fail _ | Good false => Ret false
              | Good true =>
                  match compareJets (All pulse) actualJetsSet with
                  | Fail _ | Good false => Ret false
                  | Good true => Ret true
                  end
              end
        end
  end.

Definition updateTopSyncPulse (jk : keeper) (pn : Z) : go keeper :=
  c ← checkPulseConsistency jk pn true;
  Ret (if c : bool then updateSyncPulse jk pn else jk).

Definition AddHotConfirmation (jk : keeper) (pn : Z) (id : Local) (split : bool)
    : go (keeper * option error) :=
  r ← updateHot jk pn id split;
  Ret (r.1, option_map (fun e => Wrap e "failed to save updated jets") r.2).

Definition AddDropConfirmation (jk : keeper) (pn : Z) (id : Local) (split : bool)
    : go (keeper * option error) :=
  let r := updateDrop jk pn id split in
  Ret (r.1, option_map (fun e => Wrap e "AddDropConfirmation. failed to save updated jets") r.2).

Definition AddBackupConfirmation (jk : keeper) (pn : Z) : go (keeper * option error) :=
  match updateBackup jk pn with
  | (jk, Some e) => Ret (jk, Some (Wrap e "AddDropConfirmation. failed to save updated jets"))
  | (jk, None) => jk' ← updateTopSyncPulse jk pn; Ret (jk', None)
  end.

Definition HasAllJetConfirms (jk : keeper) (pulse : Z) : go bool :=
  if pulse <=? topSyncPulse jk then Ret true
  else checkPulseConsistency jk pulse false.

Definition TruncateHead (jk : keeper) (from : Z) : keeper * option error :=
  if from <=? topSyncPulse jk then (jk, Some (Errorf "try to truncate top sync pulse"))
  else (mkKeeper (filter (fun kv => kv.1 < from) (db_jets jk)) (db_sync jk), None).

(** ** Histories of the keeper: any sequence of its mutating calls *)
Inductive step (jk jk' : keeper) : Prop :=
  | step_hot pn id split e : AddHotConfirmation jk pn id split = Ret (jk', e) -> step jk jk'
  | step_drop pn id split e : AddDropConfirmation jk pn id split = Ret (jk', e) -> step jk jk'
  | step_backup pn e : AddBackupConfirmation jk pn = Ret (jk', e) -> step jk jk'
  | step_truncate from e : TruncateHead jk from = (jk', e) -> step jk jk'.
End Keeper.

(** ** Invariants *)
Record info_ok (j : JetInfo) : Prop := {
  ok_hots : (length (HotConfirmed j) <= 2)%nat;
  ok_nodup : NoDup (HotConfirmed j);
  ok_parent : forall h, h ∈ HotConfirmed j ->
    if Split j then Parent h = Ret (JetID j) else h = JetID j;
  ok_set : IsSplitSet j = DropConfirmed j || negb (bool_decide (HotConfirmed j = []));
}.

Definition keeper_ok (jk : keeper) : Prop :=
  forall pn js, db_jets jk !! pn = Some js ->
    js <> [] /\ Forall info_ok js /\ NoDup (JetID <$> js).

Lemma Local_Equal_iff a b : Local_Equal a b = true <-> a = b.
Proof.
  destruct a as [p h], b as [q k]. unfold Local_Equal. simpl.
  rewrite andb_true_iff, Z.eqb_eq, bool_decide_eq_true.
  split; [by intros [-> ->]|by intros [= -> ->]].
Qed.

(** The info a jet's confirmation is applied to: the existing one, or a
    fresh one at the end. *)
Lemma getForJet_spec jk pulse jet :
  let '(idx, jets) := getForJet jk pulse jet in
  (exists j, all jk pulse !! idx = Some j /\ JetID j = jet /\ jets = all jk pulse /\
     nth idx jets newInfo = j) \/
  ((jet ∉ (JetID <$> all jk pulse)) /\ idx = length (all jk pulse) /\
   jets = all jk pulse ++ [newInfo] /\ nth idx jets newInfo = newInfo).
Proof.
  unfold getForJet. destruct (list_find _ _) as [[i j]|] eqn:E.
  - apply list_find_Some in E as (Hi & He%Local_Equal_iff & _). left. exists j.
    split_and!; [done..|]. by rewrite nth_lookup, Hi.
  - apply list_find_None in E. right. split_and!; try done.
    + intros (j & -> & Hj)%list_elem_of_fmap. rewrite list.Forall_forall in E.
      apply (E j Hj). by apply Local_Equal_iff.
    + rewrite app_nth2, Nat.sub_diag by lia. done.
Qed.

Lemma newInfo_ok : info_ok newInfo.
Proof. split; simpl; [lia|constructor|set_solver|done]. Qed.

(** Replacing the info [getForJet] found by one of the same jet. *)
Lemma replace_ok jk pulse jet idx jets j' :
  keeper_ok jk -> getForJet jk pulse jet = (idx, jets) ->
  info_ok j' -> JetID j' = jet -> keeper_ok (set jk pulse (<[idx := j']> jets)).
Proof.
  intros Hok E Hj Hid pn js. unfold set. simpl. destruct (decide (pn = pulse)) as [->|Hne].
  2: { rewrite lookup_insert_ne by done. apply Hok. }
  rewrite lookup_insert_eq. intros [= <-].
  assert (Hall : Forall info_ok (all jk pulse) /\ NoDup (JetID <$> all jk pulse)).
  { unfold all. destruct (db_jets jk !! pulse) eqn:El; simpl; [by apply Hok in El as (_ & ? & ?)|].
    split; constructor. }
  destruct Hall as [HF HN]. pose proof (getForJet_spec jk pulse jet) as HS. rewrite E in HS.
  destruct HS as [(j & Hi & Hjid & -> & _)|(Hnot & -> & -> & _)].
  - split_and!.
    + intros E0. apply (f_equal length) in E0. rewrite length_insert in E0.
      apply lookup_lt_Some in Hi. simpl in E0. lia.
    + by apply Forall_insert.
    + rewrite list_fmap_insert, Hid, <- Hjid, list_insert_id; [done|].
      by rewrite list_lookup_fmap, Hi.
  - replace (length (all jk pulse)) with (length (all jk pulse) + 0)%nat by lia.
    rewrite insert_app_r. cbn [insert list_insert]. split_and!.
    + by destruct (all jk pulse).
    + apply Forall_app. split; [done|by constructor].
    + rewrite fmap_app. apply list.NoDup_app. split_and!; [done| |].
      * intros x Hx Hx'. simpl in Hx'. apply list_elem_of_singleton in Hx' as ->. by rewrite Hid in Hx.
      * simpl. constructor; [by intros ?%elem_of_nil|constructor].
Qed.

Lemma found_ok jk pulse jet idx jets :
  keeper_ok jk -> getForJet jk pulse jet = (idx, jets) ->
  info_ok (nth idx jets newInfo) /\
  (JetID (nth idx jets newInfo) = jet \/ nth idx jets newInfo = newInfo).
Proof.
  intros Hok E. pose proof (getForJet_spec jk pulse jet) as HS. rewrite E in HS.
  destruct HS as [(j & Hi & Hjid & -> & ->)|(_ & -> & -> & ->)].
  - split; [|by left]. unfold all in Hi. destruct (db_jets jk !! pulse) eqn:El; [|done].
    apply Hok in El as (_ & HF & _). by eapply Forall_lookup_1.
  - split; [apply newInfo_ok|by right].
Qed.

Lemma addDrop_ok j jet split j' :
  info_ok j -> (JetID j = jet \/ j = newInfo) -> addDrop j jet split = (j', None) ->
  info_ok j' /\ JetID j' = jet.
Proof.
  intros [H1 H2 H3 H4] Hj. unfold addDrop, updateSplit.
  destruct (DropConfirmed j) eqn:Ed; [done|].
  destruct (IsSplitSet j) eqn:Es; simpl.
  - destruct (Bool.eqb (Split j) split); simpl; [|done]. intros [= <-]. simpl.
    split; [|done]. split; simpl; try done. destruct Hj as [<-| ->]; [done|set_solver].
  - intros [= <-]. simpl. split; [|done]. split; simpl; try done.
    simpl in H4. symmetry in H4. apply negb_false_iff, bool_decide_eq_true in H4.
    rewrite H4. set_solver.
Qed.

Lemma addHot_ok j id parentID (split : bool) j' :
  info_ok j -> (JetID j = parentID \/ j = newInfo) ->
  (if split then Parent id = Ret parentID else id = parentID) ->
  addHot j id parentID split = (j', None) -> info_ok j' /\ JetID j' = parentID.
Proof.
  intros [H1 H2 H3 H4] Hj Hp. unfold addHot, updateSplit, checkIncomingHot.
  destruct (HotConfirmed j) as [|h [|? ?]] eqn:Eh; [| |done].
  - (* the first confirmation *)
    cbn [app]. destruct (IsSplitSet j) eqn:Es; simpl.
    + destruct (Bool.eqb (Split j) split) eqn:Eb; simpl; [|done].
      apply Bool.eqb_prop in Eb. intros [= <-]. simpl. split; [|done].
      split; simpl; [lia|apply NoDup_singleton| |by rewrite orb_true_r].
      intros h ->%list_elem_of_singleton. by rewrite Eb.
    + intros [= <-]. simpl. split; [|done].
      split; simpl; [lia|apply NoDup_singleton| |by rewrite orb_true_r].
      by intros h ->%list_elem_of_singleton.
  - (* the second *)
    destruct (Local_Equal h id) eqn:El; [done|].
    assert (Hne : h <> id) by (intros Heq%Local_Equal_iff; congruence).
    destruct Hj as [Hj| ->]; [|done]. simpl in H4. rewrite orb_true_r in H4.
    cbn [app]. rewrite H4. simpl. destruct (Bool.eqb (Split j) split) eqn:Eb; simpl; [|done].
    apply Bool.eqb_prop in Eb. intros [= <-]. simpl. split; [|done].
    split; simpl; [lia| | |by rewrite orb_true_r].
    + constructor; [|apply NoDup_singleton]. intros ?%list_elem_of_singleton. congruence.
    + intros x. rewrite elem_of_cons, list_elem_of_singleton. intros [->| ->].
      * rewrite <- Hj. apply H3. by apply list_elem_of_singleton.
      * by rewrite Eb.
Qed.

Lemma addBackup_ok j : info_ok j -> info_ok (addBackup j).
Proof. by intros []. Qed.

Lemma updateHot_ok jk pulse id split jk' e :
  keeper_ok jk -> updateHot jk pulse id split = Ret (jk', e) -> keeper_ok jk'.
Proof.
  intros Hok. unfold updateHot. intros H. go_step H.
  destruct (getForJet jk pulse v) as [idx jets] eqn:Eg.
  destruct (found_ok _ _ _ _ _ Hok Eg) as [Hj Hid].
  destruct (addHot (nth idx jets newInfo) id v split) as [j [er|]] eqn:Ea;
    injection H as <- _; [done|].
  eapply addHot_ok in Ea as [Hj' Hid']; [|done..|by destruct split; [|injection E]].
  by eapply replace_ok.
Qed.

Lemma updateDrop_ok jk pulse id split : keeper_ok jk -> keeper_ok (updateDrop jk pulse id split).1.
Proof.
  intros Hok. unfold updateDrop. destruct (getForJet jk pulse id) as [idx jets] eqn:Eg.
  destruct (found_ok _ _ _ _ _ Hok Eg) as [Hj Hid].
  destruct (addDrop (nth idx jets newInfo) id split) as [j [er|]] eqn:Ea; [done|].
  eapply addDrop_ok in Ea as [Hj' Hid']; [|done..]. by eapply replace_ok.
Qed.

Lemma updateBackup_ok jk pulse : keeper_ok jk -> keeper_ok (updateBackup jk pulse).1.
Proof.
  intros Hok. unfold updateBackup. destruct (Nat.eqb_spec (length (all jk pulse)) 0); [done|].
  intros pn js. simpl. destruct (decide (pn = pulse)) as [->|Hne].
  2: { rewrite lookup_insert_ne by done. apply Hok. }
  rewrite lookup_insert_eq. intros [= <-]. unfold all in *.
  destruct (db_jets jk !! pulse) as [js|] eqn:El; simpl in *; [|done].
  apply Hok in El as (Hne & HF & HN). split_and!.
  - by destruct js.
  - apply Forall_fmap. eapply Forall_impl; [|exact HF]. intros j. apply addBackup_ok.
  - by rewrite <- list_fmap_compose.
Qed.

Lemma TruncateHead_ok jk from : keeper_ok jk -> keeper_ok (TruncateHead jk from).1.
Proof.
  intros Hok. unfold TruncateHead. destruct (_ <=? _); [done|].
  intros pn js. simpl. intros [H _]%map_lookup_filter_Some. by apply Hok in H.
Qed.

Lemma keeper_ok_sync jk s : keeper_ok jk -> keeper_ok (mkKeeper (db_jets jk) s).
Proof. done. Qed.

Section KeeperSteps.
Context (Backwards : Z -> result Z) (All : Z -> list Local).
Abbreviation step := (step Backwards All).

Lemma updateTopSyncPulse_jets jk pn jk' :
  updateTopSyncPulse Backwards All jk pn = Ret jk' ->
  db_jets jk' = db_jets jk /\
  (jk' = jk \/
   (topSyncPulse jk' = pn /\ checkPulseConsistency Backwards All jk pn true = Ret true)).
Proof.
  unfold updateTopSyncPulse. intros H. go_step H. go_step H. destruct v; subst; simpl; auto.
Qed.

Lemma step_ok jk jk' : keeper_ok jk -> step jk jk' -> keeper_ok jk'.
Proof.
  intros Hok [pn id split e H|pn id split e H|pn e H|from e H].
  - unfold AddHotConfirmation in H. go_step H. injection H as <- _.
    destruct v. by eapply updateHot_ok.
  - injection H as <- _. by apply updateDrop_ok.
  - unfold AddBackupConfirmation in H.
    pose proof (updateBackup_ok jk pn Hok) as HB.
    destruct (updateBackup jk pn) as [jk1 [er|]]; [by injection H as <- _|].
    go_step H. injection H as <- _.
    apply updateTopSyncPulse_jets in E as [Ej _]. intros p js. rewrite Ej. apply HB.
  - pose proof (TruncateHead_ok jk from Hok) as HT. by rewrite H in HT.
Qed.

(** C37: In every reachable state each pulse's infos are for distinct jets, no
    info holds more than two hot confirmations or one twice, every hot
    confirmation belongs to the info's jet (its parent when the jet was
    split), and the split flag is known as soon as anything is confirmed. *)
Theorem keeper_invariant jk :
  reach step (mkKeeper ∅ None) jk -> keeper_ok jk.
Proof.
  apply reach_invariant; [|apply step_ok]. intros pn js. simpl. by rewrite lookup_empty.
Qed.
End KeeperSteps.

(** ** When a pulse is consistent *)
Lemma infoToSet_loop_spec r s cb r' :
  infoToSet_loop r s cb = Ret (Some r') <->
  Forall (fun j => isConfirmed j cb = Ret true) s /\ r' = r ∪ list_to_set (JetID <$> s).
Proof.
  revert r. induction s as [|j s IH]; intros r.
  - simpl. rewrite (right_id_L ∅ (∪)). split; [by intros [= ->]|]. by intros [_ ->].
  - cbn [infoToSet_loop].
    rewrite go_bind_ret, list.Forall_cons.
    assert (E : r ∪ list_to_set (JetID <$> j :: s) = ({[JetID j]} ∪ r) ∪ list_to_set (JetID <$> s))
      by (simpl; by rewrite (assoc_L (∪)), (comm_L (∪) r)).
    rewrite E. split.
    + intros (c & Hc & Hr). destruct c; [|done]. apply IH in Hr as [HF ->]. done.
    + intros ([Hc HF] & ->). exists true. split; [done|]. by apply IH.
Qed.

Lemma infoToSet_true s cb r :
  infoToSet s cb = Ret (r, true) <->
  s <> [] /\ Forall (fun j => isConfirmed j cb = Ret true) s /\ r = list_to_set (JetID <$> s).
Proof.
  unfold infoToSet. rewrite go_bind_ret. split.
  - intros ([r'|] & H & E); [|done]. injection E as -> Hs. apply infoToSet_loop_spec in H as [HF ->].
    rewrite (left_id_L ∅ (∪)) in *. split; [|done]. intros ->. done.
  - intros (Hne & HF & ->). exists (Some (list_to_set (JetID <$> s))). split.
    { apply infoToSet_loop_spec. by rewrite (left_id_L ∅ (∪)). }
    do 2 f_equal. destruct s as [|j s]; [done|].
    destruct (Nat.eqb_spec (size (list_to_set (JetID <$> j :: s) : gset Local)) 0) as [E|]; [|done].
    apply size_empty_inv in E.
    assert (Hin : JetID j ∈ (list_to_set (JetID <$> j :: s) : gset Local))
      by (apply elem_of_list_to_set; left).
    by apply E in Hin.
Qed.

(** The two sets of jets are compared by size and inclusion. *)
Definition covered (what : list Local) (s : gset Local) : Prop :=
  length what = size s /\ forall x, x ∈ what -> x ∈ s.

Lemma compareJets_true what s : compareJets what s = Good true <-> covered what s.
Proof.
  unfold compareJets, covered. destruct (Nat.eqb_spec (size s) (length what)) as [E|E]; simpl.
  2: { split; [done|]. intros [? _]. congruence. }
  destruct (forallb _ what) eqn:F.
  - split; [|done]. intros _. split; [done|]. intros x Hx.
    apply list_elem_of_In in Hx. eapply forallb_forall in F; [|exact Hx]. by apply bool_decide_eq_true in F.
  - split; [done|]. intros [_ Hall]. exfalso. apply not_true_iff_false in F. apply F.
    apply forallb_forall. intros x Hx%list_elem_of_In. by apply bool_decide_eq_true, Hall.
Qed.

(** Without repetitions that is equality. *)
Lemma covered_eq what s : NoDup what -> covered what s -> list_to_set what = s.
Proof.
  intros HN [Hl Hin]. apply set_subseteq_size_eq.
  - intros x Hx. apply Hin. by apply elem_of_list_to_set in Hx.
  - rewrite size_list_to_set by done. lia.
Qed.

Lemma checkPulseConsistency_true Backwards All jk pn cb :
  checkPulseConsistency Backwards All jk pn cb = Ret true <->
  Backwards pn = Good (topSyncPulse jk) /\
  exists expected, getTopSyncJets jk = Ret (Good expected) /\
    all jk pn <> [] /\ Forall (fun j => isConfirmed j cb = Ret true) (all jk pn) /\
    covered expected (list_to_set (JetID <$> all jk pn)) /\
    covered (All pn) (list_to_set (JetID <$> all jk pn)).
Proof.
  unfold checkPulseConsistency. destruct (Backwards pn) as [prev|]; [|split; [done|by intros [? _]]].
  destruct (Z.eqb_spec prev (topSyncPulse jk)) as [->|Hne]; simpl.
  2: { split; [done|]. intros [[= ?] _]. congruence. }
  rewrite go_bind_ret. split.
  - intros ([expected|] & Eg & H); [|done]. split; [done|]. exists expected. split; [done|].
    go_step H. destruct v as [s []]; simpl in H; [|done].
    apply infoToSet_true in E as (H1 & H2 & ->).
    destruct (compareJets expected _) as [[]|] eqn:E1; [|done..].
    destruct (compareJets (All pn) _) as [[]|] eqn:E2; [|done..].
    apply compareJets_true in E1, E2. done.
  - intros (_ & expected & Eg & H1 & H2 & H3 & H4). exists (Good expected). split; [done|].
    apply compareJets_true in H3, H4.
    assert (Hs : infoToSet (all jk pn) cb = Ret (list_to_set (JetID <$> all jk pn), true))
      by (by apply infoToSet_true).
    rewrite Hs. cbn [mbind go_bind negb]. by rewrite H3, H4.
Qed.

(** ** The top sync pulse *)
Section SyncPulse.
Context (Backwards : Z -> result Z) (All : Z -> list Local).
Abbreviation step := (step Backwards All).

(** A pulse is complete: it follows the top sync pulse, every jet of it is
    confirmed, and its jets are those expected from the top sync pulse and
    those of its jet tree. *)
Definition complete (jk : keeper) (pn : Z) (checkBackup : bool) : Prop :=
  Backwards pn = Good (topSyncPulse jk) /\
  exists expected, getTopSyncJets jk = Ret (Good expected) /\
    all jk pn <> [] /\ Forall (fun j => isConfirmed j checkBackup = Ret true) (all jk pn) /\
    covered expected (list_to_set (JetID <$> all jk pn)) /\
    covered (All pn) (list_to_set (JetID <$> all jk pn)).

(** A backup confirmation marks every info of the pulse and moves the top
    sync pulse to it exactly when the pulse is then complete. *)
Theorem AddBackupConfirmation_sync jk pn jk' :
  AddBackupConfirmation Backwards All jk pn = Ret (jk', None) ->
  let jk1 := mkKeeper (<[pn := addBackup <$> all jk pn]> (db_jets jk)) (db_sync jk) in
  all jk pn <> [] /\ db_jets jk' = db_jets jk1 /\
  (complete jk1 pn true -> db_sync jk' = Some pn) /\
  (~ complete jk1 pn true -> db_sync jk' = db_sync jk).
Proof.
  unfold AddBackupConfirmation, updateBackup.
  destruct (Nat.eqb_spec (length (all jk pn)) 0) as [E|E]; [done|].
  intros H. cbv zeta. fold (set jk pn (addBackup <$> all jk pn)).
  set (jk1 := set jk pn (addBackup <$> all jk pn)) in *.
  go_step H. injection H as <-.
  unfold updateTopSyncPulse in E0. go_step E0. go_step E0.
  split; [by intros Hn; rewrite Hn in E|].
  destruct v0; subst v; (split; [done|]); split; intros Hc; try done.
  - exfalso. by apply Hc, checkPulseConsistency_true.
  - exfalso. apply checkPulseConsistency_true in Hc. congruence.
Qed.

Lemma TruncateHead_sync jk from : db_sync (TruncateHead jk from).1 = db_sync jk.
Proof. unfold TruncateHead. by destruct (_ <=? _). Qed.

Lemma updateHot_sync jk pn id split jk' e :
  updateHot jk pn id split = Ret (jk', e) -> db_sync jk' = db_sync jk.
Proof.
  unfold updateHot. intros H. go_step H. destruct (getForJet jk pn v) as [idx jets].
  by destruct (addHot _ _ _ _) as [j [er|]]; injection H as <- _.
Qed.

Lemma updateDrop_sync jk pn id split : db_sync (updateDrop jk pn id split).1 = db_sync jk.
Proof.
  unfold updateDrop. destruct (getForJet jk pn id) as [idx jets].
  by destruct (addDrop _ _ _) as [j [er|]].
Qed.

Lemma step_sync jk jk' :
  step jk jk' ->
  topSyncPulse jk' = topSyncPulse jk \/ Backwards (topSyncPulse jk') = Good (topSyncPulse jk).
Proof.
  unfold topSyncPulse. intros [pn id split e H|pn id split e H|pn e H|from e H].
  - unfold AddHotConfirmation in H. go_step H. injection H as <- _.
    destruct v as [k oe]. apply updateHot_sync in E. simpl. rewrite E. by left.
  - injection H as <- _. rewrite updateDrop_sync. by left.
  - destruct e as [e|].
    + unfold AddBackupConfirmation, updateBackup in H. destruct (_ =? _)%nat.
      * injection H as <- _. by left.
      * by go_step H.
    + destruct (updateTopSyncPulse_jets Backwards All (mkKeeper (<[pn := addBackup <$> all jk pn]>
        (db_jets jk)) (db_sync jk)) pn jk') as (_ & [->|[<- Hc]]).
      * unfold AddBackupConfirmation, updateBackup in H. destruct (_ =? _)%nat; [done|].
        go_step H. by injection H as <-.
      * by left.
      * right. apply checkPulseConsistency_true in Hc as [Hb _]. exact Hb.
  - pose proof (TruncateHead_sync jk from) as HT. rewrite H in HT. simpl in HT. rewrite HT. by left.
Qed.

(** Whatever sequence of confirmations and truncations runs, the top sync
    pulse only moves forward along the chain of pulses, one pulse at a
    time: none is skipped and none is taken back. *)
Theorem topSyncPulse_chain jk jk' :
  (forall pn prev, Backwards pn = Good prev -> prev < pn) ->
  reach step jk jk' ->
  rtc (fun a b => Backwards b = Good a) (topSyncPulse jk) (topSyncPulse jk') /\
  topSyncPulse jk <= topSyncPulse jk'.
Proof.
  intros Hlt Hreach.
  refine (reach_invariant step (fun b =>
    rtc (fun x y => Backwards y = Good x) (topSyncPulse jk) (topSyncPulse b) /\
    topSyncPulse jk <= topSyncPulse b) _ _ _ _ Hreach); [split; [apply rtc_refl|lia]|].
  intros a b [Hr Hle] [Heq|Hb]%step_sync.
  - by rewrite Heq.
  - split; [by eapply rtc_r|]. apply Hlt in Hb. lia.
Qed.
End SyncPulse.

(** Truncation is refused up to the top sync pulse; otherwise it removes
    exactly the pulses from [from] on, and [HasAllJetConfirms] keeps
    answering true up to the top sync pulse. *)
Theorem TruncateHead_spec Backwards All jk from :
  (from <= topSyncPulse jk -> exists e, TruncateHead jk from = (jk, Some e)) /\
  (topSyncPulse jk < from ->
   exists jk', TruncateHead jk from = (jk', None) /\
     topSyncPulse jk' = topSyncPulse jk /\
     (forall pn, all jk' pn = if pn <? from then all jk pn else []) /\
     (forall pn, pn <= topSyncPulse jk -> HasAllJetConfirms Backwards All jk' pn = Ret true)).
Proof.
  unfold TruncateHead. destruct (Z.leb_spec from (topSyncPulse jk)) as [Hle|Hlt].
  { split; [by eexists|lia]. }
  split; [lia|]. intros _. eexists. split; [done|]. split; [done|]. split.
  - intros pn. unfold all. simpl. destruct (Z.ltb_spec pn from).
    + destruct (db_jets jk !! pn) eqn:E.
      * by rewrite (map_lookup_filter_Some_2 _ _ pn l) by done.
      * rewrite map_lookup_filter_None_2; [done|]. by left.
    + rewrite map_lookup_filter_None_2; [done|]. right. intros js _ ?. simpl in *. lia.
  - intros pn Hpn. unfold HasAllJetConfirms.
    change (topSyncPulse (mkKeeper _ (db_sync jk))) with (topSyncPulse jk).
    by destruct (Z.leb_spec pn (topSyncPulse jk)); [|lia].
Qed.

(** ** What a confirmed jet is *)
Lemma parent_child q p :
  q <> [] -> (length q <= 216)%nat -> (length p <= 216)%nat ->
  Parent (jet_id q) = Ret (jet_id p) -> exists b, q = p ++ [b].
Proof.
  intros Hne Hq Hp E. destruct q as [|b q'] using rev_ind; [done|]. exists b.
  rewrite length_app in Hq. simpl in Hq.
  rewrite Parent_jet_id in E by lia.
  apply Ret_inj, jet_id_inj in E as ->; [done|lia|done].
Qed.

(** [isConfirmed] on a well-formed info means what it is for: the drop
    arrived, the backup too when it counts, and the hot data of every jet
    that continues this one did: of the jet itself, or, after a split, of
    both its children. *)
Theorem isConfirmed_iff j checkBackup p :
  info_ok j -> JetID j = jet_id p -> (length p < 216)%nat ->
  (forall h, h ∈ HotConfirmed j -> Split j = true ->
     exists q, h = jet_id q /\ (length q <= 216)%nat /\ q <> []) ->
  exists b, isConfirmed j checkBackup = Ret b /\
    (b = true <->
     (checkBackup = true -> BackupConfirmed j = true) /\ DropConfirmed j = true /\
     if Split j then HotConfirmed j ≡ₚ [jet_id (p ++ [false]); jet_id (p ++ [true])]
     else HotConfirmed j = [jet_id p]).
Proof.
  intros [H1 H2 H3 H4] Hid Hp Hq. unfold isConfirmed.
  destruct (checkBackup && negb (BackupConfirmed j)) eqn:Eb.
  { exists false. split; [done|]. split; [done|]. intros (Hb & _).
    apply andb_true_iff in Eb as [-> Eb]. by rewrite Hb in Eb. }
  destruct (DropConfirmed j) eqn:Ed; simpl.
  2: { exists false. split; [done|]. split; [done|]. by intros (_ & ? & _). }
  assert (Hb : checkBackup = true -> BackupConfirmed j = true).
  { intros ->. simpl in Eb. by apply negb_false_iff in Eb. }
  simpl in H4. rewrite H4. destruct (HotConfirmed j) as [|h0 hs] eqn:Eh.
  { exists false. split; [done|]. split; [done|]. intros (_ & _ & H).
    destruct (Split j); [|done]. by apply Permutation_nil_cons in H. }
  simpl. destruct (Split j) eqn:Es; simpl.
  - destruct hs as [|h1 [|]]; [| |simpl in H1; lia].
    { exists false. split; [done|]. split; [done|]. intros (_ & _ & H).
      by apply Permutation_length in H. }
    assert (Hc : forall h, h ∈ [h0; h1] -> exists b, h = jet_id (p ++ [b])).
    { intros h Hh. destruct (Hq h Hh eq_refl) as (q & -> & Hl & Hne).
      specialize (H3 _ Hh). rewrite Hid in H3.
      apply parent_child in H3 as [b ->]; [by exists b|done|done|lia]. }
    rewrite (H3 h0), (H3 h1) by set_solver. simpl. eexists. split; [done|].
    assert (E : Local_Equal (JetID j) (JetID j) = true) by (by apply Local_Equal_iff).
    rewrite E. simpl. split; [|done]. intros _. split_and!; [done|done|].
    destruct (Hc h0) as [b0 ->]; [set_solver|]. destruct (Hc h1) as [b1 ->]; [set_solver|].
    apply list.NoDup_cons in H2 as [Hn _].
    destruct b0, b1; try done; [destruct Hn; by left|constructor|destruct Hn; by left].
  - assert (Hall : forall h, h ∈ h0 :: hs -> h = JetID j) by (intros h Hh; by apply H3).
    exists true. rewrite (Hall h0) by (by left).
    assert (E : Local_Equal (JetID j) (JetID j) = true) by (by apply Local_Equal_iff).
    rewrite E. split; [done|]. split; [|done]. intros _. split_and!; [done|done|].
    rewrite <- Hid. destruct hs as [|h1 hs]; [done|].
    rewrite (Hall h0), (Hall h1) in H2 by set_solver. apply list.NoDup_cons in H2 as [Hn _].
    destruct Hn. by left.
Qed.

(** The next lookup of the jet finds what was just stored. *)
Lemma getForJet_again jk pn jet idx jets j' :
  getForJet jk pn jet = (idx, jets) -> JetID j' = jet ->
  getForJet (set jk pn (<[idx := j']> jets)) pn jet = (idx, <[idx := j']> jets) /\
  nth idx (<[idx := j']> jets) newInfo = j'.
Proof.
  intros E Hid.
  assert (H : (idx < length jets)%nat /\ forall k x, jets !! k = Some x -> (k < idx)%nat ->
            Local_Equal (JetID x) jet <> true).
  { unfold getForJet in E. destruct (list_find _ _) as [[i x]|] eqn:Ef; injection E as <- <-.
    - apply list_find_Some in Ef as (Hi & _ & Hall). split; [by eapply lookup_lt_Some|].
      intros k y Hk Hlt. by apply (Hall k y).
    - apply list_find_None in Ef. rewrite length_app. simpl. split; [lia|].
      intros k y Hk Hlt. rewrite lookup_app_l in Hk by done. rewrite list.Forall_forall in Ef.
      apply Ef. by eapply list_elem_of_lookup_2. }
  destruct H as [Hlt Hall].
  assert (Hn : <[idx := j']> jets !! idx = Some j') by (by apply list_lookup_insert_eq).
  split; [|by rewrite nth_lookup, Hn].
  unfold getForJet, all, set. simpl. rewrite lookup_insert_eq. simpl.
  assert (Hf : list_find (fun j => Local_Equal (JetID j) jet = true) (<[idx := j']> jets) =
               Some (idx, j')).
  { apply list_find_Some. split_and!; [done|by apply Local_Equal_iff|].
    intros k y Hk Hkl. rewrite list_lookup_insert_ne in Hk by lia. by apply (Hall k y). }
  by rewrite Hf.
Qed.

Lemma addDrop_again j jet split j' :
  addDrop j jet split = (j', None) ->
  JetID j' = jet /\ forall jet' split', exists e, addDrop j' jet' split' = (j', Some e).
Proof.
  unfold addDrop. destruct (DropConfirmed j) eqn:Ed; [done|].
  destruct (updateSplit j split) as [j1 [e|]]; [done|]. intros [= <-]. simpl. split; [done|].
  intros. by eexists.
Qed.

Lemma addHot_again j id parentID split j' :
  addHot j id parentID split = (j', None) ->
  JetID j' = parentID /\ forall split', exists e, addHot j' id parentID split' = (j', Some e).
Proof.
  unfold addHot, checkIncomingHot, updateSplit.
  assert (Hid : Local_Equal id id = true) by (by apply Local_Equal_iff).
  destruct (HotConfirmed j) as [|h [|? ?]] eqn:Eh; [| |done].
  - cbn [app]. destruct (negb _); [|destruct (negb _); [done|]].
    all: intros [= <-]; simpl; rewrite Hid; split; [done|intros; by eexists].
  - destruct (Local_Equal h id); [done|]. cbn [app]. destruct (negb _); [|destruct (negb _); [done|]].
    all: intros [= <-]; simpl; split; [done|intros; by eexists].
Qed.

(** A jet's drop is confirmed at most once per pulse, and so is a hot
    confirmation: repeating the call fails and changes nothing. *)
Theorem repeated_confirmation jk pn id split :
  (forall jk', updateDrop jk pn id split = (jk', None) ->
     forall split', exists e, updateDrop jk' pn id split' = (jk', Some e)) /\
  (forall jk', updateHot jk pn id split = Ret (jk', None) ->
     exists e, updateHot jk' pn id split = Ret (jk', Some e)).
Proof.
  split.
  - intros jk' H split'. unfold updateDrop in H.
    destruct (getForJet jk pn id) as [idx jets] eqn:Eg.
    destruct (addDrop _ id split) as [j [e|]] eqn:Ea; [done|]. injection H as <-.
    apply addDrop_again in Ea as [Hid Hag].
    destruct (getForJet_again _ _ _ _ _ _ Eg Hid) as [Hg Hn].
    unfold updateDrop. rewrite Hg, Hn. destruct (Hag id split') as [e ->]. by eexists.
  - intros jk' H. unfold updateHot in *. go_step H. rewrite E. cbn [mbind go_bind].
    destruct (getForJet jk pn v) as [idx jets] eqn:Eg.
    destruct (addHot _ id v split) as [j [e|]] eqn:Ea; [done|]. injection H as <-.
    apply addHot_again in Ea as [Hid Hag].
    destruct (getForJet_again _ _ _ _ _ _ Eg Hid) as [Hg Hn].
    rewrite Hg, Hn. destruct (Hag split) as [e ->]. by eexists.
Qed.

(** ** Concrete histories *)
Definition prev_sample (pn : Z) : result Z :=
  if pn =? 65547 then Good 65537 else if pn =? 65557 then Good 65547
  else Fail (Errorf "not found").
Definition jets_sample (pn : Z) : list Local :=
  if pn =? 65547 then [ZeroJetID] else [jet_id [false]; jet_id [true]].

Definition empty_keeper : keeper := mkKeeper ∅ None.
Definition root_info (backup : bool) : JetInfo :=
  mkInfo ZeroJetID [jet_id [false]; jet_id [true]] true backup true true.
Definition replicated : keeper := mkKeeper {[65547 := [root_info false]]} None.
Definition synced : keeper := mkKeeper {[65547 := [root_info true]]} (Some 65547).

(** The root jet is split in pulse 65547: its drop and both children's hot
    data arrive, then the backup. *)
Lemma reach_synced : reach (step prev_sample jets_sample) empty_keeper synced.
Proof.
  eapply reach_step.
  { eapply reach_step.
    { eapply reach_step.
      { eapply reach_step; [apply reach_init|].
        eapply (step_hot _ _ _ _ 65547 (jet_id [false]) true). by vm_compute. }
      eapply (step_drop _ _ _ _ 65547 ZeroJetID true). by vm_compute. }
    eapply (step_hot _ _ _ _ 65547 (jet_id [true]) true). by vm_compute. }
  eapply (step_backup _ _ _ _ 65547). by vm_compute.
Qed.

Lemma keeper_invariant_witness : keeper_ok synced.
Proof. exact (keeper_invariant prev_sample jets_sample synced reach_synced). Defined.

Lemma topSyncPulse_chain_witness :
  rtc (fun a b => prev_sample b = Good a) (topSyncPulse empty_keeper) (topSyncPulse synced) /\
  topSyncPulse empty_keeper <= topSyncPulse synced.
Proof.
  apply (topSyncPulse_chain prev_sample jets_sample); [|exact reach_synced].
  intros pn prev. unfold prev_sample.
  destruct (Z.eqb_spec pn 65547) as [->|]; [intros [= <-]; lia|].
  destruct (Z.eqb_spec pn 65557) as [->|]; [intros [= <-]; lia|done].
Defined.

Lemma AddBackupConfirmation_sync_witness :
  all replicated 65547 <> [] /\ db_jets synced =
    <[65547 := addBackup <$> all replicated 65547]> (db_jets replicated) /\
  (complete prev_sample jets_sample
     (mkKeeper (<[65547 := addBackup <$> all replicated 65547]> (db_jets replicated)) None)
     65547 true -> db_sync synced = Some 65547) /\
  (~ complete prev_sample jets_sample
     (mkKeeper (<[65547 := addBackup <$> all replicated 65547]> (db_jets replicated)) None)
     65547 true -> db_sync synced = None).
Proof.
  apply (AddBackupConfirmation_sync prev_sample jets_sample replicated 65547 synced).
  by vm_compute.
Defined.

Lemma isConfirmed_iff_witness :
  exists b, isConfirmed (root_info true) true = Ret b /\
    (b = true <->
     (true = true -> true = true) /\ true = true /\
     [jet_id [false]; jet_id [true]] ≡ₚ [jet_id [false]; jet_id [true]]).
Proof.
  apply (isConfirmed_iff (root_info true) true []).
  - split; [simpl; lia| | |done].
    + apply list.NoDup_cons. split; [|apply NoDup_singleton].
      intros H%list_elem_of_singleton. vm_compute in H. congruence.
    + intros h Hh. cbn in Hh. apply elem_of_cons in Hh as [->|Hh]; [by vm_compute|].
      apply list_elem_of_singleton in Hh as ->. by vm_compute.
  - by vm_compute.
  - simpl. lia.
  - intros h Hh _. cbn in Hh. apply elem_of_cons in Hh as [->|Hh].
    + exists [false]. simpl. split; [done|]. split; [lia|done].
    + apply list_elem_of_singleton in Hh as ->. exists [true]. simpl.
      split; [done|]. split; [lia|done].
Defined.
