(* ===== verification/HeavyNode.v ===== *)
(** * The heavy node: pulses and their confirmation
    (src/ledger/heavy/executor with src/insolar/pulse)

    The jet keeper at work with the pulse storage it reads: pulses are
    appended, confirmations arrive, and a restart rolls each back to the top
    sync pulse (db_rollback.go).  Proved against the interface of pulse
    storages, then for the database. *)
From S2P Require Import Prelude Pulse Reference Jet JetKeeper PulseStore.

(** A storage that can forget its last pulses. *)
Class TruncatableStorage (St : Type) `{LawfulStorage St} : Type := {
  TruncateHead : St -> Z -> St;
  TruncateHead_law s l from :
    holds s l -> holds (TruncateHead s from) (filter (fun p => num p < from) l);
}.
#[export, refine] Instance BadgerDB_truncatable : TruncatableStorage BadgerDB := {
  TruncateHead := DB_TruncateHead }.
Proof. intros db l from. apply DB_TruncateHead_holds. Defined.

(** [pulses.Backwards(ctx, pn, 1)] as the keeper uses it: the number. *)
Definition prev_pulse `{PulseStorage St} (s : St) (pn : Z) : result Z :=
  match Backwards s pn 1 with
  | Ret (Good p) => Good (num p)
  | Ret (Fail e) => Fail e
  | Panic m => Fail (Errorf m)
  end.

(** Where the rollback at start begins ([DBRollback.Start]). *)
Definition nextPulse (jk : keeper) : Z := topSyncPulse jk + 1.

Section HeavyNode.
Context `{TruncatableStorage St}.

(** One event of the node.  The jet trees the keeper reads may be any. *)
Inductive node_step : St * keeper -> St * keeper -> Prop :=
  | node_append s jk p s' e :
      0 <= num p < 2^32 -> Append s p = Ret (s', e) -> node_step (s, jk) (s', jk)
  | node_hot s jk pn id split jk' e :
      AddHotConfirmation jk pn id split = Ret (jk', e) -> node_step (s, jk) (s, jk')
  | node_drop s jk pn id split jk' e :
      AddDropConfirmation jk pn id split = Ret (jk', e) -> node_step (s, jk) (s, jk')
  | node_backup All s jk pn p jk' e :
      ForPulseNumber s pn = Ret (Good p) ->
      AddBackupConfirmation (prev_pulse s) All jk pn = Ret (jk', e) ->
      node_step (s, jk) (s, jk')
  | node_rollback_pulses s jk : node_step (s, jk) (TruncateHead s (nextPulse jk), jk)
  | node_rollback_keeper s jk jk' e :
      JetKeeper.TruncateHead jk (nextPulse jk) = (jk', e) -> node_step (s, jk) (s, jk').

(** A history of the node and the pulses it synced, in order. *)
Inductive run (n0 : St * keeper) : list Z -> St * keeper -> Prop :=
  | run_start : run n0 [] n0
  | run_next tr n n' :
      run n0 tr n -> node_step n n' ->
      run n0 (if decide (topSyncPulse n'.2 = topSyncPulse n.2) then tr
              else tr ++ [topSyncPulse n'.2]) n'.

(** The synced pulses [tr] are those that follow [top0] in the storage. *)
Record synced_run (top0 : Z) (tr : list Z) (n : St * keeper) : Prop := {
  sr_pulses : exists l pre post,
    holds n.1 l /\ num <$> l = pre ++ (top0 :: tr) ++ post;
  sr_top : last (top0 :: tr) = Some (topSyncPulse n.2);
}.

Lemma sync_backup All s jk pn jk' e :
  AddBackupConfirmation (prev_pulse s) All jk pn = Ret (jk', e) ->
  topSyncPulse jk' = topSyncPulse jk \/
  topSyncPulse jk' = pn /\ prev_pulse s pn = Good (topSyncPulse jk).
Proof.
  unfold AddBackupConfirmation, updateBackup. intros E.
  destruct (_ =? _)%nat; [injection E as <- _; by left|].
  apply go_bind_ret in E as (v & E & [= -> _]).
  destruct (updateTopSyncPulse_jets (prev_pulse s) All
    (mkKeeper (<[pn := addBackup <$> all jk pn]> (db_jets jk)) (db_sync jk)) pn jk' E)
    as (_ & [->|[Hs Hc]]); [by left|].
  right. apply checkPulseConsistency_true in Hc as [Hb _]. by split; [exact Hs|exact Hb].
Qed.

(** A stored pulse comes right after the one before it. *)
Lemma prev_pulse_adjacent s l pn p a :
  holds s l -> ForPulseNumber s pn = Ret (Good p) -> prev_pulse s pn = Good a ->
  exists i, (num <$> l) !! i = Some a /\ (num <$> l) !! S i = Some pn.
Proof.
  intros Hs Hp Ha. rewrite (ForPulseNumber_law _ l) in Hp by done. injection Hp as Hp.
  unfold list_ForPulseNumber in Hp. destruct (list_find _ l) as [[i q]|] eqn:E; [|done].
  apply list_find_Some in E as (Hi & <- & _). unfold prev_pulse in Ha.
  rewrite (Backwards_law s l i q 1 Hs Hi : Backwards s (num q) 1 = _) in Ha.
  destruct i as [|i]; [done|]. cbn in Ha. rewrite Nat.sub_0_r in Ha.
  destruct (l !! i) as [b|] eqn:Eb; [|done]. injection Ha as <-.
  exists i. by rewrite !list_lookup_fmap, Eb, Hi.
Qed.

Lemma synced_append top0 tr s jk p s' e :
  synced_run top0 tr (s, jk) -> 0 <= num p < 2^32 -> Append s p = Ret (s', e) ->
  synced_run top0 tr (s', jk).
Proof.
  intros [(l & pre & post & Hs & El) Ht] Hp E. split; [|done].
  destruct (Append_law s l p Hs Hp) as (s2 & E2 & Hs2). assert (s2 = s') as -> by congruence.
  destruct (list_Append_cases l p) as [Hl|Hl]; rewrite Hl in Hs2.
  - by exists l, pre, post.
  - exists (l ++ [p]), pre, (post ++ [num p]). split; [done|].
    by rewrite fmap_app, El, <- !(assoc_L (++)).
Qed.

Lemma synced_backup top0 tr s jk pn p jk' :
  synced_run top0 tr (s, jk) -> ForPulseNumber s pn = Ret (Good p) ->
  topSyncPulse jk' = pn -> prev_pulse s pn = Good (topSyncPulse jk) ->
  synced_run top0 (tr ++ [topSyncPulse jk']) (s, jk').
Proof.
  intros [(l & pre & post & Hs & El) Ht] Hp Htop Hprev.
  destruct (prev_pulse_adjacent _ _ _ _ _ Hs Hp Hprev) as (i & Hi & Hi').
  split; [|by rewrite app_comm_cons, list.last_snoc].
  assert (i = (length pre + length tr)%nat) as ->.
  { eapply NoDup_lookup; [apply increasing_NoDup, (holds_increasing _ _ Hs)|exact Hi|].
    rewrite El, lookup_app_r, Nat.add_sub' by lia. rewrite lookup_app_l by (cbn; lia).
    cbn [snd] in Ht. rewrite <- Ht, last_lookup. done. }
  rewrite El, (assoc_L (++)), lookup_app_r in Hi' by (rewrite length_app; cbn; lia).
  rewrite length_app in Hi'. cbn [length] in Hi'.
  replace (S (length pre + length tr) - (length pre + S (length tr)))%nat with 0%nat in Hi' by lia.
  destruct post as [|m post]; [done|]. injection Hi' as ->.
  exists l, pre, post. rewrite El, Htop. cbn. by rewrite <- (assoc_L (++)).
Qed.
Lemma synced_rollback top0 tr s jk :
  synced_run top0 tr (s, jk) -> synced_run top0 tr (TruncateHead s (nextPulse jk), jk).
Proof.
  intros [(l & pre & post & Hs & El) Ht]. split; [|exact Ht]. cbn [fst snd] in *.
  assert (Hpos : (num <$> l) !! (length pre + length tr)%nat = Some (topSyncPulse jk)).
  { rewrite El, lookup_app_r, Nat.add_sub' by lia. rewrite lookup_app_l by (cbn; lia).
    rewrite <- Ht, last_lookup. done. }
  apply list_lookup_fmap_Some in Hpos as (p & Hp & Hpos).
  exists (filter (fun p => num p < nextPulse jk) l), pre, []. split; [by apply TruncateHead_law|].
  rewrite (filter_cut _ _ (S (length pre + length tr))).
  - rewrite fmap_take, El, (assoc_L (++)), take_app_le by (rewrite length_app; cbn; lia).
    rewrite app_nil_r, take_ge; [done|]. rewrite length_app. cbn. lia.
  - intros j q Hq.
    destruct (db_order l _ p j (num q) (holds_increasing _ _ Hs) Hpos) as [Ho _];
      [by rewrite list_lookup_fmap, Hq|]. unfold nextPulse. rewrite Hp. lia.
Qed.

Lemma node_step_synced top0 tr n n' :
  synced_run top0 tr n -> node_step n n' ->
  synced_run top0 (if decide (topSyncPulse n'.2 = topSyncPulse n.2) then tr
                   else tr ++ [topSyncPulse n'.2]) n'.
Proof.
  assert (Hsame : forall s jk jk', topSyncPulse jk' = topSyncPulse jk ->
    synced_run top0 tr (s, jk) -> synced_run top0 tr (s, jk')).
  { intros s jk jk' E [Hp Ht]. split; [exact Hp|]. cbn [snd] in *. by rewrite E. }
  intros Hr Hstep.
  destruct Hstep as [s jk p s' e Hp E|s jk pn id split jk' e E|s jk pn id split jk' e E
    |All s jk pn p jk' e Hp E|s jk|s jk jk' e E]; cbn [snd].
  - rewrite decide_True by done. by eapply synced_append.
  - apply go_bind_ret in E as ([jk1 e1] & E & [= -> _]). apply updateHot_sync in E.
    rewrite decide_True; [eapply Hsame; [|done]|]; unfold topSyncPulse; by rewrite E.
  - assert (E' : topSyncPulse jk' = topSyncPulse jk).
    { pose proof (updateDrop_sync jk pn id split) as Hd. unfold AddDropConfirmation in E.
      injection E as <- _. unfold topSyncPulse. by rewrite Hd. }
    rewrite decide_True by done. by eapply Hsame.
  - destruct (sync_backup _ _ _ _ _ _ E) as [Ht|[Ht Hb]].
    + rewrite decide_True by done. by eapply Hsame.
    + destruct (decide _) as [Ht'|_]; [by eapply Hsame|]. by eapply synced_backup.
  - rewrite decide_True by done. by apply synced_rollback.
  - assert (E' : topSyncPulse jk' = topSyncPulse jk).
    { pose proof (TruncateHead_sync jk (nextPulse jk)) as Hs. rewrite E in Hs. unfold topSyncPulse. cbn in Hs. by rewrite Hs. }
    rewrite decide_True by done. by eapply Hsame.
Qed.

(** C7: Over any history of the heavy node, restarts included, that starts
    with a stored top sync pulse, the pulses it synced are exactly the stored
    pulses that follow the first top sync pulse, in order and each once, and
    the last one is the top sync pulse: no stored pulse is passed over and
    none that was synced is lost. *)
Theorem node_syncs_every_pulse s0 jk0 l0 p0 tr n :
  holds s0 l0 -> ForPulseNumber s0 (topSyncPulse jk0) = Ret (Good p0) ->
  run (s0, jk0) tr n ->
  exists l pre post, holds n.1 l /\ num <$> l = pre ++ (topSyncPulse jk0 :: tr) ++ post /\
    last (topSyncPulse jk0 :: tr) = Some (topSyncPulse n.2).
Proof.
  intros Hs Hp Hrun. assert (H3 : synced_run (topSyncPulse jk0) tr n).
  { induction Hrun as [|tr n n' _ IH Hstep]; [|by apply node_step_synced].
    split; [|done]. rewrite (ForPulseNumber_law _ l0) in Hp by done. injection Hp as Hp.
    unfold list_ForPulseNumber in Hp. destruct (list_find _ l0) as [[i q]|] eqn:E; [|done].
    apply list_find_Some in E as (Hi & Hq & _). exists l0, (num <$> take i l0), (num <$> drop (S i) l0).
    split; [done|]. rewrite <- Hq, <- (take_drop_middle l0 i q Hi) at 1. by rewrite fmap_app. }
  destruct H3 as [(l & pre & post & Hl & El) Ht]. by exists l, pre, post.
Qed.
End HeavyNode.

(** The root jet of pulse 65547, replicated in JetKeeper.v's sample, is backed up. *)
Lemma node_syncs_every_pulse_witness :
  exists (db : BadgerDB) e,
    append_all (∅ : BadgerDB) (samplePulse <$> [65537; 65547]) = Ret (db, e) /\
    exists l pre post, db_holds db l /\ num <$> l = pre ++ [65537; 65547] ++ post.
Proof.
  destruct (append_all_holds (H0:=BadgerDB_lawful) (samplePulse <$> [65537; 65547]) ∅ [] db_holds_nil)
    as (db & E & Hdb); [by repeat constructor|].
  exists db, (list_append_all [] (samplePulse <$> [65537; 65547])).2. split; [done|].
  destruct (node_syncs_every_pulse (H1:=BadgerDB_truncatable) db replicated _ (samplePulse 65537)
    [65547] (db, synced) Hdb) as (l & pre & post & Hl & El & _).
  - rewrite (ForPulseNumber_law _ _ _ Hdb). done.
  - apply (run_next _ [] (db, replicated) (db, synced)); [apply run_start|].
    eapply (node_backup jets_sample db replicated 65547 (samplePulse 65547) synced None).
    + rewrite (ForPulseNumber_law _ _ _ Hdb). done.
    + vm_compute in E. injection E as <-. by vm_compute.
  - by exists l, pre, post.
Defined.
