(* ===== verification/WriteController.v ===== *)
(** * Write barriers (src/ledger/light/executor/writecontroller.go,
    src/logicrunner/writecontroller/writecontroller.go)

    A barrier lets writers work on the current pulse and lets the pulse
    manager close the pulse and wait for them.  What runs under the lock is
    one step; waiting, and what follows it, are steps of their own, so the
    steps of writers, of the manager and of waiting readers interleave in any
    way.  The manager is one goroutine that opens a pulse after it closed the
    one before (PulseManager.Set of the light node, LogicRunner.OnPulse).
    A [sync.WaitGroup] is its counter. *)
From S2P Require Import Prelude.

Definition ErrWriteClosed : error := Errorf "requested pulse is closed for writing".

(** [wg.Done()] *)
Definition wg_Done (counter : Z) : go Z :=
  if counter <=? 0 then Panic "sync: negative WaitGroup counter" else Ret (counter - 1).

(** What [Open] and [CloseAndWait] answer by the current pulse; [Good true]
    goes on to close and wait. *)
Definition check_open (current pulse : Z) : option error :=
  if pulse <? current then Some (Errorf "can't open past pulse for writing")
  else if pulse =? current then Some (Errorf "requested pulse already opened for writing")
  else None.
Definition check_close (current pulse : Z) (closed : bool) : result bool :=
  if current =? 0 then Good false
  else if negb (pulse =? current) then Fail (Errorf "wrong pulse for closing")
  else if closed then Fail (Errorf "requested pulse already closed for writing")
  else Good true.
Definition check_begin (current pulse : Z) (closed : bool) : option error :=
  if negb (pulse =? current) then Some ErrWriteClosed
  else if closed then Some ErrWriteClosed
  else None.

(** ** The light node's barrier *)
Record WriteController : Type := mkWC { current : Z; closed : bool; wg : Z }.
Definition NewWriteController : WriteController := mkWC 0 true 0.

Definition Begin (m : WriteController) (pulse : Z) : WriteController * option error :=
  match check_begin (current m) pulse (closed m) with
  | Some e => (m, Some e)
  | None => (mkWC (current m) (closed m) (wg m + 1), None)
  end.

(** The function [Begin] returns; it uses the barrier's wait group of when
    it is called. *)
Definition done_ (m : WriteController) : go WriteController :=
  n ← wg_Done (wg m); Ret (mkWC (current m) (closed m) n).

Definition Open (m : WriteController) (pulse : Z) : WriteController * option error :=
  match check_open (current m) pulse with
  | Some e => (m, Some e)
  | None => (mkWC pulse false 0, None)
  end.

(** [CloseAndWait] up to the wait. *)
Definition Close (m : WriteController) (pulse : Z) : WriteController * result bool :=
  match check_close (current m) pulse (closed m) with
  | Good true => (mkWC (current m) true (wg m), Good true)
  | r => (m, r)
  end.

(** The barrier, the pulses of the writers that are not done, and the pulse
    the manager is waiting on in [CloseAndWait]. *)
Record light : Type := mkLight { wc : WriteController; writers : list Z; closing : option Z }.
Definition light0 : light := mkLight NewWriteController [] None.

Inductive light_step : light -> light -> Prop :=
  | light_begin m ws c pulse m' :
      Begin m pulse = (m', None) -> light_step (mkLight m ws c) (mkLight m' (pulse :: ws) c)
  | light_done m ws1 pulse ws2 c m' :
      done_ m = Ret m' -> light_step (mkLight m (ws1 ++ pulse :: ws2) c) (mkLight m' (ws1 ++ ws2) c)
  | light_open m ws pulse m' e :
      closed m = true -> Open m pulse = (m', e) ->
      light_step (mkLight m ws None) (mkLight m' ws None)
  | light_close m ws pulse m' :
      Close m pulse = (m', Good true) -> light_step (mkLight m ws None) (mkLight m' ws (Some pulse))
  | light_closed m ws pulse :
      wg m = 0 -> light_step (mkLight m ws (Some pulse)) (mkLight m ws None).

(** The invariant: the counter counts the writers, all writers write the
    current pulse, and a barrier that is closed and not waited on has none. *)
Record light_ok (s : light) : Prop := {
  lo_count : wg (wc s) = Z.of_nat (length (writers s));
  lo_pulse : Forall (eq (current (wc s))) (writers s);
  lo_quiet : closed (wc s) = true -> closing s = None -> writers s = [];
  lo_closing p : closing s = Some p -> closed (wc s) = true /\ current (wc s) = p;
}.

Lemma check_begin_None c p b : check_begin c p b = None <-> p = c /\ b = false.
Proof. unfold check_begin. destruct (Z.eqb_spec p c), b; cbn; intuition congruence. Qed.
Lemma check_open_None c p : check_open c p = None <-> c < p.
Proof.
  unfold check_open. destruct (Z.ltb_spec p c); [split; [done|lia]|].
  destruct (Z.eqb_spec p c); split; (done || lia).
Qed.
Lemma check_close_true c p b : check_close c p b = Good true <-> c <> 0 /\ p = c /\ b = false.
Proof.
  unfold check_close. destruct (Z.eqb_spec c 0), (Z.eqb_spec p c), b; cbn; intuition congruence.
Qed.

Lemma light_step_ok s s' : light_ok s -> light_step s s' -> light_ok s'.
Proof.
  intros [Hc Hp Hq Hw] Hstep.
  destruct Hstep as [m ws c pulse m' E|m ws1 pulse ws2 c m' E|m ws pulse m' e Hcl E
    |m ws pulse m' E|m ws pulse E]; cbn [wc writers closing] in *.
  - unfold Begin in E. destruct (check_begin _ _ _) eqn:Eb; [done|]. injection E as <-.
    apply check_begin_None in Eb as [-> Hopen]. split; cbn; [lia|by constructor| |].
    + by rewrite Hopen.
    + intros p Hcp. destruct (Hw p Hcp). congruence.
  - unfold done_, wg_Done in E. destruct (Z.leb_spec (wg m) 0); [done|]. injection E as <-.
    apply list.Forall_app in Hp as [Hp1 [Hp2 Hp3]%list.Forall_cons].
    rewrite length_app in Hc. cbn in Hc. split; cbn [wc writers closing wg current closed].
    + rewrite length_app. lia.
    + by apply list.Forall_app.
    + intros Hcl Hcn. specialize (Hq Hcl Hcn). by destruct ws1.
    + done.
  - unfold Open in E. rewrite (Hq Hcl eq_refl) in *. destruct (check_open _ _).
    + by injection E as <- _.
    + injection E as <- _. by split.
  - unfold Close in E. destruct (check_close _ _ _) as [[]|] eqn:Ec; [|done|done].
    injection E as <-. apply check_close_true in Ec as (_ & -> & _). split; cbn; [done..|].
    by intros p [= ->].
  - destruct (Hw pulse eq_refl) as [Hcl _]. split; cbn; [done|done| |done].
    intros _ _. apply nil_length_inv. lia.
Qed.

(** ** The virtual node's barrier

    Its wait groups are separate objects: [groups] are their counters, and
    [v_wg] points at the one in use ([NewWriteController] sets it and nothing
    clears it, so [Open]'s test of nil is true). *)
Record writeController : Type := mkVC {
  v_current : Z;
  v_closed : bool;
  groups : list Z;
  v_wg : nat;
}.
Definition VNewWriteController : writeController := mkVC 0 true [1] 0.

Definition set_group (m : writeController) (n : Z) : writeController :=
  mkVC (v_current m) (v_closed m) (<[v_wg m := n]> (groups m)) (v_wg m).
Definition counter (m : writeController) : Z := nth (v_wg m) (groups m) 0.

Definition VBegin (m : writeController) (pulse : Z) : writeController * option error :=
  match check_begin (v_current m) pulse (v_closed m) with
  | Some e => (m, Some e)
  | None => (set_group m (counter m + 1), None)
  end.

Definition v_done (m : writeController) : go writeController :=
  n ← wg_Done (counter m); Ret (set_group m n).

Definition VOpen (m : writeController) (pulse : Z) : go (writeController * option error) :=
  match check_open (v_current m) pulse with
  | Some e => Ret (m, Some e)
  | None =>
      n ← wg_Done (counter m);
      let gs := groups (set_group m n) in
      Ret (mkVC pulse false (gs ++ [0]) (length gs), None)
  end.

(** [CloseAndWait]: up to the wait, and after it. *)
Definition VClose (m : writeController) (pulse : Z) : writeController * result bool :=
  match check_close (v_current m) pulse (v_closed m) with
  | Good true => (mkVC (v_current m) true (groups m) (v_wg m), Good true)
  | r => (m, r)
  end.
Definition VClosed (m : writeController) : writeController := set_group m (counter m + 1).

(** [WaitOpened] up to the wait: the group to wait on, if any. *)
Definition WaitOpened (m : writeController) : option nat :=
  if negb (v_closed m) then None else Some (v_wg m).

Inductive phase : Type := Idle | Waiting (pulse : Z) | Waited (pulse : Z).

(** A caller inside [WaitOpened]: the group it waits on, the pulse that was
    current when it came, and whether the manager was idle then. *)
Record waiter : Type := mkWaiter { w_group : nat; w_pulse : Z; w_idle : bool }.
Definition is_idle (p : phase) : bool := match p with Idle => true | _ => false end.

Record virtual : Type := mkVirtual {
  vc : writeController;
  v_writers : list Z;
  v_phase : phase;
  waiters : list waiter;
}.
Definition virtual0 : virtual := mkVirtual VNewWriteController [] Idle [].

Inductive virtual_step : virtual -> virtual -> Prop :=
  | v_step_begin m ws c q pulse m' :
      VBegin m pulse = (m', None) -> virtual_step (mkVirtual m ws c q) (mkVirtual m' (pulse :: ws) c q)
  | v_step_done m ws1 pulse ws2 c q m' :
      v_done m = Ret m' ->
      virtual_step (mkVirtual m (ws1 ++ pulse :: ws2) c q) (mkVirtual m' (ws1 ++ ws2) c q)
  | v_step_open m ws q pulse m' e :
      v_closed m = true -> VOpen m pulse = Ret (m', e) ->
      virtual_step (mkVirtual m ws Idle q) (mkVirtual m' ws Idle q)
  | v_step_close m ws q pulse m' :
      VClose m pulse = (m', Good true) ->
      virtual_step (mkVirtual m ws Idle q) (mkVirtual m' ws (Waiting pulse) q)
  | v_step_waited m ws q pulse :
      counter m = 0 -> virtual_step (mkVirtual m ws (Waiting pulse) q) (mkVirtual m ws (Waited pulse) q)
  | v_step_closed m ws q pulse :
      virtual_step (mkVirtual m ws (Waited pulse) q) (mkVirtual (VClosed m) ws Idle q)
  | v_step_wait m ws c q g :
      WaitOpened m = Some g ->
      virtual_step (mkVirtual m ws c q) (mkVirtual m ws c (mkWaiter g (v_current m) (is_idle c) :: q))
  | v_step_return m ws c q1 w q2 :
      nth (w_group w) (groups m) 0 = 0 ->
      virtual_step (mkVirtual m ws c (q1 ++ w :: q2)) (mkVirtual m ws c (q1 ++ q2)).

(** The writers hold the group; so does the barrier while it is closed and
    idle, for the callers of [WaitOpened]. *)
Definition held (m : writeController) (c : phase) : Z :=
  if v_closed m && is_idle c then 1 else 0.

Definition waiter_ok (m : writeController) (c : phase) (w : waiter) : Prop :=
  (w_group w <= v_wg m)%nat /\
  (w_idle w = true ->
   (w_group w = v_wg m /\ w_pulse w = v_current m /\ v_closed m = true /\ c = Idle) \/
   (w_group w < v_wg m)%nat /\ w_pulse w < v_current m).

Record virtual_ok (s : virtual) : Prop := {
  vo_wg : length (groups (vc s)) = S (v_wg (vc s));
  vo_count : counter (vc s) = Z.of_nat (length (v_writers s)) + held (vc s) (v_phase s);
  vo_pulse : Forall (eq (v_current (vc s))) (v_writers s);
  vo_quiet : v_closed (vc s) = true -> (forall p, v_phase s <> Waiting p) -> v_writers s = [];
  vo_phase p : v_phase s = Waiting p \/ v_phase s = Waited p ->
    v_closed (vc s) = true /\ v_current (vc s) = p;
  vo_waiters : Forall (waiter_ok (vc s) (v_phase s)) (waiters s);
}.

Lemma counter_set m n : length (groups m) = S (v_wg m) -> counter (set_group m n) = n.
Proof.
  intros Hl. unfold counter. cbn. rewrite nth_lookup, list_lookup_insert_eq; [done|lia].
Qed.

Lemma wg_Done_Ret n m : wg_Done n = Ret m -> 0 < n /\ m = n - 1.
Proof. unfold wg_Done. destruct (Z.leb_spec n 0); [done|]. by intros [= <-]. Qed.

Lemma waiters_weaken m m' c c' q :
  (forall w, waiter_ok m c w -> waiter_ok m' c' w) ->
  Forall (waiter_ok m c) q -> Forall (waiter_ok m' c') q.
Proof. intros Hw. apply Forall_impl. exact Hw. Qed.

Lemma v_begin_ok m ws c q pulse m' :
  virtual_ok (mkVirtual m ws c q) -> VBegin m pulse = (m', None) ->
  virtual_ok (mkVirtual m' (pulse :: ws) c q).
Proof.
  intros [H1 H2 H3 H4 H5 H6] E. cbn [vc v_writers v_phase waiters] in *. unfold VBegin in E.
  destruct (check_begin _ _ _) eqn:Eb; [done|]. injection E as <-.
  apply check_begin_None in Eb as [-> Hopen]. split; cbn [vc v_writers v_phase waiters].
  - cbn. by rewrite length_insert.
  - rewrite counter_set, H2 by done. unfold held. cbn. lia.
  - by constructor.
  - cbn. congruence.
  - done.
  - eapply waiters_weaken; [|done]. by intros w.
Qed.

Lemma v_done_ok m ws1 pulse ws2 c q m' :
  virtual_ok (mkVirtual m (ws1 ++ pulse :: ws2) c q) -> v_done m = Ret m' ->
  virtual_ok (mkVirtual m' (ws1 ++ ws2) c q).
Proof.
  intros [H1 H2 H3 H4 H5 H6] E. cbn [vc v_writers v_phase waiters] in *. unfold v_done in E.
  apply go_bind_ret in E as (n & [Hn ->]%wg_Done_Ret & [= <-]).
  apply list.Forall_app in H3 as [Hp1 [Hp2 Hp3]%list.Forall_cons].
  rewrite length_app in H2. cbn [length] in H2. split; cbn [vc v_writers v_phase waiters].
  - cbn. by rewrite length_insert.
  - rewrite counter_set by done. rewrite H2, length_app. unfold held. cbn. lia.
  - by apply list.Forall_app.
  - intros Hcl Hne. specialize (H4 Hcl Hne). by destruct ws1.
  - done.
  - eapply waiters_weaken; [|done]. by intros w.
Qed.

Lemma v_open_ok m ws q pulse m' e :
  virtual_ok (mkVirtual m ws Idle q) -> v_closed m = true -> VOpen m pulse = Ret (m', e) ->
  virtual_ok (mkVirtual m' ws Idle q).
Proof.
  intros Hok Hcl E. pose proof Hok as [H1 H2 H3 H4 H5 H6]. cbn [vc v_writers v_phase waiters] in *.
  rewrite H4 in * by done. unfold VOpen in E.
  destruct (check_open _ _) as [er|] eqn:Eo; [by injection E as <- _|].
  apply check_open_None in Eo. apply go_bind_ret in E as (n & _ & [= <- _]).
  cbn [groups set_group]. split; cbn [vc v_writers v_phase waiters v_current v_closed groups v_wg].
  - rewrite length_app. cbn. lia.
  - unfold counter. cbn [groups v_wg]. rewrite nth_lookup, lookup_app_r, Nat.sub_diag by lia. done.
  - done.
  - done.
  - by intros p [?|?].
  - eapply waiters_weaken; [|done]. intros w [Hle Hw]. rewrite length_insert.
    split; cbn [v_wg v_current v_closed]; [lia|]. intros Hi. destruct (Hw Hi) as [(? & ? & _)|[? ?]]; right; lia.
Qed.

Lemma v_close_ok m ws q pulse m' :
  virtual_ok (mkVirtual m ws Idle q) -> VClose m pulse = (m', Good true) ->
  virtual_ok (mkVirtual m' ws (Waiting pulse) q).
Proof.
  intros [H1 H2 H3 H4 H5 H6] E. cbn [vc v_writers v_phase waiters] in *. unfold VClose in E.
  destruct (check_close _ _ _) as [[]|] eqn:Ec; [|done|done]. injection E as <-.
  apply check_close_true in Ec as (_ & -> & Hop).
  unfold held in H2. rewrite Hop in H2. split; cbn [vc v_writers v_phase waiters v_current v_closed groups v_wg].
  - done.
  - exact H2.
  - done.
  - by intros _ Hne; destruct (Hne (v_current m)).
  - by intros p [[= ->]|?].
  - eapply waiters_weaken; [|done]. intros w [Hle Hw]. split; [done|]. intros Hi.
    destruct (Hw Hi) as [(_ & _ & Hc & _)|?]; [congruence|by right].
Qed.

Lemma v_waited_ok m ws q pulse :
  virtual_ok (mkVirtual m ws (Waiting pulse) q) -> counter m = 0 ->
  virtual_ok (mkVirtual m ws (Waited pulse) q).
Proof.
  intros [H1 H2 H3 H4 H5 H6] E. cbn [vc v_writers v_phase waiters] in *.
  destruct (H5 pulse (or_introl eq_refl)) as [Hcl Hcur].
  split; cbn [vc v_writers v_phase waiters]; [done|done|done| | |].
  - intros _ _. apply nil_length_inv. rewrite H2 in E. unfold held in E. rewrite Hcl in E. cbn in E. lia.
  - by intros p [?|[= ->]].
  - eapply waiters_weaken; [|done]. intros w [Hle Hw]. split; [done|]. intros Hi.
    destruct (Hw Hi) as [(_ & _ & _ & ?)|?]; [done|by right].
Qed.

Lemma v_closed_ok m ws q pulse :
  virtual_ok (mkVirtual m ws (Waited pulse) q) -> virtual_ok (mkVirtual (VClosed m) ws Idle q).
Proof.
  intros [H1 H2 H3 H4 H5 H6]. cbn [vc v_writers v_phase waiters] in *.
  destruct (H5 pulse (or_intror eq_refl)) as [Hcl Hcur].
  split; cbn [vc v_writers v_phase waiters].
  - cbn. by rewrite length_insert.
  - unfold VClosed. rewrite counter_set, H2 by done. unfold held. cbn. rewrite Hcl. cbn. lia.
  - done.
  - intros _ _. by apply H4.
  - by intros p [?|?].
  - eapply waiters_weaken; [|done]. intros w [Hle Hw]. split; [done|]. intros Hi.
    destruct (Hw Hi) as [(_ & _ & _ & ?)|?]; [done|by right].
Qed.

Lemma v_wait_ok m ws c q g :
  virtual_ok (mkVirtual m ws c q) -> WaitOpened m = Some g ->
  virtual_ok (mkVirtual m ws c (mkWaiter g (v_current m) (is_idle c) :: q)).
Proof.
  intros [H1 H2 H3 H4 H5 H6] E. unfold WaitOpened in E. destruct (v_closed m) eqn:Hcl; [|done].
  injection E as <-. split; [done..|]. constructor; [|done]. split; [done|]. intros Hi. left.
  split_and!; [done..|]. by destruct c.
Qed.

Lemma virtual_step_ok s s' : virtual_ok s -> virtual_step s s' -> virtual_ok s'.
Proof.
  intros Hok Hstep. destruct Hstep.
  - by eapply v_begin_ok.
  - by eapply v_done_ok.
  - by eapply v_open_ok.
  - by eapply v_close_ok.
  - by apply v_waited_ok.
  - by eapply v_closed_ok.
  - by apply v_wait_ok.
  - destruct Hok as [H1 H2 H3 H4 H5 H6]. split; [done..|]. cbn [waiters vc v_phase] in *.
    apply list.Forall_app in H6 as [H6 [_ H7]%list.Forall_cons]. by apply list.Forall_app.
Qed.

Lemma virtual0_ok : virtual_ok virtual0.
Proof. split; cbn; try done. by intros p [?|?]. Qed.
Lemma light0_ok : light_ok light0.
Proof. by split. Qed.

(** ** Properties *)

(** After [CloseAndWait] has returned, [p] stays behind. *)
Lemma light_after_close p ws m s2 :
  light_ok (mkLight m ws None) -> closed m = true -> current m = p ->
  reach light_step (mkLight m ws None) s2 ->
  light_ok s2 /\ (p < current (wc s2) \/
    current (wc s2) = p /\ closed (wc s2) = true /\ closing s2 = None).
Proof.
  intros Hok Hcl Hcur Hr. induction Hr as [|a b _ [Ha Hb] Hstep]; [auto|].
  split; [by eapply light_step_ok|].
  destruct Hstep as [m1 ws1 c pulse m' E|m1 ws1 pulse ws2 c m' E|m1 ws1 pulse m' e Hc E
    |m1 ws1 pulse m' E|m1 ws1 pulse E]; cbn [wc closing] in *.
  - unfold Begin in E. by destruct (check_begin _ _ _); injection E as <-.
  - unfold done_ in E. apply go_bind_ret in E as (n & _ & [= <-]). done.
  - unfold Open in E. destruct (check_open _ _) eqn:Eo; injection E as <- _; [done|].
    apply check_open_None in Eo. left. cbn. lia.
  - unfold Close in E. destruct (check_close _ _ _) as [[]|] eqn:Ec; [|done|done].
    injection E as <-. apply check_close_true in Ec as (_ & _ & Hop). left.
    cbn. destruct Hb as [?|(_ & ? & _)]; [done|congruence].
  - left. destruct Hb as [?|(_ & _ & ?)]; [lia|done].
Qed.

Lemma virtual_after_close p s1 s2 :
  virtual_ok s1 -> v_closed (vc s1) = true -> v_current (vc s1) = p -> v_phase s1 = Waited p ->
  reach virtual_step s1 s2 ->
  virtual_ok s2 /\ (p < v_current (vc s2) \/
    v_current (vc s2) = p /\ v_closed (vc s2) = true /\ (forall q, v_phase s2 <> Waiting q)).
Proof.
  intros Hok Hcl Hcur Hph Hr. induction Hr as [|a b _ [Ha Hb] Hstep].
  { split; [done|]. right. rewrite Hph. auto. }
  split; [by eapply virtual_step_ok|].
  destruct Hstep as [m ws c q pulse m' E|m ws1 pulse ws2 c q m' E|m ws q pulse m' e Hc E
    |m ws q pulse m' E|m ws q pulse E|m ws q pulse|m ws c q g E|m ws c q1 w q2 E];
    cbn [vc v_phase] in *; try done.
  - unfold VBegin in E. by destruct (check_begin _ _ _); injection E as <-.
  - unfold v_done in E. apply go_bind_ret in E as (n & _ & [= <-]). done.
  - unfold VOpen in E. destruct (check_open _ _) eqn:Eo; [by injection E as <- _|].
    apply check_open_None in Eo. apply go_bind_ret in E as (n & _ & [= <- _]). left. cbn. lia.
  - unfold VClose in E. destruct (check_close _ _ _) as [[]|] eqn:Ec; [|done|done].
    injection E as <-. apply check_close_true in Ec as (_ & _ & Hop). left. cbn.
    destruct Hb as [?|(_ & ? & _)]; [done|congruence].
  - destruct Hb as [?|(_ & _ & Hn)]; [by left|]. by destruct (Hn pulse).
  - destruct Hb as [?|(? & ? & Hn)]; [by left|right]. by split_and!.
Qed.

(** C28: On the light node, whatever the interleaving of writers and manager: no
    writer's [done] ever panics; [CloseAndWait] returns exactly when no
    writer is left, and from then on every writer works on a later pulse. *)
Theorem light_write_barrier s :
  reach light_step light0 s ->
  (writers s <> [] -> exists m', done_ (wc s) = Ret m') /\
  (forall p, closing s = Some p ->
     (wg (wc s) = 0 <-> writers s = []) /\
     (wg (wc s) = 0 -> forall s2, reach light_step (mkLight (wc s) (writers s) None) s2 ->
        Forall (fun pulse => p < pulse) (writers s2))).
Proof.
  intros Hreach. assert (Hok : light_ok s).
  { eapply reach_invariant; [apply light0_ok|apply light_step_ok|exact Hreach]. }
  pose proof Hok as [Hc Hp Hq Hw]. split.
  - intros Hne. unfold done_, wg_Done. destruct (Z.leb_spec (wg (wc s)) 0); [|by eexists].
    exfalso. apply Hne, nil_length_inv. lia.
  - intros p Hcl. destruct (Hw p Hcl) as [Hclosed Hcur].
    split; [rewrite Hc; by destruct (writers s)|]. intros Hz s2 Hr2.
    destruct (light_after_close p (writers s) (wc s) s2) as [[_ Hp2 Hq2 _] Hcase]; [|done..|].
    { eapply light_step_ok; [exact Hok|]. destruct s as [m ws cl]. cbn in *. subst cl.
      by apply light_closed. }
    destruct Hcase as [Hlt|(_ & Hcl2 & Hn)]; [|by rewrite Hq2].
    eapply Forall_impl; [|exact Hp2]. by intros ? <-.
Qed.

(** On the virtual node the same holds: no call panics, closing returns
    with no writer left and every later writer is on a later pulse; and a
    caller of [WaitOpened] that came while the barrier was closed and the
    manager idle gets through only after a later pulse was opened. *)
Theorem virtual_write_barrier s :
  reach virtual_step virtual0 s ->
  (v_writers s <> [] -> exists m', v_done (vc s) = Ret m') /\
  (v_phase s = Idle -> v_closed (vc s) = true -> forall pulse, exists r, VOpen (vc s) pulse = Ret r) /\
  (forall p, v_phase s = Waiting p -> counter (vc s) = 0 <-> v_writers s = []) /\
  (forall p s2, v_phase s = Waited p -> reach virtual_step s s2 ->
     Forall (fun pulse => p < pulse) (v_writers s2)) /\
  (forall w, w ∈ waiters s -> w_idle w = true -> nth (w_group w) (groups (vc s)) 0 = 0 ->
     w_pulse w < v_current (vc s)).
Proof.
  intros Hreach. assert (Hok : virtual_ok s).
  { eapply reach_invariant; [apply virtual0_ok|apply virtual_step_ok|exact Hreach]. }
  pose proof Hok as [H1 H2 H3 H4 H5 H6]. split_and!.
  - intros Hne. unfold v_done, wg_Done. destruct (Z.leb_spec (counter (vc s)) 0); [|by eexists].
    exfalso. apply Hne, nil_length_inv. unfold held in H2. destruct (_ && _); lia.
  - intros Hid Hcl pulse. unfold VOpen. destruct (check_open _ _); [by eexists|].
    unfold wg_Done. rewrite H2. unfold held. rewrite Hid, Hcl. cbn.
    destruct (Z.leb_spec (Z.of_nat (length (v_writers s)) + 1) 0); [lia|by eexists].
  - intros p Hph. rewrite H2. unfold held. rewrite Hph, andb_false_r, Z.add_0_r. by destruct (v_writers s).
  - intros p s2 Hph Hr. destruct (H5 p (or_intror Hph)) as [Hcl Hcur].
    destruct (virtual_after_close p s s2 Hok Hcl Hcur Hph Hr) as [[_ _ Hp2 Hq2 _ _] Hcase].
    destruct Hcase as [Hlt|(_ & Hcl2 & Hn)]; [|by rewrite Hq2].
    eapply Forall_impl; [|exact Hp2]. by intros ? <-.
  - intros w Hin Hid Hz. rewrite list.Forall_forall in H6. destruct (H6 w Hin) as [_ Hw].
    destruct (Hw Hid) as [(Hg & _ & Hcl & Hph)|[_ ?]]; [|done]. exfalso.
    rewrite Hg in Hz. fold (counter (vc s)) in Hz. rewrite H2 in Hz. unfold held in Hz.
    rewrite Hcl, Hph in Hz. cbn in Hz. lia.
Qed.

(** [WaitOpened] can return although nothing was opened: a caller that comes
    between the closing of the pulse and the [Add] at the end of
    [CloseAndWait] waits on a group with no member. *)
Theorem WaitOpened_returns_early :
  exists s w, reach virtual_step virtual0 s /\ w ∈ waiters s /\
    virtual_step s (mkVirtual (vc s) (v_writers s) (v_phase s) []) /\
    v_closed (vc s) = true /\ v_current (vc s) = w_pulse w.
Proof.
  pose (m1 := mkVC 65537 false [0; 0] 1). pose (m2 := mkVC 65537 true [0; 0] 1).
  pose (w := mkWaiter 1 65537 false).
  exists (mkVirtual m2 [] (Waiting 65537) [w]), w. split.
  - eapply reach_step; [|by apply (v_step_wait m2 [] (Waiting 65537) [] 1)].
    eapply reach_step; [|by apply (v_step_close m1 [] [] 65537 m2)].
    eapply reach_step; [apply reach_init|]. by apply (v_step_open _ [] [] 65537 m1 None).
  - split; [by left|]. split; [|done]. by apply (v_step_return m2 [] (Waiting 65537) [] w []).
Qed.

(** ** The theorems at work: a writer on 65537, then closing begins. *)
Lemma light_write_barrier_witness :
  exists m', done_ (mkWC 65537 true 1) = Ret m' /\
    Forall (fun pulse => 65537 < pulse) ([] : list Z).
Proof.
  pose (s := mkLight (mkWC 65537 true 1) [65537] (Some 65537)).
  assert (Hs : reach light_step light0 s).
  { eapply reach_step; [|by apply (light_close (mkWC 65537 false 1) [65537] 65537)].
    eapply reach_step; [|by apply (light_begin (mkWC 65537 false 0) [] None 65537)].
    eapply reach_step; [apply reach_init|]. by apply (light_open _ [] 65537 _ None). }
  destruct (light_write_barrier s Hs) as [Hd _]. destruct Hd as [m' Hm]; [done|].
  exists m'. split; [exact Hm|].
  assert (Hs2 : reach light_step light0 (mkLight (mkWC 65537 true 0) [] (Some 65537))).
  { eapply reach_step; [exact Hs|]. by apply (light_done _ [] 65537 []). }
  destruct (light_write_barrier _ Hs2) as [_ Hc]. destruct (Hc 65537 eq_refl) as [_ Hq].
  apply (Hq eq_refl (mkLight (mkWC 65537 true 0) [] None)), reach_init.
Defined.

Lemma virtual_write_barrier_witness :
  (exists r, VOpen VNewWriteController 65537 = Ret r) /\ 0 < 65537.
Proof.
  split.
  - apply (virtual_write_barrier virtual0 (reach_init _ _)); done.
  - pose (w := mkWaiter 0 0 true). pose (m := mkVC 65537 false [0; 0] 1).
    assert (Hs : reach virtual_step virtual0 (mkVirtual m [] Idle [w])).
    { eapply reach_step; [|by apply (v_step_open VNewWriteController [] [w] 65537 m None)].
      eapply reach_step; [apply reach_init|]. by apply (v_step_wait VNewWriteController [] Idle [] 0). }
    destruct (virtual_write_barrier _ Hs) as (_ & _ & _ & _ & Hw). by apply (Hw w); [left|..].
Defined.
