(* ===== verification/Records.v ===== *)
(** * Records, lifelines and their storages (src/insolar/record,
    src/insolar/store/jetindex.go, src/ledger/object)

    The messages of record.proto, the requests as the interface [Request],
    identifiers derived from hashes, and the two storages of a light node: the
    records of memory ([RecordMemory], with its index by jet) and the lifelines
    per pulse ([IndexStorageMemory]).

    The polymorph number of the messages, which no code here reads, is left
    out.  Optional fields and pointers to immutable values are options. *)
From S2P Require Import Prelude Pulse PulseStore Reference Jet.

(** ** record.proto: the messages *)
Definition CTMethod : Z := 0.
Definition CTSaveAsChild : Z := 1.
Definition CTGenesis : Z := 2.
Definition CTDeployPrototype : Z := 3.
Definition ReturnResult : Z := 0.
Definition ReturnSaga : Z := 1.

(** [IncomingRequest] and [OutgoingRequest] have the same fields. *)
Record RequestBody : Type := mkRequest {
  CallType : Z;
  Caller : Global;
  CallerPrototype : Global;
  Nonce : Z;
  ReturnMode : Z;
  Immutable : bool;
  Base : option Global;
  Object : option Global;
  Prototype : option Global;
  Method : string;
  Arguments : list Z;
  APIRequestID : string;
  Reason : Global;
  APINode : Global;
}.

Record ResultBody : Type := mkResult {
  Result_Object : Local;
  Result_Request : Global;
  Result_Payload : list Z;
}.
Record CodeBody : Type := mkCode {
  Code_Request : Global;
  Code_Code : list Z;
  MachineType : Z;
}.
Record ActivateBody : Type := mkActivate {
  Activate_Request : Global;
  Activate_Memory : list Z;
  Activate_Image : Global;
  Activate_IsPrototype : bool;
  Activate_Parent : Global;
}.
Record AmendBody : Type := mkAmend {
  Amend_Request : Global;
  Amend_Memory : list Z;
  Amend_Image : Global;
  Amend_IsPrototype : bool;
  Amend_PrevState : Local;
}.
Record DeactivateBody : Type := mkDeactivate {
  Deactivate_Request : Global;
  Deactivate_PrevState : Local;
}.
Record FilamentBody : Type := mkFilament {
  Filament_RecordID : Local;
  PreviousRecord : option Local;
}.

(** The implementations of the interfaces [Request] and [State]. *)
Inductive Request : Type :=
  | IncomingRequest (r : RequestBody)
  | OutgoingRequest (r : RequestBody).
Inductive State : Type :=
  | Genesis (hash : list Z)
  | Activate (s : ActivateBody)
  | Amend (s : AmendBody)
  | Deactivate (s : DeactivateBody).

(** The interface [Record]; a type switch is a match. *)
Inductive AnyRecord : Type :=
  | RequestRecord (q : Request)
  | StateRecord (s : State)
  | Result (r : ResultBody)
  | Code (c : CodeBody)
  | PendingFilament (f : FilamentBody).

Record Virtual : Type := mkVirtual {
  Union : option AnyRecord;
  Virtual_Signature : list Z;
}.
Record Material : Type := mkMaterial {
  Material_Virtual : Virtual;
  Material_ID : Local;
  Material_ObjectID : Local;
  Material_JetID : Local;
  Material_Signature : list Z;
}.
Record CompositeFilamentRecord : Type := mkComposite {
  RecordID : Local;
  Rec : Material;
  MetaID : Local;
  Meta : Material;
}.
Record Lifeline : Type := mkLifeline {
  LatestState : option Local;
  StateID : Z;
  Parent : Global;
  LatestRequest : option Local;
  EarliestOpenRequest : option Z;
  OpenRequestsCount : Z;
}.
Record Index : Type := mkIndex {
  ObjID : Local;
  Index_Lifeline : Lifeline;
  LifelineLastUsed : Z;
  PendingRecords : list Local;
}.

Definition emptyLifeline : Lifeline := mkLifeline None 0 emptyGlobal None None 0.

#[export] Instance RequestBody_eq_dec : EqDecision RequestBody.
Proof. solve_decision. Defined.
#[export] Instance Request_eq_dec : EqDecision Request.
Proof. solve_decision. Defined.
#[export] Instance ResultBody_eq_dec : EqDecision ResultBody.
Proof. solve_decision. Defined.
#[export] Instance CodeBody_eq_dec : EqDecision CodeBody.
Proof. solve_decision. Defined.
#[export] Instance ActivateBody_eq_dec : EqDecision ActivateBody.
Proof. solve_decision. Defined.
#[export] Instance AmendBody_eq_dec : EqDecision AmendBody.
Proof. solve_decision. Defined.
#[export] Instance DeactivateBody_eq_dec : EqDecision DeactivateBody.
Proof. solve_decision. Defined.
#[export] Instance FilamentBody_eq_dec : EqDecision FilamentBody.
Proof. solve_decision. Defined.
#[export] Instance State_eq_dec : EqDecision State.
Proof. solve_decision. Defined.
#[export] Instance AnyRecord_eq_dec : EqDecision AnyRecord.
Proof. solve_decision. Defined.
#[export] Instance Virtual_eq_dec : EqDecision Virtual.
Proof. solve_decision. Defined.
#[export] Instance Material_eq_dec : EqDecision Material.
Proof. solve_decision. Defined.
#[export] Instance Composite_eq_dec : EqDecision CompositeFilamentRecord.
Proof. solve_decision. Defined.
#[export] Instance Lifeline_eq_dec : EqDecision Lifeline.
Proof. solve_decision. Defined.
#[export] Instance Index_eq_dec : EqDecision Index.
Proof. solve_decision. Defined.

(** ** helperproto.go *)
Definition record_Wrap (r : AnyRecord) : Virtual := mkVirtual (Some r) [].
Definition Unwrap (v : Virtual) : option AnyRecord := Union v.

(** ** record.go: states *)
Definition StateUndefined : Z := 0.
Definition StateActivation : Z := 1.
Definition StateAmend : Z := 2.
Definition StateDeactivation : Z := 3.

Definition State_ID (s : State) : Z :=
  match s with
  | Genesis _ | Activate _ => StateActivation
  | Amend _ => StateAmend
  | Deactivate _ => StateDeactivation
  end.
Definition GetImage (s : State) : option Global :=
  match s with
  | Activate a => Some (Activate_Image a)
  | Amend a => Some (Amend_Image a)
  | Deactivate _ | Genesis _ => None
  end.
Definition GetIsPrototype (s : State) : bool :=
  match s with
  | Activate a => Activate_IsPrototype a
  | Amend a => Amend_IsPrototype a
  | Deactivate _ | Genesis _ => false
  end.
Definition GetMemory (s : State) : list Z :=
  match s with
  | Activate a => Activate_Memory a
  | Amend a => Amend_Memory a
  | Deactivate _ | Genesis _ => []
  end.
Definition PrevStateID (s : State) : option Local :=
  match s with
  | Activate _ | Genesis _ => None
  | Amend a => Some (Amend_PrevState a)
  | Deactivate a => Some (Deactivate_PrevState a)
  end.

(** ** record.go: requests *)
Definition body (q : Request) : RequestBody :=
  match q with IncomingRequest r | OutgoingRequest r => r end.

Definition ReasonRef (q : Request) : Global := Reason (body q).
Definition ReasonAffinityRef (q : Request) : Global := Caller (body q).

Definition IsAPIRequest (q : Request) : bool :=
  match q with
  | IncomingRequest r => negb (Global_IsEmpty (APINode r))
  | OutgoingRequest _ => false
  end.
Definition IsCreationRequest (q : Request) : bool :=
  match q with
  | IncomingRequest r => (CallType r =? CTSaveAsChild) || (CallType r =? CTDeployPrototype)
  | OutgoingRequest _ => false
  end.
Definition IsTemporaryUploadCode (q : Request) : bool :=
  match q with
  | IncomingRequest r => CallType r =? CTDeployPrototype
  | OutgoingRequest _ => false
  end.
Definition AffinityRef (q : Request) : option Global :=
  match q with
  | IncomingRequest r => if IsCreationRequest q then None else Object r
  | OutgoingRequest r => Some (Caller r)
  end.
Definition IsDetachedCall (r : RequestBody) : bool := ReturnMode r =? ReturnSaga.
Definition IsDetached (r : RequestBody) : bool := ReturnMode r =? ReturnSaga.

(** [Validate]: the error, if any. *)
Definition Request_Validate (q : Request) : option error :=
  match q with
  | IncomingRequest _ =>
      if Local_IsEmpty (addressLocal (ReasonRef q)) then Some (Errorf "reason is empty")
      else if IsAPIRequest q then None
      else if Global_IsEmpty (ReasonAffinityRef q)
      then Some (Errorf "reason object is not set on incoming request")
      else None
  | OutgoingRequest _ =>
      if IsCreationRequest q then Some (Errorf "outgoing request cannot be creating request")
      else if Local_IsEmpty (addressLocal (ReasonRef q)) then Some (Errorf "reason is empty")
      else None
  end.

(** ** hasher.go: hashes and the identifiers made of them

    The generated marshalling of messages and the hash of the platform's
    cryptography scheme. *)
Class Scheme : Type := {
  Virtual_Marshal : Virtual -> result (list Z);
  Material_Marshal : Material -> result (list Z);
  Material_Unmarshal : list Z -> result Material;
  Request_Marshal : Request -> result (list Z);
  Lifeline_Marshal : Lifeline -> result (list Z);
  Lifeline_Unmarshal : list Z -> result Lifeline;
  ReferenceHasher : list Z -> list Z;
}.

Definition HashVirtual `{Scheme} (v : Virtual) : go (list Z) :=
  match Virtual_Marshal (mkVirtual (Union v) []) with
  | Good buf => Ret (ReferenceHasher buf)
  | Fail _ => Panic "marshal"
  end.

Definition CalculateRequestAffinityRef `{Scheme} (q : Request) (pn : Z) : go Global :=
  match AffinityRef q with
  | Some ref => Ret ref
  | None =>
      h ← HashVirtual (record_Wrap (RequestRecord q));
      recID ← NewID pn h;
      NewSelfRef recID
  end.

Definition ObjectIDFromRequest `{Scheme} (q : Request) (requestID : Local) : go (result Local) :=
  if negb (IsCreationRequest q) then
    match AffinityRef q with
    | None => Ret (Fail (Errorf "affinity ref is empty"))
    | Some ref => Ret (Good (addressLocal ref))
    end
  else
    match Virtual_Marshal (record_Wrap (RequestRecord q)) with
    | Fail e => Ret (Fail e)
    | Good buf => id ← NewID (Local_Pulse requestID) (ReferenceHasher buf); Ret (Good id)
    end.

(** ** store/jetindex.go *)
Abbreviation JetIndex := (gmap Local (gset Local)).

Definition JetIndex_Add (i : JetIndex) (id jetID : Local) : JetIndex :=
  <[jetID := default ∅ (i !! jetID) ∪ {[id]}]> i.
Definition JetIndex_Delete (i : JetIndex) (id jetID : Local) : JetIndex :=
  match i !! jetID with
  | None => i
  | Some jet =>
      let jet' := jet ∖ {[id]} in
      if decide (jet' = ∅) then delete jetID i else <[jetID := jet']> i
  end.
Definition JetIndex_For (i : JetIndex) (jetID : Local) : gset Local := default ∅ (i !! jetID).

(** ** object/record.go: the records in memory *)
Definition object_ErrNotFound : error := Errorf "object not found".
Definition object_ErrOverride : error := Errorf "record override is forbidden".
Definition ErrIndexNotFound : error := Errorf "index not found".

Record RecordMemory : Type := mkRecordMemory {
  jetIndex : JetIndex;
  recsStor : gmap Local Material;
}.
Definition NewRecordMemory : RecordMemory := mkRecordMemory ∅ ∅.

Fixpoint SetAtomic_check (stor : gmap Local Material) (recs : list Material) : option error :=
  match recs with
  | [] => None
  | r :: recs' =>
      if Local_IsEmpty (Material_ID r) then Some (Errorf "id is empty")
      else match stor !! Material_ID r with
           | Some _ => Some object_ErrOverride
           | None => SetAtomic_check stor recs'
           end
  end.
Definition SetAtomic_store (m : RecordMemory) (r : Material) : RecordMemory :=
  mkRecordMemory (JetIndex_Add (jetIndex m) (Material_ID r) (Material_JetID r))
    (<[Material_ID r := r]> (recsStor m)).
Definition SetAtomic (m : RecordMemory) (recs : list Material) : RecordMemory * option error :=
  match SetAtomic_check (recsStor m) recs with
  | Some e => (m, Some e)
  | None => (foldl SetAtomic_store m recs, None)
  end.

Definition Record_ForID (m : RecordMemory) (id : Local) : result Material :=
  match recsStor m !! id with Some r => Good r | None => Fail object_ErrNotFound end.

Definition zeroMaterial : Material :=
  mkMaterial (mkVirtual None []) emptyLocal emptyLocal emptyLocal [].

(** The records of a jet in a pulse; Go's order of iteration is any. *)
Definition Record_ForPulse (m : RecordMemory) (jetID : Local) (pn : Z) : list Material :=
  (fun id => default zeroMaterial (recsStor m !! id)) <$>
    filter (fun id => Local_Pulse id = pn) (elements (JetIndex_For (jetIndex m) jetID)).

Definition Record_DeleteForPN (m : RecordMemory) (pulse : Z) : RecordMemory :=
  foldl (fun m '(id, r) =>
           if decide (Local_Pulse id = pulse)
           then mkRecordMemory (JetIndex_Delete (jetIndex m) id (Material_JetID r))
                  (delete id (recsStor m))
           else m) m (map_to_list (recsStor m)).

(** ** object/index_memory.go: the lifelines per pulse

    [set] stops the process when a new index loses what the saved one knew. *)
Abbreviation IndexStorageMemory := (gmap Z (gmap Local Index)).

Definition CloneLifeline (idx : Lifeline) : Lifeline :=
  mkLifeline (LatestState idx) (StateID idx) (Parent idx) (LatestRequest idx)
    (EarliestOpenRequest idx) (OpenRequestsCount idx).
Definition Index_clone (index : Index) : Index :=
  mkIndex (ObjID index) (CloneLifeline (Index_Lifeline index)) (LifelineLastUsed index)
    ([] ++ PendingRecords index).

Definition Index_ForID (i : IndexStorageMemory) (pn : Z) (objID : Local) : result Index :=
  match i !! pn with
  | None => Fail ErrIndexNotFound
  | Some objsByPn =>
      match objsByPn !! objID with
      | None => Fail ErrIndexNotFound
      | Some idx => Good (Index_clone idx)
      end
  end.

Definition Index_ForPulse (i : IndexStorageMemory) (pn : Z) : result (list Index) :=
  match i !! pn with
  | None => Fail ErrIndexNotFound
  | Some bucks => Good ((fun kv => Index_clone kv.2) <$> map_to_list bucks)
  end.

Definition later_than (a b : option Z) : bool :=
  match a, b with Some x, Some y => x >? y | _, _ => false end.
Definition lost {A} (a b : option A) : bool :=
  match a, b with Some _, None => true | _, _ => false end.
Definition pulse_of (o : option Local) : option Z := Local_Pulse <$> o.

(** The conditions of [set] under which the process stops. *)
Definition set_fatal (saved bucket : Index) : option string :=
  let s := Index_Lifeline saved in let b := Index_Lifeline bucket in
  if LifelineLastUsed saved >? LifelineLastUsed bucket
  then Some "savedBuck.LifelineLastUsed > bucket.LifelineLastUsed"%string
  else if decide (length (PendingRecords bucket) < length (PendingRecords saved))%nat
  then Some "len(savedBuck.PendingRecords) > len(bucket.PendingRecords)"%string
  else if later_than (EarliestOpenRequest s) (EarliestOpenRequest b)
  then Some "*savedBuck.Lifeline.EarliestOpenRequest > *bucket.Lifeline.EarliestOpenRequest"%string
  else if negb (Global_IsEmpty (Parent s)) && negb (bool_decide (Parent s = Parent b))
  then Some "savedBuck.Lifeline.Parent != bucket.Lifeline.Parent"%string
  else if lost (LatestRequest s) (LatestRequest b) then Some "LatestRequest lost"%string
  else if later_than (pulse_of (LatestRequest s)) (pulse_of (LatestRequest b))
  then Some "LatestRequest in the past"%string
  else if lost (LatestState s) (LatestState b) then Some "LatestState lost"%string
  else if later_than (pulse_of (LatestState s)) (pulse_of (LatestState b))
  then Some "LatestState in the past"%string
  else None.

Definition bucket_of (i : IndexStorageMemory) (pn : Z) : gmap Local Index := default ∅ (i !! pn).

Definition Index_set (i : IndexStorageMemory) (pn : Z) (bucket : Index) : go IndexStorageMemory :=
  let put := Ret (<[pn := <[ObjID bucket := bucket]> (bucket_of i pn)]> i) in
  match bucket_of i pn !! ObjID bucket with
  | None => put
  | Some saved => match set_fatal saved bucket with Some msg => Panic msg | None => put end
  end.

Definition Index_Set (i : IndexStorageMemory) (pn : Z) (bucket : Index) : go IndexStorageMemory :=
  Index_set (<[pn := bucket_of i pn]> i) pn bucket.

Definition Index_SetIfNone (i : IndexStorageMemory) (pn : Z) (bucket : Index) :
  go IndexStorageMemory :=
  let i' := <[pn := bucket_of i pn]> i in
  match bucket_of i pn !! ObjID bucket with
  | Some _ => Ret i'
  | None => Index_set i' pn bucket
  end.

Definition Index_DeleteForPN (i : IndexStorageMemory) (pn : Z) : IndexStorageMemory := delete pn i.

(** ** The record storage and its index by jet *)

(** The index knows exactly the stored records, and no jet without records. *)
Record indexed_by_jet (m : RecordMemory) : Prop := {
  ij_known : forall jet id, id ∈ JetIndex_For (jetIndex m) jet <->
    exists r, recsStor m !! id = Some r /\ Material_JetID r = jet;
  ij_lean : forall jet, jetIndex m !! jet <> Some ∅;
}.

Lemma JetIndex_For_Add i id jetID jet :
  JetIndex_For (JetIndex_Add i id jetID) jet =
  if decide (jetID = jet) then JetIndex_For i jet ∪ {[id]} else JetIndex_For i jet.
Proof.
  unfold JetIndex_For, JetIndex_Add. destruct (decide (jetID = jet)) as [->|Hne].
  - by rewrite lookup_insert_eq.
  - by rewrite lookup_insert_ne.
Qed.

Lemma JetIndex_For_Delete i id jetID jet :
  JetIndex_For (JetIndex_Delete i id jetID) jet =
  if decide (jetID = jet) then JetIndex_For i jet ∖ {[id]} else JetIndex_For i jet.
Proof.
  unfold JetIndex_For, JetIndex_Delete.
  destruct (i !! jetID) as [s|] eqn:E.
  - destruct (decide (s ∖ {[id]} = ∅)) as [H0|H0]; destruct (decide (jetID = jet)) as [->|Hne].
    + rewrite lookup_delete_eq, E. simpl. by rewrite H0.
    + by rewrite lookup_delete_ne.
    + by rewrite lookup_insert_eq, E.
    + by rewrite lookup_insert_ne.
  - destruct (decide (jetID = jet)) as [->|]; [|done]. rewrite E. simpl.
    apply leibniz_equiv. intros x. rewrite elem_of_difference. split; [done|].
    by intros [? _].
Qed.

Lemma JetIndex_Add_lean i id jetID :
  (forall jet, i !! jet <> Some ∅) -> forall jet, JetIndex_Add i id jetID !! jet <> Some ∅.
Proof.
  intros Hl jet. unfold JetIndex_Add. destruct (decide (jetID = jet)) as [->|Hne].
  - rewrite lookup_insert_eq. intros [= E].
    assert (id ∈ (∅ : gset Local)) as []%not_elem_of_empty.
    rewrite <- E. apply elem_of_union_r, elem_of_singleton_2. done.
  - rewrite lookup_insert_ne by done. apply Hl.
Qed.

Lemma JetIndex_Delete_lean i id jetID :
  (forall jet, i !! jet <> Some ∅) -> forall jet, JetIndex_Delete i id jetID !! jet <> Some ∅.
Proof.
  intros Hl jet. unfold JetIndex_Delete. destruct (i !! jetID) as [s|] eqn:E; [|apply Hl].
  destruct (decide _) as [H0|H0]; destruct (decide (jetID = jet)) as [->|Hne].
  - by rewrite lookup_delete_eq.
  - rewrite lookup_delete_ne by done. apply Hl.
  - rewrite lookup_insert_eq. by intros [= ?].
  - rewrite lookup_insert_ne by done. apply Hl.
Qed.

Lemma indexed_by_jet_new : indexed_by_jet NewRecordMemory.
Proof.
  split; [|done]. intros jet id. split.
  - intros H. by apply not_elem_of_empty in H.
  - intros (r & H & _). done.
Qed.

Lemma SetAtomic_store_indexed m r :
  recsStor m !! Material_ID r = None -> indexed_by_jet m -> indexed_by_jet (SetAtomic_store m r).
Proof.
  intros Hnew [Hk Hl]. split; simpl; [|by apply JetIndex_Add_lean].
  intros jet id. rewrite JetIndex_For_Add. destruct (decide (Material_ID r = id)) as [<-|Hne].
  - rewrite lookup_insert_eq. destruct (decide (Material_JetID r = jet)) as [Hj|Hj].
    + rewrite elem_of_union, elem_of_singleton. split; [by exists r|by right].
    + rewrite Hk. split; [intros (r' & E & _); congruence|by intros (r' & [= <-] & ?)].
  - rewrite lookup_insert_ne by done. destruct (decide (Material_JetID r = jet)).
    + rewrite elem_of_union, elem_of_singleton, Hk. intuition congruence.
    + apply Hk.
Qed.

Lemma SetAtomic_check_None stor recs :
  SetAtomic_check stor recs = None <->
  Forall (fun r => Local_IsEmpty (Material_ID r) = false /\ stor !! Material_ID r = None) recs.
Proof.
  induction recs as [|r recs IH]; simpl; [by split|].
  rewrite list.Forall_cons, <- IH. destruct (Local_IsEmpty _); [intuition congruence|].
  destruct (stor !! Material_ID r); intuition congruence.
Qed.

Lemma foldl_store_lookup recs m id :
  recsStor (foldl SetAtomic_store m recs) !! id =
  match list_find (fun r => Material_ID r = id) (reverse recs) with
  | Some (_, r) => Some r
  | None => recsStor m !! id
  end.
Proof.
  induction recs as [|r recs IH] using rev_ind; [done|].
  rewrite foldl_snoc, reverse_snoc. simpl.
  destruct (decide (Material_ID r = id)) as [E|E].
  - rewrite E. by rewrite lookup_insert_eq.
  - rewrite lookup_insert_ne by done. rewrite IH.
    by destruct (list_find _ (reverse recs)) as [[]|].
Qed.

Lemma foldl_store_indexed recs m :
  NoDup (Material_ID <$> recs) ->
  Forall (fun r => recsStor m !! Material_ID r = None) recs ->
  indexed_by_jet m -> indexed_by_jet (foldl SetAtomic_store m recs).
Proof.
  revert m. induction recs as [|r recs IH]; intros m Hd Hn Hi; simpl; [done|].
  apply list.NoDup_cons in Hd as [Hr Hd]. apply list.Forall_cons in Hn as [Hr' Hn].
  apply IH; [done| |by apply SetAtomic_store_indexed].
  apply list.Forall_forall. intros x Hx. simpl. rewrite lookup_insert_ne.
  - revert x Hx. by apply list.Forall_forall.
  - intros E. apply Hr. rewrite E. by apply list_elem_of_fmap_2.
Qed.

Lemma foldl_store_other recs m id :
  id ∉ Material_ID <$> recs -> recsStor (foldl SetAtomic_store m recs) !! id = recsStor m !! id.
Proof.
  intros Hid. rewrite foldl_store_lookup.
  destruct (list_find _ _) as [[i r]|] eqn:E; [|done].
  apply list_find_Some in E as (Hr & <- & _). destruct Hid.
  apply list_elem_of_fmap_2. apply list_elem_of_lookup_2 in Hr. by rewrite elem_of_reverse in Hr.
Qed.

Lemma foldl_store_found recs m r :
  NoDup (Material_ID <$> recs) -> r ∈ recs ->
  recsStor (foldl SetAtomic_store m recs) !! Material_ID r = Some r.
Proof.
  revert m. induction recs as [|x recs IH]; intros m Hd Hr; [by apply not_elem_of_nil in Hr|].
  apply list.NoDup_cons in Hd as [Hx Hd]. apply elem_of_cons in Hr as [->|Hr]; simpl.
  - rewrite foldl_store_other by done. apply lookup_insert_eq.
  - by apply IH.
Qed.

Lemma ForID_missing m r :
  Local_IsEmpty (Material_ID r) = false /\ recsStor m !! Material_ID r = None <->
  Local_IsEmpty (Material_ID r) = false /\
  Record_ForID m (Material_ID r) = Fail object_ErrNotFound.
Proof. unfold Record_ForID. destruct (recsStor m !! _); intuition congruence. Qed.

Lemma ForPulse_exact m :
  indexed_by_jet m -> forall jet pn r, r ∈ Record_ForPulse m jet pn <->
    exists id, recsStor m !! id = Some r /\ Material_JetID r = jet /\ Local_Pulse id = pn.
Proof.
  intros [Hk _] jet pn r. unfold Record_ForPulse. rewrite list_elem_of_fmap. split.
  - intros (id & -> & Hid). apply list_elem_of_filter in Hid as [Hp Hid].
    apply elem_of_elements, Hk in Hid as (r & E & Hj). exists id. by rewrite E.
  - intros (id & E & Hj & Hp). exists id. rewrite E. split; [done|].
    apply list_elem_of_filter. split; [done|]. apply elem_of_elements, Hk. eauto.
Qed.

(** [SetAtomic] stores all records or none: it succeeds exactly when every
    identifier is set and unknown, then every record of the batch is found
    under its identifier and every other is as before; otherwise the storage
    is unchanged.  Either way the index by jet stays exact, so that
    [ForPulse] returns precisely the records of a jet in a pulse. *)
Theorem SetAtomic_all_or_nothing m recs :
  indexed_by_jet m -> NoDup (Material_ID <$> recs) ->
  let '(m', err) := SetAtomic m recs in
  (err = None <-> Forall (fun r => Local_IsEmpty (Material_ID r) = false /\
                                   Record_ForID m (Material_ID r) = Fail object_ErrNotFound) recs) /\
  match err with
  | Some _ => m' = m
  | None =>
      (forall r, r ∈ recs -> Record_ForID m' (Material_ID r) = Good r) /\
      (forall id, id ∉ Material_ID <$> recs -> Record_ForID m' id = Record_ForID m id)
  end /\
  (forall jet pn r, r ∈ Record_ForPulse m' jet pn <->
     exists id, recsStor m' !! id = Some r /\ Material_JetID r = jet /\ Local_Pulse id = pn).
Proof.
  intros Hi Hd. unfold SetAtomic. destruct (SetAtomic_check (recsStor m) recs) as [e|] eqn:Hc; cbv iota beta.
  - split; [|split; [done|exact (ForPulse_exact m Hi)]].
    split; [done|]. intros Hf. enough (SetAtomic_check (recsStor m) recs = None) by congruence.
    apply SetAtomic_check_None. eapply Forall_impl; [|exact Hf]. apply ForID_missing.
  - apply SetAtomic_check_None in Hc. split; [split; [|done]|split; [split|]].
    + intros _. eapply Forall_impl; [|exact Hc]. apply ForID_missing.
    + intros r Hr. unfold Record_ForID. by rewrite (foldl_store_found recs m r).
    + intros id Hid. unfold Record_ForID. by rewrite foldl_store_other.
    + apply ForPulse_exact. apply foldl_store_indexed; [done| |done].
      eapply Forall_impl; [|exact Hc]. by intros ? [].
Qed.

Definition recordOf (pn h jet : Z) : Material :=
  mkMaterial (record_Wrap (StateRecord (Genesis []))) (mkLocal pn (replicate 28 h)) emptyLocal
    (mkLocal pulse_Jet (replicate 28 jet)) [].

Lemma SetAtomic_all_or_nothing_witness :
  let recs := [recordOf 65600 1 0; recordOf 65600 2 0] in
  let '(m', err) := SetAtomic NewRecordMemory recs in
  (err = None <-> Forall (fun r => Local_IsEmpty (Material_ID r) = false /\
     Record_ForID NewRecordMemory (Material_ID r) = Fail object_ErrNotFound) recs) /\
  match err with
  | Some _ => m' = NewRecordMemory
  | None =>
      (forall r, r ∈ recs -> Record_ForID m' (Material_ID r) = Good r) /\
      (forall id, id ∉ Material_ID <$> recs -> Record_ForID m' id = Record_ForID NewRecordMemory id)
  end /\
  (forall jet pn r, r ∈ Record_ForPulse m' jet pn <->
     exists id, recsStor m' !! id = Some r /\ Material_JetID r = jet /\ Local_Pulse id = pn).
Proof.
  apply (SetAtomic_all_or_nothing NewRecordMemory); [exact indexed_by_jet_new|].
  apply (bool_decide_unpack _). vm_compute. exact I.
Defined.

Lemma by_jet_delete m id r :
  recsStor m !! id = Some r -> indexed_by_jet m ->
  indexed_by_jet (mkRecordMemory (JetIndex_Delete (jetIndex m) id (Material_JetID r))
                    (delete id (recsStor m))).
Proof.
  intros Hr [Hk Hl]. split; simpl; [|by apply JetIndex_Delete_lean].
  intros jet x. rewrite JetIndex_For_Delete. destruct (decide (x = id)) as [->|Hne].
  - rewrite lookup_delete_eq. destruct (decide (Material_JetID r = jet)) as [Hj|Hj].
    + rewrite elem_of_difference, elem_of_singleton. split; [by intros []|by intros (? & ? & _)].
    + rewrite Hk. split; [|by intros (? & ? & _)]. intros (r' & E & ?). congruence.
  - rewrite lookup_delete_ne by done. destruct (decide (Material_JetID r = jet)).
    + rewrite elem_of_difference, elem_of_singleton, Hk. intuition congruence.
    + apply Hk.
Qed.

(** The loop of [DeleteForPN] over any order of the entries. *)
Lemma Record_DeleteForPN_loop pulse l m :
  NoDup l.*1 -> (forall id r, (id, r) ∈ l -> recsStor m !! id = Some r) -> indexed_by_jet m ->
  let m' := foldl (fun m '(id, r) =>
           if decide (Local_Pulse id = pulse)
           then mkRecordMemory (JetIndex_Delete (jetIndex m) id (Material_JetID r))
                  (delete id (recsStor m))
           else m) m l in
  indexed_by_jet m' /\
  forall id, recsStor m' !! id =
    if decide (Local_Pulse id = pulse /\ id ∈ l.*1) then None else recsStor m !! id.
Proof.
  revert m. induction l as [|[id r] l IH]; intros m Hd Hin Hi; cbn [foldl].
  { split; [done|]. intros id. rewrite decide_False; [done|].
    intros [_ H]. by apply not_elem_of_nil in H. }
  apply list.NoDup_cons in Hd as [Hid Hd].
  destruct (decide (Local_Pulse id = pulse)) as [Hp|Hp].
  - destruct (IH (mkRecordMemory (JetIndex_Delete (jetIndex m) id (Material_JetID r))
      (delete id (recsStor m))) Hd) as [Hi' Hl].
    + intros id' r' H. simpl. rewrite lookup_delete_ne.
      * apply Hin. by right.
      * intros <-. apply Hid. by apply (list_elem_of_fmap_2 fst) in H.
    + apply by_jet_delete; [|done]. apply Hin. by left.
    + split; [done|]. intros x. rewrite Hl. cbn [recsStor fmap list_fmap fst].
      destruct (decide (x = id)) as [->|Hne].
      * rewrite lookup_delete_eq. rewrite (decide_True (P := _ /\ id ∈ id :: _)).
        -- by destruct (decide _).
        -- split; [done|by left].
      * rewrite lookup_delete_ne by done. apply decide_ext.
        rewrite elem_of_cons. intuition congruence.
  - destruct (IH m Hd) as [Hi' Hl]; [|done|].
    + intros id' r' H. apply Hin. by right.
    + split; [done|]. intros x. rewrite Hl. apply decide_ext. cbn [fmap list_fmap fst].
      rewrite elem_of_cons. intuition congruence.
Qed.

Lemma Record_DeleteForPN_spec' m pulse :
  indexed_by_jet m ->
  indexed_by_jet (Record_DeleteForPN m pulse) /\
  forall id, Record_ForID (Record_DeleteForPN m pulse) id =
    if decide (Local_Pulse id = pulse) then Fail object_ErrNotFound else Record_ForID m id.
Proof.
  intros Hi. destruct (Record_DeleteForPN_loop pulse (map_to_list (recsStor m)) m) as [Hi' Hl].
  - apply NoDup_fst_map_to_list.
  - intros id r H. by apply elem_of_map_to_list.
  - done.
  - split; [exact Hi'|]. intros id. unfold Record_ForID. fold (Record_DeleteForPN m pulse) in Hl.
    rewrite Hl. destruct (decide (Local_Pulse id = pulse)) as [Hp|Hp].
    + destruct (decide _) as [_|Hn]; [done|]. destruct (recsStor m !! id) as [r|] eqn:E; [|done].
      destruct Hn. split; [done|]. apply list_elem_of_fmap. exists (id, r).
      split; [done|]. by apply elem_of_map_to_list.
    + rewrite decide_False; [done|]. tauto.
Qed.

(** [DeleteForPN] drops the records of one pulse, no other. *)
Theorem Record_DeleteForPN_spec m pulse :
  indexed_by_jet m ->
  indexed_by_jet (Record_DeleteForPN m pulse) /\
  forall id, Record_ForID (Record_DeleteForPN m pulse) id =
    if decide (Local_Pulse id = pulse) then Fail object_ErrNotFound else Record_ForID m id.
Proof. apply Record_DeleteForPN_spec'. Qed.

Lemma Record_DeleteForPN_spec_witness :
  let m := fst (SetAtomic NewRecordMemory [recordOf 65600 1 0; recordOf 65610 2 0]) in
  indexed_by_jet (Record_DeleteForPN m 65600) /\
  forall id, Record_ForID (Record_DeleteForPN m 65600) id =
    if decide (Local_Pulse id = 65600) then Fail object_ErrNotFound else Record_ForID m id.
Proof.
  apply (Record_DeleteForPN_spec (fst (SetAtomic NewRecordMemory _))).
  apply (foldl_store_indexed [recordOf 65600 1 0; recordOf 65610 2 0] NewRecordMemory).
  - apply (bool_decide_unpack _). vm_compute. exact I.
  - by repeat constructor.
  - exact indexed_by_jet_new.
Defined.

(** ** The lifelines of a pulse only advance *)

Definition known {A} (a b : option A) (R : A -> A -> Prop) : Prop :=
  forall x, a = Some x -> exists y, b = Some y /\ R x y.
Definition not_before (a b : Local) : Prop := Local_Pulse a <= Local_Pulse b.

(** What an index never loses, whatever is stored over it. *)
Record advances (s b : Index) : Prop := {
  adv_used : LifelineLastUsed s <= LifelineLastUsed b;
  adv_pending : (length (PendingRecords s) <= length (PendingRecords b))%nat;
  adv_parent : Global_IsEmpty (Parent (Index_Lifeline s)) = false ->
    Parent (Index_Lifeline b) = Parent (Index_Lifeline s);
  adv_request : known (LatestRequest (Index_Lifeline s)) (LatestRequest (Index_Lifeline b)) not_before;
  adv_state : known (LatestState (Index_Lifeline s)) (LatestState (Index_Lifeline b)) not_before;
}.

#[export] Instance advances_preorder : PreOrder advances.
Proof.
  split.
  - intros s. split; [lia|lia|done| |].
    all: intros x E; exists x; split; [done|unfold not_before; lia].
  - intros a b c [] []. split; [lia|lia| | |].
    + intros Ha. rewrite adv_parent1; [auto|]. by rewrite adv_parent0.
    + intros x Ex. destruct (adv_request0 x Ex) as (y & Ey & ?).
      destruct (adv_request1 y Ey) as (z & Ez & ?). exists z. unfold not_before in *.
      split; [done|lia].
    + intros x Ex. destruct (adv_state0 x Ex) as (y & Ey & ?).
      destruct (adv_state1 y Ey) as (z & Ez & ?). exists z. unfold not_before in *.
      split; [done|lia].
Qed.

Lemma known_pulses (a b : option Local) :
  known a b not_before <-> lost a b = false /\ later_than (pulse_of a) (pulse_of b) = false.
Proof.
  unfold known, not_before. destruct a as [x|], b as [y|]; simpl.
  - split.
    + intros H. destruct (H x) as (? & [= <-] & ?); [done|]. split; [done|lia].
    + intros [_ ?] ? [= <-]. exists y. split; [done|lia].
  - split; [|by intros []]. intros H. destruct (H x) as (? & ? & _); done.
  - by split.
  - by split.
Qed.

Lemma Global_IsEmpty_dec_parent (p q : Global) :
  negb (Global_IsEmpty p) && negb (bool_decide (p = q)) = false <->
  (Global_IsEmpty p = false -> q = p).
Proof.
  destruct (Global_IsEmpty p); simpl; [by split|].
  destruct (bool_decide_reflect (p = q)); simpl; intuition congruence.
Qed.

Lemma set_fatal_None s b :
  set_fatal s b = None <->
  advances s b /\
  later_than (EarliestOpenRequest (Index_Lifeline s)) (EarliestOpenRequest (Index_Lifeline b)) = false.
Proof.
  assert (advances s b <-> LifelineLastUsed s <= LifelineLastUsed b /\
    (length (PendingRecords s) <= length (PendingRecords b))%nat /\
    (Global_IsEmpty (Parent (Index_Lifeline s)) = false ->
     Parent (Index_Lifeline b) = Parent (Index_Lifeline s)) /\
    known (LatestRequest (Index_Lifeline s)) (LatestRequest (Index_Lifeline b)) not_before /\
    known (LatestState (Index_Lifeline s)) (LatestState (Index_Lifeline b)) not_before) as ->.
  { split; [by intros []|]. intros (? & ? & ? & ? & ?). by split. }
  rewrite !known_pulses, <- Global_IsEmpty_dec_parent. unfold set_fatal.
  destruct (Z.gtb_spec (LifelineLastUsed s) (LifelineLastUsed b)); [split; [done|lia]|].
  destruct (decide _); [split; [done|lia]|].
  destruct (later_than (EarliestOpenRequest _) _); [intuition congruence|].
  destruct (negb _ && negb _); [intuition congruence|].
  destruct (lost (LatestRequest _) _); [intuition congruence|].
  destruct (later_than (pulse_of (LatestRequest _)) _); [intuition congruence|].
  destruct (lost (LatestState _) _); [intuition congruence|].
  destruct (later_than (pulse_of (LatestState _)) _); [intuition congruence|].
  intuition lia.
Qed.

Lemma Index_clone_id b : Index_clone b = b.
Proof. by destruct b as [? [] ? ?]. Qed.

Lemma Index_ForID_lookup i pn id :
  Index_ForID i pn id =
  match bucket_of i pn !! id with Some idx => Good idx | None => Fail ErrIndexNotFound end.
Proof.
  unfold Index_ForID, bucket_of. destruct (i !! pn) as [bs|]; simpl; [|by rewrite lookup_empty].
  destruct (bs !! id); [by rewrite Index_clone_id|done].
Qed.

Lemma bucket_of_insert i pn bs pn' :
  bucket_of (<[pn := bs]> i) pn' = if decide (pn = pn') then bs else bucket_of i pn'.
Proof.
  unfold bucket_of. destruct (decide (pn = pn')) as [->|]; [by rewrite lookup_insert_eq|].
  by rewrite lookup_insert_ne.
Qed.

Lemma Index_set_ret i pn b i' :
  Index_set i pn b = Ret i' <->
  (forall s, bucket_of i pn !! ObjID b = Some s -> set_fatal s b = None) /\
  i' = <[pn := <[ObjID b := b]> (bucket_of i pn)]> i.
Proof.
  unfold Index_set. destruct (bucket_of i pn !! ObjID b) as [s|].
  - destruct (set_fatal s b) eqn:E; split; try done.
    + intros [H _]. specialize (H s eq_refl). congruence.
    + intros [= <-]. split; [|done]. by intros ? [= <-].
    + intros [_ ->]. done.
  - split; [by intros [= <-]|]. by intros [_ ->].
Qed.

Lemma Index_Set_lookup i pn b i' pn' id :
  Index_Set i pn b = Ret i' ->
  bucket_of i' pn' !! id =
  if decide (pn = pn' /\ ObjID b = id) then Some b else bucket_of i pn' !! id.
Proof.
  intros (Hs & ->)%Index_set_ret. rewrite !bucket_of_insert, (decide_True (P := pn = pn)) by done.
  destruct (decide (pn = pn')) as [<-|Hne].
  - destruct (decide (ObjID b = id)) as [<-|Hid].
    + by rewrite lookup_insert_eq, decide_True.
    + rewrite lookup_insert_ne, decide_False by tauto. done.
  - by rewrite decide_False by tauto.
Qed.

Lemma Index_Set_ret i pn b :
  (exists i', Index_Set i pn b = Ret i') <->
  (forall s, bucket_of i pn !! ObjID b = Some s -> set_fatal s b = None).
Proof.
  unfold Index_Set. split.
  - intros (i' & H%Index_set_ret). destruct H as [H _].
    rewrite bucket_of_insert, decide_True in H by done. done.
  - intros H. eexists. apply Index_set_ret.
    rewrite bucket_of_insert, decide_True by done. done.
Qed.

(** The operations on the indexes of a pulse that do not drop the pulse. *)
Inductive index_step (i i' : IndexStorageMemory) : Prop :=
  | step_Set pn b : Index_Set i pn b = Ret i' -> index_step i i'
  | step_SetIfNone pn b : Index_SetIfNone i pn b = Ret i' -> index_step i i'
  | step_Delete pn : i' = Index_DeleteForPN i pn -> index_step i i'.

Lemma index_step_advances i i' pn id s :
  index_step i i' -> bucket_of i pn !! id = Some s ->
  (exists b, bucket_of i' pn !! id = Some b /\ advances s b) \/ i' !! pn = None.
Proof.
  intros Hstep Hs. destruct Hstep as [pn' b H|pn' b H|pn' H].
  - left. rewrite (Index_Set_lookup _ _ _ _ _ _ H).
    destruct (decide _) as [[-> <-]|]; [|by exists s]. exists b. split; [done|].
    destruct (Index_Set_ret i pn b) as [Hf _].
    apply (set_fatal_None s b). apply Hf; eauto.
  - left. unfold Index_SetIfNone in H. destruct (bucket_of i pn' !! ObjID b) as [s0|] eqn:E.
    + injection H as <-. rewrite bucket_of_insert. exists s.
      destruct (decide (pn' = pn)) as [->|]; done.
    + fold (Index_Set i pn' b) in H. rewrite (Index_Set_lookup _ _ _ _ _ _ H).
      destruct (decide _) as [[-> <-]|]; [congruence|]. by exists s.
  - subst i'. unfold Index_DeleteForPN, bucket_of. destruct (decide (pn' = pn)) as [->|].
    + right. apply lookup_delete_eq.
    + left. rewrite lookup_delete_ne by done. by exists s.
Qed.

(** over any history of [Set], [SetIfNone] and [DeleteForPN], while a pulse
    is not deleted an object's index in it is not lost and only advances: the
    pulses of its latest request and latest state, its last use and the
    number of its pending records never go back, and a parent once set
    stays. *)
Theorem Index_only_advances i i' pn id s :
  rtc (fun a b => index_step a b /\ b !! pn <> None) i i' ->
  Index_ForID i pn id = Good s ->
  exists b, Index_ForID i' pn id = Good b /\ advances s b.
Proof.
  intros Hr. revert s. induction Hr as [i|i j i' [Hstep Hj] _ IH]; intros s Hs; [by exists s|].
  rewrite Index_ForID_lookup in Hs.
  destruct (bucket_of i pn !! id) as [s0|] eqn:E; [injection Hs as <-|discriminate].
  destruct (index_step_advances i j pn id s0 Hstep E) as [(b & Eb & Hb)|]; [|done].
  destruct (IH b) as (c & Hc & Hbc); [by rewrite Index_ForID_lookup, Eb|].
  exists c. split; [done|]. by etrans.
Qed.

Definition indexAt (used pn : Z) : Index :=
  mkIndex (mkLocal 65600 (replicate 28 1))
    (mkLifeline None StateActivation emptyGlobal (Some (mkLocal pn (replicate 28 2))) (Some pn) 1)
    used [].
Definition storageOf (b : Index) : IndexStorageMemory := {[ 65610 := {[ ObjID b := b ]} ]}.

Lemma Index_only_advances_witness :
  exists b, Index_ForID (storageOf (indexAt 65610 65605)) 65610 (ObjID (indexAt 0 0)) = Good b /\
            advances (indexAt 65600 65600) b.
Proof.
  apply (Index_only_advances (storageOf (indexAt 65600 65600))).
  - apply rtc_once. split; [|done]. apply (step_Set _ _ 65610 (indexAt 65610 65605)).
    vm_compute. reflexivity.
  - vm_compute. reflexivity.
Defined.
