(* ===== verification/Payload.v ===== *)
(** * Messages between nodes and what a light node calls
    (src/insolar/payload, src/insolar/jet/coordinator.go, src/insolar/bus)

    The messages that the modelled handlers send and receive, the error codes
    they carry, and the class [Node]: the jet coordinator, the jet fetcher and
    the bus, which live outside the components that use them. *)
From S2P Require Import Prelude Pulse PulseStore Reference Jet Records.

(** ** error_code.go *)
Definition CodeUnknown : Z := 0.
Definition CodeDeactivated : Z := 1.
Definition CodeFlowCanceled : Z := 2.
Definition CodeNotFound : Z := 3.
Definition CodeNoPendings : Z := 4.
Definition CodeNoStartPulse : Z := 5.
Definition CodeRequestNotFound : Z := 6.
Definition CodeRequestInvalid : Z := 7.
Definition CodeRequestNonClosedOutgoing : Z := 8.
Definition CodeRequestNonOldestMutable : Z := 9.
Definition CodeReasonIsWrong : Z := 10.
Definition CodeNonActivated : Z := 11.
Definition CodeLoopDetected : Z := 12.

(** ** payload.proto: the fields the handlers set and read *)
Module Payload.
Record Info : Type := mkInfo {
  ObjectID : Local;
  RequestID : Local;
  Request : list Z;
  Result : list Z;
  OldestMutable : bool;
}.

Inductive t : Type :=
  | Error (Text : string) (Code : Z)
  | GetFilament (ObjectID StartFrom : Local) (ReadUntil : Z)
  | FilamentSegment (ObjectID : Local) (Records : list CompositeFilamentRecord)
  | SearchIndex (ObjectID : Local) (Until : Z)
  | SearchIndexInfo (Index : option Records.Index)
  | GetRequestInfo (ObjectID RequestID : Local) (Pulse : Z)
  | RequestInfo (info : Info)
  | ResultInfo (ObjectID ResultID : Local)
  | ErrorResultExists (ObjectID ResultID : Local) (Result : list Z)
  | SagaCallAcceptNotification (ObjectID DetachedRequestID : Local) (Request : list Z)
  | PendingsInfo (HasPendings : bool)
  | IDs (ids : list Local)
  | RequestReply (RequestID : Local) (Request : Virtual)
  | GetIndex (ObjectID : Local)
  | Index (Index : list Z) (EarliestRequestID : option Local)
  | State (Record : list Z)
  | PassState (StateID : Local)
  | Code (Record : list Z)
  | ID (ID : Local)
  | GotHotConfirmation (JetID : Local) (Pulse : Z) (Split : bool)
  | AbandonedRequestsNotification (ObjectID : Local)
  | Pass.
End Payload.

(** ** The surroundings of a node

    [SendTarget] is one request with its reply: [None] when the channel of
    replies closes, an error when the reply cannot be read. *)
Class Node : Type := {
  IsBeyondLimit : Z -> result bool;
  Heavy : result Global;
  NodeForJet : Local -> Z -> result Global;
  LightExecutorForJet : Local -> Z -> result Global;
  VirtualExecutorForObject : Local -> Z -> result Global;
  Me : Global;
  Fetch : Local -> Z -> result Local;
  SendTarget : Payload.t -> Global -> option (result Payload.t);
}.
