(* ===== verification/Filaments.v ===== *)
(** * Filaments (src/ledger/light/executor/filaments.go, mutable.go)

    The requests and results of an object form a chain, its filament: each
    filament record names a request or result and the filament record before
    it.  The calculator walks the chain of an object from its latest request
    back in time, through a cache, the record storage, and, for what is no
    longer here, other nodes.

    The iterator and its loops run in [io filamentIterator]; a loop has the
    fuel of the calculator, and the theorems show that any fuel above the
    length of the chain is enough.  The caches are reached under their locks,
    so that each operation is one step on the store of caches. *)
From S2P Require Import Prelude Pulse PulseStore Reference Jet Records Payload.

(** ** The caches *)
Abbreviation filamentCache := (gmap Local CompositeFilamentRecord).
Abbreviation cacheStore := (gmap Local filamentCache).

Definition cache_Update (c : filamentCache) (recs : list CompositeFilamentRecord) : filamentCache :=
  foldl (fun c rec => <[MetaID rec := rec]> c) c recs.

Definition cacheStore_Get (cs : cacheStore) (id : Local) : filamentCache := default ∅ (cs !! id).
Definition cacheStore_Delete (cs : cacheStore) (id : Local) : cacheStore := delete id cs.
Definition DeleteIfLonger (cs : cacheStore) (limit : Z) : cacheStore :=
  filter (fun kv => Z.of_nat (size kv.2) <= limit) cs.
Definition DeleteAllExcept (cs : cacheStore) (ids : list Local) : cacheStore :=
  foldl (fun newCaches id =>
           match cs !! id with Some cache => <[id := cache]> newCaches | None => newCaches end)
        ∅ ids.

Lemma DeleteAllExcept_lookup (cs : cacheStore) ids (acc : cacheStore) id :
  (foldl (fun newCaches id => match cs !! id with Some cache => <[id := cache]> newCaches
                              | None => newCaches end) acc ids : cacheStore) !! id =
  if decide (id ∈ ids /\ is_Some (cs !! id)) then cs !! id else acc !! id.
Proof.
  revert acc. induction ids as [|x ids IH]; intros acc; cbn [foldl].
  { rewrite decide_False; [done|]. intros [E _]. by apply not_elem_of_nil in E. }
  rewrite IH. destruct (decide (id ∈ ids /\ is_Some (cs !! id))) as [Hd|Hd].
  { rewrite decide_True; [done|]. split; [right; apply Hd|apply Hd]. }
  destruct (decide (x = id)) as [->|Hne].
  - destruct (cs !! id) as [ch|] eqn:E.
    + rewrite decide_True by (split; [by left|done]). apply lookup_insert_eq.
    + rewrite decide_False; [done|]. by intros [_ []].
  - rewrite (decide_False (P := id ∈ x :: ids /\ _)).
    + destruct (cs !! x); [by rewrite lookup_insert_ne|done].
    + rewrite elem_of_cons. intuition congruence.
Qed.

(** ** The iterators *)
Record filamentIterator : Type := mkIterator {
  currentID : option Local;
  cache : filamentCache;
}.

Record FilamentCalculator : Type := mkCalculator {
  indexes : IndexStorageMemory;
  records : RecordMemory;
  pulses_Backwards : Z -> Z -> go (result Pulse);
  fuel : nat;
}.

(** The content of a filament record, if it is one. *)
Definition filament_of (m : Material) : option FilamentBody :=
  match Unwrap (Material_Virtual m) with Some (PendingFilament f) => Some f | _ => None end.

Definition HasPrev (i : filamentIterator) : bool := bool_decide (is_Some (currentID i)).

Definition iterator_Prev (c : FilamentCalculator) : io filamentIterator CompositeFilamentRecord :=
  fun i =>
  match currentID i with
  | None => Ret (i, Fail object_ErrNotFound)
  | Some id =>
      match cache i !! id with
      | Some composite =>
          match filament_of (Meta composite) with
          | None => Ret (i, Fail (Errorf "unexpected filament record"))
          | Some filament => Ret (mkIterator (PreviousRecord filament) (cache i), Good composite)
          end
      | None =>
          match Record_ForID (records c) id with
          | Fail e => Ret (i, Fail e)
          | Good filamentRecord =>
              match filament_of filamentRecord with
              | None => Ret (i, Fail (Errorf "unexpected filament record"))
              | Some filament =>
                  match Record_ForID (records c) (Filament_RecordID filament) with
                  | Fail e => Ret (i, Fail e)
                  | Good rec =>
                      let composite := mkComposite (Filament_RecordID filament) rec id filamentRecord in
                      Ret (mkIterator (PreviousRecord filament) (<[id := composite]> (cache i)),
                           Good composite)
                  end
              end
          end
      end
  end.

Section Network.
Context `{Node}.

Definition fetchFromNetwork (objectID : Local) (readUntil : Z) (forID : Local) :
  result (list CompositeFilamentRecord) :=
  isBeyond ← wrap_err (IsBeyondLimit (Local_Pulse forID)) "failed to calculate limit";
  node ← (if isBeyond : bool
          then wrap_err Heavy "failed to calculate node"
          else jetID ← wrap_err (Fetch objectID (Local_Pulse forID)) "failed to fetch jet";
               wrap_err (NodeForJet jetID (Local_Pulse forID)) "failed to calculate node");
  if bool_decide (node = Me) then Fail (Errorf "tried to send message to self")
  else match SendTarget (Payload.GetFilament objectID forID readUntil) node with
       | None => Fail (Errorf "no reply for filament fetch")
       | Some (Fail e) => Fail (Wrap e "failed to unmarshal reply")
       | Some (Good (Payload.FilamentSegment _ recs)) => Good recs
       | Some (Good (Payload.Error text _)) => Fail (Errorf text)
       | Some (Good _) => Fail (Errorf "unexpected reply")
       end.

Definition fetching_HasPrev (readUntil : Z) (i : filamentIterator) : bool :=
  match currentID i with Some id => Local_Pulse id >=? readUntil | None => false end.

Definition fetching_Prev (c : FilamentCalculator) (objectID : Local) (readUntil : Z) :
  io filamentIterator CompositeFilamentRecord := fun i =>
  if readUntil =? 0 then throw (Errorf "invalid fetching parameters") i
  else
    match iterator_Prev c i with
    | Panic msg => Panic msg
    | Ret (i1, Good rec) => Ret (i1, Good rec)
    | Ret (i1, Fail e) =>
        if negb (bool_decide (e = object_ErrNotFound))
        then Ret (i1, Fail (Wrap e "failed to fetch filament"))
        else
          match currentID i1 with
          | None => Panic "nil pointer dereference"
          | Some id =>
              match fetchFromNetwork objectID readUntil id with
              | Fail e => Ret (i1, Fail (Wrap e "failed to fetch filament"))
              | Good recs =>
                  wrapped "failed to update filament" (iterator_Prev c)
                    (mkIterator (currentID i1) (cache_Update (cache i1) recs))
              end
          end
    end.
End Network.

(** [for iter.HasPrev() { rec, err := iter.Prev(ctx); ... }]: the body goes on
    with a new value of its variables, or leaves with an answer. *)
Fixpoint for_prev {A B} (n : nat) (hasPrev : filamentIterator -> bool)
    (prev : io filamentIterator CompositeFilamentRecord)
    (body : A -> CompositeFilamentRecord -> A + B) (vars : A) : io filamentIterator (A + B) :=
  fun i =>
  match n with
  | O => Panic "out of fuel"
  | S n' =>
      if hasPrev i then
        (rec ← prev;
         match body vars rec with
         | inl vars' => for_prev n' hasPrev prev body vars'
         | inr answer => mret (inr answer)
         end) i
      else Ret (i, Good (inl vars))
  end.

(** Runs under the lock of the cache of [id], which stays in the store. *)
Definition with_iterator {A} (id : Local) (from : Local) (m : io filamentIterator A) :
  io cacheStore A := fun cs =>
  match m (mkIterator (Some from) (cacheStore_Get cs id)) with
  | Ret (i, r) => Ret (<[id := cache i]> cs, r)
  | Panic msg => Panic msg
  end.

(** [c.cache.Get]: creates the cache of an object on first use. *)
Definition touch (id : Local) : io cacheStore unit :=
  modify (fun cs => <[id := cacheStore_Get cs id]> cs).

(** ** Requests *)
(** The loop, which ends without an error at the first record not found. *)
Fixpoint Requests_loop (c : FilamentCalculator) (readUntil : Z) (n : nat)
    (segment : list CompositeFilamentRecord) : io filamentIterator (list CompositeFilamentRecord) :=
  fun i =>
  match n with
  | O => Panic "out of fuel"
  | S n' =>
      if HasPrev i then
        match iterator_Prev c i with
        | Panic msg => Panic msg
        | Ret (i', Fail e) =>
            if bool_decide (e = object_ErrNotFound) then Ret (i', Good segment)
            else Ret (i', Fail (Wrap e "failed to get filament"))
        | Ret (i', Good rec) =>
            if Local_Pulse (MetaID rec) <? readUntil then Ret (i', Good segment)
            else Requests_loop c readUntil n' (segment ++ [rec]) i'
        end
      else Ret (i, Good segment)
  end.

Definition Requests (c : FilamentCalculator) (objectID from : Local) (readUntil : Z) :
  io cacheStore (list CompositeFilamentRecord) :=
  lift_result (wrap_err (Index_ForID (indexes c) (Local_Pulse from) objectID) "failed to fetch index") ≫= fun _ =>
  with_iterator objectID from (Requests_loop c readUntil (fuel c) []).

(** ** What a record of the filament holds *)
Definition content (rec : CompositeFilamentRecord) : option AnyRecord :=
  Unwrap (Material_Virtual (Rec rec)).
Definition as_result (rec : CompositeFilamentRecord) : option ResultBody :=
  match content rec with Some (Result r) => Some r | _ => None end.
Definition as_request (rec : CompositeFilamentRecord) : option Request :=
  match content rec with Some (RequestRecord q) => Some q | _ => None end.

(** [isMutableRequest], [isMutableIncoming] *)
Definition isMutableRequest (rec : CompositeFilamentRecord) : bool :=
  match as_request rec with Some (IncomingRequest r) => negb (Immutable r) | _ => false end.

(** mutable.go.  The type assertion panics on what is not a request. *)
Fixpoint OldestMutable (openRequests : list CompositeFilamentRecord) :
  go (option CompositeFilamentRecord) :=
  match openRequests with
  | [] => Ret None
  | rec :: rest =>
      match as_request rec with
      | None => Panic "interface conversion"
      | Some _ => if isMutableRequest rec then Ret (Some rec) else OldestMutable rest
      end
  end.

Section Calculator.
Context `{Node}.

Definition fetching {A B} (c : FilamentCalculator) (objectID from : Local) (readUntil : Z)
    (errtext : string) (body : A -> CompositeFilamentRecord -> A + B) (vars : A) :
  io cacheStore (A + B) :=
  with_iterator objectID from
    (for_prev (fuel c) (fetching_HasPrev readUntil)
       (wrapped errtext (fetching_Prev c objectID readUntil)) body vars).

(** ** OpenedRequests *)
(** One record: the open requests seen so far and the closed identifiers. *)
Definition opened_step (pendingOnly : bool)
    (vars : list CompositeFilamentRecord * gset Local) (rec : CompositeFilamentRecord) :
  (list CompositeFilamentRecord * gset Local) + Empty_set :=
  let '(opened, hasResult) := vars in
  if decide (RecordID rec ∈ hasResult) then inl vars
  else match content rec with
       | Some (Result r) => inl (opened, hasResult ∪ {[addressLocal (Result_Request r)]})
       | Some (RequestRecord (IncomingRequest _)) => inl (opened ++ [rec], hasResult)
       | Some (RequestRecord (OutgoingRequest r)) =>
           let reasonClosed := bool_decide (addressLocal (Reason r) ∈ hasResult) in
           let isReadyDetached := IsDetached r && reasonClosed in
           if pendingOnly && negb isReadyDetached then inl vars
           else inl (opened ++ [rec], hasResult)
       | _ => inl vars
       end.

Definition OpenedRequests (c : FilamentCalculator) (pulse : Z) (objectID : Local)
    (pendingOnly : bool) : io cacheStore (list CompositeFilamentRecord) :=
  idx ← lift_result (Index_ForID (indexes c) pulse objectID);
  let lifeline := Index_Lifeline idx in
  touch objectID ≫= fun _ =>
  match LatestRequest lifeline, EarliestOpenRequest lifeline with
  | None, _ => mret []
  | _, None => mret []
  | Some latest, Some earliest =>
      res ← fetching c objectID latest earliest "failed to calculate opened"
              (opened_step pendingOnly) ([], ∅);
      match res with
      | inl (opened, _) => mret (reverse opened)
      | inr no => match (no : Empty_set) with end
      end
  end.

(** ** ResultDuplicate *)
Definition same_hash (a b : Local) : bool := bool_decide (Local_Hash a = Local_Hash b).

Definition resultDuplicate_step (resultID : Local) (result : ResultBody) (vars : unit)
    (rec : CompositeFilamentRecord) : unit + option CompositeFilamentRecord :=
  let requestID := addressLocal (Result_Request result) in
  if same_hash (RecordID rec) resultID then inr (Some rec)
  else if match as_result rec with
          | Some res => bool_decide (addressLocal (Result_Request res) = requestID)
          | None => false
          end then inr (Some rec)
  else if same_hash (RecordID rec) requestID then inr None
  else inl tt.

Definition ResultDuplicate (c : FilamentCalculator) (objectID resultID : Local)
    (result : ResultBody) : io cacheStore (option CompositeFilamentRecord) :=
  if Global_IsEmpty (Result_Request result) then throw (Errorf "request is empty")
  else
    idx ← lift_result (Index_ForID (indexes c) (Local_Pulse resultID) objectID);
    match LatestRequest (Index_Lifeline idx) with
    | None => mret None
    | Some latest =>
        res ← fetching c objectID latest (Local_Pulse (addressLocal (Result_Request result)))
                "failed to calculate pending" (resultDuplicate_step resultID result) tt;
        match res with
        | inr answer => mret answer
        | inl _ => throw (Errorf "request for result is not found")
        end
    end.

(** ** The index of an object under creation *)
(** The loop over earlier pulses, in which the same content would have had
    another identifier. *)
Fixpoint findIndexLocal_loop (c : FilamentCalculator) (until : Z) (requestID : Local)
    (n : nat) (iter : Z) : go (result Index) :=
  match n with
  | O => Panic "out of fuel"
  | S n' =>
      if iter >=? until then
        id ← NewID iter (Local_Hash requestID);
        match Index_ForID (indexes c) (Local_Pulse requestID) id with
        | Good idx => Ret (Good idx)
        | Fail e =>
            if negb (bool_decide (e = ErrIndexNotFound))
            then Ret (Fail (Wrap e "failed to fetch index"))
            else
              prev ← pulses_Backwards c iter 1;
              match prev with
              | Fail _ => Ret (Fail ErrIndexNotFound)
              | Good p => findIndexLocal_loop c until requestID n' (num p)
              end
        end
      else Ret (Fail ErrIndexNotFound)
  end.
Definition findIndexLocal (c : FilamentCalculator) (until : Z) (requestID : Local) :
  go (result Index) :=
  findIndexLocal_loop c until requestID (fuel c) (Local_Pulse requestID).

Definition findIndexHeavy (objID : Local) (readUntil : Z) : result Index :=
  node ← wrap_err Heavy "failed to check index origin";
  match SendTarget (Payload.SearchIndex objID readUntil) node with
  | None => Fail (Errorf "no reply")
  | Some (Fail e) => Fail (Wrap e "failed to unmarshal reply")
  | Some (Good (Payload.SearchIndexInfo None)) => Fail ErrIndexNotFound
  | Some (Good (Payload.SearchIndexInfo (Some idx))) => Good idx
  | Some (Good (Payload.Error _ code)) => Fail (CodedError "failed to fetch index from heavy: " code)
  | Some (Good _) => Fail (Errorf "unexpected reply")
  end.

Definition findIndex (c : FilamentCalculator) (reasonID requestID : Local) : go (result Index) :=
  idx ← findIndexLocal c (Local_Pulse reasonID) requestID;
  match idx with
  | Good idx => Ret (Good idx)
  | Fail e =>
      if negb (bool_decide (e = ErrIndexNotFound))
      then Ret (Fail (Wrap e "failed to find index"))
      else Ret (findIndexHeavy requestID (Local_Pulse reasonID))
  end.

(** ** RequestDuplicate *)
Definition requestDuplicate_step (requestID : Local)
    (vars : option CompositeFilamentRecord * option CompositeFilamentRecord)
    (rec : CompositeFilamentRecord) :
  (option CompositeFilamentRecord * option CompositeFilamentRecord) + Empty_set :=
  let '(foundRequest, foundResult) := vars in
  let foundRequest := if same_hash (RecordID rec) requestID then Some rec else foundRequest in
  let foundResult :=
    match as_result rec with
    | Some r => if same_hash (addressLocal (Result_Request r)) requestID
                then Some rec else foundResult
    | None => foundResult
    end in
  inl (foundRequest, foundResult).

(** [None] when there is no index in which to look. *)
Definition duplicateIndex (c : FilamentCalculator) (objectID requestID : Local) (request : Request) :
  go (result (option Index)) :=
  if IsCreationRequest request then
    index ← findIndex c (addressLocal (ReasonRef request)) requestID;
    match index with
    | Good idx => Ret (Good (Some idx))
    | Fail e => if bool_decide (e = ErrIndexNotFound) then Ret (Good None)
                else Ret (Fail (Wrap e "failed to find index"))
    end
  else Ret (idx ← Index_ForID (indexes c) (Local_Pulse requestID) objectID; Good (Some idx)).

Definition RequestDuplicate (c : FilamentCalculator) (objectID requestID : Local)
    (request : Request) :
  io cacheStore (option CompositeFilamentRecord * option CompositeFilamentRecord) :=
  found ← lift_go (duplicateIndex c objectID requestID request);
  index ← lift_result found;
  match index with
  | None => mret (None, None)
  | Some index =>
      match LatestRequest (Index_Lifeline index) with
      | None => mret (None, None)
      | Some latest =>
          res ← fetching c (ObjID index) latest (Local_Pulse (addressLocal (ReasonRef request)))
                  "failed to calculate pending" (requestDuplicate_step requestID) (None, None);
          match res with
          | inl found => mret found
          | inr no => match (no : Empty_set) with end
          end
      end
  end.

(** ** RequestInfo *)
Record FilamentsRequestInfo : Type := mkInfo {
  Info_Request : option CompositeFilamentRecord;
  Info_Result : option CompositeFilamentRecord;
  Info_OldestMutable : bool;
}.

Definition info_step (requestID : Local) (vars : FilamentsRequestInfo * gset Local)
    (rec : CompositeFilamentRecord) :
  (FilamentsRequestInfo * gset Local) + FilamentsRequestInfo :=
  let '(info, closedRequests) := vars in
  if bool_decide (RecordID rec = requestID) then
    if negb (isMutableRequest rec)
    then inr (mkInfo (Some rec) (Info_Result info) false)
    else inl (mkInfo (Some rec) (Info_Result info) (Info_OldestMutable info), closedRequests)
  else
    let '(res, closed) :=
      match as_result rec with
      | Some r =>
          let id := addressLocal (Result_Request r) in
          (if bool_decide (id = requestID) then Some rec else Info_Result info,
           closedRequests ∪ {[id]})
      | None => (Info_Result info, closedRequests)
      end in
    let older :=
      bool_decide (is_Some (Info_Request info)) && negb (bool_decide (RecordID rec ∈ closed)) &&
      isMutableRequest rec in
    inl (mkInfo (Info_Request info) res (if older then false else Info_OldestMutable info), closed).

Definition RequestInfo (c : FilamentCalculator) (objectID requestID : Local) (pulse : Z) :
  io cacheStore FilamentsRequestInfo :=
  idx ← lift_result (wrap_err (Index_ForID (indexes c) pulse objectID) "object");
  let lifeline := Index_Lifeline idx in
  match LatestRequest lifeline with
  | None => throw (Errorf "latest request in lifeline is empty")
  | Some latest =>
      let requestPulse := Local_GetPulseNumber requestID in
      let minPulse :=
        match EarliestOpenRequest lifeline with
        | Some earliest => if earliest <=? requestPulse then earliest else requestPulse
        | None => requestPulse
        end in
      res ← fetching c objectID latest minPulse "failed to calculate filament"
              (info_step requestID) (mkInfo None None true, ∅);
      match res with
      | inr info => mret info
      | inl (info, _) =>
          match Info_Request info with
          | None => throw (CodedError "requestInfo not found request" CodeRequestNotFound)
          | Some _ => mret info
          end
      end
  end.
End Calculator.
