(* ===== verification/FilamentChain.v ===== *)
(** * What the filament calculator computes

    The specification of the iteration: [filament F from l] says that the
    chain from [from] is the list [l], newest record first, where [F] tells
    what every filament identifier of the ledger stands for.  On such a chain,
    and whatever part of it is cached, stored here or held by other nodes, the
    loops of Filaments.v are folds over the records down to the pulse limit
    ([fetching_chain]), and [OpenedRequests], [RequestInfo], [ResultDuplicate]
    and [RequestDuplicate] have closed forms on well-formed chains. *)
From stdpp Require Import sorting.
From S2P Require Import Prelude Pulse PulseStore Reference Jet Records Payload Filaments.

Abbreviation Composite := CompositeFilamentRecord.

(** The answer of a loop on the records it visits. *)
Fixpoint fold_until {A B} (body : A -> Composite -> A + B) (vars : A) (l : list Composite) : A + B :=
  match l with
  | [] => inl vars
  | rec :: l' =>
      match body vars rec with
      | inl vars' => fold_until body vars' l'
      | inr answer => inr answer
      end
  end.

(** The records of a chain from [readUntil] on. *)
Fixpoint since (readUntil : Z) (l : list Composite) : list Composite :=
  match l with
  | [] => []
  | rec :: l' => if Local_Pulse (MetaID rec) >=? readUntil then rec :: since readUntil l' else []
  end.

Section Chain.
Context (F : Local -> option Composite).

Inductive filament : option Local -> list Composite -> Prop :=
  | filament_nil : filament None []
  | filament_cons rec f l :
      F (MetaID rec) = Some rec ->
      filament_of (Meta rec) = Some f -> Filament_RecordID f = RecordID rec ->
      filament (PreviousRecord f) l ->
      filament (Some (MetaID rec)) (rec :: l).

Lemma filament_functional from l l' : filament from l -> filament from l' -> l = l'.
Proof.
  intros Hl. revert l'. induction Hl as [|rec f l HF Hf Hid Hl IH]; intros l' Hl'.
  - by inversion Hl'.
  - inversion Hl' as [|rec' f' l'' HF' Hf' Hid' Hl'' Em]; subst. rewrite Em in HF'.
    assert (rec' = rec) as -> by congruence. assert (f' = f) as -> by congruence.
    f_equal. by apply IH.
Qed.

(** A cache that only holds true entries. *)
Definition truthful (c : filamentCache) : Prop := forall id rec, c !! id = Some rec -> F id = Some rec.

Lemma truthful_empty : truthful ∅.
Proof. intros id rec. by rewrite lookup_empty. Qed.

Lemma cache_Update_truthful c recs :
  truthful c -> (forall r, r ∈ recs -> F (MetaID r) = Some r) -> truthful (cache_Update c recs).
Proof.
  revert c. induction recs as [|r recs IH]; intros c Hc Hr; simpl; [done|].
  apply IH; [|intros x Hx; apply Hr; by right]. intros id rec.
  destruct (decide (MetaID r = id)) as [<-|Hne].
  - rewrite lookup_insert_eq. intros [= <-]. apply Hr. by left.
  - rewrite lookup_insert_ne by done. apply Hc.
Qed.

Lemma cache_Update_found c recs rec :
  (forall r, r ∈ recs -> F (MetaID r) = Some r) -> rec ∈ recs ->
  cache_Update c recs !! MetaID rec = Some rec.
Proof.
  intros Hr Hin. assert (forall rs c0, (forall r, r ∈ rs -> F (MetaID r) = Some r) ->
    c0 !! MetaID rec = Some rec -> F (MetaID rec) = Some rec ->
    cache_Update c0 rs !! MetaID rec = Some rec) as Hkeep.
  { induction rs as [|r rs IH]; intros c0 H Hc HF; simpl; [done|].
    apply IH; [intros x Hx; apply H; by right| |done].
    destruct (decide (MetaID r = MetaID rec)) as [E|E]; [|by rewrite lookup_insert_ne].
    rewrite E, lookup_insert_eq. rewrite <- HF, <- E. symmetry. apply H. by left. }
  revert c. induction recs as [|r recs IH]; intros c; [by apply not_elem_of_nil in Hin|].
  simpl. apply elem_of_cons in Hin as [->|Hin].
  - apply Hkeep; [intros x Hx; apply Hr; by right|apply lookup_insert_eq|apply Hr; by left].
  - apply IH; [intros x Hx; apply Hr; by right|done].
Qed.

Section Served.
Context `{Node} (c : FilamentCalculator) (objectID : Local) (readUntil : Z).

(** Where a record of the ledger comes from: the storage when it has both
    parts, else another node, whose answer is true and holds the record. *)
Record served (rec : Composite) : Prop := {
  sv_meta : forall m, Record_ForID (records c) (MetaID rec) = Good m -> m = Meta rec;
  sv_rec : forall m, Record_ForID (records c) (RecordID rec) = Good m -> m = Rec rec;
  sv_net : recsStor (records c) !! MetaID rec = None \/ recsStor (records c) !! RecordID rec = None ->
    exists recs, fetchFromNetwork objectID readUntil (MetaID rec) = Good recs /\
      rec ∈ recs /\ forall r, r ∈ recs -> F (MetaID r) = Some r;
}.

(** A record with both parts in the storage. *)
Lemma served_stored rec :
  Record_ForID (records c) (MetaID rec) = Good (Meta rec) ->
  Record_ForID (records c) (RecordID rec) = Good (Rec rec) -> served rec.
Proof.
  intros E1 E2. split; [congruence|congruence|]. unfold Record_ForID in *.
  intros [E|E]; rewrite E in *; discriminate.
Qed.

Lemma iterator_Prev_cached rec f ch :
  ch !! MetaID rec = Some rec -> filament_of (Meta rec) = Some f ->
  iterator_Prev c (mkIterator (Some (MetaID rec)) ch) =
  Ret (mkIterator (PreviousRecord f) ch, Good rec).
Proof. intros Hc Hf. unfold iterator_Prev. cbn. by rewrite Hc, Hf. Qed.

(** One step of the iteration yields the record of the chain. *)
Lemma fetching_Prev_chain rec f ch :
  readUntil <> 0 -> truthful ch -> F (MetaID rec) = Some rec ->
  filament_of (Meta rec) = Some f -> Filament_RecordID f = RecordID rec -> served rec ->
  exists ch', fetching_Prev c objectID readUntil (mkIterator (Some (MetaID rec)) ch) =
              Ret (mkIterator (PreviousRecord f) ch', Good rec) /\ truthful ch'.
Proof.
  intros H0 Hch HF Hf Hid [Hm Hr Hn]. unfold fetching_Prev.
  rewrite (proj2 (Z.eqb_neq readUntil 0)) by done.
  destruct (ch !! MetaID rec) as [rec'|] eqn:Ec.
  { assert (rec' = rec) as -> by (apply Hch in Ec; congruence).
    rewrite (iterator_Prev_cached _ f) by done. by exists ch. }
  assert (forall i, fetchFromNetwork objectID readUntil (MetaID rec) = i ->
    recsStor (records c) !! MetaID rec = None \/ recsStor (records c) !! RecordID rec = None ->
    exists ch', match i with
      | Fail e => Ret (mkIterator (Some (MetaID rec)) ch, Fail (Wrap e "failed to fetch filament"))
      | Good recs => wrapped "failed to update filament" (iterator_Prev c)
                       (mkIterator (Some (MetaID rec)) (cache_Update ch recs))
      end = Ret (mkIterator (PreviousRecord f) ch', Good rec) /\ truthful ch') as Hnet.
  { intros i <- Hmiss. destruct (Hn Hmiss) as (recs & -> & Hin & Htrue).
    exists (cache_Update ch recs). split; [|by apply cache_Update_truthful].
    unfold wrapped. by rewrite (iterator_Prev_cached _ f) by auto using cache_Update_found. }
  unfold iterator_Prev. cbn [currentID cache]. rewrite Ec. unfold Record_ForID in *.
  destruct (recsStor (records c) !! MetaID rec) as [m|] eqn:E1.
  2: { rewrite bool_decide_true by done. apply (Hnet _ eq_refl). by left. }
  rewrite (Hm m) by done. rewrite Hf, Hid.
  destruct (recsStor (records c) !! RecordID rec) as [m'|] eqn:E2.
  2: { rewrite bool_decide_true by done. apply (Hnet _ eq_refl). by right. }
  rewrite (Hr m') by done. eexists. split; [destruct rec; reflexivity|].
  intros id r. destruct (decide (MetaID rec = id)) as [<-|Hne].
  - rewrite lookup_insert_eq. intros [= <-]. rewrite HF. by destruct rec.
  - rewrite lookup_insert_ne by done. apply Hch.
Qed.

(** The loop is the fold over the chain down to the limit; it ends with any
    fuel above the length of the chain. *)
Lemma for_prev_chain {A B} errtext (body : A -> Composite -> A + B) l n vars i :
  filament (currentID i) l -> truthful (cache i) -> readUntil <> 0 ->
  Forall served (since readUntil l) ->
  wp (length l < n)%nat (for_prev n (fetching_HasPrev readUntil)
       (wrapped errtext (fetching_Prev c objectID readUntil)) body vars) i (fun i' r =>
    truthful (cache i') /\ r = Good (fold_until body vars (since readUntil l))).
Proof.
  unfold wp. revert n vars i. induction l as [|rec l IH]; intros n vars [cur ch] Hl Hch H0 Hs;
    (destruct n as [|n]; [cbn; lia|]); cbn [for_prev]; cbn in Hl.
  { inversion Hl; subst. by cbn. }
  inversion Hl as [|rec' f l' HF Hf Hid Hl']; subst.
  unfold fetching_HasPrev at 1. cbn [currentID]. cbn [since] in Hs |- *.
  destruct (Local_Pulse (MetaID rec) >=? readUntil); [|done].
  apply list.Forall_cons in Hs as [Hr Hs].
  destruct (fetching_Prev_chain rec f ch H0 Hch HF Hf Hid Hr) as (ch' & E & Hch').
  unfold mbind, io_bind. unfold wrapped at 1. rewrite E. cbn [fold_until].
  destruct (body vars rec) as [vars'|answer]; [|done].
  specialize (IH n vars' (mkIterator (PreviousRecord f) ch') Hl' Hch' H0 Hs).
  destruct (for_prev n _ _ _ _ _) as [[i' r]|]; [done|]. cbn [length]. lia.
Qed.

Definition caches_truthful (cs : cacheStore) : Prop := map_Forall (fun _ c => truthful c) cs.

Lemma with_cache_truthful cs id ch :
  caches_truthful cs -> truthful ch -> caches_truthful (<[id := ch]> cs).
Proof. intros. by apply map_Forall_insert_2. Qed.

Lemma cacheStore_Get_truthful cs id :
  caches_truthful cs -> truthful (cacheStore_Get cs id).
Proof.
  intros Hcs. unfold cacheStore_Get. destruct (cs !! id) as [ch|] eqn:E; simpl.
  - by apply (Hcs id).
  - apply truthful_empty.
Qed.

Lemma fetching_chain {A B} ok errtext (body : A -> Composite -> A + B) l vars from cs :
  filament (Some from) l -> caches_truthful cs -> readUntil <> 0 ->
  Forall served (since readUntil l) -> (ok -> (length l < fuel c)%nat) ->
  wp ok (fetching c objectID from readUntil errtext body vars) cs (fun cs' r =>
    caches_truthful cs' /\ r = Good (fold_until body vars (since readUntil l))).
Proof.
  intros Hl Hcs H0 Hs Hn. unfold fetching, with_iterator.
  pose proof (for_prev_chain errtext body l (fuel c) vars
    (mkIterator (Some from) (cacheStore_Get cs objectID)) Hl
    (cacheStore_Get_truthful _ _ Hcs) H0 Hs) as Hw.
  unfold wp in *. destruct (for_prev _ _ _ _ _ _) as [[i' r]|].
  - destruct Hw as [Hi' ->]. split; [|done]. by apply with_cache_truthful.
  - intros Hok. apply Hw. by apply Hn.
Qed.

Lemma touch_truthful cs :
  caches_truthful cs -> caches_truthful (<[objectID := cacheStore_Get cs objectID]> cs).
Proof. intros Hcs. apply with_cache_truthful; [done|by apply cacheStore_Get_truthful]. Qed.
End Served.
End Chain.

(** ** Well-formed filaments, newest record first *)

Definition result_of (r : ResultBody) : Local := addressLocal (Result_Request r).

(** The identifiers closed by the results of a chain. *)
Fixpoint closed (l : list Composite) : gset Local :=
  match l with
  | [] => ∅
  | rec :: l' =>
      match as_result rec with
      | Some r => {[result_of r]} ∪ closed l'
      | None => closed l'
      end
  end.

Definition is_request (rec : Composite) : Prop := is_Some (as_request rec).
#[export] Instance is_request_dec rec : Decision (is_request rec).
Proof. unfold is_request. apply _. Defined.

(** A request is new; an outgoing one has a reason that is not closed yet.  A
    result closes a request of the chain, and no request twice. *)
Inductive wf_filament : list Composite -> Prop :=
  | wf_nil : wf_filament []
  | wf_request rec q l :
      as_request rec = Some q ->
      RecordID rec ∉ RecordID <$> l ->
      (forall r, q = OutgoingRequest r -> addressLocal (Reason r) ∉ closed l) ->
      wf_filament l -> wf_filament (rec :: l)
  | wf_result rec r l req :
      as_result rec = Some r ->
      RecordID rec ∉ RecordID <$> l ->
      req ∈ l -> is_request req -> RecordID req = result_of r ->
      result_of r ∉ closed l ->
      wf_filament l -> wf_filament (rec :: l).

(** The open requests of a chain. *)
Definition open_requests (l : list Composite) : list Composite :=
  filter (fun rec => is_request rec /\ RecordID rec ∉ closed l) l.

(** Open requests that execution waits for: incoming ones, and detached
    outgoing ones whose reason is closed. *)
Definition is_pending (cl : gset Local) (rec : Composite) : Prop :=
  match as_request rec with
  | Some (OutgoingRequest r) => IsDetached r = true /\ addressLocal (Reason r) ∈ cl
  | _ => True
  end.
#[export] Instance is_pending_dec cl rec : Decision (is_pending cl rec).
Proof. unfold is_pending. destruct (as_request rec) as [[]|]; apply _. Defined.

Lemma as_request_result rec q : as_request rec = Some q -> as_result rec = None.
Proof. unfold as_request, as_result. by destruct (content rec) as [[]|]. Qed.
Lemma as_result_request rec r : as_result rec = Some r -> as_request rec = None.
Proof. unfold as_request, as_result. by destruct (content rec) as [[]|]. Qed.
Lemma as_result_not_request rec r : as_result rec = Some r -> ~ is_request rec.
Proof. intros E [q Eq]. by rewrite (as_result_request _ _ E) in Eq. Qed.

Lemma closed_app l l' : closed (l ++ l') = closed l ∪ closed l'.
Proof.
  induction l as [|rec l IH]; simpl; [by rewrite (left_id_L ∅ (∪))|].
  destruct (as_result rec); rewrite IH; [by rewrite (assoc_L (∪))|done].
Qed.

Lemma wf_tail rec l : wf_filament (rec :: l) -> wf_filament l.
Proof. by inversion 1. Qed.

Lemma wf_app l l' : wf_filament (l ++ l') -> wf_filament l'.
Proof. induction l as [|rec l IH]; [done|]. intros H%wf_tail. by apply IH. Qed.

Lemma wf_NoDup l : wf_filament l -> NoDup (RecordID <$> l).
Proof. induction 1; simpl; [constructor|by constructor..]. Qed.

(** Only requests of the chain are closed. *)
Lemma closed_requests l x :
  wf_filament l -> x ∈ closed l -> exists req, req ∈ l /\ is_request req /\ RecordID req = x.
Proof.
  induction 1 as [|rec q l Hq Hnew Ho Hl IH|rec r l req Hr Hnew Hin Hreq Hid Hop Hl IH]; cbn [closed].
  - by intros ?%not_elem_of_empty.
  - rewrite (as_request_result _ _ Hq). intros (r & ? & ? & ?)%IH. exists r.
    split; [by right|done].
  - rewrite Hr. intros [->%elem_of_singleton|H]%elem_of_union.
    + exists req. split; [by right|done].
    + destruct (IH H) as (r' & ? & ? & ?). exists r'. split; [by right|done].
Qed.

Lemma new_not_closed rec l : wf_filament l -> RecordID rec ∉ RecordID <$> l -> RecordID rec ∉ closed l.
Proof.
  intros Hl Hnew Hc. apply (closed_requests l) in Hc as (req & Hin & _ & E); [|done].
  apply Hnew. rewrite <- E. by apply list_elem_of_fmap_2.
Qed.

(** A result never has the identifier of a closed request. *)
Lemma open_result rec r l :
  wf_filament (rec :: l) -> as_result rec = Some r -> RecordID rec ∉ closed (rec :: l).
Proof.
  intros Hwf Hr. inversion Hwf as [|? q ? Hq|? r' ? req Hr' Hnew Hin Hreq Hid Hop Hl]; subst.
  - rewrite (as_request_result _ _ Hq) in Hr. done.
  - cbn [closed]. rewrite Hr. assert (r' = r) as -> by congruence.
    rewrite elem_of_union, elem_of_singleton. intros [E|H].
    + apply Hnew. rewrite E, <- Hid. by apply list_elem_of_fmap_2.
    + by apply (new_not_closed rec l).
Qed.

Lemma open_requests_request rec q l :
  wf_filament (rec :: l) -> as_request rec = Some q ->
  open_requests (rec :: l) = rec :: open_requests l.
Proof.
  intros Hwf Hq. inversion Hwf as [|? q' ? Hq' Hnew Ho Hl|? r ? req Hr]; subst.
  - unfold open_requests. cbn [closed]. rewrite (as_request_result _ _ Hq).
    rewrite filter_cons_True; [done|]. split; [by exists q|by apply new_not_closed].
  - rewrite (as_request_result _ _ Hq) in Hr. done.
Qed.

Lemma open_requests_result rec r l :
  wf_filament (rec :: l) -> as_result rec = Some r ->
  open_requests (rec :: l) = filter (fun x => RecordID x <> result_of r) (open_requests l).
Proof.
  intros Hwf Hr. unfold open_requests. cbn [closed]. rewrite Hr.
  rewrite filter_cons_False by (intros [? _]; by eapply as_result_not_request).
  rewrite list_filter_filter. apply list_filter_iff. intros x.
  rewrite elem_of_union, elem_of_singleton. tauto.
Qed.

Lemma open_elem l rec :
  rec ∈ open_requests l <-> rec ∈ l /\ is_request rec /\ RecordID rec ∉ closed l.
Proof. unfold open_requests. rewrite list_elem_of_filter. tauto. Qed.

Lemma open_NoDup l : wf_filament l -> NoDup (RecordID <$> open_requests l).
Proof.
  intros Hl%wf_NoDup. eapply sublist_NoDup; [exact Hl|].
  apply fmap_sublist, sublist_filter.
Qed.

(** A result closes exactly one open request. *)
Lemma open_length_result rec r l :
  wf_filament (rec :: l) -> as_result rec = Some r ->
  length (open_requests l) = S (length (open_requests (rec :: l))).
Proof.
  intros Hwf Hr. rewrite (open_requests_result rec r) by done.
  inversion Hwf as [|? q ? Hq|? r' ? req Hr' Hnew Hin Hreq Hid Hop Hl]; subst.
  { by rewrite (as_request_result _ _ Hq) in Hr. }
  assert (r' = r) as -> by congruence.
  assert (req ∈ open_requests l) as Ho by (apply open_elem; by rewrite Hid).
  pose proof (open_NoDup l Hl) as Hd. clear -Ho Hd Hid.
  induction (open_requests l) as [|x xs IH]; [by apply not_elem_of_nil in Ho|].
  cbn in Hd. apply list.NoDup_cons in Hd as [Hx Hd]. apply elem_of_cons in Ho as [<-|Ho].
  - rewrite filter_cons_False by (by rewrite Hid; tauto). cbn [length]. f_equal.
    rewrite filter_all; [done|]. intros y Hy E. apply Hx. rewrite Hid, <- E.
    by apply list_elem_of_fmap_2.
  - rewrite filter_cons_True.
    + cbn [length]. f_equal. by apply IH.
    + intros E. apply Hx. rewrite E, <- Hid. by apply list_elem_of_fmap_2.
Qed.

(** ** The fold of [OpenedRequests] *)

Definition shown (pendingOnly : bool) (cl : gset Local) (rec : Composite) : Prop :=
  is_request rec /\ (RecordID rec ∉ cl) /\ (pendingOnly = true -> is_pending cl rec).
#[export] Instance shown_dec po cl rec : Decision (shown po cl rec).
Proof. unfold shown. destruct po; [apply _|]. apply and_dec; [apply _|]. apply and_dec; [apply _|].
  by left. Defined.

Lemma RecordID_inj l x y : wf_filament l -> x ∈ l -> y ∈ l -> RecordID x = RecordID y -> x = y.
Proof.
  intros Hl%wf_NoDup Hx Hy E. apply list_elem_of_lookup in Hx as [i Hi].
  apply list_elem_of_lookup in Hy as [j Hj].
  assert (i = j) as <-; [|congruence].
  eapply NoDup_lookup; [exact Hl| |]; rewrite list_lookup_fmap; [by rewrite Hi|].
  rewrite Hj. simpl. by rewrite E.
Qed.

Lemma opened_step_result po o h rec r :
  RecordID rec ∉ h -> as_result rec = Some r ->
  opened_step po (o, h) rec = inl (o, h ∪ {[result_of r]}).
Proof.
  unfold as_result, opened_step. intros Hh Hr. rewrite decide_False by done.
  destruct (content rec) as [[]|]; try done. by injection Hr as ->.
Qed.

Lemma opened_step_request po o h rec q (cl : gset Local) :
  as_request rec = Some q -> RecordID rec ∉ cl ->
  (forall r, q = OutgoingRequest r -> addressLocal (Reason r) ∉ cl) ->
  opened_step po (o, h) rec =
  inl (if decide (shown po (h ∪ cl) rec) then o ++ [rec] else o, h).
Proof.
  intros Hq Hcl Ho. assert (RecordID rec ∈ h ∪ cl <-> RecordID rec ∈ h) as Hin.
  { rewrite elem_of_union. tauto. }
  assert (is_request rec) as Hreq by (by exists q).
  unfold opened_step. destruct (decide (RecordID rec ∈ h)) as [Hh|Hh].
  { rewrite decide_False; [done|]. intros (_ & H & _). apply H. by apply Hin. }
  assert (shown po (h ∪ cl) rec <-> (po = true -> is_pending (h ∪ cl) rec)) as Hs.
  { unfold shown. rewrite Hin. tauto. }
  unfold as_request in Hq. unfold is_pending, as_request in Hs.
  destruct (content rec) as [[[r|r]|s|r|r|r]|]; try done; injection Hq as <-.
  { rewrite decide_True; [done|]. by apply Hs. }
  assert (addressLocal (Reason r) ∈ h ∪ cl <-> addressLocal (Reason r) ∈ h) as Hre.
  { specialize (Ho r eq_refl). rewrite elem_of_union. tauto. }
  rewrite Hre in Hs.
  destruct po, (IsDetached r), (bool_decide_reflect (addressLocal (Reason r) ∈ h)); cbn;
    destruct (decide _) as [H|H]; try done; intuition congruence.
Qed.

Lemma opened_fold po l k o h :
  wf_filament l -> (forall rec, rec ∈ l -> ~ is_request rec -> RecordID rec ∉ h) ->
  fold_until (opened_step po) (o, h) (take k l) =
  inl (o ++ filter (shown po (h ∪ closed l)) (take k l), h ∪ closed (take k l)).
Proof.
  intros Hwf. revert k o h. induction Hwf as [|rec q l Hq Hnew Ho Hl IH|rec r l req Hr Hnew Hin Hreq Hid Hop Hl IH];
    intros k o h Hh; (destruct k as [|k]; [cbn; by rewrite app_nil_r, (right_id_L ∅ (∪))|]); cbn [take].
  { cbn. by rewrite app_nil_r, (right_id_L ∅ (∪)). }
  - cbn [fold_until closed]. rewrite (as_request_result _ _ Hq).
    rewrite (opened_step_request po o h rec q (closed l)); [|done|by apply new_not_closed|done].
    rewrite IH by (intros x Hx; apply Hh; by right). f_equal. f_equal.
    rewrite filter_cons. destruct (decide _); [|done]. by rewrite <- (assoc_L (++)).
  - assert (~ is_request rec) as Hnr by (by eapply as_result_not_request).
    cbn [fold_until closed]. rewrite Hr.
    rewrite (opened_step_result po o h rec r); [|apply Hh; [by left|done]|done].
    rewrite IH.
    + rewrite filter_cons_False by (intros [? _]; done). by rewrite !(assoc_L (∪)).
    + intros x Hx Hxr. rewrite elem_of_union, elem_of_singleton. intros [H|E].
      * revert H. apply Hh; [by right|done].
      * apply Hxr. rewrite (RecordID_inj l x req) by (try done; congruence). done.
Qed.

(** ** Chains in pulse order *)

Definition meta_pulse (rec : Composite) : Z := Local_Pulse (MetaID rec).

Lemma since_take r l : exists k, since r l = take k l.
Proof.
  induction l as [|rec l [k IH]]; simpl; [by exists O|].
  destruct (_ >=? r); [exists (S k); by rewrite IH|by exists O].
Qed.

Lemma since_elem r l x :
  StronglySorted (fun a b => meta_pulse b <= meta_pulse a) l ->
  x ∈ l -> r <= meta_pulse x -> x ∈ since r l.
Proof.
  induction 1 as [|rec l Hl IH Hrec]; intros Hx Hr; [done|]. cbn [since].
  fold (meta_pulse rec). destruct (Z.geb_spec (meta_pulse rec) r) as [Hge|Hlt].
  - apply elem_of_cons in Hx as [->|Hx]; [by left|]. right. by apply IH.
  - apply elem_of_cons in Hx as [->|Hx]; [lia|].
    eapply list.Forall_forall in Hrec; [|exact Hx]. lia.
Qed.

Lemma since_in r l x : x ∈ since r l -> x ∈ l.
Proof. destruct (since_take r l) as [k ->]. apply subseteq_take. Qed.

(** All that a predicate selects is in the visited part. *)
Lemma filter_since (P : Composite -> Prop) `{!forall x, Decision (P x)} r l :
  (forall x, x ∈ l -> P x -> x ∈ since r l) -> NoDup l -> filter P (since r l) = filter P l.
Proof.
  destruct (since_take r l) as [k ->]. intros Hall Hd.
  rewrite <- (take_drop k l) at 2. rewrite list.filter_app, (filter_none _ (drop k l)).
  { by rewrite app_nil_r. }
  intros x Hx HP. apply (Hall x) in HP; [|by eapply subseteq_drop].
  rewrite <- (take_drop k l) in Hd. apply list.NoDup_app in Hd as (_ & Hd & _).
  by apply (Hd x).
Qed.

(** ** The lifeline of an object describes its filament *)

Definition earliest_open (l : list Composite) : option Z :=
  (fun rec => Local_Pulse (RecordID rec)) <$> last (open_requests l).

(** Mutable requests are closed from the oldest on. *)
Definition in_order (l : list Composite) : Prop :=
  forall newer x older y, l = newer ++ x :: older ->
    isMutableRequest x = true -> RecordID x ∈ closed l ->
    y ∈ older -> isMutableRequest y = true -> RecordID y ∈ closed l.

Record lifeline_ok (F : Local -> option Composite) (lf : Lifeline) (l : list Composite) : Prop := {
  lo_chain : filament F (LatestRequest lf) l;
  lo_wf : wf_filament l;
  lo_sorted : StronglySorted (fun a b => meta_pulse b <= meta_pulse a) l;
  lo_pulse : Forall (fun rec => meta_pulse rec = Local_Pulse (RecordID rec) /\ 0 < meta_pulse rec) l;
  lo_earliest : EarliestOpenRequest lf = earliest_open l;
  lo_count : OpenRequestsCount lf = u32 (Z.of_nat (length (open_requests l)));
  lo_order : in_order l;
}.

Lemma open_sorted l :
  StronglySorted (fun a b => meta_pulse b <= meta_pulse a) l ->
  StronglySorted (fun a b => meta_pulse b <= meta_pulse a) (open_requests l).
Proof.
  unfold open_requests. generalize (closed l). intros cl.
  induction 1 as [|rec l Hl IH Hrec]; [constructor|]. rewrite filter_cons.
  destruct (decide _); [|done]. constructor; [done|].
  apply list.Forall_forall. intros x Hx%list_elem_of_filter.
  by eapply list.Forall_forall in Hrec; [|apply Hx].
Qed.

Lemma sorted_last (l : list Composite) x y :
  StronglySorted (fun a b => meta_pulse b <= meta_pulse a) l -> x ∈ l -> last l = Some y ->
  meta_pulse y <= meta_pulse x.
Proof.
  induction 1 as [|rec l Hl IH Hrec]; intros Hx Hy; [done|].
  destruct l as [|rec' l]; [injection Hy as <-; apply list_elem_of_singleton in Hx as ->; lia|].
  rewrite last_cons_cons in Hy. apply elem_of_cons in Hx as [->|Hx]; [|by apply IH].
  eapply list.Forall_forall in Hrec; [exact Hrec|]. by apply last_Some_elem_of.
Qed.

(** The earliest open pulse bounds every open request. *)
Lemma earliest_bounds F lf l e x :
  lifeline_ok F lf l -> EarliestOpenRequest lf = Some e -> x ∈ open_requests l -> e <= meta_pulse x.
Proof.
  intros [_ _ Hs Hp He _ _] E Hx. rewrite He in E. unfold earliest_open in E.
  destruct (last (open_requests l)) as [y|] eqn:Ey; [|done]. injection E as <-.
  assert (y ∈ open_requests l) as Hy by (by apply last_Some_elem_of).
  apply open_elem in Hy as [Hy _].
  eapply list.Forall_forall in Hp; [|exact Hy]. destruct Hp as [<- _].
  eapply sorted_last; [by apply open_sorted|done|done].
Qed.

Lemma earliest_positive F lf l e :
  lifeline_ok F lf l -> EarliestOpenRequest lf = Some e -> 0 < e.
Proof.
  intros [_ _ _ Hp He _ _] E. rewrite He in E. unfold earliest_open in E.
  destruct (last (open_requests l)) as [y|] eqn:Ey; [|done]. injection E as <-.
  apply last_Some_elem_of, open_elem in Ey as [Hy _].
  eapply list.Forall_forall in Hp; [|exact Hy]. lia.
Qed.

Lemma no_earliest_no_open F lf l :
  lifeline_ok F lf l -> EarliestOpenRequest lf = None -> open_requests l = [].
Proof.
  intros [_ _ _ _ He _ _] E. rewrite He in E. unfold earliest_open in E.
  destruct (last (open_requests l)) eqn:El; [done|]. by apply last_None in El.
Qed.

(** ** The fold of [RequestInfo] *)

(** The result that closes a request. *)
Fixpoint closing (x : Local) (l : list Composite) : option Composite :=
  match l with
  | [] => None
  | rec :: l' =>
      match as_result rec with
      | Some r => if decide (result_of r = x) then Some rec else closing x l'
      | None => closing x l'
      end
  end.

Definition open_mutable (cl : gset Local) (rec : Composite) : Prop :=
  (RecordID rec ∉ cl) /\ isMutableRequest rec = true.
#[export] Instance open_mutable_dec cl rec : Decision (open_mutable cl rec).
Proof. unfold open_mutable. apply _. Defined.

Lemma isMutable_request rec : isMutableRequest rec = true -> is_request rec.
Proof. unfold isMutableRequest, is_request. destruct (as_request rec); [by eexists|done]. Qed.

Lemma closing_None x l : x ∉ closed l -> closing x l = None.
Proof.
  induction l as [|rec l IH]; intros Hx; [done|]. cbn [closing closed] in *.
  destruct (as_result rec) as [r|].
  - rewrite elem_of_union, elem_of_singleton in Hx.
    rewrite decide_False by intuition congruence. apply IH. tauto.
  - by apply IH.
Qed.

Definition or_else {A} (a b : option A) : option A := match a with Some _ => a | None => b end.

(** Before the request is met, only results matter. *)
Lemma info_fold_newer id l tail rest res flag h :
  wf_filament (l ++ tail) -> (forall rec, rec ∈ l -> RecordID rec <> id) ->
  fold_until (info_step id) (mkInfo None res flag, h) (l ++ rest) =
  fold_until (info_step id) (mkInfo None (or_else (closing id l) res) flag, h ∪ closed l) rest.
Proof.
  revert res h. induction l as [|rec l IH]; intros res h Hwf Hid.
  { cbn. by rewrite (right_id_L ∅ (∪)). }
  cbn [app fold_until closed closing]. unfold info_step at 1.
  rewrite bool_decide_false by (apply Hid; by left). cbn [Info_Request Info_Result].
  rewrite (bool_decide_false (is_Some None)) by (by intros []).
  cbn [andb Info_OldestMutable]. destruct (as_result rec) as [r|] eqn:Er.
  - rewrite IH; [|by eapply wf_tail|intros x Hx; apply Hid; by right].
    fold (result_of r). rewrite (assoc_L (∪)).
    destruct (decide (result_of r = id)) as [E|E].
    + rewrite bool_decide_true by done. rewrite closing_None; [done|].
      inversion Hwf as [|? q ? Hq|? r' ? req Hr' Hnew Hin Hreq Hid' Hop Hl]; subst.
      { by rewrite (as_request_result _ _ Hq) in Er. }
      assert (r' = r) as -> by congruence. intros Hc. apply Hop. rewrite closed_app.
      by apply elem_of_union_l.
    + by rewrite bool_decide_false.
  - apply IH; [by eapply wf_tail|]. intros x Hx. apply Hid. by right.
Qed.

(** After it, the first older open mutable request decides. *)
Lemma info_fold_older id l k req res flag h :
  wf_filament l -> (forall rec, rec ∈ l -> RecordID rec <> id) -> id ∉ closed l ->
  fold_until (info_step id) (mkInfo (Some req) res flag, h) (take k l) =
  inl (mkInfo (Some req) res
         (flag && bool_decide (Forall (fun x => ~ open_mutable (h ∪ closed l) x) (take k l))),
       h ∪ closed (take k l)).
Proof.
  intros Hwf. revert k flag h. induction l as [|rec l IH]; intros k flag h Hid Hcl.
  { rewrite take_nil. cbn. by rewrite andb_true_r, (right_id_L ∅ (∪)). }
  destruct k as [|k].
  { cbn [take fold_until closed]. rewrite bool_decide_true by constructor.
    by rewrite andb_true_r, (right_id_L ∅ (∪)). }
  pose proof (wf_tail _ _ Hwf) as Hl. assert (forall x, x ∈ l -> RecordID x <> id) as Hidl.
  { intros x Hx. apply Hid. by right. }
  cbn [take fold_until closed]. unfold info_step at 1.
  rewrite bool_decide_false by (apply Hid; by left). cbn [Info_Request Info_Result].
  rewrite (bool_decide_true (is_Some (Some req))) by done. cbn [andb Info_OldestMutable].
  cbn [closed] in Hcl. destruct (as_result rec) as [r|] eqn:Er.
  - rewrite elem_of_union, elem_of_singleton in Hcl. fold (result_of r).
    rewrite (bool_decide_false (result_of r = id)) by intuition congruence.
    rewrite (IH Hl) by tauto. rewrite !(assoc_L (∪)). f_equal. f_equal. f_equal.
    assert (isMutableRequest rec = false) as Hm.
    { destruct (isMutableRequest rec) eqn:Em; [|done].
      by apply isMutable_request, (as_result_not_request _ _ Er) in Em. }
    rewrite Hm, andb_false_r. f_equal. apply bool_decide_ext.
    rewrite list.Forall_cons. unfold open_mutable at 2. rewrite Hm. intuition congruence.
  - rewrite (IH Hl) by done. f_equal. f_equal. f_equal.
    assert (RecordID rec ∉ closed l) as Hnew.
    { apply new_not_closed; [done|]. by inversion Hwf. }
    assert (open_mutable (h ∪ closed l) rec <-> (RecordID rec ∉ h) /\ isMutableRequest rec = true) as Ho.
    { unfold open_mutable. rewrite elem_of_union. tauto. }
    destruct (bool_decide_reflect (RecordID rec ∈ h)), (isMutableRequest rec) eqn:Em; cbn [negb andb];
      try (f_equal; apply bool_decide_ext; rewrite list.Forall_cons, Ho; intuition congruence).
    rewrite (bool_decide_false (Forall _ (rec :: _))), andb_false_r; [done|].
    rewrite list.Forall_cons, Ho. tauto.
Qed.

(** ** The operations on a ledger that holds together *)

(** Whatever the limit, the records down to it can be had. *)
Definition available `{Node} (F : Local -> option Composite) (c : FilamentCalculator)
    (objectID : Local) (l : list Composite) : Prop :=
  forall readUntil, Forall (served F c objectID readUntil) (since readUntil l).

(** The index of the object at [pulse] and the filament it describes. *)
Record object_ok `{Node} (F : Local -> option Composite) (c : FilamentCalculator) (pulse : Z)
    (objectID : Local) (lf : Lifeline) (l : list Composite) : Prop := {
  ob_index : exists idx, Index_ForID (indexes c) pulse objectID = Good idx /\ Index_Lifeline idx = lf;
  ob_lifeline : lifeline_ok F lf l;
  ob_available : available F c objectID l;
}.

Lemma shown_false cl (l : list Composite) : filter (shown false cl) l = filter (fun r => is_request r /\ RecordID r ∉ cl) l.
Proof. apply list_filter_iff. intros x. unfold shown. split; [tauto|intuition congruence]. Qed.

Lemma shown_open po l x : x ∈ l -> shown po (closed l) x -> x ∈ open_requests l.
Proof. intros Hx (? & ? & _). by apply open_elem. Qed.

Lemma opened_since F lf l po e :
  lifeline_ok F lf l -> EarliestOpenRequest lf = Some e ->
  fold_until (opened_step po) ([], ∅) (since e l) =
  inl (filter (shown po (closed l)) l, closed (since e l)).
Proof.
  intros Hok He. pose proof (lo_wf _ _ _ Hok) as Hwf. destruct (since_take e l) as [k Ek].
  rewrite Ek, opened_fold by (try done; intros; apply not_elem_of_empty).
  rewrite (left_id_L ∅ (∪)), app_nil_l, (left_id_L ∅ (∪)), <- Ek.
  f_equal. f_equal. apply filter_since.
  - intros x Hx Hs. apply since_elem; [by apply Hok|done|].
    eapply earliest_bounds; [done|done|]. by eapply shown_open.
  - apply wf_NoDup in Hwf. by eapply NoDup_fmap_1.
Qed.

Section Operations.
Context `{Node} (F : Local -> option Composite) (c : FilamentCalculator).

(** What [OpenedRequests] returns, oldest first. *)
Lemma OpenedRequests_wp ok pulse objectID lf l po cs :
  object_ok F c pulse objectID lf l -> caches_truthful F cs -> (ok -> (length l < fuel c)%nat) ->
  wp ok (OpenedRequests c pulse objectID po) cs (fun cs' r =>
    caches_truthful F cs' /\ r = Good (reverse (filter (shown po (closed l)) l))).
Proof.
  intros [(idx & Ei & El) Hok Hav] Hcs Hfuel. unfold OpenedRequests.
  apply wp_bind. unfold wp at 1, lift_result. rewrite Ei. apply wp_bind.
  unfold wp at 1, touch, modify. rewrite El.
  pose proof (touch_truthful F objectID cs Hcs) as Hcs'.
  pose proof (lo_chain _ _ _ Hok) as Hchain.
  destruct (LatestRequest lf) as [latest|]; [|inversion Hchain; subst; by split].
  destruct (EarliestOpenRequest lf) as [e|] eqn:He.
  - apply wp_bind. eapply wp_mono.
    + apply (fetching_chain F c objectID e); [exact Hchain|done| |apply Hav|done].
      pose proof (earliest_positive _ _ _ _ Hok He). lia.
    + intros cs1 r [Hcs1 ->]. cbv beta iota.
      rewrite (opened_since F lf l po e Hok He). by split.
  - split; [done|]. rewrite filter_none; [done|]. intros x Hx Hs.
    apply (shown_open po) in Hs; [|done].
    rewrite (no_earliest_no_open _ _ _ Hok He) in Hs. by apply not_elem_of_nil in Hs.
Qed.

(** [RequestInfo]: the request and its result, and whether the request is a
    mutable one with no older open mutable request. *)
Definition info_of (l : list Composite) (req : Composite) (newer older : list Composite) :
  FilamentsRequestInfo :=
  mkInfo (Some req) (closing (RecordID req) newer)
    (isMutableRequest req && bool_decide (Forall (fun x => ~ open_mutable (closed l) x) older)).

Lemma since_split r newer req older :
  StronglySorted (fun a b => meta_pulse b <= meta_pulse a) (newer ++ req :: older) ->
  r <= meta_pulse req ->
  since r (newer ++ req :: older) = newer ++ req :: since r older.
Proof.
  intros Hs Hr. induction newer as [|x newer IH]; cbn [app since].
  - fold (meta_pulse req). by rewrite (proj2 (Z.geb_le (meta_pulse req) r)) by lia.
  - inversion Hs as [|? ? Hs' Hx]; subst. fold (meta_pulse x).
    eapply list.Forall_forall in Hx; [|apply elem_of_app; right; by left].
    rewrite (proj2 (Z.geb_le (meta_pulse x) r)) by lia. by rewrite IH.
Qed.

Lemma wf_split newer req older :
  wf_filament (newer ++ req :: older) -> is_request req ->
  (forall x, x ∈ newer -> RecordID x <> RecordID req) /\
  (forall x, x ∈ older -> RecordID x <> RecordID req) /\
  (RecordID req ∉ closed older) /\
  forall x, x ∈ older -> (RecordID x ∉ closed newer ∪ closed older <->
                        RecordID x ∉ closed (newer ++ req :: older)).
Proof.
  intros Hwf [q Hq]. pose proof (wf_NoDup _ Hwf) as Hd. rewrite fmap_app in Hd.
  apply list.NoDup_app in Hd as (_ & Hdis & Hd). cbn in Hd. apply list.NoDup_cons in Hd as [Hr Hd].
  split; [|split; [|split]].
  - intros x Hx E. apply (Hdis (RecordID x)); [by apply list_elem_of_fmap_2|]. rewrite E. by left.
  - intros x Hx E. apply Hr. rewrite <- E. by apply list_elem_of_fmap_2.
  - apply new_not_closed; [|done]. by eapply wf_tail, wf_app.
  - intros x _. rewrite closed_app. cbn [closed]. by rewrite (as_request_result _ _ Hq).
Qed.

Lemma info_chain lf newer req older minPulse :
  let l := newer ++ req :: older in
  lifeline_ok F lf l -> is_request req -> minPulse <= meta_pulse req ->
  (forall e, EarliestOpenRequest lf = Some e -> minPulse <= e) ->
  match fold_until (info_step (RecordID req)) (mkInfo None None true, ∅) (since minPulse l) with
  | inl (info, _) | inr info => info = info_of l req newer older
  end /\
  match fold_until (info_step (RecordID req)) (mkInfo None None true, ∅) (since minPulse l) with
  | inl (info, _) => is_Some (Info_Request info)
  | inr _ => True
  end.
Proof.
  intros l Hok Hreq Hmin Hearly. pose proof (lo_wf _ _ _ Hok) as Hwf.
  destruct (wf_split _ _ _ Hwf Hreq) as (Hnewer & Holder & Hcl & Hiff).
  unfold l. rewrite since_split by (done || apply Hok).
  rewrite (info_fold_newer _ newer (req :: older)) by done.
  cbn [fold_until]. unfold info_step at 1 3. rewrite bool_decide_true by done.
  cbn [Info_Result Info_OldestMutable]. unfold info_of.
  assert (or_else (closing (RecordID req) newer) None = closing (RecordID req) newer) as ->
    by (by destruct (closing _ newer)).
  destruct (isMutableRequest req) eqn:Em; cbn [negb andb]; [|done].
  destruct (since_take minPulse older) as [k Ek]. rewrite Ek.
  rewrite info_fold_older by (try done; by eapply wf_tail, wf_app).
  split; [|done]. f_equal. cbn [andb]. rewrite (left_id_L ∅ (∪)). apply bool_decide_ext.
  rewrite !list.Forall_forall. split; intros Hall x Hx [Hop Hm].
  - destruct (decide (minPulse <= meta_pulse x)) as [Hp|Hp].
    + apply (Hall x); [|split; [by apply Hiff|done]]. rewrite <- Ek.
      apply since_elem; [|done|done]. pose proof (lo_sorted _ _ _ Hok) as Hs.
      clear -Hs. induction newer; inversion Hs; [done|]. auto.
    + destruct (EarliestOpenRequest lf) as [e|] eqn:He.
      * apply Hp. transitivity e; [by apply Hearly|].
        eapply earliest_bounds; [done|done|]. apply open_elem.
        split; [apply elem_of_app; right; by right|]. split; [by apply isMutable_request|done].
      * assert (x ∈ open_requests l) as Hx'.
        { apply open_elem. split; [apply elem_of_app; right; by right|].
          split; [by apply isMutable_request|done]. }
        rewrite (no_earliest_no_open _ _ _ Hok He) in Hx'. by apply not_elem_of_nil in Hx'.
  - apply (Hall x); [eapply subseteq_take; exact Hx|]. split; [|done]. apply Hiff; [|done].
    eapply subseteq_take; exact Hx.
Qed.

(** The limit that [RequestInfo] reads until. *)
Definition infoLimit (lf : Lifeline) (requestID : Local) : Z :=
  match EarliestOpenRequest lf with
  | Some earliest => if earliest <=? Local_Pulse requestID then earliest else Local_Pulse requestID
  | None => Local_Pulse requestID
  end.

Lemma infoLimit_bounds lf requestID :
  infoLimit lf requestID <= Local_Pulse requestID /\
  forall e, EarliestOpenRequest lf = Some e -> infoLimit lf requestID <= e.
Proof.
  unfold infoLimit. destruct (EarliestOpenRequest lf) as [e|]; [|split; [lia|done]].
  destruct (Z.leb_spec e (Local_Pulse requestID)); (split; [lia|intros ? [= <-]; lia]).
Qed.

Lemma infoLimit_positive lf l requestID :
  lifeline_ok F lf l -> 0 < Local_Pulse requestID -> infoLimit lf requestID <> 0.
Proof.
  intros Hok Hp. unfold infoLimit. destruct (EarliestOpenRequest lf) as [e|] eqn:He; [|lia].
  pose proof (earliest_positive _ _ _ _ Hok He). destruct (Z.leb_spec e (Local_Pulse requestID)); lia.
Qed.

(** [RequestInfo] is one walk over the chain. *)
Lemma RequestInfo_walk ok pulse objectID requestID lf l cs :
  object_ok F c pulse objectID lf l -> caches_truthful F cs -> l <> [] ->
  0 < Local_Pulse requestID -> (ok -> (length l < fuel c)%nat) ->
  wp ok (RequestInfo c objectID requestID pulse) cs (fun cs' r =>
    caches_truthful F cs' /\
    r = match fold_until (info_step requestID) (mkInfo None None true, ∅)
                (since (infoLimit lf requestID) l) with
        | inr info => Good info
        | inl (info, _) =>
            match Info_Request info with
            | None => Fail (CodedError "requestInfo not found request" CodeRequestNotFound)
            | Some _ => Good info
            end
        end).
Proof.
  intros [(idx & Ei & El) Hok Hav] Hcs Hne Hp Hfuel. unfold RequestInfo.
  apply wp_bind. unfold wp at 1, lift_result. rewrite Ei. cbn [wrap_err]. rewrite El.
  pose proof (lo_chain _ _ _ Hok) as Hchain.
  destruct (LatestRequest lf) as [latest|]; [|by inversion Hchain].
  apply wp_bind. eapply wp_mono.
  - apply (fetching_chain F c objectID (infoLimit lf requestID));
      [exact Hchain|done|by eapply infoLimit_positive|apply Hav|done].
  - intros cs1 r [Hcs1 ->]. cbv beta iota.
    destruct (fold_until _ _ _) as [[info ?]|info]; [|by split].
    destruct (Info_Request info); by split.
Qed.
End Operations.

(** C30: [RequestInfo] of a request in the chain: the request, its result if it
    has one, and whether it is a mutable incoming request with no older open
    mutable request; of any other identifier: the error "not found".  It never
    panics and needs no more iterations than the chain has records, wherever
    those are kept. *)
Theorem RequestInfo_correct `{Node} F c pulse objectID requestID lf l cs :
  object_ok F c pulse objectID lf l -> caches_truthful F cs -> 0 < Local_Pulse requestID ->
  (forall newer req older, l = newer ++ req :: older -> is_request req -> RecordID req = requestID ->
   wp (length l < fuel c)%nat (RequestInfo c objectID requestID pulse) cs (fun cs' r =>
     caches_truthful F cs' /\ r = Good (info_of l req newer older))) /\
  (l <> [] -> requestID ∉ RecordID <$> l ->
   wp (length l < fuel c)%nat (RequestInfo c objectID requestID pulse) cs (fun cs' r =>
     caches_truthful F cs' /\
     r = Fail (CodedError "requestInfo not found request" CodeRequestNotFound))).
Proof.
  intros Hob Hcs Hp. split.
  - intros newer req older -> Hreq <-.
    eapply wp_mono; [apply (RequestInfo_walk F c _ _ _ _ lf); (done || by destruct newer)|].
    intros cs' r [Hcs' ->]. split; [done|].
    destruct Hob as [_ Hok _]. pose proof (infoLimit_bounds lf (RecordID req)) as [Hb1 Hb2].
    assert (meta_pulse req = Local_Pulse (RecordID req)) as Em.
    { pose proof (lo_pulse _ _ _ Hok) as Hall. eapply list.Forall_forall in Hall; [apply Hall|].
      apply elem_of_app. right. by left. }
    destruct (info_chain F lf newer req older (infoLimit lf (RecordID req))) as [H1 H2];
      [done|done|lia|done|].
    destruct (fold_until _ _ _) as [[info ?]|info]; [|by f_equal].
    destruct H2 as [x Ex]. rewrite Ex. by f_equal.
  - intros Hne Hid. eapply wp_mono; [by apply (RequestInfo_walk F c _ _ _ _ lf)|].
    intros cs' r [Hcs' ->]. split; [done|]. destruct Hob as [_ Hok _].
    destruct (since_take (infoLimit lf requestID) l) as [k Ek]. rewrite Ek.
    rewrite <- (app_nil_r (take k l)).
    rewrite (info_fold_newer _ (take k l) (drop k l)).
    + done.
    + rewrite take_drop. apply Hok.
    + intros x Hx%subseteq_take E. apply Hid. rewrite <- E. by apply list_elem_of_fmap_2.
Qed.

(** ** The oldest mutable request *)
Lemma OldestMutable_find l :
  Forall is_request l ->
  OldestMutable l = Ret (snd <$> list_find (fun rec => isMutableRequest rec = true) l).
Proof.
  induction 1 as [|rec l Hr Hl IH]; [done|]. cbn [OldestMutable list_find].
  destruct Hr as [q Hq]. rewrite Hq. destruct (isMutableRequest rec) eqn:Em.
  - by rewrite decide_True.
  - rewrite decide_False by done. rewrite IH. by destruct (list_find _ l) as [[]|].
Qed.

Lemma open_all_requests l : Forall is_request (reverse (open_requests l)).
Proof.
  apply Forall_reverse, list.Forall_forall. intros x Hx. by apply open_elem in Hx as (_ & ? & _).
Qed.

(** No open mutable request is older than [req]. *)
Lemma oldest_open_mutable newer req older :
  let l := newer ++ req :: older in
  wf_filament l -> req ∈ open_requests l -> isMutableRequest req = true ->
  (Forall (fun x => ~ open_mutable (closed l) x) older <->
   OldestMutable (reverse (open_requests l)) = Ret (Some req)).
Proof.
  intros l Hwf Hop Hm. rewrite OldestMutable_find by apply open_all_requests.
  rewrite list.Forall_forall.
  apply open_elem in Hop as (_ & Hreq & Hcl). unfold open_requests.
  set (cl := closed l) in *. unfold l. rewrite list.filter_app, filter_cons_True by done.
  rewrite reverse_app, reverse_cons, <- (assoc_L (++)).
  set (P := fun rec => isMutableRequest rec = true).
  set (older' := reverse (filter _ older)). split.
  - intros Hall. assert (list_find P older' = None) as Hn.
    { apply list_find_None, list.Forall_forall. intros x Hx Hmx. unfold older' in Hx.
      rewrite elem_of_reverse, list_elem_of_filter in Hx. destruct Hx as ((_ & Ho) & Hx).
      by apply (Hall x Hx). }
    rewrite list_find_app_r by done. cbn [app list_find]. by rewrite decide_True.
  - intros E x Hx [Ho Hmx]. assert (x ∈ older') as Hx'.
    { unfold older'. rewrite elem_of_reverse, list_elem_of_filter.
      split; [|done]. split; [by apply isMutable_request|done]. }
    destruct (list_find P older') as [[i y]|] eqn:Ef.
    + rewrite (list_find_app_l _ _ _ i y) in E by done. injection E as <-.
      apply list_find_Some in Ef as (Hi & _). apply list_elem_of_lookup_2 in Hi.
      unfold older' in Hi. rewrite elem_of_reverse, list_elem_of_filter in Hi.
      destruct (wf_split _ _ _ Hwf Hreq) as (_ & Hold & _). by apply (Hold y); [apply Hi|].
    + apply list_find_None in Ef. eapply list.Forall_forall in Ef; [|exact Hx']. by apply Ef.
Qed.

(** the two ways to find the oldest mutable request agree: for an open
    mutable request of the chain, the flag of [RequestInfo] is set exactly
    when [OldestMutable] of the open requests in time order is that request. *)
Theorem RequestInfo_OldestMutable newer req older :
  let l := newer ++ req :: older in
  wf_filament l -> req ∈ open_requests l -> isMutableRequest req = true ->
  (Info_OldestMutable (info_of l req newer older) = true <->
   OldestMutable (reverse (open_requests l)) = Ret (Some req)).
Proof.
  intros l Hwf Hop Hm. unfold info_of. cbn [Info_OldestMutable]. rewrite Hm. cbn [andb].
  rewrite bool_decide_eq_true. by apply oldest_open_mutable.
Qed.

(** ** Duplicates *)

Definition closesb (x : Local) (rec : Composite) : bool :=
  match as_result rec with Some r => bool_decide (result_of r = x) | None => false end.

(** A record that stands for the same result, or for another result of the
    same request. *)
Definition duplicates (resultID requestID : Local) (rec : Composite) : bool :=
  same_hash (RecordID rec) resultID || closesb requestID rec.

Definition duplicate_of (resultID requestID : Local) (l : list Composite) : option Composite :=
  snd <$> list_find (fun rec => duplicates resultID requestID rec = true) l.

Lemma same_hash_true a b : same_hash a b = true <-> Local_Hash a = Local_Hash b.
Proof. apply bool_decide_eq_true. Qed.

Lemma resultDuplicate_step_eq resultID result rec :
  resultDuplicate_step resultID result tt rec =
  if duplicates resultID (result_of result) rec then inr (Some rec)
  else if same_hash (RecordID rec) (result_of result) then inr None else inl tt.
Proof.
  unfold resultDuplicate_step, duplicates, closesb, result_of.
  by destruct (same_hash (RecordID rec) resultID).
Qed.

Lemma resultDuplicate_fold resultID result newer req rest :
  RecordID req = result_of result -> is_request req ->
  (forall x, x ∈ newer -> Local_Hash (RecordID x) <> Local_Hash (RecordID req)) ->
  Local_Hash resultID <> Local_Hash (RecordID req) ->
  fold_until (resultDuplicate_step resultID result) tt (newer ++ req :: rest) =
  inr (duplicate_of resultID (result_of result) newer).
Proof.
  intros Hid [q Hq] Hnewer Hres.
  induction newer as [|x newer IH]; cbn [app fold_until]; rewrite resultDuplicate_step_eq.
  - unfold duplicates, closesb. rewrite (as_request_result _ _ Hq), orb_false_r.
    unfold same_hash. rewrite bool_decide_false, bool_decide_true by congruence. done.
  - unfold duplicate_of. cbn [list_find].
    destruct (duplicates resultID (result_of result) x) eqn:E1; [by rewrite decide_True|].
    destruct (same_hash (RecordID x) (result_of result)) eqn:E3.
    { apply same_hash_true in E3. rewrite <- Hid in E3. destruct (Hnewer x); [by left|done]. }
    rewrite decide_False by done.
    rewrite IH by (intros y Hy; apply Hnewer; by right). unfold duplicate_of.
    by destruct (list_find _ newer) as [[]|].
Qed.

(** [ResultDuplicate] on a chain with the request of the result: the newest
    record after the request that has the hash of the result or closes the
    same request; nothing if there is none.  Its errors are those of the
    missing index and of an empty request reference. *)
Theorem ResultDuplicate_correct `{Node} F c objectID resultID result lf newer req older cs :
  let l := newer ++ req :: older in
  object_ok F c (Local_Pulse resultID) objectID lf l -> caches_truthful F cs ->
  is_request req -> RecordID req = result_of result -> 0 < Local_Pulse (RecordID req) ->
  (forall x, x ∈ newer -> Local_Hash (RecordID x) <> Local_Hash (RecordID req)) ->
  Local_Hash resultID <> Local_Hash (RecordID req) ->
  wp (length l < fuel c)%nat (ResultDuplicate c objectID resultID result) cs (fun cs' r =>
    caches_truthful F cs' /\ r = Good (duplicate_of resultID (result_of result) newer)).
Proof.
  intros l [(idx & Ei & El) Hok Hav] Hcs Hreq Hid Hp Hnewer Hres. unfold ResultDuplicate.
  assert (Global_IsEmpty (Result_Request result) = false) as ->.
  { unfold Global_IsEmpty. fold (result_of result). rewrite <- Hid.
    apply andb_false_iff. left. unfold Local_IsEmpty. apply Z.eqb_neq. intros E.
    unfold Local_Pulse, Local_GetPulseNumber in Hp. rewrite E in Hp. by cbn in Hp. }
  apply wp_bind. unfold wp at 1, lift_result. rewrite Ei, El.
  pose proof (lo_chain _ _ _ Hok) as Hchain.
  destruct (LatestRequest lf) as [latest|]; [|by destruct newer; inversion Hchain].
  apply wp_bind. eapply wp_mono.
  - apply (fetching_chain F c objectID (Local_Pulse (result_of result)));
      [exact Hchain|done|rewrite <- Hid; lia|apply Hav|done].
  - intros cs1 r [Hcs1 ->]. cbv beta iota.
    assert (meta_pulse req = Local_Pulse (RecordID req)) as Em.
    { pose proof (lo_pulse _ _ _ Hok) as Hall. eapply list.Forall_forall in Hall; [apply Hall|].
      apply elem_of_app. right. by left. }
    unfold l. rewrite since_split by (apply Hok || (rewrite <- Hid; lia)).
    rewrite resultDuplicate_fold by done. by split.
Qed.

Definition closes_hash (h : list Z) (rec : Composite) : bool :=
  match as_result rec with Some r => bool_decide (Local_Hash (result_of r) = h) | None => false end.

(** The oldest records with the hash of the request, and of a result for it. *)
Lemma requestDuplicate_fold id l a b :
  fold_until (requestDuplicate_step id) (a, b) l =
  inl (or_else (last (filter (fun rec => Local_Hash (RecordID rec) = Local_Hash id) l)) a,
       or_else (last (filter (fun rec => closes_hash (Local_Hash id) rec = true) l)) b).
Proof.
  revert a b. induction l as [|rec l IH]; intros a b; [done|].
  cbn [fold_until]. unfold requestDuplicate_step at 1. rewrite IH.
  assert (forall P (D : forall x, Decision (P x)) (o : option Composite) (bb : bool),
    (bb = true <-> P rec) ->
    or_else (last (filter P l)) (if bb then Some rec else o) =
    or_else (last (filter P (rec :: l))) o) as Hlast.
  { intros P D o bb Hb. rewrite filter_cons. destruct (decide (P rec)) as [HP|HP].
    - rewrite (proj2 Hb HP). destruct (filter P l) as [|y ys]; [done|].
      rewrite last_cons_cons. by destruct (last (y :: ys)) eqn:E; [|apply last_None in E].
    - destruct bb; [tauto|done]. }
  f_equal. f_equal; [apply Hlast, same_hash_true|].
  rewrite <- (Hlast (fun rec => closes_hash (Local_Hash id) rec = true) _ b
    (closes_hash (Local_Hash id) rec)) by done.
  f_equal. unfold closes_hash, same_hash, result_of. by destruct (as_result rec).
Qed.

(** [RequestDuplicate] of a request that creates nothing. *)
Theorem RequestDuplicate_correct `{Node} F c objectID requestID request lf l idx cs :
  object_ok F c (Local_Pulse requestID) objectID lf l -> caches_truthful F cs ->
  Index_ForID (indexes c) (Local_Pulse requestID) objectID = Good idx -> ObjID idx = objectID ->
  IsCreationRequest request = false ->
  let reasonPulse := Local_Pulse (addressLocal (ReasonRef request)) in
  0 < reasonPulse ->
  wp (length l < fuel c)%nat (RequestDuplicate c objectID requestID request) cs (fun cs' r =>
    caches_truthful F cs' /\
    r = Good (last (filter (fun rec => Local_Hash (RecordID rec) = Local_Hash requestID)
                      (since reasonPulse l)),
              last (filter (fun rec => closes_hash (Local_Hash requestID) rec = true) (since reasonPulse l)))).
Proof.
  intros [(idx' & Ei & El) Hok Hav] Hcs Ei' Hobj Hcr reasonPulse Hp. unfold RequestDuplicate.
  assert (idx' = idx) as -> by congruence.
  apply wp_bind. unfold duplicateIndex. rewrite Hcr, Ei. cbn.
  apply wp_bind. cbn. rewrite El, Hobj. pose proof (lo_chain _ _ _ Hok) as Hchain.
  destruct (LatestRequest lf) as [latest|]; [|by inversion Hchain; subst].
  apply wp_bind. eapply wp_mono.
  - apply (fetching_chain F c objectID reasonPulse); [exact Hchain|done|lia|apply Hav|done].
  - intros cs1 r [Hcs1 ->]. cbv beta iota. rewrite requestDuplicate_fold. cbn.
    split; [done|]. f_equal. f_equal; by destruct (last _).
Qed.

(** ** The caches stay true, whatever is asked *)

(** The storage and the answers of other nodes tell the truth. *)
Record honest `{Node} (F : Local -> option Composite) (c : FilamentCalculator) : Prop := {
  hn_local : forall id m f m', Record_ForID (records c) id = Good m -> filament_of m = Some f ->
    Record_ForID (records c) (Filament_RecordID f) = Good m' ->
    F id = Some (mkComposite (Filament_RecordID f) m' id m);
  hn_net : forall objectID readUntil id recs, fetchFromNetwork objectID readUntil id = Good recs ->
    forall r, r ∈ recs -> F (MetaID r) = Some r;
}.

Section Safe.
Context `{Node} (F : Local -> option Composite) (c : FilamentCalculator) (Hhonest : honest F c).

Lemma iterator_Prev_safe i i' r :
  truthful F (cache i) -> iterator_Prev c i = Ret (i', r) -> truthful F (cache i').
Proof.
  intros Hc. unfold iterator_Prev. destruct (currentID i) as [id|]; [|by intros [= <- <-]].
  destruct (cache i !! id) as [rec|].
  { destruct (filament_of (Meta rec)); by intros [= <- <-]. }
  destruct (Record_ForID (records c) id) as [m|] eqn:E1; [|by intros [= <- <-]].
  destruct (filament_of m) as [f|] eqn:E2; [|by intros [= <- <-]].
  destruct (Record_ForID (records c) (Filament_RecordID f)) as [m'|] eqn:E3;
    [|by intros [= <- <-]].
  pose proof (hn_local _ _ Hhonest id m f m' E1 E2 E3) as HF. intros [= <- <-].
  intros x r. cbn [cache]. destruct (decide (id = x)) as [<-|Hne].
  - rewrite lookup_insert_eq. by intros [= <-].
  - rewrite lookup_insert_ne by done. apply Hc.
Qed.

Lemma fetching_Prev_safe objectID readUntil i i' r :
  truthful F (cache i) -> fetching_Prev c objectID readUntil i = Ret (i', r) ->
  truthful F (cache i').
Proof.
  intros Hc. unfold fetching_Prev. destruct (readUntil =? 0); [by intros [= <- <-]|].
  destruct (iterator_Prev c i) as [[i1 r1]|] eqn:E1; [|done].
  apply iterator_Prev_safe in E1 as Hs; [|done].
  destruct r1 as [rec|e]; [by intros [= <- <-]|]. destruct (negb _); [by intros [= <- <-]|].
  destruct (currentID i1) as [id|]; [|done].
  destruct (fetchFromNetwork objectID readUntil id) as [recs|] eqn:Ef; [|by intros [= <- <-]].
  unfold wrapped. set (i2 := mkIterator _ _).
  assert (truthful F (cache i2)) as Hi2.
  { apply cache_Update_truthful; [done|]. by eapply hn_net. }
  destruct (iterator_Prev c i2) as [[i3 r3]|] eqn:E3; [|done].
  apply iterator_Prev_safe in E3; [|done]. by destruct r3; intros [= <- <-].
Qed.

Lemma fetching_safe {A B} objectID from readUntil errtext (body : A -> Composite -> A + B) vars cs :
  caches_truthful F cs ->
  wp False (fetching c objectID from readUntil errtext body vars) cs
     (fun cs' _ => caches_truthful F cs').
Proof.
  intros Hcs. unfold wp, fetching, with_iterator.
  pose proof (cacheStore_Get_truthful F cs objectID Hcs) as Hi.
  set (i := mkIterator (Some from) (cacheStore_Get cs objectID)).
  change (cacheStore_Get cs objectID) with (cache i) in Hi. clearbody i.
  generalize (fuel c). intros n.
  enough (forall i' r, for_prev n (fetching_HasPrev readUntil)
    (wrapped errtext (fetching_Prev c objectID readUntil)) body vars i = Ret (i', r) ->
    truthful F (cache i')) as Hn.
  { destruct (for_prev _ _ _ _ _ _) as [[i' r]|] eqn:E; [|tauto].
    apply with_cache_truthful; [done|]. by eapply Hn. }
  revert i vars Hi. induction n as [|n IH]; intros i vars Hi i' r; [done|]. cbn [for_prev].
  destruct (fetching_HasPrev readUntil i); [|by intros [= <- <-]].
  unfold mbind, io_bind, wrapped at 1.
  destruct (fetching_Prev c objectID readUntil i) as [[i1 [rec|e]]|] eqn:E; [| |done].
  - apply fetching_Prev_safe in E; [|done].
    destruct (body vars rec); [by apply IH|]. by intros [= <- <-].
  - apply fetching_Prev_safe in E; [|done]. by intros [= <- <-].
Qed.

Lemma RequestInfo_safe objectID requestID pulse cs :
  caches_truthful F cs ->
  wp False (RequestInfo c objectID requestID pulse) cs (fun cs' _ => caches_truthful F cs').
Proof.
  intros Hcs. unfold RequestInfo. apply wp_bind. unfold wp at 1, lift_result.
  destruct (wrap_err _ _) as [idx|]; [|done]. cbv zeta.
  destruct (LatestRequest _) as [latest|]; [|done].
  apply wp_bind. eapply wp_mono; [by apply fetching_safe|].
  intros cs' [[[info ?]|info]|e] Hcs'; cbv beta iota; [|done|done].
  by destruct (Info_Request info).
Qed.

Lemma ResultDuplicate_safe objectID resultID result cs :
  caches_truthful F cs ->
  wp False (ResultDuplicate c objectID resultID result) cs (fun cs' _ => caches_truthful F cs').
Proof.
  intros Hcs. unfold ResultDuplicate. destruct (Global_IsEmpty _); [done|].
  apply wp_bind. unfold wp at 1, lift_result. destruct (Index_ForID _ _ _) as [idx|]; [|done].
  destruct (LatestRequest _) as [latest|]; [|done].
  apply wp_bind. eapply wp_mono; [by apply fetching_safe|].
  by intros cs' [[[]|]|e] Hcs'.
Qed.

Lemma RequestDuplicate_safe objectID requestID request cs :
  caches_truthful F cs ->
  wp False (RequestDuplicate c objectID requestID request) cs (fun cs' _ => caches_truthful F cs').
Proof.
  intros Hcs. unfold RequestDuplicate. apply wp_bind. unfold wp at 1, lift_go.
  destruct (duplicateIndex _ _ _ _) as [found|]; [|tauto].
  apply wp_bind. unfold wp at 1, lift_result. destruct found as [[idx|]|]; [|done|done].
  destruct (LatestRequest _) as [latest|]; [|done].
  apply wp_bind. eapply wp_mono; [by apply fetching_safe|].
  by intros cs' [[?|[]]|e] Hcs'.
Qed.
End Safe.
