(* ===== verification/LightHandlers.v ===== *)
(** * Requests and results on a light node
    (src/ledger/light/executor/request_checker.go, detached_notifier.go,
    src/ledger/light/proc/set_request.go, set_result.go and the handlers that
    read the filament)

    The handlers run in [io Light] on the state of the node: the indexes, the
    records, the caches of the filament calculator, and the messages sent.  A
    handler holds the lock of its object from start to end and is one step.
    [flow.Pulse(ctx)], the writer of the pulse and the rest of the node are
    arguments or the classes [Node] and [Scheme]. *)
From S2P Require Import Prelude Pulse PulseStore Reference Jet Records Payload Filaments.
From S2P Require WriteController.

Definition ErrCancelled : error := Errorf "flow cancelled".
Abbreviation ErrWriteClosed := WriteController.ErrWriteClosed.

Record Light : Type := mkLight {
  l_indexes : IndexStorageMemory;
  l_records : RecordMemory;
  l_caches : cacheStore;
  l_replies : list Payload.t;
  l_sent : list (option Global * Payload.t);
}.

Class LightNode : Type := {
  light_node :: Node;
  light_scheme :: Scheme;
  calculator_Backwards : Z -> Z -> go (result Pulse);
  calculator_fuel : nat;
  writer_Begin : Z -> result unit;
}.

(** The calculator reads the storages of the node. *)
Definition calculator `{LightNode} (st : Light) : FilamentCalculator :=
  mkCalculator (l_indexes st) (l_records st) calculator_Backwards calculator_fuel.

Section Handlers.
Context `{LightNode}.

(** A call of the calculator from a handler. *)
Definition filaments {A} (op : FilamentCalculator -> io cacheStore A) : io Light A := fun st =>
  match op (calculator st) (l_caches st) with
  | Ret (cs, r) => Ret (mkLight (l_indexes st) (l_records st) cs (l_replies st) (l_sent st), r)
  | Panic msg => Panic msg
  end.

Definition Reply (msg : Payload.t) : io Light unit :=
  modify (fun st => mkLight (l_indexes st) (l_records st) (l_caches st)
                      (l_replies st ++ [msg]) (l_sent st)).
(** Messages without a reply: to the virtual executor of an object, or to a node. *)
Definition SendRole (msg : Payload.t) : io Light unit :=
  modify (fun st => mkLight (l_indexes st) (l_records st) (l_caches st)
                      (l_replies st) (l_sent st ++ [(None, msg)])).
Definition Send (msg : Payload.t) (node : Global) : io Light unit :=
  modify (fun st => mkLight (l_indexes st) (l_records st) (l_caches st)
                      (l_replies st) (l_sent st ++ [(Some node, msg)])).

(** ** request_checker.go *)

(** [if err := ...; err != nil { return &payload.CodedError{...} }] *)
Definition ValidateRequest (requestID : Local) (request : Request) : option error :=
  match Request_Validate request with
  | Some (Errorf text) => Some (CodedError text CodeRequestInvalid)
  | Some e => Some e
  | None =>
      let reasonID := addressLocal (ReasonRef request) in
      if Local_Pulse reasonID >? Local_Pulse requestID
      then Some (CodedError "request is older than its reason" CodeRequestInvalid)
      else None
  end.

Definition check {S} (e : option error) : io S unit :=
  match e with Some e => throw e | None => mret tt end.

Fixpoint findRequest (requests : list CompositeFilamentRecord) (requestID : Local) :
  result CompositeFilamentRecord :=
  match requests with
  | [] => Fail (CodedError "request not found" CodeReasonIsWrong)
  | p :: rest => if bool_decide (RecordID p = requestID) then Good p else findRequest rest requestID
  end.

Fixpoint findIncomingAPIRequest (reqs : list CompositeFilamentRecord) (apiRequest : string) :
  option CompositeFilamentRecord :=
  match reqs with
  | [] => None
  | req :: rest =>
      match as_request req with
      | Some (IncomingRequest r) =>
          if bool_decide (APIRequestID r = apiRequest) then Some req
          else findIncomingAPIRequest rest apiRequest
      | _ => findIncomingAPIRequest rest apiRequest
      end
  end.

Definition checkReasonForOutgoingRequest (reasonID outgoingRequestID objectID : Local) :
  io Light unit :=
  openedRequests ← wrapped "failed fetch pending requests"
    (filaments (fun c => OpenedRequests c (Local_Pulse outgoingRequestID) objectID true));
  reason ← wrapped "failed to check reason" (lift_result (findRequest openedRequests reasonID));
  match as_request reason with
  | Some (IncomingRequest incomingReason) =>
      if Immutable incomingReason then mret tt
      else
        oldestRequest ← lift_go (OldestMutable openedRequests);
        match oldestRequest with
        | None => throw (CodedError "reason is not the oldest mutable" CodeReasonIsWrong)
        | Some oldest =>
            if negb (bool_decide (RecordID oldest = reasonID))
            then throw (CodedError "request reason is not the oldest in filament" CodeReasonIsWrong)
            else mret tt
        end
  | _ => throw (Errorf "reason is not incoming")
  end.

(** From another node. *)
Definition getRequest (reasonObjectID reasonID : Local) (currentPulse : Z) : result Payload.Info :=
  jetID ← wrap_err (Fetch reasonObjectID currentPulse) "failed to fetch jet";
  node ← wrap_err (LightExecutorForJet jetID currentPulse) "failed to calculate node";
  match SendTarget (Payload.GetRequestInfo reasonObjectID reasonID currentPulse) node with
  | None => Fail (Errorf "no reply for request reason check")
  | Some (Fail e) => Fail (Wrap e "failed to unmarshal reply")
  | Some (Good (Payload.RequestInfo concrete)) => Good concrete
  | Some (Good (Payload.Error text code)) => Fail (CodedError text code)
  | Some (Good _) => Fail (Errorf "unexpected reply")
  end.

(** [Record.Marshal()] of a record that may be absent. *)
Definition marshal_opt (errtext : string) (rec : option CompositeFilamentRecord) : io Light (list Z) :=
  match rec with
  | None => mret []
  | Some rec => wrapped errtext (lift_result (Material_Marshal (Rec rec)))
  end.

(** The request of [FilamentsRequestInfo] is set when there is no error. *)
Definition getRequestLocal (reasonObjectID reasonID : Local) (currentPulse : Z) :
  io Light Payload.Info :=
  found ← wrapped "failed to get local request info"
    (filaments (fun c => RequestInfo c reasonObjectID reasonID currentPulse));
  match Info_Request found with
  | None => lift_go (Panic "nil pointer dereference")
  | Some _ =>
      reqBuf ← marshal_opt "failed to marshal local request record" (Info_Request found);
      resBuf ← marshal_opt "failed to marshal local result record" (Info_Result found);
      mret (Payload.mkInfo emptyLocal emptyLocal reqBuf resBuf (Info_OldestMutable found))
  end.

Definition checkReasonForIncomingRequest (incomingRequest : RequestBody)
    (reasonID requestID objectID : Local) : io Light unit :=
  let reasonObjectID := addressLocal (Caller incomingRequest) in
  reasonInfo ← wrapped "reason request search failed"
    (if Local_Equal objectID reasonObjectID
     then getRequestLocal reasonObjectID reasonID (Local_Pulse requestID)
     else lift_result (getRequest reasonObjectID reasonID (Local_Pulse requestID)));
  material ← wrapped "can't unmarshal reason request"
    (lift_result (Material_Unmarshal (Payload.Request reasonInfo)));
  match Unwrap (Material_Virtual material) with
  | Some (RequestRecord (IncomingRequest inc)) =>
      let isClosed := negb (bool_decide (Payload.Result reasonInfo = [])) in
      if negb (Immutable inc) && negb (Payload.OldestMutable reasonInfo)
      then throw (CodedError "request reason is not the oldest in filament" CodeReasonIsWrong)
      else if negb (IsDetachedCall incomingRequest) && isClosed
      then throw (CodedError "reason request is closed for a regular (not detached) call"
                    CodeReasonIsWrong)
      else if IsDetachedCall incomingRequest && negb isClosed
      then throw (CodedError "reason request is not closed for a detached call" CodeReasonIsWrong)
      else mret tt
  | _ => throw (CodedError "reason request must be Incoming" CodeReasonIsWrong)
  end.

Definition CheckRequest (requestID : Local) (request : Request) : io Light unit :=
  check (ValidateRequest requestID request) ≫= fun _ =>
  let reasonID := addressLocal (ReasonRef request) in
  found ← lift_go (ObjectIDFromRequest request requestID);
  objectID ← wrapped "failed to calculate object id" (lift_result found);
  match request with
  | IncomingRequest r =>
      (if negb (IsCreationRequest request) then
         openedRequests ← wrapped "loop detection failed"
           (filaments (fun c => OpenedRequests c (Local_Pulse requestID) objectID false));
         match findIncomingAPIRequest openedRequests (APIRequestID r) with
         | Some _ => throw (CodedError "request loop detected" CodeLoopDetected)
         | None => mret tt
         end
       else mret tt) ≫= fun _ =>
      if negb (IsAPIRequest request)
      then wrapped "incoming request check failed"
             (checkReasonForIncomingRequest r reasonID requestID objectID)
      else mret tt
  | OutgoingRequest _ =>
      wrapped "outgoing request check failed"
        (checkReasonForOutgoingRequest reasonID requestID objectID)
  end.

(** ** set_request.go *)

(** The filament record that puts [recordID] on top of the chain. *)
Definition newFilament (pn : Z) (recordID : Local) (latest : option Local) (objectID jetID : Local) :
  go Material :=
  let virtual := record_Wrap (PendingFilament (mkFilament recordID latest)) in
  hash ← HashVirtual virtual;
  id ← NewID pn hash;
  Ret (mkMaterial virtual id objectID jetID []).

Definition saveRecords (recs : list Material) : io Light unit := fun st =>
  let '(m, err) := SetAtomic (l_records st) recs in
  let st' := mkLight (l_indexes st) m (l_caches st) (l_replies st) (l_sent st) in
  match err with
  | None => Ret (st', Good tt)
  | Some e => Ret (st', Fail (Wrap e "failed to save records"))
  end.

Definition saveIndex (pn : Z) (index : Index) : io Light unit := fun st =>
  match Index_Set (l_indexes st) pn index with
  | Ret i => Ret (mkLight i (l_records st) (l_caches st) (l_replies st) (l_sent st), Good tt)
  | Panic msg => Panic msg
  end.

(** [done, err := writer.Begin(...)] *)
Definition beginWrite (pulse : Z) : io Light unit :=
  match writer_Begin pulse with
  | Good _ => mret tt
  | Fail e => if bool_decide (e = ErrWriteClosed) then throw ErrCancelled else throw e
  end.

(** The index of the object as the handler finds it. *)
Definition requestIndex (pulse : Z) (request : Request) (requestID objectID : Local) : io Light Index :=
  if IsCreationRequest request
  then mret (mkIndex objectID emptyLifeline (Local_Pulse requestID) [])
  else
    found ← gets (fun st => Index_ForID (l_indexes st) pulse objectID);
    index ← lift_result (wrap_err found "failed to check an object state");
    let lifeline := Index_Lifeline index in
    if StateID lifeline =? StateUndefined
    then throw (CodedError "object is not activated" CodeNonActivated)
    else if StateID lifeline =? StateDeactivation
    then throw (CodedError "object is deactivated" CodeDeactivated)
    else if match LatestRequest lifeline with
            | Some latest => Local_Pulse requestID <? Local_Pulse latest
            | None => false
            end
    then throw (Errorf "request from the past")
    else mret index.

Definition requestLifeline (lf : Lifeline) (filamentID requestID : Local) : Lifeline :=
  mkLifeline (LatestState lf) (StateID lf) (Parent lf) (Some filamentID)
    (match EarliestOpenRequest lf with Some e => Some e | None => Some (Local_Pulse requestID) end)
    (u32 (OpenRequestsCount lf + 1)).

Definition SetRequest_Proceed (pulse : Z) (sender : Global) (request : Request)
    (requestID jetID : Local) : io Light unit :=
  guard_io (Local_IsEmpty requestID) (Errorf "request id is empty") ≫= fun _ =>
  guard_io (negb (IsValid jetID)) (Errorf "jet is not valid") ≫= fun _ =>
  objectID ← (if IsCreationRequest request then mret requestID
              else match AffinityRef request with
                   | Some ref => mret (addressLocal ref)
                   | None => lift_go (Panic "nil pointer dereference")
                   end);
  wrapped "failed to marshal request" (lift_result (Request_Marshal request)) ≫= fun _ =>
  virtualExecutor ← lift_result (VirtualExecutorForObject objectID pulse);
  guard_io (match request with
            | IncomingRequest _ =>
                negb (IsTemporaryUploadCode request) && negb (bool_decide (sender = virtualExecutor))
            | OutgoingRequest _ => false
            end) (Errorf "sender isn't the executor") ≫= fun _ =>
  index ← requestIndex pulse request requestID objectID;
  wrapped "request check failed" (check (ValidateRequest requestID request)) ≫= fun _ =>
  found ← wrapped "failed to check request duplicates"
    (filaments (fun c => RequestDuplicate c objectID requestID request));
  let '(req, res) := found in
  if bool_decide (is_Some req) || bool_decide (is_Some res) then
    let replyID := match req with Some r => RecordID r | None => requestID end in
    let replyObject := match req with
                       | Some r => if IsCreationRequest request then RecordID r else objectID
                       | None => objectID
                       end in
    reqBuf ← marshal_opt "failed to marshal stored record" req;
    resBuf ← marshal_opt "failed to marshal stored record" res;
    Reply (Payload.RequestInfo (Payload.mkInfo replyObject replyID reqBuf resBuf false))
  else
    wrapped "request check failed" (CheckRequest requestID request) ≫= fun _ =>
    beginWrite pulse ≫= fun _ =>
    let Request := mkMaterial (record_Wrap (RequestRecord request)) requestID objectID jetID [] in
    Filament ← lift_go (newFilament (Local_Pulse requestID) requestID
                          (LatestRequest (Index_Lifeline index)) objectID jetID);
    saveRecords [Request; Filament] ≫= fun _ =>
    saveIndex (Local_Pulse requestID)
      (mkIndex (ObjID index)
         (requestLifeline (Index_Lifeline index) (Material_ID Filament) requestID)
         (Local_Pulse requestID) (PendingRecords index)) ≫= fun _ =>
    Reply (Payload.RequestInfo (Payload.mkInfo objectID requestID [] [] false)).

(** ** set_result.go *)
Definition checkRequestCanChangeState (request : CompositeFilamentRecord) : option error :=
  match as_request request with
  | Some (OutgoingRequest _) =>
      Some (CodedError "outgoing request can't change object state, id: " CodeRequestInvalid)
  | Some (IncomingRequest req) =>
      if Immutable req
      then Some (CodedError "immutable incoming request can't change object state, id: "
                   CodeRequestInvalid)
      else None
  | None => None
  end.

Definition calcPending (opened : list CompositeFilamentRecord) (closedRequestID : Local) :
  result (option Z) :=
  match opened with
  | [] => Fail (Errorf "no requests in pending before result")
  | currentEarliest :: rest =>
      if negb (bool_decide (RecordID currentEarliest = closedRequestID)) then
        match rest with
        | [] => Fail (Errorf "result doesn't match with any pending requests")
        | _ => Good (Some (Local_Pulse (RecordID currentEarliest)))
        end
      else match rest with
           | [] => Good None
           | newEarliest :: _ => Good (Some (Local_Pulse (RecordID newEarliest)))
           end
  end.

Fixpoint findClosed (reqs : list CompositeFilamentRecord) (result : ResultBody) :
  Prelude.result CompositeFilamentRecord :=
  match reqs with
  | [] => Fail (CodedError "request not found" CodeRequestNotFound)
  | req :: rest =>
      if bool_decide (RecordID req = addressLocal (Result_Request result)) then
        match as_request req with
        | Some _ => Good req
        | None => Fail (Errorf "unexpected closed record")
        end
      else findClosed rest result
  end.

Fixpoint checkOutgoings (openedRequests : list CompositeFilamentRecord) (closedRequestID : Local) :
  option error :=
  match openedRequests with
  | [] => None
  | req :: rest =>
      match as_request req with
      | Some (OutgoingRequest out) =>
          if negb (IsDetached out) && Local_Equal (addressLocal (Reason out)) closedRequestID
          then Some (CodedError "request is reason for non closed outgoing request"
                       CodeRequestNonClosedOutgoing)
          else checkOutgoings rest closedRequestID
      | _ => checkOutgoings rest closedRequestID
      end
  end.

(** detached_notifier.go; what cannot be marshalled is logged and skipped. *)
Fixpoint Notify (openedRequests : list CompositeFilamentRecord) (objectID closedRequestID : Local) :
  io Light unit :=
  match openedRequests with
  | [] => mret tt
  | req :: rest =>
      match as_request req with
      | Some (OutgoingRequest outgoing) =>
          if IsDetached outgoing && bool_decide (addressLocal (Reason outgoing) = closedRequestID)
          then match Virtual_Marshal (Material_Virtual (Rec req)) with
               | Fail _ => Notify rest objectID closedRequestID
               | Good buf =>
                   SendRole (Payload.SagaCallAcceptNotification objectID (RecordID req) buf) ≫= fun _ =>
                   Notify rest objectID closedRequestID
               end
          else Notify rest objectID closedRequestID
      | _ => Notify rest objectID closedRequestID
      end
  end.

Definition resultLifeline (lf : Lifeline) (filamentID : Local) (earliestPending : option Z) : Lifeline :=
  mkLifeline (LatestState lf) (StateID lf) (Parent lf) (Some filamentID) earliestPending
    (u32 (OpenRequestsCount lf - 1)).

(** The record of the side effect and the lifeline it leaves. *)
Definition sideEffectRecord (pn : Z) (objectID jetID : Local) (lf : Lifeline) (effect : State) :
  go (Material * Lifeline) :=
  let virtual := record_Wrap (StateRecord effect) in
  hash ← HashVirtual virtual;
  id ← NewID pn hash;
  let parent := match effect with Activate a => Activate_Parent a | _ => Parent lf end in
  Ret (mkMaterial virtual id objectID jetID [],
       mkLifeline (Some id) (State_ID effect) parent (LatestRequest lf) (EarliestOpenRequest lf)
         (OpenRequestsCount lf)).

Definition saveResult (pulse : Z) (jetID resultID : Local) (result : ResultBody)
    (sideEffect : option State) (index : Index) (earliestPending : option Z) : io Light unit :=
  let objectID := Result_Object result in
  beginWrite pulse ≫= fun _ =>
  let Result := mkMaterial (record_Wrap (Result result)) resultID objectID jetID [] in
  Filament ← lift_go (newFilament (Local_Pulse resultID) resultID
                        (LatestRequest (Index_Lifeline index)) objectID jetID);
  effect ← (match sideEffect with
            | None => mret ([], Index_Lifeline index)
            | Some e =>
                r ← lift_go (sideEffectRecord (Local_Pulse resultID) objectID jetID
                               (Index_Lifeline index) e);
                mret ([r.1], r.2)
            end);
  saveRecords ([Result; Filament] ++ effect.1) ≫= fun _ =>
  saveIndex (Local_Pulse resultID)
    (mkIndex (ObjID index) (resultLifeline effect.2 (Material_ID Filament) earliestPending)
       pulse (PendingRecords index)).

Definition SetResult_Proceed (pulse : Z) (jetID : Local) (result : ResultBody)
    (sideEffect : option State) : io Light unit :=
  resultID ← lift_go (hash ← HashVirtual (record_Wrap (Result result)); NewID pulse hash);
  let objectID := Result_Object result in
  found ← gets (fun st => Index_ForID (l_indexes st) (Local_Pulse resultID) objectID);
  index ← lift_result (wrap_err found "failed to fetch index");
  guard_io (bool_decide (is_Some sideEffect) && (StateID (Index_Lifeline index) =? StateDeactivation))
    (CodedError "object is deactivated" CodeDeactivated) ≫= fun _ =>
  guard_io (match LatestRequest (Index_Lifeline index) with
            | Some latest => Local_Pulse resultID <? Local_Pulse latest
            | None => false
            end) (Errorf "result from the past") ≫= fun _ =>
  res ← wrapped "failed to check result duplicates"
    (filaments (fun c => ResultDuplicate c objectID resultID result));
  match res with
  | Some res =>
      resBuf ← marshal_opt "failed to marshal result" (Some res);
      if same_hash (RecordID res) resultID
      then Reply (Payload.ResultInfo objectID (RecordID res))
      else Reply (Payload.ErrorResultExists objectID (RecordID res) resBuf)
  | None =>
      opened ← wrapped "failed to calculate pending requests"
        (filaments (fun c => OpenedRequests c pulse objectID false));
      closedRequest ← wrapped "failed to find request being closed"
        (lift_result (findClosed opened result));
      match sideEffect with
      | None => mret tt
      | Some _ => wrapped "request is not allowed to change object state"
                    (check (checkRequestCanChangeState closedRequest))
      end ≫= fun _ =>
      let incoming := match as_request closedRequest with
                      | Some (IncomingRequest r) => Some r
                      | _ => None
                      end in
      match incoming with
      | Some r =>
          if negb (Immutable r) then
            oldestMutable ← lift_go (OldestMutable opened);
            match oldestMutable with
            | Some oldest =>
                guard_io (negb (Local_Equal (RecordID oldest) (addressLocal (Result_Request result))))
                  (CodedError "attempt to close the non-oldest mutable request"
                     CodeRequestNonOldestMutable)
            | None => mret tt
            end
          else mret tt
      | None => mret tt
      end ≫= fun _ =>
      wrapped "open outgoings found"
        (check (checkOutgoings opened (RecordID closedRequest))) ≫= fun _ =>
      earliestPending ← wrapped "failed to calculate earliest pending"
        (lift_result (calcPending opened (RecordID closedRequest)));
      saveResult pulse jetID resultID result sideEffect index earliestPending ≫= fun _ =>
      match incoming with
      | Some _ => Notify opened objectID (RecordID closedRequest)
      | None => mret tt
      end ≫= fun _ =>
      Reply (Payload.ResultInfo objectID resultID)
  end.
End Handlers.
