(* ===== verification/LightLedger.v ===== *)
(** * The ledger of a light node in a pulse

    What the handlers of LightHandlers.v keep true.  The invariant
    [ledger_inv] ties the storages of the node to the ledger as a whole: the
    ghost map [F] gives every filament record ever made, [chains] the filament
    of every object.  Storages, caches and other nodes only hold what [F]
    says, the lifeline of every object describes its chain, and chains are
    well formed: requests are new, results close an open request, once.
    [SetRequest] and [SetResult] preserve it on every branch, and extend a
    chain by the record they save; so it holds after any run of handlers. *)
From stdpp Require Import sorting.
From S2P Require Import Prelude Pulse PulseStore Reference Jet Records Payload Filaments FilamentChain LightHandlers.

(** ** Chains grow *)

Lemma filament_in F from l rec : filament F from l -> rec ∈ l -> F (MetaID rec) = Some rec.
Proof.
  induction 1 as [|x f l HF Hf Hid Hl IH]; intros Hin; [by apply not_elem_of_nil in Hin|].
  apply elem_of_cons in Hin as [->|Hin]; auto.
Qed.

Lemma filament_weaken (F F' : Local -> option Composite) from l :
  (forall id rec, F id = Some rec -> F' id = Some rec) -> filament F from l -> filament F' from l.
Proof. intros HF. induction 1; econstructor; eauto. Qed.

Lemma lifeline_weaken (F F' : Local -> option Composite) lf l :
  (forall id rec, F id = Some rec -> F' id = Some rec) -> lifeline_ok F lf l -> lifeline_ok F' lf l.
Proof. intros HF []. split; eauto using filament_weaken. Qed.

(** A new record on top of a chain. *)
Record on_top (F : Local -> option Composite) (lf : Lifeline) (l : list Composite) (rec : Composite) : Prop := {
  ot_ghost : F (MetaID rec) = Some rec;
  ot_filament : filament_of (Meta rec) = Some (mkFilament (RecordID rec) (LatestRequest lf));
  ot_new : RecordID rec ∉ RecordID <$> l;
  ot_pulse : meta_pulse rec = Local_Pulse (RecordID rec);
  ot_time : 0 < meta_pulse rec;
  ot_later : forall x, x ∈ l -> meta_pulse x <= meta_pulse rec;
}.

Lemma u32_add_l n m : u32 (u32 n + m) = u32 (n + m).
Proof. unfold u32. by rewrite Zplus_mod_idemp_l. Qed.
Lemma u32_sub_l n m : u32 (u32 n - m) = u32 (n - m).
Proof. unfold u32. by rewrite Zminus_mod_idemp_l. Qed.

Lemma on_top_sorted F lf l rec :
  on_top F lf l rec -> StronglySorted (fun a b => meta_pulse b <= meta_pulse a) l ->
  StronglySorted (fun a b => meta_pulse b <= meta_pulse a) (rec :: l).
Proof. intros Ht Hs. constructor; [done|]. apply list.Forall_forall. apply Ht. Qed.

Lemma in_order_request rec q l :
  as_request rec = Some q -> RecordID rec ∉ closed l -> in_order l -> in_order (rec :: l).
Proof.
  intros Hq Hn Hl newer x older y E Hm Hx Hy Hmy. cbn [closed] in *.
  rewrite (as_request_result _ _ Hq) in *. destruct newer as [|z newer]; injection E as -> ->; [done|].
  by apply (Hl newer x older y).
Qed.

Lemma in_order_result rec r l req :
  wf_filament l -> as_result rec = Some r -> req ∈ open_requests l -> RecordID req = result_of r ->
  (isMutableRequest req = true -> OldestMutable (reverse (open_requests l)) = Ret (Some req)) ->
  in_order l -> in_order (rec :: l).
Proof.
  intros Hwf Hr Hreq Hid Hold Hl newer x older y E Hm Hx Hy Hmy. cbn [closed] in *. rewrite Hr in *.
  destruct newer as [|z newer]; injection E as -> E.
  { apply isMutable_request, (as_result_not_request _ _ Hr) in Hm. done. }
  rewrite elem_of_union, elem_of_singleton in Hx |- *. destruct Hx as [Hx|Hx].
  - assert (x = req) as ->.
    { apply (RecordID_inj l); [done| |by apply open_elem in Hreq as [? _]|congruence].
      rewrite E. apply elem_of_app. right. by left. }
    right. destruct (decide (RecordID y ∈ closed l)) as [|Hc]; [done|exfalso].
    rewrite E in *. apply (oldest_open_mutable newer req older) in Hold; [|done..].
    eapply list.Forall_forall in Hold; [|exact Hy]. by apply Hold.
  - right. by apply (Hl newer x older y).
Qed.

Lemma lifeline_request F lf l rec q :
  lifeline_ok F lf l -> on_top F lf l rec -> as_request rec = Some q ->
  (forall r, q = OutgoingRequest r -> addressLocal (Reason r) ∉ closed l) ->
  lifeline_ok F (requestLifeline lf (MetaID rec) (RecordID rec)) (rec :: l).
Proof.
  intros Hok Ht Hq Ho. assert (wf_filament (rec :: l)) as Hwf.
  { eapply wf_request; [done|apply Ht|done|apply Hok]. }
  pose proof (open_requests_request _ _ _ Hwf Hq) as Hop.
  destruct Ht as [Hg Hf Hn Hp Ht Hl]. destruct Hok as [Hc _ Hs Hps He Hcnt Hord]. split.
  - econstructor; [done|exact Hf|done|done].
  - done.
  - constructor; [done|]. by apply list.Forall_forall.
  - by constructor.
  - cbn [EarliestOpenRequest requestLifeline]. unfold earliest_open in *. rewrite Hop, He.
    destruct (last (open_requests l)) as [x|] eqn:E.
    + cbn. destruct (open_requests l); [done|]. rewrite last_cons_cons, E. done.
    + apply last_None in E. rewrite E. cbn. done.
  - cbn [OpenRequestsCount requestLifeline]. rewrite Hop, Hcnt, u32_add_l. f_equal. cbn [length]. lia.
  - apply (in_order_request rec q); try done. apply new_not_closed; [by eapply wf_tail|done].
Qed.

(** [calcPending] finds the earliest request that stays open. *)
Lemma calcPending_head opened id e :
  NoDup (RecordID <$> opened) -> id ∈ RecordID <$> opened -> calcPending opened id = Good e ->
  e = (fun rec => Local_Pulse (RecordID rec)) <$> head (filter (fun x => RecordID x <> id) opened).
Proof.
  intros Hd Hin. destruct opened as [|x xs]; [done|]. cbn [calcPending].
  cbn in Hd, Hin. apply list.NoDup_cons in Hd as [Hx Hd].
  destruct (bool_decide_reflect (RecordID x = id)) as [<-|Hne]; cbn [negb].
  - rewrite filter_cons_False by tauto. rewrite filter_all.
    + destruct xs; by intros [= <-].
    + intros y Hy E. apply Hx. rewrite <- E. by apply list_elem_of_fmap_2.
  - rewrite filter_cons_True by done. cbn. destruct xs; [done|]. by intros [= <-].
Qed.

Lemma head_reverse {A} (l : list A) : head (reverse l) = last l.
Proof. by rewrite <- last_reverse, reverse_involutive. Qed.

Lemma filter_reverse {A} (P : A -> Prop) `{!forall x, Decision (P x)} (l : list A) :
  filter P (reverse l) = reverse (filter P l).
Proof.
  induction l as [|x l IH]; [done|]. rewrite reverse_cons, list.filter_app, IH, filter_cons.
  destruct (decide (P x)) as [HP|HP].
  - by rewrite filter_cons_True, reverse_cons.
  - by rewrite filter_cons_False, app_nil_r.
Qed.

Lemma lifeline_result F lf l rec r req e :
  lifeline_ok F lf l -> on_top F lf l rec -> as_result rec = Some r ->
  req ∈ open_requests l -> RecordID req = result_of r ->
  calcPending (reverse (open_requests l)) (RecordID req) = Good e ->
  (isMutableRequest req = true -> OldestMutable (reverse (open_requests l)) = Ret (Some req)) ->
  lifeline_ok F (resultLifeline lf (MetaID rec) e) (rec :: l).
Proof.
  intros Hok Ht Hr Hreq Hid Hcalc Hold. pose proof Hreq as Hreq'.
  apply open_elem in Hreq' as (Hin & Hisreq & Hopen).
  assert (wf_filament (rec :: l)) as Hwf.
  { eapply wf_result; [done|apply Ht|exact Hin|done|done|by rewrite <- Hid|apply Hok]. }
  pose proof (open_requests_result _ _ _ Hwf Hr) as Hop.
  pose proof (open_length_result _ _ _ Hwf Hr) as Hlen.
  pose proof (open_NoDup l (lo_wf _ _ _ Hok)) as Hd.
  destruct Ht as [Hg Hf Hn Hp Ht Hl]. destruct Hok as [Hc _ Hs Hps He Hcnt Hord]. split.
  - econstructor; [done|exact Hf|done|done].
  - done.
  - constructor; [done|]. by apply list.Forall_forall.
  - by constructor.
  - cbn [EarliestOpenRequest resultLifeline]. apply calcPending_head in Hcalc.
    + rewrite Hcalc. unfold earliest_open. rewrite Hop, filter_reverse, head_reverse, Hid. done.
    + rewrite fmap_reverse. by rewrite reverse_Permutation.
    + rewrite fmap_reverse, elem_of_reverse. by apply list_elem_of_fmap_2.
  - cbn [OpenRequestsCount resultLifeline]. rewrite Hcnt, u32_sub_l, Hlen. f_equal. lia.
  - eapply in_order_result; try done. by eapply wf_tail.
Qed.

(** ** The invariant *)

(** The kinds of records; identifiers of different kinds differ. *)
Definition kind (r : option AnyRecord) : Z :=
  match r with
  | None => 0
  | Some (RequestRecord _) => 1
  | Some (StateRecord _) => 2
  | Some (Result _) => 3
  | Some (Code _) => 4
  | Some (PendingFilament _) => 5
  end.

Definition recordID `{Scheme} (pn : Z) (v : Virtual) : go Local :=
  h ← HashVirtual v; NewID pn h.

Lemma NewID_pulse pn h id : 0 < pn <= MaxTimePulse -> NewID pn h = Ret id -> Local_Pulse id = pn.
Proof. apply NewLocal_pulse. Qed.

Lemma recordID_pulse `{Scheme} pn v id :
  0 < pn <= MaxTimePulse -> recordID pn v = Ret id -> Local_Pulse id = pn.
Proof.
  intros Hp (h & _ & E)%go_bind_ret. by eapply NewID_pulse.
Qed.

Section Ledger.
Context `{LightNode} (p : Z) (Hp : 0 < p <= MaxTimePulse).

(** No two records of different kinds have the same hash. *)
Context (Hkind : forall u v id, recordID p u = Ret id -> recordID p v = Ret id ->
                 kind (Union u) = kind (Union v)).

Abbreviation ghost := (gmap Local Composite).
Abbreviation filamentsOf := (gmap Local (list Composite)).
Definition ledger (F : ghost) : Local -> option Composite := fun id => F !! id.

(** The records of the storage agree with the ledger. *)
Record records_ok (F : ghost) (recs : gmap Local Material) : Prop := {
  rk_meta : forall id rec, F !! id = Some rec ->
    MetaID rec = id /\ Local_Pulse id = Local_Pulse (RecordID rec) /\
    exists f, filament_of (Meta rec) = Some f /\ Filament_RecordID f = RecordID rec;
  rk_here : forall id rec, F !! id = Some rec -> Local_Pulse id = p ->
    recs !! id = Some (Meta rec) /\ recs !! RecordID rec = Some (Rec rec);
  rk_true : forall id rec, F !! id = Some rec ->
    (forall m, recs !! id = Some m -> m = Meta rec) /\
    (forall m, recs !! RecordID rec = Some m -> m = Rec rec);
  rk_filament : forall id m f, recs !! id = Some m -> filament_of m = Some f ->
    exists rec, F !! id = Some rec /\ RecordID rec = Filament_RecordID f;
}.

(** Other nodes tell the truth and have what is not here. *)
Record network_ok (F : ghost) (chains : filamentsOf) (recs : gmap Local Material) : Prop := {
  nk_true : forall obj readUntil id rs, fetchFromNetwork obj readUntil id = Good rs ->
    forall r, r ∈ rs -> F !! MetaID r = Some r;
  nk_serve : forall obj l rec, chains !! obj = Some l -> rec ∈ l ->
    recs !! MetaID rec = None \/ recs !! RecordID rec = None ->
    forall readUntil, exists rs,
      fetchFromNetwork obj readUntil (MetaID rec) = Good rs /\ rec ∈ rs;
}.

(** An index in the pulse describes the chain of its object. *)
Definition index_ok (F : ghost) (chains : filamentsOf) (obj : Local) (idx : Index) : Prop :=
  ObjID idx = obj /\
  exists l, chains !! obj = Some l /\ lifeline_ok (ledger F) (Index_Lifeline idx) l /\
            forall rec, rec ∈ l -> meta_pulse rec <= p.

Record ledger_inv (F : ghost) (chains : filamentsOf) (st : Light) : Prop := {
  li_records : records_ok F (recsStor (l_records st));
  li_network : network_ok F chains (recsStor (l_records st));
  li_caches : caches_truthful (ledger F) (l_caches st);
  li_index : forall obj idx, bucket_of (l_indexes st) p !! obj = Some idx ->
    index_ok F chains obj idx;
  (** The record that created an object of this pulse is here. *)
  li_created : forall obj, is_Some (chains !! obj) -> Local_Pulse obj = p ->
    is_Some (recsStor (l_records st) !! obj);
}.

Lemma inv_available F chains st obj l :
  ledger_inv F chains st -> chains !! obj = Some l ->
  (forall rec, rec ∈ l -> F !! MetaID rec = Some rec) ->
  available (ledger F) (calculator st) obj l.
Proof.
  intros [[_ _ Ht _] [Hn Hs] _ _ _] Hl HF ru. apply list.Forall_forall. intros rec Hrec%since_in.
  destruct (Ht _ _ (HF rec Hrec)) as [Ht1 Ht2]. split.
  - intros m. unfold Record_ForID. cbn. destruct (recsStor _ !! MetaID rec) eqn:E; [|done].
    intros [= <-]. by apply Ht1.
  - intros m. unfold Record_ForID. cbn. destruct (recsStor _ !! RecordID rec) eqn:E; [|done].
    intros [= <-]. by apply Ht2.
  - intros Hmiss. destruct (Hs obj l rec Hl Hrec Hmiss ru) as (rs & E & Hin).
    exists rs. split; [done|]. split; [done|]. by eapply Hn.
Qed.

Lemma inv_honest F chains st : ledger_inv F chains st -> honest (ledger F) (calculator st).
Proof.
  intros [[Hm _ Ht Hf] [Hn _] _ _ _]. split; [|done].
  intros id m f m'. unfold Record_ForID. cbn.
  destruct (recsStor (l_records st) !! id) as [m0|] eqn:E1; [|done]. intros [= <-] Ef.
  destruct (recsStor (l_records st) !! Filament_RecordID f) as [m1|] eqn:E2; [|done]. intros [= <-].
  destruct (Hf id m0 f E1 Ef) as (rec & HF & Hid). destruct (Hm id rec HF) as (Hmeta & _).
  destruct (Ht id rec HF) as [Ht1 Ht2]. unfold ledger. rewrite HF. f_equal.
  rewrite <- Hid in E2 |- *. rewrite (Ht1 m0 E1), (Ht2 m1 E2), <- Hmeta. by destruct rec.
Qed.

Lemma inv_object F chains st obj idx :
  ledger_inv F chains st -> Index_ForID (l_indexes st) p obj = Good idx ->
  ObjID idx = obj /\ exists l, chains !! obj = Some l /\
    object_ok (ledger F) (calculator st) p obj (Index_Lifeline idx) l /\
    forall rec, rec ∈ l -> meta_pulse rec <= p.
Proof.
  intros Hinv E. rewrite Index_ForID_lookup in E.
  destruct (bucket_of (l_indexes st) p !! obj) as [idx'|] eqn:Eb; [|done]. injection E as ->.
  destruct (li_index _ _ _ Hinv obj idx Eb) as (Ho & l & Hl & Hok & Hpl).
  split; [done|]. exists l. split; [done|]. split; [|done]. split; [|done|].
  - exists idx. cbn. by rewrite Index_ForID_lookup, Eb.
  - eapply inv_available; [done|done|]. intros rec Hrec.
    eapply (filament_in (ledger F)); [apply Hok|done].
Qed.

(** Read-only calls change no more than the caches. *)
Definition reads (F : ghost) (st st' : Light) : Prop :=
  l_indexes st' = l_indexes st /\ l_records st' = l_records st /\
  caches_truthful (ledger F) (l_caches st').

Lemma inv_reads F chains st st' : reads F st st' -> ledger_inv F chains st -> ledger_inv F chains st'.
Proof. intros (Ei & Er & Hc) []. split; rewrite ?Ei, ?Er; done. Qed.

Lemma reads_refl F chains st : ledger_inv F chains st -> reads F st st.
Proof. intros []. by split_and!. Qed.

Lemma reads_trans F st st1 st2 : reads F st st1 -> reads F st1 st2 -> reads F st st2.
Proof. intros (E1 & E2 & _) (E3 & E4 & ?). split_and!; congruence || done. Qed.

Lemma wp_filaments {A} F st (op : FilamentCalculator -> io cacheStore A) Q :
  wp False (op (calculator st)) (l_caches st) (fun cs r => caches_truthful (ledger F) cs /\ Q r) ->
  wp False (filaments op) st (fun st' r => reads F st st' /\ Q r).
Proof.
  unfold wp, filaments. destruct (op _ _) as [[cs r]|]; [|done]. intros [Hc HQ].
  split; [|done]. by split_and!.
Qed.

Lemma wp_filaments_safe {A} F st (op : FilamentCalculator -> io cacheStore A) :
  wp False (op (calculator st)) (l_caches st) (fun cs r => caches_truthful (ledger F) cs) ->
  wp False (filaments op) st (fun st' r => reads F st st').
Proof.
  intros Hw. eapply wp_mono; [apply (wp_filaments F st op (fun _ => True))|by intros ? ? []].
  by eapply wp_mono.
Qed.

(** ** Saving a record on top of a chain *)

(** The storage after a batch of new records. *)
Record saved (recs recs' : gmap Local Material) (batch : list Material) : Prop := {
  sd_new : forall m, m ∈ batch -> recs' !! Material_ID m = Some m;
  sd_old : forall id, id ∉ Material_ID <$> batch -> recs' !! id = recs !! id;
  sd_fresh : forall m, m ∈ batch -> recs !! Material_ID m = None;
}.

Lemma SetAtomic_saved m batch m' :
  NoDup (Material_ID <$> batch) -> SetAtomic m batch = (m', None) ->
  saved (recsStor m) (recsStor m') batch.
Proof.
  intros Hd. unfold SetAtomic. destruct (SetAtomic_check _ _) eqn:Hc; [done|]. intros [= <-].
  apply SetAtomic_check_None in Hc. split.
  - intros r Hr. by apply foldl_store_found.
  - intros id Hid. by apply foldl_store_other.
  - intros r Hr. eapply list.Forall_forall in Hc; [apply Hc|done].
Qed.

Lemma saved_mono recs recs' batch id m : saved recs recs' batch -> recs !! id = Some m -> recs' !! id = Some m.
Proof.
  intros [Hn Ho Hf] E. rewrite Ho; [done|]. intros (x & -> & Hx)%list_elem_of_fmap.
  by rewrite (Hf x Hx) in E.
Qed.

(** What the handlers save: a record, its filament record, a side effect. *)
Record batch_ok (rec : Composite) (latest : option Local) (eff : list Material) : Prop := {
  bt_rec : Material_ID (Rec rec) = RecordID rec;
  bt_meta : Material_ID (Meta rec) = MetaID rec;
  bt_pulse : Forall (fun m => Local_Pulse (Material_ID m) = p) (Rec rec :: Meta rec :: eff);
  bt_filament : filament_of (Meta rec) = Some (mkFilament (RecordID rec) latest);
  bt_others : Forall (fun m => filament_of m = None) (Rec rec :: eff);
}.

Lemma batch_pulses rec latest eff :
  batch_ok rec latest eff -> Local_Pulse (MetaID rec) = p /\ Local_Pulse (RecordID rec) = p.
Proof.
  intros [<- <- Hpu _ _]. apply list.Forall_cons in Hpu as [H1 Hpu].
  by apply list.Forall_cons in Hpu as [H2 _].
Qed.

(** A new record is not yet part of the ledger. *)
Lemma fresh_ghost F recs recs' batch m :
  records_ok F recs -> saved recs recs' batch -> m ∈ batch -> Local_Pulse (Material_ID m) = p ->
  F !! Material_ID m = None /\
  forall id rec, F !! id = Some rec -> RecordID rec <> Material_ID m.
Proof.
  intros [Hm Hh _ _] [_ _ Hf] Hin Hpm. split.
  - destruct (F !! Material_ID m) as [rec|] eqn:E; [|done].
    destruct (Hh _ _ E Hpm) as [Hs _]. by rewrite Hf in Hs.
  - intros id rec HF E. destruct (Hm _ _ HF) as (_ & Hpe & _).
    destruct (Hh _ _ HF) as [_ Hs]; [congruence|]. by rewrite E, Hf in Hs.
Qed.

Lemma records_save F recs recs' rec latest eff :
  records_ok F recs -> batch_ok rec latest eff -> saved recs recs' (Rec rec :: Meta rec :: eff) ->
  records_ok (<[MetaID rec := rec]> F) recs'.
Proof.
  intros Hok Hb Hs. set (batch := Rec rec :: Meta rec :: eff) in *.
  assert (Rec rec ∈ batch /\ Meta rec ∈ batch) as [HinR HinM] by (split; [by left|right; by left]).
  destruct (batch_pulses _ _ _ Hb) as [HpM HpR].
  pose proof (sd_new _ _ _ Hs _ HinM) as HsM. rewrite (bt_meta _ _ _ Hb) in HsM.
  pose proof (sd_new _ _ _ Hs _ HinR) as HsR. rewrite (bt_rec _ _ _ Hb) in HsR.
  split.
  - intros id r. destruct (decide (MetaID rec = id)) as [<-|Hne].
    + rewrite lookup_insert_eq. intros [= <-]. split; [done|]. split; [congruence|].
      eexists. split; [apply Hb|done].
    + rewrite lookup_insert_ne by done. apply (rk_meta _ _ Hok).
  - intros id r. destruct (decide (MetaID rec = id)) as [<-|Hne].
    + rewrite lookup_insert_eq. intros [= <-] _. done.
    + rewrite lookup_insert_ne by done. intros HF Hid.
      destruct (rk_here _ _ Hok id r HF Hid). split; by eapply saved_mono.
  - intros id r. destruct (decide (MetaID rec = id)) as [<-|Hne].
    + rewrite lookup_insert_eq. intros [= <-]. split; intros m E; congruence.
    + rewrite lookup_insert_ne by done. intros HF.
      destruct (rk_true _ _ Hok id r HF) as [H1 H2].
      assert (forall x, x = id \/ x = RecordID r -> recs' !! x = recs !! x) as Hsame.
      { intros x Hx. apply (sd_old _ _ _ Hs). intros (m & -> & Hm)%list_elem_of_fmap.
        assert (Local_Pulse (Material_ID m) = p) as Hpm.
        { pose proof (bt_pulse _ _ _ Hb) as Hpu. by eapply list.Forall_forall in Hpu. }
        destruct (fresh_ghost _ _ _ _ m Hok Hs Hm Hpm) as [HF0 HR0].
        destruct Hx as [<-|E]; [congruence|]. by apply (HR0 id r HF). }
      split; intros m E; [apply H1|apply H2]; rewrite <- Hsame; auto.
  - intros id m f Hm Hf.
    destruct (decide (id ∈ Material_ID <$> batch)) as [(x & -> & Hx)%list_elem_of_fmap|Hout].
    + rewrite (sd_new _ _ _ Hs x Hx) in Hm. injection Hm as ->.
      assert (m = Meta rec) as ->.
      { pose proof (bt_others _ _ _ Hb) as Ho. apply elem_of_cons in Hx as [->|Hx].
        - apply list.Forall_cons in Ho as [Ho _]. congruence.
        - apply elem_of_cons in Hx as [->|Hx]; [done|].
          apply list.Forall_cons in Ho as [_ Ho].
          eapply list.Forall_forall in Ho; [|exact Hx]. congruence. }
      exists rec. rewrite (bt_meta _ _ _ Hb), lookup_insert_eq. split; [done|].
      rewrite (bt_filament _ _ _ Hb) in Hf. by injection Hf as <-.
    + rewrite (sd_old _ _ _ Hs) in Hm by done.
      destruct (rk_filament _ _ Hok id m f Hm Hf) as (r & HF & Hr). exists r. split; [|done].
      rewrite lookup_insert_ne; [done|]. intros <-.
      destruct Hout. rewrite <- (bt_meta _ _ _ Hb). by apply list_elem_of_fmap_2.
Qed.

Lemma ghost_grows (F : ghost) rec id r :
  F !! MetaID rec = None -> F !! id = Some r -> <[MetaID rec := rec]> F !! id = Some r.
Proof. intros Hn E. rewrite lookup_insert_ne; [done|]. intros <-. congruence. Qed.

Lemma save_fresh F chains st rec latest eff m' :
  ledger_inv F chains st -> batch_ok rec latest eff -> NoDup (Material_ID <$> Rec rec :: Meta rec :: eff) ->
  SetAtomic (l_records st) (Rec rec :: Meta rec :: eff) = (m', None) -> F !! MetaID rec = None.
Proof.
  intros [Hr _ _ _ _] Hb Hd Hat. rewrite <- (bt_meta _ _ _ Hb).
  eapply fresh_ghost; [done|by apply SetAtomic_saved|right; by left|].
  rewrite (bt_meta _ _ _ Hb). by eapply batch_pulses.
Qed.

(** The invariant after a record is saved with its index. *)
Lemma inv_save F chains st obj l rec latest eff m' i' idx replies sent :
  ledger_inv F chains st ->
  (chains !! obj = Some l \/ l = []) -> (forall x, x ∈ l -> meta_pulse x <= p) ->
  batch_ok rec latest eff -> NoDup (Material_ID <$> Rec rec :: Meta rec :: eff) ->
  SetAtomic (l_records st) (Rec rec :: Meta rec :: eff) = (m', None) ->
  ObjID idx = obj -> (Local_Pulse obj = p -> is_Some (recsStor m' !! obj)) ->
  lifeline_ok (ledger (<[MetaID rec := rec]> F)) (Index_Lifeline idx) (rec :: l) ->
  Index_Set (l_indexes st) p idx = Ret i' ->
  ledger_inv (<[MetaID rec := rec]> F) (<[obj := rec :: l]> chains)
    (mkLight i' m' (l_caches st) replies sent).
Proof.
  intros Hinv Hl Hlp Hb Hd Hatomic Hobj Hcreated Hlf Hset. pose proof Hinv as [Hr [Hn Hs] Hc Hi Hcr].
  pose proof (SetAtomic_saved _ _ _ Hd Hatomic) as Hsaved.
  assert (F !! MetaID rec = None) as Hnone by (by eapply save_fresh).
  assert (forall id, recsStor m' !! id = None -> recsStor (l_records st) !! id = None) as Hback.
  { intros id E. destruct (recsStor (l_records st) !! id) as [m|] eqn:E'; [|done].
    apply (saved_mono _ _ _ _ _ Hsaved) in E'. congruence. }
  split; cbn [l_records l_caches l_indexes].
  - by eapply records_save.
  - split.
    + intros obj' ru id rs E r Hin. apply ghost_grows; [done|]. by eapply Hn.
    + intros obj' l' x. destruct (decide (obj = obj')) as [<-|Hne].
      * rewrite lookup_insert_eq. intros [= <-] [->|Hx]%elem_of_cons Hmiss ru.
        -- exfalso. pose proof (sd_new _ _ _ Hsaved (Rec rec)) as E1.
           pose proof (sd_new _ _ _ Hsaved (Meta rec)) as E2.
           rewrite (bt_rec _ _ _ Hb) in E1. rewrite (bt_meta _ _ _ Hb) in E2.
           rewrite E1, E2 in Hmiss; [by destruct Hmiss|right; by left|by left].
        -- destruct Hl as [Hl| ->]; [|by apply not_elem_of_nil in Hx].
           apply (Hs obj l); [done|done|]. destruct Hmiss; auto.
      * rewrite lookup_insert_ne by done. intros Hl' Hx Hmiss. apply (Hs obj' l'); [done|done|].
        destruct Hmiss; auto.
  - intros id ch E. intros x r Hx. apply ghost_grows; [done|]. by eapply (Hc id ch).
  - intros obj' idx'. rewrite (Index_Set_lookup _ _ _ _ _ _ Hset).
    destruct (decide _) as [[_ <-]|Hne].
    + intros [= <-]. rewrite Hobj. split; [done|]. exists (rec :: l).
      rewrite lookup_insert_eq. split; [done|]. split; [done|].
      intros x [->|Hx]%elem_of_cons; [|by apply Hlp]. unfold meta_pulse.
      destruct (batch_pulses _ _ _ Hb). lia.
    + intros E. destruct (Hi obj' idx' E) as (Ho & l' & Hl' & Hok & Hpl).
      split; [done|]. exists l'. rewrite lookup_insert_ne by (intros E'; apply Hne; split; congruence).
      split; [done|]. split; [|done]. eapply lifeline_weaken; [|exact Hok].
      intros id r. by apply ghost_grows.
  - intros obj'. destruct (decide (obj = obj')) as [<-|Hne]; [by intros _|].
    rewrite lookup_insert_ne by done. intros Hch Hpo. destruct (Hcr obj' Hch Hpo) as [m Em].
    exists m. by eapply saved_mono.
Qed.

(** ** Calls that only read *)
Definition rd {A} (F : ghost) (m : io Light A) (P : A -> Prop) (s : Light) : Prop :=
  wp False m s (fun s' r => reads F s s' /\ forall a, r = Good a -> P a).

Section Reading.
Context (F : ghost) (chains : filamentsOf).

Lemma rd_bind {A B} (m : io Light A) (f : A -> io Light B) P P' s :
  rd F m P s -> (forall s' a, reads F s s' -> P a -> rd F (f a) P' s') -> rd F (m ≫= f) P' s.
Proof.
  intros Hm Hf. apply wp_bind. eapply wp_mono; [exact Hm|]. intros s' [a|e] [Hr HP].
  - eapply wp_mono; [by apply (Hf s' a); [|apply HP]|]. intros s2 r [Hr2 HP2].
    split; [by eapply reads_trans|done].
  - by split.
Qed.

(** A reading call in front of the rest of a handler. *)
Lemma rd_step {A B} (m : io Light A) (f : A -> io Light B) P s0 s Q :
  reads F s0 s -> rd F m P s ->
  (forall s' e, reads F s0 s' -> Q s' (Fail e)) ->
  (forall s' a, reads F s0 s' -> P a -> wp False (f a) s' Q) ->
  wp False (m ≫= f) s Q.
Proof.
  intros Hs Hm He Hf. apply wp_bind. eapply wp_mono; [exact Hm|]. intros s' [a|e] [Hr HP].
  - apply Hf; [by eapply reads_trans|by apply HP].
  - apply He. by eapply reads_trans.
Qed.

Lemma rd_pure {A} (m : io Light A) (P : A -> Prop) s :
  ledger_inv F chains s ->
  match m s with Ret (s', r) => s' = s /\ forall a, r = Good a -> P a | Panic _ => True end ->
  rd F m P s.
Proof.
  intros Hi. unfold rd, wp. destruct (m s) as [[s' r]|]; [|tauto]. intros [-> HP].
  split; [by eapply reads_refl|done].
Qed.

Lemma rd_mono {A} (m : io Light A) (P P' : A -> Prop) s :
  rd F m P s -> (forall a, P a -> P' a) -> rd F m P' s.
Proof. intros Hm HP. eapply wp_mono; [exact Hm|]. intros s' r [? HPa]. split; [done|]. auto. Qed.

Lemma rd_wrapped {A} msg (m : io Light A) P s : rd F m P s -> rd F (wrapped msg m) P s.
Proof.
  intros Hm. apply wp_wrapped. eapply wp_mono; [exact Hm|]. intros s' [a|e] [Hr HP]; by split.
Qed.

Lemma rd_mret {A} (a : A) s : ledger_inv F chains s -> rd F (mret a) (fun b => b = a) s.
Proof. intros Hi. apply rd_pure; [done|]. split; [done|]. by intros ? [= <-]. Qed.
Lemma rd_throw {A} e P s : ledger_inv F chains s -> rd F (throw (A := A) e) P s.
Proof. intros Hi. apply rd_pure; [done|]. by split. Qed.
Lemma rd_lift_result {A} (r : result A) s :
  ledger_inv F chains s -> rd F (lift_result r) (fun a => r = Good a) s.
Proof. intros Hi. by apply rd_pure. Qed.
Lemma rd_lift_go {A} (m : go A) s :
  ledger_inv F chains s -> rd F (lift_go m) (fun a => m = Ret a) s.
Proof.
  intros Hi. apply rd_pure; [done|]. unfold lift_go. destruct m; [|done].
  split; [done|]. by intros ? [= <-].
Qed.
Lemma rd_guard b e s : ledger_inv F chains s -> rd F (guard_io b e) (fun _ => b = false) s.
Proof. intros Hi. destruct b; [by apply rd_throw|]. by apply rd_pure. Qed.
Lemma rd_check e s : ledger_inv F chains s -> rd F (check e) (fun _ => e = None) s.
Proof. intros Hi. destruct e; [by apply rd_throw|]. by apply rd_pure. Qed.
Lemma rd_marshal msg rec s : ledger_inv F chains s -> rd F (marshal_opt msg rec) (fun _ => True) s.
Proof.
  intros Hi. destruct rec; [|by apply rd_pure]. unfold marshal_opt. apply rd_wrapped.
  eapply rd_mono; [by apply rd_lift_result|done].
Qed.

(** The calculator on the ledger of the invariant. *)
Lemma rd_OpenedRequests pn obj po s :
  ledger_inv F chains s -> pn = p ->
  rd F (filaments (fun c => OpenedRequests c pn obj po)) (fun opened =>
    exists idx l, Index_ForID (l_indexes s) p obj = Good idx /\ chains !! obj = Some l /\
      lifeline_ok (ledger F) (Index_Lifeline idx) l /\
      opened = reverse (filter (shown po (closed l)) l)) s.
Proof.
  intros Hi ->. apply wp_filaments.
  destruct (Index_ForID (l_indexes s) p obj) as [idx|e] eqn:E.
  - destruct (inv_object _ _ _ _ _ Hi E) as (_ & l & Hl & Hob & _).
    eapply wp_mono.
    + eapply (OpenedRequests_wp (ledger F) _ False); [exact Hob|apply Hi|done].
    + intros cs r [Hc ->]. split; [done|]. intros a [= <-]. exists idx, l.
      split_and!; try done. apply Hob.
  - unfold wp, OpenedRequests. cbn. rewrite E. cbn. split; [apply Hi|done].
Qed.

Lemma rd_RequestDuplicate obj id request s :
  ledger_inv F chains s ->
  rd F (filaments (fun c => RequestDuplicate c obj id request)) (fun _ => True) s.
Proof.
  intros Hi. apply wp_filaments. eapply wp_mono.
  - apply RequestDuplicate_safe; [by eapply inv_honest|apply Hi].
  - by intros cs r Hc.
Qed.
Lemma rd_ResultDuplicate obj id result s :
  ledger_inv F chains s ->
  rd F (filaments (fun c => ResultDuplicate c obj id result)) (fun _ => True) s.
Proof.
  intros Hi. apply wp_filaments. eapply wp_mono.
  - apply ResultDuplicate_safe; [by eapply inv_honest|apply Hi].
  - by intros cs r Hc.
Qed.
Lemma rd_RequestInfo obj id pn s :
  ledger_inv F chains s -> rd F (filaments (fun c => RequestInfo c obj id pn)) (fun _ => True) s.
Proof.
  intros Hi. apply wp_filaments. eapply wp_mono.
  - apply RequestInfo_safe; [by eapply inv_honest|apply Hi].
  - by intros cs r Hc.
Qed.

Lemma rd_any {A} (m : io Light A) P s : rd F m P s -> rd F m (fun _ => True) s.
Proof. intros Hm. by eapply rd_mono. Qed.

Lemma rd_getRequestLocal obj id pn s :
  ledger_inv F chains s -> rd F (getRequestLocal obj id pn) (fun _ => True) s.
Proof.
  intros Hi. unfold getRequestLocal. eapply rd_bind.
  { apply rd_wrapped. by apply rd_RequestInfo. }
  intros s1 found Hr1 _. pose proof (inv_reads _ _ _ _ Hr1 Hi) as Hi1.
  destruct (Info_Request found); [|by eapply rd_any, rd_lift_go].
  eapply rd_bind; [by apply rd_marshal|]. intros s2 reqBuf Hr2 _.
  pose proof (inv_reads _ _ _ _ Hr2 Hi1) as Hi2.
  eapply rd_bind; [by apply rd_marshal|]. intros s3 resBuf Hr3 _.
  pose proof (inv_reads _ _ _ _ Hr3 Hi2) as Hi3. by eapply rd_any, rd_mret.
Qed.

Lemma rd_checkIncoming r reasonID requestID objectID s :
  ledger_inv F chains s ->
  rd F (checkReasonForIncomingRequest r reasonID requestID objectID) (fun _ => True) s.
Proof.
  intros Hi. unfold checkReasonForIncomingRequest. eapply rd_bind.
  { apply rd_wrapped. destruct (Local_Equal _ _); [by apply rd_getRequestLocal|].
    by eapply rd_any, rd_lift_result. }
  intros s1 info Hr1 _. pose proof (inv_reads _ _ _ _ Hr1 Hi) as Hi1.
  eapply rd_bind; [apply rd_wrapped; by apply rd_lift_result|]. intros s2 m Hr2 _.
  pose proof (inv_reads _ _ _ _ Hr2 Hi1) as Hi2.
  destruct (Unwrap _) as [[[]| | | |]|]; try by apply rd_throw.
  repeat (destruct (_ && _); [by apply rd_throw|]). by eapply rd_any, rd_mret.
Qed.

Lemma findRequest_elem l id rec : findRequest l id = Good rec -> rec ∈ l /\ RecordID rec = id.
Proof.
  induction l as [|x l IH]; [done|]. cbn. destruct (bool_decide_reflect (RecordID x = id)).
  - intros [= <-]. split; [by left|done].
  - intros (? & ?)%IH. split; [by right|done].
Qed.

(** The reason of an outgoing request is open, and the oldest mutable request
    if it is mutable. *)
Lemma rd_checkOutgoing reasonID requestID obj s :
  ledger_inv F chains s -> Local_Pulse requestID = p ->
  rd F (checkReasonForOutgoingRequest reasonID requestID obj)
     (fun _ => forall l, chains !! obj = Some l -> reasonID ∉ closed l) s.
Proof.
  intros Hi Hpr. unfold checkReasonForOutgoingRequest. eapply rd_bind.
  { apply rd_wrapped. by apply rd_OpenedRequests. }
  intros s1 opened Hr1 (idx & l & _ & Hl & _ & Hop).
  pose proof (inv_reads _ _ _ _ Hr1 Hi) as Hi1. eapply rd_bind.
  { apply rd_wrapped. by apply rd_lift_result. }
  intros s2 reason Hr2 [Hin Hid]%findRequest_elem.
  pose proof (inv_reads _ _ _ _ Hr2 Hi1) as Hi2.
  assert (forall l, chains !! obj = Some l -> reasonID ∉ closed l) as Hgoal.
  { intros l' Hl'. assert (l' = l) as -> by congruence.
    rewrite Hop, elem_of_reverse, list_elem_of_filter in Hin.
    destruct Hin as ((_ & Hc & _) & _). by rewrite <- Hid. }
  destruct (as_request reason) as [[inc|]|]; try by apply rd_throw.
  destruct (Immutable inc); [by eapply rd_mono; [apply rd_mret|]|].
  eapply rd_bind; [by apply rd_lift_go|]. intros s3 oldest Hr3 _.
  pose proof (inv_reads _ _ _ _ Hr3 Hi2) as Hi3.
  destruct oldest as [o|]; [|by apply rd_throw].
  destruct (negb _); [by apply rd_throw|]. by eapply rd_mono; [apply rd_mret|].
Qed.

Lemma rd_CheckRequest requestID request s :
  ledger_inv F chains s -> Local_Pulse requestID = p ->
  rd F (CheckRequest requestID request) (fun _ => forall r, request = OutgoingRequest r ->
    forall l, chains !! addressLocal (Caller r) = Some l -> addressLocal (Reason r) ∉ closed l) s.
Proof.
  intros Hi Hpr. unfold CheckRequest. eapply rd_bind; [by apply rd_check|]. intros s1 [] Hr1 _.
  pose proof (inv_reads _ _ _ _ Hr1 Hi) as Hi1.
  eapply rd_bind; [by apply rd_lift_go|]. intros s2 found Hr2 Hfound.
  pose proof (inv_reads _ _ _ _ Hr2 Hi1) as Hi2.
  eapply rd_bind; [apply rd_wrapped; by apply rd_lift_result|]. intros s3 objectID Hr3 ->.
  pose proof (inv_reads _ _ _ _ Hr3 Hi2) as Hi3. destruct request as [r|r].
  - eapply rd_mono with (P := fun _ => True); [|done]. eapply rd_bind with (P := fun _ => True).
    + destruct (negb _); [|by eapply rd_any, rd_mret]. eapply rd_bind.
      { apply rd_wrapped. by apply rd_OpenedRequests. }
      intros s4 opened Hr4 _. pose proof (inv_reads _ _ _ _ Hr4 Hi3) as Hi4.
      destruct (findIncomingAPIRequest _ _); [by apply rd_throw|by eapply rd_any, rd_mret].
    + intros s4 [] Hr4 _. pose proof (inv_reads _ _ _ _ Hr4 Hi3) as Hi4.
      destruct (negb _); [|by eapply rd_any, rd_mret]. apply rd_wrapped. by apply rd_checkIncoming.
  - apply rd_wrapped. eapply rd_mono; [by apply rd_checkOutgoing|].
    cbn in Hfound. injection Hfound as <-. intros _ Hl r' [= <-] l. apply Hl.
Qed.
End Reading.

(** ** SetRequest and SetResult *)

(** The chain of [obj] has the new record [X] on top. *)
Definition extends (F : ghost) (chains : filamentsOf) (obj : Local) (X : AnyRecord) (id : Local)
    (st' : Light) : Prop :=
  exists rec, content rec = Some X /\ RecordID rec = id /\ F !! MetaID rec = None /\
    ledger_inv (<[MetaID rec := rec]> F) (<[obj := rec :: default [] (chains !! obj)]> chains) st'.

Lemma newFilament_ret rid latest obj jet m :
  newFilament p rid latest obj jet = Ret m ->
  let v := record_Wrap (PendingFilament (mkFilament rid latest)) in
  exists id, recordID p v = Ret id /\ m = mkMaterial v id obj jet [].
Proof.
  intros (h & Eh & Hm)%go_bind_ret v. apply go_bind_ret in Hm as (id & Eid & Hm).
  exists id. unfold recordID, v. rewrite Eh. cbn. by injection Hm as <-.
Qed.

(** Saving the records: nothing, or all of them. *)
Lemma wp_save F st s recs (k : io Light unit) Q :
  reads F st s -> (forall s' e, reads F st s' -> Q s' (Fail e)) ->
  (forall m', SetAtomic (l_records s) recs = (m', None) ->
     wp False k (mkLight (l_indexes s) m' (l_caches s) (l_replies s) (l_sent s)) Q) ->
  wp False (saveRecords recs ≫= fun _ => k) s Q.
Proof.
  intros Hr He Hk. apply wp_bind. unfold wp at 1, saveRecords.
  destruct (SetAtomic (l_records s) recs) as [m' [e|]] eqn:E; [|by apply Hk].
  apply He. unfold SetAtomic in E. destruct (SetAtomic_check _ _); [|done].
  by injection E as <- <-.
Qed.

Lemma wp_saveIndex s pn idx (k : io Light unit) Q :
  (forall i', Index_Set (l_indexes s) pn idx = Ret i' ->
     wp False k (mkLight i' (l_records s) (l_caches s) (l_replies s) (l_sent s)) Q) ->
  wp False (saveIndex pn idx ≫= fun _ => k) s Q.
Proof.
  intros Hk. apply wp_bind. unfold wp at 1, saveIndex.
  destruct (Index_Set (l_indexes s) pn idx); [by apply Hk|tauto].
Qed.

Lemma wp_saveIndex_end s pn idx Q :
  (forall i', Index_Set (l_indexes s) pn idx = Ret i' ->
     Q (mkLight i' (l_records s) (l_caches s) (l_replies s) (l_sent s)) (Good tt)) ->
  wp False (saveIndex pn idx) s Q.
Proof.
  intros Hk. unfold wp, saveIndex. destruct (Index_Set _ pn idx); [by apply Hk|tauto].
Qed.

Lemma rd_beginWrite F chains s pn : ledger_inv F chains s -> rd F (beginWrite pn) (fun _ => True) s.
Proof.
  intros Hi. unfold beginWrite. destruct (writer_Begin pn); [by eapply rd_any, rd_mret|].
  destruct (bool_decide _); by eapply rd_throw.
Qed.

Lemma inv_reply F chains i r c rep sent rep' sent' :
  ledger_inv F chains (mkLight i r c rep sent) -> ledger_inv F chains (mkLight i r c rep' sent').
Proof. by intros []. Qed.

(** What [SetRequest] knows of the object when it saves. *)
Definition request_index (request : Request) (requestID obj : Local) (s : Light) (idx : Index) : Prop :=
  if IsCreationRequest request then idx = mkIndex obj emptyLifeline (Local_Pulse requestID) []
  else Index_ForID (l_indexes s) p obj = Good idx.

Lemma rd_requestIndex F chains request requestID obj s :
  ledger_inv F chains s ->
  rd F (requestIndex p request requestID obj) (request_index request requestID obj s) s.
Proof.
  intros Hi. unfold requestIndex, request_index.
  destruct (IsCreationRequest request); [by eapply rd_mret|].
  eapply rd_bind with (P := fun a => a = Index_ForID (l_indexes s) p obj).
  { eapply rd_pure; [done|]. cbn. split; [done|]. by intros ? [= <-]. }
  intros s1 found Hr1 ->. pose proof (inv_reads _ _ _ _ Hr1 Hi) as Hi1.
  eapply rd_bind; [by eapply rd_lift_result|]. intros s2 idx Hr2 E.
  pose proof (inv_reads _ _ _ _ Hr2 Hi1) as Hi2. cbv zeta.
  destruct (_ =? _); [by eapply rd_throw|]. destruct (_ =? _); [by eapply rd_throw|].
  destruct (match LatestRequest _ with Some _ => _ | None => _ end); [by eapply rd_throw|].
  eapply rd_mono; [by eapply rd_mret|]. intros ? ->.
  destruct (Index_ForID _ _ _); [by injection E as ->|done].
Qed.

(** The lifeline that a handler extends and its chain. *)
Lemma request_chain F chains request requestID obj s idx m' recs :
  ledger_inv F chains s -> request_index request requestID obj s idx ->
  (IsCreationRequest request = true -> obj = requestID) -> Local_Pulse requestID = p ->
  SetAtomic (l_records s) recs = (m', None) ->
  (exists x, x ∈ recs /\ Material_ID x = requestID) ->
  ObjID idx = obj /\ lifeline_ok (ledger F) (Index_Lifeline idx) (default [] (chains !! obj)) /\
  (chains !! obj = Some (default [] (chains !! obj)) \/ default [] (chains !! obj) = []) /\
  forall x, x ∈ default [] (chains !! obj) -> meta_pulse x <= p.
Proof.
  intros Hi Hidx Hcr Hpr Hat (x & Hx & Ex). unfold request_index in Hidx.
  destruct (IsCreationRequest request).
  - rewrite Hcr in * by done. subst idx. cbn. assert (chains !! requestID = None) as ->.
    { destruct (chains !! requestID) eqn:E; [|done].
      destruct (li_created _ _ _ Hi requestID) as [m Em]; [by rewrite E|done|].
      unfold SetAtomic in Hat. destruct (SetAtomic_check _ _) eqn:Hc; [done|].
      apply SetAtomic_check_None in Hc. eapply list.Forall_forall in Hc; [|exact Hx].
      destruct Hc as [_ Hc]. congruence. }
    cbn. split; [done|]. split; [|split; [by right|by intros y Hy%not_elem_of_nil]].
    split; try done; try constructor.
  - destruct (inv_object _ _ _ _ _ Hi Hidx) as (Ho & l & -> & Hob & Hpl). cbn.
    split; [done|]. split; [apply Hob|]. split; [by left|done].
Qed.

Lemma on_top_save F recs recs' lf l rec eff :
  records_ok F recs -> batch_ok rec (LatestRequest lf) eff ->
  saved recs recs' (Rec rec :: Meta rec :: eff) ->
  lifeline_ok (ledger F) lf l -> (forall x, x ∈ l -> meta_pulse x <= p) ->
  lifeline_ok (ledger (<[MetaID rec := rec]> F)) lf l /\
  on_top (ledger (<[MetaID rec := rec]> F)) lf l rec.
Proof.
  intros Hok Hb Hs Hlf Hl. destruct (batch_pulses _ _ _ Hb) as [HpM HpR].
  destruct (fresh_ghost _ _ _ _ (Meta rec) Hok Hs) as [HF0 _].
  { right. by left. } { by rewrite (bt_meta _ _ _ Hb). }
  destruct (fresh_ghost _ _ _ _ (Rec rec) Hok Hs) as [_ HR0].
  { by left. } { by rewrite (bt_rec _ _ _ Hb). }
  rewrite (bt_meta _ _ _ Hb) in HF0. split.
  - eapply lifeline_weaken; [|exact Hlf]. intros id r. by apply ghost_grows.
  - split.
    + unfold ledger. apply lookup_insert_eq.
    + apply Hb.
    + intros (x & E & Hx)%list_elem_of_fmap. apply (HR0 (MetaID x) x).
      * eapply (filament_in (ledger F)); [apply Hlf|done].
      * by rewrite (bt_rec _ _ _ Hb).
    + unfold meta_pulse. congruence.
    + unfold meta_pulse. lia.
    + intros x Hx. unfold meta_pulse at 2. rewrite HpM. by apply Hl.
Qed.

(** What both handlers guarantee: only the caches changed, or the chain of the
    object has the new record and the reply is positive. *)
Definition outcome (F : ghost) (chains : filamentsOf) (st : Light) (obj : Local) (X : AnyRecord)
    (id : Local) (st' : Light) (r : result unit) : Prop :=
  reads F st st' \/ (r = Good tt /\ extends F chains obj X id st').

(** The end of [SetRequest]: both records and the index. *)
Lemma save_request F chains st s request requestID obj jetID idx :
  ledger_inv F chains st -> reads F st s ->
  recordID p (record_Wrap (RequestRecord request)) = Ret requestID ->
  request_index request requestID obj st idx ->
  (IsCreationRequest request = true -> obj = requestID) ->
  (forall r, request = OutgoingRequest r ->
     forall l, chains !! obj = Some l -> addressLocal (Reason r) ∉ closed l) ->
  wp False
    (Filament ← lift_go (newFilament (Local_Pulse requestID) requestID
                           (LatestRequest (Index_Lifeline idx)) obj jetID);
     saveRecords [mkMaterial (record_Wrap (RequestRecord request)) requestID obj jetID [];
                  Filament] ≫= fun _ =>
     saveIndex (Local_Pulse requestID)
       (mkIndex (ObjID idx)
          (requestLifeline (Index_Lifeline idx) (Material_ID Filament) requestID)
          (Local_Pulse requestID) (PendingRecords idx)) ≫= fun _ =>
     Reply (Payload.RequestInfo (Payload.mkInfo obj requestID [] [] false))) s
    (outcome F chains st obj (RequestRecord request) requestID).
Proof.
  intros Hi Hr Hid Hidx Hcr Hreason. pose proof (inv_reads _ _ _ _ Hr Hi) as Hi1.
  assert (Local_Pulse requestID = p) as Hpr by (by eapply recordID_pulse). rewrite Hpr.
  eapply rd_step; [exact Hr|by eapply rd_lift_go|by left|]. intros s2 fil Hr2 Hfil.
  apply newFilament_ret in Hfil as (fid & Hfid & ->). pose proof (inv_reads _ _ _ _ Hr2 Hi) as Hi2.
  set (Req := mkMaterial _ requestID obj jetID []). set (Fil := mkMaterial _ fid obj jetID []).
  set (rec := mkComposite requestID Req fid Fil).
  assert (batch_ok rec (LatestRequest (Index_Lifeline idx)) []) as Hb.
  { split; try done; [|by repeat constructor].
    constructor; [done|]. constructor; [by eapply recordID_pulse|constructor]. }
  assert (NoDup (Material_ID <$> [Rec rec; Meta rec])) as Hd.
  { cbn. apply list.NoDup_cons. split; [|apply NoDup_singleton].
    intros E%list_elem_of_singleton. subst fid.
    pose proof (Hkind _ _ _ Hid Hfid) as Hk. done. }
  apply (wp_save F st); [done|by left|]. intros m' Hat.
  pose proof (SetAtomic_saved _ _ _ Hd Hat) as Hsaved.
  destruct (request_chain F chains request requestID obj s2 idx m' [Req; Fil]) as (Ho & Hlf & Hl & Hpl);
    [done| |done|done|done|by exists Req; split; [left|]|].
  { unfold request_index in *. destruct Hr2 as (-> & _ & _). done. }
  destruct (on_top_save F _ _ _ _ rec [] (li_records _ _ _ Hi2) Hb Hsaved Hlf Hpl) as [Hlf' Ht].
  apply wp_saveIndex. intros i' Hset. unfold wp, Reply, modify.
  cbn [l_indexes l_records l_caches l_replies l_sent Material_ID] in *.
  right. split; [done|]. exists rec. split; [done|]. split; [done|]. split; [by eapply save_fresh|].
  set (idx' := mkIndex _ _ _ _) in Hset.
  refine (inv_save F chains s2 obj _ rec _ [] m' i' idx' _ _ Hi2 Hl Hpl Hb Hd Hat Ho _ _ Hset).
  - intros Hpo. destruct (decide (IsCreationRequest request = true)) as [Hc|Hc].
    + rewrite Hcr by done. exists Req. apply (sd_new _ _ _ Hsaved Req). by left.
    + apply not_true_is_false in Hc. unfold request_index in Hidx. rewrite Hc in Hidx.
      destruct (inv_object _ _ _ _ _ Hi Hidx) as (_ & l0 & Hl0 & _).
      destruct (li_created _ _ _ Hi2 obj) as [m Em]; [by rewrite Hl0|done|].
      exists m. by eapply saved_mono.
  - eapply (lifeline_request _ _ _ rec); [exact Hlf'|exact Ht|done|].
    intros r [= ->]. destruct (chains !! obj) as [l|] eqn:E; [by eapply Hreason|].
    cbn. apply not_elem_of_empty.
Qed.

(** The object of a request. *)
Definition objectOf (request : Request) (requestID : Local) : Local :=
  if IsCreationRequest request then requestID
  else match AffinityRef request with Some ref => addressLocal ref | None => emptyLocal end.

(** One reading call of a handler, its fact named. *)
Ltac read_call lem s' a Hr' Ha :=
  eapply rd_step; [eassumption|lem|by left|]; intros s' a Hr' Ha;
  match goal with Hi : ledger_inv ?F ?ch ?st, Hr : reads ?F ?st s' |- _ =>
    let Hn := fresh "Hi" in pose proof (inv_reads _ _ _ _ Hr Hi) as Hn end.

Lemma SetRequest_keeps F chains st sender request requestID jetID :
  ledger_inv F chains st ->
  recordID p (record_Wrap (RequestRecord request)) = Ret requestID ->
  wp False (SetRequest_Proceed p sender request requestID jetID) st
     (outcome F chains st (objectOf request requestID) (RequestRecord request) requestID).
Proof.
  intros Hi Hid. assert (Local_Pulse requestID = p) as Hpr by (by eapply recordID_pulse).
  pose proof (reads_refl F chains st Hi) as Hr0. unfold SetRequest_Proceed.
  read_call ltac:(by eapply rd_guard) s1 x1 Hr1 Hg1.
  read_call ltac:(by eapply rd_guard) s2 x2 Hr2 Hg2.
  eapply rd_step with (P := fun obj => obj = objectOf request requestID); [exact Hr2| |by left|].
  { unfold objectOf. destruct (IsCreationRequest request); [by eapply rd_mret|].
    destruct (AffinityRef request); [by eapply rd_mret|].
    eapply rd_mono; [by eapply rd_lift_go|done]. }
  intros s3 obj Hr3 ->. pose proof (inv_reads _ _ _ _ Hr3 Hi) as Hi3.
  read_call ltac:(eapply rd_wrapped; by eapply rd_lift_result) s4 x4 Hr4 Hg4.
  read_call ltac:(by eapply rd_lift_result) s5 x5 Hr5 Hg5.
  read_call ltac:(by eapply rd_guard) s6 x6 Hr6 Hg6.
  read_call ltac:(by eapply rd_requestIndex) s7 idx Hr7 Hidx.
  read_call ltac:(eapply rd_wrapped; by eapply rd_check) s8 x8 Hr8 Hg8.
  read_call ltac:(eapply rd_wrapped; by eapply rd_RequestDuplicate) s9 dup Hr9 Hg9.
  destruct dup as [req res]. destruct (bool_decide (is_Some req) || _); cbv zeta.
  { read_call ltac:(by eapply rd_marshal) s10 b1 Hr10 Hg10.
    read_call ltac:(by eapply rd_marshal) s11 b2 Hr11 Hg11. by left. }
  read_call ltac:(eapply rd_wrapped; by eapply rd_CheckRequest) s10 x10 Hr10 Hreason.
  read_call ltac:(by eapply rd_beginWrite) s11 x11 Hr11 Hg11.
  apply (save_request F chains); [done|done|done| | |].
  - unfold request_index in *. destruct Hr6 as (E & _ & _). by rewrite E in Hidx.
  - unfold objectOf. by intros ->.
  - intros r -> l. by apply Hreason.
Qed.

(** C11: [SetRequest] keeps the ledger together: on every branch, errors and
    duplicates included, either nothing but the caches changed, or the chain
    of the object has the new request on top, with its lifeline, and the
    handler succeeds. *)
Theorem SetRequest_preserves F chains st sender request requestID jetID :
  ledger_inv F chains st ->
  recordID p (record_Wrap (RequestRecord request)) = Ret requestID ->
  wp False (SetRequest_Proceed p sender request requestID jetID) st
     (outcome F chains st (objectOf request requestID) (RequestRecord request) requestID).
Proof. apply SetRequest_keeps. Qed.

Lemma findClosed_elem l result req :
  findClosed l result = Good req ->
  req ∈ l /\ is_request req /\ RecordID req = result_of result.
Proof.
  induction l as [|x l IH]; [done|]. cbn [findClosed]. fold (result_of result).
  destruct (bool_decide_reflect (RecordID x = result_of result)) as [E|E].
  - destruct (as_request x) as [q|] eqn:Eq; [|done]. intros [= <-].
    split; [by left|]. split; [by exists q|done].
  - intros (? & ? & ?)%IH. split; [by right|done].
Qed.

(** The fields that describe the filament. *)
Lemma lifeline_fields F lf lf' l :
  LatestRequest lf' = LatestRequest lf -> EarliestOpenRequest lf' = EarliestOpenRequest lf ->
  OpenRequestsCount lf' = OpenRequestsCount lf -> lifeline_ok F lf l -> lifeline_ok F lf' l.
Proof. intros E1 E2 E3 []. split; rewrite ?E1, ?E2, ?E3; done. Qed.

(** What the side effect adds to the batch. *)
Lemma sideEffect_ret obj jetID lf effect m lf' :
  sideEffectRecord p obj jetID lf effect = Ret (m, lf') ->
  recordID p (record_Wrap (StateRecord effect)) = Ret (Material_ID m) /\
  filament_of m = None /\ LatestRequest lf' = LatestRequest lf /\
  EarliestOpenRequest lf' = EarliestOpenRequest lf /\ OpenRequestsCount lf' = OpenRequestsCount lf.
Proof.
  intros (h & Eh & Hm)%go_bind_ret. apply go_bind_ret in Hm as (id & Eid & Hm).
  injection Hm as <- <-. unfold recordID. rewrite Eh. by split_and!.
Qed.

Lemma effects_rd F chains s obj jetID lf sideEffect :
  ledger_inv F chains s ->
  rd F (match sideEffect with
        | None => mret ([], lf)
        | Some e => r ← lift_go (sideEffectRecord p obj jetID lf e); mret ([r.1], r.2)
        end) (fun effect =>
    (length effect.1 <= 1)%nat /\
    Forall (fun m => filament_of m = None /\ exists e,
              recordID p (record_Wrap (StateRecord e)) = Ret (Material_ID m)) effect.1 /\
    LatestRequest effect.2 = LatestRequest lf /\
    EarliestOpenRequest effect.2 = EarliestOpenRequest lf /\
    OpenRequestsCount effect.2 = OpenRequestsCount lf) s.
Proof.
  intros Hi. destruct sideEffect as [e|].
  - eapply rd_bind; [by eapply rd_lift_go|]. intros s' [m lf'] Hr Hm.
    pose proof (inv_reads _ _ _ _ Hr Hi) as Hi'.
    apply sideEffect_ret in Hm as (? & ? & ? & ? & ?).
    eapply rd_mono; [by eapply rd_mret|]. intros ? ->. cbn. split; [lia|].
    split; [|done]. constructor; [|constructor]. eauto.
  - eapply rd_mono; [by eapply rd_mret|]. intros ? ->. cbn. split; [lia|]. by split.
Qed.

(** The end of [SetResult] up to the notifications. *)
Lemma save_result F chains st s result resultID jetID sideEffect idx l req e k :
  let obj := Result_Object result in
  ledger_inv F chains st -> reads F st s ->
  recordID p (record_Wrap (Result result)) = Ret resultID ->
  ObjID idx = obj -> chains !! obj = Some l -> lifeline_ok (ledger F) (Index_Lifeline idx) l ->
  (forall x, x ∈ l -> meta_pulse x <= p) ->
  req ∈ open_requests l -> RecordID req = result_of result ->
  calcPending (reverse (open_requests l)) (RecordID req) = Good e ->
  (isMutableRequest req = true -> OldestMutable (reverse (open_requests l)) = Ret (Some req)) ->
  (forall s', extends F chains obj (Result result) resultID s' ->
     wp False k s' (outcome F chains st obj (Result result) resultID)) ->
  wp False (saveResult p jetID resultID result sideEffect idx e ≫= fun _ => k) s
    (outcome F chains st obj (Result result) resultID).
Proof.
  intros obj Hi Hr Hid Ho Hl Hlf Hpl Hreq Hrid Hcalc Hold Hk. unfold saveResult.
  pose proof (inv_reads _ _ _ _ Hr Hi) as Hi0. fold obj.
  assert (Local_Pulse resultID = p) as Hpr by (by eapply recordID_pulse). rewrite Hpr.
  apply wp_bind. read_call ltac:(by eapply rd_beginWrite) s1 x1 Hr1 Hg1.
  read_call ltac:(by eapply rd_lift_go) s2 fil Hr2 Hfil.
  apply newFilament_ret in Hfil as (fid & Hfid & ->).
  read_call ltac:(by eapply effects_rd) s3 effect Hr3 Heff.
  destruct Heff as (Hlen & Heff & E1 & E2 & E3).
  set (Res := mkMaterial _ resultID obj jetID []). set (Fil := mkMaterial _ fid obj jetID []).
  set (rec := mkComposite resultID Res fid Fil). change ([Res; Fil] ++ effect.1) with (Res :: Fil :: effect.1).
  assert (batch_ok rec (LatestRequest effect.2) effect.1) as Hb.
  { split; [done|done| |by rewrite E1|].
    - constructor; [done|]. constructor; [by eapply recordID_pulse|].
      eapply Forall_impl; [|exact Heff]. intros m (_ & x & Hx). by eapply recordID_pulse.
    - constructor; [done|]. eapply Forall_impl; [|exact Heff]. by intros m []. }
  assert (NoDup (Material_ID <$> Rec rec :: Meta rec :: effect.1)) as Hd.
  { assert (forall m, m ∈ effect.1 -> resultID <> Material_ID m /\ fid <> Material_ID m) as Hne.
    { intros m Hm. eapply list.Forall_forall in Heff as (_ & x & Hx); [|exact Hm].
      split; intros E; rewrite <- E in Hx; [pose proof (Hkind _ _ _ Hid Hx)|pose proof (Hkind _ _ _ Hfid Hx)]; done. }
    cbn. apply list.NoDup_cons. split; [|apply list.NoDup_cons; split].
    - rewrite elem_of_cons, list_elem_of_fmap. intros [E|(m & E & Hm)].
      + cbn in E. rewrite <- E in Hfid. pose proof (Hkind _ _ _ Hid Hfid). done.
      + by destruct (Hne m Hm).
    - rewrite list_elem_of_fmap. intros (m & E & Hm). by destruct (Hne m Hm).
    - destruct effect.1 as [|m [|]]; [constructor|apply NoDup_singleton|cbn in Hlen; lia]. }
  apply (wp_save F st); [done|by left|]. intros m' Hat.
  pose proof (SetAtomic_saved _ _ _ Hd Hat) as Hsaved.
  apply (lifeline_fields _ _ effect.2) in Hlf; [|done..].
  pose proof (inv_reads _ _ _ _ Hr3 Hi) as Hi3'.
  destruct (on_top_save F _ _ _ _ rec _ (li_records _ _ _ Hi3') Hb Hsaved Hlf Hpl) as [Hlf' Ht].
  apply wp_saveIndex_end. intros i' Hset.
  cbn [l_indexes l_records l_caches l_replies l_sent Material_ID] in *.
  set (idx' := mkIndex _ _ _ _) in Hset. apply Hk. exists rec. split; [done|]. split; [done|]. split; [by eapply save_fresh|].
  rewrite Hl. cbn [default].
  refine (inv_save F chains s3 obj l rec _ _ m' i' idx' _ _ Hi3' (or_introl Hl) Hpl Hb Hd Hat Ho _ _ Hset).
  - intros Hpo. destruct (li_created _ _ _ Hi3' obj) as [m Em]; [by rewrite Hl|done|].
    exists m. by eapply saved_mono.
  - by eapply (lifeline_result _ _ _ rec _ req).
Qed.

Lemma extends_messages F chains obj X id s s' :
  l_indexes s' = l_indexes s -> l_records s' = l_records s -> l_caches s' = l_caches s ->
  extends F chains obj X id s -> extends F chains obj X id s'.
Proof.
  intros E1 E2 E3 (rec & Hc & Hr & Hn & Hi). exists rec. do 3 (split; [done|]).
  destruct s, s'; cbn in *; subst. by eapply inv_reply.
Qed.

(** The notifications only send messages. *)
Lemma Notify_sends opened obj id s :
  exists sent, Notify opened obj id s =
    Ret (mkLight (l_indexes s) (l_records s) (l_caches s) (l_replies s) sent, Good tt).
Proof.
  revert s. induction opened as [|req opened IH]; intros s; cbn [Notify].
  { exists (l_sent s). by destruct s. }
  destruct (as_request req) as [[|r]|]; [apply IH| |apply IH].
  destruct (_ && _); [|apply IH]. destruct (Virtual_Marshal _); [|apply IH].
  unfold SendRole, modify, mbind, io_bind. edestruct IH as [sent ->]. by exists sent.
Qed.

Lemma finish_result F chains st obj X id s (m : io Light unit) msg :
  extends F chains obj X id s ->
  (exists sent, m s = Ret (mkLight (l_indexes s) (l_records s) (l_caches s) (l_replies s) sent, Good tt)) ->
  wp False (m ≫= fun _ => Reply msg) s (outcome F chains st obj X id).
Proof.
  intros He [sent E]. apply wp_bind. unfold wp at 1. rewrite E. unfold wp, Reply, modify.
  right. split; [done|]. by apply (extends_messages _ _ _ _ _ s).
Qed.

Lemma rd_opened_result F chains idx l obj s :
  ledger_inv F chains s -> chains !! obj = Some l -> Index_ForID (l_indexes s) p obj = Good idx ->
  rd F (filaments (fun c => OpenedRequests c p obj false))
     (fun opened => opened = reverse (open_requests l)) s.
Proof.
  intros Hi Hl E. eapply rd_mono; [by apply (rd_OpenedRequests F chains)|].
  intros opened (idx' & l' & E' & Hl' & _ & ->). rewrite shown_false.
  assert (l' = l) as -> by congruence. done.
Qed.

(** The order check on a mutable request that is closed. *)
Lemma rd_oldest F chains l req (result : ResultBody) s :
  ledger_inv F chains s -> req ∈ open_requests l -> RecordID req = result_of result ->
  rd F (match match as_request req with Some (IncomingRequest r) => Some r | _ => None end with
        | Some r =>
            if negb (Immutable r) then
              oldestMutable ← lift_go (OldestMutable (reverse (open_requests l)));
              match oldestMutable with
              | Some oldest =>
                  guard_io (negb (Local_Equal (RecordID oldest) (addressLocal (Result_Request result))))
                    (CodedError "attempt to close the non-oldest mutable request"
                       CodeRequestNonOldestMutable)
              | None => mret tt
              end
            else mret tt
        | None => mret tt
        end)
     (fun _ => wf_filament l -> isMutableRequest req = true ->
               OldestMutable (reverse (open_requests l)) = Ret (Some req)) s.
Proof.
  intros Hi Hreq Hid. unfold isMutableRequest.
  destruct (as_request req) as [[r|r]|] eqn:Eq; try (eapply rd_mono; [by eapply rd_mret|done]).
  destruct (negb (Immutable r)) eqn:Em; [|by eapply rd_mono; [eapply rd_mret|]].
  eapply rd_bind; [by eapply rd_lift_go|]. intros s' oldest Hr Ho.
  pose proof (inv_reads _ _ _ _ Hr Hi) as Hi'.
  rewrite OldestMutable_find in Ho by apply open_all_requests. injection Ho as <-.
  destruct (list_find _ _) as [[i x]|] eqn:Ef; cbn.
  - eapply rd_mono; [by eapply rd_guard|]. intros u0 Hg Hwf Hmut.
    rewrite OldestMutable_find by apply open_all_requests. rewrite Ef. cbn.
    apply negb_false_iff in Hg. fold (result_of result) in Hg. rewrite <- Hid in Hg.
    f_equal. f_equal. apply list_find_Some in Ef as (Hx & _ & _).
    apply list_elem_of_lookup_2 in Hx. rewrite elem_of_reverse in Hx.
    apply open_elem in Hx as [Hx _]. apply open_elem in Hreq as [Hreq _].
    eapply RecordID_inj; [done|done|done|]. by apply Local_Equal_true.
  - exfalso. apply list_find_None in Ef. eapply list.Forall_forall in Ef; [|by apply elem_of_reverse].
    apply Ef. unfold isMutableRequest. by rewrite Eq.
Qed.

Lemma SetResult_keeps F chains st jetID result sideEffect resultID :
  ledger_inv F chains st ->
  recordID p (record_Wrap (Result result)) = Ret resultID ->
  wp False (SetResult_Proceed p jetID result sideEffect) st
     (outcome F chains st (Result_Object result) (Result result) resultID).
Proof.
  intros Hi Hid. assert (Local_Pulse resultID = p) as Hpr by (by eapply recordID_pulse).
  pose proof (reads_refl F chains st Hi) as Hr0. unfold SetResult_Proceed.
  eapply rd_step; [exact Hr0|by eapply rd_lift_go|by left|]. intros s1 id' Hr1 Hid'.
  pose proof (inv_reads _ _ _ _ Hr1 Hi) as Hi1. fold (recordID p (record_Wrap (Result result))) in Hid'.
  assert (id' = resultID) as -> by congruence. rewrite Hpr.
  eapply rd_step with (P := fun a => a = Index_ForID (l_indexes s1) p (Result_Object result));
    [exact Hr1| |by left|].
  { eapply rd_pure; [done|]. cbn. split; [done|]. by intros ? [= <-]. }
  intros s2 ? Hr2 ->. pose proof (inv_reads _ _ _ _ Hr2 Hi) as Hi2.
  read_call ltac:(by eapply rd_lift_result) s3 idx Hr3 Hidx.
  assert (Index_ForID (l_indexes st) p (Result_Object result) = Good idx) as Hidx'.
  { destruct Hr1 as (<- & _). by destruct (Index_ForID _ _ _); [injection Hidx as ->|]. }
  destruct (inv_object _ _ _ _ _ Hi Hidx') as (Ho & l & Hl & Hob & Hpl).
  pose proof (ob_lifeline _ _ _ _ _ _ Hob) as Hlf.
  read_call ltac:(by eapply rd_guard) s4 x4 Hr4 Hg4.
  read_call ltac:(by eapply rd_guard) s5 x5 Hr5 Hg5.
  read_call ltac:(eapply rd_wrapped; by eapply rd_ResultDuplicate) s6 dup Hr6 Hg6.
  destruct dup as [res|].
  { read_call ltac:(by eapply rd_marshal) s7 b1 Hr7 Hg7. destruct (same_hash _ _); by left. }
  assert (Index_ForID (l_indexes s6) p (Result_Object result) = Good idx) as Hidx6.
  { by destruct Hr6 as (-> & _). }
  read_call ltac:(eapply rd_wrapped; by eapply rd_opened_result) s7 opened Hr7 Hopened.
  rewrite Hopened in *. clear Hopened opened.
  read_call ltac:(eapply rd_wrapped; by eapply rd_lift_result) s8 req Hr8 Hclosed.
  apply findClosed_elem in Hclosed as (Hin & Hisreq & Hrid). rewrite elem_of_reverse in Hin.
  eapply rd_step with (P := fun _ => True); [exact Hr8| |by left|].
  { destruct sideEffect; [|by eapply rd_any, rd_mret].
    eapply rd_wrapped, rd_any. by eapply rd_check. }
  intros s9 x9 Hr9 _. pose proof (inv_reads _ _ _ _ Hr9 Hi) as Hi9. cbv zeta.
  read_call ltac:(by eapply rd_oldest) s10 x10 Hr10 Hold.
  read_call ltac:(eapply rd_wrapped; by eapply rd_check) s11 x11 Hr11 Hg11.
  read_call ltac:(eapply rd_wrapped; by eapply rd_lift_result) s12 e Hr12 Hcalc.
  eapply (save_result F chains st s12 result resultID); try done.
  - intros Hm. apply Hold; [apply Hlf|done].
  - intros s' He. apply finish_result; [done|].
    destruct (match as_request req with Some _ => _ | None => _ end); [apply Notify_sends|].
    exists (l_sent s'). by destruct s'.
Qed.

(** C10: [SetResult] keeps the ledger together: on every branch either nothing
    but the caches changed, or the chain of the object has the new result on
    top of it, closing an open request (the oldest mutable one, if it is
    mutable), and the count and the earliest pulse of the open requests in
    the lifeline are again those of the chain. *)
Theorem SetResult_preserves F chains st jetID result sideEffect resultID :
  ledger_inv F chains st ->
  recordID p (record_Wrap (Result result)) = Ret resultID ->
  wp False (SetResult_Proceed p jetID result sideEffect) st
     (outcome F chains st (Result_Object result) (Result result) resultID).
Proof. apply SetResult_keeps. Qed.

(** ** Runs of handlers *)

Definition clear_caches (f : cacheStore -> cacheStore) (st : Light) : Light :=
  mkLight (l_indexes st) (l_records st) (f (l_caches st)) (l_replies st) (l_sent st).

(** The steps of a node during the pulse: requests and results arrive (their
    identifiers are hashes of their content), the cleaner drops caches. *)
Inductive light_step (st st' : Light) : Prop :=
  | step_request sender request requestID jetID r :
      recordID p (record_Wrap (RequestRecord request)) = Ret requestID ->
      SetRequest_Proceed p sender request requestID jetID st = Ret (st', r) -> light_step st st'
  | step_result jetID result sideEffect resultID r :
      recordID p (record_Wrap (Result result)) = Ret resultID ->
      SetResult_Proceed p jetID result sideEffect st = Ret (st', r) -> light_step st st'
  | step_ClearIfLonger limit :
      st' = clear_caches (fun cs => DeleteIfLonger cs limit) st -> light_step st st'
  | step_ClearAllExcept ids :
      st' = clear_caches (fun cs => DeleteAllExcept cs ids) st -> light_step st st'.

Lemma DeleteIfLonger_truthful (F : Local -> option Composite) cs limit :
  caches_truthful F cs -> caches_truthful F (DeleteIfLonger cs limit).
Proof. intros Hc id ch E. apply map_lookup_filter_Some in E as [E _]. by eapply Hc. Qed.

Lemma DeleteAllExcept_truthful (F : Local -> option Composite) cs ids :
  caches_truthful F cs -> caches_truthful F (DeleteAllExcept cs ids).
Proof.
  intros Hc id ch. unfold DeleteAllExcept. rewrite DeleteAllExcept_lookup.
  destruct (decide _); [by apply Hc|by rewrite lookup_empty].
Qed.

Lemma clear_inv F chains st f :
  (forall cs, caches_truthful (ledger F) cs -> caches_truthful (ledger F) (f cs)) ->
  ledger_inv F chains st -> ledger_inv F chains (clear_caches f st).
Proof.
  intros Hf Hi. eapply inv_reads; [|exact Hi]. split_and!; [done|done|]. apply Hf, Hi.
Qed.

(** What is known after a run that started with the ledger [F0] and the
    filaments [chains0]: nothing of them is lost, and what is new is of this
    pulse. *)
Definition grown (F0 : ghost) (chains0 : filamentsOf) (st : Light) : Prop :=
  exists F chains, ledger_inv F chains st /\
    (forall id rec, F0 !! id = Some rec -> F !! id = Some rec) /\
    (forall id rec, F !! id = Some rec -> F0 !! id = Some rec \/ Local_Pulse id = p) /\
    (forall obj, default [] (chains0 !! obj) `suffix_of` default [] (chains !! obj)).

Lemma grown_start F chains st : ledger_inv F chains st -> grown F chains st.
Proof. intros Hi. exists F, chains. split_and!; [done|done|by left|done]. Qed.

Lemma outcome_grown F0 chains0 st st' X id obj r :
  Local_Pulse id = p -> grown F0 chains0 st ->
  (forall F chains, ledger_inv F chains st -> outcome F chains st obj X id st' r) -> grown F0 chains0 st'.
Proof.
  intros Hid (F & chains & Hi & Hold & Hnew & Hch) Ho.
  destruct (Ho F chains Hi) as [Hr|(_ & rec & _ & Hrid & Hn & Hi')].
  { exists F, chains. split; [by eapply inv_reads|done]. }
  exists (<[MetaID rec := rec]> F), (<[obj := rec :: default [] (chains !! obj)]> chains). split; [done|].
  split_and!.
  - intros i x E. apply ghost_grows; [done|by apply Hold].
  - intros i x. destruct (decide (MetaID rec = i)) as [<-|Hne]; [|rewrite lookup_insert_ne by done; apply Hnew].
    intros _. right. destruct (rk_meta _ _ (li_records _ _ _ Hi') (MetaID rec) rec) as (_ & -> & _).
    + by rewrite lookup_insert_eq.
    + by rewrite Hrid.
  - intros o. destruct (decide (obj = o)) as [<-|Hne].
    + rewrite lookup_insert_eq. cbn. by apply suffix_cons_r.
    + by rewrite lookup_insert_ne.
Qed.

Lemma light_step_grown F0 chains0 st st' : grown F0 chains0 st -> light_step st st' -> grown F0 chains0 st'.
Proof.
  intros Hg Hs. destruct Hs as [sender request requestID jetID r Hid E
    |jetID result sideEffect resultID r Hid E|limit ->|ids ->].
  - eapply outcome_grown; [by eapply recordID_pulse|exact Hg|]. intros F chains Hi.
    pose proof (SetRequest_keeps F chains st sender request requestID jetID Hi Hid) as Hw.
    unfold wp in Hw. by rewrite E in Hw.
  - eapply outcome_grown; [by eapply recordID_pulse|exact Hg|]. intros F chains Hi.
    pose proof (SetResult_keeps F chains st jetID result sideEffect resultID Hi Hid) as Hw.
    unfold wp in Hw. by rewrite E in Hw.
  - destruct Hg as (F & chains & Hi & Hg). exists F, chains. split; [|done].
    apply clear_inv; [|done]. intros cs. apply DeleteIfLonger_truthful.
  - destruct Hg as (F & chains & Hi & Hg). exists F, chains. split; [|done].
    apply clear_inv; [|done]. intros cs. apply DeleteAllExcept_truthful.
Qed.

Definition holds_together (st : Light) : Prop := exists F chains, ledger_inv F chains st.

Lemma light_step_inv st st' : holds_together st -> light_step st st' -> holds_together st'.
Proof.
  intros (F & chains & Hi) Hs.
  destruct (light_step_grown F chains st st' (grown_start _ _ _ Hi) Hs) as (F' & chains' & Hi' & _). by exists F', chains'.
Qed.

(** The filament record with an identifier, as the storage of the node has it,
    else as the ledger was before. *)
Definition stored_record (recs : gmap Local Material) (id : Local) : option Composite :=
  m ← recs !! id; f ← filament_of m; r ← recs !! Filament_RecordID f;
  Some (mkComposite (Filament_RecordID f) r id m).
Definition known_records (F0 : ghost) (st : Light) (id : Local) : option Composite :=
  match stored_record (recsStor (l_records st)) id with Some rec => Some rec | None => F0 !! id end.

Lemma stored_record_true F recs id rec : records_ok F recs -> stored_record recs id = Some rec -> F !! id = Some rec.
Proof.
  intros Hok. unfold stored_record. destruct (recs !! id) as [m|] eqn:Em; [|done]. cbn.
  destruct (filament_of m) as [f|] eqn:Ef; [|done]. cbn. destruct (recs !! Filament_RecordID f) as [r|] eqn:Er; [|done].
  cbn. intros [= <-]. destruct (rk_filament _ _ Hok id m f Em Ef) as (x & HF & Hx).
  destruct (rk_true _ _ Hok id x HF) as [H1 H2]. destruct (rk_meta _ _ Hok id x HF) as (Hid & _).
  rewrite HF. f_equal. rewrite <- Hx in *. rewrite (H1 _ Em), (H2 _ Er), <- Hid. by destruct x.
Qed.
Lemma stored_record_here F recs id rec : records_ok F recs -> F !! id = Some rec -> Local_Pulse id = p ->
  stored_record recs id = Some rec.
Proof.
  intros Hok HF Hp'. destruct (rk_here _ _ Hok id rec HF Hp') as [E1 E2].
  destruct (rk_meta _ _ Hok id rec HF) as (Hid & _ & f & Ef & Hf). unfold stored_record. rewrite E1. cbn.
  rewrite Ef. cbn. rewrite Hf, E2. cbn. rewrite <- Hid. by destruct rec.
Qed.

(** The ledger of a run is what the node stored and what was before. *)
Lemma known_records_ledger F0 F st id rec :
  records_ok F (recsStor (l_records st)) ->
  (forall id rec, F !! id = Some rec -> F0 !! id = Some rec \/ Local_Pulse id = p) ->
  F !! id = Some rec -> known_records F0 st id = Some rec.
Proof.
  intros Hok Hnew HF. unfold known_records. destruct (stored_record _ id) as [x|] eqn:E.
  - apply (stored_record_true F) in E; [congruence|done].
  - destruct (Hnew id rec HF) as [?|Hp']; [done|]. by rewrite (stored_record_here F _ id rec) in E.
Qed.

(** The calculator over the storages of the node, with any fuel. *)
Definition calculator_with (fuel : nat) (st : Light) : FilamentCalculator :=
  mkCalculator (l_indexes st) (l_records st) calculator_Backwards fuel.

Lemma calculator_with_ok fuel F st obj lf l :
  object_ok (ledger F) (calculator st) p obj lf l -> object_ok (ledger F) (calculator_with fuel st) p obj lf l.
Proof.
  intros [Hx Hlf Hav]. split; [done|done|]. intros ru. eapply Forall_impl; [|apply (Hav ru)].
  intros rec [H1 H2 H3]. by split.
Qed.

(** C2: A light node starts with the ledger [F0] and the filaments [chains0]
    of its objects and runs: requests and results arrive, caches are cleared.
    Then the lifeline of every object it has an index for leads through the
    records that the node stored, and those of [F0], along the filament of
    the object: the one of before with new records on top.  The filament is
    well formed, its mutable requests were closed from the oldest on, the
    index counts its open requests and has the pulse of the earliest of them,
    and [OpenedRequests] ends and answers with exactly the open requests in
    time order: the requests of the filament without a result in it. *)
Theorem light_ledger_run F0 chains0 st st' obj idx :
  ledger_inv F0 chains0 st -> reach light_step st st' ->
  Index_ForID (l_indexes st') p obj = Good idx ->
  exists l, filament (known_records F0 st') (LatestRequest (Index_Lifeline idx)) l /\
    default [] (chains0 !! obj) `suffix_of` l /\ wf_filament l /\ in_order l /\
    OpenRequestsCount (Index_Lifeline idx) = u32 (Z.of_nat (length (open_requests l))) /\
    EarliestOpenRequest (Index_Lifeline idx) = earliest_open l /\
    forall fuel, (length l < fuel)%nat ->
      exists cs, OpenedRequests (calculator_with fuel st') p obj false (l_caches st') =
                 Ret (cs, Good (reverse (open_requests l))).
Proof.
  intros H0 Hr Hidx. pose proof (grown_start _ _ _ H0) as Hg.
  apply (reach_invariant light_step (grown F0 chains0) st st' Hg) in Hr as (F & chains & Hi & _ & Hnew & Hch);
    [|intros a b; apply light_step_grown].
  destruct (inv_object _ _ _ _ _ Hi Hidx) as (_ & l & Hl & Hob & _). exists l.
  pose proof (ob_lifeline _ _ _ _ _ _ Hob) as Hlf.
  split. { eapply filament_weaken; [|apply Hlf]. intros id rec. apply (known_records_ledger F0 F); [apply Hi|done]. }
  split. { specialize (Hch obj). by rewrite Hl in Hch. }
  split; [apply Hlf|]. split; [apply Hlf|]. split; [apply Hlf|]. split; [apply Hlf|]. intros fuel Hfuel.
  destruct (wp_total True (OpenedRequests (calculator_with fuel st') p obj false) (l_caches st')
    (fun cs r => caches_truthful (ledger F) cs /\ r = Good (reverse (filter (shown false (closed l)) l))))
    as (cs & r & E & _ & ->); [done| |].
  - eapply OpenedRequests_wp; [|apply Hi|done]. exact (calculator_with_ok fuel _ _ _ _ _ Hob).
  - exists cs. by rewrite E, shown_false.
Qed.
End Ledger.

(** ** A node at work *)
Module SampleNode.

Definition pulse : Z := 65600.
Definition nodeRef : Global :=
  mkGlobal (mkLocal 65537 (replicate 28 9)) (mkLocal 65537 (replicate 28 9)).
Definition jetID : Local := ZeroJetID.

(** A few bytes that tell the sample records apart. *)
Definition digest (v : Virtual) : list Z :=
  match Union v with
  | Some (RequestRecord q) => [Nonce (body q)]
  | Some (Result r) => Result_Payload r
  | Some (PendingFilament f) => take 3 (Local_Hash (Filament_RecordID f))
  | _ => []
  end.

#[export] Instance sampleNode : LightNode := {|
  light_node := {|
    IsBeyondLimit _ := Good false;
    Heavy := Good nodeRef;
    NodeForJet _ _ := Good nodeRef;
    LightExecutorForJet _ _ := Good nodeRef;
    VirtualExecutorForObject _ _ := Good nodeRef;
    Me := nodeRef;
    Fetch _ _ := Good jetID;
    SendTarget msg _ :=
      match msg with Payload.SearchIndex _ _ => Some (Good (Payload.SearchIndexInfo None)) | _ => None end;
  |};
  light_scheme := {|
    Virtual_Marshal v := Good (kind (Union v) :: digest v);
    Material_Marshal m := Good (kind (Union (Material_Virtual m)) :: digest (Material_Virtual m));
    Material_Unmarshal _ := Fail (Errorf "not used");
    Request_Marshal q := Good [Nonce (body q)];
    Lifeline_Marshal lf := Good [StateID lf];
    Lifeline_Unmarshal _ := Good emptyLifeline;
    ReferenceHasher b := b;
  |};
  calculator_Backwards _ _ := Ret (Fail ErrNotFound);
  calculator_fuel := 10;
  writer_Begin _ := Good tt;
|}.

Lemma pulse_range : 0 < pulse <= MaxTimePulse.
Proof. by split; vm_compute. Qed.

Lemma sample_kinds u v id :
  recordID pulse u = Ret id -> recordID pulse v = Ret id -> kind (Union u) = kind (Union v).
Proof.
  assert (forall w, recordID pulse w = Ret id -> nth 0 (hash id) 0 = kind (Union w)) as H.
  { intros w. unfold recordID, HashVirtual. cbn -[NewID]. unfold NewID, NewLocal, Number_WithFlags.
    cbn -[copy]. intros [= <-]. by cbn. }
  intros Hu Hv. by rewrite <- (H u Hu), <- (H v Hv).
Qed.

Definition emptyNode : Light := mkLight ∅ NewRecordMemory ∅ [] [].

Lemma emptyNode_inv : ledger_inv pulse ∅ ∅ emptyNode.
Proof.
  split; cbn.
  - split; intros; by rewrite lookup_empty in *.
  - split; [|intros; by rewrite lookup_empty in *].
    intros obj ru id rs. unfold fetchFromNetwork. cbn.
    by rewrite bool_decide_true.
  - intros id ch. by rewrite lookup_empty.
  - intros obj idx. unfold bucket_of. rewrite lookup_empty. cbn. by rewrite lookup_empty.
  - intros obj [? E]. by rewrite lookup_empty in E.
Qed.
Lemma emptyNode_together : holds_together pulse emptyNode.
Proof. exists ∅, ∅. exact emptyNode_inv. Qed.

Definition request (callType nonce : Z) (obj : option Global) : Request :=
  IncomingRequest (mkRequest callType emptyGlobal emptyGlobal nonce ReturnResult false None obj None
    "" [] (if nonce =? 1 then "a" else "b") (mkGlobal (mkLocal 65600 (replicate 28 7)) emptyLocal) nodeRef).

Definition id_of (v : Virtual) : Local :=
  match recordID pulse v with Ret id => id | Panic _ => emptyLocal end.
Definition state_of {A} (m : go (Light * A)) : Light :=
  match m with Ret (s, _) => s | Panic _ => emptyNode end.

(** An object is created and activated, then called; the call is open. *)
Definition creation : Request := request CTSaveAsChild 1 None.
Definition creationID : Local := id_of (record_Wrap (RequestRecord creation)).
Definition created : Light :=
  state_of (SetRequest_Proceed pulse nodeRef creation creationID jetID emptyNode).
Definition activation : ResultBody :=
  mkResult creationID (mkGlobal creationID creationID) [5].
Definition activated : Light :=
  state_of (SetResult_Proceed pulse jetID activation
    (Some (Activate (mkActivate emptyGlobal [] emptyGlobal false nodeRef))) created).
Definition callRequest : Request := request CTMethod 2 (Some (mkGlobal creationID creationID)).
Definition callID : Local := id_of (record_Wrap (RequestRecord callRequest)).
Definition called : Light :=
  state_of (SetRequest_Proceed pulse nodeRef callRequest callID jetID activated).

Lemma called_reached : reach (light_step pulse) emptyNode called.
Proof.
  eapply reach_step; [eapply reach_step; [eapply reach_step; [apply reach_init|]|]|].
  - apply (step_request pulse _ created nodeRef creation creationID jetID (Good tt));
      vm_compute; reflexivity.
  - apply (step_result pulse _ activated jetID activation
      (Some (Activate (mkActivate emptyGlobal [] emptyGlobal false nodeRef)))
      (id_of (record_Wrap (Result activation))) (Good tt)); vm_compute; reflexivity.
  - apply (step_request pulse _ called nodeRef callRequest callID jetID (Good tt));
      vm_compute; reflexivity.
Qed.

Definition calledIndex : Index :=
  match Index_ForID (l_indexes called) pulse creationID with
  | Good i => i
  | Fail _ => mkIndex emptyLocal emptyLifeline 0 []
  end.

Lemma light_ledger_run_witness :
  OpenRequestsCount (Index_Lifeline calledIndex) = 1 /\
  exists l, filament (known_records ∅ called) (LatestRequest (Index_Lifeline calledIndex)) l /\
    default [] ((∅ : gmap Local (list Composite)) !! creationID) `suffix_of` l /\ wf_filament l /\ in_order l /\
    OpenRequestsCount (Index_Lifeline calledIndex) = u32 (Z.of_nat (length (open_requests l))) /\
    EarliestOpenRequest (Index_Lifeline calledIndex) = earliest_open l /\
    forall fuel, (length l < fuel)%nat ->
      exists cs, OpenedRequests (calculator_with fuel called) pulse creationID false (l_caches called) =
                 Ret (cs, Good (reverse (open_requests l))).
Proof.
  split; [vm_compute; reflexivity|].
  apply (light_ledger_run pulse pulse_range sample_kinds ∅ ∅ emptyNode called);
    [exact emptyNode_inv|exact called_reached|vm_compute; reflexivity].
Defined.

Lemma SetRequest_preserves_witness :
  exists F chains, ledger_inv pulse F chains emptyNode /\
    wp False (SetRequest_Proceed pulse nodeRef creation creationID jetID) emptyNode
      (outcome pulse F chains emptyNode (objectOf creation creationID)
         (RequestRecord creation) creationID).
Proof.
  destruct emptyNode_together as (F & chains & Hi). exists F, chains. split; [exact Hi|].
  apply (SetRequest_preserves pulse pulse_range sample_kinds F chains); [exact Hi|].
  vm_compute. reflexivity.
Defined.

Lemma created_together : holds_together pulse created.
Proof.
  apply (light_step_inv pulse pulse_range sample_kinds emptyNode); [exact emptyNode_together|].
  apply (step_request pulse _ created nodeRef creation creationID jetID (Good tt));
    vm_compute; reflexivity.
Qed.

Lemma SetResult_preserves_witness :
  exists F chains, ledger_inv pulse F chains created /\
    wp False (SetResult_Proceed pulse jetID activation None) created
      (outcome pulse F chains created creationID (Result activation)
         (id_of (record_Wrap (Result activation)))).
Proof.
  destruct created_together as (F & chains & Hi). exists F, chains. split; [exact Hi|].
  apply (SetResult_preserves pulse pulse_range sample_kinds F chains); [exact Hi|].
  vm_compute. reflexivity.
Defined.

(** The chain of the object, read back. *)
Definition latest : Local := default emptyLocal (LatestRequest (Index_Lifeline calledIndex)).
Definition chain : list Composite :=
  match Requests (calculator called) creationID latest 1 ∅ with
  | Ret (_, Good l) => l
  | _ => []
  end.
Definition chainLedger : Local -> option Composite :=
  fun id => snd <$> list_find (fun rec => MetaID rec = id) chain.
Definition at_ (i : nat) : Composite :=
  nth i chain (mkComposite emptyLocal zeroMaterial emptyLocal zeroMaterial).

Lemma chain_eq : chain = [at_ 0; at_ 1; at_ 2].
Proof. vm_compute. reflexivity. Qed.

Ltac computed :=
  lazymatch goal with
  | |- _ = _ => vm_compute; reflexivity
  | |- _ => apply (bool_decide_unpack _); vm_compute; exact I
  end.

Lemma chain_wf : wf_filament chain.
Proof.
  rewrite chain_eq. eapply (wf_request _ callRequest); [computed|computed|intros r E; discriminate E|].
  eapply (wf_result _ activation _ (at_ 2));
    [computed|computed|left|exists creation; computed|computed|computed|].
  eapply (wf_request _ creation); [computed|computed|intros r E; discriminate E|constructor].
Qed.

Lemma chain_filament : filament chainLedger (LatestRequest (Index_Lifeline calledIndex)) chain.
Proof.
  rewrite chain_eq.
  replace (LatestRequest (Index_Lifeline calledIndex)) with (Some (MetaID (at_ 0))) by computed.
  eapply (filament_cons _ _ (mkFilament (RecordID (at_ 0)) (Some (MetaID (at_ 1)))));
    [computed..|]. cbn [PreviousRecord].
  eapply (filament_cons _ _ (mkFilament (RecordID (at_ 1)) (Some (MetaID (at_ 2)))));
    [computed..|]. cbn [PreviousRecord].
  eapply (filament_cons _ _ (mkFilament (RecordID (at_ 2)) None)); [computed..|]. constructor.
Qed.

Lemma three {A} (a b c : A) newer x older :
  [a; b; c] = newer ++ x :: older ->
  (newer = [] /\ x = a /\ older = [b; c]) \/ (newer = [a] /\ x = b /\ older = [c]) \/
  (newer = [a; b] /\ x = c /\ older = []).
Proof.
  destruct newer as [|? [|? [|? [|]]]]; intros E; cbn in E; simplify_eq; auto.
Qed.

Lemma chain_in_order : in_order chain.
Proof.
  intros newer x older y E Hm Hx Hy Hmy. rewrite chain_eq in E at 1.
  apply three in E as [(-> & -> & ->)|[(-> & -> & ->)|(-> & -> & ->)]].
  - assert (RecordID (at_ 0) ∉ closed chain) as Hn by computed. destruct (Hn Hx).
  - vm_compute in Hm. discriminate Hm.
  - apply not_elem_of_nil in Hy. destruct Hy.
Qed.

Lemma chain_lifeline : lifeline_ok chainLedger (Index_Lifeline calledIndex) chain.
Proof.
  split.
  - exact chain_filament.
  - exact chain_wf.
  - rewrite chain_eq. repeat constructor; vm_compute; congruence.
  - rewrite chain_eq. repeat constructor; vm_compute; congruence.
  - computed.
  - computed.
  - exact chain_in_order.
Qed.

Lemma chain_object :
  object_ok chainLedger (calculator called) pulse creationID (Index_Lifeline calledIndex) chain.
Proof.
  split; [exists calledIndex; split; computed|exact chain_lifeline|].
  intros ru. apply list.Forall_forall. intros rec Hrec%since_in. rewrite chain_eq in Hrec.
  repeat (apply elem_of_cons in Hrec as [->|Hrec]; [apply served_stored; computed|]).
  apply not_elem_of_nil in Hrec. destruct Hrec.
Qed.

Lemma RequestInfo_correct_witness :
  (forall newer req older, chain = newer ++ req :: older -> is_request req -> RecordID req = callID ->
   wp (length chain < fuel (calculator called))%nat
     (RequestInfo (calculator called) creationID callID pulse) ∅ (fun cs' r =>
     caches_truthful chainLedger cs' /\ r = Good (info_of chain req newer older))) /\
  (chain <> [] -> callID ∉ RecordID <$> chain ->
   wp (length chain < fuel (calculator called))%nat
     (RequestInfo (calculator called) creationID callID pulse) ∅ (fun cs' r =>
     caches_truthful chainLedger cs' /\
     r = Fail (CodedError "requestInfo not found request" CodeRequestNotFound))).
Proof.
  apply (RequestInfo_correct chainLedger (calculator called) pulse creationID callID
    (Index_Lifeline calledIndex) chain ∅); [exact chain_object|done|vm_compute; reflexivity].
Defined.

Lemma RequestInfo_OldestMutable_witness :
  Info_OldestMutable (info_of chain (at_ 0) [] [at_ 1; at_ 2]) = true <->
  OldestMutable (reverse (open_requests chain)) = Ret (Some (at_ 0)).
Proof.
  rewrite chain_eq. apply (RequestInfo_OldestMutable [] (at_ 0) [at_ 1; at_ 2]).
  - cbn [app]. rewrite <- chain_eq. exact chain_wf.
  - computed.
  - vm_compute. reflexivity.
Defined.

Lemma ResultDuplicate_correct_witness :
  let result := mkResult creationID (mkGlobal callID callID) [6] in
  let resultID := id_of (record_Wrap (Result result)) in
  wp (length chain < fuel (calculator called))%nat
    (ResultDuplicate (calculator called) creationID resultID result) ∅ (fun cs' r =>
    caches_truthful chainLedger cs' /\ r = Good (duplicate_of resultID (result_of result) [])).
Proof.
  intros result resultID. rewrite chain_eq.
  apply (ResultDuplicate_correct chainLedger (calculator called) creationID resultID result
    (Index_Lifeline calledIndex) [] (at_ 0) [at_ 1; at_ 2] ∅).
  - cbn [app]. rewrite <- chain_eq. exact chain_object.
  - done.
  - exists callRequest. computed.
  - computed.
  - vm_compute. reflexivity.
  - intros x Hx. apply not_elem_of_nil in Hx. destruct Hx.
  - computed.
Defined.
End SampleNode.
