(* ===== verification/LightReads.v ===== *)
(** * The other handlers of a light node (src/ledger/light/proc)

    The handlers that read the filament, the records and the indexes
    (send_request_info, has_pendings, get_pendings, send_filament,
    get_request, send_object, pass_state, get_code), store code (set_code) or
    fetch a missing index (ensure_index).  Those that cannot answer pass the
    message on to the node that can. *)
From S2P Require Import Prelude Pulse PulseStore Reference Jet Records Payload Filaments FilamentChain LightHandlers LightLedger.

Section Reads.
Context `{LightNode}.

(** [buf, err := rec.Marshal(); if err != nil { return errors.Wrap(err, ...) }] *)
Definition marshal (errtext : string) (rec : Material) : io Light (list Z) :=
  wrapped errtext (lift_result (Material_Marshal rec)).

Definition index_at (pulse : Z) (objectID : Local) : io Light Index :=
  r ← gets (fun st => Index_ForID (l_indexes st) pulse objectID); lift_result r.
Definition record_at (id : Local) : io Light (result Material) :=
  gets (fun st => Record_ForID (l_records st) id).

(** ** send_request_info.go *)
Definition SendRequestInfo (objectID requestID : Local) (pulse : Z) : io Light unit :=
  guard_io (Local_IsEmpty requestID) (Errorf "requestID is empty") ≫= fun _ =>
  guard_io (Local_IsEmpty objectID) (Errorf "objectID is empty") ≫= fun _ =>
  guard_io (pulse <? MinTimePulse) (Errorf "pulse is wrong") ≫= fun _ =>
  found ← wrapped "failed to get request info"
    (filaments (fun c => RequestInfo c objectID requestID pulse));
  match Info_Request found with
  | None => lift_go (Panic "nil pointer dereference")
  | Some req =>
      reqBuf ← marshal "failed to marshal request record" (Rec req);
      resBuf ← marshal_opt "failed to marshal result record" (Info_Result found);
      Reply (Payload.RequestInfo
               (Payload.mkInfo objectID requestID reqBuf resBuf (Info_OldestMutable found)))
  end.

(** ** has_pendings.go *)
Definition HasPendings (flowPulse : Z) (objectID : Local) : io Light unit :=
  idx ← index_at flowPulse objectID;
  Reply (Payload.PendingsInfo
    match EarliestOpenRequest (Index_Lifeline idx) with
    | Some earliest => earliest <? flowPulse
    | None => false
    end).

(** ** get_pendings.go *)
Definition noPendings : Payload.t := Payload.Error "no pending requests are available" CodeNoPendings.

(** The loop over the pending requests. *)
Fixpoint pendingIDs (pendings : list CompositeFilamentRecord) (count : Z) (skip : gset Local)
    (ids : list Local) : list Local :=
  match pendings with
  | [] => ids
  | pend :: rest =>
      if count <=? Z.of_nat (length ids) then ids
      else if decide (RecordID pend ∈ skip) then pendingIDs rest count skip ids
      else pendingIDs rest count skip (ids ++ [RecordID pend])
  end.

Definition GetPendings (flowPulse : Z) (objectID : Local) (count : Z) (skip : list Local) :
  io Light unit :=
  pendings ← wrapped "failed to calculate pending"
    (filaments (fun c => OpenedRequests c flowPulse objectID true));
  match pendings with
  | [] => Reply noPendings
  | _ =>
      match pendingIDs pendings count (list_to_set skip) [] with
      | [] => Reply noPendings
      | ids => Reply (Payload.IDs ids)
      end
  end.

(** ** send_filament.go *)
Definition SendFilament (objID startFrom : Local) (readUntil : Z) : io Light unit :=
  records ← wrapped "failed to fetch filament"
    (filaments (fun c => Requests c objID startFrom readUntil));
  match records with
  | [] => throw (CodedError "requests not found" CodeNotFound)
  | _ => Reply (Payload.FilamentSegment objID records)
  end.

(** The node that has what was made in [pn] for the target. *)
Definition passTarget (target : Local) (pn : Z) : result Global :=
  onHeavy ← wrap_err (IsBeyondLimit pn) "failed to calculate pulse";
  if onHeavy : bool then wrap_err Heavy "failed to calculate heavy"
  else
    jetID ← wrap_err (Fetch target pn) "failed to fetch jet";
    wrap_err (LightExecutorForJet jetID pn) "failed to calculate role".

Definition passTo (msg : Payload.t) (target : Local) (pn : Z) : io Light unit :=
  node ← lift_result (passTarget target pn); Send msg node.

(** ** get_request.go *)
Definition GetRequest (objectID requestID : Local) (pass : bool) : io Light unit :=
  found ← record_at requestID;
  match found with
  | Good rec =>
      match Unwrap (Material_Virtual rec) with
      | Some (RequestRecord _) => Reply (Payload.RequestReply requestID (Material_Virtual rec))
      | _ => throw (Errorf "unexpected request type")
      end
  | Fail e =>
      if bool_decide (e = object_ErrNotFound) then
        if pass then passTo Payload.Pass objectID (Local_Pulse requestID)
        else throw (CodedError "request not found" CodeNotFound)
      else throw (Wrap e "failed to fetch record")
  end.

(** ** get_code.go *)
Definition GetCode (codeID : Local) (pass : bool) : io Light unit :=
  found ← record_at codeID;
  match found with
  | Good rec => buf ← marshal "failed to marshal record" rec; Reply (Payload.Code buf)
  | Fail e =>
      if bool_decide (e = object_ErrNotFound) then
        if pass then passTo Payload.Pass codeID (Local_Pulse codeID)
        else throw (CodedError "code not found" CodeNotFound)
      else throw (Wrap e "failed to fetch record")
  end.

(** ** set_code.go *)
Definition SetCode (flowPulse : Z) (record : Virtual) (recordID jetID : Local) : io Light unit :=
  beginWrite flowPulse ≫= fun _ =>
  (fun st =>
     let '(m, err) := SetAtomic (l_records st) [mkMaterial record recordID emptyLocal jetID []] in
     let st' := mkLight (l_indexes st) m (l_caches st) (l_replies st) (l_sent st) in
     match err with
     | None => Ret (st', Good tt)
     | Some e => Ret (st', Fail (Wrap e "failed to store record"))
     end) ≫= fun _ : unit =>
  Reply (Payload.ID recordID).

(** ** send_object.go *)

(** The last record of the list with the identifier. *)
Definition findOpened (openReqs : list CompositeFilamentRecord) (requestID : Local) :
  option CompositeFilamentRecord :=
  foldl (fun found rec => if bool_decide (RecordID rec = requestID) then Some rec else found)
    None openReqs.

(** [errors.Wrap(err, "request isn't opened")] is nil here, since [err] is:
    the function returns no request and no error. *)
Definition ensureOldestRequest (flowPulse : Z) (objectID requestID : Local) :
  io Light (option CompositeFilamentRecord) :=
  openReqs ← wrapped "failed to fetch filament"
    (filaments (fun c => OpenedRequests c flowPulse objectID false));
  match findOpened openReqs requestID with
  | None => mret None
  | Some reqBody =>
      match as_request reqBody with
      | Some (IncomingRequest inReq) =>
          if Immutable inReq then mret None else lift_go (OldestMutable openReqs)
      | _ => mret None
      end
  end.

Definition sendState (rec : Material) : io Light unit :=
  match Unwrap (Material_Virtual rec) with
  | Some (StateRecord state) =>
      if State_ID state =? StateDeactivation
      then throw (CodedError "object is deactivated" CodeDeactivated)
      else buf ← marshal "failed to marshal state record" rec; Reply (Payload.State buf)
  | _ => throw (Errorf "invalid object record")
  end.

Definition SendObject (flowPulse : Z) (objectID : Local) (requestID : option Local) : io Light unit :=
  idx ← wrapped "can't get index from storage" (index_at flowPulse objectID);
  let lifeline := Index_Lifeline idx in
  if StateID lifeline =? StateDeactivation
  then throw (CodedError "object is deactivated" CodeDeactivated)
  else match LatestState lifeline with
  | None => throw (CodedError "object isn't activated" CodeNonActivated)
  | Some stateID =>
      earliest ← match requestID with
        | None => mret None
        | Some id =>
            oldest ← wrapped "failed to check request status"
              (ensureOldestRequest flowPulse objectID id);
            mret match oldest with
                 | Some o => if bool_decide (RecordID o = id) then None else Some (RecordID o)
                 | None => None
                 end
        end;
      buf ← wrapped "failed to marshal index" (lift_result (Lifeline_Marshal lifeline));
      Reply (Payload.Index buf earliest) ≫= fun _ =>
      found ← record_at stateID;
      match found with
      | Good rec => sendState rec
      | Fail e =>
          if bool_decide (e = object_ErrNotFound)
          then passTo (Payload.PassState stateID) objectID (Local_Pulse stateID)
          else throw (Wrap e "failed to fetch record")
      end
  end.

(** ** pass_state.go: the error goes to the origin as well *)
Definition PassState_sendError (text : string) (code : Z) : io Light unit :=
  Reply (Payload.Error text code) ≫= fun _ => throw (CodedError text code).

Definition PassState (stateID : Local) : io Light unit :=
  found ← record_at stateID;
  match found with
  | Good rec =>
      match Unwrap (Material_Virtual rec) with
      | Some (StateRecord state) =>
          if State_ID state =? StateDeactivation
          then PassState_sendError "object is deactivated" CodeDeactivated
          else buf ← marshal "failed to marshal state record" rec; Reply (Payload.State buf)
      | _ => throw (Errorf "invalid object record")
      end
  | Fail e =>
      if bool_decide (e = object_ErrNotFound)
      then PassState_sendError "state not found" CodeNotFound
      else throw (Wrap e "failed to fetch object state")
  end.

(** ** ensure_index.go *)
Definition saveIndexIfNone (pn : Z) (index : Index) : io Light unit := fun st =>
  match Index_SetIfNone (l_indexes st) pn index with
  | Ret i => Ret (mkLight i (l_records st) (l_caches st) (l_replies st) (l_sent st), Good tt)
  | Panic msg => Panic msg
  end.

Definition EnsureIndex (object : Local) (pulse : Z) : io Light unit :=
  found ← gets (fun st => Index_ForID (l_indexes st) pulse object);
  match found with
  | Good _ => mret tt
  | Fail e =>
      if negb (bool_decide (e = ErrIndexNotFound))
      then throw (Wrap e "EnsureIndex: failed to fetch index")
      else
        heavy ← wrapped "EnsureIndex: failed to calculate heavy" (lift_result Heavy);
        match SendTarget (Payload.GetIndex object) heavy with
        | None => throw (Errorf "EnsureIndex: no reply")
        | Some (Fail e) => throw (Wrap e "EnsureIndex: failed to unmarshal reply")
        | Some (Good (Payload.Index buf _)) =>
            idx ← wrapped "EnsureIndex: failed to decode index" (lift_result (Lifeline_Unmarshal buf));
            match writer_Begin pulse with
            | Fail e => if bool_decide (e = ErrWriteClosed) then throw ErrCancelled
                        else throw (Wrap e "failed to write to db")
            | Good _ => saveIndexIfNone pulse (mkIndex object idx pulse [])
            end
        | Some (Good (Payload.Error _ code)) =>
            throw (CodedError "failed to fetch index from heavy: " code)
        | Some (Good _) => throw (Errorf "EnsureIndex: unexpected reply")
        end
  end.
End Reads.

(** ** What the answers hold *)

(** A call of the calculator reads, and sends nothing. *)
Definition silent (F : gmap Local Composite) (st st' : Light) : Prop :=
  reads F st st' /\ l_replies st' = l_replies st /\ l_sent st' = l_sent st.

Lemma wp_calculator `{LightNode} {A} ok F st (op : FilamentCalculator -> io cacheStore A) Q :
  wp ok (op (calculator st)) (l_caches st) (fun cs r => caches_truthful (ledger F) cs /\ Q r) ->
  wp ok (filaments op) st (fun st' r => silent F st st' /\ Q r).
Proof.
  unfold wp, filaments. destruct (op _ _) as [[cs r]|]; [|done]. intros [Hc HQ]. by split_and!.
Qed.

(** The loop of [GetPendings]: the first [count] identifiers not skipped. *)
Lemma pendingIDs_take pendings count skip ids :
  pendingIDs pendings count skip ids =
  ids ++ take (Z.to_nat count - length ids) (filter (fun id => id ∉ skip) (RecordID <$> pendings)).
Proof.
  revert ids. induction pendings as [|pend rest IH]; intros ids; cbn [pendingIDs fmap list_fmap].
  { cbn. by rewrite take_nil, app_nil_r. }
  destruct (Z.leb_spec count (Z.of_nat (length ids))).
  { replace (Z.to_nat count - length ids)%nat with O by lia. by rewrite take_0, app_nil_r. }
  rewrite filter_cons. destruct (decide (RecordID pend ∈ skip)).
  - rewrite decide_False by tauto. apply IH.
  - rewrite decide_True by done. rewrite IH, length_app. cbn [length].
    replace (Z.to_nat count - length ids)%nat with (S (Z.to_nat count - (length ids + 1)))%nat by lia.
    cbn [take]. by rewrite <- (assoc_L (++)).
Qed.

Definition pendings_answer (ids : list Local) : Payload.t :=
  match ids with [] => noPendings | _ => Payload.IDs ids end.

(** [GetPendings] answers once, with the first [count] requests in time
    order that are pending and not skipped: open incoming requests, and open
    detached outgoing ones whose reason has a result.  With none left the
    answer is the error that says so. *)
Theorem GetPendings_correct `{LightNode} p F chains st obj idx count skip :
  ledger_inv p F chains st -> Index_ForID (l_indexes st) p obj = Good idx ->
  exists l, chains !! obj = Some l /\ wf_filament l /\
    wp (length l < calculator_fuel)%nat (GetPendings p obj count skip) st (fun st' r =>
      reads F st st' /\ r = Good tt /\
      l_replies st' = l_replies st ++ [pendings_answer (take (Z.to_nat count)
        (filter (fun id => id ∉ skip)
           (RecordID <$> reverse (filter (shown true (closed l)) l))))]).
Proof.
  intros Hi E. destruct (inv_object _ _ _ _ _ _ Hi E) as (_ & l & Hl & Hob & _). exists l.
  split; [done|]. split; [apply Hob|]. unfold GetPendings. apply wp_bind, wp_wrapped.
  eapply wp_mono; [eapply (wp_calculator _ F)|].
  { eapply OpenedRequests_wp; [exact Hob|apply Hi|done]. }
  intros s1 r [(Hr1 & Hrep & _) ->]. cbn [wrap_err].
  set (pend := reverse (filter (shown true (closed l)) l)). rewrite <- Hrep.
  set (ids := take _ _).
  assert (wp (length l < calculator_fuel)%nat (Reply (pendings_answer ids)) s1 (fun st' r =>
      reads F st st' /\ r = Good tt /\ l_replies st' = l_replies s1 ++ [pendings_answer ids])) as Hrep'.
  { by split_and!. }
  destruct pend as [|x pend'] eqn:Ep.
  { replace ids with ([] : list Local) in * by (unfold ids; cbn; by rewrite take_nil). exact Hrep'. }
  rewrite pendingIDs_take, Nat.sub_0_r, app_nil_l.
  rewrite (filter_ext_in _ (fun id => id ∉ skip)) by (intros; by rewrite elem_of_list_to_set).
  fold ids. by destruct ids.
Qed.

(** ** Segments for other nodes *)

(** What is stored of a chain is what the ledger says. *)
Definition stored_true (recs : RecordMemory) (rec : Composite) : Prop :=
  (forall m, Record_ForID recs (MetaID rec) = Good m -> m = Meta rec) /\
  (forall m, Record_ForID recs (RecordID rec) = Good m -> m = Rec rec).

Definition stored (recs : RecordMemory) (rec : Composite) : Prop :=
  Record_ForID recs (MetaID rec) = Good (Meta rec) /\
  Record_ForID recs (RecordID rec) = Good (Rec rec).

Lemma Record_ForID_not_found recs id e : Record_ForID recs id = Fail e -> e = object_ErrNotFound.
Proof. unfold Record_ForID. destruct (_ !! _); [done|]. by intros [= <-]. Qed.

Lemma filament_head F m l : filament F (Some m) l ->
  exists rec older, l = rec :: older /\ MetaID rec = m /\ filament F (Some (MetaID rec)) (rec :: older).
Proof.
  inversion 1 as [|rec f older HF Hf Hid Hl]; subst. exists rec, older. split_and!; [done..|].
  by econstructor.
Qed.

(** One step of the local iteration on a chain. *)
Lemma iterator_Prev_chain F c rec f l ch :
  truthful F ch -> F (MetaID rec) = Some rec -> filament_of (Meta rec) = Some f ->
  Filament_RecordID f = RecordID rec -> filament F (PreviousRecord f) l ->
  stored_true (records c) rec ->
  (exists ch', truthful F ch' /\
     iterator_Prev c (mkIterator (Some (MetaID rec)) ch) = Ret (mkIterator (PreviousRecord f) ch', Good rec)) \/
  (~ stored (records c) rec /\
     iterator_Prev c (mkIterator (Some (MetaID rec)) ch) =
     Ret (mkIterator (Some (MetaID rec)) ch, Fail object_ErrNotFound)).
Proof.
  intros Hch HF Hf Hid Hl [Hm Hr]. destruct (ch !! MetaID rec) as [rec'|] eqn:Ec.
  { left. exists ch. split; [done|]. assert (rec' = rec) as -> by (apply Hch in Ec; congruence).
    by apply iterator_Prev_cached. }
  unfold iterator_Prev. cbn [currentID cache]. rewrite Ec. unfold stored.
  destruct (Record_ForID (records c) (MetaID rec)) as [m|e] eqn:E1.
  2: { apply Record_ForID_not_found in E1 as ->. right. split; [by intros [? _]|done]. }
  rewrite (Hm m eq_refl), Hf, Hid.
  destruct (Record_ForID (records c) (RecordID rec)) as [m'|e] eqn:E2.
  2: { apply Record_ForID_not_found in E2 as ->. right. split; [by intros [_ ?]|done]. }
  rewrite (Hr m' eq_refl). left. eexists. split; [|destruct rec; reflexivity].
  intros id r. destruct (decide (MetaID rec = id)) as [<-|Hne].
  - rewrite lookup_insert_eq. intros [= <-]. rewrite HF. by destruct rec.
  - rewrite lookup_insert_ne by done. apply Hch.
Qed.

(** The loop of [Requests] returns an initial part of the chain, as long as
    the records are in the storage. *)
Lemma Requests_loop_chain F c ru l n seg i :
  filament F (currentID i) l -> truthful F (cache i) -> Forall (stored_true (records c)) l ->
  wp (length l < n)%nat (Requests_loop c ru n seg) i (fun i' r =>
    truthful F (cache i') /\ exists k, r = Good (seg ++ take k (since ru l)) /\
      forall k', Forall (stored (records c)) (take k' (since ru l)) -> take k' (since ru l) `prefix_of` take k (since ru l)).
Proof.
  intros Hl. remember (currentID i) as from eqn:Ei. revert n seg i Ei.
  induction Hl as [|rec f l HF Hf Hid Hl IH]; intros n seg [cur ch] Ei Hch Hs;
    (destruct n as [|n]; [unfold wp; cbn; lia|]); cbn in Ei; subst cur; unfold wp; cbn [Requests_loop].
  { unfold HasPrev. cbn. split; [done|]. exists O. rewrite app_nil_r. split; [done|].
    intros k' _. by rewrite take_nil. }
  unfold HasPrev. cbn [currentID]. apply list.Forall_cons in Hs as [Hr Hs].
  destruct (iterator_Prev_chain F c rec f l ch Hch HF Hf Hid Hl Hr)
    as [(ch' & Hch' & ->)|[Hn ->]].
  2: { rewrite bool_decide_true by done. split; [done|]. exists O. rewrite app_nil_r.
       split; [done|]. intros [|k'] Hk; [done|]. cbn [since] in *.
       destruct (_ >=? ru); [|done]. cbn [take] in Hk. by apply list.Forall_cons in Hk as [? _]. }
  cbn [since]. rewrite Z.geb_leb.
  destruct (Z.ltb_spec (Local_Pulse (MetaID rec)) ru) as [Hlt|Hge].
  { rewrite (proj2 (Z.leb_gt _ _)) by done. split; [done|]. exists O. rewrite app_nil_r.
    split; [done|]. intros k' _. by rewrite take_nil. }
  rewrite (proj2 (Z.leb_le _ _)) by done.
  specialize (IH n (seg ++ [rec]) (mkIterator (PreviousRecord f) ch') eq_refl Hch' Hs).
  unfold wp in IH. rewrite bool_decide_true by done.
  destruct (Requests_loop _ _ _ _ _) as [[i' r]|]; [|cbn [length]; lia].
  destruct IH as (Hi' & k & -> & Hk). split; [done|]. exists (S k).
  split; [by rewrite <- (assoc_L (++))|]. intros [|k'] Hst; [apply prefix_nil|].
  cbn [take] in *. apply list.Forall_cons in Hst as [_ Hst]. by apply prefix_cons, Hk.
Qed.

Lemma inv_stored_true `{LightNode} p F chains st rec :
  ledger_inv p F chains st -> F !! MetaID rec = Some rec -> stored_true (l_records st) rec.
Proof.
  intros Hi HF. destruct (rk_true _ _ _ (li_records _ _ _ _ Hi) _ _ HF) as [H1 H2].
  unfold stored_true, Record_ForID. split.
  - destruct (recsStor (l_records st) !! MetaID rec) as [x|]; [|done].
    intros m [= <-]. by apply H1.
  - destruct (recsStor (l_records st) !! RecordID rec) as [x|]; [|done].
    intros m [= <-]. by apply H2.
Qed.

(** [SendFilament] gives another node what its iteration needs: records of
    the ledger, in chain order from the asked one down to the asked pulse, all
    up to the first one this node does not have; so the answer to a request
    for a stored record holds it, and with none to give the error says so. *)
Theorem SendFilament_serves `{LightNode} p F chains st obj newer rec older idx ru :
  ledger_inv p F chains st -> chains !! obj = Some (newer ++ rec :: older) ->
  filament (ledger F) (Some (MetaID rec)) (rec :: older) ->
  Index_ForID (l_indexes st) (Local_Pulse (MetaID rec)) obj = Good idx ->
  ru <= meta_pulse rec ->
  wp (S (length older) < calculator_fuel)%nat (SendFilament obj (MetaID rec) ru) st (fun st' r =>
    reads F st st' /\ exists segment,
      segment `prefix_of` since ru (rec :: older) /\
      (forall x, x ∈ segment -> F !! MetaID x = Some x) /\
      (forall n, Forall (stored (l_records st)) (take n (since ru (rec :: older))) ->
                 take n (since ru (rec :: older)) `prefix_of` segment) /\
      (stored (l_records st) rec -> rec ∈ segment) /\
      if bool_decide (segment = [])
      then r = Fail (CodedError "requests not found" CodeNotFound) /\ l_replies st' = l_replies st
      else r = Good tt /\ l_replies st' = l_replies st ++ [Payload.FilamentSegment obj segment]).
Proof.
  intros Hi Hl Hf E Hru. unfold SendFilament. apply wp_bind, wp_wrapped.
  assert (forall x, x ∈ rec :: older -> F !! MetaID x = Some x) as HF.
  { intros x. by apply (filament_in (ledger F) (Some (MetaID rec))). }
  eapply wp_mono; [eapply (wp_calculator _ F) with (Q := fun r => exists k,
    r = Good (take k (since ru (rec :: older))) /\
    forall k', Forall (stored (l_records st)) (take k' (since ru (rec :: older))) ->
      take k' (since ru (rec :: older)) `prefix_of` take k (since ru (rec :: older)))|].
  - unfold Requests. apply wp_bind. unfold wp at 1, lift_result. cbn [indexes calculator]. rewrite E.
    cbn [wrap_err]. unfold with_iterator.
    pose proof (Requests_loop_chain (ledger F) (calculator st) ru (rec :: older) calculator_fuel []
      (mkIterator (Some (MetaID rec)) (cacheStore_Get (l_caches st) obj)) Hf) as Hw.
    unfold wp in *. cbn [fuel calculator]. destruct (Requests_loop _ _ _ _ _) as [[i' r]|].
    + destruct Hw as (Hi' & k & -> & Hk).
      * apply cacheStore_Get_truthful, Hi.
      * apply list.Forall_forall. intros x Hx. eapply inv_stored_true; [done|by apply HF].
      * split; [apply with_cache_truthful; [apply Hi|done]|]. by exists k.
    + intros Hn. apply Hw; [apply cacheStore_Get_truthful, Hi| |exact Hn].
      apply list.Forall_forall. intros x Hx. eapply inv_stored_true; [done|by apply HF].
  - intros s1 r [(Hr1 & Hrep & _) (k & -> & Hk)]. cbn [wrap_err].
    set (segment := take k _) in *.
    assert (segment `prefix_of` since ru (rec :: older)) as Hp by apply prefix_take.
    assert (forall x, x ∈ segment -> F !! MetaID x = Some x) as Hseg.
    { intros x Hx%subseteq_take%since_in. by apply HF. }
    assert (stored (l_records st) rec -> rec ∈ segment) as Hrec.
    { intros Hs. specialize (Hk 1%nat). cbn [since] in Hk. fold (meta_pulse rec) in Hk.
      rewrite (proj2 (Z.geb_le _ _)) in Hk by done. cbn [take] in Hk.
      destruct Hk as [z Hz]; [by constructor|]. fold segment in Hz. rewrite Hz. by left. }
    destruct segment as [|x xs] eqn:Es; split; try exact Hr1.
    + exists []. rewrite bool_decide_true by done. by split_and!.
    + exists (x :: xs). rewrite bool_decide_false by done. split_and!; try done. cbn. by rewrite Hrep.
Qed.

(** ** Reading handlers keep the ledger *)

Create HintDb light.

Section Keep.
Context `{LightNode} (p : Z) (Hp : 0 < p <= MaxTimePulse).
Context (F : gmap Local Composite) (chains : gmap Local (list Composite)).

(** Nothing but the caches and the messages changes, and the caches stay true. *)
Definition keeps {A} (m : io Light A) : Prop :=
  forall s, ledger_inv p F chains s -> rd F m (fun _ => True) s.

Lemma keeps_bind {A B} (m : io Light A) (f : A -> io Light B) :
  keeps m -> (forall a, keeps (f a)) -> keeps (m ≫= f).
Proof.
  intros Hm Hf s Hi. eapply rd_bind; [by apply Hm|]. intros s' a Hr _. apply Hf. by eapply inv_reads.
Qed.
Lemma keeps_wrapped {A} msg (m : io Light A) : keeps m -> keeps (wrapped msg m).
Proof. intros Hm s Hi. by apply rd_wrapped, Hm. Qed.
Lemma keeps_pure {A} (m : io Light A) :
  (forall s, match m s with Ret (s', _) => s' = s | Panic _ => True end) -> keeps m.
Proof.
  intros Hm s Hi. apply (rd_pure p Hp F chains); [done|]. specialize (Hm s).
  destruct (m s) as [[]|]; by split.
Qed.
Lemma keeps_mret {A} (a : A) : keeps (mret a).
Proof. by apply keeps_pure. Qed.
Lemma keeps_throw {A} e : keeps (throw (A := A) e).
Proof. by apply keeps_pure. Qed.
Lemma keeps_lift_result {A} (r : result A) : keeps (lift_result r).
Proof. by apply keeps_pure. Qed.
Lemma keeps_lift_go {A} (m : go A) : keeps (lift_go m).
Proof. apply keeps_pure. intros s. unfold lift_go. by destruct m. Qed.
Lemma keeps_guard b e : keeps (guard_io b e).
Proof. apply keeps_pure. by destruct b. Qed.
Lemma keeps_gets {A} (f : Light -> A) : keeps (gets f).
Proof. by apply keeps_pure. Qed.
Lemma keeps_marshal_opt msg rec : keeps (marshal_opt msg rec).
Proof. intros s Hi. by apply (rd_marshal p Hp F chains). Qed.
Lemma keeps_Reply msg : keeps (Reply msg).
Proof. intros s Hi. split; [|done]. split_and!; [done..|apply Hi]. Qed.
Lemma keeps_Send msg node : keeps (Send msg node).
Proof. intros s Hi. split; [|done]. split_and!; [done..|apply Hi]. Qed.

Lemma keeps_RequestInfo obj id pn : keeps (filaments (fun c => RequestInfo c obj id pn)).
Proof. intros s. apply rd_RequestInfo. Qed.
Lemma keeps_OpenedRequests obj po : keeps (filaments (fun c => OpenedRequests c p obj po)).
Proof. intros s Hi. eapply rd_any. by apply (rd_OpenedRequests p F chains). Qed.
Lemma keeps_Requests obj from ru : keeps (filaments (fun c => Requests c obj from ru)).
Proof.
  intros s Hi. apply (wp_filaments F). unfold Requests. apply wp_bind. unfold wp at 1, lift_result.
  destruct (wrap_err _ _); [|split; [apply Hi|done]]. unfold wp, with_iterator.
  pose proof (cacheStore_Get_truthful (ledger F) (l_caches s) obj (li_caches _ _ _ _ Hi)) as Hc.
  assert (forall ch, truthful (ledger F) ch ->
    caches_truthful (ledger F) (<[obj := ch]> (l_caches s))) as Hw.
  { intros ch. apply with_cache_truthful, Hi. }
  generalize (@nil CompositeFilamentRecord). cbn [fuel calculator].
  set (i := mkIterator _ _) in *. change (cacheStore_Get _ _) with (cache i) in Hc. clearbody i.
  revert i Hc. induction calculator_fuel as [|n IH]; intros i Hc seg; cbn [Requests_loop]; [tauto|].
  destruct (HasPrev i); [|by auto].
  destruct (iterator_Prev (calculator s) i) as [[i1 r]|] eqn:E; [|tauto].
  eapply iterator_Prev_safe in E; [|by eapply inv_honest|done].
  destruct r as [rec|e]; [destruct (_ <? ru); [by auto|by apply IH]|destruct (bool_decide _); by auto].
Qed.

#[local] Hint Resolve keeps_mret keeps_throw keeps_lift_result keeps_lift_go keeps_guard keeps_gets
  keeps_marshal_opt keeps_Reply keeps_Send keeps_RequestInfo keeps_OpenedRequests keeps_Requests : light.

Ltac keep :=
  repeat lazymatch goal with
  | |- keeps (mbind _ _) => apply keeps_bind; [|intros ?]
  | |- keeps (wrapped _ _) => apply keeps_wrapped
  | |- keeps (match ?x with _ => _ end) => destruct x
  | |- keeps (let x := ?v in _) => cbv zeta
  | |- _ => solve [eauto with light]
  end.

Lemma keeps_passTo msg target pn : keeps (passTo msg target pn).
Proof. unfold passTo. keep. Qed.
Lemma keeps_marshal text rec : keeps (marshal text rec).
Proof. unfold marshal. keep. Qed.
#[local] Hint Resolve keeps_passTo keeps_marshal : light.

(** The messages that read. *)
Inductive query : Type :=
  | QRequestInfo (objectID requestID : Local) (pulse : Z)
  | QHasPendings (objectID : Local)
  | QPendings (objectID : Local) (count : Z) (skip : list Local)
  | QFilament (objID startFrom : Local) (readUntil : Z)
  | QRequest (objectID requestID : Local) (pass : bool)
  | QCode (codeID : Local) (pass : bool)
  | QObject (objectID : Local) (requestID : option Local)
  | QPassState (stateID : Local).

Definition answer (q : query) : io Light unit :=
  match q with
  | QRequestInfo objectID requestID pulse => SendRequestInfo objectID requestID pulse
  | QHasPendings objectID => HasPendings p objectID
  | QPendings objectID count skip => GetPendings p objectID count skip
  | QFilament objID startFrom readUntil => SendFilament objID startFrom readUntil
  | QRequest objectID requestID pass => GetRequest objectID requestID pass
  | QCode codeID pass => GetCode codeID pass
  | QObject objectID requestID => SendObject p objectID requestID
  | QPassState stateID => PassState stateID
  end.

Lemma keeps_answer q : keeps (answer q).
Proof.
  destruct q; cbn [answer]; unfold SendRequestInfo, HasPendings, GetPendings, SendFilament,
    GetRequest, GetCode, SendObject, PassState, PassState_sendError, sendState, ensureOldestRequest,
    index_at, record_at; keep.
Qed.

(** no message that reads changes an index or a record, whatever it asks
    for and whichever way it ends; the caches stay true, so the node still
    holds together. *)
Theorem answer_keeps_ledger st q st' r :
  ledger_inv p F chains st -> answer q st = Ret (st', r) ->
  l_indexes st' = l_indexes st /\ l_records st' = l_records st /\ ledger_inv p F chains st'.
Proof.
  intros Hi E. pose proof (keeps_answer q st Hi) as Hk. unfold rd, wp in Hk. rewrite E in Hk.
  destruct Hk as [Hr _]. split; [apply Hr|]. split; [apply Hr|]. by eapply inv_reads.
Qed.
End Keep.

(** ** The check of a read under a request *)

Lemma findOpened_None l id : id ∉ RecordID <$> l -> findOpened l id = None.
Proof.
  unfold findOpened. generalize (@None CompositeFilamentRecord).
  induction l as [|x l IH]; intros o Hid; [done|]. cbn in Hid |- *.
  apply not_elem_of_cons in Hid as [Hx Hid]. rewrite bool_decide_false by done. by apply IH.
Qed.

Lemma findOpened_Some l x :
  NoDup (RecordID <$> l) -> x ∈ l -> findOpened l (RecordID x) = Some x.
Proof.
  unfold findOpened. generalize (@None CompositeFilamentRecord).
  induction l as [|y l IH]; intros o Hd Hx; [by apply not_elem_of_nil in Hx|].
  cbn in Hd |- *. apply list.NoDup_cons in Hd as [Hy Hd].
  apply elem_of_cons in Hx as [<-|Hx].
  - rewrite bool_decide_true by done.
    assert (forall o, foldl (fun found rec => if bool_decide (RecordID rec = RecordID x)
      then Some rec else found) o l = o) as Hk; [|apply Hk].
    clear -Hy. induction l as [|z l IH]; intros o; [done|]. cbn in Hy |- *.
    apply not_elem_of_cons in Hy as [Hz Hy]. rewrite bool_decide_false by done. by apply IH.
  - by apply IH.
Qed.

Definition oldest_of (l : list Composite) (requestID : Local) : option Composite :=
  match findOpened (reverse (open_requests l)) requestID with
  | Some req =>
      if isMutableRequest req
      then snd <$> list_find (fun rec => isMutableRequest rec = true) (reverse (open_requests l))
      else None
  | None => None
  end.

(** the check that a state is read under the oldest open mutable request
    names that request when the asked one is open and mutable.  For an
    immutable request it names none; and it never fails, not even for a
    request that is not open, although the code means to refuse it. *)
Theorem ensureOldestRequest_correct `{LightNode} p F chains st obj idx requestID :
  ledger_inv p F chains st -> Index_ForID (l_indexes st) p obj = Good idx ->
  exists l, chains !! obj = Some l /\ wf_filament l /\
    (requestID ∉ RecordID <$> open_requests l -> oldest_of l requestID = None) /\
    wp (length l < calculator_fuel)%nat (ensureOldestRequest p obj requestID) st (fun st' r =>
      reads F st st' /\ r = Good (oldest_of l requestID)).
Proof.
  intros Hi E. destruct (inv_object _ _ _ _ _ _ Hi E) as (_ & l & Hl & Hob & _). exists l.
  split; [done|]. split; [apply Hob|]. split.
  { intros Hn. unfold oldest_of. rewrite findOpened_None; [done|]. by rewrite fmap_reverse, elem_of_reverse. }
  unfold ensureOldestRequest. apply wp_bind, wp_wrapped. eapply wp_mono; [eapply (wp_calculator _ F)|].
  { eapply OpenedRequests_wp; [exact Hob|apply Hi|done]. }
  intros s1 r [(Hr1 & _) ->]. cbn [wrap_err]. rewrite shown_false. fold (open_requests l).
  unfold oldest_of. destruct (findOpened _ requestID) as [req|]; [|by split].
  unfold isMutableRequest at 1. destruct (as_request req) as [[q|q]|]; [|by split..].
  destruct (Immutable q); [by split|]. cbn [negb].
  unfold wp, lift_go. rewrite OldestMutable_find by apply open_all_requests. by split.
Qed.

(** ** The readings at work *)
Module SampleReads.
Import SampleNode.

Lemma called_together : holds_together pulse called.
Proof.
  apply (reach_invariant (light_step pulse) (holds_together pulse) emptyNode called).
  - exact emptyNode_together.
  - exact (light_step_inv pulse pulse_range sample_kinds).
  - exact called_reached.
Qed.

Lemma calledIndex_found : Index_ForID (l_indexes called) pulse creationID = Good calledIndex.
Proof. vm_compute. reflexivity. Qed.

Lemma GetPendings_correct_witness : exists F chains, ledger_inv pulse F chains called /\
  exists l, chains !! creationID = Some l /\ wf_filament l /\
    wp (length l < calculator_fuel)%nat (GetPendings pulse creationID 5 []) called (fun st' r =>
      reads F called st' /\ r = Good tt /\
      l_replies st' = l_replies called ++ [pendings_answer (take (Z.to_nat 5)
        (filter (fun id => id ∉ []) (RecordID <$> reverse (filter (shown true (closed l)) l))))]).
Proof.
  destruct called_together as (F & chains & Hi). exists F, chains. split; [exact Hi|].
  apply (GetPendings_correct pulse F chains called creationID calledIndex 5 []);
    [exact Hi|exact calledIndex_found].
Defined.

(** The call is pending. *)
Example pendings_of_called :
  match GetPendings pulse creationID 5 [] called with
  | Ret (st', r) => r = Good tt /\ last (l_replies st') = Some (Payload.IDs [callID])
  | Panic _ => False
  end.
Proof. vm_compute. split; reflexivity. Qed.

Lemma answer_keeps_ledger_witness : exists F chains st',
  ledger_inv pulse F chains called /\
  l_indexes st' = l_indexes called /\ l_records st' = l_records called /\
  ledger_inv pulse F chains st'.
Proof.
  destruct called_together as (F & chains & Hi). exists F, chains.
  exists (state_of (answer pulse (QPendings creationID 5 []) called)). split; [exact Hi|].
  apply (answer_keeps_ledger pulse pulse_range F chains called (QPendings creationID 5 []) _ (Good tt));
    [exact Hi|vm_compute; reflexivity].
Defined.

Lemma ensureOldestRequest_correct_witness : exists F chains, ledger_inv pulse F chains called /\
  exists l, chains !! creationID = Some l /\ wf_filament l /\
    (emptyLocal ∉ RecordID <$> open_requests l -> oldest_of l emptyLocal = None) /\
    wp (length l < calculator_fuel)%nat (ensureOldestRequest pulse creationID emptyLocal) called
      (fun st' r => reads F called st' /\ r = Good (oldest_of l emptyLocal)).
Proof.
  destruct called_together as (F & chains & Hi). exists F, chains. split; [exact Hi|].
  apply (ensureOldestRequest_correct pulse F chains called creationID calledIndex emptyLocal);
    [exact Hi|exact calledIndex_found].
Defined.

(** The chain of the called object has a newest record. *)
Lemma called_chain : exists F chains rec older, ledger_inv pulse F chains called /\
  MetaID rec = latest /\ chains !! creationID = Some ([] ++ rec :: older) /\
  filament (ledger F) (Some (MetaID rec)) (rec :: older).
Proof.
  destruct called_together as (F & chains & Hi). exists F, chains.
  destruct (inv_object _ _ _ _ _ _ Hi calledIndex_found) as (_ & l & Hl & Hob & _).
  pose proof (lo_chain _ _ _ (ob_lifeline _ _ _ _ _ _ Hob)) as Hc.
  assert (LatestRequest (Index_Lifeline calledIndex) = Some latest) as El
    by (vm_compute; reflexivity).
  rewrite El in Hc. apply filament_head in Hc as (rec & older & -> & Hm & Hc).
  exists rec, older. split; [exact Hi|]. split; [exact Hm|]. split; [exact Hl|exact Hc].
Qed.

Lemma SendFilament_serves_witness : exists F chains rec older,
  ledger_inv pulse F chains called /\ MetaID rec = latest /\
  wp (S (length older) < calculator_fuel)%nat (SendFilament creationID (MetaID rec) 1) called
    (fun st' r => reads F called st' /\ exists segment,
      segment `prefix_of` since 1 (rec :: older) /\
      (forall x, x ∈ segment -> F !! MetaID x = Some x) /\
      (forall n, Forall (stored (l_records called)) (take n (since 1 (rec :: older))) ->
                 take n (since 1 (rec :: older)) `prefix_of` segment) /\
      (stored (l_records called) rec -> rec ∈ segment) /\
      if bool_decide (segment = [])
      then r = Fail (CodedError "requests not found" CodeNotFound) /\ l_replies st' = l_replies called
      else r = Good tt /\
           l_replies st' = l_replies called ++ [Payload.FilamentSegment creationID segment]).
Proof.
  destruct called_chain as (F & chains & rec & older & Hi & Hm & Hl & Hf).
  exists F, chains, rec, older. split; [exact Hi|]. split; [exact Hm|].
  apply (SendFilament_serves pulse F chains called creationID [] rec older calledIndex 1);
    [exact Hi|exact Hl|exact Hf| |].
  - rewrite Hm. vm_compute. reflexivity.
  - unfold meta_pulse. rewrite Hm. vm_compute. discriminate.
Defined.
End SampleReads.
