(* ===== verification/JetSplitter.v ===== *)
(** * Jet splitting on the light node
    (src/ledger/light/executor/jet_splitter.go, src/ledger/drop/memory.go)

    At the end of a pulse the splitter seals each of the node's jets with a
    drop, decides which jets split, and prepares the jet tree of the next
    pulse.  It works on the jet store of Jet.v, on the drop storage, and on
    any pulse storage; the record storage is an interface of which it uses
    the number of records of a jet in a pulse. *)
From S2P Require Import Prelude Pulse PulseStore Reference Jet.

(** ** drop/memory.go *)
Record Drop : Type := mkDrop {
  Drop_Pulse : Z;
  Drop_JetID : Local;
  SplitThresholdExceeded : Z;
  Drop_Split : bool;
}.
Abbreviation dropStorageMemory := (gmap (Z * Local) Drop).

Definition drop_ErrNotFound : error := Errorf "value not found".
Definition drop_ErrOverride : error := Errorf "records override is forbidden".

Definition Drop_ForPulse (m : dropStorageMemory) (jetID : Local) (pulse : Z) : result Drop :=
  match m !! (pulse, jetID) with Some d => Good d | None => Fail drop_ErrNotFound end.
Definition Drop_Set (m : dropStorageMemory) (d : Drop) : dropStorageMemory * option error :=
  let key := (Drop_Pulse d, Drop_JetID d) in
  match m !! key with
  | Some _ => (m, Some drop_ErrOverride)
  | None => (<[key := d]> m, None)
  end.
Definition Drop_DeleteForPN (m : dropStorageMemory) (pulse : Z) : dropStorageMemory :=
  filter (fun kv => kv.1.1 <> pulse) m.

(** ** jet_splitter.go *)
Record JetSplit : Type := mkJetSplit {
  ThresholdRecordsCount : Z;
  ThresholdOverflowCount : Z;
  DepthLimit : Z;
}.

Section Splitter.
Context `{LawfulStorage St}.
Context (cfg : JetSplit) (pulses : St) (recordsCount : Local -> Z -> Z).

Definition getDropThreshold (drops : dropStorageMemory) (jetID : Local) (pn : Z) : go Z :=
  match Drop_ForPulse drops jetID pn with
  | Good block => Ret (SplitThresholdExceeded block)
  | Fail e => if decide (e = drop_ErrNotFound) then Ret 0 else Panic "failed to get drop"
  end.

Definition getPreviousDropThreshold (drops : dropStorageMemory) (jetID : Local) (pn : Z) : go Z :=
  r ← Backwards pulses pn 1;
  match r with
  | Good prevPulse => getDropThreshold drops jetID (num prevPulse)
  | Fail e => if decide (e = ErrNotFound) then Ret 0 else Panic "failed to fetch previous pulse"
  end.

Definition createDrop (drops : dropStorageMemory) (jetID : Local) (pn : Z) : go Drop :=
  let count := recordsCount jetID pn in
  depth ← Depth jetID;
  if DepthLimit cfg <=? depth then Ret (mkDrop pn jetID 0 false)
  else
    threshold ← getPreviousDropThreshold drops jetID pn;
    let threshold := if ThresholdOverflowCount cfg <? threshold then 0 else threshold in
    let exceeded := if ThresholdRecordsCount cfg <=? count then threshold + 1 else 0 in
    Ret (mkDrop pn jetID exceeded (ThresholdOverflowCount cfg <? exceeded)).

(** The drop of a jet in the loop of [Do]: created, or fetched. *)
Definition endedDrop (drops : dropStorageMemory) (createDrops : bool) (jetID : Local) (endedPulse : Z)
    : go (dropStorageMemory * result Drop) :=
  if createDrops then
    d ← createDrop drops jetID endedPulse;
    match Drop_Set drops d with
    | (drops, Some e) => Ret (drops, Fail (Wrap e "failed to create drop"))
    | (drops, None) => Ret (drops, Good d)
    end
  else
    Ret (drops, wrap_err (Drop_ForPulse drops jetID endedPulse) "failed to fetch drop for split").

Fixpoint Do_loop (jetModifier : Store) (drops : dropStorageMemory) (createDrops : bool)
    (endedPulse newPulse : Z) (jets result : list Local)
    : go ((Store * dropStorageMemory) * Prelude.result (list Local)) :=
  match jets with
  | [] => Ret ((jetModifier, drops), Good result)
  | jetID :: jets' =>
      r ← endedDrop drops createDrops jetID endedPulse;
      let '(drops, d) := r in
      match d with
      | Fail e => Ret ((jetModifier, drops), Fail e)
      | Good d =>
          if negb (Drop_Split d) then
            jetModifier ← Store_Update jetModifier newPulse true [jetID];
            Do_loop jetModifier drops createDrops endedPulse newPulse jets' (result ++ [jetID])
          else
            r ← Store_Split jetModifier newPulse jetID;
            match r with
            | (jetModifier, Fail e) => Ret ((jetModifier, drops), Fail (Wrap e "failed to split jet tree"))
            | (jetModifier, Good (leftJetID, rightJetID)) =>
                Do_loop jetModifier drops createDrops endedPulse newPulse jets'
                  (result ++ [leftJetID; rightJetID])
            end
      end
  end.

Definition Do (jetModifier : Store) (drops : dropStorageMemory) (endedPulse newPulse : Z)
    (jets : list Local) (createDrops : bool)
    : go ((Store * dropStorageMemory) * Prelude.result (list Local)) :=
  Do_loop (Store_Clone jetModifier endedPulse newPulse false) drops createDrops
    endedPulse newPulse jets [].
End Splitter.

(** ** Updating a leaf *)
Definition mark (j : Jet) : Jet := match j with JetNil => JetNil | JetNode _ l r => JetNode true l r end.

Lemma isNil_update_at t p f :
  (forall j, isNil (f j) = isNil j) -> isNil (update_at t p f) = isNil t.
Proof. intros Hf. destruct t, p as [|[] p]; try done. cbn. by rewrite Hf. Qed.

Lemma full_eq a l r : full (JetNode a l r) = (isNil l && isNil r) || (full l && full r).
Proof. by destruct l, r. Qed.
Lemma height_eq a l r :
  height (JetNode a l r) = if isNil l && isNil r then 0%nat else S (Nat.max (height l) (height r)).
Proof. by destruct l, r. Qed.

Lemma mark_shape t p :
  full (update_at t p mark) = full t /\ height (update_at t p mark) = height t.
Proof.
  assert (Hm : forall x q, isNil (update_at x q mark) = isNil x)
    by (intros; apply isNil_update_at; by intros []).
  revert p. induction t as [|a l IHl r IHr]; intros p; [by destruct p|].
  destruct p as [|[] p]; [done|..]; cbn [update_at].
  - destruct (IHr p) as [H1 H2]. by rewrite !full_eq, !height_eq, Hm, H1, H2.
  - destruct (IHl p) as [H1 H2]. by rewrite !full_eq, !height_eq, Hm, H1, H2.
Qed.

Lemma cons_ne (b : bool) (p q : list bool) : b :: q <> b :: p <-> q <> p.
Proof. split; [intros H ->; by apply H|intros H [= ->]; by apply H]. Qed.

(** Making a leaf actual changes that leaf only. *)
Lemma leaves_mark t p a q b :
  (p, a) ∈ leaves t ->
  (q, b) ∈ leaves (update_at t p mark) <-> ((q, b) ∈ leaves t /\ q <> p) \/ (b = true /\ q = p).
Proof.
  rewrite !elem_of_leaves. revert t q. induction p as [|d p IH]; intros t q Hn.
  - assert (t = JetNode a JetNil JetNil) as -> by (destruct t; simpl in Hn; congruence).
    cbn [update_at mark]. destruct q as [|c q]; cbn [node_at].
    + split; [intros [= <-]; by right|]. by intros [[_ ?]|[-> _]].
    + split; [by destruct c, q|]. intros [[Hq _]|[_ ?]]; [by destruct c, q|done].
  - destruct t as [|x l r]; [done|]. cbn [node_at] in Hn.
    assert (Hnil : forall y, node_at y p = Some (JetNode a JetNil JetNil) -> isNil (update_at y p mark) = false).
    { intros y Hy. rewrite isNil_update_at by (by intros []). by destruct y, p. }
    destruct q as [|e q].
    + split; [|intros [[Hq _]|[_ ?]]; [|done]].
      * destruct d; cbn [update_at node_at]; intros [= -> Hl Hr].
        -- specialize (Hnil r Hn). by rewrite Hr in Hnil.
        -- specialize (Hnil l Hn). by rewrite Hl in Hnil.
      * cbn [node_at] in Hq. injection Hq as -> -> ->. by destruct d, p.
    + destruct d, e; cbn [update_at node_at].
      * rewrite (IH r q Hn), cons_ne. split; [intros [?|[-> ->]]; auto|].
        intros [?|[-> [= ->]]]; auto.
      * split; [intros; by left|]. by intros [[? _]|[_ ?]].
      * split; [intros; by left|]. by intros [[? _]|[_ ?]].
      * rewrite (IH l q Hn), cons_ne. split; [intros [?|[-> ->]]; auto|].
        intros [?|[-> [= ->]]]; auto.
Qed.

Lemma Jet_Update_leaf fuel t p a v depth :
  full t = true -> (p, a) ∈ leaves t -> follows v depth p -> 0 <= depth ->
  (length p < fuel)%nat -> depth + Z.of_nat (length p) < 256 ->
  depth + Z.of_nat (length p) <= 8 * Z.of_nat (length v) ->
  Jet_Update fuel t v true (depth + Z.of_nat (length p)) depth = Ret (update_at t p mark).
Proof.
  rewrite elem_of_leaves. revert t depth fuel. induction p as [|b p IH]; intros t depth fuel Hf Hn Hfo Hd Hfu H256 Hv.
  - destruct t as [|x l r]; [done|]. destruct fuel as [|fuel]; [cbn in Hfu; lia|].
    cbn [Jet_Update length]. by rewrite Z.add_0_r, Z.eqb_refl.
  - destruct t as [|x l r]; [done|]. destruct fuel as [|fuel]; [cbn in Hfu; lia|].
    apply full_node in Hf as [[-> ->]|(Hl & Hr & Hfl & Hfr & _)]; [by destruct b, p|].
    cbn [length] in *. destruct Hfo as [-> Hfo]. cbn [Jet_Update].
    destruct (Z.eqb_spec depth (depth + Z.of_nat (S (length p)))); [lia|].
    unfold or_new. rewrite Hl, Hr, getBit_ret by lia. cbn [mbind go_bind].
    rewrite u8_small by lia.
    replace (depth + Z.of_nat (S (length p))) with (depth + 1 + Z.of_nat (length p)) by lia.
    cbn [node_at] in Hn. cbn [update_at]. destruct (bit_at v depth).
    + rewrite IH by (done || lia). done.
    + rewrite IH by (done || lia). done.
Qed.

Lemma Tree_Update_leaf t p a :
  full t = true -> (p, a) ∈ leaves t -> (length p <= 216)%nat ->
  Tree_Update t (jet_id p) true = Ret (update_at t p mark).
Proof.
  intros Hf Hin Hp. unfold Tree_Update. rewrite Prefix_jet_id, Depth_jet_id. cbn [mbind go_bind].
  rewrite <- (Z.add_0_l (Z.of_nat (length p))). apply (Jet_Update_leaf updateFuel t p a); try done.
  - by apply follows_self.
  - unfold updateFuel. lia.
  - lia.
  - rewrite bytes_of_length. lia.
Qed.

(** ** The tree of the new pulse while jets are processed *)
Definition result_of (splits : list bool -> bool) (p : list bool) : list (list bool) :=
  if splits p then [p ++ [false]; p ++ [true]] else [p].

(** Jets [finished] are processed: what became of them is actual, every other
    leaf of the ended pulse is there and not actual. *)
Record split_state (t0 : Tree) (splits : list bool -> bool) (finished : list (list bool)) (t : Tree) : Prop := {
  ss_full : full t = true;
  ss_height : (height t <= S (height t0))%nat;
  ss_leaves q b : (q, b) ∈ leaves t <->
    (b = true /\ exists p, p ∈ finished /\ q ∈ result_of splits p) \/
    (b = false /\ (q ∉ finished) /\ exists a, (q, a) ∈ leaves t0);
}.

Lemma Clone_shape t keep :
  isNil (Jet_Clone t keep) = isNil t /\ full (Jet_Clone t keep) = full t /\
  height (Jet_Clone t keep) = height t.
Proof.
  induction t as [|a l (Hl1 & Hl2 & Hl3) r (Hr1 & Hr2 & Hr3)]; [done|]. split; [done|].
  cbn [Jet_Clone]. by rewrite !full_eq, !height_eq, Hl1, Hl2, Hl3, Hr1, Hr2, Hr3.
Qed.

Lemma split_state_clone t0 splits : full t0 = true -> split_state t0 splits [] (Tree_Clone t0 false).
Proof.
  intros Hf. destruct (Clone_shape t0 false) as (_ & H1 & H2). split; unfold Tree_Clone.
  - by rewrite H1.
  - rewrite H2. lia.
  - intros q b. rewrite leaves_Clone, list_elem_of_fmap. split.
    + intros ([q' a] & [= -> ->] & Hin). right. split; [done|]. split; [apply not_elem_of_nil|by exists a].
    + intros [[_ (p & Hp%not_elem_of_nil & _)]|(-> & _ & a & Hin)]; [done|]. by exists (q, a).
Qed.

Lemma leaf_flag t p a b : (p, a) ∈ leaves t -> (p, b) ∈ leaves t -> a = b.
Proof. rewrite !elem_of_leaves. congruence. Qed.

Section SplitState.
Context (t0 : Tree) (splits : list bool -> bool) (finished : list (list bool)) (t : Tree).
Context (Ht : split_state t0 splits finished t).

Lemma split_state_leaf p a : (p, a) ∈ leaves t0 -> p ∉ finished -> (p, false) ∈ leaves t.
Proof. intros Hin Hp. apply (ss_leaves _ _ _ _ Ht). right. split_and!; [done..|by exists a]. Qed.

(** One more jet: its own leaf goes, what it becomes comes in actual. *)
Lemma split_state_next p a t' :
  (p, a) ∈ leaves t0 -> p ∉ finished -> full t' = true -> (height t' <= S (height t0))%nat ->
  (forall q b, (q, b) ∈ leaves t' <->
     ((q, b) ∈ leaves t /\ q <> p) \/ (b = true /\ q ∈ result_of splits p)) ->
  split_state t0 splits (finished ++ [p]) t'.
Proof.
  intros Hin Hp Hf Hh Hl. pose proof (split_state_leaf p a Hin Hp) as Hleaf.
  split; [done..|]. intros q b. rewrite Hl, (ss_leaves _ _ _ _ Ht). split.
  - intros [[[(-> & p' & Hp' & Hq)|(-> & Hq & Ha)] Hne]|[-> Hq]].
    + left. split; [done|]. exists p'. split; [apply elem_of_app; by left|done].
    + right. split_and!; [done| |done]. rewrite elem_of_app, list_elem_of_singleton. tauto.
    + left. split; [done|]. exists p. split; [apply elem_of_app; right; by left|done].
  - intros [(-> & p' & [Hp'|Hp'%list_elem_of_singleton]%elem_of_app & Hq)|(-> & Hq & Ha)].
    + left. split; [left; split; [done|]; by exists p'|]. intros ->.
      assert (true = false); [|done]. apply (leaf_flag t p); [|done].
      apply (ss_leaves _ _ _ _ Ht). left. split; [done|]. by exists p'.
    + subst p'. by right.
    + rewrite elem_of_app, list_elem_of_singleton in Hq. left. split; [|tauto].
      right. split_and!; [done|tauto|done].
Qed.

Lemma split_state_mark p a :
  (p, a) ∈ leaves t0 -> p ∉ finished -> splits p = false ->
  split_state t0 splits (finished ++ [p]) (update_at t p mark).
Proof.
  intros Hin Hp Hs. destruct (mark_shape t p) as [Hf Hh].
  apply (split_state_next p a); [done..|by rewrite Hf; apply Ht|by rewrite Hh; apply Ht|].
  intros q b. rewrite (leaves_mark t p false) by (by eapply split_state_leaf).
  unfold result_of. by rewrite Hs, list_elem_of_singleton.
Qed.

Lemma split_state_grow p a :
  (p, a) ∈ leaves t0 -> p ∉ finished -> splits p = true ->
  split_state t0 splits (finished ++ [p]) (update_at t p grow).
Proof.
  intros Hin Hp Hs. pose proof (split_state_leaf p a Hin Hp) as Hleaf.
  destruct (full_grow t p false (ss_full _ _ _ _ Ht) Hleaf) as [Hf Hh].
  apply leaf_height in Hin as Hlen. pose proof (ss_height _ _ _ _ Ht).
  apply (split_state_next p a); [done..|lia|]. intros q b.
  rewrite (leaves_grow t p false) by done. unfold result_of. rewrite Hs.
  assert (Hc : (exists c, q = p ++ [c]) <-> q ∈ [p ++ [false]; p ++ [true]]).
  { rewrite !elem_of_cons, elem_of_nil. split; [intros [[] ->]; auto|].
    intros [->|[->|[]]]; by eexists. }
  by rewrite Hc.
Qed.
End SplitState.

(** ** The loop *)
Section SplitterRun.
Context `{LawfulStorage St}.
Context (cfg : JetSplit) (pulses : St) (recordsCount : Local -> Z -> Z).
Context (l : list Pulse) (i : nat) (ended : Pulse).
Context (Hpulses : holds pulses l) (Hended : l !! i = Some ended).

Abbreviation createDrop := (createDrop cfg pulses recordsCount).

(** The threshold the previous drop left, by the list of pulses. *)
Definition previousThreshold (drops : dropStorageMemory) (jetID : Local) : Z :=
  match i with
  | O => 0
  | S j => match l !! j with
           | Some prev => from_option SplitThresholdExceeded 0 (drops !! (num prev, jetID))
           | None => 0
           end
  end.

Lemma getPreviousDropThreshold_eq drops jetID :
  getPreviousDropThreshold pulses drops jetID (num ended) = Ret (previousThreshold drops jetID).
Proof.
  unfold getPreviousDropThreshold, previousThreshold.
  rewrite (Backwards_law pulses l i ended 1 Hpulses Hended : Backwards pulses (num ended) 1 = _).
  cbn [mbind go_bind]. destruct i as [|j]; [done|].
  replace (1 <=? S j)%nat with true by done. rewrite Nat.sub_succ, Nat.sub_0_r.
  destruct (l !! j) as [prev|]; [|done]. cbn [found]. unfold getDropThreshold, Drop_ForPulse.
  by destruct (drops !! _).
Qed.

(** The drop of a jet, as a function. *)
Definition sealed (drops : dropStorageMemory) (p : list bool) : Drop :=
  let jetID := jet_id p in
  if DepthLimit cfg <=? Z.of_nat (length p) then mkDrop (num ended) jetID 0 false
  else
    let threshold := previousThreshold drops jetID in
    let threshold := if ThresholdOverflowCount cfg <? threshold then 0 else threshold in
    let exceeded :=
      if ThresholdRecordsCount cfg <=? recordsCount jetID (num ended) then threshold + 1 else 0 in
    mkDrop (num ended) jetID exceeded (ThresholdOverflowCount cfg <? exceeded).

Lemma createDrop_eq drops p : createDrop drops (jet_id p) (num ended) = Ret (sealed drops p).
Proof.
  unfold JetSplitter.createDrop, sealed. rewrite Depth_jet_id. cbn [mbind go_bind].
  destruct (_ <=? _); [done|]. by rewrite getPreviousDropThreshold_eq.
Qed.

Lemma sealed_key drops p :
  Drop_Pulse (sealed drops p) = num ended /\ Drop_JetID (sealed drops p) = jet_id p.
Proof. unfold sealed. by destruct (_ <=? _). Qed.

(** Drops of the ended pulse itself do not matter. *)
Lemma sealed_ext drops drops' p :
  (forall pn j, pn <> num ended -> drops' !! (pn, j) = drops !! (pn, j)) ->
  sealed drops' p = sealed drops p.
Proof.
  intros Hd. assert (E : forall j, previousThreshold drops' j = previousThreshold drops j).
  { intros j. unfold previousThreshold. destruct i as [|k]; [done|].
    destruct (l !! k) as [prev|] eqn:Ek; [|done]. rewrite Hd; [done|].
    assert (k < S k)%nat as Hlt by lia.
    pose proof (holds_increasing _ _ Hpulses k (S k) _ _ Hlt Ek Hended). lia. }
  unfold sealed. by rewrite E.
Qed.

Lemma Store_Update_leaf s pulse p a :
  full (tree_of s pulse) = true -> (p, a) ∈ leaves (tree_of s pulse) -> (length p <= 216)%nat ->
  exists s', Store_Update s pulse true [jet_id p] = Ret s' /\
    forall pn, tree_of s' pn =
      if decide (pn = pulse) then update_at (tree_of s pulse) p mark else tree_of s pn.
Proof.
  intros Hf Hin Hp. destruct (ltreeForPulse_eq s pulse) as (s1 & E1 & Hs1).
  unfold Store_Update. rewrite E1. cbn [update_all].
  rewrite (Tree_Update_leaf _ p a) by done. cbn [mbind go_bind]. eexists. split; [done|].
  intros pn. rewrite tree_of_insert. by destruct decide.
Qed.

Lemma Store_Split_leaf s pulse p a :
  full (tree_of s pulse) = true -> (height (tree_of s pulse) < 216)%nat ->
  (p, a) ∈ leaves (tree_of s pulse) ->
  exists s', Store_Split s pulse (jet_id p) =
      Ret (s', Good (jet_id (p ++ [false]), jet_id (p ++ [true]))) /\
    forall pn, tree_of s' pn =
      if decide (pn = pulse) then update_at (tree_of s pulse) p grow else tree_of s pn.
Proof.
  intros Hf Hh Hin. pose proof (leaf_height _ _ _ Hin). destruct (ltreeForPulse_eq s pulse) as (s1 & E1 & Hs1).
  unfold Store_Split. rewrite E1. destruct (Tree_Split_eq _ p Hf Hh) as [HS _]; [lia|].
  rewrite (HS a Hin). cbn [mbind go_bind]. eexists. split; [done|].
  intros pn. cbn [fst]. rewrite tree_of_insert. by destruct decide.
Qed.

Context (t0 : Tree) (newPulse : Z) (drops0 : dropStorageMemory).
Context (Hfull : full t0 = true) (Hheight : (height t0 < 215)%nat).
Definition splits (p : list bool) : bool := Drop_Split (sealed drops0 p).

(** What the loop over the jets [ps] promises, [finished] being done. *)
Definition loop_done (store : Store) (drops : dropStorageMemory) (acc : list Local)
    (finished ps : list (list bool))
    (r : go ((Store * dropStorageMemory) * Prelude.result (list Local))) : Prop :=
  exists store' drops',
    r = Ret ((store', drops'), Good (acc ++ (jet_id <$> (ps ≫= result_of splits)))) /\
    split_state t0 splits (finished ++ ps) (tree_of store' newPulse) /\
    (forall pn, pn <> newPulse -> tree_of store' pn = tree_of store pn) /\
    (forall p, p ∈ ps -> drops' !! (num ended, jet_id p) = Some (sealed drops0 p)) /\
    (forall k, (forall p, p ∈ ps -> k <> (num ended, jet_id p)) -> drops' !! k = drops !! k).

Lemma key_inj p q :
  (length p <= 216)%nat -> (length q <= 216)%nat ->
  (num ended, jet_id p) = (num ended, jet_id q) -> p = q.
Proof. intros Hp Hq E%(f_equal snd). by apply jet_id_inj in E. Qed.

Lemma loop_done_cons store store1 drops acc finished p ps r :
  p ∉ ps -> (length p <= 216)%nat -> (forall q, q ∈ ps -> (length q <= 216)%nat) ->
  (forall pn, pn <> newPulse -> tree_of store1 pn = tree_of store pn) ->
  loop_done store1 (<[(num ended, jet_id p) := sealed drops0 p]> drops)
    (acc ++ (jet_id <$> result_of splits p)) (finished ++ [p]) ps r ->
  loop_done store drops acc finished (p :: ps) r.
Proof.
  intros Hnp Hp Hps Hother (store' & drops' & E & H1 & H2 & H3 & H4).
  exists store', drops'. rewrite <- (assoc_L (++)) in E. rewrite <- (assoc_L (++)) in H1.
  cbn [mbind list_bind]. rewrite fmap_app. split_and!; [done|done| | |].
  - intros pn Hne. rewrite H2 by done. by apply Hother.
  - intros q [->|Hq]%elem_of_cons; [|by apply H3]. rewrite H4; [by rewrite lookup_insert_eq|].
    intros q Hq E'%key_inj; [by subst|done|by apply Hps].
  - intros k Hk. rewrite H4 by (intros q Hq; apply Hk; by right).
    rewrite lookup_insert_ne; [done|]. intros <-. by apply (Hk p); [left|].
Qed.

Lemma Do_loop_spec ps finished store drops acc :
  split_state t0 splits finished (tree_of store newPulse) ->
  NoDup (finished ++ ps) -> (forall p, p ∈ ps -> exists a, (p, a) ∈ leaves t0) ->
  (forall p, p ∈ ps -> drops !! (num ended, jet_id p) = None) ->
  (forall pn j, pn <> num ended -> drops !! (pn, j) = drops0 !! (pn, j)) ->
  loop_done store drops acc finished ps
    (Do_loop cfg pulses recordsCount store drops true (num ended) newPulse (jet_id <$> ps) acc).
Proof.
  revert finished store drops acc. induction ps as [|p ps IH]; intros finished store drops acc Hst Hnd Hps Hfree Hpre.
  { exists store, drops. cbn. rewrite !app_nil_r. split_and!; try done. by intros p ?%not_elem_of_nil. }
  assert (Hlen : forall q, q ∈ p :: ps -> (length q < 215)%nat).
  { intros q Hq. destruct (Hps q Hq) as [b Hb]. pose proof (leaf_height _ _ _ Hb). lia. }
  destruct (Hps p) as [a Hin]; [by left|]. pose proof (Hlen p ltac:(by left)) as Hlp.
  pose proof Hnd as (_ & Hdis & [Hnp _]%list.NoDup_cons)%list.NoDup_app.
  assert (Hnew : p ∉ finished) by (intros Hp; by apply (Hdis p Hp); left).
  assert (Hleaf := split_state_leaf _ _ _ _ Hst p a Hin Hnew).
  cbn [fmap list_fmap Do_loop]. unfold endedDrop. rewrite createDrop_eq, (sealed_ext drops0) by done.
  cbn [mbind go_bind]. unfold Drop_Set. destruct (sealed_key drops0 p) as [-> ->].
  rewrite Hfree by (by left). cbn [mbind go_bind]. change (Drop_Split (sealed drops0 p)) with (splits p).
  assert (Hrest : forall store1 acc1, split_state t0 splits (finished ++ [p]) (tree_of store1 newPulse) ->
    (forall pn, pn <> newPulse -> tree_of store1 pn = tree_of store pn) ->
    acc1 = acc ++ (jet_id <$> result_of splits p) ->
    loop_done store drops acc finished (p :: ps)
      (Do_loop cfg pulses recordsCount store1 (<[(num ended, jet_id p) := sealed drops0 p]> drops)
         true (num ended) newPulse (jet_id <$> ps) acc1)).
  { intros store1 acc1 Hst1 Hother ->. apply (loop_done_cons store store1); [done|lia| |done|].
    { intros q Hq. assert (length q < 215)%nat by (apply Hlen; by right). lia. }
    apply IH; [done|by rewrite <- (assoc_L (++))|intros q Hq; apply Hps; by right| |].
    - intros q Hq. rewrite lookup_insert_ne; [apply Hfree; by right|].
      assert (length q < 215)%nat by (apply Hlen; by right).
      intros E%key_inj; [by subst|lia..].
    - intros pn j Hne. rewrite lookup_insert_ne; [by apply Hpre|congruence]. }
  destruct (splits p) eqn:Es; cbn [negb].
  - destruct (Store_Split_leaf store newPulse p false (ss_full _ _ _ _ Hst))
      as (store1 & -> & Hs1); [pose proof (ss_height _ _ _ _ Hst); lia|done|].
    cbn [mbind go_bind]. apply Hrest; [| |by unfold result_of; rewrite Es].
    + rewrite Hs1, decide_True by done. by apply (split_state_grow t0 splits finished _ Hst p a).
    + intros pn Hne. by rewrite Hs1, decide_False.
  - destruct (Store_Update_leaf store newPulse p false (ss_full _ _ _ _ Hst) Hleaf)
      as (store1 & -> & Hs1); [lia|].
    cbn [mbind go_bind]. apply Hrest; [| |by unfold result_of; rewrite Es].
    + rewrite Hs1, decide_True by done. by apply (split_state_mark t0 splits finished _ Hst p a).
    + intros pn Hne. by rewrite Hs1, decide_False.
Qed.
End SplitterRun.

(** ** Properties *)

Lemma Do_splits_all `{LawfulStorage St} cfg (pulses : St) recordsCount l i ended js drops newPulse ps :
  holds pulses l -> l !! i = Some ended -> newPulse <> num ended ->
  full (tree_of js (num ended)) = true -> (height (tree_of js (num ended)) < 215)%nat ->
  NoDup ps -> (forall p, p ∈ ps -> exists a, (p, a) ∈ leaves (tree_of js (num ended))) ->
  (forall p, p ∈ ps -> drops !! (num ended, jet_id p) = None) ->
  exists (sealed : list bool -> Drop) js' drops',
    (forall p, createDrop cfg pulses recordsCount drops (jet_id p) (num ended) = Ret (sealed p)) /\
    let becomes p := if Drop_Split (sealed p) then [p ++ [false]; p ++ [true]] else [p] in
    Do cfg pulses recordsCount js drops (num ended) newPulse (jet_id <$> ps) true =
      Ret ((js', drops'), Good (jet_id <$> (ps ≫= becomes))) /\
    full (tree_of js' newPulse) = true /\
    (height (tree_of js' newPulse) <= S (height (tree_of js (num ended))))%nat /\
    (forall q b, (q, b) ∈ leaves (tree_of js' newPulse) <->
       (b = true /\ q ∈ ps ≫= becomes) \/
       (b = false /\ (q ∉ ps) /\ exists a, (q, a) ∈ leaves (tree_of js (num ended)))) /\
    (forall pn, pn <> newPulse -> tree_of js' pn = tree_of js pn) /\
    (forall p, p ∈ ps -> drops' !! (num ended, jet_id p) = Some (sealed p)) /\
    (forall k, (forall p, p ∈ ps -> k <> (num ended, jet_id p)) -> drops' !! k = drops !! k).
Proof.
  intros Hl Hi Hne Hf Hh Hnd Hps Hfree. set (t0 := tree_of js (num ended)) in *.
  exists (sealed cfg recordsCount l i ended drops).
  destruct (Do_loop_spec cfg pulses recordsCount l i ended Hl Hi t0 newPulse drops Hh ps []
    (Store_Clone js (num ended) newPulse false) drops []) as (js' & drops' & E & H1 & H2 & H3 & H4);
    [|done..|].
  { rewrite Store_Clone_tree, decide_True by done. by apply split_state_clone. }
  exists js', drops'. split; [intros p; by eapply createDrop_eq|]. cbv zeta.
  split; [exact E|]. split; [apply H1|]. split; [apply H1|]. split.
  - intros q b. rewrite (ss_leaves _ _ _ _ H1). cbn [app]. split.
    + intros [(-> & p & Hp & Hq)|Hr]; [left|by right]. split; [done|].
      apply list_elem_of_bind. by exists p.
    + intros [(-> & (p & Hq & Hp)%list_elem_of_bind)|Hr]; [left|by right]. split; [done|]. by exists p.
  - split; [|done]. intros pn Hpn. rewrite H2 by done. rewrite Store_Clone_tree. by rewrite decide_False.
Qed.

(** C25: Ending a pulse with fresh drops never fails on the node's own jets.  A
    drop is sealed for each of them; the answer lists, in order, each jet or
    its two children by what its drop decided; in the tree of the new pulse
    exactly those are actual among the leaves, the jets of others stay as
    they were but not actual; trees of other pulses and other drops are
    untouched. *)
Theorem Do_splits `{LawfulStorage St} cfg (pulses : St) recordsCount l i ended js drops newPulse ps :
  holds pulses l -> l !! i = Some ended -> newPulse <> num ended ->
  full (tree_of js (num ended)) = true -> (height (tree_of js (num ended)) < 215)%nat ->
  NoDup ps -> (forall p, p ∈ ps -> exists a, (p, a) ∈ leaves (tree_of js (num ended))) ->
  (forall p, p ∈ ps -> drops !! (num ended, jet_id p) = None) ->
  exists (sealed : list bool -> Drop) js' drops',
    (forall p, createDrop cfg pulses recordsCount drops (jet_id p) (num ended) = Ret (sealed p)) /\
    let becomes p := if Drop_Split (sealed p) then [p ++ [false]; p ++ [true]] else [p] in
    Do cfg pulses recordsCount js drops (num ended) newPulse (jet_id <$> ps) true =
      Ret ((js', drops'), Good (jet_id <$> (ps ≫= becomes))) /\
    full (tree_of js' newPulse) = true /\
    (height (tree_of js' newPulse) <= S (height (tree_of js (num ended))))%nat /\
    (forall q b, (q, b) ∈ leaves (tree_of js' newPulse) <->
       (b = true /\ q ∈ ps ≫= becomes) \/
       (b = false /\ (q ∉ ps) /\ exists a, (q, a) ∈ leaves (tree_of js (num ended)))) /\
    (forall pn, pn <> newPulse -> tree_of js' pn = tree_of js pn) /\
    (forall p, p ∈ ps -> drops' !! (num ended, jet_id p) = Some (sealed p)) /\
    (forall k, (forall p, p ∈ ps -> k <> (num ended, jet_id p)) -> drops' !! k = drops !! k).
Proof. apply Do_splits_all. Qed.

(** In how many pulses in a row, up to position [k], a jet had at least the
    threshold of records. *)
Fixpoint streak (cfg : JetSplit) (count : nat -> Z) (k : nat) : Z :=
  if ThresholdRecordsCount cfg <=? count k
  then match k with O => 1 | S k' => streak cfg count k' + 1 end
  else 0.
Definition cycle (cfg : JetSplit) (n : Z) : Z :=
  if n =? 0 then 0 else (n - 1) mod (ThresholdOverflowCount cfg + 1) + 1.

Lemma streak_nonneg cfg count k : 0 <= streak cfg count k.
Proof. induction k as [|k IH]; cbn; destruct (_ <=? _); lia. Qed.

Lemma cycle_next cfg n :
  0 <= ThresholdOverflowCount cfg -> 0 <= n ->
  cycle cfg (n + 1) =
  (if ThresholdOverflowCount cfg <? cycle cfg n then 0 else cycle cfg n) + 1.
Proof.
  intros Hc Hn. unfold cycle. set (m := ThresholdOverflowCount cfg + 1).
  assert (Hm : ThresholdOverflowCount cfg = m - 1) by lia. rewrite Hm.
  destruct (Z.eqb_spec (n + 1) 0) as [|_]; [lia|]. rewrite Z.add_simpl_r.
  destruct (Z.eqb_spec n 0) as [->|Hn0].
  - rewrite Z.mod_0_l by lia. destruct (Z.ltb_spec (m - 1) 0); lia.
  - pose proof (Z.mod_pos_bound (n - 1) m ltac:(lia)) as Hb.
    pose proof (Z.div_mod (n - 1) m ltac:(lia)) as Hd.
    destruct (Z.ltb_spec (m - 1) ((n - 1) mod m + 1)).
    + replace n with (((n - 1) / m + 1) * m) by nia. by rewrite Z.mod_mul by lia.
    + f_equal. symmetry. apply (Z.mod_unique _ _ ((n - 1) / m)); [left; lia|nia].
Qed.

(** A jet below the depth limit that is sealed pulse after pulse splits
    exactly when its records reached the threshold in every one of the last
    [ThresholdOverflowCount + 1] pulses, counted anew after each split; the
    drop counts the pulses so far. *)
Theorem createDrop_streak `{LawfulStorage St} cfg (pulses : St) recordsCount l drops p k pulse :
  0 <= ThresholdOverflowCount cfg -> Z.of_nat (length p) < DepthLimit cfg ->
  holds pulses l -> l !! k = Some pulse ->
  (forall j q, (j < k)%nat -> l !! j = Some q -> exists d,
     createDrop cfg pulses recordsCount drops (jet_id p) (num q) = Ret d /\
     drops !! (num q, jet_id p) = Some d) ->
  let n := streak cfg (fun j => from_option (fun q => recordsCount (jet_id p) (num q)) 0 (l !! j)) k in
  exists d, createDrop cfg pulses recordsCount drops (jet_id p) (num pulse) = Ret d /\
    SplitThresholdExceeded d = cycle cfg n /\
    (Drop_Split d = true <-> 0 < n /\ n mod (ThresholdOverflowCount cfg + 1) = 0).
Proof.
  intros Hc Hp Hl Hk Hprev n.
  assert (Hcount : forall j q, (j <= k)%nat -> l !! j = Some q ->
    SplitThresholdExceeded (sealed cfg recordsCount l j q drops p) =
    cycle cfg (streak cfg (fun j => from_option (fun q => recordsCount (jet_id p) (num q)) 0 (l !! j)) j)).
  { intros j. induction j as [|j IH]; intros q Hj Hq; unfold sealed; cbn [streak previousThreshold].
    all: destruct (Z.leb_spec (DepthLimit cfg) (Z.of_nat (length p))); [lia|].
    all: rewrite Hq; cbn [from_option SplitThresholdExceeded].
    - destruct (_ <=? recordsCount _ _); [|done]. destruct (Z.ltb_spec (ThresholdOverflowCount cfg) 0); [lia|].
      unfold cycle. cbn. by rewrite Z.mod_0_l by lia.
    - destruct (_ <=? recordsCount _ _); [|done].
      destruct (lookup_lt_is_Some_2 l j) as [q' Hq']; [apply lookup_lt_Some in Hq; lia|].
      destruct (Hprev j q') as (d & Hd & Hs); [lia|done|].
      rewrite (createDrop_eq cfg pulses recordsCount l j q' Hl Hq' drops p) in Hd. injection Hd as <-.
      rewrite Hq', Hs. cbn [from_option]. rewrite IH by (done || lia).
      rewrite cycle_next; [done..|apply streak_nonneg]. }
  exists (sealed cfg recordsCount l k pulse drops p). split; [by apply createDrop_eq|].
  specialize (Hcount k pulse ltac:(lia) Hk). fold n in Hcount. split; [done|].
  assert (Hsplit : Drop_Split (sealed cfg recordsCount l k pulse drops p) =
    (ThresholdOverflowCount cfg <? SplitThresholdExceeded (sealed cfg recordsCount l k pulse drops p))).
  { unfold sealed. destruct (Z.leb_spec (DepthLimit cfg) (Z.of_nat (length p))); [lia|done]. }
  rewrite Hsplit, Hcount, Z.ltb_lt. clear Hsplit Hcount. pose proof (streak_nonneg cfg
    (fun j => from_option (fun q => recordsCount (jet_id p) (num q)) 0 (l !! j)) k) as Hn. fold n in Hn.
  unfold cycle. destruct (Z.eqb_spec n 0); [lia|]. set (m := ThresholdOverflowCount cfg + 1) in *.
  pose proof (Z.mod_pos_bound (n - 1) m ltac:(lia)). pose proof (Z.div_mod (n - 1) m ltac:(lia)).
  split.
  - intros Hlt. split; [lia|]. replace n with (((n - 1) / m + 1) * m) by nia. by rewrite Z.mod_mul by lia.
  - intros [_ Hm]. pose proof (Z.div_mod n m ltac:(lia)) as Hd. rewrite Hm in Hd.
    assert ((n - 1) mod m = m - 1); [|lia].
    symmetry. apply (Z.mod_unique _ _ (n / m - 1)); [left; lia|nia].
Qed.

(** ** The theorems at work: two jets of pulse 65547, all full. *)
Definition sampleSplit : JetSplit := mkJetSplit 5 0 10.
Definition sampleStore : Store := mkStore {[65547 := sampleTree]}.

Lemma samplePulses : exists s : StorageMem, mem_holds s (samplePulse <$> [65537; 65547]).
Proof.
  destruct (append_all_holds (H0:=StorageMem_lawful) (samplePulse <$> [65537; 65547]) NewStorageMem []
    mem_holds_nil) as (s & _ & Hs); [by repeat constructor|]. by exists s.
Qed.

Lemma Do_splits_witness :
  exists (s : StorageMem) (sealed : list bool -> Drop) r,
    Do sampleSplit s (fun _ _ => 5) sampleStore ∅ 65547 65557 (jet_id <$> [[true; false]; [true; true]]) true =
    Ret (r, Good (jet_id <$> ([[true; false]; [true; true]] ≫=
      (fun p => if Drop_Split (sealed p) then [p ++ [false]; p ++ [true]] else [p])))).
Proof.
  destruct samplePulses as [s Hs]. exists s.
  destruct (Do_splits (H0:=StorageMem_lawful) sampleSplit s (fun _ _ => 5)
    (samplePulse <$> [65537; 65547]) 1 (samplePulse 65547)
    sampleStore ∅ 65557 [[true; false]; [true; true]] Hs) as (sealed & js & drops & _ & E & _).
  - done.
  - done.
  - by vm_compute.
  - apply Nat.ltb_lt. by vm_compute.
  - by apply (bool_decide_unpack _).
  - intros p [->|[->|[]%elem_of_nil]%elem_of_cons]%elem_of_cons; exists true.
    all: apply elem_of_leaves; by vm_compute.
  - intros p _. apply lookup_empty.
  - by exists sealed, (js, drops).
Defined.

Lemma createDrop_streak_witness :
  exists (s : StorageMem) d,
    createDrop sampleSplit s (fun _ _ => 5) ∅ (jet_id [true]) 65537 = Ret d /\
    (Drop_Split d = true <-> 0 < 1 /\ 1 mod 1 = 0).
Proof.
  destruct samplePulses as [s Hs]. exists s.
  destruct (createDrop_streak (H0:=StorageMem_lawful) sampleSplit s (fun _ _ => 5)
    (samplePulse <$> [65537; 65547]) ∅ [true] 0
    (samplePulse 65537)) as (d & E & _ & Hd); [done|done|exact Hs|done|lia|].
  by exists d.
Defined.
