(* ===== verification/HotWaiter.v ===== *)
(** * Waiting for hot data (src/ledger/light/executor/waiter.go)

    [ChannelWaiter] holds a channel per jet and pulse, closed when the hot
    data of the jet came, and a channel per pulse, closed when the pulse is
    over.  Channels are numbers in the order they are made.  The locked parts
    of the methods are functions of the waiter; [Wait] is its locked part and
    a select.  The machine runs any number of threads through them. *)
From S2P Require Import Prelude Reference.

Definition ErrWaiterNotLocked : error := Errorf "unlocked waiter unlock attempt".
Definition ErrHotDataTimeout : error := Errorf "requests were abandoned due to hot-data timeout".

Record pulseWaiter : Type := mkPulseWaiter {
  jetWaiters : gmap Local nat;
  timeout : nat;
}.

Record ChannelWaiter : Type := mkWaiter {
  closedUntil : Z;
  waiters : gmap Z pulseWaiter;
  (** Channels made, and those of them that are closed. *)
  made : nat;
  shut : gset nat;
}.

Definition NewChannelWaiter : ChannelWaiter := mkWaiter 0 ∅ 0 ∅.

Definition make (w : ChannelWaiter) : ChannelWaiter * nat :=
  (mkWaiter (closedUntil w) (waiters w) (S (made w)) (shut w), made w).
Definition set_waiters (w : ChannelWaiter) (m : gmap Z pulseWaiter) : ChannelWaiter :=
  mkWaiter (closedUntil w) m (made w) (shut w).
Definition isClosed (w : ChannelWaiter) (c : nat) : bool := bool_decide (c ∈ shut w).
Definition close (w : ChannelWaiter) (c : nat) : go ChannelWaiter :=
  if isClosed w c then Panic "close of closed channel"
  else Ret (mkWaiter (closedUntil w) (waiters w) (made w) ({[c]} ∪ shut w)).

Definition getOrCreate (w : ChannelWaiter) (pn : Z) : ChannelWaiter * pulseWaiter :=
  match waiters w !! pn with
  | Some pWaiter => (w, pWaiter)
  | None =>
      let '(w, t) := make w in
      let pWaiter := mkPulseWaiter ∅ t in
      (set_waiters w (<[pn := pWaiter]> (waiters w)), pWaiter)
  end.

(** [pulseWaiter.getOrCreate]; the entry of the pulse shares the new channel. *)
Definition jet_getOrCreate (w : ChannelWaiter) (pn : Z) (pw : pulseWaiter) (jetID : Local) :
  ChannelWaiter * nat :=
  match jetWaiters pw !! jetID with
  | Some c => (w, c)
  | None =>
      let '(w, c) := make w in
      (set_waiters w (<[pn := mkPulseWaiter (<[jetID := c]> (jetWaiters pw)) (timeout pw)]> (waiters w)), c)
  end.

(** [Wait] up to its select: it returns at once, or has two channels to wait on. *)
Definition Wait_enter (w : ChannelWaiter) (jetID : Local) (pulse : Z) :
  ChannelWaiter * option (nat * nat) :=
  if pulse <=? closedUntil w then (w, None)
  else
    let '(w, pWaiter) := getOrCreate w pulse in
    let '(w, waitCh) := jet_getOrCreate w pulse pWaiter jetID in
    (w, Some (waitCh, timeout pWaiter)).

(** The select: what [Wait] may return now. *)
Definition Wait_select (w : ChannelWaiter) (waitCh timeout : nat) : list (option error) :=
  (if isClosed w waitCh then [None] else []) ++
  (if isClosed w timeout then [Some ErrHotDataTimeout] else []).

Definition IsReceived (w : ChannelWaiter) (jetID : Local) (pn : Z) : bool :=
  match waiters w !! pn with
  | None => false
  | Some pWaiter =>
      match jetWaiters pWaiter !! jetID with
      | None => false
      | Some jWaiter => isClosed w jWaiter
      end
  end.

Definition Unlock (w : ChannelWaiter) (pulse : Z) (jetID : Local) : go (ChannelWaiter * option error) :=
  let '(w, pWaiter) := getOrCreate w pulse in
  let '(w, waitCh) := jet_getOrCreate w pulse pWaiter jetID in
  if isClosed w waitCh then Ret (w, Some ErrWaiterNotLocked)
  else w ← close w waitCh; Ret (w, None).

Fixpoint CloseAllUntil_loop (entries : list (Z * pulseWaiter)) (pulse : Z) (w : ChannelWaiter) :
  go ChannelWaiter :=
  match entries with
  | [] => Ret w
  | (pn, pWaiter) :: rest =>
      if pn >? pulse then CloseAllUntil_loop rest pulse w
      else
        w ← close w (timeout pWaiter);
        CloseAllUntil_loop rest pulse (set_waiters w (delete pn (waiters w)))
  end.

Definition CloseAllUntil (w : ChannelWaiter) (pulse : Z) : go ChannelWaiter :=
  w ← CloseAllUntil_loop (map_to_list (waiters w)) pulse w;
  Ret (mkWaiter pulse (waiters w) (made w) (shut w)).

(** ** Threads *)
Record thread : Type := mkThread { t_jet : Local; t_pulse : Z; t_wait : nat; t_timeout : nat }.

Inductive event : Type :=
  | Waiting (tid : nat) (jetID : Local) (pulse : Z)
  | Returned (tid : nat) (jetID : Local) (pulse : Z) (err : option error)
  | Unlocked (pulse : Z) (jetID : Local) (err : option error)
  | ClosedAll (pulse : Z).

Record machine : Type := mkMachine {
  waiter : ChannelWaiter;
  blocked : gmap nat thread;
  history : list event;
}.

Definition start : machine := mkMachine NewChannelWaiter ∅ [].

(** What happens next, with its event. *)
Inductive hstep (s : machine) : event -> machine -> Prop :=
  | hs_enter tid jetID pulse w :
      blocked s !! tid = None -> Wait_enter (waiter s) jetID pulse = (w, None) ->
      hstep s (Returned tid jetID pulse None)
        (mkMachine w (blocked s) (Returned tid jetID pulse None :: history s))
  | hs_block tid jetID pulse w waitCh timeout :
      blocked s !! tid = None -> Wait_enter (waiter s) jetID pulse = (w, Some (waitCh, timeout)) ->
      hstep s (Waiting tid jetID pulse)
        (mkMachine w (<[tid := mkThread jetID pulse waitCh timeout]> (blocked s))
           (Waiting tid jetID pulse :: history s))
  | hs_wake tid th err :
      blocked s !! tid = Some th -> err ∈ Wait_select (waiter s) (t_wait th) (t_timeout th) ->
      hstep s (Returned tid (t_jet th) (t_pulse th) err)
        (mkMachine (waiter s) (delete tid (blocked s))
           (Returned tid (t_jet th) (t_pulse th) err :: history s))
  | hs_unlock pulse jetID w err :
      Unlock (waiter s) pulse jetID = Ret (w, err) ->
      hstep s (Unlocked pulse jetID err) (mkMachine w (blocked s) (Unlocked pulse jetID err :: history s))
  | hs_close pulse w :
      CloseAllUntil (waiter s) pulse = Ret w ->
      hstep s (ClosedAll pulse) (mkMachine w (blocked s) (ClosedAll pulse :: history s)).

Definition hmove (s s' : machine) : Prop := exists e, hstep s e s'.

(** ** The invariant

    Every channel is the timeout of a pulse or the waiter of a jet in a pulse;
    [o] says which.  A thread waits on channels that are in the maps, unless
    its pulse is over. *)
Abbreviation owners := (gmap nat (Z * option Local)).

Definition registered (w : ChannelWaiter) (th : thread) : Prop :=
  exists pw, waiters w !! t_pulse th = Some pw /\ timeout pw = t_timeout th /\
             jetWaiters pw !! t_jet th = Some (t_wait th).

Record waiter_ok (o : owners) (w : ChannelWaiter) : Prop := {
  wo_made : forall c, (c < made w)%nat <-> is_Some (o !! c);
  wo_shut : forall c, c ∈ shut w -> (c < made w)%nat;
  wo_timeout : forall pn pw, waiters w !! pn = Some pw ->
    o !! timeout pw = Some (pn, None) /\ timeout pw ∉ shut w;
  wo_jet : forall pn pw jetID c, waiters w !! pn = Some pw -> jetWaiters pw !! jetID = Some c ->
    o !! c = Some (pn, Some jetID);
}.

Record blocked_ok (o : owners) (w : ChannelWaiter) (bl : gmap nat thread) : Prop := {
  bo_wait : forall tid th, bl !! tid = Some th -> o !! t_wait th = Some (t_pulse th, Some (t_jet th));
  bo_timeout : forall tid th, bl !! tid = Some th -> o !! t_timeout th = Some (t_pulse th, None);
  bo_registered : forall tid th, bl !! tid = Some th -> t_timeout th ∈ shut w \/ registered w th;
}.

(** Closed channels tell what happened. *)
Definition over (h : list event) (pn : Z) : Prop := exists q, pn <= q /\ ClosedAll q ∈ h.
Definition opened (h : list event) (pn : Z) (jetID : Local) : Prop := Unlocked pn jetID None ∈ h.

Record told (o : owners) (w : ChannelWaiter) (h : list event) : Prop := {
  to_jet : forall c pn jetID, o !! c = Some (pn, Some jetID) -> c ∈ shut w -> opened h pn jetID;
  to_pulse : forall c pn, o !! c = Some (pn, None) -> c ∈ shut w -> over h pn;
  to_until : 0 < closedUntil w -> over h (closedUntil w);
}.

(** The waiter only grows. *)
Record grown (o o' : owners) (w w' : ChannelWaiter) : Prop := {
  gr_owners : o ⊆ o';
  gr_shut : shut w ⊆ shut w';
  gr_entry : forall th, registered w th -> registered w' th \/ t_timeout th ∈ shut w';
}.

Lemma blocked_grown o o' w w' bl : grown o o' w w' -> blocked_ok o w bl -> blocked_ok o' w' bl.
Proof.
  intros [Ho Hs He] [Hw Ht Hr]. split.
  - intros tid th E. eapply lookup_weaken; [by eapply Hw|done].
  - intros tid th E. eapply lookup_weaken; [by eapply Ht|done].
  - intros tid th E. destruct (Hr tid th E) as [H|H]; [left; by apply Hs|].
    destruct (He th H); auto.
Qed.

Lemma make_fresh o w : waiter_ok o w -> o !! made w = None /\ made w ∉ shut w.
Proof.
  intros [Hm Hs _ _]. split.
  - destruct (o !! made w) eqn:E; [|done]. assert (is_Some (o !! made w)) as H%Hm by (by rewrite E). lia.
  - intros H%Hs. lia.
Qed.

(** A new channel with its owner. *)
Lemma make_made o w x c : waiter_ok o w ->
  ((c < S (made w))%nat <-> is_Some (<[made w := x]> o !! c)).
Proof.
  intros Hw. destruct (decide (c = made w)) as [->|Hne].
  - rewrite lookup_insert_eq. split; [by eexists|lia].
  - rewrite lookup_insert_ne by done. rewrite <- (wo_made _ _ Hw). lia.
Qed.

Lemma getOrCreate_ok o w pn w' pw :
  waiter_ok o w -> getOrCreate w pn = (w', pw) ->
  exists o', waiter_ok o' w' /\ grown o o' w w' /\ waiters w' !! pn = Some pw /\
             shut w' = shut w /\ closedUntil w' = closedUntil w.
Proof.
  intros Hw. unfold getOrCreate. destruct (waiters w !! pn) as [pw0|] eqn:E; cbn; intros [= <- <-].
  { exists o. split_and!; try done. split; auto. }
  destruct (make_fresh o w Hw) as [Hf Hfs]. exists (<[made w := (pn, None)]> o). split_and!; try done.
  - split; cbn.
    + intros c. by apply make_made.
    + intros c Hc%(wo_shut _ _ Hw). lia.
    + intros pn' pw'. destruct (decide (pn = pn')) as [<-|Hne].
      * rewrite lookup_insert_eq. intros [= <-]. by rewrite lookup_insert_eq.
      * rewrite lookup_insert_ne by done. intros E'. destruct (wo_timeout _ _ Hw _ _ E').
        split; [|done]. rewrite lookup_insert_ne; [done|]. intros Hx. congruence.
    + intros pn' pw' jetID c. destruct (decide (pn = pn')) as [<-|Hne].
      * rewrite lookup_insert_eq. intros [= <-]. cbn. by rewrite lookup_empty.
      * rewrite lookup_insert_ne by done. intros E' Hc. pose proof (wo_jet _ _ Hw _ _ _ _ E' Hc).
        rewrite lookup_insert_ne; [done|]. intros H1. congruence.
  - split; cbn; [by apply insert_subseteq|done|].
    intros th (pw' & E' & Ht & Hj). left. exists pw'. cbn.
    rewrite lookup_insert_ne; [done|]. intros Hx. congruence.
  - cbn. by rewrite lookup_insert_eq.
Qed.

Lemma jet_getOrCreate_ok o w pn pw jetID w' c :
  waiter_ok o w -> waiters w !! pn = Some pw -> jet_getOrCreate w pn pw jetID = (w', c) ->
  exists o', waiter_ok o' w' /\ grown o o' w w' /\
    registered w' (mkThread jetID pn c (timeout pw)) /\
    shut w' = shut w /\ closedUntil w' = closedUntil w.
Proof.
  intros Hw Epw. unfold jet_getOrCreate. destruct (jetWaiters pw !! jetID) as [c0|] eqn:E; cbn; intros [= <- <-].
  { exists o. split_and!; try done; [split; auto|]. by exists pw. }
  destruct (make_fresh o w Hw) as [Hf Hfs]. exists (<[made w := (pn, Some jetID)]> o). split_and!; try done.
  - split; cbn.
    + intros c. by apply make_made.
    + intros c Hc%(wo_shut _ _ Hw). lia.
    + intros pn' pw' E'. enough (o !! timeout pw' = Some (pn', None) /\ timeout pw' ∉ shut w) as [H1 H2].
      { split; [|done]. rewrite lookup_insert_ne; [done|]. intros Hx. congruence. }
      revert E'. destruct (decide (pn = pn')) as [<-|Hne].
      * rewrite lookup_insert_eq. intros [= <-]. by apply (wo_timeout _ _ Hw pn pw).
      * rewrite lookup_insert_ne by done. apply (wo_timeout _ _ Hw).
    + intros pn' pw' jetID' c'. destruct (decide (pn = pn')) as [<-|Hne].
      * rewrite lookup_insert_eq. intros [= <-]. cbn. destruct (decide (jetID = jetID')) as [<-|Hj].
        -- rewrite lookup_insert_eq. intros [= <-]. by rewrite lookup_insert_eq.
        -- rewrite lookup_insert_ne by done. intros Hc. pose proof (wo_jet _ _ Hw _ _ _ _ Epw Hc).
           rewrite lookup_insert_ne; [done|]. intros H1. congruence.
      * rewrite lookup_insert_ne by done. intros E' Hc. pose proof (wo_jet _ _ Hw _ _ _ _ E' Hc).
        rewrite lookup_insert_ne; [done|]. intros H1. congruence.
  - split; cbn; [by apply insert_subseteq|done|].
    intros th (pw' & E' & Ht & Hj). left. destruct (decide (pn = t_pulse th)) as [Hpn|Hne].
    + assert (pw' = pw) as -> by congruence. eexists. cbn. rewrite <- Hpn, lookup_insert_eq.
      split; [done|]. split; [done|]. cbn. rewrite lookup_insert_ne; [done|]. intros Hx. congruence.
    + exists pw'. cbn. by rewrite lookup_insert_ne.
  - eexists. cbn. rewrite lookup_insert_eq. split; [done|]. split; [done|]. cbn. apply lookup_insert_eq.
Qed.

Lemma grown_trans o1 o2 o3 w1 w2 w3 :
  grown o1 o2 w1 w2 -> grown o2 o3 w2 w3 -> grown o1 o3 w1 w3.
Proof.
  intros [Ho Hs He] [Ho' Hs' He']. split; [by etrans|by etrans|].
  intros th [H|H]%He; [by apply He'|]. right. by apply Hs'.
Qed.

Lemma told_grown o o' w w' h :
  waiter_ok o w -> o ⊆ o' -> shut w' = shut w -> closedUntil w' = closedUntil w ->
  told o w h -> told o' w' h.
Proof.
  intros Hw Ho Es Eu [Hj Hp Hu].
  assert (forall c x, o' !! c = Some x -> c ∈ shut w -> o !! c = Some x) as Hback.
  { intros c x E Hc%(wo_shut _ _ Hw)%(wo_made _ _ Hw). destruct Hc as [y Hy].
    by rewrite (lookup_weaken _ _ _ _ Hy Ho) in E; simplify_eq. }
  split; rewrite ?Es, ?Eu; [| |done].
  - intros c pn jetID E Hc. by eapply Hj; [apply Hback|].
  - intros c pn E Hc. by eapply Hp; [apply Hback|].
Qed.

(** ** The operations keep it *)

Lemma close_jet o w c pn jetID :
  waiter_ok o w -> o !! c = Some (pn, Some jetID) -> c ∉ shut w ->
  exists w', close w c = Ret w' /\ waiter_ok o w' /\ grown o o w w' /\
    waiters w' = waiters w /\ shut w' = {[c]} ∪ shut w /\ closedUntil w' = closedUntil w.
Proof.
  intros Hw Ho Hc. unfold close, isClosed. rewrite bool_decide_false by done.
  eexists. split; [done|]. split_and!; cbn; try done.
  - destruct Hw as [Hm Hs Ht Hj]. split; cbn; try done.
    + intros d [->%elem_of_singleton|Hd%Hs]%elem_of_union; [|done]. apply Hm. by eexists.
    + intros pn' pw' E. destruct (Ht _ _ E) as [Ho' Hn]. split; [done|].
      rewrite elem_of_union, elem_of_singleton. intros [Hx|Hx]; [|done]. rewrite Hx in Ho'. congruence.
  - split; cbn; [done|by apply union_subseteq_r|]. by left.
Qed.

Lemma Unlock_ok o w bl h pulse jetID :
  waiter_ok o w -> blocked_ok o w bl -> told o w h ->
  exists o' w' err, Unlock w pulse jetID = Ret (w', err) /\
    waiter_ok o' w' /\ blocked_ok o' w' bl /\ told o' w' (Unlocked pulse jetID err :: h) /\
    grown o o' w w' /\
    exists c, o' !! c = Some (pulse, Some jetID) /\ c ∈ shut w' /\
      exists pw, waiters w' !! pulse = Some pw /\ jetWaiters pw !! jetID = Some c.
Proof.
  intros Hw Hb Ht. unfold Unlock. destruct (getOrCreate w pulse) as [w1 pw] eqn:E1.
  destruct (getOrCreate_ok _ _ _ _ _ Hw E1) as (o1 & Hw1 & Hg1 & Epw & Es1 & Eu1).
  destruct (jet_getOrCreate w1 pulse pw jetID) as [w2 c] eqn:E2.
  destruct (jet_getOrCreate_ok _ _ _ _ _ _ _ Hw1 Epw E2) as (o2 & Hw2 & Hg2 & (pw2 & Epw2 & _ & Ec) & Es2 & Eu2).
  cbn in Epw2, Ec. pose proof (grown_trans _ _ _ _ _ _ Hg1 Hg2) as Hg.
  pose proof (wo_jet _ _ Hw2 _ _ _ _ Epw2 Ec) as Hoc.
  assert (told o2 w2 h) as Ht2 by (eapply (told_grown o o2 w w2); [done|apply Hg|congruence|congruence|done]).
  assert (forall e, told o2 w2 (e :: h)) as Ht2'.
  { intros e. destruct Ht2 as [Hj Hp Hu]. split.
    - intros d pn j Hd Hs. right. by eapply Hj.
    - intros d pn Hd Hs. destruct (Hp d pn Hd Hs) as (q & ? & ?). exists q. split; [done|by right].
    - intros Hpos. destruct (Hu Hpos) as (q & ? & ?). exists q. split; [done|by right]. }
  destruct (isClosed w2 c) eqn:Ecl; unfold isClosed in Ecl.
  - apply bool_decide_eq_true in Ecl. exists o2, w2, (Some ErrWaiterNotLocked).
    split_and!; try done; [by eapply blocked_grown|]. exists c. split_and!; try done. by exists pw2.
  - apply bool_decide_eq_false in Ecl.
    destruct (close_jet o2 w2 c _ _ Hw2 Hoc Ecl) as (w3 & E3 & Hw3 & Hg3 & Ew3 & Es3 & Eu3).
    exists o2, w3, None. rewrite E3. pose proof (grown_trans _ _ _ _ _ _ Hg Hg3) as Hg'.
    split_and!; try done; [by eapply blocked_grown| |].
    + destruct (Ht2' (Unlocked pulse jetID None)) as [Hj Hp Hu]. split; rewrite ?Es3, ?Eu3; [| |done].
      * intros d pn j Hd [->%elem_of_singleton|Hs]%elem_of_union; [|by eapply Hj].
        assert (pn = pulse /\ j = jetID) as [-> ->] by (split; congruence). by left.
      * intros d pn Hd [->%elem_of_singleton|Hs]%elem_of_union; [congruence|by eapply Hp].
    + exists c. rewrite Es3, Ew3. split_and!; [done|by apply elem_of_union_l, elem_of_singleton|by exists pw2].
Qed.

Lemma CloseAllUntil_loop_ok o pulse entries w :
  waiter_ok o w -> NoDup entries.*1 -> (forall pn pw, (pn, pw) ∈ entries -> waiters w !! pn = Some pw) ->
  exists w', CloseAllUntil_loop entries pulse w = Ret w' /\ waiter_ok o w' /\ grown o o w w' /\
    closedUntil w' = closedUntil w /\
    (forall c, c ∈ shut w' -> c ∈ shut w \/ exists pn, pn <= pulse /\ o !! c = Some (pn, None)) /\
    (forall pn pw, (pn, pw) ∈ entries -> pn <= pulse -> timeout pw ∈ shut w').
Proof.
  revert w. induction entries as [|[pn pw] rest IH]; intros w Hw Hd He.
  { exists w. split_and!; try done; [by split; auto|by left|]. by intros ? ? ?%not_elem_of_nil. }
  cbn in Hd. apply list.NoDup_cons in Hd as [Hpn Hd]. cbn [CloseAllUntil_loop]. rewrite Z.gtb_ltb.
  destruct (Z.ltb_spec pulse pn) as [Hlt|Hge].
  { destruct (IH w Hw Hd) as (w' & E & Hw' & Hg & Eu & Hs & Ht).
    { intros pn' pw' Hin. apply He. by right. }
    exists w'. split_and!; try done. intros pn' pw' [[= -> ->]|Hin]%elem_of_cons Hle; [lia|by eapply Ht]. }
  assert (waiters w !! pn = Some pw) as Epw by (apply He; by left).
  destruct (wo_timeout _ _ Hw pn pw Epw) as [Hot Hnt].
  unfold close, isClosed. rewrite bool_decide_false by done. cbn.
  set (w1 := set_waiters _ _).
  assert (waiter_ok o w1) as Hw1.
  { split; cbn.
    - apply Hw.
    - intros c [->%elem_of_singleton|Hc]%elem_of_union; [|by apply (wo_shut _ _ Hw)].
      apply (wo_made _ _ Hw). by eexists.
    - intros pn' pw' [Hne E]%lookup_delete_Some. destruct (wo_timeout _ _ Hw _ _ E) as [H1 H2].
      split; [done|]. rewrite elem_of_union, elem_of_singleton. intros [Hx|Hx]; [|done].
      rewrite Hx in H1. congruence.
    - intros pn' pw' j c [Hne E]%lookup_delete_Some. by apply (wo_jet _ _ Hw). }
  destruct (IH w1 Hw1 Hd) as (w' & E & Hw' & Hg & Eu & Hs & Ht).
  { intros pn' pw' Hin. cbn. rewrite lookup_delete_ne; [apply He; by right|]. intros ->.
    apply Hpn. apply list_elem_of_fmap. by exists (pn', pw'). }
  assert (timeout pw ∈ shut w') as Hpt.
  { apply (gr_shut _ _ _ _ Hg). cbn. by apply elem_of_union_l, elem_of_singleton. }
  exists w'. split_and!; try done.
  - eapply grown_trans; [|exact Hg]. split; cbn; [done|by apply union_subseteq_r|].
    intros th (pw' & E' & Eti & Ej). destruct (decide (pn = t_pulse th)) as [Hp|Hne].
    + right. assert (pw' = pw) as -> by congruence. rewrite <- Eti. by apply elem_of_union_l, elem_of_singleton.
    + left. exists pw'. cbn. by rewrite lookup_delete_ne.
  - intros c [Hc|Hc]%Hs; [|by right]. cbn in Hc.
    apply elem_of_union in Hc as [->%elem_of_singleton|Hc]; [|by left]. right. by exists pn.
  - intros pn' pw' [[= -> ->]|Hin]%elem_of_cons Hle; [done|by eapply Ht].
Qed.

Lemma CloseAllUntil_ok o w bl h pulse :
  waiter_ok o w -> blocked_ok o w bl -> told o w h ->
  exists w', CloseAllUntil w pulse = Ret w' /\
    waiter_ok o w' /\ blocked_ok o w' bl /\ told o w' (ClosedAll pulse :: h) /\ grown o o w w' /\
    forall tid th, bl !! tid = Some th -> t_pulse th <= pulse -> t_timeout th ∈ shut w'.
Proof.
  intros Hw Hb [Hj Hp Hu]. unfold CloseAllUntil.
  destruct (CloseAllUntil_loop_ok o pulse (map_to_list (waiters w)) w Hw) as (w' & E & Hw' & Hg & Eu & Hs & Ht).
  { apply NoDup_fst_map_to_list. } { intros pn pw. by rewrite elem_of_map_to_list. }
  rewrite E. eexists. split; [done|].
  assert (waiter_ok o (mkWaiter pulse (waiters w') (made w') (shut w'))) as Hw2 by (destruct Hw'; split; assumption).
  assert (grown o o w (mkWaiter pulse (waiters w') (made w') (shut w'))) as Hg2 by (destruct Hg; split; assumption).
  split_and!; [done|by eapply blocked_grown| |done|].
  - assert (forall pn, over h pn -> over (ClosedAll pulse :: h) pn) as Hov.
    { intros pn (q & ? & ?). exists q. split; [done|by right]. }
    split; cbn.
    + intros c pn j Ho [Hc|(pn' & _ & Ho')]%Hs; [|congruence]. right. by eapply Hj.
    + intros c pn Ho [Hc|(pn' & Hle & Ho')]%Hs; [by eapply Hov, Hp|].
      assert (pn' = pn) as -> by congruence. exists pulse. split; [done|by left].
    + intros _. exists pulse. split; [done|by left].
  - intros tid th Eb Hle. cbn. destruct (bo_registered _ _ _ Hb tid th Eb) as [Hc|(pw & Epw & Eti & _)].
    + by apply (gr_shut _ _ _ _ Hg).
    + rewrite <- Eti. eapply Ht; [|exact Hle]. by apply elem_of_map_to_list.
Qed.

(** ** Any number of threads *)

(** Returning without an error: the hot data came, or the pulse was over
    already; with the error: the pulse is over. *)
Definition justified (h : list event) (jetID : Local) (pulse : Z) (err : option error) : Prop :=
  match err with
  | None => opened h pulse jetID \/ over h pulse \/ pulse <= 0
  | Some e => e = ErrHotDataTimeout /\ over h pulse
  end.

Record machine_ok (s : machine) : Prop := {
  mo_state : exists o, waiter_ok o (waiter s) /\ blocked_ok o (waiter s) (blocked s) /\
                       told o (waiter s) (history s);
  mo_returned : forall tid jetID pulse err, Returned tid jetID pulse err ∈ history s ->
    justified (history s) jetID pulse err;
}.

Lemma justified_mono h e jetID pulse err : justified h jetID pulse err -> justified (e :: h) jetID pulse err.
Proof.
  assert (over h pulse -> over (e :: h) pulse) as Hov.
  { intros (q & ? & ?). exists q. split; [done|by right]. }
  destruct err; cbn; [intros [? ?]; auto|]. intros [H|[H|H]]; [left; by right|right; by auto|by auto].
Qed.

Lemma returned_mono s s' e :
  machine_ok s -> history s' = e :: history s ->
  (forall tid jetID pulse err, e = Returned tid jetID pulse err -> justified (history s') jetID pulse err) ->
  forall tid jetID pulse err, Returned tid jetID pulse err ∈ history s' ->
    justified (history s') jetID pulse err.
Proof.
  intros [_ Hr] E He tid jetID pulse err. rewrite E at 1. intros [Hin|Hin]%elem_of_cons; [by eapply He|].
  rewrite E. apply justified_mono. by eapply Hr.
Qed.

Lemma told_more o w h e : told o w h -> told o w (e :: h).
Proof.
  intros [Hj Hp Hu].
  assert (forall pn, over h pn -> over (e :: h) pn) as Hov.
  { intros pn (q & ? & ?). exists q. split; [done|by right]. }
  split; [|by eauto|by auto]. intros c pn j Ho Hc. right. by eapply Hj.
Qed.

Lemma blocked_insert o w bl tid th :
  blocked_ok o w bl -> o !! t_wait th = Some (t_pulse th, Some (t_jet th)) ->
  o !! t_timeout th = Some (t_pulse th, None) -> registered w th ->
  blocked_ok o w (<[tid := th]> bl).
Proof.
  intros [Hw Ht Hr] Hwt Htt Hrt.
  split; intros tid' th' [[-> ->]|[Hne E]]%lookup_insert_Some; auto; by eauto.
Qed.

Lemma blocked_delete o w bl tid : blocked_ok o w bl -> blocked_ok o w (delete tid bl).
Proof. intros [Hw Ht Hr]. split; intros tid' th' [Hne E]%lookup_delete_Some; by eauto. Qed.

Lemma hstep_ok s e s' : machine_ok s -> hstep s e s' -> machine_ok s'.
Proof.
  intros Hok Hs. pose proof (mo_state _ Hok) as (o & Hw & Hb & Ht).
  split; [|eapply returned_mono; [exact Hok|by destruct Hs|];
    destruct Hs as [tid jetID pulse w Hfree E| |tid th err Eb Hsel| |]; try discriminate].
  - destruct Hs as [tid jetID pulse w _ E|tid jetID pulse w waitCh ti Hfree E|tid th err Eb Hsel|
      pulse jetID w err E|pulse w E]; cbn.
    + unfold Wait_enter in E. destruct (pulse <=? _); [injection E as <-|].
      * exists o. split_and!; [done|done|by apply told_more].
      * destruct (getOrCreate _ _) as [w1 pw]. by destruct (jet_getOrCreate _ _ _ _).
    + unfold Wait_enter in E. destruct (pulse <=? _); [done|].
      destruct (getOrCreate _ _) as [w1 pw] eqn:E1. destruct (jet_getOrCreate _ _ _ _) as [w2 c] eqn:E2.
      injection E as <- <- <-.
      destruct (getOrCreate_ok _ _ _ _ _ Hw E1) as (o1 & Hw1 & Hg1 & Epw & Es1 & Eu1).
      destruct (jet_getOrCreate_ok _ _ _ _ _ _ _ Hw1 Epw E2) as (o2 & Hw2 & Hg2 & Hreg & Es2 & Eu2).
      pose proof (grown_trans _ _ _ _ _ _ Hg1 Hg2) as Hg. exists o2. split_and!; [done| |].
      * apply blocked_insert; [by eapply blocked_grown| | |done]; destruct Hreg as (pw2 & Ep & Et & Ej).
        -- by eapply (wo_jet _ _ Hw2).
        -- rewrite <- Et. by apply (wo_timeout _ _ Hw2).
      * apply told_more. eapply (told_grown o o2 (waiter s) w2); [done|apply Hg|congruence|congruence|done].
    + exists o. split_and!; [done|by apply blocked_delete|by apply told_more].
    + destruct (Unlock_ok o _ _ _ pulse jetID Hw Hb Ht) as (o' & w' & err' & E' & Hw' & Hb' & Ht' & _).
      rewrite E' in E. injection E as <- <-. by exists o'.
    + destruct (CloseAllUntil_ok o _ _ _ pulse Hw Hb Ht) as (w' & E' & Hw' & Hb' & Ht' & _).
      rewrite E' in E. injection E as <-. by exists o.
  - intros tid' j p err [= <- <- <- <-]. cbn. unfold Wait_enter in E.
    destruct (Z.leb_spec pulse (closedUntil (waiter s))) as [Hle|].
    + destruct (decide (0 < closedUntil (waiter s))) as [Hpos|]; [|by right; right; lia].
      right; left. destruct (to_until _ _ _ Ht Hpos) as (q & Hq & Hin). exists q. split; [lia|by right].
    + destruct (getOrCreate _ _) as [w1 pw]. by destruct (jet_getOrCreate _ _ _ _).
  - intros tid' j p err' [= <- <- <- <-]. cbn [history]. apply justified_mono.
    unfold Wait_select, isClosed in Hsel. apply elem_of_app in Hsel as [Hin|Hin].
    + destruct (bool_decide_reflect (t_wait th ∈ shut (waiter s))); [|by apply not_elem_of_nil in Hin].
      apply list_elem_of_singleton in Hin as ->. left. eapply (to_jet _ _ _ Ht); [|done].
      by eapply (bo_wait _ _ _ Hb).
    + destruct (bool_decide_reflect (t_timeout th ∈ shut (waiter s))); [|by apply not_elem_of_nil in Hin].
      apply list_elem_of_singleton in Hin as ->. split; [done|]. eapply (to_pulse _ _ _ Ht); [|done].
      by eapply (bo_timeout _ _ _ Hb).
Qed.

Lemma waiter_start_ok : machine_ok start.
Proof.
  split; cbn; [|by intros ? ? ? ? ?%not_elem_of_nil]. exists ∅. split_and!; split; cbn; try done.
  all: intros; try rewrite lookup_empty in *; try done; try lia.
  split; [lia|]. by intros [? ?].
Qed.

Lemma machine_reach_ok s : reach hmove start s -> machine_ok s.
Proof.
  intros Hr. apply (reach_invariant hmove machine_ok start s waiter_start_ok); [|done].
  intros a b Ha [e He]. by eapply hstep_ok.
Qed.

(** C15: however threads wait, unlock jets and close pulses, no channel is
    closed twice, so no call panics; [Wait] returns without an error only if
    the jet was unlocked in the pulse or the pulse was over, and with
    [ErrHotDataTimeout] only if the pulse was over. *)
Theorem hot_waiter_safe s :
  reach hmove start s ->
  (forall pulse jetID, ~ panics (Unlock (waiter s) pulse jetID)) /\
  (forall pulse, ~ panics (CloseAllUntil (waiter s) pulse)) /\
  (forall tid jetID pulse err, Returned tid jetID pulse err ∈ history s ->
     justified (history s) jetID pulse err).
Proof.
  intros Hr%machine_reach_ok. pose proof (mo_state _ Hr) as (o & Hw & Hb & Ht).
  split_and!; [| |apply Hr].
  - intros pulse jetID. destruct (Unlock_ok o _ _ _ pulse jetID Hw Hb Ht) as (? & ? & ? & -> & _). intros [].
  - intros pulse. destruct (CloseAllUntil_ok o _ _ _ pulse Hw Hb Ht) as (? & -> & _). intros [].
Qed.

(** ** Nobody waits for ever

    A run is an infinite sequence of machines; between two of them something
    happens, or nothing.  It is fair when a select that is ready is taken, or
    stops being ready. *)
Record is_run (r : nat -> machine) (ev : nat -> option event) : Prop := {
  run_start : r O = start;
  run_step : forall n, match ev n with Some e => hstep (r n) e (r (S n)) | None => r (S n) = r n end;
}.

Definition ready (s : machine) (tid : nat) (th : thread) : Prop :=
  blocked s !! tid = Some th /\ Wait_select (waiter s) (t_wait th) (t_timeout th) <> [].

Definition returns (ev : nat -> option event) (tid : nat) (th : thread) (k : nat) : Prop :=
  exists err, ev k = Some (Returned tid (t_jet th) (t_pulse th) err).

Definition fair (r : nat -> machine) (ev : nat -> option event) : Prop :=
  forall n tid th, ready (r n) tid th -> exists m, (n <= m)%nat /\ (returns ev tid th m \/ ~ ready (r m) tid th).

Lemma ready_shut s tid th :
  blocked s !! tid = Some th -> t_wait th ∈ shut (waiter s) \/ t_timeout th ∈ shut (waiter s) ->
  ready s tid th.
Proof.
  intros Eb Hc. split; [done|]. unfold Wait_select, isClosed. destruct Hc as [Hc|Hc].
  - by rewrite bool_decide_true.
  - rewrite (bool_decide_true (t_timeout th ∈ _)) by done. by destruct (bool_decide (t_wait th ∈ _)).
Qed.

Lemma shut_ready s tid th :
  ready s tid th -> t_wait th ∈ shut (waiter s) \/ t_timeout th ∈ shut (waiter s).
Proof.
  intros [_ Hs]. unfold Wait_select, isClosed in Hs.
  destruct (bool_decide_reflect (t_wait th ∈ shut (waiter s))); [by left|].
  destruct (bool_decide_reflect (t_timeout th ∈ shut (waiter s))); [by right|]. by destruct Hs.
Qed.

Lemma shut_mono s e s' : machine_ok s -> hstep s e s' -> shut (waiter s) ⊆ shut (waiter s').
Proof.
  intros Hok Hs. pose proof (mo_state _ Hok) as (o & Hw & Hb & Ht).
  assert (forall jetID pulse w x, Wait_enter (waiter s) jetID pulse = (w, x) -> shut (waiter s) ⊆ shut w) as He.
  { intros jetID pulse w x. unfold Wait_enter. destruct (pulse <=? _); [by intros [= <- _]|].
    destruct (getOrCreate _ _) as [w1 pw] eqn:E1. destruct (jet_getOrCreate _ _ _ _) as [w2 c] eqn:E2.
    destruct (getOrCreate_ok _ _ _ _ _ Hw E1) as (o1 & Hw1 & _ & Epw & Es1 & _).
    destruct (jet_getOrCreate_ok _ _ _ _ _ _ _ Hw1 Epw E2) as (o2 & _ & _ & _ & Es2 & _).
    intros [= <- _]. by rewrite Es2, Es1. }
  destruct Hs as [tid jetID pulse w _ E|tid jetID pulse w waitCh ti _ E|tid th err Eb Hsel|
    pulse jetID w err E|pulse w E]; cbn; try by eapply He. 1: done.
  - destruct (Unlock_ok o _ _ _ pulse jetID Hw Hb Ht) as (o' & w' & err' & E' & _ & _ & _ & Hg & _).
    rewrite E' in E. injection E as <- <-. apply Hg.
  - destruct (CloseAllUntil_ok o _ _ _ pulse Hw Hb Ht) as (w' & E' & _ & _ & _ & Hg & _).
    rewrite E' in E. injection E as <-. apply Hg.
Qed.

(** A blocked thread stays until it returns. *)
Lemma hstep_blocked s e s' tid th :
  hstep s e s' -> blocked s !! tid = Some th ->
  blocked s' !! tid = Some th \/ exists err, e = Returned tid (t_jet th) (t_pulse th) err.
Proof.
  intros Hs Eb. destruct Hs as [tid'|tid'|tid' th' err Eb'| |]; cbn; try by left.
  - left. rewrite lookup_insert_ne; [done|]. intros ->. congruence.
  - destruct (decide (tid' = tid)) as [->|Hne]; [|left; by rewrite lookup_delete_ne].
    right. exists err. by replace th' with th by congruence.
Qed.

Section Run.
Context (r : nat -> machine) (ev : nat -> option event) (Hrun : is_run r ev).

Lemma run_ok n : machine_ok (r n).
Proof.
  induction n as [|n IH]; [rewrite (run_start _ _ Hrun); apply waiter_start_ok|].
  pose proof (run_step _ _ Hrun n) as Hs. destruct (ev n) as [e|]; [by eapply hstep_ok|by rewrite Hs].
Qed.

Lemma run_blocked n tid th d :
  blocked (r n) !! tid = Some th ->
  (exists k, (n <= k)%nat /\ returns ev tid th k) \/ blocked (r (n + d)) !! tid = Some th.
Proof.
  intros Eb. induction d as [|d [IH|IH]]; [right; by rewrite Nat.add_0_r|by left|].
  rewrite Nat.add_succ_r. pose proof (run_step _ _ Hrun (n + d)) as Hs.
  destruct (ev (n + d)%nat) as [e|] eqn:Ee; [|right; by rewrite Hs].
  destruct (hstep_blocked _ _ _ _ _ Hs IH) as [H|[err ->]]; [by right|].
  left. exists (n + d)%nat. split; [lia|by exists err].
Qed.

Lemma run_shut n d : shut (waiter (r n)) ⊆ shut (waiter (r (n + d))).
Proof.
  induction d as [|d IH]; [by rewrite Nat.add_0_r|]. rewrite Nat.add_succ_r.
  pose proof (run_step _ _ Hrun (n + d)) as Hs.
  destruct (ev (n + d)%nat) as [e|]; [|by rewrite Hs]. etrans; [exact IH|].
  eapply shut_mono; [apply run_ok|exact Hs].
Qed.

Lemma ready_returns n tid th :
  fair r ev -> ready (r n) tid th -> exists k, (n <= k)%nat /\ returns ev tid th k.
Proof.
  intros Hf Hr. destruct (Hf n tid th Hr) as (m & Hm & [Hret|Hn]); [by exists m|].
  replace m with (n + (m - n))%nat in Hn by lia.
  destruct (run_blocked n tid th (m - n)) as [?|Eb]; [apply Hr|done|]. destruct Hn.
  apply ready_shut; [done|]. destruct (shut_ready _ _ _ Hr); [left|right]; by apply (run_shut n).
Qed.
End Run.

(** C14: in a fair run a [Wait] that blocked returns once the jet is unlocked
    in the pulse, by whoever and with whatever result, or the pulse or a later
    one is closed. *)
Theorem hot_waiter_live r ev n m tid th :
  is_run r ev -> fair r ev -> blocked (r n) !! tid = Some th -> (n <= m)%nat ->
  ((exists err, ev m = Some (Unlocked (t_pulse th) (t_jet th) err)) \/
   (exists q, t_pulse th <= q /\ ev m = Some (ClosedAll q))) ->
  exists k, (n <= k)%nat /\ returns ev tid th k.
Proof.
  intros Hrun Hf Eb Hm He.
  destruct (run_blocked r ev Hrun n tid th (m - n) Eb) as [?|Ebm]; [done|].
  replace (n + (m - n))%nat with m in Ebm by lia.
  destruct (run_blocked r ev Hrun m tid th 1 Ebm) as [(k & ? & ?)|Ebm1].
  { exists k. split; [lia|done]. }
  rewrite Nat.add_1_r in Ebm1. enough (ready (r (S m)) tid th) as Hr.
  { destruct (ready_returns r ev Hrun (S m) tid th Hf Hr) as (k & ? & ?). exists k. split; [lia|done]. }
  apply ready_shut; [done|]. pose proof (run_step _ _ Hrun m) as Hs.
  pose proof (mo_state _ (run_ok r ev Hrun m)) as (o & Hw & Hb & Ht).
  destruct He as [[err E]|(q & Hq & E)]; rewrite E in Hs; inversion Hs as [| | |pulse jetID w err' Eu|pulse w Eu]; subst.
  - destruct (Unlock_ok o _ _ _ (t_pulse th) (t_jet th) Hw Hb Ht)
      as (o' & w' & err' & E' & Hw' & Hb' & _ & _ & c & Hoc & Hc & pw & Epw & Ec).
    rewrite E' in Eu. injection Eu as <- <-. cbn.
    destruct (bo_registered _ _ _ Hb' tid th Ebm) as [|(pw' & Epw' & _ & Ec')]; [by right|].
    left. assert (pw' = pw) as -> by congruence. by replace (t_wait th) with c by congruence.
  - destruct (CloseAllUntil_ok o _ _ _ q Hw Hb Ht) as (w' & E' & _ & _ & _ & _ & Hc).
    rewrite E' in Eu. injection Eu as <-. cbn. right. by eapply Hc.
Qed.

(** ** A run *)
Module SampleWait.

Definition jet : Local := emptyLocal.
Definition th : thread := mkThread jet 5 1 0.
Definition waiting : ChannelWaiter := mkWaiter 0 {[5 := mkPulseWaiter {[jet := 1%nat]} 0]} 2 ∅.
Definition unlocked : ChannelWaiter :=
  mkWaiter 0 {[5 := mkPulseWaiter {[jet := 1%nat]} 0]} 2 ({[1%nat]} ∪ ∅).
Definition h1 : list event := [Waiting 0 jet 5].
Definition h2 : list event := Unlocked 5 jet None :: h1.
Definition h3 : list event := Returned 0 jet 5 None :: h2.

Definition r (n : nat) : machine :=
  match n with
  | O => start
  | 1%nat => mkMachine waiting {[O := th]} h1
  | 2%nat => mkMachine unlocked {[O := th]} h2
  | _ => mkMachine unlocked (delete O {[O := th]}) h3
  end.
Definition ev (n : nat) : option event :=
  match n with
  | O => Some (Waiting 0 jet 5)
  | 1%nat => Some (Unlocked 5 jet None)
  | 2%nat => Some (Returned 0 jet 5 None)
  | _ => None
  end.

Lemma sample_run : is_run r ev.
Proof.
  split; [reflexivity|]. intros [|[|[|n]]]; [| | |reflexivity].
  - refine (hs_block start 0 jet 5 waiting 1 0 _ _); vm_compute; reflexivity.
  - refine (hs_unlock (r 1) 5 jet unlocked None _). vm_compute. reflexivity.
  - refine (hs_wake (r 2) 0 th None _ _); [vm_compute; reflexivity|]. left.
Qed.

Lemma sample_fair : fair r ev.
Proof.
  intros n tid t Hr. exists (n + 3)%nat. split; [lia|]. right. intros [Eb _].
  rewrite Nat.add_comm in Eb. cbn in Eb. rewrite delete_singleton_eq, lookup_empty in Eb. discriminate.
Qed.

Lemma hot_waiter_live_witness : exists k, (1 <= k)%nat /\ returns ev 0 th k.
Proof.
  apply (hot_waiter_live r ev 1 1 0 th sample_run sample_fair).
  - vm_compute. reflexivity.
  - reflexivity.
  - left. exists None. reflexivity.
Defined.

Lemma hot_waiter_safe_witness :
  (forall pulse jetID, ~ panics (Unlock (waiter (r 3)) pulse jetID)) /\
  (forall pulse, ~ panics (CloseAllUntil (waiter (r 3)) pulse)) /\
  (forall tid jetID pulse err, Returned tid jetID pulse err ∈ history (r 3) ->
     justified (history (r 3)) jetID pulse err).
Proof.
  apply hot_waiter_safe. apply (reach_step _ _ (r 2)); [|exists (Returned 0 jet 5 None); exact (run_step _ _ sample_run 2)].
  apply (reach_step _ _ (r 1)); [|exists (Unlocked 5 jet None); exact (run_step _ _ sample_run 1)].
  apply (reach_step _ _ start); [apply reach_init|]. exists (Waiting 0 jet 5). exact (run_step _ _ sample_run 0).
Defined.
End SampleWait.
