(* ===== verification/IndexLocker.v ===== *)
(** * Locks per object (src/ledger/object/lock.go)

    The locker keeps a mutex per object, counted by the threads that use it:
    [Lock] finds or makes it and counts in, under the locker's own mutex
    ([Lock_enter]), then waits for it ([Mutex_Lock]); [Unlock] counts out and
    drops it when nobody is left.  Mutexes are objects with an address, so
    that a thread keeps the one it found.  Any number of threads, fewer than
    [2^31], interleave. *)
From S2P Require Import Prelude Pulse Reference.

Record mucount : Type := mkMucount { count : Z; mu_locked : bool }.
Record idLocker : Type := mkLocker {
  muxs : gmap Local nat;
  mutexes : gmap nat mucount;
  addrs_made : nat;
}.
Definition NewIndexLocker : idLocker := mkLocker ∅ ∅ 0.

(** [count] is an [int32]. *)
Definition i32 (z : Z) : Z := (z + 2^31) mod 2^32 - 2^31.

(** The pulse should not be considered when locking. *)
Definition normalize (id : Local) : go Local := NewRecordID LocalRelative (Local_Hash id).

Definition Lock_enter (l : idLocker) (id : Local) : go (idLocker * nat) :=
  normalizedID ← normalize id;
  let '(l, a) :=
    match muxs l !! normalizedID with
    | Some a => (l, a)
    | None =>
        (mkLocker (<[normalizedID := addrs_made l]> (muxs l))
           (<[addrs_made l := mkMucount 0 false]> (mutexes l)) (S (addrs_made l)), addrs_made l)
    end in
  match mutexes l !! a with
  | Some mc => Ret (mkLocker (muxs l) (<[a := mkMucount (i32 (count mc + 1)) (mu_locked mc)]> (mutexes l))
                      (addrs_made l), a)
  | None => Panic "nil pointer"
  end.

(** [mc.Lock()]; [None] while it has to wait. *)
Definition Mutex_Lock (l : idLocker) (a : nat) : option idLocker :=
  match mutexes l !! a with
  | Some (mkMucount n false) => Some (mkLocker (muxs l) (<[a := mkMucount n true]> (mutexes l)) (addrs_made l))
  | _ => None
  end.

Definition Unlock (l : idLocker) (id : Local) : go idLocker :=
  zeroID ← normalize id;
  match muxs l !! zeroID with
  | None => Panic "try to unlock not initialized mutex"
  | Some a =>
      match mutexes l !! a with
      | None => Panic "nil pointer"
      | Some mc =>
          if negb (mu_locked mc) then Panic "sync: Unlock of unlocked RWMutex"
          else
            let n := i32 (count mc - 1) in
            let mutexes' := <[a := mkMucount n false]> (mutexes l) in
            Ret (mkLocker (if n =? 0 then delete zeroID (muxs l) else muxs l) mutexes' (addrs_made l))
      end
  end.

(** ** Threads: between [Lock_enter] and [Mutex_Lock], or holding the lock *)
Record locking : Type := mkLocking { lk_id : Local; lk_addr : nat; lk_holds : bool }.
Record machine : Type := mkMachine { locker : idLocker; threads : gmap nat locking }.
Definition start : machine := mkMachine NewIndexLocker ∅.

Inductive lock_step (s : machine) : machine -> Prop :=
  | ls_enter tid id l a :
      threads s !! tid = None -> Z.of_nat (size (threads s)) < 2^31 - 1 ->
      Lock_enter (locker s) id = Ret (l, a) ->
      lock_step s (mkMachine l (<[tid := mkLocking id a false]> (threads s)))
  | ls_acquire tid id a l :
      threads s !! tid = Some (mkLocking id a false) -> Mutex_Lock (locker s) a = Some l ->
      lock_step s (mkMachine l (<[tid := mkLocking id a true]> (threads s)))
  | ls_unlock tid id a l :
      threads s !! tid = Some (mkLocking id a true) -> Unlock (locker s) id = Ret l ->
      lock_step s (mkMachine l (delete tid (threads s))).

(** ** The invariant *)
Definition norm (id : Local) : Local := mkLocal LocalRelative (hash id).
Definition users (ts : gmap nat locking) (n : Local) : nat :=
  size (filter (fun kv => norm (lk_id kv.2) = n) ts).
Definition held (ts : gmap nat locking) (n : Local) : Prop :=
  exists tid t, ts !! tid = Some t /\ lk_holds t = true /\ norm (lk_id t) = n.

(** Every thread has the mutex of its object; a mutex is there while it has
    users, counts them, and is locked when one of them holds it. *)
Record lock_ok (s : machine) : Prop := {
  lo_users : forall tid t, threads s !! tid = Some t -> muxs (locker s) !! norm (lk_id t) = Some (lk_addr t);
  lo_entry : forall n a, muxs (locker s) !! n = Some a ->
    (0 < users (threads s) n)%nat /\ exists b,
      mutexes (locker s) !! a = Some (mkMucount (Z.of_nat (users (threads s) n)) b) /\
      (b = true <-> held (threads s) n);
  lo_inj : forall n n' a, muxs (locker s) !! n = Some a -> muxs (locker s) !! n' = Some a -> n = n';
  lo_made : forall n a, muxs (locker s) !! n = Some a -> (a < addrs_made (locker s))%nat;
  lo_one : forall tid tid' t t', threads s !! tid = Some t -> threads s !! tid' = Some t' ->
    lk_holds t = true -> lk_holds t' = true -> norm (lk_id t) = norm (lk_id t') -> tid = tid';
  lo_size : Z.of_nat (size (threads s)) < 2^31;
}.

Lemma normalize_norm id : normalize id = Ret (norm id).
Proof. reflexivity. Qed.

Lemma i32_small z : -2^31 <= z < 2^31 -> i32 z = z.
Proof. intros. unfold i32. rewrite Z.mod_small; lia. Qed.

Lemma users_insert ts tid t n :
  ts !! tid = None ->
  users (<[tid := t]> ts) n = ((if decide (norm (lk_id t) = n) then 1 else 0) + users ts n)%nat.
Proof.
  intros Hn. unfold users. destruct (decide (norm (lk_id t) = n)) as [Hu|Hu].
  - rewrite map_filter_insert_True by done. rewrite map_size_insert_None; [done|].
    apply map_lookup_filter_None. by left.
  - rewrite map_filter_insert_False by done. by rewrite delete_id.
Qed.

Lemma users_delete ts tid t n :
  ts !! tid = Some t ->
  users ts n = ((if decide (norm (lk_id t) = n) then 1 else 0) + users (delete tid ts) n)%nat.
Proof.
  intros Ht. rewrite <- (insert_delete_id ts tid t Ht) at 1.
  apply users_insert, lookup_delete_eq.
Qed.
Lemma users_pos ts tid t : ts !! tid = Some t -> (0 < users ts (norm (lk_id t)))%nat.
Proof. intros Ht. rewrite (users_delete ts tid t), decide_True by done. lia. Qed.

Lemma users_update ts tid t t' n :
  ts !! tid = Some t -> lk_id t' = lk_id t -> users (<[tid := t']> ts) n = users ts n.
Proof.
  intros Ht E. rewrite <- insert_delete_eq, users_insert by apply lookup_delete_eq.
  rewrite (users_delete ts tid t) by done. by rewrite E.
Qed.

Lemma users_le ts n : (users ts n <= size ts)%nat.
Proof. apply map_size_filter. Qed.


(** The mutex of an object before the thread counts in. *)
Record found (s : machine) (l : idLocker) (n : Local) (a : nat) : Prop := {
  fd_mux : muxs l !! n = Some a;
  fd_mutex : exists b, mutexes l !! a = Some (mkMucount (Z.of_nat (users (threads s) n)) b) /\
    (b = true <-> held (threads s) n);
  fd_others : forall n', n' <> n -> muxs l !! n' = muxs (locker s) !! n' /\ muxs l !! n' <> Some a;
  fd_mutexes : forall a', a' <> a -> mutexes l !! a' = mutexes (locker s) !! a';
  fd_kept : forall a', muxs (locker s) !! n = Some a' -> a' = a;
  fd_made : (a < addrs_made l)%nat /\ (addrs_made (locker s) <= addrs_made l)%nat;
}.

Lemma users_none s n : lock_ok s -> muxs (locker s) !! n = None ->
  users (threads s) n = 0%nat /\ ~ held (threads s) n.
Proof.
  intros Hs Hn. split.
  - unfold users. apply map_size_empty_iff, map_empty. intros tid.
    apply map_lookup_filter_None. right. intros t Et E. cbn in E.
    pose proof (lo_users _ Hs tid t Et). congruence.
  - intros (tid & t & Et & _ & E). pose proof (lo_users _ Hs tid t Et). congruence.
Qed.

Lemma enter_found s id l a :
  lock_ok s -> Lock_enter (locker s) id = Ret (l, a) ->
  exists l1 c b, found s l1 (norm id) a /\ mutexes l1 !! a = Some (mkMucount c b) /\
    l = mkLocker (muxs l1) (<[a := mkMucount (i32 (c + 1)) b]> (mutexes l1)) (addrs_made l1).
Proof.
  intros Hs. unfold Lock_enter. rewrite normalize_norm. cbn [mbind go_bind].
  destruct (muxs (locker s) !! norm id) as [a0|] eqn:En.
  - destruct (lo_entry _ Hs _ _ En) as (_ & b & Eb & Hb). rewrite Eb. intros [= <- <-].
    exists (locker s), (Z.of_nat (users (threads s) (norm id))), b. split; [|done].
    split; [done|by exists b| |done|congruence|].
    + intros n' Hne. split; [done|]. intros E. apply Hne. by eapply (lo_inj _ Hs).
    + split; [by eapply (lo_made _ Hs)|done].
  - cbn [mutexes]. rewrite lookup_insert_eq. intros [= <- <-].
    destruct (users_none s _ Hs En) as [Hu Hh].
    exists (mkLocker (<[norm id := addrs_made (locker s)]> (muxs (locker s)))
      (<[addrs_made (locker s) := mkMucount 0 false]> (mutexes (locker s))) (S (addrs_made (locker s)))), 0, false.
    split; [|split; [|reflexivity]].
    + split; cbn.
      * apply lookup_insert_eq.
      * exists false. rewrite lookup_insert_eq, Hu. split; [done|]. split; [done|by intros ?%Hh].
      * intros n' Hne. rewrite lookup_insert_ne by done. split; [done|].
        intros E%(lo_made _ Hs). lia.
      * intros a' Hne. by rewrite lookup_insert_ne.
      * congruence.
      * lia.
    + cbn. by rewrite lookup_insert_eq.
Qed.

Lemma held_insert ts tid t n :
  ts !! tid = None -> lk_holds t = false -> held (<[tid := t]> ts) n <-> held ts n.
Proof.
  intros Hn Hf. split; intros (tid' & t' & Et & Eh & Em).
  - destruct (decide (tid = tid')) as [<-|Hne]; [rewrite lookup_insert_eq in Et; congruence|].
    rewrite lookup_insert_ne in Et by done. by exists tid', t'.
  - exists tid', t'. rewrite lookup_insert_ne; [done|]. intros <-. congruence.
Qed.

(** A thread comes: its object's mutex is found or made. *)
Lemma enter_ok s tid id l a :
  lock_ok s -> threads s !! tid = None -> Z.of_nat (size (threads s)) < 2^31 - 1 ->
  Lock_enter (locker s) id = Ret (l, a) ->
  lock_ok (mkMachine l (<[tid := mkLocking id a false]> (threads s))).
Proof.
  intros Hs Hn Hlt (l1 & c & b & [Fm (b' & Fe & Fb) Fo Fa Fk Fn] & Ec & ->)%enter_found; [|done].
  rewrite Fe in Ec. injection Ec as <- <-. pose proof (users_le (threads s) (norm id)) as Hle.
  assert (forall m, users (<[tid := mkLocking id a false]> (threads s)) m =
    ((if decide (norm id = m) then 1 else 0) + users (threads s) m)%nat) as Hus
    by (intros m; by apply users_insert).
  split; cbn.
  - intros tid' t. destruct (decide (tid = tid')) as [<-|Hne]; [rewrite lookup_insert_eq; by intros [= <-]|].
    rewrite lookup_insert_ne by done. intros Et. pose proof (lo_users _ Hs _ _ Et) as E.
    destruct (decide (norm (lk_id t) = norm id)) as [En|Hid]; [|by rewrite (proj1 (Fo _ Hid))].
    rewrite En in E |- *. by rewrite Fm, (Fk _ E).
  - intros n' a' E. rewrite Hus. destruct (decide (norm id = n')) as [<-|Hne].
    + assert (a' = a) as -> by congruence. split; [lia|]. exists b'. rewrite lookup_insert_eq, i32_small.
      * split; [do 2 f_equal; lia|]. by rewrite held_insert.
      * lia.
    + assert (n' <> norm id) as Hne' by congruence. destruct (Fo n' Hne') as [Em Ea]. rewrite Em in E.
      destruct (lo_entry _ Hs _ _ E) as (Hp & b & Eb & Hb). split; [lia|]. exists b.
      rewrite lookup_insert_ne, Fa by congruence. by rewrite held_insert.
  - intros n1 n2 a' E1 E2. destruct (decide (n1 = norm id)) as [->|H1], (decide (n2 = norm id)) as [->|H2];
      [done|destruct (Fo n2 H2)|destruct (Fo n1 H1)|]; [congruence..|].
    rewrite (proj1 (Fo n1 H1)) in E1. rewrite (proj1 (Fo n2 H2)) in E2. by eapply (lo_inj _ Hs).
  - intros n' a' E. destruct (decide (n' = norm id)) as [->|H1]; [assert (a' = a) as -> by congruence; lia|].
    rewrite (proj1 (Fo n' H1)) in E. apply (lo_made _ Hs) in E. lia.
  - intros t1 t2 u1 u2 E1 E2 H1 H2 En.
    destruct (decide (tid = t1)) as [<-|Hd1]; [rewrite lookup_insert_eq in E1; by injection E1 as <-|].
    destruct (decide (tid = t2)) as [<-|Hd2]; [rewrite lookup_insert_eq in E2; by injection E2 as <-|].
    rewrite lookup_insert_ne in E1, E2 by done. by eapply (lo_one _ Hs).
  - rewrite map_size_insert_None by done. lia.
Qed.

(** A thread gets its mutex: nobody held it. *)
Lemma acquire_ok s tid id a l :
  lock_ok s -> threads s !! tid = Some (mkLocking id a false) -> Mutex_Lock (locker s) a = Some l ->
  lock_ok (mkMachine l (<[tid := mkLocking id a true]> (threads s))).
Proof.
  intros Hs Ht. unfold Mutex_Lock. pose proof (lo_users _ Hs _ _ Ht) as Em. cbn in Em.
  destruct (lo_entry _ Hs _ _ Em) as (Hp & b & Eb & Hb). rewrite Eb. destruct b; [done|]. intros [= <-].
  assert (~ held (threads s) (norm id)) as Hfree by (intros H; apply Hb in H; done).
  set (ts := <[tid := _]> (threads s)).
  assert (forall n, users ts n = users (threads s) n) as Hus by (intros n; by eapply users_update).
  assert (forall n, n <> norm id -> held ts n <-> held (threads s) n) as Hh.
  { intros n Hne. split; intros (t' & u & Eu & Eh & En); exists t', u; (split; [|done]);
      unfold ts in *; (destruct (decide (tid = t')) as [<-|Hd]; [|by rewrite lookup_insert_ne in * by done]).
    - rewrite lookup_insert_eq in Eu. injection Eu as <-. by destruct Hne.
    - rewrite Ht in Eu. by injection Eu as <-. }
  split; cbn.
  - intros t' u. unfold ts. destruct (decide (tid = t')) as [<-|Hd]; [rewrite lookup_insert_eq; by intros [= <-]|].
    rewrite lookup_insert_ne by done. apply (lo_users _ Hs).
  - intros n a' E. rewrite Hus. destruct (lo_entry _ Hs _ _ E) as (Hp' & b' & Eb' & Hb'). split; [done|].
    destruct (decide (n = norm id)) as [->|Hne].
    + assert (a' = a) as -> by congruence. exists true. rewrite lookup_insert_eq. split; [done|].
      split; [|done]. intros _. exists tid, (mkLocking id a true). unfold ts. by rewrite lookup_insert_eq.
    + exists b'. rewrite lookup_insert_ne, Hh; [done..|]. intros <-. apply Hne. by eapply (lo_inj _ Hs).
  - apply (lo_inj _ Hs).
  - apply (lo_made _ Hs).
  - intros t1 t2 u1 u2 E1 E2 H1 H2 En. unfold ts in E1, E2.
    assert (forall t u, <[tid := mkLocking id a true]> (threads s) !! t = Some u -> lk_holds u = true ->
      norm (lk_id u) = norm id -> t = tid) as Honly.
    { intros t u E H E'. destruct (decide (tid = t)) as [<-|Hd]; [done|]. rewrite lookup_insert_ne in E by done.
      destruct Hfree. by exists t, u. }
    destruct (decide (tid = t1)) as [<-|Hd1].
    + rewrite lookup_insert_eq in E1. injection E1 as <-. symmetry. by apply (Honly t2 u2).
    + destruct (decide (tid = t2)) as [<-|Hd2].
      * rewrite lookup_insert_eq in E2. injection E2 as <-. by apply (Honly t1 u1).
      * rewrite lookup_insert_ne in E1, E2 by done. by eapply (lo_one _ Hs).
  - unfold ts. rewrite map_size_insert_Some by done. apply (lo_size _ Hs).
Qed.

(** Who holds a lock can unlock it. *)
Lemma Unlock_holder s tid id a :
  lock_ok s -> threads s !! tid = Some (mkLocking id a true) ->
  exists l, Unlock (locker s) id = Ret l /\ addrs_made l = addrs_made (locker s) /\
    muxs l = (if (users (threads s) (norm id) =? 1)%nat then delete (norm id) (muxs (locker s)) else muxs (locker s)) /\
    mutexes l = <[a := mkMucount (Z.of_nat (users (threads s) (norm id)) - 1) false]> (mutexes (locker s)).
Proof.
  intros Hs Ht. unfold Unlock. rewrite normalize_norm. cbn [mbind go_bind].
  pose proof (lo_users _ Hs _ _ Ht) as Em. cbn in Em. rewrite Em.
  destruct (lo_entry _ Hs _ _ Em) as (Hp & b & Eb & Hb). rewrite Eb.
  pose proof (users_le (threads s) (norm id)). pose proof (lo_size _ Hs).
  destruct b; cbn [count mu_locked negb].
  - eexists. split; [reflexivity|]. cbn. split; [done|]. rewrite i32_small by lia. split; [|done].
    destruct (Nat.eqb_spec (users (threads s) (norm id)) 1) as [->|Hne]; [done|].
    destruct (Z.eqb_spec (Z.of_nat (users (threads s) (norm id)) - 1) 0); [lia|done].
  - assert (false = true); [|done]. apply Hb. by exists tid, (mkLocking id a true).
Qed.

Lemma unlock_ok s tid id a l :
  lock_ok s -> threads s !! tid = Some (mkLocking id a true) -> Unlock (locker s) id = Ret l ->
  lock_ok (mkMachine l (delete tid (threads s))).
Proof.
  intros Hs Ht El. destruct (Unlock_holder s tid id a Hs Ht) as (l' & El' & Emade & Emux & Emut).
  rewrite El in El'. injection El' as <-. pose proof (lo_users _ Hs _ _ Ht) as Em. cbn in Em.
  set (ts := delete tid (threads s)).
  assert (forall n, users (threads s) n = ((if decide (norm id = n) then 1 else 0) + users ts n)%nat) as Hus
    by (intros n; by apply (users_delete _ tid (mkLocking id a true))).
  assert (forall t u, ts !! t = Some u -> tid <> t /\ threads s !! t = Some u) as Hold
    by (intros t u E; by apply lookup_delete_Some in E).
  assert (~ held ts (norm id)) as Hfree.
  { intros (t & u & [Hne E]%Hold & Eh & En). apply Hne. eapply (lo_one _ Hs); [exact Ht|exact E|done..]. }
  assert (forall n, n <> norm id -> held ts n <-> held (threads s) n) as Hh.
  { intros n Hne. split; intros (t & u & E & Eh & En); exists t, u; (split; [|done]); [by apply Hold|].
    apply lookup_delete_Some. split; [|done]. intros <-. rewrite Ht in E. injection E as <-. by destruct Hne. }
  assert (forall n a', muxs l !! n = Some a' -> muxs (locker s) !! n = Some a' /\ (0 < users ts n)%nat) as Hmux.
  { intros n a' E. rewrite Emux in E. pose proof (Hus n) as Hn. pose proof (Hus (norm id)) as Hid.
    rewrite decide_True in Hid by done. destruct (Nat.eqb_spec (users (threads s) (norm id)) 1) as [E1|Hne].
    - apply lookup_delete_Some in E as [Hd E]. rewrite decide_False in Hn by done.
      destruct (lo_entry _ Hs _ _ E) as [Hp _]. split; [done|lia].
    - destruct (lo_entry _ Hs _ _ E) as [Hp _]. split; [done|]. destruct (decide (norm id = n)) as [<-|]; lia. }
  split; cbn.
  - intros t u [Hne E]%Hold. pose proof (lo_users _ Hs _ _ E) as Eu. rewrite Emux.
    destruct (Nat.eqb_spec (users (threads s) (norm id)) 1) as [E1|]; [|done].
    rewrite lookup_delete_ne; [done|]. intros En. pose proof (Hus (norm id)) as Hid.
    rewrite decide_True in Hid by done. pose proof (users_pos ts t u) as Hp. rewrite <- En in Hp.
    assert (ts !! t = Some u) as E' by (by apply lookup_delete_Some). specialize (Hp E'). lia.
  - intros n a' E. destruct (Hmux n a' E) as [E' Hp]. split; [done|].
    destruct (lo_entry _ Hs _ _ E') as (_ & b & Eb & Hb). rewrite Emut.
    destruct (decide (n = norm id)) as [->|Hne].
    + assert (a' = a) as -> by congruence. exists false. rewrite lookup_insert_eq, Hus, decide_True by done.
      split; [do 2 f_equal; lia|]. split; [done|by intros ?%Hfree].
    + exists b. rewrite lookup_insert_ne by (intros <-; apply Hne; by eapply (lo_inj _ Hs)).
      rewrite Eb, Hus, decide_False by congruence. by rewrite Hh.
  - intros n n' a' [E _]%Hmux [E' _]%Hmux. by eapply (lo_inj _ Hs).
  - intros n a' [E _]%Hmux. rewrite Emade. by eapply (lo_made _ Hs).
  - intros t1 t2 u1 u2 [_ E1]%Hold [_ E2]%Hold. by apply (lo_one _ Hs).
  - unfold ts. pose proof (lo_size _ Hs). rewrite map_size_delete_Some by (by rewrite Ht). lia.
Qed.

Lemma lock_start_ok : lock_ok start.
Proof. split; cbn; try done. all: intros *; rewrite ?lookup_empty; done. Qed.

Lemma lock_step_ok s s' : lock_ok s -> lock_step s s' -> lock_ok s'.
Proof.
  intros Hs Hst. destruct Hst; [by eapply enter_ok|by eapply acquire_ok|by eapply unlock_ok].
Qed.

Lemma lock_reach_ok s : reach lock_step start s -> lock_ok s.
Proof. intros Hr. by apply (reach_invariant lock_step lock_ok start s lock_start_ok lock_step_ok). Qed.

(** however threads lock and unlock objects, two threads hold the lock of
    the same object (the pulse of the identifier does not count) only if they
    are one; whoever holds a lock can unlock it without a panic; a waiting
    thread can go on unless another holds the lock; and the locker keeps a
    mutex exactly for the objects somebody locks: none when nobody is there. *)
Theorem index_locker_safe s :
  reach lock_step start s ->
  (forall tid tid' t t', threads s !! tid = Some t -> threads s !! tid' = Some t' ->
     lk_holds t = true -> lk_holds t' = true -> hash (lk_id t) = hash (lk_id t') -> tid = tid') /\
  (forall tid id a, threads s !! tid = Some (mkLocking id a true) -> ~ panics (Unlock (locker s) id)) /\
  (forall tid id a, threads s !! tid = Some (mkLocking id a false) ->
     is_Some (Mutex_Lock (locker s) a) \/
     exists tid' id' a', threads s !! tid' = Some (mkLocking id' a' true) /\ hash id' = hash id) /\
  (forall n, is_Some (muxs (locker s) !! n) <-> exists tid t, threads s !! tid = Some t /\ norm (lk_id t) = n).
Proof.
  intros Hs%lock_reach_ok. split_and!.
  - intros tid tid' t t' E E' H H' Eh. eapply (lo_one _ Hs); [done..|]. unfold norm. by rewrite Eh.
  - intros tid id a Ht. destruct (Unlock_holder s tid id a Hs Ht) as (l & -> & _). intros [].
  - intros tid id a Ht. pose proof (lo_users _ Hs _ _ Ht) as Em. cbn in Em.
    destruct (lo_entry _ Hs _ _ Em) as (_ & b & Eb & Hb). unfold Mutex_Lock. rewrite Eb. destruct b; [right|by left].
    destruct Hb as [Hb _]. destruct (Hb eq_refl) as (tid' & [id' a' h] & E & Eh & En). cbn in Eh, En. subst h.
    exists tid', id', a'. split; [done|]. by injection En.
  - intros n. split; [|intros (tid & t & E & <-); by rewrite (lo_users _ Hs _ _ E)].
    intros [a E]. destruct (lo_entry _ Hs _ _ E) as [Hp _]. unfold users in Hp.
    destruct (map_choose (filter (fun kv => norm (lk_id kv.2) = n) (threads s))) as (tid & t & Ef).
    { intros Ee. rewrite Ee, map_size_empty in Hp. lia. }
    apply map_lookup_filter_Some in Ef as [Ef En]. by exists tid, t.
Qed.

(** ** The theorem at work: one thread holds the lock, another waits. *)
Module SampleLock.

Definition id1 : Local := mkLocal 65600 (replicate 28 7).
Definition id2 : Local := mkLocal 65610 (replicate 28 7).
Definition m1 : machine :=
  mkMachine (mkLocker {[norm id1 := 0%nat]} {[0%nat := mkMucount 1 false]} 1) {[0%nat := mkLocking id1 0 false]}.
Definition m2 : machine :=
  mkMachine (mkLocker {[norm id1 := 0%nat]} {[0%nat := mkMucount 1 true]} 1) {[0%nat := mkLocking id1 0 true]}.
Definition m3 : machine :=
  mkMachine (mkLocker {[norm id1 := 0%nat]} {[0%nat := mkMucount 2 true]} 1)
    {[0%nat := mkLocking id1 0 true; 1%nat := mkLocking id2 0 false]}.

Lemma index_locker_safe_witness :
  ~ panics (Unlock (locker m3) id1) /\
  (is_Some (Mutex_Lock (locker m3) 0) \/
   exists tid' id' a', threads m3 !! tid' = Some (mkLocking id' a' true) /\ hash id' = hash id2).
Proof.
  destruct (index_locker_safe m3) as (_ & Hu & Hw & _).
  - apply (reach_step _ _ m2).
    + apply (reach_step _ _ m1).
      * apply (reach_step _ _ start); [apply reach_init|].
        refine (ls_enter start 0 id1 (locker m1) 0 _ _ _); vm_compute; reflexivity.
      * refine (ls_acquire m1 0 id1 0 (locker m2) _ _); vm_compute; reflexivity.
    + assert (threads m3 = <[1%nat := mkLocking id2 0 false]> (threads m2)) as E by (vm_compute; reflexivity).
      unfold m3 in *. cbn [threads] in E. rewrite E.
      refine (ls_enter m2 1 id2 _ 0 _ _ _); vm_compute; reflexivity.
  - split; [apply (Hu 0%nat id1 0%nat); vm_compute; reflexivity|].
    apply (Hw 1%nat id2 0%nat). vm_compute. reflexivity.
Defined.
End SampleLock.
