(* ===== verification/HotData.v ===== *)
(** * Hot data (src/ledger/light/executor/hot_sender.go, jet_calculator.go,
    jet_fetcher.go and src/ledger/light/proc/hot_objects.go)

    When a pulse ends, a light node sends the indexes of its jets to the nodes
    that own the jets in the new pulse ([SendHot]); the receiver makes the
    jet actual, stores the indexes, tells about abandoned requests and lets
    the waiting handlers go ([HotObjects_Proceed]).  The calculator of pulses
    is any [PulseStorage]. *)
From S2P Require Import Prelude Pulse PulseStore Reference Jet JetSplitter Records Payload Filaments.
From S2P Require HotWaiter.

(** ** insolar/node/node.go: the nodes of a pulse *)
Record Node : Type := mkNode { Node_ID : Global; Role : Z }.
Abbreviation NodeStorage := (gmap Z (list Node)).
Definition node_ErrOverride : error := Errorf "node override is forbidden".
Definition ErrNoNodes : error := Errorf "matching nodes not found".

Definition Node_Set (a : NodeStorage) (pulse : Z) (nodes : list Node) : NodeStorage * option error :=
  match a !! pulse with
  | Some _ => (a, Some node_ErrOverride)
  | None => (<[pulse := nodes]> a, None)
  end.
Definition Node_All (a : NodeStorage) (pulse : Z) : result (list Node) :=
  match a !! pulse with Some nodes => Good nodes | None => Fail ErrNoNodes end.
Definition Node_InRole (a : NodeStorage) (pulse role : Z) : result (list Node) :=
  match a !! pulse with
  | None => Fail ErrNoNodes
  | Some nodes => Good (filter (fun node => Role node = role) nodes)
  end.
Definition Node_DeleteForPN (a : NodeStorage) (pulse : Z) : NodeStorage := delete pulse a.

(** ** hot_sender.go *)

(** payload.HotObjects *)
Record HotObjects : Type := mkHotObjects {
  Hot_JetID : Local;
  Hot_Drop : Drop;
  Hot_Pulse : Z;
  Hot_Indexes : list Index;
}.

(** [Backwards], with the genesis pulse when there are not so many pulses. *)
Definition limitPulse `{PulseStorage St} (pulses : St) (pn steps : Z) (errtext : string) :
  go (result Z) :=
  r ← Backwards pulses pn steps;
  match r with
  | Good p => Ret (Good (num p))
  | Fail e => if bool_decide (e = ErrNotFound) then Ret (Good GenesisPulseNumber)
              else Ret (Fail (Wrap e errtext))
  end.

Definition is_active (limitPN : Z) (idx : Index) : bool :=
  negb ((LifelineLastUsed idx <? limitPN) &&
        bool_decide (EarliestOpenRequest (Index_Lifeline idx) = None)).
Definition hotIndex (idx : Index) : Index :=
  mkIndex (ObjID idx) (Index_Lifeline idx) (LifelineLastUsed idx) [].

Abbreviation ByJet := (gmap Local (list Index)).

Fixpoint groupIndexes (jets : Store) (newPulse : Z) (filtered : list Index) (byJet : ByJet) :
  go (Store * ByJet) :=
  match filtered with
  | [] => Ret (jets, byJet)
  | idx :: rest =>
      r ← Store_ForID jets newPulse (ObjID idx);
      let '((jetID, _), jets) := r in
      groupIndexes jets newPulse rest (<[jetID := default [] (byJet !! jetID) ++ [idx]]> byJet)
  end.

Section Sender.
Context `{PulseStorage St} (pulses : St) (lightChainLimit : Z).

Definition filterAndGroupIndexes (jets : Store) (indexes : IndexStorageMemory)
    (currentPulse newPulse : Z) : go (Store * result ByJet) :=
  limit ← limitPulse pulses currentPulse lightChainLimit
            "failed to fetch starting pulse for getting filaments";
  match limit with
  | Fail e => Ret (jets, Fail e)
  | Good limitPN =>
      match Index_ForPulse indexes currentPulse with
      | Fail _ => Ret (jets, Good ∅)
      | Good found =>
          r ← groupIndexes jets newPulse (hotIndex <$> filter (fun idx => is_active limitPN idx = true) found) ∅;
          Ret (r.1, Good r.2)
      end
  end.

(** The drop of the jet, or of its parent when the jet was split. *)
Definition findDrop (drops : dropStorageMemory) (pn : Z) (jetID : Local) : go (result Drop) :=
  match Drop_ForPulse drops jetID pn with
  | Good block => Ret (Good block)
  | Fail e =>
      if bool_decide (e = drop_ErrNotFound) then
        parent ← Jet.Parent jetID;
        match Drop_ForPulse drops parent pn with
        | Good block => Ret (Good block)
        | Fail e => if bool_decide (e = drop_ErrNotFound)
                    then Ret (Fail (Wrap e "drop for parent jet not found too")) else Ret (Fail e)
        end
      else Ret (Fail e)
  end.

(** The messages, each sent by a goroutine of its own; an error stops the
    loop after those already under way. *)
Fixpoint SendHot_loop (drops : dropStorageMemory) (currentPulse newPulse : Z) (byJet : ByJet)
    (jets : list Local) : go (list HotObjects * option error) :=
  match jets with
  | [] => Ret ([], None)
  | jetID :: rest =>
      found ← findDrop drops currentPulse jetID;
      match found with
      | Fail e => Ret ([], Some (Wrap e "get drop for pulse and jet failed"))
      | Good block =>
          r ← SendHot_loop drops currentPulse newPulse byJet rest;
          Ret (mkHotObjects jetID block newPulse (default [] (byJet !! jetID)) :: r.1, r.2)
      end
  end.

Definition SendHot (store : Store) (indexes : IndexStorageMemory) (drops : dropStorageMemory)
    (currentPulse newPulse : Z) (jets : list Local) :
  go (Store * (list HotObjects * option error)) :=
  r ← filterAndGroupIndexes store indexes currentPulse newPulse;
  match r.2 with
  | Fail e => Ret (r.1, ([], Some (Wrap e "failed to get filament indexes for pulse")))
  | Good byJet =>
      sent ← SendHot_loop drops currentPulse newPulse byJet jets;
      Ret (r.1, sent)
  end.
End Sender.

(** ** jet_fetcher.go: the queues of [Fetch], and [Release] *)
Record sequencer : Type := mkSequencer {
  entries : gmap (Z * Local) nat;
  entry_shut : gset nat;
}.

(** [v.once.Do(func() { close(v.ch) })] and the removal of the entry. *)
Definition Release_one (s : sequencer) (key : Z * Local) : sequencer :=
  match entries s !! key with
  | None => s
  | Some v => mkSequencer (delete key (entries s)) ({[v]} ∪ entry_shut s)
  end.

Fixpoint Release_loop (depth : nat) (s : sequencer) (jetID : Local) (pulse : Z) : go sequencer :=
  let s := Release_one s (pulse, jetID) in
  match depth with
  | O => Ret s
  | S depth' => parent ← Jet.Parent jetID; Release_loop depth' s parent pulse
  end.

Definition Release (s : sequencer) (jetID : Local) (pulse : Z) : go sequencer :=
  depth ← Depth jetID; Release_loop (Z.to_nat depth) s jetID pulse.

(** ** hot_objects.go *)
Definition pendingNotifyThreshold : Z := 2.

(** The roles messages are sent to. *)
Inductive DynamicRole : Type := VirtualExecutor | HeavyExecutor.

Record HotNode : Type := mkHotNode {
  hot_drops : dropStorageMemory;
  hot_jets : Store;
  hot_indexes : IndexStorageMemory;
  hot_fetcher : sequencer;
  hot_waiter : HotWaiter.ChannelWaiter;
  hot_sent : list (DynamicRole * Local * Payload.t);
}.

Definition send_role (role : DynamicRole) (object : Local) (msg : Payload.t) : io HotNode unit :=
  modify (fun s => mkHotNode (hot_drops s) (hot_jets s) (hot_indexes s) (hot_fetcher s) (hot_waiter s)
                     (hot_sent s ++ [(role, object, msg)])).

(** [drop.ErrOverride] is no error here. *)
Definition saveDrop (d : Drop) : io HotNode unit := fun s =>
  let '(drops, err) := Drop_Set (hot_drops s) d in
  let s' := mkHotNode drops (hot_jets s) (hot_indexes s) (hot_fetcher s) (hot_waiter s) (hot_sent s) in
  match err with
  | None => Ret (s', Good tt)
  | Some e => if bool_decide (e = drop_ErrOverride) then Ret (s', Good tt)
              else Ret (s', Fail (Wrap e "[HotObjects.process]: drop error"))
  end.

Definition updateJet (pulse : Z) (jetID : Local) : io HotNode unit := fun s =>
  jets ← Store_Update (hot_jets s) pulse true [jetID];
  Ret (mkHotNode (hot_drops s) jets (hot_indexes s) (hot_fetcher s) (hot_waiter s) (hot_sent s), Good tt).

Definition jetOf (pulse : Z) (objID : Local) : io HotNode Local := fun s =>
  r ← Store_ForID (hot_jets s) pulse objID;
  Ret (mkHotNode (hot_drops s) r.2 (hot_indexes s) (hot_fetcher s) (hot_waiter s) (hot_sent s), Good r.1.1).

Definition setIndex (pulse : Z) (idx : Index) : io HotNode unit := fun s =>
  indexes ← Index_Set (hot_indexes s) pulse idx;
  Ret (mkHotNode (hot_drops s) (hot_jets s) indexes (hot_fetcher s) (hot_waiter s) (hot_sent s), Good tt).

Definition releaseFetcher (jetID : Local) (pulse : Z) : io HotNode unit := fun s =>
  f ← Release (hot_fetcher s) jetID pulse;
  Ret (mkHotNode (hot_drops s) (hot_jets s) (hot_indexes s) f (hot_waiter s) (hot_sent s), Good tt).

Definition unlockJet (pulse : Z) (jetID : Local) : io HotNode unit := fun s =>
  r ← HotWaiter.Unlock (hot_waiter s) pulse jetID;
  let s' := mkHotNode (hot_drops s) (hot_jets s) (hot_indexes s) (hot_fetcher s) r.1 (hot_sent s) in
  match r.2 with
  | None => Ret (s', Good tt)
  | Some e => Ret (s', Fail (Wrap e "failed to release jets"))
  end.

(** Answers what is left of the notifications. *)
Definition notifyPending (available : Z) (objectID : Local) (lifeline : Lifeline) (notifyLimit : Z) :
  io HotNode Z :=
  match EarliestOpenRequest lifeline with
  | None => mret available
  | Some earliest =>
      if earliest >=? notifyLimit then mret available
      else if available <=? 0 then mret available
      else
        send_role VirtualExecutor objectID (Payload.AbandonedRequestsNotification objectID) ≫= fun _ =>
        mret (available - 1)
  end.

Fixpoint HotObjects_loop (jetID : Local) (pulse notifyLimit : Z) (indexes : list Index) (available : Z) :
  io HotNode unit :=
  match indexes with
  | [] => mret tt
  | idx :: rest =>
      objJetID ← jetOf pulse (ObjID idx);
      if negb (bool_decide (objJetID = jetID))
      then HotObjects_loop jetID pulse notifyLimit rest available
      else
        setIndex pulse (hotIndex idx) ≫= fun _ =>
        available ← notifyPending available (ObjID idx) (Index_Lifeline idx) notifyLimit;
        HotObjects_loop jetID pulse notifyLimit rest available
  end.

Definition sendConfirmationToHeavy (jetID : Local) (pn : Z) (split : bool) : io HotNode unit :=
  send_role HeavyExecutor jetID (Payload.GotHotConfirmation jetID pn split).

Definition HotObjects_Proceed `{PulseStorage St} (pulses : St) (flowPulse available : Z)
    (p : HotObjects) : io HotNode unit :=
  saveDrop (Hot_Drop p) ≫= fun _ =>
  updateJet (Hot_Pulse p) (Hot_JetID p) ≫= fun _ =>
  limit ← lift_go (limitPulse pulses flowPulse pendingNotifyThreshold
                     "failed to calculate pending notify pulse");
  notifyLimit ← lift_result limit;
  HotObjects_loop (Hot_JetID p) (Hot_Pulse p) notifyLimit (Hot_Indexes p) available ≫= fun _ =>
  releaseFetcher (Hot_JetID p) (Hot_Pulse p) ≫= fun _ =>
  unlockJet (Hot_Pulse p) (Hot_JetID p) ≫= fun _ =>
  sendConfirmationToHeavy (Hot_JetID p) (Drop_Pulse (Hot_Drop p)) (Drop_Split (Hot_Drop p)).

(** ** jet_calculator.go *)
Fixpoint MineForPulse_loop (executor : Local -> result Global) (me : Global) (jetIDs : list Local) :
  result (list Local) :=
  match jetIDs with
  | [] => Good []
  | jetID :: rest =>
      node ← wrap_err (executor jetID) "failed to calculate executor";
      res ← MineForPulse_loop executor me rest;
      Good (if bool_decide (node = me) then jetID :: res else res)
  end.
Definition MineForPulse `{Payload.Node} (jets : Store) (pn : Z) : go (Store * result (list Local)) :=
  r ← Store_All jets pn;
  Ret (r.2, MineForPulse_loop (fun jetID => LightExecutorForJet jetID pn) Me r.1).

(** ** Which jet an object belongs to *)

(** The object is a record of its own and belongs to the jet at [p]. *)
Definition record_id (obj : Local) : Prop := Local_wf obj /\ (Local_Pulse obj =? pulse_Jet) = false.
Definition in_jet (p : list bool) (obj : Local) : bool := bool_decide (bits (hash obj) (length p) = p).

Lemma in_jet_follows p obj : follows (hash obj) 0 p -> in_jet p obj = true.
Proof. intros Hf. by apply bool_decide_eq_true, follows_bits. Qed.

Lemma follows_of_bits v depth n : follows v depth ((fun i => bit_at v (depth + Z.of_nat i)) <$> seq 0 n).
Proof.
  assert (forall k depth', (forall i, depth' + Z.of_nat i = depth + Z.of_nat (k + i)) ->
    follows v depth' ((fun i => bit_at v (depth + Z.of_nat i)) <$> seq k n)) as H.
  { induction n as [|n IH]; intros k d Hd; [done|]. cbn [seq fmap list_fmap follows]. split.
    - f_equal. specialize (Hd O). lia.
    - apply (IH (S k)). intros i. specialize (Hd (S i)). lia. }
  apply H. intros i. lia.
Qed.

Lemma in_jet_iff p obj : in_jet p obj = true <-> follows (hash obj) 0 p.
Proof.
  split; [|apply in_jet_follows]. unfold in_jet. rewrite bool_decide_eq_true. intros <-.
  apply (follows_of_bits (hash obj) 0).
Qed.

(** The jet of an object in a full tree. *)
Lemma Store_ForID_jet s pn obj :
  full (tree_of s pn) = true -> (height (tree_of s pn) <= 216)%nat -> record_id obj ->
  exists p a s', Store_ForID s pn obj = Ret ((jet_id p, a), s') /\
    (p, a) ∈ leaves (tree_of s pn) /\ in_jet p obj = true /\
    (forall q b, (q, b) ∈ leaves (tree_of s pn) -> in_jet q obj = true -> q = p) /\
    forall pn', tree_of s' pn' = tree_of s pn'.
Proof.
  intros Hf Hh [Hwf Hp]. destruct (ltreeForPulse_eq s pn) as (s1 & E1 & Hs1).
  destruct (Tree_Find_jet (tree_of s pn) obj Hf Hh Hwf Hp) as (p & a & E & Hin & Hfo).
  exists p, a, s1. unfold Store_ForID. rewrite E1, E. split; [done|]. split; [done|].
  split; [by apply in_jet_follows|]. split; [|done].
  intros q b Hq Hfq%in_jet_iff. symmetry. eapply leaf_unique; eauto.
Qed.

(** ** What is sent *)

Lemma groupIndexes_spec newPulse l jets byJet :
  full (tree_of jets newPulse) = true -> (height (tree_of jets newPulse) <= 216)%nat ->
  Forall (fun idx => record_id (ObjID idx)) l ->
  exists jets' byJet', groupIndexes jets newPulse l byJet = Ret (jets', byJet') /\
    (forall pn, tree_of jets' pn = tree_of jets pn) /\
    forall p a, (p, a) ∈ leaves (tree_of jets newPulse) ->
      default [] (byJet' !! jet_id p) =
      default [] (byJet !! jet_id p) ++ filter (fun idx => in_jet p (ObjID idx) = true) l.
Proof.
  intros Hf Hh Hl. revert jets byJet Hf Hh. induction Hl as [|idx l Hidx Hl IH]; intros jets byJet Hf Hh.
  { exists jets, byJet. split; [done|]. split; [done|]. intros p a _. by rewrite app_nil_r. }
  destruct (Store_ForID_jet jets newPulse (ObjID idx) Hf Hh Hidx) as (q & b & s' & E & Hq & Hfq & Huniq & Hs').
  cbn [groupIndexes]. rewrite E. cbn [mbind go_bind].
  destruct (IH s' (<[jet_id q := default [] (byJet !! jet_id q) ++ [idx]]> byJet))
    as (jets' & byJet' & E' & Ht & Hb); [by rewrite Hs'..|].
  rewrite E'. exists jets', byJet'. split; [done|]. split; [intros pn; by rewrite Ht, Hs'|].
  intros p a Hp. rewrite (Hb p a) by (by rewrite Hs'). rewrite filter_cons.
  pose proof (leaf_height _ _ _ Hp). pose proof (leaf_height _ _ _ Hq).
  destruct (decide (p = q)) as [->|Hne].
  - rewrite lookup_insert_eq, decide_True by done. cbn. by rewrite <- (assoc_L (++)).
  - rewrite lookup_insert_ne, decide_False; [done| |].
    + intros Hin. apply Hne. by eapply Huniq.
    + intros Ej%jet_id_inj; [congruence|lia|lia].
Qed.

(** The limit in the list of pulses. *)
Definition limit_of (l : list Pulse) (i k : nat) : Z :=
  match (if (k <=? i)%nat then l !! (i - k)%nat else None) with
  | Some p => num p
  | None => GenesisPulseNumber
  end.

Lemma limitPulse_law `{LawfulStorage St} (pulses : St) l i p k errtext :
  holds pulses l -> l !! i = Some p ->
  limitPulse pulses (num p) (Z.of_nat k) errtext = Ret (Good (limit_of l i k)).
Proof.
  intros Hl Hp. unfold limitPulse, limit_of. rewrite (Backwards_law pulses l i p k Hl Hp).
  cbn [mbind go_bind]. destruct (if (k <=? i)%nat then _ else None); cbn [PulseStore.found]; [done|].
  by rewrite bool_decide_true.
Qed.

(** The drop of the jet or of the jet it was split from. *)
Definition drop_of (drops : dropStorageMemory) (pn : Z) (p : list bool) : option Drop :=
  match drops !! (pn, jet_id p) with
  | Some d => Some d
  | None => drops !! (pn, jet_id (removelast p))
  end.

Lemma Parent_removelast p : (length p <= 216)%nat -> Jet.Parent (jet_id p) = Ret (jet_id (removelast p)).
Proof.
  intros Hp. destruct (decide (p = [])) as [->|Hne]; [vm_compute; reflexivity|].
  rewrite (app_removelast_last false Hne) at 1. apply Parent_jet_id.
  rewrite (app_removelast_last false Hne), length_app in Hp. cbn in Hp. lia.
Qed.

Lemma findDrop_of drops pn p d :
  (length p <= 216)%nat -> drop_of drops pn p = Some d -> findDrop drops pn (jet_id p) = Ret (Good d).
Proof.
  intros Hp. unfold findDrop, drop_of, Drop_ForPulse.
  destruct (drops !! (pn, jet_id p)); [by intros [= ->]|]. intros E.
  rewrite bool_decide_true by done. rewrite Parent_removelast by done. cbn [mbind go_bind]. by rewrite E.
Qed.

(** The indexes of a jet that are sent. *)
Definition hots (limit : Z) (found : list Index) (p : list bool) : list Index :=
  filter (fun idx => in_jet p (ObjID idx) = true)
    (hotIndex <$> filter (fun idx => is_active limit idx = true) found).

Lemma SendHot_loop_all drops cur new byJet ps (f : list bool -> Drop) :
  (forall p, p ∈ ps -> (length p <= 216)%nat /\ drop_of drops cur p = Some (f p)) ->
  SendHot_loop drops cur new byJet (jet_id <$> ps) =
  Ret ((fun p => mkHotObjects (jet_id p) (f p) new (default [] (byJet !! jet_id p))) <$> ps, None).
Proof.
  induction ps as [|p ps IH]; intros Hd; [done|]. cbn [fmap list_fmap SendHot_loop].
  destruct (Hd p) as [Hp Ep]; [by left|]. rewrite (findDrop_of _ _ _ (f p)) by done. cbn [mbind go_bind].
  rewrite IH by (intros q Hq; apply Hd; by right). done.
Qed.

Definition bucket_ok (b : gmap Local Index) : Prop :=
  map_Forall (fun obj idx => ObjID idx = obj /\ record_id obj) b.

Lemma Index_ForPulse_elems indexes pn found idx :
  Index_ForPulse indexes pn = Good found ->
  idx ∈ found <-> exists obj, bucket_of indexes pn !! obj = Some idx.
Proof.
  unfold Index_ForPulse, bucket_of. destruct (indexes !! pn) as [b|]; [|done]. intros [= <-]. cbn.
  rewrite list_elem_of_fmap. split.
  - intros ([obj x] & -> & Hx%elem_of_map_to_list). exists obj. cbn. by rewrite Index_clone_id.
  - intros [obj E]. exists (obj, idx). cbn. by rewrite Index_clone_id, elem_of_map_to_list.
Qed.

Lemma Index_ForPulse_NoDup indexes pn found :
  bucket_ok (bucket_of indexes pn) -> Index_ForPulse indexes pn = Good found -> NoDup (ObjID <$> found).
Proof.
  intros Hb. unfold Index_ForPulse, bucket_of in *. destruct (indexes !! pn) as [b|]; [|done].
  intros [= <-]. cbn in Hb. rewrite <- list_fmap_compose.
  replace ((ObjID ∘ (fun kv : Local * Index => Index_clone kv.2)) <$> map_to_list b)
    with ((map_to_list b).*1); [apply NoDup_fst_map_to_list|].
  apply list_fmap_ext. intros i [obj idx] E%list_elem_of_lookup_2%elem_of_map_to_list. cbn.
  symmetry. by apply (Hb obj idx).
Qed.

(** What the next executor needs. *)
Definition in_use (limit : Z) (idx : Index) : Prop :=
  limit <= LifelineLastUsed idx \/ EarliestOpenRequest (Index_Lifeline idx) <> None.

Lemma is_active_iff limit idx : is_active limit idx = true <-> in_use limit idx.
Proof.
  unfold is_active, in_use. rewrite negb_true_iff, andb_false_iff, Z.ltb_ge, bool_decide_eq_false. done.
Qed.

Lemma SendHot_all `{LawfulStorage St} (pulses : St) k l i ended store indexes drops newPulse ps (f : list bool -> Drop) :
  holds pulses l -> l !! i = Some ended ->
  full (tree_of store newPulse) = true -> (height (tree_of store newPulse) <= 216)%nat ->
  bucket_ok (bucket_of indexes (num ended)) ->
  (forall p, p ∈ ps -> (exists a, (p, a) ∈ leaves (tree_of store newPulse)) /\
                       drop_of drops (num ended) p = Some (f p)) ->
  exists store' msgs,
    SendHot pulses (Z.of_nat k) store indexes drops (num ended) newPulse (jet_id <$> ps) =
      Ret (store', (msgs, None)) /\
    (forall pn, tree_of store' pn = tree_of store pn) /\
    Forall2 (fun p m =>
      Hot_JetID m = jet_id p /\ Hot_Drop m = f p /\ Hot_Pulse m = newPulse /\
      NoDup (ObjID <$> Hot_Indexes m) /\
      forall idx, idx ∈ Hot_Indexes m <->
        exists obj found, bucket_of indexes (num ended) !! obj = Some found /\ idx = hotIndex found /\
          in_use (limit_of l i k) found /\ in_jet p obj = true) ps msgs.
Proof.
  intros Hl Hi Hf Hh Hb Hps. unfold SendHot, filterAndGroupIndexes.
  rewrite (limitPulse_law pulses l i ended k) by done. cbn [mbind go_bind].
  assert (forall p, p ∈ ps -> (length p <= 216)%nat /\ drop_of drops (num ended) p = Some (f p)) as Hdr.
  { intros p Hp. destruct (Hps p Hp) as [[a Ha] ?]. split; [|done]. apply leaf_height in Ha. lia. }
  destruct (Index_ForPulse indexes (num ended)) as [found|e] eqn:Ef.
  - set (kept := hotIndex <$> filter (fun idx => is_active (limit_of l i k) idx = true) found).
    destruct (groupIndexes_spec newPulse kept store ∅ Hf Hh) as (store' & byJet & E & Ht & Hby).
    { apply list.Forall_forall. intros idx (x & -> & Hx)%list_elem_of_fmap.
      apply list_elem_of_filter in Hx as [_ Hx].
      apply (Index_ForPulse_elems _ _ _ x Ef) in Hx as [obj Ho]. cbn.
      by destruct (Hb obj x Ho) as [-> ?]. }
    rewrite E. cbn [mbind go_bind fst snd]. rewrite (SendHot_loop_all _ _ _ _ _ f) by done.
    cbn [mbind go_bind]. eexists _, _. split; [done|]. split; [done|].
    apply Forall2_fmap_r, Forall_Forall2_diag, list.Forall_forall. intros p Hp.
    destruct (Hps p Hp) as [[a Ha] _]. cbn. split; [done|]. split; [done|]. split; [done|].
    rewrite (Hby p a) by done. rewrite lookup_empty. cbn [default app]. split.
    + eapply sublist_NoDup; [apply (Index_ForPulse_NoDup indexes (num ended) found Hb Ef)|].
      etrans; [apply fmap_sublist, sublist_filter|]. unfold kept.
      rewrite <- list_fmap_compose. apply (fmap_sublist ObjID), sublist_filter.
    + intros idx. rewrite list_elem_of_filter. unfold kept. rewrite list_elem_of_fmap. split.
      * intros (Hj & x & -> & [Hact Hx]%list_elem_of_filter).
        apply (Index_ForPulse_elems _ _ _ x Ef) in Hx as [obj Ho]. exists obj, x.
        destruct (Hb obj x Ho) as [<- _]. apply is_active_iff in Hact. by split_and!.
      * intros (obj & x & Ho & -> & Hact & Hj). destruct (Hb obj x Ho) as [Hid _]. split; [by cbn; rewrite Hid|].
        exists x. split; [done|]. apply list_elem_of_filter. split; [by apply is_active_iff|].
        apply (Index_ForPulse_elems _ _ _ x Ef). by exists obj.
  - cbn [mbind go_bind fst snd]. rewrite (SendHot_loop_all _ _ _ _ _ f) by done.
    cbn [mbind go_bind]. eexists _, _. split; [done|]. split; [done|].
    apply Forall2_fmap_r, Forall_Forall2_diag, list.Forall_forall. intros p Hp. cbn. rewrite lookup_empty.
    split_and!; [done..|constructor|]. intros idx. split; [by intros ?%not_elem_of_nil|].
    intros (obj & x & Ho & _). unfold bucket_of in Ho. revert Ef. unfold Index_ForPulse.
    destruct (indexes !! num ended); [done|]. cbn in Ho. by rewrite lookup_empty in Ho.
Qed.

(** C23: [SendHot] sends, for each of its jets in the tree of the new pulse, one
    message with the drop of the jet (or of the jet it was split from) and the
    indexes of the ended pulse that belong to the jet and are still in use:
    used since [lightChainLimit] pulses, or with an open request.  Each is
    sent as it is, without its pending records, and once. *)
Theorem SendHot_correct `{LawfulStorage St} (pulses : St) k l i ended store indexes drops newPulse ps (f : list bool -> Drop) :
  holds pulses l -> l !! i = Some ended ->
  full (tree_of store newPulse) = true -> (height (tree_of store newPulse) <= 216)%nat ->
  bucket_ok (bucket_of indexes (num ended)) ->
  (forall p, p ∈ ps -> (exists a, (p, a) ∈ leaves (tree_of store newPulse)) /\
                       drop_of drops (num ended) p = Some (f p)) ->
  exists store' msgs,
    SendHot pulses (Z.of_nat k) store indexes drops (num ended) newPulse (jet_id <$> ps) =
      Ret (store', (msgs, None)) /\
    (forall pn, tree_of store' pn = tree_of store pn) /\
    Forall2 (fun p m =>
      Hot_JetID m = jet_id p /\ Hot_Drop m = f p /\ Hot_Pulse m = newPulse /\
      NoDup (ObjID <$> Hot_Indexes m) /\
      forall idx, idx ∈ Hot_Indexes m <->
        exists obj found, bucket_of indexes (num ended) !! obj = Some found /\ idx = hotIndex found /\
          in_use (limit_of l i k) found /\ in_jet p obj = true) ps msgs.
Proof. apply SendHot_all. Qed.

(** ** What the receiver does *)


Definition abandoned (limit : Z) (idx : Index) : bool :=
  match EarliestOpenRequest (Index_Lifeline idx) with Some earliest => earliest <? limit | None => false end.
Definition notification (idx : Index) : DynamicRole * Local * Payload.t :=
  (VirtualExecutor, ObjID idx, Payload.AbandonedRequestsNotification (ObjID idx)).
Definition mine (p : list bool) (l : list Index) : list Index :=
  filter (fun idx => in_jet p (ObjID idx) = true) l.
Definition notes (limit available : Z) (l : list Index) : list (DynamicRole * Local * Payload.t) :=
  notification <$> take (Z.to_nat available) (filter (fun idx => abandoned limit idx = true) l).

(** The loop over the indexes touches the indexes of the pulse and sends. *)
Record loop_done (p : list bool) (new limit available : Z) (l : list Index) (s s' : HotNode) : Prop := {
  ld_drops : hot_drops s' = hot_drops s;
  ld_jets : forall pn, tree_of (hot_jets s') pn = tree_of (hot_jets s) pn;
  ld_fetcher : hot_fetcher s' = hot_fetcher s;
  ld_waiter : hot_waiter s' = hot_waiter s;
  ld_sent : hot_sent s' = hot_sent s ++ notes limit available (mine p l);
  ld_set : forall idx, idx ∈ mine p l ->
    bucket_of (hot_indexes s') new !! ObjID idx = Some (hotIndex idx);
  ld_kept : forall pn obj, pn <> new \/ obj ∉ ObjID <$> mine p l ->
    bucket_of (hot_indexes s') pn !! obj = bucket_of (hot_indexes s) pn !! obj;
}.

Lemma notifyPending_wp available idx limit s Q :
  (forall s' available', hot_drops s' = hot_drops s -> hot_jets s' = hot_jets s ->
     hot_indexes s' = hot_indexes s -> hot_fetcher s' = hot_fetcher s -> hot_waiter s' = hot_waiter s ->
     (forall l, hot_sent s' ++ notes limit available' l = hot_sent s ++ notes limit available (idx :: l)) ->
     Q s' (Good available')) ->
  wp True (notifyPending available (ObjID idx) (Index_Lifeline idx) limit) s Q.
Proof.
  intros HQ. unfold notifyPending.
  assert (abandoned limit idx = false -> wp True (mret available) s Q) as Hskip.
  { intros Ha. apply HQ; try done. intros l. unfold notes. by rewrite filter_cons_False by congruence. }
  unfold abandoned in Hskip. destruct (EarliestOpenRequest _) as [e|] eqn:Ee; [|by apply Hskip].
  destruct (Z.geb_spec e limit); [apply Hskip, Z.ltb_ge; lia|].
  assert (abandoned limit idx = true) as Ha by (unfold abandoned; rewrite Ee; apply Z.ltb_lt; lia).
  destruct (Z.leb_spec available 0).
  - apply HQ; try done. intros l. unfold notes. by replace (Z.to_nat available) with O by lia.
  - apply wp_bind. apply HQ; try done. intros l. cbn [hot_sent]. unfold notes.
    rewrite filter_cons_True by done.
    replace (Z.to_nat available) with (S (Z.to_nat (available - 1))) by lia.
    cbn [take fmap list_fmap]. by rewrite <- (assoc_L (++)).
Qed.

Lemma HotObjects_loop_wp p a new limit l available s :
  full (tree_of (hot_jets s) new) = true -> (height (tree_of (hot_jets s) new) <= 216)%nat ->
  (p, a) ∈ leaves (tree_of (hot_jets s) new) -> Forall (fun idx => record_id (ObjID idx)) l ->
  NoDup (ObjID <$> l) ->
  (forall idx, idx ∈ mine p l -> bucket_of (hot_indexes s) new !! ObjID idx = None) ->
  wp True (HotObjects_loop (jet_id p) new limit l available) s (fun s' r =>
    r = Good tt /\ loop_done p new limit available l s s').
Proof.
  revert s available. induction l as [|idx l IH]; intros s available Hf Hh Hp Hl Hd Hnew.
  { split; [done|]. split; try done; [|by intros ? ?%not_elem_of_nil].
    unfold notes. cbn. by rewrite take_nil, app_nil_r. }
  apply list.Forall_cons in Hl as [Hidx Hl]. cbn in Hd. apply list.NoDup_cons in Hd as [Hni Hd].
  cbn [HotObjects_loop]. apply wp_bind.
  destruct (Store_ForID_jet (hot_jets s) new (ObjID idx) Hf Hh Hidx) as (q & b & js & E & Hq & Hfq & Hu & Hjs).
  unfold wp at 1, jetOf. rewrite E. cbn [mbind go_bind fst snd].
  set (s1 := mkHotNode _ js _ _ _ _).
  assert (jet_id q = jet_id p <-> q = p) as Hqp.
  { split; [|by intros ->]. apply leaf_height in Hp. apply leaf_height in Hq.
    intros Ej%jet_id_inj; [done|lia|lia]. }
  destruct (bool_decide_reflect (jet_id q = jet_id p)) as [->%Hqp|Hne]; cbn [negb].
  - assert (mine p (idx :: l) = idx :: mine p l) as Em by (unfold mine; by rewrite filter_cons_True).
    rewrite Em in Hnew. apply wp_bind. unfold wp at 1, setIndex. cbn [hot_indexes s1].
    destruct (proj2 (Index_Set_ret (hot_indexes s) new (hotIndex idx))) as [i' Ei].
    { cbn. rewrite Hnew by left. done. }
    rewrite Ei. cbn [mbind go_bind]. apply wp_bind. apply notifyPending_wp. cbn.
    intros s2 av2 Ed Ej Eix Ef Ew Es.
    assert (forall pn obj, bucket_of (hot_indexes s2) pn !! obj =
      if decide (new = pn /\ ObjID idx = obj) then Some (hotIndex idx) else bucket_of (hot_indexes s) pn !! obj) as Hb.
    { intros pn obj. rewrite Eix. by apply (Index_Set_lookup _ _ _ _ pn obj Ei). }
    assert (ObjID idx ∉ ObjID <$> mine p l) as Hnm.
    { intros (x & Ex & Hx)%list_elem_of_fmap. apply Hni. rewrite Ex.
      apply list_elem_of_filter in Hx as [_ Hx]. by apply list_elem_of_fmap_2. }
    eapply wp_mono; [apply (IH s2 av2)|].
    + by rewrite Ej, Hjs.
    + by rewrite Ej, Hjs.
    + by rewrite Ej, Hjs.
    + done.
    + done.
    + intros x Hx. rewrite Hb, decide_False; [apply Hnew; by right|].
      intros [_ Ex]. apply Hnm. rewrite Ex. by apply list_elem_of_fmap_2.
    + intros s' r [-> Hld]. split; [done|]. destruct Hld. split; [congruence| |congruence|congruence| | |].
      * intros pn. rewrite ld_jets0, Ej. apply Hjs.
      * rewrite Em, ld_sent0. apply Es.
      * rewrite Em. intros x [->|Hx]%elem_of_cons; [|by apply ld_set0].
        rewrite ld_kept0 by auto. by rewrite Hb, decide_True.
      * rewrite Em. intros pn obj Hpo. rewrite ld_kept0, Hb.
        -- rewrite decide_False; [done|]. intros [<- <-]. destruct Hpo as [?|Hpo]; [done|]. apply Hpo. by left.
        -- destruct Hpo as [?|Hpo]; [by left|right]. intros Hin. apply Hpo. by right.
  - assert (in_jet p (ObjID idx) <> true) as Hnj.
    { intros Hj. apply Hne, Hqp. symmetry. by apply (Hu p a). }
    assert (mine p (idx :: l) = mine p l) as Em by (unfold mine; by rewrite filter_cons_False).
    rewrite Em in Hnew. eapply wp_mono; [apply (IH s1 available)|].
    + cbn. by rewrite Hjs.
    + cbn. by rewrite Hjs.
    + cbn. by rewrite Hjs.
    + done.
    + done.
    + done.
    + intros s' r [-> []]. split; [done|]. split; rewrite ?Em; try done.
      intros pn. rewrite ld_jets0. apply Hjs.
Qed.

(** The queues of the jet and of the jets above it are let go. *)
Definition released (pulse : Z) (p : list bool) (s s' : sequencer) : Prop :=
  (forall q, q `prefix_of` p -> entries s' !! (pulse, jet_id q) = None) /\
  (forall key, (forall q, q `prefix_of` p -> key <> (pulse, jet_id q)) ->
     entries s' !! key = entries s !! key) /\
  (forall v, v ∈ entry_shut s' <-> v ∈ entry_shut s \/
     exists q, q `prefix_of` p /\ entries s !! (pulse, jet_id q) = Some v).

Lemma Release_one_released s key :
  entries (Release_one s key) = delete key (entries s) /\
  (forall v, v ∈ entry_shut (Release_one s key) <-> v ∈ entry_shut s \/ entries s !! key = Some v).
Proof.
  unfold Release_one. destruct (entries s !! key) as [v|] eqn:E; cbn.
  - split; [done|]. intros v'. rewrite elem_of_union, elem_of_singleton.
    split; [intros [->|?]; auto|]. intros [?|[= ->]]; auto.
  - split; [by rewrite delete_id|]. intros v'. split; [by left|]. by intros [?|].
Qed.

Lemma prefix_snoc_inv {A} (q p : list A) b : q `prefix_of` p ++ [b] -> q = p ++ [b] \/ q `prefix_of` p.
Proof.
  intros [z Hz]. destruct (decide (z = [])) as [->|Hne]; [left; by rewrite app_nil_r in Hz|].
  right. rewrite (app_removelast_last b Hne), (assoc_L (++)) in Hz.
  apply app_inj_tail in Hz as [-> _]. by eexists.
Qed.

Lemma Release_path s p pulse :
  (length p <= 216)%nat -> exists s', Release s (jet_id p) pulse = Ret s' /\ released pulse p s s'.
Proof.
  intros Hp. unfold Release. rewrite Depth_jet_id. cbn [mbind go_bind]. rewrite Nat2Z.id.
  revert s. induction p as [|b p IH] using rev_ind; intros s.
  - cbn [length Release_loop]. eexists. split; [done|].
    destruct (Release_one_released s (pulse, jet_id [])) as [He Hs]. split_and!.
    + intros q ->%prefix_nil_inv. rewrite He. apply lookup_delete_eq.
    + intros key Hk. rewrite He, lookup_delete_ne; [done|]. intros <-. by apply (Hk []).
    + intros v. rewrite Hs. split; (intros [?|H]; [by left|right]).
      * by exists [].
      * by destruct H as (q & ->%prefix_nil_inv & ?).
  - rewrite length_app, Nat.add_1_r in Hp |- *. cbn [Release_loop].
    rewrite Parent_jet_id by lia. cbn [mbind go_bind].
    destruct (Release_one_released s (pulse, jet_id (p ++ [b]))) as [He Hs].
    destruct (IH ltac:(lia) (Release_one s (pulse, jet_id (p ++ [b])))) as (s' & -> & Hpre & Hoth & Hsh).
    exists s'. split; [done|].
    assert (forall q, q `prefix_of` p -> (pulse, jet_id q) <> (pulse, jet_id (p ++ [b]))) as Hne.
    { intros q Hq%prefix_length E. apply (f_equal snd) in E.
      change (jet_id q = jet_id (p ++ [b])) in E. apply jet_id_inj in E; [|lia|rewrite length_app; cbn; lia].
      rewrite E, length_app in Hq. cbn in Hq. lia. }
    split_and!.
    + intros q [->|Hq]%prefix_snoc_inv; [|by apply Hpre].
      rewrite Hoth by (intros q Hq E; by apply (Hne q Hq)). rewrite He. apply lookup_delete_eq.
    + intros key Hk. rewrite Hoth by (intros q Hq; apply Hk; by apply prefix_app_r).
      rewrite He, lookup_delete_ne; [done|]. intros <-. by apply (Hk (p ++ [b])).
    + intros v. rewrite Hsh, Hs, He. split.
      * intros [[?|?]|(q & Hq & E)]; [by left|right; by exists (p ++ [b])|right].
        exists q. split; [by apply prefix_app_r|]. by apply lookup_delete_Some in E as [_ ?].
      * intros [?|(q & [->|Hq]%prefix_snoc_inv & E)]; [by left; left|by left; right|right].
        exists q. split; [done|]. rewrite lookup_delete_ne; [done|]. intros Ex. by apply (Hne q Hq).
Qed.

(** A waiter that holds together, and nobody let go yet. *)
Definition locked (w : HotWaiter.ChannelWaiter) (jetID : Local) (pulse : Z) : Prop :=
  (exists o, HotWaiter.waiter_ok o w) /\ HotWaiter.IsReceived w jetID pulse = false.

Lemma Unlock_locked w jetID pulse :
  locked w jetID pulse -> exists w', HotWaiter.Unlock w pulse jetID = Ret (w', None) /\
    (exists o, HotWaiter.waiter_ok o w') /\ HotWaiter.IsReceived w' jetID pulse = true.
Proof.
  intros [[o Hw] Hr]. unfold HotWaiter.Unlock.
  destruct (HotWaiter.getOrCreate w pulse) as [w1 pw] eqn:E1.
  destruct (HotWaiter.getOrCreate_ok _ _ _ _ _ Hw E1) as (o1 & Hw1 & _ & Epw & Es1 & _).
  destruct (HotWaiter.jet_getOrCreate w1 pulse pw jetID) as [w2 c] eqn:E2.
  destruct (HotWaiter.jet_getOrCreate_ok _ _ _ _ _ _ _ Hw1 Epw E2)
    as (o2 & Hw2 & _ & (pw2 & Epw2 & _ & Ec) & Es2 & _). cbn in Epw2, Ec.
  pose proof (HotWaiter.wo_jet _ _ Hw2 _ _ _ _ Epw2 Ec) as Hoc.
  assert (c ∉ HotWaiter.shut w2) as Hc.
  { rewrite Es2, Es1. intros Hc. unfold HotWaiter.IsReceived in Hr.
    assert (exists pw0, HotWaiter.waiters w !! pulse = Some pw0 /\ HotWaiter.jetWaiters pw0 !! jetID = Some c)
      as (pw0 & E & Ej).
    { pose proof (HotWaiter.wo_shut _ _ Hw c Hc) as Hlt.
      unfold HotWaiter.getOrCreate in E1. destruct (HotWaiter.waiters w !! pulse) as [pw0|] eqn:E.
      - injection E1 as <- <-. exists pw0. split; [done|]. unfold HotWaiter.jet_getOrCreate in E2.
        destruct (HotWaiter.jetWaiters pw0 !! jetID) as [c0|]; cbn in E2; injection E2 as _ <-; [done|lia].
      - cbn in E1. injection E1 as <- <-. unfold HotWaiter.jet_getOrCreate in E2. cbn in E2.
        rewrite lookup_empty in E2. cbn in E2. injection E2 as _ <-. cbn in Hlt. lia. }
    rewrite E, Ej in Hr. unfold HotWaiter.isClosed in Hr. by rewrite bool_decide_true in Hr. }
  unfold HotWaiter.isClosed. rewrite bool_decide_false by done.
  destruct (HotWaiter.close_jet o2 w2 c _ _ Hw2 Hoc Hc) as (w3 & -> & Hw3 & _ & Ew3 & Es3 & _).
  exists w3. split; [done|]. split; [by exists o2|]. unfold HotWaiter.IsReceived.
  rewrite Ew3, Epw2, Ec. unfold HotWaiter.isClosed. rewrite bool_decide_true; [done|].
  rewrite Es3. by apply elem_of_union_l, elem_of_singleton.
Qed.

(** A jet the node has nothing below of, and indexes it does not have yet. *)
Record ready_for (p : list bool) (new : Z) (l : list Index) (s : HotNode) : Prop := {
  rf_full : full (tree_of (hot_jets s) new) = true;
  rf_height : (height (tree_of (hot_jets s) new) <= 216)%nat;
  rf_length : (length p <= 216)%nat;
  rf_below : flag (tree_of (hot_jets s) new) (p ++ [false]) = None /\
             flag (tree_of (hot_jets s) new) (p ++ [true]) = None;
  rf_records : Forall (fun idx => record_id (ObjID idx)) l;
  rf_NoDup : NoDup (ObjID <$> l);
  rf_fresh : forall idx, idx ∈ mine p l -> bucket_of (hot_indexes s) new !! ObjID idx = None;
  rf_locked : locked (hot_waiter s) (jet_id p) new;
}.

(** The node after it received hot data. *)
Record received (drops : dropStorageMemory) (limit available : Z) (p : list bool) (d : Drop)
    (new : Z) (l : list Index) (s s' : HotNode) : Prop := {
  rc_drops : hot_drops s' = drops;
  rc_jet : (p, true) ∈ leaves (tree_of (hot_jets s') new);
  rc_index : forall idx, idx ∈ mine p l ->
    Index_ForID (hot_indexes s') new (ObjID idx) = Good (hotIndex idx);
  rc_others : forall pn obj, pn <> new \/ obj ∉ ObjID <$> mine p l ->
    Index_ForID (hot_indexes s') pn obj = Index_ForID (hot_indexes s) pn obj;
  rc_waiter : HotWaiter.IsReceived (hot_waiter s') (jet_id p) new = true;
  rc_fetcher : released new p (hot_fetcher s) (hot_fetcher s');
  rc_sent : hot_sent s' = hot_sent s ++ notes limit available (mine p l) ++
    [(HeavyExecutor, jet_id p, Payload.GotHotConfirmation (jet_id p) (Drop_Pulse d) (Drop_Split d))];
}.

(** The handler after the drop is saved. *)
Lemma received_wp `{LawfulStorage St} (pulses : St) l i flow available p d new idxs s :
  holds pulses l -> l !! i = Some flow -> ready_for p new idxs s ->
  wp True (updateJet new (jet_id p) ≫= fun _ =>
    limit ← lift_go (limitPulse pulses (num flow) pendingNotifyThreshold
                     "failed to calculate pending notify pulse");
    notifyLimit ← lift_result limit;
    HotObjects_loop (jet_id p) new notifyLimit idxs available ≫= fun _ =>
    releaseFetcher (jet_id p) new ≫= fun _ => unlockJet new (jet_id p) ≫= fun _ =>
    sendConfirmationToHeavy (jet_id p) (Drop_Pulse d) (Drop_Split d)) s (fun s' r =>
      r = Good tt /\ received (hot_drops s) (limit_of l i 2) available p d new idxs s s').
Proof.
  intros Hl Hi [Hf Hh Hlen [Hb0 Hb1] Hrec Hd Hnew Hlock].
  apply wp_bind. unfold wp at 1, updateJet, Store_Update.
  destruct (ltreeForPulse_eq (hot_jets s) new) as (js & -> & Hjs). cbn [update_all].
  destruct (Tree_Update_makes_leaf _ p Hf Hh Hlen Hb0 Hb1) as (t' & -> & Hf' & Hh' & Hp'). cbn [mbind go_bind].
  set (s2 := mkHotNode (hot_drops s) (mkStore _) _ _ _ _).
  assert (tree_of (hot_jets s2) new = t') as Et by (cbn; rewrite tree_of_insert; by rewrite decide_True).
  apply wp_bind. unfold wp at 1, lift_go. change pendingNotifyThreshold with (Z.of_nat 2).
  rewrite (limitPulse_law pulses l i flow 2) by done.
  apply wp_bind. unfold wp at 1, lift_result. apply wp_bind.
  eapply wp_mono; [apply (HotObjects_loop_wp p true new (limit_of l i 2) idxs available s2)|];
    [by rewrite Et|by rewrite Et|by rewrite Et|done|done|done|].
  intros s3 r [-> Hld]. apply wp_bind. unfold wp at 1, releaseFetcher.
  destruct (Release_path (hot_fetcher s3) p new Hlen) as (f & -> & Hrel). cbn [mbind go_bind].
  apply wp_bind. unfold wp at 1, unlockJet. cbn [hot_waiter]. rewrite (ld_waiter _ _ _ _ _ _ _ Hld).
  destruct (Unlock_locked (hot_waiter s) (jet_id p) new Hlock) as (w' & Ew & _ & Hrcv).
  cbn [hot_waiter s2]. rewrite Ew. cbn [mbind go_bind fst snd].
  unfold wp, sendConfirmationToHeavy, send_role, modify. cbn.
  destruct Hld. split; [done|]. split; cbn.
  - done.
  - by rewrite ld_jets0, Et.
  - intros idx Hidx. by rewrite Index_ForID_lookup, ld_set0.
  - intros pn obj Hpo. rewrite !Index_ForID_lookup. by rewrite ld_kept0.
  - done.
  - by rewrite ld_fetcher0 in Hrel.
  - by rewrite ld_sent0, <- (assoc_L (++)).
Qed.

Lemma HotObjects_Proceed_wp `{LawfulStorage St} (pulses : St) l i flow available p d new idxs st :
  holds pulses l -> l !! i = Some flow -> ready_for p new idxs st ->
  wp True (HotObjects_Proceed pulses (num flow) available (mkHotObjects (jet_id p) d new idxs)) st
    (fun st' r => r = Good tt /\
       received (Drop_Set (hot_drops st) d).1 (limit_of l i 2) available p d new idxs st st').
Proof.
  intros Hl Hi Hr. unfold HotObjects_Proceed. cbn [Hot_Drop Hot_Pulse Hot_JetID Hot_Indexes].
  apply wp_bind. unfold wp at 1, saveDrop.
  destruct (Drop_Set (hot_drops st) d) as [drops err] eqn:Ed. cbn [fst].
  set (s1 := mkHotNode drops _ _ _ _ _).
  assert (ready_for p new idxs s1) as Hr1 by (destruct Hr; split; done).
  assert (err = None \/ err = Some drop_ErrOverride) as Herr.
  { unfold Drop_Set in Ed. destruct (hot_drops st !! _); injection Ed as <- <-; auto. }
  pose proof (received_wp pulses l i flow available p d new idxs s1 Hl Hi Hr1) as Hw.
  destruct Herr as [->| ->]; [|rewrite bool_decide_true by done];
    (eapply wp_mono; [exact Hw|]; intros s' r [-> []]; split; [done|split; done]).
Qed.

(** C24: hot data is received: a node that has nothing below the jet and does
    not have the indexes yet takes over exactly the indexes of the jet, as
    they were sent, and keeps all others; the jet becomes actual, the handlers
    waiting for it and the queues on its branch go on; and it tells the
    virtual nodes of the first [available] objects with a request open for
    more than two pulses, and the heavy node, once. *)
Theorem HotObjects_received `{LawfulStorage St} (pulses : St) l i flow available p d new idxs st :
  holds pulses l -> l !! i = Some flow -> ready_for p new idxs st ->
  exists st', HotObjects_Proceed pulses (num flow) available (mkHotObjects (jet_id p) d new idxs) st =
                Ret (st', Good tt) /\
    received (Drop_Set (hot_drops st) d).1 (limit_of l i 2) available p d new idxs st st'.
Proof.
  intros Hl Hi Hr. destruct (wp_total True _ _ _ I
    (HotObjects_Proceed_wp pulses l i flow available p d new idxs st Hl Hi Hr)) as (st' & r & E & -> & Hrc).
  by exists st'.
Qed.

(** ** The theorems at work: an object of the jet at [10]. *)
Module SampleHot.

Definition path : list bool := [true; false].
Definition sampleDrop : Drop := mkDrop 65547 (jet_id path) 0 false.
Definition sampleIndex : Index :=
  mkIndex sampleLocal (mkLifeline None 1 emptyGlobal (Some sampleLocal) (Some 65537) 1) 65547 [sampleLocal].
Definition indexes : IndexStorageMemory := {[65547 := {[sampleLocal := sampleIndex]}]}.
Definition sampleStore : Store := mkStore {[65557 := sampleTree]}.

Lemma sample_record : record_id sampleLocal.
Proof. split; [apply sampleLocal_wf|by vm_compute]. Qed.

Lemma bucket_65547 : bucket_of indexes 65547 = {[sampleLocal := sampleIndex]}.
Proof. unfold bucket_of, indexes. by rewrite lookup_singleton_eq. Qed.

Lemma sample_bucket : bucket_ok (bucket_of indexes 65547).
Proof.
  rewrite bucket_65547. apply map_Forall_singleton. split; [done|apply sample_record].
Qed.

Lemma sample_full : full (tree_of sampleStore 65557) = true /\ (height (tree_of sampleStore 65557) <= 216)%nat.
Proof. split; [by vm_compute|]. apply Nat.leb_le. by vm_compute. Qed.

Lemma SendHot_correct_witness :
  exists (pulses : StorageMem) store msgs,
    SendHot pulses (Z.of_nat 1) sampleStore indexes {[(65547, jet_id path) := sampleDrop]} 65547 65557
      (jet_id <$> [path]) = Ret (store, (msgs, None)) /\
    Forall2 (fun p m => Hot_JetID m = jet_id p /\ Hot_Drop m = sampleDrop) [path] msgs.
Proof.
  destruct samplePulses as [s Hs]. exists s. destruct sample_full as [Hf Hh].
  destruct (SendHot_correct (H0:=StorageMem_lawful) s 1 (samplePulse <$> [65537; 65547]) 1 (samplePulse 65547)
    sampleStore indexes {[(65547, jet_id path) := sampleDrop]} 65557 [path] (fun _ => sampleDrop) Hs eq_refl
    Hf Hh sample_bucket) as (store & msgs & E & _ & Hm).
  - intros p ->%list_elem_of_singleton. split; [|by unfold drop_of; rewrite lookup_singleton_eq].
    exists true. apply elem_of_leaves. by vm_compute.
  - exists store, msgs. split; [exact E|]. apply (Forall2_impl_in _ _ _ _ Hm). intros p m _ (? & ? & _). by split.
Defined.

Definition receiver : HotNode :=
  mkHotNode ∅ (mkStore ∅) ∅ (mkSequencer {[(65557, ZeroJetID) := 0%nat]} ∅) HotWaiter.NewChannelWaiter [].

Lemma receiver_ready : ready_for path 65557 [sampleIndex] receiver.
Proof.
  split.
  - by vm_compute.
  - apply Nat.leb_le. by vm_compute.
  - cbn. lia.
  - split; by vm_compute.
  - apply list.Forall_singleton, sample_record.
  - apply NoDup_singleton.
  - intros idx _. unfold bucket_of. cbn. rewrite !lookup_empty. done.
  - split; [|by vm_compute]. exists ∅. split; cbn.
    + intros c. rewrite lookup_empty. split; [lia|]. by intros [? ?].
    + by intros c ?%not_elem_of_empty.
    + intros pn pw. by rewrite lookup_empty.
    + intros pn pw j c. by rewrite lookup_empty.
Qed.

Lemma HotObjects_received_witness :
  exists (pulses : StorageMem) st',
    HotObjects_Proceed pulses 65547 10 (mkHotObjects (jet_id path) sampleDrop 65557 [sampleIndex]) receiver =
      Ret (st', Good tt) /\
    Index_ForID (hot_indexes st') 65557 sampleLocal = Good (hotIndex sampleIndex).
Proof.
  destruct samplePulses as [s Hs]. exists s.
  destruct (HotObjects_received (H0:=StorageMem_lawful) s (samplePulse <$> [65537; 65547]) 1 (samplePulse 65547)
    10 path sampleDrop 65557 [sampleIndex] receiver Hs eq_refl receiver_ready) as (st' & E & Hr).
  exists st'. split; [exact E|]. apply (rc_index _ _ _ _ _ _ _ _ _ Hr sampleIndex).
  apply list_elem_of_filter. split; [by vm_compute|by left].
Defined.
End SampleHot.
