(* ===== verification/PulseChange.v ===== *)
(** * The pulse of a light node changes
    (src/ledger/light/executor/pulsemanager.go, state_initer.go)

    [PulseManager_Set] runs the components in the order of the code: the node
    list, the jets ([PrepareState]), the hot data received, the split of the
    jets, the waiters, the write barrier, the pulse storage, and the hot
    data for the next executors.  A [log.Panic] or [log.Fatal] is a panic.
    The dispatchers, which only route messages, the replicator and the metrics
    are left out; the goroutine that sends runs last, on the storages of the
    ended pulse, closed by then. *)
From S2P Require Import Prelude Pulse PulseStore Reference Jet JetSplitter Records Payload HotData.
From S2P Require WriteController HotWaiter.

(** ** state_initer.go *)

(** The replies of the heavy node to [GetLightInitialState]. *)
Record LightInitialState : Type := mkInitial {
  NetworkStart : bool;
  Initial_JetIDs : list Local;
  Initial_Pulse : Pulse;
  Initial_Drops : list Drop;
  Initial_Indexes : list Index;
  LightChainLimit : Z;
}.
Inductive initial_reply : Type :=
  | InitialState (state : LightInitialState)
  | InitialError (text : string) (code : Z)
  | InitialOther.

Record PulseManager (St : Type) : Type := mkPM {
  pm_nodes : NodeStorage;
  pm_jets : Store;
  pm_drops : dropStorageMemory;
  pm_indexes : IndexStorageMemory;
  pm_pulses : St;
  pm_waiter : HotWaiter.ChannelWaiter;
  pm_writer : WriteController.WriteController;
}.
Arguments mkPM {_} _ _ _ _ _ _ _.
Arguments pm_nodes {_} _. Arguments pm_jets {_} _. Arguments pm_drops {_} _.
Arguments pm_indexes {_} _. Arguments pm_pulses {_} _. Arguments pm_waiter {_} _.
Arguments pm_writer {_} _.

Definition StaticRoleHeavyMaterial : Z := 2.

Section PulseManager.
Context `{PulseStorage St} `{Payload.Node}.
Context (cfg : JetSplit) (recordsCount : Local -> Z -> Z) (lightChainLimit : Z).

Abbreviation PM := (PulseManager St).

Definition set_pm_jets (s : PM) (jets : Store) : PM :=
  mkPM (pm_nodes s) jets (pm_drops s) (pm_indexes s) (pm_pulses s) (pm_waiter s) (pm_writer s).
Definition set_pm_drops (s : PM) (drops : dropStorageMemory) : PM :=
  mkPM (pm_nodes s) (pm_jets s) drops (pm_indexes s) (pm_pulses s) (pm_waiter s) (pm_writer s).
Definition set_pm_indexes (s : PM) (indexes : IndexStorageMemory) : PM :=
  mkPM (pm_nodes s) (pm_jets s) (pm_drops s) indexes (pm_pulses s) (pm_waiter s) (pm_writer s).
Definition set_pm_pulses (s : PM) (pulses : St) : PM :=
  mkPM (pm_nodes s) (pm_jets s) (pm_drops s) (pm_indexes s) pulses (pm_waiter s) (pm_writer s).
Definition set_pm_waiter (s : PM) (w : HotWaiter.ChannelWaiter) : PM :=
  mkPM (pm_nodes s) (pm_jets s) (pm_drops s) (pm_indexes s) (pm_pulses s) w (pm_writer s).
Definition set_pm_writer (s : PM) (w : WriteController.WriteController) : PM :=
  mkPM (pm_nodes s) (pm_jets s) (pm_drops s) (pm_indexes s) (pm_pulses s) (pm_waiter s) w.
Definition set_pm_nodes (s : PM) (nodes : NodeStorage) : PM :=
  mkPM nodes (pm_jets s) (pm_drops s) (pm_indexes s) (pm_pulses s) (pm_waiter s) (pm_writer s).

(** The loops of [loadStateRetry] over the jets, the drops and the indexes. *)
Fixpoint unlockJets (pn : Z) (jets : list Local) : io PM unit := fun s =>
  match jets with
  | [] => Ret (s, Good tt)
  | jetID :: rest =>
      r ← HotWaiter.Unlock (pm_waiter s) pn jetID;
      match r.2 with
      | Some e => Ret (set_pm_waiter s r.1, Fail (Wrap e "failed to unlock jet"))
      | None => unlockJets pn rest (set_pm_waiter s r.1)
      end
  end.
Fixpoint setDrops (prevPulse : Z) (ds : list Drop) : io PM unit := fun s =>
  match ds with
  | [] => Ret (s, Good tt)
  | d :: rest =>
      if negb (Drop_Pulse d =? prevPulse) then Ret (s, Fail (Errorf "received drop with wrong pulse"))
      else match Drop_Set (pm_drops s) d with
           | (drops, Some e) => Ret (set_pm_drops s drops, Fail (Wrap e "failed to set drop"))
           | (drops, None) => setDrops prevPulse rest (set_pm_drops s drops)
           end
  end.
Fixpoint setIndexes (pn : Z) (idxs : list Index) : io PM unit := fun s =>
  match idxs with
  | [] => Ret (s, Good tt)
  | idx :: rest => i ← Index_Set (pm_indexes s) pn idx; setIndexes pn rest (set_pm_indexes s i)
  end.

Definition appendPulse (pulse : Pulse) : io PM unit := fun s =>
  r ← Append (pm_pulses s) pulse;
  match r.2 with
  | Some e => Ret (set_pm_pulses s r.1, Fail (Wrap e "failed to append pulse"))
  | None => Ret (set_pm_pulses s r.1, Good tt)
  end.
Definition updateJets (pn : Z) (ids : list Local) : io PM unit := fun s =>
  jets ← Store_Update (pm_jets s) pn true ids; Ret (set_pm_jets s jets, Good tt).

(** [replies]: what each attempt gets, until the time is over. *)
Fixpoint loadStateRetry (replies : list (option (result initial_reply))) (pn : Z) :
  io PM (list Local) :=
  match replies with
  | [] => throw (Errorf "retry timeout")
  | None :: _ => throw (Errorf "no reply for light state initialization")
  | Some (Fail e) :: _ => throw (Wrap e "failed to unmarshal reply")
  | Some (Good (InitialError text code)) :: rest =>
      if negb (code =? CodeNoStartPulse)
      then throw (Wrap (Errorf text) "failed to fetch state from heavy")
      else loadStateRetry rest pn
  | Some (Good InitialOther) :: _ => throw (Errorf "unexpected reply")
  | Some (Good (InitialState state)) :: _ =>
      if negb (u32 lightChainLimit =? LightChainLimit state)
      then lift_go (Panic "configuration mismatch: LightChainLimit")
      else
        appendPulse (Initial_Pulse state) ≫= fun _ =>
        guard_io (bool_decide (length (Initial_JetIDs state) < length (Initial_Drops state))%nat)
          (Errorf "Jets count must be greater or equal than drops count") ≫= fun _ =>
        if negb (NetworkStart state) then mret []
        else
          updateJets pn (Initial_JetIDs state) ≫= fun _ =>
          unlockJets pn (Initial_JetIDs state) ≫= fun _ =>
          setDrops (num (Initial_Pulse state)) (Initial_Drops state) ≫= fun _ =>
          setIndexes pn (Initial_Indexes state) ≫= fun _ =>
          mret (Initial_JetIDs state)
  end.

Definition heavy (s : PM) (pn : Z) : result Global :=
  match Node_InRole (pm_nodes s) pn StaticRoleHeavyMaterial with
  | Fail e => Fail (Wrap e "failed to calculate heavy node for pulse")
  | Good [] => Fail (Errorf "failed to calculate heavy node for pulse")
  | Good (node :: _) => Good (Node_ID node)
  end.

Definition heavyNode (pn : Z) : io PM Global := fun s => Ret (s, heavy s pn).
Definition latestPulse : io PM (result Pulse) := fun s =>
  r ← Latest (pm_pulses s); Ret (s, Good r).
Definition mineForPulse (pn : Z) : io PM (list Local) := fun s =>
  r ← MineForPulse (pm_jets s) pn;
  Ret (set_pm_jets s r.1, wrap_err r.2 "failed to calculate my jets").

(** The node is joining, and its jets.  [replies] are those of the heavy node. *)
Definition PrepareState (replies : Global -> list (option (result initial_reply))) (forPulse : Z) :
  io PM (bool * list Local) :=
  guard_io (forPulse <? MinTimePulse) (Errorf "invalid pulse for light state initialization") ≫= fun _ =>
  latest ← latestPulse;
  match latest with
  | Good latest =>
      jets ← mineForPulse (num latest);
      mret (false, jets)
  | Fail e =>
      if negb (bool_decide (e = ErrNotFound)) then throw (Wrap e "failed to fetch latest pulse")
      else
        node ← heavyNode forPulse;
        jets ← loadStateRetry (replies node) forPulse;
        mret (true, jets)
  end.

(** ** pulsemanager.go *)

(** [logger.Panic(errors.Wrap(err, msg))] *)
Definition must {A} (m : go (PM * result A)) (msg : string) : go (PM * A) :=
  r ← m; match r.2 with Good a => Ret (r.1, a) | Fail _ => Panic msg end.

Definition ended_received (s : PM) (pn : Z) (jets : list Local) : bool :=
  forallb (fun jet => HotWaiter.IsReceived (pm_waiter s) jet pn) jets.

(** [CloseAndWait], when the writers of the pulse are done. *)
Definition CloseAndWait (m : WriteController.WriteController) (pulse : Z) :
  WriteController.WriteController * option error :=
  match WriteController.Close m pulse with
  | (m, Good true) => (WriteController.mkWC (WriteController.current m) (WriteController.closed m) 0, None)
  | (m, Good false) => (m, None)
  | (m, Fail e) => (m, Some e)
  end.

(** A call that returns its object and an error which must be nil. *)
Definition must_set {B} (r : B * option error) (msg : string) : go B :=
  match r.2 with None => Ret r.1 | Some _ => Panic msg end.

(** The working nodes of the network, with the identifiers and roles; the
    messages of [SendHot] and its error, which is only logged. *)
Definition PulseManager_Set (fromNetwork : list HotData.Node)
    (replies : Global -> list (option (result initial_reply))) (newPulse : Pulse) (s : PM) :
  go (PM * (list HotObjects * option error)) :=
  match fromNetwork with
  | [] => Ret (s, ([], None))
  | _ =>
      nodes ← must_set (Node_Set (pm_nodes s) (num newPulse) fromNetwork) "call of SetActiveNodes failed";
      let s := set_pm_nodes s nodes in
      r ← must (PrepareState replies (num newPulse) s) "failed to prepare light for start";
      let '(s, (justJoined, jets)) := r in
      latest ← Latest (pm_pulses s);
      match latest with
      | Fail _ => Panic "failed to fetch ended pulse"
      | Good endedPulse =>
          r ← (if justJoined : bool then Ret (s, jets)
               else if negb (ended_received s (num endedPulse) jets) then Panic "hot data wasn't received"
               else
                 r ← Do cfg (pm_pulses s) recordsCount (pm_jets s) (pm_drops s)
                       (num endedPulse) (num newPulse) jets true;
                 let s := set_pm_drops (set_pm_jets s r.1.1) r.1.2 in
                 match r.2 with
                 | Good jets => Ret (s, jets)
                 | Fail _ => Panic "failed to split jets"
                 end);
          let '(s, jets) := r in
          w ← HotWaiter.CloseAllUntil (pm_waiter s) (num endedPulse);
          let s := set_pm_waiter s w in
          m ← must_set (CloseAndWait (pm_writer s) (num endedPulse)) "can't close pulse for writing";
          m ← must_set (WriteController.Open m (num newPulse)) "failed to open pulse for writing";
          let s := set_pm_writer s m in
          p ← Append (pm_pulses s) newPulse;
          pulses ← must_set p "failed to add pulse";
          let s := set_pm_pulses s pulses in
          if (justJoined : bool) then Ret (s, ([], None))
          else
            sent ← SendHot (pm_pulses s) lightChainLimit (pm_jets s) (pm_indexes s) (pm_drops s)
                     (num endedPulse) (num newPulse) jets;
            Ret (set_pm_jets s sent.1, sent.2)
      end
  end.
End PulseManager.

(** ** Which jets a node has, and what becomes of them *)
Definition executed `{Payload.Node} (pn : Z) (p : list bool) : bool :=
  match LightExecutorForJet (jet_id p) pn with Good n => bool_decide (n = Me) | Fail _ => false end.
Definition my_paths `{Payload.Node} (jets : Store) (pn : Z) : list (list bool) :=
  filter (fun p => executed pn p = true) (actual_paths (tree_of jets pn)).

Lemma MineForPulse_loop_mine `{Payload.Node} pn ps :
  (forall p, p ∈ ps -> exists n, LightExecutorForJet (jet_id p) pn = Good n) ->
  MineForPulse_loop (fun jetID => LightExecutorForJet jetID pn) Me (jet_id <$> ps) =
  Good (jet_id <$> filter (fun p => executed pn p = true) ps).
Proof.
  induction ps as [|p ps IH]; intros Hn; [done|]. cbn [fmap list_fmap MineForPulse_loop].
  destruct (Hn p) as [n En]; [by left|]. rewrite IH by (intros q Hq; apply Hn; by right).
  assert (executed pn p = bool_decide (n = Me)) as He by (unfold executed; by rewrite En).
  rewrite filter_cons, En. cbn. rewrite <- He. by destruct (executed pn p).
Qed.

Lemma MineForPulse_mine `{Payload.Node} jets pn :
  full (tree_of jets pn) = true -> (height (tree_of jets pn) <= 216)%nat ->
  (forall p, p ∈ actual_paths (tree_of jets pn) -> exists n, LightExecutorForJet (jet_id p) pn = Good n) ->
  exists jets', MineForPulse jets pn = Ret (jets', Good (jet_id <$> my_paths jets pn)) /\
    forall pn', tree_of jets' pn' = tree_of jets pn'.
Proof.
  intros Hf Hh Hn. unfold MineForPulse, Store_All.
  destruct (ltreeForPulse_eq jets pn) as (s' & -> & Hs').
  destruct (Tree_LeafIDs_paths _ Hf Hh) as (-> & _ & _). cbn [mbind go_bind fst snd].
  rewrite MineForPulse_loop_mine by done. by exists s'.
Qed.

Lemma my_paths_leaf `{Payload.Node} jets pn p :
  full (tree_of jets pn) = true -> (height (tree_of jets pn) <= 216)%nat ->
  p ∈ my_paths jets pn -> (p, true) ∈ leaves (tree_of jets pn).
Proof.
  intros Hf Hh [_ Hp]%list_elem_of_filter. destruct (Tree_LeafIDs_paths _ Hf Hh) as (_ & Hl & _). by apply Hl.
Qed.

Lemma my_paths_NoDup `{Payload.Node} jets pn :
  full (tree_of jets pn) = true -> (height (tree_of jets pn) <= 216)%nat -> NoDup (my_paths jets pn).
Proof.
  intros Hf Hh. destruct (Tree_LeafIDs_paths _ Hf Hh) as (_ & _ & Hnd).
  apply list.NoDup_filter. by apply NoDup_fmap_1 in Hnd.
Qed.

Lemma follows_prefix v depth p q : follows v depth (p ++ q) -> follows v depth p.
Proof. revert depth. induction p as [|b p IH]; intros depth; cbn; [done|]. intros [-> Hf]. split; [done|by apply IH]. Qed.

Lemma leaf_prefix t p q r a b :
  (height t <= 216)%nat -> (p, a) ∈ leaves t -> (q, b) ∈ leaves t -> q = p ++ r -> p = q.
Proof.
  intros Hh Hp Hq ->. pose proof (leaf_height _ _ _ Hq). pose proof (follows_self (p ++ r) ltac:(lia)) as Hs.
  apply (leaf_unique t (bytes_of 27 (p ++ r)) 0 _ _ a b Hp Hq); [by apply follows_prefix in Hs|done].
Qed.

(** What a jet became: itself or its children. *)
Lemma becomes_prefix (split : bool) (p q : list bool) :
  q ∈ (if split then [p ++ [false]; p ++ [true]] else [p]) -> exists r, q = p ++ r /\ (length r <= 1)%nat.
Proof.
  destruct split.
  - intros [->|[->|[]%elem_of_nil]%elem_of_cons]%elem_of_cons; eexists; (split; [reflexivity|cbn; lia]).
  - intros ->%list_elem_of_singleton. exists []. by rewrite app_nil_r; split; [|cbn; lia].
Qed.

Lemma becomes_in_jet (split : bool) p obj :
  in_jet p obj = true -> exists q, q ∈ (if split then [p ++ [false]; p ++ [true]] else [p]) /\ in_jet q obj = true.
Proof.
  intros Hp. destruct split; [|exists p; split; [by left|done]].
  exists (p ++ [bit_at (hash obj) (Z.of_nat (length p))]). split.
  - destruct (bit_at _ _); [right|]; by left.
  - apply in_jet_follows. apply follows_snoc. by apply in_jet_iff.
Qed.

Section Split.
Context (t0 t1 : Tree) (ps : list (list bool)) (split : list bool -> bool).
Context (Hh0 : (height t0 <= 215)%nat) (Hps : forall p, p ∈ ps -> exists a, (p, a) ∈ leaves t0).
Context (Hnd : NoDup ps).

Abbreviation becomes := (fun p : list bool => if split p then [p ++ [false]; p ++ [true]] else [p]).

Lemma becomes_unique p1 p2 q :
  p1 ∈ ps -> p2 ∈ ps -> q ∈ becomes p1 -> q ∈ becomes p2 -> p1 = p2.
Proof.
  intros Hp1 Hp2 (r1 & -> & H1)%becomes_prefix (r2 & E & H2)%becomes_prefix.
  destruct (Hps p1 Hp1) as [a1 L1], (Hps p2 Hp2) as [a2 L2].
  destruct r1 as [|b1 [|]]; cbn in H1; try lia.
  - rewrite app_nil_r in E. symmetry. by eapply (leaf_prefix t0); [lia|..].
  - destruct r2 as [|b2 [|]]; cbn in H2; try lia.
    + rewrite app_nil_r in E. eapply (leaf_prefix t0); [lia|done|done|by symmetry].
    + by apply app_inj_tail in E as [].
Qed.

Lemma becomes_NoDup : NoDup (ps ≫= becomes).
Proof.
  apply NoDup_bind; [intros p1 p2 q Hp1 Hp2; by apply becomes_unique| |done].
  intros p _. destruct (split p); [|apply NoDup_singleton].
  apply list.NoDup_cons. split; [|apply NoDup_singleton]. rewrite list_elem_of_singleton.
  by intros [_ ?]%app_inj_tail.
Qed.

(** The drop found for what a jet became is the drop of the jet. *)
Lemma becomes_drop (drops drops' : dropStorageMemory) pn (sealed : list bool -> Drop) p q :
  (forall j, drops !! (pn, j) = None) ->
  (forall p, p ∈ ps -> drops' !! (pn, jet_id p) = Some (sealed p)) ->
  (forall k, (forall p, p ∈ ps -> k <> (pn, jet_id p)) -> drops' !! k = drops !! k) ->
  p ∈ ps -> q ∈ becomes p -> drop_of drops' pn q = Some (sealed p).
Proof.
  intros Hfree Hset Hother Hp Hq. destruct (Hps p Hp) as [a Hl]. pose proof (leaf_height _ _ _ Hl).
  assert (q = p \/ exists b, q = p ++ [b]) as [->|[b ->]].
  { cbv beta in Hq. destruct (split p).
    - right. apply elem_of_cons in Hq as [->|Hq%list_elem_of_singleton]; by eexists.
    - left. by apply list_elem_of_singleton in Hq. }
  - unfold drop_of. by rewrite Hset.
  - unfold drop_of. rewrite Hother, Hfree, removelast_last; [by apply Hset|].
    intros p' Hp' E%(f_equal snd). cbn [snd] in E. destruct (Hps p' Hp') as [a' Hl'].
    pose proof (leaf_height _ _ _ Hl'). apply jet_id_inj in E; [|rewrite length_app; cbn; lia|lia].
    assert (p = p') as -> by (eapply (leaf_prefix t0); [lia|done|done|by symmetry]).
    apply (f_equal length) in E. rewrite length_app in E. cbn in E. lia.
Qed.
End Split.

(** ** The change of the pulse of a node that works *)
Section Change.
Context `{LawfulStorage St} `{Payload.Node}.
Context (cfg : JetSplit) (recordsCount : Local -> Z -> Z) (k : nat).
Context (l : list Pulse) (ended newPulse : Pulse).

(** The node worked in the [ended] pulse: it has the hot data of its jets,
    no drop of the pulse yet, and its barrier is open.  [m] is what threads
    did with the waiter so far. *)
Record working (m : HotWaiter.machine) (s : PulseManager St) : Prop := {
  wk_pulses : holds (pm_pulses s) (l ++ [ended]);
  wk_new : num ended < num newPulse < 2^32 /\ MinTimePulse <= num newPulse;
  wk_nodes : pm_nodes s !! num newPulse = None;
  wk_tree : full (tree_of (pm_jets s) (num ended)) = true /\
            (height (tree_of (pm_jets s) (num ended)) < 215)%nat;
  wk_known : forall p, p ∈ actual_paths (tree_of (pm_jets s) (num ended)) ->
    exists n, LightExecutorForJet (jet_id p) (num ended) = Good n;
  wk_hot : forall p, p ∈ my_paths (pm_jets s) (num ended) ->
    HotWaiter.IsReceived (pm_waiter s) (jet_id p) (num ended) = true;
  wk_drops : forall j, pm_drops s !! (num ended, j) = None;
  wk_indexes : bucket_ok (bucket_of (pm_indexes s) (num ended));
  wk_writer : WriteController.current (pm_writer s) = num ended /\
              WriteController.closed (pm_writer s) = false;
  wk_waiter : reach HotWaiter.hmove HotWaiter.start m /\ HotWaiter.waiter m = pm_waiter s;
}.

Definition limitPN : Z := limit_of (l ++ [ended; newPulse]) (length l) k.

(** What is true after it, [msgs] being the hot data sent. *)
Record changed (m : HotWaiter.machine) (s s' : PulseManager St) (msgs : list HotObjects) : Prop := {
  ch_pulses : holds (pm_pulses s') (l ++ [ended; newPulse]);
  ch_writer : pm_writer s' = WriteController.mkWC (num newPulse) false 0;
  ch_waiter : forall tid th, HotWaiter.blocked m !! tid = Some th -> HotWaiter.t_pulse th <= num ended ->
    Some HotWaiter.ErrHotDataTimeout ∈
      HotWaiter.Wait_select (pm_waiter s') (HotWaiter.t_wait th) (HotWaiter.t_timeout th);
  ch_jets : NoDup (Hot_JetID <$> msgs);
  ch_sent : forall msg, msg ∈ msgs -> Hot_Pulse msg = num newPulse /\
    exists p, p ∈ my_paths (pm_jets s) (num ended) /\
      createDrop cfg (pm_pulses s) recordsCount (pm_drops s) (jet_id p) (num ended) = Ret (Hot_Drop msg) /\
      forall idx, idx ∈ Hot_Indexes msg -> exists obj found,
        bucket_of (pm_indexes s) (num ended) !! obj = Some found /\ idx = hotIndex found /\
        in_use limitPN found;
  ch_index : forall obj idx p, bucket_of (pm_indexes s) (num ended) !! obj = Some idx ->
    in_use limitPN idx -> p ∈ my_paths (pm_jets s) (num ended) -> in_jet p obj = true ->
    exists msg jets, msg ∈ msgs /\ hotIndex idx ∈ Hot_Indexes msg /\
      (forall msg', msg' ∈ msgs -> hotIndex idx ∈ Hot_Indexes msg' -> msg' = msg) /\
      Store_ForID (pm_jets s') (num newPulse) obj = Ret ((Hot_JetID msg, true), jets);
}.

Lemma last_pulse (p : Pulse) : list_Latest (l ++ [p]) = Good p.
Proof. unfold list_Latest. by rewrite last_snoc. Qed.

Lemma PrepareState_running m s s1 replies :
  working m s -> pm_pulses s1 = pm_pulses s -> pm_jets s1 = pm_jets s ->
  exists jets, PrepareState (Z.of_nat k) replies (num newPulse) s1 =
      Ret (set_pm_jets s1 jets, Good (false, jet_id <$> my_paths (pm_jets s) (num ended))) /\
    forall pn, tree_of jets pn = tree_of (pm_jets s) pn.
Proof.
  intros Hw Ep Ej. pose proof (wk_tree _ _ Hw) as [Hf Hh]. pose proof (wk_new _ _ Hw) as [_ Hmin].
  destruct (MineForPulse_mine (pm_jets s) (num ended) Hf ltac:(lia) (wk_known _ _ Hw)) as (jets & Em & Hj).
  exists jets. split; [|done]. unfold PrepareState, guard_io.
  destruct (Z.ltb_spec (num newPulse) MinTimePulse); [lia|].
  unfold mbind, io_bind, mret, io_ret, latestPulse. rewrite Ep, (Latest_law _ _ (wk_pulses _ _ Hw)), last_pulse.
  cbn [mbind go_bind]. unfold mineForPulse. by rewrite Ej, Em.
Qed.

Lemma CloseAndWait_working m s :
  working m s -> exists w,
    CloseAndWait (pm_writer s) (num ended) = (w, None) /\
    WriteController.Open w (num newPulse) = (WriteController.mkWC (num newPulse) false 0, None).
Proof.
  intros [_ [Hn _] _ _ _ _ _ _ [Hc Ho] _]. unfold CloseAndWait, WriteController.Close, WriteController.check_close.
  destruct (pm_writer s) as [c b g]. cbn in *. subst c b.
  assert (forall g b, WriteController.Open (WriteController.mkWC (num ended) b g) (num newPulse) =
    (WriteController.mkWC (num newPulse) false 0, None)) as Hop.
  { intros g' b'. unfold WriteController.Open. cbn.
    by rewrite (proj2 (WriteController.check_open_None _ _)) by lia. }
  destruct (Z.eqb_spec (num ended) 0); [by eexists|]. rewrite Z.eqb_refl. cbn. by eexists.
Qed.

Lemma Append_working m s :
  working m s -> exists pulses, Append (pm_pulses s) newPulse = Ret (pulses, None) /\
    holds pulses (l ++ [ended; newPulse]).
Proof.
  intros Hw. pose proof (wk_new _ _ Hw) as [Hn Hmin].
  destruct (Append_law (pm_pulses s) _ newPulse (wk_pulses _ _ Hw)) as (pulses & E & Hh).
  { change MinTimePulse with 65537 in Hmin. lia. }
  exists pulses. unfold list_Append in *. rewrite last_snoc in *.
  destruct (Z.leb_spec (num newPulse) (num ended)); [lia|]. by rewrite <- (assoc_L (++)) in Hh.
Qed.

Lemma mine_leaf m s p :
  working m s -> p ∈ my_paths (pm_jets s) (num ended) ->
  exists a, (p, a) ∈ leaves (tree_of (pm_jets s) (num ended)).
Proof. intros [_ _ _ [Hf Hh] _ _ _ _ _ _] Hp. exists true. apply my_paths_leaf; [done|lia|done]. Qed.

(** What the hot data says, by what the splitter and the sender did. *)
Section Messages.
Context (m : HotWaiter.machine) (s : PulseManager St) (Hw : working m s).
Context (sealed : list bool -> Drop) (t1 : Tree) (msgs : list HotObjects).
Abbreviation ps := (my_paths (pm_jets s) (num ended)).
Abbreviation becomes := (fun p : list bool => if Drop_Split (sealed p) then [p ++ [false]; p ++ [true]] else [p]).
Abbreviation message_of := (fun (q : list bool) (msg : HotObjects) =>
  Hot_JetID msg = jet_id q /\ Hot_Pulse msg = num newPulse /\
  (exists p, p ∈ ps /\ q ∈ becomes p /\ Hot_Drop msg = sealed p) /\
  forall idx, idx ∈ Hot_Indexes msg <->
    exists obj found, bucket_of (pm_indexes s) (num ended) !! obj = Some found /\ idx = hotIndex found /\
      in_use limitPN found /\ in_jet q obj = true).
Context (Hm : Forall2 message_of (ps ≫= becomes) msgs).
Context (Hheight : (height t1 <= 216)%nat).
Context (Hleaf : forall q, q ∈ ps ≫= becomes -> (q, true) ∈ leaves t1).

Lemma jets_NoDup : NoDup (ps ≫= becomes).
Proof.
  destruct (wk_tree _ _ Hw).
  apply (becomes_NoDup (tree_of (pm_jets s) (num ended)) ps (fun p => Drop_Split (sealed p)));
    [lia|by intros p; apply (mine_leaf m)|apply my_paths_NoDup; [done|lia]].
Qed.

Lemma messages_jets : Hot_JetID <$> msgs = jet_id <$> (ps ≫= becomes).
Proof.
  clear Hleaf. revert Hm. generalize (ps ≫= becomes). intros qs Hq.
  induction Hq as [|q msg qs ms [E _] _ IH]; cbn; [done|]. by rewrite E, IH.
Qed.

Lemma messages_NoDup : NoDup (Hot_JetID <$> msgs).
Proof.
  rewrite messages_jets. apply NoDup_fmap_2_strong; [|apply jets_NoDup].
  intros p q Hp%Hleaf%leaf_height Hq%Hleaf%leaf_height. apply jet_id_inj; lia.
Qed.

Lemma message_at q : q ∈ ps ≫= becomes -> exists msg, msg ∈ msgs /\ message_of q msg.
Proof.
  intros [i Hi]%list_elem_of_lookup. destruct (Forall2_lookup_l _ _ _ _ _ Hm Hi) as (msg & Hi' & Hq).
  exists msg. split; [by eapply list_elem_of_lookup_2|done].
Qed.

Lemma message_from msg : msg ∈ msgs -> exists q, q ∈ ps ≫= becomes /\ message_of q msg.
Proof.
  intros [i Hi]%list_elem_of_lookup. destruct (Forall2_lookup_r _ _ _ _ _ Hm Hi) as (q & Hi' & Hq).
  exists q. split; [by eapply list_elem_of_lookup_2|done].
Qed.

Lemma message_same msg msg' : msg ∈ msgs -> msg' ∈ msgs -> Hot_JetID msg = Hot_JetID msg' -> msg = msg'.
Proof.
  intros [i Hi]%list_elem_of_lookup [j Hj]%list_elem_of_lookup E.
  assert (i = j) as ->; [|congruence].
  apply (NoDup_lookup _ i j (Hot_JetID msg) messages_NoDup); rewrite list_lookup_fmap; [by rewrite Hi|].
  by rewrite Hj, E.
Qed.

Lemma message_index obj idx p :
  bucket_of (pm_indexes s) (num ended) !! obj = Some idx -> in_use limitPN idx ->
  p ∈ ps -> in_jet p obj = true ->
  exists q msg, (q, true) ∈ leaves t1 /\ in_jet q obj = true /\ Hot_JetID msg = jet_id q /\
    msg ∈ msgs /\ hotIndex idx ∈ Hot_Indexes msg /\
    forall msg', msg' ∈ msgs -> hotIndex idx ∈ Hot_Indexes msg' -> msg' = msg.
Proof.
  intros Ho Ha Hp Hj. destruct (becomes_in_jet (Drop_Split (sealed p)) p obj Hj) as (q & Hq & Hjq).
  assert (q ∈ ps ≫= becomes) as Hqs by (apply list_elem_of_bind; by exists p).
  destruct (message_at q Hqs) as (msg & Hin & Ej & Ep & Ed & Hi).
  exists q, msg. split_and!; [by apply Hleaf|done..|apply Hi; by exists obj, idx|].
  intros msg' Hin' Hidx. destruct (message_from msg' Hin') as (q' & Hq' & Ej' & _ & _ & Hi').
  destruct (proj1 (Hi' _) Hidx) as (obj' & found & Ho' & Eh & _ & Hj').
  assert (obj' = obj) as ->.
  { apply (wk_indexes _ _ Hw) in Ho as [<- _], Ho' as [<- _]. by apply (f_equal ObjID) in Eh. }
  apply message_same; [done..|]. rewrite Ej, Ej'. f_equal. apply in_jet_iff in Hjq, Hj'.
  by destruct (leaf_unique t1 (hash obj) 0 q' q true true (Hleaf _ Hq') (Hleaf _ Hqs) Hj' Hjq).
Qed.

Lemma message_sent msg :
  (forall p, createDrop cfg (pm_pulses s) recordsCount (pm_drops s) (jet_id p) (num ended) = Ret (sealed p)) ->
  msg ∈ msgs -> Hot_Pulse msg = num newPulse /\
  exists p, p ∈ ps /\
    createDrop cfg (pm_pulses s) recordsCount (pm_drops s) (jet_id p) (num ended) = Ret (Hot_Drop msg) /\
    forall idx, idx ∈ Hot_Indexes msg -> exists obj found,
      bucket_of (pm_indexes s) (num ended) !! obj = Some found /\ idx = hotIndex found /\
      in_use limitPN found.
Proof.
  intros Hs (q & _ & _ & Ep & (p & Hp & _ & Ed) & Hi)%message_from. split; [done|].
  exists p. split_and!; [done|by rewrite Hs, Ed|].
  intros idx Hidx. destruct (proj1 (Hi idx) Hidx) as (obj & found & ? & ? & ? & _). by exists obj, found.
Qed.

Lemma message_jet store obj idx p :
  t1 = tree_of store (num newPulse) -> full t1 = true ->
  bucket_of (pm_indexes s) (num ended) !! obj = Some idx -> in_use limitPN idx ->
  p ∈ ps -> in_jet p obj = true ->
  exists msg jets, msg ∈ msgs /\ hotIndex idx ∈ Hot_Indexes msg /\
    (forall msg', msg' ∈ msgs -> hotIndex idx ∈ Hot_Indexes msg' -> msg' = msg) /\
    Store_ForID store (num newPulse) obj = Ret ((Hot_JetID msg, true), jets).
Proof.
  intros E1 Hf Ho Ha Hp Hj.
  destruct (message_index obj idx p Ho Ha Hp Hj) as (q & msg & Hq & Hjq & Ej & Hin & Hidx & Huniq).
  destruct (Store_ForID_jet store (num newPulse) obj) as (q' & b & jets & Ef & Hq' & _ & Hone & _);
    [by rewrite <- E1|by rewrite <- E1|by apply (wk_indexes _ _ Hw) in Ho as [_ ?]|].
  rewrite <- E1 in *. assert (q = q') as <- by (by eapply Hone).
  assert (b = true) as -> by (by eapply leaf_flag). rewrite <- Ej in Ef.
  by exists msg, jets.
Qed.
End Messages.

(** The splitter, then the sender on what it left. *)
Lemma split_and_send m s jets0 pulses :
  working m s -> (forall pn, tree_of jets0 pn = tree_of (pm_jets s) pn) -> holds pulses (l ++ [ended; newPulse]) ->
  exists sealed jets drops store msgs,
    let ps := my_paths (pm_jets s) (num ended) in
    let becomes := fun p : list bool => if Drop_Split (sealed p) then [p ++ [false]; p ++ [true]] else [p] in
    Do cfg (pm_pulses s) recordsCount jets0 (pm_drops s) (num ended) (num newPulse) (jet_id <$> ps) true =
      Ret ((jets, drops), Good (jet_id <$> (ps ≫= becomes))) /\
    SendHot pulses (Z.of_nat k) jets (pm_indexes s) drops (num ended) (num newPulse) (jet_id <$> (ps ≫= becomes)) =
      Ret (store, (msgs, None)) /\
    (forall p, createDrop cfg (pm_pulses s) recordsCount (pm_drops s) (jet_id p) (num ended) = Ret (sealed p)) /\
    full (tree_of store (num newPulse)) = true /\ (height (tree_of store (num newPulse)) <= 216)%nat /\
    (forall q, q ∈ ps ≫= becomes -> (q, true) ∈ leaves (tree_of store (num newPulse))) /\
    Forall2 (fun q msg => Hot_JetID msg = jet_id q /\ Hot_Pulse msg = num newPulse /\
      (exists p, p ∈ ps /\ q ∈ becomes p /\ Hot_Drop msg = sealed p) /\
      forall idx, idx ∈ Hot_Indexes msg <->
        exists obj found, bucket_of (pm_indexes s) (num ended) !! obj = Some found /\ idx = hotIndex found /\
          in_use limitPN found /\ in_jet q obj = true) (ps ≫= becomes) msgs.
Proof.
  intros Hw Hj0 Hp. destruct (wk_tree _ _ Hw) as [Hf Hh]. set (ps := my_paths (pm_jets s) (num ended)).
  assert (forall p, p ∈ ps -> exists a, (p, a) ∈ leaves (tree_of (pm_jets s) (num ended))) as Hps
    by (intros p; by apply (mine_leaf m)).
  pose proof (wk_new _ _ Hw) as [Hn _].
  destruct (Do_splits_all cfg (pm_pulses s) recordsCount (l ++ [ended]) (length l) ended jets0 (pm_drops s)
    (num newPulse) ps) as (sealed & jets & drops & Hsl & Ed & Hf1 & Hh1 & Hl1 & _ & Hdr & Hdo);
    [apply Hw|apply list_lookup_middle; done|lia|by rewrite Hj0|by rewrite Hj0|apply my_paths_NoDup; [done|lia]|by rewrite Hj0| |].
  { intros p _. apply (wk_drops _ _ Hw). }
  rewrite Hj0 in Hh1. exists sealed, jets, drops.
  assert (forall q, q ∈ ps ≫= (fun p => if Drop_Split (sealed p) then [p ++ [false]; p ++ [true]] else [p]) ->
    (q, true) ∈ leaves (tree_of jets (num newPulse))) as Hlv by (intros q Hq; apply Hl1; by left).
  assert (forall p q, p ∈ ps -> q ∈ (if Drop_Split (sealed p) then [p ++ [false]; p ++ [true]] else [p]) ->
    drop_of drops (num ended) q = Some (sealed p)) as Hdrop.
  { intros p q. apply (becomes_drop (tree_of (pm_jets s) (num ended)) ps (fun p => Drop_Split (sealed p))
      ltac:(lia) Hps (pm_drops s)); [apply (wk_drops _ _ Hw)|done|done]. }
  destruct (SendHot_all pulses k (l ++ [ended; newPulse]) (length l) ended jets (pm_indexes s) drops
    (num newPulse) (ps ≫= (fun p => if Drop_Split (sealed p) then [p ++ [false]; p ++ [true]] else [p]))
    (fun q => default (sealed []) (drop_of drops (num ended) q)) Hp)
    as (store & msgs & Es & Ht & Hm); [by apply list_lookup_middle|exact Hf1|lia|apply Hw| |].
  { intros q Hq. split; [exists true; by apply Hlv|]. apply list_elem_of_bind in Hq as (p & Hq & Hpp).
    by rewrite (Hdrop p q). }
  exists store, msgs. cbv zeta. rewrite Ht. split_and!; [exact Ed|exact Es|done|done|lia|exact Hlv|].
  eapply Forall2_impl_in; [exact Hm|]. cbv beta. intros q msg Hq (E1 & E2 & E3 & _ & E4).
  split_and!; [done|done| |exact E4].
  apply list_elem_of_bind in Hq as (p & Hq & Hpp). exists p. split_and!; [done..|].
  by rewrite E2, (Hdrop p q).
Qed.

(** C3: when the pulse of a working light node changes, nothing panics: the new
    pulse is stored, the barrier opens for it, the handlers that wait for hot
    data of the ended pulse or older may give up, and the hot data leaves
    once: one message per jet of the new pulse, with the drop just sealed; every
    index of the ended pulse still in use, of an object of the node's jets, is
    in exactly one message, that of the jet the object has in the new pulse. *)
Theorem pulse_change_hands_over m s fromNetwork replies :
  working m s -> fromNetwork <> [] ->
  exists s' msgs,
    PulseManager_Set cfg recordsCount (Z.of_nat k) fromNetwork replies newPulse s = Ret (s', (msgs, None)) /\
    changed m s s' msgs.
Proof.
  intros Hw Hnet. destruct fromNetwork as [|n ns]; [done|]. unfold PulseManager_Set, Node_Set.
  rewrite (wk_nodes _ _ Hw). cbn [must_set snd fst mbind go_bind].
  set (s1 := set_pm_nodes s _).
  destruct (PrepareState_running m s s1 replies Hw eq_refl eq_refl) as (jets0 & -> & Hj0).
  cbn [must fst snd mbind go_bind pm_pulses set_pm_jets set_pm_nodes s1].
  rewrite (Latest_law _ _ (wk_pulses _ _ Hw)), last_pulse. cbn [mbind go_bind].
  assert (ended_received (set_pm_jets s1 jets0) (num ended) (jet_id <$> my_paths (pm_jets s) (num ended)) = true)
    as Hrcv.
  { apply forallb_forall. intros j (p & -> & Hp)%list_elem_of_In%list_elem_of_fmap. by apply (wk_hot _ _ Hw). }
  rewrite Hrcv. cbn [negb].
  destruct (Append_working m s Hw) as (pulses & Ea & Hp).
  destruct (split_and_send m s jets0 pulses Hw Hj0 Hp) as
    (sealed & jets & drops & store & msgs & Ed & Es & Hs & Hf & Hh & Hlv & Hm).
  cbn [pm_jets pm_drops set_pm_jets set_pm_nodes s1]. rewrite Ed. cbn [mbind go_bind fst snd].
  destruct (wk_waiter _ _ Hw) as [(o & Hwo & Hbo & Hto)%HotWaiter.machine_reach_ok%HotWaiter.mo_state Ew].
  destruct (HotWaiter.CloseAllUntil_ok o _ _ _ (num ended) Hwo Hbo Hto) as (w & Ec & _ & _ & _ & _ & Hshut).
  rewrite Ew in Ec. cbn [pm_waiter set_pm_drops set_pm_jets set_pm_nodes s1]. rewrite Ec. cbn [mbind go_bind].
  destruct (CloseAndWait_working m s Hw) as (wc & Eclose & Eopen).
  cbn [pm_writer set_pm_waiter set_pm_drops set_pm_jets set_pm_nodes s1]. rewrite Eclose. cbn [must_set snd fst mbind go_bind].
  rewrite Eopen. cbn [must_set snd fst mbind go_bind pm_pulses set_pm_writer set_pm_waiter set_pm_drops set_pm_jets set_pm_nodes s1].
  rewrite Ea. cbn [must_set snd fst mbind go_bind]. cbn [pm_pulses pm_jets pm_indexes pm_drops set_pm_pulses set_pm_writer set_pm_waiter set_pm_drops set_pm_jets set_pm_nodes s1].
  rewrite Es. cbn [mbind go_bind snd fst]. eexists _, msgs. split; [reflexivity|].
  split; cbn [pm_pulses pm_writer pm_waiter pm_jets set_pm_jets set_pm_pulses set_pm_writer set_pm_waiter].
  - done.
  - done.
  - intros tid th Hth Hle. unfold HotWaiter.Wait_select, HotWaiter.isClosed.
    rewrite (bool_decide_true (HotWaiter.t_timeout th ∈ _)) by (cbn; eauto). apply elem_of_app. right. by left.
  - by apply (messages_NoDup m s Hw sealed (tree_of store (num newPulse)) msgs).
  - intros msg. by apply (message_sent s sealed msgs).
  - intros obj idx p. by apply (message_jet m s Hw sealed (tree_of store (num newPulse)) msgs).
Qed.
End Change.

(** ** The theorem at work: two jets, both of the node, one object. *)
Module SampleChange.

Definition me : Global := mkGlobal (mkLocal 65537 (replicate 28 9)) (mkLocal 65537 (replicate 28 9)).
#[export] Instance node : Payload.Node := {
  IsBeyondLimit _ := Good false;
  Heavy := Good me;
  NodeForJet _ _ := Good me;
  LightExecutorForJet _ _ := Good me;
  VirtualExecutorForObject _ _ := Good me;
  Me := me;
  Fetch _ _ := Good ZeroJetID;
  SendTarget _ _ := None;
}.

Definition jets : Store := mkStore {[65547 := sampleTree]}.
Definition hot (w : HotWaiter.ChannelWaiter) (p : list bool) : HotWaiter.ChannelWaiter :=
  match HotWaiter.Unlock w 65547 (jet_id p) with Ret (w', _) => w' | Panic _ => w end.
Definition waiter1 : HotWaiter.ChannelWaiter := hot HotWaiter.NewChannelWaiter [true; false].
Definition waiter2 : HotWaiter.ChannelWaiter := hot waiter1 [true; true].
Definition machine2 : HotWaiter.machine := HotWaiter.mkMachine waiter2 ∅
  [HotWaiter.Unlocked 65547 (jet_id [true; true]) None; HotWaiter.Unlocked 65547 (jet_id [true; false]) None].

Lemma machine2_reach : reach HotWaiter.hmove HotWaiter.start machine2.
Proof.
  refine (reach_step _ _ (HotWaiter.mkMachine waiter1 ∅ [HotWaiter.Unlocked 65547 (jet_id [true; false]) None]) _
    (reach_step _ _ HotWaiter.start _ (reach_init _ _) _) _).
  - exists (HotWaiter.Unlocked 65547 (jet_id [true; false]) None). apply HotWaiter.hs_unlock. by vm_compute.
  - exists (HotWaiter.Unlocked 65547 (jet_id [true; true]) None). apply HotWaiter.hs_unlock. by vm_compute.
Qed.

Definition node_at (pulses : StorageMem) : PulseManager StorageMem :=
  mkPM ∅ jets ∅ SampleHot.indexes pulses waiter2 (WriteController.mkWC 65547 false 1).

Lemma sample_working pulses :
  mem_holds pulses (samplePulse <$> [65537; 65547]) ->
  working (H0:=StorageMem_lawful) [samplePulse 65537] (samplePulse 65547) (samplePulse 65557) machine2 (node_at pulses).
Proof.
  intros Hp. split.
  - exact Hp.
  - split; [split|]; by vm_compute.
  - reflexivity.
  - split; [by vm_compute|]. apply Nat.ltb_lt. by vm_compute.
  - intros p _. by exists me.
  - intros p [_ Hin]%list_elem_of_filter. change (actual_paths _) with [[true; false]; [true; true]] in Hin.
    apply elem_of_cons in Hin as [Hin|Hin%list_elem_of_singleton]; subst p; by vm_compute.
  - intros j. apply lookup_empty.
  - apply SampleHot.sample_bucket.
  - done.
  - split; [apply machine2_reach|reflexivity].
Qed.

Lemma pulse_change_hands_over_witness :
  exists (pulses : StorageMem) s' msgs,
    PulseManager_Set sampleSplit (fun _ _ => 5) (Z.of_nat 1) [mkNode me 3] (fun _ => []) (samplePulse 65557)
      (node_at pulses) = Ret (s', (msgs, None)) /\
    exists msg, msg ∈ msgs /\ hotIndex SampleHot.sampleIndex ∈ Hot_Indexes msg /\
      forall msg', msg' ∈ msgs -> hotIndex SampleHot.sampleIndex ∈ Hot_Indexes msg' -> msg' = msg.
Proof.
  destruct samplePulses as [pulses Hp]. exists pulses.
  destruct (pulse_change_hands_over (H0:=StorageMem_lawful) sampleSplit (fun _ _ => 5) 1 [samplePulse 65537]
    (samplePulse 65547) (samplePulse 65557) machine2 (node_at pulses) [mkNode me 3] (fun _ => [])
    (sample_working pulses Hp) ltac:(discriminate)) as (s' & msgs & E & Hc).
  exists s', msgs. split; [exact E|].
  destruct (ch_index _ _ _ _ _ _ _ _ _ _ Hc sampleLocal SampleHot.sampleIndex [true; false])
    as (msg & _ & Hin & Hi & Hu & _).
  - change (bucket_of SampleHot.indexes 65547 !! sampleLocal = Some SampleHot.sampleIndex).
    rewrite SampleHot.bucket_65547. apply lookup_singleton_eq.
  - left. by vm_compute.
  - change (my_paths _ _) with [[true; false]; [true; true]]. by left.
  - by vm_compute.
  - by exists msg.
Defined.
End SampleChange.
