(* ===== verification/Cleaner.v ===== *)
(** * Cleaning (src/ledger/light/executor/cleaner.go)

    For each new pulse the cleaner removes what the storages hold of one pulse,
    [lightChainLimit + cleanerDelay] pulses back, drops caches of filaments
    and shifts the pulse storage.  The storages are those of the light node;
    notifications are handled one at a time, in [work]. *)
From S2P Require Import Prelude Pulse PulseStore Reference Jet JetSplitter Records Filaments HotData.

(** What the cleaner works on. *)
Record LightData : Type := mkLightData {
  ld_nodes : NodeStorage;
  ld_blocks : dropStorageMemory;
  ld_records : RecordMemory;
  ld_trees : Store;
  ld_indexes : IndexStorageMemory;
  ld_pulses : StorageMem;
  ld_caches : cacheStore;
}.

Section Cleaner.
Context (lightChainLimit cleanerDelay filamentLimit : Z).

(** [ClearAllExcept] the objects with an index in the pulse before [latest];
    on an error of the calculator it is only logged. *)
Definition clearCaches (s : LightData) (latest : Z) : go cacheStore :=
  prev ← Backwards (ld_pulses s) latest 1;
  Ret (match prev with
       | Good prev =>
           match Index_ForPulse (ld_indexes s) (num prev) with
           | Fail e => if bool_decide (e = ErrIndexNotFound)
                       then DeleteAllExcept (ld_caches s) [] else ld_caches s
           | Good indexes => DeleteAllExcept (ld_caches s) (ObjID <$> indexes)
           end
       | Fail _ => ld_caches s
       end).

Definition cleanPulse (s : LightData) (cleanFrom latest : Z) : go LightData :=
  let s := mkLightData (Node_DeleteForPN (ld_nodes s) cleanFrom) (Drop_DeleteForPN (ld_blocks s) cleanFrom)
             (Record_DeleteForPN (ld_records s) cleanFrom) (Store_DeleteForPN (ld_trees s) cleanFrom)
             (Index_DeleteForPN (ld_indexes s) cleanFrom) (ld_pulses s) (ld_caches s) in
  caches ← clearCaches s latest;
  let caches := DeleteIfLonger caches filamentLimit in
  shifted ← Mem_Shift (ld_pulses s) cleanFrom;
  Ret (mkLightData (ld_nodes s) (ld_blocks s) (ld_records s) (ld_trees s) (ld_indexes s) shifted.1 caches).

(** One notification. *)
Definition work (s : LightData) (pn : Z) : go LightData :=
  expired ← Backwards (ld_pulses s) pn (lightChainLimit + cleanerDelay);
  match expired with
  | Good expired => cleanPulse s (num expired) pn
  | Fail e => if bool_decide (e = ErrNotFound) then Ret s else Panic "cleaner"
  end.
End Cleaner.

(** ** What is left *)
Record cleaned (limit : Z) (l : list Pulse) (prev : option Z) (old : Z) (s s' : LightData) : Prop := {
  cl_nodes : forall q, Node_All (ld_nodes s') q =
    if decide (q = old) then Fail ErrNoNodes else Node_All (ld_nodes s) q;
  cl_drops : forall jetID q, Drop_ForPulse (ld_blocks s') jetID q =
    if decide (q = old) then Fail drop_ErrNotFound else Drop_ForPulse (ld_blocks s) jetID q;
  cl_records : forall id, Record_ForID (ld_records s') id =
    if decide (Local_Pulse id = old) then Fail object_ErrNotFound else Record_ForID (ld_records s) id;
  cl_jets : forall q, tree_of (ld_trees s') q =
    if decide (q = old) then tree_of (mkStore ∅) q else tree_of (ld_trees s) q;
  cl_indexes : forall q obj, Index_ForID (ld_indexes s') q obj =
    if decide (q = old) then Fail ErrIndexNotFound else Index_ForID (ld_indexes s) q obj;
  cl_pulses : exists l', mem_holds (ld_pulses s') l' /\ forall p, p ∈ l' <-> p ∈ l /\ old < num p;
  cl_caches : forall obj cache, ld_caches s' !! obj = Some cache <->
    ld_caches s !! obj = Some cache /\ Z.of_nat (size cache) <= limit /\
    forall q, prev = Some q -> is_Some (bucket_of (ld_indexes s) q !! obj);
}.

Lemma Node_All_delete a old q :
  Node_All (Node_DeleteForPN a old) q = if decide (q = old) then Fail ErrNoNodes else Node_All a q.
Proof.
  unfold Node_All, Node_DeleteForPN.
  destruct (decide (q = old)) as [->|Hne]; [by rewrite lookup_delete_eq|by rewrite lookup_delete_ne].
Qed.

Lemma Drop_ForPulse_delete m old jetID q :
  Drop_ForPulse (Drop_DeleteForPN m old) jetID q =
  if decide (q = old) then Fail drop_ErrNotFound else Drop_ForPulse m jetID q.
Proof.
  unfold Drop_ForPulse, Drop_DeleteForPN. destruct (filter _ m !! (q, jetID)) eqn:E.
  - apply map_lookup_filter_Some in E as [-> Hne]. by rewrite decide_False.
  - apply map_lookup_filter_None in E. destruct (decide (q = old)) as [->|Hne]; [done|].
    destruct (m !! (q, jetID)) eqn:Em; [|done]. destruct E as [E|E]; [congruence|]. by destruct (E _ eq_refl).
Qed.

Lemma tree_of_delete s old q :
  tree_of (Store_DeleteForPN s old) q = if decide (q = old) then tree_of (mkStore ∅) q else tree_of s q.
Proof.
  unfold tree_of, ltreeForPulse, Store_DeleteForPN. cbn [trees].
  destruct (decide (q = old)) as [->|Hne]; [rewrite lookup_delete_eq, lookup_empty; reflexivity|].
  rewrite lookup_delete_ne by done. by destruct (trees s !! q).
Qed.

Lemma Index_ForID_delete i old q obj :
  Index_ForID (Index_DeleteForPN i old) q obj =
  if decide (q = old) then Fail ErrIndexNotFound else Index_ForID i q obj.
Proof.
  unfold Index_ForID, Index_DeleteForPN.
  destruct (decide (q = old)) as [->|Hne]; [by rewrite lookup_delete_eq|by rewrite lookup_delete_ne].
Qed.

Lemma DeleteIfLonger_lookup cs limit obj cache :
  DeleteIfLonger cs limit !! obj = Some cache <-> cs !! obj = Some cache /\ Z.of_nat (size cache) <= limit.
Proof. unfold DeleteIfLonger. by rewrite map_lookup_filter_Some. Qed.

Lemma DeleteAllExcept_Some cs ids obj cache :
  DeleteAllExcept cs ids !! obj = Some cache <-> cs !! obj = Some cache /\ obj ∈ ids.
Proof.
  unfold DeleteAllExcept. rewrite DeleteAllExcept_lookup. destruct (decide _) as [[Hin Hs]|Hn].
  - tauto.
  - rewrite lookup_empty. split; [done|]. intros [E Hin]. destruct Hn. split; [done|by exists cache].
Qed.

Lemma clearCaches_kept (s s1 : LightData) l j pn old :
  ld_pulses s1 = ld_pulses s -> ld_indexes s1 = Index_DeleteForPN (ld_indexes s) old ->
  ld_caches s1 = ld_caches s ->
  mem_holds (ld_pulses s) l -> l !! S j = Some pn ->
  (forall q o idx, bucket_of (ld_indexes s) q !! o = Some idx -> ObjID idx = o) ->
  (forall p, l !! j = Some p -> num p <> old) ->
  exists caches, clearCaches s1 (num pn) = Ret caches /\
    forall obj cache, (caches !! obj = Some cache <-> ld_caches s !! obj = Some cache /\
       forall q, num <$> l !! j = Some q -> is_Some (bucket_of (ld_indexes s) q !! obj)).
Proof.
  intros Ep Ei Ec Hl Hpn Hids Hold. unfold clearCaches. rewrite Ep, Ei, Ec.
  change 1 with (Z.of_nat 1). rewrite (Backwards_law (LawfulStorage:=StorageMem_lawful) _ _ _ _ 1 Hl Hpn). cbn [mbind go_bind Nat.leb].
  rewrite Nat.sub_1_r. cbn [Nat.pred]. destruct (lookup_lt_is_Some_2 l j) as [p Hp];
    [apply lookup_lt_Some in Hpn; lia|]. rewrite Hp. cbn [found fmap option_fmap option_map].
  assert (bucket_of (Index_DeleteForPN (ld_indexes s) old) (num p) = bucket_of (ld_indexes s) (num p)) as Hb.
  { unfold bucket_of, Index_DeleteForPN. rewrite lookup_delete_ne; [done|]. intros E. by apply (Hold p). }
  assert (forall P, (forall q, Some (num p) = Some q -> P q) <-> P (num p)) as Hone.
  { intros P. split; [auto|]. by intros HP q [= <-]. }
  eexists. split; [reflexivity|]. intros obj cache. rewrite Hone, <- Hb.
  destruct (Index_ForPulse _ (num p)) as [found|e] eqn:Ef.
  - rewrite DeleteAllExcept_Some. apply and_iff_compat_l. rewrite list_elem_of_fmap. split.
    + intros (idx & -> & Hin). apply (Index_ForPulse_elems _ _ _ _ Ef) in Hin as [o Ho].
      rewrite Hb in Ho. rewrite (Hids _ _ _ Ho). exists idx. by rewrite Hb.
    + intros [idx Ho]. exists idx. split; [rewrite Hb in Ho; symmetry; by eapply Hids|].
      apply (Index_ForPulse_elems _ _ _ _ Ef). by exists obj.
  - unfold Index_ForPulse, bucket_of in *. destruct (_ !! num p); [done|]. injection Ef as <-.
    rewrite bool_decide_true, DeleteAllExcept_Some by done. apply and_iff_compat_l. cbn.
    rewrite lookup_empty. split; [by intros ?%not_elem_of_nil|by intros [? ?]].
Qed.

(** a notification about the pulse at position [j] does nothing while there
    are not [w = lightChainLimit + cleanerDelay] pulses before it; else the
    data of exactly the pulse [w] before it is removed from every storage,
    all data of other pulses stays, the calculator forgets the pulses up to
    it, and the caches kept are those that are not too long, of objects with an
    index in the pulse before. *)
Theorem cleaner_window lightChainLimit cleanerDelay filamentLimit w s l j pn :
  mem_holds (ld_pulses s) l -> l !! j = Some pn -> indexed_by_jet (ld_records s) ->
  (forall q o idx, bucket_of (ld_indexes s) q !! o = Some idx -> ObjID idx = o) ->
  lightChainLimit + cleanerDelay = Z.of_nat w -> (2 <= w)%nat ->
  exists s', work lightChainLimit cleanerDelay filamentLimit s (num pn) = Ret s' /\
    if (j <? w)%nat then s' = s
    else exists old, l !! (j - w)%nat = Some old /\
      cleaned filamentLimit l (num <$> l !! (j - 1)%nat) (num old) s s'.
Proof.
  intros Hl Hj Hrec Hids Hw H2. unfold work. rewrite Hw, (Backwards_law (LawfulStorage:=StorageMem_lawful) _ _ _ _ w Hl Hj). cbn [mbind go_bind].
  destruct (Nat.ltb_spec j w) as [Hlt|Hge].
  { destruct (Nat.leb_spec w j); [lia|]. cbn [found]. rewrite bool_decide_true by done. by exists s. }
  destruct (Nat.leb_spec w j); [|lia]. apply lookup_lt_Some in Hj as Hlen.
  destruct (lookup_lt_is_Some_2 l (j - w)) as [old Hold]; [lia|]. rewrite Hold. cbn [found].
  assert (increasing l) as Hinc by (destruct Hl as [addrs Ha]; apply Ha).
  destruct j as [|j]; [lia|].
  unfold cleanPulse. cbv zeta. set (s1 := mkLightData _ _ _ _ _ _ _).
  destruct (clearCaches_kept s s1 l j pn (num old) eq_refl eq_refl eq_refl Hl Hj Hids) as (caches & Ec & Hc).
  { intros p Hp E. pose proof (increasing_index _ _ _ _ _ Hinc Hp Hold E). lia. }
  destruct (Mem_Shift_holds (ld_pulses s) l (num old) Hl) as [_ (pulses & Es & Hp)]; [by destruct l|].
  destruct (Record_DeleteForPN_spec' (ld_records s) (num old) Hrec) as [_ Hr].
  rewrite Ec. cbn [mbind go_bind ld_pulses s1]. rewrite Es. cbn [mbind go_bind].
  eexists. split; [reflexivity|]. exists old. split; [done|]. cbn [fst].
  split; cbn [s1 ld_nodes ld_blocks ld_records ld_trees ld_indexes ld_pulses ld_caches]; intros.
  - apply Node_All_delete.
  - apply Drop_ForPulse_delete.
  - apply Hr.
  - apply tree_of_delete.
  - apply Index_ForID_delete.
  - exists (list_Shift l (num old)). split; [done|]. intros p. by apply list_Shift_later.
  - rewrite DeleteIfLonger_lookup, Hc. cbn. rewrite Nat.sub_0_r. tauto.
Qed.

(** ** The theorem at work *)
Module SampleClean.

Definition samplePulses3 : list Pulse := samplePulse <$> [65537; 65547; 65557].
Definition stored (pulses : StorageMem) : LightData :=
  mkLightData {[65537 := []; 65547 := []]} ∅ NewRecordMemory (mkStore ∅) SampleHot.indexes pulses
    {[sampleLocal := ∅]}.

Lemma cleaner_window_witness :
  exists (pulses : StorageMem) s', work 1 1 10 (stored pulses) 65557 = Ret s' /\
    Node_All (ld_nodes s') 65537 = Fail ErrNoNodes /\ Node_All (ld_nodes s') 65547 = Good [] /\
    ld_caches s' !! sampleLocal = Some ∅.
Proof.
  destruct (append_all_holds (H0:=StorageMem_lawful) samplePulses3 NewStorageMem [] mem_holds_nil)
    as (pulses & _ & Hp); [by repeat constructor|]. exists pulses.
  destruct (cleaner_window 1 1 10 2 (stored pulses) samplePulses3 2 (samplePulse 65557) Hp eq_refl)
    as (s' & E & old & Eo & Hc).
  - apply indexed_by_jet_new.
  - intros q o idx. unfold bucket_of, stored, ld_indexes, SampleHot.indexes.
    destruct (decide (q = 65547)) as [->|Hne]; [rewrite lookup_singleton_eq|by rewrite lookup_singleton_ne].
    unfold default, from_option, id. by intros [<- <-]%lookup_singleton_Some.
  - reflexivity.
  - lia.
  - cbn in E. exists s'. split; [exact E|]. injection Eo as <-. split; [|split].
    + by rewrite (cl_nodes _ _ _ _ _ _ Hc).
    + by rewrite (cl_nodes _ _ _ _ _ _ Hc).
    + apply (cl_caches _ _ _ _ _ _ Hc). split; [apply lookup_singleton_eq|]. split; [by vm_compute|].
      intros q [= <-]. unfold bucket_of. cbn. exists SampleHot.sampleIndex. apply lookup_singleton_eq.
Defined.
End SampleClean.
