(* ===== verification/Coordinator.v ===== *)
(** * Who does what (src/insolar/jetcoordinator/jetcoordinator.go,
    src/utils/entropy/entropy.go, CircleXOR of src/insolar/utils/utils.go)

    The coordinator chooses the nodes for an object or a jet in a pulse by the
    entropy of the pulse, and tells which pulses light nodes still have.  The
    nodes of pulses are those of [HotData], jets the store of Jet.v, pulses
    any [PulseStorage]; the hash of the platform is a parameter. *)
From Stdlib Require Import Sorted.
From stdpp Require Import sorting.
From S2P Require Import Prelude Pulse PulseStore Reference Jet JetSplitter HotData.
From S2P Require PulseChange.

(** ** utils.go, entropy.go *)

(** [value[i] ^ src[i%srcLen]] *)
Definition CircleXOR (value src : list Z) : go (list Z) :=
  match value, src with
  | _ :: _, [] => Panic "integer divide by zero"
  | _, _ => Ret (imap (fun i b => Z.lxor b (nth (i mod length src) src 0)) value)
  end.

(** [binary.LittleEndian.Uint64] *)
Definition of_le64 (b : list Z) : Z := foldr (fun x acc => x + 2^8 * acc) 0 (take 8 b).

(** [s[i] = s[len(s)-1]; s = s[:len(s)-1]] *)
Definition swap_remove {A} (s : list A) (i : nat) : list A :=
  match last s with
  | Some x => removelast (<[i := x]> s)
  | None => s
  end.

Section Entropy.
Context (ReferenceHasher : list Z -> list Z).

(** The buffer of step [i]: the first bytes of a hash, over what was there. *)
Definition step_buffer (hashUint64Buf entropy : list Z) (i : nat) : list Z :=
  copy hashUint64Buf (ReferenceHasher (entropy ++ le64 (Z.of_nat i))).

Fixpoint select_loop {A} (entropy : list Z) (values : list A) (hashUint64Buf : list Z) (fuel i : nat) (indexes : list nat) :
  go (list A) :=
  match fuel with
  | O => Ret []
  | S fuel' =>
      match length indexes with
      | O => Panic "integer divide by zero"
      | n =>
          let hashUint64Buf := step_buffer hashUint64Buf entropy i in
          let idx2idx := Z.to_nat (of_le64 hashUint64Buf mod Z.of_nat n) in
          match indexes !! idx2idx ≫= fun idx => values !! idx with
          | None => Panic "index out of range"
          | Some v => rest ← select_loop entropy values hashUint64Buf fuel' (S i) (swap_remove indexes idx2idx);
                      Ret (v :: rest)
          end
      end
  end.

Definition SelectByEntropy {A} (entropy : list Z) (values : list A) (count : nat) : go (result (list A)) :=
  if (length values <? count)%nat then Ret (Fail (Errorf "count value should be less than values size"))
  else if ((count =? 1) && (count =? length values))%nat then Ret (Good values)
  else selected ← select_loop entropy values (replicate 8 0) count 0 (seq 0 (length values)); Ret (Good selected).

(** ** jetcoordinator.go *)
Definition ref_le (x y : Global) : Prop := Global_Compare x y <= 0.
Definition node_le (x y : Node) : Prop := ref_le (Node_ID x) (Node_ID y).
#[export] Instance ref_le_dec : RelDecision ref_le := fun x y => Z_le_dec _ _.
#[export] Instance node_le_dec : RelDecision node_le := fun x y => Z_le_dec _ _.

(** The nodes are sorted by identifier; only identifiers go on, so that the
    order of nodes with equal ones does not matter. *)
Definition getRefs (e : list Z) (values : list Node) (count : nat) : go (result (list Global)) :=
  SelectByEntropy e (Node_ID <$> merge_sort node_le values) count.

Definition VirtualValidatorCount : nat := 3.
Definition MaterialValidatorCount : nat := 3.
Definition VirtualExecutorCount : nat := 1.
Definition MaterialExecutorCount : nat := 1.
Definition StaticRoleVirtual : Z := 1.
Definition StaticRoleLightMaterial : Z := 3.

Inductive Role : Type :=
  | DynamicRoleUndefined | DynamicRoleVirtualExecutor | DynamicRoleVirtualValidator
  | DynamicRoleLightExecutor | DynamicRoleLightValidator | DynamicRoleHeavyExecutor.

Section Coordinator.
Context `{PulseStorage St} (pulses : St) (nodes : NodeStorage).
Context (lightChainLimit : nat) (originRef : Global).

Definition Me : Global := originRef.

Definition entropy (pulse : Z) : go (result (list Z)) :=
  current ← Latest pulses;
  match current with
  | Fail e => Ret (Fail (Wrap e "failed to get current pulse"))
  | Good current =>
      if num current =? pulse then Ret (Good (Entropy current))
      else
        older ← ForPulseNumber pulses pulse;
        Ret (p ← wrap_err older "failed to fetch pulse data"; Good (Entropy p))
  end.

(** [seed] makes the bytes to choose by of the entropy of the pulse. *)
Definition chosen (seed : list Z -> go (list Z)) (candidates : list Node) (pulse : Z) (count : nat) :
  go (result (list Global)) :=
  ent ← entropy pulse;
  match wrap_err ent "failed to fetch entropy" with
  | Fail e => Ret (Fail e)
  | Good ent => e ← seed ent; getRefs e candidates count
  end.

Definition virtualsForObject (objID : Local) (pulse : Z) (count : nat) : go (result (list Global)) :=
  match Node_InRole nodes pulse StaticRoleVirtual with
  | Fail e => Ret (Fail e)
  | Good [] => Ret (Fail (Errorf "no active virtual nodes"))
  | Good candidates => chosen (fun ent => CircleXOR ent (Local_Hash objID)) candidates pulse count
  end.

Definition lightMaterialsForJet (jetID : Local) (pulse : Z) (count : nat) : go (result (list Global)) :=
  prefix ← Prefix jetID;
  match Node_InRole nodes pulse StaticRoleLightMaterial with
  | Fail e => Ret (Fail e)
  | Good [] => Ret (Fail ErrNoNodes)
  | Good candidates => chosen (fun ent => CircleXOR ent prefix) candidates pulse count
  end.

(** [&nodes[0]], [nodes[n:]] *)
Definition head_of (r : result (list Global)) : go (result Global) :=
  match r with
  | Fail e => Ret (Fail e)
  | Good [] => Panic "index out of range"
  | Good (n :: _) => Ret (Good n)
  end.
Definition tail_of (r : result (list Global)) (n : nat) : go (result (list Global)) :=
  match r with
  | Fail e => Ret (Fail e)
  | Good l => if (length l <? n)%nat then Panic "slice bounds out of range" else Ret (Good (drop n l))
  end.

Definition VirtualExecutorForObject (objID : Local) (pulse : Z) : go (result Global) :=
  r ← virtualsForObject objID pulse VirtualExecutorCount; head_of r.
Definition VirtualValidatorsForObject (objID : Local) (pulse : Z) : go (result (list Global)) :=
  r ← virtualsForObject objID pulse (VirtualValidatorCount + VirtualExecutorCount);
  tail_of (wrap_err r "calc VirtualValidatorsForObject failed") VirtualExecutorCount.
Definition LightExecutorForJet (jetID : Local) (pulse : Z) : go (result Global) :=
  r ← lightMaterialsForJet jetID pulse MaterialExecutorCount; head_of r.
Definition LightValidatorsForJet (jetID : Local) (pulse : Z) : go (result (list Global)) :=
  r ← lightMaterialsForJet jetID pulse (MaterialValidatorCount + MaterialExecutorCount);
  tail_of r MaterialExecutorCount.

(** These look the jet up, which may add a tree to the store. *)
Definition LightExecutorForObject (jets : Store) (objID : Local) (pulse : Z) : go (Store * result Global) :=
  r ← Store_ForID jets pulse objID;
  n ← LightExecutorForJet r.1.1 pulse; Ret (r.2, n).
Definition LightValidatorsForObject (jets : Store) (objID : Local) (pulse : Z) :
  go (Store * result (list Global)) :=
  r ← Store_ForID jets pulse objID;
  n ← LightValidatorsForJet r.1.1 pulse; Ret (r.2, n).

Definition Heavy : go (result Global) :=
  latest ← Latest pulses;
  match latest with
  | Fail e => Ret (Fail (Wrap e "failed to fetch pulse"))
  | Good latest =>
      match Node_InRole nodes (num latest) PulseChange.StaticRoleHeavyMaterial with
      | Fail e => Ret (Fail e)
      | Good [] => Ret (Fail (Errorf "no active heavy nodes"))
      | Good candidates => r ← chosen Ret candidates (num latest) 1; head_of r
      end
  end.

(** The loop of [IsBeyondLimit] from step [i], [fuel] steps left. *)
Fixpoint beyond_loop (latest targetPN : Z) (fuel i : nat) (iter : Z) : go (result bool) :=
  match fuel with
  | O => Ret (Good true)
  | S fuel' =>
      stepBack ← Backwards pulses latest (Z.of_nat i);
      match stepBack with
      | Fail e => if bool_decide (e = ErrNotFound) then Ret (Good true)
                  else Ret (Fail (Wrap e "failed to calculate pulse"))
      | Good p => if iter <=? targetPN then Ret (Good false)
                  else beyond_loop latest targetPN fuel' (S i) (num p)
      end
  end.

Definition IsBeyondLimit (targetPN : Z) : go (result bool) :=
  if targetPN <=? GenesisPulseNumber then Ret (Good true)
  else
    latest ← Latest pulses;
    match latest with
    | Fail e => Ret (Fail (Wrap e "failed to fetch pulse"))
    | Good latest =>
        if num latest <=? targetPN then Ret (Good false)
        else beyond_loop (num latest) targetPN lightChainLimit 1 (num latest)
    end.

Definition NodeForJet (jetID : Local) (targetPN : Z) : go (result Global) :=
  toHeavy ← IsBeyondLimit targetPN;
  match toHeavy with
  | Fail e => Ret (Fail (Wrap e "[IsBeyondLimit] failed"))
  | Good true => Heavy
  | Good false => LightExecutorForJet jetID targetPN
  end.
Definition NodeForObject (jets : Store) (objectID : Local) (targetPN : Z) : go (Store * result Global) :=
  toHeavy ← IsBeyondLimit targetPN;
  match toHeavy with
  | Fail e => Ret (jets, Fail e)
  | Good true => n ← Heavy; Ret (jets, n)
  | Good false => LightExecutorForObject jets objectID targetPN
  end.

Definition one (r : result Global) (errtext : string) : result (list Global) :=
  n ← wrap_err r errtext; Good [n].

Definition QueryRole (jets : Store) (role : Role) (objID : Local) (pulseNumber : Z) :
  go (Store * result (list Global)) :=
  match role with
  | DynamicRoleVirtualExecutor =>
      n ← VirtualExecutorForObject objID pulseNumber;
      Ret (jets, one n "calc DynamicRoleVirtualExecutor failed")
  | DynamicRoleVirtualValidator =>
      n ← VirtualValidatorsForObject objID pulseNumber; Ret (jets, n)
  | DynamicRoleLightExecutor =>
      if Local_Pulse objID =? pulse_Jet then
        n ← LightExecutorForJet objID pulseNumber;
        Ret (jets, one n "calc DynamicRoleLightExecutor failed")
      else
        r ← LightExecutorForObject jets objID pulseNumber;
        Ret (r.1, one r.2 "calc LightExecutorForObject failed")
  | DynamicRoleLightValidator =>
      r ← LightValidatorsForObject jets objID pulseNumber;
      Ret (r.1, wrap_err r.2 "calc DynamicRoleLightValidator failed")
  | DynamicRoleHeavyExecutor =>
      n ← Heavy; Ret (jets, one n "calc DynamicRoleHeavyExecutor failed")
  | DynamicRoleUndefined => Panic "unexpected role"
  end.

Definition IsAuthorized (jets : Store) (role : Role) (obj : Local) (pulse : Z) (node : Global) :
  go (Store * result bool) :=
  r ← QueryRole jets role obj pulse;
  Ret (r.1, nodes ← r.2; Good (existsb (fun n => bool_decide (n = node)) nodes)).

Definition IsMeAuthorizedNow (jets : Store) (role : Role) (obj : Local) : go (Store * result bool) :=
  p ← Latest pulses;
  match p with
  | Fail e => Ret (jets, Fail (Wrap e "couldn't get pulse"))
  | Good p => IsAuthorized jets role obj (num p) Me
  end.
End Coordinator.
End Entropy.

(** ** Choosing by entropy *)
Lemma swap_remove_perm {A} (s : list A) i x : s !! i = Some x -> x :: swap_remove s i ≡ₚ s.
Proof.
  intros Hi. unfold swap_remove. destruct s as [|y s _] using rev_ind; [done|].
  rewrite last_snoc. apply lookup_lt_Some in Hi as Hlt. rewrite length_app in Hlt. cbn in Hlt.
  destruct (decide (i = length s)) as [->|Hne].
  - rewrite lookup_app_r, Nat.sub_diag in Hi by done. injection Hi as ->.
    rewrite insert_app_r_alt, Nat.sub_diag by done. cbn. rewrite removelast_last. by rewrite Permutation_cons_append.
  - rewrite lookup_app_l in Hi by lia. rewrite insert_app_l by lia. rewrite removelast_last.
    apply list_elem_of_split_length in Hi as (l1 & l2 & -> & ->).
    rewrite insert_app_r_alt, Nat.sub_diag by done. cbn [insert list_insert].
    solve_Permutation.
Qed.

Lemma swap_remove_length {A} (s : list A) i : length (swap_remove s i) = pred (length s).
Proof.
  unfold swap_remove. destruct s as [|y s _] using rev_ind; [done|]. rewrite last_snoc.
  assert (s ++ [y] <> []) as Hn by (by destruct s).
  destruct (decide (i < length (s ++ [y]))%nat).
  - rewrite <- (length_insert (s ++ [y]) i y). destruct (<[i:=y]> (s ++ [y])) as [|z t] using rev_ind.
    + done.
    + rewrite removelast_last, length_app. cbn. lia.
  - rewrite list_insert_ge by lia. rewrite removelast_last, length_app. cbn. lia.
Qed.

Section Select.
Context (hash : list Z -> list Z) (entropy : list Z).

Abbreviation picked values := (omap (fun j => values !! j)).

(** The selection takes distinct positions out of [indexes]. *)
Lemma select_loop_spec {A} (values : list A) buf fuel i indexes :
  Forall (fun j => (j < length values)%nat) indexes -> (fuel <= length indexes)%nat ->
  exists idxs rest, idxs ++ rest ≡ₚ indexes /\ length (picked values idxs) = fuel /\
    select_loop hash entropy values buf fuel i indexes = Ret (picked values idxs).
Proof.
  revert buf i indexes. induction fuel as [|fuel IH]; intros buf i indexes Hin Hle.
  { exists [], indexes. done. }
  cbn [select_loop]. destruct (length indexes) as [|n] eqn:En; [lia|].
  cbv zeta. set (buf' := step_buffer hash buf entropy i).
  set (k := Z.to_nat (of_le64 buf' mod Z.of_nat (S n))).
  assert (k < length indexes)%nat as Hk.
  { rewrite En. pose proof (Z.mod_pos_bound (of_le64 buf') (Z.of_nat (S n))). lia. }
  destruct (lookup_lt_is_Some_2 indexes k Hk) as [j Hj]. pose proof (swap_remove_perm indexes k j Hj) as Hp.
  assert (j < length values)%nat as Hjv by (by eapply (Forall_lookup_1 _ _ _ _ Hin Hj)).
  destruct (lookup_lt_is_Some_2 values j Hjv) as [v Hv]. rewrite Hj. cbn [option_bind mbind]. rewrite Hv.
  destruct (IH buf' (S i) (swap_remove indexes k)) as (idxs & rest & Hperm & Hlen & ->).
  - rewrite <- Hp in Hin. by apply list.Forall_cons in Hin as [_ ?].
  - rewrite swap_remove_length, En. cbn. lia.
  - exists (j :: idxs), rest. cbn [omap list_omap]. rewrite Hv. split; [|by cbn; rewrite Hlen].
    cbn [app]. rewrite Hperm. exact Hp.
Qed.

(** A shorter selection is a prefix of a longer one. *)
Lemma select_loop_take {A} (values : list A) buf fuel fuel' i indexes l :
  (fuel <= fuel')%nat -> select_loop hash entropy values buf fuel' i indexes = Ret l ->
  select_loop hash entropy values buf fuel i indexes = Ret (take fuel l).
Proof.
  revert buf fuel' i indexes l. induction fuel as [|fuel IH]; intros buf fuel' i indexes l Hle; [done|].
  destruct fuel' as [|fuel']; [lia|]. cbn [select_loop]. destruct (length indexes); [done|].
  destruct (_ ≫= _) as [v|]; [|done]. intros E. apply go_bind_ret in E as (r & E & [= <-]).
  rewrite (IH _ fuel' _ _ r) by (lia || done). done.
Qed.

Lemma picked_all {A} (values : list A) : picked values (seq 0 (length values)) = values.
Proof.
  induction values as [|v values IH] using rev_ind; [done|].
  rewrite length_app, seq_app, omap_app. cbn. rewrite lookup_app_r, Nat.sub_diag by done. cbn. f_equal.
  rewrite <- IH at 2. apply list_omap_ext, Forall_Forall2_diag, list.Forall_forall.
  intros j [_ Hj]%elem_of_seq. by rewrite lookup_app_l.
Qed.

Lemma select_all {A} (values : list A) count :
  (count <= length values)%nat ->
  exists sel rest, SelectByEntropy hash entropy values count = Ret (Good sel) /\
    length sel = count /\ sel ++ rest ≡ₚ values.
Proof.
  intros Hc. unfold SelectByEntropy. destruct (Nat.ltb_spec (length values) count); [lia|].
  destruct ((count =? 1) && (count =? length values))%nat eqn:E.
  - exists values, []. rewrite app_nil_r. apply andb_prop in E as [_ E%Nat.eqb_eq]. done.
  - destruct (select_loop_spec values (replicate 8 0) count 0 (seq 0 (length values))) as (idxs & rest & Hp & Hl & ->).
    + apply list.Forall_forall. intros j Hj%elem_of_seq. lia.
    + by rewrite length_seq.
    + exists (picked values idxs), (picked values rest). split; [done|]. split; [done|].
      rewrite <- omap_app, Hp. by rewrite picked_all.
Qed.
End Select.

Lemma select_more {A} hash entropy (values : list A) count :
  (count <= length values)%nat -> exists sel rest,
     SelectByEntropy hash entropy values count = Ret (Good sel) /\
     length sel = count /\ sel ++ rest ≡ₚ values /\
     ((2 <= length values)%nat -> forall fewer, (fewer <= count)%nat ->
        SelectByEntropy hash entropy values fewer = Ret (Good (take fewer sel))).
Proof.
  intros Hc. destruct (select_all hash entropy values count Hc) as (sel & rest & E & Hl & Hp).
  exists sel, rest. split_and!; [done..|]. intros H2 fewer Hf. revert E. unfold SelectByEntropy.
  destruct (Nat.ltb_spec (length values) count); [lia|]. destruct (Nat.ltb_spec (length values) fewer); [lia|].
  assert (forall c, ((c =? 1) && (c =? length values))%nat = false) as Hone.
  { intros c. apply andb_false_iff. destruct (Nat.eqb_spec c 1) as [->|]; [right|by left]. apply Nat.eqb_neq. lia. }
  rewrite !Hone. intros (l & E & [= ->])%go_bind_ret. by rewrite (select_loop_take _ _ _ _ fewer count 0 _ sel).
Qed.

(** [SelectByEntropy] refuses exactly when more values are asked for than
    there are; otherwise it ends with [count] of the values, no position taken
    twice, and asking for more only adds to the end of the selection when
    there are several values. *)
Theorem SelectByEntropy_selects {A} hash entropy (values : list A) count :
  ((length values < count)%nat -> exists e, SelectByEntropy hash entropy values count = Ret (Fail e)) /\
  ((count <= length values)%nat -> exists sel rest,
     SelectByEntropy hash entropy values count = Ret (Good sel) /\
     length sel = count /\ sel ++ rest ≡ₚ values /\
     ((2 <= length values)%nat -> forall fewer, (fewer <= count)%nat ->
        SelectByEntropy hash entropy values fewer = Ret (Good (take fewer sel)))).
Proof.
  split; [|apply select_more].
  intros Hlt. unfold SelectByEntropy. destruct (Nat.ltb_spec (length values) count); [|lia]. by eexists.
Qed.

(** ** Nodes agree *)
Lemma Local_Compare_trans a b c : Local_Compare a b <= 0 -> Local_Compare b c <= 0 -> Local_Compare a c <= 0.
Proof.
  unfold Local_Compare. rewrite !Z.gtb_ltb.
  destruct (Z.ltb_spec (pulseAndScope a) (pulseAndScope b)), (Z.ltb_spec (pulseAndScope b) (pulseAndScope a)),
    (Z.ltb_spec (pulseAndScope b) (pulseAndScope c)), (Z.ltb_spec (pulseAndScope c) (pulseAndScope b)),
    (Z.ltb_spec (pulseAndScope a) (pulseAndScope c)), (Z.ltb_spec (pulseAndScope c) (pulseAndScope a)); try lia.
  apply bytesCompare_trans.
Qed.

Lemma Local_Compare_0_l a b c : Local_Compare a b = 0 -> Local_Compare a c = Local_Compare b c.
Proof. by intros ->%Local_Compare_eq. Qed.

Lemma ref_le_base a b : ref_le a b <->
  Local_Compare (addressBase a) (addressBase b) < 0 \/
  addressBase a = addressBase b /\ Local_Compare (addressLocal a) (addressLocal b) <= 0.
Proof.
  unfold ref_le, Global_Compare. rewrite <- Local_Compare_eq.
  destruct (Z.eqb_spec (Local_Compare (addressBase a) (addressBase b)) 0); cbn; lia.
Qed.

#[export] Instance ref_le_trans : Transitive ref_le.
Proof.
  intros a b c. rewrite !ref_le_base.
  intros [H1|[E1 H1]] [H2|[E2 H2]].
  - left. destruct (Z.lt_trichotomy (Local_Compare (addressBase a) (addressBase c)) 0) as [|[E|H]]; [done| |].
    + apply Local_Compare_eq in E. rewrite E, Local_Compare_antisym in H1. lia.
    + pose proof (Local_Compare_trans (addressBase a) (addressBase b) (addressBase c)). lia.
  - left. by rewrite <- E2.
  - left. by rewrite E1.
  - right. split; [congruence|]. by eapply Local_Compare_trans.
Qed.
#[export] Instance ref_le_total : Total ref_le.
Proof.
  intros a b. rewrite !ref_le_base, (Local_Compare_antisym (addressBase a) (addressBase b)),
    (Local_Compare_antisym (addressLocal a) (addressLocal b)).
  destruct (Z.lt_trichotomy (Local_Compare (addressBase a) (addressBase b)) 0) as [H|[->%Local_Compare_eq|H]];
    [by left; left| |right; left; lia].
  destruct (Z_le_dec (Local_Compare (addressLocal a) (addressLocal b)) 0); [left|right]; right; (split; [done|lia]).
Qed.
#[export] Instance ref_le_antisymm : AntiSymm eq ref_le.
Proof.
  intros a b. rewrite !ref_le_base.
  rewrite (Local_Compare_antisym (addressBase a) (addressBase b)), (Local_Compare_antisym (addressLocal a) (addressLocal b)).
  assert (forall u, Local_Compare u u = 0) as Hr by (intros u; by apply Local_Compare_eq).
  intros [H1|[E1 H1]] [H2|[E2 H2]]; [lia|rewrite E2, Hr in H1; lia|rewrite E1, Hr in H2; lia|].
  assert (Local_Compare (addressLocal a) (addressLocal b) = 0) as E%Local_Compare_eq by lia.
  destruct a, b; cbn in *; congruence.
Qed.

#[export] Instance node_le_trans : Transitive node_le.
Proof. intros a b c. apply ref_le_trans. Qed.
#[export] Instance node_le_total : Total node_le.
Proof. intros a b. apply ref_le_total. Qed.

Lemma sorted_ids values : StronglySorted ref_le (Node_ID <$> merge_sort node_le values).
Proof.
  assert (StronglySorted node_le (merge_sort node_le values)) as Hs.
  { apply (StronglySorted_merge_sort node_le). }
  induction Hs as [|x l _ IH Hx]; cbn; [constructor|]. constructor; [done|]. by apply Forall_fmap.
Qed.

(** The order of the candidates does not matter. *)
Lemma getRefs_perm hash e values values' count :
  values ≡ₚ values' -> getRefs hash e values count = getRefs hash e values' count.
Proof.
  intros Hp. unfold getRefs. f_equal. apply (StronglySorted_unique ref_le); [apply sorted_ids..|].
  by rewrite !merge_sort_Permutation, Hp.
Qed.

Section Agree.
Context (hash : list Z -> list Z) `{LawfulStorage St} (pulses : St).

(** Lists of nodes that differ in their order only. *)
Definition same_nodes (nodes nodes' : NodeStorage) : Prop :=
  forall pn, option_Forall2 (≡ₚ) (nodes !! pn) (nodes' !! pn).

Lemma same_InRole nodes nodes' pn role :
  same_nodes nodes nodes' ->
  (exists e, Node_InRole nodes pn role = Fail e /\ Node_InRole nodes' pn role = Fail e) \/
  (exists l l', Node_InRole nodes pn role = Good l /\ Node_InRole nodes' pn role = Good l' /\ l ≡ₚ l').
Proof.
  intros Hn. unfold Node_InRole. destruct (Hn pn) as [l l' Hl|]; [right|left; by eexists].
  eexists _, _. split_and!; [done..|]. by rewrite Hl.
Qed.

Lemma chosen_perm seed l l' pn count :
  l ≡ₚ l' -> chosen hash pulses seed l pn count = chosen hash pulses seed l' pn count.
Proof.
  intros Hl. unfold chosen. destruct (entropy pulses pn) as [r|]; [|done]. cbn [mbind go_bind].
  destruct (wrap_err r _); [|done]. destruct (seed _); [|done]. cbn [mbind go_bind]. by apply getRefs_perm.
Qed.

(** The choice among candidates, on every branch. *)
Lemma same_choice {A} nodes nodes' pn role (f : list Node -> A) (empty : A) (failed : error -> A) :
  same_nodes nodes nodes' -> (forall l l', l ≡ₚ l' -> f l = f l') ->
  match Node_InRole nodes pn role with Fail e => failed e | Good [] => empty | Good l => f l end =
  match Node_InRole nodes' pn role with Fail e => failed e | Good [] => empty | Good l => f l end.
Proof.
  intros Hn Hf. destruct (same_InRole nodes nodes' pn role Hn) as [(e & -> & ->)|(l & l' & -> & -> & Hl)]; [done|].
  destruct l as [|x l]; [apply Permutation_nil in Hl; by subst l'|].
  destruct l' as [|x' l']; [by apply Permutation_nil_r in Hl|]. by apply Hf.
Qed.
End Agree.

(** whatever order two nodes know the nodes of each pulse in, with the same
    pulses and jets they choose the same nodes for every role. *)
Theorem roles_agree hash `{LawfulStorage St} (pulses : St) nodes nodes' jets role objID pn :
  same_nodes nodes nodes' ->
  QueryRole hash pulses nodes jets role objID pn = QueryRole hash pulses nodes' jets role objID pn.
Proof.
  intros Hn.
  assert (forall count, virtualsForObject hash pulses nodes objID pn count =
    virtualsForObject hash pulses nodes' objID pn count) as Hv.
  { intros count. apply same_choice; [done|]. intros l l'. apply chosen_perm. }
  assert (forall j count, lightMaterialsForJet hash pulses nodes j pn count =
    lightMaterialsForJet hash pulses nodes' j pn count) as Hl.
  { intros j count. unfold lightMaterialsForJet. destruct (Prefix j); [|done]. cbn [mbind go_bind].
    apply same_choice; [done|]. intros l l'. apply chosen_perm. }
  assert (Heavy hash pulses nodes = Heavy hash pulses nodes') as Hh.
  { unfold Heavy. destruct (Latest pulses) as [[p|e]|]; [|done..]. cbn [mbind go_bind].
    apply same_choice; [done|]. intros l l' Hp. by rewrite (chosen_perm hash pulses Ret l l'). }
  destruct role; cbn [QueryRole]; unfold VirtualExecutorForObject, VirtualValidatorsForObject,
    LightExecutorForObject, LightValidatorsForObject, LightExecutorForJet, LightValidatorsForJet.
  - done.
  - by rewrite Hv.
  - by rewrite Hv.
  - rewrite Hl. destruct (_ =? _); [done|]. destruct (Store_ForID _ _ _) as [r|]; [|done].
    cbn [mbind go_bind]. by rewrite Hl.
  - destruct (Store_ForID _ _ _) as [r|]; [|done]. cbn [mbind go_bind]. by rewrite Hl.
  - by rewrite Hh.
Qed.

(** ** Executors and validators *)
Section Roles.
Context (hash : list Z -> list Z) `{LawfulStorage St} (pulses : St) (nodes : NodeStorage).
Context (l : list Pulse) (p : Pulse) (Hl : holds pulses l) (Hp : p ∈ l).

Lemma entropy_of : entropy pulses (num p) = Ret (Good (Entropy p)).
Proof.
  unfold entropy. rewrite (Latest_law _ _ Hl). cbn [mbind go_bind].
  pose proof (holds_increasing _ _ Hl) as Hinc. apply list_elem_of_lookup in Hp as [i Hi].
  unfold list_Latest. destruct (last l) as [q|] eqn:Eq.
  - cbn [found]. destruct (Z.eqb_spec (num q) (num p)) as [E|Hne].
    + rewrite last_lookup in Eq. pose proof (increasing_index _ _ _ _ _ Hinc Eq Hi E) as Ei. by replace q with p by congruence.
    + rewrite (ForPulseNumber_law _ _ _ Hl). unfold list_ForPulseNumber.
      by rewrite (increasing_find l i p Hinc Hi).
  - apply last_None in Eq. by subst l.
Qed.

Lemma CircleXOR_ret value src : src <> [] -> exists e, CircleXOR value src = Ret e.
Proof. destruct value, src; try done; intros _; by eexists. Qed.

(** One node and three others, out of at least four. *)
Lemma chosen_roles seed cands :
  (exists e, seed (Entropy p) = Ret e) -> NoDup (Node_ID <$> cands) -> (4 <= length cands)%nat ->
  exists x vs, chosen hash pulses seed cands (num p) 1 = Ret (Good [x]) /\
    chosen hash pulses seed cands (num p) 4 = Ret (Good (x :: vs)) /\
    length vs = 3%nat /\ NoDup (x :: vs) /\ forall n, n ∈ x :: vs -> n ∈ Node_ID <$> cands.
Proof.
  intros [e He] Hnd Hlen. unfold chosen. rewrite entropy_of. cbn [mbind go_bind wrap_err]. rewrite He.
  cbn [mbind go_bind]. unfold getRefs. set (ids := Node_ID <$> merge_sort node_le cands).
  assert (ids ≡ₚ Node_ID <$> cands) as Hids by (unfold ids; by rewrite merge_sort_Permutation).
  assert (length ids = length cands) as Hli by (rewrite Hids; apply length_fmap).
  destruct (select_more hash e ids 4) as (sel & rest & E & Hsl & Hperm & Hpre); [lia|].
  destruct sel as [|x vs]; [done|]. exists x, vs. rewrite (Hpre ltac:(lia) 1%nat) by lia. cbn [take].
  rewrite E. split_and!; [done..|cbn in Hsl; lia| |].
  - rewrite <- Hids, <- Hperm in Hnd. by apply list.NoDup_app in Hnd as [? _].
  - intros n Hn. rewrite <- Hids, <- Hperm. apply elem_of_app. by left.
Qed.

(** The nodes of a role in the pulse. *)
Definition candidates (role : Z) : list Node :=
  filter (fun node => HotData.Role node = role) (default [] (nodes !! num p)).

Lemma InRole_candidates role :
  (4 <= length (candidates role))%nat -> Node_InRole nodes (num p) role = Good (candidates role).
Proof. unfold candidates, Node_InRole. destruct (nodes !! num p); [done|]. cbn. lia. Qed.

Definition enough (role : Z) : Prop :=
  NoDup (Node_ID <$> candidates role) /\ (4 <= length (candidates role))%nat.

Lemma virtual_roles objID :
  Local_wf objID -> enough StaticRoleVirtual -> exists x vs,
    VirtualExecutorForObject hash pulses nodes objID (num p) = Ret (Good x) /\
    VirtualValidatorsForObject hash pulses nodes objID (num p) = Ret (Good vs) /\
    length vs = 3%nat /\ NoDup (x :: vs) /\
    forall n, n ∈ x :: vs -> n ∈ Node_ID <$> candidates StaticRoleVirtual.
Proof.
  intros (_ & Hlen & _) [Hnd H4].
  destruct (chosen_roles (fun ent => CircleXOR ent (Local_Hash objID)) (candidates StaticRoleVirtual))
    as (x & vs & E1 & E4 & H3 & Hx & Hin); [|done..|].
  { apply CircleXOR_ret. unfold Local_Hash. by destruct (Reference.hash objID). }
  assert (forall count r, chosen hash pulses (fun ent => CircleXOR ent (Local_Hash objID))
      (candidates StaticRoleVirtual) (num p) count = Ret r ->
    virtualsForObject hash pulses nodes objID (num p) count = Ret r) as Hv.
  { intros count r E. unfold virtualsForObject. rewrite InRole_candidates by done.
    destruct (candidates StaticRoleVirtual); [cbn in H4; lia|done]. }
  apply Hv in E1, E4. exists x, vs.
  unfold VirtualExecutorForObject, VirtualValidatorsForObject, VirtualExecutorCount.
  change (VirtualValidatorCount + 1)%nat with 4%nat. rewrite E1, E4. by split_and!.
Qed.

Lemma light_roles jetID prefix :
  Prefix jetID = Ret prefix -> prefix <> [] -> enough StaticRoleLightMaterial -> exists x vs,
    LightExecutorForJet hash pulses nodes jetID (num p) = Ret (Good x) /\
    LightValidatorsForJet hash pulses nodes jetID (num p) = Ret (Good vs) /\
    length vs = 3%nat /\ NoDup (x :: vs) /\
    forall n, n ∈ x :: vs -> n ∈ Node_ID <$> candidates StaticRoleLightMaterial.
Proof.
  intros Epre Hpre [Hnd H4].
  destruct (chosen_roles (fun ent => CircleXOR ent prefix) (candidates StaticRoleLightMaterial))
    as (x & vs & E1 & E4 & H3 & Hx & Hin); [by apply CircleXOR_ret|done..|].
  assert (forall count r, chosen hash pulses (fun ent => CircleXOR ent prefix)
      (candidates StaticRoleLightMaterial) (num p) count = Ret r ->
    lightMaterialsForJet hash pulses nodes jetID (num p) count = Ret r) as Hv.
  { intros count r E. unfold lightMaterialsForJet. rewrite Epre. cbn [mbind go_bind].
    rewrite InRole_candidates by done. destruct (candidates StaticRoleLightMaterial); [cbn in H4; lia|done]. }
  apply Hv in E1, E4. exists x, vs. unfold LightExecutorForJet, LightValidatorsForJet, MaterialExecutorCount.
  change (MaterialValidatorCount + 1)%nat with 4%nat. rewrite E1, E4. by split_and!.
Qed.

(** [IsAuthorized] looks the node up in the answer of [QueryRole]. *)
Lemma IsAuthorized_in jets jets' role objID pn vs n :
  QueryRole hash pulses nodes jets role objID pn = Ret (jets', Good vs) ->
  IsAuthorized hash pulses nodes jets role objID pn n = Ret (jets', Good (bool_decide (n ∈ vs))).
Proof.
  intros E. unfold IsAuthorized. rewrite E. cbn. do 3 f_equal. apply Bool.eq_iff_eq_true.
  rewrite existsb_exists, bool_decide_eq_true. setoid_rewrite bool_decide_eq_true.
  setoid_rewrite <- list_elem_of_In. split; [by intros (m & Hm & ->)|by exists n].
Qed.
End Roles.

(** C29: in a stored pulse with at least four virtual and four light nodes, an
    object has an executor and three validators, four different virtual nodes
    of the pulse, and a jet has as many light nodes; only the executor is
    authorized as the executor of the object, and only the validators as its
    validators, so that nobody validates itself. *)
Theorem executors_and_validators hash `{LawfulStorage St} (pulses : St) nodes l p jets objID q :
  holds pulses l -> p ∈ l -> Local_wf objID ->
  enough nodes p StaticRoleVirtual -> enough nodes p StaticRoleLightMaterial ->
  (exists x vs, VirtualExecutorForObject hash pulses nodes objID (num p) = Ret (Good x) /\
     VirtualValidatorsForObject hash pulses nodes objID (num p) = Ret (Good vs) /\
     length vs = 3%nat /\ NoDup (x :: vs) /\
     (forall n, n ∈ x :: vs -> n ∈ Node_ID <$> candidates nodes p StaticRoleVirtual) /\
     (forall n, IsAuthorized hash pulses nodes jets DynamicRoleVirtualExecutor objID (num p) n =
        Ret (jets, Good (bool_decide (n ∈ [x])))) /\
     (forall n, IsAuthorized hash pulses nodes jets DynamicRoleVirtualValidator objID (num p) n =
        Ret (jets, Good (bool_decide (n ∈ vs))))) /\
  (exists x vs, LightExecutorForJet hash pulses nodes (jet_id q) (num p) = Ret (Good x) /\
     LightValidatorsForJet hash pulses nodes (jet_id q) (num p) = Ret (Good vs) /\
     length vs = 3%nat /\ NoDup (x :: vs) /\
     (forall n, n ∈ x :: vs -> n ∈ Node_ID <$> candidates nodes p StaticRoleLightMaterial)).
Proof.
  intros Hl Hp Hwf Hv Hlm. split.
  - destruct (virtual_roles hash pulses nodes l p Hl Hp objID Hwf Hv) as (x & vs & Ex & Ev & H3 & Hx & Hin).
    exists x, vs. split_and!; [done..| |]; intros n; apply IsAuthorized_in; cbn [QueryRole].
    + by rewrite Ex.
    + by rewrite Ev.
  - by apply (light_roles hash pulses nodes l p Hl Hp (jet_id q) (bytes_of 27 q) (Prefix_jet_id q)).
Qed.

(** ** The limit of the chain *)
Lemma beyond_loop_window `{LawfulStorage St} (pulses : St) l j latest targetPN fuel i iter :
  holds pulses l -> l !! j = Some latest -> (i <= j)%nat -> num <$> l !! (j - i)%nat = Some iter ->
  exists b, beyond_loop pulses (num latest) targetPN fuel (S i) iter = Ret (Good b) /\
    (b = false <-> exists d p, (i <= d < i + fuel)%nat /\ (d < j)%nat /\
                     l !! (j - d)%nat = Some p /\ num p <= targetPN).
Proof.
  intros Hl Hj. revert i iter. induction fuel as [|fuel IH]; intros i iter Hi Hiter; cbn [beyond_loop].
  { exists true. split; [done|]. split; [done|]. intros (d & p & ? & _). lia. }
  rewrite (Backwards_law _ _ _ _ (S i) Hl Hj). cbn [mbind go_bind].
  destruct (Nat.leb_spec (S i) j) as [Hle|Hgt].
  - apply lookup_lt_Some in Hj as Hlt. destruct (lookup_lt_is_Some_2 l (j - S i)) as [q Hq]; [lia|].
    rewrite Hq. cbn [found]. destruct (Z.leb_spec iter targetPN) as [Ht|Ht].
    + exists false. split; [done|]. split; [intros _|done].
      destruct (l !! (j - i)%nat) as [p|] eqn:E; [|done]. injection Hiter as <-. exists i, p. split_and!; [lia..|done|done].
    + destruct (IH (S i) (num q)) as (b & -> & Hb); [done|by rewrite Hq|]. exists b. split; [done|]. rewrite Hb.
      split; intros (d & p & Hd & Hdj & E & Hn); exists d, p; (split; [|done]); [lia|].
      destruct (decide (d = i)) as [->|]; [|lia]. rewrite E in Hiter. injection Hiter as <-. lia.
  - cbn [found]. rewrite bool_decide_true by done. exists true. split; [done|]. split; [done|].
    intros (d & p & Hd & Hdj & _). lia.
Qed.

(** a pulse after the genesis pulse is within the limit exactly when it is not
    before the latest pulse or not before some pulse fewer than
    [lightChainLimit] steps back, other than the oldest one stored; the
    question is always answered, after at most [lightChainLimit] steps. *)
Theorem IsBeyondLimit_window `{LawfulStorage St} (pulses : St) lightChainLimit l latest targetPN :
  holds pulses l -> last l = Some latest -> GenesisPulseNumber < targetPN ->
  exists b, IsBeyondLimit pulses lightChainLimit targetPN = Ret (Good b) /\
    (b = false <-> num latest <= targetPN \/
       exists d p, (d < lightChainLimit)%nat /\ (0 < length l - 1 - d)%nat /\
                   l !! (length l - 1 - d)%nat = Some p /\ num p <= targetPN).
Proof.
  intros Hl Hlast Ht. unfold IsBeyondLimit. destruct (Z.leb_spec targetPN GenesisPulseNumber); [lia|].
  rewrite (Latest_law _ _ Hl). unfold list_Latest. rewrite Hlast. cbn [found mbind go_bind].
  destruct (Z.leb_spec (num latest) targetPN) as [Hle|Hgt]; [exists false; split; [done|]; tauto|].
  rewrite last_lookup in Hlast. rewrite <- Nat.sub_1_r in Hlast.
  destruct (beyond_loop_window pulses l (length l - 1) latest targetPN lightChainLimit 0 (num latest) Hl Hlast)
    as (b & -> & Hb); [lia|by rewrite Nat.sub_0_r, Hlast|]. exists b. split; [done|]. rewrite Hb. split.
  - intros (d & p & Hd & Hdj & E & Hn). right. exists d, p. split_and!; [lia|lia|done|done].
  - intros [?|(d & p & Hd & Hdj & E & Hn)]; [lia|]. exists d, p. split_and!; [lia|lia|lia|done|done].
Qed.

(** ** The theorems at work *)
Module SampleRoles.

Definition ref (n : Z) : Global := mkGlobal (mkLocal 65537 (replicate 28 n)) (mkLocal 65537 (replicate 28 n)).
Definition hash (b : list Z) : list Z := reverse b.
Definition virtuals : list Node := (fun n => mkNode (ref n) 1) <$> [4; 2; 1; 3].
Definition lights : list Node := (fun n => mkNode (ref n) 3) <$> [5; 7; 6; 8].
Definition nodes : NodeStorage := {[65547 := virtuals ++ lights]}.
Definition nodes' : NodeStorage := {[65547 := lights ++ virtuals]}.

Lemma roles_agree_witness : exists pulses : StorageMem,
  QueryRole hash pulses nodes (mkStore ∅) DynamicRoleVirtualValidator sampleLocal 65547 =
  QueryRole hash pulses nodes' (mkStore ∅) DynamicRoleVirtualValidator sampleLocal 65547.
Proof.
  destruct samplePulses as [s Hs]. exists s. apply (roles_agree hash (H0:=StorageMem_lawful)).
  intros pn. unfold nodes, nodes'. destruct (decide (pn = 65547)) as [->|Hne].
  - rewrite !lookup_singleton_eq. constructor. apply Permutation_app_comm.
  - rewrite !lookup_singleton_ne by done. constructor.
Defined.

Lemma enough_roles : enough nodes (samplePulse 65547) StaticRoleVirtual /\
  enough nodes (samplePulse 65547) StaticRoleLightMaterial.
Proof. by split; (split; [apply (bool_decide_unpack _); vm_compute|apply Nat.leb_le; vm_compute]). Qed.

Lemma executors_and_validators_witness : exists (pulses : StorageMem) x vs,
  VirtualExecutorForObject hash pulses nodes sampleLocal 65547 = Ret (Good x) /\
  VirtualValidatorsForObject hash pulses nodes sampleLocal 65547 = Ret (Good vs) /\ NoDup (x :: vs).
Proof.
  destruct samplePulses as [s Hs]. exists s. destruct enough_roles as [H1 H2].
  destruct (executors_and_validators hash (H0:=StorageMem_lawful) s nodes (samplePulse <$> [65537; 65547])
    (samplePulse 65547) (mkStore ∅) sampleLocal [true] Hs) as [(x & vs & Ex & Ev & _ & Hnd & _) _].
  - right. by left.
  - apply sampleLocal_wf.
  - exact H1.
  - exact H2.
  - by exists x, vs.
Defined.

Lemma IsBeyondLimit_window_witness : exists (pulses : StorageMem) b,
  IsBeyondLimit pulses 5 65540 = Ret (Good b) /\
  (b = false <-> 65547 <= 65540 \/
     exists d p, (d < 5)%nat /\ (0 < 1 - d)%nat /\
       (samplePulse <$> [65537; 65547]) !! (1 - d)%nat = Some p /\ num p <= 65540).
Proof.
  destruct samplePulses as [s Hs]. exists s.
  apply (IsBeyondLimit_window (H0:=StorageMem_lawful) s 5 _ (samplePulse 65547) 65540 Hs eq_refl). by vm_compute.
Defined.
End SampleRoles.
