(* ===== verification/Broker.v ===== *)
(** * Execution of requests (src/logicrunner/executionbroker.go,
    executionregistry/execution_registry.go, common/transcript.go)

    A virtual node has, per object and pulse, a broker: it fetches the requests
    of the object from the ledger and feeds them to readers, one for mutable
    and thirty for immutable requests, that execute them.  A registry, shared
    with the brokers of earlier pulses, holds what is executing.  The regions
    under the lock of the broker are functions of its state; the goroutines
    interleave in [broker_step].  The fetcher may deliver any transcripts. *)
From S2P Require Import Prelude Reference Records.

Definition ErrNotInPending : error := Errorf "state is not in pending".
Definition ErrAlreadyExecuting : error := Errorf "already executing".
Definition ErrAlreadyRegistered : error :=
  Errorf "trying to register task that is executing right now".
Definition immutableExecutionLimit : nat := 30.
Definition feedSize : nat := 10.

Inductive LedgerHasMore : Type := LedgerIsEmpty | LedgerHasMoreKnown | LedgerHasMoreUnknown.
Inductive PendingState : Type := PendingUnknown | NotPending | InPending.
#[export] Instance PendingState_eq_dec : EqDecision PendingState.
Proof. solve_decision. Defined.

Record Transcript : Type := mkTranscript { RequestRef : Global; tr_Request : RequestBody }.

(** payload.ExecutorResults, StillExecuting, PendingFinished *)
Inductive message : Type :=
  | ExecutorResults (recordRef : Global) (pending : PendingState) (ledgerHasMoreRequests : bool)
  | StillExecuting (objectRef executor : Global) (requestRefs : list Global)
  | PendingFinished (objectRef : Global).

(** ** execution_registry.go *)
Abbreviation executionRegistry := (gmap Global Transcript).
Definition Length (r : executionRegistry) : nat := size r.
Definition IsEmpty (r : executionRegistry) : bool := (Length r =? 0)%nat.
Definition Register (r : executionRegistry) (tr : Transcript) : executionRegistry * option error :=
  match r !! RequestRef tr with
  | Some _ => (r, Some ErrAlreadyRegistered)
  | None => (<[RequestRef tr := tr]> r, None)
  end.
Definition Done (r : executionRegistry) (tr : Transcript) : executionRegistry * bool :=
  match r !! RequestRef tr with
  | None => (r, false)
  | Some _ => (delete (RequestRef tr) r, true)
  end.
Definition registry_OnPulse (objectRef me : Global) (r : executionRegistry) : list message :=
  if (Length r =? 0)%nat then []
  else [StillExecuting objectRef me ((map_to_list r).*1)].
Definition GetActiveTranscript (r : executionRegistry) (req : Global) : option Transcript := r !! req.

(** ** executionbroker.go *)
Record ExecutionBroker : Type := mkBroker {
  processorActive : bool;
  b_closed : bool;
  ledgerHasMoreRequests : LedgerHasMore;
  (** A channel with room for one. *)
  probablyMoreSinceLastFetch : bool;
  finished : list Transcript;
  pending : PendingState;
  PendingConfirmed : bool;
  deduplicationTable : gset Global;
}.
Definition NewExecutionBroker : ExecutionBroker :=
  mkBroker false false LedgerIsEmpty false [] PendingUnknown false ∅.

Definition has_more (m : LedgerHasMore) : bool :=
  match m with LedgerIsEmpty => false | _ => true end.

Definition set_hasMore (q : ExecutionBroker) (m : LedgerHasMore) (flag : bool) : ExecutionBroker :=
  mkBroker (processorActive q) (b_closed q) m flag (finished q) (pending q) (PendingConfirmed q)
    (deduplicationTable q).
Definition set_pending (q : ExecutionBroker) (p : PendingState) (confirmed : bool) : ExecutionBroker :=
  mkBroker (processorActive q) (b_closed q) (ledgerHasMoreRequests q) (probablyMoreSinceLastFetch q)
    (finished q) p confirmed (deduplicationTable q).

Definition setHasMoreRequests (q : ExecutionBroker) : ExecutionBroker :=
  set_hasMore q LedgerHasMoreKnown true.
Definition HasMoreRequests := setHasMoreRequests.
Definition AbandonedRequestsOnLedger (q : ExecutionBroker) : ExecutionBroker :=
  setHasMoreRequests
    (if bool_decide (pending q = PendingUnknown) then set_pending q InPending false else q).
Definition noMoreRequestsOnLedgerInitial (q : ExecutionBroker) : ExecutionBroker :=
  if probablyMoreSinceLastFetch q then q else set_hasMore q LedgerIsEmpty false.
Definition noMoreRequestsOnLedger (q : ExecutionBroker) : ExecutionBroker :=
  if probablyMoreSinceLastFetch q then q else set_hasMore q LedgerHasMoreKnown false.

(** The last part of [clarifyPendingStateFromLedger]: the ledger answered. *)
Definition clarify (has : bool) (q : ExecutionBroker) : ExecutionBroker :=
  if bool_decide (pending q = PendingUnknown) then
    if has then set_hasMore (set_pending q InPending (PendingConfirmed q)) LedgerHasMoreUnknown
                  (probablyMoreSinceLastFetch q)
    else set_pending q NotPending (PendingConfirmed q)
  else q.

(** [startProcessor] under the lock: does a processor start? *)
Definition startProcessor (q : ExecutionBroker) : ExecutionBroker * bool :=
  if negb (bool_decide (pending q = NotPending)) then (q, false)
  else if processorActive q then (q, false)
  else if b_closed q then (q, false)
  else (mkBroker true (b_closed q) (ledgerHasMoreRequests q) false (finished q) (pending q)
          (PendingConfirmed q) (deduplicationTable q), true).

Definition canProcessTranscript (q : ExecutionBroker) (r : executionRegistry) (tr : Transcript) :
  executionRegistry * bool :=
  if b_closed q then (r, false)
  else match Register r tr with
       | (r, Some _) => (r, false)
       | (r, None) => (r, true)
       end.
Definition finishTranscript (q : ExecutionBroker) (r : executionRegistry) (tr : Transcript) :
  ExecutionBroker * executionRegistry :=
  (mkBroker (processorActive q) (b_closed q) (ledgerHasMoreRequests q) (probablyMoreSinceLastFetch q)
     (finished q ++ [tr]) (pending q) (PendingConfirmed q) (deduplicationTable q), (Done r tr).1).
Definition finishPendingIfNeeded (ref : Global) (q : ExecutionBroker) (r : executionRegistry) : list message :=
  if negb (bool_decide (pending q = InPending)) then []
  else if negb (IsEmpty r) then []
  else [PendingFinished ref].

Definition isActive (r : executionRegistry) : bool := negb (IsEmpty r).

Definition OnPulse (ref : Global) (q : ExecutionBroker) (r : executionRegistry) :
  ExecutionBroker * list message :=
  let '(p, more, sendExecResults) :=
    if isActive r then (InPending, ledgerHasMoreRequests q, true)
    else if bool_decide (pending q = InPending) && negb (PendingConfirmed q)
    then (NotPending, LedgerHasMoreKnown, true)
    else (pending q, ledgerHasMoreRequests q,
          negb (length (finished q) =? 0)%nat || has_more (ledgerHasMoreRequests q)) in
  (mkBroker (processorActive q) true more (probablyMoreSinceLastFetch q) [] InPending true ∅,
   if sendExecResults : bool then [ExecutorResults ref p (has_more more)] else []).

Definition PrevExecutorPendingResult (prevExecState : PendingState) (q : ExecutionBroker)
    (r : executionRegistry) : ExecutionBroker :=
  match pending q with
  | InPending =>
      if isActive r then q
      else if bool_decide (prevExecState = NotPending) then set_pending q NotPending (PendingConfirmed q)
      else q
  | PendingUnknown => set_pending q prevExecState (PendingConfirmed q)
  | NotPending => q
  end.
Definition PrevExecutorStillExecuting (q : ExecutionBroker) : ExecutionBroker * option error :=
  match pending q with
  | NotPending => (q, Some ErrNotInPending)
  | _ => (set_pending q InPending true, None)
  end.
Definition PrevExecutorSentPendingFinished (q : ExecutionBroker) (r : executionRegistry) :
  ExecutionBroker * option error :=
  if isActive r then (q, Some ErrAlreadyExecuting)
  else (set_pending q NotPending (PendingConfirmed q), None).
Definition SetNotPending (q : ExecutionBroker) : ExecutionBroker :=
  set_pending q NotPending (PendingConfirmed q).

Definition upsertToDuplicationTable (q : ExecutionBroker) (tr : Transcript) : ExecutionBroker * bool :=
  if bool_decide (RequestRef tr ∈ deduplicationTable q) then (q, true)
  else (mkBroker (processorActive q) (b_closed q) (ledgerHasMoreRequests q) (probablyMoreSinceLastFetch q)
          (finished q) (pending q) (PendingConfirmed q) ({[RequestRef tr]} ∪ deduplicationTable q), false).

(** ** The goroutines *)

(** The processing goroutine: waits for the fetcher, or, when the fetcher is
    done, for a sign of more requests; has a transcript to hand over; ended. *)
Inductive pump : Type := Fetching | Drained | Holding (tr : Transcript) | Stopped.
Record processor : Type := mkProcessor {
  p_pump : pump;
  fetchedRequests : Z;
  fetchIteration : Z;
  feedMutable : list Transcript;
  feedImmutable : list Transcript;
}.
Inductive stage : Type := Idle | Picked (tr : Transcript) | Executing (tr : Transcript) | Finishing.
Record reader : Type := mkReader { rd_immutable : bool; rd_stage : stage }.

Definition readers0 : list reader := mkReader false Idle :: replicate immutableExecutionLimit (mkReader true Idle).
Definition processor0 : processor := mkProcessor Fetching 0 0 [] [].
Definition set_pump (p : processor) (x : pump) : processor :=
  mkProcessor x (fetchedRequests p) (fetchIteration p) (feedMutable p) (feedImmutable p).
Definition feed (p : processor) (immutable : bool) : list Transcript :=
  if immutable then feedImmutable p else feedMutable p.
Definition set_feed (p : processor) (immutable : bool) (f : list Transcript) : processor :=
  if immutable then mkProcessor (p_pump p) (fetchedRequests p) (fetchIteration p) (feedMutable p) f
  else mkProcessor (p_pump p) (fetchedRequests p) (fetchIteration p) f (feedImmutable p).

(** [clarifying] goroutines ask for the pending state, [starting] ones are to
    take the lock.  [others] are the requests that brokers of earlier pulses
    execute; [begun] are those this broker began, latest first. *)
Record machine : Type := mkMachine {
  broker : ExecutionBroker;
  registry : executionRegistry;
  clarifying : nat;
  starting : nat;
  proc : option processor;
  readers : list reader;
  sent : list message;
  others : gset Global;
  begun : list Global;
}.

(** Calls of the handlers; each tells whether it starts a goroutine. *)
Inductive call : Type :=
  | call_HasMoreRequests
  | call_AbandonedRequestsOnLedger
  | call_PrevExecutorPendingResult (st : PendingState)
  | call_PrevExecutorStillExecuting
  | call_PrevExecutorSentPendingFinished
  | call_SetNotPending.
Definition handle (c : call) (q : ExecutionBroker) (r : executionRegistry) : ExecutionBroker * nat :=
  match c with
  | call_HasMoreRequests => (HasMoreRequests q, 1%nat)
  | call_AbandonedRequestsOnLedger => (AbandonedRequestsOnLedger q, 1%nat)
  | call_PrevExecutorPendingResult st => (PrevExecutorPendingResult st q r, 0%nat)
  | call_PrevExecutorStillExecuting => ((PrevExecutorStillExecuting q).1, 0%nat)
  | call_PrevExecutorSentPendingFinished =>
      let '(q, e) := PrevExecutorSentPendingFinished q r in
      (q, match e with None => 1%nat | Some _ => 0%nat end)
  | call_SetNotPending => (SetNotPending q, 0%nat)
  end.

Definition set_proc (s : machine) (q : ExecutionBroker) (p : processor) : machine :=
  mkMachine q (registry s) (clarifying s) (starting s) (Some p) (readers s) (sent s) (others s) (begun s).
Definition set_reader (s : machine) (i : nat) (st : stage) (immutable : bool) (q : ExecutionBroker)
    (r : executionRegistry) (p : processor) (begun' : list Global) (more : list message) : machine :=
  mkMachine q r (clarifying s) (starting s) (Some p) (<[i := mkReader immutable st]> (readers s))
    (sent s ++ more) (others s) begun'.

Section Machine.
Context (ref : Global).

Inductive broker_step (s : machine) : machine -> Prop :=
  | bs_call c q n :
      handle c (broker s) (registry s) = (q, n) ->
      broker_step s (mkMachine q (registry s) (clarifying s + n) (starting s) (proc s) (readers s)
                       (sent s) (others s) (begun s))
  (** The state is known, or the ledger answers, or it fails to. *)
  | bs_clarify n q :
      clarifying s = S n ->
      (q = broker s \/ exists has, q = clarify has (broker s)) ->
      broker_step s (mkMachine q (registry s) n (S (starting s)) (proc s) (readers s)
                       (sent s) (others s) (begun s))
  | bs_start n q :
      starting s = S n -> startProcessor (broker s) = (q, true) ->
      broker_step s (mkMachine q (registry s) (clarifying s) n (Some processor0) readers0
                       (sent s) (others s) (begun s))
  | bs_not_start n q :
      starting s = S n -> startProcessor (broker s) = (q, false) ->
      broker_step s (mkMachine q (registry s) (clarifying s) n (proc s) (readers s)
                       (sent s) (others s) (begun s))
  | bs_pulse q msgs :
      OnPulse ref (broker s) (registry s) = (q, msgs) ->
      broker_step s (mkMachine q (registry s) (clarifying s) (starting s) (proc s) (readers s)
                       (sent s ++ msgs) (others s) (begun s))
  (** The processing goroutine. *)
  | bs_fetch_known p tr q :
      proc s = Some p -> p_pump p = Fetching -> upsertToDuplicationTable (broker s) tr = (q, true) ->
      broker_step s (set_proc s q p)
  | bs_fetch p tr q :
      proc s = Some p -> p_pump p = Fetching -> upsertToDuplicationTable (broker s) tr = (q, false) ->
      broker_step s (set_proc s q (mkProcessor (Holding tr) (fetchedRequests p + 1) (fetchIteration p)
                                     (feedMutable p) (feedImmutable p)))
  | bs_push p tr :
      proc s = Some p -> p_pump p = Holding tr ->
      (length (feed p (Immutable (tr_Request tr))) < feedSize)%nat ->
      broker_step s (set_proc s (broker s)
        (set_feed (set_pump p Fetching) (Immutable (tr_Request tr))
           (feed p (Immutable (tr_Request tr)) ++ [tr])))
  | bs_nil p :
      proc s = Some p -> p_pump p = Fetching ->
      broker_step s (set_proc s
        (if (fetchIteration p =? 0) && (fetchedRequests p =? 0)
         then noMoreRequestsOnLedgerInitial (broker s) else noMoreRequestsOnLedger (broker s))
        (mkProcessor Fetching (fetchedRequests p) (fetchIteration p + 1) (feedMutable p) (feedImmutable p)))
  | bs_drained p :
      proc s = Some p -> p_pump p = Fetching -> broker_step s (set_proc s (broker s) (set_pump p Drained))
  | bs_restart p :
      proc s = Some p -> p_pump p = Drained -> probablyMoreSinceLastFetch (broker s) = true ->
      broker_step s (set_proc s (set_hasMore (broker s) (ledgerHasMoreRequests (broker s)) false)
                       (set_pump p Fetching))
  | bs_stop p :
      proc s = Some p -> p_pump p = Fetching \/ p_pump p = Drained -> b_closed (broker s) = true ->
      broker_step s (set_proc s (broker s) (set_pump p Stopped))
  (** The readers. *)
  | bs_pick p i immutable tr rest :
      proc s = Some p -> readers s !! i = Some (mkReader immutable Idle) -> feed p immutable = tr :: rest ->
      broker_step s (set_reader s i (Picked tr) immutable (broker s) (registry s)
                       (set_feed p immutable rest) (begun s) [])
  | bs_begin p i immutable tr r :
      proc s = Some p -> readers s !! i = Some (mkReader immutable (Picked tr)) ->
      canProcessTranscript (broker s) (registry s) tr = (r, true) ->
      broker_step s (set_reader s i (Executing tr) immutable (broker s) r p (RequestRef tr :: begun s) [])
  | bs_skip p i immutable tr r :
      proc s = Some p -> readers s !! i = Some (mkReader immutable (Picked tr)) ->
      canProcessTranscript (broker s) (registry s) tr = (r, false) ->
      broker_step s (set_reader s i Idle immutable (broker s) r p (begun s) [])
  | bs_finish p i immutable tr q r :
      proc s = Some p -> readers s !! i = Some (mkReader immutable (Executing tr)) ->
      finishTranscript (broker s) (registry s) tr = (q, r) ->
      broker_step s (set_reader s i Finishing immutable q r p (begun s) [])
  | bs_pending p i immutable :
      proc s = Some p -> readers s !! i = Some (mkReader immutable Finishing) ->
      broker_step s (set_reader s i Idle immutable (broker s) (registry s) p (begun s)
                       (finishPendingIfNeeded ref (broker s) (registry s)))
  (** A broker of an earlier pulse is done with a request. *)
  | bs_other o :
      o ∈ others s ->
      broker_step s (mkMachine (broker s) (delete o (registry s)) (clarifying s) (starting s) (proc s)
                       (readers s) (sent s) (others s ∖ {[o]}) (begun s)).

(** A new broker; the registry holds what earlier ones execute. *)
Definition fresh (r : executionRegistry) : machine :=
  mkMachine NewExecutionBroker r 0 0 None [] [] (dom r) [].

(** ** The invariant *)
Definition executing_of (x : reader) : option Global :=
  match rd_stage x with Executing tr => Some (RequestRef tr) | _ => None end.
Definition picked_of (x : reader) : option Global :=
  match rd_stage x with Picked tr => Some (RequestRef tr) | _ => None end.
Definition executing (s : machine) : list Global := omap executing_of (readers s).
Definition held_by (p : pump) : list Global :=
  match p with Holding tr => [RequestRef tr] | _ => [] end.
Definition waiting_in (p : processor) : list Global :=
  held_by (p_pump p) ++ (RequestRef <$> feedMutable p) ++ (RequestRef <$> feedImmutable p).
(** Requests accepted and not begun. *)
Definition underway (s : machine) : list Global :=
  from_option waiting_in [] (proc s) ++ omap picked_of (readers s).

Record broker_ok (s : machine) : Prop := {
  bo_readers : if processorActive (broker s) then rd_immutable <$> readers s = rd_immutable <$> readers0
               else proc s = None /\ readers s = [];
  bo_registry : forall x, is_Some (registry s !! x) <-> x ∈ others s \/ x ∈ executing s;
  bo_once : NoDup (executing s) /\ (forall x, x ∈ executing s -> x ∉ others s);
  bo_begun : NoDup (begun s) /\ (forall x, x ∈ executing s -> x ∈ begun s);
  bo_underway : b_closed (broker s) = false -> NoDup (underway s ++ begun s) /\
    (forall x, x ∈ underway s ++ begun s -> x ∈ deduplicationTable (broker s));
  bo_flag : probablyMoreSinceLastFetch (broker s) = true -> has_more (ledgerHasMoreRequests (broker s)) = true;
  bo_pending : processorActive (broker s) = true -> b_closed (broker s) = false ->
    pending (broker s) = NotPending;
  bo_done : b_closed (broker s) = false ->
    begun s ≡ₚ executing s ++ (RequestRef <$> finished (broker s));
}.
End Machine.

(** ** What a reader does to the lists *)
Lemma omap_at {A B} (f : A -> option B) (l : list A) i x :
  l !! i = Some x -> exists rest, omap f l ≡ₚ option_list (f x) ++ rest /\
    forall y, omap f (<[i := y]> l) ≡ₚ option_list (f y) ++ rest.
Proof.
  intros (l1 & l2 & -> & ->)%list_elem_of_split_length. exists (omap f (l1 ++ l2)).
  assert (forall y, omap f (l1 ++ y :: l2) ≡ₚ option_list (f y) ++ omap f (l1 ++ l2)) as H.
  { intros y. rewrite !omap_app. cbn. destruct (f y); cbn; [|done]. by rewrite Permutation_middle. }
  split; [apply H|]. intros y. rewrite insert_app_r_alt, Nat.sub_diag by done. apply H.
Qed.

Lemma omap_le {A B} (f : A -> option B) (l : list A) : (length (omap f l) <= length l)%nat.
Proof. induction l as [|x l IH]; cbn; [lia|]. destruct (f x); cbn; lia. Qed.

Lemma readers_immutable (l : list reader) i x st :
  l !! i = Some x -> rd_immutable <$> <[i := mkReader (rd_immutable x) st]> l = rd_immutable <$> l.
Proof.
  intros Hi. rewrite list_fmap_insert. cbn. apply list_insert_id. rewrite list_lookup_fmap, Hi. done.
Qed.

Section Steps.
Context (ref : Global).

(** A step of a reader from [x] to [st], the rest of the machine changing as
    the step says. *)
Lemma reader_ok s i immutable st st' q r p begun' more :
  broker_ok s -> proc s = Some p -> readers s !! i = Some (mkReader immutable st) ->
  processorActive q = processorActive (broker s) ->
  forall p', let s' := set_reader s i st' immutable q r p' begun' more in
  exists ex pk,
    executing s ≡ₚ option_list (executing_of (mkReader immutable st)) ++ ex /\
    executing s' ≡ₚ option_list (executing_of (mkReader immutable st')) ++ ex /\
    underway s ≡ₚ option_list (picked_of (mkReader immutable st)) ++ waiting_in p ++ pk /\
    underway s' ≡ₚ option_list (picked_of (mkReader immutable st')) ++ waiting_in p' ++ pk /\
    if processorActive q then rd_immutable <$> readers s' = rd_immutable <$> readers0
    else False.
Proof.
  intros Hs Hp Hi Ha p' s'. destruct (omap_at executing_of _ _ _ Hi) as (ex & E1 & E2).
  destruct (omap_at picked_of _ _ _ Hi) as (pk & K1 & K2). exists ex, pk.
  split_and!; [exact E1|apply E2| | |].
  - unfold underway. rewrite Hp. cbn [from_option]. rewrite K1. solve_Permutation.
  - unfold underway, s', set_reader. cbn [proc readers from_option]. rewrite K2. solve_Permutation.
  - rewrite Ha. pose proof (bo_readers _ Hs) as Hr. destruct (processorActive (broker s)).
    + rewrite <- Hr. by apply (readers_immutable _ _ (mkReader immutable st)).
    + destruct Hr as [Hr _]. congruence.
Qed.

Lemma waiting_feed p immutable tr rest :
  feed p immutable = tr :: rest -> waiting_in p ≡ₚ RequestRef tr :: waiting_in (set_feed p immutable rest).
Proof.
  unfold feed, waiting_in, set_feed. destruct immutable; intros ->; cbn; solve_Permutation.
Qed.

Lemma waiting_push p tr :
  p_pump p = Holding tr ->
  waiting_in (set_feed (set_pump p Fetching) (Immutable (tr_Request tr)) (feed p (Immutable (tr_Request tr)) ++ [tr]))
  ≡ₚ waiting_in p.
Proof.
  unfold feed, waiting_in, set_feed, set_pump. intros ->. destruct (Immutable _); cbn; rewrite fmap_app; cbn; solve_Permutation.
Qed.

(** A reader that begins and ends no execution; requests may be dropped. *)
Lemma keep_ok s s' dropped :
  broker_ok s -> broker s' = broker s -> registry s' = registry s -> others s' = others s -> begun s' = begun s ->
  executing s' ≡ₚ executing s -> underway s ≡ₚ dropped ++ underway s' ->
  (if processorActive (broker s) then rd_immutable <$> readers s' = rd_immutable <$> readers0 else False) ->
  broker_ok s'.
Proof.
  intros [H1 H2 [H3 H3'] [H4 H4'] H5 H6 H7 H8] Eb Er Eo Eg He Hu Hr. split; rewrite ?Eb, ?Er, ?Eo, ?Eg; try done.
  - destruct (processorActive (broker s)); done.
  - intros x. rewrite He. apply H2.
  - rewrite He. split; [done|]. intros x. rewrite He. apply H3'.
  - split; [done|]. intros x. rewrite He. apply H4'.
  - intros Hc. destruct (H5 Hc) as [H5a H5b]. rewrite Hu, <- (assoc_L (++)) in H5a. split.
    + by apply list.NoDup_app in H5a as (_ & _ & ?).
    + intros x Hx. apply H5b. rewrite Hu, <- (assoc_L (++)). apply elem_of_app. by right.
  - by rewrite He.
Qed.

Lemma pick_ok s p i immutable tr rest :
  broker_ok s -> proc s = Some p -> readers s !! i = Some (mkReader immutable Idle) ->
  feed p immutable = tr :: rest ->
  broker_ok (set_reader s i (Picked tr) immutable (broker s) (registry s) (set_feed p immutable rest) (begun s) []).
Proof.
  intros Hs Hp Hi Hf.
  destruct (reader_ok s i immutable Idle (Picked tr) (broker s) (registry s) p (begun s) [] Hs Hp Hi eq_refl
    (set_feed p immutable rest)) as (ex & pk & E1 & E2 & U1 & U2 & Hr).
  set (s' := set_reader _ _ _ _ _ _ _ _ _) in *. cbn [executing_of picked_of rd_stage option_list app] in E1, E2, U1, U2.
  assert (executing s' ≡ₚ executing s) as He by (by rewrite E1, E2).
  apply (keep_ok s s' []); try done. by rewrite U1, U2, (waiting_feed _ _ _ _ Hf).
Qed.

Lemma begin_ok s p i immutable tr r :
  broker_ok s -> proc s = Some p -> readers s !! i = Some (mkReader immutable (Picked tr)) ->
  canProcessTranscript (broker s) (registry s) tr = (r, true) ->
  broker_ok (set_reader s i (Executing tr) immutable (broker s) r p (RequestRef tr :: begun s) []).
Proof.
  intros Hs Hp Hi Hc. unfold canProcessTranscript, Register in Hc.
  destruct (b_closed (broker s)) eqn:Ecl; [done|]. destruct (registry s !! RequestRef tr) eqn:Er; [done|].
  injection Hc as <-.
  destruct (reader_ok s i immutable (Picked tr) (Executing tr) (broker s) (<[RequestRef tr := tr]> (registry s)) p
    (RequestRef tr :: begun s) [] Hs Hp Hi eq_refl p) as (ex & pk & E1 & E2 & U1 & U2 & Hr).
  set (s' := set_reader _ _ _ _ _ _ _ _ _) in *. cbn [executing_of picked_of rd_stage option_list app] in E1, E2, U1, U2.
  assert (executing s' ≡ₚ RequestRef tr :: executing s) as He by (by rewrite E1, E2).
  assert (underway s ≡ₚ RequestRef tr :: underway s') as Hu by (by rewrite U1, U2).
  destruct Hs as [H1 H2 [H3 H3'] [H4 H4'] H5 H6 H7 H8].
  assert (~ (RequestRef tr ∈ others s \/ RequestRef tr ∈ executing s)) as Hn
    by (rewrite <- H2, Er; by intros [? ?]).
  destruct (H5 Ecl) as [H5a H5b].
  assert (underway s' ++ RequestRef tr :: begun s ≡ₚ underway s ++ begun s) as Hub by (rewrite Hu; solve_Permutation).
  split; try done.
  - cbn [s' set_reader broker] in *. destruct (processorActive (broker s)); done.
  - intros x. rewrite He, elem_of_cons. cbn [registry s' set_reader others]. destruct (decide (x = RequestRef tr)) as [->|Hne].
    + rewrite lookup_insert_eq. split; [tauto|by eexists].
    + rewrite lookup_insert_ne, H2 by done. tauto.
  - rewrite He. split; [apply list.NoDup_cons; split; [tauto|done]|]. intros x. rewrite He, elem_of_cons.
    intros [->|Hx]; [tauto|by apply H3'].
  - cbn [begun s' set_reader]. split.
    + rewrite <- Hub in H5a. apply list.NoDup_app in H5a as (_ & _ & ?). done.
    + intros x. rewrite He, !elem_of_cons. intros [->|Hx]; [by left|right; by apply H4'].
  - intros _. cbn [begun s' set_reader broker]. fold s'. rewrite Hub. split; [done|].
    intros x. rewrite Hub. apply H5b.
  - intros _. fold s'. rewrite He. cbn [begun s' set_reader broker]. by rewrite (H8 Ecl).
Qed.

Lemma skip_ok s p i immutable tr r :
  broker_ok s -> proc s = Some p -> readers s !! i = Some (mkReader immutable (Picked tr)) ->
  canProcessTranscript (broker s) (registry s) tr = (r, false) ->
  broker_ok (set_reader s i Idle immutable (broker s) r p (begun s) []).
Proof.
  intros Hs Hp Hi Hc.
  assert (r = registry s) as ->.
  { unfold canProcessTranscript, Register in Hc. destruct (b_closed _); [by injection Hc|].
    destruct (registry s !! _); [by injection Hc|done]. }
  destruct (reader_ok s i immutable (Picked tr) Idle (broker s) (registry s) p (begun s) [] Hs Hp Hi eq_refl p)
    as (ex & pk & E1 & E2 & U1 & U2 & Hr).
  set (s' := set_reader _ _ _ _ _ _ _ _ _) in *. cbn [executing_of picked_of rd_stage option_list app] in E1, E2, U1, U2.
  assert (executing s' ≡ₚ executing s) as He by (by rewrite E1, E2).
  apply (keep_ok s s' [RequestRef tr]); try done. by rewrite U1, U2.
Qed.

Lemma finish_ok s p i immutable tr q r :
  broker_ok s -> proc s = Some p -> readers s !! i = Some (mkReader immutable (Executing tr)) ->
  finishTranscript (broker s) (registry s) tr = (q, r) ->
  broker_ok (set_reader s i Finishing immutable q r p (begun s) []).
Proof.
  intros Hs Hp Hi Hc. unfold finishTranscript in Hc. injection Hc as <- <-.
  set (q := mkBroker _ _ _ _ _ _ _ _).
  destruct (reader_ok s i immutable (Executing tr) Finishing q (Done (registry s) tr).1 p (begun s) [] Hs Hp Hi eq_refl p)
    as (ex & pk & E1 & E2 & U1 & U2 & Hr).
  set (s' := set_reader _ _ _ _ _ _ _ _ _) in *. cbn [executing_of picked_of rd_stage option_list app] in E1, E2, U1, U2.
  assert (executing s ≡ₚ RequestRef tr :: executing s') as He by (by rewrite E1, E2).
  assert (underway s' ≡ₚ underway s) as Hu by (by rewrite U1, U2).
  destruct Hs as [H1 H2 [H3 H3'] [H4 H4'] H5 H6 H7 H8].
  assert (is_Some (registry s !! RequestRef tr)) as [x0 Er] by (apply H2; right; rewrite He; by left).
  pose proof H3 as Hnd. rewrite He in Hnd. apply list.NoDup_cons in Hnd as [Hnin Hnd].
  assert (RequestRef tr ∉ others s) as Ho by (apply H3'; rewrite He; by left).
  split; try done.
  - cbn [s' set_reader broker] in *. destruct (processorActive q); done.
  - intros x. cbn [registry s' set_reader others]. unfold Done. rewrite Er. cbn [fst].
    fold s'. destruct (decide (x = RequestRef tr)) as [->|Hne].
    + rewrite lookup_delete_eq. split; [by intros [? ?]|tauto].
    + rewrite lookup_delete_ne, H2, He, elem_of_cons by done. tauto.
  - split; [done|]. intros x Hx. apply H3'. rewrite He. by right.
  - split; [done|]. intros x Hx. apply H4'. rewrite He. by right.
  - intros Hcl. destruct (H5 Hcl) as [H5a H5b]. change (begun s') with (begun s). rewrite Hu. split; [done|].
    intros x. rewrite Hu. apply H5b.
  - intros Hcl. fold s'. change (begun s') with (begun s). rewrite (H8 Hcl), He. cbn [broker s' set_reader finished q].
    rewrite fmap_app. cbn. solve_Permutation.
Qed.

Lemma pending_ok s p i immutable more :
  broker_ok s -> proc s = Some p -> readers s !! i = Some (mkReader immutable Finishing) ->
  broker_ok (set_reader s i Idle immutable (broker s) (registry s) p (begun s) more).
Proof.
  intros Hs Hp Hi.
  destruct (reader_ok s i immutable Finishing Idle (broker s) (registry s) p (begun s) more Hs Hp Hi eq_refl p)
    as (ex & pk & E1 & E2 & U1 & U2 & Hr).
  set (s' := set_reader _ _ _ _ _ _ _ _ _) in *. cbn [executing_of picked_of rd_stage option_list app] in E1, E2, U1, U2.
  assert (executing s' ≡ₚ executing s) as He by (by rewrite E1, E2).
  apply (keep_ok s s' []); try done. by rewrite U1, U2.
Qed.

(** The processing goroutine does not touch readers and registry. *)
Lemma pump_ok s p q p' :
  broker_ok s -> proc s = Some p -> processorActive q = processorActive (broker s) ->
  b_closed q = b_closed (broker s) -> pending q = pending (broker s) -> finished q = finished (broker s) ->
  (probablyMoreSinceLastFetch q = true -> has_more (ledgerHasMoreRequests q) = true) ->
  (b_closed (broker s) = false ->
     (forall x, x ∈ deduplicationTable (broker s) -> x ∈ deduplicationTable q) /\
     (waiting_in p' ≡ₚ waiting_in p \/
      exists x, waiting_in p' ≡ₚ x :: waiting_in p /\ (x ∉ deduplicationTable (broker s)) /\
                x ∈ deduplicationTable q)) ->
  broker_ok (set_proc s q p').
Proof.
  intros [H1 H2 H3 H4 H5 H6 H7 H8] Hp Ea Ec Ep Ef Hf Hw. split; cbn; try done.
  - rewrite Ea. destruct (processorActive (broker s)); [done|]. destruct H1; congruence.
  - rewrite Ec. intros Hcl. destruct (H5 Hcl) as [H5a H5b]. destruct (Hw Hcl) as [Hd Hwait].
    unfold underway in *. cbn [proc set_proc readers from_option] in *. rewrite Hp in H5a, H5b. cbn [from_option] in H5a, H5b.
    split.
    + destruct Hwait as [->|(x & -> & Hx & Hxq)]; [done|]. cbn. apply list.NoDup_cons. split; [|done].
      intros Hy. by apply Hx, H5b.
    + intros y. destruct Hwait as [->|(x & -> & Hx & Hxq)]; [intros Hy; by apply Hd, H5b|].
      cbn. intros [->|Hy]%elem_of_cons; [done|]. by apply Hd, H5b.
  - rewrite Ea, Ec, Ep. done.
  - by rewrite Ec, Ef.
Qed.

(** The state of the broker changes, the goroutines stay. *)
Lemma broker_change_ok s q a b more :
  broker_ok s -> processorActive q = processorActive (broker s) ->
  (b_closed q = false -> b_closed (broker s) = false /\ deduplicationTable q = deduplicationTable (broker s) /\
     finished q = finished (broker s) /\ (pending (broker s) = NotPending -> pending q = NotPending)) ->
  (probablyMoreSinceLastFetch q = true -> has_more (ledgerHasMoreRequests q) = true) ->
  broker_ok (mkMachine q (registry s) a b (proc s) (readers s) (sent s ++ more) (others s) (begun s)).
Proof.
  intros [H1 H2 H3 H4 H5 H6 H7 H8] Ea Ec Hf. split; cbn; try done.
  - by rewrite Ea.
  - intros Hcl. destruct (Ec Hcl) as (Hc & -> & _). apply (H5 Hc).
  - rewrite Ea. intros Ha Hcl. destruct (Ec Hcl) as (Hc & _ & _ & Hp). apply Hp, (H7 Ha Hc).
  - intros Hcl. destruct (Ec Hcl) as (Hc & _ & -> & _). apply (H8 Hc).
Qed.

Lemma handle_ok s c q n :
  broker_ok s -> handle c (broker s) (registry s) = (q, n) ->
  processorActive q = processorActive (broker s) /\ b_closed q = b_closed (broker s) /\
  deduplicationTable q = deduplicationTable (broker s) /\ finished q = finished (broker s) /\
  (pending (broker s) = NotPending -> pending q = NotPending) /\
  (probablyMoreSinceLastFetch q = true -> has_more (ledgerHasMoreRequests q) = true).
Proof.
  intros Hs. pose proof (bo_flag _ Hs) as Hf. destruct c; cbn [handle].
  - intros [= <- <-]. by cbn.
  - intros [= <- <-]. unfold AbandonedRequestsOnLedger, setHasMoreRequests.
    case_bool_decide; cbn; split_and!; try done. congruence.
  - intros [= <- <-]. unfold PrevExecutorPendingResult. destruct (pending (broker s)) eqn:E.
    + cbn. by split_and!.
    + by split_and!.
    + destruct (isActive _); [by split_and!|]. case_bool_decide; by split_and!.
  - intros [= <- <-]. unfold PrevExecutorStillExecuting. destruct (pending (broker s)) eqn:E; by split_and!.
  - unfold PrevExecutorSentPendingFinished. destruct (isActive _); intros [= <- <-]; by split_and!.
  - intros [= <- <-]. by split_and!.
Qed.

Lemma start_ok s q n :
  broker_ok s -> startProcessor (broker s) = (q, true) ->
  broker_ok (mkMachine q (registry s) (clarifying s) n (Some processor0) readers0 (sent s) (others s) (begun s)).
Proof.
  intros [H1 H2 H3 H4 H5 H6 H7 H8]. unfold startProcessor. case_bool_decide as Hp; [|done]. cbn.
  destruct (processorActive (broker s)) eqn:Ea; [done|]. destruct (b_closed (broker s)) eqn:Ec; [done|].
  intros [= <-]. destruct H1 as [Hpr Hrd].
  assert (executing s = []) as He by (unfold executing; by rewrite Hrd).
  assert (underway s = []) as Hu by (unfold underway; by rewrite Hpr, Hrd).
  rewrite He in *. rewrite Hu in *. destruct H5 as [H5 H5']; [done|]. by split.
Qed.

Lemma other_ok s o :
  broker_ok s -> o ∈ others s ->
  broker_ok (mkMachine (broker s) (delete o (registry s)) (clarifying s) (starting s) (proc s)
                       (readers s) (sent s) (others s ∖ {[o]}) (begun s)).
Proof.
  intros [H1 H2 [H3 H3'] H4 H5 H6 H7 H8] Ho. split; cbn; try done.
  - intros x. change (executing _) with (executing s). destruct (decide (x = o)) as [->|Hne].
    + rewrite lookup_delete_eq. split; [by intros [? ?]|]. intros [Hx|Hx]; [|by destruct (H3' o Hx)].
      apply elem_of_difference in Hx as [_ Hx]. by destruct Hx; apply elem_of_singleton.
    + rewrite lookup_delete_ne, H2, elem_of_difference, elem_of_singleton by done. tauto.
  - split; [done|]. intros x Hx [Hy _]%elem_of_difference. by apply (H3' x).
Qed.

Lemma noMore_keeps q (initial : bool) :
  (probablyMoreSinceLastFetch q = true -> has_more (ledgerHasMoreRequests q) = true) ->
  let q' := if initial then noMoreRequestsOnLedgerInitial q else noMoreRequestsOnLedger q in
  processorActive q' = processorActive q /\ b_closed q' = b_closed q /\ pending q' = pending q /\
  finished q' = finished q /\ deduplicationTable q' = deduplicationTable q /\
  (probablyMoreSinceLastFetch q' = true -> has_more (ledgerHasMoreRequests q') = true).
Proof.
  intros Hf. unfold noMoreRequestsOnLedgerInitial, noMoreRequestsOnLedger.
  destruct initial, (probablyMoreSinceLastFetch q) eqn:E; cbn; split_and!; try done; intros _; by apply Hf.
Qed.

Lemma broker_step_ok s s' : broker_ok s -> broker_step ref s s' -> broker_ok s'.
Proof.
  intros Hs Hst. pose proof (bo_flag _ Hs) as Hf. destruct Hst.
  - destruct (handle_ok s c q n Hs H) as (? & ? & ? & ? & ? & ?). rewrite <- (app_nil_r (sent s)).
    apply broker_change_ok; try done. intros Hc. split; [congruence|by split].
  - rewrite <- (app_nil_r (sent s)). destruct H0 as [->|[has ->]]; [by apply broker_change_ok|].
    unfold clarify. case_bool_decide as Hp; [|by apply broker_change_ok].
    destruct has; apply broker_change_ok; try done; cbn; intros Hc; split_and!; try done; congruence.
  - by apply (start_ok s q n).
  - rewrite <- (app_nil_r (sent s)).
    assert (q = broker s) as ->; [|by apply broker_change_ok].
    revert H0. unfold startProcessor. case_bool_decide; cbn; [|congruence].
    destruct (processorActive _); [congruence|]. destruct (b_closed _); congruence.
  - unfold OnPulse in H. destruct (if isActive _ then _ else _) as [[pp more] sd] eqn:E. injection H as <- <-.
    apply broker_change_ok; try done. cbn. intros Hm. specialize (Hf Hm).
    destruct (isActive _); [injection E as _ <- _; done|].
    destruct (_ && _); injection E as _ <- _; done.
  - assert (q = broker s) as -> by (unfold upsertToDuplicationTable in H1; case_bool_decide; congruence).
    apply (pump_ok s p); try done. intros _. split; [done|by left].
  - unfold upsertToDuplicationTable in H1. case_bool_decide as Hd; [congruence|]. injection H1 as <-.
    apply (pump_ok s p); try done. intros _. cbn [deduplicationTable]. split; [intros x; apply elem_of_union_r|].
    right. exists (RequestRef tr). split; [unfold waiting_in; cbn; by rewrite H0|].
    split; [done|]. by apply elem_of_union_l, elem_of_singleton.
  - apply (pump_ok s p); try done. intros _. split; [done|left]. by apply waiting_push.
  - destruct (noMore_keeps (broker s) ((fetchIteration p =? 0) && (fetchedRequests p =? 0)) Hf)
      as (? & ? & ? & ? & Ed & ?). apply (pump_ok s p); try done.
    intros _. split; [by rewrite Ed|left]. unfold waiting_in. cbn. by rewrite H0.
  - apply (pump_ok s p); try done. intros _. split; [done|left]. unfold waiting_in. cbn. by rewrite H0.
  - apply (pump_ok s p); try done. intros _. split; [done|left]. unfold waiting_in. cbn. by rewrite H0.
  - apply (pump_ok s p); try done. intros _. split; [done|left]. unfold waiting_in. cbn. by destruct H0 as [-> | ->].
  - by apply pick_ok with (tr := tr).
  - by apply begin_ok.
  - by apply (skip_ok s p i immutable tr).
  - by apply (finish_ok s p i immutable tr).
  - by apply pending_ok.
  - by apply other_ok.
Qed.
End Steps.

Lemma fresh_ok r : broker_ok (fresh r).
Proof.
  split; cbn; try done.
  - intros x. rewrite elem_of_dom. split; [by left|]. by intros [?|?%not_elem_of_nil].
  - split; [constructor|]. by intros x ?%not_elem_of_nil.
  - split; [constructor|]. by intros x ?%not_elem_of_nil.
  - intros _. split; [constructor|]. by intros x ?%not_elem_of_nil.
Qed.

Lemma broker_reach_ok ref r s : reach (broker_step ref) (fresh r) s -> broker_ok s.
Proof.
  intros Hr. apply (reach_invariant (broker_step ref) broker_ok (fresh r) s (fresh_ok r)); [|done].
  intros a b. apply broker_step_ok.
Qed.

Lemma mutable_reader s i st :
  broker_ok s -> readers s !! i = Some (mkReader false st) -> i = 0%nat.
Proof.
  intros Hs Hi. pose proof (bo_readers _ Hs) as Hr. destruct (processorActive (broker s)); [|destruct Hr as [_ E]; by rewrite E in Hi].
  assert ((rd_immutable <$> readers s) !! i = Some false) as E by (by rewrite list_lookup_fmap, Hi).
  rewrite Hr in E. destruct i as [|i]; [done|]. unfold readers0 in E. rewrite fmap_cons, fmap_replicate in E.
  change ((replicate immutableExecutionLimit true) !! i = Some false) in E.
  by apply lookup_replicate in E as [? _].
Qed.

Lemma readers_length s : broker_ok s -> (length (executing s) <= S immutableExecutionLimit)%nat.
Proof.
  intros Hs. unfold executing. etrans; [apply omap_le|]. rewrite <- (length_fmap rd_immutable).
  pose proof (bo_readers _ Hs) as Hr. destruct (processorActive (broker s)).
  - rewrite Hr. unfold readers0. rewrite fmap_cons, fmap_replicate. cbn [length]. by rewrite length_replicate.
  - destruct Hr as [_ ->]. cbn. lia.
Qed.

(** C8: however the calls, the ledger and the goroutines interleave: no two
    mutable requests of the object execute at the same time in the broker and
    no more than thirty immutable ones beside; a request is never executed
    twice at a time, here or with the brokers of earlier pulses; it is begun
    by the broker at most once; and the registry holds exactly what is
    executing. *)
Theorem broker_exclusion ref r s :
  reach (broker_step ref) (fresh r) s ->
  (forall i j tr tr', readers s !! i = Some (mkReader false (Executing tr)) ->
     readers s !! j = Some (mkReader false (Executing tr')) -> i = j) /\
  (length (executing s) <= S immutableExecutionLimit)%nat /\
  NoDup (executing s) /\ (forall x, x ∈ executing s -> x ∉ others s) /\ NoDup (begun s) /\
  (forall x, is_Some (GetActiveTranscript (registry s) x) <-> x ∈ others s \/ x ∈ executing s).
Proof.
  intros Hs%broker_reach_ok. split_and!.
  - intros i j tr tr' Hi Hj. by rewrite (mutable_reader s i _ Hs Hi), (mutable_reader s j _ Hs Hj).
  - by apply readers_length.
  - apply Hs.
  - apply Hs.
  - apply Hs.
  - apply Hs.
Qed.

Lemma IsEmpty_false r x : is_Some (r !! x) -> IsEmpty r = false.
Proof.
  intros [tr E]. unfold IsEmpty, Length. apply Nat.eqb_neq. intros E0%map_size_empty_iff.
  by rewrite E0, lookup_empty in E.
Qed.

Lemma handle_closed c q r : b_closed (handle c q r).1 = b_closed q.
Proof.
  destruct c; cbn; try done.
  - unfold AbandonedRequestsOnLedger. case_bool_decide; done.
  - unfold PrevExecutorPendingResult. destruct (pending q); [done..|]. destruct (isActive r); [done|].
    by case_bool_decide.
  - unfold PrevExecutorStillExecuting. by destruct (pending q).
  - unfold PrevExecutorSentPendingFinished. by destruct (isActive r).
Qed.

Lemma closed_begun ref s s' :
  b_closed (broker s) = true -> broker_step ref s s' -> begun s' = begun s /\ b_closed (broker s') = true.
Proof.
  intros Hc Hst. destruct Hst; cbn; try (split; done).
  - split; [done|]. pose proof (handle_closed c (broker s) (registry s)) as E. rewrite H in E. by rewrite <- Hc.
  - split; [done|]. destruct H0 as [->|[has ->]]; [done|]. unfold clarify. case_bool_decide; [|done]. by destruct has.
  - unfold startProcessor in H0. rewrite Hc in H0. destruct (negb _); [done|]. by destruct (processorActive (broker s)).
  - split; [done|]. unfold startProcessor in H0. rewrite Hc in H0.
    destruct (negb _); [by injection H0 as <-|]. destruct (processorActive (broker s)); by injection H0 as <-.
  - split; [done|]. unfold OnPulse in H. destruct (if isActive _ then _ else _) as [[? ?] ?]. by injection H as <- _.
  - split; [done|]. unfold upsertToDuplicationTable in H1. case_bool_decide; injection H1 as <-; done.
  - split; [done|]. unfold upsertToDuplicationTable in H1. case_bool_decide; injection H1 as <-; done.
  - split; [done|]. unfold noMoreRequestsOnLedgerInitial, noMoreRequestsOnLedger.
    destruct (_ && _), (probablyMoreSinceLastFetch _); done.
  - unfold canProcessTranscript in H1. by rewrite Hc in H1.
  - split; [done|]. unfold finishTranscript in H1. by injection H1 as <- _.
Qed.

(** Nothing is told exactly when nothing executes anywhere, no pending state
    of the earlier executor is open, nothing was finished in the pulse and the
    ledger is not known to have more. *)
Definition quiet (q : ExecutionBroker) (r : executionRegistry) : bool :=
  IsEmpty r && negb (bool_decide (pending q = InPending) && negb (PendingConfirmed q)) &&
  (length (finished q) =? 0)%nat && negb (has_more (ledgerHasMoreRequests q)).

Lemma OnPulse_told ref q r :
  (OnPulse ref q r).2 = [] /\ quiet q r = true \/
  quiet q r = false /\
  (OnPulse ref q r).2 =
    [ExecutorResults ref
       (if IsEmpty r then if bool_decide (pending q = InPending) && negb (PendingConfirmed q) then NotPending else pending q
        else InPending)
       (has_more (ledgerHasMoreRequests q) ||
        IsEmpty r && bool_decide (pending q = InPending) && negb (PendingConfirmed q))].
Proof.
  unfold OnPulse, quiet, isActive. destruct (IsEmpty r); cbn; [|right; by rewrite orb_false_r].
  destruct (bool_decide _ && negb _); cbn; [right; by rewrite orb_true_r|].
  destruct (length (finished q) =? 0)%nat; cbn; [|right; by rewrite orb_false_r].
  destruct (has_more _); cbn; [right|left]; done.
Qed.

(** Silent brokers execute nothing and have begun nothing. *)
Lemma quiet_begun s :
  broker_ok s -> quiet (broker s) (registry s) = true ->
  executing s = [] /\ others s = ∅ /\ (b_closed (broker s) = false -> begun s = []).
Proof.
  unfold quiet. intros Hs ([[Hr%Nat.eqb_eq _]%andb_prop Hf%Nat.eqb_eq]%andb_prop & _)%andb_prop.
  apply map_size_empty_iff in Hr. apply length_zero_iff_nil in Hf.
  assert (forall x, ~ (x ∈ others s \/ x ∈ executing s)) as Hn
    by (intros x; rewrite <- (bo_registry _ Hs), Hr, lookup_empty; by intros [? ?]).
  assert (executing s = []) as He
    by (destruct (executing s) as [|x l] eqn:E; [done|]; destruct (Hn x); right; by left).
  assert (others s = ∅) as Ho
    by (apply set_eq; intros x; split; [intros Hx; destruct (Hn x); by left|by intros ?%not_elem_of_empty]).
  split_and!; [done..|].
  intros Hc. pose proof (bo_done _ Hs Hc) as Hb. rewrite He, Hf in Hb. by apply Permutation_nil_r in Hb.
Qed.

(** Who executes is exactly who the registry tells of. *)
Lemma registry_lists ref me s :
  broker_ok s -> (exists x, x ∈ executing s \/ x ∈ others s) ->
  exists refs, registry_OnPulse ref me (registry s) = [StillExecuting ref me refs] /\
    NoDup refs /\ forall x, x ∈ refs <-> x ∈ executing s \/ x ∈ others s.
Proof.
  intros Hs [x Hx]. assert (is_Some (registry s !! x)) as Hr by (apply (bo_registry _ Hs); tauto).
  pose proof (IsEmpty_false _ _ Hr) as Hem. unfold registry_OnPulse. unfold IsEmpty in Hem. rewrite Hem.
  eexists. split; [done|]. split; [apply NoDup_fst_map_to_list|]. intros y. transitivity (is_Some (registry s !! y)).
  - rewrite list_elem_of_fmap. split; [intros ([y' tr] & -> & Hy%elem_of_map_to_list); by exists tr|].
    intros [tr Hy]. exists (y, tr). split; [done|]. by apply elem_of_map_to_list.
  - rewrite (bo_registry _ Hs). tauto.
Qed.

Lemma quiet_spec s :
  broker_ok s ->
  quiet (broker s) (registry s) = true <->
  executing s = [] /\ others s = ∅ /\ finished (broker s) = [] /\
  (pending (broker s) = InPending -> PendingConfirmed (broker s) = true) /\
  ledgerHasMoreRequests (broker s) = LedgerIsEmpty.
Proof.
  intros Hs. split.
  - intros Hq. destruct (quiet_begun s Hs Hq) as (-> & -> & _). unfold quiet in Hq.
    apply andb_prop in Hq as [Hq Hl]. apply andb_prop in Hq as [Hq Hf%Nat.eqb_eq%length_zero_iff_nil].
    apply andb_prop in Hq as [_ Hp]. split_and!; [done..| |by destruct (ledgerHasMoreRequests _)].
    intros Ei. rewrite bool_decide_true in Hp by done. by destruct (PendingConfirmed _).
  - intros (He & Ho & Hf & Hp & Hl). unfold quiet. rewrite Hf, Hl. cbn. rewrite !andb_true_r. apply andb_true_intro. split.
    + unfold IsEmpty, Length. apply Nat.eqb_eq, map_size_empty_iff, map_empty. intros x.
      apply eq_None_not_Some. rewrite (bo_registry _ Hs), He, Ho.
      by intros [?%not_elem_of_empty|?%not_elem_of_nil].
    + case_bool_decide as Ep; [|done]. by rewrite (Hp Ep).
Qed.

(** C27: when the pulse ends, what the broker tells the next executor:
    - if a request executes (here or in a broker of an earlier pulse), the
      object is told to be in pending, and the registry lists exactly the
      requests that execute;
    - unless a pulse has ended before, what the broker began is executing or
      finished, each once, and if it began any, the next executor is sent a
      message, whatever else holds;
    - a sign of more requests on the ledger that came since the last fetch is
      told as more requests;
    - it keeps silent exactly when nothing executes, no pending state of the
      earlier executor is unconfirmed, nothing was finished and the ledger is
      not known to have more: a request that was fetched and not begun does not
      make it speak (it stays open on the ledger), as [fetched_not_told] shows;
    - after it the broker begins nothing any more, in any step. *)
Theorem broker_handover ref me r s :
  reach (broker_step ref) (fresh r) s ->
  let '(q, msgs) := OnPulse ref (broker s) (registry s) in
  ((exists x, x ∈ executing s \/ x ∈ others s) ->
     (exists more, msgs = [ExecutorResults ref InPending more]) /\
     exists refs, registry_OnPulse ref me (registry s) = [StillExecuting ref me refs] /\
       NoDup refs /\ forall x, x ∈ refs <-> x ∈ executing s \/ x ∈ others s) /\
  (b_closed (broker s) = false ->
     begun s ≡ₚ executing s ++ (RequestRef <$> finished (broker s)) /\
     (begun s <> [] -> exists p more, msgs = [ExecutorResults ref p more])) /\
  (probablyMoreSinceLastFetch (broker s) = true -> exists p, msgs = [ExecutorResults ref p true]) /\
  (msgs = [] <->
     executing s = [] /\ others s = ∅ /\ finished (broker s) = [] /\
     (pending (broker s) = InPending -> PendingConfirmed (broker s) = true) /\
     ledgerHasMoreRequests (broker s) = LedgerIsEmpty) /\
  (forall s1, s1 = mkMachine q (registry s) (clarifying s) (starting s) (proc s) (readers s) (sent s ++ msgs)
                     (others s) (begun s) ->
     forall s2, reach (broker_step ref) s1 s2 -> begun s2 = begun s).
Proof.
  intros Hs%broker_reach_ok. pose proof (OnPulse_told ref (broker s) (registry s)) as Hm.
  pose proof (quiet_begun s Hs) as Hq.
  destruct (OnPulse ref (broker s) (registry s)) as [q msgs] eqn:E. cbn in Hm. split_and!.
  - intros [x Hx]. split; [|by apply registry_lists; [|by exists x]].
    destruct Hm as [[_ (He & Ho & _)%Hq]|[_ ->]].
    { rewrite He, Ho in Hx. by destruct Hx as [?%not_elem_of_nil|?%not_elem_of_empty]. }
    rewrite (IsEmpty_false (registry s) x) by (apply (bo_registry _ Hs); tauto). by eexists.
  - intros Hc. split; [by apply (bo_done _ Hs)|]. intros Hb.
    destruct Hm as [[_ (_ & _ & Hn)%Hq]|[_ ->]]; [by rewrite Hn in Hb|by do 2 eexists].
  - intros Hf%(bo_flag _ Hs). destruct Hm as [[_ Hn]|[_ ->]]; [|rewrite Hf; by eexists].
    unfold quiet in Hn. by rewrite Hf, andb_false_r in Hn.
  - rewrite <- (quiet_spec s Hs). destruct Hm as [[-> Hn]|[Hn ->]]; rewrite Hn; done.
  - intros s1 -> s2 Hr. assert (begun s2 = begun s /\ b_closed (broker s2) = true) as [? _]; [|done].
    eapply (reach_invariant (broker_step ref) (fun m => begun m = begun s /\ b_closed (broker m) = true)); [| |exact Hr].
    + split; [done|]. unfold OnPulse in E. destruct (if isActive _ then _ else _) as [[? ?] ?]. by injection E as <- _.
    + intros a b [Hb Hc] Hst. destruct (closed_begun _ _ _ Hc Hst) as [-> ?]. done.
Qed.

(** ** The theorems at work: one mutable request is begun. *)
Module SampleBroker.

Definition object : Global := mkGlobal (mkLocal 65537 (replicate 28 1)) (mkLocal 65537 (replicate 28 1)).
Definition requestRef : Global := mkGlobal (mkLocal 65547 (replicate 28 2)) (mkLocal 65537 (replicate 28 1)).
Definition call : RequestBody :=
  mkRequest CTMethod object object 1 ReturnResult false None (Some object) None "Transfer" [] "api"
    emptyGlobal emptyGlobal.
Definition tr : Transcript := mkTranscript requestRef call.

(** One more step of the run [R], by a rule. *)
Ltac run R rule :=
  match type of R with
  | reach ?step ?s0 ?s =>
      let H := fresh "H" in
      eassert (step s _) as H; [rule; try reflexivity|];
      apply (reach_step step s0 s _ R) in H; clear R; rename H into R; cbn in R
  end.

Lemma sample_reach : exists s, reach (broker_step object) (fresh ∅) s /\
  readers s !! 0%nat = Some (mkReader false (Executing tr)) /\ begun s = [requestRef] /\ b_closed (broker s) = false.
Proof.
  pose proof (reach_init (broker_step object) (fresh ∅)) as R.
  run R ltac:(eapply (bs_call object _ call_SetNotPending)).
  run R ltac:(eapply (bs_call object _ call_HasMoreRequests)).
  run R ltac:(eapply (bs_clarify object _ 0); [|left]).
  run R ltac:(eapply (bs_start object _ 0)).
  run R ltac:(eapply (bs_fetch object _ _ tr)).
  run R ltac:(eapply (bs_push object _ _ tr); [reflexivity|reflexivity|cbn; unfold feedSize; lia]).
  run R ltac:(eapply (bs_pick object _ _ 0 false tr [])).
  run R ltac:(eapply (bs_begin object _ _ 0 false tr)).
  eexists. split; [exact R|]. done.
Qed.

Lemma broker_exclusion_witness : exists s, readers s !! 0%nat = Some (mkReader false (Executing tr)) /\
  forall j tr', readers s !! j = Some (mkReader false (Executing tr')) -> 0%nat = j.
Proof.
  destruct sample_reach as (s & Hr & H0 & _). exists s. split; [done|].
  destruct (broker_exclusion object ∅ s Hr) as [H _]. intros j tr'. by apply (H 0%nat j tr tr').
Defined.

(** The previous executor is done, the processor starts and fetches a request:
    the pulse ends and nothing is told. *)
Lemma fetched_not_told : exists s, reach (broker_step object) (fresh ∅) s /\ underway s = [requestRef] /\
  (OnPulse object (broker s) (registry s)).2 = [] /\ registry_OnPulse object object (registry s) = [].
Proof.
  pose proof (reach_init (broker_step object) (fresh ∅)) as R.
  run R ltac:(eapply (bs_call object _ call_PrevExecutorSentPendingFinished
    (set_pending NewExecutionBroker NotPending false) 1)).
  run R ltac:(eapply (bs_clarify object _ 0); [|left]).
  run R ltac:(eapply (bs_start object _ 0)).
  run R ltac:(eapply (bs_fetch object _ _ tr)).
  eexists. split; [exact R|]. done.
Qed.

Lemma broker_handover_witness : exists s p more,
  begun s <> [] /\ (OnPulse object (broker s) (registry s)).2 = [ExecutorResults object p more].
Proof.
  destruct sample_reach as (s & Hr & H0 & Hb & Hc). exists s. pose proof (broker_handover object object ∅ s Hr) as H.
  destruct (OnPulse object (broker s) (registry s)) as [q msgs]. destruct H as (_ & H & _).
  destruct (H Hc) as [_ (p & more & ->)]; [by rewrite Hb|]. exists p, more. by rewrite Hb.
Defined.
End SampleBroker.
