(* ===== verification/StateStorage.v ===== *)
(** * Brokers and registries of a virtual node (src/logicrunner/statestorage.go,
    shutdown/flag.go, the pulse change of logicrunner.go)

    The state storage keeps, per object, the broker of the current pulse and
    the registry of what executes, which outlives the broker while it is not
    empty.  Brokers and registries are objects on a heap: brokers of earlier
    pulses go on executing and share the registry of their object.  The two
    loops of [OnPulse] hold the lock of the storage but not those of the
    brokers, so the brokers work on between the rounds of the loops. *)
From S2P Require Import Prelude Reference Records Broker.

(** The two maps; values are places of the heap. *)
Record stateStorage : Type := mkStorage { brokers : gmap Global nat; registries : gmap Global nat }.

(** shutdown/flag.go *)
Record flag : Type := mkFlag { isStopped : bool; stopChannel_closed : bool }.
Definition NewFlag : flag := mkFlag false false.
Definition Stop (g : flag) : flag := mkFlag true (stopChannel_closed g).
Definition Flag_Done (g : flag) (isDone : bool) : flag :=
  if isStopped g && isDone then mkFlag (isStopped g) true else g.

(** Where [OnPulse] is: in no loop, over the brokers, over the registries. *)
Inductive phase : Type :=
  | NoPulse
  | OverBrokers (todo : list (Global * nat)) (onPulseMessages : gmap Global (list message))
  | OverRegistries (todo : list (Global * nat)) (onPulseMessages : gmap Global (list message)).

(** The heap: a broker has its object and registry for good ([owners]) and a
    state; [running] are the calls of [processTranscript] between the entry to
    the registry and the end, each of a broker; [ended] are the objects that
    had a broker when the last [OnPulse] began. *)
Record runner : Type := mkRunner {
  storage : stateStorage;
  owners : list (Global * nat);
  states : list ExecutionBroker;
  heap : list executionRegistry;
  running : list (nat * Transcript);
  at_ : phase;
  ended : gset Global;
  shutdownFlag : flag;
}.

Definition set_storage (s : runner) (ss : stateStorage) (p : phase) : runner :=
  mkRunner ss (owners s) (states s) (heap s) (running s) p (ended s) (shutdownFlag s).
Definition set_broker (s : runner) (b : nat) (q : ExecutionBroker) (k : nat) (r : executionRegistry)
    (run : list (nat * Transcript)) (p : phase) : runner :=
  mkRunner (storage s) (owners s) (<[b := q]> (states s)) (<[k := r]> (heap s)) run p (ended s)
    (shutdownFlag s).

Definition upsertExecutionRegistry (s : runner) (ref : Global) : runner * nat :=
  match registries (storage s) !! ref with
  | Some res => (s, res)
  | None =>
      let k := length (heap s) in
      (mkRunner (mkStorage (brokers (storage s)) (<[ref := k]> (registries (storage s)))) (owners s) (states s)
         (heap s ++ [∅]) (running s) (at_ s) (ended s) (shutdownFlag s), k)
  end.
Definition UpsertExecutionState (s : runner) (ref : Global) : runner * nat :=
  match brokers (storage s) !! ref with
  | Some res => (s, res)
  | None =>
      let '(s, registry) := upsertExecutionRegistry s ref in
      let b := length (owners s) in
      (mkRunner (mkStorage (<[ref := b]> (brokers (storage s))) (registries (storage s)))
         (owners s ++ [(ref, registry)]) (states s ++ [NewExecutionBroker])
         (heap s) (running s) (at_ s) (ended s) (shutdownFlag s), b)
  end.
Definition GetExecutionState (s : runner) (ref : Global) : option nat := brokers (storage s) !! ref.
Definition GetExecutionRegistry (s : runner) (ref : Global) : option nat := registries (storage s) !! ref.

Definition registry_at (s : runner) (k : nat) : executionRegistry := default ∅ (heap s !! k).
Definition StateStorage_IsEmpty (s : runner) : bool :=
  if (size (brokers (storage s)) =? 0)%nat && (size (registries (storage s)) =? 0)%nat then true
  else forallb (fun '(_, k) => IsEmpty (registry_at s k)) (map_to_list (registries (storage s))).

(** [if len(messages) > 0 { onPulseMessages[ref] = append(onPulseMessages[ref], messages...) }] *)
Definition add_messages (m : gmap Global (list message)) (ref : Global) (msgs : list message) :
  gmap Global (list message) :=
  match msgs with [] => m | _ => <[ref := default [] (m !! ref) ++ msgs]> m end.

(** One round of each loop of [OnPulse]. *)
Definition pulse_broker (s : runner) (ref : Global) (b : nat) (todo : list (Global * nat))
    (msgs : gmap Global (list message)) : option runner :=
  '(objectRef, k) ← owners s !! b; q ← states s !! b; r ← heap s !! k;
  let '(q, m) := OnPulse objectRef q r in
  Some (set_broker s b q k r (running s) (OverBrokers todo (add_messages msgs ref m))).
Definition pulse_registry (me : Global) (s : runner) (ref : Global) (k : nat) (todo : list (Global * nat))
    (msgs : gmap Global (list message)) : runner :=
  let m := registry_OnPulse ref me (registry_at s k) in
  let ss := if IsEmpty (registry_at s k)
            then mkStorage (brokers (storage s)) (delete ref (registries (storage s))) else storage s in
  set_storage s ss (OverRegistries todo (add_messages msgs ref m)).

(** What a broker does to itself and its registry. *)
Inductive effect : Type := Quiet | Begins (tr : Transcript) | Ends (tr : Transcript).
Inductive broker_does (q : ExecutionBroker) (r : executionRegistry) :
  effect -> ExecutionBroker -> executionRegistry -> Prop :=
  | does_quiet q' : b_closed q' = b_closed q -> broker_does q r Quiet q' r
  | does_begin tr r' : canProcessTranscript q r tr = (r', true) -> broker_does q r (Begins tr) q r'
  | does_end tr q' r' : finishTranscript q r tr = (q', r') -> broker_does q r (Ends tr) q' r'.

(** The calls of broker [b] under way after an effect. *)
Inductive run_after (b : nat) : effect -> list (nat * Transcript) -> list (nat * Transcript) -> Prop :=
  | run_quiet run : run_after b Quiet run run
  | run_begin tr run : run_after b (Begins tr) run ((b, tr) :: run)
  | run_end tr run run' : run ≡ₚ (b, tr) :: run' -> run_after b (Ends tr) run run'.

Section Machine.
Context (me : Global).

Inductive runner_step (s : runner) : runner -> Prop :=
  | rs_upsert ref : at_ s = NoPulse -> runner_step s (UpsertExecutionState s ref).1
  (** Any broker, of this pulse or an earlier one, at any time. *)
  | rs_broker b ref k q r e q' r' run :
      owners s !! b = Some (ref, k) -> states s !! b = Some q -> heap s !! k = Some r ->
      broker_does q r e q' r' -> run_after b e (running s) run ->
      runner_step s (set_broker s b q' k r' run (at_ s))
  (** [OnPulse]: the maps are ranged over in any order. *)
  | rs_pulse todo :
      at_ s = NoPulse -> todo ≡ₚ map_to_list (brokers (storage s)) ->
      runner_step s (mkRunner (mkStorage ∅ (registries (storage s))) (owners s) (states s) (heap s) (running s)
                       (OverBrokers todo ∅) (dom (brokers (storage s))) (shutdownFlag s))
  | rs_pulse_broker ref b todo msgs s' :
      at_ s = OverBrokers ((ref, b) :: todo) msgs -> pulse_broker s ref b todo msgs = Some s' ->
      runner_step s s'
  | rs_registries todo msgs :
      at_ s = OverBrokers [] msgs -> todo ≡ₚ map_to_list (registries (storage s)) ->
      runner_step s (set_storage s (storage s) (OverRegistries todo msgs))
  | rs_pulse_registry ref k todo msgs :
      at_ s = OverRegistries ((ref, k) :: todo) msgs ->
      runner_step s (pulse_registry me s ref k todo msgs)
  | rs_pulse_end msgs :
      at_ s = OverRegistries [] msgs -> runner_step s (set_storage s (storage s) NoPulse)
  (** [GracefulStop] and [stopIfNeeded]. *)
  | rs_stop :
      runner_step s (mkRunner (storage s) (owners s) (states s) (heap s) (running s) (at_ s) (ended s)
                       (Stop (shutdownFlag s)))
  | rs_stop_if_needed :
      at_ s = NoPulse ->
      runner_step s (mkRunner (storage s) (owners s) (states s) (heap s) (running s) (at_ s) (ended s)
                       (Flag_Done (shutdownFlag s) (StateStorage_IsEmpty s))).

Definition NewStateStorage : runner :=
  mkRunner (mkStorage ∅ ∅) [] [] [] [] NoPulse ∅ NewFlag.
End Machine.

(** ** The invariant *)
Definition todo_brokers (p : phase) : list (Global * nat) :=
  match p with OverBrokers todo _ => todo | _ => [] end.
Definition where_ (own : list (Global * nat)) (e : nat * Transcript) : option (nat * Global) :=
  (fun o => (o.2, RequestRef e.2)) <$> own !! e.1.

(** What the messages say of a call under way. *)
Definition told_pending (msgs : gmap Global (list message)) (ref : Global) : Prop :=
  exists more, ExecutorResults ref InPending more ∈ default [] (msgs !! ref).
Definition told_executing (me : Global) (msgs : gmap Global (list message)) (ref x : Global) : Prop :=
  exists refs, StillExecuting ref me refs ∈ default [] (msgs !! ref) /\ x ∈ refs.

Record runner_ok (me : Global) (s : runner) : Prop := {
  ro_states : length (states s) = length (owners s);
  ro_heap b ref k : owners s !! b = Some (ref, k) -> (k < length (heap s))%nat;
  ro_places ref k : registries (storage s) !! ref = Some k -> (k < length (heap s))%nat;
  ro_distinct ref ref' k :
    registries (storage s) !! ref = Some k -> registries (storage s) !! ref' = Some k -> ref = ref';
  ro_current ref b :
    brokers (storage s) !! ref = Some b \/ (ref, b) ∈ todo_brokers (at_ s) ->
    exists k, owners s !! b = Some (ref, k) /\ registries (storage s) !! ref = Some k;
  ro_open b ref k q :
    owners s !! b = Some (ref, k) -> states s !! b = Some q -> b_closed q = false ->
    brokers (storage s) !! ref = Some b \/ (ref, b) ∈ todo_brokers (at_ s);
  ro_running b tr : (b, tr) ∈ running s ->
    exists ref k, owners s !! b = Some (ref, k) /\ registries (storage s) !! ref = Some k;
  ro_registry k r x : heap s !! k = Some r ->
    (is_Some (r !! x) <-> Some (k, x) ∈ where_ (owners s) <$> running s);
  ro_once : NoDup (where_ (owners s) <$> running s);
  ro_phase : match at_ s with
    | NoPulse => True
    | OverBrokers todo msgs => brokers (storage s) = ∅ /\
        forall b tr ref k, (b, tr) ∈ running s -> owners s !! b = Some (ref, k) ->
          ref ∈ ended s -> ref ∉ todo.*1 -> told_pending msgs ref
    | OverRegistries todo msgs => brokers (storage s) = ∅ /\ NoDup (todo.*1) /\
        (forall ref k, (ref, k) ∈ todo -> registries (storage s) !! ref = Some k) /\
        forall b tr ref k, (b, tr) ∈ running s -> owners s !! b = Some (ref, k) ->
          (ref ∈ ended s -> told_pending msgs ref) /\
          (ref ∉ todo.*1 -> told_executing me msgs ref (RequestRef tr))
    end;
}.

Lemma add_messages_mono m ref msgs ref' x :
  x ∈ default [] (m !! ref') -> x ∈ default [] (add_messages m ref msgs !! ref').
Proof.
  unfold add_messages. destruct msgs as [|y msgs]; [done|]. destruct (decide (ref' = ref)) as [->|Hne].
  - rewrite lookup_insert_eq. cbn [default from_option id]. intros Hx. apply elem_of_app. by left.
  - by rewrite lookup_insert_ne.
Qed.

Lemma add_messages_in m ref msgs x : x ∈ msgs -> x ∈ default [] (add_messages m ref msgs !! ref).
Proof.
  unfold add_messages. destruct msgs as [|y msgs]; [by intros ?%not_elem_of_nil|].
  rewrite lookup_insert_eq. cbn [default from_option id]. intros Hx. apply elem_of_app. by right.
Qed.

Section Invariant.
Context (me : Global).

Lemma told_pending_mono m ref msgs ref' : told_pending m ref' -> told_pending (add_messages m ref msgs) ref'.
Proof. intros [more Hm]. exists more. by apply add_messages_mono. Qed.
Lemma told_executing_mono m ref msgs ref' x :
  told_executing me m ref' x -> told_executing me (add_messages m ref msgs) ref' x.
Proof. intros (refs & Hm & Hx). exists refs. split; [by apply add_messages_mono|done]. Qed.

(** New places of the heap change nothing that was there. *)
Lemma where_app own own' e p : where_ own e = Some p -> where_ (own ++ own') e = Some p.
Proof.
  unfold where_. intros (o & E & ->)%fmap_Some. by rewrite (lookup_app_l_Some _ _ _ _ E).
Qed.

Lemma running_where s e : runner_ok me s -> e ∈ running s -> exists p, where_ (owners s) e = Some p.
Proof.
  intros Hs He. destruct e as [b tr]. destruct (ro_running _ _ Hs _ _ He) as (ref & k & E & _).
  exists (k, RequestRef tr). unfold where_. cbn [fst]. by rewrite E.
Qed.

Lemma where_running_app s own' : runner_ok me s ->
  where_ (owners s ++ own') <$> running s = where_ (owners s) <$> running s.
Proof.
  intros Hs. apply list_fmap_ext. intros i e He%list_elem_of_lookup_2.
  destruct (running_where _ _ Hs He) as [p E]. by rewrite E, (where_app _ _ _ _ E).
Qed.

Lemma NewStateStorage_ok : runner_ok me NewStateStorage.
Proof.
  split; cbn; try done.
  - by intros ref b [?|?%not_elem_of_nil].
  - by intros b tr ?%not_elem_of_nil.
  - constructor.
Qed.

Lemma upsert_registry_ok s ref : runner_ok me s -> at_ s = NoPulse ->
  runner_ok me (upsertExecutionRegistry s ref).1 /\
  registries (storage (upsertExecutionRegistry s ref).1) !! ref = Some (upsertExecutionRegistry s ref).2 /\
  at_ (upsertExecutionRegistry s ref).1 = NoPulse /\
  brokers (storage (upsertExecutionRegistry s ref).1) = brokers (storage s) /\
  owners (upsertExecutionRegistry s ref).1 = owners s.
Proof.
  intros Hs Ha. unfold upsertExecutionRegistry.
  destruct (registries (storage s) !! ref) eqn:E; [by cbn; rewrite E|].
  cbn. rewrite lookup_insert_eq. split_and!; try done.
  destruct Hs as [H1 H2 H3 H4 H5 H6 H7 H8 H9 H10]. split; cbn; try done.
  - intros b ref' k Hb. rewrite length_app. specialize (H2 _ _ _ Hb). cbn. lia.
  - intros ref' k. rewrite length_app. cbn. intros [[<- <-]|[_ Hk]]%lookup_insert_Some; [lia|].
    specialize (H3 _ _ Hk). lia.
  - intros ref1 ref2 k. rewrite !lookup_insert_Some. intros [[<- <-]|[? Hk]] [[<- Hk']|[? Hk']]; [done|..].
    + specialize (H3 _ _ Hk'). lia.
    + subst. specialize (H3 _ _ Hk). lia.
    + by eapply H4.
  - intros ref' b Hb. destruct (H5 _ _ Hb) as (k & ? & Hk). exists k. split; [done|].
    rewrite lookup_insert_ne; [done|]. intros ->. congruence.
  - intros b tr Hb. destruct (H7 _ _ Hb) as (ref' & k & ? & Hk). exists ref', k. split; [done|].
    rewrite lookup_insert_ne; [done|]. intros ->. congruence.
  - intros k r x [Hk|[Hlen Hk]]%lookup_app_Some; [by apply H8|].
    apply list_lookup_singleton_Some in Hk as [Hz <-]. rewrite lookup_empty. split; [by intros []|].
    intros (e & Hw & He)%list_elem_of_fmap. destruct e as [b tr]. destruct (H7 _ _ He) as (ref' & k' & Ho & _).
    unfold where_ in Hw. cbn [fst snd] in Hw. rewrite Ho in Hw. injection Hw as -> _. specialize (H2 _ _ _ Ho). lia.
  - by rewrite Ha.
Qed.

Lemma upsert_ok s ref : runner_ok me s -> at_ s = NoPulse -> runner_ok me (UpsertExecutionState s ref).1.
Proof.
  intros Hs Ha. unfold UpsertExecutionState. destruct (brokers (storage s) !! ref) eqn:E; [done|].
  destruct (upsert_registry_ok s ref Hs Ha) as (Hs1 & Hr & Ha1 & Hb & Ho).
  destruct (upsertExecutionRegistry s ref) as [s1 k]. cbn [fst snd] in *. rewrite <- Hb in E. clear Hs Ha Hb Ho s.
  assert (where_ (owners s1 ++ [(ref, k)]) <$> running s1 = where_ (owners s1) <$> running s1) as Hw
    by (by apply where_running_app).
  destruct Hs1 as [H1 H2 H3 H4 H5 H6 H7 H8 H9 H10]. rewrite Ha1 in *.
  assert (forall b o, owners s1 !! b = Some o -> (owners s1 ++ [(ref, k)]) !! b = Some o) as Hl
    by (intros; by apply lookup_app_l_Some).
  split; cbn; try done.
  - rewrite !length_app. cbn. lia.
  - intros b ref' k' [Hb|[_ [_ [= <- <-]]%list_lookup_singleton_Some]]%lookup_app_Some; [by eapply H2|by eapply H3].
  - intros ref' b [[[<- <-]|[_ Hb]]%lookup_insert_Some|Hb%not_elem_of_nil]; [|destruct (H5 ref' b) as (k' & ? & ?)|done].
    + exists k. split; [|done]. rewrite lookup_app_r, Nat.sub_diag by done. done.
    + by left.
    + exists k'. split; [by apply Hl|done].
  - intros b ref' k' q [Hb|[Hlb [Hz [= <- <-]]%list_lookup_singleton_Some]]%lookup_app_Some Hq Hc.
    + apply lookup_app_Some in Hq as [Hq|[Hlen _]].
      * left. destruct (H6 _ _ _ _ Hb Hq Hc) as [Hb'|?%not_elem_of_nil]; [|done]. rewrite lookup_insert_ne; [done|].
        intros ->. congruence.
      * apply lookup_lt_Some in Hb. lia.
    + left. rewrite lookup_insert_eq. f_equal. lia.
  - intros b tr Hb. destruct (H7 _ _ Hb) as (ref' & k' & ? & ?). exists ref', k'. split; [by apply Hl|done].
  - intros k' r x Hk. rewrite Hw. by apply H8.
  - by rewrite Hw.
Qed.
Lemma where_at own b ref k tr : own !! b = Some (ref, k) -> where_ own (b, tr) = Some (k, RequestRef tr).
Proof. intros E. unfold where_. cbn [fst snd]. by rewrite E. Qed.

(** A broker that keeps its [closed] flag, its registry being [r'] and the
    calls under way [run] after it. *)
Lemma set_broker_ok s b ref k q q' r r' run :
  runner_ok me s -> owners s !! b = Some (ref, k) -> states s !! b = Some q -> heap s !! k = Some r ->
  b_closed q' = b_closed q ->
  (forall b' tr, (b', tr) ∈ run -> (b', tr) ∈ running s \/ b' = b /\ b_closed q = false) ->
  (forall k' r0 x, <[k := r']> (heap s) !! k' = Some r0 ->
     (is_Some (r0 !! x) <-> Some (k', x) ∈ where_ (owners s) <$> run)) ->
  NoDup (where_ (owners s) <$> run) ->
  runner_ok me (set_broker s b q' k r' run (at_ s)).
Proof.
  intros Hs Ho Hq Hr Hc Hrun H8 H9. destruct Hs as [H1 H2 H3 H4 H5 H6 H7 _ _ H10].
  assert (forall b' tr, (b', tr) ∈ run -> (b', tr) ∈ running s \/ b' = b /\
            (brokers (storage s) !! ref = Some b \/ (ref, b) ∈ todo_brokers (at_ s))) as Hrun'.
  { intros b' tr Hb. destruct (Hrun _ _ Hb) as [?|[-> Hop]]; [by left|right]. split; [done|]. by eapply H6. }
  clear Hrun. split; cbn; try done.
  - by rewrite length_insert.
  - intros b' ref' k' Hb. rewrite length_insert. by eapply H2.
  - intros ref' k' Hk. rewrite length_insert. by eapply H3.
  - intros b' ref' k' q1 Hb Hq1 Hc1. destruct (decide (b' = b)) as [->|Hne].
    + rewrite list_lookup_insert_eq in Hq1 by (by eapply lookup_lt_Some). injection Hq1 as <-.
      rewrite Hc in Hc1. by eapply H6.
    + rewrite list_lookup_insert_ne in Hq1 by done. by eapply H6.
  - intros b' tr Hb. destruct (Hrun' _ _ Hb) as [Hb'|[-> Hop]]; [by eapply H7|].
    destruct (H5 _ _ Hop) as (k' & ? & ?). by exists ref, k'.
  - destruct (at_ s) as [|todo msgs|todo msgs]; [done|..].
    + destruct H10 as [Hb0 Ht]. split; [done|]. intros b' tr ref' k' Hb Ho' He Hn.
      destruct (Hrun' _ _ Hb) as [Hb'|[-> Hop]]; [by eapply Ht|]. rewrite Ho in Ho'. injection Ho' as <- <-.
      destruct Hop as [Hop|Hop]; [by rewrite Hb0 in Hop|]. destruct Hn. apply list_elem_of_fmap. by exists (ref, b).
    + destruct H10 as (Hb0 & Hnd & Hto & Ht). split_and!; [done..|]. intros b' tr ref' k' Hb Ho'.
      destruct (Hrun' _ _ Hb) as [Hb'|[-> Hop]]; [by eapply Ht|].
      destruct Hop as [Hop|Hop%not_elem_of_nil]; [by rewrite Hb0 in Hop|done].
Qed.

Lemma begins_ok s b ref k q r tr r' :
  runner_ok me s -> owners s !! b = Some (ref, k) -> states s !! b = Some q -> heap s !! k = Some r ->
  canProcessTranscript q r tr = (r', true) ->
  runner_ok me (set_broker s b q k r' ((b, tr) :: running s) (at_ s)).
Proof.
  intros Hs Ho Hq Hr Hc. unfold canProcessTranscript, Register in Hc. destruct (b_closed q) eqn:Hop; [done|].
  destruct (r !! RequestRef tr) eqn:Er; [done|]. injection Hc as <-.
  pose proof (ro_registry _ _ Hs) as H8. pose proof (ro_once _ _ Hs) as H9.
  pose proof (where_at _ _ _ _ tr Ho) as Hw.
  apply (set_broker_ok _ _ ref _ q _ r); try done.
  - intros b' tr' [[= -> ->]|?]%elem_of_cons; [by right|by left].
  - intros k' r0 x Hk. rewrite fmap_cons, elem_of_cons, Hw. destruct (decide (k' = k)) as [->|Hne].
    + rewrite list_lookup_insert_eq in Hk by (by eapply lookup_lt_Some). injection Hk as <-.
      rewrite <- (H8 _ _ _ Hr). destruct (decide (x = RequestRef tr)) as [->|Hx].
      * rewrite lookup_insert_eq. split; [by left|by eexists].
      * rewrite lookup_insert_ne by done. split; [by right|]. intros [[= ->]|?]; done.
    + rewrite list_lookup_insert_ne in Hk by done. rewrite (H8 _ _ _ Hk). split; [by right|].
      intros [[= -> ->]|?]; done.
  - rewrite fmap_cons, Hw. apply list.NoDup_cons. split; [|done]. rewrite <- (H8 _ _ _ Hr), Er. by intros [].
Qed.

Lemma ends_ok s b ref k q r tr q' r' run :
  runner_ok me s -> owners s !! b = Some (ref, k) -> states s !! b = Some q -> heap s !! k = Some r ->
  finishTranscript q r tr = (q', r') -> running s ≡ₚ (b, tr) :: run ->
  runner_ok me (set_broker s b q' k r' run (at_ s)).
Proof.
  intros Hs Ho Hq Hr [= <- <-] Hrun.
  pose proof (ro_registry _ _ Hs) as H8. pose proof (ro_once _ _ Hs) as H9.
  pose proof (where_at _ _ _ _ tr Ho) as Hw.
  assert (where_ (owners s) <$> running s ≡ₚ Some (k, RequestRef tr) :: (where_ (owners s) <$> run)) as Hp
    by (by rewrite Hrun, fmap_cons, Hw).
  rewrite Hp in H9. apply list.NoDup_cons in H9 as [Hn H9].
  apply (set_broker_ok _ _ ref _ q _ r); try done.
  - intros b' tr' Hb. left. rewrite Hrun. by right.
  - assert (is_Some (r !! RequestRef tr)) as [tr0 Er] by (apply (H8 _ _ _ Hr); rewrite Hp; by left).
    unfold Done. rewrite Er. cbn [fst]. intros k' r0 x Hk. destruct (decide (k' = k)) as [->|Hne].
    + rewrite list_lookup_insert_eq in Hk by (by eapply lookup_lt_Some). injection Hk as <-.
      destruct (decide (x = RequestRef tr)) as [->|Hx].
      * rewrite lookup_delete_eq. split; [by intros []|done].
      * rewrite lookup_delete_ne by done. rewrite (H8 _ _ _ Hr), Hp, elem_of_cons. split; [|by right].
        intros [[= ->]|?]; done.
    + rewrite list_lookup_insert_ne in Hk by done. rewrite (H8 _ _ _ Hk), Hp, elem_of_cons. split; [|by right].
      intros [[= -> ->]|?]; done.
Qed.

Lemma broker_does_ok s b ref k q r e q' r' run :
  runner_ok me s -> owners s !! b = Some (ref, k) -> states s !! b = Some q -> heap s !! k = Some r ->
  broker_does q r e q' r' -> run_after b e (running s) run ->
  runner_ok me (set_broker s b q' k r' run (at_ s)).
Proof.
  intros Hs Ho Hq Hr Hd Hrun. destruct Hd as [q' Hc|tr r' Hc|tr q' r' Hc]; inversion Hrun; subst.
  - apply (set_broker_ok _ _ ref _ q _ r); try done; [by left| |apply Hs].
    intros k' r0 x. rewrite list_insert_id by done. by apply (ro_registry _ _ Hs).
  - by eapply begins_ok.
  - by eapply ends_ok.
Qed.

Lemma OnPulse_closed ref q r : b_closed (OnPulse ref q r).1 = true.
Proof. unfold OnPulse. by destruct (if isActive r then _ else _) as [[? ?] ?]. Qed.

Lemma OnPulse_active ref q r x : is_Some (r !! x) ->
  exists more, ExecutorResults ref InPending more ∈ (OnPulse ref q r).2.
Proof.
  intros Hx%IsEmpty_false. unfold OnPulse, isActive. rewrite Hx. cbn. eexists. by apply list_elem_of_singleton.
Qed.

Lemma registry_OnPulse_tells ref r x : is_Some (r !! x) ->
  exists refs, StillExecuting ref me refs ∈ registry_OnPulse ref me r /\ x ∈ refs.
Proof.
  intros [tr Hx]. pose proof (IsEmpty_false _ _ (ex_intro _ tr Hx)) as He. unfold registry_OnPulse.
  unfold IsEmpty in He. rewrite He. eexists. split; [by apply list_elem_of_singleton|].
  apply list_elem_of_fmap. exists (x, tr). split; [done|]. by apply elem_of_map_to_list.
Qed.

Lemma pulse_start_ok s todo : runner_ok me s -> at_ s = NoPulse -> todo ≡ₚ map_to_list (brokers (storage s)) ->
  runner_ok me (mkRunner (mkStorage ∅ (registries (storage s))) (owners s) (states s) (heap s) (running s)
                  (OverBrokers todo ∅) (dom (brokers (storage s))) (shutdownFlag s)).
Proof.
  intros [H1 H2 H3 H4 H5 H6 H7 H8 H9 H10] Ha Ht.
  assert (forall ref b, (ref, b) ∈ todo <-> brokers (storage s) !! ref = Some b) as Hin
    by (intros; by rewrite Ht, elem_of_map_to_list).
  rewrite Ha in *. split; cbn; try done.
  - intros ref b [Hb|Hb]; [done|]. apply H5. left. by apply Hin.
  - intros b ref k q Ho Hq Hc. right. apply Hin. by destruct (H6 _ _ _ _ Ho Hq Hc) as [?|?%not_elem_of_nil].
  - split; [done|]. intros b tr ref k _ _ [b' Hb']%elem_of_dom Hn. destruct Hn. apply list_elem_of_fmap.
    exists (ref, b'). split; [done|]. by apply Hin.
Qed.

Lemma pulse_broker_ok s ref b todo msgs s' :
  runner_ok me s -> at_ s = OverBrokers ((ref, b) :: todo) msgs -> pulse_broker s ref b todo msgs = Some s' ->
  runner_ok me s'.
Proof.
  intros Hs Ha Hp. pose proof (ro_current _ _ Hs ref b) as Hcur. rewrite Ha in Hcur.
  destruct Hcur as (k & Ho & Hk); [right; by left|]. unfold pulse_broker in Hp. rewrite Ho in Hp. cbn in Hp.
  destruct (states s !! b) as [q|] eqn:Hq; [|done]. destruct (heap s !! k) as [r|] eqn:Hr; [|done]. cbn in Hp.
  pose proof (OnPulse_closed ref q r) as Hcl. pose proof (OnPulse_active ref q r) as Hact.
  destruct (OnPulse ref q r) as [q' m]. cbn [fst snd] in *. injection Hp as <-.
  pose proof (ro_registry _ _ Hs k r) as Hreg.
  destruct Hs as [H1 H2 H3 H4 H5 H6 H7 H8 H9 H10]. rewrite Ha in *. split; cbn; try done.
  - by rewrite length_insert.
  - intros b' ref' k' Hb. rewrite length_insert. by eapply H2.
  - intros ref' k' Hk'. rewrite length_insert. by eapply H3.
  - intros ref' b' Hb. apply H5. destruct Hb as [Hb|Hb]; [by left|right; by right].
  - intros b' ref' k' q1 Ho' Hq1 Hc1. destruct (decide (b' = b)) as [->|Hne].
    + rewrite list_lookup_insert_eq in Hq1 by (by eapply lookup_lt_Some). injection Hq1 as <-. congruence.
    + rewrite list_lookup_insert_ne in Hq1 by done.
      destruct (H6 _ _ _ _ Ho' Hq1 Hc1) as [?|[[= -> ->]|?]%elem_of_cons]; [by left|done|by right].
  - intros k' r0 x. rewrite list_insert_id by done. apply H8.
  - destruct H10 as [Hb0 Ht]. split; [done|]. intros b' tr ref' k' Hb Ho' He Hn.
    destruct (decide (ref' = ref)) as [->|Hne].
    + destruct (H7 _ _ Hb) as (ref1 & k1 & Ho1 & Hk1). rewrite Ho' in Ho1. injection Ho1 as <- <-.
      assert (k' = k) as -> by congruence. destruct (Hact (RequestRef tr)) as [more Hm].
      * apply Hreg; [done|]. apply list_elem_of_fmap. exists (b', tr). split; [|done]. by rewrite (where_at _ _ _ _ _ Ho').
      * exists more. by apply add_messages_in.
    + apply told_pending_mono. eapply Ht; [done..|]. rewrite fmap_cons, not_elem_of_cons. done.
Qed.

Lemma registries_start_ok s todo msgs :
  runner_ok me s -> at_ s = OverBrokers [] msgs -> todo ≡ₚ map_to_list (registries (storage s)) ->
  runner_ok me (set_storage s (storage s) (OverRegistries todo msgs)).
Proof.
  intros [H1 H2 H3 H4 H5 H6 H7 H8 H9 H10] Ha Ht. rewrite Ha in *. split; cbn; try done.
  destruct H10 as [Hb0 Hto]. split_and!; [done|rewrite Ht; apply NoDup_fst_map_to_list| |].
  - intros ref k. by rewrite Ht, elem_of_map_to_list.
  - intros b tr ref k Hb Ho. split; [intros He; eapply Hto; [done..|apply not_elem_of_nil]|].
    intros Hn. destruct Hn. destruct (H7 _ _ Hb) as (ref' & k' & Ho' & Hk'). rewrite Ho in Ho'. injection Ho' as <- <-.
    apply list_elem_of_fmap. exists (ref, k). split; [done|]. by rewrite Ht, elem_of_map_to_list.
Qed.

Lemma pulse_registry_ok s ref k todo msgs :
  runner_ok me s -> at_ s = OverRegistries ((ref, k) :: todo) msgs ->
  runner_ok me (pulse_registry me s ref k todo msgs).
Proof.
  intros Hs Ha. destruct Hs as [H1 H2 H3 H4 H5 H6 H7 H8 H9 H10]. rewrite Ha in *.
  destruct H10 as (Hb0 & Hnd & Hto & Ht). cbn in Hnd. apply list.NoDup_cons in Hnd as [Hnin Hnd].
  pose proof (Hto ref k (list_elem_of_here _ _)) as Hk.
  destruct (lookup_lt_is_Some_2 _ _ (H3 _ _ Hk)) as [r Hr].
  assert (registry_at s k = r) as Er by (unfold registry_at; by rewrite Hr).
  unfold pulse_registry. rewrite Er. set (ss := if IsEmpty r then _ else _).
  assert (brokers ss = brokers (storage s)) as Eb by (unfold ss; by destruct (IsEmpty r)).
  assert (forall ref' k', registries ss !! ref' = Some k' -> registries (storage s) !! ref' = Some k') as Hsub.
  { intros ref' k'. unfold ss. destruct (IsEmpty r); [|done]. cbn. by intros [_ ?]%lookup_delete_Some. }
  assert (forall ref' k', registries (storage s) !! ref' = Some k' -> ref' <> ref ->
            registries ss !! ref' = Some k') as Hoth.
  { intros ref' k' Hk' Hne. unfold ss. destruct (IsEmpty r); [|done]. cbn. by rewrite lookup_delete_ne. }
  split; cbn; rewrite ?Eb; try done.
  - intros ref' k' Hk'. by eapply H3, Hsub.
  - intros ref1 ref2 k' Hk1 Hk2. eapply H4; by apply Hsub.
  - intros ref' b [Hb|Hb%not_elem_of_nil]; [by rewrite Hb0 in Hb|done].
  - intros b tr Hb. destruct (H7 _ _ Hb) as (ref' & k' & Ho' & Hk'). exists ref', k'. split; [done|].
    destruct (decide (ref' = ref)) as [->|Hne]; [|by apply Hoth]. assert (k' = k) as -> by congruence.
    assert (is_Some (r !! RequestRef tr)) as Hx%IsEmpty_false.
    { apply (H8 _ _ _ Hr), list_elem_of_fmap. exists (b, tr). by rewrite (where_at _ _ _ _ _ Ho'). }
    unfold ss. by rewrite Hx.
  - split_and!; [done..| |].
    + intros ref' k' Hin. apply Hoth; [apply Hto; by right|]. intros ->. destruct Hnin.
      apply list_elem_of_fmap. by exists (ref, k').
    + intros b tr ref' k' Hb Ho'. destruct (Ht _ _ _ _ Hb Ho') as [Ht1 Ht2].
      split; [intros He; by apply told_pending_mono, Ht1|]. intros Hn. destruct (decide (ref' = ref)) as [->|Hne].
      * destruct (H7 _ _ Hb) as (ref1 & k1 & Ho1 & Hk1). rewrite Ho' in Ho1. injection Ho1 as <- <-.
        assert (k' = k) as -> by congruence. destruct (registry_OnPulse_tells ref r (RequestRef tr)) as (refs & Hm & Hx).
        { apply (H8 _ _ _ Hr), list_elem_of_fmap. exists (b, tr). by rewrite (where_at _ _ _ _ _ Ho'). }
        exists refs. split; [by apply add_messages_in|done].
      * apply told_executing_mono, Ht2. rewrite fmap_cons, not_elem_of_cons. done.
Qed.

Lemma flag_ok s g : runner_ok me s ->
  runner_ok me (mkRunner (storage s) (owners s) (states s) (heap s) (running s) (at_ s) (ended s) g).
Proof. intros [H1 H2 H3 H4 H5 H6 H7 H8 H9 H10]. by split. Qed.

Lemma runner_step_ok s s' : runner_ok me s -> runner_step me s s' -> runner_ok me s'.
Proof.
  intros Hs Hst. destruct Hst.
  - by apply upsert_ok.
  - by eapply broker_does_ok.
  - by apply pulse_start_ok.
  - by eapply pulse_broker_ok.
  - by apply registries_start_ok.
  - by apply pulse_registry_ok.
  - destruct Hs as [H1 H2 H3 H4 H5 H6 H7 H8 H9 H10]. rewrite H in *. by split.
  - by apply flag_ok.
  - by apply flag_ok.
Qed.

Lemma runner_reach_ok s : reach (runner_step me) NewStateStorage s -> runner_ok me s.
Proof. apply reach_invariant; [apply NewStateStorage_ok|apply runner_step_ok]. Qed.
End Invariant.

(** ** What the storage guarantees *)
Section Facts.
Context (me : Global) (s : runner) (Hs : runner_ok me s).

Lemma running_once i j b tr b' tr' ref k k' :
  running s !! i = Some (b, tr) -> running s !! j = Some (b', tr') ->
  owners s !! b = Some (ref, k) -> owners s !! b' = Some (ref, k') -> RequestRef tr = RequestRef tr' -> i = j.
Proof.
  intros Hi Hj Ho Ho' E. assert (k' = k) as ->.
  { destruct (ro_running _ _ Hs b tr) as (? & ? & ? & ?); [by eapply list_elem_of_lookup_2|].
    destruct (ro_running _ _ Hs b' tr') as (? & ? & ? & ?); [by eapply list_elem_of_lookup_2|]. congruence. }
  eapply (NoDup_lookup _ _ _ _ (ro_once _ _ Hs)).
  - by rewrite list_lookup_fmap, Hi.
  - rewrite list_lookup_fmap, Hj. cbn. by rewrite (where_at _ _ _ _ _ Ho), (where_at _ _ _ _ _ Ho'), E.
Qed.

Lemma registry_running ref k x : GetExecutionRegistry s ref = Some k ->
  (is_Some (GetActiveTranscript (registry_at s k) x) <->
   exists b tr, (b, tr) ∈ running s /\ owners s !! b = Some (ref, k) /\ RequestRef tr = x).
Proof.
  intros Hk. destruct (lookup_lt_is_Some_2 _ _ (ro_places _ _ Hs _ _ Hk)) as [r Hr].
  unfold registry_at, GetActiveTranscript. rewrite Hr. cbn. rewrite (ro_registry _ _ Hs _ _ _ Hr), list_elem_of_fmap.
  split; [intros ([b tr] & Hw & Hb)|intros (b & tr & Hb & Ho & <-)].
  - destruct (ro_running _ _ Hs _ _ Hb) as (ref' & k' & Ho & Hk'). rewrite (where_at _ _ _ _ _ Ho) in Hw.
    injection Hw as -> ->. exists b, tr. split_and!; [done| |done].
    by rewrite (ro_distinct _ _ Hs _ _ _ Hk Hk').
  - exists (b, tr). by rewrite (where_at _ _ _ _ _ Ho).
Qed.

Lemma registry_empty k : IsEmpty (registry_at s k) = true <-> forall x, ~ is_Some (registry_at s k !! x).
Proof.
  split.
  - intros He x Hx. rewrite (IsEmpty_false _ _ Hx) in He. done.
  - intros Hx. unfold IsEmpty, Length. apply Nat.eqb_eq, map_size_empty_iff, map_empty. intros x.
    apply eq_None_not_Some, Hx.
Qed.

Lemma storage_empty : StateStorage_IsEmpty s = true <-> running s = [].
Proof.
  assert (forallb (fun '(_, k) => IsEmpty (registry_at s k)) (map_to_list (registries (storage s))) = true <->
          running s = []) as H.
  { rewrite forallb_forall. setoid_rewrite <- list_elem_of_In. split.
    - intros Hall. destruct (running s) as [|[b tr] run] eqn:Er; [done|].
      destruct (ro_running _ _ Hs b tr) as (ref & k & Ho & Hk); [rewrite Er; by left|].
      assert (IsEmpty (registry_at s k) = true) as He
        by (by apply (Hall (ref, k)), elem_of_map_to_list).
      rewrite registry_empty in He. destruct (He (RequestRef tr)). apply (registry_running ref); [done|].
      exists b, tr. rewrite Er. split_and!; [by left|done..].
    - intros Er [ref k] Hk%elem_of_map_to_list. apply registry_empty. intros x Hx.
      apply (registry_running ref) in Hx as (b & tr & Hb & _); [|done]. by rewrite Er in Hb; apply not_elem_of_nil in Hb. }
  unfold StateStorage_IsEmpty. destruct (_ && _) eqn:Ez; [|done]. split; [intros _|done].
  apply andb_prop in Ez as [_ Ez%Nat.eqb_eq%map_size_empty_iff]. apply H. by rewrite Ez, map_to_list_empty.
Qed.

Lemma all_closed todo msgs b q : at_ s = OverRegistries todo msgs -> states s !! b = Some q -> b_closed q = true.
Proof.
  intros Ha Hq. pose proof (ro_phase _ _ Hs) as Hp. rewrite Ha in Hp. destruct Hp as [Hb0 _].
  destruct (b_closed q) eqn:Hc; [done|].
  destruct (lookup_lt_is_Some_2 (owners s) b) as [[ref k] Ho].
  { rewrite <- (ro_states _ _ Hs). by eapply lookup_lt_Some. }
  destruct (ro_open _ _ Hs _ _ _ _ Ho Hq Hc) as [Hb|Hb]; [by rewrite Hb0 in Hb|].
  rewrite Ha in Hb. by apply not_elem_of_nil in Hb.
Qed.
End Facts.

(** C9: however the handlers, the brokers of all pulses and the pulse changes
    interleave: no request of an object is executed twice at a time on the
    node; the registry an object has lists exactly its requests under way, in
    brokers of whatever pulse; the storage is empty exactly when nothing is
    under way, so the node stops only then; and when [OnPulse] returns, every
    broker is closed and each request still under way is told: it is listed as
    executing, and if its object had a broker in the ended pulse the next
    executor is told the object is in pending. *)
Theorem node_handover me s :
  reach (runner_step me) NewStateStorage s ->
  (forall i j b tr b' tr' ref k k',
     running s !! i = Some (b, tr) -> running s !! j = Some (b', tr') ->
     owners s !! b = Some (ref, k) -> owners s !! b' = Some (ref, k') -> RequestRef tr = RequestRef tr' -> i = j) /\
  (forall ref k x, GetExecutionRegistry s ref = Some k ->
     (is_Some (GetActiveTranscript (registry_at s k) x) <->
      exists b tr, (b, tr) ∈ running s /\ owners s !! b = Some (ref, k) /\ RequestRef tr = x)) /\
  (StateStorage_IsEmpty s = true <-> running s = []) /\
  (forall s', runner_step me s s' -> stopChannel_closed (shutdownFlag s) = false ->
     stopChannel_closed (shutdownFlag s') = true -> isStopped (shutdownFlag s) = true /\ running s = []) /\
  (forall msgs, at_ s = OverRegistries [] msgs ->
     (forall b q, states s !! b = Some q -> b_closed q = true) /\
     forall b tr ref k, (b, tr) ∈ running s -> owners s !! b = Some (ref, k) ->
       told_executing me msgs ref (RequestRef tr) /\ (ref ∈ ended s -> told_pending msgs ref)).
Proof.
  intros Hs%runner_reach_ok. split_and!.
  - intros *. by apply (running_once me).
  - intros *. by apply (registry_running me).
  - by apply (storage_empty me).
  - intros s' Hst Hf Hf'. destruct Hst; cbn in Hf'; try congruence.
    + unfold UpsertExecutionState, upsertExecutionRegistry in Hf'.
      destruct (brokers (storage s) !! ref); [cbn in Hf'; congruence|].
      destruct (registries (storage s) !! ref); cbn in Hf'; congruence.
    + unfold pulse_broker in H0. destruct (owners s !! b) as [[? k]|]; [|done]. cbn in H0.
      destruct (states s !! b); [|done]. destruct (heap s !! k); [|done]. cbn in H0.
      destruct (OnPulse _ _ _). injection H0 as <-. cbn in Hf'. congruence.
    + unfold Flag_Done in Hf'. destruct (isStopped (shutdownFlag s)) eqn:Es, (StateStorage_IsEmpty s) eqn:Ee;
        cbn in Hf'; try congruence. split; [done|]. by apply (storage_empty me).
  - intros msgs Ha. split; [intros *; by apply (all_closed me s Hs [] msgs)|]. intros b tr ref k Hb Ho.
    pose proof (ro_phase _ _ Hs) as Hp. rewrite Ha in Hp. destruct Hp as (_ & _ & _ & Ht).
    destruct (Ht _ _ _ _ Hb Ho) as [? Ht2]. split; [|done]. apply Ht2, not_elem_of_nil.
Qed.

(** ** A broker of Broker.v is a broker of the storage *)

(** The calls under way in a machine of Broker.v, and after an effect. *)
Definition call_of (x : reader) : option Transcript :=
  match rd_stage x with Executing tr => Some tr | _ => None end.
Definition calls (s : machine) : list Transcript := omap call_of (readers s).
Definition calls_after (e : effect) (ex ex' : list Transcript) : Prop :=
  match e with
  | Quiet => ex' ≡ₚ ex
  | Begins tr => ex' ≡ₚ tr :: ex
  | Ends tr => ex ≡ₚ tr :: ex'
  end.

Lemma calls_reader s i x st : readers s !! i = Some x ->
  exists rest, calls s ≡ₚ option_list (call_of x) ++ rest /\
    forall s', readers s' = <[i := mkReader (rd_immutable x) st]> (readers s) ->
      calls s' ≡ₚ option_list (call_of (mkReader (rd_immutable x) st)) ++ rest.
Proof.
  intros Hi. destruct (omap_at call_of _ _ _ Hi) as (rest & E1 & E2). exists rest. split; [exact E1|].
  intros s' Hs'. unfold calls. rewrite Hs'. apply E2.
Qed.

Lemma startProcessor_closed q : b_closed (startProcessor q).1 = b_closed q.
Proof. unfold startProcessor. repeat case_match; done. Qed.
Lemma upsert_closed q tr : b_closed (upsertToDuplicationTable q tr).1 = b_closed q.
Proof. unfold upsertToDuplicationTable. by case_bool_decide. Qed.

Lemma startProcessor_idle q : (startProcessor q).2 = true -> processorActive q = false.
Proof. unfold startProcessor. repeat case_match; try done. Qed.

Lemma broker_step_does ref s s' :
  broker_ok s -> broker_step ref s s' ->
  (others s' = others s /\ exists e, broker_does (broker s) (registry s) e (broker s') (registry s') /\
     calls_after e (calls s) (calls s')) \/
  (exists msgs, OnPulse ref (broker s) (registry s) = (broker s', msgs) /\
     registry s' = registry s /\ calls s' = calls s /\ others s' = others s) \/
  (exists o, o ∈ others s /\ registry s' = delete o (registry s) /\ others s' = others s ∖ {[o]} /\
     broker s' = broker s /\ calls s' = calls s).
Proof.
  assert (forall (s s' : machine), others s' = others s -> registry s' = registry s -> b_closed (broker s') = b_closed (broker s) ->
            calls s' ≡ₚ calls s ->
            others s' = others s /\ exists e, broker_does (broker s) (registry s) e (broker s') (registry s') /\
              calls_after e (calls s) (calls s')) as quiet.
  { intros s1 s2 Ho Hr Hc He. split; [done|]. exists Quiet. split; [rewrite Hr; by constructor|done]. }
  intros Hok Hst. destruct Hst.
  - left. apply quiet; try done. cbn. pose proof (handle_closed c (broker s) (registry s)) as E. by rewrite H in E.
  - left. apply quiet; try done. cbn. destruct H0 as [->|[has ->]]; [done|]. unfold clarify. case_bool_decide; [|done].
    by destruct has.
  - left. pose proof (startProcessor_closed (broker s)) as Hc. pose proof (startProcessor_idle (broker s)) as Hi.
    rewrite H0 in Hc, Hi. apply quiet; try done. pose proof (bo_readers _ Hok) as Hr. rewrite Hi in Hr by done.
    destruct Hr as [_ Hr]. unfold calls. cbn [readers]. by rewrite Hr.
  - left. pose proof (startProcessor_closed (broker s)) as Hc. rewrite H0 in Hc. by apply quiet.
  - right. left. by exists msgs.
  - left. pose proof (upsert_closed (broker s) tr) as Hc. rewrite H1 in Hc. by apply quiet.
  - left. pose proof (upsert_closed (broker s) tr) as Hc. rewrite H1 in Hc. by apply quiet.
  - left. by apply quiet.
  - left. apply quiet; try done. cbn. unfold noMoreRequestsOnLedgerInitial, noMoreRequestsOnLedger.
    by destruct (_ && _), (probablyMoreSinceLastFetch _).
  - left. by apply quiet.
  - left. by apply quiet.
  - left. by apply quiet.
  - left. destruct (calls_reader s i _ (Picked tr) H0) as (ex & E1 & E2). apply quiet; try done.
    rewrite E1. by apply E2.
  - left. split; [done|]. exists (Begins tr). split; [by constructor|].
    destruct (calls_reader s i _ (Executing tr) H0) as (ex & E1 & E2). set (s' := set_reader _ _ _ _ _ _ _ _ _).
    assert (calls s' ≡ₚ tr :: ex) as E3 by exact (E2 s' eq_refl).
    cbn in E1. unfold calls_after. by rewrite E1, E3.
  - left. assert (r = registry s) as ->.
    { unfold canProcessTranscript, Register in H1. repeat case_match; congruence. }
    destruct (calls_reader s i _ Idle H0) as (ex & E1 & E2). apply quiet; try done. rewrite E1. by apply E2.
  - left. split; [done|]. exists (Ends tr). split; [by constructor|].
    destruct (calls_reader s i _ Finishing H0) as (ex & E1 & E2). set (s' := set_reader _ _ _ _ _ _ _ _ _).
    assert (calls s' ≡ₚ ex) as E3 by exact (E2 s' eq_refl).
    unfold calls_after. by rewrite E1, E3.
  - left. destruct (calls_reader s i _ Idle H0) as (ex & E1 & E2). apply quiet; try done. rewrite E1. by apply E2.
  - right. right. by exists o.
Qed.

(** The machine [m] is the broker [b] of the storage, with object [ref] and
    registry [k]. *)
Record mirrors (b k : nat) (ref : Global) (m : machine) (s : runner) : Prop := {
  mi_owner : owners s !! b = Some (ref, k);
  mi_state : states s !! b = Some (broker m);
  mi_registry : heap s !! k = Some (registry m);
  mi_calls : omap (fun e => if decide (e.1 = b) then Some e.2 else None) (running s) ≡ₚ calls m;
}.

Lemma mirrors_set b k ref m s q' r' run p m' :
  mirrors b k ref m s -> broker m' = q' -> registry m' = r' ->
  omap (fun e => if decide (e.1 = b) then Some e.2 else None) run ≡ₚ calls m' ->
  mirrors b k ref m' (set_broker s b q' k r' run p).
Proof.
  intros [H1 H2 H3 _] <- <- H4. split; cbn; [done| | |done].
  - apply list_lookup_insert_eq. by eapply lookup_lt_Some.
  - apply list_lookup_insert_eq. by eapply lookup_lt_Some.
Qed.

(** every step of a broker's own machine is a step the storage allows for
    it, with the same state, registry and calls after it: the rounds of
    [OnPulse] when it is the broker's turn, and any other at any time. *)
Theorem broker_refines me ref r0 b k m m' s :
  reach (broker_step ref) (fresh r0) m -> mirrors b k ref m s -> broker_step ref m m' ->
  others m' = others m ->
  (exists s', runner_step me s s' /\ mirrors b k ref m' s') \/
  (exists q msgs, OnPulse ref (broker m) (registry m) = (q, msgs) /\ broker m' = q /\
     forall todo told, at_ s = OverBrokers ((ref, b) :: todo) told ->
     exists s', runner_step me s s' /\ mirrors b k ref m' s' /\ at_ s' = OverBrokers todo (add_messages told ref msgs)).
Proof.
  intros Hm%broker_reach_ok Hi Hst Ho. destruct (broker_step_does _ _ _ Hm Hst) as [(_ & e & Hd & Ha)|[Hp|Hx]].
  - left. pose proof Hi as [H1 H2 H3 H4]. destruct e as [|tr|tr]; cbn in Ha.
    + eexists. split; [by eapply rs_broker; [..|apply run_quiet]|]. eapply mirrors_set; try done. by rewrite H4.
    + eexists. split; [by eapply rs_broker; [..|apply run_begin]|]. eapply mirrors_set; try done. cbn.
      rewrite decide_True by done. by rewrite H4, Ha.
    + assert (tr ∈ omap (fun e => if decide (e.1 = b) then Some e.2 else None) (running s)) as Hin
        by (rewrite H4, Ha; by left).
      apply list_elem_of_omap in Hin as ([b' tr'] & Hin & Ht). cbn in Ht. destruct (decide (b' = b)) as [->|]; [|done].
      injection Ht as ->. apply elem_of_Permutation in Hin as [run Hrun].
      eexists. split; [by eapply rs_broker; [..|by apply run_end]|]. eapply mirrors_set; try done.
      rewrite Hrun, Ha in H4. cbn in H4. rewrite decide_True in H4 by done. by apply (inj (tr ::.)) in H4.
  - right. destruct Hp as (msgs & Hp & Hr & Hc & _). exists (broker m'), msgs. split_and!; [done..|].
    intros todo told Ha. pose proof Hi as [H1 H2 H3 H4].
    eexists. split_and!; [eapply rs_pulse_broker; [done|]| |]; [|eapply mirrors_set; try done|].
    + unfold pulse_broker. rewrite H1. cbn. rewrite H2. cbn. rewrite H3. cbn. by rewrite Hp.
    + by rewrite Hc.
    + done.
  - destruct Hx as (o & Hin & _ & Hot & _). rewrite Ho in Hot. rewrite Hot in Hin.
    apply elem_of_difference in Hin as [_ Hn]. destruct Hn. by apply elem_of_singleton.
Qed.

(** ** The theorems at work: a call outlives its pulse. *)
Module SampleStorage.
Import SampleBroker.

Definition one_object : stateStorage := mkStorage {[object := 0%nat]} {[object := 0%nat]}.
Definition called (ss : stateStorage) (q : ExecutionBroker) (p : phase) (e : gset Global) : runner :=
  mkRunner ss [(object, 0%nat)] [q] [<[requestRef := tr]> ∅] [(0%nat, tr)] p e NewFlag.
Definition pulsed : ExecutionBroker := mkBroker false true LedgerIsEmpty false [] InPending true ∅.
Definition toldPending : gmap Global (list message) :=
  add_messages ∅ object [ExecutorResults object InPending false].

Lemma sample_begin : reach (runner_step object) NewStateStorage (called one_object NewExecutionBroker NoPulse ∅).
Proof.
  assert ((UpsertExecutionState NewStateStorage object).1 =
    mkRunner one_object [(object, 0%nat)] [NewExecutionBroker] [∅] [] NoPulse ∅ NewFlag) as E.
  { unfold UpsertExecutionState, upsertExecutionRegistry. cbn [brokers registries storage NewStateStorage].
    by rewrite !lookup_empty. }
  eapply reach_step; [eapply reach_step; [apply reach_init|by apply (rs_upsert object _ object)]|]. rewrite E.
  eapply (rs_broker object (mkRunner one_object [(object, 0%nat)] [NewExecutionBroker] [∅] [] NoPulse ∅ NewFlag)
            0 object 0 NewExecutionBroker ∅ (Begins tr) NewExecutionBroker (<[requestRef := tr]> ∅)
            [(0%nat, tr)]); try reflexivity; [|apply run_begin].
  apply does_begin. unfold canProcessTranscript, Register. cbn [b_closed NewExecutionBroker]. by rewrite lookup_empty.
Qed.

Lemma sample_pulse : exists s msgs, reach (runner_step object) NewStateStorage s /\
  at_ s = OverRegistries [] msgs /\ running s = [(0%nat, tr)] /\ owners s = [(object, 0%nat)] /\ object ∈ ended s.
Proof.
  assert (IsEmpty (<[requestRef := tr]> ∅) = false) as He by (apply (IsEmpty_false _ requestRef); by rewrite lookup_insert_eq).
  assert (runner_step object (called one_object NewExecutionBroker NoPulse ∅)
            (called (mkStorage ∅ {[object := 0%nat]}) NewExecutionBroker (OverBrokers [(object, 0%nat)] ∅) (dom (brokers one_object)))) as S1.
  { apply (rs_pulse object (called one_object NewExecutionBroker NoPulse ∅)); [done|].
    cbn [called storage brokers one_object]. by rewrite map_to_list_singleton. }
  assert (runner_step object
            (called (mkStorage ∅ {[object := 0%nat]}) NewExecutionBroker (OverBrokers [(object, 0%nat)] ∅) (dom (brokers one_object)))
            (called (mkStorage ∅ {[object := 0%nat]}) pulsed (OverBrokers [] toldPending) (dom (brokers one_object)))) as S2.
  { eapply (rs_pulse_broker object _ object 0); [done|]. unfold pulse_broker, OnPulse, isActive.
    cbn [called owners states heap lookup list_lookup mbind option_bind]. by rewrite He. }
  assert (runner_step object
            (called (mkStorage ∅ {[object := 0%nat]}) pulsed (OverBrokers [] toldPending) (dom (brokers one_object)))
            (called (mkStorage ∅ {[object := 0%nat]}) pulsed (OverRegistries [(object, 0%nat)] toldPending) (dom (brokers one_object)))) as S3.
  { eapply rs_registries; [done|]. cbn [called storage registries]. by rewrite map_to_list_singleton. }
  eexists _, _. split.
  - eapply reach_step; [eapply reach_step; [eapply reach_step; [eapply reach_step; [apply sample_begin|exact S1]|exact S2]|exact S3]|].
    by eapply (rs_pulse_registry object _ object 0).
  - split_and!; [reflexivity..|]. cbn [pulse_registry set_storage called ended one_object brokers].
    rewrite dom_singleton. by apply elem_of_singleton.
Qed.

Lemma node_handover_witness : exists s msgs,
  reach (runner_step object) NewStateStorage s /\ at_ s = OverRegistries [] msgs /\
  told_executing object msgs object requestRef /\ told_pending msgs object.
Proof.
  destruct sample_pulse as (s & msgs & Hr & Ha & Hrun & Ho & He). exists s, msgs.
  destruct (node_handover object s Hr) as (_ & _ & _ & _ & H). destruct (H msgs Ha) as [_ H'].
  destruct (H' 0%nat tr object 0%nat) as [H1 H2]; [rewrite Hrun; by left|by rewrite Ho|].
  split_and!; [done|done|exact H1|by apply H2].
Defined.

(** A fresh broker takes its first request, in its machine and in the storage. *)
Lemma broker_refines_witness : exists m' s',
  m' = mkMachine (setHasMoreRequests NewExecutionBroker) ∅ 1 0 None [] [] (dom (∅ : executionRegistry)) [] /\
  ((runner_step object (UpsertExecutionState NewStateStorage object).1 s' /\ mirrors 0 0 object m' s') \/
   exists q msgs, OnPulse object NewExecutionBroker ∅ = (q, msgs) /\ broker m' = q).
Proof.
  set (m' := mkMachine (setHasMoreRequests NewExecutionBroker) ∅ 1 0 None [] [] (dom (∅ : executionRegistry)) []).
  destruct (broker_refines object object ∅ 0 0 (fresh ∅) m' (UpsertExecutionState NewStateStorage object).1)
    as [(s' & Hs & Hm)|(q & msgs & Hp & Hq & _)].
  - apply reach_init.
  - unfold UpsertExecutionState, upsertExecutionRegistry. cbn [brokers registries storage NewStateStorage].
    rewrite !lookup_empty. by split.
  - apply (bs_call object (fresh ∅) call_HasMoreRequests (setHasMoreRequests NewExecutionBroker) 1). reflexivity.
  - reflexivity.
  - exists m', s'. split; [reflexivity|]. left. by split.
  - exists m', NewStateStorage. split; [reflexivity|]. right. by exists q, msgs.
Defined.
End SampleStorage.
