(* ===== verification/ResultMatcher.v ===== *)
(** * Matching results with executing nodes (src/logicrunner/result_matcher.go)

    A result may come back to a node that no longer waits for it, because the
    caller goes on on the node that executed it in an earlier pulse.  That
    node says so ([StillExecuting]); the matcher brings the two messages
    together, whichever comes first, and sends the result there. *)
From S2P Require Import Prelude Reference.

(** payload.ReturnResults *)
Record ReturnResults : Type := mkResults {
  Target : Global;
  rr_RequestRef : Global;
  rr_Reason : Global;
  rr_Reply : list Z;
  rr_Error : string;
  ResendCount : Z;
}.

Record resultsMatcher : Type := mkMatcher {
  executionNodes : gmap Global Global;
  unwantedResponses : gmap Global ReturnResults;
}.
Definition newResultsMatcher : resultsMatcher := mkMatcher ∅ ∅.

(** The message [send] makes and its receiver. *)
Definition send (msg : ReturnResults) (receiver : Global) : ReturnResults * Global :=
  (mkResults (Target msg) (rr_RequestRef msg) (rr_Reason msg) (rr_Reply msg) (rr_Error msg)
     (u32 (ResendCount msg + 1)), receiver).

(** The operations, with the messages they send. *)
Definition add_still (executor reqRef : Global) (rm : resultsMatcher) :
  resultsMatcher * list (ReturnResults * Global) :=
  let nodes := <[reqRef := executor]> (executionNodes rm) in
  match unwantedResponses rm !! reqRef with
  | Some response => (mkMatcher nodes (delete reqRef (unwantedResponses rm)), [send response executor])
  | None => (mkMatcher nodes (unwantedResponses rm), [])
  end.
Fixpoint AddStillExecution (executor : Global) (requestRefs : list Global) (rm : resultsMatcher) :
  resultsMatcher * list (ReturnResults * Global) :=
  match requestRefs with
  | [] => (rm, [])
  | reqRef :: rest =>
      let '(rm, sent) := add_still executor reqRef rm in
      let '(rm, sent') := AddStillExecution executor rest rm in (rm, sent ++ sent')
  end.
Definition AddUnwantedResponse (msg : ReturnResults) (rm : resultsMatcher) :
  resultsMatcher * list (ReturnResults * Global) :=
  if Global_IsEmpty (rr_Reason msg) then (rm, [])
  else if 1 <=? ResendCount msg then (rm, [])
  else match executionNodes rm !! rr_Reason msg with
       | Some node => (rm, [send msg node])
       | None => (mkMatcher (executionNodes rm) (<[rr_Reason msg := msg]> (unwantedResponses rm)), [])
       end.
(** What is not claimed is dropped. *)
Definition Clear (rm : resultsMatcher) : resultsMatcher := mkMatcher ∅ ∅.

(** ** Histories of calls between two [Clear]s *)
Inductive event : Type :=
  | StillExecuting (executor : Global) (requestRefs : list Global)
  | Response (msg : ReturnResults).

Definition apply_event (e : event) (rm : resultsMatcher) : resultsMatcher * list (ReturnResults * Global) :=
  match e with
  | StillExecuting executor refs => AddStillExecution executor refs rm
  | Response msg => AddUnwantedResponse msg rm
  end.
Fixpoint run_events (h : list event) (rm : resultsMatcher) : resultsMatcher * list (ReturnResults * Global) :=
  match h with
  | [] => (rm, [])
  | e :: h => let '(rm, sent) := apply_event e rm in
              let '(rm, sent') := run_events h rm in (rm, sent ++ sent')
  end.

(** ** What a history says *)
Definition accepted (msg : ReturnResults) : bool :=
  negb (Global_IsEmpty (rr_Reason msg)) && (ResendCount msg <? 1).
Definition names (r n : Global) (e : event) : Prop :=
  match e with StillExecuting executor refs => executor = n /\ r ∈ refs | Response _ => False end.
Definition named (h : list event) (r n : Global) : Prop := Exists (names r n) h.
(** The accepted responses that go to the caller [r]. *)
Definition response_of (r : Global) (e : event) : option ReturnResults :=
  match e with
  | Response msg => if accepted msg && bool_decide (rr_Reason msg = r) then Some msg else None
  | StillExecuting _ _ => None
  end.
Definition responses (h : list event) (r : Global) : list ReturnResults := omap (response_of r) h.
Definition sent_to (sent : list (ReturnResults * Global)) (r : Global) : list (ReturnResults * Global) :=
  filter (fun x => rr_Reason x.1 = r) sent.

(** What holds of the matcher and of what it sent, for the caller [r]. *)
Record caller_ok (h : list event) (rm : resultsMatcher) (sent : list (ReturnResults * Global)) (r : Global) : Prop := {
  co_node n : executionNodes rm !! r = Some n -> named h r n;
  co_named n : named h r n -> is_Some (executionNodes rm !! r);
  co_waiting m : unwantedResponses rm !! r = Some m -> executionNodes rm !! r = None /\
    last (responses h r) = Some m;
  co_held : executionNodes rm !! r = None -> responses h r <> [] -> is_Some (unwantedResponses rm !! r);
  co_sent x : x ∈ sent_to sent r -> exists m n, x = send m n /\ m ∈ responses h r /\ named h r n;
  co_unnamed : executionNodes rm !! r = None -> sent_to sent r = [];
  co_count : (length (sent_to sent r) + length (option_list (unwantedResponses rm !! r)) <= length (responses h r))%nat;
  co_some : is_Some (executionNodes rm !! r) -> responses h r <> [] -> sent_to sent r <> [];
}.

Lemma responses_snoc h e r : responses (h ++ [e]) r = responses h r ++ option_list (response_of r e).
Proof. unfold responses. rewrite omap_app. cbn. by destruct (response_of r e). Qed.
Lemma named_snoc h e r n : named (h ++ [e]) r n <-> named h r n \/ names r n e.
Proof. unfold named. rewrite list.Exists_app, List.Exists_cons, List.Exists_nil. tauto. Qed.
Lemma sent_to_app s s' r : sent_to (s ++ s') r = sent_to s r ++ sent_to s' r.
Proof. apply list.filter_app. Qed.

Lemma response_of_other r msg : accepted msg = false \/ rr_Reason msg <> r -> response_of r (Response msg) = None.
Proof.
  intros H. cbn. destruct (accepted msg) eqn:E; [|done]. destruct H as [?|H]; [done|]. by rewrite bool_decide_eq_false_2.
Qed.

(** An event that does not concern the caller. *)
Lemma caller_same h e rm rm' sent more r :
  caller_ok h rm sent r -> executionNodes rm' !! r = executionNodes rm !! r ->
  unwantedResponses rm' !! r = unwantedResponses rm !! r -> response_of r e = None ->
  (forall n, ~ names r n e) -> sent_to more r = [] ->
  caller_ok (h ++ [e]) rm' (sent ++ more) r.
Proof.
  intros [H1 H2 H3 H4 H5 H6 H7 H8] E1 E2 E3 E4 E5.
  assert (responses (h ++ [e]) r = responses h r) as Hr by (rewrite responses_snoc, E3; apply app_nil_r).
  assert (forall n, named (h ++ [e]) r n <-> named h r n) as Hn by (intros n; rewrite named_snoc; specialize (E4 n); tauto).
  assert (sent_to (sent ++ more) r = sent_to sent r) as Hs by (rewrite sent_to_app, E5; apply app_nil_r).
  split; rewrite ?E1, ?E2, ?Hr, ?Hs; try done.
  - intros n. rewrite Hn. apply H1.
  - intros n. rewrite Hn. apply H2.
  - intros x Hx. destruct (H5 x Hx) as (m & n & ? & ? & ?). exists m, n. by rewrite Hn.
Qed.

(** A response waits under its reason. *)
Definition by_reason (rm : resultsMatcher) : Prop :=
  forall q m, unwantedResponses rm !! q = Some m -> rr_Reason m = q.

Lemma sent_to_other m n r : rr_Reason m <> r -> sent_to [send m n] r = [].
Proof. intros Hm. unfold sent_to. by rewrite filter_cons_False. Qed.
Lemma sent_to_this m n r : rr_Reason m = r -> sent_to [send m n] r = [send m n].
Proof. intros Hm. unfold sent_to. by rewrite filter_cons_True. Qed.

Lemma still_reason rm n reqRef : by_reason rm -> by_reason (add_still n reqRef rm).1.
Proof.
  intros Hb q m. unfold add_still. destruct (unwantedResponses rm !! reqRef); cbn; [|apply Hb].
  intros [_ ?]%lookup_delete_Some. by apply Hb.
Qed.

Lemma still_ok h rm sent r n reqRef rm' more :
  by_reason rm -> caller_ok h rm sent r -> add_still n reqRef rm = (rm', more) ->
  caller_ok (h ++ [StillExecuting n [reqRef]]) rm' (sent ++ more) r.
Proof.
  intros Hb Hok Hadd. unfold add_still in Hadd. destruct (decide (reqRef = r)) as [->|Hne].
  - destruct Hok as [H1 H2 H3 H4 H5 H6 H7 H8].
    assert (responses (h ++ [StillExecuting n [r]]) r = responses h r) as Hr by (rewrite responses_snoc; apply app_nil_r).
    assert (forall n', named (h ++ [StillExecuting n [r]]) r n' <-> named h r n' \/ n = n') as Hn.
    { intros n'. rewrite named_snoc. cbn. rewrite list_elem_of_singleton. tauto. }
    destruct (unwantedResponses rm !! r) as [m|] eqn:Em; injection Hadd as <- <-.
    + destruct (H3 m eq_refl) as [Hnone Hlast].
      assert (sent_to (sent ++ [send m n]) r = [send m n]) as Hs
        by (by rewrite sent_to_app, (H6 Hnone), (sent_to_this _ _ _ (Hb _ _ Em))).
      split; cbn; rewrite ?Hr, ?Hs, ?lookup_insert_eq, ?lookup_delete_eq; try done.
      * intros n' [= <-]. rewrite Hn. by right.
      * intros x ->%list_elem_of_singleton. exists m, n. split_and!; [done| |rewrite Hn; by right].
        by apply last_Some_elem_of.
      * cbn in H7 |- *. lia.
    + split; cbn; rewrite ?app_nil_r, ?Hr, ?lookup_insert_eq, ?Em; try done.
      * intros n' [= <-]. rewrite Hn. by right.
      * intros x Hx. destruct (H5 x Hx) as (m & n' & ? & ? & ?). exists m, n'. rewrite Hn. tauto.
      * intros _ Hne. destruct (executionNodes rm !! r) eqn:En; [by apply H8|]. by destruct (H4 eq_refl Hne).
  - destruct (unwantedResponses rm !! reqRef) as [m|] eqn:Em; injection Hadd as <- <-.
    all: apply (caller_same _ _ rm); [exact Hok|..]; cbn; rewrite ?lookup_insert_ne, ?lookup_delete_ne by done; try done.
    all: try (intros n'; rewrite list_elem_of_singleton; by intros [_ ?]).
    apply sent_to_other. by rewrite (Hb _ _ Em).
Qed.

Lemma response_reason rm msg : by_reason rm -> by_reason (AddUnwantedResponse msg rm).1.
Proof.
  intros Hb q m. unfold AddUnwantedResponse. destruct (Global_IsEmpty _); [apply Hb|].
  destruct (1 <=? _); [apply Hb|]. destruct (executionNodes rm !! _); [apply Hb|].
  cbn. intros [[<- <-]|[_ ?]]%lookup_insert_Some; [done|by apply Hb].
Qed.

Lemma response_ok h rm sent r msg rm' more :
  by_reason rm -> caller_ok h rm sent r -> AddUnwantedResponse msg rm = (rm', more) ->
  caller_ok (h ++ [Response msg]) rm' (sent ++ more) r.
Proof.
  intros Hb Hok Hadd. unfold AddUnwantedResponse in Hadd.
  assert (accepted msg = negb (Global_IsEmpty (rr_Reason msg)) && negb (1 <=? ResendCount msg)) as Ha.
  { unfold accepted. f_equal. destruct (Z.leb_spec 1 (ResendCount msg)), (Z.ltb_spec (ResendCount msg) 1); lia. }
  destruct (Global_IsEmpty (rr_Reason msg)) eqn:Ee.
  { injection Hadd as <- <-. apply (caller_same _ _ rm); try done; [apply response_of_other; by left|by intros ? []]. }
  destruct (1 <=? ResendCount msg) eqn:Er.
  { injection Hadd as <- <-. apply (caller_same _ _ rm); try done; [apply response_of_other; by left|by intros ? []]. }
  cbn in Ha. destruct (decide (rr_Reason msg = r)) as [Hr|Hne].
  - rewrite Hr in *.
    assert (responses (h ++ [Response msg]) r = responses h r ++ [msg]) as Hresp
      by (rewrite responses_snoc; cbn; rewrite Ha; by rewrite bool_decide_eq_true_2).
    assert (forall n', named (h ++ [Response msg]) r n' <-> named h r n') as Hn by (intros n'; rewrite named_snoc; cbn; tauto).
    destruct Hok as [H1 H2 H3 H4 H5 H6 H7 H8].
    destruct (executionNodes rm !! r) as [n|] eqn:En; injection Hadd as <- <-.
    + split; cbn; rewrite ?Hresp, ?En, ?sent_to_app, ?(sent_to_this _ _ _ Hr), ?length_app; try done.
      * intros n'. rewrite Hn. apply H1.
      * intros m Hm. by destruct (H3 m Hm).
      * intros x [Hx| ->%list_elem_of_singleton]%elem_of_app.
        -- destruct (H5 x Hx) as (m & n' & ? & ? & ?). exists m, n'. rewrite Hn. split_and!; [done| |done].
           apply elem_of_app. by left.
        -- exists msg, n. split_and!; [done|apply elem_of_app; right; by left|]. rewrite Hn. by apply H1.
      * cbn. lia.
      * intros _ _ [_ ?]%app_eq_nil. done.
    + split; cbn; rewrite ?Hresp, ?app_nil_r, ?lookup_insert_eq, ?length_app; try done.
      * intros n'. rewrite Hn, En. apply H1.
      * intros n'. rewrite Hn. intros Hn'%H2. by rewrite En.
      * intros m [= <-]. by rewrite last_snoc.
      * intros x Hx. rewrite (H6 eq_refl) in Hx. by apply not_elem_of_nil in Hx.
      * intros _. by apply H6.
      * rewrite (H6 eq_refl). cbn. lia.
      * rewrite En. by intros [].
  - destruct (executionNodes rm !! rr_Reason msg) as [n|]; injection Hadd as <- <-.
    all: apply (caller_same _ _ rm); [exact Hok|..]; cbn; rewrite ?lookup_insert_ne by done; try done.
    all: try (by intros ? []). all: try (apply response_of_other; by right). by apply sent_to_other.
Qed.

(** ** Whole histories *)

(** A message that names several requests is as one message for each. *)
Definition atoms (e : event) : list event :=
  match e with
  | StillExecuting n refs => (fun r => StillExecuting n [r]) <$> refs
  | Response _ => [e]
  end.

Lemma run_app h h' rm :
  run_events (h ++ h') rm =
  let '(rm, sent) := run_events h rm in let '(rm, sent') := run_events h' rm in (rm, sent ++ sent').
Proof.
  revert rm. induction h as [|e h IH]; intros rm; cbn; [by destruct (run_events h' rm)|].
  destruct (apply_event e rm) as [rm1 s1]. rewrite IH. destruct (run_events h rm1) as [rm2 s2].
  destruct (run_events h' rm2) as [rm3 s3]. by rewrite (assoc_L (++)).
Qed.

Lemma run_atoms h rm : run_events (h ≫= atoms) rm = run_events h rm.
Proof.
  revert rm. induction h as [|e h IH]; intros rm; [done|]. cbn [mbind list_bind]. rewrite run_app.
  assert (run_events (atoms e) rm = apply_event e rm) as ->.
  { destruct e as [n refs|msg]; cbn.
    - revert rm. induction refs as [|r refs IHr]; intros rm; [done|]. cbn.
      destruct (add_still n r rm) as [rm1 s1]. rewrite IHr, app_nil_r. done.
    - destruct (AddUnwantedResponse msg rm). by rewrite app_nil_r. }
  cbn. destruct (apply_event e rm) as [rm1 s1]. by rewrite IH.
Qed.

Lemma responses_atoms h r : responses (h ≫= atoms) r = responses h r.
Proof.
  induction h as [|e h IH]; [done|]. cbn [mbind list_bind]. unfold responses in *. rewrite omap_app, IH.
  destruct e as [n refs|msg]; cbn [atoms]; [|cbn; by destruct (_ && _)].
  cbn. replace (omap (response_of r) _) with ([] : list ReturnResults); [done|].
  symmetry. by induction refs.
Qed.

Lemma named_atoms h r n : named (h ≫= atoms) r n <-> named h r n.
Proof.
  induction h as [|e h IH]; [done|]. cbn [mbind list_bind]. unfold named in *.
  rewrite list.Exists_app, List.Exists_cons, IH. apply or_iff_compat_r.
  destruct e as [n' refs|msg]; cbn [atoms names].
  - rewrite Exists_fmap, list.Exists_exists. cbn. setoid_rewrite list_elem_of_singleton. split.
    + by intros (x & ? & -> & ->).
    + intros [-> ?]. by exists r.
  - rewrite List.Exists_cons, List.Exists_nil. cbn. tauto.
Qed.

Lemma atomic_ok h r :
  by_reason (run_events (h ≫= atoms) newResultsMatcher).1 /\
  caller_ok (h ≫= atoms) (run_events (h ≫= atoms) newResultsMatcher).1 (run_events (h ≫= atoms) newResultsMatcher).2 r.
Proof.
  assert (Forall (fun e => match e with StillExecuting _ refs => exists x, refs = [x] | _ => True end) (h ≫= atoms)) as Hat.
  { apply list.Forall_forall. intros e (e' & He & _)%list_elem_of_bind. destruct e' as [n refs|msg]; cbn in He.
    - apply list_elem_of_fmap in He as (x & -> & _). by exists x.
    - apply list_elem_of_singleton in He as ->. done. }
  induction (h ≫= atoms) as [|e l IH] using rev_ind.
  { cbn. split; [by intros ? ?|]. split; cbn; try done.
    - by intros n (? & ?%not_elem_of_nil & _)%list.Exists_exists.
    - by intros x ?%not_elem_of_nil. }
  apply list.Forall_app in Hat as [Hl He]. apply list.Forall_cons in He as [He _]. specialize (IH Hl).
  rewrite run_app. destruct (run_events l newResultsMatcher) as [rm s]. cbn [fst snd] in IH. destruct IH as [Hb Hok].
  destruct e as [n refs|msg].
  - destruct He as [x ->]. cbn. pose proof (still_reason rm n x Hb) as Hb'.
    destruct (add_still n x rm) as [rm' s'] eqn:E. cbn. rewrite !app_nil_r. split; [done|]. exact (still_ok l rm s r n x rm' s' Hb Hok E).
  - cbn. pose proof (response_reason rm msg Hb) as Hb'.
    destruct (AddUnwantedResponse msg rm) as [rm' s'] eqn:E. cbn. rewrite app_nil_r. split; [done|]. exact (response_ok l rm s r msg rm' s' Hb Hok E).
Qed.

Lemma history_ok h r :
  caller_ok h (run_events h newResultsMatcher).1 (run_events h newResultsMatcher).2 r.
Proof.
  destruct (atomic_ok h r) as [_ [H1 H2 H3 H4 H5 H6 H7 H8]]. rewrite run_atoms in *. rewrite responses_atoms in *.
  split; try done.
  - intros n Hn. by apply named_atoms, H1.
  - intros n Hn%named_atoms. by apply (H2 n).
  - intros x Hx. destruct (H5 x Hx) as (m & n & ? & Hm & Hn). exists m, n. by rewrite named_atoms in Hn.
Qed.

(** between two [Clear]s, whatever messages come in whatever order: only
    accepted responses are sent, to a node that named their caller, and what is
    sent is not accepted by the next matcher, so it does not travel on; no
    response is sent twice; if a caller has one response and a node named it,
    before or after, that response is sent to such a node, once; what is not
    claimed waits, the latest response for each caller. *)
Theorem matcher_matches h r :
  Forall (fun e => match e with Response msg => 0 <= ResendCount msg | _ => True end) h ->
  let '(rm, sent) := run_events h newResultsMatcher in
  (forall x, x ∈ sent_to sent r -> accepted x.1 = false /\
     exists m n, x = send m n /\ m ∈ responses h r /\ named h r n) /\
  (length (sent_to sent r) <= length (responses h r))%nat /\
  (forall m n, responses h r = [m] -> named h r n ->
     exists n', named h r n' /\ sent_to sent r = [send m n']) /\
  ((forall n, ~ named h r n) -> sent_to sent r = [] /\ unwantedResponses rm !! r = last (responses h r)).
Proof.
  intros Hc. destruct (history_ok h r) as [H1 H2 H3 H4 H5 H6 H7 H8].
  destruct (run_events h newResultsMatcher) as [rm sent]. cbn [fst snd] in *. split_and!.
  - intros x Hx. destruct (H5 x Hx) as (m & n & -> & Hm & Hn). split; [|by exists m, n].
    apply list_elem_of_omap in Hm as ([|msg] & Hin & Hr); [done|]. cbn in Hr.
    destruct (accepted msg) eqn:Ha; [|done]. cbn in Hr. case_bool_decide; [|done]. injection Hr as <-.
    rewrite list.Forall_forall in Hc. specialize (Hc _ Hin). cbn in Hc.
    unfold accepted in Ha |- *. cbn. apply andb_prop in Ha as [_ Hlt%Z.ltb_lt].
    replace (ResendCount msg) with 0 by lia. apply andb_false_r.
  - lia.
  - intros m n Hm Hn. pose proof (H8 (H2 _ Hn)) as Hne. rewrite Hm in *. cbn in H7.
    destruct (sent_to sent r) as [|x [|y l]]; [by destruct Hne| |cbn in H7; lia].
    destruct (H5 x (list_elem_of_here _ _)) as (m' & n' & -> & ->%list_elem_of_singleton & ?). by exists n'.
  - intros Hno. destruct (executionNodes rm !! r) as [n|] eqn:En; [by destruct (Hno n (H1 n eq_refl))|].
    split; [by apply H6|]. destruct (responses h r) as [|m l] eqn:Er.
    + destruct (unwantedResponses rm !! r) as [m|] eqn:Em; [|done]. by destruct (H3 m eq_refl) as [_ ?].
    + destruct (H4 eq_refl) as [m' Em]; [done|]. rewrite Em. by destruct (H3 m' Em) as [_ ->].
Qed.

(** ** The theorem at work: the response comes first. *)
Module SampleMatch.

Definition node : Global := mkGlobal (mkLocal 65537 (replicate 28 3)) (mkLocal 65537 (replicate 28 3)).
Definition caller : Global := mkGlobal (mkLocal 65547 (replicate 28 2)) (mkLocal 65537 (replicate 28 1)).
Definition response : ReturnResults := mkResults node caller caller [1; 2] "" 0.
Definition history : list event := [Response response; StillExecuting node [caller]].

Lemma matcher_matches_witness : exists n, named history caller n /\
  sent_to (run_events history newResultsMatcher).2 caller = [send response n].
Proof.
  assert (responses history caller = [response]) as Hr by (vm_compute; reflexivity).
  pose proof (matcher_matches history caller) as H. destruct (run_events history newResultsMatcher) as [rm sent].
  destruct H as (_ & _ & H & _).
  - repeat constructor. cbn. lia.
  - apply (H response node Hr). right. left. split; [reflexivity|]. by left.
Defined.
End SampleMatch.
