(* ===== verification/ContractRequester.v ===== *)
(** * Waiting for the result of a call (src/contractrequester/contractrequester.go)

    Whoever calls a contract leaves a channel under the hash of the request,
    sends the request, and waits on the channel when the request was only
    registered.  Results come as messages; one nobody waits for goes on to the
    logic runner.  The regions under the lock of the map are functions, the
    callers' goroutines interleave in [requester_step]. *)
From S2P Require Import Prelude Reference ResultMatcher.

Abbreviation Hash := (list Z).
(** A channel with room for one; its hash is that of its request. *)
Record chan : Type := mkChan { ch_hash : Hash; buf : option ReturnResults; ch_closed : bool }.

Inductive outcome : Type :=
  | EarlyReply
  | Registered
  | Result (msg : ReturnResults)
  | CallFailed
  | TimedOut.
(** Where [SendRequest] is: sent and waiting for the reply ([None]: a saga,
    which waits for no result), waiting for the result, returned. *)
Inductive caller : Type :=
  | Sent (hash : Hash) (ch : option nat)
  | Waiting (hash : Hash) (ch : nat)
  | Returned (hash : Hash) (o : outcome).

(** The map and the heap of channels; [received] are the results handled,
    [taken] those a caller got and [unwanted] those passed to the logic runner. *)
Record requester : Type := mkRequester {
  ResultMap : gmap Hash nat;
  chans : list chan;
  callers : gmap nat caller;
  received : list ReturnResults;
  taken : list ReturnResults;
  unwanted : list ReturnResults;
}.
Definition New : requester := mkRequester ∅ [] ∅ [] [] [].

Definition reqHash (msg : ReturnResults) : Hash := Local_Hash (addressLocal (rr_RequestRef msg)).

Definition set_map (cr : requester) (m : gmap Hash nat) (ch : list chan) : requester :=
  mkRequester m ch (callers cr) (received cr) (taken cr) (unwanted cr).
Definition set_caller (cr : requester) (tid : nat) (c : caller) : requester :=
  mkRequester (ResultMap cr) (chans cr) (<[tid := c]> (callers cr)) (received cr) (taken cr) (unwanted cr).

Definition createResultWaiter (cr : requester) (h : Hash) : requester * nat :=
  let ch := length (chans cr) in
  (set_map cr (<[h := ch]> (ResultMap cr)) (chans cr ++ [mkChan h None false]), ch).

Definition close (cr : requester) (ch : nat) : go requester :=
  match chans cr !! ch with
  | Some (mkChan h b false) => Ret (set_map cr (ResultMap cr) (<[ch := mkChan h b true]> (chans cr)))
  | _ => Panic "close of closed channel"
  end.
Definition handleCallMethod (cr : requester) (h : Hash) (ch : option nat) : go requester :=
  match ch with
  | None => Ret cr
  | Some ch => close (set_map cr (delete h (ResultMap cr)) (chans cr)) ch
  end.

(** [handleRegisterResult] up to the wait: the request in the reply has hash [h']. *)
Definition handleRegisterResult (h h' : Hash) (ch : option nat) : caller :=
  match ch with
  | None => Returned h Registered
  | Some ch => if negb (bool_decide (h' = h)) then Returned h CallFailed else Waiting h ch
  end.
Definition timeout (cr : requester) (h : Hash) : requester :=
  set_map cr (delete h (ResultMap cr)) (chans cr).

(** [result]: with the lock held, a send to a full channel would stop the
    node, which counts as a panic here. *)
Definition result (cr : requester) (msg : ReturnResults) : go requester :=
  match ResultMap cr !! reqHash msg with
  | None => Ret (mkRequester (ResultMap cr) (chans cr) (callers cr) (received cr ++ [msg]) (taken cr)
                   (unwanted cr ++ [msg]))
  | Some ch =>
      match chans cr !! ch with
      | Some (mkChan h None false) =>
          Ret (mkRequester (delete (reqHash msg) (ResultMap cr)) (<[ch := mkChan h (Some msg) false]> (chans cr))
                 (callers cr) (received cr ++ [msg]) (taken cr) (unwanted cr))
      | Some (mkChan _ _ true) => Panic "send on closed channel"
      | _ => Panic "the send blocks"
      end
  end.

(** [ret := <-ch] and the use of [ret]: blocks while there is nothing. *)
Definition receive (cr : requester) (ch : nat) : option (go (requester * ReturnResults)) :=
  match chans cr !! ch with
  | Some (mkChan h (Some msg) c) =>
      Some (Ret (mkRequester (ResultMap cr) (<[ch := mkChan h None c]> (chans cr)) (callers cr) (received cr)
                   (taken cr ++ [msg]) (unwanted cr), msg))
  | Some (mkChan _ None true) => Some (Panic "nil pointer dereference")
  | _ => None
  end.

Inductive requester_step (cr : requester) : requester -> Prop :=
  | cs_call tid h cr' ch :
      callers cr !! tid = None -> createResultWaiter cr h = (cr', ch) ->
      requester_step cr (set_caller cr' tid (Sent h (Some ch)))
  | cs_saga tid h :
      callers cr !! tid = None -> requester_step cr (set_caller cr tid (Sent h None))
  (** No reply, an error, or a reply of another kind. *)
  | cs_failed tid h ch :
      callers cr !! tid = Some (Sent h ch) -> requester_step cr (set_caller cr tid (Returned h CallFailed))
  | cs_early tid h ch cr' :
      callers cr !! tid = Some (Sent h ch) -> handleCallMethod cr h ch = Ret cr' ->
      requester_step cr (set_caller cr' tid (Returned h EarlyReply))
  | cs_registered tid h ch h' :
      callers cr !! tid = Some (Sent h ch) ->
      requester_step cr (set_caller cr tid (handleRegisterResult h h' ch))
  | cs_receive tid h ch cr' msg :
      callers cr !! tid = Some (Waiting h ch) -> receive cr ch = Some (Ret (cr', msg)) ->
      requester_step cr (set_caller cr' tid (Returned h (Result msg)))
  | cs_timeout tid h ch :
      callers cr !! tid = Some (Waiting h ch) ->
      requester_step cr (set_caller (timeout cr h) tid (Returned h TimedOut))
  | cs_result msg cr' :
      result cr msg = Ret cr' -> requester_step cr cr'.

(** ** The invariant *)
Definition hash_of (c : caller) : Hash := match c with Sent h _ | Waiting h _ | Returned h _ => h end.
(** The channel a caller that has not returned owns. *)
Definition owned (c : caller) : option nat :=
  match c with Sent _ ch => ch | Waiting _ ch => Some ch | Returned _ _ => None end.

Record requester_ok (cr : requester) : Prop := {
  rq_map h ch : ResultMap cr !! h = Some ch -> chans cr !! ch = Some (mkChan h None false);
  rq_owned tid c ch : callers cr !! tid = Some c -> owned c = Some ch ->
    exists b, chans cr !! ch = Some (mkChan (hash_of c) b false);
  rq_owner tid tid' c c' ch : callers cr !! tid = Some c -> callers cr !! tid' = Some c' ->
    owned c = Some ch -> owned c' = Some ch -> tid = tid';
  rq_buf ch h msg b : chans cr !! ch = Some (mkChan h (Some msg) b) -> reqHash msg = h;
  rq_result tid h msg : callers cr !! tid = Some (Returned h (Result msg)) -> reqHash msg = h;
  rq_where : received cr ≡ₚ omap buf (chans cr) ++ taken cr ++ unwanted cr;
  (** A caller that can still get a result: it is registered, or has it, or
      somebody else calls with the same hash. *)
  rq_waits tid c ch : callers cr !! tid = Some c -> owned c = Some ch ->
    ResultMap cr !! hash_of c = Some ch \/ (exists msg, chans cr !! ch = Some (mkChan (hash_of c) (Some msg) false)) \/
    exists tid' c', callers cr !! tid' = Some c' /\ tid' <> tid /\ hash_of c' = hash_of c;
}.

Lemma New_ok : requester_ok New.
Proof. split; cbn; try done. Qed.

Lemma omap_buf_insert l ch x y :
  l !! ch = Some x -> exists rest, omap buf l ≡ₚ option_list (buf x) ++ rest /\
    omap buf (<[ch := y]> l) ≡ₚ option_list (buf y) ++ rest.
Proof.
  intros (l1 & l2 & -> & ->)%list_elem_of_split_length. exists (omap buf (l1 ++ l2)).
  assert (forall z, omap buf (l1 ++ z :: l2) ≡ₚ option_list (buf z) ++ omap buf (l1 ++ l2)) as H.
  { intros z. rewrite !omap_app. cbn. destruct (buf z); cbn; [|done]. by rewrite Permutation_middle. }
  split; [apply H|]. rewrite insert_app_r_alt, Nat.sub_diag by done. apply H.
Qed.

Section Steps.
Context (cr : requester) (Hok : requester_ok cr).

(** A caller goes on, keeping its channel or giving it up. *)
Lemma set_caller_ok tid c c' :
  callers cr !! tid = Some c -> hash_of c' = hash_of c -> owned c' = owned c \/ owned c' = None ->
  (forall h msg, c' = Returned h (Result msg) -> reqHash msg = h) ->
  requester_ok (set_caller cr tid c').
Proof.
  intros Hc Hh Ho Hr. destruct Hok as [H1 H2 H3 H4 H5 H6 H7].
  assert (forall ch, owned c' = Some ch -> owned c = Some ch) as Ho' by (intros ch E; destruct Ho; congruence).
  split; cbn; try done.
  - intros tid' c1 ch [[<- <-]|[_ Hc1]]%lookup_insert_Some Hch; [rewrite Hh|]; by eauto.
  - intros tid1 tid2 c1 c2 ch [[<- <-]|[_ Hc1]]%lookup_insert_Some [[<- <-]|[_ Hc2]]%lookup_insert_Some; by eauto.
  - intros tid' h msg [[_ E]|[_ Hc1]]%lookup_insert_Some; [by apply Hr|by eauto].
  - assert (forall t x, callers cr !! t = Some x -> exists x', <[tid := c']> (callers cr) !! t = Some x' /\
              hash_of x' = hash_of x) as Hkeep.
    { intros t x Hx. destruct (decide (t = tid)) as [->|Hne]; [|exists x; by rewrite lookup_insert_ne].
      exists c'. rewrite lookup_insert_eq. split; [done|]. congruence. }
    assert (forall t x ch, callers cr !! t = Some x -> owned x = Some ch ->
              ResultMap cr !! hash_of x = Some ch \/ (exists msg, chans cr !! ch = Some (mkChan (hash_of x) (Some msg) false)) \/
              exists t' x', <[tid := c']> (callers cr) !! t' = Some x' /\ t' <> t /\ hash_of x' = hash_of x) as Hw.
    { intros t x ch Hx Hch. destruct (H7 _ _ _ Hx Hch) as [?|[?|(t' & x' & Hx' & Hne & E)]]; [by left|right; by left|].
      right. right. destruct (Hkeep _ _ Hx') as (x'' & ? & ?). exists t', x''. split_and!; [done..|congruence]. }
    intros tid' c1 ch [[<- <-]|[_ Hc1]]%lookup_insert_Some Hch; [|by apply Hw].
    rewrite Hh. apply Hw; [done|by apply Ho'].
Qed.

(** The entry of a hash is removed for one who no longer waits. *)
Lemma timeout_ok tid c :
  callers cr !! tid = Some c -> owned c = None -> requester_ok (timeout cr (hash_of c)).
Proof.
  intros Hc Ho. destruct Hok as [H1 H2 H3 H4 H5 H6 H7]. split; cbn; try done.
  - intros h ch [_ ?]%lookup_delete_Some. by apply H1.
  - intros tid' c' ch Hc' Ho'. destruct (decide (hash_of c' = hash_of c)) as [E|Hne].
    + right. right. exists tid, c. split_and!; [done| |done]. intros ->. congruence.
    + rewrite lookup_delete_ne by done. by eapply H7.
Qed.

Lemma close_ok ch h b :
  chans cr !! ch = Some (mkChan h b false) -> (forall tid c, callers cr !! tid = Some c -> owned c <> Some ch) ->
  (forall h', ResultMap cr !! h' <> Some ch) ->
  requester_ok (set_map cr (ResultMap cr) (<[ch := mkChan h b true]> (chans cr))).
Proof.
  intros Hch Hno Hnm. destruct Hok as [H1 H2 H3 H4 H5 H6 H7]. split; cbn; try done.
  - intros h' ch' Hm. destruct (decide (ch' = ch)) as [->|]; [by destruct (Hnm h')|].
    rewrite list_lookup_insert_ne by done. by apply H1.
  - intros tid c ch' Hc Ho. destruct (decide (ch' = ch)) as [->|]; [by destruct (Hno _ _ Hc)|].
    rewrite list_lookup_insert_ne by done. by eapply H2.
  - intros ch' h' msg b' Hb. destruct (decide (ch' = ch)) as [->|].
    + rewrite list_lookup_insert_eq in Hb by (by eapply lookup_lt_Some). injection Hb as <- -> <-. by eapply H4.
    + rewrite list_lookup_insert_ne in Hb by done. by eapply H4.
  - destruct (omap_buf_insert _ _ _ (mkChan h b true) Hch) as (rest & E1 & E2). by rewrite E2, H6, E1.
  - intros tid c ch' Hc Ho. destruct (decide (ch' = ch)) as [->|]; [by destruct (Hno _ _ Hc)|].
    rewrite list_lookup_insert_ne by done. by eapply H7.
Qed.

Lemma call_ok tid h :
  callers cr !! tid = None ->
  requester_ok (set_caller (createResultWaiter cr h).1 tid (Sent h (Some (createResultWaiter cr h).2))).
Proof.
  intros Hn. destruct Hok as [H1 H2 H3 H4 H5 H6 H7]. cbn [createResultWaiter fst snd].
  assert (forall ch x, chans cr !! ch = Some x -> (chans cr ++ [mkChan h None false]) !! ch = Some x) as Hold
    by (intros; by apply lookup_app_l_Some).
  assert ((chans cr ++ [mkChan h None false]) !! length (chans cr) = Some (mkChan h None false)) as Hnew
    by (by rewrite lookup_app_r, Nat.sub_diag).
  assert (forall t c ch, callers cr !! t = Some c -> owned c = Some ch -> ch <> length (chans cr)) as Hlt.
  { intros t c ch Hc Ho ->. destruct (H2 _ _ _ Hc Ho) as [b Hb%lookup_lt_Some]. lia. }
  split; cbn.
  - intros h' ch [[<- <-]|[_ Hm]]%lookup_insert_Some; [done|]. by apply Hold, H1.
  - intros tid' c ch [[<- <-]|[_ Hc]]%lookup_insert_Some Ho.
    + injection Ho as <-. by exists None.
    + destruct (H2 _ _ _ Hc Ho) as [b Hb]. exists b. by apply Hold.
  - intros t1 t2 c1 c2 ch [[<- <-]|[_ Hc1]]%lookup_insert_Some [[<- <-]|[_ Hc2]]%lookup_insert_Some Ho1 Ho2; [done|..].
    + injection Ho1 as <-. by destruct (Hlt _ _ _ Hc2 Ho2).
    + injection Ho2 as <-. by destruct (Hlt _ _ _ Hc1 Ho1).
    + by eauto.
  - intros ch h' msg b [Hb|[_ [_ [= ]]%list_lookup_singleton_Some]]%lookup_app_Some. by eapply H4.
  - intros tid' h' msg [[_ [= ]]|[_ Hc]]%lookup_insert_Some. by eapply H5.
  - rewrite omap_app. cbn. by rewrite app_nil_r.
  - intros tid' c ch [[<- <-]|[Hne Hc]]%lookup_insert_Some Ho.
    + injection Ho as <-. left. by rewrite lookup_insert_eq.
    + destruct (decide (hash_of c = h)) as [E|Hh].
      * right. right. exists tid, (Sent h (Some (length (chans cr)))). rewrite lookup_insert_eq. by split_and!.
      * destruct (H7 _ _ _ Hc Ho) as [Hm|[[msg Hm]|(t & c' & Hc' & ? & ?)]].
        -- left. by rewrite lookup_insert_ne.
        -- right. left. exists msg. by apply Hold.
        -- right. right. exists t, c'. rewrite lookup_insert_ne by congruence. done.
Qed.

Lemma saga_ok tid h : callers cr !! tid = None -> requester_ok (set_caller cr tid (Sent h None)).
Proof.
  intros Hn. destruct Hok as [H1 H2 H3 H4 H5 H6 H7]. split; cbn; try done.
  - intros tid' c ch [[<- <-]|[_ Hc]]%lookup_insert_Some Ho; [done|]. by eapply H2.
  - intros t1 t2 c1 c2 ch [[<- <-]|[_ Hc1]]%lookup_insert_Some [[<- <-]|[_ Hc2]]%lookup_insert_Some; by eauto.
  - intros tid' h' msg [[_ [= ]]|[_ Hc]]%lookup_insert_Some. by eapply H5.
  - intros tid' c ch [[<- <-]|[Hne Hc]]%lookup_insert_Some Ho; [done|].
    destruct (H7 _ _ _ Hc Ho) as [?|[?|(t & c' & ? & ? & ?)]]; [by left|right; by left|].
    right. right. exists t, c'. rewrite lookup_insert_ne by congruence. done.
Qed.

Lemma result_ok msg : exists cr', result cr msg = Ret cr' /\ requester_ok cr'.
Proof.
  destruct Hok as [H1 H2 H3 H4 H5 H6 H7]. unfold result.
  destruct (ResultMap cr !! reqHash msg) as [ch|] eqn:Em.
  - pose proof (H1 _ _ Em) as Hch. rewrite Hch. eexists. split; [done|].
    set (new := mkChan (reqHash msg) (Some msg) false).
    assert (<[ch := new]> (chans cr) !! ch = Some new) as Hnew
      by (apply list_lookup_insert_eq; by eapply lookup_lt_Some).
    split; cbn; try done.
    + intros h ch' [Hne Hm]%lookup_delete_Some. pose proof (H1 _ _ Hm) as Hch'.
      rewrite list_lookup_insert_ne by congruence. done.
    + intros tid c ch' Hc Ho. destruct (H2 _ _ _ Hc Ho) as [b Hb]. destruct (decide (ch' = ch)) as [->|].
      * rewrite Hnew. exists (Some msg). unfold new. congruence.
      * rewrite list_lookup_insert_ne by done. by exists b.
    + intros ch' h msg' b Hb. destruct (decide (ch' = ch)) as [->|].
      * rewrite Hnew in Hb. by injection Hb as <- <- _.
      * rewrite list_lookup_insert_ne in Hb by done. by eapply H4.
    + destruct (omap_buf_insert _ _ _ new Hch) as (rest & E1 & E2). rewrite E2, H6, E1. cbn. solve_Permutation.
    + intros tid c ch' Hc Ho. destruct (decide (ch' = ch)) as [->|Hne].
      * right. left. exists msg. destruct (H2 _ _ _ Hc Ho) as [b Hb]. rewrite Hnew. unfold new. congruence.
      * rewrite list_lookup_insert_ne by done.
        destruct (H7 _ _ _ Hc Ho) as [Hm|?]; [|by right]. left. rewrite lookup_delete_ne; [done|]. congruence.
  - eexists. split; [done|]. split; cbn; try done. rewrite H6. solve_Permutation.
Qed.

(** The owner has what it waited for. *)
Lemma receive_ok ch cr' msg :
  receive cr ch = Some (Ret (cr', msg)) -> (forall tid c, callers cr !! tid = Some c -> owned c <> Some ch) ->
  requester_ok cr'.
Proof.
  intros Hr Hno. destruct Hok as [H1 H2 H3 H4 H5 H6 H7]. unfold receive in Hr.
  destruct (chans cr !! ch) as [[h [m|] b]|] eqn:Hch; [|by destruct b|done]. injection Hr as <- ->.
  set (new := mkChan h None b).
  assert (<[ch := new]> (chans cr) !! ch = Some new) as Hnew
    by (apply list_lookup_insert_eq; by eapply lookup_lt_Some).
  split; cbn; try done.
  - intros h' ch' Hm. pose proof (H1 _ _ Hm). rewrite list_lookup_insert_ne by congruence. done.
  - intros tid c ch' Hc Ho. rewrite list_lookup_insert_ne by (intros ->; by destruct (Hno _ _ Hc)). by eapply H2.
  - intros ch' h' msg' b' Hb. destruct (decide (ch' = ch)) as [->|].
    + by rewrite Hnew in Hb.
    + rewrite list_lookup_insert_ne in Hb by done. by eapply H4.
  - destruct (omap_buf_insert _ _ _ new Hch) as (rest & E1 & E2). rewrite E2, H6, E1. cbn. solve_Permutation.
  - intros tid c ch' Hc Ho. rewrite list_lookup_insert_ne by (intros ->; by destruct (Hno _ _ Hc)). by eapply H7.
Qed.
End Steps.

(** A caller that returned owns nothing; its channel is nobody's. *)
Lemma disowned cr tid c c' ch :
  requester_ok cr -> callers cr !! tid = Some c -> owned c = Some ch -> owned c' = None ->
  forall t x, callers (set_caller cr tid c') !! t = Some x -> owned x <> Some ch.
Proof.
  intros Hok Hc Ho Hn t x. cbn [set_caller callers]. intros [[_ <-]|[Hne Hx]]%lookup_insert_Some Hx'; [congruence|].
  apply Hne. by eapply (rq_owner _ Hok).
Qed.

Lemma early_ok cr tid h ch :
  requester_ok cr -> callers cr !! tid = Some (Sent h ch) ->
  exists cr', handleCallMethod cr h ch = Ret cr' /\ requester_ok (set_caller cr' tid (Returned h EarlyReply)).
Proof.
  intros Hok Hc.
  assert (requester_ok (set_caller cr tid (Returned h EarlyReply))) as Hok1
    by (apply (set_caller_ok cr Hok tid (Sent h ch)); [done..|by right|done]).
  destruct ch as [ch|]; [|by exists cr]. cbn [handleCallMethod]. unfold close. cbn [set_map chans].
  destruct (rq_owned _ Hok tid (Sent h (Some ch)) ch Hc eq_refl) as [b Hch]. rewrite Hch.
  cbn [hash_of] in Hch |- *. eexists. split; [done|].
  assert (requester_ok (timeout (set_caller cr tid (Returned h EarlyReply)) h)) as Hok2
    by (apply (timeout_ok _ Hok1 tid (Returned h EarlyReply)); [apply lookup_insert_eq|done]).
  refine (close_ok _ Hok2 ch h b Hch _ _).
  - by eapply (disowned cr tid (Sent h (Some ch))).
  - intros h'. cbn. intros [Hne Hm]%lookup_delete_Some. pose proof (rq_map _ Hok _ _ Hm) as Hm'. rewrite Hch in Hm'. congruence.
Qed.

Lemma requester_step_ok cr cr' : requester_ok cr -> requester_step cr cr' -> requester_ok cr'.
Proof.
  intros Hok Hst. destruct Hst.
  - pose proof (call_ok _ Hok _ h H) as Hc. by rewrite H0 in Hc.
  - by apply saga_ok.
  - apply (set_caller_ok cr Hok tid (Sent h ch)); [done..|by right|done].
  - destruct (early_ok _ _ _ _ Hok H) as (cr1 & E & ?). congruence.
  - apply (set_caller_ok cr Hok tid (Sent h ch)); [done|..]; unfold handleRegisterResult;
      destruct ch; try case_bool_decide; cbn; auto; done.
  - assert (reqHash msg = h) as Hm.
    { destruct (rq_owned _ Hok tid (Waiting h ch) ch H eq_refl) as [b Hch]. unfold receive in H0. rewrite Hch in H0.
      destruct b as [m|]; [|done]. injection H0 as _ ->. by apply (rq_buf _ Hok _ _ _ _ Hch). }
    assert (requester_ok (set_caller cr tid (Returned h (Result msg)))) as Hok1.
    { apply (set_caller_ok cr Hok tid (Waiting h ch)); [done..|by right|]. by intros ? ? [= <- <-]. }
    apply (receive_ok (set_caller cr tid (Returned h (Result msg))) Hok1 ch _ msg).
    + unfold receive in H0 |- *. cbn [set_caller chans] in *. destruct (chans cr !! ch) as [[? [?|] []]|]; try done.
      all: injection H0 as <- ->; done.
    + by eapply (disowned cr tid (Waiting h ch)).
  - assert (requester_ok (set_caller cr tid (Returned h TimedOut))) as Hok1
      by (apply (set_caller_ok cr Hok tid (Waiting h ch)); [done..|by right|done]).
    apply (timeout_ok _ Hok1 tid (Returned h TimedOut)); [apply lookup_insert_eq|done].
  - destruct (result_ok _ Hok msg) as (cr1 & E & ?). congruence.
Qed.

Lemma requester_reach_ok cr : reach requester_step New cr -> requester_ok cr.
Proof. apply reach_invariant; [apply New_ok|apply requester_step_ok]. Qed.

(** C26: however calls, replies, results and timeouts interleave: handling a
    result never panics and never blocks with the lock held, nor does the early
    reply or the result a caller takes; a caller only gets the result of its
    own request; every result handled is in exactly one place: at a caller, in
    a channel, or passed on as unwanted; and a caller that waits, alone with
    its hash, has its result in the channel or gets it there when it comes. *)
Theorem requester_delivers cr :
  reach requester_step New cr ->
  (forall msg, ~ panics (result cr msg)) /\
  (forall tid h ch, callers cr !! tid = Some (Sent h ch) -> ~ panics (handleCallMethod cr h ch)) /\
  (forall tid h ch r, callers cr !! tid = Some (Waiting h ch) -> receive cr ch = Some r -> ~ panics r) /\
  (forall tid h msg, callers cr !! tid = Some (Returned h (Result msg)) -> reqHash msg = h) /\
  received cr ≡ₚ omap buf (chans cr) ++ taken cr ++ unwanted cr /\
  (forall tid h ch, callers cr !! tid = Some (Waiting h ch) ->
     (forall tid' c, callers cr !! tid' = Some c -> hash_of c = h -> tid' = tid) ->
     (exists cr' msg, receive cr ch = Some (Ret (cr', msg))) \/
     forall msg, reqHash msg = h -> exists cr', result cr msg = Ret cr' /\
       exists cr'', receive cr' ch = Some (Ret (cr'', msg))).
Proof.
  intros Hok%requester_reach_ok. split_and!.
  - intros msg. destruct (result_ok _ Hok msg) as (cr' & -> & _). by intros [].
  - intros tid h ch Hc. destruct (early_ok _ _ _ _ Hok Hc) as (cr' & -> & _). by intros [].
  - intros tid h ch r Hc Hr. destruct (rq_owned _ Hok tid (Waiting h ch) ch Hc eq_refl) as [b Hch].
    unfold receive in Hr. rewrite Hch in Hr. destruct b; [|done]. injection Hr as <-. by intros [].
  - apply (rq_result _ Hok).
  - apply (rq_where _ Hok).
  - intros tid h ch Hc Hone. destruct (rq_waits _ Hok tid _ ch Hc eq_refl) as [Hm|[[msg Hm]|(t & c & Ht & Hne & Hh)]].
    + right. intros msg Hmsg. pose proof (rq_map _ Hok _ _ Hm) as Hch. cbn [hash_of] in Hm, Hch.
      unfold result. rewrite Hmsg, Hm, Hch. eexists. split; [done|]. unfold receive. cbn [chans].
      rewrite list_lookup_insert_eq by (by eapply lookup_lt_Some). by eexists.
    + left. unfold receive. rewrite Hm. by do 2 eexists.
    + by destruct Hne; eapply Hone.
Qed.

Definition returned (c : caller) : bool := match c with Returned _ _ => true | _ => false end.

(** ** The theorems at work *)
Module SampleCall.
Import SampleMatch.

Definition h : Hash := reqHash response.
Definition sent : requester := set_caller (createResultWaiter New h).1 0 (Sent h (Some 0%nat)).
Definition waiting : requester := set_caller sent 0 (Waiting h 0).
Definition failed : requester := set_caller sent 0 (Returned h CallFailed).

Lemma sample_sent : reach requester_step New sent.
Proof. eapply reach_step; [apply reach_init|]. by apply (cs_call New 0 h (createResultWaiter New h).1 0). Qed.
Lemma sample_waiting : reach requester_step New waiting.
Proof.
  eapply reach_step; [apply sample_sent|].
  assert (Waiting h 0 = handleRegisterResult h h (Some 0%nat)) as E
    by (unfold handleRegisterResult; by rewrite bool_decide_eq_true_2).
  unfold waiting. rewrite E. by apply (cs_registered sent 0 h (Some 0%nat) h).
Qed.
Lemma sample_failed : reach requester_step New failed.
Proof. eapply reach_step; [apply sample_sent|]. by apply (cs_failed sent 0 h (Some 0%nat)). Qed.
Lemma only_caller c tid x : callers (set_caller sent 0 c) !! tid = Some x -> tid = 0%nat /\ x = c.
Proof.
  cbn [set_caller sent callers createResultWaiter fst set_map New].
  intros [[<- <-]|[Hne [[<- _]|[_ H]]%lookup_insert_Some]]%lookup_insert_Some; [done..|]. by rewrite lookup_empty in H.
Qed.

Lemma requester_delivers_witness :
  ~ panics (result waiting response) /\
  exists cr' cr'', result waiting response = Ret cr' /\ receive cr' 0 = Some (Ret (cr'', response)).
Proof.
  destruct (requester_delivers waiting sample_waiting) as (H1 & _ & _ & _ & _ & H6). split; [exact (H1 response)|].
  destruct (H6 0%nat h 0%nat) as [(cr' & msg & H)|H].
  - reflexivity.
  - intros tid' c [-> _]%only_caller _. reflexivity.
  - exfalso. cbn in H. discriminate H.
  - destruct (H response eq_refl) as (cr' & ? & cr'' & ?). exists cr', cr''. split; assumption.
Defined.
End SampleCall.

(** a call that fails after it was sent leaves its channel in the map: a
    result that still comes is put there, where nobody will take it, and is
    not passed to the logic runner. *)
Theorem failed_call_keeps_result : exists cr cr' msg,
  reach requester_step New cr /\ (forall tid c, callers cr !! tid = Some c -> returned c = true) /\
  result cr msg = Ret cr' /\ received cr' = [msg] /\ taken cr' = [] /\ unwanted cr' = [].
Proof.
  eexists SampleCall.failed, _, SampleMatch.response. split_and!; [apply SampleCall.sample_failed| |reflexivity..].
  by intros tid c [_ ->]%SampleCall.only_caller.
Qed.
