(* ===== verification/SeedManager.v ===== *)
(** * One-time seeds of the API (src/api/seedmanager/seedmanager.go)

    A client asks for a seed and signs its request with it; the seed is good
    once, within its time to live, and answers the pulse it was given in.
    Times are those of the clock when an operation holds the lock. *)
From S2P Require Import Prelude.

Abbreviation Seed := (list Z).
Definition SeedSize : nat := 32.
Definition DefaultTTL : Z := 600 * 10^9.

Record storedSeed : Type := mkStored { ts : Z; pulse : Z }.
Record SeedManager : Type := mkManager { seedPool : gmap Seed storedSeed; ttl : Z }.
Definition NewSpecified (ttl : Z) : SeedManager := mkManager ∅ ttl.
Definition New : SeedManager := NewSpecified DefaultTTL.

Definition Add (now : Z) (sm : SeedManager) (seed : Seed) (pn : Z) : SeedManager :=
  mkManager (<[seed := mkStored now pn]> (seedPool sm)) (ttl sm).
Definition isExpired (now : Z) (sm : SeedManager) (t : Z) : bool := ttl sm <? now - t.
Definition Pop (now : Z) (sm : SeedManager) (seed : Seed) : SeedManager * (Z * bool) :=
  match seedPool sm !! seed with
  | Some stored =>
      if negb (isExpired now sm (ts stored))
      then (mkManager (delete seed (seedPool sm)) (ttl sm), (pulse stored, true))
      else (sm, (0, false))
  | None => (sm, (0, false))
  end.
Definition deleteExpired (now : Z) (sm : SeedManager) : SeedManager :=
  mkManager (filter (fun x => isExpired now sm (ts x.2) = false) (seedPool sm)) (ttl sm).

Definition SeedFromBytes (slice : list Z) : option Seed :=
  if negb (length slice =? SeedSize)%nat then None else Some (take SeedSize slice).

(** ** Histories *)
Inductive op : Type :=
  | op_Add (now : Z) (seed : Seed) (pn : Z)
  | op_Pop (now : Z) (seed : Seed)
  | op_deleteExpired (now : Z).
Definition op_time (o : op) : Z :=
  match o with op_Add now _ _ => now | op_Pop now _ => now | op_deleteExpired now => now end.
Definition apply_op (sm : SeedManager) (o : op) : SeedManager :=
  match o with
  | op_Add now seed pn => Add now sm seed pn
  | op_Pop now seed => (Pop now sm seed).1
  | op_deleteExpired now => deleteExpired now sm
  end.
Definition run_ops (sm : SeedManager) (h : list op) : SeedManager := fold_left apply_op h sm.

Definition adds (seed : Seed) (o : op) : bool :=
  match o with op_Add _ s _ => bool_decide (s = seed) | _ => false end.
Definition pops (seed : Seed) (o : op) : bool :=
  match o with op_Pop _ s => bool_decide (s = seed) | _ => false end.

(** The seed was added at [t], and then neither added again nor taken. *)
Definition fresh (h : list op) (seed : Seed) (t pn : Z) : Prop :=
  exists h1 h2, h = h1 ++ op_Add t seed pn :: h2 /\ Forall (fun o => adds seed o = false /\ pops seed o = false) h2.

Lemma apply_ttl sm o : ttl (apply_op sm o) = ttl sm.
Proof.
  destruct o; [done| |done]. cbn. unfold Pop. destruct (seedPool sm !! seed); [|done]. by destruct (negb _).
Qed.
Lemma run_snoc sm h o : run_ops sm (h ++ [o]) = apply_op (run_ops sm h) o.
Proof. apply fold_left_app. Qed.
Lemma run_ttl sm h : ttl (run_ops sm h) = ttl sm.
Proof.
  revert sm. induction h as [|o h IH]; intros sm; [done|]. cbn. unfold run_ops in IH. by rewrite IH, apply_ttl.
Qed.

(** What an operation leaves of the seed. *)
Lemma apply_lookup sm o seed :
  seedPool (apply_op sm o) !! seed =
  match o with
  | op_Add now s pn => if bool_decide (s = seed) then Some (mkStored now pn) else seedPool sm !! seed
  | op_Pop now s => if bool_decide (s = seed) then st ← seedPool sm !! seed; guard (isExpired now sm (ts st) = true);; Some st
                    else seedPool sm !! seed
  | op_deleteExpired now => st ← seedPool sm !! seed; guard (isExpired now sm (ts st) = false);; Some st
  end.
Proof.
  destruct o as [now s pn|now s|now]; cbn.
  - case_bool_decide as E; [subst; by rewrite lookup_insert_eq|by rewrite lookup_insert_ne].
  - unfold Pop. case_bool_decide as E.
    + subst. destruct (seedPool sm !! seed) as [st|] eqn:Es; [|done]. cbn. destruct (isExpired now sm (ts st)); cbn.
      * by rewrite Es.
      * by rewrite lookup_delete_eq.
    + destruct (seedPool sm !! s) as [st|]; [|done]. destruct (negb _); [|done]. cbn. by rewrite lookup_delete_ne.
  - rewrite map_lookup_filter. destruct (seedPool sm !! seed); [|done]. cbn. by destruct (isExpired _ _ _).
Qed.

Lemma stored_fresh limit h seed t pn :
  seedPool (run_ops (NewSpecified limit) h) !! seed = Some (mkStored t pn) ->
  exists h1 h2, h = h1 ++ op_Add t seed pn :: h2 /\
    Forall (fun o => adds seed o = false /\ (pops seed o = true -> limit < op_time o - t)) h2.
Proof.
  induction h as [|o h IH] using rev_ind; [done|]. rewrite run_snoc, apply_lookup.
  set (sm := run_ops (NewSpecified limit) h) in *.
  assert (forall now, isExpired now sm t = true -> limit < now - t) as Hexp.
  { intros now. unfold isExpired. replace (ttl sm) with limit by (symmetry; apply run_ttl). apply Z.ltb_lt. }
  assert (adds seed o = false -> (pops seed o = true -> limit < op_time o - t) -> seedPool sm !! seed = Some (mkStored t pn) ->
    exists h1 h2, h ++ [o] = h1 ++ op_Add t seed pn :: h2 /\
      Forall (fun o => adds seed o = false /\ (pops seed o = true -> limit < op_time o - t)) h2) as Hkeep.
  { intros Ha Hp Hs. destruct (IH Hs) as (h1 & h2 & -> & Hh). exists h1, (h2 ++ [o]).
    split; [by rewrite <- (assoc_L (++))|]. apply list.Forall_app. split; [done|]. by repeat constructor. }
  destruct o as [now s pn'|now s|now]; cbn [adds pops op_time] in Hkeep.
  - case_bool_decide as E; [|by apply Hkeep]. subst. intros [= -> ->]. by exists h, [].
  - case_bool_decide as E; [|by apply Hkeep]. destruct (seedPool sm !! seed) as [st|]; [|done]. cbn.
    case_guard as Hx; [|done]. intros [= ->]. apply Hkeep; [done| |done]. intros _. by apply Hexp.
  - destruct (seedPool sm !! seed) as [st|]; [|done]. cbn. case_guard as Hx; [|done]. intros [= ->]. by apply Hkeep.
Qed.

Lemma fresh_stored limit h seed t pn now :
  fresh h seed t pn -> Forall (fun o => op_time o <= now) h -> now - t <= limit ->
  seedPool (run_ops (NewSpecified limit) h) !! seed = Some (mkStored t pn).
Proof.
  intros (h1 & h2 & -> & Hh) Ht Hn.
  induction h2 as [|o h2 IH] using rev_ind.
  - rewrite run_snoc, apply_lookup. by rewrite bool_decide_eq_true_2.
  - rewrite app_comm_cons, (assoc_L (++)) in Ht |- *. rewrite run_snoc, apply_lookup.
    apply list.Forall_app in Ht as [Ht Ho]. apply list.Forall_app in Hh as [Hh Hp].
    rewrite (IH Hh Ht). set (sm := run_ops _ _). apply list.Forall_cons in Ho as [Ho _].
    apply list.Forall_cons in Hp as [[Ha Hp] _].
    assert (isExpired (op_time o) sm t = false) as He.
    { unfold isExpired. replace (ttl sm) with limit by (symmetry; apply run_ttl). apply Z.ltb_ge. lia. }
    destruct o as [now' s pn'|now' s|now']; cbn in Ha, Hp, He |- *; [by rewrite Ha|by rewrite Hp|].
    by rewrite He.
Qed.

(** after any operations with times up to now, [Pop] answers a pulse exactly
    if the seed was added with this pulse, within the time to live, and neither
    added again nor asked for since; so a seed is good once, and when the
    expired seeds were deleted makes no difference.  Else it answers no. *)
Theorem seed_is_good_once limit h now seed pn :
  Forall (fun o => op_time o <= now) h ->
  ((Pop now (run_ops (NewSpecified limit) h) seed).2 = (pn, true) <->
   exists t, fresh h seed t pn /\ now - t <= limit) /\
  ((Pop now (run_ops (NewSpecified limit) h) seed).2 = (0, false) \/
   exists pn', (Pop now (run_ops (NewSpecified limit) h) seed).2 = (pn', true)).
Proof.
  intros Ht. unfold Pop. pose proof (run_ttl (NewSpecified limit) h) as Hl.
  set (sm := run_ops (NewSpecified limit) h) in *. cbn in Hl. unfold isExpired. rewrite Hl. split.
  - split.
    + destruct (seedPool sm !! seed) as [[t pn']|] eqn:E; [|done]. cbn.
      destruct (Z.ltb_spec limit (now - t)); [done|]. intros [= ->]. exists t. split; [|done].
      destruct (stored_fresh _ _ _ _ _ E) as (h1 & h2 & -> & Hh). exists h1, h2. split; [done|].
      apply list.Forall_app in Ht as [_ [_ Ht]%list.Forall_cons].
      rewrite list.Forall_forall in Hh, Ht |- *. intros o Ho. destruct (Hh _ Ho) as [? Hp]. split; [done|].
      destruct (pops seed o); [|done]. specialize (Hp eq_refl). specialize (Ht _ Ho). cbn in Ht. lia.
    + intros (t & Hf & Hn). assert (seedPool sm !! seed = Some (mkStored t pn)) as E by by eapply fresh_stored.
      rewrite E. cbn. destruct (Z.ltb_spec limit (now - t)); [lia|done].
  - destruct (seedPool sm !! seed) as [st|]; [|by left]. destruct (negb _); [right|by left]. by eexists.
Qed.

(** ** The theorem at work *)
Module SampleSeeds.
Definition seed : Seed := replicate 32 7.
Definition history : list op := [op_Add 1 seed 65537; op_deleteExpired 5; op_Pop 6 (replicate 32 8)].

Lemma seed_is_good_once_witness : Forall (fun o => op_time o <= 9) history /\
  (Pop 9 (run_ops New history) seed).2 = (65537, true).
Proof.
  assert (Forall (fun o => op_time o <= 9) history) as Ht by (repeat constructor; cbn; lia).
  split; [exact Ht|]. apply (seed_is_good_once DefaultTTL history 9 seed 65537 Ht). exists 1. split.
  - exists [], [op_deleteExpired 5; op_Pop 6 (replicate 32 8)]. split; [reflexivity|]. repeat constructor.
  - unfold DefaultTTL. lia.
Defined.
End SampleSeeds.
