(* ===== verification/Store.v ===== *)
(** * The key-value store of the heavy node (src/insolar/store)

    A database is a table from byte strings to byte strings, walked in the
    order of its keys.  A client has a scope, the first byte of its keys, and
    an iterator stays in the scope of its pivot.  Reads and writes succeed; a
    transaction is applied as a whole or, when its function fails, not at all
    (the documented behaviour of the third-party database). *)
From stdpp Require Import sorting.
From S2P Require Import Prelude Pulse Reference.

Abbreviation bytes := (list Z).
Abbreviation DB := (gmap (list Z) (list Z)).

(** ** db.go *)
Definition ScopePulse : Z := 1.
Definition ScopeRecord : Z := 2.
Definition ScopeJetDrop : Z := 3.
Definition ScopeIndex : Z := 4.
Definition ScopeLastKnownIndexPN : Z := 5.
Definition ScopeJetTree : Z := 7.
Definition ScopeRecordPosition : Z := 10.
Definition ScopeBackupStart : Z := 11.
Definition ScopeNodeHistory : Z := 13.

Class Key (K : Type) : Type := {
  Scope : K -> Z;
  ID : K -> bytes;
}.
Definition fullKey `{Key K} (key : K) : bytes := Scope key :: ID key.

Definition store_ErrNotFound : error := Errorf "value not found".

(** The code generated for a protobuf message: what is written can be read
    back. *)
Class Codec (A : Type) : Type := {
  Marshal : A -> result bytes;
  Unmarshal : bytes -> result A;
  Unmarshal_Marshal a b : Marshal a = Good b -> Unmarshal b = Good a;
}.

(** Every value can be written. *)
Class TotalCodec (A : Type) `{Codec A} : Prop := Marshal_total : forall a, exists b, Marshal a = Good b.

(** A codec by counting the values, for concrete runs. *)
Definition counted_Marshal {A} `{Countable A} (a : A) : result bytes := Good [Z.pos (encode a)].
Definition counted_Unmarshal {A} `{Countable A} (b : bytes) : result A :=
  match b with
  | [Z.pos n] => match decode n with Some a => Good a | None => Fail (Errorf "unmarshal") end
  | _ => Fail (Errorf "unmarshal")
  end.
Lemma counted_roundtrip {A} `{Countable A} (a : A) b : counted_Marshal a = Good b -> counted_Unmarshal b = Good a.
Proof. unfold counted_Marshal. intros [= <-]. cbn. by rewrite decode_encode. Qed.
Definition counted_codec {A} `{Countable A} : Codec A :=
  {| Marshal := counted_Marshal; Unmarshal := counted_Unmarshal; Unmarshal_Marshal := counted_roundtrip |}.
Lemma counted_total {A} `{Countable A} : TotalCodec A (H := counted_codec).
Proof. intros a. by eexists. Qed.

(** A codec by a table of values, for concrete runs. *)
Fixpoint index_in {A} `{EqDecision A} (a : A) (tbl : list A) : option nat :=
  match tbl with
  | [] => None
  | b :: tbl' => if decide (a = b) then Some 0%nat else S <$> index_in a tbl'
  end.
Lemma index_in_lookup {A} `{EqDecision A} (a : A) tbl n : index_in a tbl = Some n -> tbl !! n = Some a.
Proof.
  revert n. induction tbl as [|b tbl IH]; intros n; [done|]. cbn.
  destruct (decide (a = b)) as [->|]; [by intros [= <-]|].
  destruct (index_in a tbl) as [m|]; [|done]. intros [= <-]. by apply IH.
Qed.
Definition table_Marshal {A} `{EqDecision A} (tbl : list A) (a : A) : result bytes :=
  match index_in a tbl with Some n => Good [Z.of_nat n] | None => Fail (Errorf "marshal") end.
Definition table_Unmarshal {A} (tbl : list A) (b : bytes) : result A :=
  match b with
  | [n] => match tbl !! Z.to_nat n with Some a => Good a | None => Fail (Errorf "unmarshal") end
  | _ => Fail (Errorf "unmarshal")
  end.
Lemma table_roundtrip {A} `{EqDecision A} (tbl : list A) a b :
  table_Marshal tbl a = Good b -> table_Unmarshal tbl b = Good a.
Proof.
  unfold table_Marshal. destruct (index_in a tbl) as [n|] eqn:Ei; [|done]. intros [= <-].
  unfold table_Unmarshal. by rewrite Nat2Z.id, (index_in_lookup a tbl n Ei).
Qed.
Definition table_codec {A} `{EqDecision A} (tbl : list A) : Codec A :=
  {| Marshal := table_Marshal tbl; Unmarshal := table_Unmarshal tbl; Unmarshal_Marshal := table_roundtrip tbl |}.

(** ** badger.go *)
Definition store_Get `{Key K} (db : DB) (key : K) : result bytes :=
  match db !! fullKey key with Some v => Good v | None => Fail store_ErrNotFound end.
Definition store_Set `{Key K} (db : DB) (key : K) (value : bytes) : DB :=
  <[fullKey key := value]> db.
Definition store_Delete `{Key K} (db : DB) (key : K) : DB := delete (fullKey key) db.

(** [Backend().Update(func(txn) error)] *)
Definition store_Update (db : DB) (fn : DB -> result DB) : DB * option error :=
  match fn db with Good db' => (db', None) | Fail e => (db, Some e) end.

(** *** Iterators: a snapshot, in the order of the keys *)
Definition bytes_le (a b : bytes) : Prop := bytesCompare a b <= 0.
#[export] Instance bytes_le_dec : RelDecision bytes_le.
Proof. intros a b. unfold bytes_le. apply _. Defined.

Definition item_le (a b : bytes * bytes) : Prop := bytes_le a.1 b.1.
#[export] Instance item_le_dec : RelDecision item_le.
Proof. intros a b. unfold item_le. apply _. Defined.

Definition items (db : DB) : list (bytes * bytes) := merge_sort item_le (map_to_list db).

Fixpoint take_while {A} (p : A -> bool) (l : list A) : list A :=
  match l with
  | [] => []
  | x :: l' => if p x then x :: take_while p l' else []
  end.
Fixpoint drop_while {A} (p : A -> bool) (l : list A) : list A :=
  match l with
  | [] => []
  | x :: l' => if p x then drop_while p l' else l
  end.

(** [Seek]: from the first item that is not before the key. *)
Definition Seek (db : DB) (prefix : bytes) (reversed : bool) : list (bytes * bytes) :=
  if reversed then drop_while (fun kv => bool_decide (0 < bytesCompare kv.1 prefix)) (reverse (items db))
  else drop_while (fun kv => bool_decide (bytesCompare kv.1 prefix < 0)) (items db).

(** [ValidForPrefix] for the one byte of a scope. *)
Definition ValidForPrefix (scope : Z) (kv : bytes * bytes) : bool :=
  match kv.1 with s :: _ => s =? scope | [] => false end.

(** What [Next], [Key] and [Value] go through. *)
Definition NewIterator `{Key K} (db : DB) (pivot : K) (reversed : bool) : list (bytes * bytes) :=
  (fun kv => (drop 1 kv.1, kv.2)) <$>
  take_while (ValidForPrefix (Scope pivot)) (Seek db (fullKey pivot) reversed).

(** The loop of every [TruncateHead]: delete the keys an iterator visits (those
    that [p] does not skip), as the storage decodes them. *)
Definition delete_visited `{Key K} `{Key L} (db : DB) (pivot : K) (p : bytes -> bool)
    (newKey : bytes -> L) : DB :=
  foldl (fun db kv => if p kv.1 then store_Delete db (newKey kv.1) else db) db
    (NewIterator db pivot false).

(** The same where decoding a key may panic. *)
Fixpoint delete_decoded `{Key L} (newKey : bytes -> go L) (db : DB) (visited : list (bytes * bytes)) : go DB :=
  match visited with
  | [] => Ret db
  | (raw, _) :: visited' =>
      key ← newKey raw;
      delete_decoded newKey (store_Delete db key) visited'
  end.

(** ** Walking a sorted list *)
Lemma take_while_filter {A} (R : A -> A -> Prop) (P : A -> Prop) `{!forall x, Decision (P x)} (l : list A) :
  StronglySorted R l -> (forall x y, x ∈ l -> y ∈ l -> R x y -> P y -> P x) ->
  take_while (fun x => bool_decide (P x)) l = filter P l.
Proof.
  induction 1 as [|x l Hl IH Hx]; intros Hdown; [done|]. cbn [take_while drop_while].
  assert (Hdown' : forall y z, y ∈ l -> z ∈ l -> R y z -> P z -> P y) by (intros y z ??; apply Hdown; by right).
  destruct (decide (P x)) as [HP|HP].
  - rewrite bool_decide_eq_true_2, filter_cons_True by done. f_equal. by apply IH.
  - rewrite bool_decide_eq_false_2, filter_cons_False by done. symmetry. apply filter_none.
    intros y Hy HPy. rewrite list.Forall_forall in Hx. apply HP, (Hdown x y); [by left|by right|by apply Hx|done].
Qed.

Lemma sorted_filter {A} (R : A -> A -> Prop) (P : A -> Prop) `{!forall x, Decision (P x)} (l : list A) :
  StronglySorted R l -> StronglySorted R (filter P l).
Proof.
  induction 1 as [|x l Hl IH Hx]; [constructor|]. rewrite filter_cons. destruct (decide (P x)); [|done].
  constructor; [done|]. rewrite !list.Forall_forall in *. intros y [_ Hy]%list_elem_of_filter. by apply Hx.
Qed.

Lemma drop_while_filter {A} (R : A -> A -> Prop) (P : A -> Prop) `{!forall x, Decision (P x)} (l : list A) :
  StronglySorted R l -> (forall x y, x ∈ l -> y ∈ l -> R x y -> P y -> P x) ->
  drop_while (fun x => bool_decide (P x)) l = filter (fun x => ~ P x) l.
Proof.
  induction 1 as [|x l Hl IH Hx]; intros Hdown; [done|]. cbn [take_while drop_while].
  assert (Hdown' : forall y z, y ∈ l -> z ∈ l -> R y z -> P z -> P y) by (intros y z ??; apply Hdown; by right).
  destruct (decide (P x)) as [HP|HP].
  - rewrite bool_decide_eq_true_2, filter_cons_False by tauto. by apply IH.
  - rewrite bool_decide_eq_false_2 by done. symmetry. apply filter_all.
    intros y [->|Hy]%elem_of_cons; [done|]. intros HPy. rewrite list.Forall_forall in Hx.
    apply HP, (Hdown x y); [by left|by right|by apply Hx|done].
Qed.

(** ** The order of keys *)
#[export] Instance bytes_le_trans : Transitive bytes_le.
Proof. intros a b c. apply bytesCompare_trans. Qed.
#[export] Instance item_le_trans : Transitive item_le.
Proof. intros a b c. apply bytes_le_trans. Qed.
#[export] Instance item_le_total : Total item_le.
Proof.
  intros a b. unfold item_le, bytes_le. rewrite (bytesCompare_antisym a.1 b.1). lia.
Qed.

Lemma bytesCompare_cons s a b : bytesCompare (s :: a) (s :: b) = bytesCompare a b.
Proof. cbn. by rewrite Z.ltb_irrefl. Qed.

(** A pulse in front decides, the rest breaks ties. *)
Lemma bytesCompare_pulse p q x y :
  0 <= p < 2^32 -> 0 <= q < 2^32 ->
  bytesCompare (be32 p ++ x) (be32 q ++ y) =
  if p <? q then -1 else if q <? p then 1 else bytesCompare x y.
Proof.
  intros Hp Hq. rewrite bytesCompare_app, bytesCompare_be32 by done.
  destruct (p <? q); [done|]. by destruct (q <? p).
Qed.

Lemma pulse_head_le p q x :
  0 <= p < 2^32 -> 0 <= q < 2^32 -> bytesCompare (be32 p) (be32 q ++ x) <= 0 <-> p <= q.
Proof.
  intros Hp Hq. rewrite <- (app_nil_r (be32 p)), bytesCompare_pulse by done.
  destruct (Z.ltb_spec p q); [lia|]. destruct (Z.ltb_spec q p); [lia|]. destruct x; cbn; lia.
Qed.

Lemma items_sorted db : StronglySorted item_le (items db).
Proof. apply StronglySorted_merge_sort; apply _. Qed.

Lemma elem_of_items db k v : (k, v) ∈ items db <-> db !! k = Some v.
Proof. unfold items. by rewrite merge_sort_Permutation, elem_of_map_to_list. Qed.

(** An iterator visits exactly the items of its scope that are not before its
    pivot, in order. *)
Lemma NewIterator_filter `{Key K} db (pivot : K) :
  NewIterator db pivot false =
  (fun kv => (drop 1 kv.1, kv.2)) <$>
  filter (fun kv => ValidForPrefix (Scope pivot) kv = true)
    (filter (fun kv => ~ bytesCompare kv.1 (fullKey pivot) < 0) (items db)).
Proof.
  unfold NewIterator, Seek. f_equal.
  rewrite (drop_while_filter item_le (fun kv => bytesCompare kv.1 (fullKey pivot) < 0)).
  - set (l := filter _ (items db)).
    assert (Hsorted : StronglySorted item_le l) by apply sorted_filter, items_sorted.
    assert (Hge : forall x, x ∈ l -> bytes_le (fullKey pivot) x.1).
    { intros x [Hx _]%list_elem_of_filter. unfold bytes_le. rewrite bytesCompare_antisym. lia. }
    clearbody l. rewrite <- (take_while_filter item_le (fun kv => ValidForPrefix (Scope pivot) kv = true)).
    + clear. induction l as [|x l IH]; [done|]. cbn. rewrite IH. by destruct (ValidForPrefix _ x).
    + done.
    + intros [[|s x] v] [[|t y] w] Hx Hy Hxy; unfold ValidForPrefix; cbn; [done| |done|].
      * specialize (Hge _ Hx). done.
      * rewrite !Z.eqb_eq. intros ->. specialize (Hge _ Hx).
        unfold item_le, bytes_le, fullKey in *. cbn in *.
        destruct (Z.ltb_spec s (Scope pivot)), (Z.ltb_spec (Scope pivot) s); lia.
  - apply items_sorted.
  - intros x y _ _ Hxy Hy. unfold item_le, bytes_le in Hxy. cbv beta in *.
    pose proof (bytesCompare_trans x.1 y.1 _ Hxy (Z.lt_le_incl _ _ Hy)) as Ht.
    assert (bytesCompare x.1 (fullKey pivot) <> 0); [|lia]. intros He%bytesCompare_eq.
    rewrite He in Hxy. pose proof (bytesCompare_antisym y.1 (fullKey pivot)). lia.
Qed.

Lemma elem_of_iterator `{Key K} db (pivot : K) k v :
  (k, v) ∈ NewIterator db pivot false <->
  db !! (Scope pivot :: k) = Some v /\ bytesCompare (ID pivot) k <= 0.
Proof.
  rewrite NewIterator_filter, list_elem_of_fmap. split.
  - intros ([k' v'] & [= -> ->] & [Hs [Hp Hi]%list_elem_of_filter]%list_elem_of_filter).
    destruct k' as [|s k']; [done|]. apply Z.eqb_eq in Hs as ->. cbn [fst]. rewrite skipn_cons, skipn_O.
    unfold fullKey in Hp. cbn [fst] in Hp. rewrite bytesCompare_cons, bytesCompare_antisym in Hp.
    split; [by apply elem_of_items|lia].
  - intros [Hk Hp]. exists (Scope pivot :: k, v). split; [done|].
    rewrite !list_elem_of_filter. split_and!; [apply Z.eqb_refl| |by apply elem_of_items].
    unfold fullKey. cbn [fst]. rewrite bytesCompare_cons, bytesCompare_antisym. lia.
Qed.

Lemma NewIterator_sorted `{Key K} db (pivot : K) : StronglySorted item_le (NewIterator db pivot false).
Proof.
  rewrite NewIterator_filter. set (l := filter _ (filter _ (items db))).
  assert (Hl : StronglySorted item_le l) by apply sorted_filter, sorted_filter, items_sorted.
  assert (Hs : forall kv, kv ∈ l -> ValidForPrefix (Scope pivot) kv = true)
    by (by intros kv [? _]%list_elem_of_filter).
  clearbody l. induction Hl as [|kv l Hl IH Hx]; [constructor|]. cbn. constructor.
  - apply IH. intros x Hx'. apply Hs. by right.
  - apply list.Forall_forall. intros kv' (y & -> & Hy)%list_elem_of_fmap.
    rewrite list.Forall_forall in Hx. specialize (Hx y Hy).
    pose proof (Hs kv ltac:(by left)) as H1. pose proof (Hs y ltac:(by right)) as H2.
    unfold ValidForPrefix in H1, H2. unfold item_le, bytes_le in *. destruct kv as [[|s k] v], y as [[|t k'] v']; try done.
    cbn [fst] in *. apply Z.eqb_eq in H1 as ->, H2 as ->. by rewrite bytesCompare_cons in Hx.
Qed.

Lemma NewIterator_NoDup `{Key K} db (pivot : K) : NoDup (NewIterator db pivot false).*1.
Proof.
  rewrite NewIterator_filter, <- list_fmap_compose. set (l := filter _ (filter _ (items db))).
  assert (Hn : NoDup l.*1).
  { apply (sublist_NoDup _ (items db).*1).
    - unfold items. rewrite merge_sort_Permutation. apply NoDup_fst_map_to_list.
    - apply fmap_sublist. subst l. etransitivity; apply sublist_filter. }
  assert (Hs : forall kv, kv ∈ l -> ValidForPrefix (Scope pivot) kv = true)
    by (by intros kv [? _]%list_elem_of_filter).
  clearbody l. induction l as [|kv l IH]; [constructor|]. cbn in Hn |- *.
  apply list.NoDup_cons in Hn as [Hx Hn]. apply list.NoDup_cons. split.
  - intros (y & Ey & Hy)%list_elem_of_fmap. cbn in Ey. apply Hx, list_elem_of_fmap. exists y. split; [|done].
    pose proof (Hs kv ltac:(by left)) as H1. pose proof (Hs y ltac:(by right)) as H2. unfold ValidForPrefix in H1, H2.
    destruct kv as [[|s k] v], y as [[|t k'] v']; try done. cbn [fst] in *.
    apply Z.eqb_eq in H1 as ->, H2 as ->. rewrite !skipn_cons, !skipn_O in Ey. by rewrite Ey.
  - apply IH; [done|]. intros x Hx'. apply Hs. by right.
Qed.

(** Deleting what was visited removes exactly the head of the scope. *)
Definition in_head (s : Z) (pivot : bytes) (p : bytes -> bool) (fk : bytes) : Prop :=
  match fk with t :: id => t = s /\ bytes_le pivot id /\ p id = true | [] => False end.
#[export] Instance in_head_dec s pivot p fk : Decision (in_head s pivot p fk).
Proof. destruct fk; cbn; apply _. Defined.

Lemma foldl_delete_lookup {A} (p : A -> bool) (f : A -> bytes) (l : list A) (db : DB) k :
  foldl (fun db x => if p x then delete (f x) db else db) db l !! k =
  if existsb (fun x => p x && bool_decide (f x = k)) l then None else db !! k.
Proof.
  revert db. induction l as [|x l IH]; intros db; [done|]. cbn [foldl existsb]. rewrite IH. clear IH.
  destruct (existsb _ l); [by rewrite orb_true_r|]. rewrite orb_false_r.
  destruct (p x); [|done]. cbn [andb]. case_bool_decide as Hx.
  - by rewrite Hx, lookup_delete_eq.
  - by rewrite lookup_delete_ne.
Qed.

(** Deleting the visited keys themselves. *)
Definition delete_items (s : Z) (p : bytes -> bool) (db : DB) (l : list (bytes * bytes)) : DB :=
  foldl (fun db kv => if p kv.1 then delete (s :: kv.1) db else db) db l.

Lemma delete_items_lookup `{Key K} (db : DB) (pivot : K) p fk :
  delete_items (Scope pivot) p db (NewIterator db pivot false) !! fk =
  if decide (in_head (Scope pivot) (ID pivot) p fk) then None else db !! fk.
Proof.
  unfold delete_items. rewrite (foldl_delete_lookup (fun kv => p kv.1) (fun kv => Scope pivot :: kv.1)).
  destruct (existsb _ _) eqn:E.
  - apply existsb_exists in E as ([k v] & Hin%list_elem_of_In & [Hp <-%bool_decide_eq_true]%andb_true_iff).
    apply elem_of_iterator in Hin as [Hk Hle]. by rewrite decide_True.
  - destruct (decide (in_head _ _ _ _)) as [Hin|]; [|done].
    destruct fk as [|s k]; [done|]. destruct Hin as (-> & Hle & Hp).
    destruct (db !! _) as [v|] eqn:Ev; [|done].
    rewrite (proj2 (existsb_exists _ _)) in E; [done|]. exists (k, v). cbn [fst].
    by rewrite <- list_elem_of_In, elem_of_iterator, andb_true_iff, bool_decide_eq_true.
Qed.

Lemma delete_decoded_items `{Key L} (newKey : bytes -> go L) s db visited :
  (forall raw v, (raw, v) ∈ visited -> exists key, newKey raw = Ret key /\ fullKey key = s :: raw) ->
  delete_decoded newKey db visited = Ret (delete_items s (fun _ => true) db visited).
Proof.
  revert db. induction visited as [|[raw v] visited IH]; intros db Hall; [done|]. cbn [delete_decoded].
  destruct (Hall raw v) as (key & Ek & Ef); [by left|]. rewrite Ek. cbn [mbind go_bind].
  unfold store_Delete. rewrite Ef. apply IH. intros raw' v' Hin. apply (Hall raw' v'). by right.
Qed.

Lemma delete_visited_lookup `{Key K} `{Key L} (db : DB) (pivot : K) p (newKey : bytes -> L) fk :
  (forall k v, db !! (Scope pivot :: k) = Some v -> bytes_le (ID pivot) k -> p k = true ->
     fullKey (newKey k) = Scope pivot :: k) ->
  delete_visited db pivot p newKey !! fk =
  if decide (in_head (Scope pivot) (ID pivot) p fk) then None else db !! fk.
Proof.
  intros Hkey. rewrite <- delete_items_lookup. unfold delete_visited, delete_items, store_Delete. f_equal.
  assert (Hall : forall k v, (k, v) ∈ NewIterator db pivot false -> p k = true ->
    fullKey (newKey k) = Scope pivot :: k).
  { intros k v [Hk Hle]%elem_of_iterator. by apply (Hkey k v). }
  generalize dependent (NewIterator db pivot false). clear Hkey. intros l Hall. revert db.
  induction l as [|[k v] l IH]; intros db; [done|]. cbn [foldl fst].
  destruct (p k) eqn:E; [rewrite (Hall k v) by (by left || done)|]; apply IH; intros k' v' Hin; apply (Hall k' v'); by right.
Qed.

(** ** A scope as a table

    A client that stores every value under its own key, and nothing else in
    its scope, has a finite map there. *)
Class TableKey (K : Type) `{Key K} : Type := {
  scope_of : Z;
  key_ok : K -> Prop;
  Scope_key k : Scope k = scope_of;
  ID_inj k k' : key_ok k -> key_ok k' -> ID k = ID k' -> k = k';
}.

Section Table.
Context `{TableKey K} `{Countable K} `{Codec A}.
Implicit Types (db : DB) (m : gmap K A).

Record has_table (db : DB) (m : gmap K A) : Prop := {
  ht_in k a : m !! k = Some a -> key_ok k /\ exists v, Marshal a = Good v /\ db !! fullKey k = Some v;
  ht_only raw v : db !! (scope_of :: raw) = Some v -> exists k a, m !! k = Some a /\ raw = ID k;
}.

Lemma fullKey_inj k k' : key_ok k -> key_ok k' -> fullKey k = fullKey k' -> k = k'.
Proof. intros Hk Hk' E. apply ID_inj; [done..|]. unfold fullKey in E. by injection E. Qed.

Lemma has_table_empty : has_table ∅ ∅.
Proof. split; [intros k a E|intros raw v E]; by rewrite lookup_empty in E. Qed.

(** Reading answers what the table has. *)
Lemma has_table_Get db m k :
  has_table db m -> key_ok k ->
  match m !! k with
  | Some a => exists v, Marshal a = Good v /\ store_Get db k = Good v
  | None => store_Get db k = Fail store_ErrNotFound
  end.
Proof.
  intros [Hin Honly] Hk. unfold store_Get. destruct (m !! k) as [a|] eqn:Em.
  - destruct (Hin k a Em) as (_ & v & Ev & ->). by exists v.
  - destruct (db !! fullKey k) as [v|] eqn:Ek; [|done]. exfalso. unfold fullKey in Ek. rewrite Scope_key in Ek.
    destruct (Honly (ID k) v Ek) as (k' & a & Em' & E). destruct (Hin k' a Em') as [Hk' _].
    apply ID_inj in E as ->; [|done..]. congruence.
Qed.

Lemma has_table_Set db m k a v :
  has_table db m -> key_ok k -> Marshal a = Good v -> has_table (store_Set db k v) (<[k := a]> m).
Proof.
  intros [Hin Honly] Hk Ev. unfold store_Set. split.
  - intros k' a'. rewrite lookup_insert. destruct (decide (k = k')) as [<-|Hne].
    + intros [= <-]. split; [done|]. exists v. by rewrite lookup_insert_eq.
    + intros Em. destruct (Hin k' a' Em) as (Hk' & v' & Ev' & E'). split; [done|]. exists v'. split; [done|].
      rewrite lookup_insert_ne; [done|]. by intros E%(fullKey_inj k k').
  - intros raw v'. rewrite lookup_insert. destruct (decide (fullKey k = _)) as [E|Hne].
    + intros _. exists k, a. rewrite lookup_insert_eq. split; [done|]. unfold fullKey in E. by injection E.
    + intros (k' & a' & Em & ->)%Honly. exists k', a'. split; [|done]. rewrite lookup_insert_ne; [done|].
      intros ->. apply Hne. unfold fullKey. by rewrite Scope_key.
Qed.

(** Only the keys of the scope count. *)
Lemma has_table_frame db db' m :
  (forall raw, db' !! (scope_of :: raw) = db !! (scope_of :: raw)) -> has_table db m -> has_table db' m.
Proof.
  intros Hf [Hin Honly]. split.
  - intros k a Em. destruct (Hin k a Em) as (Hk & v & Ev & E). split; [done|]. exists v. split; [done|].
    revert E. unfold fullKey. by rewrite Scope_key, Hf.
  - intros raw v. rewrite Hf. apply Honly.
Qed.

(** Truncating drops the keys that are not before the pivot. *)
Lemma has_table_truncate `{Key P} db m (pivot : P) (newKey : bytes -> K)
    (before : K * A -> Prop) `{!forall kv, Decision (before kv)} :
  has_table db m -> Scope pivot = scope_of ->
  (forall k, key_ok k -> ID (newKey (ID k)) = ID k) ->
  (forall k a, key_ok k -> bytes_le (ID pivot) (ID k) <-> ~ before (k, a)) ->
  has_table (delete_visited db pivot (fun _ => true) newKey) (filter before m).
Proof.
  intros [Hin Honly] Hs Hnew Hle.
  assert (Hlook : forall fk, delete_visited db pivot (fun _ => true) newKey !! fk =
    if decide (in_head scope_of (ID pivot) (fun _ => true) fk) then None else db !! fk).
  { intros fk. rewrite <- Hs. apply delete_visited_lookup. intros raw v Hraw _ _. rewrite Hs in Hraw.
    destruct (Honly raw v Hraw) as (k & a & Em & ->). destruct (Hin k a Em) as [Hk _].
    unfold fullKey. by rewrite Scope_key, Hs, Hnew. }
  split.
  - intros k a [Em Hb]%map_lookup_filter_Some. destruct (Hin k a Em) as (Hk & v & Ev & Edb).
    split; [done|]. exists v. split; [done|]. rewrite Hlook, decide_False; [done|]. cbn.
    intros (_ & Hp & _). by apply (Hle k a Hk) in Hp.
  - intros raw v. rewrite Hlook. destruct (decide _) as [|Hout]; [done|].
    intros (k & a & Em & ->)%Honly. exists k, a. split; [|done]. apply map_lookup_filter_Some. split; [done|].
    destruct (Hin k a Em) as [Hk _]. destruct (decide (before (k, a))) as [|Hn]; [done|].
    destruct Hout. cbn. split; [done|]. split; [|done]. by apply (Hle k a Hk).
Qed.
End Table.

(** A pulse as a key. *)
Lemma pulse_key_le p q x :
  0 <= p < 2^32 -> 0 <= q < 2^32 -> bytes_le (be32 p) (be32 q ++ x) <-> ~ q < p.
Proof. intros Hp Hq. unfold bytes_le. rewrite pulse_head_le by done. lia. Qed.

(** A table with one value per pulse. *)
Section PulseTable.
Context `{TableKey K} `{Countable K} `{Codec A}.
Context (mk : Z -> K) (pulse_of : K -> Z).
Context (mk_pulse : forall k, mk (pulse_of k) = k) (pulse_mk : forall pn, pulse_of (mk pn) = pn).
Context (mk_ID : forall pn, ID (mk pn) = be32 pn).
Context (mk_ok : forall pn, key_ok (mk pn) <-> 0 <= pn < 2^32).

Lemma mk_inj : Inj (=) (=) mk.
Proof using pulse_mk. intros p q E. by rewrite <- (pulse_mk p), E, pulse_mk. Qed.

Definition has_pulses (db : DB) (m : gmap Z A) : Prop := has_table db (kmap (M2:=gmap K) mk m).

Lemma has_pulses_empty : has_pulses ∅ ∅.
Proof using. unfold has_pulses. rewrite kmap_empty. apply has_table_empty. Qed.

Lemma has_pulses_Get db m pn :
  has_pulses db m -> 0 <= pn < 2^32 ->
  match m !! pn with
  | Some a => exists v, Marshal a = Good v /\ store_Get db (mk pn) = Good v
  | None => store_Get db (mk pn) = Fail store_ErrNotFound
  end.
Proof using mk_ok pulse_mk.
  intros Hm Hpn. pose proof mk_inj. pose proof (has_table_Get db _ (mk pn) Hm (proj2 (mk_ok pn) Hpn)) as Hg.
  by rewrite lookup_kmap in Hg by apply _.
Qed.

Lemma has_pulses_Set db m pn a v :
  has_pulses db m -> 0 <= pn < 2^32 -> Marshal a = Good v ->
  has_pulses (store_Set db (mk pn) v) (<[pn := a]> m).
Proof using mk_ok pulse_mk.
  intros Hm Hpn Ev. pose proof mk_inj. unfold has_pulses. rewrite kmap_insert by apply _.
  apply has_table_Set; [done|by apply mk_ok|done].
Qed.

Lemma has_pulses_truncate db m from :
  has_pulses db m -> 0 <= from < 2^32 ->
  has_pulses (delete_visited db (mk from) (fun _ => true) (fun raw => mk (of_be32 raw)))
    (filter (fun kv => kv.1 < from) m).
Proof using mk_ID mk_ok mk_pulse pulse_mk.
  intros Hm Hf. pose proof mk_inj. unfold has_pulses in *.
  replace (kmap mk (filter _ m)) with
    (filter (fun kv : K * A => pulse_of kv.1 < from) (kmap (M2:=gmap K) mk m)).
  - apply (has_table_truncate db (kmap (M2:=gmap K) mk m) (mk from) (fun raw => mk (of_be32 raw))
      (fun kv => pulse_of kv.1 < from)); [done|apply Scope_key| |].
    + intros k Hk. rewrite <- (mk_pulse k) in Hk |- *. apply mk_ok in Hk. rewrite !mk_ID.
      f_equal. rewrite <- (app_nil_r (be32 _)). by apply of_be32_be32.
    + intros k a Hk. cbn [fst]. rewrite <- (mk_pulse k) in Hk. apply mk_ok in Hk.
      rewrite <- (mk_pulse k) at 1. rewrite !mk_ID. rewrite <- (app_nil_r (be32 (pulse_of k))). by apply pulse_key_le.
  - apply map_eq. intros k. rewrite <- (mk_pulse k), lookup_kmap by apply _. apply option_eq. intros a.
    rewrite !map_lookup_filter_Some, lookup_kmap by apply _. cbn [fst]. by rewrite pulse_mk.
Qed.
End PulseTable.
