(* ===== verification/Tables.v ===== *)
(** * Tables of the relational database (the SQL in src/insolar, src/ledger)

    A table with a primary key is a map from its key to the other columns; one
    without is a list of rows.  The order in which a query without ORDER BY
    returns rows is not specified: [order] is any.  A transaction is applied as
    a whole or rolled back; the retry loops of the code end with a
    transaction that commits. *)
From S2P Require Import Prelude Reference Store.

Class RowOrder : Type := {
  order : forall {A}, list A -> list A;
  order_permutation {A} (l : list A) : order l ≡ₚ l;
}.

(** [QueryRow(...).Scan]: the first of the rows; [None] is pgx.ErrNoRows. *)
Definition QueryRow `{RowOrder} {A} (rows : list A) : option A := head (order rows).

(** The rows of a table with a primary key. *)
Definition rows_of `{Countable K} {V} (t : gmap K V) : list (K * V) := map_to_list t.

(** INSERT into a table with a primary key: SQLSTATE 23505 when it is taken. *)
Definition insert_row `{Countable K} {V} (t : gmap K V) (k : K) (v : V) : option (gmap K V) :=
  match t !! k with Some _ => None | None => Some (<[k := v]> t) end.

(** DELETE FROM t WHERE NOT c *)
Definition keep_rows `{Countable K} {V} (c : K -> Prop) `{!forall k, Decision (c k)} (t : gmap K V) : gmap K V :=
  filter (fun kv => c kv.1) t.

Lemma QueryRow_elem `{RowOrder} {A} (rows : list A) x : QueryRow rows = Some x -> x ∈ rows.
Proof.
  unfold QueryRow. intros E. rewrite <- (order_permutation rows).
  destruct (order rows) as [|y l]; [done|]. injection E as ->. by left.
Qed.
Lemma QueryRow_none `{RowOrder} {A} (rows : list A) : QueryRow rows = None <-> rows = [].
Proof.
  unfold QueryRow. pose proof (order_permutation rows) as Hp. destruct (order rows) as [|y l].
  - apply Permutation_nil_l in Hp as <-. done.
  - split; [done|]. intros ->. by apply Permutation_nil_r in Hp.
Qed.
Lemma QueryRow_unique `{RowOrder} {A} (rows : list A) x :
  (forall y, y ∈ rows <-> y = x) -> QueryRow rows = Some x.
Proof.
  intros Hu. destruct (QueryRow rows) as [y|] eqn:E.
  - apply QueryRow_elem, Hu in E as ->. done.
  - apply QueryRow_none in E as ->. exfalso. by apply (not_elem_of_nil x), Hu.
Qed.

Lemma lookup_keep_rows `{Countable K} {V} (c : K -> Prop) `{!forall k, Decision (c k)} (t : gmap K V) k :
  keep_rows c t !! k = if decide (c k) then t !! k else None.
Proof.
  unfold keep_rows. destruct (decide (c k)).
  - destruct (t !! k) eqn:E.
    + apply map_lookup_filter_Some. by split.
    + apply map_lookup_filter_None. by left.
  - apply map_lookup_filter_None. right. by intros.
Qed.

(** Rows as they are stored. *)
Definition stored_order : RowOrder := {| order := fun A l => l; order_permutation := fun A l => reflexivity l |}.
