(* ===== verification/RecordStorage.v ===== *)
(** * Storages of records on the heavy node: the contract
    (src/ledger/object: the interfaces of storage.go)

    A storage of records answers as the log of the records it was given does:
    the records of a pulse have the positions 1, 2, ... in the order they
    were stored in.  BadgerRecords.v and PostgresRecords.v implement it; its
    clients (the replicator, the exporter) are proved against it. *)
From S2P Require Import Prelude Pulse Reference Records.

(** ** The log *)
Abbreviation record_log := (list Material).

(** Identifiers of records: no scope bits, a pulse, a hash of bytes. *)
Definition record_id (id : Local) : Prop :=
  Local_wf id /\ 0 < pulseAndScope id <= MaxTimePulse.
Definition material_ok (r : Material) : Prop :=
  record_id (Material_ID r) /\ Local_wf (Material_ObjectID r) /\ Local_wf (Material_JetID r).
Definition of_pulse (l : record_log) (pn : Z) : record_log :=
  filter (fun r => Local_Pulse (Material_ID r) = pn) l.

Definition log_LastKnownPosition (l : record_log) (pn : Z) : result Z :=
  if (length (of_pulse l pn) =? 0)%nat then Fail object_ErrNotFound
  else Good (Z.of_nat (length (of_pulse l pn))).
Definition log_AtPosition (l : record_log) (pn position : Z) : result Local :=
  match (if decide (1 <= position) then of_pulse l pn !! Z.to_nat (position - 1) else None) with
  | Some r => Good (Material_ID r)
  | None => Fail object_ErrNotFound
  end.
Definition log_TruncateHead (l : record_log) (from : Z) : record_log :=
  filter (fun r => Local_Pulse (Material_ID r) < from) l.

(** What a position, a 32-bit counter, can reach. *)
Definition positions_fit (l : record_log) : Prop :=
  forall pn, Z.of_nat (length (of_pulse l pn)) < 2^32.

(** ** The interfaces RecordModifier, RecordAccessor, RecordPositionAccessor *)
Class RecordStorage (S : Type) : Type := {
  BatchSet : S -> list Material -> go (S * option error);
  records_ForID : S -> Local -> go (result Material);
  LastKnownPosition : S -> Z -> go (result Z);
  AtPosition : S -> Z -> Z -> go (result Local);
  records_TruncateHead : S -> Z -> go (S * option error);
}.

(** The contract, for pulses above 0 and positions of 32 bits.  A record of
    the log may be answered by any record with its identifier: only a storage
    without duplicates has one. *)
Class LawfulRecords (S : Type) `{RecordStorage S} : Type := {
  keeps : S -> record_log -> Prop;
  keeps_ids s l : keeps s l -> Forall (fun r => record_id (Material_ID r)) l;
  keeps_fit s l : keeps s l -> positions_fit l;
  ForID_law s l id : keeps s l -> record_id id ->
    (exists r, records_ForID s id = Ret (Good r) /\ r ∈ l /\ Material_ID r = id) \/
    records_ForID s id = Ret (Fail object_ErrNotFound) /\ (id ∉ (Material_ID <$> l));
  LastKnown_law s l pn : keeps s l -> 0 < pn < 2^32 ->
    LastKnownPosition s pn = Ret (log_LastKnownPosition l pn);
  AtPosition_law s l pn position : keeps s l -> 0 < pn < 2^32 -> 0 <= position < 2^32 ->
    AtPosition s pn position = Ret (log_AtPosition l pn position);
  BatchSet_law s l recs s' e : keeps s l -> Forall material_ok recs -> positions_fit (l ++ recs) -> BatchSet s recs = Ret (s', e) ->
    keeps s' (match e with None => l ++ recs | Some _ => l end);
  records_TruncateHead_law s l from : keeps s l -> 0 < from <= MaxTimePulse ->
    exists s', records_TruncateHead s from = Ret (s', None) /\ keeps s' (log_TruncateHead l from);
}.

(** ** Facts about logs *)
Lemma record_id_Pulse id : record_id id -> Local_Pulse id = pulseAndScope id.
Proof.
  intros [_ Hp]. unfold Local_Pulse, Local_GetPulseNumber, OfUint32.
  change MaxTimePulse with (Z.ones 30). rewrite Z.land_ones by lia. apply Z.mod_small.
  change MaxTimePulse with (2^30 - 1) in Hp. lia.
Qed.

Lemma record_id_bound id : record_id id -> 0 < Local_Pulse id <= MaxTimePulse.
Proof. intros Hid. rewrite (record_id_Pulse id Hid). apply Hid. Qed.

Lemma record_id_bytes id : record_id id -> Local_AsBytes id = be32 (Local_Pulse id) ++ hash id.
Proof. intros Hid. by rewrite (record_id_Pulse id Hid). Qed.

Lemma NewIDFromBytes_pulse id :
  record_id id -> NewRecordID (of_be32 (Local_AsBytes id)) (hash id) = Ret id.
Proof.
  intros [(Hw & _) Hp]. unfold Local_AsBytes. rewrite of_be32_be32 by done.
  unfold NewRecordID, NewLocal, Number_IsSpecialOrTimePulse, Number_WithFlags, Unknown.
  replace (pulseAndScope id >? 0) with true by (symmetry; apply Z.gtb_lt; lia).
  replace (pulseAndScope id <=? MaxTimePulse) with true by (symmetry; apply Z.leb_le; lia).
  replace (pulseAndScope id >? MaxTimePulse) with false by (symmetry; rewrite Z.gtb_ltb; apply Z.ltb_ge; lia).
  cbn. rewrite Z.lor_0_r. by destruct id.
Qed.

Lemma of_pulse_app l k pn : of_pulse (l ++ k) pn = of_pulse l pn ++ of_pulse k pn.
Proof. apply list.filter_app. Qed.

Lemma of_pulse_truncate l from pn :
  of_pulse (log_TruncateHead l from) pn = if decide (pn < from) then of_pulse l pn else [].
Proof.
  unfold of_pulse, log_TruncateHead. rewrite list_filter_filter. destruct (decide (pn < from)).
  - apply filter_ext_in. intros r _. split; [tauto|]. intros ->. by split.
  - apply filter_none. intros r _ [<- ?]. lia.
Qed.

Lemma positions_fit_short l : Z.of_nat (length l) < 2^32 -> positions_fit l.
Proof. intros Hl pn. unfold of_pulse. pose proof (length_filter (fun r => Local_Pulse (Material_ID r) = pn) l). lia. Qed.

Lemma positions_fit_prefix l k : positions_fit (l ++ k) -> positions_fit l.
Proof. intros Hf pn. specialize (Hf pn). rewrite of_pulse_app, length_app in Hf. lia. Qed.

Lemma positions_fit_truncate l from : positions_fit l -> positions_fit (log_TruncateHead l from).
Proof.
  intros Hf pn. rewrite of_pulse_truncate. specialize (Hf pn). destruct (decide _); [done|]. cbn. lia.
Qed.

Lemma of_pulse_snoc l rec pn :
  of_pulse (l ++ [rec]) pn =
  if decide (Local_Pulse (Material_ID rec) = pn) then of_pulse l pn ++ [rec] else of_pulse l pn.
Proof.
  rewrite of_pulse_app. unfold of_pulse at 2. rewrite filter_cons, filter_nil.
  destruct (decide _); [done|]. apply app_nil_r.
Qed.

Lemma be32_app_inj a b x y :
  0 <= a < 2^32 -> 0 <= b < 2^32 -> be32 a ++ x = be32 b ++ y -> a = b /\ x = y.
Proof.
  intros Ha Hb E. assert (Eab : a = b).
  { rewrite <- (of_be32_be32 a x Ha), <- (of_be32_be32 b y Hb). by rewrite E. }
  subst b. split; [done|]. by apply app_inv_head in E.
Qed.
Lemma be32_inj a b : 0 <= a < 2^32 -> 0 <= b < 2^32 -> be32 a = be32 b -> a = b.
Proof.
  intros Ha Hb E. apply (be32_app_inj a b [] []); [done..|]. by rewrite !app_nil_r.
Qed.

Lemma record_id_range id : record_id id -> 0 < Local_Pulse id < 2^32.
Proof. intros Hid%record_id_bound. change MaxTimePulse with (2^30 - 1) in Hid. lia. Qed.

Lemma Local_AsBytes_inj u v : Local_wf u -> Local_wf v -> Local_AsBytes u = Local_AsBytes v -> u = v.
Proof.
  intros (Hu & _) (Hv & _) E. destruct (be32_app_inj _ _ _ _ Hu Hv E) as [Ep Eh].
  destruct u, v. cbn in *. by subst.
Qed.

(** The positions of a pulse are those up to the last known one. *)
Lemma log_AtPosition_known l pn position :
  is_good (log_AtPosition l pn position) = true <->
  exists n, log_LastKnownPosition l pn = Good n /\ 1 <= position <= n.
Proof.
  unfold log_AtPosition, log_LastKnownPosition. destruct (decide (1 <= position)).
  - destruct (of_pulse l pn !! _) as [r|] eqn:E.
    + apply lookup_lt_Some in E. split; [intros _|done].
      destruct (Nat.eqb_spec (length (of_pulse l pn)) 0); [lia|]. eexists. split; [done|]. lia.
    + apply lookup_ge_None in E. split; [done|].
      destruct (Nat.eqb_spec (length (of_pulse l pn)) 0); intros (m & [= <-] & ?); lia.
  - split; [done|]. intros (m & _ & ?). lia.
Qed.
