(* ===== verification/BadgerRecords.v ===== *)
(** * The record storage over the key-value store
    (src/ledger/object/badger_record_db.go)

    A record is stored under its identifier; a second scope keeps, for each
    pulse, the identifier at every position and the last position in use. *)
From S2P Require Import Prelude Pulse Reference Jet Records Store RecordStorage.

(** ** Keys *)
#[export] Instance recordKey : Key Local := { Scope _ := ScopeRecord; ID := Local_AsBytes }.

Definition recordPositionKeyPrefix : Z := 1.
Definition lastKnownRecordPositionKeyPrefix : Z := 2.

Record recordPositionKey : Type := mkPositionKey { pk_pn : Z; pk_number : Z }.
#[export] Instance recordPositionKey_key : Key recordPositionKey := {
  Scope _ := ScopeRecordPosition;
  ID k := recordPositionKeyPrefix :: be32 (pk_pn k) ++ be32 (pk_number k) }.

Record lastKnownRecordPositionKey : Type := mkLastKey { lk_pn : Z }.
#[export] Instance lastKnownRecordPositionKey_key : Key lastKnownRecordPositionKey := {
  Scope _ := ScopeRecordPosition;
  ID k := lastKnownRecordPositionKeyPrefix :: be32 (lk_pn k) }.

(** Reading a key back; the bytes of an identifier that is none panic. *)
Definition NewPulseNumber (buf : bytes) : Z := of_be32 buf.
Definition NewIDFromBytes (raw : bytes) : go Local := NewID (of_be32 raw) (drop 4 raw).

Definition newRecordKey (raw : bytes) : go Local := NewID (NewPulseNumber raw) (drop 4 raw).
Definition newRecordPositionKeyFromBytes (raw : bytes) : recordPositionKey :=
  mkPositionKey (NewPulseNumber (drop 1 raw)) (of_be32 (drop 5 raw)).
Definition newLastKnownRecordPositionKey (raw : bytes) : lastKnownRecordPositionKey :=
  mkLastKey (NewPulseNumber (drop 1 raw)).

Section BadgerRecords.
Context `{Codec Material}.

(** ** Writing *)
Definition setRecord (txn : DB) (rec : Material) : result DB :=
  data ← Marshal rec;
  match store_Get txn (Material_ID rec) with
  | Good _ => Fail object_ErrOverride
  | Fail _ => Good (store_Set txn (Material_ID rec) data)
  end.

Definition getLastKnownPosition (txn : DB) (pn : Z) : result Z :=
  match store_Get txn (mkLastKey pn) with
  | Good buff => Good (of_be32 buff)
  | Fail _ => Fail object_ErrNotFound
  end.
Definition setLastKnownPosition (txn : DB) (pn position : Z) : DB :=
  store_Set txn (mkLastKey pn) (be32 position).
Definition setPosition (txn : DB) (recID : Local) (position : Z) : DB :=
  store_Set txn (mkPositionKey (Local_Pulse recID) position) (Local_AsBytes recID).

(** The loop of [BatchSet], with the pulse and the position it tracks. *)
Fixpoint BatchSet_loop (txn : DB) (recs : list Material) (lastKnowPulse position : Z) : result DB :=
  match recs with
  | [] => Good (setLastKnownPosition txn lastKnowPulse position)
  | rec :: recs' =>
      if Local_IsEmpty (Material_ID rec) then Fail (Errorf "id is empty")
      else
        txn ← setRecord txn rec;
        let pn := Local_Pulse (Material_ID rec) in
        let '(txn, position) :=
          if lastKnowPulse =? pn then (txn, position)
          else
            let txn := setLastKnownPosition txn lastKnowPulse position in
            (txn, match getLastKnownPosition txn pn with Good p => p | Fail _ => 0 end) in
        let position := u32 (position + 1) in
        BatchSet_loop (setPosition txn (Material_ID rec) position) recs' pn position
  end.
Definition badger_BatchSet (db : DB) (recs : list Material) : go (DB * option error) :=
  if (length recs =? 0)%nat then Ret (db, None)
  else Ret (store_Update db (fun txn => BatchSet_loop txn recs 0 0)).

(** ** Reading *)
Definition badger_ForID (db : DB) (id : Local) : go (result Material) :=
  Ret (match store_Get db id with
       | Good buff => Unmarshal buff
       | Fail _ => Fail object_ErrNotFound
       end).
Definition badger_LastKnownPosition (db : DB) (pn : Z) : go (result Z) :=
  Ret (getLastKnownPosition db pn).
Definition badger_AtPosition (db : DB) (pn position : Z) : go (result Local) :=
  match getLastKnownPosition db pn with
  | Fail e => Ret (Fail e)
  | Good lastKnownPosition =>
      if position >? lastKnownPosition then Ret (Fail object_ErrNotFound)
      else
        match store_Get db (mkPositionKey pn position) with
        | Fail _ => Ret (Fail object_ErrNotFound)
        | Good rawID => id ← NewIDFromBytes rawID; Ret (Good id)
        end
  end.

(** ** TruncateHead: three passes *)
Definition truncateRecordsHead (db : DB) (from : Z) : go DB :=
  keyFrom ← NewID from [];
  delete_decoded newRecordKey db (NewIterator db keyFrom false).

Definition has_prefix (prefix : Z) (raw : bytes) : bool :=
  match raw with b :: _ => b =? prefix | [] => false end.
(** The keys are decoded by their prefix ([makePositionKey]). *)
Definition truncatePositionRecordHead `{Key K} (db : DB) (from : K) (prefix : Z) : DB :=
  if prefix =? recordPositionKeyPrefix
  then delete_visited db from (has_prefix prefix) newRecordPositionKeyFromBytes
  else delete_visited db from (has_prefix prefix) newLastKnownRecordPositionKey.

Definition badger_records_TruncateHead (db : DB) (from : Z) : go (DB * option error) :=
  db ← truncateRecordsHead db from;
  let db := truncatePositionRecordHead db (mkPositionKey from 0) recordPositionKeyPrefix in
  let db := truncatePositionRecordHead db (mkLastKey from) lastKnownRecordPositionKeyPrefix in
  Ret (db, None).

#[export] Instance BadgerRecordDB : RecordStorage DB := {
  BatchSet := badger_BatchSet;
  records_ForID := badger_ForID;
  LastKnownPosition := badger_LastKnownPosition;
  AtPosition := badger_AtPosition;
  records_TruncateHead := badger_records_TruncateHead;
}.
End BadgerRecords.

(** ** Keys are read back as they were written *)
Lemma position_key_inj pn pos pn' pos' :
  0 <= pn < 2^32 -> 0 <= pos < 2^32 -> 0 <= pn' < 2^32 -> 0 <= pos' < 2^32 ->
  fullKey (mkPositionKey pn pos) = fullKey (mkPositionKey pn' pos') -> pn = pn' /\ pos = pos'.
Proof.
  intros Hn Hp Hn' Hp' E. apply (f_equal (drop 2)) in E.
  destruct (be32_app_inj pn pn' (be32 pos) (be32 pos') Hn Hn' E) as [-> Ep].
  split; [done|]. by apply be32_inj.
Qed.
Lemma last_key_inj pn pn' :
  0 <= pn < 2^32 -> 0 <= pn' < 2^32 -> fullKey (mkLastKey pn) = fullKey (mkLastKey pn') -> pn = pn'.
Proof. intros ?? E. apply (f_equal (drop 2)) in E. by apply be32_inj. Qed.

Lemma last_key_position_key pn pn' pos : fullKey (mkLastKey pn) <> fullKey (mkPositionKey pn' pos).
Proof. intros E. apply (f_equal (fun k => nth 1 k 0)) in E. vm_compute in E. discriminate E. Qed.

Lemma record_key_scope (id : Local) k : fullKey id <> ScopeRecordPosition :: k.
Proof. intros E. apply (f_equal (fun k => nth 0 k 0)) in E. vm_compute in E. discriminate E. Qed.

Lemma NewIDFromBytes_roundtrip id : record_id id -> NewIDFromBytes (Local_AsBytes id) = Ret id.
Proof.
  intros Hid. unfold NewIDFromBytes. rewrite <- (NewIDFromBytes_pulse id Hid). unfold NewID, NewRecordID. f_equal.
  destruct Hid as [(_ & Hl & _) _]. unfold Local_AsBytes. rewrite (drop_app_length' (be32 _)) by done.
  unfold copy. rewrite length_replicate. unfold LocalBinaryHashSize in Hl.
  rewrite take_ge by lia. rewrite drop_ge by (rewrite length_replicate; lia). by rewrite app_nil_r.
Qed.

(** ** What the database keeps *)
Section Keeps.
Context `{Codec Material}.

(** The scope of the records. *)
Record stored (db : DB) (l : record_log) : Prop := {
  st_ids : Forall (fun r => record_id (Material_ID r)) l;
  st_nodup : NoDup (Material_ID <$> l);
  st_in r : r ∈ l -> exists v, Marshal r = Good v /\ db !! fullKey (Material_ID r) = Some v;
  st_only k v : db !! (ScopeRecord :: k) = Some v ->
    exists r, r ∈ l /\ k = Local_AsBytes (Material_ID r);
}.

(** The scope of the positions; the last known position of pulse [cur] may
    be out of date. *)
Record positioned (db : DB) (l : record_log) (cur : Z) : Prop := {
  po_fit : positions_fit l;
  po_at pn pos : 0 <= pn < 2^32 -> 0 <= pos < 2^32 ->
    db !! fullKey (mkPositionKey pn pos) =
    if decide (1 <= pos)
    then (fun r => Local_AsBytes (Material_ID r)) <$> of_pulse l pn !! Z.to_nat (pos - 1) else None;
  po_last pn : 0 < pn < 2^32 -> pn <> cur ->
    db !! fullKey (mkLastKey pn) =
    let n := length (of_pulse l pn) in if (n =? 0)%nat then None else Some (be32 (Z.of_nat n));
  po_keys k v : db !! (ScopeRecordPosition :: k) = Some v ->
    (exists pn pos, 0 <= pn < 2^32 /\ 0 <= pos < 2^32 /\ k = ID (mkPositionKey pn pos)) \/
    (exists pn, 0 <= pn < 2^32 /\ k = ID (mkLastKey pn));
}.

Definition badger_keeps (db : DB) (l : record_log) : Prop := stored db l /\ positioned db l 0.

(** Only the keys of their scope matter. *)
Lemma stored_ext db db' l :
  (forall k, db' !! (ScopeRecord :: k) = db !! (ScopeRecord :: k)) -> stored db l -> stored db' l.
Proof.
  intros E [H1 H2 H3 H4]. split; try done.
  - intros r Hr. destruct (H3 r Hr) as (v & Hv & Hk). exists v. split; [done|].
    unfold fullKey in *. cbn [Scope recordKey] in *. by rewrite E.
  - intros k v. rewrite E. apply H4.
Qed.
Lemma positioned_ext db db' l cur :
  (forall k, db' !! (ScopeRecordPosition :: k) = db !! (ScopeRecordPosition :: k)) ->
  positioned db l cur -> positioned db' l cur.
Proof.
  intros E [H1 H2 H3 H4]. split; [done| | |].
  - intros pn pos ??. rewrite <- H2 by done. apply E.
  - intros pn ??. rewrite <- H3 by done. apply E.
  - intros k v. rewrite E. apply H4.
Qed.
Lemma stored_frame db l k v : stored db l -> stored (<[ScopeRecordPosition :: k := v]> db) l.
Proof. apply stored_ext. intros k'. by rewrite lookup_insert_ne. Qed.
Lemma positioned_frame db l cur (id : Local) v : positioned db l cur -> positioned (<[fullKey id := v]> db) l cur.
Proof. apply positioned_ext. intros k. by rewrite lookup_insert_ne. Qed.

Lemma setRecord_stored db l rec db' :
  stored db l -> record_id (Material_ID rec) -> setRecord db rec = Good db' ->
  exists v, db' = <[fullKey (Material_ID rec) := v]> db /\ stored db' (l ++ [rec]).
Proof.
  intros [H1 H2 H3 H4] Hid E. unfold setRecord in E. apply result_bind_good in E as (v & Hv & E).
  unfold store_Get in E. destruct (db !! fullKey (Material_ID rec)) eqn:Ek; [done|].
  injection E as <-. exists v. split; [done|].
  assert (Hfresh : forall r, r ∈ l -> fullKey (Material_ID r) <> fullKey (Material_ID rec)).
  { intros r Hr E. destruct (H3 r Hr) as (w & _ & Hw). congruence. }
  split.
  - apply list.Forall_app. split; [done|]. by constructor.
  - rewrite fmap_app. apply list.NoDup_app. split_and!; [done| |apply NoDup_singleton].
    intros id (r & -> & Hr)%list_elem_of_fmap Hin. apply list_elem_of_singleton in Hin.
    apply (Hfresh r Hr). by rewrite Hin.
  - intros r [Hr| ->%list_elem_of_singleton]%elem_of_app; unfold store_Set.
    + rewrite lookup_insert_ne; [by apply H3|]. intros E. by apply (Hfresh r Hr).
    + exists v. by rewrite lookup_insert_eq.
  - intros k w. unfold store_Set. destruct (decide (fullKey (Material_ID rec) = ScopeRecord :: k)) as [Hk|Hk].
    + intros _. exists rec. split; [apply elem_of_app; right; by left|]. by injection Hk.
    + rewrite lookup_insert_ne by done. intros (r & Hr & ->)%H4. exists r. split; [|done].
      apply elem_of_app. by left.
Qed.

Lemma positioned_weaken db l cur : positioned db l 0 -> positioned db l cur.
Proof. intros [H1 H2 H3 H4]. split; try done. intros pn Hpn _. apply H3; [done|lia]. Qed.

Lemma getLastKnownPosition_positioned db l pn :
  positioned db l 0 -> 0 < pn < 2^32 -> getLastKnownPosition db pn = log_LastKnownPosition l pn.
Proof.
  intros Hp Hpn. unfold getLastKnownPosition, log_LastKnownPosition, store_Get.
  rewrite (po_last _ _ _ Hp pn Hpn ltac:(lia)). cbn zeta. destruct (_ =? 0)%nat; [done|].
  rewrite <- (app_nil_r (be32 _)), of_be32_be32; [done|]. pose proof (po_fit _ _ _ Hp pn). lia.
Qed.

Lemma setLastKnownPosition_positioned db l cur :
  positioned db l cur -> 0 <= cur < 2^32 -> cur = 0 \/ of_pulse l cur <> [] ->
  positioned (setLastKnownPosition db cur (Z.of_nat (length (of_pulse l cur)))) l 0.
Proof.
  intros [H1 H2 H3 H4] Hcur Hn. unfold setLastKnownPosition, store_Set. split; [done| | |].
  - intros pn pos ??. rewrite lookup_insert_ne by apply last_key_position_key. by apply H2.
  - intros pn Hpn _. destruct (decide (pn = cur)) as [->|Hne].
    + rewrite lookup_insert_eq. cbn zeta. destruct (Nat.eqb_spec (length (of_pulse l cur)) 0) as [E|]; [|done].
      apply length_zero_iff_nil in E. destruct Hn; [lia|done].
    + rewrite lookup_insert_ne by (intros E%last_key_inj; lia). by apply H3.
  - intros k v. destruct (decide (fullKey (mkLastKey cur) = ScopeRecordPosition :: k)) as [Hk|Hk].
    + intros _. right. exists cur. split; [done|]. by injection Hk.
    + rewrite lookup_insert_ne by done. apply H4.
Qed.

Lemma setPosition_positioned db l rec :
  let pn := Local_Pulse (Material_ID rec) in
  positioned db l pn -> record_id (Material_ID rec) -> positions_fit (l ++ [rec]) ->
  positioned (setPosition db (Material_ID rec) (Z.of_nat (length (of_pulse l pn)) + 1)) (l ++ [rec]) pn.
Proof.
  intros pn [H1 H2 H3 H4] Hid Hfit. pose proof (record_id_range _ Hid : 0 < pn < _) as Hpn.
  pose proof (Hfit pn) as Hlen. rewrite of_pulse_snoc, decide_True, length_app in Hlen by done. cbn in Hlen.
  set (n := length (of_pulse l pn)) in *. unfold setPosition, store_Set. fold pn. split; [done| | |].
  - intros q pos Hq Hpos. rewrite of_pulse_snoc.
    destruct (decide (fullKey (mkPositionKey pn (Z.of_nat n + 1)) = fullKey (mkPositionKey q pos))) as [E|E].
    + rewrite E, lookup_insert_eq. apply position_key_inj in E as [<- <-]; [|lia..].
      rewrite !decide_True by (done || lia).
      replace (Z.to_nat (Z.of_nat n + 1 - 1)) with (n + 0)%nat by lia.
      by rewrite lookup_app_r, Nat.add_sub' by (subst n; lia).
    + rewrite lookup_insert_ne, H2 by done. fold pn. destruct (decide (1 <= pos)); [|done].
      destruct (decide (pn = q)) as [<-|]; [|done].
      destruct (Nat.lt_total (Z.to_nat (pos - 1)) n) as [Hlt|[Heq|Hgt]].
      * by rewrite lookup_app_l by (subst n; done).
      * destruct E. repeat f_equal. lia.
      * rewrite !lookup_ge_None_2; [done|rewrite length_app; cbn; subst n; lia|subst n; lia].
  - intros q Hq Hne. rewrite lookup_insert_ne, of_pulse_snoc, decide_False.
    + by apply H3.
    + intros E. by apply Hne.
    + intros E. symmetry in E. by apply last_key_position_key in E.
  - intros k v. destruct (decide (fullKey (mkPositionKey pn (Z.of_nat n + 1)) = ScopeRecordPosition :: k)) as [Hk|Hk].
    + intros _. left. exists pn, (Z.of_nat n + 1). split_and!; [lia..|]. by injection Hk.
    + rewrite lookup_insert_ne by done. apply H4.
Qed.

(** ** Batches *)
Lemma BatchSet_loop_keeps recs db l cur db' :
  stored db l -> positioned db l cur -> 0 <= cur < 2^32 -> cur = 0 \/ of_pulse l cur <> [] ->
  Forall (fun r => record_id (Material_ID r)) recs -> positions_fit (l ++ recs) ->
  BatchSet_loop db recs cur (Z.of_nat (length (of_pulse l cur))) = Good db' ->
  badger_keeps db' (l ++ recs).
Proof.
  revert db l cur. induction recs as [|rec recs IH]; intros db l cur Hst Hpo Hcur Hne Hids Hfit E.
  { injection E as <-. rewrite app_nil_r. split; [by apply stored_frame|].
    by apply setLastKnownPosition_positioned. }
  apply list.Forall_cons in Hids as [Hid Hids]. cbn [BatchSet_loop] in E.
  destruct (Local_IsEmpty _); [done|]. apply result_bind_good in E as (db1 & E1 & E).
  destruct (setRecord_stored _ _ _ _ Hst Hid E1) as (v & -> & Hst1).
  set (pn := Local_Pulse (Material_ID rec)) in *.
  pose proof (record_id_range _ Hid : 0 < pn < _) as Hpn.
  rewrite (assoc_L (++) l [rec] recs : l ++ rec :: recs = _) in Hfit |- *.
  apply (positioned_frame _ _ _ (Material_ID rec) v) in Hpo.
  set (db1 := <[_ := v]> db) in *. clearbody db1.
  assert (Hnext : forall db2, stored db2 (l ++ [rec]) -> positioned db2 l pn ->
    BatchSet_loop (setPosition db2 (Material_ID rec) (u32 (Z.of_nat (length (of_pulse l pn)) + 1))) recs pn
      (u32 (Z.of_nat (length (of_pulse l pn)) + 1)) = Good db' ->
    badger_keeps db' ((l ++ [rec]) ++ recs)).
  { clear E. intros db2 Hst2 Hpo2 E. pose proof (positions_fit_prefix _ _ Hfit) as Hfit1.
    pose proof (Hfit1 pn) as Hlen. rewrite of_pulse_snoc, decide_True, length_app in Hlen by done.
    cbn in Hlen. rewrite u32_small in E by lia.
    apply (IH (setPosition db2 (Material_ID rec) (Z.of_nat (length (of_pulse l pn)) + 1)) (l ++ [rec]) pn).
    - by apply stored_frame.
    - by apply setPosition_positioned.
    - lia.
    - right. rewrite of_pulse_snoc, decide_True by done. by destruct (of_pulse l pn).
    - done.
    - done.
    - rewrite of_pulse_snoc, decide_True, length_app by done. cbn [length]. rewrite Nat2Z.inj_add. exact E. }
  destruct (Z.eqb_spec cur pn) as [->|Hcp]; [by apply (Hnext db1)|].
  set (db2 := setLastKnownPosition db1 cur _) in *.
  assert (Hpo2 : positioned db2 l 0) by (by apply setLastKnownPosition_positioned).
  rewrite (getLastKnownPosition_positioned _ _ _ Hpo2 Hpn) in E.
  apply (Hnext db2); [by apply stored_frame|by apply positioned_weaken|].
  unfold log_LastKnownPosition in E. destruct (Nat.eqb_spec (length (of_pulse l pn)) 0) as [E0|]; [|done].
  by rewrite E0.
Qed.

(** ** TruncateHead *)
Lemma zeros_first h : Forall is_byte h -> bytesCompare (replicate (length h) 0) h <= 0.
Proof.
  induction 1 as [|b h Hb _ IH]; cbn; [lia|]. unfold is_byte in Hb.
  destruct (Z.ltb_spec 0 b); [lia|]. destruct (Z.ltb_spec b 0); [lia|done].
Qed.

Definition firstID (from : Z) : Local := mkLocal from (replicate 28 0).
Lemma NewID_nil from : 0 < from <= MaxTimePulse -> NewID from [] = Ret (firstID from).
Proof.
  intros Hf. assert (Hid : record_id (firstID from)).
  { change MaxTimePulse with (2^30 - 1) in *. split; [|done]. split; [cbn; lia|]. split; [done|].
    apply list.Forall_forall. intros b ->%elem_of_replicate_inv. by unfold is_byte. }
  rewrite <- (NewIDFromBytes_pulse _ Hid). unfold NewID, NewRecordID. f_equal. unfold Local_AsBytes.
  rewrite of_be32_be32; [done|]. apply Hid.
Qed.

Lemma record_in_head from id :
  0 < from <= MaxTimePulse -> record_id id ->
  in_head ScopeRecord (Local_AsBytes (firstID from)) (fun _ => true) (fullKey id) <-> from <= Local_Pulse id.
Proof.
  intros Hf Hid. cbn [in_head fullKey Scope ID recordKey]. unfold bytes_le.
  rewrite (record_id_bytes id Hid). unfold Local_AsBytes, firstID. cbn [pulseAndScope hash].
  pose proof (record_id_range id Hid) as Hr. change MaxTimePulse with (2^30 - 1) in Hf.
  rewrite bytesCompare_pulse by lia.
  destruct Hid as [(_ & Hl & Hb) _]. pose proof (zeros_first _ Hb) as Hz. rewrite Hl in Hz.
  change LocalBinaryHashSize with 28%nat in Hz.
  destruct (Z.ltb_spec from (Local_Pulse id)); [split; [lia|intros _; split_and!; [done|lia|done]]|].
  destruct (Z.ltb_spec (Local_Pulse id) from); [split; [intros (_ & ? & _); lia|lia]|].
  split; [lia|intros _; by split_and!].
Qed.

Lemma truncateRecordsHead_spec db l from :
  stored db l -> positioned db l 0 -> 0 < from <= MaxTimePulse ->
  exists db', truncateRecordsHead db from = Ret db' /\ stored db' (log_TruncateHead l from) /\ positioned db' l 0.
Proof.
  intros Hst Hpo Hf. unfold truncateRecordsHead. rewrite (NewID_nil from Hf). cbn [mbind go_bind].
  rewrite (delete_decoded_items newRecordKey ScopeRecord).
  2: { intros raw v [Hk _]%elem_of_iterator. destruct (st_only _ _ Hst raw v Hk) as (r & Hr & ->).
    exists (Material_ID r). split; [|done]. apply NewIDFromBytes_roundtrip.
    pose proof (st_ids _ _ Hst) as Hids. rewrite list.Forall_forall in Hids. by apply Hids. }
  eexists. split; [done|]. set (db' := delete_items _ _ _ _).
  assert (Hl : forall fk, db' !! fk = if decide (in_head ScopeRecord (Local_AsBytes (firstID from)) (fun _ => true) fk)
                                      then None else db !! fk)
    by (intros fk; exact (delete_items_lookup db (firstID from) (fun _ => true) fk)).
  pose proof (st_ids _ _ Hst) as Hids. rewrite list.Forall_forall in Hids.
  split; [|apply (positioned_ext db); [|done]; intros k; by rewrite Hl, decide_False by (by intros [? _])].
  unfold log_TruncateHead. split.
  - apply list.Forall_forall. intros r [_ Hr]%list_elem_of_filter. by apply Hids.
  - eapply sublist_NoDup; [apply Hst|]. apply fmap_sublist, sublist_filter.
  - intros r [Hlt Hr]%list_elem_of_filter. destruct (st_in _ _ Hst r Hr) as (v & Hv & Hk). exists v.
    split; [done|]. rewrite Hl, decide_False; [done|]. rewrite (record_in_head from _ Hf (Hids _ Hr)). lia.
  - intros k v. rewrite Hl. destruct (decide _) as [|Hout]; [done|]. intros Hk.
    destruct (st_only _ _ Hst k v Hk) as (r & Hr & ->). exists r. split; [|done].
    apply list_elem_of_filter. split; [|done].
    rewrite (record_in_head from (Material_ID r) Hf (Hids _ Hr)) in Hout. lia.
Qed.

Lemma position_in_head from pn pos :
  0 <= from < 2^32 -> 0 <= pn < 2^32 -> 0 <= pos < 2^32 ->
  in_head ScopeRecordPosition (ID (mkPositionKey from 0)) (has_prefix recordPositionKeyPrefix)
    (fullKey (mkPositionKey pn pos)) <-> from <= pn.
Proof.
  intros Hf Hpn Hpos.
  change (in_head _ _ _ _) with (ScopeRecordPosition = ScopeRecordPosition /\
    bytesCompare (1 :: (be32 from ++ be32 0)) (1 :: (be32 pn ++ be32 pos)) <= 0 /\ true = true).
  rewrite bytesCompare_cons, bytesCompare_pulse, bytesCompare_be32 by lia.
  replace (pos <? 0) with false by (symmetry; apply Z.ltb_ge; lia).
  destruct (Z.ltb_spec from pn), (Z.ltb_spec pn from), (Z.ltb_spec 0 pos); lia.
Qed.
Lemma last_in_head from pn :
  0 <= from < 2^32 -> 0 <= pn < 2^32 ->
  in_head ScopeRecordPosition (ID (mkLastKey from)) (has_prefix lastKnownRecordPositionKeyPrefix)
    (fullKey (mkLastKey pn)) <-> from <= pn.
Proof.
  intros Hf Hpn.
  change (in_head _ _ _ _) with (ScopeRecordPosition = ScopeRecordPosition /\
    bytesCompare (2 :: be32 from) (2 :: be32 pn) <= 0 /\ true = true).
  rewrite bytesCompare_cons, bytesCompare_be32 by lia.
  destruct (Z.ltb_spec from pn), (Z.ltb_spec pn from); lia.
Qed.

(** The two passes over the positions, by key. *)
Lemma position_key_decoded pn pos :
  0 <= pn < 2^32 -> 0 <= pos < 2^32 ->
  newRecordPositionKeyFromBytes (ID (mkPositionKey pn pos)) = mkPositionKey pn pos.
Proof.
  intros Hpn Hpos. change (ID (mkPositionKey pn pos)) with (1 :: be32 pn ++ be32 pos).
  unfold newRecordPositionKeyFromBytes, NewPulseNumber. rewrite !skipn_cons, skipn_O, of_be32_be32 by done.
  f_equal. rewrite (drop_app_length' (be32 pn) (be32 pos)) by done.
  by rewrite <- (app_nil_r (be32 pos)), of_be32_be32.
Qed.
Lemma last_key_decoded pn :
  0 <= pn < 2^32 -> newLastKnownRecordPositionKey (ID (mkLastKey pn)) = mkLastKey pn.
Proof.
  intros Hpn. change (ID (mkLastKey pn)) with (2 :: be32 pn).
  unfold newLastKnownRecordPositionKey, NewPulseNumber. rewrite skipn_cons, skipn_O.
  by rewrite <- (app_nil_r (be32 pn)), of_be32_be32.
Qed.

Definition truncate_positions (db : DB) (from : Z) : DB :=
  truncatePositionRecordHead
    (truncatePositionRecordHead db (mkPositionKey from 0) recordPositionKeyPrefix)
    (mkLastKey from) lastKnownRecordPositionKeyPrefix.

Lemma truncate_positions_lookup db l from fk :
  positioned db l 0 -> 0 < from <= MaxTimePulse ->
  truncate_positions db from !! fk =
  if decide (in_head ScopeRecordPosition (ID (mkLastKey from)) (has_prefix lastKnownRecordPositionKeyPrefix) fk)
  then None
  else if decide (in_head ScopeRecordPosition (ID (mkPositionKey from 0)) (has_prefix recordPositionKeyPrefix) fk)
  then None else db !! fk.
Proof.
  intros Hpo Hf. unfold truncate_positions, truncatePositionRecordHead.
  change (recordPositionKeyPrefix =? recordPositionKeyPrefix) with true.
  change (lastKnownRecordPositionKeyPrefix =? recordPositionKeyPrefix) with false. cbn iota.
  assert (H1 : forall fk, delete_visited db (mkPositionKey from 0) (has_prefix recordPositionKeyPrefix)
      newRecordPositionKeyFromBytes !! fk =
    if decide (in_head ScopeRecordPosition (ID (mkPositionKey from 0)) (has_prefix recordPositionKeyPrefix) fk)
    then None else db !! fk).
  { intros fk'. refine (delete_visited_lookup db (mkPositionKey from 0) (has_prefix recordPositionKeyPrefix)
      newRecordPositionKeyFromBytes fk' _). intros k v Hk _ Hp.
    destruct (po_keys _ _ _ Hpo k v Hk) as [(pn & pos & Hpn & Hpos & ->)|(pn & Hpn & ->)]; [|done].
    by rewrite position_key_decoded. }
  rewrite <- H1. refine (delete_visited_lookup _ (mkLastKey from) (has_prefix lastKnownRecordPositionKeyPrefix)
    newLastKnownRecordPositionKey fk _). intros k v Hk _ Hp.
  cbn [Scope lastKnownRecordPositionKey_key] in Hk. rewrite H1 in Hk. destruct (decide _); [done|].
  destruct (po_keys _ _ _ Hpo k v Hk) as [(pn & pos & Hpn & Hpos & ->)|(pn & Hpn & ->)]; [done|].
  by rewrite last_key_decoded.
Qed.

Lemma truncate_positions_positioned db l from :
  positioned db l 0 -> 0 < from <= MaxTimePulse ->
  positioned (truncate_positions db from) (log_TruncateHead l from) 0.
Proof.
  intros Hpo Hf. pose proof (fun fk => truncate_positions_lookup db l from fk Hpo Hf) as Hl.
  change MaxTimePulse with (2^30 - 1) in Hf. split.
  - apply positions_fit_truncate, Hpo.
  - intros pn pos Hpn Hpos. rewrite Hl, decide_False by (intros (_ & _ & ?); done).
    rewrite of_pulse_truncate, (po_at _ _ _ Hpo pn pos Hpn Hpos).
    pose proof (position_in_head from pn pos ltac:(lia) Hpn Hpos) as Hin.
    destruct (decide (in_head _ _ _ _)) as [Hd|Hd], (decide (pn < from)); try done.
    + apply Hin in Hd. lia.
    + rewrite lookup_nil. by destruct (decide _).
    + exfalso. apply Hd, Hin. lia.
  - intros pn Hpn _. rewrite Hl. pose proof (last_in_head from pn ltac:(lia) ltac:(lia)) as Hin.
    rewrite of_pulse_truncate. destruct (decide (in_head _ _ _ _)) as [Hd|Hd], (decide (pn < from)); try done.
    + apply Hin in Hd. lia.
    + rewrite decide_False by (intros (_ & _ & ?); done). apply (po_last _ _ _ Hpo); [done|lia].
    + exfalso. apply Hd, Hin. lia.
  - intros k v. rewrite Hl. destruct (decide _); [done|]. destruct (decide _); [done|].
    apply (po_keys _ _ _ Hpo).
Qed.

Lemma badger_TruncateHead_keeps db l from :
  badger_keeps db l -> 0 < from <= MaxTimePulse ->
  exists db', badger_records_TruncateHead db from = Ret (db', None) /\
    badger_keeps db' (log_TruncateHead l from).
Proof.
  intros [Hst Hpo] Hf. destruct (truncateRecordsHead_spec _ _ _ Hst Hpo Hf) as (db1 & E & Hst1 & Hpo1).
  exists (truncate_positions db1 from). unfold badger_records_TruncateHead. rewrite E. split; [done|].
  split; [|by apply truncate_positions_positioned].
  apply (stored_ext db1); [|done]. intros k.
  rewrite (truncate_positions_lookup _ _ _ _ Hpo1 Hf), !decide_False; [done|by intros [? _]..].
Qed.

(** ** Reading *)
Lemma badger_ForID_keeps db l id :
  badger_keeps db l -> record_id id ->
  (exists r, badger_ForID db id = Ret (Good r) /\ r ∈ l /\ Material_ID r = id) \/
  badger_ForID db id = Ret (Fail object_ErrNotFound) /\ (id ∉ (Material_ID <$> l)).
Proof.
  intros [Hst _] Hid. unfold badger_ForID, store_Get. destruct (db !! fullKey id) as [v|] eqn:E.
  - left. destruct (st_only _ _ Hst _ _ E) as (r & Hr & Hk). exists r.
    assert (Hrid : record_id (Material_ID r)).
    { pose proof (st_ids _ _ Hst) as Hids. rewrite list.Forall_forall in Hids. by apply Hids. }
    assert (Material_ID r = id) as <- by (symmetry; by apply Local_AsBytes_inj; [apply Hid|apply Hrid|]).
    destruct (st_in _ _ Hst r Hr) as (w & Hw & Hw'). rewrite E in Hw'. injection Hw' as <-.
    by rewrite (Unmarshal_Marshal r v Hw).
  - right. split; [done|]. intros (r & -> & Hr)%list_elem_of_fmap.
    destruct (st_in _ _ Hst r Hr) as (w & _ & Hw). congruence.
Qed.

Lemma badger_AtPosition_keeps db l pn position :
  badger_keeps db l -> 0 < pn < 2^32 -> 0 <= position < 2^32 ->
  badger_AtPosition db pn position = Ret (log_AtPosition l pn position).
Proof.
  intros [Hst Hpo] Hpn Hpos. unfold badger_AtPosition.
  rewrite (getLastKnownPosition_positioned _ _ _ Hpo Hpn). unfold log_LastKnownPosition, log_AtPosition, store_Get.
  destruct (Nat.eqb_spec (length (of_pulse l pn)) 0) as [E|_].
  { apply length_zero_iff_nil in E. rewrite E, lookup_nil. by destruct (decide _). }
  rewrite (po_at _ _ _ Hpo pn position) by lia. rewrite Z.gtb_ltb.
  destruct (Z.ltb_spec (Z.of_nat (length (of_pulse l pn))) position).
  { rewrite lookup_ge_None_2 by lia. by destruct (decide _). }
  destruct (decide (1 <= position)); [|done].
  destruct (of_pulse l pn !! _) as [r|] eqn:E; [|done]. cbn [fmap option_fmap option_map].
  rewrite NewIDFromBytes_roundtrip; [done|].
  apply list_elem_of_lookup_2, list_elem_of_filter in E as [_ Hr].
  pose proof (st_ids _ _ Hst) as Hids. rewrite list.Forall_forall in Hids. by apply Hids.
Qed.

(** ** Batches: what is refused, and that nothing else is *)
Fixpoint batch_error (l : record_log) (recs : list Material) : option error :=
  match recs with
  | [] => None
  | r :: recs' =>
      if Local_IsEmpty (Material_ID r) then Some (Errorf "id is empty")
      else
        match Marshal r with
        | Fail e => Some e
        | Good _ =>
            if decide (Material_ID r ∈ Material_ID <$> l) then Some object_ErrOverride
            else batch_error (l ++ [r]) recs'
        end
  end.

Lemma setRecord_result db l r :
  stored db l -> record_id (Material_ID r) ->
  setRecord db r =
  match Marshal r with
  | Fail e => Fail e
  | Good v => if decide (Material_ID r ∈ Material_ID <$> l) then Fail object_ErrOverride
              else Good (store_Set db (Material_ID r) v)
  end.
Proof.
  intros Hst Hid. unfold setRecord. destruct (Marshal r) as [v|]; [|done].
  cbn [mbind result_bind]. unfold store_Get. destruct (decide _) as [(q & Eq & Hq)%list_elem_of_fmap|Hout].
  - destruct (st_in _ _ Hst q Hq) as (w & _ & Hw). by rewrite Eq, Hw.
  - destruct (db !! fullKey (Material_ID r)) as [w|] eqn:E; [|done]. exfalso. apply Hout.
    destruct (st_only _ _ Hst _ _ E) as (q & Hq & Hk). apply list_elem_of_fmap. exists q. split; [|done].
    pose proof (st_ids _ _ Hst) as Hids. rewrite list.Forall_forall in Hids.
    apply Local_AsBytes_inj; [apply Hid|by apply Hids|done].
Qed.

Lemma BatchSet_loop_error recs db l cur pos :
  stored db l -> Forall (fun r => Local_IsEmpty (Material_ID r) = true \/ record_id (Material_ID r)) recs ->
  match BatchSet_loop db recs cur pos with Good _ => None | Fail e => Some e end = batch_error l recs.
Proof.
  revert db l cur pos. induction recs as [|r recs IH]; intros db l cur pos Hst Hids; [done|].
  apply list.Forall_cons in Hids as [Hid Hids]. cbn [BatchSet_loop batch_error].
  destruct (Local_IsEmpty _) eqn:He; [done|]. destruct Hid as [|Hid]; [done|].
  pose proof (setRecord_result db l r Hst Hid) as E. destruct (setRecord db r) as [db1|e] eqn:E1.
  - destruct (Marshal r); [|done]. destruct (decide _); [done|]. cbn [mbind result_bind].
    destruct (setRecord_stored _ _ _ _ Hst Hid E1) as (v & _ & Hst1).
    destruct (cur =? _); apply IH; try done; repeat apply stored_frame; done.
  - cbn [mbind result_bind]. destruct (Marshal r); [|by injection E as ->]. by destruct (decide _); simplify_eq.
Qed.

Lemma badger_BatchSet_keeps db l recs :
  badger_keeps db l ->
  Forall (fun r => Local_IsEmpty (Material_ID r) = true \/ record_id (Material_ID r)) recs ->
  positions_fit (l ++ recs) ->
  exists db', badger_BatchSet db recs = Ret (db', batch_error l recs) /\
    match batch_error l recs with Some _ => db' = db | None => badger_keeps db' (l ++ recs) end.
Proof.
  intros [Hst Hpo] Hids Hfit. unfold badger_BatchSet.
  destruct recs as [|r recs]; [exists db; split; [done|]; by rewrite app_nil_r|]. cbn [length Nat.eqb].
  pose proof (BatchSet_loop_error (r :: recs) db l 0 0 Hst Hids) as E. unfold store_Update.
  destruct (BatchSet_loop db (r :: recs) 0 0) as [db'|e] eqn:El; rewrite <- E; [|by exists db].
  exists db'. split; [done|].
  assert (Hz : length (of_pulse l 0) = 0%nat).
  { apply length_zero_iff_nil, filter_none. intros q Hq Hp. pose proof (st_ids _ _ Hst) as Hall.
    rewrite list.Forall_forall in Hall. pose proof (record_id_bound _ (Hall q Hq)). lia. }
  apply (BatchSet_loop_keeps _ db l 0); [done..|lia|by left| |done|by rewrite Hz].
  clear -E Hids. revert l E. induction (r :: recs) as [|q k IH]; intros l E; [done|].
  apply list.Forall_cons in Hids as [Hq Hids]. cbn [batch_error] in E.
  destruct (Local_IsEmpty _); [done|]. constructor; [by destruct Hq|].
  destruct (Marshal q); [|done]. destruct (decide _); [done|]. by eapply IH.
Qed.

#[export, refine] Instance BadgerRecordDB_lawful : LawfulRecords DB := { keeps := badger_keeps }.
Proof.
  - intros db l [Hst _]. apply Hst.
  - intros db l [_ Hpo]. apply Hpo.
  - intros db l id. apply badger_ForID_keeps.
  - intros db l pn [_ Hpo] Hpn. cbn. unfold badger_LastKnownPosition.
    by rewrite (getLastKnownPosition_positioned _ _ _ Hpo Hpn).
  - intros db l pn position. apply badger_AtPosition_keeps.
  - intros db l recs db' e Hk Hids Hfit E.
    destruct (badger_BatchSet_keeps db l recs Hk) as (db2 & E2 & Hk2); [|done|].
    + eapply list.Forall_impl; [exact Hids|]. intros r [Hr _]. by right.
    + change (badger_BatchSet db recs = Ret (db', e)) in E. rewrite E2 in E. injection E as -> Ee.
      rewrite Ee in Hk2. destruct e; [by subst|done].
  - intros db l from. apply badger_TruncateHead_keeps.
Defined.

Lemma badger_keeps_nil : badger_keeps ∅ [].
Proof.
  split; split.
  - constructor.
  - constructor.
  - by intros r ?%elem_of_nil.
  - intros k v. by rewrite lookup_empty.
  - done.
  - intros pn pos _ _. rewrite lookup_empty. by destruct (decide _).
  - intros pn _ _. by rewrite lookup_empty.
  - intros k v. by rewrite lookup_empty.
Qed.

(** ** Properties *)

(** C17: Whatever batch it is given, the storage takes it as a whole or refuses it
    without a change: refused are the batch with an empty identifier, with a
    record that cannot be encoded, and with an identifier that is stored or
    comes twice; otherwise every pulse gets its records of the batch at the
    positions that follow, and each of them is read back. *)
Theorem BatchSet_all_or_nothing db l recs :
  badger_keeps db l ->
  Forall (fun r => Local_IsEmpty (Material_ID r) = true \/ record_id (Material_ID r)) recs ->
  positions_fit (l ++ recs) ->
  exists db', BatchSet db recs = Ret (db', batch_error l recs) /\
    match batch_error l recs with
    | Some _ => db' = db
    | None =>
        badger_keeps db' (l ++ recs) /\
        (forall r, r ∈ recs -> records_ForID db' (Material_ID r) = Ret (Good r)) /\
        (forall pn i r, of_pulse recs pn !! i = Some r ->
           AtPosition db' pn (Z.of_nat (length (of_pulse l pn) + i + 1)) = Ret (Good (Material_ID r)))
    end.
Proof.
  intros Hk Hids Hfit. destruct (badger_BatchSet_keeps db l recs Hk Hids Hfit) as (db' & E & Hk').
  exists db'. split; [exact E|]. destruct (batch_error l recs); [done|]. split; [done|].
  assert (Hid : forall r, r ∈ recs -> record_id (Material_ID r)).
  { intros r Hr. pose proof (st_ids _ _ (proj1 Hk')) as Hall. rewrite list.Forall_forall in Hall.
    apply Hall, elem_of_app. by right. }
  split.
  - intros r Hr. destruct (badger_ForID_keeps db' _ _ Hk' (Hid r Hr)) as [(q & Eq & Hq & Hqr)|[_ Hout]].
    + assert (q = r) as ->; [|done]. apply list_elem_of_lookup in Hq as [i Hi].
      assert (Hr' : r ∈ l ++ recs) by (apply elem_of_app; by right). apply list_elem_of_lookup in Hr' as [j Hj].
      assert (i = j) as ->; [|congruence].
      eapply NoDup_lookup; [apply (proj1 Hk')|rewrite list_lookup_fmap, Hi; reflexivity|].
      by rewrite list_lookup_fmap, Hj, Hqr.
    + destruct Hout. apply list_elem_of_fmap. exists r. split; [done|]. apply elem_of_app. by right.
  - intros pn i r Hi. pose proof (list_elem_of_lookup_2 _ _ _ Hi) as [Hp Hr]%list_elem_of_filter.
    pose proof (record_id_range _ (Hid r Hr)) as Hpn. rewrite Hp in Hpn.
    pose proof (Hfit pn) as Hlen. rewrite of_pulse_app, length_app in Hlen. apply lookup_lt_Some in Hi as Hlt.
    change (AtPosition db') with (badger_AtPosition db').
    rewrite (badger_AtPosition_keeps _ _ _ _ Hk') by lia. unfold log_AtPosition. rewrite decide_True by lia.
    replace (Z.to_nat _) with (length (of_pulse l pn) + i)%nat by lia.
    by rewrite of_pulse_app, lookup_app_r, Nat.add_sub', Hi by lia.
Qed.
End Keeps.
