(* ===== verification/PostgresRecords.v ===== *)
(** * The record storage over a relational database
    (src/ledger/object/postgres_record_db.go)

    Two tables: the records with their pulse and position, and the last
    position of each pulse.  Unlike the storage over the key-value store it
    does not refuse a record that is already stored. *)
From S2P Require Import Prelude Pulse Reference Records Store Tables RecordStorage.

(** The columns of the table records beside its primary key. *)
Record record_row : Type := mkRecordRow {
  row_record_id : bytes;
  row_object_id : bytes;
  row_jet_id : bytes;
  row_signature : bytes;
  row_virtual : bytes;
}.
Record PostgresRecordDB : Type := mkPgRecords {
  table_records : gmap (Z * Z) record_row;
  records_last_position : gmap Z Z;
}.

Section PostgresRecords.
Context `{RowOrder} `{Codec Virtual}.

Definition insertRecord (tx : PostgresRecordDB) (rec : Material) : result PostgresRecordDB :=
  let pn := Local_Pulse (Material_ID rec) in
  (* INSERT ... ON CONFLICT(pulse_number) DO UPDATE SET position = position + 1 *)
  let position := match records_last_position tx !! pn with Some p => p + 1 | None => 1 end in
  let last_position := <[pn := position]> (records_last_position tx) in
  match Marshal (Material_Virtual rec) with
  | Fail e => Fail (Wrap e "rec.Virtual.Marshal failed")
  | Good virtualBinary =>
      let row := mkRecordRow (Local_AsBytes (Material_ID rec)) (Local_AsBytes (Material_ObjectID rec))
                   (Local_AsBytes (Material_JetID rec)) (Material_Signature rec) virtualBinary in
      match insert_row (table_records tx) (pn, position) row with
      | None => Fail (Wrap (Errorf "SQLSTATE 23505") "Unable to INSERT into records")
      | Some t => Good (mkPgRecords t last_position)
      end
  end.

Fixpoint insertRecords (tx : PostgresRecordDB) (recs : list Material) : result PostgresRecordDB :=
  match recs with
  | [] => Good tx
  | rec :: recs' => tx ← insertRecord tx rec; insertRecords tx recs'
  end.
Definition pg_BatchSet (t : PostgresRecordDB) (recs : list Material) : go (PostgresRecordDB * option error) :=
  Ret (match insertRecords t recs with Good t' => (t', None) | Fail e => (t, Some e) end).

Definition scan_record (id : Local) (row : record_row) : result Material :=
  objectID ← wrap_err (Local_Unmarshal emptyLocal (row_object_id row)) "Unable to unmarshal objIDSlice";
  jetID ← wrap_err (Local_Unmarshal emptyLocal (row_jet_id row)) "Unable to unmarshal jetIDSlice";
  virtual ← wrap_err (Unmarshal (row_virtual row)) "Unable to unmarshal virtualSlice";
  Good (mkMaterial virtual id objectID jetID (row_signature row)).

Definition pg_ForID (t : PostgresRecordDB) (id : Local) : go (result Material) :=
  Ret (match QueryRow (filter (fun row => row_record_id row.2 = Local_AsBytes id) (rows_of (table_records t))) with
       | None => Fail object_ErrNotFound
       | Some (_, row) => scan_record id row
       end).

(** The primary key leaves at most one row; positions are scanned into a
    uint32. *)
Definition pg_LastKnownPosition (t : PostgresRecordDB) (pn : Z) : go (result Z) :=
  Ret (match records_last_position t !! pn with
       | None => Fail object_ErrNotFound
       | Some p => if decide (0 <= p < 2^32) then Good p
                   else Fail (Wrap (Errorf "scan") "Unable to SELECT from records_last_position")
       end).
Definition pg_AtPosition (t : PostgresRecordDB) (pn position : Z) : go (result Local) :=
  Ret (match table_records t !! (pn, position) with
       | None => Fail object_ErrNotFound
       | Some row => wrap_err (Local_Unmarshal emptyLocal (row_record_id row)) "Unable to unmarshal recordIDSlice"
       end).

Definition pg_records_TruncateHead (t : PostgresRecordDB) (from : Z) : go (PostgresRecordDB * option error) :=
  Ret (mkPgRecords (keep_rows (fun k : Z * Z => k.1 < from) (table_records t))
         (keep_rows (fun pn => pn < from) (records_last_position t)), None).

#[export] Instance PostgresRecords : RecordStorage PostgresRecordDB := {
  BatchSet := pg_BatchSet;
  records_ForID := pg_ForID;
  LastKnownPosition := pg_LastKnownPosition;
  AtPosition := pg_AtPosition;
  records_TruncateHead := pg_records_TruncateHead;
}.

(** ** What the tables keep *)
Definition row_of (r : Material) (v : bytes) : record_row :=
  mkRecordRow (Local_AsBytes (Material_ID r)) (Local_AsBytes (Material_ObjectID r))
    (Local_AsBytes (Material_JetID r)) (Material_Signature r) v.

(** The record at a position of the log. *)
Definition at_position (l : record_log) (k : Z * Z) : option Material :=
  if decide (1 <= k.2) then of_pulse l k.1 !! Z.to_nat (k.2 - 1) else None.

Record pg_keeps (t : PostgresRecordDB) (l : record_log) : Prop := {
  pk_ok : Forall material_ok l;
  pk_fit : positions_fit l;
  pk_last pn : records_last_position t !! pn =
    let n := length (of_pulse l pn) in if (n =? 0)%nat then None else Some (Z.of_nat n);
  pk_rows k : match at_position l k with
              | Some r => exists v, Marshal (Material_Virtual r) = Good v /\
                                    table_records t !! k = Some (row_of r v)
              | None => table_records t !! k = None
              end;
}.

Lemma at_position_snoc l rec k :
  let pn := Local_Pulse (Material_ID rec) in
  at_position (l ++ [rec]) k =
  if decide (k = (pn, Z.of_nat (length (of_pulse l pn)) + 1)) then Some rec else at_position l k.
Proof.
  intros pn. destruct k as [q pos]. unfold at_position. cbn [fst snd]. rewrite of_pulse_snoc. fold pn.
  destruct (decide ((q, pos) = _)) as [[= -> ->]|Hne].
  - rewrite !decide_True by (done || lia).
    replace (Z.to_nat _) with (length (of_pulse l pn) + 0)%nat by lia.
    by rewrite lookup_app_r, Nat.add_sub' by lia.
  - destruct (decide (1 <= pos)); [|done]. destruct (decide (pn = q)) as [<-|]; [|done].
    destruct (Nat.lt_total (Z.to_nat (pos - 1)) (length (of_pulse l pn))) as [Hlt|[Heq|Hgt]].
    + by rewrite lookup_app_l.
    + destruct Hne. f_equal. lia.
    + rewrite !lookup_ge_None_2; [done|lia|]. rewrite length_app. cbn. lia.
Qed.

Lemma insertRecord_keeps t l rec :
  pg_keeps t l -> material_ok rec -> positions_fit (l ++ [rec]) ->
  match insertRecord t rec with
  | Good t' => pg_keeps t' (l ++ [rec])
  | Fail e => exists e', Marshal (Material_Virtual rec) = Fail e'
  end.
Proof.
  intros [H1 H2 H3 H4] Hrec Hfit. unfold insertRecord. set (pn := Local_Pulse (Material_ID rec)).
  destruct (Marshal (Material_Virtual rec)) as [v|e] eqn:Ev; [|by exists e].
  assert (Hpos : match records_last_position t !! pn with Some p => p + 1 | None => 1 end =
                 Z.of_nat (length (of_pulse l pn)) + 1).
  { rewrite H3. cbn zeta. by destruct (Nat.eqb_spec (length (of_pulse l pn)) 0) as [->|]. }
  rewrite Hpos. unfold insert_row.
  pose proof (H4 (pn, Z.of_nat (length (of_pulse l pn)) + 1)) as Hfree. unfold at_position in Hfree.
  cbn [fst snd] in Hfree. rewrite decide_True, lookup_ge_None_2 in Hfree by lia. rewrite Hfree. split; cbn.
  - apply list.Forall_app. split; [done|]. by constructor.
  - done.
  - intros q. rewrite of_pulse_snoc. fold pn. destruct (decide (pn = q)) as [<-|Hne].
    + rewrite lookup_insert_eq, length_app. cbn [length]. destruct (Nat.eqb_spec (length (of_pulse l pn) + 1) 0); [lia|].
      f_equal. lia.
    + rewrite lookup_insert_ne by done. apply H3.
  - intros k. rewrite at_position_snoc. fold pn. destruct (decide (k = _)) as [->|Hne].
    + exists v. split; [done|]. by rewrite lookup_insert_eq.
    + rewrite lookup_insert_ne by done. apply H4.
Qed.

Lemma insertRecords_keeps recs t l :
  pg_keeps t l -> Forall material_ok recs -> positions_fit (l ++ recs) ->
  match insertRecords t recs with
  | Good t' => pg_keeps t' (l ++ recs)
  | Fail _ => exists r e, r ∈ recs /\ Marshal (Material_Virtual r) = Fail e
  end.
Proof.
  revert t l. induction recs as [|rec recs IH]; intros t l Ht Hok Hfit; cbn [insertRecords].
  { by rewrite app_nil_r. }
  apply list.Forall_cons in Hok as [Hrec Hok].
  rewrite (assoc_L (++) l [rec] recs : l ++ rec :: recs = _) in Hfit |- *.
  pose proof (insertRecord_keeps t l rec Ht Hrec (positions_fit_prefix _ _ Hfit)) as E.
  destruct (insertRecord t rec) as [t1|e]; cbn [mbind result_bind].
  - specialize (IH t1 _ E Hok Hfit). destruct (insertRecords t1 recs); [done|].
    destruct IH as (r & e' & Hr & He). exists r, e'. split; [by right|done].
  - destruct E as [e' E]. exists rec, e'. split; [by left|done].
Qed.

Lemma rows_at t l k row :
  pg_keeps t l -> table_records t !! k = Some row ->
  exists r v, at_position l k = Some r /\ r ∈ l /\ Marshal (Material_Virtual r) = Good v /\ row = row_of r v.
Proof.
  intros Ht E. pose proof (pk_rows _ _ Ht k) as Hk. destruct (at_position l k) as [r|] eqn:Ea; [|congruence].
  destruct Hk as (v & Hv & Hr). exists r, v. split_and!; [done| |done|congruence].
  unfold at_position in Ea. destruct (decide _); [|done].
  by apply list_elem_of_lookup_2, list_elem_of_filter in Ea as [_ ?].
Qed.

Lemma Local_column u : Local_wf u -> Local_Unmarshal emptyLocal (Local_AsBytes u) = Good u.
Proof.
  intros Hu. rewrite <- (app_nil_r (Local_AsBytes u)). by apply Local_Unmarshal_AsBytes; [apply emptyLocal_wf|].
Qed.

Lemma scan_record_row r v :
  material_ok r -> Marshal (Material_Virtual r) = Good v -> scan_record (Material_ID r) (row_of r v) = Good r.
Proof.
  intros (_ & Ho & Hj) Hv. unfold scan_record, row_of.
  cbn [row_object_id row_jet_id row_virtual row_signature]. rewrite !Local_column by done.
  cbn [wrap_err mbind result_bind]. rewrite (Unmarshal_Marshal _ _ Hv). by destruct r.
Qed.

Lemma of_pulse_position l r :
  r ∈ l -> exists k, at_position l k = Some r.
Proof.
  intros Hr. assert (Hp : r ∈ of_pulse l (Local_Pulse (Material_ID r))) by (by apply list_elem_of_filter).
  apply list_elem_of_lookup in Hp as [i Hi]. exists (Local_Pulse (Material_ID r), Z.of_nat i + 1).
  unfold at_position. cbn [fst snd]. rewrite decide_True by lia.
  by replace (Z.to_nat _) with i by lia.
Qed.

(** ** The contract *)
Lemma pg_ForID_keeps t l id :
  pg_keeps t l -> record_id id ->
  (exists r, pg_ForID t id = Ret (Good r) /\ r ∈ l /\ Material_ID r = id) \/
  pg_ForID t id = Ret (Fail object_ErrNotFound) /\ (id ∉ (Material_ID <$> l)).
Proof.
  intros Ht Hid. pose proof (pk_ok _ _ Ht) as Hok. rewrite list.Forall_forall in Hok.
  unfold pg_ForID. destruct (QueryRow _) as [[k row]|] eqn:E.
  - left. apply QueryRow_elem, list_elem_of_filter in E as [Erow Hin].
    apply elem_of_map_to_list in Hin. destruct (rows_at t l k row Ht Hin) as (r & v & _ & Hr & Hv & ->).
    destruct (Hok r Hr) as (Hrid & _). cbn [snd row_of row_record_id] in Erow.
    apply Local_AsBytes_inj in Erow as <-; [|apply Hrid|apply Hid]. exists r.
    by rewrite (scan_record_row r v (Hok r Hr) Hv).
  - right. split; [done|]. intros (r & -> & Hr)%list_elem_of_fmap. apply QueryRow_none in E.
    destruct (of_pulse_position l r Hr) as (k & Hk). pose proof (pk_rows _ _ Ht k) as Hrow. rewrite Hk in Hrow.
    destruct Hrow as (v & _ & Hrow). apply (not_elem_of_nil (k, row_of r v)). rewrite <- E.
    apply list_elem_of_filter. split; [done|]. by apply elem_of_map_to_list.
Qed.

Lemma at_position_truncate l from k :
  at_position (log_TruncateHead l from) k = if decide (k.1 < from) then at_position l k else None.
Proof.
  unfold at_position. rewrite of_pulse_truncate. destruct (decide (1 <= k.2)), (decide (k.1 < from)); done.
Qed.

Lemma pg_TruncateHead_keeps t l from :
  pg_keeps t l ->
  pg_keeps (mkPgRecords (keep_rows (fun k : Z * Z => k.1 < from) (table_records t))
              (keep_rows (fun pn => pn < from) (records_last_position t))) (log_TruncateHead l from).
Proof.
  intros [H1 H2 H3 H4]. split; cbn [table_records records_last_position].
  - unfold log_TruncateHead. rewrite list.Forall_forall in H1 |- *. intros r [_ Hr]%list_elem_of_filter. by apply H1.
  - by apply positions_fit_truncate.
  - intros pn. rewrite lookup_keep_rows, of_pulse_truncate. by destruct (decide (pn < from)).
  - intros k. rewrite at_position_truncate, lookup_keep_rows. destruct (decide (k.1 < from)); [apply H4|done].
Qed.

#[export, refine] Instance PostgresRecords_lawful : LawfulRecords PostgresRecordDB := { keeps := pg_keeps }.
Proof.
  - intros t l Ht. eapply list.Forall_impl; [apply Ht|]. by intros r [Hr _].
  - intros t l Ht. apply Ht.
  - intros t l id. apply pg_ForID_keeps.
  - intros t l pn Ht Hpn. cbn. unfold pg_LastKnownPosition, log_LastKnownPosition. rewrite (pk_last _ _ Ht).
    cbn zeta. destruct (Nat.eqb_spec (length (of_pulse l pn)) 0); [done|]. pose proof (pk_fit _ _ Ht pn).
    by rewrite decide_True by lia.
  - intros t l pn position Ht Hpn Hpos. cbn. unfold pg_AtPosition, log_AtPosition.
    pose proof (pk_rows _ _ Ht (pn, position)) as Hrow. unfold at_position in Hrow. cbn [fst snd] in Hrow.
    destruct (decide (1 <= position)); [|by rewrite Hrow].
    destruct (of_pulse l pn !! _) as [r|] eqn:E; [|by rewrite Hrow].
    destruct Hrow as (v & _ & ->). cbn [row_of row_record_id]. rewrite Local_column; [done|].
    apply list_elem_of_lookup_2, list_elem_of_filter in E as [_ Hr].
    pose proof (pk_ok _ _ Ht) as Hok. rewrite list.Forall_forall in Hok. by apply Hok.
  - intros t l recs t' e Ht Hok Hfit E. pose proof (insertRecords_keeps recs t l Ht Hok Hfit) as Hi.
    cbn in E. unfold pg_BatchSet in E. destruct (insertRecords t recs); by injection E as <- <-.
  - intros t l from Ht _. eexists. split; [reflexivity|]. by apply pg_TruncateHead_keeps.
Defined.

Lemma pg_keeps_nil : pg_keeps (mkPgRecords ∅ ∅) [].
Proof.
  split; [constructor|done| |]; cbn.
  - intros pn. by rewrite lookup_empty.
  - intros k. unfold at_position. by destruct (decide _).
Qed.
End PostgresRecords.
