(* ===== verification/RecordStoragesAgree.v ===== *)
(** * The two record storages agree
    (src/ledger/object: badger_record_db.go and postgres_record_db.go)

    As long as the key-value storage accepts what it is given, the relational
    one accepts it too and answers the same.  They part where a record comes
    twice. *)
From S2P Require Import Prelude Pulse Reference Records Store Tables RecordStorage BadgerRecords PostgresRecords.

Inductive record_op : Type :=
  | OpBatch (recs : list Material)
  | OpTruncate (from : Z).

Section Ops.
Context `{RecordStorage St}.
Definition apply_op (s : St) (o : record_op) : go (St * option error) :=
  match o with OpBatch recs => BatchSet s recs | OpTruncate from => records_TruncateHead s from end.
(** A caller that stops at the first error. *)
Fixpoint apply_ops (s : St) (ops : list record_op) : go (result St) :=
  match ops with
  | [] => Ret (Good s)
  | o :: ops' =>
      r ← apply_op s o;
      match r with
      | (s, None) => apply_ops s ops'
      | (_, Some e) => Ret (Fail e)
      end
  end.
End Ops.

Definition log_op (l : record_log) (o : record_op) : record_log :=
  match o with OpBatch recs => l ++ recs | OpTruncate from => log_TruncateHead l from end.
Definition op_records (o : record_op) : list Material :=
  match o with OpBatch recs => recs | OpTruncate _ => [] end.
Definition op_ok (o : record_op) : Prop :=
  match o with OpBatch recs => Forall material_ok recs | OpTruncate from => 0 < from <= MaxTimePulse end.

(** Counting records per pulse bounds every log on the way. *)
Definition fits_with (l : record_log) (ops : list record_op) : Prop :=
  positions_fit (l ++ (ops ≫= op_records)).

Lemma fits_with_step l o ops :
  fits_with l (o :: ops) -> positions_fit (log_op l o) /\ fits_with (log_op l o) ops.
Proof.
  unfold fits_with. cbn [mbind list_bind]. intros Hf.
  assert (Hle : forall pn, (length (of_pulse (log_op l o) pn) <= length (of_pulse (l ++ op_records o) pn))%nat).
  { intros pn. destruct o as [recs|from]; cbn [log_op op_records]; [done|].
    rewrite app_nil_r, of_pulse_truncate. destruct (decide _); [done|]. cbn. lia. }
  split; intros pn; specialize (Hf pn); specialize (Hle pn); rewrite !of_pulse_app, !length_app in *; lia.
Qed.

Lemma lawful_op `{LawfulRecords St} (s : St) l o s' :
  keeps s l -> op_ok o -> positions_fit (log_op l o) -> apply_op s o = Ret (s', None) -> keeps s' (log_op l o).
Proof.
  intros Hs Ho Hf E. destruct o as [recs|from]; cbn [apply_op log_op op_ok] in *.
  - by apply (BatchSet_law s l recs s' None).
  - destruct (records_TruncateHead_law s l from Hs Ho) as (s2 & E2 & Hk). rewrite E in E2. by injection E2 as ->.
Qed.

Section Agree.
Context `{RowOrder} `{!Codec Material} `{!Codec Virtual}.
(** A record that can be encoded has a part that can. *)
Context (Hvirtual : forall r b, Marshal r = Good b -> is_good (Marshal (Material_Virtual r)) = true).

Lemma accepted_encodes l recs :
  batch_error l recs = None -> Forall (fun r => is_good (Marshal (Material_Virtual r)) = true) recs.
Proof.
  revert l. induction recs as [|r recs IH]; intros l E; [done|]. cbn [batch_error] in E.
  destruct (Local_IsEmpty _); [done|]. destruct (Marshal r) eqn:Em; [|done].
  destruct (decide _); [done|]. constructor; [by eapply Hvirtual|by eapply IH].
Qed.

Lemma pg_accepts (db : DB) (t : PostgresRecordDB) l o db' :
  keeps db l -> keeps t l -> op_ok o -> positions_fit (log_op l o) -> apply_op db o = Ret (db', None) ->
  exists t', apply_op t o = Ret (t', None) /\ keeps t' (log_op l o).
Proof.
  intros Hdb Ht Ho Hf E. destruct o as [recs|from]; cbn [apply_op log_op op_ok] in *.
  - destruct (badger_BatchSet_keeps db l recs Hdb) as (db2 & E2 & _); [|done|].
    { eapply list.Forall_impl; [exact Ho|]. intros r [Hr _]. by right. }
    change (badger_BatchSet db recs = Ret (db', None)) in E. rewrite E2 in E. injection E as _ Eb.
    apply accepted_encodes in Eb. pose proof (insertRecords_keeps recs t l Ht Ho Hf) as Hi.
    change (BatchSet t recs) with (pg_BatchSet t recs). unfold pg_BatchSet.
    destruct (insertRecords t recs) as [t'|e]; [by exists t'|].
    destruct Hi as (r & e' & Hr & He). rewrite list.Forall_forall in Eb. specialize (Eb r Hr). by rewrite He in Eb.
  - destruct (records_TruncateHead_law t l from Ht Ho) as (t' & E2 & Hk). by exists t'.
Qed.

(** C18: Any sequence of batches and truncations that the key-value storage
    accepts, starting from nothing, is accepted by the relational storage; the
    last positions and the identifier at every position are then the same,
    and so is every record. *)
Theorem record_storages_agree ops db :
  Forall op_ok ops -> fits_with [] ops -> apply_ops (∅ : DB) ops = Ret (Good db) ->
  exists t, apply_ops (mkPgRecords ∅ ∅) ops = Ret (Good t) /\
    (forall pn, 0 < pn < 2^32 -> LastKnownPosition t pn = LastKnownPosition db pn) /\
    (forall pn position, 0 < pn < 2^32 -> 0 <= position < 2^32 ->
       AtPosition t pn position = AtPosition db pn position) /\
    (forall id, record_id id -> records_ForID t id = records_ForID db id).
Proof.
  intros Hok Hfit E.
  assert (Hgen : forall ops (db0 : DB) (t0 : PostgresRecordDB) l, Forall op_ok ops -> fits_with l ops ->
    keeps db0 l -> keeps t0 l -> apply_ops db0 ops = Ret (Good db) ->
    exists t l', apply_ops t0 ops = Ret (Good t) /\ keeps db l' /\ keeps t l').
  { clear ops Hok Hfit E. intros ops. induction ops as [|o ops IH]; intros db0 t0 l Hok Hfit Hdb Ht E.
    { injection E as <-. by exists t0, l. }
    apply list.Forall_cons in Hok as [Ho Hok]. apply fits_with_step in Hfit as [Hf Hfit].
    cbn [apply_ops] in E |- *. destruct (apply_op db0 o) as [[db1 [e|]]|] eqn:E1; [done| |done].
    destruct (pg_accepts db0 t0 l o db1 Hdb Ht Ho Hf E1) as (t1 & Et & Ht1). rewrite Et. cbn [mbind go_bind].
    apply (IH db1 t1 (log_op l o)); [done..| |done|done]. by apply (lawful_op db0 l). }
  destruct (Hgen ops ∅ (mkPgRecords ∅ ∅) [] Hok Hfit badger_keeps_nil pg_keeps_nil E) as (t & l & Et & Hdb & Ht).
  exists t. split_and!; [done|..].
  - intros pn Hpn. by rewrite (LastKnown_law t l pn Ht Hpn), (LastKnown_law db l pn Hdb Hpn).
  - intros pn position Hpn Hpos. by rewrite (AtPosition_law t l), (AtPosition_law db l).
  - intros id Hid.
    destruct (ForID_law t l id Ht Hid) as [(r & -> & Hr & Er)|[-> Hn]],
      (ForID_law db l id Hdb Hid) as [(q & -> & Hq & Eq)|[-> Hm]]; [|exfalso|exfalso|done].
    + do 2 f_equal. apply list_elem_of_lookup in Hr as [i Hi], Hq as [j Hj].
      assert (i = j) as ->; [|congruence]. pose proof (st_nodup _ _ (proj1 Hdb)) as Hnd.
      eapply NoDup_lookup; [exact Hnd| |]; rewrite list_lookup_fmap, ?Hi, ?Hj; cbn; [done|congruence].
    + apply Hm, list_elem_of_fmap. by exists r.
    + apply Hn, list_elem_of_fmap. by exists q.
Qed.
End Agree.

(** ** Where they part, and a run at work *)
Section Samples.
Definition sampleRecord (n : Z) : Material :=
  mkMaterial (mkVirtual None [n]) (mkLocal 65547 (replicate 28 n)) emptyLocal emptyLocal [].
Definition sample_codec : Codec Material := table_codec (sampleRecord <$> [1; 2; 3]).
Definition sample_virtuals : Codec Virtual := table_codec ((fun n => mkVirtual None [n]) <$> [1; 2; 3]).

Lemma sampleRecord_ok n : is_byte n -> material_ok (sampleRecord n).
Proof.
  intros Hn. split; [|split; apply emptyLocal_wf]. split; [|by vm_compute].
  split; [by vm_compute|]. split; [done|]. by apply Forall_replicate.
Qed.

(** The relational storage takes a record a second time, at a second position;
    the key-value storage forbids it. *)
Lemma postgres_takes_duplicates :
  apply_ops (H:=PostgresRecords (H:=stored_order) (H0:=sample_virtuals)) (mkPgRecords ∅ ∅)
    [OpBatch [sampleRecord 1]; OpBatch [sampleRecord 1]] ≫=
    (fun r => match r with Good t => pg_AtPosition t 65547 2 | Fail e => Ret (Fail e) end) =
  Ret (Good (Material_ID (sampleRecord 1))) /\
  apply_ops (H:=BadgerRecordDB (H:=sample_codec)) (∅ : DB)
    [OpBatch [sampleRecord 1]; OpBatch [sampleRecord 1]] = Ret (Fail object_ErrOverride).
Proof. split; by vm_compute. Qed.

(** A batch of two records, written at the first two positions. *)
Definition sampleBatch : list Material := [sampleRecord 1; sampleRecord 2].

Lemma sampleBatch_ok : Forall material_ok sampleBatch.
Proof. repeat apply list.Forall_cons_2; [..|done]; by apply sampleRecord_ok. Qed.

Lemma BatchSet_all_or_nothing_witness :
  exists db, BatchSet (RecordStorage:=BadgerRecordDB (H:=sample_codec)) ∅ sampleBatch = Ret (db, None) /\
    records_ForID (RecordStorage:=BadgerRecordDB (H:=sample_codec)) db (Material_ID (sampleRecord 2)) = Ret (Good (sampleRecord 2)) /\
    AtPosition (RecordStorage:=BadgerRecordDB (H:=sample_codec)) db 65547 2 = Ret (Good (Material_ID (sampleRecord 2))).
Proof.
  destruct (BatchSet_all_or_nothing (H:=sample_codec) ∅ [] sampleBatch) as (db & E & Hm).
  - apply badger_keeps_nil.
  - eapply list.Forall_impl; [exact sampleBatch_ok|]. intros r Hr. right. exact (proj1 Hr).
  - by apply positions_fit_short.
  - assert (Ee : batch_error (H:=sample_codec) [] sampleBatch = None) by (vm_compute; reflexivity).
    rewrite Ee in E, Hm. destruct Hm as (_ & Hr & Hp). exists db. split; [exact E|]. split.
    + apply Hr. right. left.
    + apply (Hp 65547 1%nat (sampleRecord 2)). vm_compute. reflexivity.
Defined.

(** Two batches and a truncation, read back from both storages. *)
Definition sampleOps : list record_op := [OpBatch sampleBatch; OpTruncate 65548; OpBatch [sampleRecord 3]].

Lemma sampleOps_ok : Forall op_ok sampleOps.
Proof.
  apply list.Forall_cons_2; [exact sampleBatch_ok|].
  apply list.Forall_cons_2; [cbn [op_ok]; change MaxTimePulse with (2^30 - 1); lia|].
  apply list.Forall_cons_2; [|apply list.Forall_nil_2].
  apply list.Forall_cons_2; [|apply list.Forall_nil_2]. apply sampleRecord_ok. unfold is_byte. lia.
Qed.

Lemma sample_virtuals_encode r b :
  Marshal (Codec:=sample_codec) r = Good b -> is_good (Marshal (Codec:=sample_virtuals) (Material_Virtual r)) = true.
Proof.
  cbn [Marshal sample_codec table_codec]. unfold table_Marshal.
  destruct (index_in r _) as [n|] eqn:E; [|done]. intros _. apply index_in_lookup in E.
  destruct n as [|[|[|n]]]; [injection E as <-; by vm_compute..|done].
Qed.

Lemma record_storages_agree_witness :
  exists db t, apply_ops (H:=BadgerRecordDB (H:=sample_codec)) ∅ sampleOps = Ret (Good db) /\
    apply_ops (H:=PostgresRecords (H:=stored_order) (H0:=sample_virtuals)) (mkPgRecords ∅ ∅) sampleOps = Ret (Good t) /\
    AtPosition (RecordStorage:=PostgresRecords (H:=stored_order) (H0:=sample_virtuals)) t 65547 3 =
    AtPosition (RecordStorage:=BadgerRecordDB (H:=sample_codec)) db 65547 3.
Proof.
  assert (Hs : match apply_ops (H:=BadgerRecordDB (H:=sample_codec)) ∅ sampleOps with Ret (Good _) => True | _ => False end)
    by (vm_compute; exact Logic.I).
  destruct (apply_ops (H:=BadgerRecordDB (H:=sample_codec)) ∅ sampleOps) as [[db|]|] eqn:E; [|destruct Hs..].
  exists db. edestruct (record_storages_agree (H:=stored_order) (Codec0:=sample_codec) (Codec1:=sample_virtuals) sample_virtuals_encode) as (t & Et & _ & Hp & _);
    [| |exact E|].
  - exact sampleOps_ok.
  - by apply positions_fit_short.
  - exists t. split; [done|]. split; [exact Et|]. apply Hp; lia.
Defined.
End Samples.
