(* ===== verification/IndexStorage.v ===== *)
(** * Storages of indexes on the heavy node: the contract
    (src/ledger/object/index.go)

    An index (the lifeline of an object) is kept per pulse and object; for
    each object the storage knows pulses it was synced in.  BadgerIndexes.v
    and PostgresIndexes.v implement it. *)
From S2P Require Import Prelude Pulse Reference Records RecordStorage.

(** Objects: identifiers of time pulses. *)
Definition object_id (id : Local) : Prop := record_id id /\ MinTimePulse <= Local_Pulse id.

(** Indexes whose identifiers are those of records. *)
Record index_ok (b : Index) : Prop := {
  ok_obj : object_id (ObjID b);
  ok_pending : Forall record_id (PendingRecords b);
  ok_state id : LatestState (Index_Lifeline b) = Some id -> record_id id;
  ok_request id : LatestRequest (Index_Lifeline b) = Some id -> record_id id;
  ok_parent_ref : Global_wf (Parent (Index_Lifeline b));
}.

Abbreviation index_table := (gmap (Z * Local) Index).
(** The pulses an object may be answered from when asked for its latest index. *)
Abbreviation known_pulses := (gmap Local (gset Z)).

Definition known_for (known : known_pulses) (obj : Local) : gset Z := default ∅ (known !! obj).

Lemma known_for_insert known obj ps obj' :
  known_for (<[obj := ps]> known) obj' = if decide (obj' = obj) then ps else known_for known obj'.
Proof.
  unfold known_for. destruct (decide (obj' = obj)) as [->|Hne].
  - by rewrite lookup_insert_eq.
  - by rewrite lookup_insert_ne by done.
Qed.

Class IndexStorage (S : Type) : Type := {
  SetIndex : S -> Z -> Index -> go (S * option error);
  UpdateLastKnownPulse : S -> Z -> go (S * option error);
  index_ForID : S -> Z -> Local -> go (result Index);
  index_ForPulse : S -> Z -> go (result (list Index));
  LastKnownForID : S -> Local -> go (result Index);
  index_TruncateHead : S -> Z -> go (S * option error);
}.

Definition found_index (o : option Index) : result Index :=
  match o with Some b => Good b | None => Fail ErrIndexNotFound end.

(** The answer for the latest index: that of one of the known pulses. *)
Definition last_known_answer (m : index_table) (known : known_pulses) (obj : Local) (r : result Index) : Prop :=
  (known_for known obj = ∅ /\ r = Fail ErrIndexNotFound) \/
  exists pn, pn ∈ known_for known obj /\ r = found_index (m !! (pn, obj)).

Class LawfulIndexes (S : Type) `{IndexStorage S} : Type := {
  has_indexes : S -> index_table -> known_pulses -> Prop;
  has_indexes_ok s m known pn obj b : has_indexes s m known -> m !! (pn, obj) = Some b ->
    0 <= pn < 2^32 /\ object_id obj /\ ObjID b = obj;
  SetIndex_law s m known pn b s' e : has_indexes s m known -> 0 <= pn < 2^32 -> index_ok b ->
    SetIndex s pn b = Ret (s', e) ->
    has_indexes s' (match e with None => <[(pn, ObjID b) := b]> m | Some _ => m end) known;
  UpdateLastKnownPulse_law s m known pn : has_indexes s m known -> 0 <= pn < 2^32 ->
    exists s' known', UpdateLastKnownPulse s pn = Ret (s', None) /\ has_indexes s' m known' /\
      forall obj, if decide (is_Some (m !! (pn, obj)))
                  then pn ∈ known_for known' obj /\ known_for known' obj ⊆ {[pn]} ∪ known_for known obj
                  else known_for known' obj = known_for known obj;
  index_ForID_law s m known pn obj : has_indexes s m known -> 0 <= pn < 2^32 -> object_id obj ->
    exists r, index_ForID s pn obj = Ret r /\
      match m !! (pn, obj) with Some b => r = Good b | None => last_known_answer m known obj r end;
  LastKnownForID_law s m known obj : has_indexes s m known -> object_id obj ->
    exists r, LastKnownForID s obj = Ret r /\ last_known_answer m known obj r;
  index_ForPulse_law s m known pn : has_indexes s m known -> 0 <= pn < 2^32 ->
    exists r, index_ForPulse s pn = Ret r /\
      match r with
      | Good l => l <> [] /\ NoDup (ObjID <$> l) /\ forall b, b ∈ l <-> m !! (pn, ObjID b) = Some b
      | Fail e => e = ErrIndexNotFound /\ forall obj, m !! (pn, obj) = None
      end;
  index_TruncateHead_law s m known from : has_indexes s m known -> 0 <= from < 2^32 ->
    exists s' known', index_TruncateHead s from = Ret (s', None) /\
      has_indexes s' (filter (fun kv => kv.1.1 < from) m) known' /\
      forall obj pn, (pn ∈ known_for known' obj -> pn ∈ known_for known obj) /\
                     (pn < from -> pn ∈ known_for known obj -> pn ∈ known_for known' obj);
}.
