(* ===== verification/BadgerIndexes.v ===== *)
(** * The index storage over the key-value store
    (src/ledger/object/badger_index_db.go)

    An index is stored under its pulse and object; a second scope keeps the
    last synced pulse of each object. *)
From stdpp Require Import sorting.
From S2P Require Import Prelude Pulse Reference Jet Records Store RecordStorage BadgerRecords IndexStorage.

(** ** Keys *)
Record indexKey : Type := mkIndexKey { ik_pn : Z; ik_objID : Local }.
#[export] Instance indexKey_key : Key indexKey := {
  Scope _ := ScopeIndex;
  ID k := be32 (ik_pn k) ++ Local_AsBytes (ik_objID k) }.

Record lastKnownIndexPNKey : Type := mkLastIndexKey { li_objID : Local }.
#[export] Instance lastKnownIndexPNKey_key : Key lastKnownIndexPNKey := {
  Scope _ := ScopeLastKnownIndexPN;
  ID k := be32 (Local_Pulse (li_objID k)) ++ Local_Hash (li_objID k) }.

Definition newIndexKey (raw : bytes) : go indexKey :=
  objID ← NewIDFromBytes (drop 4 raw);
  Ret (mkIndexKey (NewPulseNumber raw) objID).

Section BadgerIndexes.
Context `{Codec Index}.

Definition setBucket (db : DB) (pn : Z) (objID : Local) (bucket : Index) : DB * option error :=
  match Marshal bucket with
  | Fail e => (db, Some e)
  | Good buff => (store_Set db (mkIndexKey pn objID) buff, None)
  end.
Definition getBucket (db : DB) (pn : Z) (objID : Local) : result Index :=
  match store_Get db (mkIndexKey pn objID) with
  | Fail _ => Fail ErrIndexNotFound
  | Good buff => Unmarshal buff
  end.
Definition setLastKnownPN (db : DB) (pn : Z) (objID : Local) : DB :=
  store_Set db (mkLastIndexKey objID) (Number_Bytes pn).
Definition getLastKnownPN (db : DB) (objID : Local) : result Z :=
  buff ← store_Get db (mkLastIndexKey objID); Good (NewPulseNumber buff).

Definition badger_SetIndex (db : DB) (pn : Z) (bucket : Index) : go (DB * option error) :=
  Ret (setBucket db pn (ObjID bucket) bucket).

Fixpoint ForPulse_loop (visited : list (bytes * bytes)) (pn : Z) (indexes : list Index)
    : go (result (list Index)) :=
  match visited with
  | [] => Ret (Good indexes)
  | (rawKey, rawIndex) :: visited' =>
      currentKey ← newIndexKey rawKey;
      if negb (ik_pn currentKey =? pn) then Ret (Good indexes)
      else
        match Unmarshal rawIndex with
        | Fail e => Ret (Fail (Wrap e "Can't unmarshal index"))
        | Good index => ForPulse_loop visited' pn (indexes ++ [index])
        end
  end.
Definition badger_index_ForPulse (db : DB) (pn : Z) : go (result (list Index)) :=
  r ← ForPulse_loop (NewIterator db (mkIndexKey pn emptyLocal) false) pn [];
  Ret (match r with Good [] => Fail ErrIndexNotFound | r => r end).

Definition badger_UpdateLastKnownPulse (db : DB) (topSyncPulse : Z) : go (DB * option error) :=
  r ← badger_index_ForPulse db topSyncPulse;
  Ret (match r with
       | Good indexes => (foldl (fun db index => setLastKnownPN db topSyncPulse (ObjID index)) db indexes, None)
       | Fail e => if decide (e = ErrIndexNotFound) then (db, None)
                   else (db, Some (Wrap e "failed to get indexes for pulse"))
       end).

Definition badger_index_ForID (db : DB) (pn : Z) (objID : Local) : go (result Index) :=
  Ret (match getBucket db pn objID with
       | Good buck => Good buck
       | Fail e =>
           if decide (e = ErrIndexNotFound) then
             match getLastKnownPN db objID with
             | Fail _ => Fail ErrIndexNotFound
             | Good lastPN => getBucket db lastPN objID
             end
           else Fail e
       end).
Definition badger_LastKnownForID (db : DB) (objID : Local) : go (result Index) :=
  Ret (match getLastKnownPN db objID with
       | Fail _ => Fail ErrIndexNotFound
       | Good lastPN => getBucket db lastPN objID
       end).

Definition badger_index_TruncateHead (db : DB) (from : Z) : go (DB * option error) :=
  first ← NewID MinTimePulse [];
  db ← delete_decoded newIndexKey db (NewIterator db (mkIndexKey from first) false);
  Ret (db, None).

#[export] Instance BadgerIndexDB : IndexStorage DB := {
  SetIndex := badger_SetIndex;
  UpdateLastKnownPulse := badger_UpdateLastKnownPulse;
  index_ForID := badger_index_ForID;
  index_ForPulse := badger_index_ForPulse;
  LastKnownForID := badger_LastKnownForID;
  index_TruncateHead := badger_index_TruncateHead;
}.

(** ** What the database has *)
Record indexed (db : DB) (m : index_table) : Prop := {
  ix_in pn obj b : m !! (pn, obj) = Some b ->
    0 <= pn < 2^32 /\ object_id obj /\ ObjID b = obj /\
    exists v, Marshal b = Good v /\ db !! fullKey (mkIndexKey pn obj) = Some v;
  ix_only k v : db !! (ScopeIndex :: k) = Some v ->
    exists pn obj b, m !! (pn, obj) = Some b /\ k = ID (mkIndexKey pn obj);
}.
Definition known_one (known : known_pulses) (obj : Local) (o : option Z) : Prop :=
  known_for known obj = match o with Some pn => {[pn]} | None => ∅ end.
Record last_known (db : DB) (known : known_pulses) : Prop := {
  lk_at obj : record_id obj -> exists o, known_one known obj o /\
    db !! fullKey (mkLastIndexKey obj) = be32 <$> o;
  lk_bound obj pn : pn ∈ known_for known obj -> 0 <= pn < 2^32;
}.
Definition badger_has (db : DB) (m : index_table) (known : known_pulses) : Prop :=
  indexed db m /\ last_known db known.

Lemma index_key_inj pn obj pn' obj' :
  0 <= pn < 2^32 -> 0 <= pn' < 2^32 -> Local_wf obj -> Local_wf obj' ->
  ID (mkIndexKey pn obj) = ID (mkIndexKey pn' obj') -> pn = pn' /\ obj = obj'.
Proof.
  intros Hp Hp' Ho Ho' E. cbn [ID indexKey_key ik_pn ik_objID] in E.
  destruct (be32_app_inj _ _ _ _ Hp Hp' E) as [-> Eo]. split; [done|]. by apply Local_AsBytes_inj.
Qed.
Lemma last_index_key_inj obj obj' :
  record_id obj -> record_id obj' -> fullKey (mkLastIndexKey obj) = fullKey (mkLastIndexKey obj') -> obj = obj'.
Proof.
  intros Ho Ho' E. apply (f_equal (drop 1)) in E.
  apply Local_AsBytes_inj; [apply Ho|apply Ho'|]. by rewrite (record_id_bytes obj Ho), (record_id_bytes obj' Ho').
Qed.
Lemma newIndexKey_decodes pn obj :
  0 <= pn < 2^32 -> record_id obj -> newIndexKey (ID (mkIndexKey pn obj)) = Ret (mkIndexKey pn obj).
Proof.
  intros Hp Ho. cbn [ID indexKey_key ik_pn ik_objID]. unfold newIndexKey.
  rewrite (drop_app_length' (be32 pn)), NewIDFromBytes_roundtrip by done. cbn [mbind go_bind].
  unfold NewPulseNumber. by rewrite of_be32_be32.
Qed.
Lemma indexed_range db m pn obj b : indexed db m -> m !! (pn, obj) = Some b -> 0 <= pn < 2^32 /\ record_id obj.
Proof. intros Hi E. destruct (ix_in _ _ Hi _ _ _ E) as (? & [? _] & _). done. Qed.

Lemma indexed_lookup db m pn obj :
  indexed db m -> 0 <= pn < 2^32 -> record_id obj -> getBucket db pn obj = found_index (m !! (pn, obj)).
Proof.
  intros Hi Hp Ho. unfold getBucket, store_Get. destruct (m !! (pn, obj)) as [b|] eqn:E.
  - destruct (ix_in _ _ Hi _ _ _ E) as (_ & _ & _ & v & Hv & ->). by rewrite (Unmarshal_Marshal b v Hv).
  - destruct (db !! _) as [v|] eqn:Ev; [|done]. exfalso.
    destruct (ix_only _ _ Hi _ _ Ev) as (pn' & obj' & b & Eb & Ek).
    destruct (indexed_range _ _ _ _ _ Hi Eb) as [Hp' Ho'].
    destruct (index_key_inj pn obj pn' obj' Hp Hp' (proj1 Ho) (proj1 Ho') Ek) as [-> ->]. congruence.
Qed.

(** ** Reading a pulse *)
Lemma ForPulse_loop_spec db m pn visited acc :
  indexed db m -> 0 <= pn < 2^32 -> StronglySorted item_le visited -> NoDup visited.*1 ->
  (forall k v, (k, v) ∈ visited -> db !! (ScopeIndex :: k) = Some v /\ bytes_le (be32 pn) k) ->
  exists l, ForPulse_loop visited pn acc = Ret (Good (acc ++ l)) /\ NoDup (ObjID <$> l) /\
    forall b, b ∈ l <-> m !! (pn, ObjID b) = Some b /\ ID (mkIndexKey pn (ObjID b)) ∈ visited.*1.
Proof.
  intros Hi Hp. revert acc. induction visited as [|[k v] visited IH]; intros acc Hs Hn Hv.
  { exists []. cbn. rewrite app_nil_r. split_and!; [done|constructor|].
    intros b. rewrite !elem_of_nil. tauto. }
  apply StronglySorted_inv in Hs as [Hs Hhd]. cbn in Hn. apply list.NoDup_cons in Hn as [Hk Hn].
  destruct (Hv k v ltac:(by left)) as [Ek Hle].
  destruct (ix_only _ _ Hi _ _ Ek) as (pn' & obj & b & Eb & ->).
  destruct (ix_in _ _ Hi _ _ _ Eb) as (Hp' & [Ho _] & Hob & w & Hw & Ew).
  assert (v = w) as -> by (unfold fullKey in Ew; cbn [Scope indexKey_key] in Ew; congruence).
  assert (Hle' : pn <= pn') by (by apply (pulse_head_le pn pn' (Local_AsBytes obj))).
  cbn [ForPulse_loop]. rewrite newIndexKey_decodes by done. cbn [mbind go_bind ik_pn].
  destruct (Z.eqb_spec pn' pn) as [->|Hne]; cbn [negb].
  - rewrite (Unmarshal_Marshal b w Hw).
    destruct (IH (acc ++ [b]) Hs Hn) as (l & E & Hnd & Hl); [intros k' v' Hin; apply Hv; by right|].
    exists (b :: l). rewrite E, <- (assoc_L (++)). cbn [fmap list_fmap]. split_and!; [done| |].
    + apply list.NoDup_cons. split; [|done]. intros (b' & Eo & Hb')%list_elem_of_fmap.
      apply Hl in Hb' as [_ Hin]. apply Hk. by rewrite <- Hob, Eo.
    + intros b'. rewrite elem_of_cons, Hl. change (((ID (mkIndexKey pn obj), w) :: visited).*1) with
        (ID (mkIndexKey pn obj) :: visited.*1). rewrite elem_of_cons. split.
      * intros [->|[? ?]]; [|by split; [|right]]. rewrite Hob. by split; [|left].
      * intros [Hm [Hin|Hin]]; [|by right]. left. destruct (indexed_range _ _ _ _ _ Hi Hm) as [_ Ho'].
        destruct (index_key_inj pn (ObjID b') pn obj Hp Hp (proj1 Ho') (proj1 Ho) Hin) as [_ Ho2]. congruence.
  - exists []. rewrite app_nil_r. split_and!; [done|constructor|]. intros b'. rewrite elem_of_nil. split; [done|].
    intros [Hm Hin]. destruct (indexed_range _ _ _ _ _ Hi Hm) as [_ Ho'].
    change (((ID (mkIndexKey pn' obj), w) :: visited).*1) with (ID (mkIndexKey pn' obj) :: visited.*1) in Hin.
    apply elem_of_cons in Hin as [Hin|([k' v'] & Ek' & Hin)%list_elem_of_fmap].
    { destruct (index_key_inj pn (ObjID b') pn' obj Hp Hp' (proj1 Ho') (proj1 Ho) Hin) as [? _]. congruence. }
    rewrite list.Forall_forall in Hhd. specialize (Hhd _ Hin). unfold item_le, bytes_le in Hhd. cbn [fst] in *.
    rewrite <- Ek' in Hhd. cbn [ID indexKey_key ik_pn ik_objID] in Hhd.
    rewrite bytesCompare_pulse in Hhd by done.
    destruct (Z.ltb_spec pn' pn), (Z.ltb_spec pn pn'); lia.
Qed.

Lemma badger_ForPulse_spec db m pn :
  indexed db m -> 0 <= pn < 2^32 ->
  exists r, badger_index_ForPulse db pn = Ret r /\
    match r with
    | Good l => l <> [] /\ NoDup (ObjID <$> l) /\ forall b, b ∈ l <-> m !! (pn, ObjID b) = Some b
    | Fail e => e = ErrIndexNotFound /\ forall obj, m !! (pn, obj) = None
    end.
Proof.
  intros Hi Hp. unfold badger_index_ForPulse. set (pivot := mkIndexKey pn emptyLocal).
  destruct (ForPulse_loop_spec db m pn (NewIterator db pivot false) [] Hi Hp) as (l & E & Hn & Hl).
  - apply NewIterator_sorted.
  - apply NewIterator_NoDup.
  - intros k v [Hk Hle]%elem_of_iterator. split; [done|]. unfold bytes_le.
    apply (bytesCompare_trans _ (be32 pn ++ Local_AsBytes emptyLocal)); [|exact Hle].
    by apply (pulse_head_le pn pn).
  - rewrite E. cbn [app mbind go_bind]. 
    assert (Hall : forall b, b ∈ l <-> m !! (pn, ObjID b) = Some b).
    { intros b. rewrite Hl. split; [by intros [? _]|]. intros Hm. split; [done|].
      destruct (ix_in _ _ Hi _ _ _ Hm) as (_ & [Ho _] & _ & v & _ & Ev). apply list_elem_of_fmap.
      exists (ID (mkIndexKey pn (ObjID b)), v). split; [done|]. apply elem_of_iterator. split; [done|].
      cbn [ID indexKey_key ik_pn ik_objID pivot]. rewrite bytesCompare_pulse, Z.ltb_irrefl by done.
      destruct Ho as [(Hw & Hlen & Hb) _]. unfold Local_AsBytes, emptyLocal. cbn [pulseAndScope hash].
      rewrite bytesCompare_pulse by lia. pose proof (zeros_first _ Hb) as Hz. rewrite Hlen in Hz.
      change LocalBinaryHashSize with 28%nat in Hz.
      destruct (Z.ltb_spec 0 (pulseAndScope (ObjID b))); [lia|].
      destruct (Z.ltb_spec (pulseAndScope (ObjID b)) 0); [lia|done]. }
    destruct l as [|b l].
    + exists (Fail ErrIndexNotFound). split; [done|]. split; [done|]. intros obj.
      destruct (m !! (pn, obj)) as [b|] eqn:Em; [|done]. destruct (ix_in _ _ Hi _ _ _ Em) as (_ & _ & <- & _).
      apply Hall in Em. by apply elem_of_nil in Em.
    + eexists. split; [reflexivity|]. done.
Qed.

(** ** Writing *)
Lemma indexed_ext db db' m :
  (forall k, db' !! (ScopeIndex :: k) = db !! (ScopeIndex :: k)) -> indexed db m -> indexed db' m.
Proof.
  intros E [H1 H2]. split.
  - intros pn obj b Hb. destruct (H1 _ _ _ Hb) as (? & ? & ? & v & ? & Hv). do 3 (split; [done|]).
    exists v. split; [done|]. rewrite <- Hv. apply E.
  - intros k v. rewrite E. apply H2.
Qed.
Lemma last_known_ext db db' known :
  (forall k, db' !! (ScopeLastKnownIndexPN :: k) = db !! (ScopeLastKnownIndexPN :: k)) ->
  last_known db known -> last_known db' known.
Proof.
  intros E [H1 H2]. split; [|done]. intros obj Ho. destruct (H1 obj Ho) as (o & ? & Hv).
  exists o. split; [done|]. rewrite <- Hv. apply E.
Qed.

Lemma badger_SetIndex_has db m known pn b db' e :
  badger_has db m known -> 0 <= pn < 2^32 -> object_id (ObjID b) ->
  badger_SetIndex db pn b = Ret (db', e) ->
  badger_has db' (match e with None => <[(pn, ObjID b) := b]> m | Some _ => m end) known.
Proof.
  intros [Hi Hk] Hp Ho E. unfold badger_SetIndex, setBucket in E.
  destruct (Marshal b) as [v|er] eqn:Ev; injection E as <- <-; [|done].
  split; [|eapply last_known_ext; [|done]; intros k; unfold store_Set; by rewrite lookup_insert_ne].
  unfold store_Set. split.
  - intros pn' obj b' Hb. destruct (decide ((pn, ObjID b) = (pn', obj))) as [[= <- <-]|Hne].
    + rewrite lookup_insert_eq in Hb. injection Hb as <-. do 3 (split; [done|]).
      exists v. by rewrite lookup_insert_eq.
    + rewrite lookup_insert_ne in Hb by done. destruct (ix_in _ _ Hi _ _ _ Hb) as (Hp' & Ho' & Hob & w & Hw & Ew).
      do 3 (split; [done|]). exists w. split; [done|]. rewrite lookup_insert_ne; [done|]. intros Ek. apply Hne.
      apply (f_equal (drop 1)) in Ek.
      destruct (index_key_inj pn (ObjID b) pn' obj Hp Hp' (proj1 (proj1 Ho)) (proj1 (proj1 Ho')) Ek) as [-> ->]. done.
  - intros k w. destruct (decide (fullKey (mkIndexKey pn (ObjID b)) = ScopeIndex :: k)) as [Ek|Hne].
    + intros _. exists pn, (ObjID b), b. rewrite lookup_insert_eq. split; [done|].
      by apply (f_equal (drop 1)) in Ek.
    + rewrite lookup_insert_ne by done. intros Hw. destruct (ix_only _ _ Hi _ _ Hw) as (pn' & obj & b' & Hb & ->).
      exists pn', obj, b'. split; [|done]. rewrite lookup_insert_ne; [done|]. intros [= <- <-]. by apply Hne.
Qed.

Lemma setLastKnownPN_known db known pn obj :
  last_known db known -> 0 <= pn < 2^32 -> record_id obj ->
  last_known (setLastKnownPN db pn obj) (<[obj := {[pn]}]> known).
Proof.
  intros [H1 H2] Hp Ho. split.
  - intros obj' Ho'. unfold setLastKnownPN, store_Set, known_one, known_for.
    destruct (decide (obj = obj')) as [<-|Hne].
    + exists (Some pn). by rewrite !lookup_insert_eq.
    + destruct (H1 obj' Ho') as (o & Hk & Ho2). exists o. rewrite lookup_insert_ne by done. split; [exact Hk|].
      rewrite lookup_insert_ne; [done|]. by intros E%last_index_key_inj.
  - intros obj' pn'. unfold known_for. destruct (decide (obj = obj')) as [<-|Hne].
    + rewrite lookup_insert_eq. cbn. by intros ->%elem_of_singleton.
    + rewrite lookup_insert_ne by done. apply H2.
Qed.

Lemma setLastKnownPNs db known pn (l : list Index) :
  last_known db known -> 0 <= pn < 2^32 -> (forall b, b ∈ l -> record_id (ObjID b)) ->
  exists known', last_known (foldl (fun db index => setLastKnownPN db pn (ObjID index)) db l) known' /\
    forall obj, known_for known' obj = if decide (obj ∈ ObjID <$> l) then {[pn]} else known_for known obj.
Proof.
  intros Hk Hp. revert db known Hk. induction l as [|b l IH]; intros db known Hk Hl; cbn [foldl].
  { exists known. split; [done|]. intros obj. rewrite decide_False; [done|]. apply not_elem_of_nil. }
  destruct (IH (setLastKnownPN db pn (ObjID b)) (<[ObjID b := {[pn]}]> known)) as (known' & Hk' & Hf).
  - apply setLastKnownPN_known; [done..|]. apply Hl. by left.
  - intros b' Hb'. apply Hl. by right.
  - exists known'. split; [done|]. intros obj. rewrite Hf. cbn [fmap list_fmap].
    destruct (decide (obj ∈ ObjID <$> l)) as [Hin|Hout]; [by rewrite decide_True by (by right)|].
    unfold known_for. destruct (decide (obj = ObjID b)) as [->|Hne].
    + rewrite lookup_insert_eq, decide_True; [done|by left].
    + rewrite lookup_insert_ne, decide_False by (done || by intros [?|?]%elem_of_cons). done.
Qed.

(** The exact effect: the objects with an index in the pulse, and no others. *)
Lemma badger_UpdateLastKnownPulse_has db m known pn :
  badger_has db m known -> 0 <= pn < 2^32 ->
  exists db' known', badger_UpdateLastKnownPulse db pn = Ret (db', None) /\ badger_has db' m known' /\
    forall obj, known_for known' obj = if decide (is_Some (m !! (pn, obj))) then {[pn]} else known_for known obj.
Proof.
  intros [Hi Hk] Hp. unfold badger_UpdateLastKnownPulse.
  destruct (badger_ForPulse_spec db m pn Hi Hp) as (r & -> & Hr). cbn [mbind go_bind].
  destruct r as [l|e].
  - destruct Hr as (_ & _ & Hl).
    assert (Hids : forall b, b ∈ l -> record_id (ObjID b)).
    { intros b Hb%Hl. by destruct (indexed_range _ _ _ _ _ Hi Hb). }
    destruct (setLastKnownPNs db known pn l Hk Hp Hids) as (known' & Hk' & Hf).
    eexists _, known'. split; [reflexivity|]. split; [split; [|done]|].
    + clear -Hi. revert db Hi. induction l as [|b l IH]; intros db Hi; [done|]. apply IH.
      eapply indexed_ext; [|done]. intros k. unfold setLastKnownPN, store_Set. by rewrite lookup_insert_ne.
    + intros obj. rewrite Hf. apply decide_ext. rewrite list_elem_of_fmap. split.
      * intros (b & -> & Hb%Hl). by eexists.
      * intros [b Hb]. destruct (ix_in _ _ Hi _ _ _ Hb) as (_ & _ & <- & _). exists b. split; [done|]. by apply Hl.
  - destruct Hr as (-> & Hno). rewrite decide_True by done. exists db, known. split_and!; [done|done|].
    intros obj. rewrite Hno, decide_False; [done|]. by intros [].
Qed.

(** ** Truncating *)
Lemma index_in_head from pn obj :
  0 <= from < 2^32 -> 0 <= pn < 2^32 -> object_id obj ->
  in_head ScopeIndex (ID (mkIndexKey from (firstID MinTimePulse))) (fun _ => true) (fullKey (mkIndexKey pn obj)) <->
  from <= pn.
Proof.
  intros Hf Hp [Ho Hmin].
  change (in_head _ _ _ _) with (ScopeIndex = ScopeIndex /\
    bytesCompare (be32 from ++ Local_AsBytes (firstID MinTimePulse)) (be32 pn ++ Local_AsBytes obj) <= 0 /\ true = true).
  pose proof (proj2 (record_in_head MinTimePulse obj ltac:(by vm_compute) Ho) Hmin) as (_ & Hle & _).
  unfold bytes_le in Hle. rewrite bytesCompare_pulse by done.
  destruct (Z.ltb_spec from pn); [split; [lia|intros _; split_and!; [done|lia|done]]|].
  destruct (Z.ltb_spec pn from); [split; [intros (_ & ? & _); lia|lia]|].
  split; [lia|intros _; by split_and!].
Qed.

Lemma badger_index_TruncateHead_has db m known from :
  badger_has db m known -> 0 <= from < 2^32 ->
  exists db', badger_index_TruncateHead db from = Ret (db', None) /\
    badger_has db' (filter (fun kv => kv.1.1 < from) m) known.
Proof.
  intros [Hi Hk] Hf. unfold badger_index_TruncateHead. rewrite NewID_nil by (by vm_compute). cbn [mbind go_bind].
  set (pivot := mkIndexKey from (firstID MinTimePulse)).
  rewrite (delete_decoded_items newIndexKey ScopeIndex).
  2: { intros raw v [Hr _]%elem_of_iterator. destruct (ix_only _ _ Hi _ _ Hr) as (pn & obj & b & Eb & ->).
    exists (mkIndexKey pn obj). split; [|done]. destruct (indexed_range _ _ _ _ _ Hi Eb). by apply newIndexKey_decodes. }
  cbn [mbind go_bind]. eexists. split; [reflexivity|]. set (db' := delete_items _ _ _ _).
  assert (Hl : forall fk, db' !! fk = if decide (in_head ScopeIndex (ID pivot) (fun _ => true) fk) then None else db !! fk)
    by (intros fk; exact (delete_items_lookup db pivot (fun _ => true) fk)).
  split; [|eapply last_known_ext; [|done]; intros k; by rewrite Hl, decide_False by (by intros [? _])].
  split.
  - intros pn obj b [Hb Hlt]%map_lookup_filter_Some. cbn [fst] in Hlt.
    destruct (ix_in _ _ Hi _ _ _ Hb) as (Hp & Ho & Hob & v & Hv & Ev). do 3 (split; [done|]). exists v. split; [done|].
    rewrite Hl, decide_False; [done|]. subst pivot. rewrite (index_in_head from pn obj Hf Hp Ho). lia.
  - intros k v. rewrite Hl. destruct (decide _) as [|Hout]; [done|]. intros Hv.
    destruct (ix_only _ _ Hi _ _ Hv) as (pn & obj & b & Hb & ->). exists pn, obj, b. split; [|done].
    destruct (ix_in _ _ Hi _ _ _ Hb) as (Hp & Ho & _). apply map_lookup_filter_Some. split; [done|]. cbn [fst].
    change (ScopeIndex :: ID (mkIndexKey pn obj)) with (fullKey (mkIndexKey pn obj)) in Hout. subst pivot.
    rewrite (index_in_head from pn obj Hf Hp Ho) in Hout. lia.
Qed.

(** ** The contract *)
Lemma badger_LastKnown_answer db m known obj :
  badger_has db m known -> object_id obj ->
  exists r, badger_LastKnownForID db obj = Ret r /\ last_known_answer m known obj r.
Proof.
  intros [Hi Hk] [Ho _]. unfold badger_LastKnownForID, getLastKnownPN, store_Get.
  destruct (lk_at _ _ Hk obj Ho) as (o & Hone & ->). destruct o as [pn|]; cbn [fmap option_fmap option_map mbind result_bind].
  - assert (Hin : pn ∈ known_for known obj) by (rewrite Hone; by apply elem_of_singleton).
    eexists. split; [reflexivity|]. right. exists pn. split; [done|].
    pose proof (lk_bound _ _ Hk obj pn Hin) as Hb. unfold NewPulseNumber.
    rewrite <- (app_nil_r (be32 pn)), of_be32_be32 by done. by apply (indexed_lookup db).
  - eexists. split; [reflexivity|]. by left.
Qed.

Lemma badger_index_ForID_has db m known pn obj :
  badger_has db m known -> 0 <= pn < 2^32 -> object_id obj ->
  badger_index_ForID db pn obj =
  match m !! (pn, obj) with Some b => Ret (Good b) | None => badger_LastKnownForID db obj end.
Proof.
  intros [Hi Hk] Hp [Ho _]. unfold badger_index_ForID. rewrite (indexed_lookup db m pn obj Hi Hp Ho).
  by destruct (m !! (pn, obj)).
Qed.

#[export, refine] Instance BadgerIndexDB_lawful : LawfulIndexes DB := { has_indexes := badger_has }.
Proof.
  - intros db m known pn obj b [Hi _] Hb. destruct (ix_in _ _ Hi _ _ _ Hb) as (? & ? & ? & _). done.
  - intros db m known pn b db' e Hh Hp Hb. apply badger_SetIndex_has; [done..|apply Hb].
  - intros db m known pn Hh Hp. destruct (badger_UpdateLastKnownPulse_has db m known pn Hh Hp) as (db' & known' & E & Hh' & Hf).
    exists db', known'. split; [exact E|]. split; [done|]. intros obj. rewrite Hf.
    destruct (decide _); [|done]. split; [by apply elem_of_singleton|]. intros x. rewrite elem_of_union. tauto.
  - intros db m known pn obj Hh Hp Ho. change (index_ForID db pn obj) with (badger_index_ForID db pn obj).
    rewrite (badger_index_ForID_has db m known) by done.
    destruct (m !! (pn, obj)); [by eexists|]. by apply badger_LastKnown_answer.
  - intros db m known obj. apply badger_LastKnown_answer.
  - intros db m known pn [Hi _]. by apply badger_ForPulse_spec.
  - intros db m known from Hh Hf. destruct (badger_index_TruncateHead_has db m known from Hh Hf) as (db' & E & Hh').
    exists db', known. split; [exact E|]. split; [done|]. intros obj pn. tauto.
Defined.

Lemma badger_has_nil : badger_has ∅ ∅ ∅.
Proof.
  split; split.
  - intros pn obj b. by rewrite lookup_empty.
  - intros k v. by rewrite lookup_empty.
  - intros obj _. by exists None.
  - intros obj pn. by intros ?%elem_of_empty.
Qed.
End BadgerIndexes.
