(* ===== verification/PostgresIndexes.v ===== *)
(** * The index storage over a relational database
    (src/ledger/object/postgres_index_db.go)

    The table of indexes has the object and the pulse as its primary key.  The
    table of last known pulses is unique by object and pulse together, so it
    gathers every pulse an object was synced in, and the query for the latest
    one, which has no ORDER BY, may answer any of them. *)
From S2P Require Import Prelude Pulse Reference Records Store Tables RecordStorage BadgerRecords IndexStorage.

Record index_row : Type := mkIndexRow {
  lifeline_last_used : Z;
  pending_records : list bytes;
  latest_state : bytes;  (* [] is NULL *)
  state_id : Z;
  parent : bytes;
  latest_request : bytes;
  earliest_open_request : option Z;
  open_requests_count : Z;
}.
Record PostgresIndexDB : Type := mkPgIndexes {
  table_indexes : gmap (bytes * Z) index_row;
  last_known_pulse_for_indexes : gset (bytes * Z);
}.

Section PostgresIndexes.
Context `{RowOrder}.

Definition id_column (o : option Local) : bytes :=
  match o with Some id => Local_AsBytes id | None => [] end.
Definition index_columns (bucket : Index) : index_row :=
  let l := Index_Lifeline bucket in
  mkIndexRow (LifelineLastUsed bucket) (Local_AsBytes <$> PendingRecords bucket) (id_column (LatestState l))
    (StateID l) (Global_AsBytes (Parent l)) (id_column (LatestRequest l)) (EarliestOpenRequest l)
    (OpenRequestsCount l).

(** INSERT ... ON CONFLICT (object_id, pulse_number) DO UPDATE SET all columns *)
Definition pg_SetIndex (t : PostgresIndexDB) (pn : Z) (bucket : Index) : go (PostgresIndexDB * option error) :=
  Ret (mkPgIndexes (<[(Local_AsBytes (ObjID bucket), pn) := index_columns bucket]> (table_indexes t))
         (last_known_pulse_for_indexes t), None).

(** The conflict of (object_id, pulse_number) updates the row to what it is. *)
Definition pg_UpdateLastKnownPulse (t : PostgresIndexDB) (pn : Z) : go (PostgresIndexDB * option error) :=
  let rawIDs := (fun row : bytes * Z * index_row => row.1.1) <$>
    order (filter (fun row => row.1.2 = pn) (rows_of (table_indexes t))) in
  Ret (mkPgIndexes (table_indexes t)
         (foldl (fun rows id => {[(id, pn)]} ∪ rows) (last_known_pulse_for_indexes t) rawIDs), None).

Definition scan_id (column : bytes) : go (option Local) :=
  match column with [] => Ret None | _ => id ← NewIDFromBytes column; Ret (Some id) end.
Fixpoint scan_ids (columns : list bytes) : go (list Local) :=
  match columns with
  | [] => Ret []
  | c :: cs => id ← NewIDFromBytes c; ids ← scan_ids cs; Ret (id :: ids)
  end.
(** [*insolar.NewReferenceFromBytes(parent)]: nil is dereferenced when the
    bytes are no reference. *)
Definition scan_ref (column : bytes) : go Global :=
  match Global_Unmarshal emptyGlobal column with
  | Good g => Ret g
  | Fail _ => Panic "invalid memory address or nil pointer dereference"
  end.
Definition scan_index (objID : Local) (row : index_row) : go Index :=
  pendings ← scan_ids (pending_records row);
  latestState ← scan_id (latest_state row);
  parent ← scan_ref (parent row);
  latestRequest ← scan_id (latest_request row);
  Ret (mkIndex objID
    (mkLifeline latestState (state_id row) parent latestRequest (earliest_open_request row) (open_requests_count row))
    (lifeline_last_used row) pendings).

Definition pg_lastKnownForID (t : PostgresIndexDB) (objID : Local) : go (result Index) :=
  match QueryRow (filter (fun row : bytes * Z => row.1 = Local_AsBytes objID)
                    (elements (last_known_pulse_for_indexes t))) with
  | None => Ret (Fail ErrIndexNotFound)
  | Some (_, pn) =>
      match table_indexes t !! (Local_AsBytes objID, pn) with
      | None => Ret (Fail ErrIndexNotFound)
      | Some row => idx ← scan_index objID row; Ret (Good idx)
      end
  end.
Definition pg_index_ForID (t : PostgresIndexDB) (pn : Z) (objID : Local) : go (result Index) :=
  match table_indexes t !! (Local_AsBytes objID, pn) with
  | None => pg_lastKnownForID t objID
  | Some row => id ← NewIDFromBytes (Local_AsBytes objID); idx ← scan_index id row; Ret (Good idx)
  end.

Fixpoint scan_rows (rows : list (bytes * Z * index_row)) : go (list Index) :=
  match rows with
  | [] => Ret []
  | ((id, _), row) :: rows' =>
      objID ← NewIDFromBytes id;
      idx ← scan_index objID row;
      idxs ← scan_rows rows';
      Ret (idx :: idxs)
  end.
Definition pg_index_ForPulse (t : PostgresIndexDB) (pn : Z) : go (result (list Index)) :=
  idxs ← scan_rows (order (filter (fun row => row.1.2 = pn) (rows_of (table_indexes t))));
  Ret (match idxs with [] => Fail ErrIndexNotFound | _ => Good idxs end).

Definition pg_index_TruncateHead (t : PostgresIndexDB) (from : Z) : go (PostgresIndexDB * option error) :=
  Ret (mkPgIndexes (keep_rows (fun k : bytes * Z => k.2 < from) (table_indexes t))
         (filter (fun row => row.2 < from) (last_known_pulse_for_indexes t)), None).

#[export] Instance PostgresIndexes : IndexStorage PostgresIndexDB := {
  SetIndex := pg_SetIndex;
  UpdateLastKnownPulse := pg_UpdateLastKnownPulse;
  index_ForID := pg_index_ForID;
  index_ForPulse := pg_index_ForPulse;
  LastKnownForID := pg_lastKnownForID;
  index_TruncateHead := pg_index_TruncateHead;
}.

(** ** What the tables have *)
Record pg_has (t : PostgresIndexDB) (m : index_table) (known : known_pulses) : Prop := {
  ph_ok pn obj b : m !! (pn, obj) = Some b -> 0 <= pn < 2^32 /\ index_ok b /\ ObjID b = obj;
  ph_row pn obj : record_id obj -> table_indexes t !! (Local_AsBytes obj, pn) = index_columns <$> m !! (pn, obj);
  ph_only id pn row : table_indexes t !! (id, pn) = Some row ->
    exists obj, record_id obj /\ id = Local_AsBytes obj;
  ph_known obj pn : record_id obj -> (Local_AsBytes obj, pn) ∈ last_known_pulse_for_indexes t <->
                                     pn ∈ known_for known obj;
}.

(** ** Rows are read as they were written *)
Lemma scan_ids_bytes l : Forall record_id l -> scan_ids (Local_AsBytes <$> l) = Ret l.
Proof.
  induction 1 as [|id l Hid _ IH]; [done|]. cbn [fmap list_fmap scan_ids].
  rewrite NewIDFromBytes_roundtrip by done. cbn [mbind go_bind]. by rewrite IH.
Qed.
Lemma scan_id_column o : (forall id, o = Some id -> record_id id) -> scan_id (id_column o) = Ret o.
Proof.
  destruct o as [id|]; [|done]. intros Hid. cbn [id_column].
  assert (E : scan_id (Local_AsBytes id) = (i ← NewIDFromBytes (Local_AsBytes id); Ret (Some i))) by done.
  rewrite E, NewIDFromBytes_roundtrip; [done|by apply Hid].
Qed.
Lemma scan_ref_column g : Global_wf g -> scan_ref (Global_AsBytes g) = Ret g.
Proof.
  intros [Hl Hb]. unfold scan_ref, Global_Unmarshal. pose proof (Global_AsBytes_length g Hl Hb) as Hlen.
  change GlobalBinarySize with 64%nat. rewrite decide_False by lia. unfold Global_AsBytes.
  change LocalBinarySize with 32%nat. rewrite drop_app_length' by (by rewrite Local_AsBytes_length).
  cbn [emptyGlobal addressLocal addressBase]. unfold emptyLocal.
  rewrite (writeAll_Local 0 _ (addressLocal g)) by done.
  rewrite <- (app_nil_r (Local_AsBytes (addressBase g))), (writeAll_Local 0 _ (addressBase g)) by done.
  by destruct g.
Qed.
Lemma scan_index_columns b : index_ok b -> scan_index (ObjID b) (index_columns b) = Ret b.
Proof.
  intros [_ Hp Hs Hr Hg]. unfold scan_index, index_columns.
  cbn [pending_records latest_state parent latest_request lifeline_last_used state_id earliest_open_request open_requests_count].
  rewrite scan_ids_bytes by done. cbn [mbind go_bind]. rewrite (scan_id_column _ Hs). cbn [mbind go_bind].
  rewrite (scan_ref_column _ Hg). cbn [mbind go_bind]. rewrite (scan_id_column _ Hr). cbn [mbind go_bind].
  by destruct b as [o [] u l].
Qed.

(** ** Reading *)
Lemma pg_index_row t m known pn obj b :
  pg_has t m known -> m !! (pn, obj) = Some b ->
  record_id obj /\ table_indexes t !! (Local_AsBytes obj, pn) = Some (index_columns b) /\
  scan_index obj (index_columns b) = Ret b.
Proof.
  intros Ht Hb. destruct (ph_ok _ _ _ Ht _ _ _ Hb) as (_ & Hok & <-). destruct (ok_obj _ Hok) as [Hid _].
  split; [done|]. split; [by rewrite (ph_row _ _ _ Ht _ _ Hid), Hb|]. by apply scan_index_columns.
Qed.

Lemma pg_LastKnown_answer t m known obj :
  pg_has t m known -> object_id obj ->
  exists r, pg_lastKnownForID t obj = Ret r /\ last_known_answer m known obj r.
Proof.
  intros Ht [Ho _]. unfold pg_lastKnownForID. destruct (QueryRow _) as [[id pn]|] eqn:E.
  - apply QueryRow_elem, list_elem_of_filter in E as [Eid Hin%elem_of_elements]. cbn [fst] in Eid. subst id.
    apply (ph_known _ _ _ Ht obj pn Ho) in Hin. rewrite (ph_row _ _ _ Ht pn obj Ho).
    destruct (m !! (pn, obj)) as [b|] eqn:Eb; cbn [fmap option_fmap option_map].
    + destruct (pg_index_row _ _ _ _ _ _ Ht Eb) as (_ & _ & ->). eexists. split; [reflexivity|].
      right. exists pn. by rewrite Eb.
    + eexists. split; [reflexivity|]. right. exists pn. by rewrite Eb.
  - apply QueryRow_none in E. eexists. split; [reflexivity|]. left. split; [|done].
    apply set_eq. intros pn. rewrite <- (ph_known _ _ _ Ht obj pn Ho). split; [|by intros ?%elem_of_empty].
    intros Hin. exfalso. apply (not_elem_of_nil (Local_AsBytes obj, pn)). rewrite <- E.
    apply list_elem_of_filter. split; [done|]. by apply elem_of_elements.
Qed.

Lemma pg_ForID_has t m known pn obj :
  pg_has t m known -> object_id obj ->
  pg_index_ForID t pn obj =
  match m !! (pn, obj) with Some b => Ret (Good b) | None => pg_lastKnownForID t obj end.
Proof.
  intros Ht [Ho _]. unfold pg_index_ForID. rewrite (ph_row _ _ _ Ht pn obj Ho).
  destruct (m !! (pn, obj)) as [b|] eqn:Eb; [|done]. cbn [fmap option_fmap option_map].
  rewrite NewIDFromBytes_roundtrip by done. cbn [mbind go_bind].
  by destruct (pg_index_row _ _ _ _ _ _ Ht Eb) as (_ & _ & ->).
Qed.

Lemma scan_rows_spec t m known pn rows :
  pg_has t m known -> NoDup rows ->
  (forall row, row ∈ rows -> table_indexes t !! row.1 = Some row.2 /\ row.1.2 = pn) ->
  exists l, scan_rows rows = Ret l /\ NoDup (ObjID <$> l) /\
    forall b, b ∈ l <-> m !! (pn, ObjID b) = Some b /\ ((Local_AsBytes (ObjID b), pn), index_columns b) ∈ rows.
Proof.
  intros Ht. induction rows as [|[[id pn'] row] rows IH]; intros Hn Hrows.
  { exists []. split; [done|]. split; [constructor|]. intros b. rewrite !elem_of_nil. tauto. }
  apply list.NoDup_cons in Hn as [Hx Hn].
  destruct (Hrows _ ltac:(by left)) as [Erow Epn]. cbn [fst snd] in Erow, Epn. subst pn'.
  destruct (ph_only _ _ _ Ht _ _ _ Erow) as (obj & Ho & ->).
  rewrite (ph_row _ _ _ Ht _ _ Ho) in Erow. destruct (m !! (pn, obj)) as [b|] eqn:Eb; [|done].
  injection Erow as <-. destruct (ph_ok _ _ _ Ht _ _ _ Eb) as (_ & _ & Eobj).
  destruct (IH Hn) as (l & El & Hnd & Hl); [intros r Hr; apply Hrows; by right|].
  exists (b :: l). cbn [scan_rows]. rewrite NewIDFromBytes_roundtrip by done. cbn [mbind go_bind].
  destruct (pg_index_row _ _ _ _ _ _ Ht Eb) as (_ & _ & ->). cbn [mbind go_bind]. rewrite El. cbn [mbind go_bind].
  split; [done|]. cbn [fmap list_fmap]. split.
  - apply list.NoDup_cons. split; [|done]. intros (b' & E & Hb')%list_elem_of_fmap. apply Hl in Hb' as [Hm Hin].
    apply Hx. assert (b' = b) as -> by (rewrite <- E, Eobj in Hm; congruence). by rewrite Eobj in Hin.
  - intros b'. rewrite !elem_of_cons, Hl. split.
    + intros [->|[? ?]]; [|by split; [|right]]. rewrite Eobj. by split; [|left].
    + intros [Hm [Hin|Hin]]; [|by right]. left. apply (f_equal (fun x => x.1.1)) in Hin as Hid. cbn [fst] in Hid.
      destruct (ph_ok _ _ _ Ht _ _ _ Hm) as (_ & Hok & _). destruct (ok_obj _ Hok) as [Hid' _].
      apply Local_AsBytes_inj in Hid; [|apply Hid'|apply Ho]. rewrite Hid in Hm. congruence.
Qed.

Lemma pg_ForPulse_spec t m known pn :
  pg_has t m known ->
  exists r, pg_index_ForPulse t pn = Ret r /\
    match r with
    | Good l => l <> [] /\ NoDup (ObjID <$> l) /\ forall b, b ∈ l <-> m !! (pn, ObjID b) = Some b
    | Fail e => e = ErrIndexNotFound /\ forall obj, m !! (pn, obj) = None
    end.
Proof.
  intros Ht. unfold pg_index_ForPulse. set (rows := order _).
  assert (Hrow : forall row, row ∈ rows <-> table_indexes t !! row.1 = Some row.2 /\ row.1.2 = pn).
  { intros [k row]. subst rows. rewrite order_permutation, list_elem_of_filter. unfold rows_of.
    rewrite elem_of_map_to_list. cbn [fst snd]. tauto. }
  destruct (scan_rows_spec t m known pn rows Ht) as (l & E & Hn & Hl).
  - subst rows. rewrite order_permutation. apply list.NoDup_filter, NoDup_map_to_list.
  - intros row. apply Hrow.
  - rewrite E. cbn [mbind go_bind].
    assert (Hall : forall b, b ∈ l <-> m !! (pn, ObjID b) = Some b).
    { intros b. rewrite Hl. split; [by intros [? _]|]. intros Hm. split; [done|]. apply Hrow. split; [|done].
      by destruct (pg_index_row _ _ _ _ _ _ Ht Hm) as (_ & ? & _). }
    destruct l as [|b l].
    + eexists. split; [reflexivity|]. split; [done|]. intros obj. destruct (m !! (pn, obj)) as [b|] eqn:Em; [|done].
      destruct (ph_ok _ _ _ Ht _ _ _ Em) as (_ & _ & <-). apply Hall in Em. by apply elem_of_nil in Em.
    + eexists. split; [reflexivity|]. done.
Qed.

(** ** Writing *)
Lemma pg_SetIndex_has t m known pn b :
  pg_has t m known -> 0 <= pn < 2^32 -> index_ok b ->
  pg_has (mkPgIndexes (<[(Local_AsBytes (ObjID b), pn) := index_columns b]> (table_indexes t))
            (last_known_pulse_for_indexes t)) (<[(pn, ObjID b) := b]> m) known.
Proof.
  intros [H1 H2 H3 H4] Hp Hb. destruct (ok_obj _ Hb) as [Hid _].
  split; cbn [table_indexes last_known_pulse_for_indexes].
  - intros pn' obj b'. destruct (decide ((pn, ObjID b) = (pn', obj))) as [[= <- <-]|Hne].
    + rewrite lookup_insert_eq. by intros [= <-].
    + rewrite lookup_insert_ne by done. apply H1.
  - intros pn' obj Ho. destruct (decide ((pn, ObjID b) = (pn', obj))) as [[= <- <-]|Hne].
    + by rewrite !lookup_insert_eq.
    + rewrite !lookup_insert_ne; [by apply H2|done|]. intros E. apply Hne.
      apply (f_equal fst) in E as Eb. apply (f_equal snd) in E. cbn [fst snd] in *. subst pn'.
      by rewrite (Local_AsBytes_inj _ _ (proj1 Hid) (proj1 Ho) Eb).
  - intros id pn' row. destruct (decide ((Local_AsBytes (ObjID b), pn) = (id, pn'))) as [E|Hne].
    + intros _. apply (f_equal fst) in E. exists (ObjID b). by split.
    + rewrite lookup_insert_ne by done. apply H3.
  - done.
Qed.

Lemma insert_known_rows (rows : gset (bytes * Z)) ids pn x :
  x ∈ foldl (fun rows id => {[(id, pn)]} ∪ rows) rows ids <-> x ∈ rows \/ x.2 = pn /\ x.1 ∈ ids.
Proof.
  revert rows. induction ids as [|id ids IH]; intros rows; cbn [foldl].
  - rewrite elem_of_nil. tauto.
  - rewrite IH, elem_of_union, elem_of_singleton, elem_of_cons. destruct x as [i p]. cbn [fst snd]. split.
    + intros [[[= -> ->]|?]|[-> ?]]; tauto.
    + intros [?|[-> [->|?]]]; tauto.
Qed.

(** The exact effect: the pulse is added, the earlier ones stay. *)
Lemma pg_UpdateLastKnownPulse_has t m known pn :
  pg_has t m known ->
  exists t' known', pg_UpdateLastKnownPulse t pn = Ret (t', None) /\ pg_has t' m known' /\
    forall obj, known_for known' obj =
      if decide (is_Some (m !! (pn, obj))) then {[pn]} ∪ known_for known obj else known_for known obj.
Proof.
  intros Ht. unfold pg_UpdateLastKnownPulse. set (ids := _ <$> _).
  assert (Hids : forall obj, record_id obj -> Local_AsBytes obj ∈ ids <-> is_Some (m !! (pn, obj))).
  { intros obj Ho. subst ids. rewrite order_permutation, list_elem_of_fmap. split.
    - intros ([[id pn'] row] & Eid & [Epn Hin]%list_elem_of_filter). cbn [fst snd] in *. subst id pn'.
      apply elem_of_map_to_list in Hin. rewrite (ph_row _ _ _ Ht pn obj Ho) in Hin.
      by destruct (m !! (pn, obj)).
    - intros [b Hb]. exists ((Local_AsBytes obj, pn), index_columns b). split; [done|].
      apply list_elem_of_filter. split; [done|]. apply elem_of_map_to_list.
      by rewrite (ph_row _ _ _ Ht pn obj Ho), Hb. }
  set (objs := (fun kv : Z * Local * Index => kv.1.2) <$> filter (fun kv => kv.1.1 = pn) (map_to_list m)).
  assert (Hobjs : forall obj, obj ∈ objs <-> is_Some (m !! (pn, obj))).
  { intros obj. subst objs. rewrite list_elem_of_fmap. split.
    - intros ([[q o] b] & -> & [Eq Hin]%list_elem_of_filter). cbn [fst snd] in *. subst q.
      apply elem_of_map_to_list in Hin. by eexists.
    - intros [b Hb]. exists ((pn, obj), b). split; [done|]. apply list_elem_of_filter. split; [done|].
      by apply elem_of_map_to_list. }
  exists (mkPgIndexes (table_indexes t) (foldl (fun rows id => {[(id, pn)]} ∪ rows) (last_known_pulse_for_indexes t) ids)),
    (foldl (fun known obj => <[obj := {[pn]} ∪ known_for known obj]> known) known objs).
  assert (Hknown : forall obj, known_for (foldl (fun known obj => <[obj := {[pn]} ∪ known_for known obj]> known) known objs) obj =
    if decide (is_Some (m !! (pn, obj))) then {[pn]} ∪ known_for known obj else known_for known obj).
  { intros obj. transitivity (if decide (obj ∈ objs) then {[pn]} ∪ known_for known obj else known_for known obj).
    2: { apply decide_ext, Hobjs. }
    clear. revert known. induction objs as [|o objs IH]; intros known; cbn [foldl].
    { by rewrite decide_False by apply not_elem_of_nil. }
    rewrite IH, known_for_insert. clear IH. destruct (decide (obj = o)) as [->|Hne].
    - rewrite (decide_True (P := o ∈ o :: objs)) by left.
      destruct (decide _); [|done]. by rewrite (assoc_L (∪)), (idemp_L (∪)).
    - apply decide_ext. rewrite elem_of_cons. tauto. }
  split; [done|]. split; [|exact Hknown]. destruct Ht as [H1 H2 H3 H4].
  split; cbn [table_indexes last_known_pulse_for_indexes]; [done..|].
  intros obj pn' Ho. rewrite insert_known_rows, H4 by done. cbn [fst snd]. rewrite (Hids obj Ho), Hknown.
  destruct (decide _); [|tauto]. rewrite elem_of_union, elem_of_singleton. tauto.
Qed.

Lemma pg_index_TruncateHead_has t m known from :
  pg_has t m known ->
  pg_has (mkPgIndexes (keep_rows (fun k : bytes * Z => k.2 < from) (table_indexes t))
            (filter (fun row => row.2 < from) (last_known_pulse_for_indexes t)))
    (filter (fun kv => kv.1.1 < from) m) (filter (fun pn => pn < from) <$> known).
Proof.
  intros [H1 H2 H3 H4]. split; cbn [table_indexes last_known_pulse_for_indexes].
  - intros pn obj b [Hb _]%map_lookup_filter_Some. by apply H1.
  - intros pn obj Ho. rewrite lookup_keep_rows, (H2 pn obj Ho). cbn [snd].
    change (filter _ m) with (keep_rows (fun k : Z * Local => k.1 < from) m). rewrite lookup_keep_rows.
    cbn [fst]. by destruct (decide (pn < from)).
  - intros id pn row. rewrite lookup_keep_rows. destruct (decide _); [apply H3|done].
  - intros obj pn Ho. rewrite elem_of_filter, (H4 obj pn Ho). unfold known_for. rewrite lookup_fmap. cbn [snd].
    destruct (known !! obj) as [ps|]; cbn; [by rewrite elem_of_filter|].
    rewrite elem_of_empty. tauto.
Qed.

#[export, refine] Instance PostgresIndexes_lawful : LawfulIndexes PostgresIndexDB := { has_indexes := pg_has }.
Proof.
  - intros t m known pn obj b Ht Hb. destruct (ph_ok _ _ _ Ht _ _ _ Hb) as (? & Hok & <-).
    split; [done|]. split; [apply Hok|done].
  - intros t m known pn b t' e Ht Hp Hb [= <- <-]. by apply pg_SetIndex_has.
  - intros t m known pn Ht Hp. destruct (pg_UpdateLastKnownPulse_has t m known pn Ht) as (t' & known' & E & Ht' & Hf).
    exists t', known'. split; [exact E|]. split; [done|]. intros obj. rewrite Hf.
    destruct (decide _); [|done]. split; [|done]. apply elem_of_union. left. by apply elem_of_singleton.
  - intros t m known pn obj Ht Hp Ho. change (index_ForID t pn obj) with (pg_index_ForID t pn obj).
    rewrite (pg_ForID_has t m known) by done. destruct (m !! (pn, obj)); [by eexists|]. by apply pg_LastKnown_answer.
  - intros t m known obj. apply pg_LastKnown_answer.
  - intros t m known pn Ht _. by apply (pg_ForPulse_spec t m known).
  - intros t m known from Ht _. eexists _, _. split; [reflexivity|]. split; [by apply pg_index_TruncateHead_has|].
    intros obj pn. unfold known_for. rewrite lookup_fmap. destruct (known !! obj) as [ps|]; cbn; [|done].
    rewrite elem_of_filter. tauto.
Defined.

Lemma pg_has_nil : pg_has (mkPgIndexes ∅ ∅) ∅ ∅.
Proof.
  split; cbn.
  - intros pn obj b. by rewrite lookup_empty.
  - intros pn obj _. by rewrite !lookup_empty.
  - intros id pn row. by rewrite lookup_empty.
  - intros obj pn _. unfold known_for. rewrite lookup_empty. cbn. by rewrite !elem_of_empty.
Qed.
End PostgresIndexes.
