(* ===== verification/LatestIndex.v ===== *)
(** * The latest index of an object
    (src/ledger/object: badger_index_db.go and postgres_index_db.go)

    [LastKnownForID] is to return the latest version of an index, that of the
    last pulse the object was synced in.  The key-value storage does; the
    relational one may answer any pulse it was synced in. *)
From S2P Require Import Prelude Pulse Reference Records Store Tables RecordStorage IndexStorage BadgerIndexes PostgresIndexes.

(** The node syncs pulses one after the other. *)
Fixpoint sync_pulses `{IndexStorage St} (s : St) (pulses : list Z) : go (St * option error) :=
  match pulses with
  | [] => Ret (s, None)
  | pn :: pulses' =>
      r ← UpdateLastKnownPulse s pn;
      match r with
      | (s, None) => sync_pulses s pulses'
      | (s, Some e) => Ret (s, Some e)
      end
  end.

Definition in_pulse (m : index_table) (obj : Local) (pn : Z) : Prop := is_Some (m !! (pn, obj)).
#[export] Instance in_pulse_dec m obj pn : Decision (in_pulse m obj pn).
Proof. unfold in_pulse. apply _. Defined.

(** The last of the pulses in which the object has an index. *)
Definition latest_pulse (m : index_table) (obj : Local) (pulses : list Z) : option Z :=
  last (filter (in_pulse m obj) pulses).

Section Badger.
Context `{Codec Index}.

Lemma badger_sync db m known pulses :
  badger_has db m known -> Forall (fun pn => 0 <= pn < 2^32) pulses ->
  exists db' known', sync_pulses db pulses = Ret (db', None) /\ badger_has db' m known' /\
    forall obj, known_for known' obj =
      match latest_pulse m obj pulses with Some pn => {[pn]} | None => known_for known obj end.
Proof.
  revert db known. induction pulses as [|pn pulses IH]; intros db known Hh Hps.
  { by exists db, known. }
  apply list.Forall_cons in Hps as [Hp Hps].
  destruct (badger_UpdateLastKnownPulse_has db m known pn Hh Hp) as (db1 & known1 & E & Hh1 & Hf1).
  destruct (IH db1 known1 Hh1 Hps) as (db2 & known2 & E2 & Hh2 & Hf2).
  exists db2, known2. cbn [sync_pulses]. change (UpdateLastKnownPulse db pn) with (badger_UpdateLastKnownPulse db pn).
  rewrite E. cbn [mbind go_bind]. split_and!; [done|exact Hh2|].
  intros obj. rewrite Hf2, Hf1. unfold latest_pulse. rewrite filter_cons. fold (in_pulse m obj pn).
  destruct (decide (in_pulse m obj pn)) as [Hin|Hout].
  - destruct (filter (in_pulse m obj) pulses) as [|q l]; [done|]. rewrite list.last_cons_cons.
    destruct (last (q :: l)) eqn:El; [done|]. by apply last_None in El.
  - done.
Qed.

(** C20: After syncing any pulses in order the key-value storage answers with the
    index of the last of them in which the object has one. *)
Theorem badger_answers_latest db m pulses obj :
  badger_has db m ∅ -> Forall (fun pn => 0 <= pn < 2^32) pulses -> object_id obj ->
  exists db', sync_pulses db pulses = Ret (db', None) /\
    LastKnownForID db' obj =
      Ret (match latest_pulse m obj pulses with
           | Some pn => found_index (m !! (pn, obj))
           | None => Fail ErrIndexNotFound
           end).
Proof.
  intros Hh Hps Ho. destruct (badger_sync db m ∅ pulses Hh Hps) as (db' & known & E & Hh' & Hf).
  exists db'. split; [done|]. destruct (badger_LastKnown_answer db' m known obj Hh' Ho) as (r & Er & Hr).
  change (LastKnownForID db' obj) with (badger_LastKnownForID db' obj). rewrite Er. f_equal.
  specialize (Hf obj). destruct Hr as [[Hk ->]|(pn & Hpn & ->)]; rewrite Hf in *.
  - destruct (latest_pulse m obj pulses) as [pn|]; [|done]. exfalso.
    apply (not_elem_of_empty (C:=gset Z) pn). rewrite <- Hk. by apply elem_of_singleton.
  - destruct (latest_pulse m obj pulses) as [q|].
    + by apply elem_of_singleton in Hpn as ->.
    + by apply elem_of_empty in Hpn.
Qed.
End Badger.

(** ** The relational storage *)
Definition rotation (n : nat) : RowOrder.
Proof.
  refine {| order := fun A l => drop n l ++ take n l |}.
  intros A l. by rewrite (comm (++)), take_drop.
Defined.

Section Postgres.
Context `{RowOrder}.

Lemma pg_sync t m known pulses :
  pg_has t m known ->
  exists t' known', sync_pulses t pulses = Ret (t', None) /\ pg_has t' m known' /\
    forall obj pn, pn ∈ known_for known' obj <-> pn ∈ known_for known obj \/ pn ∈ filter (in_pulse m obj) pulses.
Proof.
  revert t known. induction pulses as [|pn pulses IH]; intros t known Hh.
  { exists t, known. do 2 (split; [done|]). intros obj pn. rewrite elem_of_nil. tauto. }
  destruct (pg_UpdateLastKnownPulse_has t m known pn Hh) as (t1 & known1 & E & Hh1 & Hf1).
  destruct (IH t1 known1 Hh1) as (t2 & known2 & E2 & Hh2 & Hf2).
  exists t2, known2. cbn [sync_pulses]. change (UpdateLastKnownPulse t pn) with (pg_UpdateLastKnownPulse t pn).
  rewrite E. cbn [mbind go_bind]. split_and!; [done|exact Hh2|].
  intros obj q. rewrite Hf2, Hf1, filter_cons. fold (in_pulse m obj pn).
  destruct (decide (in_pulse m obj pn)); [|done].
  rewrite elem_of_union, elem_of_singleton, elem_of_cons. tauto.
Qed.
End Postgres.

(** Once an object was synced in a pulse, however many later pulses it is
    synced in as well, there is an order of the rows in which the relational
    storage answers with the index of that pulse. *)
Theorem postgres_latest_may_be_stale t m pulses obj pn b `{RowOrder} :
  pg_has t m ∅ -> object_id obj -> pn ∈ pulses -> m !! (pn, obj) = Some b ->
  exists t', sync_pulses t pulses = Ret (t', None) /\
    exists o : RowOrder, pg_lastKnownForID (H:=o) t' obj = Ret (Good b).
Proof.
  intros Hh [Ho _] Hpn Hb. destruct (pg_sync t m ∅ pulses Hh) as (t' & known & E & Hh' & Hf).
  exists t'. split; [done|].
  assert (Hin : (Local_AsBytes obj, pn) ∈ last_known_pulse_for_indexes t').
  { apply (ph_known _ _ _ Hh' obj pn Ho), Hf. right. apply list_elem_of_filter. split; [by eexists|done]. }
  set (rows := filter (fun row : bytes * Z => row.1 = Local_AsBytes obj) (elements (last_known_pulse_for_indexes t'))).
  assert (Hrow : (Local_AsBytes obj, pn) ∈ rows) by (apply list_elem_of_filter; split; [done|by apply elem_of_elements]).
  apply list_elem_of_lookup in Hrow as [n Hn]. exists (rotation n). unfold pg_lastKnownForID. fold rows.
  assert (Eq : QueryRow (H:=rotation n) rows = Some (Local_AsBytes obj, pn)).
  { unfold QueryRow. cbn [order rotation]. by rewrite (drop_S _ _ _ Hn). }
  rewrite Eq. destruct (pg_index_row _ _ _ _ _ _ Hh' Hb) as (_ & -> & ->). done.
Qed.

(** ** An object synced in two pulses *)
Section Samples.
Definition sampleObject : Local := mkLocal 65547 (replicate 28 7).
Definition sampleIndex (pn : Z) : Index := mkIndex sampleObject emptyLifeline pn [].
Definition sample_indexes : Codec Index := table_codec (sampleIndex <$> [65547; 65557]).
#[local] Existing Instances sample_indexes stored_order.

Definition sampleTable : index_table := <[(65557, sampleObject) := sampleIndex 65557]> (<[(65547, sampleObject) := sampleIndex 65547]> ∅).

Lemma sampleObject_ok : object_id sampleObject.
Proof. split; [split; [split; [by vm_compute|split; [done|by apply Forall_replicate]]|by vm_compute]|by vm_compute]. Qed.
Lemma sampleIndex_ok pn : index_ok (sampleIndex pn).
Proof. apply Build_index_ok; [apply sampleObject_ok|apply list.Forall_nil_2|done|done|split; apply emptyLocal_wf]. Qed.

Lemma sample_badger : exists db, badger_has db sampleTable ∅.
Proof.
  eexists. eapply (badger_SetIndex_has _ _ _ 65557 (sampleIndex 65557) _ None); [|lia|apply sampleObject_ok|vm_compute; reflexivity].
  eapply (badger_SetIndex_has _ _ _ 65547 (sampleIndex 65547) _ None); [apply badger_has_nil|lia|apply sampleObject_ok|vm_compute; reflexivity].
Qed.

Lemma sample_postgres : exists t, pg_has t sampleTable ∅.
Proof.
  eexists. eapply (pg_SetIndex_has _ _ _ 65557 (sampleIndex 65557)); [|lia|apply sampleIndex_ok].
  eapply (pg_SetIndex_has _ _ _ 65547 (sampleIndex 65547)); [apply pg_has_nil|lia|apply sampleIndex_ok].
Qed.

Lemma badger_answers_latest_witness :
  exists db db', badger_has db sampleTable ∅ /\ sync_pulses db [65547; 65557] = Ret (db', None) /\
    LastKnownForID db' sampleObject = Ret (Good (sampleIndex 65557)).
Proof.
  destruct sample_badger as [db Hdb].
  destruct (badger_answers_latest db sampleTable [65547; 65557] sampleObject Hdb) as (db' & E & El);
    [repeat apply list.Forall_cons_2; [lia|lia|apply list.Forall_nil_2]|apply sampleObject_ok|].
  exists db, db'. split; [exact Hdb|]. split; [exact E|]. rewrite El. vm_compute. reflexivity.
Defined.

Lemma postgres_latest_may_be_stale_witness :
  exists t t', pg_has t sampleTable ∅ /\ sync_pulses t [65547; 65557] = Ret (t', None) /\
    exists o : RowOrder, pg_lastKnownForID (H:=o) t' sampleObject = Ret (Good (sampleIndex 65547)).
Proof.
  destruct sample_postgres as [t Ht].
  destruct (postgres_latest_may_be_stale t sampleTable [65547; 65557] sampleObject 65547 (sampleIndex 65547) Ht)
    as (t' & E & o & Eo); [apply sampleObject_ok|left|vm_compute; reflexivity|].
  exists t, t'. split; [exact Ht|]. split; [exact E|]. exists o. exact Eo.
Defined.
End Samples.
