(* ===== verification/DropStorage.v ===== *)
(** * Drops on the heavy node
    (src/ledger/drop: drop.go, badger_db.go, postgres_db.go)

    The drop that seals a jet in a pulse is stored once, under the pulse and
    the prefix of the jet.  Both storages promise the table of the class
    [LawfulDrops]; a drop is never replaced. *)
From S2P Require Import Prelude Pulse PulseStore Reference Jet JetSplitter Records Store Tables RecordStorage BadgerRecords.

(** ** The contract *)
Class DropStorage (St : Type) : Type := {
  drops_ForPulse : St -> Local -> Z -> go (result Drop);
  drops_Set : St -> Drop -> go (St * option error);
  drops_TruncateHead : St -> Z -> go (St * option error);
}.

(** A jet with the prefix of its identifier. *)
Definition jet_with (jetID : Local) (prefix : bytes) : Prop :=
  record_id jetID /\ Prefix jetID = Ret prefix.
Abbreviation drop_table := (gmap (Z * bytes) Drop).
(** The threshold fits the 32 bits its column has. *)
Definition drop_ok (d : Drop) (prefix : bytes) : Prop :=
  0 <= Drop_Pulse d < 2^32 /\ jet_with (Drop_JetID d) prefix /\ - 2^31 <= SplitThresholdExceeded d < 2^31.

Definition found_drop (o : option Drop) : result Drop :=
  match o with Some d => Good d | None => Fail drop_ErrNotFound end.

Class LawfulDrops (St : Type) `{DropStorage St} : Type := {
  has_drops : St -> drop_table -> Prop;
  drops_ForPulse_law s m jetID prefix pn :
    has_drops s m -> jet_with jetID prefix -> 0 <= pn < 2^32 ->
    drops_ForPulse s jetID pn = Ret (found_drop (m !! (pn, prefix)));
  drops_Set_law s m d prefix : has_drops s m -> drop_ok d prefix ->
    exists s' e, drops_Set s d = Ret (s', e) /\
      match m !! (Drop_Pulse d, prefix), e with
      | Some _, _ => e = Some drop_ErrOverride /\ has_drops s' m
      | None, None => has_drops s' (<[(Drop_Pulse d, prefix) := d]> m)
      | None, Some _ => has_drops s' m
      end;
  drops_TruncateHead_law s m from : has_drops s m -> 0 <= from < 2^32 ->
    exists s', drops_TruncateHead s from = Ret (s', None) /\
      has_drops s' (filter (fun kv => kv.1.1 < from) m);
}.

(** ** Over the key-value store *)
Record dropDbKey : Type := mkDropKey { dk_pn : Z; jetPrefix : bytes }.
#[export] Instance dropDbKey_eq_dec : EqDecision dropDbKey.
Proof. solve_decision. Defined.
#[export] Instance dropDbKey_countable : Countable dropDbKey.
Proof.
  refine (inj_countable' (fun k => (dk_pn k, jetPrefix k)) (fun p => mkDropKey p.1 p.2) _). by intros [].
Defined.
#[export] Instance dropDbKey_key : Key dropDbKey := {
  Scope _ := ScopeJetDrop;
  ID k := be32 (dk_pn k) ++ jetPrefix k }.
Definition newDropDbKey (raw : bytes) : dropDbKey := mkDropKey (NewPulseNumber raw) (drop 4 raw).

Section BadgerDrops.
Context `{Codec Drop}.

Definition badger_drop_ForPulse (ds : DB) (jetID : Local) (pulse : Z) : go (result Drop) :=
  prefix ← Prefix jetID;
  Ret (match store_Get ds (mkDropKey pulse prefix) with
       | Good buf => Unmarshal buf
       | Fail e => Fail e
       end).
Definition badger_drop_Set (ds : DB) (d : Drop) : go (DB * option error) :=
  prefix ← Prefix (Drop_JetID d);
  let k := mkDropKey (Drop_Pulse d) prefix in
  Ret (match store_Get ds k with
       | Good _ => (ds, Some drop_ErrOverride)
       | Fail _ =>
           match Marshal d with
           | Fail e => (ds, Some e)
           | Good encoded => (store_Set ds k encoded, None)
           end
       end).
Definition badger_drop_TruncateHead (ds : DB) (from : Z) : go (DB * option error) :=
  Ret (delete_visited ds (mkDropKey from []) (fun _ => true) newDropDbKey, None).
#[export] Instance BadgerDropDB : DropStorage DB := {
  drops_ForPulse := badger_drop_ForPulse;
  drops_Set := badger_drop_Set;
  drops_TruncateHead := badger_drop_TruncateHead;
}.
End BadgerDrops.

#[export, refine] Instance dropDbKey_table : TableKey dropDbKey := {
  scope_of := ScopeJetDrop;
  key_ok k := 0 <= dk_pn k < 2^32;
}.
Proof.
  - done.
  - intros [pn x] [pn' x'] Hp Hp' E. by destruct (be32_app_inj _ _ _ _ Hp Hp' E) as [[= ->] [= ->]].
Defined.

(** The table by keys, and by pulses and prefixes. *)
Definition keyed_drops (m : drop_table) : gmap dropDbKey Drop :=
  kmap (fun k : Z * bytes => mkDropKey k.1 k.2) m.
#[export] Instance mkDropKey_inj : Inj (=) (=) (fun k : Z * bytes => mkDropKey k.1 k.2).
Proof. intros [] [] [= -> ->]. done. Qed.

Section BadgerDropLaws.
Context `{Codec Drop}.
Definition badger_has_drops (db : DB) (m : drop_table) : Prop := has_table db (keyed_drops m).

Lemma lookup_keyed_drops m pn prefix : keyed_drops m !! mkDropKey pn prefix = m !! (pn, prefix).
Proof. apply (lookup_kmap (fun k : Z * bytes => mkDropKey k.1 k.2) m (pn, prefix)). Qed.

#[export, refine] Instance BadgerDropDB_lawful : LawfulDrops DB := { has_drops := badger_has_drops }.
Proof.
  - intros db m jetID prefix pn Hm [_ Hp] Hpn. cbn [drops_ForPulse BadgerDropDB]. unfold badger_drop_ForPulse.
    rewrite Hp. cbn [mbind go_bind].
    pose proof (has_table_Get db _ (mkDropKey pn prefix) Hm Hpn) as Hg. rewrite lookup_keyed_drops in Hg.
    destruct (m !! _) as [d|].
    + destruct Hg as (v & Ev & ->). by rewrite (Unmarshal_Marshal d v Ev).
    + by rewrite Hg.
  - intros db m d prefix Hm (Hpn & [_ Hp] & _). cbn [drops_Set BadgerDropDB]. unfold badger_drop_Set.
    rewrite Hp. cbn [mbind go_bind]. do 2 eexists. split; [by rewrite <- surjective_pairing|].
    pose proof (has_table_Get db _ (mkDropKey (Drop_Pulse d) prefix) Hm Hpn) as Hg.
    rewrite lookup_keyed_drops in Hg. destruct (m !! _) as [d0|].
    + destruct Hg as (v & _ & ->). done.
    + rewrite Hg. destruct (Marshal d) as [v|e] eqn:Ev; cbn [fst snd]; [|done].
      unfold badger_has_drops, keyed_drops. rewrite (kmap_insert (fun k : Z * bytes => mkDropKey k.1 k.2)).
      by apply has_table_Set.
  - intros db m from Hm Hf. eexists. split; [done|]. unfold badger_has_drops in *.
    replace (keyed_drops (filter _ m)) with (filter (fun kv : dropDbKey * Drop => dk_pn kv.1 < from) (keyed_drops m)).
    + apply (has_table_truncate db (keyed_drops m) (mkDropKey from []) newDropDbKey (fun kv => dk_pn kv.1 < from)); [done..| |].
      * intros [pn x] Hk. unfold newDropDbKey, NewPulseNumber. cbn [ID dropDbKey_key dk_pn jetPrefix].
        by rewrite of_be32_be32, (drop_app_length' (be32 pn)).
      * intros [pn x] d Hk. cbn [fst ID dropDbKey_key dk_pn jetPrefix]. rewrite app_nil_r. by apply pulse_key_le.
    + apply map_eq. intros [pn x]. rewrite lookup_keyed_drops. apply option_eq. intros d.
      by rewrite !map_lookup_filter_Some, lookup_keyed_drops.
Defined.
Lemma badger_has_drops_nil : badger_has_drops ∅ ∅.
Proof. unfold badger_has_drops, keyed_drops. rewrite kmap_empty. apply has_table_empty. Qed.
End BadgerDropLaws.

(** ** Over the relational database *)
Record drop_row : Type := mkDropRow {
  dr_jet_id : bytes;
  dr_split_threshold_exceeded : Z;
  dr_split : bool;
}.
Abbreviation PostgresDropDB := (gmap (Z * bytes) drop_row).

(** The column of the threshold is a 32-bit integer. *)
Definition insert_drop (t : PostgresDropDB) (d : Drop) (prefix : bytes) : PostgresDropDB * option error :=
  if decide (- 2^31 <= SplitThresholdExceeded d < 2^31) then
    match insert_row t (Drop_Pulse d, prefix)
            (mkDropRow (Local_AsBytes (Drop_JetID d)) (SplitThresholdExceeded d) (Drop_Split d)) with
    | None => (t, Some drop_ErrOverride)
    | Some t => (t, None)
    end
  else (t, Some (Wrap (Errorf "int4") "unable to INSERT drop")).
Definition selectDrop (t : PostgresDropDB) (key : dropDbKey) : go (result Drop) :=
  match t !! (dk_pn key, jetPrefix key) with
  | None => Ret (Fail drop_ErrNotFound)
  | Some row =>
      jetID ← NewIDFromBytes (dr_jet_id row);
      Ret (Good (mkDrop (dk_pn key) jetID (dr_split_threshold_exceeded row) (dr_split row)))
  end.
Definition pg_drop_ForPulse (t : PostgresDropDB) (jetID : Local) (pulse : Z) : go (result Drop) :=
  prefix ← Prefix jetID; selectDrop t (mkDropKey pulse prefix).
Definition pg_drop_Set (t : PostgresDropDB) (d : Drop) : go (PostgresDropDB * option error) :=
  prefix ← Prefix (Drop_JetID d); Ret (insert_drop t d prefix).
Definition pg_drop_TruncateHead (t : PostgresDropDB) (from : Z) : go (PostgresDropDB * option error) :=
  Ret (keep_rows (fun k : Z * bytes => k.1 < from) t, None).
#[export] Instance PostgresDrops : DropStorage PostgresDropDB := {
  drops_ForPulse := pg_drop_ForPulse;
  drops_Set := pg_drop_Set;
  drops_TruncateHead := pg_drop_TruncateHead;
}.

Definition row_of_drop (d : Drop) : drop_row :=
  mkDropRow (Local_AsBytes (Drop_JetID d)) (SplitThresholdExceeded d) (Drop_Split d).
(** The rows of the drops, whose pulse and prefix are the key. *)
Record pg_has_drops (t : PostgresDropDB) (m : drop_table) : Prop := {
  pd_rows k : t !! k = row_of_drop <$> m !! k;
  pd_ok k d : m !! k = Some d -> Drop_Pulse d = k.1 /\ drop_ok d k.2;
}.

Lemma pg_has_drops_nil : pg_has_drops ∅ ∅.
Proof. split; [intros k|intros k d E]; by rewrite ?lookup_empty in *. Qed.

#[export, refine] Instance PostgresDrops_lawful : LawfulDrops PostgresDropDB := { has_drops := pg_has_drops }.
Proof.
  - intros t m jetID prefix pn [Hr Hok] [_ Hp] Hpn. cbn [drops_ForPulse PostgresDrops]. unfold pg_drop_ForPulse.
    rewrite Hp. cbn [mbind go_bind]. unfold selectDrop. cbn [dk_pn jetPrefix]. rewrite Hr.
    destruct (m !! _) as [d|] eqn:Em; [|done]. cbn [fmap option_fmap option_map row_of_drop dr_jet_id].
    destruct (Hok _ d Em) as (Hpd & _ & [Hid _] & _). rewrite (NewIDFromBytes_roundtrip _ Hid). cbn [mbind go_bind].
    cbn [fst] in Hpd. rewrite <- Hpd. by destruct d.
  - intros t m d prefix [Hr Hok] (Hpn & [Hid Hp] & Hthr). cbn [drops_Set PostgresDrops]. unfold pg_drop_Set.
    rewrite Hp. cbn [mbind go_bind]. do 2 eexists. split; [by rewrite <- surjective_pairing|].
    unfold insert_drop, insert_row. rewrite decide_True, Hr by done.
    destruct (m !! _) as [d0|] eqn:Em; cbn [fmap option_fmap option_map fst snd]; [done|].
    split.
    + intros k. rewrite !lookup_insert. destruct (decide _); [done|apply Hr].
    + intros k d0. rewrite lookup_insert. destruct (decide _) as [<-|]; [|apply Hok]. by intros [= <-].
  - intros t m from [Hr Hok] Hf. eexists. split; [done|]. split.
    + intros k. rewrite lookup_keep_rows, Hr, map_lookup_filter. destruct (decide _) as [Hk|Hk].
      * destruct (m !! k); cbn; [|done]. by rewrite option_guard_True.
      * destruct (m !! k); cbn; [|done]. by rewrite option_guard_False.
    + intros k d [Em _]%map_lookup_filter_Some. by apply Hok.
Defined.
