(* ===== verification/JetStorage.v ===== *)
(** * Jet trees on the heavy node
    (src/insolar/jet: badger_dbstore.go, postgres_dbstore.go)

    A tree per pulse, as in the memory store of Jet.v, except that a tree is
    read, changed and written back as a whole: an operation that fails leaves
    what is stored. *)
From S2P Require Import Prelude Pulse Reference Jet Records Store Tables RecordStorage BadgerRecords.

(** ** The contract *)
Class JetStorage (St : Type) : Type := {
  jets_All : St -> Z -> go (list Local);
  jets_ForID : St -> Z -> Local -> go (Local * bool);
  jets_Update : St -> Z -> bool -> list Local -> go (St * option error);
  jets_Split : St -> Z -> Local -> go (St * result (Local * Local));
  jets_Clone : St -> Z -> Z -> bool -> go (St * option error);
  jets_TruncateHead : St -> Z -> go (St * option error);
}.

Abbreviation tree_table := (gmap Z Tree).
Definition tree_at (m : tree_table) (pn : Z) : Tree :=
  default (NewTree (pn =? GenesisPulseNumber)) (m !! pn).

(** Nothing is stored with an error. *)
Definition stored_tree (m : tree_table) (pn : Z) (t : Tree) (e : option error) : tree_table :=
  match e with None => <[pn := t]> m | Some _ => m end.

Class LawfulJets (St : Type) `{JetStorage St} : Type := {
  has_trees : St -> tree_table -> Prop;
  jets_All_law s m pn : has_trees s m -> 0 <= pn < 2^32 -> jets_All s pn = Tree_LeafIDs (tree_at m pn);
  jets_ForID_law s m pn id : has_trees s m -> 0 <= pn < 2^32 -> jets_ForID s pn id = Tree_Find (tree_at m pn) id;
  jets_Update_law s m pn actual ids t : has_trees s m -> 0 <= pn < 2^32 ->
    update_all (tree_at m pn) actual ids = Ret t ->
    exists s' e, jets_Update s pn actual ids = Ret (s', e) /\ has_trees s' (stored_tree m pn t e);
  jets_Update_panic s m pn actual ids msg : has_trees s m -> 0 <= pn < 2^32 ->
    update_all (tree_at m pn) actual ids = Panic msg -> jets_Update s pn actual ids = Panic msg;
  jets_Split_law s m pn id t r : has_trees s m -> 0 <= pn < 2^32 ->
    Tree_Split (tree_at m pn) id = Ret (t, r) ->
    exists s' r', jets_Split s pn id = Ret (s', r') /\
      match r' with
      | Good ids => r = Good ids /\ has_trees s' (<[pn := t]> m)
      | Fail _ => has_trees s' m
      end;
  jets_Clone_law s m from to keep : has_trees s m -> 0 <= from < 2^32 -> 0 <= to < 2^32 ->
    exists s' e, jets_Clone s from to keep = Ret (s', e) /\
      has_trees s' (stored_tree m to (Tree_Clone (tree_at m from) keep) e);
  jets_TruncateHead_law s m from : has_trees s m -> 0 <= from < 2^32 ->
    exists s', jets_TruncateHead s from = Ret (s', None) /\
      has_trees s' (filter (fun kv => kv.1 < from) m);
}.

(** ** The operations over reading and writing a tree

    The two files differ in [get] and [set] alone.  A tree that cannot be
    decoded is nil, and its methods panic. *)
Section Operations.
Context {St : Type} (get : St -> Z -> option Tree) (set : St -> Z -> Tree -> St * option error).

Definition tree_or_panic (s : St) (pn : Z) : go Tree :=
  match get s pn with Some t => Ret t | None => Panic "nil pointer dereference" end.

Definition DBStore_All (s : St) (pulse : Z) : go (list Local) :=
  tree ← tree_or_panic s pulse; Tree_LeafIDs tree.
Definition DBStore_ForID (s : St) (pulse : Z) (recordID : Local) : go (Local * bool) :=
  tree ← tree_or_panic s pulse; Tree_Find tree recordID.
Definition DBStore_Update (s : St) (pulse : Z) (actual : bool) (ids : list Local) : go (St * option error) :=
  tree ← tree_or_panic s pulse;
  tree ← update_all tree actual ids;
  let '(s, e) := set s pulse tree in
  Ret (s, (fun e => Wrap e "failed to update jets") <$> e).
Definition DBStore_Split (s : St) (pulse : Z) (id : Local) : go (St * result (Local * Local)) :=
  tree ← tree_or_panic s pulse;
  r ← Tree_Split tree id;
  match r with
  | (_, Fail e) => Ret (s, Fail e)
  | (tree, Good ids) =>
      Ret (match set s pulse tree with
           | (s, Some e) => (s, Fail e)
           | (s, None) => (s, Good ids)
           end)
  end.
Definition DBStore_Clone (s : St) (from to : Z) (keepActual : bool) : go (St * option error) :=
  tree ← tree_or_panic s from;
  let '(s, e) := set s to (Tree_Clone tree keepActual) in
  Ret (s, (fun e => Wrap e "failed to clone jet.Tree") <$> e).

Context (has : St -> tree_table -> Prop).
Context (get_law : forall s m pn, has s m -> 0 <= pn < 2^32 -> get s pn = Some (tree_at m pn)).
Context (set_law : forall s m pn t, has s m -> 0 <= pn < 2^32 ->
  has (set s pn t).1 (stored_tree m pn t (set s pn t).2)).

Lemma tree_or_panic_eq s m pn : has s m -> 0 <= pn < 2^32 -> tree_or_panic s pn = Ret (tree_at m pn).
Proof. intros Hs Hpn. unfold tree_or_panic. by rewrite (get_law s m). Qed.

Lemma stored_tree_fmap m pn t e (f : error -> error) : stored_tree m pn t (f <$> e) = stored_tree m pn t e.
Proof. by destruct e. Qed.

Lemma DBStore_Update_law s m pn actual ids t :
  has s m -> 0 <= pn < 2^32 -> update_all (tree_at m pn) actual ids = Ret t ->
  exists s' e, DBStore_Update s pn actual ids = Ret (s', e) /\ has s' (stored_tree m pn t e).
Proof.
  intros Hs Hpn E. unfold DBStore_Update. rewrite (tree_or_panic_eq s m) by done. cbn [mbind go_bind].
  rewrite E. cbn [mbind go_bind]. pose proof (set_law s m pn t Hs Hpn) as Hset.
  destruct (set s pn t) as [s' e]. do 2 eexists. split; [done|]. by rewrite stored_tree_fmap.
Qed.

Lemma DBStore_Update_panic s m pn actual ids msg :
  has s m -> 0 <= pn < 2^32 -> update_all (tree_at m pn) actual ids = Panic msg ->
  DBStore_Update s pn actual ids = Panic msg.
Proof.
  intros Hs Hpn E. unfold DBStore_Update. rewrite (tree_or_panic_eq s m) by done. cbn [mbind go_bind]. by rewrite E.
Qed.

Lemma DBStore_Split_law s m pn id t r :
  has s m -> 0 <= pn < 2^32 -> Tree_Split (tree_at m pn) id = Ret (t, r) ->
  exists s' r', DBStore_Split s pn id = Ret (s', r') /\
    match r' with
    | Good ids => r = Good ids /\ has s' (<[pn := t]> m)
    | Fail _ => has s' m
    end.
Proof.
  intros Hs Hpn E. unfold DBStore_Split. rewrite (tree_or_panic_eq s m) by done. cbn [mbind go_bind].
  rewrite E. cbn [mbind go_bind]. destruct r as [ids|e].
  - pose proof (set_law s m pn t Hs Hpn) as Hset. destruct (set s pn t) as [s' [e|]];
      do 2 eexists; (split; [done|]); by cbn in Hset.
  - by do 2 eexists.
Qed.

Lemma DBStore_Clone_law s m from to keep :
  has s m -> 0 <= from < 2^32 -> 0 <= to < 2^32 ->
  exists s' e, DBStore_Clone s from to keep = Ret (s', e) /\
    has s' (stored_tree m to (Tree_Clone (tree_at m from) keep) e).
Proof.
  intros Hs Hf Ht. unfold DBStore_Clone. rewrite (tree_or_panic_eq s m) by done. cbn [mbind go_bind].
  pose proof (set_law s m to (Tree_Clone (tree_at m from) keep) Hs Ht) as Hset.
  destruct (set s to _) as [s' e]. do 2 eexists. split; [done|]. by rewrite stored_tree_fmap.
Qed.
End Operations.

(** ** Over the key-value store *)
Record pulseKey : Type := mkPulseKey { tk_pn : Z }.
#[export] Instance pulseKey_eq_dec : EqDecision pulseKey.
Proof. solve_decision. Defined.
#[export] Instance pulseKey_countable : Countable pulseKey.
Proof. refine (inj_countable' tk_pn mkPulseKey _). by intros []. Defined.
#[export] Instance pulseKey_key : Key pulseKey := {
  Scope _ := ScopeJetTree;
  ID k := be32 (tk_pn k) }.
#[export, refine] Instance pulseKey_table : TableKey pulseKey := {
  scope_of := ScopeJetTree;
  key_ok k := 0 <= tk_pn k < 2^32;
}.
Proof. - done. - intros [pn] [pn'] Hp Hp' E. f_equal. by apply be32_inj. Defined.
Definition newPulseKey (raw : bytes) : pulseKey := mkPulseKey (NewPulseNumber raw).

Section BadgerJets.
Context `{Codec Tree}.

Definition badger_tree_get (s : DB) (pn : Z) : option Tree :=
  match store_Get s (mkPulseKey pn) with
  | Fail _ => Some (NewTree (pn =? GenesisPulseNumber))
  | Good serializedTree =>
      match Unmarshal serializedTree with Good recovered => Some recovered | Fail _ => None end
  end.
Definition badger_tree_set (s : DB) (pn : Z) (jt : Tree) : DB * option error :=
  match Marshal jt with
  | Fail e => (s, Some (Wrap e "failed to serialize jet.Tree"))
  | Good serialized => (store_Set s (mkPulseKey pn) serialized, None)
  end.
Definition badger_jets_TruncateHead (s : DB) (from : Z) : go (DB * option error) :=
  Ret (delete_visited s (mkPulseKey from) (fun _ => true) newPulseKey, None).

#[export] Instance BadgerJetDB : JetStorage DB := {
  jets_All := DBStore_All badger_tree_get;
  jets_ForID := DBStore_ForID badger_tree_get;
  jets_Update := DBStore_Update badger_tree_get badger_tree_set;
  jets_Split := DBStore_Split badger_tree_get badger_tree_set;
  jets_Clone := DBStore_Clone badger_tree_get badger_tree_set;
  jets_TruncateHead := badger_jets_TruncateHead;
}.

Definition badger_has_trees : DB -> tree_table -> Prop := has_pulses mkPulseKey.
Lemma badger_has_trees_nil : badger_has_trees ∅ ∅.
Proof. apply has_pulses_empty. Qed.

Lemma badger_tree_get_law db m pn :
  badger_has_trees db m -> 0 <= pn < 2^32 -> badger_tree_get db pn = Some (tree_at m pn).
Proof.
  intros Hm Hpn. pose proof (has_pulses_Get mkPulseKey tk_pn ltac:(done) ltac:(done) db m pn Hm Hpn) as Hg.
  unfold badger_tree_get, tree_at. destruct (m !! pn) as [t|].
  - destruct Hg as (v & Ev & ->). by rewrite (Unmarshal_Marshal t v Ev).
  - by rewrite Hg.
Qed.
Lemma badger_tree_set_law db m pn t :
  badger_has_trees db m -> 0 <= pn < 2^32 ->
  badger_has_trees (badger_tree_set db pn t).1 (stored_tree m pn t (badger_tree_set db pn t).2).
Proof.
  intros Hm Hpn. unfold badger_tree_set. destruct (Marshal t) as [v|e] eqn:Ev; cbn [fst snd stored_tree]; [|done].
  by apply (has_pulses_Set mkPulseKey tk_pn).
Qed.

#[export, refine] Instance BadgerJetDB_lawful : LawfulJets DB := { has_trees := badger_has_trees }.
Proof.
  - intros s m pn Hs Hpn. cbn [jets_All BadgerJetDB]. unfold DBStore_All.
    by rewrite (tree_or_panic_eq _ _ badger_tree_get_law s m).
  - intros s m pn id Hs Hpn. cbn [jets_ForID BadgerJetDB]. unfold DBStore_ForID.
    by rewrite (tree_or_panic_eq _ _ badger_tree_get_law s m).
  - exact (DBStore_Update_law _ _ _ badger_tree_get_law badger_tree_set_law).
  - exact (DBStore_Update_panic badger_tree_get badger_tree_set _ badger_tree_get_law).
  - exact (DBStore_Split_law _ _ _ badger_tree_get_law badger_tree_set_law).
  - exact (DBStore_Clone_law _ _ _ badger_tree_get_law badger_tree_set_law).
  - intros db m from Hm Hf. eexists. split; [done|].
    apply (has_pulses_truncate mkPulseKey tk_pn); [by intros []|done..].
Defined.
End BadgerJets.

(** ** Over the relational database *)
Abbreviation PostgresJetDB := (gmap Z bytes).

Section PostgresJets.
Context `{Codec Tree}.

Definition pg_tree_get (t : PostgresJetDB) (pn : Z) : option Tree :=
  match t !! pn with
  | None => Some (NewTree (pn =? GenesisPulseNumber))
  | Some serializedTree =>
      match Unmarshal serializedTree with Good recovered => Some recovered | Fail _ => None end
  end.
(** INSERT ... ON CONFLICT (pulse_number) DO UPDATE *)
Definition pg_tree_set (t : PostgresJetDB) (pn : Z) (jt : Tree) : PostgresJetDB * option error :=
  match Marshal jt with
  | Fail e => (t, Some (Wrap e "failed to serialize jet.Tree"))
  | Good serialized => (<[pn := serialized]> t, None)
  end.
Definition pg_jets_TruncateHead (t : PostgresJetDB) (from : Z) : go (PostgresJetDB * option error) :=
  Ret (keep_rows (fun pn => pn < from) t, None).

#[export] Instance PostgresJets : JetStorage PostgresJetDB := {
  jets_All := DBStore_All pg_tree_get;
  jets_ForID := DBStore_ForID pg_tree_get;
  jets_Update := DBStore_Update pg_tree_get pg_tree_set;
  jets_Split := DBStore_Split pg_tree_get pg_tree_set;
  jets_Clone := DBStore_Clone pg_tree_get pg_tree_set;
  jets_TruncateHead := pg_jets_TruncateHead;
}.

Definition pg_has_trees (t : PostgresJetDB) (m : tree_table) : Prop :=
  forall pn, match m !! pn with
             | Some tree => exists v, Marshal tree = Good v /\ t !! pn = Some v
             | None => t !! pn = None
             end.
Lemma pg_has_trees_nil : pg_has_trees ∅ ∅.
Proof. intros pn. by rewrite !lookup_empty. Qed.

Lemma pg_tree_get_law t m pn : pg_has_trees t m -> 0 <= pn < 2^32 -> pg_tree_get t pn = Some (tree_at m pn).
Proof.
  intros Hm _. specialize (Hm pn). unfold pg_tree_get, tree_at. destruct (m !! pn) as [tree|].
  - destruct Hm as (v & Ev & ->). by rewrite (Unmarshal_Marshal tree v Ev).
  - by rewrite Hm.
Qed.
Lemma pg_tree_set_law t m pn tree :
  pg_has_trees t m -> 0 <= pn < 2^32 -> pg_has_trees (pg_tree_set t pn tree).1 (stored_tree m pn tree (pg_tree_set t pn tree).2).
Proof.
  intros Hm _. unfold pg_tree_set. destruct (Marshal tree) as [v|e] eqn:Ev; cbn [fst snd stored_tree]; [|done].
  intros q. rewrite !lookup_insert. destruct (decide _); [by exists v|apply Hm].
Qed.

#[export, refine] Instance PostgresJets_lawful : LawfulJets PostgresJetDB := { has_trees := pg_has_trees }.
Proof.
  - intros s m pn Hs Hpn. cbn [jets_All PostgresJets]. unfold DBStore_All.
    by rewrite (tree_or_panic_eq _ _ pg_tree_get_law s m).
  - intros s m pn id Hs Hpn. cbn [jets_ForID PostgresJets]. unfold DBStore_ForID.
    by rewrite (tree_or_panic_eq _ _ pg_tree_get_law s m).
  - exact (DBStore_Update_law _ _ _ pg_tree_get_law pg_tree_set_law).
  - exact (DBStore_Update_panic pg_tree_get pg_tree_set _ pg_tree_get_law).
  - exact (DBStore_Split_law _ _ _ pg_tree_get_law pg_tree_set_law).
  - exact (DBStore_Clone_law _ _ _ pg_tree_get_law pg_tree_set_law).
  - intros t m from Hm Hf. eexists. split; [done|]. intros pn. rewrite map_lookup_filter, lookup_keep_rows.
    specialize (Hm pn). destruct (m !! pn) as [tree|]; cbn.
    + destruct Hm as (v & Ev & ->). destruct (decide (pn < from)).
      * rewrite option_guard_True by done. by exists v.
      * by rewrite option_guard_False.
    + rewrite Hm. by destruct (decide _).
Defined.
End PostgresJets.
