(* ===== verification/NodeHistory.v ===== *)
(** * The nodes of every pulse, on the heavy node
    (src/insolar/node: badger_node_db.go, postgres_node_db.go)

    The nodes are set once for a pulse and kept until the head is truncated.
    The two storages part on a pulse without nodes: one answers ErrNoNodes,
    the other no nodes.  (The field Polymorph of a node, always zero, is left
    out.) *)
From stdpp Require Import sorting.
From S2P Require Import Prelude Pulse PulseStore Reference Jet HotData Records Store Tables RecordStorage BadgerRecords.

(** ** The contract *)
Class NodeHistory (St : Type) : Type := {
  nodes_Set : St -> Z -> list Node -> St * option error;
  nodes_All : St -> Z -> result (list Node);
  nodes_InRole : St -> Z -> Z -> result (list Node);
  nodes_TruncateHead : St -> Z -> St * option error;
}.

Definition nodes_in_role (role : Z) (nodes : list Node) : list Node :=
  filter (fun node => Role node = role) nodes.
Definition node_ok (n : Node) : Prop := Global_wf (Node_ID n).

Class LawfulNodes (St : Type) `{NodeHistory St} : Type := {
  has_nodes : St -> NodeStorage -> Prop;
  nodes_All_law s m pn nodes : has_nodes s m -> 0 <= pn < 2^32 -> m !! pn = Some nodes ->
    nodes_All s pn = Good nodes;
  nodes_InRole_law s m pn role nodes : has_nodes s m -> 0 <= pn < 2^32 -> m !! pn = Some nodes ->
    nodes_InRole s pn role = Good (nodes_in_role role nodes);
  nodes_none_law s m pn role : has_nodes s m -> 0 <= pn < 2^32 -> m !! pn = None ->
    nodes_All s pn = nodes_InRole s pn role /\ (nodes_All s pn = Fail ErrNoNodes \/ nodes_All s pn = Good []);
  nodes_Set_law s m pn nodes : has_nodes s m -> 0 <= pn < 2^32 -> nodes <> [] -> Forall node_ok nodes ->
    let r := nodes_Set s pn nodes in
    has_nodes r.1 (match r.2 with None => <[pn := nodes]> m | Some _ => m end) /\ (is_Some (m !! pn) -> is_Some r.2);
  nodes_TruncateHead_law s m from : has_nodes s m -> 0 <= from < 2^32 ->
    exists s', nodes_TruncateHead s from = (s', None) /\ has_nodes s' (filter (fun kv => kv.1 < from) m);
}.

(** ** Over the key-value store *)
Record nodeHistoryKey : Type := mkNodeKey { nk_pn : Z }.
#[export] Instance nodeHistoryKey_eq_dec : EqDecision nodeHistoryKey.
Proof. solve_decision. Defined.
#[export] Instance nodeHistoryKey_countable : Countable nodeHistoryKey.
Proof. refine (inj_countable' nk_pn mkNodeKey _). by intros []. Defined.
#[export] Instance nodeHistoryKey_key : Key nodeHistoryKey := {
  Scope _ := ScopeNodeHistory;
  ID k := be32 (nk_pn k) }.
#[export, refine] Instance nodeHistoryKey_table : TableKey nodeHistoryKey := {
  scope_of := ScopeNodeHistory;
  key_ok k := 0 <= nk_pn k < 2^32;
}.
Proof. - done. - intros [pn] [pn'] Hp Hp' E. f_equal. by apply be32_inj. Defined.

Section BadgerNodes.
Context `{Codec (list Node)}.

Definition badger_nodes_Set (s : DB) (pulse : Z) (nodes : list Node) : DB * option error :=
  match Marshal nodes with
  | Fail e => (s, Some e)
  | Good rawNodes =>
      store_Update s (fun txn =>
        match store_Get txn (mkNodeKey pulse) with
        | Good _ => Fail node_ErrOverride
        | Fail _ => Good (store_Set txn (mkNodeKey pulse) rawNodes)
        end)
  end.
Definition badger_nodes_All (s : DB) (pulse : Z) : result (list Node) :=
  match store_Get s (mkNodeKey pulse) with
  | Fail _ => Fail ErrNoNodes
  | Good buff => Unmarshal buff
  end.
Definition badger_nodes_InRole (s : DB) (pulse role : Z) : result (list Node) :=
  nodes ← badger_nodes_All s pulse; Good (nodes_in_role role nodes).
Definition badger_nodes_TruncateHead (s : DB) (from : Z) : DB * option error :=
  (delete_visited s (mkNodeKey from) (fun _ => true) (fun raw => mkNodeKey (NewPulseNumber raw)), None).

#[export] Instance BadgerNodeDB : NodeHistory DB := {
  nodes_Set := badger_nodes_Set;
  nodes_All := badger_nodes_All;
  nodes_InRole := badger_nodes_InRole;
  nodes_TruncateHead := badger_nodes_TruncateHead;
}.

Definition badger_has_nodes : DB -> NodeStorage -> Prop := has_pulses mkNodeKey.
Lemma badger_has_nodes_nil : badger_has_nodes ∅ ∅.
Proof. apply has_pulses_empty. Qed.

Lemma badger_nodes_Get db m pn :
  badger_has_nodes db m -> 0 <= pn < 2^32 ->
  match m !! pn with
  | Some nodes => exists v, Marshal nodes = Good v /\ store_Get db (mkNodeKey pn) = Good v
  | None => store_Get db (mkNodeKey pn) = Fail store_ErrNotFound
  end.
Proof. by apply (has_pulses_Get mkNodeKey nk_pn). Qed.

#[export, refine] Instance BadgerNodeDB_lawful : LawfulNodes DB := { has_nodes := badger_has_nodes }.
Proof.
  - intros db m pn nodes Hm Hpn E. cbn [nodes_All BadgerNodeDB]. unfold badger_nodes_All.
    pose proof (badger_nodes_Get db m pn Hm Hpn) as Hg. rewrite E in Hg. destruct Hg as (v & Ev & ->).
    by apply Unmarshal_Marshal.
  - intros db m pn role nodes Hm Hpn E. cbn [nodes_InRole BadgerNodeDB]. unfold badger_nodes_InRole, badger_nodes_All.
    pose proof (badger_nodes_Get db m pn Hm Hpn) as Hg. rewrite E in Hg. destruct Hg as (v & Ev & ->).
    by rewrite (Unmarshal_Marshal nodes v Ev).
  - intros db m pn role Hm Hpn E. cbn [nodes_All nodes_InRole BadgerNodeDB].
    unfold badger_nodes_InRole, badger_nodes_All. pose proof (badger_nodes_Get db m pn Hm Hpn) as Hg.
    rewrite E in Hg. rewrite Hg. split; [done|by left].
  - intros db m pn nodes Hm Hpn _ _. cbn [nodes_Set BadgerNodeDB]. unfold badger_nodes_Set.
    pose proof (badger_nodes_Get db m pn Hm Hpn) as Hg. destruct (Marshal nodes) as [raw|e] eqn:Ev; [|by split].
    unfold store_Update. destruct (m !! pn) as [old|].
    + destruct Hg as (v & _ & ->). by split.
    + rewrite Hg. cbn [fst snd]. split; [by apply (has_pulses_Set mkNodeKey nk_pn)|by intros []].
  - intros db m from Hm Hf. eexists. split; [done|].
    apply (has_pulses_truncate mkNodeKey nk_pn); [by intros []|done..].
Defined.
End BadgerNodes.

(** ** Over the relational database: a row for every node *)
Record node_row : Type := mkNodeRow { nr_node_id : bytes; nr_role : Z }.
Abbreviation PostgresNodeDB := (gmap (Z * Z) node_row).

Definition row_of_node (n : Node) : node_row := mkNodeRow (Global_AsBytes (Node_ID n)) (Role n).

Fixpoint insert_nodes (tx : PostgresNodeDB) (pulse k : Z) (nodes : list Node) : result PostgresNodeDB :=
  match nodes with
  | [] => Good tx
  | n :: nodes' =>
      match insert_row tx (pulse, k) (row_of_node n) with
      | None => Fail (Wrap (Errorf "SQLSTATE 23505") "Unable to INSERT node")
      | Some tx => insert_nodes tx pulse (k + 1) nodes'
      end
  end.
Definition pg_nodes_Set (t : PostgresNodeDB) (pulse : Z) (nodes : list Node) : PostgresNodeDB * option error :=
  match insert_nodes t pulse 0 nodes with
  | Fail e => (t, Some e)
  | Good t => (t, None)
  end.

Definition num_le (a b : (Z * Z) * node_row) : Prop := a.1.2 <= b.1.2.
#[export] Instance num_le_dec : RelDecision num_le.
Proof. intros a b. unfold num_le. apply _. Defined.
Fixpoint scan_nodes (rows : list ((Z * Z) * node_row)) : result (list Node) :=
  match rows with
  | [] => Good []
  | (_, row) :: rows' =>
      id ← wrap_err (Global_Unmarshal emptyGlobal (nr_node_id row)) "Unable to unmarshal nodeId";
      retNodes ← scan_nodes rows';
      Good (mkNode id (nr_role row) :: retNodes)
  end.
(** [selectByCondition], with ORDER BY node_num. *)
Definition selectByCondition (t : PostgresNodeDB) (where_ : (Z * Z) * node_row -> Prop)
    `{!forall row, Decision (where_ row)} : result (list Node) :=
  scan_nodes (merge_sort num_le (filter where_ (rows_of t))).
Definition pg_nodes_All (t : PostgresNodeDB) (pulse : Z) : result (list Node) :=
  selectByCondition t (fun row => row.1.1 = pulse).
Definition pg_nodes_InRole (t : PostgresNodeDB) (pulse role : Z) : result (list Node) :=
  selectByCondition t (fun row => row.1.1 = pulse /\ nr_role row.2 = role).
Definition pg_nodes_TruncateHead (t : PostgresNodeDB) (from : Z) : PostgresNodeDB * option error :=
  (keep_rows (fun k : Z * Z => k.1 < from) t, None).
#[export] Instance PostgresNodes : NodeHistory PostgresNodeDB := {
  nodes_Set := pg_nodes_Set;
  nodes_All := pg_nodes_All;
  nodes_InRole := pg_nodes_InRole;
  nodes_TruncateHead := pg_nodes_TruncateHead;
}.

(** *** The rows of the nodes *)
Definition node_at (m : NodeStorage) (k : Z * Z) : option Node :=
  nodes ← m !! k.1; if decide (0 <= k.2) then nodes !! Z.to_nat k.2 else None.
Record pg_has_nodes (t : PostgresNodeDB) (m : NodeStorage) : Prop := {
  pn_rows k : t !! k = row_of_node <$> node_at m k;
  pn_ok pn nodes : m !! pn = Some nodes -> nodes <> [] /\ Forall node_ok nodes;
}.

(** The rows of a pulse, in order. *)
Definition pulse_rows (pn : Z) (nodes : list Node) : list ((Z * Z) * node_row) :=
  imap (fun k n => ((pn, Z.of_nat k), row_of_node n)) nodes.

Lemma elem_of_pulse_rows pn nodes k row :
  (k, row) ∈ pulse_rows pn nodes <->
  k.1 = pn /\ 0 <= k.2 /\ exists n, nodes !! Z.to_nat k.2 = Some n /\ row = row_of_node n.
Proof.
  unfold pulse_rows. rewrite elem_of_lookup_imap. destruct k as [q k]. cbn [fst snd]. split.
  - intros (i & n & [= -> -> ->] & Hi). split_and!; [done|lia|]. exists n. by rewrite Nat2Z.id.
  - intros (-> & Hk & n & Hn & ->). exists (Z.to_nat k), n. by rewrite Z2Nat.id.
Qed.

Lemma pulse_rows_sorted pn nodes : StronglySorted num_le (pulse_rows pn nodes).
Proof.
  unfold pulse_rows. assert (Hgen : forall j, StronglySorted num_le (imap (fun k n => ((pn, Z.of_nat (j + k)), row_of_node n)) nodes)).
  { induction nodes as [|n nodes IH]; intros j; [constructor|]. cbn [imap]. constructor.
    - specialize (IH (S j)). erewrite imap_ext; [exact IH|]. intros i x _. cbn. do 3 f_equal. lia.
    - apply list.Forall_forall. intros x (i & y & -> & _)%elem_of_lookup_imap. unfold num_le. cbn. lia. }
  apply (Hgen 0%nat).
Qed.

Lemma pulse_rows_NoDup pn nodes : NoDup (pulse_rows pn nodes).
Proof.
  apply (NoDup_alt (pulse_rows pn nodes)). intros i j x. unfold pulse_rows. rewrite !list_lookup_imap.
  destruct (nodes !! i), (nodes !! j); cbn; intros [= <-] [= E]. lia.
Qed.

Lemma scan_nodes_rows rows nodes :
  Forall node_ok nodes -> rows.*2 = row_of_node <$> nodes -> scan_nodes rows = Good nodes.
Proof.
  revert nodes. induction rows as [|[k row] rows IH]; intros [|n nodes] Hn E; [done..|].
  apply list.Forall_cons in Hn as [Hid Hn]. cbn in E. injection E as -> E. cbn [scan_nodes].
  unfold row_of_node. cbn [nr_node_id nr_role]. rewrite <- (app_nil_r (Global_AsBytes _)).
  rewrite Global_Unmarshal_AsBytes by (done || split; apply emptyLocal_wf). cbn [wrap_err mbind result_bind].
  rewrite (IH nodes Hn E). cbn [mbind result_bind]. by destruct n.
Qed.

#[export] Instance num_le_trans : Transitive num_le.
Proof. intros a b c. unfold num_le. lia. Qed.
#[export] Instance num_le_total : Total num_le.
Proof. intros a b. unfold num_le. lia. Qed.

Lemma filter_pulse_rows pn nodes (p : Node -> Prop) `{!forall n, Decision (p n)}
    (where_ : (Z * Z) * node_row -> Prop) `{!forall row, Decision (where_ row)} :
  (forall k n, where_ (k, row_of_node n) <-> k.1 = pn /\ p n) ->
  (filter where_ (pulse_rows pn nodes)).*2 = row_of_node <$> filter p nodes.
Proof.
  intros Hw. unfold pulse_rows. enough (Hgen : forall j,
    (filter where_ (imap (fun k n => ((pn, Z.of_nat (j + k)), row_of_node n)) nodes)).*2 =
    row_of_node <$> filter p nodes) by exact (Hgen 0%nat).
  induction nodes as [|n nodes IH]; intros j; [done|]. cbn [imap].
  assert (E : imap ((fun k n => ((pn, Z.of_nat (j + k)), row_of_node n)) ∘ S) nodes =
              imap (fun k n => ((pn, Z.of_nat (S j + k)), row_of_node n)) nodes).
  { apply imap_ext. intros i x _. cbn. do 3 f_equal. lia. }
  rewrite E, !filter_cons. specialize (IH (S j)). destruct (decide (p n)) as [Hp|Hp].
  - rewrite decide_True by (by apply Hw). cbn. by f_equal.
  - rewrite decide_False; [done|]. by intros [_ ?]%Hw.
Qed.

(** A query over the rows of a pulse, [p] telling the nodes it asks for. *)
Lemma selectByCondition_pulse t m pn nodes (p : Node -> Prop) `{!forall n, Decision (p n)}
    (where_ : (Z * Z) * node_row -> Prop) `{!forall row, Decision (where_ row)} :
  pg_has_nodes t m -> default [] (m !! pn) = nodes -> Forall node_ok nodes ->
  (forall k n, where_ (k, row_of_node n) <-> k.1 = pn /\ p n) ->
  selectByCondition t where_ = Good (filter p nodes).
Proof.
  intros Ht Hm Hok Hw. unfold selectByCondition.
  rewrite (StronglySorted_unique_strong num_le _ (filter where_ (pulse_rows pn nodes))).
  - apply scan_nodes_rows; [|by apply filter_pulse_rows].
    rewrite list.Forall_forall in *. intros n [_ Hn]%list_elem_of_filter. by apply Hok.
  - intros [k row] [k' row']. rewrite merge_sort_Permutation. unfold rows_of.
    intros [Hwk Hk]%list_elem_of_filter [Hwk' Hk']%list_elem_of_filter Hle Hge. unfold num_le in *. cbn in Hle, Hge.
    apply elem_of_map_to_list in Hk. apply elem_of_pulse_rows in Hk' as (Ek' & _ & n' & Hn' & ->).
    rewrite (pn_rows t m Ht) in Hk. destruct (node_at m k) as [n|] eqn:En; [|done]. injection Hk as <-.
    apply Hw in Hwk as [Ek _]. destruct k as [q i], k' as [q' i']. cbn in *. subst q q'.
    assert (i = i') as -> by lia. f_equal. f_equal. unfold node_at in En. cbn [fst snd] in En.
    destruct (m !! pn) as [l|] eqn:Em; [|done]. cbn in En, Hm. subst l. destruct (decide _); [congruence|done].
  - apply StronglySorted_merge_sort; apply _.
  - apply sorted_filter, pulse_rows_sorted.
  - rewrite merge_sort_Permutation. unfold rows_of. apply NoDup_Permutation.
    + apply list.NoDup_filter, NoDup_map_to_list.
    + apply list.NoDup_filter, pulse_rows_NoDup.
    + intros [k row]. rewrite !list_elem_of_filter, elem_of_map_to_list, elem_of_pulse_rows, (pn_rows t m Ht).
      split; intros [Hwk Hk]; (split; [done|]).
      * destruct (node_at m k) as [n|] eqn:En; [|done]. injection Hk as <-. apply Hw in Hwk as [Ek _].
        unfold node_at in En. rewrite Ek in En. destruct (m !! pn) as [l|] eqn:Em; [|done].
        cbn in En, Hm. subst l. destruct (decide (0 <= k.2)); [|done]. split_and!; [done..|]. by exists n.
      * destruct Hk as (Ek & Hk & n & Hn & ->). unfold node_at. rewrite Ek.
        destruct (m !! pn) as [l|] eqn:Em; cbn in Hm; subst nodes; [|done]. cbn.
        by rewrite decide_True, Hn.
Qed.

Lemma node_at_insert m pn nodes k :
  node_at (<[pn := nodes]> m) k =
  if decide (k.1 = pn) then (if decide (0 <= k.2) then nodes !! Z.to_nat k.2 else None) else node_at m k.
Proof.
  unfold node_at. destruct (decide (k.1 = pn)) as [->|]; [by rewrite lookup_insert_eq|by rewrite lookup_insert_ne].
Qed.

(** The loop puts the nodes in the rows from [k] on. *)
Lemma insert_nodes_fresh tx pulse k nodes :
  (forall j, k <= j -> tx !! (pulse, j) = None) ->
  exists tx', insert_nodes tx pulse k nodes = Good tx' /\
    forall key, tx' !! key =
      if decide (key.1 = pulse /\ k <= key.2 < k + Z.of_nat (length nodes))
      then row_of_node <$> nodes !! Z.to_nat (key.2 - k) else tx !! key.
Proof.
  revert tx k. induction nodes as [|n nodes IH]; intros tx k Hfree; cbn [insert_nodes length].
  { exists tx. split; [done|]. intros key. by rewrite decide_False by lia. }
  unfold insert_row. rewrite Hfree by lia. destruct (IH (<[(pulse, k) := row_of_node n]> tx) (k + 1)) as (tx' & E & Hl).
  { intros j Hj. rewrite lookup_insert_ne by (intros [=]; lia). apply Hfree. lia. }
  exists tx'. split; [exact E|]. intros [q j]. rewrite Hl. cbn [fst snd].
  destruct (decide (q = pulse /\ k + 1 <= j < k + 1 + Z.of_nat (length nodes))) as [Hj|Hj].
  - rewrite decide_True by lia. replace (Z.to_nat (j - k)) with (S (Z.to_nat (j - (k + 1)))) by lia. done.
  - rewrite lookup_insert. destruct (decide ((pulse, k) = (q, j))) as [[= -> ->]|Hne].
    + rewrite decide_True by lia. by rewrite Z.sub_diag.
    + rewrite decide_False; [done|]. intros [-> ?]. apply Hne. f_equal. lia.
Qed.

Lemma pg_nodes_missing t m pn (p : Node -> Prop) `{!forall n, Decision (p n)}
    (where_ : (Z * Z) * node_row -> Prop) `{!forall row, Decision (where_ row)} :
  pg_has_nodes t m -> m !! pn = None -> (forall k n, where_ (k, row_of_node n) <-> k.1 = pn /\ p n) ->
  selectByCondition t where_ = Good [].
Proof. intros Ht E Hw. by rewrite (selectByCondition_pulse t m pn [] p where_); rewrite ?E. Qed.

#[export, refine] Instance PostgresNodes_lawful : LawfulNodes PostgresNodeDB := { has_nodes := pg_has_nodes }.
Proof.
  - intros t m pn nodes Ht Hpn E. cbn [nodes_All PostgresNodes]. unfold pg_nodes_All.
    rewrite (selectByCondition_pulse t m pn nodes (fun _ => True)).
    + f_equal. by apply filter_all.
    + done.
    + by rewrite E.
    + by apply (pn_ok t m Ht pn).
    + intros k n. cbn. tauto.
  - intros t m pn role nodes Ht Hpn E. cbn [nodes_InRole PostgresNodes]. unfold pg_nodes_InRole.
    apply (selectByCondition_pulse t m pn nodes (fun n => Role n = role)); [done|by rewrite E|by apply (pn_ok t m Ht pn)|done].
  - intros t m pn role Ht Hpn E. cbn [nodes_All nodes_InRole PostgresNodes]. unfold pg_nodes_All, pg_nodes_InRole.
    rewrite (pg_nodes_missing t m pn (fun _ => True)) by (done || intros; cbn; tauto).
    rewrite (pg_nodes_missing t m pn (fun n => Role n = role)) by done. split; [done|by right].
  - intros t m pn nodes Ht Hpn Hne Hok. cbn [nodes_Set PostgresNodes]. unfold pg_nodes_Set.
    destruct (m !! pn) as [old|] eqn:E.
    + assert (Ei : exists e, insert_nodes t pn 0 nodes = Fail e).
      { destruct nodes as [|n nodes]; [done|]. cbn [insert_nodes]. unfold insert_row. rewrite (pn_rows t m Ht).
        unfold node_at. cbn [fst snd]. rewrite E. cbn [mbind option_bind]. rewrite decide_True by done.
        destruct (pn_ok t m Ht pn old E) as [Ho _]. destruct old as [|o old]; [done|]. by eexists. }
      destruct Ei as [e ->]. by split.
    + destruct (insert_nodes_fresh t pn 0 nodes) as (t' & Ei & Hl).
      { intros j Hj. rewrite (pn_rows t m Ht). unfold node_at. cbn. by rewrite E. }
      rewrite Ei. cbn [fst snd]. split; [|by intros []]. split.
      * intros [q j]. rewrite Hl, node_at_insert. cbn [fst snd]. destruct (decide (q = pn)) as [->|Hq].
        -- destruct (decide (0 <= j)) as [Hj|Hj].
           ++ rewrite Z.sub_0_r. destruct (decide _) as [|Hout]; [done|].
              rewrite (pn_rows t m Ht). unfold node_at. cbn. rewrite E. cbn.
              by rewrite (proj2 (lookup_ge_None nodes (Z.to_nat j))) by lia.
           ++ rewrite decide_False by lia. rewrite (pn_rows t m Ht). unfold node_at. cbn. by rewrite E.
        -- rewrite decide_False by tauto. apply (pn_rows t m Ht).
      * intros q l. rewrite lookup_insert. destruct (decide _); [by intros [= <-]|apply (pn_ok t m Ht)].
  - intros t m from Ht Hf. eexists. split; [done|]. split.
    + intros [q j]. rewrite lookup_keep_rows, (pn_rows t m Ht). unfold node_at. cbn [fst snd].
      rewrite map_lookup_filter. destruct (m !! q) as [l|]; cbn; [|by destruct (decide _)].
      destruct (decide (q < from)); [by rewrite option_guard_True|by rewrite option_guard_False].
    + intros q l [E _]%map_lookup_filter_Some. by apply (pn_ok t m Ht q).
Defined.
Lemma pg_has_nodes_nil : pg_has_nodes ∅ ∅.
Proof. split; [intros k; unfold node_at|intros k l E]; by rewrite ?lookup_empty in *. Qed.
