(* ===== verification/PostgresPulses.v ===== *)
(** * The pulse storage over SQL (src/insolar/pulse/postgres_db.go)

    Pulses and their signatures are rows of two tables; the number last
    inserted is kept beside them, and a truncation does not take it back.  So
    the storage is the increasing list of its pulses and that mark. *)
From stdpp Require Import sorting.
From S2P Require Import Prelude Pulse PulseStore Reference Tables.

Record pulse_row : Type := mkPulseRow {
  prev_pn : Z;
  next_pn : Z;
  tstamp : Z;
  epoch : Z;
  origin_id : list Z;
  row_entropy : list Z;
}.
Record sign_row : Type := mkSignRow { sign_entropy : list Z; sign_signature : list Z }.
Record PostgresPulseDB : Type := mkPgPulses {
  table_pulses : gmap Z pulse_row;
  pulse_signs : gmap (Z * string) sign_row;
  last_insert_pulse : option (list Z);
}.

Definition OriginIDSize : nat := 16.

Definition row_of_pulse (p : Pulse) : pulse_row :=
  mkPulseRow (PrevPulseNumber p) (NextPulseNumber p) (Pulse_Timestamp p) (EpochPulseNumber p) (OriginID p) (Entropy p).
Definition row_of_sign (s : PulseSenderConfirmation) : sign_row := mkSignRow (psc_Entropy s) (Signature s).

Section PostgresPulses.
Context `{RowOrder}.

Definition scan_sign (row : (Z * string) * sign_row) : PulseSenderConfirmation :=
  mkConfirmation row.1.1 row.1.2 (copy (replicate EntropySize 0) (sign_entropy row.2)) (sign_signature row.2).

Definition selectPulse (t : PostgresPulseDB) (pn : Z) : result Pulse :=
  match table_pulses t !! pn with
  | None => Fail ErrNotFound
  | Some row =>
      let signRows := order (filter (fun row : (Z * string) * sign_row => row.1.1 = pn) (rows_of (pulse_signs t))) in
      let Signs := foldl (fun m row => let conf := scan_sign row in <[ChosenPublicKey conf := conf]> m) ∅ signRows in
      Good (mkPulse pn (prev_pn row) (next_pn row) (tstamp row) (epoch row)
              (copy (replicate OriginIDSize 0) (origin_id row)) (copy (replicate EntropySize 0) (row_entropy row)) Signs)
  end.

(** [ORDER BY pulse_number] *)
Definition numbers (t : PostgresPulseDB) : list Z := merge_sort Z.le (elements (dom (table_pulses t))).

Definition ErrQuery : error := Wrap (Errorf "scan") "selectByCondition - request failed query".
(** [OFFSET steps LIMIT 1] *)
Definition pulses_select (t : PostgresPulseDB) (rows : list Z) (steps : Z) : result Pulse :=
  if steps <? 0 then Fail ErrQuery
  else match rows !! Z.to_nat steps with Some pn => selectPulse t pn | None => Fail ErrNotFound end.

Definition pg_ForPulseNumber (t : PostgresPulseDB) (pn : Z) : result Pulse := selectPulse t pn.
(** [SELECT max(pulse_number)] gives NULL for no rows, which is no number. *)
Definition pg_Latest (t : PostgresPulseDB) : result Pulse :=
  match last (numbers t) with Some pn => selectPulse t pn | None => Fail ErrQuery end.
Definition pg_Forwards (t : PostgresPulseDB) (pn steps : Z) : result Pulse :=
  pulses_select t (filter (fun k => pn <= k) (numbers t)) steps.
Definition pg_Backwards (t : PostgresPulseDB) (pn steps : Z) : result Pulse :=
  pulses_select t (reverse (filter (fun k => k <= pn) (numbers t))) steps.

Definition pg_TruncateHead (t : PostgresPulseDB) (from : Z) : PostgresPulseDB :=
  mkPgPulses (keep_rows (fun pn => pn < from) (table_pulses t))
    (keep_rows (fun k : Z * string => k.1 < from) (pulse_signs t)) (last_insert_pulse t).

(** The loop over [pulse.Signs], in the order the map is visited. *)
Fixpoint insert_signs (rows : gmap (Z * string) sign_row) (pn : Z) (signs : list (string * PulseSenderConfirmation))
    : result (gmap (Z * string) sign_row) :=
  match signs with
  | [] => Good rows
  | (k, s) :: signs' =>
      if negb (psc_PulseNumber s =? pn) || negb (bool_decide (k = ChosenPublicKey s)) then Fail ErrBadPulse
      else
        match insert_row rows (psc_PulseNumber s, ChosenPublicKey s) (row_of_sign s) with
        | None => Fail (Wrap (Errorf "duplicate key") "Unable to INSERT pulse_sign")
        | Some rows => insert_signs rows pn signs'
        end
  end.

(** The check against the last insert, with the buffer it was read into. *)
Definition check_last_insert (t : PostgresPulseDB) (pn : Z) : result (bool * list Z) :=
  match last_insert_pulse t with
  | None => Good (true, replicate 128 0)
  | Some lastPulseSlice =>
      if Z.of_nat (length lastPulseSlice) <? NumberSize
      then Fail (Wrap (Errorf "not enough bytes to unmarshal pulse.Number") "Unable to unmarshal last_insert_pulse")
      else Good (of_be32 lastPulseSlice <? pn, lastPulseSlice)
  end.

Definition pg_Append (t : PostgresPulseDB) (pulse : Pulse) : PostgresPulseDB * option error :=
  match check_last_insert t (num pulse) with
  | Fail e => (t, Some e)
  | Good (false, _) => (t, Some ErrBadPulse)
  | Good (true, lastPulseSlice) =>
      match insert_row (table_pulses t) (num pulse) (row_of_pulse pulse) with
      | None => (t, Some (Wrap (Errorf "duplicate key") "Unable to INSERT pulse"))
      | Some pulses =>
          match insert_signs (pulse_signs t) (num pulse) (order (map_to_list (Signs pulse))) with
          | Fail e => (t, Some e)
          | Good signs =>
              (mkPgPulses pulses signs (Some (be32 (num pulse) ++ drop (Z.to_nat NumberSize) lastPulseSlice)), None)
          end
      end
  end.

#[export] Instance PostgresPulses : PulseStorage PostgresPulseDB := {
  ForPulseNumber t pn := Ret (pg_ForPulseNumber t pn);
  Latest t := Ret (pg_Latest t);
  Append t p := Ret (pg_Append t p);
  Forwards t pn steps := Ret (pg_Forwards t pn steps);
  Backwards t pn steps := Ret (pg_Backwards t pn steps);
}.
End PostgresPulses.

(** ** What is stored *)

(** The arrays of a pulse have their sizes. *)
Record pulse_wf (p : Pulse) : Prop := {
  pw_range : 0 <= num p < 2^32;
  pw_origin : length (OriginID p) = OriginIDSize;
  pw_entropy : length (Entropy p) = EntropySize;
  pw_signs k c : Signs p !! k = Some c -> length (psc_Entropy c) = EntropySize;
}.
(** The signatures are of this pulse, under their own keys. *)
Definition signs_match (p : Pulse) : Prop :=
  map_Forall (fun k c => psc_PulseNumber c = num p /\ ChosenPublicKey c = k) (Signs p).
#[export] Instance signs_match_dec p : Decision (signs_match p).
Proof. apply _. Defined.

Definition mark_bytes (mark : option Z) (o : option (list Z)) : Prop :=
  match mark with
  | None => o = None
  | Some n => 0 <= n < 2^32 /\ exists rest, o = Some (be32 n ++ rest)
  end.

Record pg_pulses (t : PostgresPulseDB) (l : list Pulse) (mark : option Z) : Prop := {
  pp_increasing : increasing l;
  pp_wf p : p ∈ l -> pulse_wf p /\ signs_match p;
  pp_row p : p ∈ l -> table_pulses t !! num p = Some (row_of_pulse p);
  pp_only pn row : table_pulses t !! pn = Some row -> pn ∈ num <$> l;
  pp_sign p k : p ∈ l -> pulse_signs t !! (num p, k) = row_of_sign <$> Signs p !! k;
  pp_sign_only pn k row : pulse_signs t !! (pn, k) = Some row -> pn ∈ num <$> l;
  pp_mark : mark_bytes mark (last_insert_pulse t);
  pp_below p : p ∈ l -> match mark with Some n => num p <= n | None => False end;
}.

Lemma pg_pulses_nil : pg_pulses (mkPgPulses ∅ ∅ None) [] None.
Proof.
  split; cbn [table_pulses pulse_signs last_insert_pulse]; try done; try (by intros ? ?%elem_of_nil); try (by intros ? ? ?%elem_of_nil).
Qed.

(** ** Reading *)
Section Reads.
Context `{RowOrder} (t : PostgresPulseDB) (l : list Pulse) (mark : option Z).
Context (Ht : pg_pulses t l mark).

Lemma numbers_list : numbers t = num <$> l.
Proof.
  apply (StronglySorted_unique Z.le).
  - apply StronglySorted_merge_sort; [apply _|]. intros x y. lia.
  - apply increasing_sorted, Ht.
  - unfold numbers. rewrite merge_sort_Permutation. apply NoDup_Permutation.
    + apply NoDup_elements.
    + apply increasing_NoDup, Ht.
    + intros pn. rewrite elem_of_elements, elem_of_dom. split.
      * intros [row Hrow]. by apply (pp_only _ _ _ Ht) in Hrow.
      * intros (p & -> & Hp)%list_elem_of_fmap. exists (row_of_pulse p). by apply (pp_row _ _ _ Ht).
Qed.

Lemma copy_all {A} (dst src : list A) : length src = length dst -> copy dst src = src.
Proof. intros E. rewrite copy_ge by lia. rewrite drop_ge by lia. apply app_nil_r. Qed.

Lemma insert_all_signs (rows : list ((Z * string) * sign_row)) (m : gmap string PulseSenderConfirmation) k :
  NoDup ((fun row => row.1.2) <$> rows) ->
  foldl (fun m row => let conf := scan_sign row in <[ChosenPublicKey conf := conf]> m) m rows !! k =
  match list_find (fun row : (Z * string) * sign_row => row.1.2 = k) rows with
  | Some (_, row) => Some (scan_sign row)
  | None => m !! k
  end.
Proof.
  revert m. induction rows as [|[[pn key] row] rows IH]; intros m Hnd; [done|].
  cbn [fmap list_fmap fst snd] in Hnd. apply list.NoDup_cons in Hnd as [Hout Hnd]. cbn [foldl]. rewrite (IH _ Hnd). cbn [list_find fst snd].
  destruct (decide (key = k)) as [->|Hne].
  - destruct (list_find _ rows) as [[j r]|] eqn:E; [|by rewrite lookup_insert_eq].
    exfalso. apply list_find_Some in E as (Hj & Ek & _). apply Hout. rewrite <- Ek.
    apply list_elem_of_fmap. exists r. split; [done|by eapply list_elem_of_lookup_2].
  - destruct (list_find _ rows) as [[j r]|]; [done|]. cbn. by rewrite lookup_insert_ne.
Qed.

Lemma selectPulse_stored p : p ∈ l -> selectPulse t (num p) = Good p.
Proof.
  intros Hp. destruct (pp_wf _ _ _ Ht p Hp) as [[Hr Ho He Hs] Hm]. unfold selectPulse. rewrite (pp_row _ _ _ Ht p Hp).
  cbn [row_of_pulse prev_pn next_pn tstamp epoch origin_id row_entropy].
  rewrite !copy_all by (rewrite length_replicate; done). f_equal.
  set (rows := order (filter _ (rows_of (pulse_signs t)))).
  assert (Hrows : forall pn k row, (pn, k, row) ∈ rows <-> pn = num p /\ pulse_signs t !! (pn, k) = Some row).
  { intros pn k row. unfold rows. rewrite order_permutation, list_elem_of_filter. unfold rows_of. by rewrite elem_of_map_to_list. }
  assert (Hnd : NoDup ((fun row : (Z * string) * sign_row => row.1.2) <$> rows)).
  { apply NoDup_fmap_2_strong.
    - intros [[pa ka] ra] [[pb kb] rb] Ha Hb Ek. cbn in Ek. subst kb. apply Hrows in Ha as [-> Ha], Hb as [-> Hb]. congruence.
    - unfold rows. rewrite order_permutation. apply list.NoDup_filter, NoDup_map_to_list. }
  destruct p as [pn pp np ts ep oi en sg]. cbn [num PrevPulseNumber NextPulseNumber Pulse_Timestamp EpochPulseNumber OriginID Entropy Signs] in *.
  f_equal. apply map_eq. intros k. rewrite insert_all_signs by done.
  pose proof (pp_sign _ _ _ Ht _ k Hp) as Hk. cbn [num Signs] in Hk.
  destruct (list_find _ rows) as [[j [[pn' k'] row]]|] eqn:E.
  - apply list_find_Some in E as (Hj & Ek & _). cbn in Ek. subst k'. apply list_elem_of_lookup_2, Hrows in Hj as [-> Hj].
    rewrite Hj in Hk. destruct (sg !! k) as [c|] eqn:Ec; [|done]. injection Hk as ->. cbn in Hm, Hs.
    destruct (Hm k c Ec) as [En Ek]. unfold scan_sign. cbn [fst snd row_of_sign sign_entropy sign_signature]. f_equal. rewrite copy_all by (rewrite length_replicate; by eapply Hs).
    destruct c; cbn in *. congruence.
  - rewrite lookup_empty. symmetry. destruct (sg !! k) as [c|] eqn:Ec; [|done]. exfalso.
    cbn in Hk. apply list_find_None in E. rewrite list.Forall_forall in E.
    apply (E (pn, k, row_of_sign c)); [|done]. by apply Hrows.
Qed.

Lemma selectPulse_none pn : pn ∉ num <$> l -> selectPulse t pn = Fail ErrNotFound.
Proof.
  intros Hn. unfold selectPulse. destruct (table_pulses t !! pn) as [row|] eqn:E; [|done].
  by apply (pp_only _ _ _ Ht) in E.
Qed.

Lemma pg_ForPulseNumber_law pn : pg_ForPulseNumber t pn = list_ForPulseNumber l pn.
Proof.
  unfold pg_ForPulseNumber, list_ForPulseNumber. destruct (list_find _ l) as [[i p]|] eqn:E.
  - apply list_find_Some in E as (Hi & <- & _). apply selectPulse_stored. by eapply list_elem_of_lookup_2.
  - apply selectPulse_none. intros (p & -> & Hp)%list_elem_of_fmap. apply list_find_None in E.
    rewrite list.Forall_forall in E. by apply (E p Hp).
Qed.

Lemma pg_Latest_law : pg_Latest t = match last l with Some p => Good p | None => Fail ErrQuery end.
Proof.
  unfold pg_Latest. rewrite numbers_list, list.fmap_last. destruct (last l) as [p|] eqn:E; [|done]. cbn.
  apply selectPulse_stored. by apply last_Some_elem_of.
Qed.

Lemma pulses_select_law (sel : list Pulse) (k : nat) :
  (forall p, p ∈ sel -> p ∈ l) -> pulses_select t (num <$> sel) (Z.of_nat k) = found (sel !! k).
Proof.
  intros Hsel. unfold pulses_select. rewrite (proj2 (Z.ltb_ge _ _)) by lia. rewrite Nat2Z.id, list_lookup_fmap.
  destruct (sel !! k) as [p|] eqn:E; [|done]. cbn. apply selectPulse_stored, Hsel. by eapply list_elem_of_lookup_2.
Qed.

Lemma pg_Forwards_law i p (k : nat) :
  l !! i = Some p -> pg_Forwards t (num p) (Z.of_nat k) = found (l !! (i + k)%nat).
Proof.
  intros Hi. unfold pg_Forwards. rewrite numbers_list, (filter_cut_after _ _ i), <- fmap_drop.
  - rewrite pulses_select_law; [by rewrite lookup_drop|]. intros q [j Hj]%list_elem_of_lookup.
    rewrite lookup_drop in Hj. by eapply list_elem_of_lookup_2.
  - intros j pn Hj. by apply (db_order l i p j pn (pp_increasing _ _ _ Ht)).
Qed.

Lemma pg_Backwards_law i p (k : nat) :
  l !! i = Some p -> pg_Backwards t (num p) (Z.of_nat k) = found (if (k <=? i)%nat then l !! (i - k)%nat else None).
Proof.
  intros Hi. pose proof (lookup_lt_Some _ _ _ Hi) as Hlt.
  unfold pg_Backwards. rewrite numbers_list, (filter_cut _ _ (S i)), <- fmap_take, <- fmap_reverse.
  - rewrite pulses_select_law.
    + f_equal. destruct (Nat.leb_spec k i).
      * rewrite reverse_lookup by (rewrite length_take; lia). rewrite length_take, Nat.min_l by lia.
        by rewrite lookup_take_lt by lia.
      * apply lookup_ge_None. rewrite length_reverse, length_take. lia.
    + intros q Hq. rewrite elem_of_reverse in Hq. apply list_elem_of_lookup in Hq as [j [Hj _]%lookup_take_Some]. by eapply list_elem_of_lookup_2.
  - intros j pn Hj. by apply (db_order l i p j pn (pp_increasing _ _ _ Ht)).
Qed.
End Reads.

(** ** Writing *)
Section Writes.
Context `{RowOrder}.

Lemma check_last_insert_law t l mark pn :
  pg_pulses t l mark ->
  exists buf, check_last_insert t pn = Good (match mark with Some n => n <? pn | None => true end, buf).
Proof.
  intros Ht. pose proof (pp_mark _ _ _ Ht) as Hm. unfold check_last_insert. destruct mark as [n|]; unfold mark_bytes in Hm.
  - destruct Hm as [Hn (rest & ->)]. rewrite length_app. change (length (be32 n)) with 4%nat.
    rewrite (proj2 (Z.ltb_ge _ _)) by (unfold NumberSize; lia). eexists. do 2 f_equal.
    pose proof (of_be32_be32 n rest) as E. by rewrite E.
  - rewrite Hm. by eexists.
Qed.

(** The signatures are written one by one, none of them twice. *)
Lemma insert_signs_law rows pn signs :
  NoDup signs.*1 -> (forall k row, rows !! (pn, k) = Some row -> k ∉ signs.*1) ->
  Forall (fun kc => psc_PulseNumber kc.2 = pn /\ ChosenPublicKey kc.2 = kc.1) signs ->
  exists rows', insert_signs rows pn signs = Good rows' /\
    forall pn' k, rows' !! (pn', k) = if decide (pn' = pn /\ k ∈ signs.*1)
                                      then row_of_sign <$> (list_to_map signs : gmap string PulseSenderConfirmation) !! k
                                      else rows !! (pn', k).
Proof.
  revert rows. induction signs as [|[k c] signs IH]; intros rows Hnd Hout Hok.
  { exists rows. split; [done|]. intros pn' k. rewrite decide_False; [done|]. by intros [_ ?%elem_of_nil]. }
  cbn [fmap list_fmap fst] in Hnd, Hout. apply list.NoDup_cons in Hnd as [Hk Hnd]. apply list.Forall_cons in Hok as [[E1 E2] Hok]. cbn in E1, E2.
  cbn [insert_signs]. rewrite E1, E2, Z.eqb_refl, bool_decide_true by done. cbn [negb orb].
  unfold insert_row. destruct (rows !! (pn, k)) as [row|] eqn:Er; [exfalso; apply (Hout k row Er); by left|].
  destruct (IH (<[(pn, k) := row_of_sign c]> rows) Hnd) as (rows' & E & Hr); [|done|].
  { intros k' row'. destruct (decide (k' = k)) as [->|Hne]; [done|]. rewrite lookup_insert_ne by congruence.
    intros Hr' Hin. apply (Hout k' row' Hr'). by right. }
  exists rows'. split; [done|]. intros pn' k'. rewrite Hr. cbn [list_to_map fmap list_fmap fst snd foldr].
  destruct (decide (k' = k)) as [->|Hne].
  - rewrite decide_False by (by intros [_ ?]). destruct (decide (pn' = pn)) as [->|Hpn].
    + rewrite lookup_insert_eq, decide_True by (split; [done|by left]). by rewrite lookup_insert_eq.
    + rewrite lookup_insert_ne by congruence. by rewrite decide_False by (by intros [? _]).
  - rewrite !lookup_insert_ne by congruence. destruct (decide (pn' = pn /\ k' ∈ signs.*1)) as [[-> Hin]|Hn].
    + by rewrite decide_True by (split; [done|by right]).
    + rewrite decide_False; [done|]. intros [-> [->|Hin]%elem_of_cons]; [done|]. by apply Hn.
Qed.

Lemma insert_signs_bad rows pn signs :
  ~ Forall (fun kc => psc_PulseNumber kc.2 = pn /\ ChosenPublicKey kc.2 = kc.1) signs ->
  NoDup signs.*1 -> (forall k row, rows !! (pn, k) = Some row -> k ∉ signs.*1) ->
  insert_signs rows pn signs = Fail ErrBadPulse.
Proof.
  revert rows. induction signs as [|[k c] signs IH]; intros rows Hbad Hnd Hout; [by destruct Hbad|].
  cbn [fmap list_fmap fst] in Hnd, Hout. apply list.NoDup_cons in Hnd as [Hk Hnd]. cbn [insert_signs].
  destruct (Z.eqb_spec (psc_PulseNumber c) pn) as [E1|]; [|done].
  destruct (bool_decide_reflect (k = ChosenPublicKey c)) as [E2|]; [|done]. cbn [negb orb].
  unfold insert_row. rewrite E1, <- E2. destruct (rows !! (pn, k)) as [row|] eqn:Er; [exfalso; apply (Hout k row Er); by left|].
  apply IH; [|done|].
  - intros Hok. apply Hbad. by constructor.
  - intros k' row'. destruct (decide (k' = k)) as [->|Hne]; [done|]. rewrite lookup_insert_ne by congruence.
    intros Hr' Hin. apply (Hout k' row' Hr'). by right.
Qed.

(** What [Append] does to the pulses stored and the mark. *)
Definition marked_Append (l : list Pulse) (mark : option Z) (p : Pulse) : list Pulse * option Z * option error :=
  if match mark with Some n => num p <=? n | None => false end then (l, mark, Some ErrBadPulse)
  else if decide (signs_match p) then (l ++ [p], Some (num p), None)
  else (l, mark, Some ErrBadPulse).

Lemma signs_in_order p :
  let signs := order (map_to_list (Signs p)) in
  NoDup signs.*1 /\ (signs_match p <-> Forall (fun kc => psc_PulseNumber kc.2 = num p /\ ChosenPublicKey kc.2 = kc.1) signs) /\
  (list_to_map signs : gmap string PulseSenderConfirmation) = Signs p.
Proof.
  intros signs. assert (Hp : signs ≡ₚ map_to_list (Signs p)) by apply order_permutation.
  assert (Hnd : NoDup signs.*1) by (rewrite Hp; apply NoDup_fst_map_to_list). split; [done|]. split.
  - rewrite Hp. unfold signs_match. by rewrite map_Forall_to_list, !list.Forall_forall; split; intros Hx [k c] Hin; apply (Hx (k, c) Hin).
  - rewrite <- (list_to_map_to_list (Signs p)). by apply list_to_map_proper.
Qed.

Lemma pg_Append_law t l mark p :
  pg_pulses t l mark -> pulse_wf p ->
  let '(l', mark', e) := marked_Append l mark p in
  (pg_Append t p).2 = e /\ pg_pulses (pg_Append t p).1 l' mark'.
Proof.
  intros Ht Hp. destruct (check_last_insert_law t l mark (num p) Ht) as [buf Eb]. unfold pg_Append, marked_Append. rewrite Eb.
  assert (Ecmp : match mark with Some n => n <? num p | None => true end =
    negb (match mark with Some n => num p <=? n | None => false end)).
  { destruct mark as [n|]; [|done]. by rewrite Z.leb_antisym, negb_involutive. }
  rewrite Ecmp. destruct (match mark with Some n => num p <=? n | None => false end) eqn:Ele; cbn [negb]; [done|].
  assert (Hnew : forall q, q ∈ l -> num q < num p).
  { intros q Hq. pose proof (pp_below _ _ _ Ht q Hq) as Hb. destruct mark as [n|]; [|done]. apply Z.leb_gt in Ele. lia. }
  assert (Hfresh : num p ∉ num <$> l) by (intros (q & Eq & Hq)%list_elem_of_fmap; specialize (Hnew q Hq); lia).
  unfold insert_row. destruct (table_pulses t !! num p) as [row|] eqn:Er; [by apply (pp_only _ _ _ Ht) in Er|].
  destruct (signs_in_order p) as (Hnd & Hmatch & Hmap). set (signs := order (map_to_list (Signs p))) in *.
  assert (Hout : forall k row, pulse_signs t !! (num p, k) = Some row -> k ∉ signs.*1) by
    (intros k row Hk; by apply (pp_sign_only _ _ _ Ht) in Hk).
  destruct (decide (signs_match p)) as [Hok|Hbad].
  2: { rewrite insert_signs_bad by (done || by rewrite <- Hmatch). done. }
  destruct (insert_signs_law (pulse_signs t) (num p) signs Hnd Hout (proj1 Hmatch Hok)) as (rows' & E & Hr). rewrite E, Hmap in *.
  split; [done|]. assert (Hin : forall q, q ∈ l ++ [p] <-> q ∈ l \/ q = p) by (intros q; by rewrite elem_of_app, list_elem_of_singleton).
  split; cbn [fst table_pulses pulse_signs last_insert_pulse].
  - intros i j a b Hij Ha Hb. apply lookup_snoc_Some in Hb as [[Hj Hb]|[-> <-]].
    + apply lookup_snoc_Some in Ha as [[_ Ha]|[-> _]]; [by apply (pp_increasing _ _ _ Ht i j)|lia].
    + apply lookup_snoc_Some in Ha as [[_ Ha]|[-> _]]; [|lia]. apply Hnew. by eapply list_elem_of_lookup_2.
  - intros q [Hq| ->]%Hin; [by apply (pp_wf _ _ _ Ht)|done].
  - intros q [Hq| ->]%Hin; [|by rewrite lookup_insert_eq]. rewrite lookup_insert_ne by (specialize (Hnew q Hq); lia).
    by apply (pp_row _ _ _ Ht).
  - intros pn row. rewrite fmap_app, elem_of_app. destruct (decide (pn = num p)) as [->|Hne]; [right; by left|].
    rewrite lookup_insert_ne by done. intros Hx. left. by apply (pp_only _ _ _ Ht) in Hx.
  - intros q k [Hq| ->]%Hin; rewrite Hr.
    + rewrite decide_False by (intros [Eq _]; specialize (Hnew q Hq); lia). by apply (pp_sign _ _ _ Ht).
    + destruct (decide _) as [_|Hn]; [done|]. destruct (Signs p !! k) as [c|] eqn:Ek.
      * exfalso. apply Hn. split; [done|]. rewrite <- Hmap in Ek. apply elem_of_list_to_map_2 in Ek.
        apply list_elem_of_fmap. by exists (k, c).
      * destruct (pulse_signs t !! (num p, k)) as [row|] eqn:Es; [|done]. by apply (pp_sign_only _ _ _ Ht) in Es.
  - intros pn k row. rewrite Hr, fmap_app, elem_of_app. destruct (decide _) as [[-> _]|_]; [intros _; right; by left|].
    intros Hx. left. by apply (pp_sign_only _ _ _ Ht) in Hx.
  - split; [apply Hp|]. by eexists.
  - intros q [Hq| ->]%Hin; [specialize (Hnew q Hq); lia|lia].
Qed.

Lemma pg_TruncateHead_law t l mark from :
  pg_pulses t l mark -> pg_pulses (pg_TruncateHead t from) (filter (fun p => num p < from) l) mark.
Proof.
  intros Ht. assert (Hin : forall q, q ∈ filter (fun p => num p < from) l <-> num q < from /\ q ∈ l) by (intros q; by rewrite list_elem_of_filter).
  split; cbn [pg_TruncateHead table_pulses pulse_signs last_insert_pulse].
  - apply increasing_below, Ht.
  - intros q [_ Hq]%Hin. by apply (pp_wf _ _ _ Ht).
  - intros q [Hf Hq]%Hin. rewrite lookup_keep_rows, decide_True by done. by apply (pp_row _ _ _ Ht).
  - intros pn row. rewrite lookup_keep_rows. destruct (decide (pn < from)) as [Hf|]; [|done].
    intros (q & -> & Hq)%(pp_only _ _ _ Ht)%list_elem_of_fmap. apply list_elem_of_fmap. exists q. split; [done|]. by apply Hin.
  - intros q k [Hf Hq]%Hin. rewrite lookup_keep_rows, decide_True by done. by apply (pp_sign _ _ _ Ht).
  - intros pn k row. rewrite lookup_keep_rows. cbn [fst]. destruct (decide (pn < from)) as [Hf|]; [|done].
    intros (q & -> & Hq)%(pp_sign_only _ _ _ Ht)%list_elem_of_fmap. apply list_elem_of_fmap. exists q. split; [done|]. by apply Hin.
  - apply Ht.
  - intros q [_ Hq]%Hin. by apply (pp_below _ _ _ Ht).
Qed.
End Writes.

(** ** Both storages *)
Inductive pulse_op : Type :=
  | AppendPulse (p : Pulse)
  | TruncatePulses (from : Z).
Definition pulse_op_ok (o : pulse_op) : Prop :=
  match o with AppendPulse p => pulse_wf p | TruncatePulses _ => True end.

(** The list of the pulses stored, the mark, and the error of every call. *)
Fixpoint pulses_log (l : list Pulse) (mark : option Z) (ops : list pulse_op) : list Pulse * list (option error) :=
  match ops with
  | [] => (l, [])
  | AppendPulse p :: ops' =>
      let '(l, mark, e) := marked_Append l mark p in
      let '(l, es) := pulses_log l mark ops' in (l, e :: es)
  | TruncatePulses from :: ops' =>
      let '(l, es) := pulses_log (filter (fun p => num p < from) l) mark ops' in (l, None :: es)
  end.

Section Both.
Context `{RowOrder}.

Fixpoint pg_pulses_run (t : PostgresPulseDB) (ops : list pulse_op) : PostgresPulseDB * list (option error) :=
  match ops with
  | [] => (t, [])
  | AppendPulse p :: ops' =>
      let r := pg_Append t p in let '(t, es) := pg_pulses_run r.1 ops' in (t, r.2 :: es)
  | TruncatePulses from :: ops' =>
      let '(t, es) := pg_pulses_run (pg_TruncateHead t from) ops' in (t, None :: es)
  end.
Fixpoint badger_pulses_run (db : BadgerDB) (ops : list pulse_op) : go BadgerDB :=
  match ops with
  | [] => Ret db
  | AppendPulse p :: ops' => r ← DB_Append db p; badger_pulses_run r.1 ops'
  | TruncatePulses from :: ops' => badger_pulses_run (DB_TruncateHead db from) ops'
  end.

Lemma pg_run_law t l mark ops :
  pg_pulses t l mark -> Forall pulse_op_ok ops ->
  let r := pulses_log l mark ops in
  (pg_pulses_run t ops).2 = r.2 /\ exists mark', pg_pulses (pg_pulses_run t ops).1 r.1 mark'.
Proof.
  intros Ht Hok. revert t l mark Ht. induction Hok as [|o ops Ho Hok IH]; intros t l mark Ht; [split; [done|by exists mark]|].
  destruct o as [p|from]; cbn [pulses_log pg_pulses_run].
  - pose proof (pg_Append_law t l mark p Ht Ho) as Ha. destruct (marked_Append l mark p) as [[l' mark'] e].
    destruct Ha as [<- Ha]. specialize (IH _ _ _ Ha). cbn zeta in IH.
    destruct (pg_pulses_run _ ops) as [t' es], (pulses_log l' mark' ops) as [l'' es']. cbn in *. destruct IH as [-> IH]. done.
  - specialize (IH _ _ _ (pg_TruncateHead_law t l mark from Ht)). cbn zeta in IH.
    destruct (pg_pulses_run _ ops) as [t' es], (pulses_log _ mark ops) as [l'' es']. cbn in *. destruct IH as [-> IH]. done.
Qed.

(** The key-value storage accepts what the relational one accepts. *)
Lemma badger_run_law db l mark ops :
  db_holds db l -> (forall p, p ∈ l -> match mark with Some n => num p <= n | None => False end) ->
  Forall pulse_op_ok ops -> Forall (fun e => e = None) (pulses_log l mark ops).2 ->
  exists db', badger_pulses_run db ops = Ret db' /\ db_holds db' (pulses_log l mark ops).1.
Proof.
  intros Hdb Hb Hok. revert db l mark Hdb Hb. induction Hok as [|o ops Ho Hok IH]; intros db l mark Hdb Hb He; [by exists db|].
  destruct o as [p|from]; cbn [pulses_log badger_pulses_run] in *.
  - unfold marked_Append in *. destruct (match mark with Some n => num p <=? n | None => false end) eqn:Ele.
    { destruct (pulses_log l mark ops). cbn in He. by apply list.Forall_cons in He as [? _]. }
    destruct (decide (signs_match p)).
    2: { destruct (pulses_log l mark ops). cbn in He. by apply list.Forall_cons in He as [? _]. }
    assert (Ea : list_Append l p = (l ++ [p], None)).
    { unfold list_Append. destruct (last l) as [q|] eqn:El; [|by apply last_None in El as ->].
      specialize (Hb q (last_Some_elem_of _ _ El)). destruct mark as [n|]; [|done]. apply Z.leb_gt in Ele.
      by rewrite (proj2 (Z.leb_gt _ _)) by lia. }
    destruct (@Append_law _ _ BadgerDB_lawful db l p Hdb (pw_range _ Ho)) as (db1 & E & Hdb1). rewrite Ea in E, Hdb1. cbn [fst snd] in E, Hdb1.
    change (DB_Append db p = Ret (db1, None)) in E. rewrite E. cbn [mbind go_bind fst].
    destruct (IH db1 (l ++ [p]) (Some (num p))) as (db' & E' & Hdb').
    + exact Hdb1.
    + intros q [Hq|Hq]%elem_of_app; [|by apply list_elem_of_singleton in Hq as ->].
      specialize (Hb q Hq). destruct mark as [n|]; [|done]. apply Z.leb_gt in Ele. lia.
    + destruct (pulses_log _ _ ops). by apply list.Forall_cons in He as [_ ?].
    + exists db'. split; [done|]. by destruct (pulses_log _ _ ops).
  - destruct (IH (DB_TruncateHead db from) (filter (fun p => num p < from) l) mark) as (db' & E' & Hdb').
    + by apply DB_TruncateHead_holds.
    + intros q [_ Hq]%list_elem_of_filter. by apply Hb.
    + destruct (pulses_log _ _ ops). by apply list.Forall_cons in He as [_ ?].
    + exists db'. split; [done|]. by destruct (pulses_log _ _ ops).
Qed.

(** C13: Any appends and truncations the relational storage accepts, starting from
    nothing, are accepted by the key-value storage; both then know the same
    pulses, with their signatures, and step alike from each of them. *)
Theorem pulse_storages_agree ops t es :
  Forall pulse_op_ok ops -> pg_pulses_run (mkPgPulses ∅ ∅ None) ops = (t, es) -> Forall (fun e => e = None) es ->
  exists db, badger_pulses_run ∅ ops = Ret db /\
    forall pn, ForPulseNumber t pn = ForPulseNumber db pn /\
      (is_Some (table_pulses t !! pn) -> Latest t = Latest db /\
        forall k : nat, Forwards t pn (Z.of_nat k) = Forwards db pn (Z.of_nat k) /\
                        Backwards t pn (Z.of_nat k) = Backwards db pn (Z.of_nat k)).
Proof.
  intros Hok E He. destruct (pg_run_law (mkPgPulses ∅ ∅ None) [] None ops pg_pulses_nil Hok) as (Ees & mark & Ht).
  rewrite E in Ees, Ht. cbn [fst snd] in Ees, Ht. set (l := (pulses_log [] None ops).1) in *.
  destruct (badger_run_law ∅ [] None ops db_holds_nil) as (db & Edb & Hdb); [by intros ? ?%elem_of_nil|done|by rewrite <- Ees|].
  exists db. split; [done|]. change (db_holds db l) in Hdb. intros pn.
  rewrite (@ForPulseNumber_law _ _ BadgerDB_lawful db l pn Hdb). cbn [ForPulseNumber PostgresPulses]. rewrite (pg_ForPulseNumber_law t l mark Ht). split; [done|].
  intros [row Hrow]. apply (pp_only _ _ _ Ht), list_elem_of_fmap in Hrow as (p & -> & [i Hi]%list_elem_of_lookup).
  rewrite (@Latest_law _ _ BadgerDB_lawful db l Hdb). cbn [Latest PostgresPulses]. rewrite (pg_Latest_law t l mark Ht). split.
  - unfold list_Latest. destruct (last l) as [q|] eqn:El; [done|]. by apply last_None in El; rewrite El in Hi.
  - intros k. rewrite (@Forwards_law _ _ BadgerDB_lawful db l i p k Hdb Hi), (@Backwards_law _ _ BadgerDB_lawful db l i p k Hdb Hi).
    cbn [Forwards Backwards PostgresPulses]. by rewrite (pg_Forwards_law t l mark Ht i p k Hi), (pg_Backwards_law t l mark Ht i p k Hi).
Qed.
End Both.

(** ** Samples *)
Section Samples.
#[local] Existing Instance stored_order.
Definition signedPulse (n : Z) : Pulse :=
  mkPulse n 0 0 0 0 (replicate OriginIDSize 0) (replicate EntropySize 0)
    {["key" := mkConfirmation n "key" (replicate EntropySize 0) [1]]}.

Lemma signedPulse_wf n : 0 <= n < 2^32 -> pulse_wf (signedPulse n).
Proof. intros Hn. split; [done|done|done|]. cbn [Signs signedPulse]. by intros k c [_ <-]%lookup_singleton_Some. Qed.

Definition samplePulseOps : list pulse_op :=
  [AppendPulse (signedPulse 65537); AppendPulse (signedPulse 65547); TruncatePulses 65540; AppendPulse (signedPulse 65557)].

Lemma pulse_storages_agree_witness :
  let t := (pg_pulses_run (mkPgPulses ∅ ∅ None) samplePulseOps).1 in
  exists db, badger_pulses_run ∅ samplePulseOps = Ret db /\
    Forwards t 65537 1 = Forwards db 65537 1 /\ pg_Forwards t 65537 1 = Good (signedPulse 65557).
Proof.
  destruct (pulse_storages_agree samplePulseOps (pg_pulses_run (mkPgPulses ∅ ∅ None) samplePulseOps).1 [None; None; None; None]) as (db & E & Hr).
  - repeat apply list.Forall_cons_2; try (apply signedPulse_wf; lia); [exact Logic.I|apply list.Forall_nil_2].
  - vm_compute. reflexivity.
  - repeat constructor.
  - exists db. split; [exact E|]. destruct (Hr 65537) as [_ Hs]. destruct Hs as [_ Hs]; [vm_compute; by eexists|].
    split; [exact (proj1 (Hs 1%nat))|]. vm_compute. reflexivity.
Defined.

(** After a truncation the relational storage still refuses what is not after
    the last pulse it ever stored; the key-value storage takes it. *)
Lemma postgres_remembers_truncated :
  (pg_pulses_run (mkPgPulses ∅ ∅ None) [AppendPulse (signedPulse 65547); TruncatePulses 65540; AppendPulse (signedPulse 65545)]).2 =
    [None; None; Some ErrBadPulse] /\
  exists db, badger_pulses_run ∅ [AppendPulse (signedPulse 65547); TruncatePulses 65540; AppendPulse (signedPulse 65545)] = Ret db /\
    is_Some (db !! 65545).
Proof. split; [by vm_compute|]. eexists. split; [by vm_compute|]. by eexists. Qed.
End Samples.
