(* ===== verification/KeeperStorage.v ===== *)
(** * The databases of the jet keeper
    (src/ledger/heavy/executor: badger_jetkeeper.go and postgres_jetkeeper.go)

    JetKeeper.v keeps the infos of jets decoded.  Here they are the bytes the
    two keepers store, under the keys of the key-value store or in rows, and
    either keeper answers every call as the one of JetKeeper.v does. *)
From S2P Require Import Prelude Pulse Reference Jet JetKeeper Store Tables RecordStorage BadgerRecords.

(** What the keepers differ in. *)
Class KeeperDB (St : Type) : Type := {
  kdb_topSyncPulse : St -> go Z;
  kdb_get : St -> Z -> result (list JetInfo);
  kdb_set : St -> Z -> list JetInfo -> St * option error;
  kdb_updateSyncPulse : St -> Z -> St * option error;
  kdb_truncate : St -> Z -> St;
}.

(** ** The calls, the same in both files *)
Section Calls.
Context `{KeeperDB St}.

Definition kdb_all (jk : St) (pulse : Z) : list JetInfo :=
  match kdb_get jk pulse with Good jets => jets | Fail _ => [] end.

(** [err != nil && err != store.ErrNotFound] after [get]. *)
Definition kdb_find (jk : St) (pulse : Z) (msg : string) : result (list JetInfo) :=
  match kdb_get jk pulse with
  | Good jets => Good jets
  | Fail e => if decide (e = store_ErrNotFound) then Good [] else Fail (Wrap e msg)
  end.

Definition kdb_getForJet (jk : St) (pulse : Z) (jet : Local) : result (nat * list JetInfo) :=
  jets ← kdb_find jk pulse "updateHot. can't get pulse: %d";
  match list_find (fun j => Local_Equal (JetID j) jet = true) jets with
  | Some (i, _) => Good (i, jets)
  | None => Good (length jets, jets ++ [newInfo])
  end.

Definition kdb_updateHot (jk : St) (pulse : Z) (id : Local) (split : bool) : go (St * option error) :=
  parentID ← (if split then Parent id else Ret id);
  Ret (match kdb_getForJet jk pulse parentID with
       | Fail e => (jk, Some (Wrap e "Can't getForJet"))
       | Good (idx, jets) =>
           match addHot (nth idx jets newInfo) id parentID split with
           | (_, Some e) => (jk, Some (Wrap e "can't addHot"))
           | (j, None) => kdb_set jk pulse (<[idx := j]> jets)
           end
       end).

Definition kdb_updateDrop (jk : St) (pulse : Z) (id : Local) (split : bool) : St * option error :=
  match kdb_getForJet jk pulse id with
  | Fail e => (jk, Some (Wrap e "Can't getForJet"))
  | Good (idx, jets) =>
      match addDrop (nth idx jets newInfo) id split with
      | (_, Some e) => (jk, Some (Wrap e "can't addHot"))
      | (j, None) => kdb_set jk pulse (<[idx := j]> jets)
      end
  end.

Definition kdb_updateBackup (jk : St) (pulse : Z) : St * option error :=
  match kdb_find jk pulse "updateBackup. can't get pulse: %d" with
  | Fail e => (jk, Some e)
  | Good jets =>
      if (length jets =? 0)%nat
      then (jk, Some (Errorf "Received backup confirmation before replication data"))
      else kdb_set jk pulse (addBackup <$> jets)
  end.

Definition kdb_getTopSyncJets (jk : St) : go (result (list Local)) :=
  top ← kdb_topSyncPulse jk;
  if top =? MinTimePulse then Ret (Good [ZeroJetID])
  else
    match kdb_get jk top with
    | Fail e => Ret (Fail (Wrap e "can't getTopSyncJets"))
    | Good jets => syncJets_loop [] jets
    end.

Context (Backwards : Z -> result Z) (All : Z -> list Local).

Definition kdb_checkPulseConsistency (jk : St) (pulse : Z) (checkBackup : bool) : go bool :=
  match Backwards pulse with
  | Fail _ => Ret false
  | Good prev =>
      top ← kdb_topSyncPulse jk;
      if negb (prev =? top) then Ret false
      else
        r ← kdb_getTopSyncJets jk;
        match r with
        | Fail _ => Panic "can't get jets for top sync pulse"
        | Good topSyncJets =>
            r ← infoToSet (kdb_all jk pulse) checkBackup;
            let '(actualJetsSet, allConfirmed) := r in
            if negb allConfirmed then Ret false
            else
              match compareJets topSyncJets actualJetsSet with
              | Fail _ | Good false => Ret false
              | Good true =>
                  match compareJets (All pulse) actualJetsSet with
                  | Fail _ | Good false => Ret false
                  | Good true => Ret true
                  end
              end
        end
  end.

Definition kdb_updateTopSyncPulse (jk : St) (pn : Z) : go (St * option error) :=
  c ← kdb_checkPulseConsistency jk pn true;
  Ret (if c : bool then
         let r := kdb_updateSyncPulse jk pn in
         (r.1, option_map (fun e => Wrap e "failed to update consistent pulse") r.2)
       else (jk, None)).

Definition kdb_AddHotConfirmation (jk : St) (pn : Z) (id : Local) (split : bool) : go (St * option error) :=
  r ← kdb_updateHot jk pn id split;
  Ret (r.1, option_map (fun e => Wrap e "failed to save updated jets") r.2).

Definition kdb_AddDropConfirmation (jk : St) (pn : Z) (id : Local) (split : bool) : go (St * option error) :=
  let r := kdb_updateDrop jk pn id split in
  Ret (r.1, option_map (fun e => Wrap e "AddDropConfirmation. failed to save updated jets") r.2).

Definition kdb_AddBackupConfirmation (jk : St) (pn : Z) : go (St * option error) :=
  match kdb_updateBackup jk pn with
  | (jk, Some e) => Ret (jk, Some (Wrap e "AddDropConfirmation. failed to save updated jets"))
  | (jk, None) =>
      r ← kdb_updateTopSyncPulse jk pn;
      Ret (r.1, option_map (fun e => Wrap e "updateTopSyncPulse returns error") r.2)
  end.

Definition kdb_HasAllJetConfirms (jk : St) (pulse : Z) : go bool :=
  top ← kdb_topSyncPulse jk;
  if pulse <=? top then Ret true else kdb_checkPulseConsistency jk pulse false.

Definition kdb_TruncateHead (jk : St) (from : Z) : go (St * option error) :=
  top ← kdb_topSyncPulse jk;
  Ret (if from <=? top then (jk, Some (Errorf "try to truncate top sync pulse"))
       else (kdb_truncate jk from, None)).
End Calls.

(** ** badger_jetkeeper.go *)
Definition ScopeJetKeeper : Z := 8.
Definition ScopeJetKeeperSyncPulse : Z := 9.

Record jetKeeperKey : Type := mkKeeperKey { jk_pn : Z }.
#[export] Instance jetKeeperKey_eq_dec : EqDecision jetKeeperKey.
Proof. solve_decision. Defined.
#[export] Instance jetKeeperKey_countable : Countable jetKeeperKey.
Proof. refine (inj_countable' jk_pn mkKeeperKey _). by intros []. Defined.
#[export] Instance jetKeeperKey_key : Key jetKeeperKey := { Scope _ := ScopeJetKeeper; ID k := be32 (jk_pn k) }.
#[export, refine] Instance jetKeeperKey_table : TableKey jetKeeperKey := {
  scope_of := ScopeJetKeeper;
  key_ok k := 0 <= jk_pn k < 2^32;
}.
Proof. - done. - intros [pn] [pn'] Hp Hp' E. f_equal. by apply be32_inj. Defined.
Definition newJetKeeperKey (raw : bytes) : jetKeeperKey := mkKeeperKey (NewPulseNumber raw).

Record syncPulseKey : Type := mkSyncKey {}.
#[export] Instance syncPulseKey_key : Key syncPulseKey := { Scope _ := ScopeJetKeeperSyncPulse; ID _ := [] }.

(** [insolar.NewPulseNumber]: fewer than four bytes panic. *)
Definition read_number (val : bytes) : go Z :=
  if (length val <? 4)%nat then Panic "index out of range" else Ret (NewPulseNumber val).

Section Databases.
Context `{Codec (list JetInfo)}.

Definition badger_keeper_top (db : DB) : go Z :=
  match store_Get db mkSyncKey with
  | Fail _ => Ret GenesisPulseNumber
  | Good val => read_number val
  end.
Definition badger_keeper_get (db : DB) (pn : Z) : result (list JetInfo) :=
  match store_Get db (mkKeeperKey pn) with
  | Fail e => if decide (e = store_ErrNotFound) then Fail e else Fail (Wrap e "failed to get jets by pulse=%v")
  | Good serializedJets => wrap_err (Unmarshal serializedJets) "failed to deserialize jets"
  end.
Definition badger_keeper_set (db : DB) (pn : Z) (jets : list JetInfo) : DB * option error :=
  match Marshal jets with
  | Fail e => (db, Some (Wrap e "failed to serialize jets"))
  | Good serialized => (store_Set db (mkKeeperKey pn) serialized, None)
  end.
Definition badger_keeper_sync (db : DB) (pn : Z) : DB * option error :=
  (store_Set db mkSyncKey (Number_Bytes pn), None).
Definition badger_keeper_truncate (db : DB) (from : Z) : DB :=
  delete_visited db (mkKeeperKey from) (fun _ => true) newJetKeeperKey.

#[export] Instance BadgerKeeperDB : KeeperDB DB := {
  kdb_topSyncPulse := badger_keeper_top;
  kdb_get := badger_keeper_get;
  kdb_set := badger_keeper_set;
  kdb_updateSyncPulse := badger_keeper_sync;
  kdb_truncate := badger_keeper_truncate;
}.

(** ** postgres_jetkeeper.go *)
Record PostgresKeeperDB : Type := mkPgKeeper {
  table_jets_info : gmap Z bytes;
  top_sync_pulse : option bytes;
}.
Definition pg_keeper_top (t : PostgresKeeperDB) : go Z :=
  match top_sync_pulse t with None => Ret GenesisPulseNumber | Some val => read_number val end.
Definition pg_keeper_get (t : PostgresKeeperDB) (pn : Z) : result (list JetInfo) :=
  match table_jets_info t !! pn with
  | None => Fail store_ErrNotFound
  | Some serializedJets => wrap_err (Unmarshal serializedJets) "failed to deserialize jets"
  end.
Definition pg_keeper_set (t : PostgresKeeperDB) (pn : Z) (jets : list JetInfo) : PostgresKeeperDB * option error :=
  match Marshal jets with
  | Fail e => (t, Some (Wrap e "Unable to serialize jetsInfo"))
  | Good serialized => (mkPgKeeper (<[pn := serialized]> (table_jets_info t)) (top_sync_pulse t), None)
  end.
Definition pg_keeper_sync (t : PostgresKeeperDB) (pn : Z) : PostgresKeeperDB * option error :=
  (mkPgKeeper (table_jets_info t) (Some (Number_Bytes pn)), None).
Definition pg_keeper_truncate (t : PostgresKeeperDB) (from : Z) : PostgresKeeperDB :=
  mkPgKeeper (keep_rows (fun pn => pn < from) (table_jets_info t)) (top_sync_pulse t).

#[export] Instance PostgresKeeper : KeeperDB PostgresKeeperDB := {
  kdb_topSyncPulse := pg_keeper_top;
  kdb_get := pg_keeper_get;
  kdb_set := pg_keeper_set;
  kdb_updateSyncPulse := pg_keeper_sync;
  kdb_truncate := pg_keeper_truncate;
}.
End Databases.

(** ** What both keep: the infos of JetKeeper.v *)
Definition pulse_range (pn : Z) : Prop := 0 <= pn < 2^32.

Class LawfulKeeper (St : Type) `{KeeperDB St} : Type := {
  keeps : St -> keeper -> Prop;
  keeps_range s k : keeps s k -> pulse_range (topSyncPulse k);
  kdb_topSyncPulse_law s k : keeps s k -> kdb_topSyncPulse s = Ret (topSyncPulse k);
  kdb_get_law s k pn : keeps s k -> pulse_range pn -> kdb_get s pn = get k pn;
  kdb_set_law s k pn jets : keeps s k -> pulse_range pn ->
    exists s', kdb_set s pn jets = (s', None) /\ keeps s' (set k pn jets);
  kdb_updateSyncPulse_law s k pn : keeps s k -> pulse_range pn ->
    exists s', kdb_updateSyncPulse s pn = (s', None) /\ keeps s' (updateSyncPulse k pn);
  kdb_truncate_law s k from : keeps s k -> pulse_range from ->
    keeps (kdb_truncate s from) (mkKeeper (filter (fun kv => kv.1 < from) (db_jets k)) (db_sync k));
}.

(** The same answer, and states that correspond. *)
Definition same_answer {A B} (R : A -> B -> Prop) (x : go (A * option error)) (y : go (B * option error)) : Prop :=
  match x, y with
  | Ret (a, e), Ret (b, e') => e = e' /\ R a b
  | Panic m, Panic m' => m = m'
  | _, _ => False
  end.

Section Refinement.
Context `{LawfulKeeper St}.
Implicit Types (s : St) (k : keeper).

Lemma kdb_all_law s k pn : keeps s k -> pulse_range pn -> kdb_all s pn = all k pn.
Proof. intros Hk Hp. unfold kdb_all, all. rewrite (kdb_get_law s k pn Hk Hp). unfold get. by destruct (_ !! pn). Qed.

Lemma kdb_find_law s k pn msg : keeps s k -> pulse_range pn -> kdb_find s pn msg = Good (all k pn).
Proof.
  intros Hk Hp. unfold kdb_find, all. rewrite (kdb_get_law s k pn Hk Hp). unfold get. destruct (_ !! pn); [done|].
  by rewrite decide_True.
Qed.

Lemma kdb_getForJet_law s k pn jet : keeps s k -> pulse_range pn -> kdb_getForJet s pn jet = Good (getForJet k pn jet).
Proof.
  intros Hk Hp. unfold kdb_getForJet, getForJet. rewrite (kdb_find_law s k pn _ Hk Hp). cbn.
  by destruct (list_find _ _) as [[]|].
Qed.

Lemma kdb_set_answer s k pn jets :
  keeps s k -> pulse_range pn -> (kdb_set s pn jets).2 = None /\ keeps (kdb_set s pn jets).1 (set k pn jets).
Proof. intros Hk Hp. by destruct (kdb_set_law s k pn jets Hk Hp) as (s' & -> & ?). Qed.

Lemma AddHotConfirmation_law s k pn id split :
  keeps s k -> pulse_range pn ->
  same_answer keeps (kdb_AddHotConfirmation s pn id split) (AddHotConfirmation k pn id split).
Proof.
  intros Hk Hp. unfold kdb_AddHotConfirmation, AddHotConfirmation, kdb_updateHot, updateHot.
  destruct (if split then Parent id else Ret id) as [parentID|]; cbn [mbind go_bind]; [|done].
  rewrite (kdb_getForJet_law s k pn parentID Hk Hp). destruct (getForJet k pn parentID) as [idx jets].
  destruct (addHot _ _ _ _) as [j [e|]]; [done|]. destruct (kdb_set_answer s k pn (<[idx := j]> jets) Hk Hp) as [-> Hs]. done.
Qed.

Lemma AddDropConfirmation_law s k pn id split :
  keeps s k -> pulse_range pn ->
  same_answer keeps (kdb_AddDropConfirmation s pn id split) (AddDropConfirmation k pn id split).
Proof.
  intros Hk Hp. unfold kdb_AddDropConfirmation, AddDropConfirmation, kdb_updateDrop, updateDrop.
  rewrite (kdb_getForJet_law s k pn id Hk Hp). destruct (getForJet k pn id) as [idx jets].
  destruct (addDrop _ _ _) as [j [e|]]; [done|]. destruct (kdb_set_answer s k pn (<[idx := j]> jets) Hk Hp) as [-> Hs]. done.
Qed.

Lemma kdb_getTopSyncJets_law s k : keeps s k -> kdb_getTopSyncJets s = getTopSyncJets k.
Proof.
  intros Hk. unfold kdb_getTopSyncJets, getTopSyncJets. rewrite (kdb_topSyncPulse_law s k Hk). cbn [mbind go_bind].
  by rewrite (kdb_get_law s k _ Hk (keeps_range s k Hk)).
Qed.

Lemma kdb_checkPulseConsistency_law Backwards All s k pn checkBackup :
  keeps s k -> pulse_range pn ->
  kdb_checkPulseConsistency Backwards All s pn checkBackup = checkPulseConsistency Backwards All k pn checkBackup.
Proof.
  intros Hk Hp. unfold kdb_checkPulseConsistency, checkPulseConsistency. destruct (Backwards pn); [|done].
  rewrite (kdb_topSyncPulse_law s k Hk), (kdb_getTopSyncJets_law s k Hk), (kdb_all_law s k pn Hk Hp). done.
Qed.

Lemma HasAllJetConfirms_law Backwards All s k pn :
  keeps s k -> pulse_range pn -> kdb_HasAllJetConfirms Backwards All s pn = HasAllJetConfirms Backwards All k pn.
Proof.
  intros Hk Hp. unfold kdb_HasAllJetConfirms, HasAllJetConfirms. rewrite (kdb_topSyncPulse_law s k Hk). cbn [mbind go_bind].
  by rewrite kdb_checkPulseConsistency_law with (k := k).
Qed.

Lemma AddBackupConfirmation_law Backwards All s k pn :
  keeps s k -> pulse_range pn ->
  same_answer keeps (kdb_AddBackupConfirmation Backwards All s pn) (AddBackupConfirmation Backwards All k pn).
Proof.
  intros Hk Hp. unfold kdb_AddBackupConfirmation, AddBackupConfirmation, kdb_updateBackup, updateBackup.
  rewrite (kdb_find_law s k pn _ Hk Hp). destruct (length (all k pn) =? 0)%nat; [done|].
  destruct (kdb_set_law s k pn (addBackup <$> all k pn) Hk Hp) as (s' & -> & Hs).
  unfold kdb_updateTopSyncPulse, updateTopSyncPulse. rewrite (kdb_checkPulseConsistency_law _ _ _ _ pn true Hs Hp).
  destruct (checkPulseConsistency _ _ _ _ _) as [[]|]; cbn [mbind go_bind]; [|done..].
  destruct (kdb_updateSyncPulse_law s' _ pn Hs Hp) as (s'' & -> & Hs'). done.
Qed.

Lemma TruncateHead_law s k from :
  keeps s k -> pulse_range from -> same_answer keeps (kdb_TruncateHead s from) (Ret (TruncateHead k from)).
Proof.
  intros Hk Hp. unfold kdb_TruncateHead, TruncateHead. rewrite (kdb_topSyncPulse_law s k Hk). cbn [mbind go_bind].
  destruct (from <=? topSyncPulse k); [done|]. split; [done|]. by apply kdb_truncate_law.
Qed.
End Refinement.

(** ** Both databases keep the infos *)
Lemma NewPulseNumber_Bytes pn : pulse_range pn -> NewPulseNumber (Number_Bytes pn) = pn.
Proof. intros Hp. unfold NewPulseNumber, Number_Bytes. rewrite <- (app_nil_r (be32 pn)). by apply of_be32_be32. Qed.
Lemma read_number_Bytes pn : pulse_range pn -> read_number (Number_Bytes pn) = Ret pn.
Proof. intros Hp. unfold read_number. cbn [length Nat.ltb Nat.leb]. by rewrite NewPulseNumber_Bytes. Qed.

Definition sync_in_range (k : keeper) : Prop := pulse_range (topSyncPulse k).

Section Instances.
Context `{TotalCodec (list JetInfo)}.

Record badger_infos (db : DB) (k : keeper) : Prop := {
  bk_jets : has_pulses mkKeeperKey db (db_jets k);
  bk_sync : db !! fullKey mkSyncKey = Number_Bytes <$> db_sync k;
  bk_range : sync_in_range k;
}.

Lemma badger_infos_nil : badger_infos ∅ (mkKeeper ∅ None).
Proof. split; [apply has_pulses_empty|done|done]. Qed.

#[export, refine] Instance BadgerKeeper_lawful : LawfulKeeper DB := { keeps := badger_infos }.
Proof.
  - by intros db k [].
  - intros db k [_ Hs Hr]. cbn. unfold badger_keeper_top, store_Get. rewrite Hs. unfold sync_in_range, topSyncPulse in *.
    destruct (db_sync k) as [pn|]; [by apply read_number_Bytes|done].
  - intros db k pn [Hj _ _] Hp. cbn. unfold badger_keeper_get, get.
    pose proof (has_pulses_Get mkKeeperKey jk_pn ltac:(done) ltac:(done) db _ pn Hj Hp) as Hg.
    destruct (db_jets k !! pn) as [js|].
    + destruct Hg as (v & Ev & ->). by rewrite (Unmarshal_Marshal js v Ev).
    + rewrite Hg. by rewrite decide_True.
  - intros db k pn jets [Hj Hs Hr] Hp. cbn. unfold badger_keeper_set.
    destruct (Marshal_total jets) as [v Ev]. rewrite Ev. eexists. split; [done|]. split; [| |done].
    + by apply (has_pulses_Set mkKeeperKey jk_pn).
    + unfold store_Set. by rewrite lookup_insert_ne.
  - intros db k pn [Hj Hs Hr] Hp. eexists. split; [done|]. split; [| |done].
    + apply (has_table_frame db); [|done]. intros raw. unfold store_Set. by rewrite lookup_insert_ne.
    + cbn. unfold store_Set. by rewrite lookup_insert_eq.
  - intros db k from [Hj Hs Hr] Hf. split; [| |done].
    + unfold kdb_truncate. cbn [BadgerKeeperDB db_jets]. unfold badger_keeper_truncate, newJetKeeperKey.
      apply (has_pulses_truncate mkKeeperKey jk_pn); [by intros []|done..].
    + unfold kdb_truncate. cbn [BadgerKeeperDB db_sync]. unfold badger_keeper_truncate.
      rewrite delete_visited_lookup; [by rewrite decide_False by (by intros [])|].
      intros raw v Hraw _ _. destruct (ht_only _ _ Hj raw v Hraw) as (q & a & Em & ->).
      destruct (ht_in _ _ Hj q a Em) as [Hq _]. destruct q as [q]. cbn in Hq |- *. unfold fullKey. cbn -[be32 NewPulseNumber].
      do 2 f_equal. by apply NewPulseNumber_Bytes.
Defined.

Record pg_infos (t : PostgresKeeperDB) (k : keeper) : Prop := {
  pk_jets pn : match db_jets k !! pn with
               | Some js => exists v, Marshal js = Good v /\ table_jets_info t !! pn = Some v
               | None => table_jets_info t !! pn = None
               end;
  pk_sync : top_sync_pulse t = Number_Bytes <$> db_sync k;
  pk_range : sync_in_range k;
}.

Lemma pg_infos_nil : pg_infos (mkPgKeeper ∅ None) (mkKeeper ∅ None).
Proof. split; [intros pn; cbn [db_jets table_jets_info]; by rewrite !lookup_empty|done|done]. Qed.

#[export, refine] Instance PostgresKeeper_lawful : LawfulKeeper PostgresKeeperDB := { keeps := pg_infos }.
Proof.
  - by intros t k [].
  - intros t k [_ Hs Hr]. cbn. unfold pg_keeper_top. rewrite Hs. unfold sync_in_range, topSyncPulse in *.
    destruct (db_sync k) as [pn|]; [by apply read_number_Bytes|done].
  - intros t k pn [Hj _ _] Hp. cbn. unfold pg_keeper_get, get. specialize (Hj pn).
    destruct (db_jets k !! pn) as [js|]; [|by rewrite Hj]. destruct Hj as (v & Ev & ->).
    by rewrite (Unmarshal_Marshal js v Ev).
  - intros t k pn jets [Hj Hs Hr] Hp. cbn. unfold pg_keeper_set.
    destruct (Marshal_total jets) as [v Ev]. rewrite Ev. eexists. split; [done|]. split; [|done|done].
    intros q. cbn. rewrite !lookup_insert. destruct (decide _); [by exists v|apply Hj].
  - intros t k pn [Hj Hs Hr] Hp. eexists. split; [done|]. by split.
  - intros t k from [Hj Hs Hr] Hf. cbn. split; [|done|done]. intros pn. cbn. rewrite map_lookup_filter, lookup_keep_rows.
    specialize (Hj pn). destruct (db_jets k !! pn) as [js|]; cbn.
    + destruct Hj as (v & Ev & ->). destruct (decide (pn < from)).
      * rewrite option_guard_True by done. by exists v.
      * by rewrite option_guard_False.
    + rewrite Hj. by destruct (decide _).
Defined.
End Instances.

(** ** Histories *)
Inductive keeper_call : Type :=
  | CallHot (pn : Z) (id : Local) (split : bool)
  | CallDrop (pn : Z) (id : Local) (split : bool)
  | CallBackup (Backwards : Z -> result Z) (All : Z -> list Local) (pn : Z)
  | CallTruncate (from : Z).
Definition call_pulse (c : keeper_call) : Z :=
  match c with CallHot pn _ _ | CallDrop pn _ _ | CallBackup _ _ pn | CallTruncate pn => pn end.

Definition model_call (k : keeper) (c : keeper_call) : go (keeper * option error) :=
  match c with
  | CallHot pn id split => AddHotConfirmation k pn id split
  | CallDrop pn id split => AddDropConfirmation k pn id split
  | CallBackup Backwards All pn => AddBackupConfirmation Backwards All k pn
  | CallTruncate from => Ret (TruncateHead k from)
  end.
Definition kdb_call `{KeeperDB St} (s : St) (c : keeper_call) : go (St * option error) :=
  match c with
  | CallHot pn id split => kdb_AddHotConfirmation s pn id split
  | CallDrop pn id split => kdb_AddDropConfirmation s pn id split
  | CallBackup Backwards All pn => kdb_AddBackupConfirmation Backwards All s pn
  | CallTruncate from => kdb_TruncateHead s from
  end.

(** A history of calls: the state and the errors answered, in order. *)
Fixpoint call_history {St} (call : St -> keeper_call -> go (St * option error)) (s : St) (calls : list keeper_call)
    : go (St * list (option error)) :=
  match calls with
  | [] => Ret (s, [])
  | c :: calls' =>
      r ← call s c;
      r' ← call_history call r.1 calls';
      Ret (r'.1, r.2 :: r'.2)
  end.

Lemma kdb_call_law `{LawfulKeeper St} (s : St) k c :
  keeps s k -> pulse_range (call_pulse c) -> same_answer keeps (kdb_call s c) (model_call k c).
Proof.
  intros Hk Hp. destruct c; cbn [call_pulse kdb_call model_call] in *.
  - by apply AddHotConfirmation_law.
  - by apply AddDropConfirmation_law.
  - by apply AddBackupConfirmation_law.
  - by apply TruncateHead_law.
Qed.

Lemma kdb_history_law `{LawfulKeeper St} (s : St) k calls :
  keeps s k -> Forall (fun c => pulse_range (call_pulse c)) calls ->
  match call_history kdb_call s calls, call_history model_call k calls with
  | Ret (s', log), Ret (k', log') => log = log' /\ keeps s' k'
  | Panic m, Panic m' => m = m'
  | _, _ => False
  end.
Proof.
  intros Hk Hall. revert s k Hk. induction Hall as [|c calls Hc _ IH]; intros s k Hk; [done|].
  cbn [call_history]. pose proof (kdb_call_law s k c Hk Hc) as Hl. unfold same_answer in Hl.
  destruct (kdb_call s c) as [[s' e]|], (model_call k c) as [[k' e']|]; cbn [mbind go_bind fst snd]; try done.
  destruct Hl as [-> Hk']. specialize (IH s' k' Hk').
  destruct (call_history kdb_call s' calls) as [[s'' l]|], (call_history model_call k' calls) as [[k'' l']|];
    cbn [mbind go_bind fst snd]; try done.
  destruct IH as [-> Hk'']. done.
Qed.

(** C12: Whatever confirmations and truncations arrive, and whatever the jet trees
    and the pulses are at each of them, the keeper over the key-value store
    and the one over the relational database answer the same errors (or panic
    with the same message), have the same top sync pulse and agree on which
    pulses are complete: those of the keeper of decoded infos, to which the
    theorems on the top sync pulse apply. *)
Theorem jet_keepers_agree `{TotalCodec (list JetInfo)} calls :
  Forall (fun c => pulse_range (call_pulse c)) calls ->
  match call_history kdb_call (∅ : DB) calls, call_history kdb_call (mkPgKeeper ∅ None) calls,
        call_history model_call (mkKeeper ∅ None) calls with
  | Ret (db, log), Ret (t, log'), Ret (k, log'') =>
      log = log'' /\ log' = log'' /\
      kdb_topSyncPulse db = Ret (topSyncPulse k) /\ kdb_topSyncPulse t = Ret (topSyncPulse k) /\
      forall Backwards All pn, pulse_range pn ->
        kdb_HasAllJetConfirms Backwards All db pn = HasAllJetConfirms Backwards All k pn /\
        kdb_HasAllJetConfirms Backwards All t pn = HasAllJetConfirms Backwards All k pn
  | Panic m, Panic m', Panic m'' => m = m'' /\ m' = m''
  | _, _, _ => False
  end.
Proof.
  intros Hall.
  pose proof (kdb_history_law (∅ : DB) (mkKeeper ∅ None) calls badger_infos_nil Hall) as Hb.
  pose proof (kdb_history_law (mkPgKeeper ∅ None) (mkKeeper ∅ None) calls pg_infos_nil Hall) as Hp.
  destruct (call_history kdb_call (∅ : DB) calls) as [[db l]|],
    (call_history kdb_call (mkPgKeeper ∅ None) calls) as [[t l']|], (call_history model_call _ calls) as [[k l'']|]; try done.
  destruct Hb as [-> Hb], Hp as [-> Hp]. split_and!; [done|done|by apply kdb_topSyncPulse_law..|].
  intros Backwards All pn Hpn. by split; apply HasAllJetConfirms_law.
Qed.

(** The root jet is split in pulse 65547 (JetKeeper.v), confirmed twice, and
    the head is truncated. *)
Definition JetInfo_tuple (j : JetInfo) := (JetID j, HotConfirmed j, DropConfirmed j, BackupConfirmed j, Split j, IsSplitSet j).
#[local] Instance JetInfo_countable : Countable JetInfo.
Proof.
  refine (inj_countable' JetInfo_tuple (fun '(a, b, c, d, e, f) => mkInfo a b c d e f) _). by intros [].
Defined.
#[local] Existing Instance counted_codec.
#[local] Existing Instance counted_total.
Definition keeper_sample : list keeper_call :=
  [CallHot 65547 (jet_id [false]) true; CallDrop 65547 ZeroJetID true; CallDrop 65547 ZeroJetID true;
   CallHot 65547 (jet_id [true]) true; CallBackup prev_sample jets_sample 65547;
   CallTruncate 65547; CallTruncate 65557].

Lemma jet_keepers_agree_witness :
  Forall (fun c => pulse_range (call_pulse c)) keeper_sample /\
  match call_history kdb_call (∅ : DB) keeper_sample, call_history kdb_call (mkPgKeeper ∅ None) keeper_sample with
  | Ret (db, log), Ret (t, log') => log = log' /\ kdb_topSyncPulse db = Ret 65547 /\ kdb_topSyncPulse t = Ret 65547
  | _, _ => False
  end.
Proof.
  assert (Hall : Forall (fun c => pulse_range (call_pulse c)) keeper_sample).
  { unfold pulse_range. repeat constructor; done. }
  split; [done|]. pose proof (jet_keepers_agree keeper_sample Hall) as Ha.
  assert (E : match call_history model_call (mkKeeper ∅ None) keeper_sample with
              | Ret (k, _) => topSyncPulse k = 65547 | _ => False end) by (vm_compute; reflexivity).
  destruct (call_history kdb_call (∅ : DB) keeper_sample) as [[db l]|],
    (call_history kdb_call (mkPgKeeper ∅ None) keeper_sample) as [[t l']|],
    (call_history model_call _ keeper_sample) as [[k l'']|]; try done.
  destruct Ha as (-> & -> & -> & -> & _). by rewrite E.
Defined.
