(* ===== verification/HeavyReplicator.v ===== *)
(** * Replication and finalization on the heavy node
    (src/ledger/heavy/executor: heavyreplicator.go, finalize_pulse.go,
    finalization_keeper.go, backuper.go, db_rollback.go; the handler of hot
    confirmations and the pulse manager)

    The node as a machine.  Its storages are any that keep their contracts.
    One goroutine replicates messages, one at a time; handlers of hot
    confirmations and the pulse manager run beside it; all of them change the
    storages one call at a time, in any order.  The node may stop at any
    moment, a panic or a Fatal included: the storages stay, the goroutines
    are gone, and the rollback at start truncates one database after the
    other before anything else runs. *)
From S2P Require Import Prelude Pulse PulseStore Reference Jet JetKeeper HeavyNode JetSplitter HotData Records Store RecordStorage IndexStorage DropStorage JetStorage NodeHistory.

(** payload.Replication *)
Record Replication : Type := mkReplication {
  Repl_JetID : Local;
  Repl_Pulse : Z;
  Repl_Records : list Material;
  Repl_Indexes : list Index;
  Repl_Drop : Drop;
}.

Definition abandonedNotifyThreshold : Z := 2.
Definition ErrAlreadyDone : error := Errorf "backup already done for this pulse".
Definition ErrBackupDisabled : error := Errorf "backup disabled".

(** The implementations of BackupMaker; nil is none at all. *)
Inductive BackupMaker : Type :=
  | BackupMakerDefault (Enabled : bool)
  | PostgresBackupMaker
  | NilBackupMaker.

(** The key that marks the start of a backup. *)
Record BackupStartKey : Type := mkBackupKey { bk_pn : Z }.
#[export] Instance BackupStartKey_key : Key BackupStartKey := {
  Scope _ := ScopeBackupStart;
  ID k := be32 (bk_pn k) }.

(** Where a goroutine stands. *)
Inductive pc : Type :=
  (* HeavyReplicatorDefault.sync: work(msg) *)
  | Repl_records (msg : Replication)
  | Repl_calculate (msg : Replication)
  | Repl_indexes (msg : Replication) (todo : list Index)
  | Repl_drop (msg : Replication)
  | Repl_confirm (msg : Replication)
  | Repl_jets (msg : Replication)
  (* handleGotHotConfirmation *)
  | Hot_confirm (pn : Z) (jetID : Local) (split : bool)
  (* finalizePulseStep *)
  | Fin_confirms (pn : Z)
  | Fin_top (pn : Z)
  | Fin_next (pn top : Z)
  | Fin_backup (pn : Z)
  | Fin_lock (pn : Z)
  | Fin_update (pn : Z)
  | Fin_forward (pn : Z)
  (* PulseManager.Set *)
  | Set_nodes (p : Pulse) (nodes : list Node)
  | Set_append (p : Pulse)
  | Set_check (pn : Z).

Inductive followup : Type :=
  | Goto (t : pc)
  | Done
  | Die.

(** The databases the rollback truncates, in order; for the indexes it then
    updates the last known pulses. *)
Inductive database : Type :=
  | Truncate_drops | Truncate_records | Truncate_indexes | Update_indexes
  | Truncate_jets | Truncate_pulses | Truncate_keeper | Truncate_nodes | Truncate_backups.
Definition dbs : list database :=
  [Truncate_drops; Truncate_records; Truncate_indexes; Update_indexes;
   Truncate_jets; Truncate_pulses; Truncate_keeper; Truncate_nodes; Truncate_backups].
#[export] Instance database_eq_dec : EqDecision database.
Proof. solve_decision. Defined.

Section Heavy.
Context `{RecordStorage Rcs} `{IndexStorage Ixs} `{DropStorage Drs} `{JetStorage Jts}.
Context `{TruncatableStorage Pls} `{NodeHistory Nds} `{Scheme}.
(** The configuration: the backups and the limit of the finalization keeper. *)
Context (backuper : BackupMaker) (limit : Z).

Record storages : Type := mkStorages {
  h_records : Rcs;
  h_indexes : Ixs;
  h_drops : Drs;
  h_jets : Jts;
  h_pulses : Pls;
  h_keeper : keeper;
  h_nodes : Nds;
  h_backups : DB;
}.
Definition set_records (h : storages) (x : Rcs) : storages :=
  mkStorages x (h_indexes h) (h_drops h) (h_jets h) (h_pulses h) (h_keeper h) (h_nodes h) (h_backups h).
Definition set_indexes (h : storages) (x : Ixs) : storages :=
  mkStorages (h_records h) x (h_drops h) (h_jets h) (h_pulses h) (h_keeper h) (h_nodes h) (h_backups h).
Definition set_drops (h : storages) (x : Drs) : storages :=
  mkStorages (h_records h) (h_indexes h) x (h_jets h) (h_pulses h) (h_keeper h) (h_nodes h) (h_backups h).
Definition set_jets (h : storages) (x : Jts) : storages :=
  mkStorages (h_records h) (h_indexes h) (h_drops h) x (h_pulses h) (h_keeper h) (h_nodes h) (h_backups h).
Definition set_pulses (h : storages) (x : Pls) : storages :=
  mkStorages (h_records h) (h_indexes h) (h_drops h) (h_jets h) x (h_keeper h) (h_nodes h) (h_backups h).
Definition set_keeper (h : storages) (x : keeper) : storages :=
  mkStorages (h_records h) (h_indexes h) (h_drops h) (h_jets h) (h_pulses h) x (h_nodes h) (h_backups h).
Definition set_nodes (h : storages) (x : Nds) : storages :=
  mkStorages (h_records h) (h_indexes h) (h_drops h) (h_jets h) (h_pulses h) (h_keeper h) x (h_backups h).
Definition set_backups (h : storages) (x : DB) : storages :=
  mkStorages (h_records h) (h_indexes h) (h_drops h) (h_jets h) (h_pulses h) (h_keeper h) (h_nodes h) x.

(** What the keeper asks the jet storage; a panic there is one of the keeper. *)
Definition jet_leaves (h : storages) (pn : Z) : list Local :=
  match jets_All (h_jets h) pn with Ret ids => ids | Panic _ => [] end.

(** A call that changed a storage: on an error the goroutine panics, and the
    node dies. *)
Definition or_die {S : Type} (h : storages) (set : storages -> S -> storages) (last : Z) (t : followup)
    (r : S * option error) : storages * Z * followup :=
  (set h r.1, last, match r.2 with None => t | Some _ => Die end).

(** ** heavyreplicator.go *)

(** The check of [storeRecords]: every identifier is the hash of its record. *)
Fixpoint checkRecords (pn : Z) (records : list Material) : go bool :=
  match records with
  | [] => Ret true
  | rec :: records' =>
      hash ← HashVirtual (Material_Virtual rec);
      id ← NewID pn hash;
      if Local_Equal (Material_ID rec) id then checkRecords pn records' else Ret false
  end.

(** ** backuper.go *)
Definition prepareBackup (h : storages) (pulse : Z) : storages :=
  set_backups h (store_Set (h_backups h) (mkBackupKey pulse) []).

(** [MakeBackup]: the storages, the last pulse backed up and the error.  Where
    the command of the operator fails, [ok] is false. *)
Definition MakeBackup (ok : bool) (h : storages) (lastBackupedPulse lastFinalizedPulse : Z)
    : storages * Z * option error :=
  match backuper with
  | NilBackupMaker | PostgresBackupMaker => (h, lastBackupedPulse, None)
  | BackupMakerDefault Enabled =>
      if lastFinalizedPulse <=? lastBackupedPulse then (h, lastBackupedPulse, Some ErrAlreadyDone)
      else if negb Enabled then (h, lastFinalizedPulse, Some ErrBackupDisabled)
      else
        let h := prepareBackup h lastFinalizedPulse in
        if ok then (h, lastFinalizedPulse, None)
        else (h, lastBackupedPulse, Some (Wrap (Errorf "no backup confirmation for pulse") "failed to doBackup"))
  end.
Definition backup_TruncateHead (h : storages) (from : Z) : storages :=
  set_backups h (delete_visited (h_backups h) (mkBackupKey from) (fun _ => true)
                   (fun raw => mkBackupKey (BadgerRecords.NewPulseNumber raw))).

(** ** finalization_keeper.go *)
Definition FinalizationKeeper_OnPulse (h : storages) (current : Z) : go (option error) :=
  r ← Backwards (h_pulses h) current limit;
  match r with
  | Fail e => Ret (if decide (e = PulseStore.ErrNotFound) then None else Some (Wrap e "Can't get old pulse"))
  | Good bottomLevel =>
      let lastConfirmedPulse := topSyncPulse (h_keeper h) in
      if current <? lastConfirmedPulse then Ret (Some (Errorf "Current pulse is less than last confirmed"))
      else if lastConfirmedPulse <=? num bottomLevel then Panic "last finalized pulse falls behind too much"
      else Ret None
  end.

(** ** The calls of a goroutine *)
Abbreviation call := (go (storages * Z * followup)).

(** *** heavyreplicator.go: the calls of [work] *)
Definition storeRecords (h : storages) (last : Z) (msg : Replication) : call :=
  fits ← checkRecords (Repl_Pulse msg) (Repl_Records msg);
  if negb fits then Ret (h, last, Die)
  else
    r ← BatchSet (h_records h) (Repl_Records msg);
    Ret (or_die h set_records last (Goto (Repl_calculate msg)) r).
Definition abandonedNotifyPulse (h : storages) (last : Z) (msg : Replication) : call :=
  r ← Backwards (h_pulses h) (Repl_Pulse msg) abandonedNotifyThreshold;
  match r with
  | Fail e => if decide (e = PulseStore.ErrNotFound)
              then Ret (h, last, Goto (Repl_indexes msg (Repl_Indexes msg))) else Ret (h, last, Die)
  | Good _ => Ret (h, last, Goto (Repl_indexes msg (Repl_Indexes msg)))
  end.
(** One round of the loop. *)
Definition storeIndexes (h : storages) (last : Z) (msg : Replication) (todo : list Index) : call :=
  match todo with
  | [] => Ret (h, last, Goto (Repl_drop msg))
  | idx :: todo =>
      r ← SetIndex (h_indexes h) (Repl_Pulse msg) idx;
      Ret (or_die h set_indexes last (Goto (Repl_indexes msg todo)) r)
  end.
Definition storeDrop (h : storages) (last : Z) (msg : Replication) : call :=
  r ← drops_Set (h_drops h) (Repl_Drop msg);
  Ret (or_die h set_drops last (Goto (Repl_confirm msg)) r).
Definition confirmDrop (h : storages) (last : Z) (msg : Replication) : call :=
  r ← AddDropConfirmation (h_keeper h) (Drop_Pulse (Repl_Drop msg)) (Drop_JetID (Repl_Drop msg)) (Drop_Split (Repl_Drop msg));
  Ret (or_die h set_keeper last (Goto (Repl_jets msg)) r).
Definition updateJets (h : storages) (last : Z) (msg : Replication) : call :=
  r ← jets_Update (h_jets h) (Drop_Pulse (Repl_Drop msg)) true [Drop_JetID (Repl_Drop msg)];
  Ret (or_die h set_jets last (Goto (Fin_confirms (Drop_Pulse (Repl_Drop msg)))) r).

(** *** handler.go *)
Definition handleGotHotConfirmation (h : storages) (last pn : Z) (jetID : Local) (split : bool) : call :=
  r ← AddHotConfirmation (h_keeper h) pn jetID split;
  Ret (or_die h set_keeper last (Goto (Fin_confirms pn)) r).

(** *** finalize_pulse.go: the calls of [shouldStartFinalization] *)
Definition checkConfirms (h : storages) (last pn : Z) : call :=
  confirmed ← HasAllJetConfirms (prev_pulse (h_pulses h)) (jet_leaves h) (h_keeper h) pn;
  Ret (h, last, if confirmed : bool then Goto (Fin_top pn) else Done).
Definition checkNext (h : storages) (last pn top : Z) : call :=
  r ← Forwards (h_pulses h) top 1;
  Ret (h, last, match r with
                | Fail _ => Done
                | Good nextTop => if num nextTop =? pn then Goto (Fin_backup pn) else Done
                end).
(** and those of [finalizePulseStep] *)
Definition backUp (ok : bool) (h : storages) (last pn : Z) : call :=
  Ret (match MakeBackup ok h last pn with
       | (h, last, None) => (h, last, Goto (Fin_lock pn))
       | (h, last, Some e) =>
           (h, last, if decide (e = ErrAlreadyDone) then Done
                     else if decide (e = ErrBackupDisabled) then Goto (Fin_lock pn) else Die)
       end).
Definition confirmBackup (h : storages) (last pn : Z) : call :=
  r ← AddBackupConfirmation (prev_pulse (h_pulses h)) (jet_leaves h) (h_keeper h) pn;
  match r with
  | (jk, Some _) => Ret (set_keeper h jk, last, Die)
  | (jk, None) => Ret (set_keeper h jk, last, if topSyncPulse jk =? pn then Goto (Fin_update pn) else Die)
  end.
Definition updateIndexes (h : storages) (last pn : Z) : call :=
  r ← UpdateLastKnownPulse (h_indexes h) pn;
  Ret (or_die h set_indexes last (Goto (Fin_forward pn)) r).
Definition propagate (h : storages) (last pn : Z) : call :=
  r ← Forwards (h_pulses h) pn 1;
  Ret (h, last, match r with
                | Good nextTop => Goto (Fin_confirms (num nextTop))
                | Fail e => if decide (e = PulseStore.ErrNotFound) then Done else Die
                end).

(** *** pulsemanager.go: the calls of [Set] *)
Definition setNodes (h : storages) (last : Z) (p : Pulse) (nodes : list Node) : call :=
  Ret (or_die h set_nodes last (Goto (Set_append p)) (nodes_Set (h_nodes h) (num p) nodes)).
Definition appendPulse (h : storages) (last : Z) (p : Pulse) : call :=
  r ← Append (h_pulses h) p;
  Ret (set_pulses h r.1, last, match r.2 with None => Goto (Set_check (num p)) | Some _ => Done end).
Definition checkFinalization (h : storages) (last pn : Z) : call :=
  _ ← FinalizationKeeper_OnPulse h pn;
  Ret (h, last, Done).

Definition exec (ok : bool) (h : storages) (last : Z) (t : pc) : call :=
  match t with
  | Repl_records msg => storeRecords h last msg
  | Repl_calculate msg => abandonedNotifyPulse h last msg
  | Repl_indexes msg todo => storeIndexes h last msg todo
  | Repl_drop msg => storeDrop h last msg
  | Repl_confirm msg => confirmDrop h last msg
  | Repl_jets msg => updateJets h last msg
  | Hot_confirm pn jetID split => handleGotHotConfirmation h last pn jetID split
  | Fin_confirms pn => checkConfirms h last pn
  | Fin_top pn => Ret (h, last, Goto (Fin_next pn (topSyncPulse (h_keeper h))))
  | Fin_next pn top => checkNext h last pn top
  | Fin_backup pn => backUp ok h last pn
  | Fin_lock pn => confirmBackup h last pn
  | Fin_update pn => updateIndexes h last pn
  | Fin_forward pn => propagate h last pn
  | Set_nodes p nodes => setNodes h last p nodes
  | Set_append p => appendPulse h last p
  | Set_check pn => checkFinalization h last pn
  end.

(** ** db_rollback.go: one database *)
Definition truncate_head (h : storages) (x : database) : go (storages * option error) :=
  let from := nextPulse (h_keeper h) in
  match x with
  | Truncate_drops => r ← drops_TruncateHead (h_drops h) from; Ret (set_drops h r.1, r.2)
  | Truncate_records => r ← records_TruncateHead (h_records h) from; Ret (set_records h r.1, r.2)
  | Truncate_indexes => r ← index_TruncateHead (h_indexes h) from; Ret (set_indexes h r.1, r.2)
  | Update_indexes =>
      r ← UpdateLastKnownPulse (h_indexes h) (topSyncPulse (h_keeper h)); Ret (set_indexes h r.1, r.2)
  | Truncate_jets => r ← jets_TruncateHead (h_jets h) from; Ret (set_jets h r.1, r.2)
  | Truncate_pulses => Ret (set_pulses h (TruncateHead (h_pulses h) from), None)
  | Truncate_keeper => let r := JetKeeper.TruncateHead (h_keeper h) from in Ret (set_keeper h r.1, r.2)
  | Truncate_nodes => let r := nodes_TruncateHead (h_nodes h) from in Ret (set_nodes h r.1, r.2)
  | Truncate_backups => Ret (backup_TruncateHead h from, None)
  end.

(** ** The node: what is stored, and the goroutines *)
Inductive phase : Type :=
  | Booting (todo : list database)
  | Running.

(** [accepted] and [synced] record the history: the messages of replication
    that came, and the finalized pulses with the jets they had. *)
Record heavyNode : Type := mkHeavyNode {
  disk : storages;
  phase_of : phase;
  lastBackupedPulse : Z;
  threads : gmap nat pc;
  accepted : list Replication;
  synced : list (Z * list Local);
}.

(** The goroutine of the replicator, and Set, which holds its lock. *)
Definition replicator : nat := 0.
Definition manager : nat := 1.

Definition all_records (msgs : list Replication) : list Material := msgs ≫= Repl_Records.

(** The messages of light nodes. *)
Record replication_ok (msg : Replication) : Prop := {
  rp_pulse : Drop_Pulse (Repl_Drop msg) = Repl_Pulse msg;
  rp_range : 0 < Repl_Pulse msg <= MaxTimePulse;
  rp_records : Forall material_ok (Repl_Records msg);
  rp_indexes : Forall index_ok (Repl_Indexes msg);
  rp_drop : exists prefix, drop_ok (Repl_Drop msg) prefix;
}.

(** finalizationLock is held from AddBackupConfirmation to the end of the step. *)
Definition holds_lock (t : pc) : Prop :=
  match t with Fin_update _ | Fin_forward _ => True | _ => False end.
Definition may_run (n : heavyNode) (t : pc) : Prop :=
  match t with
  | Fin_lock _ => forall i u, threads n !! i = Some u -> ~ holds_lock u
  | _ => True
  end.

Definition synced_after (n : heavyNode) (h : storages) : list (Z * list Local) :=
  let top := topSyncPulse (h_keeper h) in
  if decide (top = topSyncPulse (h_keeper (disk n))) then synced n
  else synced n ++ [(top, jet_leaves (disk n) top)].

Definition crash (n : heavyNode) (h : storages) : heavyNode :=
  mkHeavyNode h (Booting dbs) 0 ∅ (accepted n) (synced_after n h).
Definition spawn (n : heavyNode) (i : nat) (t : pc) : heavyNode :=
  mkHeavyNode (disk n) (phase_of n) (lastBackupedPulse n) (<[i := t]> (threads n)) (accepted n) (synced n).
Definition after (n : heavyNode) (i : nat) (h : storages) (last : Z) (nx : followup) : heavyNode :=
  match nx with
  | Goto t => mkHeavyNode h Running last (<[i := t]> (threads n)) (accepted n) (synced_after n h)
  | Done => mkHeavyNode h Running last (delete i (threads n)) (accepted n) (synced_after n h)
  | Die => crash n h
  end.

Inductive heavy_step (n : heavyNode) : heavyNode -> Prop :=
  (* a message reaches the replicator once it is free; fewer than 2^32
     records of a pulse are ever sent *)
  | hs_replication msg :
      phase_of n = Running -> threads n !! replicator = None -> replication_ok msg ->
      positions_fit (all_records (accepted n ++ [msg])) ->
      heavy_step n (mkHeavyNode (disk n) Running (lastBackupedPulse n)
        (<[replicator := Repl_records msg]> (threads n)) (accepted n ++ [msg]) (synced n))
  | hs_hot i pn jetID split :
      phase_of n = Running -> (2 <= i)%nat -> threads n !! i = None ->
      heavy_step n (spawn n i (Hot_confirm pn jetID split))
  | hs_set p nodes :
      phase_of n = Running -> threads n !! manager = None ->
      0 < num p < MaxTimePulse -> nodes <> [] -> Forall node_ok nodes ->
      heavy_step n (spawn n manager (Set_nodes p nodes))
  | hs_exec ok i t h last nx :
      phase_of n = Running -> threads n !! i = Some t -> may_run n t ->
      exec ok (disk n) (lastBackupedPulse n) t = Ret (h, last, nx) ->
      heavy_step n (after n i h last nx)
  (* a stop at any moment, a panic among them *)
  | hs_crash : heavy_step n (crash n (disk n))
  | hs_boot x todo h e :
      phase_of n = Booting (x :: todo) -> truncate_head (disk n) x = Ret (h, e) ->
      heavy_step n (match e with
        | None => mkHeavyNode h (Booting todo) 0 ∅ (accepted n) (synced n)
        | Some _ => crash n h
        end)
  (* NewBackupMaker is given the top sync pulse *)
  | hs_ready :
      phase_of n = Booting [] ->
      heavy_step n (mkHeavyNode (disk n) Running (topSyncPulse (h_keeper (disk n))) ∅ (accepted n) (synced n)).
End Heavy.
Arguments storages _ _ _ _ _ _ : clear implicits.
Arguments heavyNode _ _ _ _ _ _ : clear implicits.

(** The call at hand. *)
Ltac open_call E :=
  cbn [exec] in E;
  unfold storeRecords, abandonedNotifyPulse, storeIndexes, storeDrop, confirmDrop, updateJets, handleGotHotConfirmation,
    checkConfirms, checkNext, backUp, confirmBackup, updateIndexes, propagate, setNodes, appendPulse, checkFinalization in E.
