(* ===== verification/HeavySamples.v ===== *)
(** * A heavy node at work: concrete runs
    (src/ledger/heavy/executor)

    A scheduler that runs the machine of HeavyReplicator.v step by step, and a
    node over the key-value store that gets one pulse with its root jet. *)
From S2P Require Import Prelude Pulse PulseStore Reference Jet JetKeeper HeavyNode JetSplitter HotData Records Store RecordStorage BadgerRecords IndexStorage BadgerIndexes DropStorage JetStorage NodeHistory HeavyReplicator.

(** ** The scheduler *)
Inductive action : Type :=
  | Replicate (msg : Replication)
  | Confirm (i : nat) (pn : Z) (jetID : Local) (split : bool)
  | SetPulse (p : Pulse) (nodes : list Node)
  | Exec (i : nat)
  | Crash
  | Boot
  | Ready.

Definition locks (t : pc) : bool := match t with Fin_update _ | Fin_forward _ => true | _ => false end.
Definition can_run (ts : gmap nat pc) (t : pc) : bool :=
  match t with Fin_lock _ => forallb (fun kv => negb (locks kv.2)) (map_to_list ts) | _ => true end.

Section Scheduler.
Context `{RecordStorage Rcs} `{IndexStorage Ixs} `{DropStorage Drs} `{JetStorage Jts}.
Context `{TruncatableStorage Pls} `{NodeHistory Nds} `{Scheme} (backuper : BackupMaker) (limit : Z).
Abbreviation node := (heavyNode Rcs Ixs Drs Jts Pls Nds).

Definition act (n : node) (a : action) : option node :=
  match a, phase_of n with
  | Replicate msg, Running =>
      match threads n !! replicator with
      | Some _ => None
      | None => Some (mkHeavyNode (disk n) Running (lastBackupedPulse n)
                        (<[replicator := Repl_records msg]> (threads n)) (accepted n ++ [msg]) (synced n))
      end
  | Confirm i pn jetID split, Running =>
      if (2 <=? i)%nat then
        match threads n !! i with Some _ => None | None => Some (spawn n i (Hot_confirm pn jetID split)) end
      else None
  | SetPulse p nodes, Running =>
      match threads n !! manager with Some _ => None | None => Some (spawn n manager (Set_nodes p nodes)) end
  | Exec i, Running =>
      match threads n !! i with
      | None => None
      | Some t =>
          if can_run (threads n) t then
            match exec backuper limit true (disk n) (lastBackupedPulse n) t with
            | Ret (h, last, nx) => Some (after n i h last nx)
            | Panic _ => None
            end
          else None
      end
  | Crash, _ => Some (crash n (disk n))
  | Boot, Booting (x :: todo) =>
      match truncate_head (disk n) x with
      | Ret (h, None) => Some (mkHeavyNode h (Booting todo) 0 ∅ (accepted n) (synced n))
      | Ret (h, Some _) => Some (crash n h)
      | Panic _ => None
      end
  | Ready, Booting [] =>
      Some (mkHeavyNode (disk n) Running (topSyncPulse (h_keeper (disk n))) ∅ (accepted n) (synced n))
  | _, _ => None
  end.

(** What the environment promises, after the messages [acc]. *)
Definition act_ok (acc : list Replication) (a : action) : Prop :=
  match a with
  | Replicate msg => replication_ok msg /\ positions_fit (all_records (acc ++ [msg]))
  | SetPulse p nodes => 0 < num p < MaxTimePulse /\ nodes <> [] /\ Forall node_ok nodes
  | _ => True
  end.
Definition sent (a : action) : list Replication := match a with Replicate msg => [msg] | _ => [] end.

Lemma act_step n a n' : act n a = Some n' -> act_ok (accepted n) a -> heavy_step backuper limit n n'.
Proof.
  unfold act. destruct a as [msg|i pn jetID split|p nodes|i| | |].
  - destruct (phase_of n) eqn:Ep; [done|]. destruct (threads n !! replicator) eqn:Et; [done|].
    intros [= <-] [Hok Hfit]. by apply hs_replication.
  - destruct (phase_of n) eqn:Ep; [done|]. destruct (Nat.leb_spec 2 i); [|done].
    destruct (threads n !! i) eqn:Et; [done|]. intros [= <-] _. by apply hs_hot.
  - destruct (phase_of n) eqn:Ep; [done|]. destruct (threads n !! manager) eqn:Et; [done|].
    intros [= <-] (Hp & Hne & Hok). by apply hs_set.
  - destruct (phase_of n) eqn:Ep; [done|]. destruct (threads n !! i) as [t|] eqn:Et; [|done].
    destruct (can_run (threads n) t) eqn:Ec; [|done].
    destruct (exec _ _ _ _ _ _) as [[[h last] nx]|] eqn:Ee; [|done]. intros [= <-] _.
    apply (hs_exec _ _ _ true i t); [done|done| |done]. destruct t; try done. cbn in Ec |- *.
    intros k u Hu Hl. rewrite forallb_forall in Ec. specialize (Ec (k, u)). cbn in Ec.
    destruct u; try done; (discriminate Ec; apply list_elem_of_In; by apply elem_of_map_to_list).
  - destruct (phase_of n); intros [= <-] _; apply hs_crash.
  - destruct (phase_of n) as [[|x todo]|] eqn:Ep; [done| |done].
    destruct (truncate_head (disk n) x) as [[h [e|]]|] eqn:Et; [| |done]; intros [= <-] _.
    + exact (hs_boot backuper limit n x todo h (Some e) Ep Et).
    + exact (hs_boot backuper limit n x todo h None Ep Et).
  - destruct (phase_of n) as [[|x todo]|] eqn:Ep; [|done..]. intros [= <-] _. by apply hs_ready.
Qed.

Fixpoint play (n : node) (l : list action) : option node :=
  match l with
  | [] => Some n
  | a :: l' => n' ← act n a; play n' l'
  end.
Fixpoint plays_ok (acc : list Replication) (l : list action) : Prop :=
  match l with
  | [] => True
  | a :: l' => act_ok acc a /\ plays_ok (acc ++ sent a) l'
  end.

Lemma act_accepted n a n' : act n a = Some n' -> accepted n' = accepted n ++ sent a.
Proof.
  assert (Hafter : forall i h last nx, accepted (after n i h last nx) = accepted n ++ []).
  { intros i h last nx. rewrite app_nil_r. by destruct nx. }
  unfold act. destruct a; cbn [sent]; repeat case_match; intros [= <-]; try done; try by rewrite app_nil_r.
Qed.

Lemma play_reach n l n' :
  play n l = Some n' -> plays_ok (accepted n) l -> reach (heavy_step backuper limit) n n'.
Proof.
  intros E Hok. assert (Hgen : forall m, reach (heavy_step backuper limit) n m -> plays_ok (accepted m) l ->
    play m l = Some n' -> reach (heavy_step backuper limit) n n').
  { clear E Hok. induction l as [|a l IH]; intros m Hr Hok E; [by injection E as <-|].
    cbn [play] in E. destruct (act m a) as [m'|] eqn:Ea; [|done]. cbn [plays_ok] in Hok. destruct Hok as [Ha Hok].
    apply (IH m'); [|by rewrite (act_accepted m a m' Ea)|done].
    apply (reach_step _ _ m); [done|]. by apply (act_step m a). }
  apply (Hgen n); [apply reach_init|done|done].
Qed.
End Scheduler.

(** ** A node over the key-value store *)
#[export] Instance Drop_eq_dec : EqDecision Drop.
Proof. solve_decision. Defined.
#[export] Instance Node_eq_dec : EqDecision Node.
Proof. solve_decision. Defined.

Definition sampleScheme : Scheme := {|
  Virtual_Marshal _ := Good [];
  Material_Marshal _ := Fail (Errorf "unused");
  Material_Unmarshal _ := Fail (Errorf "unused");
  Request_Marshal _ := Fail (Errorf "unused");
  Lifeline_Marshal _ := Fail (Errorf "unused");
  Lifeline_Unmarshal _ := Fail (Errorf "unused");
  ReferenceHasher _ := replicate 28 7;
|}.

Definition heavyPulse : Z := 65547.
Definition heavyRecord : Material :=
  mkMaterial (mkVirtual None []) (mkLocal heavyPulse (replicate 28 7)) emptyLocal emptyLocal [].
Definition heavyIndex : Index := mkIndex (Material_ID heavyRecord) emptyLifeline heavyPulse [].
Definition heavyDrop : Drop := mkDrop heavyPulse ZeroJetID 0 false.
Definition heavyMessage : Replication := mkReplication ZeroJetID heavyPulse [heavyRecord] [heavyIndex] heavyDrop.
Definition heavyNodes : list Node := [mkNode emptyGlobal 1].

Definition recordCodec : Codec Material := table_codec [heavyRecord].
Definition indexCodec : Codec Index := table_codec [heavyIndex].
Definition dropCodec : Codec Drop := table_codec [heavyDrop].
Definition treeCodec : Codec Tree := table_codec [NewTree false; NewTree true].
Definition nodesCodec : Codec (list Node) := table_codec [heavyNodes].
#[local] Existing Instances sampleScheme recordCodec indexCodec dropCodec treeCodec nodesCodec.

Abbreviation sampleStorages := (storages DB DB DB DB BadgerDB DB).
Abbreviation sampleNode := (heavyNode DB DB DB DB BadgerDB DB).
Definition genesisPulses : BadgerDB := {[MinTimePulse := mkDbNode (samplePulse MinTimePulse) None None]}.
Definition emptyStorages : sampleStorages := mkStorages ∅ ∅ ∅ ∅ genesisPulses (mkKeeper ∅ None) ∅ ∅.
Definition emptyHeavy : sampleNode := mkHeavyNode emptyStorages (Booting dbs) 0 ∅ [] [].

(** The node starts, gets the pulse, the hot confirmation and the message of
    its root jet. *)
Definition boot : list action := replicate 9 Boot ++ [Ready].
Definition first_pulse : list action :=
  boot ++ [SetPulse (samplePulse heavyPulse) heavyNodes; Exec 1; Exec 1; Exec 1].
Definition replicated_pulse : list action :=
  first_pulse ++ [Confirm 2 heavyPulse ZeroJetID false; Exec 2; Replicate heavyMessage;
                  Exec 0; Exec 0; Exec 0; Exec 0; Exec 0; Exec 0; Exec 0; Exec 2].
(** The replicator finalizes it, and the node stops in the middle. *)
Definition finalized_pulse : list action :=
  replicated_pulse ++ [Exec 0; Exec 0; Exec 0; Exec 0; Exec 0; Crash].

Definition played (l : list action) : option sampleNode := play (BackupMakerDefault false) 5 emptyHeavy l.

Lemma heavyMessage_ok : replication_ok heavyMessage.
Proof.
  assert (Hz : Forall is_byte (replicate 28 7)) by (by apply Forall_replicate).
  split; [done|by vm_compute| | |].
  - apply list.Forall_singleton. split; [|split; apply emptyLocal_wf]. split; [|by vm_compute].
    split; [by vm_compute|]. by split.
  - apply list.Forall_singleton. apply Build_index_ok; [| apply list.Forall_nil_2|done|done|split; apply emptyLocal_wf].
    split; [|by vm_compute]. split; [|by vm_compute]. split; [by vm_compute|]. by split.
  - exists (replicate 27 0). split; [by vm_compute|]. split; [|by vm_compute]. split; [|done].
    split; [|by vm_compute]. split; [by vm_compute|]. split; [done|]. by apply Forall_replicate.
Qed.

Lemma plays_ok_prefix acc l k : plays_ok acc (l ++ k) -> plays_ok acc l.
Proof.
  revert acc. induction l as [|a l IH]; intros acc; [done|]. cbn. intros [Ha Hl]. split; [done|by apply IH].
Qed.

Lemma finalized_ok : plays_ok [] finalized_pulse.
Proof.
  assert (Hs : act_ok [] (SetPulse (samplePulse heavyPulse) heavyNodes)).
  { split; [by vm_compute|]. split; [done|]. apply list.Forall_singleton. split; apply emptyLocal_wf. }
  assert (Hr : act_ok [] (Replicate heavyMessage)).
  { split; [apply heavyMessage_ok|]. intros pn. unfold all_records, of_pulse. cbn [app mbind list_bind].
    rewrite app_nil_r. eapply Z.le_lt_trans; [apply Nat2Z.inj_le, length_filter|]. by vm_compute. }
  unfold finalized_pulse, replicated_pulse, first_pulse, boot. cbn [app replicate plays_ok sent act_ok].
  repeat (split; [done || exact Hs || exact Hr|]). done.
Qed.
Lemma replicated_ok : plays_ok [] replicated_pulse.
Proof. eapply plays_ok_prefix, finalized_ok. Qed.

Lemma finalized_run : synced <$> played finalized_pulse = Some [(heavyPulse, [ZeroJetID])].
Proof. vm_compute. reflexivity. Qed.
