(* ===== verification/HeavyDurability.v ===== *)
(** * What the heavy node finalized stays
    (src/ledger/heavy/executor)

    Whatever the goroutines of HeavyReplicator.v do and wherever the node
    stops, a finalized pulse has the drop, the records and the indexes of
    every jet it had when it was finalized. *)
From S2P Require Import Prelude Pulse PulseStore Reference Jet JetKeeper HeavyNode JetSplitter HotData Records Store RecordStorage BadgerRecords IndexStorage BadgerIndexes DropStorage JetStorage NodeHistory HeavyReplicator HeavySamples.

(** ** Drop confirmations of the keeper *)
Definition drop_confirmed (jk : keeper) (pn : Z) (id : Local) : Prop :=
  exists j, j ∈ all jk pn /\ JetID j = id /\ DropConfirmed j = true.

Lemma all_set jk p js pn : all (set jk p js) pn = if decide (pn = p) then js else all jk pn.
Proof.
  unfold all, set. cbn. destruct (decide (pn = p)) as [->|]; [by rewrite lookup_insert_eq|by rewrite lookup_insert_ne].
Qed.

(** Where the info of the jet keeps its drop confirmation, or gains one. *)
Lemma replaced_info jk p jet idx jets j' pn id :
  getForJet jk p jet = (idx, jets) -> JetID j' = jet ->
  (DropConfirmed (nth idx jets newInfo) = true -> DropConfirmed j' = true) ->
  drop_confirmed (set jk p (<[idx := j']> jets)) pn id <->
  drop_confirmed jk pn id \/ (pn = p /\ id = jet /\ DropConfirmed j' = true).
Proof.
  intros E Hid Hd. pose proof (getForJet_spec jk p jet) as Hs. rewrite E in Hs.
  unfold drop_confirmed. rewrite all_set. destruct (decide (pn = p)) as [->|Hne].
  2: { split; [by left|]. intros [?|[? _]]; [done|congruence]. }
  destruct Hs as [(j & Hi & Hj & -> & En)|(Hout & -> & -> & En)]; rewrite En in Hd.
  - split.
    + intros (x & Hx & Ex & Dx). apply list_elem_of_lookup in Hx as [k Hk].
      destruct (decide (k = idx)) as [->|Hk'].
      * rewrite list_lookup_insert_eq in Hk by (by eapply lookup_lt_Some). injection Hk as <-. right. by subst.
      * rewrite list_lookup_insert_ne in Hk by done. left. exists x. split; [by eapply list_elem_of_lookup_2|done].
    + intros [(x & Hx & Ex & Dx)|(_ & -> & Dj)].
      * apply list_elem_of_lookup in Hx as [k Hk]. destruct (decide (k = idx)) as [->|Hk'].
        -- assert (x = j) as -> by congruence. exists j'. split; [|by rewrite Hid, <- Ex; auto].
           apply list_elem_of_lookup. exists idx. rewrite list_lookup_insert_eq; [done|by eapply lookup_lt_Some].
        -- exists x. split; [|done]. apply list_elem_of_lookup. exists k. by rewrite list_lookup_insert_ne.
      * exists j'. split; [|done]. apply list_elem_of_lookup. exists idx.
        rewrite list_lookup_insert_eq; [done|by eapply lookup_lt_Some].
  - replace (length (all jk p)) with (length (all jk p) + 0)%nat by lia. rewrite insert_app_r. cbn [insert list_insert].
    split.
    + intros (x & [Hx|Hx]%elem_of_app & Ex & Dx); [left; by exists x|]. apply list_elem_of_singleton in Hx as ->.
      right. by subst.
    + intros [(x & Hx & Ex & Dx)|(_ & -> & Dj)].
      * exists x. split; [|done]. apply elem_of_app. by left.
      * exists j'. split; [|done]. apply elem_of_app. right. by apply list_elem_of_singleton.
Qed.

Lemma updateHot_confirmed jk p id split jk' e pn x :
  updateHot jk p id split = Ret (jk', e) -> drop_confirmed jk' pn x <-> drop_confirmed jk pn x.
Proof.
  unfold updateHot. intros E. go_step E. destruct (getForJet jk p v) as [idx jets] eqn:Eg.
  destruct (addHot (nth idx jets newInfo) id v split) as [j [er|]] eqn:Ea; injection E as <- _; [done|].
  assert (Hj : JetID j = v /\ DropConfirmed j = DropConfirmed (nth idx jets newInfo)).
  { unfold addHot, updateSplit in Ea. destruct (checkIncomingHot _ _); [done|]. cbn in Ea.
    destruct (negb _); [|destruct (negb _); [done|]]; injection Ea as <-; done. }
  destruct Hj as [Hj Hd]. rewrite (replaced_info jk p v idx jets j pn x Eg Hj) by congruence.
  split; [|by left]. intros [?|(-> & -> & Dj)]; [done|].
  pose proof (getForJet_spec jk p v) as Hs. rewrite Eg in Hs.
  destruct Hs as [(y & Hi & Hy & -> & En)|(_ & _ & _ & En)]; rewrite En in Hd; [|by rewrite Hd in Dj].
  exists y. split; [by eapply list_elem_of_lookup_2|]. split; [done|congruence].
Qed.

Lemma updateDrop_confirmed jk p id split pn x :
  drop_confirmed (updateDrop jk p id split).1 pn x <->
  drop_confirmed jk pn x \/ ((updateDrop jk p id split).2 = None /\ pn = p /\ x = id).
Proof.
  unfold updateDrop. destruct (getForJet jk p id) as [idx jets] eqn:Eg.
  destruct (addDrop (nth idx jets newInfo) id split) as [j [er|]] eqn:Ea; cbn [fst snd].
  { split; [by left|]. by intros [?|[? _]]. }
  assert (Hj : JetID j = id /\ DropConfirmed j = true).
  { unfold addDrop in Ea. destruct (DropConfirmed _); [done|]. destruct (updateSplit _ _) as [? [?|]]; [done|].
    by injection Ea as <-. }
  destruct Hj as [Hj Hd]. rewrite (replaced_info jk p id idx jets j pn x Eg Hj) by done. tauto.
Qed.

Lemma addBackup_confirmed jk p pn x :
  drop_confirmed (set jk p (addBackup <$> all jk p)) pn x <-> drop_confirmed jk pn x.
Proof.
  unfold drop_confirmed. rewrite all_set. destruct (decide (pn = p)) as [->|]; [|done]. split.
  - intros (j & (i & -> & Hi)%list_elem_of_fmap & Hj). by exists i.
  - intros (j & Hi & Hj). exists (addBackup j). split; [|done]. apply list_elem_of_fmap. by exists j.
Qed.

Lemma isConfirmed_drop j cb : isConfirmed j cb = Ret true -> DropConfirmed j = true.
Proof. unfold isConfirmed. destruct (_ && _); [done|]. by destruct (DropConfirmed j). Qed.

(** A backup confirmation keeps the drops; when it moves the top sync pulse,
    every jet of the tree has its drop. *)
Lemma AddBackupConfirmation_confirmed Bw All jk pn jk' e :
  AddBackupConfirmation Bw All jk pn = Ret (jk', e) ->
  (forall q x, drop_confirmed jk' q x <-> drop_confirmed jk q x) /\
  (topSyncPulse jk' = topSyncPulse jk \/
   topSyncPulse jk' = pn /\ Bw pn = Good (topSyncPulse jk) /\ All pn <> [] /\
   forall id, id ∈ All pn -> drop_confirmed jk' pn id).
Proof.
  unfold AddBackupConfirmation, updateBackup. intros E.
  destruct (_ =? _)%nat; [injection E as <- _; split; [done|by left]|].
  apply go_bind_ret in E as (v & E & [= -> _]).
  destruct (updateTopSyncPulse_jets Bw All (set jk pn (addBackup <$> all jk pn)) pn jk' E) as (Hjets & Hs).
  assert (Hdc : forall q x, drop_confirmed jk' q x <-> drop_confirmed jk q x).
  { intros q x. rewrite <- (addBackup_confirmed jk pn). unfold drop_confirmed, all. by rewrite Hjets. }
  split; [done|]. destruct Hs as [->|[Ht Hc]]; [by left|]. right. split; [done|].
  apply checkPulseConsistency_true in Hc as (Hb & expected & _ & Hne & Hconf & _ & Hcov). split; [exact Hb|]. split.
  { intros E0. apply (f_equal length) in E0. rewrite (proj1 Hcov) in E0. apply size_empty_inv in E0.
    destruct (all (set jk pn (addBackup <$> all jk pn)) pn) as [|j js]; [done|].
    eapply (not_elem_of_empty (C:=gset Local)), E0, elem_of_list_to_set. by left. }
  intros id Hid. apply (proj2 Hcov) in Hid. apply elem_of_list_to_set, list_elem_of_fmap in Hid as (j & -> & Hj).
  apply Hdc, (addBackup_confirmed jk pn). exists j. split; [exact Hj|]. split; [done|].
  rewrite list.Forall_forall in Hconf. by eapply isConfirmed_drop, Hconf.
Qed.

Lemma TruncateHead_confirmed jk pn x :
  drop_confirmed (JetKeeper.TruncateHead jk (nextPulse jk)).1 pn x <-> drop_confirmed jk pn x /\ pn <= topSyncPulse jk.
Proof.
  unfold JetKeeper.TruncateHead, nextPulse. destruct (Z.leb_spec (topSyncPulse jk + 1) (topSyncPulse jk)); [lia|].
  unfold drop_confirmed, all. cbn. rewrite map_lookup_filter. destruct (db_jets jk !! pn) as [js|]; cbn.
  - destruct (decide (pn < topSyncPulse jk + 1)) as [Hp|Hp].
    + rewrite option_guard_True by done. cbn. split; [|by intros [? _]]. intros Hj. split; [done|lia].
    + rewrite option_guard_False by done. cbn. split; [by intros (j & []%elem_of_nil & _)|]. intros [_ ?]. lia.
  - split; [by intros (j & []%elem_of_nil & _)|by intros [(j & []%elem_of_nil & _) _]].
Qed.

Lemma keeper_in_dbs : Truncate_keeper ∈ dbs.
Proof. do 6 right. left. Qed.

Lemma of_pulse_accepted msgs msg pn :
  length (of_pulse (all_records (msgs ++ [msg])) pn) =
  (length (of_pulse (all_records msgs) pn) + length (of_pulse (Repl_Records msg) pn))%nat.
Proof.
  unfold all_records. rewrite bind_app, of_pulse_app, length_app. f_equal. cbn [mbind list_bind]. by rewrite app_nil_r.
Qed.

(** ** The invariant *)
Record contents : Type := mkContents {
  c_log : record_log;
  c_indexes : index_table;
  c_known : known_pulses;
  c_drops : drop_table;
  c_trees : tree_table;
  c_pulses : list Pulse;
  c_nodes : NodeStorage;
}.

(** What the storages have of a message: its records, the indexes that are not
    still to do, and, once sealed, its drop. *)
Record kept (c : contents) (msg : Replication) (todo : list Index) (sealed : bool) : Prop := {
  kp_records r : r ∈ Repl_Records msg -> r ∈ c_log c /\ Local_Pulse (Material_ID r) = Repl_Pulse msg;
  kp_indexes b : b ∈ Repl_Indexes msg -> b ∈ todo \/ is_Some (c_indexes c !! (Repl_Pulse msg, ObjID b));
  kp_drop : sealed = true ->
    exists prefix, jet_with (Drop_JetID (Repl_Drop msg)) prefix /\
      c_drops c !! (Drop_Pulse (Repl_Drop msg), prefix) = Some (Repl_Drop msg);
}.

(** Nothing of the pulses [P] is lost. *)
Record extends (P : Z -> Prop) (c c' : contents) : Prop := {
  ex_log r : P (Local_Pulse (Material_ID r)) -> r ∈ c_log c -> r ∈ c_log c';
  ex_indexes pn obj : P pn -> is_Some (c_indexes c !! (pn, obj)) -> is_Some (c_indexes c' !! (pn, obj));
  ex_drops pn prefix d : P pn -> c_drops c !! (pn, prefix) = Some d -> c_drops c' !! (pn, prefix) = Some d;
  ex_pulses pn : P pn -> pn ∈ num <$> c_pulses c -> pn ∈ num <$> c_pulses c';
}.

Lemma kept_extends P c c' msg todo sealed :
  extends P c c' -> P (Repl_Pulse msg) -> Drop_Pulse (Repl_Drop msg) = Repl_Pulse msg ->
  kept c msg todo sealed -> kept c' msg todo sealed.
Proof.
  intros He HP Hd [Hr Hi Hs]. split.
  - intros r [Hl Ep]%Hr. split; [|done]. apply (ex_log P c c' He); [by rewrite Ep|done].
  - intros b [?|?]%Hi; [by left|right]. by apply (ex_indexes P c c' He).
  - intros (prefix & Hj & E)%Hs. exists prefix. split; [done|]. apply (ex_drops P c c' He); [by rewrite Hd|done].
Qed.

Definition pend (t : pc) : list Material := match t with Repl_records msg => Repl_Records msg | _ => [] end.
Definition pending (ts : gmap nat pc) : list Material :=
  match ts !! replicator with Some t => pend t | None => [] end.

Definition thread_ok (c : contents) (acc : list Replication) (i : nat) (t : pc) : Prop :=
  match t with
  | Repl_records msg => i = replicator /\ msg ∈ acc
  | Repl_calculate msg => msg ∈ acc /\ kept c msg (Repl_Indexes msg) false
  | Repl_indexes msg todo => msg ∈ acc /\ (forall b, b ∈ todo -> b ∈ Repl_Indexes msg) /\ kept c msg todo false
  | Repl_drop msg => msg ∈ acc /\ kept c msg [] false
  | Repl_confirm msg | Repl_jets msg => msg ∈ acc /\ kept c msg [] true
  | Fin_next _ pn | Fin_backup pn | Fin_lock pn | Fin_update pn | Fin_forward pn => pn ∈ num <$> c_pulses c
  | Set_nodes p nodes => 0 < num p < MaxTimePulse /\ nodes <> [] /\ Forall node_ok nodes
  | Set_append p => 0 < num p < MaxTimePulse
  | Hot_confirm _ _ _ | Fin_confirms _ | Fin_top _ | Set_check _ => True
  end.

(** The message that brought the drop of a jet. *)
Definition message_for (c : contents) (acc : list Replication) (pn : Z) (id : Local) : Prop :=
  exists msg, msg ∈ acc /\ Drop_Pulse (Repl_Drop msg) = pn /\ Drop_JetID (Repl_Drop msg) = id /\ kept c msg [] true.

Lemma thread_ok_extends c c' acc acc' i t :
  extends (fun _ => True) c c' -> (forall msg, msg ∈ acc -> msg ∈ acc') -> Forall replication_ok acc ->
  thread_ok c acc i t -> thread_ok c' acc' i t.
Proof.
  intros He Hacc Hok Ht. rewrite list.Forall_forall in Hok.
  assert (Hk : forall msg todo sealed, msg ∈ acc -> kept c msg todo sealed -> kept c' msg todo sealed).
  { intros msg todo sealed Hm. apply (kept_extends _ _ _ _ _ _ He); [done|by apply (rp_pulse _ (Hok msg Hm))]. }
  pose proof (ex_pulses _ _ _ He) as Hp.
  destruct t; cbn [thread_ok] in *; try done.
  all: try (by apply Hp).
  all: destruct_and?; try split_and!; auto.
Qed.

Lemma message_for_extends P c c' acc acc' pn id :
  extends P c c' -> (forall msg, msg ∈ acc -> msg ∈ acc') -> Forall replication_ok acc -> P pn ->
  message_for c acc pn id -> message_for c' acc' pn id.
Proof.
  intros He Hacc Hok HP (msg & Hm & Hpn & Hid & Hk). rewrite list.Forall_forall in Hok.
  pose proof (rp_pulse _ (Hok msg Hm)) as Hd. exists msg. split; [by apply Hacc|]. do 2 (split; [done|]).
  apply (kept_extends P c c'); [done|by rewrite <- Hd, Hpn|done|done].
Qed.

Section Durability.
Context `{LawfulRecords Rcs} `{LawfulIndexes Ixs} `{LawfulDrops Drs} `{LawfulJets Jts}.
Context `{TruncatableStorage Pls} `{LawfulNodes Nds} `{Scheme} (backuper : BackupMaker) (limit : Z).
Abbreviation disk_of := (storages Rcs Ixs Drs Jts Pls Nds).
Abbreviation node := (heavyNode Rcs Ixs Drs Jts Pls Nds).
Abbreviation heavy_step := (heavy_step backuper limit).

Record stores (h : disk_of) (c : contents) : Prop := {
  so_records : keeps (h_records h) (c_log c);
  so_indexes : has_indexes (h_indexes h) (c_indexes c) (c_known c);
  so_drops : has_drops (h_drops h) (c_drops c);
  so_jets : has_trees (h_jets h) (c_trees c);
  so_pulses : holds (h_pulses h) (c_pulses c);
  so_nodes : has_nodes (h_nodes h) (c_nodes c);
}.

Abbreviation top n := (topSyncPulse (h_keeper (disk n))).

Record heavy_inv (n : node) (c : contents) : Prop := {
  hi_stores : stores (disk n) c;
  hi_accepted : Forall replication_ok (accepted n);
  hi_pulses : Forall (fun p => 0 < num p < MaxTimePulse) (c_pulses c);
  hi_top : top n ∈ num <$> c_pulses c;
  hi_fit : positions_fit (all_records (accepted n));
  hi_count pn : (length (of_pulse (c_log c) pn) + length (of_pulse (pending (threads n)) pn) <=
                 length (of_pulse (all_records (accepted n)) pn))%nat;
  hi_threads i t : threads n !! i = Some t -> thread_ok c (accepted n) i t;
  hi_idle : phase_of n <> Running -> threads n = ∅;
  hi_confirmed pn id : drop_confirmed (h_keeper (disk n)) pn id -> phase_of n = Running \/ pn <= top n ->
    message_for c (accepted n) pn id;
  hi_cut todo : phase_of n = Booting todo -> Truncate_keeper ∉ todo ->
    forall pn id, drop_confirmed (h_keeper (disk n)) pn id -> pn <= top n;
  hi_synced pn jets : (pn, jets) ∈ synced n -> pn <= top n /\ pn ∈ num <$> c_pulses c /\ jets <> [] /\
    forall id, id ∈ jets -> drop_confirmed (h_keeper (disk n)) pn id;
}.

Lemma pulses_in_range n c pn : heavy_inv n c -> pn ∈ num <$> c_pulses c -> 0 < pn < MaxTimePulse.
Proof.
  intros Hi (p & -> & Hp)%list_elem_of_fmap. pose proof (hi_pulses n c Hi) as Hr. rewrite list.Forall_forall in Hr.
  by apply Hr.
Qed.

(** The top sync pulse moves to a stored pulse after it, or stays. *)
Definition top_moves (n : node) (h : disk_of) (c : contents) : Prop :=
  let top' := topSyncPulse (h_keeper h) in
  top' = top n \/
  top' ∈ num <$> c_pulses c /\ top n <= top' /\ jet_leaves (disk n) top' <> [] /\
  forall id, id ∈ jet_leaves (disk n) top' -> drop_confirmed (h_keeper h) top' id.

(** What one call has to guarantee. *)
Record call_ok (n : node) (c : contents) (i : nat) (t : pc) (h : disk_of) (c' : contents) (nx : followup) : Prop := {
  co_stores : stores h c';
  co_extends : extends (fun _ => True) c c';
  co_pulses : Forall (fun p => 0 < num p < MaxTimePulse) (c_pulses c');
  co_count pn : (length (of_pulse (c_log c') pn) <= length (of_pulse (c_log c) pn) + length (of_pulse (pend t) pn))%nat;
  co_thread t' : nx = Goto t' -> pend t' = [] /\ thread_ok c' (accepted n) i t';
  co_keeps pn id : drop_confirmed (h_keeper (disk n)) pn id -> drop_confirmed (h_keeper h) pn id;
  co_gains pn id : drop_confirmed (h_keeper h) pn id ->
    drop_confirmed (h_keeper (disk n)) pn id \/ message_for c' (accepted n) pn id;
  co_top : top_moves n h c';
}.

Lemma synced_after_inv n c i t h c' nx pn jets :
  heavy_inv n c -> call_ok n c i t h c' nx -> (pn, jets) ∈ synced_after n h ->
  pn <= topSyncPulse (h_keeper h) /\ pn ∈ num <$> c_pulses c' /\ jets <> [] /\
  forall id, id ∈ jets -> drop_confirmed (h_keeper h) pn id.
Proof.
  intros Hi Hc. pose proof (co_top _ _ _ _ _ _ _ Hc) as Ht. unfold top_moves in Ht.
  assert (Hold : (pn, jets) ∈ synced n -> pn <= topSyncPulse (h_keeper h) /\ pn ∈ num <$> c_pulses c' /\ jets <> [] /\
    forall id, id ∈ jets -> drop_confirmed (h_keeper h) pn id).
  { intros (Hle & Hp & Hne & Hd)%(hi_synced n c Hi). split; [destruct Ht as [->|(_ & ? & _)]; lia|].
    split; [by apply (ex_pulses _ _ _ (co_extends _ _ _ _ _ _ _ Hc))|]. split; [done|].
    intros id Hid. by apply (co_keeps _ _ _ _ _ _ _ Hc), Hd. }
  unfold synced_after. destruct (decide _) as [E|E]; [exact Hold|].
  intros [Hin|Hin]%elem_of_app; [by apply Hold|].
  apply list_elem_of_singleton in Hin as [= -> ->]. destruct Ht as [?|(Hp & _ & Hne & Hd)]; [congruence|].
  split; [lia|]. split; [done|]. split; [done|exact Hd].
Qed.

Lemma call_top n c i t h c' nx :
  heavy_inv n c -> call_ok n c i t h c' nx -> topSyncPulse (h_keeper h) ∈ num <$> c_pulses c'.
Proof.
  intros Hi Hc. destruct (co_top _ _ _ _ _ _ _ Hc) as [->|[Hp _]]; [|done].
  apply (ex_pulses _ _ _ (co_extends _ _ _ _ _ _ _ Hc)); [done|apply Hi].
Qed.

Lemma call_confirmed n c i t h c' nx pn id :
  heavy_inv n c -> phase_of n = Running -> call_ok n c i t h c' nx ->
  drop_confirmed (h_keeper h) pn id -> message_for c' (accepted n) pn id.
Proof.
  intros Hi Hr Hc [Hd|Hm]%(co_gains _ _ _ _ _ _ _ Hc); [|done].
  apply (message_for_extends (fun _ => True) c c' (accepted n)); [apply Hc|done|apply Hi|done|].
  by apply (hi_confirmed n c Hi); [|left].
Qed.

(** A goroutine that made a call, ended or died leaves the invariant. *)
Lemma after_inv n c i t h c' last nx :
  heavy_inv n c -> phase_of n = Running -> threads n !! i = Some t -> call_ok n c i t h c' nx ->
  heavy_inv (after n i h last nx) c'.
Proof.
  intros Hi Hr Ht Hc.
  assert (Hcount : forall ts : gmap nat pc, pending ts = [] \/ (i <> replicator /\ pending ts = pending (threads n)) -> forall pn,
    (length (of_pulse (c_log c') pn) + length (of_pulse (pending ts) pn) <=
     length (of_pulse (all_records (accepted n)) pn))%nat).
  { intros ts Hp pn. pose proof (hi_count n c Hi pn) as Hn. pose proof (co_count _ _ _ _ _ _ _ Hc pn) as Hl.
    pose proof (hi_threads n c Hi i t Ht) as Hok.
    destruct (decide (i = replicator)) as [->|Hne].
    - destruct Hp as [->|[? _]]; [|done]. unfold pending in Hn. rewrite Ht in Hn. cbn in Hn |- *. lia.
    - assert (Et : pend t = []) by (destruct t; try done; by destruct Hok). rewrite Et in Hl. cbn in Hl.
      destruct Hp as [->|[_ ->]]; cbn; lia. }
  assert (Hold : forall ts : gmap nat pc, (forall k u, ts !! k = Some u ->
      threads n !! k = Some u \/ (k = i /\ nx = Goto u)) ->
    forall k u, ts !! k = Some u -> thread_ok c' (accepted n) k u).
  { intros ts Hts k u [Hu|[-> E]]%Hts; [|by apply (co_thread _ _ _ _ _ _ _ Hc)].
    apply (thread_ok_extends c c' (accepted n)); [apply Hc|done|apply Hi|by apply Hi]. }
  destruct nx as [t'| |]; cbn [after].
  - split; cbn [disk phase_of threads accepted synced]; try exact (hi_accepted n c Hi); try exact (hi_fit n c Hi);
      try exact (co_stores _ _ _ _ _ _ _ Hc); try exact (co_pulses _ _ _ _ _ _ _ Hc); try done.
    + by eapply call_top, Hc.
    + apply Hcount. unfold pending. destruct (decide (i = replicator)) as [->|Hne].
      * left. rewrite lookup_insert_eq. by apply (co_thread _ _ _ _ _ _ _ Hc t').
      * right. by rewrite lookup_insert_ne.
    + apply Hold. intros k u. rewrite lookup_insert. destruct (decide (i = k)) as [->|]; [|by left].
      intros [= ->]. by right.
    + intros pn id Hd _. by eapply call_confirmed.
    + intros pn jets. by eapply synced_after_inv.
  - split; cbn [disk phase_of threads accepted synced]; try exact (hi_accepted n c Hi); try exact (hi_fit n c Hi);
      try exact (co_stores _ _ _ _ _ _ _ Hc); try exact (co_pulses _ _ _ _ _ _ _ Hc); try done.
    + by eapply call_top, Hc.
    + apply Hcount. unfold pending. destruct (decide (i = replicator)) as [->|Hne].
      * left. by rewrite lookup_delete_eq.
      * right. by rewrite lookup_delete_ne.
    + apply Hold. intros k u. rewrite lookup_delete. destruct (decide (i = k)); [done|by left].
    + intros pn id Hd _. by eapply call_confirmed.
    + intros pn jets. by eapply synced_after_inv.
  - unfold crash. split; cbn [disk phase_of threads accepted synced]; try exact (hi_accepted n c Hi); try exact (hi_fit n c Hi);
      try exact (co_stores _ _ _ _ _ _ _ Hc); try exact (co_pulses _ _ _ _ _ _ _ Hc); try done.
    + by eapply call_top, Hc.
    + apply Hcount. left. done.
    + intros pn id Hd _. by eapply call_confirmed.
    + intros todo [= <-] Hout. destruct Hout. apply keeper_in_dbs.
    + intros pn jets. by eapply synced_after_inv.
Qed.

Lemma crash_inv n c : heavy_inv n c -> heavy_inv (crash n (disk n)) c.
Proof.
  intros Hi. assert (Es : synced_after n (disk n) = synced n) by (unfold synced_after; by rewrite decide_True).
  unfold crash. rewrite Es. split; cbn [disk phase_of threads accepted synced]; try apply Hi; try done.
  - intros pn. pose proof (hi_count n c Hi pn). unfold pending at 1. rewrite lookup_empty. cbn. lia.
  - intros pn id Hd [?|Hp]; [done|]. apply (hi_confirmed n c Hi); [done|by right].
  - intros todo [= <-] Hout. destruct Hout. apply keeper_in_dbs.
Qed.

(** ** Every call keeps it *)
Lemma extends_refl P c : extends P c c.
Proof. by split. Qed.

Lemma call_stored n c i t h c' nx :
  heavy_inv n c -> stores h c' -> h_keeper h = h_keeper (disk n) -> extends (fun _ => True) c c' ->
  Forall (fun p => 0 < num p < MaxTimePulse) (c_pulses c') ->
  (forall pn, (length (of_pulse (c_log c') pn) <= length (of_pulse (c_log c) pn) + length (of_pulse (pend t) pn))%nat) ->
  (forall t', nx = Goto t' -> pend t' = [] /\ thread_ok c' (accepted n) i t') ->
  call_ok n c i t h c' nx.
Proof.
  intros Hi Hs Hk He Hp Hn Ht. split; try done; rewrite ?Hk; [done|by left|].
  left. by rewrite Hk.
Qed.

Lemma call_unchanged n c i t nx :
  heavy_inv n c -> (forall t', nx = Goto t' -> pend t' = [] /\ thread_ok c (accepted n) i t') ->
  call_ok n c i t (disk n) c nx.
Proof.
  intros Hi Ht. apply call_stored; [done|apply Hi|done|apply extends_refl|apply Hi|lia|done].
Qed.

(** A call that changes something beside the log and the pulses. *)
Lemma call_beside n c i t h c' nx :
  heavy_inv n c -> stores h c' -> h_keeper h = h_keeper (disk n) -> extends (fun _ => True) c c' ->
  c_log c' = c_log c -> c_pulses c' = c_pulses c ->
  (forall t', nx = Goto t' -> pend t' = [] /\ thread_ok c' (accepted n) i t') ->
  call_ok n c i t h c' nx.
Proof.
  intros Hi Hs Hk He El Ep Ht. apply call_stored; [done..|rewrite Ep; apply Hi|rewrite El; lia|done].
Qed.

Lemma message_ok n c msg : heavy_inv n c -> msg ∈ accepted n -> replication_ok msg.
Proof. intros Hi Hm. pose proof (hi_accepted n c Hi) as Ha. rewrite list.Forall_forall in Ha. by apply Ha. Qed.

Lemma pulse_word pn : 0 < pn <= MaxTimePulse -> 0 <= pn < 2^32.
Proof. change MaxTimePulse with (2^30 - 1). lia. Qed.

Lemma checkRecords_pulse pn recs r :
  0 < pn <= MaxTimePulse -> checkRecords pn recs = Ret true -> r ∈ recs -> Local_Pulse (Material_ID r) = pn.
Proof.
  intros Hp. induction recs as [|q recs IH]; [by intros _ ?%elem_of_nil|]. cbn [checkRecords]. intros E.
  go_step E. go_step E. destruct (Local_Equal _ _) eqn:Eq; [|done].
  intros [->|Hr]%elem_of_cons; [|by apply IH]. apply Local_Equal_iff in Eq as ->.
  by eapply NewLocal_pulse.
Qed.

Lemma exec_records ok n c i last msg h last' nx :
  heavy_inv n c -> threads n !! i = Some (Repl_records msg) ->
  exec backuper limit ok (disk n) last (Repl_records msg) = Ret (h, last', nx) ->
  exists c', call_ok n c i (Repl_records msg) h c' nx.
Proof.
  intros Hi Ht E. destruct (hi_threads n c Hi i _ Ht) as [-> Hm]. pose proof (message_ok n c msg Hi Hm) as Hok.
  open_call E. go_step E. destruct v; cbn [negb] in E.
  2: { injection E as <- _ <-. exists c. by apply call_unchanged. }
  go_step E. destruct v as [rs e]. unfold or_die in E. cbn [fst snd] in E. injection E as <- _ <-.
  assert (Hfit : positions_fit (c_log c ++ Repl_Records msg)).
  { intros pn. rewrite of_pulse_app, length_app. pose proof (hi_count n c Hi pn) as Hn.
    pose proof (hi_fit n c Hi pn). unfold pending in Hn. rewrite Ht in Hn. cbn [pend] in Hn. lia. }
  pose proof (BatchSet_law _ _ _ _ _ (so_records _ _ (hi_stores n c Hi)) (rp_records msg Hok) Hfit E1) as Hk.
  destruct (hi_stores n c Hi) as [Sr Si Sd Sj Sp Sn].
  exists (mkContents (match e with None => c_log c ++ Repl_Records msg | Some _ => c_log c end)
            (c_indexes c) (c_known c) (c_drops c) (c_trees c) (c_pulses c) (c_nodes c)).
  apply call_stored; [done|by split|done| |apply Hi| |].
  - split; try done. intros r _ Hr. cbn. destruct e; [done|]. apply elem_of_app. by left.
  - intros pn. cbn [c_log pend]. destruct e; [lia|]. rewrite of_pulse_app, length_app. lia.
  - intros t' Et. destruct e; [done|]. injection Et as <-. split; [done|]. split; [done|]. split; [|by left|done].
    intros r Hr. split; [apply elem_of_app; by right|].
    by apply (checkRecords_pulse (Repl_Pulse msg) (Repl_Records msg)); [apply Hok| |].
Qed.

Lemma exec_indexes ok n c i last msg todo h last' nx :
  heavy_inv n c -> threads n !! i = Some (Repl_indexes msg todo) ->
  exec backuper limit ok (disk n) last (Repl_indexes msg todo) = Ret (h, last', nx) ->
  exists c', call_ok n c i (Repl_indexes msg todo) h c' nx.
Proof.
  intros Hi Ht E. destruct (hi_threads n c Hi i _ Ht) as (Hm & Hsub & Hkept). pose proof (message_ok n c msg Hi Hm) as Hok.
  destruct todo as [|idx todo]; open_call E.
  { injection E as <- _ <-. exists c. apply call_unchanged; [done|]. by intros t' [= <-]. }
  go_step E. destruct v as [ix e]. unfold or_die in E. cbn [fst snd] in E. injection E as <- _ <-.
  assert (Hidx : index_ok idx).
  { pose proof (rp_indexes msg Hok) as Ha. rewrite list.Forall_forall in Ha. apply Ha, Hsub. by left. }
  pose proof (pulse_word _ (rp_range msg Hok)) as Hw.
  pose proof (SetIndex_law _ _ _ _ _ _ _ (so_indexes _ _ (hi_stores n c Hi)) Hw Hidx E0) as Hk.
  destruct (hi_stores n c Hi) as [Sr Si Sd Sj Sp Sn].
  exists (mkContents (c_log c) (match e with None => <[(Repl_Pulse msg, ObjID idx) := idx]> (c_indexes c) | Some _ => c_indexes c end)
            (c_known c) (c_drops c) (c_trees c) (c_pulses c) (c_nodes c)).
  assert (Hgrow : forall k, is_Some (c_indexes c !! k) ->
    is_Some ((match e with None => <[(Repl_Pulse msg, ObjID idx) := idx]> (c_indexes c) | Some _ => c_indexes c end) !! k)).
  { intros k Hs. destruct e; [done|]. rewrite lookup_insert. by destruct (decide _). }
  apply call_beside; [done|by split|done| |done|done|].
  - split; try done. intros pn obj _. apply Hgrow.
  - intros t' Et. destruct e; [done|]. injection Et as <-. split; [done|]. split; [done|]. split.
    + intros b Hb. apply Hsub. by right.
    + destruct Hkept as [Hr Hix Hd]. split; [done| |done]. intros b [Hb|Hb]%Hix; cbn [c_indexes].
      * apply elem_of_cons in Hb as [->|Hb]; [right|by left]. by rewrite lookup_insert_eq.
      * right. by apply Hgrow.
Qed.

Lemma exec_drop ok n c i last msg h last' nx :
  heavy_inv n c -> threads n !! i = Some (Repl_drop msg) ->
  exec backuper limit ok (disk n) last (Repl_drop msg) = Ret (h, last', nx) ->
  exists c', call_ok n c i (Repl_drop msg) h c' nx.
Proof.
  intros Hi Ht E. destruct (hi_threads n c Hi i _ Ht) as [Hm Hkept]. pose proof (message_ok n c msg Hi Hm) as Hok.
  open_call E. destruct (rp_drop msg Hok) as [prefix Hd].
  destruct (hi_stores n c Hi) as [Sr Si Sd Sj Sp Sn].
  destruct (drops_Set_law _ _ _ _ Sd Hd) as (ds & e & Es & Hds). rewrite Es in E. cbn [mbind go_bind] in E.
  unfold or_die in E. cbn [fst snd] in E. injection E as <- _ <-.
  assert (Hlaw : exists dt', has_drops ds dt' /\ (forall k d, c_drops c !! k = Some d -> dt' !! k = Some d) /\
    (e = None -> dt' !! (Drop_Pulse (Repl_Drop msg), prefix) = Some (Repl_Drop msg))).
  { destruct (c_drops c !! _) as [d0|] eqn:E0.
    - destruct Hds as [-> Hds]. by exists (c_drops c).
    - destruct e; [by exists (c_drops c)|]. eexists. split; [exact Hds|]. split; [|by rewrite lookup_insert_eq].
      intros k d Hk. rewrite lookup_insert_ne; [done|]. congruence. }
  destruct Hlaw as (dt' & Hds' & Hgrow & Hnew).
  exists (mkContents (c_log c) (c_indexes c) (c_known c) dt' (c_trees c) (c_pulses c) (c_nodes c)).
  apply call_beside; [done|by split|done| |done|done|].
  - split; try done. intros pn p d _. apply Hgrow.
  - intros t' Et. destruct e; [done|]. injection Et as <-. split; [done|]. split; [done|].
    destruct Hkept as [Hr Hix _]. split; [done|done|]. intros _. exists prefix. split; [apply Hd|by apply Hnew].
Qed.

Lemma exec_confirm ok n c i last msg h last' nx :
  heavy_inv n c -> threads n !! i = Some (Repl_confirm msg) ->
  exec backuper limit ok (disk n) last (Repl_confirm msg) = Ret (h, last', nx) ->
  exists c', call_ok n c i (Repl_confirm msg) h c' nx.
Proof.
  intros Hi Ht E. destruct (hi_threads n c Hi i _ Ht) as [Hm Hkept].
  open_call E. unfold AddDropConfirmation in E. cbn [mbind go_bind] in E.
  set (d := Repl_Drop msg) in *. set (r := updateDrop _ _ _ _) in E.
  pose proof (updateDrop_confirmed (h_keeper (disk n)) (Drop_Pulse d) (Drop_JetID d) (Drop_Split d)) as Hd.
  pose proof (updateDrop_sync (h_keeper (disk n)) (Drop_Pulse d) (Drop_JetID d) (Drop_Split d)) as Hs.
  fold r in Hd, Hs. unfold or_die in E. cbn [fst snd] in E. injection E as <- _ <-.
  exists c. destruct (hi_stores n c Hi) as [Sr Si Sd Sj Sp Sn].
  split; [by split|apply extends_refl|apply Hi|lia| | | |].
  - intros t' Et. destruct r.2; [done|]. by injection Et as <-.
  - intros pn id Hdc. apply Hd. by left.
  - intros pn id [Hdc|(_ & -> & ->)]%Hd; [by left|right]. by exists msg.
  - left. unfold topSyncPulse. cbn [set_keeper h_keeper]. by rewrite Hs.
Qed.

Lemma exec_jets ok n c i last msg h last' nx :
  heavy_inv n c -> threads n !! i = Some (Repl_jets msg) ->
  exec backuper limit ok (disk n) last (Repl_jets msg) = Ret (h, last', nx) ->
  exists c', call_ok n c i (Repl_jets msg) h c' nx.
Proof.
  intros Hi Ht E. destruct (hi_threads n c Hi i _ Ht) as [Hm Hkept]. pose proof (message_ok n c msg Hi Hm) as Hok.
  open_call E. destruct (hi_stores n c Hi) as [Sr Si Sd Sj Sp Sn].
  assert (Hw : 0 <= Drop_Pulse (Repl_Drop msg) < 2^32) by (rewrite (rp_pulse msg Hok); apply pulse_word, Hok).
  go_step E. destruct v as [js e]. unfold or_die in E. cbn [fst snd] in E. injection E as <- _ <-.
  assert (Hj : exists tt', has_trees js tt').
  { destruct (update_all (tree_at (c_trees c) (Drop_Pulse (Repl_Drop msg))) true [Drop_JetID (Repl_Drop msg)]) as [t|m] eqn:Eu.
    - destruct (jets_Update_law _ _ _ _ _ _ Sj Hw Eu) as (s' & e' & E' & Hh).
      rewrite E' in E0. injection E0 as -> ->. by eexists.
    - by rewrite (jets_Update_panic _ _ _ _ _ _ Sj Hw Eu) in E0. }
  destruct Hj as [tt' Hj].
  exists (mkContents (c_log c) (c_indexes c) (c_known c) (c_drops c) tt' (c_pulses c) (c_nodes c)).
  apply call_beside; [done|by split|done|by split|done|done|].
  intros t' Et. destruct e; [done|]. by injection Et as <-.
Qed.

Lemma exec_hot ok n c i last pn jetID split h last' nx :
  heavy_inv n c -> exec backuper limit ok (disk n) last (Hot_confirm pn jetID split) = Ret (h, last', nx) ->
  exists c', call_ok n c i (Hot_confirm pn jetID split) h c' nx.
Proof.
  intros Hi E. open_call E. unfold AddHotConfirmation in E. go_step E.
  apply go_bind_ret in E0 as ([jk e] & E0 & [= <-]). unfold or_die in E. cbn [fst snd] in E. injection E as <- _ <-.
  exists c. destruct (hi_stores n c Hi) as [Sr Si Sd Sj Sp Sn].
  split; [by split|apply extends_refl|apply Hi|lia| | | |].
  - intros t' Et. destruct e; [done|]. by injection Et as <-.
  - intros q x Hd. by apply (updateHot_confirmed _ _ _ _ _ _ q x E0).
  - intros q x Hd. left. by apply (updateHot_confirmed _ _ _ _ _ _ q x E0).
  - left. cbn [set_keeper h_keeper]. unfold topSyncPulse. by rewrite (updateHot_sync _ _ _ _ _ _ E0).
Qed.

(** The pulse after a stored one is stored. *)
Lemma Forwards_next (s : Pls) l pn r :
  holds s l -> pn ∈ num <$> l -> Forwards s pn 1 = Ret r ->
  exists j, (num <$> l) !! j = Some pn /\ r = found (l !! S j).
Proof.
  intros Hs (p & -> & Hp)%list_elem_of_fmap E. apply list_elem_of_lookup in Hp as [j Hj].
  rewrite (Forwards_law s l j p 1 Hs Hj : Forwards s (num p) 1 = _) in E. injection E as <-. exists j.
  rewrite Nat.add_1_r. split; [|done]. by rewrite list_lookup_fmap, Hj.
Qed.

Lemma Forwards_stored (s : Pls) l pn p :
  holds s l -> pn ∈ num <$> l -> Forwards s pn 1 = Ret (Good p) -> num p ∈ num <$> l.
Proof.
  intros Hs Hpn E. destruct (Forwards_next s l pn _ Hs Hpn E) as (j & _ & Ep).
  destruct (l !! S j) as [q|] eqn:Eq; [|done]. injection Ep as ->. apply list_elem_of_fmap. exists q.
  split; [done|by eapply list_elem_of_lookup_2].
Qed.

Lemma stored_pulse (s : Pls) l pn : holds s l -> pn ∈ num <$> l -> exists p, ForPulseNumber s pn = Ret (Good p) /\ num p = pn.
Proof.
  intros Hs (p & -> & Hp)%list_elem_of_fmap. apply list_elem_of_lookup in Hp as [j Hj].
  rewrite (ForPulseNumber_law _ l) by done. exists p. split; [|done].
  unfold list_ForPulseNumber. by rewrite (increasing_find l j p (holds_increasing _ _ Hs) Hj).
Qed.

Lemma exec_lock ok n c i last pn h last' nx :
  heavy_inv n c -> threads n !! i = Some (Fin_lock pn) ->
  exec backuper limit ok (disk n) last (Fin_lock pn) = Ret (h, last', nx) ->
  exists c', call_ok n c i (Fin_lock pn) h c' nx.
Proof.
  intros Hi Ht E. pose proof (hi_threads n c Hi i _ Ht) as Hp. cbn [thread_ok] in Hp.
  open_call E. go_step E. destruct v as [jk e].
  apply AddBackupConfirmation_confirmed in E0 as [Hd Htop].
  assert (Hgo : h = set_keeper (disk n) jk /\ forall t', nx = Goto t' -> t' = Fin_update pn).
  { destruct e; injection E as <- _ <-; [done|]. split; [done|]. intros t'. destruct (_ =? _); [by intros [= <-]|done]. }
  destruct Hgo as [-> Hnx]. exists c. destruct (hi_stores n c Hi) as [Sr Si Sd Sj Sp Sn].
  split; [by split|apply extends_refl|apply Hi|lia| | | |].
  - intros t' Et. apply Hnx in Et as ->. by split.
  - intros q id. cbn [set_keeper h_keeper]. apply Hd.
  - intros q id Hdc%Hd. by left.
  - unfold top_moves. cbn [set_keeper h_keeper]. destruct Htop as [->|(Ht' & Hb & Hne & Hjets)]; [by left|right]. rewrite Ht'.
    split; [done|]. split; [|by split].
    destruct (stored_pulse _ _ pn Sp Hp) as (p & Ep & _).
    destruct (prev_pulse_adjacent _ _ _ _ _ Sp Ep Hb) as (j & Hj & Hj').
    apply list_lookup_fmap_Some in Hj as (a & -> & Ha), Hj' as (b & -> & Hb').
    destruct (db_order (c_pulses c) (S j) b j (num a) (holds_increasing _ _ Sp) Hb') as [Ho _];
      [by rewrite list_lookup_fmap, Ha|]. lia.
Qed.

Lemma exec_update ok n c i last pn h last' nx :
  heavy_inv n c -> threads n !! i = Some (Fin_update pn) ->
  exec backuper limit ok (disk n) last (Fin_update pn) = Ret (h, last', nx) ->
  exists c', call_ok n c i (Fin_update pn) h c' nx.
Proof.
  intros Hi Ht E. pose proof (hi_threads n c Hi i _ Ht) as Hp. cbn [thread_ok] in Hp.
  assert (Hw : 0 <= pn < 2^32) by (apply pulse_word; pose proof (pulses_in_range n c pn Hi Hp); lia).
  destruct (hi_stores n c Hi) as [Sr Si Sd Sj Sp Sn].
  destruct (UpdateLastKnownPulse_law _ _ _ pn Si Hw) as (ix & known & Eu & Hix & _).
  open_call E. rewrite Eu in E. injection E as <- _ <-.
  exists (mkContents (c_log c) (c_indexes c) known (c_drops c) (c_trees c) (c_pulses c) (c_nodes c)).
  apply call_beside; [done|by split|done|by split|done|done|]. by intros t' [= <-].
Qed.

Lemma exec_nodes ok n c i last p nodes h last' nx :
  heavy_inv n c -> threads n !! i = Some (Set_nodes p nodes) ->
  exec backuper limit ok (disk n) last (Set_nodes p nodes) = Ret (h, last', nx) ->
  exists c', call_ok n c i (Set_nodes p nodes) h c' nx.
Proof.
  intros Hi Ht E. destruct (hi_threads n c Hi i _ Ht) as (Hp & Hne & Hok).
  assert (Hw : 0 <= num p < 2^32) by (apply pulse_word; lia).
  destruct (hi_stores n c Hi) as [Sr Si Sd Sj Sp Sn].
  destruct (nodes_Set_law _ _ _ _ Sn Hw Hne Hok) as [Hh _].
  open_call E. unfold or_die in E. destruct (nodes_Set _ _ _) as [ns e]. cbn [fst snd] in *. injection E as <- _ <-.
  exists (mkContents (c_log c) (c_indexes c) (c_known c) (c_drops c) (c_trees c) (c_pulses c)
            (match e with None => <[num p := nodes]> (c_nodes c) | Some _ => c_nodes c end)).
  apply call_beside; [done|by split|done|by split|done|done|].
  intros t' Et. destruct e; [done|]. by injection Et as <-.
Qed.

Lemma exec_append ok n c i last p h last' nx :
  heavy_inv n c -> threads n !! i = Some (Set_append p) ->
  exec backuper limit ok (disk n) last (Set_append p) = Ret (h, last', nx) ->
  exists c', call_ok n c i (Set_append p) h c' nx.
Proof.
  intros Hi Ht E. assert (Hp : 0 < num p < MaxTimePulse) by exact (hi_threads n c Hi i _ Ht).
  assert (Hw : 0 <= num p < 2^32) by (apply pulse_word; lia).
  destruct (hi_stores n c Hi) as [Sr Si Sd Sj Sp Sn].
  destruct (Append_law _ _ p Sp Hw) as (s' & Ea & Hs'). open_call E. rewrite Ea in E. cbn [mbind go_bind fst snd] in E.
  injection E as <- _ <-.
  exists (mkContents (c_log c) (c_indexes c) (c_known c) (c_drops c) (c_trees c) (list_Append (c_pulses c) p).1 (c_nodes c)).
  assert (Hl : (list_Append (c_pulses c) p).1 = c_pulses c \/ (list_Append (c_pulses c) p).1 = c_pulses c ++ [p]).
  { destruct (list_Append_cases (c_pulses c) p) as [->| ->]; auto. }
  apply call_stored; [done|by split|done| | |intros pn; cbn [c_log]; lia|].
  - split; try done. intros q _ Hq. cbn. destruct Hl as [->| ->]; [done|]. rewrite fmap_app. apply elem_of_app. by left.
  - cbn. destruct Hl as [->| ->]; [apply Hi|]. apply list.Forall_app. split; [apply Hi|by apply list.Forall_singleton].
  - intros t' Et. destruct (list_Append _ _).2; [done|]. by injection Et as <-.
Qed.

Lemma exec_call_ok ok n c i t last h last' nx :
  heavy_inv n c -> threads n !! i = Some t ->
  exec backuper limit ok (disk n) last t = Ret (h, last', nx) ->
  exists c', call_ok n c i t h c' nx.
Proof.
  intros Hi Ht E. pose proof (hi_threads n c Hi i t Ht) as Hok. pose proof (so_pulses _ _ (hi_stores n c Hi)) as Sp.
  destruct t; [by eapply exec_records|..|by eapply exec_nodes|by eapply exec_append|].
  2: by eapply exec_indexes.
  2: by eapply exec_drop.
  2: by eapply exec_confirm.
  2: by eapply exec_jets.
  2: by eapply exec_hot.
  6: by eapply exec_lock.
  6: by eapply exec_update.
  - exists c. open_call E. go_step E. destruct Hok as [Hm Hk].
    assert (Hg : h = disk n /\ forall t', nx = Goto t' -> t' = Repl_indexes msg (Repl_Indexes msg)).
    { destruct v; [|destruct (decide _)]; injection E as <- _ <-; (split; [done|]); by intros t' [= <-]. }
    destruct Hg as [-> Hg]. apply call_unchanged; [done|]. by intros t' ->%Hg.
  - exists c. open_call E. go_step E. injection E as <- _ <-. apply call_unchanged; [done|].
    destruct v; [by intros t' [= <-]|done].
  - exists c. open_call E. injection E as <- _ <-. apply call_unchanged; [done|]. intros t' [= <-]. split; [done|apply Hi].
  - exists c. open_call E. go_step E. injection E as <- _ <-. apply call_unchanged; [done|]. intros t' Et.
    destruct v as [q|e]; [|done]. destruct (Z.eqb_spec (num q) pn) as [<-|]; [|done]. injection Et as <-.
    split; [done|]. by eapply Forwards_stored.
  - open_call E. unfold MakeBackup in E. cbn [thread_ok] in Hok.
    assert (Hb : exists b, h = set_backups (disk n) b /\ forall t', nx = Goto t' -> t' = Fin_lock pn).
    { destruct backuper as [en| |].
      - destruct (_ <=? _); [injection E as <- _ <-; exists (h_backups (disk n)); by destruct (disk n)|].
        destruct en; cbn [negb] in E.
        + destruct ok; injection E as <- _ <-; (eexists; split; [reflexivity|]); by intros t' [= <-].
        + injection E as <- _ <-. exists (h_backups (disk n)). split; [by destruct (disk n)|]. by intros t' [= <-].
      - injection E as <- _ <-. exists (h_backups (disk n)). split; [by destruct (disk n)|]. by intros t' [= <-].
      - injection E as <- _ <-. exists (h_backups (disk n)). split; [by destruct (disk n)|]. by intros t' [= <-]. }
    destruct Hb as (b & -> & Hg). exists c. destruct (hi_stores n c Hi) as [Sr Si Sd Sj Sp' Sn].
    apply call_beside; [done|by split|done|apply extends_refl|done|done|]. by intros t' ->%Hg.
  - exists c. open_call E. go_step E. injection E as <- _ <-. apply call_unchanged; [done|]. intros t' Et.
    destruct v as [q|e]; [by injection Et as <-|]. by destruct (decide _).
  - exists c. open_call E. go_step E. injection E as <- _ <-. by apply call_unchanged.
Qed.

(** ** The rollback at start *)
Record rolled (n : node) (c : contents) (x : database) (h : disk_of) (c' : contents) : Prop := {
  ro_stores : stores h c';
  ro_extends : extends (fun pn => pn <= top n) c c';
  ro_pulses : Forall (fun p => 0 < num p < MaxTimePulse) (c_pulses c');
  ro_count pn : (length (of_pulse (c_log c') pn) <= length (of_pulse (c_log c) pn))%nat;
  ro_top : topSyncPulse (h_keeper h) = top n;
  ro_less pn id : drop_confirmed (h_keeper h) pn id -> drop_confirmed (h_keeper (disk n)) pn id;
  ro_keeps pn id : drop_confirmed (h_keeper (disk n)) pn id -> pn <= top n -> drop_confirmed (h_keeper h) pn id;
  ro_cut pn id : x = Truncate_keeper -> drop_confirmed (h_keeper h) pn id -> pn <= top n;
}.

Lemma rolled_beside n c x h c' :
  heavy_inv n c -> stores h c' -> h_keeper h = h_keeper (disk n) -> x <> Truncate_keeper ->
  extends (fun pn => pn <= top n) c c' -> Forall (fun p => 0 < num p < MaxTimePulse) (c_pulses c') ->
  (forall pn, (length (of_pulse (c_log c') pn) <= length (of_pulse (c_log c) pn))%nat) -> rolled n c x h c'.
Proof. intros Hi Hs Hk Hx He Hp Hn. split; try done; by rewrite Hk. Qed.

Lemma truncate_head_rolled n c x h e :
  heavy_inv n c -> truncate_head (disk n) x = Ret (h, e) -> exists c', rolled n c x h c'.
Proof.
  intros Hi E. pose proof (pulses_in_range n c _ Hi (hi_top n c Hi)) as Ht.
  destruct (hi_stores n c Hi) as [Sr Si Sd Sj Sp Sn].
  assert (Hfrom : 0 < nextPulse (h_keeper (disk n)) <= MaxTimePulse) by (unfold nextPulse; lia).
  pose proof (pulse_word _ Hfrom) as Hw.
  assert (Hbelow : forall pn, pn <= top n -> pn < nextPulse (h_keeper (disk n))) by (unfold nextPulse; lia).
  destruct x; cbn [truncate_head] in E.
  - destruct (drops_TruncateHead_law _ _ _ Sd Hw) as (s' & Es & Hs). rewrite Es in E. injection E as <- _.
    exists (mkContents (c_log c) (c_indexes c) (c_known c) (filter (fun kv => kv.1.1 < nextPulse (h_keeper (disk n))) (c_drops c))
              (c_trees c) (c_pulses c) (c_nodes c)).
    apply rolled_beside; [done|by split|done|done| |apply Hi|by intros pn]. split; try done.
    intros pn prefix d Hpn Hd. apply map_lookup_filter_Some. split; [done|by apply Hbelow].
  - destruct (records_TruncateHead_law _ _ _ Sr Hfrom) as (s' & Es & Hs). rewrite Es in E. injection E as <- _.
    exists (mkContents (log_TruncateHead (c_log c) (nextPulse (h_keeper (disk n)))) (c_indexes c) (c_known c) (c_drops c)
              (c_trees c) (c_pulses c) (c_nodes c)).
    apply rolled_beside; [done|by split|done|done| |apply Hi|].
    + split; try done. intros r Hpn Hr. apply list_elem_of_filter. split; [by apply Hbelow|done].
    + intros pn. cbn [c_log]. rewrite of_pulse_truncate. destruct (decide _); [done|]. cbn. lia.
  - destruct (index_TruncateHead_law _ _ _ _ Si Hw) as (s' & known' & Es & Hs & _). rewrite Es in E. injection E as <- _.
    exists (mkContents (c_log c) (filter (fun kv => kv.1.1 < nextPulse (h_keeper (disk n))) (c_indexes c)) known' (c_drops c)
              (c_trees c) (c_pulses c) (c_nodes c)).
    apply rolled_beside; [done|by split|done|done| |apply Hi|by intros pn]. split; try done.
    intros pn obj Hpn [b Hb]. exists b. apply map_lookup_filter_Some. split; [done|by apply Hbelow].
  - assert (Hwt : 0 <= top n < 2^32) by (apply pulse_word; lia).
    destruct (UpdateLastKnownPulse_law _ _ _ _ Si Hwt) as (s' & known' & Es & Hs & _). rewrite Es in E. injection E as <- _.
    exists (mkContents (c_log c) (c_indexes c) known' (c_drops c) (c_trees c) (c_pulses c) (c_nodes c)).
    apply rolled_beside; [done|by split|done|done|by split|apply Hi|by intros pn].
  - destruct (jets_TruncateHead_law _ _ _ Sj Hw) as (s' & Es & Hs). rewrite Es in E. injection E as <- _.
    exists (mkContents (c_log c) (c_indexes c) (c_known c) (c_drops c)
              (filter (fun kv => kv.1 < nextPulse (h_keeper (disk n))) (c_trees c)) (c_pulses c) (c_nodes c)).
    apply rolled_beside; [done|by split|done|done|by split|apply Hi|by intros pn].
  - injection E as <- _.
    exists (mkContents (c_log c) (c_indexes c) (c_known c) (c_drops c) (c_trees c)
              (filter (fun p => num p < nextPulse (h_keeper (disk n))) (c_pulses c)) (c_nodes c)).
    apply rolled_beside; [done| |done|done| | |by intros pn].
    + split; try done. by apply TruncateHead_law.
    + split; try done. intros pn Hpn (p & -> & Hp)%list_elem_of_fmap. apply list_elem_of_fmap. exists p. split; [done|].
      apply list_elem_of_filter. split; [by apply Hbelow|done].
    + pose proof (hi_pulses n c Hi) as Ha. rewrite !list.Forall_forall in *. intros p [_ Hp]%list_elem_of_filter. by apply Ha.
  - injection E as <- _. exists c. pose proof (TruncateHead_confirmed (h_keeper (disk n))) as Hc.
    split; try (apply Hi || apply extends_refl || lia || by split); cbn [set_keeper h_keeper].
    + unfold topSyncPulse. by rewrite TruncateHead_sync.
    + intros pn id Hd. by apply Hc in Hd as [? _].
    + intros pn id Hd Hpn. by apply Hc.
    + intros pn id _ Hd. by apply Hc in Hd as [_ ?].
  - destruct (nodes_TruncateHead_law _ _ _ Sn Hw) as (s' & Es & Hs). rewrite Es in E. injection E as <- _.
    exists (mkContents (c_log c) (c_indexes c) (c_known c) (c_drops c) (c_trees c) (c_pulses c)
              (filter (fun kv => kv.1 < nextPulse (h_keeper (disk n))) (c_nodes c))).
    apply rolled_beside; [done|by split|done|done|by split|apply Hi|by intros pn].
  - injection E as <- _. exists c. apply rolled_beside; [done|by split|done|done|apply extends_refl|apply Hi|by intros pn].
Qed.

Lemma boot_inv n c x todo h e c' :
  heavy_inv n c -> phase_of n = Booting (x :: todo) -> rolled n c x h c' ->
  heavy_inv (match e : option error with
             | None => mkHeavyNode h (Booting todo) 0 ∅ (accepted n) (synced n)
             | Some _ => crash n h
             end) c'.
Proof.
  intros Hi Hph Hr.
  assert (Es : synced_after n h = synced n) by (unfold synced_after; by rewrite decide_True by apply Hr).
  assert (Hmsg : forall pn id, drop_confirmed (h_keeper h) pn id -> pn <= top n -> message_for c' (accepted n) pn id).
  { intros pn id Hd Hpn. apply (message_for_extends (fun pn => pn <= top n) c c' (accepted n)); [apply Hr|done|apply Hi|done|].
    apply (hi_confirmed n c Hi); [by apply (ro_less _ _ _ _ _ Hr)|by right]. }
  assert (Hcount : forall pn, (length (of_pulse (c_log c') pn) + length (of_pulse (pending ∅) pn) <=
    length (of_pulse (all_records (accepted n)) pn))%nat).
  { intros pn. pose proof (hi_count n c Hi pn). pose proof (ro_count _ _ _ _ _ Hr pn).
    unfold pending at 1. rewrite lookup_empty. cbn [of_pulse filter list_filter length]. lia. }
  assert (Hsync : forall pn jets, (pn, jets) ∈ synced n -> pn <= topSyncPulse (h_keeper h) /\ pn ∈ num <$> c_pulses c' /\ jets <> [] /\
    forall id, id ∈ jets -> drop_confirmed (h_keeper h) pn id).
  { intros pn jets (Hle & Hp & Hne & Hd)%(hi_synced n c Hi). rewrite (ro_top _ _ _ _ _ Hr). split; [done|].
    split; [by apply (ex_pulses _ _ _ (ro_extends _ _ _ _ _ Hr))|]. split; [done|].
    intros id Hid. apply (ro_keeps _ _ _ _ _ Hr); [by apply Hd|done]. }
  assert (Htop : topSyncPulse (h_keeper h) ∈ num <$> c_pulses c').
  { rewrite (ro_top _ _ _ _ _ Hr). apply (ex_pulses _ _ _ (ro_extends _ _ _ _ _ Hr)); [done|apply Hi]. }
  destruct e as [e|].
  - unfold crash. rewrite Es. split; cbn [disk phase_of threads accepted synced]; try exact (hi_accepted n c Hi);
      try exact (hi_fit n c Hi); try exact (ro_stores _ _ _ _ _ Hr); try exact (ro_pulses _ _ _ _ _ Hr); try done.
    + intros pn id Hd [?|Hp]; [done|]. apply Hmsg; [done|]. by rewrite <- (ro_top _ _ _ _ _ Hr).
    + intros todo' [= <-] Hout. destruct Hout. apply keeper_in_dbs.
  - split; cbn [disk phase_of threads accepted synced]; try exact (hi_accepted n c Hi);
      try exact (hi_fit n c Hi); try exact (ro_stores _ _ _ _ _ Hr); try exact (ro_pulses _ _ _ _ _ Hr); try done.
    + intros pn id Hd [?|Hp]; [done|]. apply Hmsg; [done|]. by rewrite <- (ro_top _ _ _ _ _ Hr).
    + intros todo' [= <-] Hout pn id Hd. rewrite (ro_top _ _ _ _ _ Hr). destruct (decide (x = Truncate_keeper)) as [->|Hx].
      * by apply (ro_cut _ _ _ _ _ Hr pn id).
      * apply (hi_cut n c Hi (x :: todo) Hph) with id; [|by apply (ro_less _ _ _ _ _ Hr)].
        by intros [?|?]%elem_of_cons.
Qed.

Local Ltac same_as Hi :=
  cbn [disk phase_of threads accepted synced];
  try solve [done | exact (hi_stores _ _ Hi) | exact (hi_accepted _ _ Hi) | exact (hi_pulses _ _ Hi)
            | exact (hi_top _ _ Hi) | exact (hi_fit _ _ Hi) | exact (hi_synced _ _ Hi)
            | exact (hi_confirmed _ _ Hi) | intros ? ? ? _; apply (hi_confirmed _ _ Hi); [assumption|by left]].

Lemma step_inv n n' c : heavy_inv n c -> heavy_step n n' -> exists c', heavy_inv n' c'.
Proof.
  intros Hi Hstep.
  destruct Hstep as [msg Hr Hfree Hok Hfit|i pn jetID split Hr Hge Hfree|p nodes Hr Hfree Hp Hne Hnodes
    |ok i t h last nx Hr Ht Hmay E| |x todo h e Hph E|Hph].
  - exists c. split; same_as Hi.
    + apply list.Forall_app. split; [apply Hi|by apply list.Forall_singleton].
    + intros pn. pose proof (hi_count n c Hi pn) as Hn. rewrite of_pulse_accepted. unfold pending in *.
      rewrite lookup_insert_eq. cbn [pend]. lia.
    + intros i t. rewrite lookup_insert. destruct (decide _) as [<-|].
      * intros [= <-]. split; [done|]. apply elem_of_app. right. by apply list_elem_of_singleton.
      * intros Ht%(hi_threads n c Hi). apply (thread_ok_extends c c (accepted n)); [apply extends_refl| |apply Hi|done].
        intros m Hm. apply elem_of_app. by left.
    + intros pn id Hd Hor. apply (message_for_extends (fun _ => True) c c (accepted n)); [apply extends_refl| |apply Hi|done|].
      * intros m Hm. apply elem_of_app. by left.
      * apply (hi_confirmed n c Hi); [done|by left].
  - exists c. unfold spawn. split; same_as Hi; try (intros; congruence).
    + intros q. unfold pending. rewrite lookup_insert_ne by (unfold replicator; lia). apply Hi.
    + intros k t. rewrite lookup_insert. destruct (decide _) as [<-|]; [by intros [= <-]|apply Hi].
  - exists c. unfold spawn. split; same_as Hi; try (intros; congruence).
    + intros q. unfold pending. rewrite lookup_insert_ne by done. apply Hi.
    + intros k t. rewrite lookup_insert. destruct (decide _) as [<-|]; [by intros [= <-]|apply Hi].
  - destruct (exec_call_ok _ _ _ _ _ _ _ _ _ Hi Ht E) as [c' Hc]. exists c'. by apply (after_inv n c i t).
  - exists c. by apply crash_inv.
  - destruct (truncate_head_rolled n c x h e Hi E) as [c' Hc]. exists c'. by apply (boot_inv n c x todo).
  - exists c. split; same_as Hi.
    + intros pn. pose proof (hi_idle n c Hi) as Hid. rewrite Hph in Hid. rewrite <- Hid by done. apply Hi.
    + intros pn id Hd _. apply (hi_confirmed n c Hi); [done|]. right.
      apply (hi_cut n c Hi [] Hph) with id; [by intros ?%elem_of_nil|done].
Qed.

(** ** The theorems *)

(** C4: A finalized pulse is there at every moment, whatever the goroutines do and
    wherever the node stops, in the middle of the rollback at start too: the
    pulse is stored, and for each of the jets it had when it was finalized
    the drop is that of a message the node was sent, every record of that
    message is found, and so is an index of every object it brought one for. *)
Theorem heavy_keeps_finalized n0 c0 n pn jets id :
  heavy_inv n0 c0 -> reach heavy_step n0 n -> (pn, jets) ∈ synced n -> id ∈ jets ->
  (exists p, ForPulseNumber (h_pulses (disk n)) pn = Ret (Good p)) /\
  exists msg, msg ∈ accepted n /\ Drop_Pulse (Repl_Drop msg) = pn /\ Drop_JetID (Repl_Drop msg) = id /\
    drops_ForPulse (h_drops (disk n)) id pn = Ret (Good (Repl_Drop msg)) /\
    (forall r, r ∈ Repl_Records msg -> exists r',
       records_ForID (h_records (disk n)) (Material_ID r) = Ret (Good r') /\ Material_ID r' = Material_ID r) /\
    (forall b, b ∈ Repl_Indexes msg -> exists b',
       index_ForID (h_indexes (disk n)) pn (ObjID b) = Ret (Good b') /\ ObjID b' = ObjID b).
Proof.
  intros Hi0 Hreach Hin Hid.
  assert (Hinv : exists c, heavy_inv n c).
  { refine (reach_invariant heavy_step (fun m => exists c, heavy_inv m c) n0 n _ _ Hreach); [by exists c0|].
    intros a b [c Hi] Hstep. by apply (step_inv a b c). }
  destruct Hinv as [c Hi]. destruct (hi_synced n c Hi pn jets Hin) as (Hle & Hp & _ & Hd).
  destruct (hi_stores n c Hi) as [Sr Si Sd Sj Sp Sn]. split.
  { destruct (stored_pulse _ _ pn Sp Hp) as (p & Ep & _). by exists p. }
  destruct (hi_confirmed n c Hi pn id (Hd id Hid) ltac:(by right)) as (msg & Hm & Hpn & Hjet & [Hkr Hki Hkd]).
  pose proof (message_ok n c msg Hi Hm) as Hok.
  assert (Hw : 0 <= pn < 2^32) by (rewrite <- Hpn, (rp_pulse msg Hok); apply pulse_word, Hok).
  exists msg. do 3 (split; [done|]). split_and!.
  - destruct (Hkd eq_refl) as (prefix & Hj & Hdrop). rewrite Hjet, Hpn in *.
    by rewrite (drops_ForPulse_law _ _ _ _ _ Sd Hj Hw), Hdrop.
  - intros r Hr. destruct (Hkr r Hr) as [Hl _]. pose proof (keeps_ids _ _ Sr) as Hids. rewrite list.Forall_forall in Hids.
    destruct (ForID_law _ _ (Material_ID r) Sr (Hids r Hl)) as [(r' & Er & _ & Eid)|[_ Hout]]; [by exists r'|].
    destruct Hout. apply list_elem_of_fmap. by exists r.
  - intros b Hb. destruct (Hki b Hb) as [[]%elem_of_nil|[b' Hb']]. rewrite <- (rp_pulse msg Hok), Hpn in Hb'.
    destruct (has_indexes_ok _ _ _ _ _ _ Si Hb') as (_ & Ho & Eo).
    destruct (index_ForID_law _ _ _ _ _ Si Hw Ho) as (r & Er & Hr). rewrite Hb' in Hr. subst r. by exists b'.
Qed.

(** *** The node with all its storages is a node of HeavyNode.v *)
Definition keeper_node (n : node) : Pls * keeper := (h_pulses (disk n), h_keeper (disk n)).

Lemma exec_keeper_node ok n c i t last h last' nx :
  heavy_inv n c -> threads n !! i = Some t ->
  exec backuper limit ok (disk n) last t = Ret (h, last', nx) ->
  (h_pulses h, h_keeper h) = keeper_node n \/ node_step (keeper_node n) (h_pulses h, h_keeper h).
Proof.
  intros Hi Ht E. unfold keeper_node.
  destruct t; open_call E; unfold or_die in E.
  all: try (left; repeat (go_step E || case_match); simplify_eq; done).
  - right. go_step E. destruct v as [jk e]. injection E as <- _ _. by eapply node_drop.
  - right. go_step E. destruct v as [jk e]. injection E as <- _ _. by eapply node_hot.
  - left. unfold MakeBackup, prepareBackup in E. destruct backuper as [en| |]; [|by simplify_eq..].
    destruct (_ <=? _); [by simplify_eq|]. destruct en, ok; cbn in E; by simplify_eq.
  - right. go_step E. destruct v as [jk e].
    destruct (stored_pulse _ _ pn (so_pulses _ _ (hi_stores n c Hi)) (hi_threads n c Hi i _ Ht)) as (p & Ep & _).
    destruct e; injection E as <- _ _; by eapply node_backup.
  - right. go_step E. destruct v as [s e]. injection E as <- _ _. cbn [set_pulses h_pulses h_keeper].
    eapply node_append; [|done]. pose proof (hi_threads n c Hi i _ Ht) as Hp. cbn [thread_ok] in Hp. apply pulse_word. lia.
Qed.

Lemma boot_keeper_node n x h e :
  truncate_head (disk n) x = Ret (h, e) ->
  topSyncPulse (h_keeper h) = top n /\
  ((h_pulses h, h_keeper h) = keeper_node n \/ node_step (keeper_node n) (h_pulses h, h_keeper h)).
Proof.
  intros E. unfold keeper_node. destruct x; cbn [truncate_head] in E.
  6: { injection E as <- _. split; [done|right]. apply node_rollback_pulses. }
  6: { injection E as <- _. cbn [set_keeper h_pulses h_keeper]. split.
       - unfold topSyncPulse. by rewrite TruncateHead_sync.
       - right. eapply node_rollback_keeper, surjective_pairing. }
  all: repeat (go_step E || case_match); simplify_eq; (split; [done|by left]).
Qed.

(** The trace of HeavyNode.v grows as the record of finalized pulses does. *)
Lemma run_synced n0 n h :
  run (keeper_node n0) (synced n).*1 (keeper_node n) ->
  (h_pulses h, h_keeper h) = keeper_node n \/ node_step (keeper_node n) (h_pulses h, h_keeper h) ->
  run (keeper_node n0) (synced_after n h).*1 (h_pulses h, h_keeper h).
Proof.
  intros Hr Hs. unfold synced_after. destruct Hs as [Eq|Hs].
  - assert (Ek : h_keeper h = h_keeper (disk n)) by (unfold keeper_node in Eq; congruence).
    rewrite decide_True by (by rewrite Ek). by rewrite Eq.
  - apply (run_next _ _ _ _ Hr) in Hs. cbn [keeper_node snd] in Hs.
    destruct (decide _); [done|]. by rewrite fmap_app.
Qed.

Lemma step_run n0 n n' c :
  heavy_inv n c -> heavy_step n n' -> run (keeper_node n0) (synced n).*1 (keeper_node n) ->
  run (keeper_node n0) (synced n').*1 (keeper_node n').
Proof.
  intros Hi Hstep Hrun.
  assert (Hsame : synced_after n (disk n) = synced n) by (unfold synced_after; by rewrite decide_True).
  destruct Hstep as [msg Hr Hfree Hok Hfit|i pn jetID split Hr Hge Hfree|p nodes Hr Hfree Hp Hne Hnodes
    |ok i t h last nx Hr Ht Hmay E| |x todo h e Hph E|Hph]; try done.
  - pose proof (run_synced n0 n h Hrun (exec_keeper_node _ _ _ _ _ _ _ _ _ Hi Ht E)) as Hn. by destruct nx.
  - unfold crash. by rewrite Hsame.
  - destruct (boot_keeper_node n x h e E) as [Htop Hs]. pose proof (run_synced n0 n h Hrun Hs) as Hn.
    assert (Hkeep : synced_after n h = synced n) by (unfold synced_after; by rewrite decide_True).
    destruct e; [done|]. by rewrite Hkeep in Hn.
Qed.

(** C6: The machine of all storages and goroutines refines the node of pulses and
    confirmations of HeavyNode.v: what it finalizes, in order, is a trace of
    that node, whatever happens to the rest. *)
Theorem heavy_refines_node n0 c0 n :
  heavy_inv n0 c0 -> synced n0 = [] -> reach heavy_step n0 n ->
  run (keeper_node n0) (synced n).*1 (keeper_node n).
Proof.
  intros Hi0 Hs Hreach.
  destruct (reach_invariant heavy_step (fun m => (exists c, heavy_inv m c) /\ run (keeper_node n0) (synced m).*1 (keeper_node m))
    n0 n) as [_ Hrun]; [|  |exact Hreach|exact Hrun].
  - split; [by exists c0|]. rewrite Hs. apply run_start.
  - intros a b [[c Hi] Hrun] Hstep. split; [by apply (step_inv a b c)|by apply (step_run n0 a b c)].
Qed.
End Durability.

(** ** A run: the pulse of HeavySamples.v is finalized, then the node stops *)
Section Samples.
#[local] Existing Instances sampleScheme recordCodec indexCodec dropCodec treeCodec nodesCodec.

Definition emptyContents : contents := mkContents [] ∅ ∅ ∅ ∅ [samplePulse MinTimePulse] ∅.

Lemma genesis_holds : db_holds genesisPulses [samplePulse MinTimePulse].
Proof.
  apply (db_holds_insert ∅ [] (samplePulse MinTimePulse)); [apply db_holds_nil| |by vm_compute|done].
  intros i j p q Hij Hi Hj. apply lookup_lt_Some in Hj. cbn in Hj. lia.
Qed.

Lemma emptyHeavy_inv : heavy_inv emptyHeavy emptyContents.
Proof.
  split; cbn [emptyHeavy disk phase_of threads accepted synced emptyStorages h_keeper]; try done.
  - split; [apply badger_keeps_nil|apply badger_has_nil|apply badger_has_drops_nil|apply badger_has_trees_nil
           |apply genesis_holds|apply badger_has_nodes_nil].
  - apply list.Forall_singleton. by vm_compute.
  - by apply list_elem_of_singleton.
  - intros pn id (j & Hj & _). by apply elem_of_nil in Hj.
  - intros todo [= <-] Hout. destruct Hout. apply keeper_in_dbs.
  - by intros pn jets ?%elem_of_nil.
Qed.

Lemma heavy_keeps_finalized_witness :
  match played finalized_pulse with
  | Some n =>
      exists msg, msg ∈ accepted n /\
        badger_drop_ForPulse (h_drops (disk n)) ZeroJetID heavyPulse = Ret (Good (Repl_Drop msg))
  | None => False
  end.
Proof.
  pose proof finalized_run as Es. destruct (played finalized_pulse) as [n|] eqn:E; [|discriminate Es].
  injection Es as Es.
  destruct (heavy_keeps_finalized (BackupMakerDefault false) 5 emptyHeavy emptyContents n heavyPulse [ZeroJetID] ZeroJetID)
    as [_ (msg & Hm & _ & _ & Hd & _)].
  - apply emptyHeavy_inv.
  - exact (play_reach _ _ _ finalized_pulse n E finalized_ok).
  - rewrite Es. by apply list_elem_of_singleton.
  - by apply list_elem_of_singleton.
  - exists msg. split; [exact Hm|exact Hd].
Defined.

Lemma heavy_refines_node_witness :
  match played finalized_pulse with
  | Some n => run (keeper_node emptyHeavy) [heavyPulse] (keeper_node n)
  | None => False
  end.
Proof.
  pose proof finalized_run as Es. destruct (played finalized_pulse) as [n|] eqn:E; [|discriminate Es].
  injection Es as Es. change [heavyPulse] with ([(heavyPulse, [ZeroJetID])].*1). rewrite <- Es. apply (heavy_refines_node (BackupMakerDefault false) 5 emptyHeavy emptyContents n); [apply emptyHeavy_inv|done|].
  exact (play_reach _ _ _ finalized_pulse n E finalized_ok).
Defined.
End Samples.
