(* ===== verification/HeavyFinalization.v ===== *)
(** * No pulse is left behind
    (src/ledger/heavy/executor/finalize_pulse.go)

    Replicator and handlers all try to finalize the pulse they confirmed, and
    most find that it is not yet its turn or that somebody else is at it.
    Still, whenever the pulse after the top sync pulse has all its
    confirmations, and none came before it was stored, a goroutine is on its
    way to finalize it. *)
From S2P Require Import Prelude Pulse PulseStore Reference Jet JetKeeper HeavyNode JetSplitter HotData Records Store RecordStorage BadgerRecords IndexStorage BadgerIndexes DropStorage JetStorage NodeHistory HeavyReplicator HeavySamples HeavyDurability.

(** ** Confirmations touch one pulse *)
Lemma db_jets_set jk p js q : q <> p -> db_jets (set jk p js) !! q = db_jets jk !! q.
Proof. intros Hq. unfold set. cbn. by rewrite lookup_insert_ne. Qed.

Lemma updateDrop_others jk p id split q :
  q <> p -> db_jets (updateDrop jk p id split).1 !! q = db_jets jk !! q.
Proof.
  intros Hq. unfold updateDrop. destruct (getForJet jk p id) as [idx jets].
  destruct (addDrop _ _ _) as [j [e|]]; [done|]. by apply db_jets_set.
Qed.
Lemma updateHot_others jk p id split jk' e q :
  updateHot jk p id split = Ret (jk', e) -> q <> p -> db_jets jk' !! q = db_jets jk !! q.
Proof.
  unfold updateHot. intros E Hq. go_step E. destruct (getForJet jk p v) as [idx jets].
  destruct (addHot _ _ _ _) as [j [er|]]; injection E as <- _; [done|]. by apply db_jets_set.
Qed.

(** What the question whether a pulse is confirmed depends on. *)
Lemma HasAll_depends Bw All Bw' All' jk jk' q :
  topSyncPulse jk < q -> topSyncPulse jk' = topSyncPulse jk ->
  (forall pn, pn = q \/ pn = topSyncPulse jk -> db_jets jk' !! pn = db_jets jk !! pn) ->
  Bw' q = Bw q -> All' q = All q ->
  HasAllJetConfirms Bw' All' jk' q = HasAllJetConfirms Bw All jk q.
Proof.
  intros Hq Ht Hj Hb Ha. unfold HasAllJetConfirms. rewrite Ht.
  destruct (Z.leb_spec q (topSyncPulse jk)); [lia|]. unfold checkPulseConsistency.
  assert (E : getTopSyncJets jk' = getTopSyncJets jk).
  { unfold getTopSyncJets, get. rewrite Ht, (Hj (topSyncPulse jk)); [done|by right]. }
  assert (Eall : all jk' q = all jk q) by (unfold all; rewrite (Hj q); [done|by left]).
  by rewrite Hb, Ha, Ht, E, Eall.
Qed.

Lemma HasAll_true Bw All jk q :
  topSyncPulse jk < q -> HasAllJetConfirms Bw All jk q = Ret true ->
  Bw q = Good (topSyncPulse jk) /\ all jk q <> [].
Proof.
  intros Hq. unfold HasAllJetConfirms. destruct (Z.leb_spec q (topSyncPulse jk)); [lia|].
  intros (Hb & _ & _ & Hne & _)%checkPulseConsistency_true. done.
Qed.

Section Finalization.
Context `{LawfulRecords Rcs} `{LawfulIndexes Ixs} `{LawfulDrops Drs} `{LawfulJets Jts}.
Context `{TruncatableStorage Pls} `{LawfulNodes Nds} `{Scheme} (backuper : BackupMaker) (limit : Z).
Abbreviation disk_of := (storages Rcs Ixs Drs Jts Pls Nds).
Abbreviation node := (heavyNode Rcs Ixs Drs Jts Pls Nds).
Abbreviation heavy_step := (heavy_step backuper limit).
Abbreviation top n := (topSyncPulse (h_keeper (disk n))).

Definition stored (h : disk_of) (pn : Z) : Prop := exists p, ForPulseNumber (h_pulses h) pn = Ret (Good p).
Definition confirmed (h : disk_of) (pn : Z) : Prop :=
  HasAllJetConfirms (prev_pulse (h_pulses h)) (jet_leaves h) (h_keeper h) pn = Ret true.

(** The pulse a goroutine is about to confirm. *)
Definition confirms (t : pc) : option Z :=
  match t with
  | Repl_confirm msg => Some (Drop_Pulse (Repl_Drop msg))
  | Hot_confirm pn _ _ => Some pn
  | _ => None
  end.

(** The pulse that is not to be left behind. *)
Context (target : Z).

(** A step in which the node confirms [target] only if it has the pulse, and does
    not change the infos of the top sync pulse.  Nothing is asked of the
    confirmations of other pulses. *)
Definition in_time (n n' : node) : Prop :=
  phase_of n' = Running -> forall i t pn, threads n !! i = Some t -> threads n' !! i <> Some t -> confirms t = Some pn ->
  (pn = target -> stored (disk n) target) /\
  (pn = top n -> db_jets (h_keeper (disk n')) !! pn = db_jets (h_keeper (disk n)) !! pn).
Definition timely_step (n n' : node) : Prop := heavy_step n n' /\ in_time n n'.

(** A goroutine on its way to finalize the pulse [pn'] after [top]. *)
Definition will_finalize (top pn' : Z) (t : pc) : Prop :=
  match t with
  | Repl_jets msg => Drop_Pulse (Repl_Drop msg) = pn'
  | Fin_confirms pn | Fin_top pn | Fin_backup pn | Fin_lock pn => pn = pn'
  | Fin_next pn seen => pn = pn' /\ seen = top
  | Fin_update _ | Fin_forward _ => True
  | _ => False
  end.

(** What a goroutine knows about the top sync pulse. *)
Definition up_to_date (h : disk_of) (last : Z) (t : pc) : Prop :=
  let top := topSyncPulse (h_keeper h) in
  match t with
  | Fin_next pn seen => seen <= top
  | Fin_backup pn => pn <= top \/ prev_pulse (h_pulses h) pn = Good top
  | Fin_lock pn =>
      (pn <= top \/ prev_pulse (h_pulses h) pn = Good top) /\
      match backuper with BackupMakerDefault _ => pn <= last | _ => True end
  | Fin_update pn | Fin_forward pn => pn = top
  | _ => True
  end.

Record final_inv (n : node) : Prop := {
  fi_infos : phase_of n = Running -> top n < target -> all (h_keeper (disk n)) target <> [] -> stored (disk n) target;
  fi_cut todo : phase_of n = Booting todo -> Truncate_keeper ∉ todo -> top n < target ->
    all (h_keeper (disk n)) target = [];
  fi_known i t : threads n !! i = Some t -> up_to_date (disk n) (lastBackupedPulse n) t;
  fi_one i j t u : threads n !! i = Some t -> threads n !! j = Some u -> holds_lock t -> holds_lock u -> i = j;
  fi_last Enabled : backuper = BackupMakerDefault Enabled -> phase_of n = Running ->
    top n <= lastBackupedPulse n /\
    (lastBackupedPulse n <= top n \/ exists i, threads n !! i = Some (Fin_lock (lastBackupedPulse n)));
  fi_will : phase_of n = Running -> top n < target -> stored (disk n) target -> confirmed (disk n) target ->
    exists i t, threads n !! i = Some t /\ will_finalize (top n) target t;
}.

(** ** What a call does to the pulses, the jets and the keeper *)
Lemma stored_iff h c pn : stores h c -> stored h pn <-> pn ∈ num <$> c_pulses c.
Proof.
  intros Hs. pose proof (so_pulses h c Hs) as Sp. split.
  - intros [p Ep]. rewrite (ForPulseNumber_law _ _ _ Sp) in Ep. unfold list_ForPulseNumber in Ep.
    destruct (list_find _ _) as [[i q]|] eqn:E; [|done]. apply list_find_Some in E as (Hi & <- & _).
    apply list_elem_of_fmap. exists q. split; [done|by eapply list_elem_of_lookup_2].
  - intros Hpn. destruct (stored_pulse _ _ pn Sp Hpn) as (p & Ep & _). by exists p.
Qed.

(** Two pulses right after the same one are the same. *)
Lemma prev_pulse_unique h c p q a :
  stores h c -> stored h p -> stored h q ->
  prev_pulse (h_pulses h) p = Good a -> prev_pulse (h_pulses h) q = Good a -> p = q.
Proof.
  intros Hs [x Hx] [y Hy] Hp Hq. pose proof (so_pulses h c Hs) as Sp.
  destruct (prev_pulse_adjacent _ _ _ _ _ Sp Hx Hp) as (i & Hi & Hi').
  destruct (prev_pulse_adjacent _ _ _ _ _ Sp Hy Hq) as (j & Hj & Hj').
  assert (i = j) as ->; [|congruence]. eapply NoDup_lookup; [|done|done].
  by apply increasing_NoDup, (holds_increasing (h_pulses h)).
Qed.

Lemma prev_pulse_forwards h c q a :
  stores h c -> stored h q -> prev_pulse (h_pulses h) q = Good a ->
  exists p, Forwards (h_pulses h) a 1 = Ret (Good p) /\ num p = q.
Proof.
  intros Hs [x Hx] Hq. pose proof (so_pulses h c Hs) as Sp.
  destruct (prev_pulse_adjacent _ _ _ _ _ Sp Hx Hq) as (i & Hi & Hi').
  apply list_lookup_fmap_Some in Hi as (b & -> & Hb), Hi' as (p & -> & Hp).
  exists p. split; [|done]. rewrite (Forwards_law _ _ i b 1 Sp Hb : Forwards _ (num b) 1 = _). by rewrite Nat.add_1_r, Hp.
Qed.

Lemma prev_pulse_less h c q a : stores h c -> stored h q -> prev_pulse (h_pulses h) q = Good a -> a < q.
Proof.
  intros Hs [x Hx] Hq. pose proof (so_pulses h c Hs) as Sp.
  destruct (prev_pulse_adjacent _ _ _ _ _ Sp Hx Hq) as (i & Hi & Hi').
  apply list_lookup_fmap_Some in Hi as (b & -> & Hb), Hi' as (p & -> & Hp).
  apply (holds_increasing _ _ Sp i (S i) b p); [lia|done..].
Qed.

Lemma append_keeps h c p s' e q :
  stores h c -> 0 < num p < MaxTimePulse -> Append (h_pulses h) p = Ret (s', e) ->
  (stored h q -> stored (set_pulses h s') q /\ prev_pulse s' q = prev_pulse (h_pulses h) q) /\
  (stored (set_pulses h s') q -> stored h q \/ q = num p).
Proof.
  intros Hs Hp E. pose proof (so_pulses h c Hs) as Sp.
  destruct (Append_law _ _ p Sp) as (s2 & E2 & Hs2); [apply pulse_word; lia|].
  rewrite E in E2. injection E2 as <- _.
  assert (Hl : (list_Append (c_pulses c) p).1 = c_pulses c \/ (list_Append (c_pulses c) p).1 = c_pulses c ++ [p]).
  { destruct (list_Append_cases (c_pulses c) p) as [->| ->]; auto. }
  set (c' := mkContents (c_log c) (c_indexes c) (c_known c) (c_drops c) (c_trees c) (list_Append (c_pulses c) p).1 (c_nodes c)).
  assert (Hs' : stores (set_pulses h s') c') by (destruct Hs; by split).
  rewrite (stored_iff _ _ q Hs'), (stored_iff _ _ q Hs). subst c'. cbn [c_pulses]. split.
  - intros Hq. split; [destruct Hl as [->| ->]; [done|]; rewrite fmap_app; apply elem_of_app; by left|].
    apply list_elem_of_fmap in Hq as (x & -> & Hx). apply list_elem_of_lookup in Hx as [i Hi].
    assert (Hi' : (list_Append (c_pulses c) p).1 !! i = Some x) by (destruct Hl as [->| ->]; [done|by apply lookup_app_l_Some]).
    unfold prev_pulse. rewrite (Backwards_law _ _ i x 1 Sp Hi : Backwards _ (num x) 1 = _).
    rewrite (Backwards_law _ _ i x 1 Hs2 Hi' : Backwards _ (num x) 1 = _).
    destruct Hl as [->| ->]; [done|]. destruct i as [|i]; [done|].
    rewrite lookup_app_l; [done|]. apply lookup_lt_Some in Hi. lia.
  - destruct Hl as [->| ->]; [by left|]. rewrite fmap_app. intros [?|Hq]%elem_of_app; [by left|right].
    by apply list_elem_of_singleton in Hq.
Qed.

(** The effect of a call that is not a backup confirmation. *)
Record effect (n : node) (t : pc) (h : disk_of) : Prop := {
  ef_pulses q : stored (disk n) q -> stored h q /\ prev_pulse (h_pulses h) q = prev_pulse (h_pulses (disk n)) q;
  ef_new q : stored h q -> stored (disk n) q \/ exists p, t = Set_append p /\ q = num p;
  ef_jets q : stored h q -> (exists msg, t = Repl_jets msg /\ Drop_Pulse (Repl_Drop msg) = q) \/ jet_leaves h q = jet_leaves (disk n) q;
  ef_top : topSyncPulse (h_keeper h) = top n;
  ef_keeper q : confirms t = Some q \/ db_jets (h_keeper h) !! q = db_jets (h_keeper (disk n)) !! q;
}.

Lemma effect_same n t h :
  h_pulses h = h_pulses (disk n) -> h_jets h = h_jets (disk n) -> h_keeper h = h_keeper (disk n) -> effect n t h.
Proof.
  intros Ep Ej Ek. split; unfold stored, jet_leaves; rewrite ?Ep, ?Ej, ?Ek; try done; intros q; auto.
Qed.

Lemma effect_keeper n t h jk pn :
  h = set_keeper (disk n) jk -> confirms t = Some pn -> topSyncPulse jk = top n ->
  (forall q, q <> pn -> db_jets jk !! q = db_jets (h_keeper (disk n)) !! q) -> effect n t h.
Proof.
  intros -> Ht Htop Hq. split; try done; [by left|by right|].
  intros q. destruct (decide (q = pn)) as [->|Hne]; [by left|right]. by apply Hq.
Qed.

Lemma stored_word n c q : heavy_inv n c -> stored (disk n) q -> 0 <= q < 2^32.
Proof.
  intros Hi Hq. apply (stored_iff _ c) in Hq; [|apply Hi]. apply pulse_word. pose proof (pulses_in_range n c q Hi Hq). lia.
Qed.

Lemma exec_effect ok n c i t last h last' nx :
  heavy_inv n c -> threads n !! i = Some t -> (forall pn, t <> Fin_lock pn) ->
  exec backuper limit ok (disk n) last t = Ret (h, last', nx) -> effect n t h.
Proof.
  intros Hi Ht Hl E. destruct t; open_call E; unfold or_die in E.
  all: try (apply effect_same; repeat (go_step E || case_match); simplify_eq; done).
  - unfold AddDropConfirmation in E. cbn [mbind go_bind fst snd] in E. injection E as <- _ _.
    set (r := updateDrop _ _ _ _). eapply (effect_keeper n _ _ r.1); [done|done| |].
    + unfold topSyncPulse. subst r. by rewrite updateDrop_sync.
    + intros q Hq. by apply updateDrop_others.
  - go_step E. destruct v as [js e]. injection E as <- _ _. cbn [fst].
    destruct (hi_stores n c Hi) as [Sr Si Sd Sj Sp Sn].
    assert (Hok : replication_ok msg) by (apply (message_ok n c msg Hi), (hi_threads n c Hi i _ Ht)).
    assert (Hw : 0 <= Drop_Pulse (Repl_Drop msg) < 2^32) by (rewrite (rp_pulse msg Hok); apply pulse_word, Hok).
    split; try done; [by left| |by right]. intros q Hq.
    destruct (decide (Drop_Pulse (Repl_Drop msg) = q)) as [Ed|Hne]; [left; by exists msg|right].
    pose proof (stored_word n c q Hi Hq) as Hwq. unfold jet_leaves. cbn [set_jets h_jets].
    destruct (update_all (tree_at (c_trees c) (Drop_Pulse (Repl_Drop msg))) true [Drop_JetID (Repl_Drop msg)]) as [tr|m] eqn:Eu.
    + destruct (jets_Update_law _ _ _ _ _ _ Sj Hw Eu) as (s' & e' & E' & Hh). rewrite E' in E0. injection E0 as -> ->.
      rewrite (jets_All_law _ _ q Hh Hwq), (jets_All_law _ _ q Sj Hwq).
      assert (Et : tree_at (stored_tree (c_trees c) (Drop_Pulse (Repl_Drop msg)) tr e) q = tree_at (c_trees c) q).
      { unfold tree_at, stored_tree. destruct e; [done|]. by rewrite lookup_insert_ne. }
      by rewrite Et.
    + by rewrite (jets_Update_panic _ _ _ _ _ _ Sj Hw Eu) in E0.
  - unfold AddHotConfirmation in E. go_step E. apply go_bind_ret in E0 as ([jk e] & E0 & [= <-]).
    injection E as <- _ _. cbn [fst]. eapply (effect_keeper n _ _ jk); [done|done| |].
    + unfold topSyncPulse. by rewrite (updateHot_sync _ _ _ _ _ _ E0).
    + intros q Hq. by apply (updateHot_others _ _ _ _ _ _ q E0).
  - unfold MakeBackup, prepareBackup in E. apply effect_same; destruct backuper as [en| |]; simplify_eq; try done.
    all: destruct (_ <=? _); [by simplify_eq|]; destruct en, ok; cbn in E; by simplify_eq.
  - by destruct (Hl pn).
  - go_step E. destruct v as [s e]. injection E as <- _ _. cbn [fst].
    assert (Hp : 0 < num p < MaxTimePulse) by exact (hi_threads n c Hi i _ Ht).
    pose proof (append_keeps (disk n) c p s e) as Hap.
    split; try done; [| |by right|by right].
    + intros q. by apply (Hap q (hi_stores n c Hi) Hp E0).
    + intros q Hq. destruct (proj2 (Hap q (hi_stores n c Hi) Hp E0) Hq) as [?| ->]; [by left|right; by exists p].
Qed.

(** The pulse after one that was the top sync pulse once is final or next. *)
Lemma next_known n c seen p :
  heavy_inv n c -> seen ∈ num <$> c_pulses c -> seen <= top n -> Forwards (h_pulses (disk n)) seen 1 = Ret (Good p) ->
  num p <= top n \/ prev_pulse (h_pulses (disk n)) (num p) = Good (top n).
Proof.
  intros Hi Hseen Hle E. pose proof (so_pulses _ _ (hi_stores n c Hi)) as Sp.
  destruct (Forwards_next _ _ _ _ Sp Hseen E) as (j & Hj & Ep).
  destruct (c_pulses c !! S j) as [q|] eqn:Eq; [|done]. injection Ep as ->.
  apply list_lookup_fmap_Some in Hj as (a & -> & Ha).
  pose proof (hi_top n c Hi) as Ht. apply list_elem_of_fmap in Ht as (b & Eb & Hb). apply list_elem_of_lookup in Hb as [k Hk].
  destruct (decide (k = j)) as [->|Hne].
  - right. assert (a = b) as -> by congruence. rewrite Eb. unfold prev_pulse.
    rewrite (Backwards_law _ _ (S j) q 1 Sp Eq : Backwards _ (num q) 1 = _). cbn. by rewrite Nat.sub_0_r, Hk.
  - left. rewrite Eb in *. pose proof (holds_increasing _ _ Sp) as Hinc.
    destruct (decide (k < j)%nat) as [Hlt|Hge]; [specialize (Hinc k j b a Hlt Hk Ha); lia|].
    destruct (decide (k = S j)) as [->|Hgt]; [assert (q = b) as -> by congruence; lia|].
    assert (Hlt : (S j < k)%nat) by lia. specialize (Hinc (S j) k q b Hlt Eq Hk). lia.
Qed.

(** ** What a goroutine does next, other than after a backup confirmation *)
Record follows (n : node) (i : nat) (t : pc) (h : disk_of) (last : Z) (nx : followup) : Prop := {
  fo_last : lastBackupedPulse n <= last /\ (last = lastBackupedPulse n \/ nx = Goto (Fin_lock last));
  fo_known t' : nx = Goto t' -> up_to_date h last t';
  fo_lock t' : nx = Goto t' -> holds_lock t' -> holds_lock t;
  fo_will q : top n < q -> stored (disk n) q -> confirmed (disk n) q -> will_finalize (top n) q t ->
    nx = Die \/ (exists t', nx = Goto t' /\ will_finalize (top n) q t') \/
    exists k u, k <> i /\ threads n !! k = Some u /\ will_finalize (top n) q u;
  fo_confirm q : confirms t = Some q -> nx = Die \/ exists t', nx = Goto t' /\ will_finalize (top n) q t';
  fo_jets q msg : t = Repl_jets msg -> Drop_Pulse (Repl_Drop msg) = q ->
    nx = Die \/ exists t', nx = Goto t' /\ will_finalize (top n) q t';
}.

Lemma follows_other n i t h nx :
  (forall q, will_finalize (top n) q t -> False) -> (forall q, confirms t <> Some q) -> (forall msg, t <> Repl_jets msg) ->
  (forall t', nx = Goto t' -> up_to_date h (lastBackupedPulse n) t' /\ ~ holds_lock t') ->
  follows n i t h (lastBackupedPulse n) nx.
Proof.
  intros Hw Hc Hj Hn. split.
  - split; [lia|by left].
  - intros t' Et. by apply Hn.
  - intros t' Et Hh. by destruct (Hn t' Et).
  - intros q _ _ _ Hq. by destruct (Hw q).
  - intros q Hq. by destruct (Hc q).
  - intros q msg Hq. by destruct (Hj msg).
Qed.

Lemma follows_die n i t h : follows n i t h (lastBackupedPulse n) Die.
Proof. split; [split; [lia|by left]|done|done|by left|by left|by left]. Qed.

Lemma follows_done n i t h :
  (forall q, top n < q -> stored (disk n) q -> confirmed (disk n) q -> will_finalize (top n) q t -> False) ->
  (forall q, confirms t <> Some q) -> (forall msg, t <> Repl_jets msg) -> follows n i t h (lastBackupedPulse n) Done.
Proof.
  intros Hw Hc Hj. split; [split; [lia|by left]|done|done| | |].
  - intros q Hq Hs Hcf Hwq. by destruct (Hw q).
  - intros q Hq. by destruct (Hc q).
  - intros q msg Hq. by destruct (Hj msg).
Qed.

Lemma follows_goto n i t h t' :
  up_to_date h (lastBackupedPulse n) t' -> (holds_lock t' -> holds_lock t) ->
  (forall q, top n < q -> stored (disk n) q -> confirmed (disk n) q -> will_finalize (top n) q t -> will_finalize (top n) q t') ->
  (forall q, confirms t = Some q -> will_finalize (top n) q t') ->
  (forall q msg, t = Repl_jets msg -> Drop_Pulse (Repl_Drop msg) = q -> will_finalize (top n) q t') ->
  follows n i t h (lastBackupedPulse n) (Goto t').
Proof.
  intros Hu Hl Hw Hc Hj. split; [split; [lia|by left]| | | | |].
  - by intros ? [= <-].
  - by intros ? [= <-].
  - intros q Hq Hs Hcf Hwq. right. left. exists t'. split; [done|by apply Hw].
  - intros q Hq. right. exists t'. split; [done|by apply Hc].
  - intros q msg Ht Hq. right. exists t'. split; [done|by apply (Hj q msg)].
Qed.

Lemma exec_backup_follows ok n c i pn h last nx :
  heavy_inv n c -> final_inv n -> phase_of n = Running -> threads n !! i = Some (Fin_backup pn) ->
  exec backuper limit ok (disk n) (lastBackupedPulse n) (Fin_backup pn) = Ret (h, last, nx) ->
  follows n i (Fin_backup pn) h last nx.
Proof.
  intros Hi Hf Hr Ht E. open_call E. pose proof (fi_known n Hf i _ Ht) as Hk. cbn [up_to_date] in Hk.
  assert (Hcase : h_keeper h = h_keeper (disk n) /\ h_pulses h = h_pulses (disk n) /\
    ((nx = Goto (Fin_lock pn) /\ lastBackupedPulse n <= last /\
      match backuper with BackupMakerDefault _ => last = pn | _ => last = lastBackupedPulse n end) \/
     (last = lastBackupedPulse n /\ (nx = Die \/ (nx = Done /\ pn <= last /\ exists en, backuper = BackupMakerDefault en))))).
  { unfold MakeBackup, prepareBackup in E. destruct backuper as [en| |].
    - destruct (Z.leb_spec pn (lastBackupedPulse n)).
      + injection E as <- <- <-. do 2 (split; [done|]). right. split; [done|right]. split; [done|]. split; [lia|by exists en].
      + destruct en, ok; cbn in E; injection E as <- <- <-; do 2 (split; [done|]);
          first [left; split; [done|split; [lia|done]] | right; split; [done|by left]].
    - injection E as <- <- <-. do 2 (split; [done|]). left. split; [done|]. split; [lia|done].
    - injection E as <- <- <-. do 2 (split; [done|]). left. split; [done|]. split; [lia|done]. }
  destruct Hcase as (Ek & Ep & Hcase). split.
  - destruct Hcase as [(-> & Hle & Hb)|(-> & _)]; [|split; [lia|by left]]. split; [done|].
    destruct backuper; subst; auto.
  - intros t' Et. destruct Hcase as [(-> & Hle & Hb)|(_ & [->|(-> & _)])]; [|done..]. injection Et as <-.
    cbn [up_to_date]. rewrite Ek, Ep. split; [exact Hk|]. destruct backuper; [lia|done|done].
  - intros t' Et. destruct Hcase as [(-> & _)|(_ & [->|(-> & _)])]; [|done..]. by injection Et as <-.
  - intros q Hq Hs Hconf Hw. cbn [will_finalize] in Hw. subst pn.
    destruct Hcase as [(-> & _)|(-> & [->|(-> & Hle & en & Hen)])]; [|by left|].
    { right. left. by exists (Fin_lock q). }
    right. right. destruct (fi_last n Hf en Hen Hr) as (_ & [Hl|[k Hkk]]); [lia|].
    pose proof (fi_known n Hf k _ Hkk) as Hu. cbn [up_to_date] in Hu. destruct Hu as [[Hu|Hu] _]; [lia|].
    exists k, (Fin_lock (lastBackupedPulse n)). split; [by intros ->; rewrite Hkk in Ht|]. split; [done|]. cbn [will_finalize].
    apply (prev_pulse_unique (disk n) c _ _ (top n) (hi_stores n c Hi)); [|done|done|].
    + apply (stored_iff _ c), (hi_threads n c Hi k _ Hkk). apply Hi.
    + by apply HasAll_true in Hconf as [Hb _].
  - done.
  - done.
Qed.

Lemma exec_follows ok n c i t h last nx :
  heavy_inv n c -> final_inv n -> phase_of n = Running -> threads n !! i = Some t -> (forall pn, t <> Fin_lock pn) ->
  exec backuper limit ok (disk n) (lastBackupedPulse n) t = Ret (h, last, nx) ->
  follows n i t h last nx.
Proof.
  intros Hi Hf Hr Ht Hl E. pose proof (exec_effect _ _ _ _ _ _ _ _ _ Hi Ht Hl E) as Hef.
  pose proof (fi_known n Hf i t Ht) as Hk.
  destruct t; try (by destruct (Hl pn)); try (by eapply exec_backup_follows);
    open_call E; unfold or_die in E.
  all: assert (Elast : last = lastBackupedPulse n) by (repeat (go_step E || case_match); by simplify_eq); subst last.
  all: try solve [apply follows_other; [done|done|done|]; intros t' Et; repeat (go_step E || case_match); simplify_eq;
                  (split; [done|by intros []])].
  - go_step E. destruct v as [jk [e|]]; injection E as <- <-; [apply follows_die|apply follows_goto; [done|done|by intros ? ? ? ? []| |done]].
    intros q [= <-]. done.
  - go_step E. destruct v as [jk [e|]]; injection E as <- <-; [apply follows_die|apply follows_goto; [done..|]].
    by intros q ? [= <-].
  - go_step E. destruct v as [jk [e|]]; injection E as <- <-; [apply follows_die|apply follows_goto; [done|done|by intros ? ? ? ? []| |done]].
    intros q [= <-]. done.
  - go_step E. injection E as <- <-. destruct v; [by apply follows_goto|apply follows_done; [|done|done]].
    intros q _ _ Hc Hq. cbn [will_finalize] in Hq. subst q. unfold confirmed in Hc. by rewrite E0 in Hc.
  - injection E as <- <-. apply follows_goto; [apply Z.le_refl|done|by intros|done|done].
  - rename top into seen. go_step E. injection E as <- <-. cbn [up_to_date] in Hk. pose proof (hi_threads n c Hi i _ Ht) as Hseen. cbn [thread_ok] in Hseen.
    assert (Hnext : forall q, top n < q -> stored (disk n) q -> confirmed (disk n) q -> pn = q /\ seen = top n ->
      exists p, v = Good p /\ num p = pn).
    { intros q Hq Hs Hc [-> ->]. apply HasAll_true in Hc as [Hb _]; [|done].
      destruct (prev_pulse_forwards _ c q _ (hi_stores n c Hi) Hs Hb) as (p & Ep & Enum). exists p. split; [congruence|done]. }
    destruct v as [p|e]; [destruct (Z.eqb_spec (num p) pn) as [<-|Hne]|].
    + apply follows_goto; [by apply (next_known n c _ _ Hi Hseen)|done| |done|done]. by intros q _ _ _ [? _].
    + apply follows_done; [|done|done]. intros q Hq Hs Hc Hw. destruct (Hnext q Hq Hs Hc Hw) as (p' & [= <-] & ?). done.
    + apply follows_done; [|done|done]. intros q Hq Hs Hc Hw. by destruct (Hnext q Hq Hs Hc Hw) as (p' & [=] & _).
  - go_step E. destruct v as [ix [e|]]; injection E as <- <-; [apply follows_die|by apply follows_goto].
  - go_step E. injection E as <- <-. cbn [up_to_date] in Hk. subst pn.
    assert (Hnext : forall q, top n < q -> stored (disk n) q -> confirmed (disk n) q -> exists p, v = Good p /\ num p = q).
    { intros q Hq Hs Hc. apply HasAll_true in Hc as [Hb _]; [|done].
      destruct (prev_pulse_forwards _ c q _ (hi_stores n c Hi) Hs Hb) as (p & Ep & Enum). exists p. split; [congruence|done]. }
    destruct v as [p|e].
    + apply follows_goto; [done|done| |done|done]. intros q Hq Hs Hc _. by destruct (Hnext q Hq Hs Hc) as (p' & [= <-] & ?).
    + destruct (decide _); [|apply follows_die]. apply follows_done; [|done|done].
      intros q Hq Hs Hc _. by destruct (Hnext q Hq Hs Hc) as (p' & [=] & _).
Qed.

(** ** Every step keeps it *)
Lemma crash_final n h : final_inv (crash n h).
Proof.
  split; cbn [crash disk phase_of threads]; try done.
  intros todo [= <-] Hout. destruct Hout. apply keeper_in_dbs.
Qed.

Lemma all_db jk jk' pn : db_jets jk' !! pn = db_jets jk !! pn -> all jk' pn = all jk pn.
Proof. unfold all. by intros ->. Qed.

(** The threads after a call. *)
Definition threads_after (n : node) (i : nat) (nx : followup) : gmap nat pc :=
  match nx with Goto t => <[i := t]> (threads n) | Done => delete i (threads n) | Die => ∅ end.

Lemma threads_after_lookup n i nx k u :
  threads_after n i nx !! k = Some u -> (k <> i /\ threads n !! k = Some u) \/ (k = i /\ nx = Goto u).
Proof.
  destruct nx as [t| |]; cbn [threads_after].
  - rewrite lookup_insert. destruct (decide (i = k)) as [->|]; [intros [= ->]; by right|by left].
  - rewrite lookup_delete. destruct (decide (i = k)) as [->|]; [done|by left].
  - by rewrite lookup_empty.
Qed.
Lemma threads_after_other n i nx k u :
  nx <> Die -> k <> i -> threads n !! k = Some u -> threads_after n i nx !! k = Some u.
Proof.
  intros Hd Hk Hu. destruct nx; cbn [threads_after]; [by rewrite lookup_insert_ne|by rewrite lookup_delete_ne|done].
Qed.

Lemma up_to_date_effect n c i t h last j u :
  heavy_inv n c -> effect n t h -> lastBackupedPulse n <= last -> threads n !! j = Some u -> j <> i ->
  up_to_date (disk n) (lastBackupedPulse n) u -> up_to_date h last u.
Proof.
  intros Hi He Hl Hu Hne. pose proof (hi_threads n c Hi j u Hu) as Hok.
  assert (Hprev : forall pn, pn ∈ num <$> c_pulses c ->
    prev_pulse (h_pulses h) pn = prev_pulse (h_pulses (disk n)) pn).
  { intros pn Hpn. apply (ef_pulses n t h He). apply (stored_iff _ c); [apply Hi|done]. }
  destruct u; cbn [up_to_date thread_ok] in *; rewrite ?(ef_top n t h He), ?Hprev by done; try done.
  intros [? Hb]. split; [done|]. destruct backuper; [lia|done|done].
Qed.

Lemma call_final n c i t h last nx :
  heavy_inv n c -> final_inv n -> phase_of n = Running -> threads n !! i = Some t ->
  (forall pn, confirms t = Some pn -> (pn = target -> stored (disk n) target) /\
     (pn = top n -> db_jets (h_keeper h) !! pn = db_jets (h_keeper (disk n)) !! pn)) ->
  effect n t h -> follows n i t h last nx -> (forall pn, t <> Fin_lock pn) -> nx <> Die ->
  final_inv (mkHeavyNode h Running last (threads_after n i nx) (accepted n) (synced_after n h)).
Proof.
  intros Hi Hf Hr Ht Htm He Hfo Hl Hd. pose proof (ef_top n t h He) as Etop.
  split; cbn [disk phase_of threads lastBackupedPulse]; rewrite ?Etop; try done.
  - intros _ Hpn Hall. destruct (ef_keeper n t h He target) as [Hc|Hdb].
    + apply (ef_pulses n t h He). by apply (Htm target Hc).
    + rewrite (all_db _ _ _ Hdb) in Hall. apply (ef_pulses n t h He), (fi_infos n Hf); [done|done|done].
  - intros k u [(Hk & Hu)|[-> Eu]]%threads_after_lookup.
    + apply (up_to_date_effect n c i t h last k u); [done..|apply Hfo|done|done|by apply (fi_known n Hf k)].
    + by apply (fo_known _ _ _ _ _ _ Hfo).
  - intros j k u v [(Hj & Hu)|[-> Eu]]%threads_after_lookup [(Hk & Hv)|[-> Ev]]%threads_after_lookup Lu Lv; [| | |done].
    + by apply (fi_one n Hf j k u v).
    + apply (fi_one n Hf j i u t); [done..|]. by apply (fo_lock _ _ _ _ _ _ Hfo v).
    + apply (fi_one n Hf i k t v); [done..| |done]. by apply (fo_lock _ _ _ _ _ _ Hfo u).
  - intros en Hen _. destruct (fi_last n Hf en Hen Hr) as [Hle Hlast].
    destruct (fo_last _ _ _ _ _ _ Hfo) as [Hmon Hor]. split; [lia|].
    destruct Hor as [->|Hg].
    + destruct Hlast as [?|[k Hk]]; [by left|right]. exists k. apply threads_after_other; [done| |done].
      intros ->. rewrite Hk in Ht. injection Ht as <-. by eapply Hl.
    + right. exists i. rewrite Hg. cbn [threads_after]. by rewrite lookup_insert_eq.
  - set (q := target). intros _ Hq Hs Hc.
    assert (Hgo : nx = Die \/ (exists t', nx = Goto t' /\ will_finalize (top n) q t') ->
      exists k u, threads_after n i nx !! k = Some u /\ will_finalize (top n) q u).
    { intros [?|(t' & -> & Hw)]; [done|]. exists i, t'. cbn [threads_after]. by rewrite lookup_insert_eq. }
    destruct (HasAll_true _ _ _ q ltac:(by rewrite Etop) Hc) as [_ Hall].
    destruct (ef_keeper n t h He q) as [Hcf|Hdb].
    { apply Hgo. destruct (fo_confirm _ _ _ _ _ _ Hfo q Hcf); [by left|by right]. }
    assert (Hold : stored (disk n) q).
    { destruct (ef_new n t h He q Hs) as [?|(p & -> & _)]; [done|].
      apply (fi_infos n Hf); [done..|]. fold q. by rewrite <- (all_db _ _ _ Hdb). }
    destruct (ef_jets n t h He q Hs) as [(msg & -> & Epn)|Hj].
    { apply Hgo. destruct (fo_jets _ _ _ _ _ _ Hfo q msg eq_refl Epn); [by left|by right]. }
    assert (Hc' : confirmed (disk n) q).
    { unfold confirmed in *. rewrite <- Hc. symmetry. apply HasAll_depends; [done|done| | |done].
      - intros pn [->| ->]; [done|]. destruct (ef_keeper n t h He (top n)) as [Hcf|?]; [|done].
        by apply (Htm (top n) Hcf).
      - by apply (ef_pulses n t h He). }
    destruct (fi_will n Hf Hr Hq Hold Hc') as (j & u & Hu & Hw).
    destruct (decide (j = i)) as [->|Hne].
    + assert (u = t) as -> by congruence.
      destruct (fo_will _ _ _ _ _ _ Hfo q Hq Hold Hc' Hw) as [?|[Hg|(k & v & Hk & Hv & Hwv)]]; [done|by apply Hgo; right|].
      exists k, v. split; [by apply threads_after_other|done].
    + exists j, u. split; [by apply threads_after_other|done].
Qed.

(** The backup confirmation. *)
Lemma lock_final ok n c i pn h last nx :
  heavy_inv n c -> final_inv n -> phase_of n = Running -> threads n !! i = Some (Fin_lock pn) -> may_run n (Fin_lock pn) ->
  exec backuper limit ok (disk n) (lastBackupedPulse n) (Fin_lock pn) = Ret (h, last, nx) -> nx <> Die ->
  final_inv (mkHeavyNode h Running last (threads_after n i nx) (accepted n) (synced_after n h)).
Proof.
  intros Hi Hf Hr Ht Hmay E Hd. open_call E. go_step E. destruct v as [jk e].
  pose proof (AddBackupConfirmation_confirmed _ _ _ _ _ _ E0) as [_ Htop].
  assert (Hjets : forall q, all jk q <> [] -> all (h_keeper (disk n)) q <> []).
  { intros q. unfold AddBackupConfirmation, updateBackup in E0. destruct (_ =? _)%nat; [by injection E0 as <- _|].
    apply go_bind_ret in E0 as (v & E0 & [= -> _]). apply updateTopSyncPulse_jets in E0 as [Hj _].
    unfold all. rewrite Hj. cbn. destruct (decide (q = pn)) as [->|Hne]; [|by rewrite lookup_insert_ne].
    rewrite lookup_insert_eq. cbn. unfold all. by destruct (default [] _). }
  destruct e as [e|]; [by injection E as <- <- <-|]. destruct (Z.eqb_spec (topSyncPulse jk) pn) as [<-|]; [|by injection E as <- <- <-].
  injection E as <- <- <-. pose proof (fi_known n Hf i _ Ht) as Hk. cbn [up_to_date] in Hk. destruct Hk as [Hk Hlast].
  assert (Hs : stored (disk n) (topSyncPulse jk)) by (apply (stored_iff _ c), (hi_threads n c Hi i _ Ht); apply Hi).
  assert (Hmon : top n <= topSyncPulse jk).
  { destruct Htop as [->|(_ & Hb & _)]; [lia|]. pose proof (prev_pulse_less _ c _ _ (hi_stores n c Hi) Hs Hb). lia. }
  split; cbn [disk phase_of threads lastBackupedPulse set_keeper h_keeper]; try done.
  - intros _ Hq Hall. apply (fi_infos n Hf); [done|lia|by apply Hjets].
  - intros k u [(Hk' & Hu)|[-> Eu]]%threads_after_lookup; [|by injection Eu as <-].
    pose proof (fi_known n Hf k u Hu) as Hku. pose proof (Hmay k u Hu) as Hfree. pose proof (hi_threads n c Hi k u Hu) as Hok.
    assert (Hnext : forall x, x ∈ num <$> c_pulses c -> x <= top n \/ prev_pulse (h_pulses (disk n)) x = Good (top n) ->
      x <= topSyncPulse jk \/ prev_pulse (h_pulses (disk n)) x = Good (topSyncPulse jk)).
    { intros x Hx [?|Hb]; [left; lia|]. destruct Htop as [->|(_ & Hb' & _)]; [by right|left].
      rewrite (prev_pulse_unique (disk n) c x (topSyncPulse jk) (top n)); [lia|apply Hi| |done|done|done].
      apply (stored_iff _ c); [apply Hi|done]. }
    destruct u; cbn [up_to_date thread_ok holds_lock set_keeper h_keeper h_pulses] in *; try done; try lia.
    + by apply Hnext.
    + destruct Hku as [Hku ?]. split; [by apply Hnext|done].
  - intros j k u v [(Hj & Hu)|[-> Eu]]%threads_after_lookup [(Hk' & Hv)|[-> Ev]]%threads_after_lookup Lu Lv; [| | |done].
    + by destruct (Hmay j u Hu).
    + by destruct (Hmay j u Hu).
    + by destruct (Hmay k v Hv).
  - intros en Hen _. rewrite Hen in Hlast. split; [done|].
    destruct (fi_last n Hf en Hen Hr) as (_ & [Hl|[k Hkk]]); [left; lia|].
    destruct (decide (k = i)) as [->|Hne].
    + left. rewrite Hkk in Ht. injection Ht as Ht. lia.
    + right. exists k. by apply threads_after_other.
  - intros _ _ _ _. exists i, (Fin_update (topSyncPulse jk)). cbn [threads_after]. by rewrite lookup_insert_eq.
Qed.

Lemma exec_final ok n c i t h last nx :
  heavy_inv n c -> final_inv n -> in_time n (after n i h last nx) -> phase_of n = Running -> threads n !! i = Some t ->
  may_run n t -> exec backuper limit ok (disk n) (lastBackupedPulse n) t = Ret (h, last, nx) -> final_inv (after n i h last nx).
Proof.
  intros Hi Hf Htm Hr Ht Hmay E. assert (Hor : nx = Die \/ nx <> Die) by (destruct nx; auto).
  destruct Hor as [->|Hd]; [apply crash_final|].
  assert (Ea : after n i h last nx = mkHeavyNode h Running last (threads_after n i nx) (accepted n) (synced_after n h))
    by (by destruct nx).
  rewrite Ea in *. assert (Hcase : (exists pn, t = Fin_lock pn) \/ forall pn, t <> Fin_lock pn) by (destruct t; eauto).
  destruct Hcase as [[pn ->]|Hl]; [by eapply lock_final|].
  assert (Hfo : follows n i t h last nx) by (by eapply exec_follows).
  eapply call_final; [done..| |by eapply exec_effect|done|done|done]. intros pn Hc. apply (Htm eq_refl i t); [done| |done].
  intros [[Hk _]|[_ ->]]%threads_after_lookup; [done|].
  destruct (fo_confirm _ _ _ _ _ _ Hfo pn Hc) as [|(t' & [= <-] & Hw)]; [done|]. by destruct t.
Qed.

Lemma spawn_final n i t acc :
  final_inv n -> threads n !! i = None -> up_to_date (disk n) (lastBackupedPulse n) t -> ~ holds_lock t ->
  final_inv (mkHeavyNode (disk n) (phase_of n) (lastBackupedPulse n) (<[i := t]> (threads n)) acc (synced n)).
Proof.
  intros Hf Hfree Hu Hl.
  assert (Hkeep : forall k u, threads n !! k = Some u -> <[i := t]> (threads n) !! k = Some u).
  { intros k u Hk. rewrite lookup_insert_ne; [done|]. intros ->. by rewrite Hfree in Hk. }
  split; cbn [disk phase_of threads lastBackupedPulse]; try apply Hf.
  - intros k u. rewrite lookup_insert. destruct (decide _) as [<-|]; [by intros [= <-]|apply (fi_known n Hf)].
  - intros j k u v. rewrite !lookup_insert. destruct (decide (i = j)), (decide (i = k)); try (by intros [= <-]).
    + by intros _ [= <-].
    + apply (fi_one n Hf).
  - intros en Hen Hr. destruct (fi_last n Hf en Hen Hr) as [? [?|[k Hk]]]; (split; [done|]); [by left|right].
    exists k. by apply Hkeep.
  - intros Hr Hq Hs Hc. destruct (fi_will n Hf Hr Hq Hs Hc) as (k & u & Hk & Hw). exists k, u. split; [by apply Hkeep|done].
Qed.

(** The rollback at start. *)
Lemma truncate_head_keeper n x h e :
  truncate_head (disk n) x = Ret (h, e) ->
  topSyncPulse (h_keeper h) = top n /\
  forall pn, (x = Truncate_keeper -> top n < pn -> all (h_keeper h) pn = []) /\
             (all (h_keeper (disk n)) pn = [] -> all (h_keeper h) pn = []).
Proof.
  intros E. destruct (decide (x = Truncate_keeper)) as [->|Hx].
  - cbn [truncate_head] in E. injection E as <- _. cbn [set_keeper h_keeper]. unfold JetKeeper.TruncateHead, nextPulse.
    destruct (Z.leb_spec (top n + 1) (top n)); [lia|]. cbn [fst]. split; [done|]. intros pn. unfold all. cbn [db_jets].
    rewrite map_lookup_filter. destruct (db_jets (h_keeper (disk n)) !! pn) as [js|]; cbn; [|done]. split.
    + intros _ Hp. rewrite option_guard_False; [done|lia].
    + intros ->. destruct (decide (pn < top n + 1)); [by rewrite option_guard_True|by rewrite option_guard_False].
  - assert (Ek : h_keeper h = h_keeper (disk n)).
    { destruct x; cbn [truncate_head] in E; try done; repeat (go_step E || case_match); by simplify_eq. }
    rewrite Ek. split; [done|]. by intros pn.
Qed.

Lemma step_final n n' c :
  heavy_inv n c -> final_inv n -> in_time n n' -> heavy_step n n' -> final_inv n'.
Proof.
  intros Hi Hf Htm Hstep.
  destruct Hstep as [msg Hr Hfree Hok Hfit|i pn jetID split Hr Hge Hfree|p nodes Hr Hfree Hp Hne Hnodes
    |ok i t h last nx Hr Ht Hmay E| |x todo h e Hph E|Hph].
  - rewrite <- Hr. apply spawn_final; [done..|by intros []].
  - apply spawn_final; [done..|by intros []].
  - apply spawn_final; [done..|by intros []].
  - by eapply exec_final.
  - apply crash_final.
  - destruct e as [e|]; [apply crash_final|]. destruct (truncate_head_keeper n x h None E) as [Et Hall].
    split; cbn [disk phase_of threads]; try done. intros todo' [= <-] Hout Hpn. rewrite Et in Hpn.
    destruct (decide (x = Truncate_keeper)) as [Hx|Hx]; [by apply (proj1 (Hall target))|].
    apply (proj2 (Hall target)), (fi_cut n Hf (x :: todo)); [done| |done]. by intros [?|?]%elem_of_cons.
  - assert (Hcut : top n < target -> all (h_keeper (disk n)) target = []).
    { intros Hpn. apply (fi_cut n Hf []); [done|by intros ?%elem_of_nil|done]. }
    split; cbn [disk phase_of threads lastBackupedPulse]; try done.
    + intros _ Hpn Hne. by rewrite Hcut in Hne.
    + intros en _ _. split; [lia|left; lia].
    + intros _ Hq _ Hc. apply HasAll_true in Hc as [_ Hne]; [|done]. by rewrite Hcut in Hne.
Qed.

(** ** The theorem *)

(** What keeps the pulses that may still be confirmed in sight, over any run. *)
Lemma timely_run n0 c0 n :
  heavy_inv n0 c0 -> phase_of n0 = Booting dbs -> reach timely_step n0 n -> (exists c, heavy_inv n c) /\ final_inv n.
Proof.
  intros Hi0 Hb Hreach.
  refine (reach_invariant timely_step (fun m => (exists c, heavy_inv m c) /\ final_inv m) n0 n _ _ Hreach).
  - split; [by exists c0|]. assert (Hidle : threads n0 = ∅) by (apply (hi_idle n0 c0 Hi0); by rewrite Hb).
    split; rewrite ?Hb, ?Hidle; try done. intros todo [= <-] Hout. destruct Hout. apply keeper_in_dbs.
  - intros a b ([c Hi] & Hf) [Hstep Htm]. split; [by apply (step_inv backuper limit a b c)|by apply (step_final a b c)].
Qed.
End Finalization.

(** ** The theorem *)
Section NoPulse.
Context `{LawfulRecords Rcs} `{LawfulIndexes Ixs} `{LawfulDrops Drs} `{LawfulJets Jts}.
Context `{TruncatableStorage Pls} `{LawfulNodes Nds} `{Scheme} (backuper : BackupMaker) (limit : Z).
Abbreviation node := (heavyNode Rcs Ixs Drs Jts Pls Nds).
Abbreviation top n := (topSyncPulse (h_keeper (disk n))).

(** C5: Let a pulse [p] be confirmed only while the heavy node has it, and let
    nobody change the infos of the top sync pulse.  Then, whatever else
    happens since the last start - other pulses are confirmed at any time,
    replication, hot confirmations, [Set] and finalizations race, the node
    stops - whenever the node runs, [p] follows the top sync pulse and has all
    its confirmations, some goroutine is on its way to finalize it: once all
    goroutines are done [p] is not left behind.  A confirmation that comes
    before the pulse is stored can leave it behind
    ([early_confirmations_stay]). *)
Theorem heavy_leaves_no_pulse (n0 : node) c0 n p :
  heavy_inv n0 c0 -> phase_of n0 = Booting dbs -> reach (timely_step backuper limit (num p)) n0 n -> phase_of n = Running ->
  Forwards (h_pulses (disk n)) (top n) 1 = Ret (Good p) -> confirmed (disk n) (num p) ->
  exists i t, threads n !! i = Some t /\ will_finalize (top n) (num p) t.
Proof.
  intros Hi0 Hb Hreach Hr Hp Hc. destruct (timely_run backuper limit (num p) n0 c0 n Hi0 Hb Hreach) as [[c Hi] Hf].
  pose proof (so_pulses _ _ (hi_stores n c Hi)) as Sp.
  assert (Hs : stored (disk n) (num p)).
  { apply (stored_iff _ c); [apply Hi|]. by apply (Forwards_stored _ _ (top n) p Sp (hi_top n c Hi)). }
  apply (fi_will backuper (num p) n Hf); [done| |done|done].
  destruct (Forwards_next _ _ _ _ Sp (hi_top n c Hi) Hp) as (j & Hj & Ep).
  destruct (c_pulses c !! S j) as [q|] eqn:Eq; [|done]. injection Ep as ->.
  apply list_lookup_fmap_Some in Hj as (a & -> & Ha).
  apply (holds_increasing _ _ Sp j (S j) a q); [lia|done..].
Qed.

(** *** Timely runs of the scheduler *)
Context (target : Z).
Definition timely_check (n : node) : bool :=
  forallb (fun kv : nat * pc =>
    match confirms kv.2 with
    | None => true
    | Some pn => negb (pn =? top n) &&
        (negb (pn =? target) || match ForPulseNumber (h_pulses (disk n)) pn with Ret (Good _) => true | _ => false end)
    end) (map_to_list (threads n)).

Lemma timely_check_ok n n' : timely_check n = true -> in_time target n n'.
Proof.
  unfold timely_check. rewrite forallb_forall. intros Hall _ i t pn Ht _ Hc.
  specialize (Hall (i, t)). cbn in Hall. rewrite Hc in Hall.
  assert (Hin : In (i, t) (map_to_list (threads n))) by (apply list_elem_of_In; by apply elem_of_map_to_list).
  apply Hall, andb_true_iff in Hin as [Hne Hs]. split.
  - intros ->. rewrite Z.eqb_refl in Hs. cbn [negb orb] in Hs. unfold stored.
    destruct (ForPulseNumber _ target) as [[p|]|]; [by exists p|done..].
  - intros ->. by rewrite Z.eqb_refl in Hne.
Qed.

Fixpoint play_timely (n : node) (l : list action) : option node :=
  match l with
  | [] => Some n
  | a :: l' => n' ← act backuper limit n a; if timely_check n then play_timely n' l' else None
  end.

Lemma play_timely_reach n l n' :
  play_timely n l = Some n' -> plays_ok (accepted n) l -> reach (timely_step backuper limit target) n n'.
Proof.
  intros E Hok. assert (Hgen : forall m, reach (timely_step backuper limit target) n m -> plays_ok (accepted m) l ->
    play_timely m l = Some n' -> reach (timely_step backuper limit target) n n').
  { clear E Hok. induction l as [|a l IH]; intros m Hr Hok E; [by injection E as <-|].
    cbn [play_timely] in E. destruct (act backuper limit m a) as [m'|] eqn:Ea; [|done]. cbn [mbind option_bind] in E.
    destruct (timely_check m) eqn:Et; [|done]. cbn [plays_ok] in Hok. destruct Hok as [Ha Hok].
    apply (IH m'); [|by rewrite (act_accepted backuper limit m a m' Ea)|done].
    apply (reach_step _ _ m); [done|]. split; [by apply (act_step backuper limit m a)|by apply timely_check_ok]. }
  apply (Hgen n); [apply reach_init|done|done].
Qed.
End NoPulse.

Section Samples.
#[local] Existing Instances sampleScheme recordCodec indexCodec dropCodec treeCodec nodesCodec.

Definition next_confirmed (n : sampleNode) : phase * go (result Pulse) * go bool :=
  (phase_of n, Forwards (h_pulses (disk n)) (topSyncPulse (h_keeper (disk n))) 1,
   HasAllJetConfirms (prev_pulse (h_pulses (disk n))) (jet_leaves (disk n)) (h_keeper (disk n)) heavyPulse).

(** The pulse of HeavySamples.v is confirmed, and two goroutines are at it. *)
Definition confirmed_run : option sampleNode := play_timely (BackupMakerDefault false) 5 heavyPulse emptyHeavy replicated_pulse.

Lemma confirmed_run_state :
  next_confirmed <$> confirmed_run = Some (Running, Ret (Good (samplePulse heavyPulse)), Ret true).
Proof. vm_compute. reflexivity. Qed.

Lemma heavy_leaves_no_pulse_witness :
  match confirmed_run with
  | Some n => exists i t, threads n !! i = Some t /\ will_finalize (topSyncPulse (h_keeper (disk n))) heavyPulse t
  | None => False
  end.
Proof.
  pose proof confirmed_run_state as Es. destruct confirmed_run as [n|] eqn:E; [|discriminate Es].
  injection Es as Er Ef Ec.
  assert (Hreach : reach (timely_step (BackupMakerDefault false) 5 heavyPulse) emptyHeavy n)
    by exact (play_timely_reach (BackupMakerDefault false) 5 heavyPulse emptyHeavy replicated_pulse n E replicated_ok).
  apply (heavy_leaves_no_pulse (BackupMakerDefault false) 5 emptyHeavy emptyContents n (samplePulse heavyPulse));
    [apply emptyHeavy_inv|reflexivity|exact Hreach|exact Er|exact (f_equal Ret Ef)|exact Ec].
Defined.

(** The light nodes are ahead: both confirmations of the pulse come before
    [Set] appends it.  Then every goroutine ends, the pulse is next and has
    all its confirmations, and nobody finalizes it. *)
Definition early_run : option sampleNode :=
  played (boot ++ [Confirm 2 heavyPulse ZeroJetID false; Exec 2; Exec 2; Replicate heavyMessage;
                   Exec 0; Exec 0; Exec 0; Exec 0; Exec 0; Exec 0; Exec 0; Exec 0;
                   SetPulse (samplePulse heavyPulse) heavyNodes; Exec 1; Exec 1; Exec 1]).
Example early_confirmations_stay :
  (fun n => (next_confirmed n, map_to_list (threads n))) <$> early_run =
  Some ((Running, Ret (Good (samplePulse heavyPulse)), Ret true), []).
Proof. vm_compute. reflexivity. Qed.
End Samples.
