(* ===== verification/Exporter.v ===== *)
(** * The exporter of the heavy node
    (src/ledger/heavy/exporter: record_exporter_server.go and
    pulse_exporter_server.go)

    Clients read the finalized records and pulses page by page while the node
    goes on working.  [world t] is what the storages answer at the t-th call
    of a request, so a request may find the node changed at every call; a
    stream that breaks is one whose Send returns an error. *)
From S2P Require Import Prelude Pulse PulseStore Reference HeavyNode HotData Records Store RecordStorage NodeHistory.

Definition ErrNilCount : error := Errorf "count can't be 0".
Definition ErrNotFinalPulseData : error := Errorf "trying to get a non-finalized pulse data".

Definition GenesisPulse : Pulse :=
  mkPulse MinTimePulse 0 0 UnixTimeOfMinTimePulse MinTimePulse (replicate 16 0) (replicate EntropySize 0) ∅.

(** ** Messages *)
Record GetRecords : Type := mkGetRecords { GR_PulseNumber : Z; GR_RecordNumber : Z; GR_Count : Z }.
Inductive ExportedRecord : Type :=
  | NumberedRecord (RecordNumber : Z) (Record_ : Material)
  | ShouldIterateFrom (topPulse : Z).

Record GetPulses : Type := mkGetPulses { GP_PulseNumber : Z; GP_Count : Z }.
Record ExportedPulse : Type := mkExportedPulse {
  EP_PulseNumber : Z;
  EP_Entropy : list Z;
  EP_PulseTimestamp : Z;
  EP_Nodes : list Node;
}.

Record recordIterator : Type := mkIterator {
  currentPosition : Z;
  currentPulse : Z;
  read : Z;
  needToRead : Z;
}.

(** What a request keeps: how many calls it made, its own variables, and what
    it has sent. *)
Record session (C M : Type) : Type := mkSession { clock : nat; vars : C; sent : list M }.
Arguments mkSession {_ _}.
Arguments clock {_ _}.
Arguments vars {_ _}.
Arguments sent {_ _}.

Definition exportedPulse (p : Pulse) (nodes : list Node) : ExportedPulse :=
  mkExportedPulse (num p) (Entropy p) (Pulse_Timestamp p) nodes.

Section Exporter.
Context `{RecordStorage Rcs} `{PulseStorage Pls} `{NodeHistory Nds}.

Record heavyView : Type := mkView {
  v_records : Rcs;
  v_pulses : Pls;
  v_nodes : Nds;
  v_top : Z;
}.
Context (world : nat -> heavyView).

Section Calls.
Context {C M : Type} (stream : list M -> option error).

(** One call of a storage; errors are values here. *)
Definition ask {A} (f : heavyView -> go A) : io (session C M) A := fun s =>
  a ← f (world (clock s)); Ret (mkSession (S (clock s)) (vars s) (sent s), Good a).
Definition TopSyncPulse : io (session C M) Z := ask (fun w => Ret (v_top w)).
Definition Send (m : M) : io (session C M) unit := fun s =>
  let sent' := sent s ++ [m] in
  match stream sent' with
  | None => Ret (mkSession (clock s) (vars s) sent', Good tt)
  | Some e => Ret (s, Fail e)
  end.
Definition set_vars (c : C) : io (session C M) unit := modify (fun s => mkSession (clock s) c (sent s)).
Definition out_of_fuel {A} : io (session C M) A := fun _ => Panic "out of fuel".
End Calls.

(** ** record_exporter_server.go *)
Section Records.
Context (stream : list ExportedRecord -> option error).
Abbreviation records := (io (session recordIterator ExportedRecord)).

Definition LastKnown (pn : Z) : records (result Z) := ask (fun w => LastKnownPosition (v_records w) pn).
Definition NextPulse (pn : Z) : records (result Pulse) := ask (fun w => Forwards (v_pulses w) pn 1).

Fixpoint checkNextPulse (fuel : nat) (currentPulse : Z) : records bool :=
  match fuel with
  | O => out_of_fuel
  | S fuel =>
      nextPulse ← NextPulse currentPulse;
      match nextPulse with
      | Fail _ => mret false
      | Good nextPulse =>
          topPulse ← TopSyncPulse;
          if topPulse <? num nextPulse then mret false
          else
            known ← LastKnown (num nextPulse);
            match known with
            | Fail _ => checkNextPulse fuel (num nextPulse)
            | Good _ => mret true
            end
      end
  end.

Fixpoint setNextPulse (fuel : nat) (r : recordIterator) (currentPulse : Z) : records recordIterator :=
  match fuel with
  | O => out_of_fuel
  | S fuel =>
      nextPulse ← NextPulse currentPulse;
      match nextPulse with
      | Fail e => throw e
      | Good nextPulse =>
          topPulse ← TopSyncPulse;
          if topPulse <? num nextPulse then throw (Errorf "there are no synced pulses")
          else
            known ← LastKnown (num nextPulse);
            match known with
            | Fail _ => setNextPulse fuel r (num nextPulse)
            | Good _ => mret (mkIterator 1 (num nextPulse) (read r) (needToRead r))
            end
      end
  end.

Definition HasNext (fuel : nat) : records bool :=
  r ← gets vars;
  if needToRead r <=? read r then mret false
  else
    lastKnown ← LastKnown (currentPulse r);
    match lastKnown with
    | Fail _ => checkNextPulse fuel (currentPulse r)
    | Good lastKnown =>
        if lastKnown <? u32 (currentPosition r + 1) then checkNextPulse fuel (currentPulse r) else mret true
    end.

(** The end of [Next]: the record at the iterator. *)
Definition readRecord (r : recordIterator) : records ExportedRecord :=
  id ← ask (fun w => AtPosition (v_records w) (currentPulse r) (currentPosition r));
  id ← wrapped "iterator failed to find record's position" (lift_result id);
  rec ← ask (fun w => records_ForID (v_records w) id);
  rec ← wrapped "iterator failed to find record" (lift_result rec);
  _ ← set_vars (mkIterator (currentPosition r) (currentPulse r) (u32 (read r + 1)) (needToRead r));
  mret (NumberedRecord (currentPosition r) rec).

Definition Next (fuel : nat) : records ExportedRecord :=
  r ← gets vars;
  let r := mkIterator (u32 (currentPosition r + 1)) (currentPulse r) (read r) (needToRead r) in
  lastKnown ← LastKnown (currentPulse r);
  r ← (if match lastKnown with Fail _ => true | Good lastKnown => lastKnown <? currentPosition r end
       then wrapped "iterator failed to change pulse" (setNextPulse fuel r (currentPulse r)) else mret r);
  readRecord r.

(** The loop over the iterator, at most [rounds] rounds. *)
Fixpoint Export_loop (fuel rounds : nat) : records unit :=
  match rounds with
  | O => out_of_fuel
  | S rounds =>
      has ← HasNext fuel;
      if negb has then mret tt
      else
        record ← Next fuel;
        _ ← Send stream record;
        Export_loop fuel rounds
  end.

(** [Export]; [read] of the server counts what it sent.  Nothing is sent before
    the loop, so the iterator below is replaced before it is read. *)
Definition RecordServer_Export (fuel : nat) (getRecords : GetRecords) : records unit :=
  if GR_Count getRecords =? 0 then throw ErrNilCount
  else
    pulseNumber ←
      (if negb (GR_PulseNumber getRecords =? 0) then
         topPulse ← TopSyncPulse;
         if topPulse <? GR_PulseNumber getRecords then throw ErrNotFinalPulseData
         else mret (GR_PulseNumber getRecords)
       else mret MinTimePulse);
    _ ← set_vars (mkIterator (GR_RecordNumber getRecords) pulseNumber 0 (GR_Count getRecords));
    _ ← Export_loop fuel (S (Z.to_nat (GR_Count getRecords)));
    sent ← gets sent;
    if (length sent =? 0)%nat then
      topPulse ← TopSyncPulse;
      Send stream (ShouldIterateFrom topPulse)
    else mret tt.
End Records.

(** ** pulse_exporter_server.go *)
Section Pulses.
Context (stream : list ExportedPulse -> option error).
Abbreviation pulses := (io (session unit ExportedPulse)).

(** The loop, with [read] and [currentPN]. *)
Fixpoint Pulses_loop (rounds : nat) (read count currentPN : Z) : pulses unit :=
  match rounds with
  | O => out_of_fuel
  | S rounds =>
      if count <=? read then mret tt
      else
        topPulse ← TopSyncPulse;
        if topPulse <=? currentPN then mret tt
        else
          pulse ← ask (fun w => Forwards (v_pulses w) currentPN 1);
          pulse ← lift_result pulse;
          nodes ← ask (fun w => Ret (nodes_All (v_nodes w) (num pulse)));
          nodes ← lift_result nodes;
          _ ← Send stream (exportedPulse pulse nodes);
          Pulses_loop rounds (u32 (read + 1)) count (num pulse)
  end.

Definition PulseServer_Export (getPulses : GetPulses) : pulses unit :=
  if GP_Count getPulses =? 0 then throw ErrNilCount
  else
    let rounds := S (Z.to_nat (GP_Count getPulses)) in
    if GP_PulseNumber getPulses =? 0 then
      _ ← Send stream (mkExportedPulse MinTimePulse (Entropy GenesisPulse) (Pulse_Timestamp GenesisPulse) []);
      Pulses_loop rounds 1 (GP_Count getPulses) MinTimePulse
    else Pulses_loop rounds 0 (GP_Count getPulses) (GP_PulseNumber getPulses).
End Pulses.
End Exporter.
Arguments heavyView _ _ _ : clear implicits.
