(* ===== verification/ExportedPages.v ===== *)
(** * The pages the exporter sends
    (src/ledger/heavy/exporter: record_exporter_server.go and
    pulse_exporter_server.go)

    A client that reads page after page gets every final record and pulse
    once, in order, while the node goes on finalizing. *)
From S2P Require Import Prelude Pulse PulseStore Reference HeavyNode HotData Records Store RecordStorage BadgerRecords RecordStoragesAgree NodeHistory Exporter.

(** ** What is left after a position *)

(** The pulses after [a], up to [b]. *)
Definition window (l : list Pulse) (a b : Z) : list Pulse := filter (fun p => a < num p <= b) l.
(** The records of a pulse with their numbers. *)
Definition numbered (l : record_log) (pn : Z) : list (Z * Material) :=
  imap (fun i r => (Z.of_nat i + 1, r)) (of_pulse l pn).
(** The records after a position of a pulse: the others of the pulse, and
    those of the later pulses up to the top one. *)
Definition records_after (l : record_log) (ps : list Pulse) (top pn pos : Z) : list (Z * Material) :=
  drop (Z.to_nat pos) (numbered l pn) ++ (window ps pn top ≫= fun p => numbered l (num p)).
Definition record_message (x : Z * Material) : ExportedRecord := NumberedRecord x.1 x.2.

Lemma increasing_cons p l : increasing (p :: l) -> increasing l /\ forall q, q ∈ l -> num p < num q.
Proof.
  intros Hi. split; [by apply (increasing_drop (p :: l) 1)|].
  intros q [j Hj]%list_elem_of_lookup. apply (Hi 0%nat (S j) p q); [lia|done..].
Qed.

Lemma window_nil l a b : (forall q, q ∈ l -> b < num q) -> window l a b = [].
Proof. intros Hl. apply filter_none. intros q Hq. specialize (Hl q Hq). lia. Qed.

Lemma window_more l a b b' : increasing l -> b <= b' -> window l a b `prefix_of` window l a b'.
Proof.
  intros Hl Hb. induction l as [|p l IH]; [done|]. apply increasing_cons in Hl as [Hl Hp]. unfold window.
  rewrite !filter_cons. destruct (decide (a < num p <= b)) as [Hin|Hout].
  - rewrite decide_True by lia. by apply prefix_cons, IH.
  - destruct (decide (b < num p)).
    + fold (window l a b). rewrite window_nil; [apply prefix_nil|]. intros q Hq. specialize (Hp q Hq). lia.
    + rewrite decide_False by lia. by apply IH.
Qed.

Lemma window_app l k a b : increasing (l ++ k) -> b ∈ num <$> l -> window (l ++ k) a b = window l a b.
Proof.
  intros Hi (p & -> & [i Hp]%list_elem_of_lookup)%list_elem_of_fmap. unfold window at 1. rewrite list.filter_app.
  fold (window k a (num p)). rewrite (window_nil k); [by rewrite app_nil_r|].
  intros q [j Hq]%list_elem_of_lookup. apply (Hi i (length l + j)%nat p q).
  - apply lookup_lt_Some in Hp. lia.
  - by apply lookup_app_l_Some.
  - by rewrite lookup_app_r, Nat.add_sub' by lia.
Qed.

Lemma window_step l i p b :
  increasing l -> l !! i = Some p ->
  window l (num p) b = match l !! S i with
                       | Some q => if decide (num q <= b) then q :: window l (num q) b else []
                       | None => []
                       end.
Proof.
  intros Hi Hp. assert (Hdrop : forall j q, l !! j = Some q -> window l (num q) b = window (drop (S j) l) (num q) b).
  { intros j q Hq. rewrite <- (take_drop (S j) l) at 1. unfold window at 1. rewrite list.filter_app, filter_none; [done|].
    intros x (k & [Hk Hlt]%lookup_take_Some)%list_elem_of_lookup. destruct (decide (k = j)) as [->|].
    - assert (x = q) as -> by congruence. lia.
    - specialize (Hi k j x q ltac:(lia) Hk Hq). lia. }
  rewrite (Hdrop i p Hp). destruct (l !! S i) as [q|] eqn:Hq.
  - rewrite (drop_S _ _ _ Hq). unfold window at 1. rewrite filter_cons.
    assert (num p < num q) by (apply (Hi i (S i) p q); [lia|done..]).
    assert (Hlater : forall x, x ∈ drop (S (S i)) l -> num q < num x).
    { intros x [k Hk]%list_elem_of_lookup. rewrite lookup_drop in Hk. apply (Hi (S i) (S (S i) + k)%nat q x); [lia|done..]. }
    destruct (decide (num q <= b)).
    + rewrite decide_True by lia. f_equal. rewrite (Hdrop (S i) q Hq). apply filter_ext_in.
      intros x Hx. specialize (Hlater x Hx). lia.
    + rewrite decide_False by lia. apply filter_none. intros x Hx. specialize (Hlater x Hx). lia.
  - apply lookup_ge_None in Hq. rewrite drop_ge by done. done.
Qed.

Section Pages.
Context `{LawfulRecords Rcs} `{LawfulStorage Pls} `{LawfulNodes Nds}.
Context (world : nat -> heavyView Rcs Pls Nds).
Context (ls : nat -> record_log) (ps : nat -> list Pulse) (ns : nat -> NodeStorage).

Definition top_at (t : nat) : Z := v_top (world t).

(** A node at work: what it stores is more at every call, and what is final
    stays. *)
Record grows : Prop := {
  gw_pulses t : holds (v_pulses (world t)) (ps t);
  gw_records t : keeps (v_records (world t)) (ls t);
  gw_nodes t : has_nodes (v_nodes (world t)) (ns t);
  gw_ids t : NoDup (Material_ID <$> ls t);
  gw_fit t pn : Z.of_nat (length (of_pulse (ls t) pn)) < 2^32 - 1;
  gw_range t p : p ∈ ps t -> 0 < num p < 2^32;
  gw_top t : top_at t ∈ num <$> ps t;
  gw_more t : ps t `prefix_of` ps (S t);
  gw_up t : top_at t <= top_at (S t);
  gw_final t pn : pn <= top_at t -> of_pulse (ls (S t)) pn = of_pulse (ls t) pn;
  gw_final_nodes t pn : pn <= top_at t -> ns (S t) !! pn = ns t !! pn;
  gw_known t p : p ∈ ps t -> num p <= top_at t -> is_Some (ns t !! num p);
}.
Context (Hg : grows).

Lemma later_more t t' : (t <= t')%nat -> ps t `prefix_of` ps t'.
Proof. induction 1 as [|t' Hle IH]; [done|]. etransitivity; [exact IH|]. apply (gw_more Hg). Qed.
Lemma later_up t t' : (t <= t')%nat -> top_at t <= top_at t'.
Proof. induction 1 as [|t' Hle IH]; [done|]. pose proof (gw_up Hg t'). lia. Qed.
Lemma later_final t t' pn : (t <= t')%nat -> pn <= top_at t -> of_pulse (ls t') pn = of_pulse (ls t) pn.
Proof.
  intros Hle Hp. induction Hle as [|t' Hle IH]; [done|]. rewrite <- IH. apply (gw_final Hg).
  pose proof (later_up t t' Hle). lia.
Qed.
Lemma later_nodes t t' pn : (t <= t')%nat -> pn <= top_at t -> ns t' !! pn = ns t !! pn.
Proof.
  intros Hle Hp. induction Hle as [|t' Hle IH]; [done|]. rewrite <- IH. apply (gw_final_nodes Hg).
  pose proof (later_up t t' Hle). lia.
Qed.
Lemma later_at t t' i p : (t <= t')%nat -> ps t !! i = Some p -> ps t' !! i = Some p.
Proof. intros Hle Hp. by apply (prefix_lookup_Some _ _ _ _ Hp), later_more. Qed.
Lemma increasing_at t : increasing (ps t).
Proof. apply (holds_increasing _ _ (gw_pulses Hg t)). Qed.

Lemma later_window t t' a : (t <= t')%nat -> window (ps t) a (top_at t) `prefix_of` window (ps t') a (top_at t').
Proof.
  intros Hle. pose proof (later_more t t' Hle) as [k Ek]. pose proof (increasing_at t') as Hi.
  etransitivity; [|apply window_more; [exact Hi|apply (later_up t t' Hle)]].
  rewrite Ek in Hi |- *. by rewrite window_app by (exact Hi || apply (gw_top Hg)).
Qed.

(** *** The records left *)
Definition rest (t : nat) (pn : Z) : list (Z * Material) :=
  window (ps t) pn (top_at t) ≫= fun p => numbered (ls t) (num p).
Definition left_at (t : nat) (pn pos : Z) : list (Z * Material) := records_after (ls t) (ps t) (top_at t) pn pos.

Lemma left_at_eq t pn pos : left_at t pn pos = drop (Z.to_nat pos) (numbered (ls t) pn) ++ rest t pn.
Proof. done. Qed.

Lemma later_numbered t t' pn : (t <= t')%nat -> pn <= top_at t -> numbered (ls t') pn = numbered (ls t) pn.
Proof. intros Hle Hp. unfold numbered. by rewrite (later_final t t'). Qed.

Lemma later_rest t t' pn : (t <= t')%nat -> rest t pn `prefix_of` rest t' pn.
Proof.
  intros Hle. destruct (later_window t t' pn Hle) as [k Ek]. unfold rest. rewrite Ek, bind_app.
  assert (E : forall l, (forall p, p ∈ l -> num p <= top_at t) ->
    (l ≫= fun p => numbered (ls t') (num p)) = (l ≫= fun p => numbered (ls t) (num p))).
  { intros l Hl. induction l as [|p l IH]; [done|]. cbn [mbind list_bind].
    rewrite (later_numbered t t') by (done || apply Hl; by left). f_equal. apply IH. intros q Hq. apply Hl. by right. }
  rewrite E; [by apply prefix_app_r|]. intros p [Hp _]%list_elem_of_filter. lia.
Qed.

Lemma later_left t t' pn pos : (t <= t')%nat -> pn <= top_at t -> left_at t pn pos `prefix_of` left_at t' pn pos.
Proof. intros Hle Hp. rewrite !left_at_eq, (later_numbered t t') by done. by apply prefix_app, later_rest. Qed.

Lemma rest_step t i p :
  ps t !! i = Some p ->
  rest t (num p) = match ps t !! S i with
                   | Some q => if decide (num q <= top_at t) then numbered (ls t) (num q) ++ rest t (num q) else []
                   | None => []
                   end.
Proof.
  intros Hp. unfold rest. rewrite (window_step _ _ _ _ (increasing_at t) Hp).
  destruct (ps t !! S i) as [q|]; [|done]. by destruct (decide _).
Qed.

Lemma length_numbered l pn : length (numbered l pn) = length (of_pulse l pn).
Proof. apply length_imap. Qed.
Lemma numbered_lookup l pn i : numbered l pn !! i = (fun r => (Z.of_nat i + 1, r)) <$> of_pulse l pn !! i.
Proof. unfold numbered. by rewrite list_lookup_imap. Qed.

(** *** Calls *)
Section Calls.
Context {C M : Type}.
Abbreviation S_ := (session C M).

Lemma wp_ask {A} (f : heavyView Rcs Pls Nds -> go A) a (s : S_) Q :
  f (world (clock s)) = Ret a -> Q (mkSession (S (clock s)) (vars s) (sent s)) (Good a) ->
  wp True (ask world f) s Q.
Proof. intros E HQ. unfold wp, ask. rewrite E. exact HQ. Qed.

Lemma wp_top (s : S_) Q :
  Q (mkSession (S (clock s)) (vars s) (sent s)) (Good (top_at (clock s))) -> wp True (TopSyncPulse world) s Q.
Proof. apply wp_ask. done. Qed.

Lemma wp_next (s : S_) i p Q :
  ps (clock s) !! i = Some p ->
  Q (mkSession (S (clock s)) (vars s) (sent s)) (Good (found (ps (clock s) !! S i))) ->
  wp True (ask world (fun w => Forwards (v_pulses w) (num p) 1)) s Q.
Proof.
  intros Hp. apply wp_ask. pose proof (Forwards_law _ _ i p 1 (gw_pulses Hg _) Hp) as E.
  by rewrite Nat.add_1_r in E.
Qed.
End Calls.

Lemma wp_known (s : session recordIterator ExportedRecord) i p Q :
  ps (clock s) !! i = Some p ->
  Q (mkSession (S (clock s)) (vars s) (sent s)) (Good (log_LastKnownPosition (ls (clock s)) (num p))) ->
  wp True (LastKnown world (num p)) s Q.
Proof.
  intros Hp. apply wp_ask. apply (LastKnown_law _ _ _ (gw_records Hg _)).
  apply (gw_range Hg (clock s) p). by eapply list_elem_of_lookup_2.
Qed.

(** *** The walk over the pulses *)
Abbreviation records_session := (session recordIterator ExportedRecord).
(** Calls that changed nothing but the clock. *)
Definition later (s s' : records_session) : Prop :=
  (clock s <= clock s')%nat /\ vars s' = vars s /\ sent s' = sent s.

Lemma later_trans s s' s'' : later s s' -> later s' s'' -> later s s''.
Proof. intros (? & Ev & Es) (? & Ev2 & Es2). split; [lia|]. split; congruence. Qed.

Lemma numbered_none t pn : log_LastKnownPosition (ls t) pn = Fail object_ErrNotFound -> numbered (ls t) pn = [].
Proof.
  unfold log_LastKnownPosition. destruct (Nat.eqb_spec (length (of_pulse (ls t) pn)) 0) as [E|]; [|done].
  intros _. apply nil_length_inv. by rewrite length_numbered.
Qed.

(** What one step of the walk finds: nothing, the next pulse without records,
    or with. *)
Lemma walk_step (s : records_session) i p :
  ps (clock s) !! i = Some p ->
  let t := clock s in
  match ps t !! S i with
  | None => rest t (num p) = []
  | Some q =>
      (top_at (S t) < num q -> rest t (num p) = []) /\
      (num q <= top_at (S t) -> forall t', (S t <= t')%nat -> ps t' !! S i = Some q /\ num q <= top_at t' /\
        rest t' (num p) = numbered (ls t') (num q) ++ rest t' (num q) /\
        numbered (ls t') (num q) = numbered (ls (S t)) (num q))
  end.
Proof.
  intros Hp t. pose proof (rest_step t i p Hp) as Er. destruct (ps t !! S i) as [q|] eqn:Hq; [|done]. split.
  - intros Hlt. pose proof (gw_up Hg t). by rewrite decide_False in Er by lia.
  - intros Hle t' Ht'. assert (Hq' : ps t' !! S i = Some q) by (apply (later_at t); [lia|done]).
    assert (Hp' : ps t' !! i = Some p) by (apply (later_at t); [lia|done]).
    pose proof (later_up (S t) t' Ht'). split; [done|]. split; [lia|]. split.
    + rewrite (rest_step t' i p Hp'), Hq'. by rewrite decide_True by lia.
    + by apply later_numbered.
Qed.

Lemma checkNextPulse_spec fuel s i p :
  ps (clock s) !! i = Some p -> (forall t, (length (ps t) <= i + fuel)%nat) ->
  wp True (checkNextPulse world fuel (num p)) s (fun s' r => later s s' /\ exists b, r = Good b /\
    if b then rest (clock s') (num p) <> [] else rest (clock s) (num p) = []).
Proof.
  revert s i p. induction fuel as [|fuel IH]; intros s i p Hp Hfuel.
  { exfalso. apply lookup_lt_Some in Hp. specialize (Hfuel (clock s)). lia. }
  cbn [checkNextPulse]. apply wp_bind, (wp_next _ i p); [done|]. pose proof (walk_step s i p Hp) as Hstep. cbn zeta in Hstep.
  destruct (ps (clock s) !! S i) as [q|] eqn:Hq; cbn [found].
  2: { split; [split; [cbn; lia|done]|]. by exists false. }
  apply wp_bind, wp_top. cbn [clock vars sent]. destruct Hstep as [Hnone Hsome].
  destruct (Z.ltb_spec (top_at (S (clock s))) (num q)) as [Hlt|Hle].
  { split; [split; [cbn; lia|done]|]. exists false. split; [done|by apply Hnone]. }
  specialize (Hsome Hle). apply wp_bind, (wp_known _ (S i) q); [apply Hsome; cbn; lia|]. cbn [clock vars sent].
  destruct (log_LastKnownPosition _ _) as [k|e] eqn:El.
  - split; [split; [cbn; lia|done]|]. exists true. split; [done|]. cbn [clock]. destruct (Hsome (S (S (S (clock s))))) as (_ & _ & -> & En); [lia|].
    rewrite En. destruct (Hsome (S (S (clock s)))) as (_ & _ & _ & En'); [lia|]. rewrite <- En'.
    intros [Hnil _]%app_nil. apply (f_equal length) in Hnil. rewrite length_numbered in Hnil.
    unfold log_LastKnownPosition in El. by rewrite Hnil in El.
  - assert (e = object_ErrNotFound) as ->.
    { unfold log_LastKnownPosition in El. destruct (_ =? _)%nat; [congruence|done]. }
    apply numbered_none in El. eapply wp_mono; [apply (IH _ (S i) q)|].
    + apply Hsome. cbn. lia.
    + intros t. specialize (Hfuel t). lia.
    + cbn [clock vars sent]. intros s' r [Hl (b & -> & Hb)]. split; [eapply later_trans; [|exact Hl]; split; [cbn; lia|done]|].
      exists b. split; [done|]. destruct Hl as [Hc _]. cbn [clock] in Hc. destruct b.
      * destruct (Hsome (clock s')) as (_ & _ & -> & _); [lia|]. by intros [_ ?]%app_nil.
      * destruct (Hsome (S (S (S (clock s))))) as (_ & _ & Er & En); [lia|].
        destruct (Hsome (S (S (clock s)))) as (_ & _ & _ & En'); [lia|].
        rewrite Hb, app_nil_r, En, <- En', El in Er. eapply prefix_nil_inv. rewrite <- Er. apply later_rest. lia.
Qed.

Lemma setNextPulse_spec fuel r s i p :
  ps (clock s) !! i = Some p -> (forall t, (length (ps t) <= i + fuel)%nat) -> rest (clock s) (num p) <> [] ->
  wp True (setNextPulse world fuel r (num p)) s (fun s' x => later s s' /\ exists j q,
    x = Good (mkIterator 1 (num q) (read r) (needToRead r)) /\ ps (clock s') !! j = Some q /\ (i < j)%nat /\
    num q <= top_at (clock s') /\ numbered (ls (clock s')) (num q) <> [] /\
    forall t, (clock s' <= t)%nat -> rest t (num p) = left_at t (num q) 0).
Proof.
  revert s i p. induction fuel as [|fuel IH]; intros s i p Hp Hfuel Hrest.
  { exfalso. apply lookup_lt_Some in Hp. specialize (Hfuel (clock s)). lia. }
  cbn [setNextPulse]. apply wp_bind, (wp_next _ i p); [done|]. pose proof (walk_step s i p Hp) as Hstep. cbn zeta in Hstep.
  destruct (ps (clock s) !! S i) as [q|] eqn:Hq; cbn [found]; [|done].
  apply wp_bind, wp_top. cbn [clock vars sent]. destruct Hstep as [Hnone Hsome].
  destruct (Z.ltb_spec (top_at (S (clock s))) (num q)) as [Hlt|Hle]; [by destruct Hrest; apply Hnone|].
  specialize (Hsome Hle). apply wp_bind, (wp_known _ (S i) q); [apply Hsome; cbn; lia|]. cbn [clock vars sent].
  destruct (Hsome (S (S (clock s)))) as (_ & _ & _ & En'); [lia|].
  destruct (Hsome (S (S (S (clock s))))) as (Hq3 & Ht3 & Er3 & En3); [lia|].
  destruct (log_LastKnownPosition _ _) as [k|e] eqn:El.
  - split; [split; [cbn; lia|done]|]. exists (S i), q. cbn [clock]. split_and!; [done|done|lia|done| |].
    + rewrite En3, <- En'. intros Hnil. apply (f_equal length) in Hnil. rewrite length_numbered in Hnil.
      unfold log_LastKnownPosition in El. by rewrite Hnil in El.
    + intros t Hlt. rewrite left_at_eq. apply Hsome. lia.
  - assert (e = object_ErrNotFound) as ->.
    { unfold log_LastKnownPosition in El. destruct (_ =? _)%nat; [congruence|done]. }
    apply numbered_none in El. eapply wp_mono; [apply (IH _ (S i) q)|].
    + done.
    + intros t. specialize (Hfuel t). lia.
    + cbn [clock]. intros Hnil. rewrite En3, <- En', El, Hnil in Er3. cbn [app] in Er3. apply Hrest. eapply prefix_nil_inv.
      rewrite <- Er3. apply later_rest. lia.
    + cbn [clock vars sent]. intros s' x [Hl (j & q' & -> & Hj & Hij & Ht & Hn & Er)].
      split; [eapply later_trans; [|exact Hl]; split; [cbn; lia|done]|]. destruct Hl as [Hc _]. cbn [clock] in Hc.
      exists j, q'. split_and!; [done|done|lia|done|done|].
      intros t Hlt. destruct (Hsome t) as (_ & _ & -> & ->); [lia|]. by rewrite <- En', El, Er.
Qed.

(** *** The iterator *)
Lemma u32_next pos : 0 <= pos < 2^32 - 1 -> u32 (pos + 1) = pos + 1.
Proof. intros Hp. unfold u32. apply Z.mod_small. lia. Qed.

Lemma wp_gets {S A} (f : S -> A) (s : S) (Q : S -> result A -> Prop) : Q s (Good (f s)) -> wp True (gets f) s Q.
Proof. done. Qed.

Lemma left_beyond t pn pos :
  0 <= pos -> Z.of_nat (length (numbered (ls t) pn)) <= pos -> left_at t pn pos = rest t pn.
Proof. intros H0' Hl. rewrite left_at_eq, drop_ge by lia. done. Qed.

(** Where a pulse stands: it has more records than [pos], or not. *)
Lemma known_cases t pn pos :
  0 <= pos ->
  match log_LastKnownPosition (ls t) pn with
  | Good k => k = Z.of_nat (length (numbered (ls t) pn)) /\ (k < pos + 1 -> left_at t pn pos = rest t pn)
  | Fail _ => left_at t pn pos = rest t pn
  end.
Proof.
  intros Hp. unfold log_LastKnownPosition. rewrite <- length_numbered.
  destruct (Nat.eqb_spec (length (numbered (ls t) pn)) 0) as [E|_].
  - apply left_beyond; lia.
  - split; [done|]. intros Hk. apply left_beyond; lia.
Qed.

(** The iterator stands in a stored, final pulse. *)
Record at_pulse (s : records_session) (i : nat) (p : Pulse) : Prop := {
  ap_pulse : ps (clock s) !! i = Some p;
  ap_top : num p <= top_at (clock s);
  ap_current : currentPulse (vars s) = num p;
  ap_position : 0 <= currentPosition (vars s) < 2^32 - 1;
}.

Lemma at_later s s' i p : at_pulse s i p -> later s s' -> at_pulse s' i p.
Proof.
  intros [Hp Ht Hc Hpos] (Hle & Ev & _). pose proof (later_up _ _ Hle).
  split; rewrite ?Ev; [by apply (later_at (clock s))|lia|done|done].
Qed.

Lemma HasNext_spec fuel s i p :
  at_pulse s i p -> (forall t, (length (ps t) <= i + fuel)%nat) ->
  let r := vars s in
  wp True (HasNext world fuel) s (fun s' x => later s s' /\ exists b, x = Good b /\
    if b then read r < needToRead r /\ left_at (clock s') (num p) (currentPosition r) <> []
    else needToRead r <= read r \/ left_at (clock s) (num p) (currentPosition r) = []).
Proof.
  intros [Hp Ht Hc Hpos] Hfuel r. unfold HasNext. apply wp_bind, wp_gets. fold r in Hc, Hpos |- *.
  destruct (Z.leb_spec (needToRead r) (read r)) as [Hle|Hlt].
  { split; [done|]. exists false. split; [done|by left]. }
  rewrite Hc. apply wp_bind, (wp_known _ i p); [done|]. rewrite u32_next by done.
  pose proof (known_cases (clock s) (num p) (currentPosition r) (proj1 Hpos)) as Hk.
  set (s1 := mkSession _ _ _). assert (Hl1 : later s s1) by (split; [cbn; lia|done]).
  assert (Hcheck : left_at (clock s) (num p) (currentPosition r) = rest (clock s) (num p) ->
    wp True (checkNextPulse world fuel (num p)) s1 (fun s' x => later s s' /\ exists b, x = Good b /\
    if b then read r < needToRead r /\ left_at (clock s') (num p) (currentPosition r) <> []
    else needToRead r <= read r \/ left_at (clock s) (num p) (currentPosition r) = [])).
  { intros E. eapply wp_mono; [apply (checkNextPulse_spec _ _ i p); [apply (later_at (clock s)); [cbn; lia|done]|done]|].
    intros s' x [Hl (b & -> & Hb)]. split; [by eapply later_trans|]. exists b. split; [done|]. destruct b.
    - split; [done|]. rewrite left_at_eq. by intros [_ ?]%app_nil.
    - right. rewrite E. eapply prefix_nil_inv. rewrite <- Hb. apply later_rest. cbn. lia. }
  destruct (log_LastKnownPosition _ _) as [k|e]; [|by apply Hcheck].
  destruct Hk as [Ek Hk]. destruct (Z.ltb_spec k (currentPosition r + 1)) as [Hlt'|Hge]; [by apply Hcheck, Hk|].
  split; [done|]. exists true. split; [done|]. split; [done|]. rewrite left_at_eq. intros [Hnil _]%app_nil.
  apply (f_equal length) in Hnil. rewrite length_drop in Hnil.
  rewrite (later_numbered (clock s)) in Hnil by (cbn; lia || done). cbn in Hnil. lia.
Qed.

Lemma readRecord_spec s j q n m r :
  ps (clock s) !! j = Some q -> num q <= top_at (clock s) -> currentPulse r = num q -> currentPosition r = n ->
  1 <= n -> numbered (ls (clock s)) (num q) !! Z.to_nat (n - 1) = Some (n, m) ->
  wp True (readRecord world r) s (fun s' x => (clock s <= clock s')%nat /\ sent s' = sent s /\
    vars s' = mkIterator n (num q) (u32 (read r + 1)) (needToRead r) /\ x = Good (NumberedRecord n m)).
Proof.
  intros Hq Ht Ec <- Hn Hm. set (n := currentPosition r) in *. rewrite numbered_lookup in Hm. apply fmap_Some in Hm as (m' & Hm & [= _ ->]).
  assert (Hlast : n < 2^32).
  { apply lookup_lt_Some in Hm. pose proof (gw_fit Hg (clock s) (num q)). lia. }
  assert (Hat : forall t, (clock s <= t)%nat -> of_pulse (ls t) (num q) !! Z.to_nat (n - 1) = Some m') by
    (intros t Hle; by rewrite (later_final (clock s) t)).
  assert (Hin : forall t, (clock s <= t)%nat -> m' ∈ ls t).
  { intros t Hle. specialize (Hat t Hle). apply list_elem_of_lookup_2 in Hat.
    by apply list_elem_of_filter in Hat as [_ ?]. }
  pose proof (gw_range Hg (clock s) q ltac:(by eapply list_elem_of_lookup_2)) as Hr.
  assert (Hid : record_id (Material_ID m')).
  { pose proof (keeps_ids _ _ (gw_records Hg (clock s))) as Hall. rewrite list.Forall_forall in Hall. apply Hall, Hin. lia. }
  unfold readRecord. apply wp_bind. rewrite Ec. fold n. eapply wp_ask.
  { apply (AtPosition_law _ _ _ _ (gw_records Hg _)); lia. }
  unfold log_AtPosition. rewrite decide_True by done. rewrite Hat by lia.
  apply wp_bind, wp_wrapped. cbn [lift_result wp wrap_err]. apply wp_bind. cbn [clock].
  destruct (ForID_law _ _ _ (gw_records Hg (S (clock s))) Hid) as [(r' & Er & Hr' & Ei)|[_ Hout]].
  2: { destruct Hout. apply list_elem_of_fmap. exists m'. split; [done|]. apply Hin. lia. }
  assert (r' = m') as ->.
  { assert (Hm' : m' ∈ ls (S (clock s))) by (apply Hin; lia).
    apply list_elem_of_lookup in Hr' as [a Ha], Hm' as [b Hb].
    assert (a = b) as ->; [|congruence].
    eapply NoDup_lookup; [apply (gw_ids Hg (S (clock s)))|by rewrite list_lookup_fmap, Ha|rewrite list_lookup_fmap, Hb; cbn; congruence]. }
  eapply wp_ask; [exact Er|]. apply wp_bind, wp_wrapped. split; [cbn; lia|done].
Qed.

(** The next record is the first of those left, and leaves the others. *)
Definition took (s s' : records_session) (i : nat) (p : Pulse) (n : Z) (m : Material) (x : result ExportedRecord) : Prop :=
  exists j q, (clock s <= clock s')%nat /\ sent s' = sent s /\ x = Good (NumberedRecord n m) /\ (i <= j)%nat /\
    at_pulse s' j q /\
    vars s' = mkIterator n (num q) (u32 (read (vars s) + 1)) (needToRead (vars s)) /\
    Local_Pulse (Material_ID m) = num q /\
    forall t, (clock s' <= t)%nat ->
      left_at t (num p) (currentPosition (vars s)) = (n, m) :: left_at t (num q) n.

Lemma readRecord_took s s2 i p j q n m r2 :
  (clock s <= clock s2)%nat -> sent s2 = sent s -> ps (clock s2) !! j = Some q -> (i <= j)%nat -> num q <= top_at (clock s2) ->
  r2 = mkIterator n (num q) (read (vars s)) (needToRead (vars s)) -> 1 <= n ->
  numbered (ls (clock s2)) (num q) !! Z.to_nat (n - 1) = Some (n, m) ->
  (forall t, (clock s2 <= t)%nat ->
     left_at t (num p) (currentPosition (vars s)) = left_at t (num q) (n - 1)) ->
  wp True (readRecord world r2) s2 (fun s' x => took s s' i p n m x).
Proof.
  intros Hle2 Es2 Hq Hij Htop -> Hn Hm Hl. eapply wp_mono; [by apply (readRecord_spec s2 j q n m)|].
  cbn [read needToRead]. intros s' x (Hle & Es & Ev & ->). exists j, q.
  assert (Hm' : numbered (ls (clock s')) (num q) !! Z.to_nat (n - 1) = Some (n, m)) by (by rewrite (later_numbered (clock s2))).
  pose proof Hm' as Hof. rewrite numbered_lookup in Hof. apply fmap_Some in Hof as (m' & Hof & [= _ <-]).
  split_and!; [lia|by rewrite Es|done|done| |done| |].
  - split; rewrite ?Ev; cbn [currentPulse currentPosition]; [by apply (later_at (clock s2))| |done|].
    + pose proof (later_up _ _ Hle). lia.
    + apply lookup_lt_Some in Hof. pose proof (gw_fit Hg (clock s') (num q)). lia.
  - by apply list_elem_of_lookup_2, list_elem_of_filter in Hof as [? _].
  - intros t Hlt. rewrite (Hl t ltac:(lia)), !left_at_eq.
    assert (Ht : numbered (ls t) (num q) !! Z.to_nat (n - 1) = Some (n, m)) by (rewrite (later_numbered (clock s2)); [done|lia|done]).
    rewrite (drop_S _ _ _ Ht). by replace (S (Z.to_nat (n - 1))) with (Z.to_nat n) by lia.
Qed.

Lemma Next_spec fuel s i p n m l :
  at_pulse s i p -> (forall t, (length (ps t) <= i + fuel)%nat) ->
  left_at (clock s) (num p) (currentPosition (vars s)) = (n, m) :: l ->
  wp True (Next world fuel) s (fun s' x => took s s' i p n m x).
Proof.
  intros Hap Hfuel Hleft. pose proof Hap as [Hp Ht Hc Hpos]. unfold Next. apply wp_bind, wp_gets.
  cbn [currentPulse]. rewrite Hc. apply wp_bind, (wp_known _ i p); [done|]. rewrite u32_next by done. cbn [currentPosition].
  set (pos := currentPosition (vars s)) in *. pose proof (known_cases (clock s) (num p) pos (proj1 Hpos)) as Hk.
  set (s1 := mkSession _ _ _). assert (Hl1 : later s s1) by (split; [cbn; lia|done]).
  pose proof (at_later _ _ _ _ Hap Hl1) as Hap1. apply wp_bind.
  destruct (match log_LastKnownPosition _ _ with Fail _ => true | Good k => k <? pos + 1 end) eqn:Ek.
  - assert (Hbeyond : forall t, (clock s <= t)%nat -> left_at t (num p) pos = rest t (num p)).
    { intros t Hle. rewrite !left_at_eq, (later_numbered (clock s)) by done.
      assert (E : left_at (clock s) (num p) pos = rest (clock s) (num p)).
      { destruct (log_LastKnownPosition _ _) as [k|e]; [|done]. apply Hk. by apply Z.ltb_lt. }
      rewrite left_at_eq in E. apply (f_equal length) in E. rewrite length_app in E.
      rewrite (nil_length_inv (drop _ _)); [done|lia]. }
    rewrite Hbeyond in Hleft by lia. apply wp_wrapped.
    eapply wp_mono; [apply (setNextPulse_spec _ _ _ i p); [apply Hap1|done|]|].
    { intros Hnil. pose proof (later_rest (clock s) (clock s1) (num p) ltac:(cbn; lia)) as Hpre.
      rewrite Hnil, Hleft in Hpre. by apply prefix_nil_inv in Hpre. }
    intros s2 x [(Hle & Ev & Es) (j & q & -> & Hq & Hij & Htop & Hne & Er)]. cbn in Hle, Ev, Es. cbn [wrap_err read needToRead].
    assert (Hfirst : numbered (ls (clock s2)) (num q) !! 0%nat = Some (n, m)).
    { destruct (later_rest (clock s) (clock s2) (num p) ltac:(lia)) as [k Ek']. rewrite Hleft, Er, left_at_eq in Ek' by done.
      cbn [Z.to_nat] in Ek'. rewrite drop_0 in Ek'.
      destruct (numbered (ls (clock s2)) (num q)) as [|y k']; [done|]. cbn in Ek' |- *. congruence. }
    assert (n = 1) as ->.
    { rewrite numbered_lookup in Hfirst. apply fmap_Some in Hfirst as (m' & _ & [= Hn _]). lia. }
    apply (readRecord_took s s2 i p j q); [lia|done|done|lia|done|done|lia|exact Hfirst|].
    intros t Hlt. rewrite Hbeyond by lia. by apply Er.
  - destruct (log_LastKnownPosition _ _) as [k|e]; [|done]. apply Z.ltb_ge in Ek. destruct Hk as [Ek' _].
    rewrite left_at_eq in Hleft. destruct (lookup_lt_is_Some_2 (numbered (ls (clock s)) (num p)) (Z.to_nat pos)) as [x Hx]; [lia|].
    rewrite (drop_S _ _ _ Hx) in Hleft. injection Hleft as -> _.
    assert (n = pos + 1) as ->.
    { rewrite numbered_lookup in Hx. apply fmap_Some in Hx as (m' & _ & [= Hn _]). lia. }
    apply (readRecord_took s s1 i p i p); [cbn; lia|done|apply Hap1|done|apply Hap1|done|lia| |].
    + rewrite (later_numbered (clock s)) by (cbn; lia || done). by replace (Z.to_nat (pos + 1 - 1)) with (Z.to_nat pos) by lia.
    + intros t _. by replace (pos + 1 - 1) with pos by lia.
Qed.

(** *** Pages *)

(** Where the next page begins: after the last record. *)
Definition page_end (pn pos : Z) (items : list (Z * Material)) : Z * Z :=
  match last items with Some (n, m) => (Local_Pulse (Material_ID m), n) | None => (pn, pos) end.

Lemma page_end_cons pn pos n m items :
  page_end pn pos ((n, m) :: items) = page_end (Local_Pulse (Material_ID m)) n items.
Proof. unfold page_end. rewrite list.last_cons. by destruct (last items) as [[]|]. Qed.

Lemma wp_Send {C M} (stream : list M -> option error) (m : M) (s : session C M) Q :
  Q (match stream (sent s ++ [m]) with None => mkSession (clock s) (vars s) (sent s ++ [m]) | Some _ => s end)
    (match stream (sent s ++ [m]) with None => Good tt | Some e => Fail e end) ->
  wp True (Send stream m) s Q.
Proof. unfold wp, Send. by destruct (stream _). Qed.

Definition page (stream : list ExportedRecord -> option error) (s s' : records_session) (pn pos room : Z)
    (x : result unit) (items : list (Z * Material)) : Prop :=
  (clock s <= clock s')%nat /\ sent s' = sent s ++ (record_message <$> items) /\ Z.of_nat (length items) <= room /\
  (let e := page_end pn pos items in left_at (clock s') pn pos = items ++ left_at (clock s') e.1 e.2) /\
  match x with
  | Good _ => Z.of_nat (length items) = room \/ left_at (clock s) pn pos `prefix_of` items
  | Fail e => exists m, stream (sent s' ++ [m]) = Some e
  end.

Lemma Export_loop_spec stream fuel rounds s i p :
  at_pulse s i p -> (forall t, (length (ps t) <= i + fuel)%nat) ->
  let room := needToRead (vars s) - read (vars s) in
  0 <= read (vars s) <= needToRead (vars s) -> needToRead (vars s) < 2^32 -> room < Z.of_nat rounds ->
  wp True (Export_loop world stream fuel rounds) s (fun s' x =>
    exists items, page stream s s' (num p) (currentPosition (vars s)) room x items).
Proof.
  revert s i p. induction rounds as [|rounds IH]; intros s i p Hap Hfuel room Hread Hneed Hrounds; [lia|].
  cbn [Export_loop]. apply wp_bind. eapply wp_mono; [by apply (HasNext_spec _ _ i p)|].
  intros s1 x [Hl (has & -> & Hhas)]. pose proof (at_later _ _ _ _ Hap Hl) as Hap1. destruct Hl as (Hle & Ev & Es).
  destruct has; cbn [negb].
  2: { exists []. split_and!; [done|by rewrite app_nil_r|cbn; lia|done|]. destruct Hhas as [?|Hnil].
    - left. cbn. lia.
    - right. by rewrite Hnil. }
  destruct Hhas as [Hlt Hne]. destruct (left_at (clock s1) (num p) (currentPosition (vars s))) as [|[n m] l] eqn:Hleft; [done|].
  apply wp_bind. eapply wp_mono; [apply (Next_spec _ _ i p n m l); [done|done|by rewrite Ev]|].
  unfold room in *. clear room. rewrite <- Ev in Hread, Hneed, Hrounds, Hlt |- *. intros s2 x (j & q & Hle2 & Es2 & -> & Hij & Hap2 & Ev2 & Hm & Hnext).
  apply wp_bind, wp_Send. destruct (stream (sent s2 ++ [NumberedRecord n m])) as [e|] eqn:Estream.
  { exists []. split_and!; [lia|by rewrite app_nil_r, Es2, Es|cbn; lia|done|]. by exists (NumberedRecord n m). }
  set (s3 := mkSession _ _ _). assert (Hap3 : at_pulse s3 j q) by (destruct Hap2; by split).
  assert (Er : u32 (read (vars s1) + 1) = read (vars s1) + 1) by (unfold u32; apply Z.mod_small; lia).
  eapply wp_mono; [apply (IH s3 j q Hap3)|].
  - intros t. specialize (Hfuel t). lia.
  - cbn [s3 vars]. rewrite Ev2. cbn [read needToRead]. lia.
  - cbn [s3 vars]. by rewrite Ev2.
  - cbn [s3 vars]. rewrite Ev2. cbn [read needToRead]. lia.
  - intros s4 x (items & Hle4 & Es4 & Hlen & Hend & Hx). cbn [s3 clock vars sent] in *. rewrite Ev2 in *. cbn [read needToRead currentPosition] in *.
    exists ((n, m) :: items). split_and!.
    + lia.
    + rewrite Es4, Es2, Es. cbn [fmap list_fmap]. by rewrite <- (assoc_L (++)).
    + cbn [length]. lia.
    + rewrite page_end_cons, Hm. rewrite (Hnext (clock s4)) by lia. cbn [app]. by rewrite Hend at 1.
    + destruct x as [[]|e]; [|exact Hx]. destruct Hx as [Hfull|Hall]; [left; cbn [length]; lia|right].
      etransitivity; [apply (later_left (clock s) (clock s2)); [lia|apply Hap]|].
      rewrite (Hnext (clock s2)) by lia. by apply prefix_cons.
Qed.

(** C16: Whatever the node finalizes meanwhile (while it rolls nothing back), a
    request for records after a position of a final pulse is answered with the records that follow there,
    in order and with their numbers, none left out: as many as it asked for,
    or at least all that were final when it came.  Asking again from the last
    of them goes on with the record after it.  Where there are none, it is
    told the top pulse. *)
Theorem RecordServer_Export_pages stream fuel req r0 i p :
  let pn := if GR_PulseNumber req =? 0 then MinTimePulse else GR_PulseNumber req in
  let pos := GR_RecordNumber req in
  ps 0 !! i = Some p -> num p = pn -> pn <= top_at 0 -> 0 <= pos < 2^32 - 1 -> 0 < GR_Count req < 2^32 ->
  (forall t, (length (ps t) <= i + fuel)%nat) ->
  exists s x, RecordServer_Export world stream fuel req (mkSession 0 r0 []) = Ret (s, x) /\ exists items,
    Z.of_nat (length items) <= GR_Count req /\
    (let e := page_end pn pos items in left_at (clock s) pn pos = items ++ left_at (clock s) e.1 e.2) /\
    match x with
    | Good _ =>
        (Z.of_nat (length items) = GR_Count req \/ left_at 0 pn pos `prefix_of` items) /\
        (sent s = record_message <$> items /\ items <> [] \/
         items = [] /\ exists t, sent s = [ShouldIterateFrom (top_at t)])
    | Fail e => sent s = record_message <$> items /\ exists m, stream (sent s ++ [m]) = Some e
    end.
Proof.
  intros pn pos Hp Hpn Htop Hpos Hcount Hfuel.
  apply (wp_total True); [done|].
  unfold RecordServer_Export. rewrite (proj2 (Z.eqb_neq _ _)) by lia.
  assert (Hbegin : forall s : records_session, sent s = [] ->
    wp True (if negb (GR_PulseNumber req =? 0) then
         topPulse ← TopSyncPulse world;
         if topPulse <? GR_PulseNumber req then throw ErrNotFinalPulseData else mret (GR_PulseNumber req)
       else mret MinTimePulse) s (fun s' x => x = Good pn /\ sent s' = [])).
  { intros s Es. subst pn. destruct (Z.eqb_spec (GR_PulseNumber req) 0); [done|]. cbn [negb]. apply wp_bind, wp_top.
    cbn [clock]. pose proof (later_up 0 (clock s) ltac:(lia)). rewrite (proj2 (Z.ltb_ge _ _)) by lia. done. }
  apply wp_bind. eapply wp_mono; [by apply Hbegin|]. intros s1 x [-> Es1].
  apply wp_bind. cbn [wp set_vars modify]. set (s2 := mkSession _ _ _).
  assert (Hap : at_pulse s2 i p).
  { pose proof (later_up 0 (clock s1) ltac:(lia)).
    split; cbn [s2 clock vars currentPulse currentPosition]; [by apply (later_at 0); [lia|]|lia|done|done]. }
  apply wp_bind. eapply wp_mono; [apply (Export_loop_spec stream fuel _ s2 i p Hap Hfuel)|].
  1,2,3: cbn [s2 vars read needToRead]; lia.
  unfold page. cbn [s2 clock vars sent read needToRead currentPosition]. rewrite Z.sub_0_r, Hpn. intros s3 x (items & Hle & Es3 & Hlen & Hend & Hx).
  rewrite Es1 in Es3. cbn [app] in Es3. destruct x as [[]|e].
  2: { exists items. split_and!; [done|done|done|done]. }
  assert (Hall : Z.of_nat (length items) = GR_Count req \/ left_at 0 pn pos `prefix_of` items).
  { destruct Hx as [?|Hx]; [by left|right]. etransitivity; [apply (later_left 0 (clock s1)); [lia|done]|exact Hx]. }
  apply wp_bind, wp_gets. destruct items as [|it items].
  - rewrite Es3. cbn [fmap list_fmap length Nat.eqb]. apply wp_bind, wp_top, wp_Send. cbn [clock sent]. rewrite Es3. cbn [fmap list_fmap app].
    exists []. split; [cbn; lia|]. destruct (stream _) as [e|] eqn:Estream; cbn [sent].
    + split; [done|]. split; [done|by eexists].
    + split; [done|]. split; [done|]. right. split; [done|by eexists].
  - rewrite Es3. cbn [fmap list_fmap length Nat.eqb mret io_ret wp]. exists (it :: items). split_and!; [done|done|done|]. by left.
Qed.

(** *** Pulses *)
Definition pulse_message (t : nat) (p : Pulse) : ExportedPulse := exportedPulse p (default [] (ns t !! num p)).
(** The final pulses after one, with their nodes. *)
Definition pulses_after (t : nat) (pn : Z) : list ExportedPulse := pulse_message t <$> window (ps t) pn (top_at t).

Lemma later_pulses t t' pn : (t <= t')%nat -> pulses_after t pn `prefix_of` pulses_after t' pn.
Proof.
  intros Hle. destruct (later_window t t' pn Hle) as [k Ek]. unfold pulses_after. rewrite Ek, fmap_app.
  assert (E : pulse_message t <$> window (ps t) pn (top_at t) = pulse_message t' <$> window (ps t) pn (top_at t)).
  { apply list_fmap_ext. intros j p Hj. apply list_elem_of_lookup_2, list_elem_of_filter in Hj as [Hj _].
    unfold pulse_message. by rewrite (later_nodes t t') by (lia || done). }
  rewrite E. by apply prefix_app_r.
Qed.

(** Below the top there is a next pulse, and it is final. *)
Lemma next_final t i p :
  ps t !! i = Some p -> num p < top_at t ->
  exists q, ps t !! S i = Some q /\ num q <= top_at t /\ pulses_after t (num p) = pulse_message t q :: pulses_after t (num q).
Proof.
  intros Hp Hlt. pose proof (gw_top Hg t) as (b & Eb & [k Hk]%list_elem_of_lookup)%list_elem_of_fmap.
  pose proof (increasing_at t) as Hi. assert (i < k)%nat.
  { destruct (Nat.lt_total i k) as [?|[->|Hgt]]; [done| |].
    - assert (b = p) as -> by congruence. lia.
    - specialize (Hi k i b p Hgt Hk Hp). lia. }
  destruct (lookup_lt_is_Some_2 (ps t) (S i)) as [q Hq]; [apply lookup_lt_Some in Hk; lia|]. exists q.
  assert (num q <= top_at t).
  { rewrite Eb. destruct (decide (S i = k)) as [<-|]; [replace q with b by congruence; lia|].
    specialize (Hi (S i) k q b ltac:(lia) Hq Hk). lia. }
  split_and!; [done|done|]. unfold pulses_after. rewrite (window_step _ _ _ _ Hi Hp), Hq. by rewrite decide_True.
Qed.

Abbreviation pulses_session := (session unit ExportedPulse).
Definition pulses_page (stream : list ExportedPulse -> option error) (s s' : pulses_session) (pn room : Z)
    (x : result unit) (items : list ExportedPulse) : Prop :=
  (clock s <= clock s')%nat /\ sent s' = sent s ++ items /\ Z.of_nat (length items) <= room /\
  items `prefix_of` pulses_after (clock s') pn /\
  match x with
  | Good _ => Z.of_nat (length items) = room \/ pulses_after (clock s) pn `prefix_of` items
  | Fail e => exists m, stream (sent s' ++ [m]) = Some e
  end.

Lemma Pulses_loop_spec stream rounds read count s i p :
  ps (clock s) !! i = Some p -> 0 <= read <= count -> count < 2^32 -> count - read < Z.of_nat rounds ->
  wp True (Pulses_loop world stream rounds read count (num p)) s (fun s' x =>
    exists items, pulses_page stream s s' (num p) (count - read) x items).
Proof.
  revert read s i p. induction rounds as [|rounds IH]; intros read s i p Hp Hread Hcount Hrounds; [lia|].
  cbn [Pulses_loop]. destruct (Z.leb_spec count read) as [Hle|Hlt].
  { exists []. split_and!; [done|by rewrite app_nil_r|cbn; lia|apply prefix_nil|left; cbn; lia]. }
  apply wp_bind, wp_top. destruct (Z.leb_spec (top_at (clock s)) (num p)) as [Hdone|Htop].
  { exists []. split_and!; [cbn; lia|by rewrite app_nil_r|cbn; lia|apply prefix_nil|right].
    unfold pulses_after, window. rewrite filter_none; [done|]. intros q _. lia. }
  destruct (next_final (clock s) i p Hp Htop) as (q & Hq & Hqt & _).
  apply wp_bind, (wp_next _ i p); [apply (later_at (clock s)); [cbn; lia|done]|]. cbn [clock vars sent].
  rewrite (later_at (clock s) _ (S i) q) by (lia || done). cbn [found]. apply wp_bind. cbn [lift_result wp]. apply wp_bind.
  assert (Hq2 : ps (S (S (clock s))) !! S i = Some q) by (apply (later_at (clock s)); [lia|done]).
  assert (Hqt2 : num q <= top_at (S (S (clock s)))) by (pose proof (later_up (clock s) (S (S (clock s))) ltac:(lia)) as Hup; clear -Hup Hqt; lia).
  destruct (gw_known Hg (S (S (clock s))) q) as [nodes Hn]; [by eapply list_elem_of_lookup_2|done|].
  assert (Hqr : 0 < num q < 2^32) by (apply (gw_range Hg (clock s)); by eapply list_elem_of_lookup_2).
  pose proof (nodes_All_law _ _ (num q) nodes (gw_nodes Hg (S (S (clock s)))) ltac:(lia) Hn) as En.
  eapply wp_ask; [cbn [clock]; by rewrite En|].
  apply wp_bind. cbn [lift_result wp clock vars sent]. apply wp_bind, wp_Send. cbn [clock vars sent].
  destruct (stream (sent s ++ [exportedPulse q nodes])) as [e|] eqn:Estream.
  { exists []. split_and!; [cbn; lia|by rewrite app_nil_r|cbn; lia|apply prefix_nil|by eexists]. }
  assert (Er : u32 (read + 1) = read + 1) by (unfold u32; apply Z.mod_small; lia). rewrite Er.
  eapply wp_mono; [apply (IH (read + 1) _ (S i) q); [|lia|done|lia]|].
  { apply (later_at (clock s)); [cbn; lia|done]. }
  unfold pulses_page. cbn [clock vars sent]. intros s' x (items & Hle & Es & Hlen & Hpre & Hx).
  assert (Hcons : forall t, (S (S (S (clock s))) <= t)%nat -> pulses_after t (num p) = exportedPulse q nodes :: pulses_after t (num q)).
  { intros t Hlt'. destruct (next_final t i p) as (q' & Hq' & _ & ->).
    - by apply (later_at (clock s)); [lia|].
    - pose proof (later_up (clock s) t ltac:(lia)). lia.
    - rewrite (later_at (clock s) t (S i) q) in Hq' by (lia || done). injection Hq' as <-.
      unfold pulse_message. by rewrite (later_nodes (S (S (clock s))) t), Hn by (lia || done). }
  exists (exportedPulse q nodes :: items). split_and!.
  - lia.
  - by rewrite Es, <- (assoc_L (++)).
  - cbn [length]. lia.
  - rewrite Hcons by lia. by apply prefix_cons.
  - destruct x as [[]|e]; [|exact Hx]. destruct Hx as [Hfull|Hall]; [left; cbn [length]; lia|right].
    etransitivity; [apply (later_pulses (clock s) (S (S (S (clock s))))); lia|].
    rewrite Hcons by lia. by apply prefix_cons.
Qed.

(** C19: A request for pulses after a stored one is answered with the final pulses
    that follow and the nodes of each, in order and none left out: as many as
    it asked for, or at least all that were final when it came.  A request
    from 0 gets the genesis pulse before them. *)
Theorem PulseServer_Export_pages stream req i p :
  let genesis := GP_PulseNumber req =? 0 in
  let pn := if genesis then MinTimePulse else GP_PulseNumber req in
  let first := if genesis then [exportedPulse GenesisPulse []] else [] in
  ps 0 !! i = Some p -> num p = pn -> 0 < GP_Count req < 2^32 ->
  exists s x, PulseServer_Export world stream req (mkSession 0 tt []) = Ret (s, x) /\
    match x with
    | Good _ => exists items, sent s = first ++ items /\ items `prefix_of` pulses_after (clock s) pn /\
        Z.of_nat (length (sent s)) <= GP_Count req /\
        (Z.of_nat (length (sent s)) = GP_Count req \/ pulses_after 0 pn `prefix_of` items)
    | Fail e => sent s `prefix_of` first ++ pulses_after (clock s) pn /\ exists m, stream (sent s ++ [m]) = Some e
    end.
Proof.
  intros genesis pn first Hp Hpn Hcount. apply (wp_total True); [done|].
  unfold PulseServer_Export. rewrite (proj2 (Z.eqb_neq _ _)) by lia. cbn zeta. fold genesis.
  assert (Hloop : forall s read pn', clock s = 0%nat -> sent s = first -> read = Z.of_nat (length first) -> pn' = pn -> read <= 1 ->
    wp True (Pulses_loop world stream (S (Z.to_nat (GP_Count req))) read (GP_Count req) pn') s (fun s' x =>
      match x with
      | Good _ => exists items, sent s' = first ++ items /\ items `prefix_of` pulses_after (clock s') pn /\
          Z.of_nat (length (sent s')) <= GP_Count req /\
          (Z.of_nat (length (sent s')) = GP_Count req \/ pulses_after 0 pn `prefix_of` items)
      | Fail e => sent s' `prefix_of` first ++ pulses_after (clock s') pn /\ exists m, stream (sent s' ++ [m]) = Some e
      end)).
  { intros s read pn' Ec Es Er -> Hr1. rewrite <- Hpn. eapply wp_mono; [apply (Pulses_loop_spec stream _ _ _ s i p)|].
    - by rewrite Ec.
    - lia.
    - lia.
    - lia.
    - unfold pulses_page. rewrite Ec, Es. intros s' x (items & Hle & Es' & Hlen & Hpre & Hx).
      destruct x as [[]|e]; [exists items|]; rewrite Es'.
      + rewrite length_app. split_and!; [done|done|lia|]. destruct Hx; [left; lia|by right].
      + split; [by apply prefix_app|]. by rewrite Es' in Hx. }
  destruct genesis; cbn [first].
  - apply wp_bind, wp_Send. cbn [sent app clock vars]. change (mkExportedPulse MinTimePulse _ _ []) with (exportedPulse GenesisPulse []).
    destruct (stream [exportedPulse GenesisPulse []]) as [e|] eqn:Estream.
    + split; [apply prefix_nil|]. exists (exportedPulse GenesisPulse []). exact Estream.
    + by apply Hloop.
  - by apply Hloop.
Qed.
End Pages.

(** ** Two final records, read in a page of two *)
Section Samples.
Definition exportNodes : list Node := [mkNode emptyGlobal 1].
#[local] Instance export_nodes_eq : EqDecision Node.
Proof. solve_decision. Defined.
#[local] Instance export_nodes_codec : Codec (list Node) := table_codec [exportNodes].
#[local] Existing Instance sample_codec.

Definition exportPulses : list Pulse := samplePulse <$> [65537; 65547].
Definition exportTable : NodeStorage := <[65547 := exportNodes]> (<[65537 := exportNodes]> ∅).
Abbreviation sample_view := (heavyView DB StorageMem DB).

Lemma sample_nodes : exists db : DB, has_nodes db exportTable.
Proof.
  assert (Hn : Forall node_ok exportNodes) by (apply list.Forall_singleton; split; apply emptyLocal_wf).
  pose proof (nodes_Set_law (∅ : DB) ∅ 65537 exportNodes badger_has_nodes_nil ltac:(lia) ltac:(done) Hn) as [H1 _].
  pose proof (nodes_Set_law _ _ 65547 exportNodes H1 ltac:(lia) ltac:(done) Hn) as [H2 _].
  assert (E2 : (nodes_Set (nodes_Set (∅ : DB) 65537 exportNodes).1 65547 exportNodes).2 = None) by (vm_compute; reflexivity).
  rewrite E2 in H2. eexists. exact H2.
Qed.

Lemma sample_exports : exists w : sample_view, v_top w = 65547 /\
  grows (fun _ => w) (fun _ => sampleBatch) (fun _ => exportPulses) (fun _ => exportTable).
Proof.
  destruct (append_all_holds (H0:=StorageMem_lawful) exportPulses NewStorageMem [] mem_holds_nil)
    as (pulses & _ & Hp); [by repeat constructor|]. destruct sample_nodes as [nodes Hn].
  destruct (badger_BatchSet_keeps ∅ [] sampleBatch badger_keeps_nil) as (db & _ & Hk).
  { eapply list.Forall_impl; [exact sampleBatch_ok|]. intros r Hr. right. exact (proj1 Hr). }
  { by apply positions_fit_short. }
  assert (Ee : batch_error [] sampleBatch = None) by (vm_compute; reflexivity). rewrite Ee in Hk.
  exists (mkView db pulses nodes 65547). split; [done|].
  split; intros t; unfold top_at; cbn [v_records v_pulses v_nodes v_top]; try done.
  - apply NoDup_cons_2; [|apply NoDup_singleton]. intros Hx%list_elem_of_singleton. vm_compute in Hx. discriminate Hx.
  - intros pn. pose proof (length_filter (fun r => Local_Pulse (Material_ID r) = pn) sampleBatch) as Hl. unfold of_pulse. cbn [sampleBatch length] in Hl. lia.
  - intros p (pn & -> & Hin)%list_elem_of_fmap. cbn [samplePulse num]. repeat (apply elem_of_cons in Hin as [->|Hin]; [lia|]). by apply elem_of_nil in Hin.
  - right. left.
  - intros p (pn & -> & Hin)%list_elem_of_fmap _. cbn [samplePulse num]. unfold exportTable.
    repeat (apply elem_of_cons in Hin as [->|Hin]; [vm_compute; eauto|]). by apply elem_of_nil in Hin.
Qed.

Definition exportRequest : GetRecords := mkGetRecords 65537 0 2.

Lemma RecordServer_Export_pages_witness :
  exists (w : sample_view) s, RecordServer_Export (fun _ => w) (fun _ => None) 2 exportRequest (mkSession 0 (mkIterator 0 0 0 0) []) = Ret (s, Good tt) /\
    sent s = [NumberedRecord 1 (sampleRecord 1); NumberedRecord 2 (sampleRecord 2)].
Proof.
  destruct sample_exports as (w & Hw & Hg). exists w.
  destruct (RecordServer_Export_pages (fun _ => w) (fun _ => sampleBatch) (fun _ => exportPulses) (fun _ => exportTable) Hg
    (fun _ => None) 2 exportRequest (mkIterator 0 0 0 0) 0 (samplePulse 65537)) as (s & x & E & items & Hlen & Hend & Hx).
  - reflexivity.
  - reflexivity.
  - unfold top_at. rewrite Hw. cbn. lia.
  - cbn. lia.
  - cbn. lia.
  - intros t. cbn. lia.
  - exists s. assert (El : left_at (fun _ => w) (fun _ => sampleBatch) (fun _ => exportPulses) 0 65537 0 =
      [(1, sampleRecord 1); (2, sampleRecord 2)]) by (unfold left_at, top_at; rewrite Hw; vm_compute; reflexivity).
    destruct x as [[]|e]; [|by destruct Hx as [_ [m Hm]]]. split; [exact E|].
    destruct Hx as [Hall Hsent]. change (left_at _ _ _ (clock s) _ _) with (left_at (fun _ => w) (fun _ => sampleBatch) (fun _ => exportPulses) 0 65537 0) in Hend at 1.
    change (left_at _ _ _ 0 _ _) with (left_at (fun _ => w) (fun _ => sampleBatch) (fun _ => exportPulses) 0 65537 0) in Hall.
    rewrite El in Hend, Hall. cbn [GR_Count exportRequest] in Hlen, Hall.
    assert (Ei : items = [(1, sampleRecord 1); (2, sampleRecord 2)]).
    { apply (f_equal (take 2)) in Hend. destruct Hall as [Hl|Hl].
      - rewrite take_app_le, (take_ge items) in Hend by lia. by rewrite <- Hend.
      - symmetry. apply prefix_length_eq; [exact Hl|]. cbn [length]. lia. }
    rewrite Ei in Hsent. destruct Hsent as [[Hs _]|[Hs _]]; [exact Hs|discriminate Hs].
Defined.

Lemma PulseServer_Export_pages_witness :
  exists (w : sample_view) s items, PulseServer_Export (fun _ => w) (fun _ => None) (mkGetPulses 65537 5) (mkSession 0 tt []) = Ret (s, Good tt) /\
    sent s = items /\ [exportedPulse (samplePulse 65547) exportNodes] `prefix_of` items.
Proof.
  destruct sample_exports as (w & Hw & Hg). exists w.
  destruct (PulseServer_Export_pages (fun _ => w) (fun _ => sampleBatch) (fun _ => exportPulses) (fun _ => exportTable) Hg
    (fun _ => None) (mkGetPulses 65537 5) 0 (samplePulse 65537)) as (s & x & E & Hx).
  - reflexivity.
  - reflexivity.
  - cbn. lia.
  - assert (El : forall t, pulses_after (fun _ => w) (fun _ => exportPulses) (fun _ => exportTable) t 65537 =
      [exportedPulse (samplePulse 65547) exportNodes]) by (intros t; unfold pulses_after, top_at; rewrite Hw; vm_compute; reflexivity).
    destruct x as [[]|e]; [|by destruct Hx as [_ [m Hm]]]. destruct Hx as (items & Hs & Hpre & Hlen & Hall).
    exists s, items. split; [exact E|]. split; [exact Hs|]. cbn [GP_PulseNumber Z.eqb] in Hpre, Hall. rewrite El in Hpre, Hall.
    destruct Hall as [Hl|Hall]; [|exact Hall]. exfalso. cbn in Hs. rewrite Hs in Hl. apply prefix_length in Hpre. cbn in Hl, Hpre. lia.
Defined.
End Samples.
