(* ===== verification/BigInt.v ===== *)
(** * Decimal big integers and safe arithmetic
    (math/big, src/logicrunner/builtin/foundation/safemath)

    A [big.Int] is a [Z]; [SetString] and [String] are its decimal text. *)
From Stdlib Require Import Ascii Decimal DecimalString DecimalZ DecimalFacts.
From S2P Require Import Prelude.

(** [new(big.Int).SetString(s, 10)]: an optional sign and digits. *)
Definition SetString (s : string) : option Z :=
  match s with
  | String "+"%char s' => option_map (fun d => Z.of_int (Pos d)) (NilZero.uint_of_string s')
  | _ => option_map Z.of_int (NilZero.int_of_string s)
  end.

(** [x.String()] *)
Definition big_String (z : Z) : string := NilZero.string_of_int (Z.to_int z).

(** [x.Sign()] *)
Definition Sign (z : Z) : Z := Z.sgn z.

(** ** safemath.go *)
Definition safemath_Sub (a b : Z) : result Z :=
  if a <? b then Fail (Errorf "subtrahend must be smaller than minuend") else Good (a - b).

Definition safemath_Add (a b : Z) : result Z :=
  let res := a + b in
  if res <? a then Fail (Errorf "overflow at addition") else Good res.

Lemma uint_text_sign d c s :
  NilZero.string_of_uint d = String c s -> c <> "+"%char /\ c <> "-"%char.
Proof. destruct d; intros [= <- _]; done. Qed.

Lemma string_uint_nonempty d : NilZero.string_of_uint d <> EmptyString.
Proof. by destruct d. Qed.

(** Printing and parsing back. *)
Lemma SetString_String z : SetString (big_String z) = Some z.
Proof.
  unfold SetString, big_String.
  assert (H : NilZero.int_of_string (NilZero.string_of_int (Z.to_int z)) = Some (Z.to_int z)).
  { apply NilZero.isi; destruct z as [|p|p]; simpl; try done.
    all: intros [= E]; by apply (DecimalPos.Unsigned.to_uint_nonnil p). }
  assert (Hp : forall s, NilZero.string_of_int (Z.to_int z) <> String "+"%char s).
  { intros s. destruct (Z.to_int z) as [d|d]; simpl; [|done]. intros E.
    by apply uint_text_sign in E as [? _]. }
  destruct (NilZero.string_of_int (Z.to_int z)) as [|c s] eqn:E; [done|].
  rewrite H. simpl. rewrite DecimalZ.of_to.
  destruct c as [[] [] [] [] [] [] [] []]; try done. by destruct (Hp s).
Qed.

Lemma safemath_Sub_good a b c : safemath_Sub a b = Good c <-> b <= a /\ c = a - b.
Proof.
  unfold safemath_Sub. destruct (Z.ltb_spec a b); split; try done; try lia.
  - intros [= <-]. lia.
  - intros [_ ->]. done.
Qed.

Lemma safemath_Add_good a b c : safemath_Add a b = Good c <-> 0 <= b /\ c = a + b.
Proof.
  unfold safemath_Add. cbv zeta. destruct (Z.ltb_spec (a + b) a); split; try done; try lia.
  - intros [= <-]. lia.
  - intros [_ ->]. done.
Qed.
