(* ===== verification/Foundation.v ===== *)
(** * Contract foundation (src/logicrunner/builtin/foundation, src/application/appfoundation)

    [StableMap] with its deterministic serialization form, and the text
    helpers of the contracts (shard index, address trimming and format).
    Strings are byte strings; case folding and trimming are those of ASCII. *)
From Stdlib Require Import Ascii.
From stdpp Require Import sorting.
From S2P Require Import Prelude Reference.

Set Warnings "-register-all".

Abbreviation StableMap := (gmap string string).

Fixpoint string_bytes (s : string) : list Z :=
  match s with
  | EmptyString => []
  | String c s' => Z.of_N (N_of_ascii c) :: string_bytes s'
  end.

(** [strings.Compare] *)
Definition strings_Compare (a b : string) : Z := bytesCompare (string_bytes a) (string_bytes b).

(** The key order of [slice]. *)
Definition pair_le (x y : string * string) : Prop := strings_Compare x.1 y.1 <= 0.
#[export] Instance pair_le_dec : RelDecision pair_le := fun x y => Z_le_dec _ _.

(** [newMapFromSlice]: later pairs overwrite earlier ones. *)
Definition newMapFromSlice (s : list (string * string)) : StableMap :=
  foldl (fun m pair => <[pair.1 := pair.2]> m) ∅ s.

(** [range m] visits the map in any order: the pairs in the order visited,
    then sorted by key. *)
Definition slice_of (visited : list (string * string)) : list (string * string) :=
  merge_sort pair_le visited.
Definition slice (m : StableMap) : list (string * string) := slice_of (map_to_list m).

(** The pairs of an [interface{}] value decoded from JSON. *)
Inductive Value : Type :=
  | VString (s : string)
  | VNumber (z : Z)
  | VList (l : list Value)
  | VOther.

Fixpoint fromInterface_loop (m : StableMap) (s : list Value) : result StableMap :=
  match s with
  | [] => Good m
  | VList elem :: s' =>
      match elem with
      | k :: v :: _ =>
          match k with
          | VString k =>
              match v with
              | VString v => fromInterface_loop (<[k := v]> m) s'
              | _ => Fail (Errorf "failed to parse value")
              end
          | _ => Fail (Errorf "failed to parse key")
          end
      | _ => Fail (Errorf "wrong number of elements in pair")
      end
  | _ :: _ => Fail (Errorf "failed to parse slice")
  end.

Definition NewStableMapFromInterface (i : Value) : result StableMap :=
  match i with
  | VList s => fromInterface_loop ∅ s
  | _ => Fail (Errorf "bad interface content")
  end.

(** ** crypto.go: 32-bit FNV-1a *)
Definition fnv32a (s : string) : Z :=
  foldl (fun h b => u32 (Z.lxor h b * 16777619)) 2166136261 (string_bytes s).

Definition GetShardIndex (s : string) (mod' : Z) : go Z :=
  if mod' =? 0 then Panic "index out of range" else Ret (fnv32a s mod mod').

(** ** helpers.go *)
Definition code (c : ascii) : Z := Z.of_N (N_of_ascii c).

Definition is_space (c : ascii) : bool :=
  ((9 <=? code c) && (code c <=? 13)) || (code c =? 32).

Fixpoint TrimLeft (s : string) : string :=
  match s with
  | String c s' => if is_space c then TrimLeft s' else s
  | EmptyString => EmptyString
  end.

Fixpoint reverse_append (s acc : string) : string :=
  match s with
  | EmptyString => acc
  | String c s' => reverse_append s' (String c acc)
  end.
Definition reverse_string (s : string) : string := reverse_append s EmptyString.

Definition TrimSpace (s : string) : string :=
  reverse_string (TrimLeft (reverse_string (TrimLeft s))).

(** [strings.Join(strings.Split(s, "\n"), "")] *)
Fixpoint drop_newlines (s : string) : string :=
  match s with
  | EmptyString => EmptyString
  | String c s' => if code c =? 10 then drop_newlines s' else String c (drop_newlines s')
  end.

Definition lower (c : ascii) : ascii :=
  if (65 <=? code c) && (code c <=? 90) then ascii_of_N (Z.to_N (code c + 32)) else c.
Fixpoint ToLower (s : string) : string :=
  match s with
  | EmptyString => EmptyString
  | String c s' => String (lower c) (ToLower s')
  end.

Definition TrimAddress (address : string) : string :=
  ToLower (drop_newlines (TrimSpace address)).

(** [^(0x)?[\dA-Fa-f]{40}$] *)
Definition is_hex (c : ascii) : bool :=
  ((48 <=? code c) && (code c <=? 57)) || ((65 <=? code c) && (code c <=? 70)) ||
  ((97 <=? code c) && (code c <=? 102)).
Fixpoint all_hex (s : string) : bool :=
  match s with
  | EmptyString => true
  | String c s' => is_hex c && all_hex s'
  end.
Definition hex40 (s : string) : bool := (String.length s =? 40)%nat && all_hex s.
Definition IsEthereumAddress (s : string) : bool :=
  hex40 s ||
  match s with
  | String "0"%char (String "x"%char s') => hex40 s'
  | _ => false
  end.

(** ** The serialization of stable maps *)
Lemma string_bytes_inj a b : string_bytes a = string_bytes b -> a = b.
Proof.
  revert b. induction a as [|c a IH]; intros [|d b]; simpl; try done.
  intros [= Hc Hs]. f_equal; [|by apply IH].
  rewrite <- (ascii_N_embedding c), <- (ascii_N_embedding d). f_equal. lia.
Qed.

#[export] Instance pair_le_total : Total pair_le.
Proof.
  intros x y. unfold pair_le, strings_Compare.
  rewrite (bytesCompare_antisym (string_bytes x.1) (string_bytes y.1)). lia.
Qed.

#[export] Instance pair_le_trans : Transitive pair_le.
Proof. intros x y z. apply bytesCompare_trans. Qed.

Lemma pair_le_antisym x y : pair_le x y -> pair_le y x -> x.1 = y.1.
Proof.
  unfold pair_le, strings_Compare.
  rewrite (bytesCompare_antisym (string_bytes x.1) (string_bytes y.1)). intros H1 H2.
  apply string_bytes_inj, bytesCompare_eq. lia.
Qed.

Lemma NoDup_keys (l : list (string * string)) k v w :
  NoDup (l.*1) -> (k, v) ∈ l -> (k, w) ∈ l -> v = w.
Proof.
  intros HN Hv Hw. rewrite (elem_of_list_to_map (M := gmap string)) in Hv, Hw by done.
  congruence.
Qed.

Lemma sorted_keys_unique l1 l2 :
  NoDup (l1.*1) -> Sorted pair_le l1 -> Sorted pair_le l2 -> l1 ≡ₚ l2 -> l1 = l2.
Proof.
  intros HN H1 H2 HP. apply (Sorted_unique_strong pair_le); [|done..].
  intros [k v] [k' v'] Hx Hy Hxy Hyx. rewrite <- HP in Hy.
  pose proof (pair_le_antisym _ _ Hxy Hyx) as E. simpl in E. subst.
  f_equal. by eapply NoDup_keys.
Qed.

Lemma newMapFromSlice_snoc l k v : newMapFromSlice (l ++ [(k, v)]) = <[k := v]> (newMapFromSlice l).
Proof. unfold newMapFromSlice. by rewrite foldl_snoc. Qed.

Lemma newMapFromSlice_lookup l k :
  newMapFromSlice l !! k = last (snd <$> filter (fun p => p.1 = k) l).
Proof.
  induction l as [|[k' v] l IH] using rev_ind; [done|].
  rewrite newMapFromSlice_snoc, list.filter_app, fmap_app.
  destruct (decide (k' = k)) as [->|Hne].
  - rewrite lookup_insert_eq, filter_cons_True, filter_nil by done. cbn [fmap list_fmap snd].
    by rewrite list.last_snoc.
  - rewrite lookup_insert_ne, IH by done.
    rewrite filter_cons_False, filter_nil by done. cbn [fmap list_fmap]. by rewrite app_nil_r.
Qed.

(** Without repeated keys the order of the pairs does not matter. *)
Lemma newMapFromSlice_map l : NoDup (l.*1) -> newMapFromSlice l = list_to_map l.
Proof.
  intros HN. apply map_eq. intros k. rewrite newMapFromSlice_lookup.
  destruct (list_to_map l !! k) as [v|] eqn:E.
  - apply elem_of_list_to_map in E; [|done].
    destruct (last (snd <$> filter (fun p => p.1 = k) l)) as [w|] eqn:El.
    + apply last_Some_elem_of, list_elem_of_fmap in El as ([k' w'] & -> & Hin).
      apply list_elem_of_filter in Hin as [Hk Hin]. simpl in *. subst.
      f_equal. by eapply NoDup_keys.
    + apply last_None in El. apply fmap_nil_inv in El.
      assert (Hin : (k, v) ∈ filter (fun p => p.1 = k) l) by (by apply list_elem_of_filter).
      rewrite El in Hin. by apply elem_of_nil in Hin.
  - apply not_elem_of_list_to_map in E.
    destruct (last (snd <$> filter (fun p => p.1 = k) l)) as [w|] eqn:El; [|done].
    apply last_Some_elem_of, list_elem_of_fmap in El as ([k' w'] & -> & Hin).
    apply list_elem_of_filter in Hin as [Hk Hin]. simpl in *. subst.
    destruct E. apply list_elem_of_fmap. by exists (k, w').
Qed.

(** C40: The serialized form of a [StableMap] is the same whatever order the
    runtime visits the map in, its keys are in increasing order, and reading
    it back gives the map. *)
Theorem StableMap_stable (m : StableMap) visited :
  visited ≡ₚ map_to_list m ->
  slice_of visited = slice m /\ Sorted pair_le (slice m) /\ newMapFromSlice (slice m) = m.
Proof.
  intros HP. unfold slice, slice_of.
  pose proof (merge_sort_Permutation pair_le (map_to_list m)) as HM.
  assert (HN : NoDup ((merge_sort pair_le (map_to_list m)).*1))
    by (rewrite HM; apply NoDup_fst_map_to_list).
  split; [|split].
  - symmetry. apply sorted_keys_unique; [done|apply Sorted_merge_sort, _..|].
    by rewrite !merge_sort_Permutation, HP.
  - apply Sorted_merge_sort, _.
  - rewrite newMapFromSlice_map by done. rewrite (list_to_map_proper _ (map_to_list m)) by done.
    apply list_to_map_to_list.
Qed.

Lemma StableMap_stable_witness :
  slice_of [("b", "2"); ("a", "1")] = slice (<["a" := "1"]> {["b" := "2"]}) /\
  Sorted pair_le (slice (<["a" := "1"]> {["b" := "2"]})) /\
  newMapFromSlice (slice (<["a" := "1"]> {["b" := "2"]})) = <["a" := "1"]> {["b" := "2"]}.
Proof.
  apply (StableMap_stable (<["a" := "1"]> {["b" := "2"]}) [("b", "2"); ("a", "1")]).
  vm_compute. constructor.
Defined.
