(* ===== verification/World.v ===== *)
(** * The contract runtime as the contracts see it

    The data of every built-in contract, the world of objects, and the monad
    of a contract method.  A method runs on the state of its own object and
    the rest of the world, which it changes only by calling other objects
    through proxies, by creating children, and by registering saga calls that
    run later.  The runtime itself (src/logicrunner, the generated proxies
    and wrappers) is reduced to these rules:
    - a mutating call takes its object out of the world while it runs (the
      object is busy) and puts the new state back when the method returns,
      whether it returns an error or not;
    - a call of an immutable method leaves the state of its object alone;
    - a failure of the routing itself, or a panic, is a system error: the
      method is cut off, its state and its saga calls are dropped, and its
      caller gets an error;
    - a missing object or one of another prototype is an error answer. *)
From S2P Require Import Prelude Pulse Reference BigInt Foundation.

Abbreviation Reference := Global.

(** ** Contract data *)
Record SagaAcceptInfo : Type := mkAccept {
  sa_Amount : string;
  sa_FromMember : Reference;
  sa_Request : Reference;
}.

Record Account : Type := mkAccount { acc_Balance : string }.
Record CostCenter : Type := mkCostCenter { FeeMember : option Reference }.
Record Wallet : Type := mkWallet { Accounts : StableMap; Deposits : StableMap }.
Record Deposit : Type := mkDeposit {
  Balance : string;
  PulseDepositUnHold : Z;
  MigrationDaemonConfirms : StableMap;
  Amount : string;
  TxHash : string;
  VestingType : Z;
  Lockup : Z;
  Vesting : Z;
  VestingStep : Z;
  IsConfirmed : bool;
}.
Record Member : Type := mkMember {
  PublicKey : string;
  MigrationAddress : string;
  m_Wallet : Reference;
}.
Record VestingParams : Type := mkParams {
  vp_Lockup : Z;
  vp_Vesting : Z;
  vp_VestingStep : Z;
}.
Record MigrationAdmin : Type := mkMigrationAdmin {
  MigrationAdminMember : Reference;
  MigrationAddressShards : list Reference;
  ma_VestingParams : VestingParams;
}.
Record MigrationDaemon : Type := mkMigrationDaemon {
  IsActive : bool;
  MigrationDaemonMember : Reference;
}.
Record MigrationShard : Type := mkMigrationShard {
  ms_Map : StableMap;
  FreeMigrationAddresses : list string;
}.
Record PKShard : Type := mkPKShard { pk_Map : StableMap }.
Record RootDomain : Type := mkRootDomain { PublicKeyShards : list Reference }.
Record NodeDomain : Type := mkNodeDomain { NodeIndexPublicKey : StableMap }.
Record NodeRecord : Type := mkNodeRecord { nr_PublicKey : string; nr_Role : Z }.

Inductive Object : Type :=
  | OAccount (o : Account)
  | OCostCenter (o : CostCenter)
  | OWallet (o : Wallet)
  | ODeposit (o : Deposit)
  | OMember (o : Member)
  | OMigrationAdmin (o : MigrationAdmin)
  | OMigrationDaemon (o : MigrationDaemon)
  | OMigrationShard (o : MigrationShard)
  | OPKShard (o : PKShard)
  | ORootDomain (o : RootDomain)
  | ONodeDomain (o : NodeDomain)
  | ONodeRecord (o : NodeRecord).

(** A prototype: how objects of a class sit in the world. *)
Class Prototype (T : Type) : Type := {
  to_object : T -> Object;
  of_object : Object -> option T;
  of_to_object : forall t, of_object (to_object t) = Some t;
  to_of_object : forall o t, of_object o = Some t -> o = to_object t;
}.

Ltac prototype inj proj :=
  refine {| to_object := inj; of_object := proj |};
  intros; simplify_eq/=; repeat case_match; by simplify_eq.

#[export] Instance proto_account : Prototype Account.
Proof. prototype OAccount (fun o => match o with OAccount t => Some t | _ => None end). Defined.
#[export] Instance proto_costcenter : Prototype CostCenter.
Proof. prototype OCostCenter (fun o => match o with OCostCenter t => Some t | _ => None end). Defined.
#[export] Instance proto_wallet : Prototype Wallet.
Proof. prototype OWallet (fun o => match o with OWallet t => Some t | _ => None end). Defined.
#[export] Instance proto_deposit : Prototype Deposit.
Proof. prototype ODeposit (fun o => match o with ODeposit t => Some t | _ => None end). Defined.
#[export] Instance proto_member : Prototype Member.
Proof. prototype OMember (fun o => match o with OMember t => Some t | _ => None end). Defined.
#[export] Instance proto_migrationadmin : Prototype MigrationAdmin.
Proof. prototype OMigrationAdmin (fun o => match o with OMigrationAdmin t => Some t | _ => None end). Defined.
#[export] Instance proto_migrationdaemon : Prototype MigrationDaemon.
Proof. prototype OMigrationDaemon (fun o => match o with OMigrationDaemon t => Some t | _ => None end). Defined.
#[export] Instance proto_migrationshard : Prototype MigrationShard.
Proof. prototype OMigrationShard (fun o => match o with OMigrationShard t => Some t | _ => None end). Defined.
#[export] Instance proto_pkshard : Prototype PKShard.
Proof. prototype OPKShard (fun o => match o with OPKShard t => Some t | _ => None end). Defined.
#[export] Instance proto_rootdomain : Prototype RootDomain.
Proof. prototype ORootDomain (fun o => match o with ORootDomain t => Some t | _ => None end). Defined.
#[export] Instance proto_nodedomain : Prototype NodeDomain.
Proof. prototype ONodeDomain (fun o => match o with ONodeDomain t => Some t | _ => None end). Defined.
#[export] Instance proto_noderecord : Prototype NodeRecord.
Proof. prototype ONodeRecord (fun o => match o with ONodeRecord t => Some t | _ => None end). Defined.

(** ** References are unlimited *)
Definition nat_ref (n : nat) : Reference :=
  let l := mkLocal MinTimePulse [Z.of_nat n] in mkGlobal l l.
Definition ref_nat (r : Reference) : nat := Z.to_nat (nth 0 (hash (addressLocal r)) 0).

#[export] Instance Reference_infinite : Infinite Reference.
Proof.
  apply (inj_infinite nat_ref (fun r => Some (ref_nat r))).
  intros n. unfold ref_nat, nat_ref. simpl. by rewrite Nat2Z.id.
Defined.

(** ** The world and the method monad *)
Inductive SagaMethod : Type := MemberAccept | DepositAccept.
Record Saga : Type := mkSaga {
  saga_target : Reference;
  saga_method : SagaMethod;
  saga_arg : SagaAcceptInfo;
}.

(** [used] are all references ever given out. *)
Record World : Type := mkWorld {
  objects : gmap Reference Object;
  sagas : list Saga;
  used : gset Reference;
}.

Inductive outcome (A : Type) : Type :=
  | Done (a : A)
  | Err (e : error)
  | Crash (msg : string).
Arguments Done {_} _.
Arguments Err {_} _.
Arguments Crash {_} _.

(** What a running method sees: its reference and state, the saga calls it
    registered, and the world. *)
Record Frame (T : Type) : Type := mkFrame {
  f_me : Reference;
  f_self : T;
  f_out : list Saga;
  f_world : World;
}.
Arguments mkFrame {_} _ _ _ _.
Arguments f_me {_} _.
Arguments f_self {_} _.
Arguments f_out {_} _.
Arguments f_world {_} _.

Definition M (T A : Type) : Type := Frame T -> Frame T * outcome A.

#[export] Instance M_ret T : MRet (M T) := fun A a fr => (fr, Done a).
#[export] Instance M_bind T : MBind (M T) := fun A B f m fr =>
  match m fr with
  | (fr', Done a) => f a fr'
  | (fr', Err e) => (fr', Err e)
  | (fr', Crash s) => (fr', Crash s)
  end.

Section Monad.
Context {T : Type}.

Definition err {A} (e : error) : M T A := fun fr => (fr, Err e).
Definition fail_with {A} (msg : string) : M T A := err (Errorf msg).
Definition crash {A} (msg : string) : M T A := fun fr => (fr, Crash msg).

(** [x, err := m; if err != nil { return wrap(err, msg) }] *)
Definition wrapping {A} (msg : string) (m : M T A) : M T A := fun fr =>
  match m fr with
  | (fr', Err e) => (fr', Err (Wrap e msg))
  | r => r
  end.

(** [x, err := m] with the error kept as a value. *)
Definition try {A} (m : M T A) : M T (result A) := fun fr =>
  match m fr with
  | (fr', Done a) => (fr', Done (Good a))
  | (fr', Err e) => (fr', Done (Fail e))
  | (fr', Crash s) => (fr', Crash s)
  end.

Definition of_result {A} (r : result A) : M T A :=
  match r with Good a => mret a | Fail e => err e end.
Definition of_go {A} (r : go A) : M T A :=
  match r with Ret a => mret a | Panic s => crash s end.
Definition of_option {A} (msg : string) (o : option A) : M T A :=
  match o with Some a => mret a | None => fail_with msg end.
Definition guard_err (c : bool) (msg : string) : M T unit :=
  if c then mret tt else fail_with msg.

Definition self : M T T := fun fr => (fr, Done (f_self fr)).
Definition GetReference : M T Reference := fun fr => (fr, Done (f_me fr)).
Definition set_self (t : T) : M T unit := fun fr =>
  (mkFrame (f_me fr) t (f_out fr) (f_world fr), Done tt).

(** [new(big.Int).SetString(s, 10)] with its [ok] checked. *)
Definition parse_big (s msg : string) : M T Z := of_option msg (SetString s).
End Monad.

(** Whether the platform can route a call to a reference at all. *)
Class Routing : Type := routes : Reference -> bool.

Section Calls.
Context `{Routing} {T : Type}.

(** [proxy.GetObject(ref).Method(...)] for a mutating method. *)
Definition call {U A} `{Prototype U} (ref : Reference) (body : M U A) : M T A := fun fr =>
  if negb (routes ref) then (fr, Crash "system error")
  else
    let w := f_world fr in
    match objects w !! ref ≫= of_object with
    | None => (fr, Err (Errorf "index not found"))
    | Some u =>
        let '(fr', r) := body (mkFrame ref u [] (mkWorld (delete ref (objects w)) (sagas w) (used w))) in
        let w' := f_world fr' in
        let resume t out := mkFrame (f_me fr) (f_self fr) (f_out fr)
          (mkWorld (<[ref := to_object t]> (objects w')) (sagas w' ++ out) (used w')) in
        match r with
        | Crash s => (resume u [], Err (Errorf "executor error"))
        | Done a => (resume (f_self fr') (f_out fr'), Done a)
        | Err e => (resume (f_self fr') (f_out fr'), Err e)
        end
    end.

(** The same for an [ins:immutable] method. *)
Definition call_immutable {U A} `{Prototype U} (ref : Reference) (body : M U A) : M T A := fun fr =>
  if negb (routes ref) then (fr, Crash "system error")
  else
    let w := f_world fr in
    match objects w !! ref ≫= of_object with
    | None => (fr, Err (Errorf "index not found"))
    | Some u =>
        let '(fr', r) := body (mkFrame ref u [] w) in
        let w' := f_world fr' in
        let resume out := mkFrame (f_me fr) (f_self fr) (f_out fr)
          (mkWorld (objects w') (sagas w' ++ out) (used w')) in
        match r with
        | Crash s => (resume [], Err (Errorf "executor error"))
        | Done a => (resume (f_out fr'), Done a)
        | Err e => (resume (f_out fr'), Err e)
        end
    end.

(** A proxied saga method only registers the call. *)
Definition call_saga (ref : Reference) (method : SagaMethod) (arg : SagaAcceptInfo) : M T unit :=
  fun fr =>
    if negb (routes ref) then (fr, Crash "system error")
    else (mkFrame (f_me fr) (f_self fr) (f_out fr ++ [mkSaga ref method arg]) (f_world fr), Done tt).

(** [holder.AsChild(parent)]: a constructor's object under a new reference. *)
Definition AsChild {U} `{Prototype U} (holder : result U) (parent : Reference) : M T Reference :=
  fun fr =>
    if negb (Global_IsObjectReference parent) then (fr, Err (Errorf "Failed to save AsChild"))
    else if negb (routes parent) then (fr, Crash "system error")
    else
      match holder with
      | Fail e => (fr, Err e)
      | Good u =>
          let w := f_world fr in
          let ref := fresh (used w) in
          (mkFrame (f_me fr) (f_self fr) (f_out fr)
             (mkWorld (<[ref := to_object u]> (objects w)) (sagas w) ({[ref]} ∪ used w)), Done ref)
      end.
End Calls.
