(* ===== verification/Contracts.v ===== *)
(** * The built-in contracts (src/application/builtin/contract, src/applicationbase/builtin/contract)

    Cost center, account, deposit and wallet, in the order of their calls,
    each with its constructor and methods as programs of the method monad;
    the other contracts are in Members.v. *)
From S2P Require Import Prelude Pulse Reference BigInt Foundation Vesting World.

(** What the contracts take from outside their code: the request being
    executed, the text form of references, the genesis references, the key
    format, and the random source. *)
Class ContractEnv : Type := {
  env_routing :: Routing;
  GetPulseNumber : result Z;
  GetRequestReference : result Reference;
  ref_String : Reference -> string;
  NewObjectReferenceFromString : string -> result Reference;
  GetCostCenter : Reference;
  GetMigrationAdminMember : Reference;
  GetMigrationAdmin : Reference;
  GetRootDomain : Reference;
  ContractRootMember : Reference;
  GetNodeDomain : Reference;
  GetMigrationDaemon : Reference -> Reference;
  IsMigrationDaemonMember : Reference -> bool;
  ExtractCanonicalPublicKey : string -> result string;
  NewSource_Int63 : Z;
}.

Definition FundsDepositName : string := "genesis_deposit".
Definition XNS : string := "XNS".

Record DaemonConfirm : Type := mkDaemonConfirm { dc_Reference : string; dc_Amount : string }.
Record DepositOut : Type := mkDepositOut {
  do_Balance : string;
  do_HoldStartDate : Z;
  do_PulseDepositUnHold : Z;
  do_MigrationDaemonConfirms : list DaemonConfirm;
  do_Amount : string;
  do_TxHash : string;
  do_VestingType : Z;
  do_Lockup : Z;
  do_Vesting : Z;
  do_VestingStep : Z;
}.

(** The answers of API calls ([interface{}] in the code). *)
Inductive Reply : Type :=
  | NoReply
  | TransferResponse (Fee : string)
  | GetBalanceResponse (b : string) (d : list DepositOut)
  | CreateResponse (ref : string)
  | MigrationCreateResponse (ref migrationAddress : string)
  | GetResponse (ref migrationAddress : string)
  | Text (s : string)
  | AddMaResponse (Count : Z)
  | GetAddressCountResponse (counts : list (Z * Z))
  | CheckDaemonResponse (Status : string)
  | DepositMigrationResult (memberReference : string).

(** [interface{}] parameters decoded from JSON. *)
Abbreviation Params := (gmap string Value).
Definition string_param (params : Params) (key : string) : option string :=
  match params !! key with Some (VString s) => Some s | _ => None end.

Section Contracts.
Context `{ContractEnv}.

(** ** costcenter.go *)
Definition CostCenter_New (feeMember : option Reference) : result CostCenter :=
  Good (mkCostCenter feeMember).
Definition GetFeeMember : M CostCenter (option Reference) := cc ← self; mret (FeeMember cc).
Definition Fee : string := "100000000".
Definition CalcFee (amountStr : string) : M CostCenter string := mret Fee.

(** ** account.go *)
Definition Account_New (balance : string) : result Account := Good (mkAccount balance).
Definition Account_GetBalance : M Account string := a ← self; mret (acc_Balance a).

Definition Account_transferToMember (amountStr : string) (toMember fromMember request : Reference)
    : M Account unit :=
  call_saga toMember MemberAccept (mkAccept amountStr fromMember request).

Definition Account_Transfer (amountStr : string) (toMember fromMember request : Reference)
    : M Account Reply :=
  amount ← parse_big amountStr "can't parse input amount";
  guard_err (0 <? Sign amount) "amount must be larger then zero";;
  let ccRef := GetCostCenter in
  feeStr ← wrapping "failed to calculate fee for amount" (call_immutable ccRef (CalcFee amountStr));
  feeMember_total ←
    (if bool_decide (feeStr <> "0") then
       fee ← parse_big feeStr "can't parse input feeStr";
       toFeeMember ← wrapping "failed to get fee member" (call_immutable ccRef GetFeeMember);
       total ← wrapping "failed to calculate totalSum for amount" (of_result (safemath_Add fee amount));
       mret (toFeeMember, total)
     else mret (None, amount));
  let '(toFeeMember, amount) := feeMember_total in
  currentBalanceStr ← wrapping "failed to get balance for asset" Account_GetBalance;
  currentBalance ← parse_big currentBalanceStr "can't parse account balance";
  guard_err (amount <=? currentBalance) "balance is too low";;
  newBalance ← wrapping "not enough balance for transfer"
                 (of_result (safemath_Sub currentBalance amount));
  set_self (mkAccount (big_String newBalance));;
  wrapping "failed to transfer amount"
    (Account_transferToMember amountStr toMember fromMember request);;
  (if bool_decide (feeStr <> "0") then
     match toFeeMember with
     | None => crash "nil pointer dereference"
     | Some toFeeMember =>
         wrapping "failed to transfer fee"
           (Account_transferToMember feeStr toFeeMember fromMember request)
     end
   else mret tt);;
  mret (TransferResponse feeStr).

Definition IncreaseBalance (amountStr : string) : M Account unit :=
  amount ← parse_big amountStr "can't parse input amount";
  guard_err (0 <? Sign amount) "amount should be greater then zero";;
  a ← self;
  balance ← parse_big (acc_Balance a) "can't parse account balance";
  newBalance ← wrapping "failed to add amount to balance" (of_result (safemath_Add balance amount));
  set_self (mkAccount (big_String newBalance)).

(** ** deposit.go *)
Definition DefaultVesting : Z := 0.
Definition numConfirmation : Z := 2.

Definition Deposit_New (txHash : string) (lockup vesting vestingStep : Z) : result Deposit :=
  if (0 <? vestingStep) && negb (Z.rem vesting vestingStep =? 0)
  then Fail (Errorf "vesting is not multiple of vestingStep")
  else Good (mkDeposit "0" 0 ∅ "0" txHash DefaultVesting lockup vesting vestingStep false).

Definition GetTxHash : M Deposit string := d ← self; mret (TxHash d).
Definition GetAmount : M Deposit string := d ← self; mret (Amount d).
Definition GetPulseUnHold : M Deposit Z := d ← self; mret (PulseDepositUnHold d).

Definition Deposit_out (d : Deposit) : DepositOut :=
  let daemonConfirms :=
    (fun kv => mkDaemonConfirm kv.1 kv.2) <$> map_to_list (MigrationDaemonConfirms d) in
  let pulseDepositUnHold :=
    match Number_AsApproximateTime (PulseDepositUnHold d) with
    | Good t => time_Unix t | Fail _ => 0
    end in
  let holdStartDate := i64 (pulseDepositUnHold - Lockup d) in
  let holdStartDate := if holdStartDate <? 0 then 0 else holdStartDate in
  mkDepositOut (Balance d) holdStartDate pulseDepositUnHold daemonConfirms (Amount d)
    (TxHash d) (VestingType d) (Lockup d) (Vesting d) (VestingStep d).
Definition Deposit_Itself : M Deposit DepositOut := d ← self; mret (Deposit_out d).

Definition set_Balance (b : string) : M Deposit unit :=
  d ← self;
  set_self (mkDeposit b (PulseDepositUnHold d) (MigrationDaemonConfirms d) (Amount d) (TxHash d)
    (VestingType d) (Lockup d) (Vesting d) (VestingStep d) (IsConfirmed d)).
Definition set_Confirm (ref amountStr : string) : M Deposit unit :=
  d ← self;
  set_self (mkDeposit (Balance d) (PulseDepositUnHold d)
    (<[ref := amountStr]> (MigrationDaemonConfirms d)) (Amount d) (TxHash d)
    (VestingType d) (Lockup d) (Vesting d) (VestingStep d) (IsConfirmed d)).
Definition set_Hold (amountStr : string) (unhold : Z) : M Deposit unit :=
  d ← self;
  set_self (mkDeposit (Balance d) unhold (MigrationDaemonConfirms d) amountStr (TxHash d)
    (VestingType d) (Lockup d) (Vesting d) (VestingStep d) (IsConfirmed d)).
Definition set_IsConfirmed : M Deposit unit :=
  d ← self;
  set_self (mkDeposit (Balance d) (PulseDepositUnHold d) (MigrationDaemonConfirms d) (Amount d)
    (TxHash d) (VestingType d) (Lockup d) (Vesting d) (VestingStep d) true).

Definition TransferToDeposit (amountStr : string) (toDeposit fromMember request toMember : Reference)
    : M Deposit unit :=
  d ← self;
  amount ← parse_big amountStr "can't parse input amount";
  balance ← parse_big (Balance d) "can't parse deposit balance";
  guard_err (0 <? Sign balance) "not enough balance for transfer";;
  newBalance ← wrapping "not enough balance for transfer" (of_result (safemath_Sub balance amount));
  set_Balance (big_String newBalance);;
  acceptDepositErr ←
    try (call_saga toDeposit DepositAccept (mkAccept amountStr fromMember request));
  match acceptDepositErr with
  | Good _ => mret tt
  | Fail _ => set_Balance (big_String balance) (* errors.Wrap(err, ...) of a nil err *)
  end.

(** [checkAmount]: confirmed or not, and the error. *)
Definition checkAmount (activeDaemons : list (string * string)) (migrationDaemonRef amountStr : string)
    : bool * option error :=
  if (length activeDaemons =? 0)%nat
  then (false, Some (Errorf "list with migration daemons member is empty"))
  else
    let errDaemon := filter (fun ra => ra.2 <> amountStr) activeDaemons in
    let amountConfirms :=
      foldl (fun m ra => <[ra.2 := default 0 (m !! ra.2) + 1]> m) (∅ : gmap string Z) activeDaemons in
    let amountConfirms :=
      <[amountStr := default 0 (amountConfirms !! amountStr) + 1]> amountConfirms in
    let confirmed := numConfirmation <=? default 0 (amountConfirms !! amountStr) in
    (confirmed,
     if (0 <? length errDaemon)%nat
     then Some (Errorf "several migration daemons send different amount") else None).

(** ** migrationdaemon.go: the status *)
Definition SetActivationStatus (status : bool) : M MigrationDaemon unit :=
  md ← self; set_self (mkMigrationDaemon status (MigrationDaemonMember md)).
Definition GetActivationStatus : M MigrationDaemon bool := md ← self; mret (IsActive md).
Definition GetMigrationDaemonMember : M MigrationDaemon Reference :=
  md ← self; mret (MigrationDaemonMember md).

(** ** deposit.go, continued *)

(** The confirmations of the daemons that are active now; [None] is the early
    [return false, errors.Wrap(err, ...)] with a nil [err]. *)
Fixpoint activeDaemons_loop (confirms : list (string * string))
    : M Deposit (option (list (string * string))) :=
  match confirms with
  | [] => mret (Some [])
  | (ref, a) :: confirms' =>
      migrationDaemonMemberRef ←
        match NewObjectReferenceFromString ref with
        | Good r => mret r
        | Fail _ => fail_with "failed to parse params.Reference"
        end;
      let migrationDaemonContractRef := GetMigrationDaemon migrationDaemonMemberRef in
      if Global_IsEmpty migrationDaemonContractRef then mret None
      else
        res ← call_immutable migrationDaemonContractRef GetActivationStatus;
        rest ← activeDaemons_loop confirms';
        mret (if res : bool then option_map (cons (ref, a)) rest else rest)
  end.

Definition checkConfirm (migrationDaemonRef amountStr : string) : M Deposit (bool * option error) :=
  d ← self;
  activateDaemons ← try (activeDaemons_loop (map_to_list (MigrationDaemonConfirms d)));
  match activateDaemons with
  | Fail e => mret (false, Some e)
  | Good None => mret (false, None)
  | Good (Some activateDaemons) =>
      set_Confirm migrationDaemonRef amountStr;;
      (if (0 <? length activateDaemons)%nat then
         let '(canConfirm, e) := checkAmount activateDaemons migrationDaemonRef amountStr in
         mret (canConfirm, option_map (fun e =>
           Wrap e "failed to check amount in confirmation from migration daemon") e)
       else mret (false, None))
  end.

Definition availableAmount : M Deposit Z :=
  d ← self;
  guard_err (negb ((VestingType d =? DefaultVesting) && negb (IsConfirmed d)))
    "number of confirms is less then 2";;
  currentPulse ← wrapping "failed to get pulse number" (of_result GetPulseNumber);
  guard_err (PulseDepositUnHold d <=? currentPulse) "hold period didn't end";;
  amount ← parse_big (Amount d) "can't parse derposit amount";
  balance ← parse_big (Balance d) "can't parse derposit balance";
  if u32 (PulseDepositUnHold d + u32 (Vesting d)) <? currentPulse then mret balance
  else if VestingStep d =? 0 then crash "integer divide by zero"
  else
    let totalSteps := u64 (Z.quot (Vesting d) (VestingStep d)) in
    let passedSteps := u64 (Z.quot (u32 (currentPulse - PulseDepositUnHold d)) (VestingStep d)) in
    vestedByNow ← of_go (VestedByNow amount passedSteps totalSteps);
    let onHold := amount - vestedByNow in
    let availableNow := balance - onHold in
    mret (if availableNow <? 0 then 0 else availableNow).

Definition canTransfer (transferAmount : Z) : M Deposit unit :=
  available ← availableAmount;
  guard_err (transferAmount <=? available) "not enough unholded balance for transfer".

Definition Deposit_Transfer (amountStr : string) (memberRef request : Reference) : M Deposit Reply :=
  amount ← parse_big amountStr "can't parse input amount";
  d ← self;
  balance ← parse_big (Balance d) "can't parse deposit balance";
  guard_err (0 <? Sign balance) "not enough balance for transfer";;
  newBalance ← wrapping "not enough balance for transfer" (of_result (safemath_Sub balance amount));
  wrapping "can't start transfer" (canTransfer amount);;
  set_Balance (big_String newBalance);;
  acceptMemberErr ←
    try (call_saga memberRef MemberAccept (mkAccept amountStr memberRef request));
  match acceptMemberErr with
  | Good _ => mret NoReply
  | Fail e => set_Balance (big_String balance);; err (Wrap e "failed to transfer amount")
  end.

Definition Deposit_Accept (arg : SagaAcceptInfo) : M Deposit unit :=
  amount ← parse_big (sa_Amount arg) "can't parse input amount";
  d ← self;
  balance ← parse_big (Balance d) "can't parse deposit balance";
  b ← wrapping "failed to add amount to balance" (of_result (safemath_Add balance amount));
  set_Balance (big_String b).

(** ** wallet.go *)
Definition Wallet_New (accountReference : Reference) : result Wallet :=
  if Global_IsEmpty accountReference then Fail (Errorf "reference is empty")
  else Good (mkWallet {[XNS := ref_String accountReference]} ∅).

Definition Wallet_GetAccount (assetName : string) : M Wallet Reference :=
  w ← self;
  accountReference ← of_option "asset not found" (Accounts w !! assetName);
  of_result (NewObjectReferenceFromString accountReference).

Definition Wallet_Transfer (assetName amountStr : string) (toMember fromMember request : Reference)
    : M Wallet Reply :=
  accRef ← wrapping "failed to get account by asset name" (Wallet_GetAccount assetName);
  call accRef (Account_Transfer amountStr toMember fromMember request).

Definition Wallet_GetBalance (assetName : string) : M Wallet string :=
  accRef ← wrapping "failed to get account by asset" (Wallet_GetAccount assetName);
  call_immutable accRef Account_GetBalance.

Fixpoint GetDeposits_loop (acc : list DepositOut) (deposits : list (string * string))
    : M Wallet (list DepositOut) :=
  match deposits with
  | [] => mret acc
  | (_, dRef) :: deposits' =>
      reference ← of_result (NewObjectReferenceFromString dRef);
      depositInfo ← wrapping "failed to get deposit itself" (call_immutable reference Deposit_Itself);
      GetDeposits_loop (acc ++ [depositInfo]) deposits'
  end.
Definition GetDeposits : M Wallet (list DepositOut) :=
  w ← self; GetDeposits_loop [] (map_to_list (Deposits w)).

(** [None]: not found; the reference is nil when its text does not parse. *)
Definition FindDeposit (transactionHash : string) : M Wallet (option (option Reference)) :=
  w ← self;
  match Deposits w !! transactionHash with
  | Some depositReferenceStr =>
      mret (Some (match NewObjectReferenceFromString depositReferenceStr with
                  | Good r => Some r | Fail _ => None end))
  | None => mret None
  end.

Definition FindOrCreateDeposit (transactionHash : string) (lockup vesting vestingStep : Z)
    : M Wallet (option Reference) :=
  found ← wrapping "failed to find deposit" (FindDeposit transactionHash);
  match found with
  | Some dRef => mret dRef
  | None =>
      me ← GetReference;
      ref ← wrapping "failed to save deposit as child"
              (AsChild (Deposit_New transactionHash lockup vesting vestingStep) me);
      w ← self;
      set_self (mkWallet (Accounts w) (<[transactionHash := ref_String ref]> (Deposits w)));;
      mret (Some ref)
  end.

(** ** member.go: the accessors *)
Definition Member_New (key migrationAddress : string) (walletRef : Reference) : result Member :=
  Good (mkMember key migrationAddress walletRef).
Definition Member_GetWallet : M Member Reference := m ← self; mret (m_Wallet m).
Definition Member_GetAccount (assetName : string) : M Member Reference :=
  m ← self; call_immutable (m_Wallet m) (Wallet_GetAccount assetName).
Definition GetMigrationAddress : M Member string := m ← self; mret (MigrationAddress m).

Definition Member_Accept (arg : SagaAcceptInfo) : M Member unit :=
  accountRef ← wrapping "failed to get account reference" (Member_GetAccount XNS);
  wrapping "failed to increase balance" (call accountRef (IncreaseBalance (sa_Amount arg))).

(** ** deposit.go: Confirm *)
Definition Confirm_transfer (amountStr : string) (request toMember : Reference) : M Deposit unit :=
  d ← self;
  currentPulse ← wrapping "failed to get current pulse" (of_result GetPulseNumber);
  set_Hold amountStr (u32 (currentPulse + u32 (Lockup d)));;
  walletRef ← wrapping "failed to get wallet"
                (call_immutable GetMigrationAdminMember Member_GetWallet);
  found ← try (call_immutable walletRef (FindDeposit FundsDepositName));
  match found with
  | Good (Some maDeposit) =>
      match maDeposit with
      | None => crash "nil pointer dereference"
      | Some maDeposit =>
          me ← GetReference;
          wrapping "failed to transfer from migration deposit to deposit"
            (call maDeposit
               (TransferToDeposit amountStr me GetMigrationAdminMember request toMember));;
          set_IsConfirmed
      end
  | _ => fail_with "failed to find source deposit"
  end.

Definition Confirm (txHash amountStr : string) (fromMember request toMember : Reference)
    : M Deposit unit :=
  let migrationDaemonRef := ref_String fromMember in
  d ← self;
  guard_err (bool_decide (txHash = TxHash d)) "transaction hash is incorrect";;
  match MigrationDaemonConfirms d !! migrationDaemonRef with
  | Some confirmedAmount =>
      guard_err (bool_decide (amountStr = confirmedAmount))
        "confirm from this migration daemon already exists with different amount"
  | None =>
      if IsConfirmed d then
        set_Confirm migrationDaemonRef amountStr;;
        guard_err (bool_decide (amountStr = Amount d))
          "migration is done for this deposit, but with different amount"
      else if (0 <? size (MigrationDaemonConfirms d))%nat then
        r ← checkConfirm migrationDaemonRef amountStr;
        let '(canConfirm, errFromConfirm) := r in
        (if canConfirm : bool then Confirm_transfer amountStr request toMember else mret tt);;
        match errFromConfirm with Some e => err e | None => mret tt end
      else set_Confirm migrationDaemonRef amountStr
  end.
End Contracts.
