(* ===== verification/Members.v ===== *)
(** * The built-in contracts, second part: shards, migration and members

    Public-key and migration shards, the root domain, the node domain, the
    migration daemon and admin, and the member contract with its API entry
    [Call] (src/application/builtin/contract, src/applicationbase). *)
From Stdlib Require Import Ascii.
From S2P Require Import Prelude Pulse Reference BigInt Foundation Vesting World Contracts.

Section Members.
Context `{ContractEnv}.

(** ** pkshard.go *)
Definition PKShard_New (members : StableMap) : result PKShard := Good (mkPKShard members).
Definition PKShard_GetRef (key : string) : M PKShard string :=
  s ← self; of_option "failed to find reference by key" (pk_Map s !! key).
Definition PKShard_SetRef (key ref : string) : M PKShard unit :=
  s ← self;
  match pk_Map s !! key with
  | Some _ => fail_with "can't set reference because this key already exists"
  | None => set_self (mkPKShard (<[key := ref]> (pk_Map s)))
  end.

(** ** migrationshard.go *)
Definition MigrationShard_New (migrationAddresses : list string) : result MigrationShard :=
  Good (mkMigrationShard ∅ migrationAddresses).
Definition GetMigrationAddressesAmount : M MigrationShard Z :=
  s ← self; mret (Z.of_nat (length (FreeMigrationAddresses s))).
Definition AddFreeMigrationAddresses (migrationAddresses : list string) : M MigrationShard unit :=
  s ← self;
  set_self (mkMigrationShard (ms_Map s) (FreeMigrationAddresses s ++ migrationAddresses)).
Definition MigrationShard_GetFreeMigrationAddress : M MigrationShard string :=
  s ← self;
  match FreeMigrationAddresses s with
  | [] => fail_with "no more migration address left"
  | ma :: rest => set_self (mkMigrationShard (ms_Map s) rest);; mret ma
  end.
Definition MigrationShard_GetRef (key : string) : M MigrationShard string :=
  s ← self; of_option "failed to find reference by key" (ms_Map s !! key).
Definition MigrationShard_SetRef (ma ref : string) : M MigrationShard unit :=
  s ← self;
  match ms_Map s !! ma with
  | Some _ => fail_with "can't set reference because this key already exists"
  | None => set_self (mkMigrationShard (<[ma := ref]> (ms_Map s)) (FreeMigrationAddresses s))
  end.

(** The shard of a key: [GetShardIndex], the bound check and the element. *)
Definition shard_of {T} (key : string) (shards : list Reference) (msg : string) : M T Reference :=
  i ← of_go (GetShardIndex key (Z.of_nat (length shards)));
  guard_err (i <? Z.of_nat (length shards)) msg;;
  match shards !! Z.to_nat i with
  | Some r => mret r
  | None => crash "index out of range"
  end.

(** ** rootdomain.go *)
Definition GetMemberByPublicKey (publicKey : string) : M RootDomain Reference :=
  rd ← self;
  trimmedPublicKey ← match ExtractCanonicalPublicKey publicKey with
                     | Good k => mret k | Fail _ => fail_with "extracting canonical pk failed"
                     end;
  s ← shard_of trimmedPublicKey (PublicKeyShards rd) "incorrect shard index";
  refStr ← wrapping "failed to get reference in shard" (call_immutable s (PKShard_GetRef trimmedPublicKey));
  wrapping "bad member reference for this public key" (of_result (NewObjectReferenceFromString refStr)).

Definition AddNewMemberToPublicKeyMap (publicKey : string) (memberRef : Reference)
    : M RootDomain unit :=
  rd ← self;
  trimmedPublicKey ← match ExtractCanonicalPublicKey publicKey with
                     | Good k => mret k | Fail _ => fail_with "extracting canonical pk failed"
                     end;
  pks ← shard_of trimmedPublicKey (PublicKeyShards rd) "incorrect public key shard index";
  wrapping "failed to set reference in public key shard"
    (call pks (PKShard_SetRef trimmedPublicKey (ref_String memberRef))).

(** ** noderecord.go and nodedomain.go *)
Definition GetStaticRoleFromString (role : string) : Z :=
  if bool_decide (role = "virtual") then 1
  else if bool_decide (role = "heavy_material") then 2
  else if bool_decide (role = "light_material") then 3
  else 0.

Definition NewNodeRecord (publicKey roleStr : string) : result NodeRecord :=
  if bool_decide (publicKey = "") then Fail (Errorf "public key is required")
  else if bool_decide (roleStr = "") then Fail (Errorf "role is required")
  else
    let role := GetStaticRoleFromString roleStr in
    if role =? 0 then Fail (Errorf "role is not supported")
    else Good (mkNodeRecord publicKey role).

Definition NewNodeDomain : result NodeDomain := Good (mkNodeDomain ∅).

Definition RegisterNode (publicKey role : string) : M NodeDomain string :=
  canonicalKey ← match ExtractCanonicalPublicKey publicKey with
                 | Good k => mret k | Fail _ => fail_with "extracting canonical pk failed"
                 end;
  nd ← self;
  guard_err (bool_decide (NodeIndexPublicKey nd !! canonicalKey = None))
    "node already exist with this public key";;
  me ← GetReference;
  node ← wrapping "failed to save as child" (AsChild (NewNodeRecord publicKey role) me);
  let newNodeRef := ref_String node in
  nd ← self;
  set_self (mkNodeDomain (<[canonicalKey := newNodeRef]> (NodeIndexPublicKey nd)));;
  mret newNodeRef.

Definition GetNodeRefByPublicKey (publicKey : string) : M NodeDomain string :=
  canonicalKey ← match ExtractCanonicalPublicKey publicKey with
                 | Good k => mret k | Fail _ => fail_with "extracting canonical pk failed"
                 end;
  nd ← self;
  of_option "network node not found by public key" (NodeIndexPublicKey nd !! canonicalKey).

(** ** migrationadmin.go *)
Definition GetDepositParameters : M MigrationAdmin VestingParams :=
  mA ← self; mret (ma_VestingParams mA).

Definition GetMigrationDaemonByMemberRef (memberRef : string) : M MigrationAdmin Reference :=
  migrationDaemonMemberRef ← match NewObjectReferenceFromString memberRef with
                             | Good r => mret r
                             | Fail _ => fail_with " failed to parse params.Reference"
                             end;
  let migrationDaemonContractRef := GetMigrationDaemon migrationDaemonMemberRef in
  guard_err (negb (Global_IsEmpty migrationDaemonContractRef)) "the member is not migration daemon";;
  mret migrationDaemonContractRef.

Definition GetMemberByMigrationAddress (migrationAddress : string) : M MigrationAdmin Reference :=
  mA ← self;
  let trimmedMigrationAddress := TrimAddress migrationAddress in
  s ← shard_of trimmedMigrationAddress (MigrationAddressShards mA) "incorect shard index";
  refStr ← wrapping "failed to get reference in shard"
             (call_immutable s (MigrationShard_GetRef trimmedMigrationAddress));
  wrapping "bad member reference for this migration address"
    (of_result (NewObjectReferenceFromString refStr)).

Fixpoint sort_addresses (newMA : list (list string)) (migrationAddresses : list string)
    : M MigrationAdmin (list (list string)) :=
  match migrationAddresses with
  | [] => mret newMA
  | ma :: rest =>
      if IsEthereumAddress ma then
        let trimmedMigrationAddress := TrimAddress ma in
        i ← of_go (GetShardIndex trimmedMigrationAddress (Z.of_nat (length newMA)));
        guard_err (i <? Z.of_nat (length newMA)) "incorect migration shard index";;
        sort_addresses
          (alter (fun l => l ++ [trimmedMigrationAddress]) (Z.to_nat i) newMA) rest
      else sort_addresses newMA rest
  end.

(** The loop over the shards stops after eleven that got addresses. *)
Fixpoint store_addresses (ind total : Z) (newMA : list (Reference * list string))
    : M MigrationAdmin Z :=
  match newMA with
  | [] => mret total
  | (shard, ma) :: rest =>
      if (length ma =? 0)%nat then store_addresses ind total rest
      else
        r ← try (call shard (AddFreeMigrationAddresses ma));
        match r with
        | Fail _ => fail_with "failed to add migration addresses to shard"
        | Good _ =>
            let ind := ind + 1 in
            let total := total + Z.of_nat (length ma) in
            if 10 <? ind then mret total else store_addresses ind total rest
        end
  end.

Definition addMigrationAddresses (migrationAddresses : list string) : M MigrationAdmin Z :=
  mA ← self;
  newMA ← sort_addresses (replicate (length (MigrationAddressShards mA)) []) migrationAddresses;
  store_addresses 0 0 (zip (MigrationAddressShards mA) newMA).

Definition GetFreeMigrationAddress (publicKey : string) : M MigrationAdmin string :=
  mA ← self;
  trimmedPublicKey ← match ExtractCanonicalPublicKey publicKey with
                     | Good k => mret k | Fail _ => fail_with "extracting canonical pk failed"
                     end;
  let trimmedPublicKey := String.append trimmedPublicKey (big_String NewSource_Int63) in
  mas ← shard_of trimmedPublicKey (MigrationAddressShards mA) "incorect migration address shard index";
  wrapping "failed to get free migration address"
    (call mas MigrationShard_GetFreeMigrationAddress).

(** The shard is that of the trimmed address, the key the address itself. *)
Definition AddNewMigrationAddressToMaps (migrationAddress : string) (memberRef : Reference)
    : M MigrationAdmin unit :=
  mA ← self;
  mas ← shard_of (TrimAddress migrationAddress) (MigrationAddressShards mA)
          "incorect migration address shard index";
  wrapping "failed to set reference in migration address shard"
    (call mas (MigrationShard_SetRef migrationAddress (ref_String memberRef))).

(** [params["reference"].(string)]: the test is [!ok && len(...) == 0]. *)
Definition getMigrationDamon (params : Params) : M MigrationAdmin Reference :=
  match string_param params "reference" with
  | Some migrationDaemonMember => GetMigrationDaemonByMemberRef migrationDaemonMember
  | None => fail_with "incorect input: failed to get 'reference' param"
  end.

Definition activateDaemonCall (params : Params) (caller : Reference) : M MigrationAdmin Reply :=
  mA ← self;
  guard_err (bool_decide (caller = MigrationAdminMember mA))
    "only migration admin can activate migration demons";;
  migrationDaemonContract ← getMigrationDamon params;
  status ← call_immutable migrationDaemonContract GetActivationStatus;
  guard_err (negb status) "daemon member already activated";;
  call migrationDaemonContract (SetActivationStatus true);;
  mret NoReply.

Definition deactivateDaemonCall (params : Params) (memberRef : Reference) : M MigrationAdmin Reply :=
  mA ← self;
  guard_err (bool_decide (memberRef = MigrationAdminMember mA))
    "only migration admin can deactivate migration demons";;
  migrationDaemonContract ← getMigrationDamon params;
  status ← call_immutable migrationDaemonContract GetActivationStatus;
  guard_err status "daemon member already deactivated";;
  call migrationDaemonContract (SetActivationStatus false);;
  mret NoReply.

Fixpoint strings_of (l : list Value) : option (list string) :=
  match l with
  | [] => Some []
  | VString s :: l' => option_map (cons s) (strings_of l')
  | _ :: _ => None
  end.

Definition addMigrationAddressesCall (params : Params) (memberRef : Reference)
    : M MigrationAdmin Reply :=
  match params !! "migrationAddresses" with
  | Some (VList migrationAddresses) =>
      mA ← self;
      guard_err (bool_decide (memberRef = MigrationAdminMember mA))
        "only migration daemon admin can call this method";;
      migrationAddressesStr ←
        of_option "failed to 'migrationAddresses' param" (strings_of migrationAddresses);
      count ← wrapping "failed to add migration address"
                (addMigrationAddresses migrationAddressesStr);
      mret (AddMaResponse count)
  | _ => fail_with "incorect input: failed to get 'migrationAddresses' param"
  end.

Fixpoint count_shards (i : Z) (shards : list Reference) : M MigrationAdmin (list (Z * Z)) :=
  match shards with
  | [] => mret []
  | s :: shards' =>
      r ← try (call_immutable s GetMigrationAddressesAmount);
      match r with
      | Fail _ => fail_with "failed to get count of migration addresses in shard"
      | Good count => rest ← count_shards (i + 1) shards'; mret ((i, count) :: rest)
      end
  end.

(** A negative start index panics in the first access of the loop. *)
Definition getAddressCount (params : Params) (memberRef : Reference) : M MigrationAdmin Reply :=
  match params !! "startWithIndex" with
  | Some (VNumber startWithIndex) =>
      mA ← self;
      guard_err (bool_decide (memberRef = MigrationAdminMember mA))
        "only migration daemon admin can call this method";;
      let len := Z.of_nat (length (MigrationAddressShards mA)) in
      guard_err (startWithIndex <? len) "incorrect start shard index: too big";;
      let lastIndex := if len <? startWithIndex + 10 then len else startWithIndex + 10 in
      if startWithIndex <? 0 then
        (if startWithIndex <? lastIndex then crash "index out of range"
         else mret (GetAddressCountResponse []))
      else
        res ← count_shards startWithIndex
                (take (Z.to_nat (lastIndex - startWithIndex))
                   (drop (Z.to_nat startWithIndex) (MigrationAddressShards mA)));
        mret (GetAddressCountResponse res)
  | _ => fail_with "incorect input: failed to get 'startWithIndex' param"
  end.

Definition checkDaemonCall (params : Params) (caller : Reference) : M MigrationAdmin Reply :=
  mA ← self;
  guard_err (bool_decide (caller = MigrationAdminMember mA) || IsMigrationDaemonMember caller)
    "permission denied to information about migration daemons";;
  migrationDaemonContract ← getMigrationDamon params;
  status ← call_immutable migrationDaemonContract GetActivationStatus;
  mret (CheckDaemonResponse (if status : bool then "active" else "inactive")).

Definition MigrationAdminCall (params : Params) (nameMethod : string) (caller : Reference)
    : M MigrationAdmin Reply :=
  if bool_decide (nameMethod = "addAddresses") then addMigrationAddressesCall params caller
  else if bool_decide (nameMethod = "getAddressCount") then getAddressCount params caller
  else if bool_decide (nameMethod = "activateDaemon") then activateDaemonCall params caller
  else if bool_decide (nameMethod = "deactivateDaemon") then deactivateDaemonCall params caller
  else if bool_decide (nameMethod = "checkDaemon") then checkDaemonCall params caller
  else fail_with "unknown method: migration".

(** ** migrationdaemon.go *)
Definition CONVERSION : Z := 10.

Definition getAmountFromParam (params : Params) : M MigrationDaemon Z :=
  amountStr ← of_option "incorrect input: failed to get 'amount' param" (string_param params "amount");
  amount ← parse_big amountStr "failed to parse amount";
  guard_err (0 <? Sign amount) "amount must be greater than zero";;
  mret amount.

Definition addConfirmToDeposit (tokenHolderRef txDepositRef : Reference) (txHash amount : string)
    (caller request : Reference) : M MigrationDaemon Reply :=
  wrapping "confirmed failed"
    (call txDepositRef (Confirm txHash amount caller request tokenHolderRef));;
  mret (DepositMigrationResult (ref_String tokenHolderRef)).

Definition depositMigration (txHash migrationAddress : string) (amount : Z)
    (caller request : Reference) : M MigrationDaemon Reply :=
  md ← self;
  guard_err (Global_Equal caller (MigrationDaemonMember md))
    " the migration daemon member is not related migration daemon contract";;
  result ← GetActivationStatus;
  guard_err result "this migration daemon is not active daemons";;
  tokenHolderRef ←
    try (call_immutable GetMigrationAdmin (GetMemberByMigrationAddress migrationAddress));
  match tokenHolderRef with
  | Fail _ => fail_with "failed to get member by migration address"
  | Good tokenHolderRef =>
      tokenHolderWallet ← wrapping "failed to get wallet"
                            (call_immutable tokenHolderRef Member_GetWallet);
      vestingParams ← try (call GetMigrationAdmin GetDepositParameters);
      match vestingParams with
      | Fail _ => crash "nil pointer dereference"
      | Good vestingParams =>
          depositRef ← wrapping "failed to get or create deposit"
            (call tokenHolderWallet
               (FindOrCreateDeposit txHash (vp_Lockup vestingParams) (vp_Vesting vestingParams)
                  (vp_VestingStep vestingParams)));
          match depositRef with
          | None => crash "nil pointer dereference"
          | Some depositRef =>
              addConfirmToDeposit tokenHolderRef depositRef txHash (big_String amount) caller request
          end
      end
  end.

Definition DepositMigrationCall (params : Params) (caller request : Reference)
    : M MigrationDaemon Reply :=
  amount ← getAmountFromParam params;
  txId ← of_option "incorrect input: failed to get 'ethTxHash' param" (string_param params "ethTxHash");
  migrationAddress ← of_option "incorrect input: failed to get 'migrationAddress' param"
                       (string_param params "migrationAddress");
  depositMigration txId migrationAddress (amount * CONVERSION) caller request.

(** ** member.go *)
Definition ACCOUNT_START_VALUE : string := "0".

Definition createMember (key migrationAddress : string) : M Member Reference :=
  guard_err (negb (bool_decide (key = ""))) "key is not valid";;
  accountRef ← wrapping "failed to create account for member"
                 (AsChild (Account_New ACCOUNT_START_VALUE) GetRootDomain);
  walletRef ← wrapping "failed to create wallet for member"
                (AsChild (Wallet_New accountRef) GetRootDomain);
  wrapping "failed to save as child"
    (AsChild (Member_New key migrationAddress walletRef) GetRootDomain).

Definition contractCreateMember (key migrationAddress : string) : M Member Reference :=
  created ← wrapping "failed to create member" (createMember key migrationAddress);
  wrapping "failed to add new member to public key map"
    (call_immutable GetRootDomain (AddNewMemberToPublicKeyMap key created));;
  mret created.

Definition contractCreateMemberCall (key : string) : M Member Reply :=
  created ← contractCreateMember key "";
  mret (CreateResponse (ref_String created)).

Definition memberMigrationCreate (key : string) : M Member Reply :=
  migrationAddress ← wrapping "failed to get migration address"
                       (call_immutable GetMigrationAdmin (GetFreeMigrationAddress key));
  created ← contractCreateMember key migrationAddress;
  wrapping "failed to add new member to mapMA"
    (call GetMigrationAdmin (AddNewMigrationAddressToMaps migrationAddress created));;
  mret (MigrationCreateResponse (ref_String created) migrationAddress).

Definition memberGet (publicKey : string) : M Member Reply :=
  ref ← wrapping "failed to get reference by public key"
          (call_immutable GetRootDomain (GetMemberByPublicKey publicKey));
  me ← GetReference;
  m ← self;
  if bool_decide (me = ref) then mret (GetResponse (ref_String ref) (MigrationAddress m))
  else
    ma ← wrapping "failed to get burn address" (call_immutable ref GetMigrationAddress);
    mret (GetResponse (ref_String ref) ma).

Definition getBalanceCall (params : Params) : M Member Reply :=
  referenceStr ← of_option "failed to get 'reference' param" (string_param params "reference");
  reference ← wrapping "failed to parse 'reference'"
                (of_result (NewObjectReferenceFromString referenceStr));
  me ← GetReference;
  m ← self;
  walletRef ←
    (if bool_decide (reference = me) then mret (m_Wallet m)
     else wrapping "can't get members wallet" (call_immutable reference Member_GetWallet));
  b ← wrapping "failed to get balance" (call_immutable walletRef (Wallet_GetBalance XNS));
  d ← wrapping "failed to get deposits" (call_immutable walletRef GetDeposits);
  mret (GetBalanceResponse b d).

(** [strings.Contains(err.Error(), sub)], within one of the joined texts. *)
Fixpoint has_prefix (s sub : string) : bool :=
  match sub, s with
  | EmptyString, _ => true
  | String c sub', String d s' => Ascii.eqb c d && has_prefix s' sub'
  | _, EmptyString => false
  end.
Fixpoint contains (s sub : string) : bool :=
  has_prefix s sub || match s with EmptyString => false | String _ s' => contains s' sub end.
Fixpoint error_contains (e : error) (sub : string) : bool :=
  match e with
  | Errorf msg => contains msg sub
  | Wrap e msg => contains msg sub || error_contains e sub
  | CodedError text _ => contains text sub
  end.

Definition transferCall (params : Params) : M Member Reply :=
  recipientReferenceStr ← of_option "failed to get 'toMemberReference' param"
                            (string_param params "toMemberReference");
  amount ← of_option "failed to get 'amount' param" (string_param params "amount");
  let asset := default XNS (string_param params "asset") in
  recipientReference ← wrapping "failed to parse 'toMemberReference' param"
                         (of_result (NewObjectReferenceFromString recipientReferenceStr));
  me ← GetReference;
  guard_err (negb (bool_decide (me = recipientReference)))
    "recipient must be different from the sender";;
  r ← try (call_immutable recipientReference Member_GetWallet);
  match r with
  | Fail e =>
      if error_contains e "index not found" then fail_with "recipient member does not exist"
      else err (Wrap e "failed to get destination wallet")
  | Good _ =>
      let fromMember := me in
      request ← wrapping "failed to get destination wallet" (of_result GetRequestReference);
      m ← self;
      call_immutable (m_Wallet m)
        (Wallet_Transfer asset amount recipientReference fromMember request)
  end.

Definition depositTransferCall (params : Params) : M Member Reply :=
  ethTxHash ← of_option "failed to get 'ethTxHash' param" (string_param params "ethTxHash");
  amount ← of_option "failed to get 'amount' param" (string_param params "amount");
  m ← self;
  find ← wrapping "failed to find deposit" (call_immutable (m_Wallet m) (FindDeposit ethTxHash));
  dRef ← of_option "can't find deposit" find;
  request ← wrapping "failed to get destination wallet" (of_result GetRequestReference);
  me ← GetReference;
  match dRef with
  | None => crash "nil pointer dereference"
  | Some dRef => call dRef (Deposit_Transfer amount me request)
  end.

Definition depositMigrationCall (params : Params) : M Member Reply :=
  me ← GetReference;
  migrationDaemonRef ←
    call_immutable GetMigrationAdmin (GetMigrationDaemonByMemberRef (ref_String me));
  request ← wrapping "failed to get destination wallet" (of_result GetRequestReference);
  call migrationDaemonRef (DepositMigrationCall params me request).

Definition registerNode (public role : string) : M Member Reply :=
  me ← GetReference;
  guard_err (bool_decide (me = ContractRootMember)) "only root member can register node";;
  cert ← wrapping "failed to register node" (call GetNodeDomain (RegisterNode public role));
  mret (Text cert).

Definition getNodeRef (publicKey : string) : M Member Reply :=
  nodeRef ← wrapping "network node was not found by public key"
              (call_immutable GetNodeDomain (GetNodeRefByPublicKey publicKey));
  mret (Text nodeRef).

Definition registerNodeCall (params : Params) : M Member Reply :=
  publicKey ← of_option "failed to get 'publicKey' param" (string_param params "publicKey");
  role ← of_option "failed to get 'role' param" (string_param params "role");
  registerNode publicKey role.

Definition getNodeRefCall (params : Params) : M Member Reply :=
  publicKey ← of_option "failed to get 'publicKey' param" (string_param params "publicKey");
  getNodeRef publicKey.

(** [strings.Split(callSite, ".")] *)
Fixpoint split_dots (s : string) : list string :=
  match s with
  | EmptyString => [EmptyString]
  | String c s' =>
      if Ascii.eqb c "."%char then EmptyString :: split_dots s'
      else match split_dots s' with
           | w :: ws => String c w :: ws
           | [] => [String c EmptyString]
           end
  end.

(** [callSiteArgs]: the method of a "migration.*" call site. *)
Definition migration_method (callSite : string) : option string :=
  match split_dots callSite with
  | [first; second] => if bool_decide (first = "migration") then Some second else None
  | _ => None
  end.

Record Request : Type := mkRequest {
  req_CallSite : string;
  req_CallParams : option Value;
  req_Object : Params;
  req_PublicKey : string;
}.

(** Unpacking the signed request and checking its signature are libraries'
    work; [is_object] tells whether the call parameters are a JSON object,
    whose fields [req_Object] then holds. *)
Context (decodeRequest : list Z -> result (list Z * string * Request)).
Context (VerifySignature : list Z -> string -> string -> string -> bool -> option error).
Context (is_object : Value -> bool).

Definition Call (signedRequest : list Z) : M Member Reply :=
  decoded ← wrapping "failed to decode" (of_result (decodeRequest signedRequest));
  let '(rawRequest, signature, request) := decoded in
  let CallSite := req_CallSite request in
  let selfSigned := bool_decide (CallSite ∈ ["member.create"; "member.migrationCreate"; "member.get"]) in
  m ← self;
  match VerifySignature rawRequest signature (PublicKey m) (req_PublicKey request) selfSigned with
  | Some e => err (Wrap e "error while verify signature")
  | None =>
      if bool_decide (CallSite = "member.create")
      then contractCreateMemberCall (req_PublicKey request)
      else if bool_decide (CallSite = "member.migrationCreate")
      then memberMigrationCreate (req_PublicKey request)
      else if bool_decide (CallSite = "member.get")
      then memberGet (req_PublicKey request)
      else
        match req_CallParams request with
        | None => fail_with "call params are nil"
        | Some callParams =>
            if negb (is_object callParams) then fail_with "failed to cast call params"
            else
              let params := req_Object request in
              me ← GetReference;
              match migration_method CallSite with
              | Some method => call GetMigrationAdmin (MigrationAdminCall params method me)
              | None =>
                  if bool_decide (CallSite = "contract.registerNode") then registerNodeCall params
                  else if bool_decide (CallSite = "contract.getNodeRef") then getNodeRefCall params
                  else if bool_decide (CallSite = "member.getBalance") then getBalanceCall params
                  else if bool_decide (CallSite = "member.transfer") then transferCall params
                  else if bool_decide (CallSite = "deposit.migration") then depositMigrationCall params
                  else if bool_decide (CallSite = "deposit.transfer") then depositTransferCall params
                  else fail_with "unknown method"
              end
        end
  end.
End Members.
