(* ===== verification/Money.v ===== *)
(** * Conservation of money across the contracts

    The money of a world is the sum of the balances of its accounts and
    deposits and of the amounts of the saga calls under way.  Every API call
    keeps it; delivering a saga call keeps it too, unless the delivery fails
    and the amount is lost. *)
From S2P Require Import Prelude Pulse Reference BigInt Foundation Vesting World Contracts Members.

Definition money_of (s : string) : Z := default 0 (SetString s).

Definition obj_value (o : Object) : Z :=
  match o with
  | OAccount a => money_of (acc_Balance a)
  | ODeposit d => money_of (Balance d)
  | _ => 0
  end.
Definition saga_value (sg : Saga) : Z := money_of (sa_Amount (saga_arg sg)).

Definition sum {A} (f : A -> Z) (l : list A) : Z := foldr (fun x acc => f x + acc) 0 l.
Definition objects_value (m : gmap Reference Object) : Z :=
  map_fold (fun _ o acc => obj_value o + acc) 0 m.
Definition world_value (w : World) : Z := objects_value (objects w) + sum saga_value (sagas w).

Definition world_ok (w : World) : Prop := dom (objects w) ⊆ used w.

Lemma money_of_String z : money_of (big_String z) = z.
Proof. unfold money_of. by rewrite SetString_String. Qed.

Lemma money_of_Some s z : SetString s = Some z -> money_of s = z.
Proof. unfold money_of. by intros ->. Qed.

Lemma saga_value_mk target meth s from request :
  saga_value (mkSaga target meth (mkAccept s from request)) = money_of s.
Proof. done. Qed.

Lemma sum_app {A} (f : A -> Z) l k : sum f (l ++ k) = sum f l + sum f k.
Proof. unfold sum. induction l; simpl; lia. Qed.

Lemma objects_value_insert m r o :
  m !! r = None -> objects_value (<[r := o]> m) = obj_value o + objects_value m.
Proof.
  intros Hr. unfold objects_value. rewrite map_fold_insert_L; [done| |done]. intros. lia.
Qed.

Lemma objects_value_delete m r o :
  m !! r = Some o -> objects_value m = obj_value o + objects_value (delete r m).
Proof.
  intros Hr. rewrite <- (insert_delete_id m r o) at 1 by done.
  apply objects_value_insert, lookup_delete_eq.
Qed.

(** ** What a method may do to the world *)

(** No money appears or disappears, and no object appears under a reference
    that was already given out. *)
Record world_step (w w' : World) (d : Z) : Prop := {
  ws_ok : world_ok w';
  ws_value : world_value w' = world_value w + d;
  ws_used : used w ⊆ used w';
  ws_absent : forall x, x ∈ used w -> objects w !! x = None -> objects w' !! x = None;
}.

Lemma world_step_refl w : world_ok w -> world_step w w 0.
Proof. intros. split; [done|lia|done|done]. Qed.

Lemma world_step_trans w1 w2 w3 d e :
  world_step w1 w2 d -> world_step w2 w3 e -> world_step w1 w3 (d + e).
Proof.
  intros [? ? ? ?] [? ? ? ?]. split; [done|lia|set_solver|]. eauto.
Qed.

Definition is_done {A} (r : outcome A) : bool := match r with Done _ => true | _ => false end.

Section Safe.
Context {T : Type}.

(** The world is safe whatever the outcome. *)
Definition world_safe {A} (m : M T A) : Prop :=
  forall fr fr' r, world_ok (f_world fr) -> m fr = (fr', r) ->
    world_step (f_world fr) (f_world fr') 0.

(** The method's own state and outgoing calls balance, unless it is cut off. *)
Definition own_safe (v : T -> Z) {A} (m : M T A) : Prop :=
  forall fr fr' r, m fr = (fr', r) -> (forall s, r <> Crash s) ->
    v (f_self fr') + sum saga_value (f_out fr') = v (f_self fr) + sum saga_value (f_out fr).

(** The same with an amount that appears when the method succeeds. *)
Definition world_delta {A} (m : M T A) (d : Z) : Prop :=
  forall fr fr' r, world_ok (f_world fr) -> m fr = (fr', r) ->
    world_step (f_world fr) (f_world fr') (if is_done r then d else 0).
Definition own_delta (v : T -> Z) {A} (m : M T A) (d : Z) : Prop :=
  forall fr fr' r, m fr = (fr', r) -> (forall s, r <> Crash s) ->
    v (f_self fr') + sum saga_value (f_out fr') =
    v (f_self fr) + sum saga_value (f_out fr) + (if is_done r then d else 0).

Lemma world_delta_0 {A} (m : M T A) : world_delta m 0 <-> world_safe m.
Proof.
  split; intros Hm fr fr' r Hok E; specialize (Hm _ _ _ Hok E); by destruct (is_done r).
Qed.

Lemma wd_wrapping {A} msg (m : M T A) d : world_delta m d -> world_delta (wrapping msg m) d.
Proof.
  intros Hm fr fr' r Hok E. unfold wrapping in E. destruct (m fr) as [fr1 [a|e|s]] eqn:E1;
    injection E as <- <-; by specialize (Hm _ _ _ Hok E1).
Qed.
End Safe.

Create HintDb money.

Section Rules.
Context {T : Type}.
Implicit Types v : T -> Z.

Lemma ws_ret {A} (a : A) : world_safe (mret a : M T A).
Proof. intros fr fr' r Hok [= <- _]. by apply world_step_refl. Qed.
Lemma ws_err {A} e : world_safe (err e : M T A).
Proof. intros fr fr' r Hok [= <- _]. by apply world_step_refl. Qed.
Lemma ws_crash {A} s : world_safe (crash s : M T A).
Proof. intros fr fr' r Hok [= <- _]. by apply world_step_refl. Qed.
Lemma ws_self : world_safe (self : M T T).
Proof. intros fr fr' r Hok [= <- _]. by apply world_step_refl. Qed.
Lemma ws_me : world_safe (GetReference : M T Reference).
Proof. intros fr fr' r Hok [= <- _]. by apply world_step_refl. Qed.
Lemma ws_set t : world_safe (set_self t : M T unit).
Proof. intros fr fr' r Hok [= <- _]. by apply world_step_refl. Qed.
Lemma ws_saga `{Routing} ref meth arg : world_safe (call_saga ref meth arg : M T unit).
Proof.
  intros fr fr' r Hok. unfold call_saga. destruct (negb _); intros [= <- _]; by apply world_step_refl.
Qed.
Lemma ws_bind {A B} (m : M T A) (f : A -> M T B) :
  world_safe m -> (forall a, world_safe (f a)) -> world_safe (m ≫= f).
Proof.
  intros Hm Hf fr fr' r Hok E. unfold mbind, M_bind in E.
  destruct (m fr) as [fr1 [a|e|s]] eqn:E1; [|injection E as <- _; by eapply Hm..].
  specialize (Hm _ _ _ Hok E1). pose proof (ws_ok _ _ _ Hm) as Hok1.
  change 0 with (0 + 0). eapply world_step_trans; [done|]. by eapply Hf.
Qed.
Lemma wd_bind {A B} (m : M T A) (f : A -> M T B) d :
  world_safe m -> (forall a, world_delta (f a) d) -> world_delta (m ≫= f) d.
Proof.
  intros Hm Hf fr fr' r Hok E. unfold mbind, M_bind in E.
  destruct (m fr) as [fr1 [a|e|s]] eqn:E1; [|injection E as <- <-; by eapply Hm..].
  specialize (Hm _ _ _ Hok E1). pose proof (ws_ok _ _ _ Hm) as Hok1.
  specialize (Hf a _ _ _ Hok1 E).
  change (if is_done r then d else 0) with (0 + if is_done r then d else 0).
  by eapply world_step_trans.
Qed.
Lemma ws_wrapping {A} msg (m : M T A) : world_safe m -> world_safe (wrapping msg m).
Proof.
  intros Hm fr fr' r Hok E. unfold wrapping in E. destruct (m fr) as [fr1 [a|e|s]] eqn:E1;
    injection E as <- _; by eapply Hm.
Qed.
Lemma ws_try {A} (m : M T A) : world_safe m -> world_safe (try m).
Proof.
  intros Hm fr fr' r Hok E. unfold try in E. destruct (m fr) as [fr1 [a|e|s]] eqn:E1;
    injection E as <- _; by eapply Hm.
Qed.
Lemma ws_result {A} (x : result A) : world_safe (of_result x : M T A).
Proof. destruct x; [apply ws_ret|apply ws_err]. Qed.
Lemma ws_go {A} (x : go A) : world_safe (of_go x : M T A).
Proof. destruct x; [apply ws_ret|apply ws_crash]. Qed.
Lemma ws_option {A} msg (x : option A) : world_safe (of_option msg x : M T A).
Proof. destruct x; [apply ws_ret|apply ws_err]. Qed.
Lemma ws_guard c msg : world_safe (guard_err c msg : M T unit).
Proof. destruct c; [apply ws_ret|apply ws_err]. Qed.
Lemma ws_parse s msg : world_safe (parse_big s msg : M T Z).
Proof. apply ws_option. Qed.

Lemma os_ret v {A} (a : A) : own_safe v (mret a : M T A).
Proof. by intros fr fr' r [= <- _] _. Qed.
Lemma os_err v {A} e : own_safe v (err e : M T A).
Proof. by intros fr fr' r [= <- _] _. Qed.
Lemma os_crash v {A} s : own_safe v (crash s : M T A).
Proof. by intros fr fr' r [= <- _] _. Qed.
Lemma os_self v : own_safe v (self : M T T).
Proof. by intros fr fr' r [= <- _] _. Qed.
Lemma os_me v : own_safe v (GetReference : M T Reference).
Proof. by intros fr fr' r [= <- _] _. Qed.
Lemma os_bind v {A B} (m : M T A) (f : A -> M T B) :
  own_safe v m -> (forall a, own_safe v (f a)) -> own_safe v (m ≫= f).
Proof.
  intros Hm Hf fr fr' r E Hc. unfold mbind, M_bind in E.
  destruct (m fr) as [fr1 [a|e|s]] eqn:E1.
  - rewrite (Hf a _ _ _ E Hc). by apply (Hm _ _ _ E1).
  - injection E as <- _. by apply (Hm _ _ _ E1).
  - injection E as <- <-. by destruct (Hc s).
Qed.
Lemma os_wrapping v {A} msg (m : M T A) : own_safe v m -> own_safe v (wrapping msg m).
Proof.
  intros Hm fr fr' r E Hc. unfold wrapping in E. destruct (m fr) as [fr1 [a|e|s]] eqn:E1;
    injection E as <- <-; apply (Hm _ _ _ E1); intros; (congruence || by destruct (Hc s)).
Qed.
Lemma os_try v {A} (m : M T A) : own_safe v m -> own_safe v (try m).
Proof.
  intros Hm fr fr' r E Hc. unfold try in E. destruct (m fr) as [fr1 [a|e|s]] eqn:E1;
    injection E as <- <-; apply (Hm _ _ _ E1); intros; (congruence || by destruct (Hc s)).
Qed.
Lemma os_result v {A} (x : result A) : own_safe v (of_result x : M T A).
Proof. destruct x; [apply os_ret|apply os_err]. Qed.
Lemma os_go v {A} (x : go A) : own_safe v (of_go x : M T A).
Proof. destruct x; [apply os_ret|apply os_crash]. Qed.
Lemma os_option v {A} msg (x : option A) : own_safe v (of_option msg x : M T A).
Proof. destruct x; [apply os_ret|apply os_err]. Qed.
Lemma os_guard v c msg : own_safe v (guard_err c msg : M T unit).
Proof. destruct c; [apply os_ret|apply os_err]. Qed.
Lemma os_parse v s msg : own_safe v (parse_big s msg : M T Z).
Proof. apply os_option. Qed.
End Rules.

#[export] Hint Resolve ws_ret ws_err ws_crash ws_self ws_me ws_set ws_saga ws_bind ws_wrapping
  ws_try ws_result ws_go ws_option ws_guard ws_parse os_ret os_err os_crash os_self os_me os_bind
  os_wrapping os_try os_result os_go os_option os_guard os_parse : money.

(** ** Calls *)
Section CallRules.
Context `{Routing} {T U : Type} `{Prototype U}.

Definition value (t : U) : Z := obj_value (to_object t).

Lemma world_value_call (w : World) ref o :
  objects w !! ref = Some o ->
  world_value w = obj_value o + world_value (mkWorld (delete ref (objects w)) (sagas w) (used w)).
Proof.
  intros Ho. unfold world_value. simpl. rewrite (objects_value_delete _ _ _ Ho). lia.
Qed.

Lemma world_value_resume (w : World) ref o out :
  objects w !! ref = None ->
  world_value (mkWorld (<[ref := o]> (objects w)) (sagas w ++ out) (used w)) =
  obj_value o + sum saga_value out + world_value w.
Proof.
  intros Ho. unfold world_value. simpl. rewrite objects_value_insert, sum_app by done. lia.
Qed.

Lemma call_delta {A} ref (body : M U A) d e :
  world_delta body d -> own_delta value body e -> world_delta (call ref body : M T A) (d + e).
Proof.
  intros Hw Ho fr fr' r Hok E. unfold call in E.
  destruct (negb (routes ref)); [injection E as <- <-; by apply world_step_refl|].
  destruct (objects (f_world fr) !! ref) as [o|] eqn:El; simpl in E;
    [|injection E as <- <-; by apply world_step_refl].
  destruct (of_object o) as [u|] eqn:Eo; [|injection E as <- <-; by apply world_step_refl].
  apply to_of_object in Eo as ->.
  set (w0 := mkWorld (delete ref (objects (f_world fr))) (sagas (f_world fr)) (used (f_world fr))) in *.
  destruct (body (mkFrame ref u [] w0)) as [fb rb] eqn:Eb.
  assert (Hok0 : world_ok w0).
  { unfold world_ok, w0. simpl. rewrite dom_delete_L.
    intros x [Hx _]%elem_of_difference. by apply Hok. }
  pose proof (Hw (mkFrame ref u [] w0) _ _ Hok0 Eb) as [H1 H2 H3 H4]. simpl in H2, H3, H4.
  assert (Hu : ref ∈ used (f_world fr)) by (apply Hok, elem_of_dom; by eexists).
  assert (Hn : objects (f_world fb) !! ref = None) by (apply H4; [done|apply lookup_delete_eq]).
  assert (Hres : forall t out c,
    obj_value (to_object t) + sum saga_value out + (if is_done rb then d else 0) =
      obj_value (to_object u) + c ->
    world_step (f_world fr) (mkWorld (<[ref := to_object t]> (objects (f_world fb)))
      (sagas (f_world fb) ++ out) (used (f_world fb))) c).
  { intros t out c Hv. split; simpl.
    - unfold world_ok. simpl. rewrite dom_insert_L. apply union_subseteq.
      split; [by apply singleton_subseteq_l, H3|exact H1].
    - rewrite world_value_resume, H2, (world_value_call (f_world fr) ref _ El) by done.
      fold w0. lia.
    - done.
    - intros x Hx Hxn. rewrite lookup_insert_ne by congruence. apply H4; [done|].
      rewrite lookup_delete_ne by congruence. done. }
  destruct rb as [a|e'|s]; injection E as <- <-; apply Hres; simpl.
  - specialize (Ho _ _ _ Eb ltac:(congruence)). simpl in Ho. unfold value in Ho. lia.
  - specialize (Ho _ _ _ Eb ltac:(congruence)). simpl in Ho. unfold value in Ho. lia.
  - lia.
Qed.

Lemma ws_call {A} ref (body : M U A) :
  world_safe body -> own_safe value body -> world_safe (call ref body : M T A).
Proof.
  intros Hw Ho. apply world_delta_0. change 0 with (0 + 0). apply call_delta.
  - by apply world_delta_0.
  - intros fr fr' r E Hc. rewrite (Ho _ _ _ E Hc). destruct (is_done r); lia.
Qed.

Lemma ws_call_immutable {A} ref (body : M U A) :
  world_safe body -> own_safe (fun _ => 0) body -> world_safe (call_immutable ref body : M T A).
Proof.
  intros Hw Ho fr fr' r Hok E. unfold call_immutable in E.
  destruct (negb (routes ref)); [injection E as <- _; by apply world_step_refl|].
  destruct (objects (f_world fr) !! ref ≫= of_object) as [u|] eqn:El;
    [|injection E as <- _; by apply world_step_refl].
  destruct (body (mkFrame ref u [] (f_world fr))) as [fb rb] eqn:Eb.
  pose proof (Hw (mkFrame ref u [] (f_world fr)) _ _ Hok Eb) as [H1 H2 H3 H4]. simpl in *.
  assert (Hres : forall out, sum saga_value out = 0 ->
    world_step (f_world fr) (mkWorld (objects (f_world fb)) (sagas (f_world fb) ++ out)
      (used (f_world fb))) 0).
  { intros out Hv. split; simpl; [exact H1| |exact H3|exact H4].
    revert H2. unfold world_value. simpl. rewrite sum_app. lia. }
  destruct rb as [a|e|s]; injection E as <- _; apply Hres.
  - by apply (Ho _ _ _ Eb).
  - by apply (Ho _ _ _ Eb).
  - done.
Qed.

Lemma ws_AsChild (holder : result U) parent :
  (forall u, holder = Good u -> value u = 0) -> world_safe (AsChild holder parent : M T Reference).
Proof.
  intros Hv fr fr' r Hok E. unfold AsChild in E.
  destruct (negb _); [injection E as <- _; by apply world_step_refl|].
  destruct (negb _); [injection E as <- _; by apply world_step_refl|].
  destruct holder as [u|e]; [|injection E as <- _; by apply world_step_refl].
  injection E as <- _. simpl. set (ref := fresh (used (f_world fr))).
  assert (Hf : ref ∉ used (f_world fr)) by apply is_fresh.
  assert (Hn : objects (f_world fr) !! ref = None).
  { apply not_elem_of_dom. intros Hin. by apply Hok in Hin. }
  split; simpl.
  - unfold world_ok in *. simpl. rewrite dom_insert_L. by apply union_mono_l.
  - unfold world_value. simpl. rewrite objects_value_insert by done.
    specialize (Hv u eq_refl). unfold value in Hv. lia.
  - set_solver.
  - intros x Hx Hxn. rewrite lookup_insert_ne; [done|]. intros <-. done.
Qed.

Lemma os_call v {A} ref (body : M U A) : own_safe v (call ref body : M T A).
Proof.
  intros fr fr' r E Hc. unfold call in E. destruct (negb _); [injection E as <- _; done|].
  destruct (_ ≫= _) as [u|]; [|injection E as <- _; done].
  by destruct (body _) as [fb [a|e|s]]; injection E as <- _.
Qed.
Lemma os_call_immutable v {A} ref (body : M U A) : own_safe v (call_immutable ref body : M T A).
Proof.
  intros fr fr' r E Hc. unfold call_immutable in E. destruct (negb _); [injection E as <- _; done|].
  destruct (_ ≫= _) as [u|]; [|injection E as <- _; done].
  by destruct (body _) as [fb [a|e|s]]; injection E as <- _.
Qed.
Lemma os_AsChild v (holder : result U) parent : own_safe v (AsChild holder parent : M T Reference).
Proof.
  intros fr fr' r E Hc. unfold AsChild in E. destruct (negb _); [injection E as <- _; done|].
  destruct (negb _); [injection E as <- _; done|]. by destruct holder; injection E as <- _.
Qed.
End CallRules.

#[export] Hint Resolve ws_call ws_call_immutable ws_AsChild os_call os_call_immutable os_AsChild
  : money.

(** ** What a method does to its own state and calls *)
Section OwnWp.
Context {T : Type}.
Implicit Types (t : T) (o : list Saga).

(** From state [t] and calls [o], every outcome satisfies [Q]. *)
Definition owp {A} (m : M T A) (t : T) (o : list Saga) (Q : T -> list Saga -> outcome A -> Prop) : Prop :=
  forall me w, Q (f_self (m (mkFrame me t o w)).1) (f_out (m (mkFrame me t o w)).1)
                 (m (mkFrame me t o w)).2.

Lemma owp_own_safe v {A} (m : M T A) :
  (forall t o, owp m t o (fun t' o' r => (forall s, r <> Crash s) ->
     v t' + sum saga_value o' = v t + sum saga_value o)) -> own_safe v m.
Proof. intros Hm [me t o w] fr' r E Hc. specialize (Hm t o me w). rewrite E in Hm. auto. Qed.

Lemma owp_bind {A B} (m : M T A) (f : A -> M T B) t o Q :
  owp m t o (fun t' o' r => match r with
    | Done a => owp (f a) t' o' Q
    | Err e => Q t' o' (Err e)
    | Crash s => Q t' o' (Crash s) end) ->
  owp (m ≫= f) t o Q.
Proof.
  intros Hm me w. specialize (Hm me w). unfold mbind, M_bind.
  destruct (m (mkFrame me t o w)) as [[me1 t1 o1 w1] [a|e|s]]; simpl in *; [|done..].
  apply Hm.
Qed.
Lemma owp_ret {A} (a : A) t o Q : Q t o (Done a) -> owp (mret a) t o Q.
Proof. by intros ? me w. Qed.
Lemma owp_err {A} e t o (Q : _ -> _ -> outcome A -> Prop) : Q t o (Err e) -> owp (err e) t o Q.
Proof. by intros ? me w. Qed.
Lemma owp_crash {A} s t o (Q : _ -> _ -> outcome A -> Prop) : Q t o (Crash s) -> owp (crash s) t o Q.
Proof. by intros ? me w. Qed.
Lemma owp_self t o (Q : _ -> _ -> outcome T -> Prop) : Q t o (Done t) -> owp self t o Q.
Proof. by intros ? me w. Qed.
Lemma owp_me t o (Q : _ -> _ -> outcome Reference -> Prop) :
  (forall r, Q t o (Done r)) -> owp GetReference t o Q.
Proof. intros HQ me w. apply HQ. Qed.
Lemma owp_set t' t o (Q : _ -> _ -> outcome unit -> Prop) : Q t' o (Done tt) -> owp (set_self t') t o Q.
Proof. by intros ? me w. Qed.
Lemma owp_guard c msg t o (Q : _ -> _ -> outcome unit -> Prop) :
  (c = true -> Q t o (Done tt)) -> (c = false -> Q t o (Err (Errorf msg))) ->
  owp (guard_err c msg) t o Q.
Proof. intros H1 H2 me w. unfold guard_err. destruct c; simpl; auto. Qed.
Lemma owp_result {A} (x : result A) t o (Q : _ -> _ -> outcome A -> Prop) :
  (forall a, x = Good a -> Q t o (Done a)) -> (forall e, x = Fail e -> Q t o (Err e)) ->
  owp (of_result x) t o Q.
Proof. intros H1 H2 me w. destruct x; simpl; auto. Qed.
Lemma owp_go {A} (x : go A) t o (Q : _ -> _ -> outcome A -> Prop) :
  (forall a, x = Ret a -> Q t o (Done a)) -> (forall s, x = Panic s -> Q t o (Crash s)) ->
  owp (of_go x) t o Q.
Proof. intros H1 H2 me w. destruct x; simpl; auto. Qed.
Lemma owp_option {A} msg (x : option A) t o (Q : _ -> _ -> outcome A -> Prop) :
  (forall a, x = Some a -> Q t o (Done a)) -> (x = None -> Q t o (Err (Errorf msg))) ->
  owp (of_option msg x) t o Q.
Proof. intros H1 H2 me w. destruct x; simpl; auto. Qed.
Lemma owp_parse s msg t o (Q : _ -> _ -> outcome Z -> Prop) :
  (forall z, SetString s = Some z -> Q t o (Done z)) ->
  (SetString s = None -> Q t o (Err (Errorf msg))) -> owp (parse_big s msg) t o Q.
Proof. apply owp_option. Qed.
Lemma owp_wrapping {A} msg (m : M T A) t o Q :
  owp m t o (fun t' o' r => Q t' o' (match r with Err e => Err (Wrap e msg) | _ => r end)) ->
  owp (wrapping msg m) t o Q.
Proof.
  intros Hm me w. specialize (Hm me w). unfold wrapping.
  by destruct (m (mkFrame me t o w)) as [fr1 [a|e|s]].
Qed.
Lemma owp_try {A} (m : M T A) t o Q :
  owp m t o (fun t' o' r => Q t' o' (match r with
    | Done a => Done (Good a) | Err e => Done (Fail e) | Crash s => Crash s end)) ->
  owp (try m) t o Q.
Proof.
  intros Hm me w. specialize (Hm me w). unfold try.
  by destruct (m (mkFrame me t o w)) as [fr1 [a|e|s]].
Qed.
Lemma owp_mono {A} (m : M T A) t o (Q R : _ -> _ -> _ -> Prop) :
  owp m t o Q -> (forall t' o' r, Q t' o' r -> R t' o' r) -> owp m t o R.
Proof. intros Hm HQ me w. apply HQ, Hm. Qed.

Section Remote.
Context `{Routing} {U : Type} `{Prototype U}.

Lemma owp_call {A} ref (body : M U A) t o (Q : _ -> _ -> outcome A -> Prop) :
  (forall a, (exists fr, (body fr).2 = Done a) -> Q t o (Done a)) ->
  (forall e, Q t o (Err e)) -> (forall s, Q t o (Crash s)) -> owp (call ref body) t o Q.
Proof.
  intros H1 H2 H3 me w. unfold call. destruct (negb _); [apply H3|]. simpl.
  destruct (_ ≫= _) as [u|]; [|apply H2].
  destruct (body _) as [fb [a|e|s]] eqn:Eb; simpl; auto. apply H1. eexists. by rewrite Eb.
Qed.
Lemma owp_call_immutable {A} ref (body : M U A) t o (Q : _ -> _ -> outcome A -> Prop) :
  (forall a, (exists fr, (body fr).2 = Done a) -> Q t o (Done a)) ->
  (forall e, Q t o (Err e)) -> (forall s, Q t o (Crash s)) -> owp (call_immutable ref body) t o Q.
Proof.
  intros H1 H2 H3 me w. unfold call_immutable. destruct (negb _); [apply H3|]. simpl.
  destruct (_ ≫= _) as [u|]; [|apply H2].
  destruct (body _) as [fb [a|e|s]] eqn:Eb; simpl; auto. apply H1. eexists. by rewrite Eb.
Qed.
Lemma owp_AsChild (holder : result U) parent t o (Q : _ -> _ -> outcome Reference -> Prop) :
  (forall a, Q t o (Done a)) -> (forall e, Q t o (Err e)) -> (forall s, Q t o (Crash s)) ->
  owp (AsChild holder parent) t o Q.
Proof.
  intros H1 H2 H3 me w. unfold AsChild. destruct (negb _); [apply H2|].
  destruct (negb _); [apply H3|]. destruct holder; simpl; auto.
Qed.
Lemma owp_saga ref meth arg t o (Q : _ -> _ -> outcome unit -> Prop) :
  Q t (o ++ [mkSaga ref meth arg]) (Done tt) -> (forall s, Q t o (Crash s)) ->
  owp (call_saga ref meth arg) t o Q.
Proof. intros H1 H2 me w. unfold call_saga. destruct (negb _); [apply H2|done]. Qed.
End Remote.
End OwnWp.

(** One step of a method's text. *)
Ltac owp_step :=
  lazymatch goal with
  | |- owp (mbind _ _) _ _ _ => apply owp_bind
  | |- owp (wrapping _ _) _ _ _ => apply owp_wrapping
  | |- owp (try _) _ _ _ => apply owp_try
  | |- owp (mret _) _ _ _ => apply owp_ret
  | |- owp (err _) _ _ _ => apply owp_err
  | |- owp (fail_with _) _ _ _ => apply owp_err
  | |- owp (crash _) _ _ _ => apply owp_crash
  | |- owp self _ _ _ => apply owp_self
  | |- owp GetReference _ _ _ => apply owp_me; intros ?
  | |- owp (set_self _) _ _ _ => apply owp_set
  | |- owp (guard_err _ _) _ _ _ => apply owp_guard; intros ?
  | |- owp (of_result _) _ _ _ => apply owp_result; intros ? ?
  | |- owp (of_go _) _ _ _ => apply owp_go; intros ? ?
  | |- owp (of_option _ _) _ _ _ => apply owp_option; intros; try (intros ?)
  | |- owp (parse_big _ _) _ _ _ => apply owp_parse; [intros ? ?|intros ?]
  | |- owp (call _ _) _ _ _ => apply owp_call; [intros ? [? ?]|intros ?|intros ?]
  | |- owp (call_immutable _ _) _ _ _ => apply owp_call_immutable; [intros ? [? ?]|intros ?|intros ?]
  | |- owp (AsChild _ _) _ _ _ => apply owp_AsChild; intros ?
  | |- owp (call_saga _ _ _) _ _ _ => apply owp_saga; [|intros ?]
  | |- owp (match ?x with _ => _ end) _ _ _ => destruct x eqn:?
  end; cbv beta iota zeta.

(** Run the method, closing the outcomes that need no thought. *)
Ltac owp_run := repeat (owp_step; try done).

Lemma value_account (a : Account) : value a = money_of (acc_Balance a).
Proof. done. Qed.
Lemma value_deposit (d : Deposit) : value d = money_of (Balance d).
Proof. done. Qed.

(** Evaluate a balance equation between the ends of a method. *)
Ltac crashed := intros Hcrash; exfalso; by destruct (Hcrash _ eq_refl).
Ltac money_eq :=
  intros _; simplify_eq; rewrite ?sum_app; cbn [sum foldr];
  rewrite ?saga_value_mk, ?value_account, ?value_deposit; cbn [acc_Balance Balance];
  rewrite ?money_of_String;
  repeat match goal with
  | E : SetString ?s = Some _ |- context [money_of ?s] => rewrite (money_of_Some _ _ E)
  | E : safemath_Sub _ _ = Good _ |- _ => apply safemath_Sub_good in E as [? ->]
  | E : safemath_Add _ _ = Good _ |- _ => apply safemath_Add_good in E as [? ->]
  end;
  lia.

Section ContractMoney.
Context `{ContractEnv}.

(** ** Accounts *)

(** A transfer takes the amount and the fee from the account and sends
    exactly those two sums, to the recipient and to the fee member; it
    succeeds only for a positive amount the balance covers, so the balance
    never goes below zero; a refused transfer changes nothing. *)
Lemma Account_Transfer_body amountStr toMember fromMember request a out :
  owp (Account_Transfer amountStr toMember fromMember request) a out (fun a' out' r =>
    match r with
    | Done reply =>
        exists amount balance feeMember,
          SetString amountStr = Some amount /\ SetString (acc_Balance a) = Some balance /\
          0 < amount /\ amount + 100000000 <= balance /\
          reply = TransferResponse Fee /\
          acc_Balance a' = big_String (balance - (amount + 100000000)) /\
          out' = out ++ [mkSaga toMember MemberAccept (mkAccept amountStr fromMember request);
                         mkSaga feeMember MemberAccept (mkAccept Fee fromMember request)]
    | Err _ => a' = a /\ out' = out
    | Crash _ => True
    end).
Proof.
  unfold Account_Transfer, Account_transferToMember, Account_GetBalance.
  owp_run.
  - cbn in H2. injection H2 as <-.
    replace (SetString Fee) with (Some 100000000) in H3 by by vm_compute. injection H3 as <-.
    apply safemath_Add_good in H5 as [_ ->]. apply safemath_Sub_good in H8 as [_ ->].
    apply Z.leb_le in H7. apply Z.ltb_lt in H1. unfold Sign in H1.
    exists z, z1, g. split_and!; try done; try lia.
    + cbn. f_equal. lia.
    + by rewrite <- (assoc_L (++)).
  - cbn in H2. injection H2 as <-. done.
Qed.

(** Account state and calls balance. *)
Lemma os_Account_Transfer amountStr toMember fromMember request :
  own_safe value (Account_Transfer amountStr toMember fromMember request).
Proof.
  apply owp_own_safe. intros t o.
  eapply owp_mono; [apply Account_Transfer_body|]. intros t' o' [reply|e|s] HQ Hc.
  - destruct HQ as (amount & balance & g & H1 & H2 & _ & _ & _ & H3 & ->). rewrite sum_app.
    cbn [sum foldr]. rewrite !saga_value_mk, (money_of_Some _ _ H1).
    change (value t') with (money_of (acc_Balance t')). change (value t) with (money_of (acc_Balance t)).
    rewrite H3, money_of_String, (money_of_Some _ _ H2).
    replace (money_of Fee) with 100000000 by by vm_compute. lia.
  - by destruct HQ as [-> ->].
  - by destruct (Hc s).
Qed.

(** ** Deposits *)
Lemma os_TransferToDeposit amountStr toDeposit fromMember request toMember :
  own_safe value (TransferToDeposit amountStr toDeposit fromMember request toMember).
Proof.
  apply owp_own_safe. intros t o. unfold TransferToDeposit, set_Balance. owp_run.
  all: first [crashed|money_eq].
Qed.

Lemma os_Deposit_Transfer amountStr memberRef request :
  own_safe value (Deposit_Transfer amountStr memberRef request).
Proof.
  apply owp_own_safe. intros t o.
  unfold Deposit_Transfer, canTransfer, availableAmount, set_Balance. owp_run.
  all: first [crashed|money_eq].
Qed.

Lemma os_activeDaemons_loop l : own_safe value (activeDaemons_loop l).
Proof.
  induction l as [|[ref a] l IH]; simpl; [apply os_ret|].
  apply os_bind; [destruct (NewObjectReferenceFromString ref); [apply os_ret|apply os_err]|].
  intros r. destruct (Global_IsEmpty _); [apply os_ret|].
  apply os_bind; [apply os_call_immutable|]. intros b. apply os_bind; [exact IH|].
  intros rest. apply os_ret.
Qed.

Lemma os_set_Confirm ref amountStr : own_safe value (set_Confirm ref amountStr).
Proof. apply owp_own_safe. intros t o. unfold set_Confirm. owp_run. Qed.

Lemma os_checkConfirm ref amountStr : own_safe value (checkConfirm ref amountStr).
Proof.
  unfold checkConfirm. apply os_bind; [apply os_self|]. intros d.
  apply os_bind; [apply os_try, os_activeDaemons_loop|]. intros [[ds|]|e]; [|apply os_ret..].
  apply os_bind; [apply os_set_Confirm|]. intros _. destruct (0 <? length ds)%nat; [|apply os_ret].
  destruct (checkAmount ds ref amountStr). apply os_ret.
Qed.

Lemma os_Confirm_transfer amountStr request toMember :
  own_safe value (Confirm_transfer amountStr request toMember).
Proof.
  apply owp_own_safe. intros t o. unfold Confirm_transfer, set_Hold, set_IsConfirmed. owp_run.
Qed.

Lemma os_Confirm txHash amountStr fromMember request toMember :
  own_safe value (Confirm txHash amountStr fromMember request toMember).
Proof.
  unfold Confirm. apply os_bind; [apply os_self|]. intros d.
  apply os_bind; [apply os_guard|]. intros _.
  destruct (MigrationDaemonConfirms d !! _); [apply os_guard|].
  destruct (IsConfirmed d); [apply os_bind; [apply os_set_Confirm|intros; apply os_guard]|].
  destruct (0 <? _)%nat; [|apply os_set_Confirm].
  apply os_bind; [apply os_checkConfirm|]. intros [can e].
  apply os_bind; [destruct can; [apply os_Confirm_transfer|apply os_ret]|].
  intros _. destruct e; [apply os_err|apply os_ret].
Qed.
End ContractMoney.

#[export] Hint Resolve os_Account_Transfer os_TransferToDeposit os_Deposit_Transfer
  os_activeDaemons_loop os_set_Confirm os_checkConfirm os_Confirm_transfer os_Confirm : money.

Lemma os_set {T} (v : T -> Z) t : (forall s, v t = v s) -> own_safe v (set_self t).
Proof. intros Hv fr fr' r [= <- _] _. simpl. by rewrite (Hv (f_self fr)). Qed.

(** Structural proofs of both kinds of safety: follow the text of the
    method, use what is known of the methods it calls. *)
Ltac safe := repeat (intros; cbv beta zeta; lazymatch goal with
  | |- world_safe (mbind _ _) => apply ws_bind
  | |- own_safe _ (mbind _ _) => apply os_bind
  | |- world_safe (wrapping _ _) => apply ws_wrapping
  | |- own_safe _ (wrapping _ _) => apply os_wrapping
  | |- world_safe (try _) => apply ws_try
  | |- own_safe _ (try _) => apply os_try
  | |- world_safe (call _ _) => apply ws_call
  | |- world_safe (call_immutable _ _) => apply ws_call_immutable
  | |- world_safe (AsChild _ _) => apply ws_AsChild
  | |- own_safe _ (set_self _) => apply os_set; done
  | |- world_safe (fail_with _) => apply ws_err
  | |- own_safe _ (fail_with _) => apply os_err
  | |- world_safe (match ?x with _ => _ end) => destruct x eqn:?
  | |- own_safe _ (match ?x with _ => _ end) => destruct x eqn:?
  | |- world_safe _ => solve [auto with money]
  | |- own_safe _ _ => solve [auto with money]
  end).

Section ContractSafety.
Context `{ContractEnv}.

(** *** Wallets, accounts, deposits *)
Lemma ws_Account_Transfer s r1 r2 r3 : world_safe (Account_Transfer s r1 r2 r3).
Proof. unfold Account_Transfer, Account_transferToMember, Account_GetBalance, CalcFee, GetFeeMember. safe. Qed.

Lemma ws_TransferToDeposit s r1 r2 r3 r4 : world_safe (TransferToDeposit s r1 r2 r3 r4).
Proof. unfold TransferToDeposit, set_Balance. safe. Qed.

Lemma ws_activeDaemons_loop l : world_safe (activeDaemons_loop l).
Proof. induction l as [|[ref a] l IH]; simpl; unfold GetActivationStatus; safe. Qed.

Lemma ws_Deposit_Transfer s r1 r2 : world_safe (Deposit_Transfer s r1 r2).
Proof. unfold Deposit_Transfer, canTransfer, availableAmount, set_Balance. safe. Qed.
End ContractSafety.
#[export] Hint Resolve ws_Account_Transfer ws_TransferToDeposit ws_activeDaemons_loop
  ws_Deposit_Transfer : money.

Section ContractSafety2.
Context `{ContractEnv}.

Lemma ws_Confirm s1 s2 r1 r2 r3 : world_safe (Confirm s1 s2 r1 r2 r3).
Proof.
  unfold Confirm, checkConfirm, Confirm_transfer, set_Confirm, set_Hold, set_IsConfirmed,
    Member_GetWallet, FindDeposit. safe.
Qed.

Lemma ws_Wallet_Transfer s1 s2 r1 r2 r3 : world_safe (Wallet_Transfer s1 s2 r1 r2 r3).
Proof. unfold Wallet_Transfer, Wallet_GetAccount. safe. Qed.
Lemma os_Wallet_Transfer v s1 s2 r1 r2 r3 : own_safe v (Wallet_Transfer s1 s2 r1 r2 r3).
Proof. unfold Wallet_Transfer, Wallet_GetAccount. safe. Qed.

Lemma ws_Wallet_GetBalance s : world_safe (Wallet_GetBalance s).
Proof. unfold Wallet_GetBalance, Wallet_GetAccount, Account_GetBalance. safe. Qed.
Lemma os_Wallet_GetBalance v s : own_safe v (Wallet_GetBalance s).
Proof. unfold Wallet_GetBalance, Wallet_GetAccount, Account_GetBalance. safe. Qed.

Lemma ws_GetDeposits_loop acc l : world_safe (GetDeposits_loop acc l).
Proof.
  revert acc. induction l as [|[k r] l IH]; intros acc; simpl; unfold Deposit_Itself; safe.
Qed.
Lemma os_GetDeposits_loop v acc l : own_safe v (GetDeposits_loop acc l).
Proof.
  revert acc. induction l as [|[k r] l IH]; intros acc; simpl; unfold Deposit_Itself; safe.
Qed.
End ContractSafety2.
#[export] Hint Resolve ws_Confirm ws_Wallet_Transfer os_Wallet_Transfer ws_Wallet_GetBalance
  os_Wallet_GetBalance ws_GetDeposits_loop os_GetDeposits_loop : money.

(** *** The second part of the contracts *)
Section MemberSafety.
Context `{ContractEnv}.

Lemma Deposit_New_value s l v st d : Deposit_New s l v st = Good d -> value d = 0.
Proof. unfold Deposit_New. destruct (_ && _); [done|]. by intros [= <-]. Qed.
Lemma Account_New_value a : Account_New ACCOUNT_START_VALUE = Good a -> value a = 0.
Proof. by intros [= <-]. Qed.

Lemma ws_FindOrCreateDeposit s l v st : world_safe (FindOrCreateDeposit s l v st).
Proof. unfold FindOrCreateDeposit, FindDeposit. safe. by eapply Deposit_New_value. Qed.
Lemma os_FindOrCreateDeposit s l v st : own_safe value (FindOrCreateDeposit s l v st).
Proof. unfold FindOrCreateDeposit, FindDeposit. safe. Qed.

Lemma ws_shard_of {T} k l msg : world_safe (shard_of k l msg : M T Reference).
Proof. unfold shard_of. safe. Qed.
Lemma os_shard_of {T} v k l msg : own_safe v (shard_of k l msg : M T Reference).
Proof. unfold shard_of. safe. Qed.

Lemma ws_SetActivationStatus b : world_safe (SetActivationStatus b).
Proof. unfold SetActivationStatus. safe. Qed.
Lemma os_SetActivationStatus b : own_safe value (SetActivationStatus b).
Proof. unfold SetActivationStatus. safe. Qed.
Lemma ws_GetActivationStatus : world_safe GetActivationStatus.
Proof. unfold GetActivationStatus. safe. Qed.
Lemma os_GetActivationStatus v : own_safe v GetActivationStatus.
Proof. unfold GetActivationStatus. safe. Qed.

Lemma ws_PKShard_SetRef k r : world_safe (PKShard_SetRef k r).
Proof. unfold PKShard_SetRef. safe. Qed.
Lemma os_PKShard_SetRef k r : own_safe value (PKShard_SetRef k r).
Proof. unfold PKShard_SetRef. safe. Qed.
Lemma ws_MigrationShard_SetRef k r : world_safe (MigrationShard_SetRef k r).
Proof. unfold MigrationShard_SetRef. safe. Qed.
Lemma os_MigrationShard_SetRef k r : own_safe value (MigrationShard_SetRef k r).
Proof. unfold MigrationShard_SetRef. safe. Qed.
Lemma ws_AddFreeMigrationAddresses l : world_safe (AddFreeMigrationAddresses l).
Proof. unfold AddFreeMigrationAddresses. safe. Qed.
Lemma os_AddFreeMigrationAddresses l : own_safe value (AddFreeMigrationAddresses l).
Proof. unfold AddFreeMigrationAddresses. safe. Qed.
Lemma ws_MigrationShard_GetFree : world_safe MigrationShard_GetFreeMigrationAddress.
Proof. unfold MigrationShard_GetFreeMigrationAddress. safe. Qed.
Lemma os_MigrationShard_GetFree : own_safe value MigrationShard_GetFreeMigrationAddress.
Proof. unfold MigrationShard_GetFreeMigrationAddress. safe. Qed.
End MemberSafety.
#[export] Hint Resolve ws_FindOrCreateDeposit os_FindOrCreateDeposit ws_shard_of os_shard_of
  ws_SetActivationStatus os_SetActivationStatus ws_GetActivationStatus os_GetActivationStatus
  ws_PKShard_SetRef os_PKShard_SetRef ws_MigrationShard_SetRef os_MigrationShard_SetRef
  ws_AddFreeMigrationAddresses os_AddFreeMigrationAddresses ws_MigrationShard_GetFree
  os_MigrationShard_GetFree : money.

Section AdminSafety.
Context `{ContractEnv}.

Lemma ws_GetMemberByPublicKey k : world_safe (GetMemberByPublicKey k).
Proof. unfold GetMemberByPublicKey, PKShard_GetRef. safe. Qed.
Lemma os_GetMemberByPublicKey v k : own_safe v (GetMemberByPublicKey k).
Proof. unfold GetMemberByPublicKey, PKShard_GetRef. safe. Qed.
Lemma ws_AddNewMember k r : world_safe (AddNewMemberToPublicKeyMap k r).
Proof. unfold AddNewMemberToPublicKeyMap. safe. Qed.
Lemma os_AddNewMember v k r : own_safe v (AddNewMemberToPublicKeyMap k r).
Proof. unfold AddNewMemberToPublicKeyMap. safe. Qed.

Lemma ws_RegisterNode k r : world_safe (RegisterNode k r).
Proof. unfold RegisterNode. safe. done. Qed.
Lemma os_RegisterNode k r : own_safe value (RegisterNode k r).
Proof. unfold RegisterNode. safe. Qed.
Lemma ws_GetNodeRefByPublicKey k : world_safe (GetNodeRefByPublicKey k).
Proof. unfold GetNodeRefByPublicKey. safe. Qed.
Lemma os_GetNodeRefByPublicKey v k : own_safe v (GetNodeRefByPublicKey k).
Proof. unfold GetNodeRefByPublicKey. safe. Qed.

Lemma ws_GetMigrationDaemonByMemberRef s : world_safe (GetMigrationDaemonByMemberRef s).
Proof. unfold GetMigrationDaemonByMemberRef. safe. Qed.
Lemma os_GetMigrationDaemonByMemberRef v s : own_safe v (GetMigrationDaemonByMemberRef s).
Proof. unfold GetMigrationDaemonByMemberRef. safe. Qed.
Lemma ws_GetMemberByMigrationAddress s : world_safe (GetMemberByMigrationAddress s).
Proof. unfold GetMemberByMigrationAddress, MigrationShard_GetRef. safe. Qed.
Lemma os_GetMemberByMigrationAddress v s : own_safe v (GetMemberByMigrationAddress s).
Proof. unfold GetMemberByMigrationAddress, MigrationShard_GetRef. safe. Qed.
Lemma ws_GetFreeMigrationAddress s : world_safe (GetFreeMigrationAddress s).
Proof. unfold GetFreeMigrationAddress. safe. Qed.
Lemma os_GetFreeMigrationAddress v s : own_safe v (GetFreeMigrationAddress s).
Proof. unfold GetFreeMigrationAddress. safe. Qed.
Lemma ws_AddNewMigrationAddressToMaps s r : world_safe (AddNewMigrationAddressToMaps s r).
Proof. unfold AddNewMigrationAddressToMaps. safe. Qed.
Lemma os_AddNewMigrationAddressToMaps v s r : own_safe v (AddNewMigrationAddressToMaps s r).
Proof. unfold AddNewMigrationAddressToMaps. safe. Qed.

Lemma ws_sort_addresses l a : world_safe (sort_addresses l a).
Proof. revert l. induction a as [|x a IH]; intros l; simpl; safe. Qed.
Lemma os_sort_addresses v l a : own_safe v (sort_addresses l a).
Proof. revert l. induction a as [|x a IH]; intros l; simpl; safe. Qed.
Lemma ws_store_addresses i t l : world_safe (store_addresses i t l).
Proof. revert i t. induction l as [|[x y] l IH]; intros i t; simpl; safe. Qed.
Lemma os_store_addresses v i t l : own_safe v (store_addresses i t l).
Proof. revert i t. induction l as [|[x y] l IH]; intros i t; simpl; safe. Qed.
Lemma ws_count_shards i l : world_safe (count_shards i l).
Proof. revert i. induction l as [|x l IH]; intros i; simpl; unfold GetMigrationAddressesAmount; safe. Qed.
Lemma os_count_shards v i l : own_safe v (count_shards i l).
Proof. revert i. induction l as [|x l IH]; intros i; simpl; safe. Qed.
End AdminSafety.
#[export] Hint Resolve ws_GetMemberByPublicKey os_GetMemberByPublicKey ws_AddNewMember os_AddNewMember
  ws_RegisterNode os_RegisterNode ws_GetNodeRefByPublicKey os_GetNodeRefByPublicKey
  ws_GetMigrationDaemonByMemberRef os_GetMigrationDaemonByMemberRef
  ws_GetMemberByMigrationAddress os_GetMemberByMigrationAddress ws_GetFreeMigrationAddress
  os_GetFreeMigrationAddress ws_AddNewMigrationAddressToMaps os_AddNewMigrationAddressToMaps
  ws_sort_addresses os_sort_addresses ws_store_addresses os_store_addresses ws_count_shards
  os_count_shards : money.

Section CallSafety.
Context `{ContractEnv}.

Lemma ws_MigrationAdminCall p s r : world_safe (MigrationAdminCall p s r).
Proof.
  unfold MigrationAdminCall, addMigrationAddressesCall, getAddressCount, activateDaemonCall,
    deactivateDaemonCall, checkDaemonCall, addMigrationAddresses, getMigrationDamon. safe.
Qed.
Lemma os_MigrationAdminCall v p s r : own_safe v (MigrationAdminCall p s r).
Proof.
  unfold MigrationAdminCall, addMigrationAddressesCall, getAddressCount, activateDaemonCall,
    deactivateDaemonCall, checkDaemonCall, addMigrationAddresses, getMigrationDamon. safe.
Qed.

Lemma ws_DepositMigrationCall p r1 r2 : world_safe (DepositMigrationCall p r1 r2).
Proof.
  unfold DepositMigrationCall, depositMigration, getAmountFromParam, addConfirmToDeposit,
    Member_GetWallet, GetDepositParameters. safe.
Qed.
Lemma os_DepositMigrationCall v p r1 r2 : own_safe v (DepositMigrationCall p r1 r2).
Proof.
  unfold DepositMigrationCall, depositMigration, getAmountFromParam, addConfirmToDeposit. safe.
Qed.
End CallSafety.
#[export] Hint Resolve ws_MigrationAdminCall os_MigrationAdminCall ws_DepositMigrationCall
  os_DepositMigrationCall Account_New_value : money.

(** ** The platform's steps *)
Section Platform.
Context `{ContractEnv}.
Context (decodeRequest : list Z -> result (list Z * string * Request)).
Context (VerifySignature : list Z -> string -> string -> string -> bool -> option error).
Context (is_object : Value -> bool).

(** A call from outside: no calling object. *)
Definition external {A} (m : M unit A) (w : World) : World * outcome A :=
  let '(fr, r) := m (mkFrame emptyGlobal tt [] w) in (f_world fr, r).

(** An API call of a member, an [ins:immutable] method. *)
Definition api_call (member : Reference) (signedRequest : list Z) (w : World) : World * outcome Reply :=
  external (call_immutable member (Call decodeRequest VerifySignature is_object signedRequest)) w.

(** A pending saga call is taken from the queue and executed. *)
Definition deliver (sg : Saga) (w : World) : World * outcome unit :=
  external
    (match saga_method sg with
     | MemberAccept => call (saga_target sg) (Member_Accept (saga_arg sg))
     | DepositAccept => call (saga_target sg) (Deposit_Accept (saga_arg sg))
     end) w.

(** The world with what was lost in failed deliveries so far. *)
Inductive platform_step : World * Z -> World * Z -> Prop :=
  | step_api w lost member req w' r :
      api_call member req w = (w', r) -> platform_step (w, lost) (w', lost)
  | step_deliver w lost before sg after w' r :
      sagas w = before ++ sg :: after ->
      deliver sg (mkWorld (objects w) (before ++ after) (used w)) = (w', r) ->
      platform_step (w, lost) (w', lost + if is_done r then 0 else saga_value sg).

Lemma ws_createMember k a : world_safe (contractCreateMember k a).
Proof.
  unfold contractCreateMember, createMember. safe; first [done|by eapply Account_New_value].
Qed.

Lemma ws_memberMigrationCreate k : world_safe (memberMigrationCreate k).
Proof. unfold memberMigrationCreate. pose proof ws_createMember. safe. Qed.
Lemma ws_contractCreateMemberCall k : world_safe (contractCreateMemberCall k).
Proof. unfold contractCreateMemberCall. pose proof ws_createMember. safe. Qed.
Lemma ws_memberGet k : world_safe (memberGet k).
Proof. unfold memberGet, GetMigrationAddress. safe. Qed.
Lemma ws_registerNodeCall p : world_safe (registerNodeCall p).
Proof. unfold registerNodeCall, registerNode. safe. Qed.
Lemma ws_getNodeRefCall p : world_safe (getNodeRefCall p).
Proof. unfold getNodeRefCall, getNodeRef. safe. Qed.
Lemma ws_getBalanceCall p : world_safe (getBalanceCall p).
Proof. unfold getBalanceCall, Member_GetWallet, GetDeposits. safe. Qed.
Lemma ws_transferCall p : world_safe (transferCall p).
Proof. unfold transferCall, Member_GetWallet. safe. Qed.
Lemma ws_depositMigrationCall p : world_safe (depositMigrationCall p).
Proof. unfold depositMigrationCall. safe. Qed.
Lemma ws_depositTransferCall p : world_safe (depositTransferCall p).
Proof. unfold depositTransferCall, FindDeposit. safe. Qed.
Lemma os_contractCreateMemberCall v k : own_safe v (contractCreateMemberCall k).
Proof. unfold contractCreateMemberCall, contractCreateMember, createMember. safe. Qed.
Lemma os_memberMigrationCreate v k : own_safe v (memberMigrationCreate k).
Proof. unfold memberMigrationCreate, contractCreateMember, createMember. safe. Qed.
Lemma os_memberGet v k : own_safe v (memberGet k).
Proof. unfold memberGet. safe. Qed.
Lemma os_registerNodeCall v p : own_safe v (registerNodeCall p).
Proof. unfold registerNodeCall, registerNode. safe. Qed.
Lemma os_getNodeRefCall v p : own_safe v (getNodeRefCall p).
Proof. unfold getNodeRefCall, getNodeRef. safe. Qed.
Lemma os_getBalanceCall v p : own_safe v (getBalanceCall p).
Proof. unfold getBalanceCall. safe. Qed.
Lemma os_transferCall v p : own_safe v (transferCall p).
Proof. unfold transferCall. safe. Qed.
Lemma os_depositMigrationCall v p : own_safe v (depositMigrationCall p).
Proof. unfold depositMigrationCall. safe. Qed.
Lemma os_depositTransferCall v p : own_safe v (depositTransferCall p).
Proof. unfold depositTransferCall. safe. Qed.
End Platform.
#[export] Hint Resolve ws_contractCreateMemberCall os_contractCreateMemberCall ws_memberMigrationCreate os_memberMigrationCreate ws_memberGet os_memberGet ws_registerNodeCall os_registerNodeCall ws_getNodeRefCall os_getNodeRefCall ws_getBalanceCall os_getBalanceCall ws_transferCall os_transferCall ws_depositMigrationCall os_depositMigrationCall ws_depositTransferCall os_depositTransferCall : money.

Section PlatformSteps.
Context `{ContractEnv}.
Context (decodeRequest : list Z -> result (list Z * string * Request)).
Context (VerifySignature : list Z -> string -> string -> string -> bool -> option error).
Context (is_object : Value -> bool).

Lemma ws_Call req : world_safe (Call decodeRequest VerifySignature is_object req).
Proof. unfold Call. safe. Qed.
Lemma os_Call v req : own_safe v (Call decodeRequest VerifySignature is_object req).
Proof. unfold Call. safe. Qed.

Lemma external_step {A} (m : M unit A) w w' r :
  world_safe m -> world_ok w -> external m w = (w', r) -> world_step w w' 0.
Proof.
  intros Hm Hok E. unfold external in E. destruct (m _) as [fr r'] eqn:Em.
  injection E as <- _. exact (Hm (mkFrame emptyGlobal tt [] w) _ _ Hok Em).
Qed.

Lemma api_call_step member req w w' r :
  world_ok w -> api_call decodeRequest VerifySignature is_object member req w = (w', r) ->
  world_step w w' 0.
Proof.
  intros Hok. apply external_step; [|done]. apply ws_call_immutable; [apply ws_Call|apply os_Call].
Qed.

(** *** Deliveries *)
Lemma ws_IncreaseBalance s : world_safe (IncreaseBalance s).
Proof. unfold IncreaseBalance. safe. Qed.

Lemma owp_own_delta {T} (v : T -> Z) {A} (m : M T A) d :
  (forall t o, owp m t o (fun t' o' r => (forall s, r <> Crash s) ->
     v t' + sum saga_value o' = v t + sum saga_value o + (if is_done r then d else 0))) ->
  own_delta v m d.
Proof. intros Hm [me t o w] fr' r E Hc. specialize (Hm t o me w). rewrite E in Hm. auto. Qed.

Lemma od_IncreaseBalance s : own_delta value (IncreaseBalance s) (money_of s).
Proof.
  apply owp_own_delta. intros t o. unfold IncreaseBalance. owp_run.
  all: cbn [is_done]; first [crashed|money_eq].
Qed.

Lemma od_Deposit_Accept arg : own_delta value (Deposit_Accept arg) (money_of (sa_Amount arg)).
Proof.
  apply owp_own_delta. intros t o. unfold Deposit_Accept, set_Balance. owp_run.
  all: cbn [is_done]; first [crashed|money_eq].
Qed.
Lemma ws_Deposit_Accept arg : world_safe (Deposit_Accept arg).
Proof. unfold Deposit_Accept, set_Balance. safe. Qed.

Lemma wd_Member_Accept arg : world_delta (Member_Accept arg) (money_of (sa_Amount arg)).
Proof.
  unfold Member_Accept. apply wd_bind.
  - unfold Member_GetAccount, Wallet_GetAccount. safe.
  - intros accountRef. apply wd_wrapping. change (money_of (sa_Amount arg)) with (0 + money_of (sa_Amount arg)).
    apply call_delta; [apply world_delta_0, ws_IncreaseBalance|apply od_IncreaseBalance].
Qed.
Lemma os_Member_Accept v arg : own_safe v (Member_Accept arg).
Proof. unfold Member_Accept, Member_GetAccount. safe. Qed.

Lemma deliver_step sg w w' r :
  world_ok w -> deliver sg w = (w', r) -> world_step w w' (if is_done r then saga_value sg else 0).
Proof.
  intros Hok E. destruct sg as [target meth arg]. unfold deliver, external in E.
  change (saga_value _) with (money_of (sa_Amount arg)). simpl saga_method in E.
  destruct (_ (mkFrame emptyGlobal tt [] w)) as [fr r'] eqn:Em. injection E as <- <-.
  destruct meth.
  - assert (Hd : world_delta (call target (Member_Accept arg) : M unit unit) (money_of (sa_Amount arg) + 0)).
    { apply call_delta; [apply wd_Member_Accept|].
      intros f f' x Ex Hc. rewrite (os_Member_Accept value arg _ _ _ Ex Hc). destruct (is_done x); lia. }
    specialize (Hd (mkFrame emptyGlobal tt [] w) _ _ Hok Em). rewrite Z.add_0_r in Hd. exact Hd.
  - assert (Hd : world_delta (call target (Deposit_Accept arg) : M unit unit) (0 + money_of (sa_Amount arg))).
    { apply call_delta; [apply world_delta_0, ws_Deposit_Accept|apply od_Deposit_Accept]. }
    exact (Hd (mkFrame emptyGlobal tt [] w) _ _ Hok Em).
Qed.

(** C1: Whatever API calls are made and in whatever order the saga calls are
    delivered, the money in accounts, in deposits and under way plus the
    amounts of failed deliveries is constant. *)
Theorem money_conserved w w' lost :
  world_ok w ->
  reach (platform_step decodeRequest VerifySignature is_object) (w, 0) (w', lost) ->
  world_ok w' /\ world_value w' + lost = world_value w.
Proof.
  intros Hok Hr.
  refine (reach_invariant (platform_step decodeRequest VerifySignature is_object)
    (fun x => world_ok x.1 /\ world_value x.1 + x.2 = world_value w) _ _ _ _ Hr).
  { split; [done|simpl; lia]. }
  intros [a la] [b lb] [Ha Hv] Hstep. simpl in Ha, Hv.
  inversion Hstep as [w1 l member req w2 r E|w1 l before sg after w2 r Es E]; subst; simpl.
  - destruct (api_call_step _ _ _ _ _ Ha E) as [H1 H2 _ _]. split; [done|lia].
  - assert (Hok1 : world_ok (mkWorld (objects a) (before ++ after) (used a))) by exact Ha.
    destruct (deliver_step _ _ _ _ Hok1 E) as [H1 H2 _ _]. split; [done|].
    assert (Hs : world_value a =
      world_value (mkWorld (objects a) (before ++ after) (used a)) + saga_value sg).
    { unfold world_value. simpl. rewrite Es, !sum_app. simpl. lia. }
    destruct (is_done r); lia.
Qed.
End PlatformSteps.

(** ** A concrete world *)
Definition sampleEnv (pulse : Z) : ContractEnv := {|
  env_routing := fun _ => true;
  GetPulseNumber := Good pulse;
  GetRequestReference := Good (nat_ref 99);
  ref_String r := big_String (Z.of_nat (ref_nat r));
  NewObjectReferenceFromString s :=
    match SetString s with Some z => Good (nat_ref (Z.to_nat z)) | None => Fail (Errorf "bad reference") end;
  GetCostCenter := nat_ref 10;
  GetMigrationAdminMember := nat_ref 11;
  GetMigrationAdmin := nat_ref 12;
  GetRootDomain := nat_ref 13;
  ContractRootMember := nat_ref 14;
  GetNodeDomain := nat_ref 15;
  GetMigrationDaemon := fun _ => emptyGlobal;
  IsMigrationDaemonMember := fun _ => false;
  ExtractCanonicalPublicKey := Good;
  NewSource_Int63 := 0;
|}.

Definition sampleDeposit : Deposit :=
  mkDeposit "100" 65537 {["20" := "100"; "21" := "100"]} "100" "tx" DefaultVesting 0 10 10 true.

(** Two members with their wallets and accounts, a cost center whose fee
    member is the second, and a deposit in the first wallet. *)
Definition sampleObjects : gmap Reference Object :=
  list_to_map [
    (nat_ref 1, OMember (mkMember "alice" "" (nat_ref 2)));
    (nat_ref 2, OWallet (mkWallet {["XNS" := "3"]} {["tx" := "7"]}));
    (nat_ref 3, OAccount (mkAccount "1000000000"));
    (nat_ref 4, OMember (mkMember "bob" "" (nat_ref 5)));
    (nat_ref 5, OWallet (mkWallet {["XNS" := "6"]} ∅));
    (nat_ref 6, OAccount (mkAccount "0"));
    (nat_ref 7, ODeposit sampleDeposit);
    (nat_ref 10, OCostCenter (mkCostCenter (Some (nat_ref 4))))].
Definition sampleWorld : World := mkWorld sampleObjects [] (dom sampleObjects).

(** Every request is Alice's transfer of 7 to Bob. *)
Definition decode_transfer (_ : list Z) : result (list Z * string * Request) :=
  Good ([], "", mkRequest "member.transfer" (Some VOther)
    {["toMemberReference" := VString "4"; "amount" := VString "7"]} "alice").
Definition accept_all (_ : list Z) (_ _ _ : string) (_ : bool) : option error := None.
Definition afterTransfer : World :=
  (api_call (H := sampleEnv 100000) decode_transfer accept_all (fun _ => true) (nat_ref 1) []
     sampleWorld).1.

Lemma sampleWorld_ok : world_ok sampleWorld.
Proof. unfold world_ok, sampleWorld. cbn [objects used]. reflexivity. Qed.

Lemma transfer_done :
  (api_call (H := sampleEnv 100000) decode_transfer accept_all (fun _ => true) (nat_ref 1) []
     sampleWorld).2 = Done (TransferResponse "100000000") /\
  (length (sagas afterTransfer) = 2)%nat.
Proof. by vm_compute. Qed.

Lemma money_conserved_witness :
  world_ok afterTransfer /\ world_value afterTransfer + 0 = world_value sampleWorld.
Proof.
  apply (money_conserved (H := sampleEnv 100000) decode_transfer accept_all (fun _ => true)
           sampleWorld afterTransfer 0 sampleWorld_ok).
  eapply reach_step; [apply reach_init|].
  eapply (step_api _ _ _ _ _ (nat_ref 1) []). apply surjective_pairing.
Defined.

(** [deposit.transfer] does not check the sign of its amount: a member that
    asks to transfer -50 out of a deposit gets 50 more in it, and the saga
    call that would take them from the account is refused. *)
Theorem negative_deposit_transfer_mints :
  let run1 := external (call (H := @env_routing (sampleEnv 100000)) (nat_ref 7)
      (Deposit_Transfer (H := sampleEnv 100000) "-50" (nat_ref 1) (nat_ref 99))) sampleWorld in
  run1.2 = Done NoReply /\
  exists sg, sagas run1.1 = [sg] /\
    let run2 := deliver (H := sampleEnv 100000) sg (mkWorld (objects run1.1) [] (used run1.1)) in
    is_done run2.2 = false /\ world_value run2.1 = world_value sampleWorld + 50.
Proof.
  cbv zeta. split; [by vm_compute|]. eexists. split; [by vm_compute|]. split; by vm_compute.
Qed.
