(* ===== verification/ContractRules.v ===== *)
(** * The rules of the contracts

    What single methods guarantee: transfers of accounts and deposits, the
    hold and vesting of deposits, and the confirmation of a migration by two
    daemons. *)
From S2P Require Import Prelude Pulse Reference BigInt Foundation Vesting World Contracts Members Money.

(** The frame after a method and its outcome satisfy what [owp] promises. *)
Lemma owp_apply {T A} (m : M T A) Q fr fr' r :
  owp m (f_self fr) (f_out fr) Q -> m fr = (fr', r) -> Q (f_self fr') (f_out fr') r.
Proof. destruct fr as [me t o w]. intros Hm E. specialize (Hm me w).
  cbn [f_self f_out] in Hm. by rewrite E in Hm. Qed.

Section Rules.
Context `{ContractEnv}.

(** The two saga calls of a transfer: the amount to the recipient and the fee
    to the fee member. *)
Definition payments (amountStr : string) (toMember feeMember fromMember request : Reference) : list Saga :=
  [mkSaga toMember MemberAccept (mkAccept amountStr fromMember request);
   mkSaga feeMember MemberAccept (mkAccept Fee fromMember request)].

(** C21: A transfer takes the amount and the fee from the account and sends
    exactly those two sums, to the recipient and to the fee member; it
    succeeds only for a positive amount that the balance covers together
    with the fee, so the balance never goes below zero; a refused transfer
    changes nothing. *)
Theorem Account_Transfer_spec amountStr toMember fromMember request fr fr' r :
  Account_Transfer amountStr toMember fromMember request fr = (fr', r) ->
  match r with
  | Done reply =>
      exists amount balance feeMember,
        SetString amountStr = Some amount /\ SetString (acc_Balance (f_self fr)) = Some balance /\
        0 < amount /\ 0 <= balance - (amount + 100000000) /\
        reply = TransferResponse Fee /\
        acc_Balance (f_self fr') = big_String (balance - (amount + 100000000)) /\
        f_out fr' = f_out fr ++ payments amountStr toMember feeMember fromMember request
  | Err _ => f_self fr' = f_self fr /\ f_out fr' = f_out fr
  | Crash _ => True
  end.
Proof.
  intros E. pose proof (owp_apply _ _ _ _ _ (Account_Transfer_body _ _ _ _ _ _) E) as HQ.
  destruct r as [reply|e|s]; [|done..].
  destruct HQ as (amount & balance & g & H1 & H2 & H3 & H4 & H5 & H6 & H7).
  exists amount, balance, g. split_and!; try done; lia.
Qed.

(** ** Hold and vesting *)






(** ** Confirmation by the migration daemons *)
Lemma count_confirms (m : gmap string Z) ds a :
  default 0 (foldl (fun m ra => <[ra.2 := default 0 (m !! ra.2) + 1]> m) m ds !! a) =
  default 0 (m !! a) + Z.of_nat (length (filter (fun ra : string * string => ra.2 = a) ds)).
Proof.
  revert m. induction ds as [|[r b] ds IH]; intros m; simpl; [lia|].
  rewrite IH. rewrite filter_cons. simpl. destruct (decide (b = a)) as [->|Hne].
  - rewrite lookup_insert_eq. simpl length. simpl default. lia.
  - rewrite lookup_insert_ne by done. lia.
Qed.

(** A confirmation needs an earlier one of the same amount. *)
Lemma checkAmount_true ds ref a e :
  checkAmount ds ref a = (true, e) -> exists other, (other, a) ∈ ds.
Proof.
  unfold checkAmount. destruct (length ds =? 0)%nat; [done|]. intros [= Hc _].
  apply Z.leb_le in Hc. rewrite lookup_insert_eq, count_confirms, lookup_empty in Hc.
  simpl in Hc. unfold numConfirmation in Hc.
  destruct (filter (fun ra : string * string => ra.2 = a) ds) as [|[r b] l] eqn:Ef; [simpl in Hc; lia|].
  assert (Hin : (r, b) ∈ filter (fun ra : string * string => ra.2 = a) ds) by (rewrite Ef; left).
  apply list_elem_of_filter in Hin as [<- Hin]. by exists r.
Qed.

Lemma activeDaemons_body l d o :
  owp (activeDaemons_loop l) d o (fun d' o' r =>
    d' = d /\ o' = o /\ forall ds x, r = Done (Some ds) -> x ∈ ds -> x ∈ l).
Proof.
  revert d o. induction l as [|[ref a] l IH]; intros d o; simpl.
  { owp_step. split_and!; [done..|]. by intros ds x [= <-]. }
  owp_step. destruct (NewObjectReferenceFromString ref); owp_step; [|by split_and!].
  destruct (Global_IsEmpty _); [owp_step; by split_and!|].
  owp_step. owp_step; [|by split_and!..].
  owp_step. eapply owp_mono; [apply IH|]. cbv beta. intros ? ? [rest|e|s] (-> & -> & Hin);
    [|by split_and!..].
  owp_step. split_and!; [done..|]. intros ds0 y Hds Hy. injection Hds as Hds.
  destruct a1, rest as [rest|]; simpl in Hds; simplify_eq.
  - apply elem_of_cons in Hy as [->|Hy]; [by left|right; by eapply Hin].
  - right. by eapply Hin.
Qed.

Definition confirm_in (d : Deposit) (ref a : string) : Deposit :=
  mkDeposit (Balance d) (PulseDepositUnHold d) (<[ref := a]> (MigrationDaemonConfirms d)) (Amount d)
    (TxHash d) (VestingType d) (Lockup d) (Vesting d) (VestingStep d) (IsConfirmed d).

Lemma checkConfirm_body ref a d o :
  owp (checkConfirm ref a) d o (fun d' o' r =>
    o' = o /\ (d' = d \/ d' = confirm_in d ref a) /\
    forall e, r = Done (true, e) ->
      d' = confirm_in d ref a /\ exists other, MigrationDaemonConfirms d !! other = Some a).
Proof.
  unfold checkConfirm, set_Confirm. owp_step. owp_step. owp_step. owp_step.
  eapply owp_mono; [apply activeDaemons_body|]. cbv beta.
  intros ? ? [[ds|]|e|s] (-> & -> & Hin); cbv beta iota.
  2,3: owp_step; split_and!; [done|by left|done].
  2: split_and!; [done|by left|done].
  owp_step. owp_step. owp_step. owp_step. fold (confirm_in d ref a).
  destruct (0 <? length ds)%nat; [|owp_step; split_and!; [done|by right|done]].
  destruct (checkAmount ds ref a) as [can e] eqn:Ec. owp_step. split_and!; [done|by right|].
  intros e' [= -> _]. split; [done|]. apply checkAmount_true in Ec as [other Ho].
  exists other. apply elem_of_map_to_list. by eapply Hin.
Qed.

(** What a confirmation that completes the migration has seen. *)
Definition confirmed_by_two (d d' : Deposit) (me amountStr : string) : Prop :=
  MigrationDaemonConfirms d !! me = None /\
  (exists other, other <> me /\ MigrationDaemonConfirms d !! other = Some amountStr) /\
  MigrationDaemonConfirms d' = <[me := amountStr]> (MigrationDaemonConfirms d) /\
  Amount d' = amountStr /\ Balance d' = Balance d.

Lemma Confirm_body txHash amountStr fromMember request toMember d o :
  owp (Confirm txHash amountStr fromMember request toMember) d o (fun d' o' r =>
    o' = o /\ (IsConfirmed d = false -> IsConfirmed d' = true ->
      txHash = TxHash d /\ confirmed_by_two d d' (ref_String fromMember) amountStr)).
Proof.
  assert (Hno : forall d' : Deposit, IsConfirmed d' = IsConfirmed d ->
    IsConfirmed d = false -> IsConfirmed d' = true ->
    txHash = TxHash d /\ confirmed_by_two d d' (ref_String fromMember) amountStr)
    by (intros d' -> ? ?; congruence).
  unfold Confirm, set_Confirm. owp_step. owp_step. owp_step. owp_step; [|split; [done|by apply Hno]].
  destruct (MigrationDaemonConfirms d !! ref_String fromMember) eqn:Em.
  { owp_step; (split; [done|by apply Hno]). }
  destruct (IsConfirmed d) eqn:Ei.
  { owp_run; (split; [done|done]). }
  destruct (0 <? size (MigrationDaemonConfirms d))%nat.
  2: { owp_run. split; [done|]. simpl. congruence. }
  owp_step. eapply owp_mono; [apply checkConfirm_body|]. cbv beta.
  intros d1 o1 r (-> & Hd1 & Hr).
  assert (Hi1 : IsConfirmed d1 = false) by (by destruct Hd1 as [->| ->]).
  destruct r as [[can e]|e|s]; [|split; [done|congruence]..].
  destruct can; [|destruct e; owp_run; (split; [done|congruence])].
  destruct (Hr e eq_refl) as [-> [other Ho]]. clear Hr Hd1.
  apply bool_decide_eq_true in H0.
  unfold Confirm_transfer, set_Hold, set_IsConfirmed. owp_run; (split; [done|]); simpl; try congruence.
  all: intros _ _; split; [done|]; split_and!; try done.
  all: exists other; split; [congruence|done].
Qed.

(** A deposit becomes confirmed only by the second of two daemons: the one
    that confirms had not confirmed before, another had confirmed the same
    amount, and that amount is recorded as the deposit's; the method itself
    never changes the balance. *)
Theorem Confirm_two_daemons txHash amountStr fromMember request toMember fr fr' r :
  Confirm txHash amountStr fromMember request toMember fr = (fr', r) ->
  IsConfirmed (f_self fr) = false -> IsConfirmed (f_self fr') = true ->
  txHash = TxHash (f_self fr) /\
  confirmed_by_two (f_self fr) (f_self fr') (ref_String fromMember) amountStr.
Proof. intros E. apply (owp_apply _ _ _ _ _ (Confirm_body _ _ _ _ _ _ _) E). Qed.
End Rules.

(** ** Concrete runs *)
Definition accountFrame : Frame Account :=
  mkFrame (nat_ref 3) (mkAccount "1000000000") [] sampleWorld.

Lemma Account_Transfer_spec_witness :
  let run := Account_Transfer (H := sampleEnv 100000) "7" (nat_ref 4) (nat_ref 1) (nat_ref 99)
               accountFrame in
  run.2 = Done (TransferResponse Fee) /\
  match run.2 with
  | Done reply =>
      exists amount balance feeMember,
        SetString "7" = Some amount /\ SetString "1000000000" = Some balance /\
        0 < amount /\ 0 <= balance - (amount + 100000000) /\
        reply = TransferResponse Fee /\
        acc_Balance (f_self run.1) = big_String (balance - (amount + 100000000)) /\
        f_out run.1 = [] ++
          [mkSaga (nat_ref 4) MemberAccept (mkAccept "7" (nat_ref 1) (nat_ref 99));
           mkSaga feeMember MemberAccept (mkAccept Fee (nat_ref 1) (nat_ref 99))]
  | Err _ => f_self run.1 = f_self accountFrame /\ f_out run.1 = []
  | Crash _ => True
  end.
Proof.
  cbv zeta. split; [by vm_compute|].
  exact (Account_Transfer_spec (H := sampleEnv 100000) "7" (nat_ref 4) (nat_ref 1) (nat_ref 99)
           accountFrame _ _ (surjective_pairing _)).
Defined.



(** Two active daemons, 20 and 21; the first has confirmed 500. *)
Definition migrationEnv : ContractEnv := {|
  env_routing := fun _ => true;
  GetPulseNumber := Good 100000;
  GetRequestReference := Good (nat_ref 99);
  ref_String r := big_String (Z.of_nat (ref_nat r));
  NewObjectReferenceFromString s :=
    match SetString s with Some z => Good (nat_ref (Z.to_nat z)) | None => Fail (Errorf "bad reference") end;
  GetCostCenter := nat_ref 10;
  GetMigrationAdminMember := nat_ref 11;
  GetMigrationAdmin := nat_ref 12;
  GetRootDomain := nat_ref 13;
  ContractRootMember := nat_ref 14;
  GetNodeDomain := nat_ref 15;
  GetMigrationDaemon := fun r => nat_ref (100 + ref_nat r);
  IsMigrationDaemonMember := fun _ => true;
  ExtractCanonicalPublicKey := Good;
  NewSource_Int63 := 0;
|}.

Definition newDeposit : Deposit :=
  mkDeposit "0" 0 {["20" := "500"]} "0" "tx" DefaultVesting 0 1000 10 false.
Definition migrationWorld : World :=
  let objs : gmap Reference Object := list_to_map [
    (nat_ref 120, OMigrationDaemon (mkMigrationDaemon true (nat_ref 20)));
    (nat_ref 11, OMember (mkMember "admin" "" (nat_ref 16)));
    (nat_ref 16, OWallet (mkWallet ∅ {["genesis_deposit" := "17"]}));
    (nat_ref 17, ODeposit (mkDeposit "1000000" 0 ∅ "1000000" "" DefaultVesting 0 0 0 true))] in
  mkWorld objs [] (dom objs).
Definition migrationFrame : Frame Deposit := mkFrame (nat_ref 18) newDeposit [] migrationWorld.

Lemma Confirm_two_daemons_witness :
  let run := Confirm (H := migrationEnv) "tx" "500" (nat_ref 21) (nat_ref 99) (nat_ref 1) migrationFrame in
  run.2 = Done tt /\
  "tx" = TxHash newDeposit /\
  confirmed_by_two newDeposit (f_self run.1) "21" "500".
Proof.
  cbv zeta. split; [by vm_compute|].
  apply (Confirm_two_daemons (H := migrationEnv) "tx" "500" (nat_ref 21) (nat_ref 99) (nat_ref 1)
           migrationFrame _ _ (surjective_pairing _)).
  - done.
  - by vm_compute.
Defined.
