(* ===== verification/MemberPower.v ===== *)
(** * The power of a node (src/network/consensus/gcpv2/api/member/power.go,
    api/power/power_request.go, common/capacity/capacity.go)

    The power of a node is a byte: three bits of exponent and five of
    mantissa, a floating-point number.  A power set says which powers a node
    may take, and a request asks for a power by a level or by its value. *)
From S2P Require Import Prelude.

Definition MaxLinearMemberPower : Z := Z.shiftl (0x1F + 32) (Z.shiftr 0xFF 5) - 32.

(** [bits.Len16] *)
Definition Len16 (x : Z) : Z := if x =? 0 then 0 else Z.log2 x + 1.

Definition PowerOf (linearValue : Z) : Z :=
  if linearValue <=? 0x1F then u8 linearValue
  else if MaxLinearMemberPower <=? linearValue then 0xFF
  else
    let linearValue := u16 (linearValue + 0x20) in
    let pwr := u8 (u8 (Len16 linearValue) - 6) in
    let linearValue := Z.shiftr linearValue pwr in
    Z.lor (u8 (Z.shiftl pwr 5)) (u8 (linearValue - 0x20)).

Definition ToLinearValue (v : Z) : Z :=
  if v <=? 0x1F then v
  else u16 (u16 (Z.shiftl (u8 (Z.land v 0x1F + 0x20)) (Z.shiftr v 5)) - 0x20).

Definition PercentAndMin (v percent min : Z) : Z :=
  let vv := Z.quot (ToLinearValue v * percent) 100 in
  if MaxLinearMemberPower <=? vv then 0xFF
  else if vv <=? ToLinearValue min then min
  else PowerOf (u16 vv).

Definition Delta (v o : Z) : Z :=
  if v =? o then 0 else u16 (ToLinearValue v - ToLinearValue o).

Definition AbsDelta (v o : Z) : Z :=
  if v =? o then 0
  else if o <? v then u16 (ToLinearValue v - ToLinearValue o)
  else u16 (ToLinearValue o - ToLinearValue v).

(** ** Sets of powers: [4]Power *)
Record PowerSet : Type := mkSet { p0 : Z; p1 : Z; p2 : Z; p3 : Z }.

Definition PowerSetOf (v : Z) : PowerSet :=
  mkSet (u8 v) (u8 (Z.shiftr v 8)) (u8 (Z.shiftr v 16)) (u8 (Z.shiftr v 24)).
Definition AsUint32 (v : PowerSet) : Z :=
  Z.lor (Z.lor (Z.lor (p0 v) (u32 (Z.shiftl (p1 v) 8))) (u32 (Z.shiftl (p2 v) 16))) (u32 (Z.shiftl (p3 v) 24)).

Definition PowerSet_IsValid (v : PowerSet) : bool :=
  if p3 v =? 0 then (p0 v =? 0) && (p1 v =? 0) && (p2 v =? 0)
  else if p2 v =? 0 then
    if p0 v =? 0 then p1 v =? 0
    else if p1 v =? 0 then p0 v <=? p3 v
    else (p0 v <=? p1 v) && (p1 v <=? p3 v)
  else if p3 v <? p2 v then false
  else if p1 v =? 0 then p0 v <=? p2 v
  else (p0 v <=? p1 v) && (p1 v <=? p2 v).

Definition PowerSet_Normalize (v : PowerSet) : PowerSet :=
  if PowerSet_IsValid v then v else mkSet 0 0 0 0.

Definition IsAllowed (v : PowerSet) (p : Z) : bool :=
  if (p =? 0) || (p0 v =? p) || (p1 v =? p) || (p2 v =? p) || (p3 v =? p) then true
  else if (p <? p0 v) || (p3 v <? p) then false
  else if p2 v =? 0 then
    if (p0 v =? 0) || (p1 v =? 0) then true else p1 v <=? p
  else if p1 v =? 0 then
    if p0 v =? 0 then (p <=? p2 v) || (p =? p3 v) else (p3 v =? p) || (p <=? p2 v)
  else (p0 v =? 0) && (p <? p1 v).

Definition PowerSet_IsEmpty (v : PowerSet) : bool := (p0 v =? 0) && (p3 v =? 0).
Definition PowerSet_Max (v : PowerSet) : Z := p3 v.
Definition PowerSet_Min (v : PowerSet) : Z := p0 v.

Definition LevelZero : Z := 0.
Definition LevelMinimal : Z := 1.
Definition LevelReduced : Z := 2.
Definition LevelNormal : Z := 3.
Definition LevelMax : Z := 4.

Definition ForLevelWithPercents (v : PowerSet) (lvl pMinimal pReduced pNormal : Z) : go Z :=
  if (lvl =? LevelZero) || PowerSet_IsEmpty v then Ret 0
  else if lvl =? LevelMinimal then
    if negb (p0 v =? 0) then Ret (p0 v)
    else
      let vv := PercentAndMin (PowerSet_Max v) pMinimal 1 in
      if negb (p1 v =? 0) then Ret (if p1 v <=? vv then p1 v else vv)
      else if negb (p2 v =? 0) && (p2 v <=? vv) then Ret (p2 v)
      else Ret vv
  else if lvl =? LevelReduced then
    if negb (p1 v =? 0) then Ret (p1 v)
    else
      let vv := PercentAndMin (PowerSet_Max v) pReduced 1 in
      if negb (p2 v =? 0) && (p2 v <=? vv) then Ret (p2 v)
      else if negb (p0 v =? 0) && (vv <=? p0 v) then Ret (p0 v)
      else Ret vv
  else if lvl =? LevelNormal then
    if negb (p2 v =? 0) then Ret (p2 v)
    else
      let vv := PercentAndMin (PowerSet_Max v) pNormal 1 in
      if negb (p1 v =? 0) then Ret (if p1 v <=? vv then vv else p1 v)
      else if negb (p0 v =? 0) && (vv <=? p0 v) then Ret (p0 v)
      else Ret vv
  else if lvl =? LevelMax then Ret (p3 v)
  else Panic "missing".

Definition ForLevel (v : PowerSet) (lvl : Z) : go Z := ForLevelWithPercents v lvl 20 60 80.

(** The loop over [v[right]], ..., [v[left]]. *)
Fixpoint nearest_loop (p delta nearest : Z) (candidates : list Z) : go Z :=
  match candidates with
  | [] => if nearest =? 0 then Panic "impossible" else Ret nearest
  | next :: candidates' =>
      let nextDelta := AbsDelta p next in
      if nextDelta <? delta then nearest_loop p nextDelta next candidates' else Ret nearest
  end.

Definition FindNearestValid (v : PowerSet) (p : Z) : go Z :=
  let nearest := nearest_loop p 0xFFFF 0 in
  if (p =? 0) || (p0 v =? p) || (p1 v =? p) || (p2 v =? p) || (p3 v =? p) then Ret p
  else if p3 v <=? p then Ret (p3 v)
  else if p <=? p0 v then Ret (p0 v)
  else if p2 v =? 0 then
    if (p0 v =? 0) || (p1 v =? 0) then Ret p
    else if p1 v <? p then Ret p
    else nearest [p1 v; p0 v]
  else if p1 v =? 0 then
    if p2 v <? p then nearest [p3 v; p2 v]
    else if p0 v <? p then Ret p
    else Ret (p0 v)
  else if p0 v =? 0 then
    if p <? p1 v then Ret p else nearest [p3 v; p2 v; p1 v]
  else nearest [p3 v; p2 v; p1 v; p0 v].

(** ** power_request.go: a level below zero, a power above *)
Definition i16 (z : Z) : Z := (z + 2^15) mod 2^16 - 2^15.
Definition EmptyRequest : Z := 0.
Definition NewRequestByLevel (v : Z) : Z := i16 (- v - 1).
Definition NewRequest (v : Z) : Z := i16 (v + 1).
Definition AsCapacityLevel (v : Z) : bool * Z := (v <? 0, u8 (- (v + 1))).
Definition AsMemberPower (v : Z) : bool * Z := (0 <? v, u8 (v - 1)).
Definition Request_IsEmpty (v : Z) : bool := v =? EmptyRequest.

(** The power after the update, and whether it changed. *)
Definition Request_Update (v pw : Z) (set : PowerSet) : go (Z * bool) :=
  let '(ok, cl) := AsCapacityLevel v in
  if ok : bool then
    npw ← ForLevel set cl;
    Ret (npw, negb (pw =? npw))
  else
    let '(ok, npw) := AsMemberPower v in
    if ok : bool then
      npw ← FindNearestValid set npw;
      Ret (npw, negb (pw =? npw))
    else Ret (pw, false).

(** ** Linear values *)
Definition is_power (v : Z) : Prop := 0 <= v < 2^8.

Lemma is_power_split v : is_power v -> 32 <= v ->
  exists q r, v = 32 * q + r /\ 1 <= q <= 7 /\ 0 <= r < 32 /\ ToLinearValue v = (r + 32) * 2^q - 32.
Proof.
  intros Hv H32. exists (v / 32), (v mod 32). unfold is_power in Hv.
  pose proof (Z.mod_pos_bound v 32). pose proof (Z.div_mod v 32).
  assert (Hq : 1 <= v / 32 <= 7) by lia. split_and!; [lia..|].
  unfold ToLinearValue. destruct (Z.leb_spec v 0x1F); [lia|].
  change 0x1F with (Z.ones 5). rewrite Z.land_ones, Z.shiftr_div_pow2 by lia. change (2^5) with 32.
  rewrite u8_small by lia. rewrite Z.shiftl_mul_pow2 by lia.
  assert (2 <= 2^(v/32) <= 128).
  { split; [apply (Z.pow_le_mono_r 2 1); lia|apply (Z.pow_le_mono_r 2 _ 7); lia]. }
  rewrite (u16_small (_ * _)) by nia. apply u16_small. nia.
Qed.

Lemma ToLinearValue_small v : v < 32 -> ToLinearValue v = v.
Proof. intros. unfold ToLinearValue. destruct (Z.leb_spec v 0x1F); lia. Qed.

(** Two exponents apart, the mantissa decides. *)
Lemma float_lt q r q' r' : 0 <= q < q' -> 0 <= r < 32 -> 0 <= r' -> (r + 32) * 2^q < (r' + 32) * 2^q'.
Proof.
  intros Hq Hr Hr'. assert (2 * 2^q <= 2^q').
  { rewrite <- Z.pow_succ_r by lia. apply Z.pow_le_mono_r; lia. }
  assert (0 < 2^q) by (apply Z.pow_pos_nonneg; lia). nia.
Qed.

Lemma ToLinearValue_lt v w : is_power v -> is_power w -> v < w -> ToLinearValue v < ToLinearValue w.
Proof.
  intros Hv Hw Hlt. destruct (Z.lt_ge_cases w 32) as [Hs|Hb]; [rewrite !ToLinearValue_small; lia|].
  destruct (is_power_split w Hw Hb) as (q' & r' & Ew & Hq' & Hr' & ->).
  destruct (Z.lt_ge_cases v 32) as [Hs'|Hb'].
  - rewrite ToLinearValue_small by done. assert (2 <= 2^q') by (apply (Z.pow_le_mono_r 2 1); lia). nia.
  - destruct (is_power_split v Hv Hb') as (q & r & Ev & Hq & Hr & ->).
    destruct (Z.lt_ge_cases q q') as [Hlq|Hge].
    + pose proof (float_lt q r q' r'). lia.
    + assert (q = q') as -> by lia. assert (0 < 2^q') by (apply Z.pow_pos_nonneg; lia). nia.
Qed.

Lemma ToLinearValue_le v w : is_power v -> is_power w -> v <= w <-> ToLinearValue v <= ToLinearValue w.
Proof.
  intros Hv Hw. split.
  - intros Hle. destruct (Z.eq_dec v w) as [->|]; [lia|]. pose proof (ToLinearValue_lt v w Hv Hw). lia.
  - intros Hle. destruct (Z.le_gt_cases v w); [done|]. pose proof (ToLinearValue_lt w v Hw Hv). lia.
Qed.

Lemma ToLinearValue_range v : is_power v -> 0 <= ToLinearValue v <= MaxLinearMemberPower.
Proof.
  intros Hv. change MaxLinearMemberPower with (ToLinearValue 255).
  pose proof (proj1 (ToLinearValue_le 0 v ltac:(done) Hv)) as Hlo. pose proof (proj1 (ToLinearValue_le v 255 Hv ltac:(done))) as Hhi.
  change (ToLinearValue 0) with 0 in Hlo. unfold is_power in Hv. lia.
Qed.

(** A power that is not small, from its value. *)
Lemma PowerOf_float x : 32 <= x < MaxLinearMemberPower ->
  exists q r, PowerOf x = 32 * q + r /\ 1 <= q <= 7 /\ 0 <= r < 32 /\ (r + 32) * 2^q <= x + 32 < (r + 33) * 2^q.
Proof.
  intros Hx. change MaxLinearMemberPower with 8032 in Hx. exists (Z.log2 (x + 32) - 5), ((x + 32) / 2^(Z.log2 (x + 32) - 5) - 32).
  pose proof (Z.log2_spec (x + 32) ltac:(lia)) as [Hlo Hhi].
  assert (Hl : 6 <= Z.log2 (x + 32) <= 12).
  { split; [by apply Z.log2_le_pow2; lia|]. assert (Z.log2 (x + 32) < 13); [|lia]. apply Z.log2_lt_pow2; lia. }
  set (l := Z.log2 (x + 32)) in *. assert (Hp : 0 < 2^(l - 5)) by (apply Z.pow_pos_nonneg; lia).
  assert (Elo : 2^l = 32 * 2^(l-5)) by (change 32 with (2^5); rewrite <- Z.pow_add_r by lia; f_equal; lia).
  rewrite Z.pow_succ_r in Hhi by lia.
  assert (Hr : 32 <= (x + 32) / 2^(l - 5) < 64).
  { split; [apply Z.div_le_lower_bound; lia|apply Z.div_lt_upper_bound; lia]. }
  pose proof (Z.div_mod (x + 32) (2^(l-5))). pose proof (Z.mod_pos_bound (x + 32) (2^(l-5)) Hp).
  split_and!; [|lia..|nia|nia].
  unfold PowerOf. destruct (Z.leb_spec x 0x1F); [lia|]. change MaxLinearMemberPower with 8032.
  destruct (Z.leb_spec 8032 x); [lia|]. rewrite u16_small by lia. unfold Len16.
  destruct (Z.eqb_spec (x + 0x20) 0); [lia|]. change (x + 0x20) with (x + 32). fold l.
  rewrite (u8_small (l + 1)), (u8_small (l + 1 - 6)) by lia. replace (l + 1 - 6) with (l - 5) by lia.
  rewrite Z.shiftr_div_pow2, Z.shiftl_mul_pow2 by lia. change (2^5) with 32.
  rewrite !u8_small by lia. rewrite (lor_add _ _ 5); [lia|lia| |lia].
  apply Z.mod_divide; [lia|]. by exists (l - 5).
Qed.

Lemma PowerOf_is_power x : 0 <= x -> is_power (PowerOf x).
Proof.
  intros Hx. unfold is_power. destruct (Z.leb_spec MaxLinearMemberPower x) as [Hb|Hs].
  - unfold PowerOf. change MaxLinearMemberPower with 8032 in *. destruct (Z.leb_spec x 0x1F); [lia|].
    destruct (Z.leb_spec 8032 x); lia.
  - destruct (Z.lt_ge_cases x 32).
    + unfold PowerOf. destruct (Z.leb_spec x 0x1F); [|lia]. rewrite u8_small; lia.
    + destruct (PowerOf_float x) as (q & r & -> & ? & ? & _); lia.
Qed.

Lemma PowerOf_galois x v : 0 <= x -> is_power v -> ToLinearValue v <= x <-> v <= PowerOf x.
Proof.
  intros Hx Hv. pose proof (ToLinearValue_range v Hv) as Hr. destruct (Z.leb_spec MaxLinearMemberPower x) as [Hb|Hs].
  - unfold PowerOf. change MaxLinearMemberPower with 8032 in *. unfold is_power in Hv. destruct (Z.leb_spec x 0x1F); [lia|].
    destruct (Z.leb_spec 8032 x); lia.
  - destruct (Z.lt_ge_cases x 32) as [Hx32|Hx32].
    + assert (E : PowerOf x = x) by (unfold PowerOf; destruct (Z.leb_spec x 0x1F); [rewrite u8_small; lia|lia]).
      rewrite E. rewrite <- (ToLinearValue_small x Hx32) at 1. rewrite <- ToLinearValue_le; [done..|]. unfold is_power. lia.
    + destruct (PowerOf_float x) as (q & r & E & Hq & Hr' & Hlo & Hhi); [lia|]. rewrite E.
      destruct (Z.lt_ge_cases v 32) as [Hv32|Hv32]; [rewrite ToLinearValue_small; lia|].
      destruct (is_power_split v Hv Hv32) as (qv & rv & -> & Hqv & Hrv & ->).
      destruct (Z.lt_trichotomy qv q) as [Hlt|[->|Hlt]].
      * pose proof (float_lt qv rv q r). lia.
      * assert (0 < 2^q) by (apply Z.pow_pos_nonneg; lia). nia.
      * assert (2 * 2^q <= 2^qv) by (rewrite <- Z.pow_succ_r by lia; apply Z.pow_le_mono_r; lia).
        assert (0 < 2^q) by (apply Z.pow_pos_nonneg; lia). nia.
Qed.

(** [PowerOf] is the largest power whose linear value is not above the value
    given, so it keeps the order, undoes [ToLinearValue] and never grants more
    than was asked. *)
Theorem PowerOf_largest x y v :
  0 <= x < 2^16 -> x <= y -> is_power v ->
  is_power (PowerOf x) /\ (ToLinearValue v <= x <-> v <= PowerOf x) /\ PowerOf x <= PowerOf y /\
  ToLinearValue (PowerOf x) <= x /\ PowerOf (ToLinearValue v) = v.
Proof.
  intros Hx Hxy Hv. pose proof (PowerOf_is_power x ltac:(lia)) as Hp. pose proof (ToLinearValue_range v Hv) as Hr.
  assert (Hdown : ToLinearValue (PowerOf x) <= x) by (apply PowerOf_galois; [lia|done|lia]).
  split_and!; [done|apply PowerOf_galois; [lia|done]| |done|].
  - apply PowerOf_galois; [lia|done|lia].
  - pose proof (PowerOf_is_power (ToLinearValue v) ltac:(lia)) as Hp'. apply Z.le_antisymm.
    + rewrite ToLinearValue_le by done. apply PowerOf_galois; [lia|done|lia].
    + apply PowerOf_galois; [lia|done|lia].
Qed.

(** ** Valid sets and allowed powers, as conditions *)
Record set_ok (v : PowerSet) : Prop := {
  so_p0 : is_power (p0 v); so_p1 : is_power (p1 v); so_p2 : is_power (p2 v); so_p3 : is_power (p3 v);
  so_valid : PowerSet_IsValid v = true;
}.

(** The cases of the comment on [PowerSet]: distinct values, and a range
    wherever a zero stands between two of them. *)
Definition allowed (v : PowerSet) (p : Z) : Prop :=
  p = 0 \/ p = p0 v \/ p = p1 v \/ p = p2 v \/ p = p3 v \/
  p0 v <= p <= p3 v /\
  (p2 v = 0 /\ (p0 v = 0 \/ p1 v = 0 \/ p1 v <= p) \/
   p2 v <> 0 /\ (p1 v = 0 /\ p <= p2 v \/ p1 v <> 0 /\ p0 v = 0 /\ p < p1 v)).

Lemma IsAllowed_iff v p : IsAllowed v p = true <-> allowed v p.
Proof. unfold IsAllowed, allowed. destruct v as [a b c d]. cbn [p0 p1 p2 p3]. decide_Z. all: intuition lia. Qed.

(** The values are in order, zeros apart. *)
Lemma set_ok_order v : set_ok v ->
  p0 v <= p3 v /\ p1 v <= p3 v /\ p2 v <= p3 v /\ (p1 v <> 0 -> p0 v <= p1 v) /\ (p2 v <> 0 -> p0 v <= p2 v /\ p1 v <= p2 v) /\
  (p2 v = 0 -> p0 v = 0 -> p1 v = 0).
Proof.
  intros [H0 H1 H2 H3 Hv]. unfold is_power in *. revert Hv. unfold PowerSet_IsValid.
  destruct v as [a b c d]. cbn [p0 p1 p2 p3] in *. decide_Z; intros Hv; first [discriminate Hv|intuition lia].
Qed.

Lemma PercentAndMin_max v percent min :
  is_power v -> is_power min -> 0 <= percent ->
  PercentAndMin v percent min = Z.max min (PowerOf (ToLinearValue v * percent / 100)).
Proof.
  intros Hv Hmin Hp. pose proof (ToLinearValue_range v Hv). pose proof (ToLinearValue_range min Hmin).
  unfold PercentAndMin. rewrite Z.quot_div_nonneg by lia. set (vv := _ / 100).
  assert (Hvv : 0 <= vv) by (apply Z.div_pos; nia). pose proof (PowerOf_galois vv min Hvv Hmin) as Hg.
  pose proof (PowerOf_is_power vv Hvv) as Hpw. change MaxLinearMemberPower with 8032 in *.
  destruct (Z.leb_spec 8032 vv) as [Hb|Hs].
  - assert (PowerOf vv = 255); [|unfold is_power in *; lia]. unfold PowerOf. change MaxLinearMemberPower with 8032.
    destruct (Z.leb_spec vv 0x1F); [lia|]. by destruct (Z.leb_spec 8032 vv); [|lia].
  - rewrite u16_small by lia. destruct (Z.leb_spec vv (ToLinearValue min)) as [Hle|Hgt]; [|lia].
    assert (PowerOf vv <= min); [|lia]. rewrite ToLinearValue_le by done.
    assert (ToLinearValue (PowerOf vv) <= vv) by (apply PowerOf_galois; [lia|done|lia]). lia.
Qed.

Lemma PowerOf_mono x y : 0 <= x <= y -> PowerOf x <= PowerOf y.
Proof.
  intros H. pose proof (PowerOf_is_power x ltac:(lia)) as Hx. apply PowerOf_galois; [lia|done|].
  transitivity x; [|lia]. apply PowerOf_galois; [lia|done|lia].
Qed.

Lemma PercentAndMin_range v percent percent' :
  is_power v -> 1 <= v -> 0 <= percent <= percent' -> percent' <= 100 ->
  1 <= PercentAndMin v percent 1 <= PercentAndMin v percent' 1 /\ PercentAndMin v percent' 1 <= v.
Proof.
  intros Hv H1 Hp Hp'. rewrite !PercentAndMin_max by (done || lia). pose proof (ToLinearValue_range v Hv).
  assert (Hm : PowerOf (ToLinearValue v * percent / 100) <= PowerOf (ToLinearValue v * percent' / 100)).
  { apply PowerOf_mono. split; [apply Z.div_pos; nia|apply Z.div_le_mono; nia]. }
  assert (PowerOf (ToLinearValue v * percent' / 100) <= v); [|lia].
  assert (Hq : 0 <= ToLinearValue v * percent' / 100) by (apply Z.div_pos; nia).
  pose proof (PowerOf_is_power _ Hq) as Hpw. rewrite ToLinearValue_le by done.
  transitivity (ToLinearValue v * percent' / 100); [|apply Z.div_le_upper_bound; nia].
  apply PowerOf_galois; [done|done|lia].
Qed.

(** A level answers an allowed power, and a higher level no lower power; zero
    only for the zero level or an empty set. *)
Lemma ForLevel_allowed v pMinimal pReduced pNormal :
  set_ok v -> 0 <= pMinimal <= pReduced -> pReduced <= pNormal <= 100 ->
  exists power : Z -> Z,
    (forall lvl, LevelZero <= lvl <= LevelMax ->
       ForLevelWithPercents v lvl pMinimal pReduced pNormal = Ret (power lvl) /\ allowed v (power lvl) /\
       (power lvl = 0 -> lvl = LevelZero \/ PowerSet_IsEmpty v = true)) /\
    (forall l l', LevelZero <= l <= l' -> l' <= LevelMax -> power l <= power l').
Proof.
  intros Hok Hp1 Hp2. pose proof (set_ok_order v Hok) as Ho. destruct Hok as [H0 H1 H2 H3 Hvalid].
  exists (fun lvl => match ForLevelWithPercents v lvl pMinimal pReduced pNormal with Ret r => r | Panic _ => 0 end).
  unfold LevelZero, LevelMax.
  destruct (PowerSet_IsEmpty v) eqn:Ee.
  { unfold ForLevelWithPercents. rewrite Ee. setoid_rewrite orb_true_r. split; [|lia].
    intros lvl _. split; [done|]. split; [by left|by right]. }
  assert (Hpos : 1 <= p3 v).
  { unfold PowerSet_IsEmpty in Ee. unfold is_power in *. revert Ee. decide_Z; intros; first [discriminate|lia]. }
  pose proof (PercentAndMin_range (p3 v) pMinimal pReduced H3 Hpos ltac:(lia) ltac:(lia)) as Hab.
  pose proof (PercentAndMin_range (p3 v) pReduced pNormal H3 Hpos ltac:(lia) ltac:(lia)) as Hbc.
  assert (Hall : forall lvl, 0 <= lvl <= 4 -> lvl = 0 \/ lvl = 1 \/ lvl = 2 \/ lvl = 3 \/ lvl = 4) by lia.
  unfold ForLevelWithPercents, PowerSet_Max, LevelMinimal, LevelReduced, LevelNormal, LevelMax, LevelZero, allowed, is_power in *.
  rewrite Ee. clear Ee Hvalid. destruct v as [a b c d]. cbn [p0 p1 p2 p3] in *.
  generalize dependent (PercentAndMin d pMinimal 1). generalize dependent (PercentAndMin d pReduced 1).
  generalize dependent (PercentAndMin d pNormal 1). intros z y Hyz x Hxy.
  split.
  - intros lvl Hl. destruct (Hall lvl Hl) as [-> | [-> | [-> | [-> | ->]]]]; cbn [Z.eqb Pos.eqb orb]; decide_Z; (split; [done|split; lia]).
  - intros l l' Hl Hl'. destruct (Hall l ltac:(lia)) as [-> | [-> | [-> | [-> | ->]]]];
      destruct (Hall l' ltac:(lia)) as [-> | [-> | [-> | [-> | ->]]]]; try (exfalso; lia); cbn [Z.eqb Pos.eqb orb]; decide_Z; lia.
Qed.

(** ** The nearest power *)
Lemma AbsDelta_abs v o : is_power v -> is_power o -> AbsDelta v o = Z.abs (ToLinearValue v - ToLinearValue o).
Proof.
  intros Hv Ho. pose proof (ToLinearValue_range v Hv). pose proof (ToLinearValue_range o Ho).
  pose proof (ToLinearValue_lt v o Hv Ho). pose proof (ToLinearValue_lt o v Ho Hv).
  change MaxLinearMemberPower with 8032 in *. unfold AbsDelta. decide_Z; [subst; lia|rewrite u16_small; lia..].
Qed.

(** The candidates come in falling order: the search stops at the first one
    that is not nearer than the one before. *)
Definition nearer (p r q : Z) : Prop :=
  AbsDelta p r < AbsDelta p q \/ AbsDelta p r = AbsDelta p q /\ q <= r.

Lemma nearer_trans p r s q : nearer p r s -> nearer p s q -> nearer p r q.
Proof. unfold nearer. lia. Qed.

Lemma nearer_between p r q : is_power p -> is_power r -> is_power q ->
  (p <= r <= q \/ q <= r <= p) -> nearer p r q.
Proof.
  intros Hp Hr Hq Hb. unfold nearer. rewrite !AbsDelta_abs by done.
  pose proof (ToLinearValue_le p r Hp Hr). pose proof (ToLinearValue_le r q Hr Hq).
  pose proof (ToLinearValue_le q r Hq Hr). pose proof (ToLinearValue_le r p Hr Hp). lia.
Qed.

(** The values wherever all of the upper ones are set. *)
Definition tops_differ (v : PowerSet) : Prop :=
  p1 v <> 0 -> p2 v <> 0 -> p2 v <> p3 v /\ (p0 v <> 0 -> p1 v <> p2 v).


(** Falling candidates, of which only the last two may be the same. *)
Fixpoint falling (r : Z) (cs : list Z) : Prop :=
  match cs with
  | [] => True
  | [c] => c <= r
  | c :: cs' => c < r /\ falling c cs'
  end.

Lemma falling_le r cs : falling r cs -> Forall (fun c => c <= r) cs.
Proof.
  revert r. induction cs as [|c cs IH]; intros r Hf; [constructor|]. assert (c <= r) by (destruct cs; cbn in Hf; lia).
  constructor; [done|]. destruct cs as [|c' cs]; [constructor|]. destruct Hf as [_ Hf].
  eapply list.Forall_impl; [by apply IH|]. intros x Hx. cbv beta in *. lia.
Qed.

Lemma nearest_loop_elem p r cs : 0 <= r -> r <> 0 -> Forall (fun c => c <> 0) cs ->
  exists s, nearest_loop p (AbsDelta p r) r cs = Ret s /\ s ∈ r :: cs.
Proof.
  intros Hr0 Hr Hcs. clear Hr0. revert r Hr. induction Hcs as [|c cs Hc Hcs IH]; intros r Hr; cbn [nearest_loop].
  - exists r. destruct (Z.eqb_spec r 0); [done|]. split; [done|by left].
  - destruct (_ <? _).
    + destruct (IH c Hc) as (s & -> & Hs). exists s. split; [done|by right].
    + exists r. split; [done|by left].
Qed.

Lemma nearest_loop_nearest p r cs s :
  is_power p -> is_power r -> Forall is_power cs -> falling r cs -> nearest_loop p (AbsDelta p r) r cs = Ret s ->
  Forall (nearer p s) (r :: cs).
Proof.
  intros Hp Hr Hcs. revert r Hr. induction Hcs as [|c cs Hc Hcs IH]; intros r Hr Hf; cbn [nearest_loop].
  { destruct (r =? 0); [done|]. intros [= <-]. constructor; [|constructor]. unfold nearer. lia. }
  assert (Hle : c <= r) by (destruct cs; cbn in Hf; lia).
  assert (Hf' : falling c cs) by (destruct cs; [done|apply Hf]).
  destruct (Z.ltb_spec (AbsDelta p c) (AbsDelta p r)) as [Hlt|Hge].
  - intros E. specialize (IH c Hc Hf' E). apply list.Forall_cons in IH as [Hsc Hs]. constructor; [|by constructor].
    apply (nearer_trans p s c r Hsc). unfold nearer. lia.
  - intros [= <-]. assert (Hrc : nearer p r c) by (unfold nearer; lia).
    constructor; [unfold nearer; lia|]. constructor; [done|]. destruct cs as [|c' cs]; [constructor|].
    destruct Hf as [Hcr _]. assert (Hcp : c <= p).
    { destruct (Z.le_gt_cases c p); [done|]. exfalso. rewrite !AbsDelta_abs in Hge by done.
      pose proof (ToLinearValue_lt p c Hp Hc). pose proof (ToLinearValue_lt c r Hc Hr). lia. }
    apply falling_le in Hf'. rewrite list.Forall_forall in *. intros x Hx. apply (nearer_trans p r c x Hrc).
    apply nearer_between; [done|done|by apply Hcs|]. specialize (Hf' x Hx). lia.
Qed.

(** The candidates of a search, from the start. *)
Lemma nearest_search p c cs :
  is_power p -> Forall (fun c => is_power c /\ c <> 0) (c :: cs) ->
  exists s, nearest_loop p 0xFFFF 0 (c :: cs) = Ret s /\ s ∈ c :: cs /\
    (falling c cs -> Forall (nearer p s) (c :: cs)).
Proof.
  intros Hp [[Hc Hc0] Hcs]%list.Forall_cons. cbn [nearest_loop].
  assert (Hlt : AbsDelta p c < 0xFFFF).
  { rewrite AbsDelta_abs by done. pose proof (ToLinearValue_range p Hp). pose proof (ToLinearValue_range c Hc).
    change MaxLinearMemberPower with 8032 in *. lia. }
  destruct (Z.ltb_spec (AbsDelta p c) 0xFFFF) as [_|]; [|lia].
  destruct (nearest_loop_elem p c cs) as (s & E & Hs); [unfold is_power in Hc; lia|done|eapply list.Forall_impl; [exact Hcs|intros x Hx; apply Hx]|].
  exists s. split; [done|]. split; [done|]. intros Hf. apply nearest_loop_nearest; [done|done| |done|done].
  eapply list.Forall_impl; [exact Hcs|intros x Hx; apply Hx].
Qed.

Ltac pick x := exists x; split; [by repeat first [left; reflexivity|right]|lia].

(** [FindNearestValid] answers an allowed power, zero only for zero or an empty
    set; and, where the upper values differ, the nearest one, the higher of
    two that are as near. *)
Lemma FindNearestValid_nearest v p :
  set_ok v -> is_power p ->
  exists r, FindNearestValid v p = Ret r /\ allowed v r /\ (r = 0 -> p = 0 \/ p3 v = 0) /\
    (tops_differ v -> p <> 0 -> forall q, is_power q -> q <> 0 -> allowed v q -> nearer p r q).
Proof.
  intros Hok Hp. pose proof (set_ok_order v Hok) as Ho. destruct Hok as [H0 H1 H2 H3 _].
  assert (Hb : forall r q, is_power r -> is_power q -> p <= r <= q \/ q <= r <= p -> nearer p r q) by (intros; by apply nearer_between).
  unfold FindNearestValid, tops_differ. destruct v as [a b c d]. cbn [p0 p1 p2 p3] in *.
  assert (Hdirect : forall r, is_power r -> allowed (mkSet a b c d) r -> (r = 0 -> p = 0 \/ d = 0) ->
    (forall q, is_power q -> q <> 0 -> allowed (mkSet a b c d) q -> p <> 0 -> p <= r <= q \/ q <= r <= p) ->
    exists r', Ret r = Ret r' /\ allowed (mkSet a b c d) r' /\ (r' = 0 -> p = 0 \/ d = 0) /\
      ((b <> 0 -> c <> 0 -> c <> d /\ (a <> 0 -> b <> c)) -> p <> 0 ->
       forall q, is_power q -> q <> 0 -> allowed (mkSet a b c d) q -> nearer p r' q)).
  { intros r Hr Ha Hz Hn. exists r. split; [done|]. split; [done|]. split; [done|]. intros _ Hp0 q Hq Hq0 Hqa. apply Hb; [done..|]. by apply Hn. }
  assert (Hsearch : forall r cs, Forall (fun x => is_power x /\ x <> 0 /\ allowed (mkSet a b c d) x) (r :: cs) ->
    ((b <> 0 -> c <> 0 -> c <> d /\ (a <> 0 -> b <> c)) -> falling r cs) ->
    (forall q, is_power q -> q <> 0 -> allowed (mkSet a b c d) q -> exists x, x ∈ r :: cs /\ (p <= x <= q \/ q <= x <= p)) ->
    exists r', nearest_loop p 0xFFFF 0 (r :: cs) = Ret r' /\ allowed (mkSet a b c d) r' /\
      (r' = 0 -> p = 0 \/ d = 0) /\
      ((b <> 0 -> c <> 0 -> c <> d /\ (a <> 0 -> b <> c)) -> p <> 0 ->
       forall q, is_power q -> q <> 0 -> allowed (mkSet a b c d) q -> nearer p r' q)).
  { intros r cs Hall Hf Hcover. destruct (nearest_search p r cs Hp) as (s & E & Hs & Hn).
    { eapply list.Forall_impl; [exact Hall|]. intros x Hx. split; apply Hx. }
    rewrite list.Forall_forall in Hall. destruct (Hall s Hs) as (Hps & Hs0 & Has). exists s. split; [done|].
    split; [exact Has|]. split; [intros Hz; by destruct (Hs0 Hz)|]. intros Hd _ q Hq Hq0 Hqa. destruct (Hcover q Hq Hq0 Hqa) as (x & Hx & Hbx).
    apply (nearer_trans p s x q); [|apply Hb; [apply (Hall x Hx)|done|done]].
    specialize (Hn (Hf Hd)). rewrite list.Forall_forall in Hn. by apply Hn. }
  unfold is_power in H0, H1, H2, H3, Hp.
  decide_Z.
  all: first [apply Hdirect|apply Hsearch].
  all: try (unfold is_power; cbn [p0 p1 p2 p3]; lia).
  all: try match goal with |- allowed _ _ => unfold allowed; cbn [p0 p1 p2 p3]; lia end.
  all: try match goal with |- _ = 0 -> _ => lia end.
  all: try (intros q _ Hq0 [?|[?|[?|[?|[?|?]]]]] ?; cbn [p0 p1 p2 p3] in *; lia).
  all: try (repeat (apply list.Forall_cons; split); try apply list.Forall_nil_2; unfold is_power, allowed; cbn [p0 p1 p2 p3]; intuition lia).
  all: try (intros Hd; cbn [falling]; intuition lia).
  all: intros q _ Hq0 [?|[?|[?|[?|[?|?]]]]]; cbn [p0 p1 p2 p3] in *;
    first [pick d|pick c|pick b|pick a|exfalso; lia].
Qed.

(** Two values that are the same hide the lower ones: of 10 and 20 the power 20
    is answered for 11. *)
Lemma FindNearestValid_skips_lower :
  PowerSet_IsValid (mkSet 10 20 20 20) = true /\ FindNearestValid (mkSet 10 20 20 20) 11 = Ret 20 /\
  IsAllowed (mkSet 10 20 20 20) 10 = true /\ AbsDelta 11 10 = 1 /\ AbsDelta 11 20 = 9.
Proof. by vm_compute. Qed.

(** ** Requests *)
Lemma request_level lvl : LevelZero <= lvl <= LevelMax ->
  AsCapacityLevel (NewRequestByLevel lvl) = (true, lvl).
Proof.
  unfold LevelZero, LevelMax, AsCapacityLevel, NewRequestByLevel, i16. intros Hl. rewrite Z.mod_small by lia.
  replace (- (- lvl - 1 + 2^15 - 2^15 + 1)) with lvl by lia. rewrite u8_small by lia.
  by destruct (Z.ltb_spec (- lvl - 1 + 2^15 - 2^15) 0); [|lia].
Qed.

Lemma request_power p : is_power p ->
  AsCapacityLevel (NewRequest p) = (false, u8 (- (p + 2))) /\ AsMemberPower (NewRequest p) = (true, p).
Proof.
  unfold is_power, AsCapacityLevel, AsMemberPower, NewRequest, i16. intros Hp. rewrite Z.mod_small by lia.
  replace (p + 1 + 2^15 - 2^15) with (p + 1) by lia. replace (p + 1 + 1) with (p + 2) by lia.
  replace (p + 1 - 1) with p by lia. rewrite (u8_small p) by lia.
  destruct (Z.ltb_spec (p + 1) 0); [lia|]. by destruct (Z.ltb_spec 0 (p + 1)); [|lia].
Qed.

(** A request by a level sets an allowed power, zero only for the zero level or
    the empty set, and a higher level no lower power; a request for a power
    sets an allowed power and, where the upper values of the set differ, the
    nearest one, the higher of two; the empty request changes nothing. *)
Theorem Request_Update_allowed set pw :
  set_ok set -> is_power pw ->
  (exists power, forall lvl, LevelZero <= lvl <= LevelMax ->
     Request_Update (NewRequestByLevel lvl) pw set = Ret (power lvl, negb (pw =? power lvl)) /\
     IsAllowed set (power lvl) = true /\ (power lvl = 0 -> lvl = LevelZero \/ PowerSet_IsEmpty set = true) /\
     forall l, LevelZero <= l <= lvl -> power l <= power lvl) /\
  (forall p, is_power p -> exists pw',
     Request_Update (NewRequest p) pw set = Ret (pw', negb (pw =? pw')) /\
     IsAllowed set pw' = true /\ (pw' = 0 -> p = 0 \/ p3 set = 0) /\
     (tops_differ set -> p <> 0 -> forall q, is_power q -> q <> 0 -> IsAllowed set q = true -> nearer p pw' q)) /\
  Request_Update EmptyRequest pw set = Ret (pw, false).
Proof.
  intros Hset Hpw. split_and!; [| |done].
  - destruct (ForLevel_allowed set 20 60 80 Hset ltac:(lia) ltac:(lia)) as (power & Hall & Hmono). exists power.
    intros lvl Hl. destruct (Hall lvl Hl) as (E & Ha & Hz). unfold Request_Update, ForLevel.
    rewrite request_level, E by done. rewrite IsAllowed_iff. split_and!; [done..|]. intros l Hll. apply Hmono; lia.
  - intros p Hp. destruct (FindNearestValid_nearest set p Hset Hp) as (r & E & Ha & Hz & Hn). exists r.
    unfold Request_Update. destruct (request_power p Hp) as [-> ->]. rewrite E, IsAllowed_iff. split_and!; [done..|].
    intros Hd Hp0 q Hq Hq0 Hqa. apply Hn; [done..|]. by apply IsAllowed_iff.
Qed.

(** ** Concrete values *)
Definition sampleSet : PowerSet := mkSet 10 0 30 40.

Lemma PowerOf_largest_witness :
  is_power (PowerOf 1000) /\ (ToLinearValue 150 <= 1000 <-> 150 <= PowerOf 1000) /\ PowerOf 1000 <= PowerOf 2000 /\
  ToLinearValue (PowerOf 1000) <= 1000 /\ PowerOf (ToLinearValue 150) = 150.
Proof. apply (PowerOf_largest 1000 2000 150); [lia|lia|by vm_compute]. Defined.

Lemma Request_Update_allowed_witness :
  exists pw', Request_Update (NewRequest 33) 5 sampleSet = Ret (pw', negb (5 =? pw')) /\
    IsAllowed sampleSet pw' = true /\ nearer 33 pw' 40.
Proof.
  assert (Hs : set_ok sampleSet) by (by split; vm_compute).
  destruct (Request_Update_allowed sampleSet 5 Hs ltac:(by vm_compute)) as (_ & Hp & _).
  destruct (Hp 33 ltac:(by vm_compute)) as (pw' & E & Ha & _ & Hn). exists pw'. split; [exact E|]. split; [exact Ha|].
  apply Hn; [by intros ?|done|by vm_compute|done|by vm_compute].
Defined.
