(* ===== verification/MemberRank.v ===== *)
(** * The rank of a node (src/network/consensus/gcpv2/api/member: index.go,
    opmode.go, rank.go, roles.go, sorting_rank.go, trust_level.go,
    state_bitset.go)

    A rank packs power, index, count and mode into 32 bits; nodes are sorted
    by working role, power and identifier; the trust in a node moves with what
    is reported of it. *)
From S2P Require Import Prelude MemberPower.

(** ** index.go *)
Definition JoinerIndex : Z := 0x8000.
Definition NodeIndexBits : Z := 10.
Definition NodeIndexMask : Z := Z.shiftl 1 NodeIndexBits - 1.
Definition MaxNodeIndex : Z := NodeIndexMask.

Definition Ensure (v : Z) : go Z := if MaxNodeIndex <? v then Panic "illegal value" else Ret v.
Definition AsIndex (v : Z) : go Z := if v <? 0 then Panic "illegal value" else Ensure (u16 v).
Definition AsIndexUint16 (v : Z) : go Z := Ensure v.
Definition Index_AsUint32 (v : Z) : go Z := Ensure v.
Definition Index_AsUint16 (v : Z) : go Z := Ensure v.
Definition Index_AsInt (v : Z) : go Z := Ensure v.
Definition Index_IsJoiner (v : Z) : bool := v =? JoinerIndex.

(** ** opmode.go *)
Definition ModeBits : Z := 4.
Definition ModeFlagRestrictedBehavior : Z := 4.
Definition ModeFlagValidationWarning : Z := 2.
Definition ModeFlagSuspendedOps : Z := 1.
Definition ModeNormal : Z := 0.
Definition ModeSuspected : Z := ModeFlagSuspendedOps.
Definition ModePossibleFraud : Z := ModeFlagValidationWarning.
Definition ModeRestrictedAnnouncement : Z := ModeFlagRestrictedBehavior.
Definition ModeEvictedGracefully : Z := Z.lor ModeFlagRestrictedBehavior ModeFlagSuspendedOps.
Definition ModeEvictedAsFraud : Z := Z.lor ModeFlagRestrictedBehavior ModeFlagValidationWarning.
Definition ModeEvictedAsSuspected : Z :=
  Z.lor (Z.lor ModeFlagRestrictedBehavior ModeFlagValidationWarning) ModeFlagSuspendedOps.

Definition IsEvicted (v : Z) : bool := ModeEvictedGracefully <=? v.
Definition IsJustJoined (v : Z) : bool := v =? ModeRestrictedAnnouncement.
Definition IsEvictedForcefully (v : Z) : bool := ModeEvictedGracefully <? v.
Definition IsEvictedGracefully (v : Z) : bool := v =? ModeEvictedGracefully.
Definition IsRestricted (v : Z) : bool := negb (Z.land v ModeFlagRestrictedBehavior =? 0).
Definition IsMistrustful (v : Z) : bool := negb (Z.land v ModeFlagValidationWarning =? 0).
Definition IsSuspended (v : Z) : bool := negb (Z.land v ModeFlagSuspendedOps =? 0).
Definition CanIntroduceJoiner (v : Z) (isJoiner : bool) : bool :=
  negb (IsRestricted v) && negb (IsSuspended v) && negb isJoiner.
Definition IsPowerless (v : Z) : bool := IsSuspended v || IsEvicted v.
Definition Mode_AsUnit32 (v : Z) : go Z := if Z.shiftl 1 ModeBits <=? v then Panic "illegal value" else Ret v.
Definition CanVote (v : Z) : bool := v =? ModeNormal.
Definition CanHaveState (v : Z) : bool := negb (IsEvicted v).
Definition IsClean (v : Z) : bool := (v =? ModeNormal) || IsJustJoined v.

(** ** rank.go *)
Definition JoinerRank : Z := 0.

Definition GetPower (v : Z) : Z := u8 v.
Definition GetIndex (v : Z) : go Z :=
  if v =? JoinerRank then Ret JoinerIndex else AsIndex (Z.land (Z.shiftr v 8) NodeIndexMask).
Definition GetTotalCount (v : Z) : go Z :=
  i ← AsIndex (Z.land (Z.shiftr v 18) NodeIndexMask); Index_AsUint16 i.
Definition GetMode (v : Z) : Z := u8 (Z.shiftr v 28).
Definition Rank_IsJoiner (v : Z) : bool := v =? JoinerRank.

Definition NewMembershipRank (mode pw idx count : Z) : go Z :=
  if count <=? idx then Panic "illegal value"
  else
    i ← Index_AsUint32 idx;
    let r := Z.lor pw (u32 (Z.shiftl i 8)) in
    c ← Index_AsUint32 count;
    let r := Z.lor r (u32 (Z.shiftl c 18)) in
    m ← Mode_AsUnit32 mode;
    Ret (Z.lor r (u32 (Z.shiftl m 28))).

(** ** roles.go *)
Definition PrimaryRoleInactive : Z := 0.
Definition PrimaryRoleNeutral : Z := 1.
Definition PrimaryRoleHeavyMaterial : Z := 2.
Definition PrimaryRoleLightMaterial : Z := 3.
Definition PrimaryRoleVirtual : Z := 4.

(** ** sorting_rank.go *)
Record SortingRank : Type := mkSortingRank { nodeID : Z; powerRole : Z }.

Definition SortingPowerRole (role pw mode : Z) : go Z :=
  if role =? 0 then Panic "illegal value"
  else if (pw =? 0) || IsPowerless mode then Ret 0
  else Ret (Z.lor (u16 (Z.shiftl role 8)) pw).
Definition NewSortingRank (id role pw mode : Z) : go SortingRank :=
  r ← SortingPowerRole role pw mode; Ret (mkSortingRank id r).
Definition IsWorking (v : SortingRank) : bool := negb (powerRole v =? 0).
Definition GetWorkingRole (v : SortingRank) : Z := u8 (Z.shiftr (powerRole v) 8).
Definition SortingRank_GetPower (v : SortingRank) : Z := u8 (powerRole v).
Definition LessByID (vNodeID oNodeID : Z) : bool := oNodeID <? vNodeID.
Definition SortingRank_Less (v o : SortingRank) : bool :=
  if powerRole o <? powerRole v then true
  else if powerRole v <? powerRole o then false
  else nodeID o <? nodeID v.

(** ** trust_level.go: int8 *)
Definition i8 (z : Z) : Z := (z + 2^7) mod 2^8 - 2^7.
Definition FraudByBlacklist : Z := -5.
Definition FraudByNeighbors : Z := -3.
Definition UnknownTrust : Z := 0.
Definition TrustBySelf : Z := 1.
Definition TrustBySome : Z := 2.
Definition TrustByNeighbors : Z := 3.
Definition TrustByNetwork : Z := 4.
Definition TrustByCouncil : Z := 6.

Definition trust_abs (v : Z) : Z := if 0 <=? v then v else i8 (- v).
Definition WrapRange (v hi : Z) : Z := Z.lor (u16 v) (u16 (Z.shiftl (u16 hi) 8)).
Definition UnwrapTrustRange (wrapped : Z) : Z * Z := (i8 wrapped, i8 (Z.shiftr wrapped 8)).

(** The level afterwards, and whether it was modified. *)
Definition Update (v newLevel : Z) : Z * bool :=
  if (newLevel =? UnknownTrust) || (newLevel =? v) then (v, false)
  else if UnknownTrust <? newLevel then
    if trust_abs newLevel <=? trust_abs v then (v, false) else (newLevel, true)
  else if trust_abs newLevel <? trust_abs v then (v, false) else (newLevel, true).
Definition UpdateKeepNegative (v newLevel : Z) : Z * bool :=
  if (UnknownTrust <? newLevel) && (v <? UnknownTrust) then (v, false) else Update v newLevel.
Definition Trust_IsNegative (v : Z) : bool := v <? UnknownTrust.

(** ** state_bitset.go *)
Definition BeHighTrust : Z := 0.
Definition BeLimitedTrust : Z := 1.
Definition BeBaselineTrust : Z := 2.
Definition BeTimeout : Z := 3.
Definition BeFraud : Z := 4.
Definition MaxBitsetEntry : Z := 5.
Definition IsTrusted (s : Z) : bool := s <? BeBaselineTrust.
Definition IsTimeout (s : Z) : bool := s =? BeTimeout.
Definition IsFraud (s : Z) : bool := s =? BeFraud.

(** ** A rank is read back *)
Lemma pack_fields pw idx count mode :
  is_power pw -> 0 <= idx < 2^10 -> 0 <= count < 2^10 -> 0 <= mode < 2^4 ->
  Z.lor (Z.lor (Z.lor pw (u32 (Z.shiftl idx 8))) (u32 (Z.shiftl count 18))) (u32 (Z.shiftl mode 28)) =
  pw + 2^8 * idx + 2^18 * count + 2^28 * mode.
Proof.
  unfold is_power. intros Hpw Hi Hc Hm. rewrite !Z.shiftl_mul_pow2 by lia. rewrite !u32_small by lia.
  assert (Hdiv : forall x n, 0 < n -> (x * n) mod n = 0) by (intros; by apply Z.mod_mul; lia).
  rewrite (Z.lor_comm pw (idx * 2^8)), (lor_add (idx * 2^8) pw 8) by (lia || by apply Hdiv).
  rewrite (Z.lor_comm (idx * 2^8 + pw)), (lor_add (count * 2^18) _ 18) by (lia || by apply Hdiv).
  rewrite (Z.lor_comm _ (mode * 2^28)), (lor_add (mode * 2^28) _ 28) by (lia || by apply Hdiv). lia.
Qed.

Lemma Ensure_Ret v : v <= MaxNodeIndex -> Ensure v = Ret v.
Proof. unfold Ensure. destruct (Z.ltb_spec MaxNodeIndex v); [lia|done]. Qed.
Lemma AsIndex_Ret v : 0 <= v <= MaxNodeIndex -> AsIndex v = Ret v.
Proof.
  unfold AsIndex. change MaxNodeIndex with 1023. intros Hv. destruct (Z.ltb_spec v 0); [lia|].
  rewrite u16_small by lia. apply Ensure_Ret. change MaxNodeIndex with 1023. lia.
Qed.

(** A rank is made exactly when the index is below the count and every value
    fits its field; every value is then read back from it, and it is not the
    rank of a joiner. *)
Theorem NewMembershipRank_roundtrip mode pw idx count :
  is_power pw -> 0 <= mode -> 0 <= idx ->
  (idx < count <= MaxNodeIndex /\ mode < 16 ->
   exists r, NewMembershipRank mode pw idx count = Ret r /\ 0 < r < 2^32 /\ Rank_IsJoiner r = false /\
     GetPower r = pw /\ GetIndex r = Ret idx /\ GetTotalCount r = Ret count /\ GetMode r = mode) /\
  (~ (idx < count <= MaxNodeIndex /\ mode < 16) -> NewMembershipRank mode pw idx count = Panic "illegal value").
Proof.
  intros Hpw Hm Hi. split.
  - intros [[Hlt Hc] Hm']. unfold NewMembershipRank. destruct (Z.leb_spec count idx); [lia|].
    unfold Index_AsUint32, Mode_AsUnit32. rewrite !Ensure_Ret by lia. cbn [mbind go_bind].
    change (Z.shiftl 1 ModeBits) with 16. destruct (Z.leb_spec 16 mode); [lia|]. cbn [mbind go_bind].
    change MaxNodeIndex with 1023 in Hc. rewrite pack_fields by (done || lia). eexists. split; [done|]. unfold is_power in Hpw.
    unfold Rank_IsJoiner, GetPower, GetIndex, GetTotalCount, GetMode, Index_AsUint16, JoinerRank.
    remember (pw + _ + _ + _) as r eqn:Er. assert (Hr : 0 < r < 2^32) by lia. destruct (Z.eqb_spec r 0); [lia|].
    change NodeIndexMask with (Z.ones 10). rewrite !Z.land_ones, !Z.shiftr_div_pow2 by lia.
    assert (E8 : r / 2^8 = idx + (count + mode * 2^10) * 2^10) by (symmetry; apply (Z.div_unique _ _ _ pw); lia).
    assert (E18 : r / 2^18 = count + mode * 2^10) by (symmetry; apply (Z.div_unique _ _ _ (pw + 2^8 * idx)); lia).
    assert (E28 : r / 2^28 = mode) by (symmetry; apply (Z.div_unique _ _ _ (pw + 2^8 * idx + 2^18 * count)); lia).
    assert (E0 : u8 r = pw) by (unfold u8; symmetry; apply (Z.mod_unique _ _ (idx + 2^10 * count + 2^20 * mode)); lia).
    rewrite E0, E8, E18, E28, !Z.mod_add, !Z.mod_small by lia.
    rewrite !AsIndex_Ret by (change MaxNodeIndex with 1023; lia). cbn [mbind go_bind].
    rewrite Ensure_Ret by (change MaxNodeIndex with 1023; lia). rewrite u8_small by lia. split; [lia|done].
  - intros Hn. unfold NewMembershipRank. destruct (Z.leb_spec count idx); [done|].
    unfold Index_AsUint32, Ensure, Mode_AsUnit32. change (Z.shiftl 1 ModeBits) with 16.
    destruct (Z.ltb_spec MaxNodeIndex idx); [done|]. cbn [mbind go_bind].
    destruct (Z.ltb_spec MaxNodeIndex count); [done|]. cbn [mbind go_bind].
    destruct (Z.leb_spec 16 mode); [done|lia].
Qed.

(** ** Trust: only the strongest report counts, fraud before trust *)
Definition trust_range (v : Z) : Prop := -2^7 < v < 2^7.
Definition trust_strength (v : Z) : Z := 2 * Z.abs v + (if v <? 0 then 1 else 0).

Lemma trust_abs_abs v : trust_range v -> trust_abs v = Z.abs v.
Proof.
  unfold trust_range, trust_abs, i8. intros Hv. destruct (Z.leb_spec 0 v); [lia|]. rewrite Z.mod_small by lia. lia.
Qed.

Lemma trust_strength_inj v w : trust_strength v = trust_strength w -> v = w.
Proof. unfold trust_strength. destruct (Z.ltb_spec v 0), (Z.ltb_spec w 0); lia. Qed.

Lemma Update_strongest v w : trust_range v -> trust_range w ->
  (Update v w).1 = (if trust_strength v <? trust_strength w then w else v) /\
  (Update v w).2 = (trust_strength v <? trust_strength w).
Proof.
  intros Hv Hw. unfold Update, UnknownTrust. rewrite !trust_abs_abs by done. unfold trust_strength.
  destruct (Z.eqb_spec w 0) as [->|]; [cbn [orb]; change (0 <? 0) with false; destruct (Z.ltb_spec v 0); decide_Z; done|].
  destruct (Z.eqb_spec w v) as [->|]; [cbn [orb]; by rewrite Z.ltb_irrefl|]. cbn [orb].
  destruct (Z.ltb_spec v 0), (Z.ltb_spec w 0); decide_Z; done.
Qed.

Definition updates (v : Z) (levels : list Z) : Z := foldl (fun v l => (Update v l).1) v levels.

Lemma updates_strongest v levels :
  trust_range v -> Forall trust_range levels ->
  updates v levels ∈ v :: levels /\ trust_range (updates v levels) /\
  Forall (fun l => trust_strength l <= trust_strength (updates v levels)) (v :: levels).
Proof.
  intros Hv Hl. revert v Hv. induction Hl as [|l levels Hl _ IH]; intros v Hv.
  - cbn. split; [by left|]. split; [done|]. by repeat constructor.
  - change (updates v (l :: levels)) with (updates (Update v l).1 levels). destruct (Update_strongest v l Hv Hl) as [E _].
    assert (Hr : trust_range (Update v l).1) by (rewrite E; by destruct (_ <? _)).
    destruct (IH _ Hr) as (Hin & Hrange & Hall). apply list.Forall_cons in Hall as [Hle Hall].
    split; [|split; [done|]].
    + apply elem_of_cons in Hin as [->|Hin]; [|by right; right]. rewrite E. destruct (_ <? _); [right; by left|by left].
    + rewrite E in Hle at 1.
      destruct (Z.ltb_spec (trust_strength v) (trust_strength l)); (constructor; [lia|constructor; [lia|done]]).
Qed.

(** Reports may come in any order and any number of times: the level of trust is
    the strongest of all of them and of the level before. *)
Theorem trust_order v levels levels' :
  trust_range v -> Forall trust_range levels -> (forall l, l ∈ levels <-> l ∈ levels') ->
  updates v levels = updates v levels' /\ updates v levels ∈ v :: levels /\
  Forall (fun l => trust_strength l <= trust_strength (updates v levels)) (v :: levels).
Proof.
  intros Hv Hl Hsame. assert (Hl' : Forall trust_range levels').
  { rewrite list.Forall_forall in *. intros l Hin. by apply Hl, Hsame. }
  destruct (updates_strongest v levels Hv Hl) as (Hin & _ & Hall).
  destruct (updates_strongest v levels' Hv Hl') as (Hin' & _ & Hall').
  split; [|by split]. apply trust_strength_inj, Z.le_antisymm; rewrite list.Forall_forall in *.
  - apply Hall'. apply elem_of_cons in Hin as [->|Hin]; [by left|right; by apply Hsame].
  - apply Hall. apply elem_of_cons in Hin' as [->|Hin']; [by left|right; by apply Hsame].
Qed.

(** A range with a negative lower level does not survive [WrapRange]. *)
Lemma WrapRange_negative : UnwrapTrustRange (WrapRange (-2) 3) = (-2, -1).
Proof. by vm_compute. Qed.

(** ** The order of nodes *)
Lemma SortingRank_Less_iff v o :
  SortingRank_Less v o = true <-> powerRole o < powerRole v \/ powerRole o = powerRole v /\ nodeID o < nodeID v.
Proof. unfold SortingRank_Less. decide_Z; split; try done; lia. Qed.

#[export] Instance SortingRank_Less_strict : StrictOrder (fun v o => SortingRank_Less v o = true).
Proof.
  split.
  - intros v. red. rewrite SortingRank_Less_iff. lia.
  - intros v w x. rewrite !SortingRank_Less_iff. lia.
Qed.

Lemma role_power role pw : 0 < role < 2^6 -> is_power pw ->
  Z.lor (u16 (Z.shiftl role 8)) pw = role * 2^8 + pw.
Proof.
  unfold is_power. intros Hr Hp. rewrite Z.shiftl_mul_pow2, u16_small by lia.
  apply (lor_add _ _ 8); [lia|apply Z.mod_mul; lia|lia].
Qed.

Lemma role_power_unpack id role pw : 0 < role < 2^6 -> is_power pw ->
  GetWorkingRole (mkSortingRank id (role * 2^8 + pw)) = role /\ SortingRank_GetPower (mkSortingRank id (role * 2^8 + pw)) = pw.
Proof.
  unfold is_power, GetWorkingRole, SortingRank_GetPower, u8. intros Hr Hp. cbn [powerRole].
  rewrite Z.shiftr_div_pow2, Z.div_add_l, (Z.div_small pw), Z.add_0_r by lia.
  rewrite (Z.add_comm (role * _)), Z.mod_add, !Z.mod_small by lia. done.
Qed.

(** Nodes that work come first, by role, then by power, then by identifier, all
    from the highest down; those without power or suspended follow, by
    identifier.  Any two nodes with different identifiers are ordered. *)
Theorem NewSortingRank_order id role pw mode id' role' pw' mode' :
  0 < role < 2^6 -> 0 < role' < 2^6 -> is_power pw -> is_power pw' ->
  exists v v', NewSortingRank id role pw mode = Ret v /\ NewSortingRank id' role' pw' mode' = Ret v' /\
    IsWorking v = negb (pw =? 0) && negb (IsPowerless mode) /\
    (IsWorking v = true -> GetWorkingRole v = role /\ SortingRank_GetPower v = pw) /\
    (SortingRank_Less v v' = true <->
     if IsWorking v then
       IsWorking v' = false \/ role' < role \/ role' = role /\ (pw' < pw \/ pw' = pw /\ id' < id)
     else IsWorking v' = false /\ id' < id) /\
    (id <> id' -> SortingRank_Less v v' = true \/ SortingRank_Less v' v = true).
Proof.
  intros Hr Hr' Hp Hp'. unfold NewSortingRank, SortingPowerRole.
  destruct (Z.eqb_spec role 0); [lia|]. destruct (Z.eqb_spec role' 0); [lia|]. rewrite !role_power by done.
  unfold is_power in Hp, Hp'. unfold IsWorking.
  set (w := (pw =? 0) || IsPowerless mode). set (w' := (pw' =? 0) || IsPowerless mode').
  assert (Ew : negb (pw =? 0) && negb (IsPowerless mode) = negb w) by (subst w; by destruct (pw =? 0), (IsPowerless mode)).
  assert (Hw : w = false -> pw <> 0) by (subst w; destruct (Z.eqb_spec pw 0); done).
  assert (Hw' : w' = false -> pw' <> 0) by (subst w'; destruct (Z.eqb_spec pw' 0); done). rewrite Ew. clearbody w w'. clear Ew.
  destruct w, w'; cbn [mbind go_bind]; do 2 eexists; (split; [done|split; [done|]]); cbn [powerRole negb Z.eqb].
  all: rewrite !SortingRank_Less_iff; cbn [powerRole nodeID].
  all: repeat match goal with |- context [?x =? 0] => destruct (Z.eqb_spec x 0); [lia|] end; cbn [negb].
  all: split; [done|]. all: split; [first [done|intros _; by apply role_power_unpack]|].
  all: split; [|lia]. all: intuition (done || lia).
Qed.

(** ** Concrete values *)
Lemma NewMembershipRank_roundtrip_witness :
  exists r, NewMembershipRank ModeSuspected 150 7 12 = Ret r /\ GetIndex r = Ret 7 /\ GetMode r = ModeSuspected.
Proof.
  destruct (NewMembershipRank_roundtrip ModeSuspected 150 7 12) as [Hok _]; [by vm_compute|by vm_compute|done|].
  destruct Hok as (r & E & _ & _ & _ & Ei & _ & Em); [split; [split; [done|by vm_compute]|done]|].
  exists r. split; [exact E|]. split; [exact Ei|exact Em].
Defined.

Lemma trust_order_witness :
  updates UnknownTrust [TrustBySome; FraudByNeighbors; TrustByNeighbors] =
  updates UnknownTrust [TrustByNeighbors; TrustBySome; TrustBySome; FraudByNeighbors].
Proof.
  apply (trust_order UnknownTrust [TrustBySome; FraudByNeighbors; TrustByNeighbors]
           [TrustByNeighbors; TrustBySome; TrustBySome; FraudByNeighbors]).
  - by vm_compute.
  - repeat apply list.Forall_cons_2; try apply list.Forall_nil_2; by vm_compute.
  - intros l. rewrite !elem_of_cons. tauto.
Defined.

Lemma NewSortingRank_order_witness :
  exists v v', NewSortingRank 11 PrimaryRoleVirtual 150 ModeNormal = Ret v /\
    NewSortingRank 12 PrimaryRoleLightMaterial 200 ModeNormal = Ret v' /\
    (SortingRank_Less v v' = true \/ SortingRank_Less v' v = true).
Proof.
  destruct (NewSortingRank_order 11 PrimaryRoleVirtual 150 ModeNormal 12 PrimaryRoleLightMaterial 200 ModeNormal)
    as (v & v' & E & E' & _ & _ & _ & Ht); [by vm_compute..|].
  exists v, v'. split; [exact E|]. split; [exact E'|]. by apply Ht.
Defined.
