(* ===== verification/NodeStats.v ===== *)
(** * Counting what the nodes of a round say of each other
    (src/network/consensus/gcpv2/phasebundle/stats and nodeset/bitset_stats.go,
    consensus_stats.go, cmp_stats.go, node_bitset.go)

    A row has a value for every node and counts its values as they are set; a
    table counts the values of its rows by column and in all.  A row is not
    changed once it is in a table. *)
From S2P Require Import Prelude MemberPower MemberRank.

(** An element of a slice. *)
Definition slice_get {A} (l : list A) (i : Z) : go A :=
  if i <? 0 then Panic "index out of range"
  else match l !! Z.to_nat i with Some x => Ret x | None => Panic "index out of range" end.
(** [l[i] += d], at a width. *)
Definition slice_add (width : Z -> Z) (l : list Z) (i d : Z) : go (list Z) :=
  x ← slice_get l i; Ret (<[Z.to_nat i := width (x + d)]> l).

(** ** stat_row.go *)
Record Row : Type := mkRow { rowIndex : Z; values : list Z; row_summary : list Z }.

Definition NewStatRow (maxValue columns : Z) : go Row :=
  if 65535 <? columns then Panic "too many columns"
  else Ret (mkRow (-1) (replicate (Z.to_nat columns) 0) (replicate (Z.to_nat (u8 (maxValue + 1))) 0)).

Definition CanUpdate (r : Row) : bool := rowIndex r <? 0.
Definition ensureUpdateable (r : Row) : go () :=
  if CanUpdate r then Ret () else Panic "row is in the table or uninitialized".

(** The row afterwards and the value before. *)
Definition Row_Set (r : Row) (column value : Z) : go (Row * Z) :=
  ensureUpdateable r;;
  prev ← slice_get (values r) column;
  if prev =? value then Ret (r, prev)
  else
    summary ← slice_add u16 (row_summary r) prev (-1);
    summary ← slice_add u16 summary value 1;
    Ret (mkRow (rowIndex r) (<[Z.to_nat column := value]> (values r)) summary, prev).

Definition Row_Get (r : Row) (column : Z) : go Z := slice_get (values r) column.
Definition Row_ColumnCount (r : Row) : Z := Z.of_nat (length (values r)).
Definition Row_MaxValue (r : Row) : Z := u8 (Z.of_nat (length (row_summary r)) - 1).
Definition GetRowIndex (r : Row) : Z := if rowIndex r <? 0 then -1 else rowIndex r.

Definition Row_GetSummaryByValue (r : Row) (value : Z) : go Z :=
  s ← slice_get (row_summary r) value;
  Ret (if negb (value =? 0) then s else u16 (s + u16 (Z.of_nat (length (values r))))).
Definition HasValues (r : Row) (value : Z) : go bool :=
  s ← Row_GetSummaryByValue r value; Ret (0 <? s).
Definition HasAllValues (r : Row) (value : Z) : go bool :=
  s ← slice_get (row_summary r) value;
  Ret (if negb (value =? 0) then s =? u16 (Z.of_nat (length (values r))) else s =? 0).
Definition HasAllValuesOf (r : Row) (value0 value1 : Z) : go bool :=
  s0 ← slice_get (row_summary r) value0;
  s1 ← slice_get (row_summary r) value1;
  Ret (if (value0 =? 0) || (value1 =? 0) then u16 (s0 + s1) =? 0
       else u16 (s0 + s1) =? u16 (Z.of_nat (length (values r)))).
Definition Row_GetSummary (r : Row) : go (list Z) :=
  slice_add u16 (row_summary r) 0 (u16 (Z.of_nat (length (values r)))).

(** ** stat_table.go, stat_column.go: a column is its counts *)
Record StatTable : Type := mkTable {
  columns : list (list Z);
  rows : list (option Row);
  rowCount : Z;
  table_summary : list Z;
}.

Definition NewStatTable (maxValue cols : Z) : go StatTable :=
  if 65535 <? cols then Panic "too many columns"
  else
    let zeros := replicate (Z.to_nat (u8 (maxValue + 1))) 0 in
    Ret (mkTable (replicate (Z.to_nat cols) zeros) [] 0 zeros).

Definition ColumnCount (t : StatTable) : Z := Z.of_nat (length (columns t)).
Definition MaxValue (t : StatTable) : Z := u8 (Z.of_nat (length (table_summary t)) - 1).
Definition RowCount (t : StatTable) : Z := rowCount t.

Definition ensureForTable (r : Row) (t : StatTable) : go () :=
  ensureUpdateable r;;
  if negb (Row_ColumnCount r =? ColumnCount t) then Panic "column count mismatched"
  else if negb (Row_MaxValue r =? MaxValue t) then Panic "max value mismatched"
  else Ret ().

(** [for i, v := range row.values { t.columns[i].summary[v] += d; t.summary[v] += d }] *)
Fixpoint count_values (d : Z) (cols : list (list Z)) (summary : list Z) (vals : list Z) : go (list (list Z) * list Z) :=
  match vals, cols with
  | [], _ => Ret (cols, summary)
  | _ :: _, [] => Panic "index out of range"
  | v :: vals', c :: cols' =>
      c ← slice_add u16 c v d;
      summary ← slice_add u32 summary v d;
      r ← count_values d cols' summary vals';
      Ret (c :: r.1, r.2)
  end.

Definition AddRow (t : StatTable) (row : Row) : go (StatTable * Z) :=
  ensureForTable row t;;
  let index := Z.of_nat (length (rows t)) in
  r ← count_values 1 (columns t) (table_summary t) (values row);
  Ret (mkTable r.1 (rows t ++ [Some (mkRow index (values row) (row_summary row))]) (rowCount t + 1) r.2, index).

Definition PutRow (t : StatTable) (index : Z) (row : Row) : go StatTable :=
  ensureForTable row t;;
  let stored := Some (mkRow index (values row) (row_summary row)) in
  let len := Z.of_nat (length (rows t)) in
  rs ← (if index =? len then Ret (rows t ++ [stored])
        else if len <? index then
          Ret (<[Z.to_nat index := stored]> (rows t ++ replicate (Z.to_nat (index - len + 1)) None))
        else
          old ← slice_get (rows t) index;
          match old with
          | Some _ => Panic "row is in use"
          | None => Ret (<[Z.to_nat index := stored]> (rows t))
          end);
  r ← count_values 1 (columns t) (table_summary t) (values row);
  Ret (mkTable r.1 rs (rowCount t + 1) r.2).

Definition GetRow (t : StatTable) (index : Z) : go (option Row) :=
  if Z.of_nat (length (rows t)) <=? index then Ret None else slice_get (rows t) index.

Definition RemoveRow (t : StatTable) (index : Z) : go (StatTable * bool) :=
  if Z.of_nat (length (rows t)) <=? index then Ret (t, false)
  else
    row ← slice_get (rows t) index;
    match row with
    | None => Ret (t, false)
    | Some row =>
        r ← count_values (-1) (columns t) (table_summary t) (values row);
        Ret (mkTable r.1 (<[Z.to_nat index := None]> (rows t)) (rowCount t - 1) r.2, true)
    end.

Definition Table_GetSummaryByValue (t : StatTable) (value : Z) : go Z := slice_get (table_summary t) value.
Definition GetColumn (t : StatTable) (colIndex : Z) : go (list Z) := slice_get (columns t) colIndex.
Definition Column_GetSummaryByValue (c : list Z) (value : Z) : go Z := slice_get c value.

(** ** consensus_stats.go *)
Definition ConsensusStatUnknown : Z := 0.
Definition ConsensusStatTrusted : Z := 1.
Definition ConsensusStatDoubted : Z := 2.
Definition ConsensusStatMissingThere : Z := 3.
Definition ConsensusStatFraudSuspect : Z := 4.
Definition ConsensusStatFraud : Z := 5.
Definition maxConsensusStat : Z := 6.

Definition NewConsensusStatTable (nodeCount : Z) : go StatTable := NewStatTable (u8 (maxConsensusStat - 1)) nodeCount.
Definition NewConsensusStatRow (columnCount : Z) : go Row := NewStatRow (u8 (maxConsensusStat - 1)) columnCount.

(** The switch of [StateToConsensusStatRow]. *)
Definition stat_of_entry (v : Z) : Z :=
  if IsTimeout v then ConsensusStatMissingThere
  else if IsFraud v then ConsensusStatFraud
  else if IsTrusted v then ConsensusStatTrusted
  else ConsensusStatDoubted.

(** [for i, v := range b { row.Set(i, f(v)) }] *)
Fixpoint set_all (row : Row) (i : Z) (vals : list Z) : go Row :=
  match vals with
  | [] => Ret row
  | v :: vals' => r ← Row_Set row i v; set_all r.1 (i + 1) vals'
  end.

Definition StateToConsensusStatRow (b : list Z) : go Row :=
  nodeStats ← NewConsensusStatRow (Z.of_nat (length b));
  set_all nodeStats 0 (stat_of_entry <$> b).

(** ** node_bitset.go *)
Definition CbsIncluded : Z := BeHighTrust.
Definition CbsSuspected : Z := BeBaselineTrust.
Definition CbsExcluded : Z := BeTimeout.
Definition CbsFraud : Z := BeFraud.
Definition NewConsensusBitsetRow (columnCount : Z) : go Row := NewStatRow (u8 (MaxBitsetEntry - 1)) columnCount.

(** ** cmp_stats.go *)
Definition ComparedSame : Z := 0.
Definition ComparedLessTrustedHere : Z := 1.
Definition ComparedLessTrustedThere : Z := 2.
Definition ComparedMissingThere : Z := 3.
Definition ComparedDoubtedMissingHere : Z := 4.
Definition ComparedMissingHere : Z := 5.
Definition maxComparedTypes : Z := 6.
Definition NewComparedBitsetRow (columnCount : Z) : go Row := NewStatRow (u8 (maxComparedTypes - 1)) columnCount.

(** The switch of [CompareToStatRow]. *)
Definition compare_entries (fHere fThere : Z) : Z :=
  if fHere =? fThere then ComparedSame
  else if IsTimeout fThere then ComparedMissingThere
  else if IsTimeout fHere then
    if IsTrusted fThere then ComparedMissingHere else ComparedDoubtedMissingHere
  else if Bool.eqb (IsTrusted fHere) (IsTrusted fThere) then ComparedSame
  else if IsTrusted fThere then ComparedLessTrustedHere
  else ComparedLessTrustedThere.

Definition CompareToStatRow (b otherDataBitset : list Z) : go Row :=
  if negb (Z.of_nat (length otherDataBitset) =? Z.of_nat (length b)) then Panic "different bitset size"
  else
    bitStats ← NewComparedBitsetRow (Z.of_nat (length b));
    set_all bitStats 0 (zip_with compare_entries b otherDataBitset).

(** ** Slices of counts *)
Definition wraps (w : Z -> Z) : Prop := forall x d, w (w x + d) = w (x + d).
Lemma u16_wraps : wraps u16.
Proof. intros x d. apply Z.add_mod_idemp_l. lia. Qed.
Lemma u32_wraps : wraps u32.
Proof. intros x d. apply Z.add_mod_idemp_l. lia. Qed.
#[export] Hint Resolve u16_wraps u32_wraps : insolar.

(** A slice with the values of [f], up to [max]. *)
Record counts (w : Z -> Z) (max : Z) (f : Z -> Z) (l : list Z) : Prop := {
  counts_length : Z.of_nat (length l) = max + 1;
  counts_at v : 0 <= v <= max -> l !! Z.to_nat v = Some (w (f v));
}.

Lemma counts_ext w max f g l : (forall v, 0 <= v <= max -> w (f v) = w (g v)) -> counts w max f l -> counts w max g l.
Proof. intros E [Hl Ha]. split; [done|]. intros v Hv. by rewrite Ha, E. Qed.

Lemma counts_zeros w max : w 0 = 0 -> 0 <= max -> counts w max (fun _ => 0) (replicate (Z.to_nat (max + 1)) 0).
Proof.
  intros Hw Hm. split; [rewrite length_replicate; lia|]. intros v Hv. rewrite Hw. apply lookup_replicate_2. lia.
Qed.

Lemma counts_get w max f l v : counts w max f l -> 0 <= v <= max -> slice_get l v = Ret (w (f v)).
Proof. intros [_ Ha] Hv. unfold slice_get. destruct (Z.ltb_spec v 0); [lia|]. by rewrite Ha. Qed.

Lemma counts_add w max f l i d : wraps w -> counts w max f l -> 0 <= i <= max ->
  exists l', slice_add w l i d = Ret l' /\ counts w max (fun v => f v + if v =? i then d else 0) l'.
Proof.
  intros Hw Hc Hi. unfold slice_add. rewrite (counts_get w max f l i Hc Hi). cbn [mbind go_bind].
  eexists. split; [done|]. destruct Hc as [Hl Ha]. split; [by rewrite length_insert|]. intros v Hv.
  destruct (Z.eqb_spec v i) as [->|Hne].
  - rewrite list_lookup_insert_eq by lia. by rewrite Hw.
  - rewrite list_lookup_insert_ne by lia. by rewrite Ha, Z.add_0_r.
Qed.

Definition count_in (v : Z) (l : list Z) : Z := Z.of_nat (length (filter (fun x => x = v) l)).

Lemma count_in_cons v x l : count_in v (x :: l) = (if x =? v then 1 else 0) + count_in v l.
Proof. unfold count_in. rewrite filter_cons. destruct (Z.eqb_spec x v); [rewrite decide_True by done; cbn; lia|by rewrite decide_False]. Qed.
Lemma count_in_app v l k : count_in v (l ++ k) = count_in v l + count_in v k.
Proof. unfold count_in. rewrite list.filter_app, length_app. lia. Qed.
Lemma count_in_insert v l i x y : l !! i = Some y ->
  count_in v (<[i := x]> l) = count_in v l + (if x =? v then 1 else 0) - (if y =? v then 1 else 0).
Proof.
  intros Hi. rewrite <- (take_drop_middle l i y Hi) at 2. rewrite insert_take_drop by (by eapply lookup_lt_Some).
  rewrite !count_in_app, !count_in_cons. lia.
Qed.
Lemma count_in_range v l : 0 <= count_in v l <= Z.of_nat (length l).
Proof. unfold count_in. pose proof (length_filter (fun x => x = v) l). lia. Qed.
Lemma count_in_zeros v n : v <> 0 -> count_in v (replicate n 0) = 0.
Proof. intros Hv. induction n as [|n IH]; [done|]. cbn [replicate]. rewrite count_in_cons, IH. destruct (Z.eqb_spec 0 v); lia. Qed.
Lemma count_in_all n : count_in 0 (replicate n 0) = Z.of_nat n.
Proof. induction n as [|n IH]; [done|]. cbn [replicate]. rewrite count_in_cons, IH. cbn [Z.eqb]. lia. Qed.

(** ** A row counts its values; zero is counted from the length down *)
Record row_ok (max : Z) (r : Row) : Prop := {
  ro_max : 0 <= max < 255;
  ro_columns : Z.of_nat (length (values r)) < 2^16;
  ro_values : Forall (fun v => 0 <= v <= max) (values r);
  ro_counts : counts u16 max (fun v => count_in v (values r) - if v =? 0 then Z.of_nat (length (values r)) else 0) (row_summary r);
}.

Lemma NewStatRow_ok max n : 0 <= max < 255 -> 0 <= n < 2^16 ->
  exists r, NewStatRow max n = Ret r /\ row_ok max r /\ rowIndex r = -1 /\ values r = replicate (Z.to_nat n) 0.
Proof.
  intros Hm Hn. unfold NewStatRow. destruct (Z.ltb_spec 65535 n); [lia|]. rewrite u8_small by lia.
  eexists. split; [done|]. split; [|done]. split; cbn [values row_summary]; [done|rewrite length_replicate; lia| |].
  - apply list.Forall_replicate. lia.
  - rewrite length_replicate. apply (counts_ext _ _ (fun _ => 0)); [|apply counts_zeros; [done|lia]].
    intros v Hv. f_equal. destruct (Z.eqb_spec v 0) as [->|]; [rewrite count_in_all; lia|by rewrite count_in_zeros].
Qed.

Lemma Row_Set_ok max r column value :
  row_ok max r -> rowIndex r < 0 -> 0 <= column < Z.of_nat (length (values r)) -> 0 <= value <= max ->
  exists r' prev, Row_Set r column value = Ret (r', prev) /\ row_ok max r' /\ rowIndex r' = rowIndex r /\
    values r' = <[Z.to_nat column := value]> (values r) /\ values r !! Z.to_nat column = Some prev.
Proof.
  intros [Hm Hn Hv Hc] Hi Hcol Hval. unfold Row_Set, ensureUpdateable, CanUpdate. destruct (Z.ltb_spec (rowIndex r) 0); [|lia].
  cbn [mbind go_bind]. destruct (lookup_lt_is_Some_2 (values r) (Z.to_nat column) ltac:(lia)) as [prev Hp].
  unfold slice_get at 1. destruct (Z.ltb_spec column 0); [lia|]. rewrite Hp. cbn [mbind go_bind].
  pose proof (proj1 (list.Forall_forall _ _) Hv prev ltac:(by eapply list_elem_of_lookup_2)) as Hprev. cbv beta in Hprev.
  destruct (Z.eqb_spec prev value) as [->|Hne].
  { exists r, value. split; [done|]. split; [done|]. split; [done|]. split; [by rewrite list_insert_id|done]. }
  destruct (counts_add u16 max _ _ prev (-1) u16_wraps Hc Hprev) as (s & -> & Hs). cbn [mbind go_bind].
  destruct (counts_add u16 max _ _ value 1 u16_wraps Hs Hval) as (s' & -> & Hs'). cbn [mbind go_bind].
  do 2 eexists. split; [done|]. cbn [rowIndex values]. split; [|done].
  split; cbn [values row_summary]; rewrite ?length_insert; [done|done|by apply Forall_insert|].
  eapply counts_ext; [|exact Hs']. intros v _. f_equal. rewrite (count_in_insert v _ _ _ _ Hp).
  rewrite (Z.eqb_sym v prev), (Z.eqb_sym v value). destruct (Z.eqb_spec prev v), (Z.eqb_spec value v); lia.
Qed.

Lemma Row_GetSummaryByValue_count max r v : row_ok max r -> 0 <= v <= max ->
  Row_GetSummaryByValue r v = Ret (count_in v (values r)).
Proof.
  intros [Hm Hn Hv Hc] Hr. unfold Row_GetSummaryByValue. rewrite (counts_get _ _ _ _ v Hc Hr). cbn [mbind go_bind].
  pose proof (count_in_range v (values r)). f_equal. destruct (Z.eqb_spec v 0) as [->|]; cbn [negb].
  - rewrite (u16_small (Z.of_nat _)) by lia. rewrite u16_wraps, u16_small; lia.
  - rewrite u16_small; lia.
Qed.

Lemma set_all_ok max r i vals :
  row_ok max r -> rowIndex r < 0 -> (i + length vals <= length (values r))%nat -> Forall (fun v => 0 <= v <= max) vals ->
  exists r', set_all r (Z.of_nat i) vals = Ret r' /\ row_ok max r' /\ rowIndex r' = rowIndex r /\
    values r' = take i (values r) ++ vals ++ drop (i + length vals) (values r).
Proof.
  intros Hr Hi Hlen Hv. revert r i Hr Hi Hlen. induction Hv as [|v vals Hv _ IH]; intros r i Hr Hi Hlen; cbn [set_all length] in *.
  - exists r. split_and!; [done..|]. cbn [app]. by rewrite Nat.add_0_r, take_drop.
  - destruct (Row_Set_ok max r (Z.of_nat i) v Hr Hi ltac:(lia) Hv) as (r1 & prev & -> & Hr1 & Hi1 & Ev & Hp).
    cbn [mbind go_bind fst]. rewrite Nat2Z.id in Ev, Hp.
    destruct (IH r1 (S i) Hr1 ltac:(lia)) as (r2 & E & Hr2 & Hi2 & Ev2); [rewrite Ev, length_insert; lia|].
    exists r2. replace (Z.of_nat i + 1) with (Z.of_nat (S i)) by lia. split_and!; [done|done|lia|].
    rewrite Ev2, Ev. rewrite (take_S_r _ i v) by (apply list_lookup_insert_eq; lia).
    rewrite take_insert_ge, drop_insert_lt by lia. rewrite <- app_assoc. cbn [app]. do 3 f_equal. f_equal. lia.
Qed.

(** Every value set, in order. *)
Lemma filled_row max n vals : 0 <= max < 255 -> Z.of_nat (length vals) = n -> n < 2^16 -> Forall (fun v => 0 <= v <= max) vals ->
  exists r, (row ← NewStatRow max n; set_all row 0 vals) = Ret r /\ row_ok max r /\ rowIndex r = -1 /\ values r = vals.
Proof.
  intros Hm Hl Hn Hv. destruct (NewStatRow_ok max n Hm ltac:(lia)) as (r & -> & Hr & Hi & Ev). cbn [mbind go_bind].
  destruct (set_all_ok max r 0 vals Hr ltac:(lia)) as (r' & E & Hr' & Hi' & Ev'); [rewrite Ev, length_replicate; lia|done|].
  exists r'. split_and!; [done|done|congruence|]. rewrite Ev', take_0, Ev. cbn [app]. rewrite drop_ge, app_nil_r; [done|].
  rewrite length_replicate. lia.
Qed.

(** ** A table counts its rows *)
Definition present (rs : list (option Row)) : list Row := omap id rs.
Definition column_count (i : nat) (v : Z) (rs : list Row) : Z :=
  Z.of_nat (length (filter (fun r => values r !! i = Some v) rs)).
Definition total_count (v : Z) (rs : list Row) : Z := foldr (fun r n => count_in v (values r) + n) 0 rs.

Record table_ok (max : Z) (n : nat) (t : StatTable) : Prop := {
  to_max : 0 <= max < 255;
  to_n : Z.of_nat n < 2^16;
  to_columns : length (columns t) = n;
  to_rows r : r ∈ present (rows t) -> row_ok max r /\ length (values r) = n;
  to_count : rowCount t = Z.of_nat (length (present (rows t)));
  to_column i c : columns t !! i = Some c -> counts u16 max (fun v => column_count i v (present (rows t))) c;
  to_summary : counts u32 max (fun v => total_count v (present (rows t))) (table_summary t);
}.

Lemma column_count_cons i v r rs :
  column_count i v (r :: rs) = (if decide (values r !! i = Some v) then 1 else 0) + column_count i v rs.
Proof. unfold column_count. rewrite filter_cons. destruct (decide _); cbn [length]; lia. Qed.

Lemma total_count_cons v r rs : total_count v (r :: rs) = count_in v (values r) + total_count v rs.
Proof. done. Qed.
Lemma column_count_Permutation i v rs rs' : rs ≡ₚ rs' -> column_count i v rs = column_count i v rs'.
Proof. intros Hp. unfold column_count. by rewrite Hp. Qed.
Lemma total_count_Permutation v rs rs' : rs ≡ₚ rs' -> total_count v rs = total_count v rs'.
Proof. unfold total_count. induction 1; cbn; lia. Qed.

Lemma present_app rs rs' : present (rs ++ rs') = present rs ++ present rs'.
Proof. apply omap_app. Qed.
Lemma present_insert rs i r : rs !! i = Some None -> present (<[i := Some r]> rs) ≡ₚ r :: present rs.
Proof.
  intros Hi. rewrite <- (take_drop_middle rs i None Hi) at 2. rewrite insert_take_drop by (by eapply lookup_lt_Some).
  rewrite !present_app. cbn. symmetry. apply Permutation_middle.
Qed.
Lemma present_remove rs i r : rs !! i = Some (Some r) -> present rs ≡ₚ r :: present (<[i := None]> rs).
Proof.
  intros Hi. assert (Hlt : (i < length rs)%nat) by (by eapply lookup_lt_Some).
  rewrite <- (present_insert (<[i:=None]> rs) i r) by (by apply list_lookup_insert_eq).
  by rewrite list_insert_insert_eq, list_insert_id.
Qed.
Lemma present_nones n : present (replicate n None) = [].
Proof. by induction n. Qed.

Lemma count_values_ok d max (F : nat -> Z -> Z) (G : Z -> Z) cols summary vals :
  length vals = length cols -> Forall (fun v => 0 <= v <= max) vals ->
  (forall i c, cols !! i = Some c -> counts u16 max (F i) c) -> counts u32 max G summary ->
  exists cols' summary', count_values d cols summary vals = Ret (cols', summary') /\ length cols' = length cols /\
    (forall i c, cols' !! i = Some c -> counts u16 max (fun v => F i v + if decide (vals !! i = Some v) then d else 0) c) /\
    counts u32 max (fun v => G v + d * count_in v vals) summary'.
Proof.
  intros Hlen Hv. revert F G cols summary Hlen. induction Hv as [|v vals Hv _ IH]; intros F G cols summary Hlen HF HG.
  { destruct cols; [|done]. exists [], summary. split; [done|]. split; [done|]. split; [done|].
    eapply counts_ext; [|exact HG]. intros w _. f_equal. unfold count_in. cbn. lia. }
  destruct cols as [|c cols]; [done|]. cbn [count_values].
  destruct (counts_add u16 max (F 0%nat) c v d u16_wraps (HF 0%nat c eq_refl) Hv) as (c' & -> & Hc'). cbn [mbind go_bind].
  destruct (counts_add u32 max G summary v d u32_wraps HG Hv) as (s' & -> & Hs'). cbn [mbind go_bind].
  injection Hlen as Hlen.
  destruct (IH (fun i => F (S i)) _ cols s' Hlen (fun i c => HF (S i) c) Hs') as (cols' & s'' & -> & Hl & HF' & HG').
  cbn [mbind go_bind fst snd]. do 2 eexists. split; [done|]. split; [cbn; lia|]. split.
  - intros [|i] c0 E; cbn in E.
    + injection E as <-. eapply counts_ext; [|exact Hc']. intros w _. f_equal. cbn [lookup list_lookup].
      destruct (Z.eqb_spec w v) as [->|]; [by rewrite decide_True|by rewrite decide_False by congruence].
    + by apply HF'.
  - eapply counts_ext; [|exact HG']. intros w _. f_equal. rewrite count_in_cons, (Z.eqb_sym w v). destruct (v =? w); lia.
Qed.

(** Counting a row in, or out, at the rows that remain. *)
Lemma count_row max n t r rs' d :
  table_ok max n t -> row_ok max r -> length (values r) = n ->
  (forall i v, column_count i v rs' = column_count i v (present (rows t)) + (if decide (values r !! i = Some v) then d else 0)) ->
  (forall v, total_count v rs' = total_count v (present (rows t)) + d * count_in v (values r)) ->
  exists cols summary, count_values d (columns t) (table_summary t) (values r) = Ret (cols, summary) /\ length cols = n /\
    (forall i c, cols !! i = Some c -> counts u16 max (fun v => column_count i v rs') c) /\
    counts u32 max (fun v => total_count v rs') summary.
Proof.
  intros [Hm Hn Hcols _ _ Hcol Hsum] [_ _ Hv _] Hr Ec Et.
  destruct (count_values_ok d max _ _ _ _ (values r) (eq_trans Hr (eq_sym Hcols)) Hv Hcol Hsum) as (cols & s & -> & Hl & HF & HG).
  exists cols, s. split; [done|]. split; [lia|]. split.
  - intros i c Hc. eapply counts_ext; [|by apply HF]. intros v _. f_equal. by rewrite Ec.
  - eapply counts_ext; [|exact HG]. intros v _. f_equal. by rewrite Et.
Qed.

Lemma NewStatTable_ok max n : 0 <= max < 255 -> 0 <= n < 2^16 ->
  exists t, NewStatTable max n = Ret t /\ table_ok max (Z.to_nat n) t /\ rows t = [].
Proof.
  intros Hm Hn. unfold NewStatTable. destruct (Z.ltb_spec 65535 n); [lia|]. rewrite u8_small by lia.
  eexists. split; [done|]. split; [|done].
  split; cbn [columns rows rowCount table_summary present omap list_omap total_count foldr length];
    [done|lia|by rewrite length_replicate|by intros r ?%elem_of_nil|done| |].
  - intros i c Hi%lookup_replicate. destruct Hi as [-> _]. unfold column_count. cbn. by apply counts_zeros; [|lia].
  - by apply counts_zeros; [|lia].
Qed.

(** A row that may be put into the table. *)
Record row_fits (max : Z) (n : nat) (r : Row) : Prop := {
  rf_ok : row_ok max r;
  rf_length : length (values r) = n;
  rf_free : rowIndex r < 0;
}.

Lemma ensureForTable_ok max n t r : table_ok max n t -> row_fits max n r -> ensureForTable r t = Ret ().
Proof.
  intros [Hm Hn Hc _ _ _ [Hs _]] [[_ _ _ [Hrs _]] Hl Hf]. unfold ensureForTable, ensureUpdateable, CanUpdate.
  destruct (Z.ltb_spec (rowIndex r) 0); [|lia]. cbn [mbind go_bind].
  unfold Row_ColumnCount, ColumnCount, Row_MaxValue, MaxValue. rewrite Hl, Hc, Hs, Hrs, !Z.eqb_refl. done.
Qed.

Lemma row_ok_at max r i : row_ok max r -> row_ok max (mkRow i (values r) (row_summary r)).
Proof. by intros []. Qed.

(** One more row, wherever it is put. *)
Lemma table_add max n t r index rs' :
  table_ok max n t -> row_fits max n r ->
  present rs' ≡ₚ mkRow index (values r) (row_summary r) :: present (rows t) ->
  exists cols s, count_values 1 (columns t) (table_summary t) (values r) = Ret (cols, s) /\
    table_ok max n (mkTable cols rs' (rowCount t + 1) s).
Proof.
  intros Ht Hr Hp. set (r' := mkRow _ (values r) (row_summary r)) in *.
  destruct (count_row max n t r (present rs') 1 Ht (rf_ok _ _ _ Hr) (rf_length _ _ _ Hr)) as (cols & s & -> & Hl & HF & HG).
  - intros i v. rewrite (column_count_Permutation i v _ _ Hp), column_count_cons. change (values r') with (values r). lia.
  - intros v. rewrite (total_count_Permutation v _ _ Hp), total_count_cons. change (values r') with (values r). lia.
  - exists cols, s. split; [done|]. destruct Ht, Hr.
    split; cbn [columns rows rowCount table_summary]; try done.
    + intros x. rewrite Hp. intros [->|Hx]%elem_of_cons; [|by apply to_rows0]. split; [by apply row_ok_at|done].
    + rewrite Hp. cbn [length]. lia.
Qed.

Lemma AddRow_ok max n t r : table_ok max n t -> row_fits max n r ->
  exists t', AddRow t r = Ret (t', Z.of_nat (length (rows t))) /\ table_ok max n t' /\
    rows t' = rows t ++ [Some (mkRow (Z.of_nat (length (rows t))) (values r) (row_summary r))].
Proof.
  intros Ht Hr. unfold AddRow. rewrite (ensureForTable_ok max n t r Ht Hr). cbn [mbind go_bind].
  destruct (table_add max n t r (Z.of_nat (length (rows t)))
              (rows t ++ [Some (mkRow (Z.of_nat (length (rows t))) (values r) (row_summary r))]) Ht Hr) as (cols & s & -> & Ht').
  { rewrite present_app. apply Permutation_app_comm. }
  cbn [mbind go_bind fst snd]. eexists. by split.
Qed.

(** The place of a row is free: past the end, or emptied before. *)
Lemma PutRow_ok max n t index r : table_ok max n t -> row_fits max n r -> 0 <= index ->
  (rows t !! Z.to_nat index = None \/ rows t !! Z.to_nat index = Some None) ->
  exists t', PutRow t index r = Ret t' /\ table_ok max n t' /\
    rows t' !! Z.to_nat index = Some (Some (mkRow index (values r) (row_summary r))) /\
    present (rows t') ≡ₚ mkRow index (values r) (row_summary r) :: present (rows t).
Proof.
  intros Ht Hr Hi Hfree. unfold PutRow. rewrite (ensureForTable_ok max n t r Ht Hr). cbn [mbind go_bind].
  set (r' := mkRow index _ _).
  assert (Hrs : exists rs', (if index =? Z.of_nat (length (rows t)) then Ret (rows t ++ [Some r'])
        else if Z.of_nat (length (rows t)) <? index then
          Ret (<[Z.to_nat index := Some r']> (rows t ++ replicate (Z.to_nat (index - Z.of_nat (length (rows t)) + 1)) None))
        else
          old ← slice_get (rows t) index;
          match old with
          | Some _ => Panic "row is in use"
          | None => Ret (<[Z.to_nat index := Some r']> (rows t))
          end) = Ret rs' /\ present rs' ≡ₚ r' :: present (rows t) /\ rs' !! Z.to_nat index = Some (Some r')).
  { destruct (Z.eqb_spec index (Z.of_nat (length (rows t)))) as [->|Hne].
    { eexists. split; [done|]. rewrite present_app. split; [apply Permutation_app_comm|].
      rewrite Nat2Z.id. by rewrite list_lookup_middle. }
    destruct (Z.ltb_spec (Z.of_nat (length (rows t))) index) as [Hgt|Hle].
    - eexists. split; [done|]. rewrite present_insert.
      + rewrite present_app, present_nones, app_nil_r. split; [done|]. apply list_lookup_insert_eq.
        rewrite length_app, length_replicate. lia.
      + rewrite lookup_app_r by lia. apply lookup_replicate_2. lia.
    - destruct Hfree as [Hn%lookup_ge_None|Hn]; [lia|]. unfold slice_get. destruct (Z.ltb_spec index 0); [lia|]. rewrite Hn.
      cbn [mbind go_bind]. eexists. split; [done|]. split; [by apply present_insert|]. apply list_lookup_insert_eq. lia. }
  destruct Hrs as (rs' & -> & Hp & Hat). cbn [mbind go_bind].
  destruct (table_add max n t r index rs' Ht Hr Hp) as (cols & s & -> & Ht'). cbn [mbind go_bind fst snd].
  eexists. split; [done|]. by split_and!.
Qed.

Lemma RemoveRow_ok max n t index r : table_ok max n t -> 0 <= index -> rows t !! Z.to_nat index = Some (Some r) ->
  exists t', RemoveRow t index = Ret (t', true) /\ table_ok max n t' /\ rows t' = <[Z.to_nat index := None]> (rows t).
Proof.
  intros Ht Hi Hat. pose proof (lookup_lt_Some _ _ _ Hat) as Hlt. pose proof (present_remove _ _ _ Hat) as Hp.
  unfold RemoveRow. destruct (Z.leb_spec (Z.of_nat (length (rows t))) index); [lia|].
  unfold slice_get. destruct (Z.ltb_spec index 0); [lia|]. rewrite Hat. cbn [mbind go_bind].
  destruct (to_rows _ _ _ Ht r) as [Hro Hrl]; [rewrite Hp; by left|].
  destruct (count_row max n t r (present (<[Z.to_nat index := None]> (rows t))) (-1) Ht Hro Hrl) as (cols & s & -> & Hl & HF & HG).
  - intros i v. rewrite (column_count_Permutation i v _ _ Hp), column_count_cons. destruct (decide _); lia.
  - intros v. rewrite (total_count_Permutation v _ _ Hp), total_count_cons. lia.
  - cbn [mbind go_bind fst snd]. eexists. split; [done|]. split; [|done]. destruct Ht.
    split; cbn [columns rows rowCount table_summary]; try done.
    + intros x Hx. apply to_rows0. rewrite Hp. by right.
    + rewrite to_count0, Hp. cbn [length]. lia.
Qed.

(** *** Any use of a table *)
Inductive table_op : Type := OpAdd (r : Row) | OpPut (index : Z) (r : Row) | OpRemove (index : Z).
Definition apply_table_op (t : StatTable) (op : table_op) : go StatTable :=
  match op with
  | OpAdd r => r' ← AddRow t r; Ret r'.1
  | OpPut index r => PutRow t index r
  | OpRemove index => r' ← RemoveRow t index; Ret r'.1
  end.
Fixpoint run_table (t : StatTable) (ops : list table_op) : go StatTable :=
  match ops with [] => Ret t | op :: ops' => t ← apply_table_op t op; run_table t ops' end.
(** The rows are well-formed: made by NewStatRow and Set. *)
Definition op_row_ok (max : Z) (op : table_op) : Prop :=
  match op with OpAdd r | OpPut _ r => row_ok max r | OpRemove _ => True end.

Lemma ensureForTable_fits max n t r : table_ok max n t -> row_ok max r -> ensureForTable r t = Ret () -> row_fits max n r.
Proof.
  intros Ht Hr. unfold ensureForTable, ensureUpdateable, CanUpdate. destruct (Z.ltb_spec (rowIndex r) 0); [|done]. cbn [mbind go_bind].
  unfold Row_ColumnCount, ColumnCount. destruct Ht. rewrite to_columns0.
  destruct (Z.eqb_spec (Z.of_nat (length (values r))) (Z.of_nat n)); [|done]. intros _. split; [done|lia|done].
Qed.

Lemma apply_table_op_ok max n t op t' : table_ok max n t -> op_row_ok max op -> apply_table_op t op = Ret t' -> table_ok max n t'.
Proof.
  intros Ht Hop E. destruct op as [r|index r|index]; cbn [apply_table_op op_row_ok] in *.
  - destruct (ensureForTable r t) as [[]|] eqn:Ee; [|unfold AddRow in E; by rewrite Ee in E].
    destruct (AddRow_ok max n t r Ht (ensureForTable_fits _ _ _ _ Ht Hop Ee)) as (t1 & E1 & Ht1 & _).
    rewrite E1 in E. by injection E as <-.
  - destruct (ensureForTable r t) as [[]|] eqn:Ee; [|unfold PutRow in E; by rewrite Ee in E].
    assert (Hi : 0 <= index /\ (rows t !! Z.to_nat index = None \/ rows t !! Z.to_nat index = Some None)).
    { unfold PutRow in E. rewrite Ee in E. cbn [mbind go_bind] in E.
      destruct (Z.eqb_spec index (Z.of_nat (length (rows t)))) as [->|Hne].
      { split; [lia|]. left. apply lookup_ge_None. lia. }
      destruct (Z.ltb_spec (Z.of_nat (length (rows t))) index).
      { split; [lia|]. left. apply lookup_ge_None. lia. }
      unfold slice_get in E. destruct (Z.ltb_spec index 0); [done|].
      destruct (rows t !! Z.to_nat index) as [[|]|]; [done| |]; (split; [done|]; by auto). }
    destruct Hi as [Hi Hfree].
    destruct (PutRow_ok max n t index r Ht (ensureForTable_fits _ _ _ _ Ht Hop Ee) Hi Hfree) as (t1 & E1 & Ht1 & _).
    rewrite E1 in E. by injection E as <-.
  - unfold RemoveRow in E. destruct (Z.leb_spec (Z.of_nat (length (rows t))) index) as [|Hlt]; [by injection E as <-|].
    unfold slice_get in E. destruct (Z.ltb_spec index 0) as [|Hi]; [done|].
    destruct (rows t !! Z.to_nat index) as [[r|]|] eqn:Hat; [|by injection E as <-|done].
    destruct (RemoveRow_ok max n t index r Ht Hi Hat) as (t1 & E1 & Ht1 & _).
    unfold RemoveRow in E1. destruct (Z.leb_spec (Z.of_nat (length (rows t))) index); [lia|].
    unfold slice_get in E1. destruct (Z.ltb_spec index 0); [lia|]. rewrite Hat in E1. cbn [mbind go_bind] in E, E1.
    destruct (count_values _ _ _ _) as [[c s]|]; [|done]. cbn [mbind go_bind fst snd] in E, E1. injection E as <-. by injection E1 as <-.
Qed.

Lemma run_table_ok max n t ops t' :
  table_ok max n t -> Forall (op_row_ok max) ops -> run_table t ops = Ret t' -> table_ok max n t'.
Proof.
  intros Ht Hops. revert t Ht. induction Hops as [|op ops Hop _ IH]; intros t Ht; cbn [run_table]; [by intros [= <-]|].
  intros E. go_step E. apply (IH v); [|done]. by eapply apply_table_op_ok.
Qed.

Lemma column_count_range i v rs : 0 <= column_count i v rs <= Z.of_nat (length rs).
Proof. unfold column_count. pose proof (length_filter (fun r => values r !! i = Some v) rs). lia. Qed.

Lemma total_count_range v n rs : (forall r, r ∈ rs -> length (values r) = n) -> 0 <= total_count v rs <= Z.of_nat (length rs) * Z.of_nat n.
Proof.
  induction rs as [|r rs IH]; intros Hn; cbn [total_count foldr length]; [lia|].
  specialize (IH (fun x Hx => Hn x ltac:(by right))). pose proof (count_in_range v (values r)) as Hr.
  rewrite (Hn r) in Hr by (by left). unfold total_count in IH. lia.
Qed.

Lemma table_counts max n t i v : table_ok max n t -> Z.of_nat (length (present (rows t))) < 2^16 ->
  (i < n)%nat -> 0 <= v <= max ->
  exists c, GetColumn t (Z.of_nat i) = Ret c /\ Column_GetSummaryByValue c v = Ret (column_count i v (present (rows t))).
Proof.
  intros Ht Hrows Hi Hv. destruct (lookup_lt_is_Some_2 (columns t) i) as [c Hc]; [rewrite (to_columns _ _ _ Ht); lia|].
  exists c. unfold GetColumn, slice_get. destruct (Z.ltb_spec (Z.of_nat i) 0); [lia|]. rewrite Nat2Z.id, Hc. split; [done|].
  unfold Column_GetSummaryByValue. rewrite (counts_get _ _ _ _ v (to_column _ _ _ Ht i c Hc) Hv). f_equal.
  pose proof (column_count_range i v (present (rows t))). apply u16_small. lia.
Qed.

(** C36: Whatever rows are added, put and removed, the table knows how many of its
    rows (at most 65535) give a node each value, and how many values there are
    in all. *)
Theorem stat_table_counts max n t0 ops t :
  0 <= max < 255 -> 0 <= n < 2^16 -> NewStatTable max n = Ret t0 -> Forall (op_row_ok max) ops ->
  run_table t0 ops = Ret t -> Z.of_nat (length (present (rows t))) < 2^16 ->
  RowCount t = Z.of_nat (length (present (rows t))) /\ ColumnCount t = n /\
  (forall i v, (i < Z.to_nat n)%nat -> 0 <= v <= max ->
     (c ← GetColumn t (Z.of_nat i); Column_GetSummaryByValue c v) = Ret (column_count i v (present (rows t)))) /\
  (forall v, 0 <= v <= max -> Table_GetSummaryByValue t v = Ret (total_count v (present (rows t)))).
Proof.
  intros Hm Hn E0 Hops E Hrows. destruct (NewStatTable_ok max n Hm Hn) as (t1 & E1 & Ht1 & _). rewrite E1 in E0. injection E0 as <-.
  pose proof (run_table_ok _ _ _ _ _ Ht1 Hops E) as Ht. split_and!.
  - exact (to_count _ _ _ Ht).
  - unfold ColumnCount. rewrite (to_columns _ _ _ Ht). lia.
  - intros i v Hi Hv. destruct (table_counts max _ t i v Ht Hrows Hi Hv) as (c & -> & E2). done.
  - intros v Hv. unfold Table_GetSummaryByValue. rewrite (counts_get _ _ _ _ v (to_summary _ _ _ Ht) Hv). f_equal. apply u32_small.
    pose proof (total_count_range v (Z.to_nat n) (present (rows t)) (fun r Hr => proj2 (to_rows _ _ _ Ht r Hr))). nia.
Qed.

(** What the nodes say, as rows. *)
Definition bitset_entry (v : Z) : Prop := 0 <= v < MaxBitsetEntry.

Lemma stat_of_entry_range v : 0 <= stat_of_entry v <= 5.
Proof. unfold stat_of_entry. destruct (IsTimeout v), (IsFraud v), (IsTrusted v); done. Qed.

Lemma StateToConsensusStatRow_ok b : Z.of_nat (length b) < 2^16 ->
  exists r, StateToConsensusStatRow b = Ret r /\ row_fits 5 (length b) r /\ values r = stat_of_entry <$> b.
Proof.
  intros Hb. destruct (filled_row 5 (Z.of_nat (length b)) (stat_of_entry <$> b)) as (r & E & Hr & Hi & Hv); [lia|by rewrite length_fmap|done| |].
  - apply list.Forall_fmap, list.Forall_true. intros v. apply stat_of_entry_range.
  - exists r. split; [exact E|]. split; [|done]. split; [done|by rewrite Hv, length_fmap|lia].
Qed.

(** *** A concrete table *)
Definition sampleRow (vals : list Z) : Row :=
  match StateToConsensusStatRow vals with Ret r => r | Panic _ => mkRow 0 [] [] end.
Lemma sampleRow_ok vals : Z.of_nat (length vals) < 2^16 -> row_ok 5 (sampleRow vals).
Proof. intros Hl. unfold sampleRow. destruct (StateToConsensusStatRow_ok vals Hl) as (r & -> & [Hr _ _] & _). done. Qed.

Definition sampleTableOps : list table_op :=
  [OpAdd (sampleRow [0; 3; 4]); OpPut 4 (sampleRow [1; 2; 4]); OpRemove 0; OpPut 0 (sampleRow [0; 1; 2])].

Lemma stat_table_counts_witness :
  exists t, (t0 ← NewStatTable 5 3; run_table t0 sampleTableOps) = Ret t /\ RowCount t = 2 /\
    (c ← GetColumn t 1; Column_GetSummaryByValue c ConsensusStatTrusted) =
      Ret (column_count 1 ConsensusStatTrusted (present (rows t))).
Proof.
  destruct (NewStatTable_ok 5 3 ltac:(lia) ltac:(lia)) as (t0 & E0 & _). rewrite E0. cbn [mbind go_bind].
  assert (Hs : match run_table t0 sampleTableOps with Ret t => length (present (rows t)) = 2%nat | Panic _ => False end).
  { vm_compute in E0. injection E0 as <-. vm_compute. reflexivity. }
  destruct (run_table t0 sampleTableOps) as [t|] eqn:E; [|done].
  destruct (stat_table_counts 5 3 t0 sampleTableOps t ltac:(lia) ltac:(lia) E0) as (Ec & _ & Hcol & _).
  - repeat apply list.Forall_cons_2; try apply list.Forall_nil_2; try done; by apply sampleRow_ok.
  - exact E.
  - rewrite Hs. done.
  - exists t. split; [done|]. split; [rewrite Ec, Hs; done|]. apply (Hcol 1%nat); [lia|done].
Defined.
