(* ===== verification/ConsensusDecision.v ===== *)
(** * What the round decides of each node
    (src/network/consensus/gcpv2/phasebundle/consensus/consensus_simple.go,
    common/consensuskit/tools.go)

    When the vectors have arrived, each node is included, suspected or called
    fraud by the count of the rows that say so. *)
From S2P Require Import Prelude MemberPower MemberRank NodeStats.

(** ** tools.go *)
Definition BftMinority (nodeCount : Z) : Z := Z.quot (nodeCount - 1) 3.
Definition BftMajority (nodeCount : Z) : Z := nodeCount - BftMinority nodeCount.

(** ** consensus_simple.go *)
Definition CanStartVectorsEarly (aggressivePhasing : bool)
    (consensusMembers countFraud countTrustBySome countTrustByNeighbors : Z) : bool :=
  if negb (countFraud =? 0) then false
  else if aggressivePhasing then true
  else (BftMajority consensusMembers <=? countTrustBySome) || (1 + Z.shiftr consensusMembers 1 <=? countTrustByNeighbors).

Definition consensusDecisionOfNode (tc : list Z) (absMajority : bool) (bftMajority : Z) : go Z :=
  trusted ← Column_GetSummaryByValue tc ConsensusStatTrusted;
  doubted ← Column_GetSummaryByValue tc ConsensusStatDoubted;
  if bftMajority <=? u16 (trusted + doubted) then Ret CbsIncluded
  else
    fraud ← Column_GetSummaryByValue tc ConsensusStatFraud;
    suspect ← Column_GetSummaryByValue tc ConsensusStatFraudSuspect;
    if bftMajority <=? u16 (fraud + suspect) then Ret CbsFraud else Ret CbsSuspected.

(** The loop over the columns. *)
Fixpoint decide_columns (globulaStats : StatTable) (absMajority : bool) (bftMajority : Z) (resultSet : Row)
    (cols : list Z) : go Row :=
  match cols with
  | [] => Ret resultSet
  | i :: cols' =>
      tc ← GetColumn globulaStats i;
      decision ← consensusDecisionOfNode tc absMajority bftMajority;
      r ← Row_Set resultSet i decision;
      decide_columns globulaStats absMajority bftMajority r.1 cols'
  end.

(** A selection: whether it can be improved, and the decisions. *)
Definition SelectOnStopped (globulaStats : StatTable) (timeIsOut : bool) (bftMajorityArg : Z) : go (bool * Row) :=
  let absMajority := negb (RowCount globulaStats <? bftMajorityArg) in
  let bftMajority := u16 bftMajorityArg in
  resultSet ← NewConsensusBitsetRow (ColumnCount globulaStats);
  resultSet ← decide_columns globulaStats absMajority bftMajority resultSet
    (Z.of_nat <$> seq 0 (Z.to_nat (Row_ColumnCount resultSet)));
  Ret (negb absMajority, resultSet).

Definition TrySelectOnAdded (globulaStats : StatTable) (nodeStats : Row) : option (bool * Row) := None.

(** ** The decision by counts *)
Definition decision (bftMajority included fraud : Z) : Z :=
  if bftMajority <=? included then CbsIncluded else if bftMajority <=? fraud then CbsFraud else CbsSuspected.

Definition says_in (i : nat) (r : Row) : Prop :=
  values r !! i = Some ConsensusStatTrusted \/ values r !! i = Some ConsensusStatDoubted.
Definition says_fraud (i : nat) (r : Row) : Prop :=
  values r !! i = Some ConsensusStatFraud \/ values r !! i = Some ConsensusStatFraudSuspect.
#[export] Instance says_in_dec i r : Decision (says_in i r).
Proof. apply _. Defined.
#[export] Instance says_fraud_dec i r : Decision (says_fraud i r).
Proof. apply _. Defined.

Definition tally (P : Row -> Prop) `{!forall r, Decision (P r)} (rs : list Row) : Z := Z.of_nat (length (filter P rs)).

Lemma tally_two i v w rs : v <> w ->
  column_count i v rs + column_count i w rs = tally (fun r => values r !! i = Some v \/ values r !! i = Some w) rs.
Proof.
  intros Hvw. unfold column_count, tally. induction rs as [|r rs IH]; [done|]. rewrite !filter_cons.
  destruct (decide (values r !! i = Some v)) as [E|E]; [|destruct (decide (values r !! i = Some w)) as [E'|E']].
  - rewrite (decide_False (P := values r !! i = Some w)) by congruence. rewrite decide_True by (by left). cbn [length]. lia.
  - rewrite decide_True by (by right). cbn [length]. lia.
  - rewrite decide_False by (intros [|]; congruence). lia.
Qed.

Lemma tally_range P `{!forall r, Decision (P r)} rs : 0 <= tally P rs <= Z.of_nat (length rs).
Proof. unfold tally. pose proof (length_filter P rs). lia. Qed.

Definition decisions (bft : Z) (n : nat) (rs : list Row) : list Z :=
  (fun i => decision bft (tally (says_in i) rs) (tally (says_fraud i) rs)) <$> seq 0 n.

Lemma consensusDecisionOfNode_counts n t i a bft c :
  table_ok 5 n t -> Z.of_nat (length (present (rows t))) < 2^16 -> (i < n)%nat -> GetColumn t (Z.of_nat i) = Ret c ->
  consensusDecisionOfNode c a bft =
    Ret (decision bft (tally (says_in i) (present (rows t))) (tally (says_fraud i) (present (rows t)))).
Proof.
  intros Ht Hrows Hi Hc. unfold consensusDecisionOfNode, decision.
  assert (Hv : forall v, 0 <= v <= 5 -> Column_GetSummaryByValue c v = Ret (column_count i v (present (rows t)))).
  { intros v Hv. destruct (table_counts 5 n t i v Ht Hrows Hi Hv) as (c' & Ec & E). congruence. }
  rewrite !Hv by done. cbn [mbind go_bind]. rewrite (tally_two i ConsensusStatTrusted ConsensusStatDoubted) by done.
  rewrite (tally_two i ConsensusStatFraud ConsensusStatFraudSuspect) by done.
  pose proof (tally_range (says_in i) (present (rows t))). pose proof (tally_range (says_fraud i) (present (rows t))).
  rewrite !u16_small by (split; [apply tally_range|eapply Z.le_lt_trans; [apply tally_range|done]]).
  unfold says_in, says_fraud. by repeat destruct (_ <=? _).
Qed.

Lemma decide_columns_ok n t a bft r i k :
  table_ok 5 n t -> Z.of_nat (length (present (rows t))) < 2^16 ->
  row_ok 4 r -> rowIndex r < 0 -> length (values r) = n -> (i + k = n)%nat ->
  exists r', decide_columns t a bft r (Z.of_nat <$> seq i k) = Ret r' /\ row_ok 4 r' /\ rowIndex r' = rowIndex r /\
    values r' = take i (values r) ++
      ((fun i => decision bft (tally (says_in i) (present (rows t))) (tally (says_fraud i) (present (rows t)))) <$> seq i k).
Proof.
  intros Ht Hrows. revert r i. induction k as [|k IH]; intros r i Hr Hri Hl Hik; cbn [seq fmap list_fmap decide_columns].
  - exists r. split_and!; [done..|]. rewrite take_ge by lia. by rewrite app_nil_r.
  - destruct (table_counts 5 n t i 0 Ht Hrows ltac:(lia) ltac:(lia)) as (c & Ec & _). rewrite Ec. cbn [mbind go_bind].
    rewrite (consensusDecisionOfNode_counts n t i a bft c Ht Hrows ltac:(lia) Ec). cbn [mbind go_bind].
    set (d := decision _ _ _). assert (Hd : 0 <= d <= 4) by (unfold d, decision; by repeat destruct (_ <=? _)).
    destruct (Row_Set_ok 4 r (Z.of_nat i) d Hr Hri ltac:(lia) Hd) as (r1 & prev & -> & Hr1 & Hi1 & Ev & _).
    cbn [mbind go_bind fst]. rewrite Nat2Z.id in Ev.
    destruct (IH r1 (S i) Hr1 ltac:(lia)) as (r2 & E & Hr2 & Hi2 & Ev2); [rewrite Ev, length_insert; lia|lia|].
    exists r2. split_and!; [done|done|lia|]. rewrite Ev2, Ev. rewrite (take_S_r _ i d) by (apply list_lookup_insert_eq; lia).
    rewrite take_insert_ge by lia. by rewrite <- app_assoc.
Qed.

(** The decision of a node is by the number of the rows that count it in, or
    that call it fraud; the selection can be improved while there are fewer
    rows than the majority. *)
Lemma SelectOnStopped_decides n t timeIsOut bft :
  table_ok 5 n t -> Z.of_nat (length (present (rows t))) < 2^16 -> 0 <= bft < 2^16 ->
  exists r, SelectOnStopped t timeIsOut bft = Ret (RowCount t <? bft, r) /\
    values r = decisions bft n (present (rows t)).
Proof.
  intros Ht Hrows Hb. unfold SelectOnStopped. rewrite u16_small by done. unfold ColumnCount. pose proof (to_n _ _ _ Ht).
  rewrite (to_columns _ _ _ Ht). destruct (NewStatRow_ok 4 (Z.of_nat n)) as (r & Er & Hr & Hi & Hv); [lia|lia|].
  unfold NewConsensusBitsetRow. change (u8 (MaxBitsetEntry - 1)) with 4. rewrite Er. cbn [mbind go_bind].
  unfold Row_ColumnCount. rewrite Hv, length_replicate, !Nat2Z.id.
  destruct (decide_columns_ok n t (negb (RowCount t <? bft)) bft r 0 n Ht Hrows Hr ltac:(lia)) as (r' & -> & _ & _ & Ev);
    [rewrite Hv, length_replicate; lia|done|]. cbn [mbind go_bind]. rewrite negb_involutive. by exists r'.
Qed.

(** What a vector says of a node. *)
Definition vector_in (i : nat) (b : list Z) : Prop :=
  match b !! i with Some v => v <> BeTimeout /\ v <> BeFraud | None => False end.
Definition vector_fraud (i : nat) (b : list Z) : Prop := b !! i = Some BeFraud.
#[export] Instance vector_in_dec i b : Decision (vector_in i b).
Proof. unfold vector_in. destruct (b !! i); apply _. Defined.
#[export] Instance vector_fraud_dec i b : Decision (vector_fraud i b).
Proof. unfold vector_fraud. apply _. Defined.

Lemma says_in_vector i r b : values r = stat_of_entry <$> b -> says_in i r <-> vector_in i b.
Proof.
  intros E. unfold says_in, vector_in. rewrite E, list_lookup_fmap. destruct (b !! i) as [v|]; cbn; [|intuition done].
  unfold stat_of_entry, IsTimeout, IsFraud, IsTrusted. change BeTimeout with 3. change BeFraud with 4. change BeBaselineTrust with 2.
  decide_Z; intuition (done || lia).
Qed.
Lemma says_fraud_vector i r b : values r = stat_of_entry <$> b -> says_fraud i r <-> vector_fraud i b.
Proof.
  intros E. unfold says_fraud, vector_fraud. rewrite E, list_lookup_fmap. destruct (b !! i) as [v|]; cbn; [|intuition done].
  unfold stat_of_entry, IsTimeout, IsFraud, IsTrusted. change BeTimeout with 3. change BeFraud with 4. change BeBaselineTrust with 2.
  cbv [ConsensusStatTrusted ConsensusStatDoubted ConsensusStatMissingThere ConsensusStatFraud ConsensusStatFraudSuspect].
  decide_Z; split; intros Hs; try (destruct Hs; congruence); try congruence; left; congruence.
Qed.

Lemma BftMinority_range n : 1 <= n -> 0 <= 3 * BftMinority n < n.
Proof. intros Hn. unfold BftMinority. rewrite Z.quot_div_nonneg by lia.
  pose proof (Z.mul_div_le (n - 1) 3 ltac:(lia)). pose proof (Z.div_pos (n - 1) 3 ltac:(lia) ltac:(lia)). lia.
Qed.
