(* ===== verification/Wire.v ===== *)
(** * Reading and writing packets (src/network/consensus/serialization:
    utils.go, context.go, interfaces.go, errors.go; encoding/binary)

    A serializer and a deserializer are programs over a shared packet context
    and the bytes written, or left to read.  [carries] says that what the one
    writes the other reads, whatever follows it; it is closed under sequence,
    so the codec of a structure is proved field by field. *)
From S2P Require Import Prelude.

(** ** utils.go: bits of an unsigned integer *)
Definition setBit (n pos : Z) : Z := Z.lor n (Z.shiftl 1 pos).
Definition hasBit (n pos : Z) : bool := 0 <? Z.land n (Z.shiftl 1 pos).
Definition clearBit (n pos : Z) : Z := Z.ldiff n (Z.shiftl 1 pos).
Definition toggleBit (n pos : Z) (val : bool) : Z := if val then setBit n pos else clearBit n pos.
Definition uintFromBits (bits start end_ : Z) : Z :=
  Z.land (Z.shiftl 1 (end_ - start + 1) - 1) (Z.shiftr bits start).

(** ** unified_protocol.go: the header of a packet *)
Record Header : Type := mkHeader {
  ReceiverID : Z;
  ProtocolAndPacketType : Z;
  PacketFlags : Z;
  HeaderAndPayloadLength : Z;
  SourceID : Z;
  TargetID : Z;
}.

Definition with_length (v : Z) (h : Header) : Header :=
  mkHeader (ReceiverID h) (ProtocolAndPacketType h) (PacketFlags h) v (SourceID h) (TargetID h).

(** ** context.go: the context of a packet *)
Inductive FieldContext : Type := NoContext | ContextMembershipAnnouncement | ContextNeighbourAnnouncement.
#[export] Instance FieldContext_eq_dec : EqDecision FieldContext.
Proof. solve_decision. Defined.

Record packetContext : Type := mkContext {
  header : Header;
  fieldContext : FieldContext;
  neighbourNodeID : Z;
  announcedJoinerNodeID : Z;
}.

(** An identifier that is absent is zero (insolar/nodenetwork.go). *)
Definition IsAbsent (v : Z) : bool := v =? 0.

Definition newPacketContext (h : Header) : packetContext := mkContext h NoContext 0 0.
Definition InContext (c : packetContext) (f : FieldContext) : bool := bool_decide (fieldContext c = f).
Definition SetInContext (f : FieldContext) (c : packetContext) : packetContext :=
  mkContext (header c) f (neighbourNodeID c) (announcedJoinerNodeID c).
Definition GetNeighbourNodeID (c : packetContext) : go Z :=
  if IsAbsent (neighbourNodeID c) then Panic "illegal value" else Ret (neighbourNodeID c).
Definition SetNeighbourNodeID (nodeID : Z) (c : packetContext) : packetContext :=
  mkContext (header c) (fieldContext c) nodeID (announcedJoinerNodeID c).
Definition GetAnnouncedJoinerNodeID (c : packetContext) : Z := announcedJoinerNodeID c.
Definition SetAnnouncedJoinerNodeID (nodeID : Z) (c : packetContext) : go packetContext :=
  if IsAbsent nodeID then Panic "illegal value"
  else Ret (mkContext (header c) (fieldContext c) (neighbourNodeID c) nodeID).

(** The buffer written so far; the reader of a byte slice, with the count of
    [trackableReader]. *)
Record writer : Type := mkWriter { w_ctx : packetContext; written : list Z }.
Record reader : Type := mkReader { r_ctx : packetContext; unread : list Z; totalRead : Z }.

(** What a program may do with the context, as reader or writer. *)
Class HasContext (S : Type) : Type := {
  get_ctx : S -> packetContext;
  set_ctx : packetContext -> S -> S;
}.
#[export] Instance writer_context : HasContext writer :=
  {| get_ctx := w_ctx; set_ctx c s := mkWriter c (written s) |}.
#[export] Instance reader_context : HasContext reader :=
  {| get_ctx := r_ctx; set_ctx c s := mkReader c (unread s) (totalRead s) |}.

Definition ask {S} `{HasContext S} {A} (f : packetContext -> go A) : io S A :=
  fun s => lift_go (f (get_ctx s)) s.
Definition tell {S} `{HasContext S} (f : packetContext -> go packetContext) : io S unit := fun s =>
  match f (get_ctx s) with Ret c => Ret (set_ctx c s, Good tt) | Panic msg => Panic msg end.
(** [defer f()], run whatever the outcome of the rest of the function. *)
Definition defer {S} `{HasContext S} {A} (f : packetContext -> packetContext) (m : io S A) : io S A := fun s =>
  match m s with Ret (s', r) => Ret (set_ctx (f (get_ctx s')) s', r) | Panic msg => Panic msg end.

(** ** encoding/binary, big endian *)
Fixpoint be (n : nat) (v : Z) : list Z :=
  match n with O => [] | S k => u8 (Z.shiftr v (8 * Z.of_nat k)) :: be k v end.
Definition of_be (b : list Z) : Z := foldl (fun acc x => Z.lor (Z.shiftl acc 8) x) 0 b.

(** Writing to a [bytes.Buffer] does not fail. *)
Definition write_bytes (b : list Z) : io writer unit := modify (fun s => mkWriter (w_ctx s) (written s ++ b)).
Definition write_uint (n : nat) (v : Z) : io writer unit := write_bytes (be n v).

(** [io.ReadFull] of a [bytes.Reader]. *)
Definition read_bytes (n : nat) : io reader (list Z) := fun s =>
  if (length (unread s) <? n)%nat then
    Ret (mkReader (r_ctx s) [] (totalRead s + Z.of_nat (length (unread s))),
         Fail (Errorf (if (length (unread s) =? 0)%nat then "EOF" else "unexpected EOF")))
  else Ret (mkReader (r_ctx s) (drop n (unread s)) (totalRead s + Z.of_nat n), Good (take n (unread s))).
Definition read_uint (n : nat) : io reader Z := b ← read_bytes n; mret (of_be b).

(** [NewCapturingReader] around the reads of [m]: of a byte slice it captures
    exactly what [m] consumes. *)
Definition capturing {A} (m : io reader A) : io reader (A * list Z) := fun s =>
  match m s with
  | Ret (s', Good a) => Ret (s', Good (a, take (length (unread s) - length (unread s')) (unread s)))
  | Ret (s', Fail e) => Ret (s', Fail e)
  | Panic msg => Panic msg
  end.

(** [for i := 0; i < n; i++]: an error stops it. *)
Fixpoint for_each {S A} (n : nat) (i : Z) (f : Z -> io S A) : io S (list A) :=
  match n with
  | O => mret []
  | S k => a ← f i; l ← for_each k (i + 1) f; mret (a :: l)
  end.

Definition ErrPayloadLengthMismatch : error := Errorf "payload length mismatch - expected: %d, actual: %d".
Definition ErrMalformedPulseNumber (e : error) : error := Wrap e "malformed pulse number".
Definition ErrMalformedHeader (e : error) : error := Wrap e "malformed header".
Definition ErrMalformedPacketBody (e : error) : error := Wrap e "malformed packet body".
Definition ErrMalformedPacketSignature (e : error) : error := Wrap e "invalid packet signature".

(** ** Facts of the codec *)
Definition fits (n : nat) (v : Z) : Prop := 0 <= v < 2^(8 * Z.of_nat n).

Lemma length_be n v : length (be n v) = n.
Proof. induction n; simpl; auto. Qed.

Lemma of_be_snoc b x : of_be (b ++ [x]) = Z.lor (Z.shiftl (of_be b) 8) x.
Proof. unfold of_be. by rewrite foldl_app. Qed.

Lemma be_snoc n v : be (S n) v = be n (Z.shiftr v 8) ++ [u8 v].
Proof.
  revert v. induction n as [|n IH]; intros v; [done|].
  change (be (S (S n)) v) with (u8 (Z.shiftr v (8 * Z.of_nat (S n))) :: be (S n) v). rewrite IH.
  cbn [be app]. f_equal. rewrite Z.shiftr_shiftr by lia. f_equal. f_equal. lia.
Qed.

Lemma of_be_be n v : fits n v -> of_be (be n v) = v.
Proof.
  unfold fits. revert v. induction n as [|n IH]; intros v Hv.
  - cbn. change (2 ^ (8 * Z.of_nat 0)) with 1 in Hv. lia.
  - assert (E : 2^(8 * Z.of_nat (S n)) = 2^(8 * Z.of_nat n) * 2^8) by (rewrite <- Z.pow_add_r by lia; f_equal; lia).
    rewrite be_snoc, of_be_snoc, IH.
    + rewrite Z.shiftl_mul_pow2, Z.shiftr_div_pow2 by lia. pose proof (u8_bound v). rewrite (lor_add _ _ 8); [| lia | |done].
      * unfold u8. pose proof (Z.div_mod v (2^8)). lia.
      * apply Z_mod_mult.
    + rewrite Z.shiftr_div_pow2 by lia. split; [apply Z.div_pos; lia|]. apply Z.div_lt_upper_bound; lia.
Qed.

(** ** What is written can be read *)

(** The length field is set after the body was written, so a writer and a
    reader may see different ones. *)
Definition relen (l : Z) (c : packetContext) : packetContext :=
  mkContext (with_length l (header c)) (fieldContext c) (neighbourNodeID c) (announcedJoinerNodeID c).

(** Over a context that goes from [c] to [c'], the bytes [bs] are what [w]
    writes, whatever was written before, and [r] reads them as [a], whatever
    follows. *)
Definition carries_as {A} (bs : list Z) (c c' : packetContext) (w : io writer unit) (r : io reader A) (a : A) : Prop :=
  (forall l out, w (mkWriter (relen l c) out) = Ret (mkWriter (relen l c') (out ++ bs), Good tt)) /\
  (forall l rest n,
     r (mkReader (relen l c) (bs ++ rest) n) = Ret (mkReader (relen l c') rest (n + Z.of_nat (length bs)), Good a)).
Definition carries {A} (c c' : packetContext) (w : io writer unit) (r : io reader A) (a : A) : Prop :=
  exists bs, carries_as bs c c' w r a.

Lemma carries_as_ret {A} c (a : A) : carries_as [] c c (mret tt) (mret a) a.
Proof. split; intros; cbn; [by rewrite app_nil_r|]. by rewrite Z.add_0_r. Qed.

Lemma carries_as_bind {A B} bs1 bs2 c c1 c2 (w1 w2 : io writer unit) (r1 : io reader A) (r2 : A -> io reader B) a b :
  carries_as bs1 c c1 w1 r1 a -> carries_as bs2 c1 c2 w2 (r2 a) b ->
  carries_as (bs1 ++ bs2) c c2 (w1;; w2) (r1 ≫= r2) b.
Proof.
  intros [Hw1 Hr1] [Hw2 Hr2]. split.
  - intros l out. unfold mbind, io_bind. rewrite Hw1. rewrite Hw2. by rewrite (assoc_L (++)).
  - intros l rest n. unfold mbind, io_bind. rewrite <- (assoc_L (++)), Hr1, Hr2, length_app. do 3 f_equal. lia.
Qed.

Lemma carries_as_wrapped {A} bs c c' (w : io writer unit) (r : io reader A) a msg msg' :
  carries_as bs c c' w r a -> carries_as bs c c' (wrapped msg w) (wrapped msg' r) a.
Proof. intros [Hw Hr]. by split; intros; unfold wrapped; rewrite ?Hw, ?Hr. Qed.

Lemma carries_as_bytes c n bs : length bs = n -> carries_as bs c c (write_bytes bs) (read_bytes n) bs.
Proof.
  intros <-. split; intros; [done|]. unfold read_bytes. cbn [unread r_ctx totalRead].
  rewrite (proj2 (Nat.ltb_ge _ _)) by (rewrite length_app; lia). by rewrite drop_app_length, take_app_length.
Qed.

Lemma carries_as_uint c n v : fits n v -> carries_as (be n v) c c (write_uint n v) (read_uint n) v.
Proof.
  intros Hv. destruct (carries_as_bytes c n (be n v) (length_be n v)) as [Hw Hr]. split; [exact Hw|].
  intros l rest m. unfold read_uint, mbind, io_bind. rewrite Hr. cbn. by rewrite of_be_be.
Qed.

Lemma carries_as_ask {A B} bs c c' (f : packetContext -> go B) x (w : B -> io writer unit) (r : B -> io reader A) a :
  (forall l, f (relen l c) = Ret x) -> carries_as bs c c' (w x) (r x) a -> carries_as bs c c' (ask f ≫= w) (ask f ≫= r) a.
Proof. intros E [Hw Hr]. split; intros; unfold mbind, io_bind, ask; cbn; rewrite E; cbn; auto. Qed.

Lemma carries_as_tell {A} bs c c1 c' (f : packetContext -> go packetContext) (w : io writer unit) (r : io reader A) a :
  (forall l, f (relen l c) = Ret (relen l c1)) -> carries_as bs c1 c' w r a -> carries_as bs c c' (tell f;; w) (tell f;; r) a.
Proof. intros E [Hw Hr]. split; intros; unfold mbind, io_bind, tell; cbn; rewrite E; cbn; auto. Qed.

Lemma carries_as_defer {A} bs c c' (f : packetContext -> packetContext) (w : io writer unit) (r : io reader A) a :
  (forall l, f (relen l c') = relen l (f c')) ->
  carries_as bs c c' w r a -> carries_as bs c (f c') (defer f w) (defer f r) a.
Proof. intros Hf [Hw Hr]. by split; intros; unfold defer; rewrite ?Hw, ?Hr; cbn; rewrite Hf. Qed.

Lemma carries_as_capturing {A} bs c c' (w : io writer unit) (r : io reader A) a :
  carries_as bs c c' w r a -> carries_as bs c c' w (capturing r) (a, bs).
Proof.
  intros [Hw Hr]. split; [done|]. intros l rest n. unfold capturing. rewrite Hr. cbn [unread].
  rewrite length_app, Nat.add_sub, take_app_length. done.
Qed.

Lemma carries_as_ext {A} bs c c' (w w' : io writer unit) (r r' : io reader A) a :
  carries_as bs c c' w r a -> (forall s, w s = w' s) -> (forall s, r s = r' s) -> carries_as bs c c' w' r' a.
Proof. intros [Hw Hr] Ew Er. split; intros; [by rewrite <- Ew|by rewrite <- Er]. Qed.

Lemma carries_bind {A B} c c1 c2 (w1 w2 : io writer unit) (r1 : io reader A) (r2 : A -> io reader B) a b :
  carries c c1 w1 r1 a -> carries c1 c2 w2 (r2 a) b -> carries c c2 (w1;; w2) (r1 ≫= r2) b.
Proof. intros [bs1 H1] [bs2 H2]. exists (bs1 ++ bs2). eapply carries_as_bind; eauto. Qed.

Lemma carries_ret {A} c (a : A) : carries c c (mret tt) (mret a) a.
Proof. eexists. apply carries_as_ret. Qed.

(** The last field, with the value built from it. *)
Lemma carries_map {A B} c c' (w : io writer unit) (r : io reader A) a (f : A -> B) :
  carries c c' w r a -> carries c c' w (x ← r; mret (f x)) (f a).
Proof. intros (bs & Hw & Hr). exists bs. split; [done|]. intros. unfold mbind, io_bind. by rewrite Hr. Qed.

Lemma carries_wrapped {A} c c' (w : io writer unit) (r : io reader A) a msg msg' :
  carries c c' w r a -> carries c c' (wrapped msg w) (wrapped msg' r) a.
Proof. intros [bs H]. exists bs. by apply carries_as_wrapped. Qed.

Lemma carries_bytes c n bs : length bs = n -> carries c c (write_bytes bs) (read_bytes n) bs.
Proof. intros H. exists bs. by apply carries_as_bytes. Qed.

Lemma carries_uint c n v : fits n v -> carries c c (write_uint n v) (read_uint n) v.
Proof. intros H. exists (be n v). by apply carries_as_uint. Qed.

Lemma carries_ask {A B} c c' (f : packetContext -> go B) x (w : B -> io writer unit) (r : B -> io reader A) a :
  (forall l, f (relen l c) = Ret x) -> carries c c' (w x) (r x) a -> carries c c' (ask f ≫= w) (ask f ≫= r) a.
Proof. intros E [bs H]. exists bs. by eapply carries_as_ask. Qed.

Lemma carries_tell {A} c c1 c' (f : packetContext -> go packetContext) (w : io writer unit) (r : io reader A) a :
  (forall l, f (relen l c) = Ret (relen l c1)) -> carries c1 c' w r a -> carries c c' (tell f;; w) (tell f;; r) a.
Proof. intros E [bs H]. exists bs. by eapply carries_as_tell. Qed.

Lemma carries_defer {A} c c' (f : packetContext -> packetContext) (w : io writer unit) (r : io reader A) a :
  (forall l, f (relen l c') = relen l (f c')) ->
  carries c c' w r a -> carries c (f c') (defer f w) (defer f r) a.
Proof. intros Hf [bs H]. exists bs. by apply carries_as_defer. Qed.

Lemma carries_guard {A} c c' (w : io writer unit) (r : io reader A) a e :
  carries c c' w r a -> carries c c' w (guard_io false e;; r) a.
Proof. done. Qed.

(** A part that is sent under a condition both sides know. *)
Lemma carries_if {A} (b : bool) c c' (w : io writer unit) (r : io reader A) (a zero : A) :
  (b = true -> carries c c' w r a) -> (b = false -> c' = c) ->
  carries c c' (if b then w else mret tt) (if b then r else mret zero) (if b then a else zero).
Proof. destruct b; intros H E; [by apply H|]. rewrite E by done. apply carries_ret. Qed.

(** The elements of a list, in a context that stays. *)
Lemma carries_each {A} c (xs : list A) (w : Z -> io writer unit) (r : Z -> io reader A) i :
  (forall k x, xs !! k = Some x -> carries c c (w (i + Z.of_nat k)) (r (i + Z.of_nat k)) x) ->
  carries c c (for_each (length xs) i w;; mret tt) (for_each (length xs) i r) xs.
Proof.
  revert i. induction xs as [|x xs IH]; intros i H.
  - exists []. split; intros; cbn; [by rewrite app_nil_r|by rewrite Z.add_0_r].
  - destruct (H 0%nat x eq_refl) as (bs1 & Hw1 & Hr1). rewrite Z.add_0_r in Hw1, Hr1.
    destruct (IH (i + 1)) as (bs2 & Hw2 & Hr2).
    { intros k y Hk. replace (i + 1 + Z.of_nat k) with (i + Z.of_nat (S k)) by lia. by apply (H (S k) y). }
    exists (bs1 ++ bs2). split.
    + intros l out. specialize (Hw2 l (out ++ bs1)). revert Hw2. cbn [length for_each]. unfold mbind, io_bind.
      rewrite Hw1. destruct (for_each (length xs) (i + 1) w (mkWriter (relen l c) (out ++ bs1))) as [[s [ys|e]]|]; cbn; try done.
      by rewrite (assoc_L (++)).
    + intros l rest n. cbn [length for_each]. unfold mbind, io_bind. rewrite <- (assoc_L (++)), Hr1, Hr2, length_app. cbn.
      by rewrite Nat2Z.inj_add, Z.add_assoc.
Qed.

Create HintDb wire.
#[export] Hint Resolve carries_bytes carries_uint carries_ret : wire.

(** ** Reading anything *)

(** A reader consumes a prefix of what is left, counts it, keeps an invariant
    of the context, and does not panic if [ok]. *)
Definition consumes (ok : Prop) (I : packetContext -> Prop) {A} (m : io reader A) : Prop :=
  forall s, I (r_ctx s) ->
  wp ok m s (fun s' _ => I (r_ctx s') /\
    exists k, unread s = k ++ unread s' /\ totalRead s' = totalRead s + Z.of_nat (length k)).

Section Consumes.
Context (ok : Prop) (I : packetContext -> Prop).

Lemma consumes_ret {A} (r : result A) : consumes ok I (lift_result r).
Proof. intros s Hs. split; [done|]. exists []. split; [done|]. cbn. lia. Qed.
Lemma consumes_mret {A} (a : A) : consumes ok I (mret a).
Proof. exact (consumes_ret (Good a)). Qed.
Lemma consumes_throw {A} e : consumes ok I (throw e : io reader A).
Proof. exact (consumes_ret (Fail e)). Qed.
Lemma consumes_guard b e : consumes ok I (guard_io b e).
Proof. destruct b; [apply consumes_throw|apply consumes_mret]. Qed.

Lemma consumes_bind {A B} (m : io reader A) (f : A -> io reader B) :
  consumes ok I m -> (forall a, consumes ok I (f a)) -> consumes ok I (m ≫= f).
Proof.
  intros Hm Hf s Hs. apply wp_bind. eapply wp_mono; [by apply Hm|]. intros s1 [a|e] (Hh & k1 & E1 & N1); cbn beta.
  - eapply wp_mono; [by apply Hf|]. intros s2 r (Hh2 & k2 & E2 & N2). split; [done|]. exists (k1 ++ k2).
    rewrite E1, E2, (assoc_L (++)), length_app. split; [done|lia].
  - split; [done|]. by exists k1.
Qed.

Lemma consumes_wrapped {A} msg (m : io reader A) : consumes ok I m -> consumes ok I (wrapped msg m).
Proof. intros Hm s Hs. apply wp_wrapped. eapply wp_mono; [by apply Hm|]. by intros s' r H. Qed.

Lemma consumes_bytes n : consumes ok I (read_bytes n).
Proof.
  intros s Hs. unfold wp, read_bytes. destruct (Nat.ltb_spec (length (unread s)) n); cbn; (split; [done|]).
  - exists (unread s). by rewrite app_nil_r.
  - exists (take n (unread s)). rewrite take_drop, length_take. split; [done|]. rewrite Nat.min_l by lia. done.
Qed.

Lemma consumes_uint n : consumes ok I (read_uint n).
Proof. apply consumes_bind; [apply consumes_bytes|]. intros b. apply consumes_mret. Qed.

Lemma consumes_ask {A} (f : packetContext -> go A) :
  (forall c, I c -> ok -> exists x, f c = Ret x) -> consumes ok I (ask f).
Proof.
  intros Hf s Hs. unfold wp, ask. cbn. destruct (f (r_ctx s)) as [x|] eqn:E; cbn.
  - split; [done|]. exists []. split; [done|]. cbn. lia.
  - intros Hok. destruct (Hf _ Hs Hok) as (y & E'). congruence.
Qed.
Lemma consumes_known {A} (f : packetContext -> A) : consumes ok I (ask (fun c => Ret (f c))).
Proof. apply consumes_ask. by eexists. Qed.

Lemma consumes_tell (f : packetContext -> go packetContext) :
  (forall c, I c -> match f c with Ret c' => I c' | Panic _ => ~ ok end) -> consumes ok I (tell f).
Proof.
  intros Hf s Hs. unfold wp, tell. cbn. specialize (Hf _ Hs). destruct (f (r_ctx s)) as [c'|]; cbn in *; [|done].
  split; [done|]. exists []. split; [done|]. cbn. lia.
Qed.

Lemma consumes_defer {A} (f : packetContext -> packetContext) (m : io reader A) :
  (forall c, I c -> I (f c)) -> consumes ok I m -> consumes ok I (defer f m).
Proof.
  intros Hf Hm s Hs. specialize (Hm s Hs). unfold wp, defer in *. destruct (m s) as [[s' r]|]; [|done].
  cbn in *. destruct Hm as [Hc Hk]. split; [by apply Hf|done].
Qed.

Lemma consumes_capturing {A} (m : io reader A) : consumes ok I m -> consumes ok I (capturing m).
Proof. intros Hm s Hs. specialize (Hm s Hs). unfold wp, capturing in *. by destruct (m s) as [[s' [a|e]]|]. Qed.

Lemma consumes_each {A} n i (f : Z -> io reader A) :
  (forall k, consumes ok I (f k)) -> consumes ok I (for_each n i f).
Proof.
  intros Hf. revert i. induction n as [|n IH]; intros i; cbn [for_each]; [apply consumes_mret|].
  apply consumes_bind; [done|]. intros a. apply consumes_bind; [done|]. intros l. apply consumes_mret.
Qed.
End Consumes.

(** A branch that is not taken if [ok]. *)
Lemma consumes_ask_bool (ok : Prop) I {A} (f : packetContext -> bool) (k : bool -> io reader A) :
  (forall c, I c -> ok -> f c = false) -> consumes ok I (k false) -> consumes False I (k true) ->
  consumes ok I (ask (fun c => Ret (f c)) ≫= k).
Proof.
  intros Hf Hfalse Htrue s Hs. unfold ask, lift_go, mbind, io_bind, wp. cbn.
  destruct (f (r_ctx s)) eqn:E; [|exact (Hfalse s Hs)].
  apply (wp_ok False ok (k true) s); [|exact (Htrue s Hs)]. intros Hok. by rewrite (Hf _ Hs Hok) in E.
Qed.
