(* ===== verification/PacketHeader.v ===== *)
(** * The header of a packet (src/network/consensus/serialization:
    unified_protocol.go; gcpv2/api/phases/packet_types_phases.go)

    Types, lengths and flags share bytes of the header; each setter changes
    its own bits only. *)
From S2P Require Import Prelude Wire.

(** ** packet_types_phases.go *)
Definition PacketPhase0 : Z := 0.
Definition PacketPhase1 : Z := 1.
Definition PacketPhase2 : Z := 2.
Definition PacketPhase3 : Z := 3.
Definition PacketPhase4 : Z := 4.
Definition PacketPulsarPulse : Z := 8.
Definition PacketReqPhase1 : Z := 9.
Definition PacketExtPhase2 : Z := 10.
Definition PacketFastPhase3 : Z := 11.
Definition maxPacketType : Z := 12.
Definition PacketOffPhase : Z := 8.

Definition IsPhasedPacket (p : Z) : bool := p <? PacketOffPhase.
Definition IsMemberPacket (p : Z) : bool := (p <? maxPacketType) && negb (p =? PacketPulsarPulse).
Definition GetPayloadEquivalent (p : Z) : Z :=
  if p =? PacketReqPhase1 then PacketPhase1
  else if p =? PacketExtPhase2 then PacketPhase2
  else if p =? PacketFastPhase3 then PacketPhase3
  else p.

(** ** unified_protocol.go *)
Definition packetTypeMask : Z := Z.shiftl 1 4 - 1.
Definition protocolTypeShift : Z := 4.
Definition protocolTypeMax : Z := Z.shiftl 1 4 - 1.
Definition payloadLengthMask : Z := Z.shiftl 1 14 - 1.
Definition pulseNumberMask : Z := Z.shiftl 1 30 - 1.

Definition flagIsRelayRestricted : Z := 0.
Definition flagIsBodyEncrypted : Z := 1.
Definition FlagHasPulsePacket : Z := 0.
Definition FlagSelfIntro1 : Z := 1.
Definition FlagSelfIntro2 : Z := 2.
Definition FlagHasJoinerExt : Z := 3.
Definition reservedFlagSize : Z := 2.
Definition maxFlagIndex : Z := 5.
Definition ProtocolTypePulsar : Z := 0.
Definition ProtocolTypeGlobulaConsensus : Z := 1.

Definition with_types (v : Z) (h : Header) : Header :=
  mkHeader (ReceiverID h) v (PacketFlags h) (HeaderAndPayloadLength h) (SourceID h) (TargetID h).
Definition with_flags (v : Z) (h : Header) : Header :=
  mkHeader (ReceiverID h) (ProtocolAndPacketType h) v (HeaderAndPayloadLength h) (SourceID h) (TargetID h).

Definition GetPacketType (h : Header) : Z := Z.land (ProtocolAndPacketType h) packetTypeMask.
Definition setPacketType (packetType : Z) (h : Header) : go Header :=
  if packetTypeMask <? packetType then Panic "invalid packet type"
  else
    let v := Z.lxor (ProtocolAndPacketType h) (Z.land (ProtocolAndPacketType h) packetTypeMask) in
    Ret (with_types (Z.lor v packetType) h).
Definition GetProtocolType (h : Header) : Z := Z.shiftr (ProtocolAndPacketType h) protocolTypeShift.
Definition setProtocolType (protocolType : Z) (h : Header) : go Header :=
  if protocolTypeMax <? protocolType then Panic "invalid protocol type"
  else Ret (with_types (Z.lor (ProtocolAndPacketType h) (u8 (Z.shiftl protocolType protocolTypeShift))) h).
Definition getPayloadLength (h : Header) : Z := Z.land (HeaderAndPayloadLength h) payloadLengthMask.
Definition setPayloadLength (payloadLength : Z) (h : Header) : go Header :=
  if payloadLengthMask <? payloadLength then Panic "invalid payload length"
  else
    let v := Z.lxor (HeaderAndPayloadLength h) (Z.land (HeaderAndPayloadLength h) payloadLengthMask) in
    Ret (with_length (Z.lor v payloadLength) h).

Definition hasFlag (h : Header) (f : Z) : bool := hasBit (PacketFlags h) f.
Definition clearFlag (f : Z) (h : Header) : Header := with_flags (u8 (clearBit (PacketFlags h) f)) h.
Definition setFlag (f : Z) (h : Header) : Header := with_flags (u8 (setBit (PacketFlags h) f)) h.
Definition toggleFlag (f : Z) (val : bool) (h : Header) : Header := with_flags (u8 (toggleBit (PacketFlags h) f val)) h.
Definition getFlagRangeInt (h : Header) (from to : Z) : Z := u8 (uintFromBits (PacketFlags h) from to).

Definition HasFlag (h : Header) (f : Z) : go bool :=
  if maxFlagIndex <? f then Panic "invalid flag index" else Ret (hasFlag h (f + reservedFlagSize)).
Definition ClearFlag (f : Z) (h : Header) : go Header :=
  if maxFlagIndex <? f then Panic "invalid flag index" else Ret (clearFlag (f + reservedFlagSize) h).
Definition SetFlag (f : Z) (h : Header) : go Header :=
  if maxFlagIndex <? f then Panic "invalid flag index" else Ret (setFlag (f + reservedFlagSize) h).
Definition GetFlagRangeInt (h : Header) (from to : Z) : go Z :=
  if to <? from then Panic "invalid from range"
  else if maxFlagIndex <? to then Panic "invalid to range"
  else Ret (getFlagRangeInt h (from + reservedFlagSize) (to + reservedFlagSize)).

Definition IsRelayRestricted (h : Header) : bool := hasFlag h flagIsRelayRestricted.
Definition setIsRelayRestricted (restricted : bool) (h : Header) : Header := toggleFlag flagIsRelayRestricted restricted h.
Definition IsBodyEncrypted (h : Header) : bool := hasFlag h flagIsBodyEncrypted.
Definition setIsBodyEncrypted (encrypted : bool) (h : Header) : Header := toggleFlag flagIsBodyEncrypted encrypted h.

Definition headerSize : Z := 16.
Definition signatureSize : Z := 64.

(** [binary.Write] of the structure. *)
Definition Header_bytes (h : Header) : list Z :=
  be 4 (ReceiverID h) ++ be 1 (ProtocolAndPacketType h) ++ be 1 (PacketFlags h) ++ be 2 (HeaderAndPayloadLength h) ++
  be 4 (SourceID h) ++ be 4 (TargetID h).
Definition Header_of_bytes (b : list Z) : Header :=
  mkHeader (of_be (take 4 b)) (of_be (take 1 (drop 4 b))) (of_be (take 1 (drop 5 b))) (of_be (take 2 (drop 6 b)))
    (of_be (take 4 (drop 8 b))) (of_be (take 4 (drop 12 b))).
(** [DeserializeFrom]: the structure is read at once. *)
Definition Header_DeserializeFrom : io reader Header := b ← read_bytes 16; mret (Header_of_bytes b).

(** ** The bytes of a header *)
Record header_ok (h : Header) : Prop := {
  ho_receiver : fits 4 (ReceiverID h);
  ho_types : fits 1 (ProtocolAndPacketType h);
  ho_flags : fits 1 (PacketFlags h);
  ho_length : fits 2 (HeaderAndPayloadLength h);
  ho_source : fits 4 (SourceID h);
  ho_target : fits 4 (TargetID h);
}.

Lemma length_Header_bytes h : length (Header_bytes h) = 16%nat.
Proof. done. Qed.

Lemma Header_of_bytes_bytes h : header_ok h -> Header_of_bytes (Header_bytes h) = h.
Proof.
  intros [H1 H2 H3 H4 H5 H6]. destruct h as [a b c d e f]; cbn [ReceiverID ProtocolAndPacketType PacketFlags HeaderAndPayloadLength SourceID TargetID] in *.
  unfold Header_bytes, Header_of_bytes. cbn [ReceiverID ProtocolAndPacketType PacketFlags HeaderAndPayloadLength SourceID TargetID].
  set (b4 := be 4 a). set (b1 := be 1 b). set (c1 := be 1 c). set (d2 := be 2 d). set (e4 := be 4 e). set (f4 := be 4 f).
  rewrite <- (of_be_be 4 a H1), <- (of_be_be 1 b H2), <- (of_be_be 1 c H3), <- (of_be_be 2 d H4), <- (of_be_be 4 e H5),
    <- (of_be_be 4 f H6) by done. done.
Qed.

(** ** The bits of a header *)
Lemma hasBit_testbit n pos : 0 <= n -> 0 <= pos -> hasBit n pos = Z.testbit n pos.
Proof.
  intros Hn Hp. unfold hasBit. destruct (Z.testbit n pos) eqn:E.
  - apply Z.ltb_lt. assert (0 <= Z.land n (Z.shiftl 1 pos)) by (apply Z.land_nonneg; by left).
    assert (Z.land n (Z.shiftl 1 pos) <> 0); [|lia]. intros E0. apply (f_equal (fun z => Z.testbit z pos)) in E0.
    by rewrite Z.land_spec, E, Z.shiftl_spec, Z.sub_diag, Z.bits_0 in E0 by done.
  - apply Z.ltb_ge. apply Z.eq_le_incl. apply Z.bits_inj'. intros i Hi. rewrite Z.land_spec, Z.shiftl_spec, Z.bits_0 by done.
    destruct (decide (i = pos)) as [->|]; [by rewrite E|]. apply andb_false_intro2.
    destruct (Z.lt_ge_cases i pos); [by apply Z.testbit_neg_r; lia|]. change 1 with (2^0). apply Z.pow2_bits_false. lia.
Qed.

Lemma below_bits k x : 0 <= k -> (forall i, k <= i -> Z.testbit x i = false) -> 0 <= x < 2^k.
Proof.
  intros Hk Hx. assert (E : x = x mod 2^k); [|rewrite E; apply Z.mod_pos_bound; lia].
  apply Z.bits_inj'. intros i Hi. destruct (Z.lt_ge_cases i k).
  - by rewrite Z.mod_pow2_bits_low.
  - rewrite Z.mod_pow2_bits_high by lia. by apply Hx.
Qed.

Lemma high_bit k x i : 0 <= x < 2^k -> k <= i -> Z.testbit x i = false.
Proof.
  intros Hx Hi. assert (0 <= k) by (destruct (Z.lt_ge_cases k 0); [rewrite Z.pow_neg_r in Hx by done; lia|done]).
  rewrite <- (Z.mod_small x (2^k)) by done. apply Z.mod_pow2_bits_high. lia.
Qed.

(** The flags of a byte after [SetFlag] and [ClearFlag]. *)
Lemma u8_testbit z i : 0 <= i -> Z.testbit (u8 z) i = Z.testbit z i && (i <? 8).
Proof.
  intros Hi. unfold u8. destruct (Z.ltb_spec i 8).
  - rewrite Z.mod_pow2_bits_low by done. by rewrite andb_true_r.
  - rewrite Z.mod_pow2_bits_high by lia. by rewrite andb_false_r.
Qed.

Lemma setFlag_testbit f h i : 0 <= f < 8 -> 0 <= i ->
  Z.testbit (PacketFlags (setFlag f h)) i = (Z.testbit (PacketFlags h) i || (i =? f)) && (i <? 8).
Proof.
  intros Hf Hi. unfold setFlag, setBit. cbn [PacketFlags with_flags]. rewrite u8_testbit by done. f_equal.
  rewrite Z.lor_spec. f_equal. rewrite Z.shiftl_1_l, Z.pow2_bits_eqb by lia. apply Z.eqb_sym.
Qed.

Lemma clearFlag_testbit f h i : 0 <= f < 8 -> 0 <= i ->
  Z.testbit (PacketFlags (clearFlag f h)) i = Z.testbit (PacketFlags h) i && negb (i =? f) && (i <? 8).
Proof.
  intros Hf Hi. unfold clearFlag, clearBit. cbn [PacketFlags with_flags]. rewrite u8_testbit by done. f_equal.
  rewrite Z.ldiff_spec. f_equal. rewrite Z.shiftl_1_l, Z.pow2_bits_eqb by lia. by rewrite Z.eqb_sym.
Qed.

(** The payload length and what else its field holds. *)
Lemma setPayloadLength_spec n h : 0 <= HeaderAndPayloadLength h < 2^16 -> 0 <= n ->
  if payloadLengthMask <? n then setPayloadLength n h = Panic "invalid payload length"
  else exists h', setPayloadLength n h = Ret h' /\ getPayloadLength h' = n /\ (header_ok h -> header_ok h') /\
    h' = with_length (HeaderAndPayloadLength h') h.
Proof.
  intros Hh Hn. unfold setPayloadLength. change payloadLengthMask with (Z.ones 14). destruct (Z.ltb_spec (Z.ones 14) n); [done|].
  change (Z.ones 14) with (2^14 - 1) in *.
  eexists. split; [done|]. unfold getPayloadLength. cbn [with_length HeaderAndPayloadLength].
  change payloadLengthMask with (Z.ones 14). change (2^14 - 1) with (Z.ones 14).
  set (v := HeaderAndPayloadLength h) in *. split; [|split; [|done]].
  - rewrite Z.land_lor_distr_l, (Z.land_ones n), Z.mod_small by lia.
    assert (E : Z.land (Z.lxor v (Z.land v (Z.ones 14))) (Z.ones 14) = 0).
    { apply Z.bits_inj'. intros i Hi. rewrite Z.land_spec, Z.lxor_spec, Z.land_spec, Z.bits_0.
      destruct (Z.testbit v i), (Z.testbit (Z.ones 14) i); done. }
    by rewrite E, Z.lor_0_l.
  - intros [? ? ? ? ? ?]. split; cbn [with_length ReceiverID ProtocolAndPacketType PacketFlags HeaderAndPayloadLength SourceID TargetID]; try done.
    unfold fits. change (2^(8 * Z.of_nat 2)) with (2^16).
    apply below_bits; [done|]. intros i Hi. rewrite Z.lor_spec, Z.lxor_spec, Z.land_spec.
    rewrite !(high_bit 16) by (done || lia). done.
Qed.
