(* ===== verification/PacketBody.v ===== *)
(** * The bodies of the packets of the consensus
    (src/network/consensus/serialization: node_intro.go, node_vectors.go,
    claims.go, pulsar_protocol.go, globula_protocol.go,
    pulseserialization/serialization.go)

    Structures with optional parts: what is on the wire depends on the flags
    of the header, on the rank of the node, and on the node the field is
    about. *)
From S2P Require Import Prelude Pulse MemberPower MemberRank Wire PacketHeader.

(** The message of a failed field. *)
Definition ser {A} (field : string) (m : io writer A) : io writer A := wrapped ("failed to serialize " ++ field) m.
Definition deser {A} (field : string) (m : io reader A) : io reader A := wrapped ("failed to deserialize " ++ field) m.

(** Some readers say "serialize" as well. *)
Definition ser_msg {A} (field : string) (m : io reader A) : io reader A := wrapped ("failed to serialize " ++ field) m.

Definition zeroBits512 : list Z := repeat 0 64.
Definition write_bits (b : list Z) : io writer unit := write_bytes b.
Definition read_bits512 : io reader (list Z) := read_bytes 64.

(** [xs[i]] of a slice of structures. *)
Definition slice_at {S A} (xs : list A) (i : Z) : io S A :=
  match xs !! Z.to_nat i with Some x => mret x | None => fun _ => Panic "index out of range" end.

(** ** node_intro.go *)
Definition primaryRoleMask : Z := Z.shiftl 1 6 - 1.
Definition addrModeShift : Z := 6.
Definition addrModeMax : Z := Z.shiftl 1 2 - 1.

Record NodeBriefIntro : Type := mkBrief {
  bi_ShortID : Z;
  PrimaryRoleAndFlags : Z;
  SpecialRoles : Z;
  StartPower : Z;
  Endpoint : list Z;
  NodePK : list Z;
  JoinerData : list Z;
  JoinerSignature : list Z;
}.
Definition zeroBrief : NodeBriefIntro := mkBrief 0 0 0 0 (repeat 0 18) zeroBits512 [] zeroBits512.

Definition GetPrimaryRole (bi : NodeBriefIntro) : Z := Z.land (PrimaryRoleAndFlags bi) primaryRoleMask.
Definition with_role (v : Z) (bi : NodeBriefIntro) : NodeBriefIntro :=
  mkBrief (bi_ShortID bi) v (SpecialRoles bi) (StartPower bi) (Endpoint bi) (NodePK bi) (JoinerData bi) (JoinerSignature bi).
Definition SetPrimaryRole (primaryRole : Z) (bi : NodeBriefIntro) : go NodeBriefIntro :=
  if primaryRoleMask <? primaryRole then Panic "invalid primary role"
  else Ret (with_role (Z.lor (PrimaryRoleAndFlags bi) primaryRole) bi).
Definition GetAddrMode (bi : NodeBriefIntro) : Z := Z.shiftr (PrimaryRoleAndFlags bi) addrModeShift.
Definition SetAddrMode (addrMode : Z) (bi : NodeBriefIntro) : go NodeBriefIntro :=
  if addrModeMax <? addrMode then Panic "invalid addr mode"
  else Ret (with_role (Z.lor (PrimaryRoleAndFlags bi) (u8 (Z.shiftl addrMode addrModeShift))) bi).

Definition Brief_SerializeTo (bi : NodeBriefIntro) : io writer unit :=
  ser "PrimaryRoleAndFlags" (write_uint 1 (PrimaryRoleAndFlags bi));;
  ser "SpecialRoles" (write_uint 1 (SpecialRoles bi));;
  ser "StartPower" (write_uint 1 (StartPower bi));;
  ser "Endpoint" (write_bytes (Endpoint bi));;
  ser "NodePK" (write_bits (NodePK bi));;
  ser "JoinerSignature" (write_bits (JoinerSignature bi));;
  mret tt.

Definition Brief_DeserializeFrom : io reader NodeBriefIntro :=
  '(role, special, power, endpoint, pk, data) ← capturing (
     role ← deser "PrimaryRoleAndFlags" (read_uint 1);
     special ← deser "SpecialRoles" (read_uint 1);
     power ← deser "StartPower" (read_uint 1);
     endpoint ← deser "BasePort" (read_bytes 18);
     pk ← deser "NodePK" read_bits512;
     mret (role, special, power, endpoint, pk));
  signature ← deser "JoinerSignature" read_bits512;
  mret (mkBrief 0 role special power endpoint pk data signature).

Record NodeExtendedIntro : Type := mkExtended {
  IssuedAtPulse : Z;
  IssuedAtTime : Z;
  PowerLevels : PowerSet;
  EndpointLen : Z;
  ExtraEndpoints : list Z;
  ProofLen : Z;
  NodeRefProof : list (list Z);
  DiscoveryIssuerNodeID : Z;
  IssuerSignature : list Z;
}.
Definition zeroExtended : NodeExtendedIntro := mkExtended 0 0 (mkSet 0 0 0 0) 0 [] 0 [] 0 zeroBits512.

Definition write_powers (v : PowerSet) : io writer unit := write_bytes (be 1 (p0 v) ++ be 1 (p1 v) ++ be 1 (p2 v) ++ be 1 (p3 v)).
Definition read_powers : io reader PowerSet :=
  b ← read_bytes 4; mret (mkSet (of_be (take 1 b)) (of_be (take 1 (drop 1 b))) (of_be (take 1 (drop 2 b))) (of_be (take 1 (drop 3 b)))).

Definition Extended_SerializeTo (ei : NodeExtendedIntro) : io writer unit :=
  ser "IssuedAtPulse" (write_uint 4 (IssuedAtPulse ei));;
  ser "IssuedAtTime" (write_uint 8 (IssuedAtTime ei));;
  ser "PowerLevels" (write_powers (PowerLevels ei));;
  ser "EndpointLen" (write_uint 1 (EndpointLen ei));;
  (for_each (Z.to_nat (EndpointLen ei)) 0 (fun i =>
     x ← slice_at (ExtraEndpoints ei) i; ser "ExtraEndpoints[%d]" (write_uint 2 x));; mret tt);;
  ser "ProofLen" (write_uint 1 (ProofLen ei));;
  (for_each (Z.to_nat (ProofLen ei)) 0 (fun i =>
     x ← slice_at (NodeRefProof ei) i; ser "NodeRefProof[%d]" (write_bits x));; mret tt);;
  ser "DiscoveryIssuerNodeID" (write_uint 4 (DiscoveryIssuerNodeID ei));;
  ser "IssuerSignature" (write_bits (IssuerSignature ei));;
  mret tt.

Definition Extended_DeserializeFrom : io reader NodeExtendedIntro :=
  pn ← deser "IssuedAtPulse" (read_uint 4);
  time ← deser "IssuedAtTime" (read_uint 8);
  levels ← deser "PowerLevels" read_powers;
  elen ← deser "EndpointLen" (read_uint 1);
  endpoints ← for_each (Z.to_nat elen) 0 (fun i => deser "ExtraEndpoints[%d]" (read_uint 2));
  plen ← deser "ProofLen" (read_uint 1);
  proofs ← for_each (Z.to_nat plen) 0 (fun i => deser "NodeRefProof[%d]" read_bits512);
  issuer ← deser "DiscoveryIssuerNodeID" (read_uint 4);
  signature ← deser "IssuerSignature" read_bits512;
  mret (mkExtended pn time levels elen endpoints plen proofs issuer signature).

Record NodeFullIntro : Type := mkFull { fi_brief : NodeBriefIntro; fi_extended : NodeExtendedIntro }.
Definition zeroFull : NodeFullIntro := mkFull zeroBrief zeroExtended.
Definition Full_SerializeTo (fi : NodeFullIntro) : io writer unit :=
  ser "NodeBriefIntro" (Brief_SerializeTo (fi_brief fi));;
  ser "NodeExtendedIntro" (Extended_SerializeTo (fi_extended fi));;
  mret tt.
Definition Full_DeserializeFrom : io reader NodeFullIntro :=
  brief ← deser "NodeBriefIntro" Brief_DeserializeFrom;
  extended ← deser "NodeExtendedIntro" Extended_DeserializeFrom;
  mret (mkFull brief extended).

(** ** node_vectors.go *)
Definition compressedBitIndex : Z := 6.
Definition hasHiLenBitIndex : Z := 7.
Definition loByteLengthBitSize : Z := 6.
Definition loByteLengthMask : Z := Z.shiftl 1 loByteLengthBitSize - 1.
Definition hiByteLengthMask : Z := Z.shiftl 1 7 - 1.
Definition hiByteLengthShift : Z := loByteLengthBitSize - 1.
Definition byteLengthMax : Z := Z.lor (Z.shiftl hiByteLengthMask loByteLengthBitSize) loByteLengthMask.

Record NodeAppearanceBitset : Type := mkBitset { FlagsAndLoLength : Z; HiLength : Z; Bytes : list Z }.
Definition zeroBitset : NodeAppearanceBitset := mkBitset 0 0 [].

Definition with_lo (v : Z) (nab : NodeAppearanceBitset) : NodeAppearanceBitset := mkBitset v (HiLength nab) (Bytes nab).
Definition with_hi (v : Z) (nab : NodeAppearanceBitset) : NodeAppearanceBitset := mkBitset (FlagsAndLoLength nab) v (Bytes nab).
Definition isCompressed (nab : NodeAppearanceBitset) : bool := hasBit (FlagsAndLoLength nab) compressedBitIndex.
Definition setIsCompressed (compressed : bool) (nab : NodeAppearanceBitset) : NodeAppearanceBitset :=
  with_lo (u8 (toggleBit (FlagsAndLoLength nab) compressedBitIndex compressed)) nab.
Definition hasHiLength (nab : NodeAppearanceBitset) : bool := hasBit (FlagsAndLoLength nab) hasHiLenBitIndex.
Definition setHasHiLength (has : bool) (nab : NodeAppearanceBitset) : NodeAppearanceBitset :=
  with_lo (u8 (toggleBit (FlagsAndLoLength nab) hasHiLenBitIndex has)) nab.
Definition getLoLength (nab : NodeAppearanceBitset) : Z := Z.land (FlagsAndLoLength nab) loByteLengthMask.
Definition getHiLength (nab : NodeAppearanceBitset) : Z := Z.land (HiLength nab) hiByteLengthMask.
Definition clearLoLength (nab : NodeAppearanceBitset) : NodeAppearanceBitset :=
  with_lo (Z.lxor (FlagsAndLoLength nab) (Z.land (FlagsAndLoLength nab) loByteLengthMask)) nab.
Definition clearHiLength (nab : NodeAppearanceBitset) : NodeAppearanceBitset :=
  with_hi (Z.lxor (HiLength nab) (Z.land (HiLength nab) hiByteLengthMask)) nab.
Definition setLoLength (length : Z) (nab : NodeAppearanceBitset) : go NodeAppearanceBitset :=
  if loByteLengthMask <? length then Panic "invalid length" else Ret (with_lo (Z.lor (FlagsAndLoLength nab) length) nab).
Definition setHiLength (length : Z) (nab : NodeAppearanceBitset) : go NodeAppearanceBitset :=
  if hiByteLengthMask <? length then Panic "invalid length" else Ret (with_hi (Z.lor (HiLength nab) length) nab).

Definition getLength (nab : NodeAppearanceBitset) : Z :=
  let length := getLoLength nab in
  if hasHiLength nab then Z.lor (u16 (Z.shiftl (getHiLength nab) hiByteLengthShift)) length else length.

Definition setLength (length : Z) (nab : NodeAppearanceBitset) : go NodeAppearanceBitset :=
  if byteLengthMax <? length then Panic "invalid length"
  else
    let nab := clearLoLength (clearHiLength (setHasHiLength (loByteLengthMask <? length) nab)) in
    if loByteLengthMask <? length then
      nab ← setLoLength (u8 (Z.land length loByteLengthMask)) nab;
      setHiLength (u8 (Z.shiftr length hiByteLengthShift)) nab
    else setLoLength (u8 length) nab.

Definition SetBitset (bitset : list Z) (nab : NodeAppearanceBitset) : go NodeAppearanceBitset :=
  let len := Z.of_nat (length bitset) in
  if 0xFFFF <? len then Panic "invalid length"
  else
    nab ← setLength (u16 len) nab;
    let nab := setIsCompressed false nab in
    Ret (mkBitset (FlagsAndLoLength nab) (HiLength nab) bitset).

Definition GetBitset (nab : NodeAppearanceBitset) : go (list Z) :=
  let len := Z.to_nat (getLength nab) in
  if isCompressed nab then Panic "not implemented"
  else if (len <? length (Bytes nab))%nat then Panic "index out of range"
  else Ret (Bytes nab ++ repeat 0 (len - length (Bytes nab))).

Definition Bitset_SerializeTo (nab : NodeAppearanceBitset) : io writer unit :=
  ser "FlagsAndLoLength" (write_uint 1 (FlagsAndLoLength nab));;
  (if hasHiLength nab then ser "HiLength" (write_uint 1 (HiLength nab)) else mret tt);;
  (if 0 <? getLength nab then ser "Bytes" (write_bytes (Bytes nab)) else mret tt);;
  mret tt.

Definition Bitset_DeserializeFrom : io reader NodeAppearanceBitset :=
  flags ← deser "FlagsAndLoLength" (read_uint 1);
  hi ← (if hasHiLength (mkBitset flags 0 []) then ser_msg "HiLength" (read_uint 1) else mret 0);
  let length := getLength (mkBitset flags hi []) in
  bs ← (if 0 <? length then ser_msg "Bytes" (read_bytes (Z.to_nat length)) else mret []);
  mret (mkBitset flags hi bs).

Record GlobulaStateVector : Type := mkStateVector {
  ExpectedRank : Z;
  VectorHash : list Z;
  SignedGlobulaStateHash : list Z;
}.
Definition zeroStateVector : GlobulaStateVector := mkStateVector 0 zeroBits512 zeroBits512.
Definition StateVector_SerializeTo (gsv : GlobulaStateVector) : io writer unit :=
  write_bytes (be 4 (ExpectedRank gsv) ++ VectorHash gsv ++ SignedGlobulaStateHash gsv).
Definition StateVector_DeserializeFrom : io reader GlobulaStateVector :=
  b ← read_bytes 132; mret (mkStateVector (of_be (take 4 b)) (take 64 (drop 4 b)) (take 64 (drop 68 b))).

Record NodeVectors : Type := mkVectors {
  StateVectorMask : NodeAppearanceBitset;
  MainStateVector : GlobulaStateVector;
  AdditionalStateVectors : list GlobulaStateVector;
}.
Definition zeroVectors : NodeVectors := mkVectors zeroBitset zeroStateVector [].
(** The range of flags 1 and 2 of the header. *)
Definition flags12 (c : packetContext) : go Z := GetFlagRangeInt (header c) 1 2.
Definition Vectors_SerializeTo (nv : NodeVectors) : io writer unit :=
  ser "StateVectorMask" (Bitset_SerializeTo (StateVectorMask nv));;
  ser "MainStateVector" (StateVector_SerializeTo (MainStateVector nv));;
  count ← ask flags12;
  (for_each (Z.to_nat count) 0 (fun i =>
     x ← slice_at (AdditionalStateVectors nv) i; ser "AdditionalStateVectors[%d]" (StateVector_SerializeTo x));; mret tt);;
  mret tt.
Definition Vectors_DeserializeFrom : io reader NodeVectors :=
  mask ← deser "StateVectorMask" Bitset_DeserializeFrom;
  main ← deser "MainStateVector" StateVector_DeserializeFrom;
  length ← ask flags12;
  additional ← for_each (Z.to_nat length) 0 (fun i => deser "AdditionalStateVectors[%d]" StateVector_DeserializeFrom);
  mret (mkVectors mask main additional).

(** ** claims.go *)
Definition claimHeaderLengthMask : Z := 0x1F.
Definition claimHeaderTypeShift : Z := 10.
Definition claimTypeEmpty : Z := 0.
Definition claimTypeGeneric : Z := 1.
Record GenericClaim : Type := mkClaim { TypeAndLength : Z; Payload : list Z }.
Record ClaimList : Type := mkClaims { Claims : list GenericClaim; EndOfClaims : Z }.
Definition zeroClaims : ClaimList := mkClaims [] 0.

Definition newClaimHeader (t len : Z) : Z := Z.lor (u16 (Z.shiftl t claimHeaderTypeShift)) (u16 len).
Definition NewClaimList : ClaimList := mkClaims [] (newClaimHeader claimTypeEmpty 0).
Definition NewGenericClaim (payload : list Z) : GenericClaim :=
  mkClaim (newClaimHeader claimTypeGeneric (Z.of_nat (length payload))) payload.
Definition Push (claim : GenericClaim) (cl : ClaimList) : ClaimList := mkClaims (Claims cl ++ [claim]) (EndOfClaims cl).
Definition Claim_ClaimType (ch : Z) : Z := u8 (Z.shiftr ch claimHeaderTypeShift).
Definition Claim_Length (ch : Z) : Z := Z.land ch claimHeaderLengthMask.

Fixpoint write_claims (cs : list GenericClaim) : io writer unit :=
  match cs with
  | [] => mret tt
  | c :: cs' => write_uint 2 (TypeAndLength c);; write_bytes (Payload c);; write_claims cs'
  end.
Definition Claims_SerializeTo (cl : ClaimList) : io writer unit :=
  write_claims (Claims cl);; write_uint 2 (EndOfClaims cl).

(** [io.LimitReader(reader, n).Read(p)] with [len(p) = n]: one read, which may
    be short, and is at its end where nothing is left to read. *)
Definition read_limited (n : nat) : io reader (list Z) := fun s =>
  let b := take n (unread s) in
  let s' := mkReader (r_ctx s) (drop n (unread s)) (totalRead s + Z.of_nat (length b)) in
  if (n =? 0)%nat || negb (length b =? n)%nat then Ret (s', Fail ErrPayloadLengthMismatch) else Ret (s', Good b).

(** The loop returns in its first round. *)
Definition Claims_DeserializeFrom : io reader ClaimList :=
  h ← wrapped "malformed header" (read_uint 2);
  if Claim_ClaimType h =? claimTypeEmpty then mret NewClaimList
  else if Claim_ClaimType h =? claimTypeGeneric then
    payload ← read_limited (Z.to_nat (Claim_Length h));
    mret (mkClaims [mkClaim h payload] (EndOfClaims NewClaimList))
  else throw (ErrMalformedHeader (Errorf "unknown claim type")).

(** ** pulsar_protocol.go, pulseserialization.go *)
Definition DataExt_bytes (p : Data) : list Z :=
  be 4 (PulseEpoch p) ++ be 2 (NextPulseDelta p) ++ be 2 (PrevPulseDelta p) ++ be 4 (Timestamp p) ++ PulseEntropy p.
Definition DataExt_of_bytes (pn : Z) (b : list Z) : Data :=
  mkData pn (of_be (take 4 b)) (of_be (take 2 (drop 4 b))) (of_be (take 2 (drop 6 b))) (of_be (take 4 (drop 8 b)))
    (take 32 (drop 12 b)).
Definition pulse_Serialize (p : Data) : list Z := be 4 (PulseNumber p) ++ DataExt_bytes p.
(** [binary.Read] of a reader of its own over the bytes. *)
Definition pulse_Deserialize (b : list Z) : result Data :=
  if (length b <? 48)%nat then Fail (Errorf (if (length b =? 0)%nat then "EOF" else "unexpected EOF"))
  else Good (DataExt_of_bytes (of_be (take 4 b)) (drop 4 b)).

(** [PulseNumber] and [PulseDataExt] together are the pulse data
    ([getPulseData]); the number is not sent. *)
Record PulsarPacketBody : Type := mkPulsarBody { getPulseData : Data; PulsarConsensusProofs : list Z }.
Definition zeroData : Data := mkData 0 0 0 0 0 (repeat 0 32).
Definition zeroPulsarBody : PulsarPacketBody := mkPulsarBody zeroData [].
Definition Pulsar_SerializeTo (b : PulsarPacketBody) : io writer unit := write_bytes (DataExt_bytes (getPulseData b)).
Definition Pulsar_DeserializeFrom : io reader PulsarPacketBody :=
  b ← read_bytes 44; mret (mkPulsarBody (DataExt_of_bytes 0 b) []).

(** ** globula_protocol.go *)
Record EmbeddedPulsarData : Type := mkEmbedded { ep_Size : Z; ep_Data : list Z; ep_Body : PulsarPacketBody }.
Definition zeroEmbedded : EmbeddedPulsarData := mkEmbedded 0 [] zeroPulsarBody.
Definition setData (data : list Z) (pd : EmbeddedPulsarData) : EmbeddedPulsarData :=
  mkEmbedded (u16 (Z.of_nat (length data))) data (ep_Body pd).
Definition Embedded_SerializeTo (pd : EmbeddedPulsarData) : io writer unit :=
  ser "Data" (write_uint 2 (ep_Size pd));;
  ser "Data" (write_bytes (ep_Data pd));;
  mret tt.
Definition Embedded_DeserializeFrom : io reader EmbeddedPulsarData :=
  size ← deser "Size" (read_uint 2);
  guard_io (size =? 0) (Errorf "failed to deserialize PulseDataExt");;
  data ← deser "Data" (read_bytes (Z.to_nat size));
  p ← deser "PulsarPacket" (lift_result (pulse_Deserialize data));
  mret (mkEmbedded size data (mkPulsarBody p [])).

Record CloudIntro : Type := mkCloud { CloudIdentity : list Z; LastCloudStateHash : list Z }.
Definition zeroCloud : CloudIntro := mkCloud zeroBits512 zeroBits512.
Definition Cloud_SerializeTo (ci : CloudIntro) : io writer unit := write_bytes (CloudIdentity ci ++ LastCloudStateHash ci).
Definition Cloud_DeserializeFrom : io reader CloudIntro :=
  b ← read_bytes 128; mret (mkCloud (take 64 b) (drop 64 b)).

Record CompactGlobulaNodeState : Type := mkNodeState { NodeStateHash : list Z; NodeStateHashSignature : list Z }.
Definition zeroNodeState : CompactGlobulaNodeState := mkNodeState zeroBits512 zeroBits512.
Definition NodeState_SerializeTo (gns : CompactGlobulaNodeState) : io writer unit :=
  write_bytes (NodeStateHash gns ++ NodeStateHashSignature gns).
Definition NodeState_DeserializeFrom : io reader CompactGlobulaNodeState :=
  b ← read_bytes 128; mret (mkNodeState (take 64 b) (drop 64 b)).

Record NodeAnnouncement : Type := mkAnnouncement {
  NodeState : CompactGlobulaNodeState;
  AnnounceID : Z;
  LeaveReason : Z;
  Joiner : NodeBriefIntro;
}.
Definition zeroAnnouncement : NodeAnnouncement := mkAnnouncement zeroNodeState 0 0 zeroBrief.

(** The part after [AnnounceID], by where the announcement is. *)
Definition Announcement_SerializeTo (na : NodeAnnouncement) : io writer unit :=
  ser "NodeState" (NodeState_SerializeTo (NodeState na));;
  ser "AnnounceID" (write_uint 4 (AnnounceID na));;
  membership ← ask (fun c => Ret (InContext c ContextMembershipAnnouncement));
  (if membership : bool then
     source ← ask (fun c => Ret (SourceID (header c)));
     if AnnounceID na =? source then ser "Leaver" (write_uint 4 (LeaveReason na))
     else if negb (IsAbsent (AnnounceID na)) then
       ser "Joiner" (Brief_SerializeTo (Joiner na));;
       tell (SetAnnouncedJoinerNodeID (AnnounceID na));;
       mret tt
     else mret tt
   else mret tt);;
  neighbour ← ask (fun c => Ret (InContext c ContextNeighbourAnnouncement));
  (if neighbour : bool then
     nodeID ← ask GetNeighbourNodeID;
     if AnnounceID na =? nodeID then ser "Leaver" (write_uint 4 (LeaveReason na)) else mret tt
   else mret tt);;
  mret tt.

Definition Announcement_DeserializeFrom : io reader NodeAnnouncement :=
  state ← deser "NodeState" NodeState_DeserializeFrom;
  id ← deser "AnnounceID" (read_uint 4);
  membership ← ask (fun c => Ret (InContext c ContextMembershipAnnouncement));
  '(reason, joiner) ← (if membership : bool then
     source ← ask (fun c => Ret (SourceID (header c)));
     if id =? source then reason ← deser "Leaver" (read_uint 4); mret (reason, zeroBrief)
     else if negb (IsAbsent id) then
       joiner ← deser "Joiner" Brief_DeserializeFrom;
       tell (SetAnnouncedJoinerNodeID id);;
       mret (0, joiner)
     else mret (0, zeroBrief)
   else mret (0, zeroBrief));
  neighbour ← ask (fun c => Ret (InContext c ContextNeighbourAnnouncement));
  reason ← (if neighbour : bool then
     nodeID ← ask GetNeighbourNodeID;
     if id =? nodeID then deser "Leaver" (read_uint 4) else mret reason
   else mret reason);
  mret (mkAnnouncement state id reason joiner).

Record MembershipAnnouncement : Type := mkMembership {
  ma_ShortID : Z;
  ma_CurrentRank : Z;
  ma_RequestedPower : Z;
  ma_Member : NodeAnnouncement;
  ma_AnnounceSignature : list Z;
}.
Definition zeroMembership : MembershipAnnouncement := mkMembership 0 0 0 zeroAnnouncement zeroBits512.

Definition Membership_SerializeTo (ma : MembershipAnnouncement) : io writer unit :=
  ser "CurrentRank" (write_uint 4 (ma_CurrentRank ma));;
  ser "RequestedPower" (write_uint 1 (ma_RequestedPower ma));;
  (if negb (ma_CurrentRank ma =? 0) then
     tell (fun c => Ret (SetInContext ContextMembershipAnnouncement c));;
     defer (SetInContext NoContext) (
       ser "Member" (Announcement_SerializeTo (ma_Member ma));;
       ser "AnnounceSignature" (write_bits (ma_AnnounceSignature ma));;
       mret tt)
   else mret tt);;
  mret tt.

Definition Membership_DeserializeFrom : io reader MembershipAnnouncement :=
  rank ← deser "CurrentRank" (read_uint 4);
  power ← deser "RequestedPower" (read_uint 1);
  '(member, signature) ← (if negb (rank =? 0) then
     tell (fun c => Ret (SetInContext ContextMembershipAnnouncement c));;
     defer (SetInContext NoContext) (
       member ← deser "Member" Announcement_DeserializeFrom;
       signature ← deser "AnnounceSignature" read_bits512;
       mret (member, signature))
   else mret (zeroAnnouncement, zeroBits512));
  mret (mkMembership 0 rank power member signature).

Record NeighbourAnnouncement : Type := mkNeighbour {
  NeighbourNodeID : Z;
  ng_CurrentRank : Z;
  ng_RequestedPower : Z;
  ng_Joiner : NodeBriefIntro;
  JoinerIntroducedBy : Z;
  ng_Member : NodeAnnouncement;
  ng_AnnounceSignature : list Z;
}.
Definition zeroNeighbour : NeighbourAnnouncement := mkNeighbour 0 0 0 zeroBrief 0 zeroAnnouncement zeroBits512.

(** The joiner is left out if it is in the announcement of the sender. *)
Definition sends_joiner (announced nodeID : Z) : bool := IsAbsent announced || negb (nodeID =? announced).

Definition Neighbour_SerializeTo (na : NeighbourAnnouncement) : io writer unit :=
  ser "NeighbourNodeID" (write_uint 4 (NeighbourNodeID na));;
  ser "CurrentRank" (write_uint 4 (ng_CurrentRank na));;
  ser "RequestedPower" (write_uint 1 (ng_RequestedPower na));;
  let sign := ser "AnnounceSignature" (write_bits (ng_AnnounceSignature na));; mret tt in
  if ng_CurrentRank na =? 0 then
    announced ← ask (fun c => Ret (GetAnnouncedJoinerNodeID c));
    (if sends_joiner announced (NeighbourNodeID na) then
       ser "Joiner" (Brief_SerializeTo (ng_Joiner na));;
       ser "JoinerIntroducedBy" (write_uint 4 (JoinerIntroducedBy na));;
       mret tt
     else mret tt);;
    sign
  else
    tell (fun c => Ret (SetNeighbourNodeID (NeighbourNodeID na) (SetInContext ContextNeighbourAnnouncement c)));;
    defer (fun c => SetInContext NoContext (SetNeighbourNodeID 0 c)) (
      ser "Member" (Announcement_SerializeTo (ng_Member na));;
      sign).

Definition Neighbour_DeserializeFrom : io reader NeighbourAnnouncement :=
  id ← deser "NeighbourNodeID" (read_uint 4);
  rank ← deser "CurrentRank" (read_uint 4);
  power ← deser "RequestedPower" (read_uint 1);
  let sign joiner by_ member :=
    signature ← deser "AnnounceSignature" read_bits512;
    mret (mkNeighbour id rank power joiner by_ member signature) in
  if rank =? 0 then
    announced ← ask (fun c => Ret (GetAnnouncedJoinerNodeID c));
    '(joiner, by_) ← (if sends_joiner announced id then
       joiner ← deser "Joiner" Brief_DeserializeFrom;
       by_ ← deser "JoinerIntroducedBy" (read_uint 4);
       mret (joiner, by_)
     else mret (zeroBrief, 0));
    sign joiner by_ zeroAnnouncement
  else
    tell (fun c => Ret (SetNeighbourNodeID id (SetInContext ContextNeighbourAnnouncement c)));;
    defer (fun c => SetInContext NoContext (SetNeighbourNodeID 0 c)) (
      member ← deser "Member" Announcement_DeserializeFrom;
      sign zeroBrief 0 member).

Record Neighbourhood : Type := mkNeighbourhood {
  NeighbourCount : Z;
  FraudFlags : list Z;
  Neighbours : list NeighbourAnnouncement;
}.
Definition zeroNeighbourhood : Neighbourhood := mkNeighbourhood 0 [] [].
Definition Neighbourhood_SerializeTo (n : Neighbourhood) : io writer unit :=
  ser "NeighbourCount" (write_uint 1 (NeighbourCount n));;
  (for_each (Z.to_nat (NeighbourCount n)) 0 (fun i =>
     x ← slice_at (Neighbours n) i; ser "Neighbours[%d]" (Neighbour_SerializeTo x));; mret tt);;
  mret tt.
Definition Neighbourhood_DeserializeFrom : io reader Neighbourhood :=
  count ← deser "NeighbourCount" (read_uint 1);
  neighbours ← for_each (Z.to_nat count) 0 (fun i => ser_msg "Neighbours[%d]" Neighbour_DeserializeFrom);
  mret (mkNeighbourhood count [] neighbours).

Record GlobulaConsensusPacketBody : Type := mkGlobula {
  gb_CurrentRank : Z;
  gb_PulsarPacket : EmbeddedPulsarData;
  gb_Announcement : MembershipAnnouncement;
  gb_JoinerExt : NodeExtendedIntro;
  gb_BriefSelfIntro : NodeBriefIntro;
  gb_FullSelfIntro : NodeFullIntro;
  gb_CloudIntro : CloudIntro;
  gb_JoinerSecret : list Z;
  gb_Neighbourhood : Neighbourhood;
  gb_Vectors : NodeVectors;
  gb_Claims : ClaimList;
}.
Definition zeroGlobula : GlobulaConsensusPacketBody :=
  mkGlobula 0 zeroEmbedded zeroMembership zeroExtended zeroBrief zeroFull zeroCloud zeroBits512 zeroNeighbourhood zeroVectors zeroClaims.

(** The phase a packet belongs to, and its flags, as both sides ask for them. *)
Definition packet_phase (c : packetContext) : go Z := Ret (GetPayloadEquivalent (GetPacketType (header c))).
Definition has_flag (f : Z) (c : packetContext) : go bool := HasFlag (header c) f.
Definition one_of (p q r : Z) : bool := (p =? q) || (p =? r).

Definition Globula_SerializeTo (b : GlobulaConsensusPacketBody) : io writer unit :=
  packetType ← ask packet_phase;
  (if packetType =? PacketPhase0 then ser "CurrentRank" (write_uint 4 (gb_CurrentRank b)) else mret tt);;
  (if one_of packetType PacketPhase0 PacketPhase1 then
     pulse ← ask (has_flag FlagHasPulsePacket);
     if pulse : bool then ser "PulsarPacket" (Embedded_SerializeTo (gb_PulsarPacket b)) else mret tt
   else mret tt);;
  (if one_of packetType PacketPhase1 PacketPhase2 then ser "Announcement" (Membership_SerializeTo (gb_Announcement b)) else mret tt);;
  (if packetType =? PacketPhase1 then
     ext ← ask (has_flag FlagHasJoinerExt);
     if ext : bool then ser "JoinerExt" (Extended_SerializeTo (gb_JoinerExt b)) else mret tt
   else mret tt);;
  flags ← ask flags12;
  (if (packetType =? PacketPhase2) && (flags =? 1) then ser "BriefSelfIntro" (Brief_SerializeTo (gb_BriefSelfIntro b)) else mret tt);;
  (if one_of packetType PacketPhase1 PacketPhase2 && one_of flags 2 3 then ser "FullSelfIntro" (Full_SerializeTo (gb_FullSelfIntro b)) else mret tt);;
  (if one_of packetType PacketPhase1 PacketPhase2 && one_of flags 2 3 then ser "CloudIntro" (Cloud_SerializeTo (gb_CloudIntro b)) else mret tt);;
  (if one_of packetType PacketPhase1 PacketPhase2 && (flags =? 3) then ser "JoinerSecret" (write_bits (gb_JoinerSecret b)) else mret tt);;
  (if packetType =? PacketPhase2 then ser "Neighbourhood" (Neighbourhood_SerializeTo (gb_Neighbourhood b)) else mret tt);;
  (if packetType =? PacketPhase3 then ser "Vectors" (Vectors_SerializeTo (gb_Vectors b)) else mret tt);;
  (if one_of packetType PacketPhase1 PacketPhase3 then ser "Claims" (Claims_SerializeTo (gb_Claims b)) else mret tt);;
  mret tt.

Definition Globula_DeserializeFrom : io reader GlobulaConsensusPacketBody :=
  packetType ← ask packet_phase;
  rank ← (if packetType =? PacketPhase0 then deser "CurrentRank" (read_uint 4) else mret 0);
  pulsar ← (if one_of packetType PacketPhase0 PacketPhase1 then
     pulse ← ask (has_flag FlagHasPulsePacket);
     if pulse : bool then deser "PulsarPacket" Embedded_DeserializeFrom else mret zeroEmbedded
   else mret zeroEmbedded);
  announcement ← (if one_of packetType PacketPhase1 PacketPhase2 then deser "Announcement" Membership_DeserializeFrom else mret zeroMembership);
  joinerExt ← (if packetType =? PacketPhase1 then
     ext ← ask (has_flag FlagHasJoinerExt);
     if ext : bool then deser "JoinerExt" Extended_DeserializeFrom else mret zeroExtended
   else mret zeroExtended);
  flags ← ask flags12;
  brief ← (if (packetType =? PacketPhase2) && (flags =? 1) then deser "BriefSelfIntro" Brief_DeserializeFrom else mret zeroBrief);
  full ← (if one_of packetType PacketPhase1 PacketPhase2 && one_of flags 2 3 then deser "FullSelfIntro" Full_DeserializeFrom else mret zeroFull);
  cloud ← (if one_of packetType PacketPhase1 PacketPhase2 && one_of flags 2 3 then deser "CloudIntro" Cloud_DeserializeFrom else mret zeroCloud);
  secret ← (if one_of packetType PacketPhase1 PacketPhase2 && (flags =? 3) then deser "JoinerSecret" read_bits512 else mret zeroBits512);
  neighbourhood ← (if packetType =? PacketPhase2 then deser "Neighbourhood" Neighbourhood_DeserializeFrom else mret zeroNeighbourhood);
  vectors ← (if packetType =? PacketPhase3 then deser "Vectors" Vectors_DeserializeFrom else mret zeroVectors);
  claims ← (if one_of packetType PacketPhase1 PacketPhase3 then deser "Claims" Claims_DeserializeFrom else mret zeroClaims);
  mret (mkGlobula rank pulsar announcement joinerExt brief full cloud secret neighbourhood vectors claims).
