(* ===== verification/PacketRead.v ===== *)
(** * What is sent is received, part by part
    (src/network/consensus/serialization)

    For every structure: the values that can be sent, the value the receiver
    gets, and that the reader inverts the writer.  What is received is what was
    sent, less the parts the flags and identifiers leave out. *)
From S2P Require Import Prelude Pulse MemberPower MemberRank Wire PacketHeader PacketBody.

Lemma carries_ser {A} c c' (w : io writer unit) (r : io reader A) a f g :
  carries c c' w r a -> carries c c' (ser f w) (deser g r) a.
Proof. apply carries_wrapped. Qed.
Lemma carries_ser_msg {A} c c' (w : io writer unit) (r : io reader A) a f g :
  carries c c' w r a -> carries c c' (ser f w) (ser_msg g r) a.
Proof. apply carries_wrapped. Qed.

(** A field, then the others. *)
Ltac carry := first
  [ eapply carries_bind; [first [apply carries_ser | apply carries_ser_msg]; solve [eauto with wire] | cbn beta iota]
  | apply carries_ret ].

Definition is_bits512 (b : list Z) : Prop := length b = 64%nat.

(** A fixed structure of bytes, read at once. *)
Lemma carries_struct {A} c (bs : list Z) n (f : list Z -> A) a :
  length bs = n -> f bs = a -> carries c c (write_bytes bs) (b ← read_bytes n; mret (f b)) a.
Proof.
  intros Hl Hf. exists bs. destruct (carries_as_bytes c n bs Hl) as [Hw Hr]. split; [exact Hw|].
  intros l rest m. unfold mbind, io_bind. rewrite Hr. by rewrite <- Hf.
Qed.

(** The elements of a slice, each received as [g] of it. *)
Lemma carries_slice_to {A B} c (xs : list A) (g : A -> B) (w : A -> io writer unit) (r : Z -> io reader B) n :
  n = Z.of_nat (length xs) -> (forall i x, x ∈ xs -> carries c c (w x) (r i) (g x)) ->
  carries c c (for_each (Z.to_nat n) 0 (fun i => x ← slice_at xs i; w x);; mret tt) (for_each (Z.to_nat n) 0 r) (g <$> xs).
Proof.
  intros -> H. rewrite Nat2Z.id. rewrite <- (length_fmap g xs). apply carries_each. intros k y Hk. rewrite Z.add_0_l.
  apply list_lookup_fmap_Some in Hk as (x & -> & Hk).
  destruct (H (Z.of_nat k) x) as (bs & Hw & Hr); [by eapply list_elem_of_lookup_2|]. exists bs. split; [|done].
  intros l out. unfold slice_at, mbind, io_bind. rewrite Nat2Z.id, Hk. apply Hw.
Qed.


Lemma carries_slice {A} c (xs : list A) (w : A -> io writer unit) (r : Z -> io reader A) n :
  n = Z.of_nat (length xs) -> (forall i x, x ∈ xs -> carries c c (w x) (r i) x) ->
  carries c c (for_each (Z.to_nat n) 0 (fun i => x ← slice_at xs i; w x);; mret tt) (for_each (Z.to_nat n) 0 r) xs.
Proof. intros Hn H. pose proof (carries_slice_to c xs id w r n Hn H) as E. by rewrite list_fmap_id in E. Qed.

(** ** Introductions *)
Record brief_ok (bi : NodeBriefIntro) : Prop := {
  bo_role : fits 1 (PrimaryRoleAndFlags bi);
  bo_special : fits 1 (SpecialRoles bi);
  bo_power : fits 1 (StartPower bi);
  bo_endpoint : length (Endpoint bi) = 18%nat;
  bo_pk : is_bits512 (NodePK bi);
  bo_signature : is_bits512 (JoinerSignature bi);
}.
(** The bytes the signature of a joiner is for. *)
Definition brief_data (bi : NodeBriefIntro) : list Z :=
  be 1 (PrimaryRoleAndFlags bi) ++ be 1 (SpecialRoles bi) ++ be 1 (StartPower bi) ++ Endpoint bi ++ NodePK bi.
Definition brief_received (bi : NodeBriefIntro) : NodeBriefIntro :=
  mkBrief 0 (PrimaryRoleAndFlags bi) (SpecialRoles bi) (StartPower bi) (Endpoint bi) (NodePK bi) (brief_data bi) (JoinerSignature bi).

Lemma Brief_carries c bi : brief_ok bi ->
  carries c c (Brief_SerializeTo bi) Brief_DeserializeFrom (brief_received bi).
Proof.
  intros [H1 H2 H3 H4 H5 H6].
  exists (brief_data bi ++ JoinerSignature bi). unfold Brief_SerializeTo, Brief_DeserializeFrom, brief_data.
  destruct (carries_as_uint c 1 _ H1) as [W1 R1]. destruct (carries_as_uint c 1 _ H2) as [W2 R2].
  destruct (carries_as_uint c 1 _ H3) as [W3 R3]. destruct (carries_as_bytes c 18 _ H4) as [W4 R4].
  destruct (carries_as_bytes c 64 _ H5) as [W5 R5]. destruct (carries_as_bytes c 64 _ H6) as [W6 R6]. split.
  - intros l out. unfold mbind, io_bind, ser, wrapped, write_bits. rewrite W1, W2, W3, W4, W5, W6. by rewrite !(assoc_L (++)).
  - intros l rest n. unfold mbind at 1, io_bind at 1, capturing. unfold mbind at 1 2 3 4 5, io_bind at 1 2 3 4 5, deser, wrapped.
    rewrite <- !(assoc_L (++)). rewrite R1, R2, R3, R4. unfold read_bits512. rewrite R5. cbn [mret io_ret unread].
    unfold mbind, io_bind. rewrite R6. cbn [mret io_ret]. unfold brief_received.
    assert (E : be 1 (PrimaryRoleAndFlags bi) ++ be 1 (SpecialRoles bi) ++ be 1 (StartPower bi) ++ Endpoint bi ++ NodePK bi ++
                 JoinerSignature bi ++ rest = brief_data bi ++ JoinerSignature bi ++ rest).
    { unfold brief_data. by rewrite <- !(assoc_L (++)). }
    rewrite E, length_app, Nat.add_sub, take_app_length.
    by rewrite !length_app, !Nat2Z.inj_add, !Z.add_assoc.
Qed.

Record powers_ok (v : PowerSet) : Prop := {
  wo_0 : fits 1 (p0 v); wo_1 : fits 1 (p1 v); wo_2 : fits 1 (p2 v); wo_3 : fits 1 (p3 v);
}.
Lemma powers_carries c v : powers_ok v -> carries c c (write_powers v) read_powers v.
Proof.
  intros [H0 H1 H2 H3]. apply carries_struct; [done|]. destruct v as [a0 a1 a2 a3]. cbn [p0 p1 p2 p3] in *.
  set (b0 := be 1 a0). set (b1 := be 1 a1). set (b2 := be 1 a2). set (b3 := be 1 a3).
  rewrite <- (of_be_be 1 a0 H0), <- (of_be_be 1 a1 H1), <- (of_be_be 1 a2 H2), <- (of_be_be 1 a3 H3) by done. done.
Qed.

Record extended_ok (ei : NodeExtendedIntro) : Prop := {
  xo_pulse : fits 4 (IssuedAtPulse ei);
  xo_time : fits 8 (IssuedAtTime ei);
  xo_powers : powers_ok (PowerLevels ei);
  xo_endpoint_len : fits 1 (EndpointLen ei);
  xo_endpoints : EndpointLen ei = Z.of_nat (length (ExtraEndpoints ei)) /\ Forall (fits 2) (ExtraEndpoints ei);
  xo_proof_len : fits 1 (ProofLen ei);
  xo_proofs : ProofLen ei = Z.of_nat (length (NodeRefProof ei)) /\ Forall is_bits512 (NodeRefProof ei);
  xo_issuer : fits 4 (DiscoveryIssuerNodeID ei);
  xo_signature : is_bits512 (IssuerSignature ei);
}.

Lemma Extended_carries c ei : extended_ok ei ->
  carries c c (Extended_SerializeTo ei) Extended_DeserializeFrom ei.
Proof.
  intros [H1 H2 H3 H4 [E5 H5] H6 [E7 H7] H8 H9]. unfold Extended_SerializeTo, Extended_DeserializeFrom.
  do 2 carry. eapply carries_bind; [apply carries_ser; by apply powers_carries|]. carry.
  eapply carries_bind; [apply carries_slice; [exact E5|]; intros i x Hx; apply carries_ser, carries_uint; by eapply list.Forall_forall|].
  carry.
  eapply carries_bind; [apply carries_slice; [exact E7|]; intros i x Hx; apply carries_ser, carries_bytes; exact (proj1 (list.Forall_forall is_bits512 _) H7 x Hx)|].
  carry. eapply carries_bind; [by apply carries_ser, carries_bytes|]. destruct ei. carry.
Qed.

Record full_ok (fi : NodeFullIntro) : Prop := { fo_brief : brief_ok (fi_brief fi); fo_extended : extended_ok (fi_extended fi) }.
Definition full_received (fi : NodeFullIntro) : NodeFullIntro := mkFull (brief_received (fi_brief fi)) (fi_extended fi).
Lemma Full_carries c fi : full_ok fi -> carries c c (Full_SerializeTo fi) Full_DeserializeFrom (full_received fi).
Proof.
  intros [Hb He]. unfold Full_SerializeTo, Full_DeserializeFrom.
  eapply carries_bind; [by apply carries_ser, Brief_carries|].
  eapply carries_bind; [by apply carries_ser, Extended_carries|]. carry.
Qed.

(** ** Vectors *)
Record state_vector_ok (gsv : GlobulaStateVector) : Prop := {
  so_rank : fits 4 (ExpectedRank gsv);
  so_hash : is_bits512 (VectorHash gsv);
  so_signed : is_bits512 (SignedGlobulaStateHash gsv);
}.
Lemma StateVector_carries c gsv : state_vector_ok gsv ->
  carries c c (StateVector_SerializeTo gsv) StateVector_DeserializeFrom gsv.
Proof.
  intros [H1 H2 H3]. destruct gsv as [rank h s]. cbn [ExpectedRank VectorHash SignedGlobulaStateHash] in *. unfold is_bits512 in *.
  apply carries_struct; cbn [ExpectedRank VectorHash SignedGlobulaStateHash].
  - rewrite !length_app, length_be. lia.
  - change 68%nat with (4 + 64)%nat. rewrite <- drop_drop.
    rewrite (take_app_length' (be 4 rank)), (drop_app_length' (be 4 rank)) by done.
    rewrite take_app_length', drop_app_length', take_ge, of_be_be by (done || lia). done.
Qed.

Record bitset_ok (nab : NodeAppearanceBitset) : Prop := {
  to_flags : fits 1 (FlagsAndLoLength nab);
  to_hi : fits 1 (HiLength nab);
  to_no_hi : hasHiLength nab = false -> HiLength nab = 0;
  to_bytes : getLength nab = Z.of_nat (length (Bytes nab));
}.
Lemma Bitset_carries c nab : bitset_ok nab -> carries c c (Bitset_SerializeTo nab) Bitset_DeserializeFrom nab.
Proof.
  intros [H1 H2 H3 H4]. destruct nab as [flags hi bs]. cbn [FlagsAndLoLength HiLength Bytes] in *.
  unfold Bitset_SerializeTo, Bitset_DeserializeFrom. cbn [FlagsAndLoLength HiLength Bytes]. carry.
  change (hasHiLength (mkBitset flags 0 [])) with (hasHiLength (mkBitset flags hi bs)).
  assert (Ehi : (if hasHiLength (mkBitset flags hi bs) then hi else 0) = hi) by (destruct (hasHiLength _); [done|by rewrite H3]).
  eapply carries_bind; [eapply carries_if; [intros _; by apply carries_ser_msg, carries_uint|done]|]. rewrite Ehi.
  change (getLength (mkBitset flags hi [])) with (getLength (mkBitset flags hi bs)). rewrite H4, Nat2Z.id.
  assert (Ebs : (if 0 <? Z.of_nat (length bs) then bs else []) = bs).
  { destruct (Z.ltb_spec 0 (Z.of_nat (length bs))); [done|]. destruct bs; [done|]. cbn in *. lia. }
  eapply carries_bind; [eapply carries_if; [intros _; by apply carries_ser_msg, carries_bytes|done]|]. rewrite Ebs. carry.
Qed.

Record vectors_ok (h : Header) (nv : NodeVectors) : Prop := {
  vo_mask : bitset_ok (StateVectorMask nv);
  vo_main : state_vector_ok (MainStateVector nv);
  vo_additional : flags12 (newPacketContext h) = Ret (Z.of_nat (length (AdditionalStateVectors nv))) /\
                  Forall state_vector_ok (AdditionalStateVectors nv);
}.
Lemma Vectors_carries c nv : vectors_ok (header c) nv -> carries c c (Vectors_SerializeTo nv) Vectors_DeserializeFrom nv.
Proof.
  intros [H1 H2 [E3 H3]]. unfold Vectors_SerializeTo, Vectors_DeserializeFrom.
  eapply carries_bind; [by apply carries_ser, Bitset_carries|]. eapply carries_bind; [by apply carries_ser, StateVector_carries|].
  eapply carries_ask; [intros l; exact E3|].
  eapply carries_bind; [apply carries_slice; [done|]; intros i x Hx; apply carries_ser, StateVector_carries; by eapply list.Forall_forall|].
  destruct nv. carry.
Qed.

(** ** Announcements *)
Definition pair_ok (a b : list Z) : Prop := is_bits512 a /\ is_bits512 b.
Lemma pair_carries {A} c (a b : list Z) (f : list Z -> list Z -> A) : pair_ok a b ->
  carries c c (write_bytes (a ++ b)) (x ← read_bytes 128; mret (f (take 64 x) (drop 64 x))) (f a b).
Proof.
  unfold pair_ok, is_bits512. intros [Ha Hb]. apply (carries_struct c (a ++ b) 128 (fun x => f (take 64 x) (drop 64 x))).
  - rewrite length_app. lia.
  - by rewrite take_app_length', drop_app_length'.
Qed.

Record announcement_ok (na : NodeAnnouncement) : Prop := {
  ao_state : pair_ok (NodeStateHash (NodeState na)) (NodeStateHashSignature (NodeState na));
  ao_id : fits 4 (AnnounceID na);
  ao_reason : fits 4 (LeaveReason na);
  ao_joiner : brief_ok (Joiner na);
}.

Lemma NodeState_carries c gns : pair_ok (NodeStateHash gns) (NodeStateHashSignature gns) ->
  carries c c (NodeState_SerializeTo gns) NodeState_DeserializeFrom gns.
Proof. intros H. destruct gns as [a b]. exact (pair_carries c a b mkNodeState H). Qed.

(** The announcement of the sender itself: it leaves, or introduces a joiner. *)
Definition introduces (source : Z) (na : NodeAnnouncement) : bool :=
  negb (AnnounceID na =? source) && negb (IsAbsent (AnnounceID na)).
Definition sender_received (source : Z) (na : NodeAnnouncement) : NodeAnnouncement :=
  mkAnnouncement (NodeState na) (AnnounceID na) (if AnnounceID na =? source then LeaveReason na else 0)
    (if introduces source na then brief_received (Joiner na) else zeroBrief).

Lemma sender_carries h n a na : announcement_ok na ->
  carries (mkContext h ContextMembershipAnnouncement n a)
          (mkContext h ContextMembershipAnnouncement n (if introduces (SourceID h) na then AnnounceID na else a))
          (Announcement_SerializeTo na) Announcement_DeserializeFrom (sender_received (SourceID h) na).
Proof.
  intros [H1 H2 H3 H4]. unfold Announcement_SerializeTo, Announcement_DeserializeFrom, sender_received, introduces.
  eapply carries_bind; [by apply carries_ser, NodeState_carries|]. carry.
  eapply (carries_ask _ _ _ true); [done|]. cbn beta iota.
  eapply (carries_bind _ (mkContext h ContextMembershipAnnouncement n
    (if negb (AnnounceID na =? SourceID h) && negb (IsAbsent (AnnounceID na)) then AnnounceID na else a)) _ _ _ _ _
    (if AnnounceID na =? SourceID h then LeaveReason na else 0,
    if negb (AnnounceID na =? SourceID h) && negb (IsAbsent (AnnounceID na)) then brief_received (Joiner na) else zeroBrief)).
  - eapply (carries_ask _ _ _ (SourceID h)); [done|]. cbn beta iota.
    destruct (AnnounceID na =? SourceID h); cbn [negb andb].
    + apply (carries_map _ _ _ _ _ (fun reason => (reason, zeroBrief))), carries_ser. eauto with wire.
    + destruct (IsAbsent (AnnounceID na)) eqn:Ea; cbn [negb]; [apply carries_ret|].
      eapply carries_bind; [by apply carries_ser, Brief_carries|].
      apply (carries_tell _ (mkContext h ContextMembershipAnnouncement n (AnnounceID na))); [intros l; unfold SetAnnouncedJoinerNodeID; by rewrite Ea|]. apply carries_ret.
  - cbn beta iota. eapply (carries_ask _ _ _ false); [done|]. cbn beta iota.
    eapply carries_bind; [apply carries_ret|]. apply carries_ret.
Qed.

(** The announcement of a neighbour: only whether it leaves. *)
Definition neighbour_part (nodeID : Z) (na : NodeAnnouncement) : NodeAnnouncement :=
  mkAnnouncement (NodeState na) (AnnounceID na) (if AnnounceID na =? nodeID then LeaveReason na else 0) zeroBrief.

Lemma neighbour_part_carries h n a na : announcement_ok na -> n <> 0 ->
  carries (mkContext h ContextNeighbourAnnouncement n a) (mkContext h ContextNeighbourAnnouncement n a)
          (Announcement_SerializeTo na) Announcement_DeserializeFrom (neighbour_part n na).
Proof.
  intros [H1 H2 H3 H4] Hn. unfold Announcement_SerializeTo, Announcement_DeserializeFrom, neighbour_part.
  eapply carries_bind; [by apply carries_ser, NodeState_carries|]. carry.
  eapply (carries_ask _ _ _ false); [done|]. cbn beta iota. eapply carries_bind; [apply carries_ret|]. cbn beta iota.
  eapply (carries_ask _ _ _ true); [done|]. cbn beta iota.
  eapply (carries_bind _ _ _ _ _ _ _ (if AnnounceID na =? n then LeaveReason na else 0)); [|apply carries_ret].
  eapply (carries_ask _ _ _ n).
  { unfold GetNeighbourNodeID, IsAbsent. cbn. by destruct (Z.eqb_spec n 0). }
  destruct (AnnounceID na =? n); [apply carries_ser; eauto with wire|apply carries_ret].
Qed.

(** ** Memberships and neighbours *)

(** Between the fields the context only knows the joiner of the sender. *)
Definition plain_context (h : Header) (announced : Z) : packetContext := mkContext h NoContext 0 announced.

Record membership_ok (ma : MembershipAnnouncement) : Prop := {
  mo_rank : fits 4 (ma_CurrentRank ma);
  mo_power : fits 1 (ma_RequestedPower ma);
  mo_member : announcement_ok (ma_Member ma);
  mo_signature : is_bits512 (ma_AnnounceSignature ma);
}.
Definition membership_received (source : Z) (ma : MembershipAnnouncement) : MembershipAnnouncement :=
  if ma_CurrentRank ma =? 0 then mkMembership 0 (ma_CurrentRank ma) (ma_RequestedPower ma) zeroAnnouncement zeroBits512
  else mkMembership 0 (ma_CurrentRank ma) (ma_RequestedPower ma) (sender_received source (ma_Member ma)) (ma_AnnounceSignature ma).
(** The joiner the sender introduces, if any. *)
Definition announced_joiner (source : Z) (ma : MembershipAnnouncement) : Z :=
  if negb (ma_CurrentRank ma =? 0) && introduces source (ma_Member ma) then AnnounceID (ma_Member ma) else 0.

Lemma Membership_carries h ma : membership_ok ma ->
  carries (plain_context h 0) (plain_context h (announced_joiner (SourceID h) ma))
    (Membership_SerializeTo ma) Membership_DeserializeFrom (membership_received (SourceID h) ma).
Proof.
  intros [H1 H2 H3 H4]. unfold Membership_SerializeTo, Membership_DeserializeFrom, membership_received, announced_joiner.
  do 2 carry. destruct (ma_CurrentRank ma =? 0); cbn [negb andb].
  - eapply carries_bind; [apply carries_ret|]. apply carries_ret.
  - eapply (carries_bind _ _ _ _ _ _ _ (sender_received (SourceID h) (ma_Member ma), ma_AnnounceSignature ma)); [|apply carries_ret].
    apply (carries_tell _ (mkContext h ContextMembershipAnnouncement 0 0)); [done|].
    apply (carries_defer _ (mkContext h ContextMembershipAnnouncement 0
             (if introduces (SourceID h) (ma_Member ma) then AnnounceID (ma_Member ma) else 0))); [done|].
    eapply carries_bind; [by apply carries_ser, sender_carries|].
    eapply carries_bind; [by apply carries_ser, carries_bytes|]. apply carries_ret.
Qed.

Record neighbour_ok (ng : NeighbourAnnouncement) : Prop := {
  no_id : fits 4 (NeighbourNodeID ng);
  no_rank : fits 4 (ng_CurrentRank ng);
  no_power : fits 1 (ng_RequestedPower ng);
  no_joiner : brief_ok (ng_Joiner ng);
  no_by : fits 4 (JoinerIntroducedBy ng);
  no_member : announcement_ok (ng_Member ng);
  no_signature : is_bits512 (ng_AnnounceSignature ng);
  no_present : ng_CurrentRank ng <> 0 -> NeighbourNodeID ng <> 0;
}.
Definition neighbour_received (announced : Z) (ng : NeighbourAnnouncement) : NeighbourAnnouncement :=
  if ng_CurrentRank ng =? 0 then
    mkNeighbour (NeighbourNodeID ng) (ng_CurrentRank ng) (ng_RequestedPower ng)
      (if sends_joiner announced (NeighbourNodeID ng) then brief_received (ng_Joiner ng) else zeroBrief)
      (if sends_joiner announced (NeighbourNodeID ng) then JoinerIntroducedBy ng else 0) zeroAnnouncement (ng_AnnounceSignature ng)
  else
    mkNeighbour (NeighbourNodeID ng) (ng_CurrentRank ng) (ng_RequestedPower ng) zeroBrief 0
      (neighbour_part (NeighbourNodeID ng) (ng_Member ng)) (ng_AnnounceSignature ng).

Lemma Neighbour_carries h announced ng : neighbour_ok ng ->
  carries (plain_context h announced) (plain_context h announced)
    (Neighbour_SerializeTo ng) Neighbour_DeserializeFrom (neighbour_received announced ng).
Proof.
  intros [H1 H2 H3 H4 H5 H6 H7 H8]. unfold Neighbour_SerializeTo, Neighbour_DeserializeFrom, neighbour_received.
  do 3 carry. destruct (Z.eqb_spec (ng_CurrentRank ng) 0) as [|Hr].
  - eapply (carries_ask _ _ _ announced); [done|].
    eapply (carries_bind _ _ _ _ _ _ _ (if sends_joiner announced (NeighbourNodeID ng) then (brief_received (ng_Joiner ng), JoinerIntroducedBy ng)
                                          else (zeroBrief, 0))).
    + apply carries_if; [|done]. intros _. eapply carries_bind; [by apply carries_ser, Brief_carries|]. carry. carry.
    + destruct (sends_joiner _ _); (eapply carries_bind; [by apply carries_ser, carries_bytes|]; apply carries_ret).
  - apply (carries_tell _ (mkContext h ContextNeighbourAnnouncement (NeighbourNodeID ng) announced)); [done|].
    apply (carries_defer _ (mkContext h ContextNeighbourAnnouncement (NeighbourNodeID ng) announced)); [done|].
    eapply carries_bind; [apply carries_ser, neighbour_part_carries; auto|].
    eapply carries_bind; [by apply carries_ser, carries_bytes|]. apply carries_ret.
Qed.

Record neighbourhood_ok (n : Neighbourhood) : Prop := {
  uo_count : NeighbourCount n = Z.of_nat (length (Neighbours n));
  uo_fits : fits 1 (NeighbourCount n);
  uo_each : Forall neighbour_ok (Neighbours n);
}.
Definition neighbourhood_received (announced : Z) (n : Neighbourhood) : Neighbourhood :=
  mkNeighbourhood (NeighbourCount n) [] (neighbour_received announced <$> Neighbours n).
Lemma Neighbourhood_carries h announced n : neighbourhood_ok n ->
  carries (plain_context h announced) (plain_context h announced)
    (Neighbourhood_SerializeTo n) Neighbourhood_DeserializeFrom (neighbourhood_received announced n).
Proof.
  intros [H1 H2 H3]. unfold Neighbourhood_SerializeTo, Neighbourhood_DeserializeFrom, neighbourhood_received.
  carry. eapply carries_bind; [|apply carries_ret].
  apply carries_slice_to; [done|]. intros i x Hx. apply carries_ser_msg, Neighbour_carries. exact (proj1 (list.Forall_forall _ _) H3 x Hx).
Qed.

(** ** Any input *)
Lemma consumes_limited ok I n : consumes ok I (read_limited n).
Proof.
  intros s Hs. unfold wp, read_limited. destruct (_ || _); cbn; (split; [done|]); exists (take n (unread s)); by rewrite take_drop.
Qed.

Ltac consume := repeat first
  [ apply consumes_mret | apply consumes_throw | apply consumes_guard | apply consumes_uint | apply consumes_bytes
  | apply consumes_limited | solve [eauto with wire] | apply consumes_known
  | apply consumes_wrapped | apply consumes_capturing | apply consumes_ret
  | apply consumes_bind; [|intros ?] | apply consumes_each; intros ?
  | match goal with |- consumes _ _ (match ?x with _ => _ end) => destruct x end ].

Lemma consumes_brief ok I : consumes ok I Brief_DeserializeFrom.
Proof. unfold Brief_DeserializeFrom, deser, read_bits512. consume. Qed.
Lemma consumes_extended ok I : consumes ok I Extended_DeserializeFrom.
Proof. unfold Extended_DeserializeFrom, deser, read_powers, read_bits512. consume. Qed.
#[export] Hint Resolve consumes_brief consumes_extended : wire.
Lemma consumes_full ok I : consumes ok I Full_DeserializeFrom.
Proof. unfold Full_DeserializeFrom, deser. consume. Qed.
Lemma consumes_vectors ok I : consumes ok I Vectors_DeserializeFrom.
Proof. unfold Vectors_DeserializeFrom, Bitset_DeserializeFrom, StateVector_DeserializeFrom, deser, ser_msg. consume. Qed.
Lemma consumes_embedded ok I : consumes ok I Embedded_DeserializeFrom.
Proof. unfold Embedded_DeserializeFrom, deser. consume. Qed.
Lemma consumes_claims ok I : consumes ok I Claims_DeserializeFrom.
Proof. unfold Claims_DeserializeFrom. consume. Qed.
#[export] Hint Resolve consumes_full consumes_vectors consumes_embedded consumes_claims : wire.

(** The context is that of the packet with this header, and not inside a
    neighbour. *)
Definition context_of (h : Header) (c : packetContext) : Prop := header c = h.
Definition outside_neighbours (h : Header) (c : packetContext) : Prop :=
  header c = h /\ fieldContext c <> ContextNeighbourAnnouncement.

Lemma announce_known id c : IsAbsent id = false -> SetAnnouncedJoinerNodeID id c = Ret (mkContext (header c) (fieldContext c) (neighbourNodeID c) id).
Proof. intros E. unfold SetAnnouncedJoinerNodeID. by rewrite E. Qed.

(** Reading an announcement panics only inside a neighbour. *)
Lemma consumes_announcement (ok : Prop) (I : packetContext -> Prop) :
  (forall c id, I c -> I (mkContext (header c) (fieldContext c) (neighbourNodeID c) id)) ->
  (forall c, I c -> ok -> fieldContext c <> ContextNeighbourAnnouncement) ->
  consumes ok I Announcement_DeserializeFrom.
Proof.
  intros HI Hok. unfold Announcement_DeserializeFrom, NodeState_DeserializeFrom, deser.
  apply consumes_bind; [consume|]. intros state. apply consumes_bind; [consume|]. intros id.
  apply consumes_bind; [consume|]. intros membership. apply consumes_bind.
  - destruct membership; [|consume]. apply consumes_bind; [consume|]. intros source.
    destruct (id =? source); [consume|]. destruct (IsAbsent id) eqn:Ea; cbn [negb]; [consume|].
    apply consumes_bind; [consume|]. intros joiner. apply consumes_bind; [|intros _; consume].
    apply consumes_tell. intros c Hc. rewrite announce_known by done. by apply HI.
  - intros [reason joiner]. apply consumes_ask_bool.
    + intros c Hc Ho. apply bool_decide_eq_false_2. by apply Hok.
    + consume.
    + apply consumes_bind; [|intros; consume]. apply consumes_bind; [|intros; consume]. by apply consumes_ask.
Qed.

Lemma consumes_membership ok h I : (I = context_of h /\ ~ ok \/ I = outside_neighbours h) -> consumes ok I Membership_DeserializeFrom.
Proof.
  intros HI. unfold Membership_DeserializeFrom, deser, read_bits512.
  apply consumes_bind; [consume|]. intros rank. apply consumes_bind; [consume|]. intros power.
  apply consumes_bind; [|intros; consume]. destruct (negb (rank =? 0)); [|consume].
  assert (Hset : forall c f, f <> ContextNeighbourAnnouncement -> I c -> I (SetInContext f c)).
  { intros c f Hf Hc. destruct HI as [[-> _]| ->]; [done|]. by destruct Hc. }
  apply consumes_bind; [apply consumes_tell; intros c Hc; by apply Hset|]. intros _.
  apply consumes_defer; [intros c Hc; by apply Hset|]. apply consumes_bind; [|intros; consume].
  apply consumes_wrapped, consumes_announcement.
  - intros c id Hc. by destruct HI as [[-> _]| ->].
  - intros c Hc Ho. destruct HI as [[-> Hn]| ->]; [done|]. by destruct Hc.
Qed.

(** A neighbour that is a member but has no identifier makes the parser panic. *)
Lemma consumes_neighbourhood h : consumes False (context_of h) Neighbourhood_DeserializeFrom.
Proof.
  unfold Neighbourhood_DeserializeFrom, deser, ser_msg. apply consumes_bind; [consume|]. intros count.
  apply consumes_bind; [|intros; consume]. apply consumes_each. intros _. apply consumes_wrapped.
  unfold Neighbour_DeserializeFrom, deser, read_bits512.
  do 3 (apply consumes_bind; [consume|]; intros ?).
  destruct (_ =? 0); [consume|]. apply consumes_bind; [by apply consumes_tell|]. intros _.
  apply consumes_defer; [done|]. apply consumes_bind; [|intros; consume].
  apply consumes_wrapped, consumes_announcement; done.
Qed.
