(* ===== verification/PacketCodec.v ===== *)
(** * Packets of the consensus (src/network/consensus/serialization:
    unified_protocol.go, context.go, packet_reader.go)

    A packet is a header, a pulse number, a body and the signature of what
    precedes it.  Whatever a node serializes the parser of another node reads
    back, and whatever bytes arrive, the parser takes a packet of exactly the
    length its header says, or fails. *)
From S2P Require Import Prelude Pulse MemberPower MemberRank Wire PacketHeader PacketBody PacketRead.

(** ** unified_protocol.go *)
Inductive PacketBody : Type :=
  | BodyPulsar (b : PulsarPacketBody)
  | BodyGlobula (b : GlobulaConsensusPacketBody).

Record Packet : Type := mkPacket {
  pk_Header : Header;
  pk_PulseNumber : Z;
  EncryptableBody : option PacketBody;
  EncryptionData : list Z;
  PacketSignature : list Z;
}.

Definition NewBody (pt : Z) : option PacketBody :=
  if pt =? ProtocolTypePulsar then Some (BodyPulsar zeroPulsarBody)
  else if pt =? ProtocolTypeGlobulaConsensus then Some (BodyGlobula zeroGlobula)
  else None.

Definition with_header (h : Header) (p : Packet) : Packet :=
  mkPacket h (pk_PulseNumber p) (EncryptableBody p) (EncryptionData p) (PacketSignature p).
Definition Packet_setPayloadLength (n : Z) (p : Packet) : go Packet :=
  h ← setPayloadLength n (pk_Header p); Ret (with_header h p).
(** [copy] into an array. *)
Definition copy_to (dst src : list Z) : list Z := take (length dst) src ++ drop (length src) dst.
Definition setSignature (signature : list Z) (p : Packet) : Packet :=
  mkPacket (pk_Header p) (pk_PulseNumber p) (EncryptableBody p) (EncryptionData p) (copy_to (PacketSignature p) signature).
Definition getPulseNumber (p : Packet) : Z := Z.land (pk_PulseNumber p) pulseNumberMask.
Definition setPulseNumber (pulseNumber : Z) (p : Packet) : go Packet :=
  if pulseNumberMask <? pulseNumber then Panic "invalid pulse number"
  else Ret (mkPacket (pk_Header p) (Z.lor (pk_PulseNumber p) pulseNumber) (EncryptableBody p) (EncryptionData p) (PacketSignature p)).

Definition Body_SerializeTo (b : PacketBody) : io writer unit :=
  match b with BodyPulsar b => Pulsar_SerializeTo b | BodyGlobula b => Globula_SerializeTo b end.
Definition Body_DeserializeFrom (b : PacketBody) : io reader PacketBody :=
  match b with
  | BodyPulsar _ => b ← Pulsar_DeserializeFrom; mret (BodyPulsar b)
  | BodyGlobula _ => b ← Globula_DeserializeFrom; mret (BodyGlobula b)
  end.

(** The digest of the bytes of a packet and its signature come from the
    cryptography of the platform. *)
Section Codec.
Context (digest sign : list Z -> list Z).

(** [serializeContext.Finalize]: the packet as changed by the setters, and
    what was written. *)
Definition Finalize (p : Packet) (body : list Z) : go (Packet * result (list Z)) :=
  let payloadLength := Z.of_nat (length body) + headerSize + signatureSize in
  if 0xFFFF <? payloadLength then Ret (p, Fail (Errorf "payload too big"))
  else
    p ← Packet_setPayloadLength (u16 payloadLength) p;
    let packetBuffer := Header_bytes (pk_Header p) ++ body in
    let signature := sign (digest packetBuffer) in
    let p := setSignature signature p in
    let packetBuffer := packetBuffer ++ signature in
    if negb (Z.of_nat (length packetBuffer) =? payloadLength) then Ret (p, Fail ErrPayloadLengthMismatch)
    else Ret (p, Good packetBuffer).

Definition Packet_SerializeTo (p : Packet) : go (Packet * result (list Z)) :=
  match EncryptableBody p with
  | None => Ret (p, Fail (ErrMalformedPacketBody (Errorf "body is nil")))
  | Some body =>
      r ← (wrapped "malformed pulse number" (write_uint 4 (pk_PulseNumber p));;
           wrapped "malformed packet body" (Body_SerializeTo body);; mret tt) (mkWriter (newPacketContext (pk_Header p)) []);
      match r with
      | (s, Good _) => Finalize p (written s)
      | (_, Fail e) => Ret (p, Fail e)
      end
  end.

Definition Packet_DeserializeFrom : io reader Packet :=
  h ← wrapped "malformed header" Header_DeserializeFrom;
  tell (fun _ => Ret (newPacketContext h));;
  pn ← wrapped "malformed pulse number" (read_uint 4);
  match NewBody (GetProtocolType h) with
  | None => throw (ErrMalformedPacketBody (Errorf "invalid protocol"))
  | Some body =>
      body ← wrapped "malformed packet body" (Body_DeserializeFrom body);
      signature ← wrapped "invalid packet signature" read_bits512;
      total ← gets totalRead;
      guard_io (negb (getPayloadLength h =? total)) ErrPayloadLengthMismatch;;
      mret (mkPacket h pn (Some body) [] signature)
  end.

(** ** packet_reader.go *)
Record PacketParser : Type := mkParser { pp_data : list Z; pp_packet : Packet }.

(** [newPacketParser] over a datagram; nothing is known of the context before
    the header is read. *)
Definition newPacketParser (datagram : list Z) : go (result PacketParser) :=
  r ← capturing Packet_DeserializeFrom (mkReader (newPacketContext (mkHeader 0 0 0 0 0 0)) datagram 0);
  match r with
  | (_, Good (packet, data)) => Ret (Good (mkParser data packet))
  | (_, Fail e) => Ret (Fail e)
  end.

(** [GetPacketSignature]: the digest of the bytes before the signature, and
    the signature. *)
Definition GetPacketSignature (p : PacketParser) : list Z * list Z :=
  (digest (take (length (pp_data p) - 64) (pp_data p)), PacketSignature (pp_packet p)).
End Codec.

(** ** What is received of a body *)
Record embedded_ok (pd : EmbeddedPulsarData) : Prop := {
  eo_size : ep_Size pd = Z.of_nat (length (ep_Data pd)) /\ fits 2 (ep_Size pd) /\ ep_Size pd <> 0;
  eo_pulse : exists p, pulse_Deserialize (ep_Data pd) = Good p;
}.
Definition embedded_received (pd : EmbeddedPulsarData) : EmbeddedPulsarData :=
  mkEmbedded (ep_Size pd) (ep_Data pd)
    match pulse_Deserialize (ep_Data pd) with Good p => mkPulsarBody p [] | Fail _ => zeroPulsarBody end.
Lemma Embedded_carries c pd : embedded_ok pd ->
  carries c c (Embedded_SerializeTo pd) Embedded_DeserializeFrom (embedded_received pd).
Proof.
  intros [(E1 & H1 & H2) (p & Ep)]. unfold Embedded_SerializeTo, Embedded_DeserializeFrom, embedded_received. rewrite Ep.
  carry. destruct (Z.eqb_spec (ep_Size pd) 0); [done|]. apply carries_guard.
  eapply carries_bind; [apply carries_ser, carries_bytes; rewrite E1; lia|].
  rewrite Ep. apply carries_ret.
Qed.

Lemma Cloud_carries c ci : pair_ok (CloudIdentity ci) (LastCloudStateHash ci) ->
  carries c c (Cloud_SerializeTo ci) Cloud_DeserializeFrom ci.
Proof. intros H. destruct ci as [x y]. exact (pair_carries c x y mkCloud H). Qed.

Definition phase_of (h : Header) : Z := GetPayloadEquivalent (GetPacketType h).
Definition intro_flags (h : Header) : Z := getFlagRangeInt h 3 4.
Definition pulse_flag (h : Header) : bool := hasFlag h 2.
Definition joiner_ext_flag (h : Header) : bool := hasFlag h 5.
(** The joiner that the neighbours need not repeat. *)
Definition body_joiner (h : Header) (b : GlobulaConsensusPacketBody) : Z :=
  if one_of (phase_of h) PacketPhase1 PacketPhase2 then announced_joiner (SourceID h) (gb_Announcement b) else 0.

Record globula_ok (h : Header) (b : GlobulaConsensusPacketBody) : Prop := {
  go_rank : fits 4 (gb_CurrentRank b);
  go_pulsar : one_of (phase_of h) PacketPhase0 PacketPhase1 && pulse_flag h = true -> embedded_ok (gb_PulsarPacket b);
  go_announcement : membership_ok (gb_Announcement b);
  go_joinerExt : extended_ok (gb_JoinerExt b);
  go_brief : brief_ok (gb_BriefSelfIntro b);
  go_full : full_ok (gb_FullSelfIntro b);
  go_cloud : pair_ok (CloudIdentity (gb_CloudIntro b)) (LastCloudStateHash (gb_CloudIntro b));
  go_secret : is_bits512 (gb_JoinerSecret b);
  go_neighbourhood : neighbourhood_ok (gb_Neighbourhood b);
  go_vectors : phase_of h = PacketPhase3 -> vectors_ok h (gb_Vectors b);
  (** The parser reads no claims: a packet of phase 1 or 3 that has some is refused. *)
  go_claims : one_of (phase_of h) PacketPhase1 PacketPhase3 = true -> gb_Claims b = zeroClaims;
}.

Definition globula_received (h : Header) (b : GlobulaConsensusPacketBody) : GlobulaConsensusPacketBody :=
  let t := phase_of h in let flags := intro_flags h in
  mkGlobula
    (if t =? PacketPhase0 then gb_CurrentRank b else 0)
    (if one_of t PacketPhase0 PacketPhase1 && pulse_flag h then embedded_received (gb_PulsarPacket b) else zeroEmbedded)
    (if one_of t PacketPhase1 PacketPhase2 then membership_received (SourceID h) (gb_Announcement b) else zeroMembership)
    (if (t =? PacketPhase1) && joiner_ext_flag h then gb_JoinerExt b else zeroExtended)
    (if (t =? PacketPhase2) && (flags =? 1) then brief_received (gb_BriefSelfIntro b) else zeroBrief)
    (if one_of t PacketPhase1 PacketPhase2 && one_of flags 2 3 then full_received (gb_FullSelfIntro b) else zeroFull)
    (if one_of t PacketPhase1 PacketPhase2 && one_of flags 2 3 then gb_CloudIntro b else zeroCloud)
    (if one_of t PacketPhase1 PacketPhase2 && (flags =? 3) then gb_JoinerSecret b else zeroBits512)
    (if t =? PacketPhase2 then neighbourhood_received (body_joiner h b) (gb_Neighbourhood b) else zeroNeighbourhood)
    (if t =? PacketPhase3 then gb_Vectors b else zeroVectors)
    zeroClaims.

(** A part sent under a condition that stays in the context it is in. *)
Ltac carry_if := eapply carries_bind; [apply carries_if; [intros _; apply carries_ser; first
  [by apply carries_uint | by apply carries_bytes | by apply Brief_carries | by apply Full_carries | by apply Extended_carries
  |by apply Neighbourhood_carries | by apply Cloud_carries]|done]|].

Lemma Claims_none_carries c : carries c c (Claims_SerializeTo zeroClaims) Claims_DeserializeFrom zeroClaims.
Proof. exists [0; 0]. split; intros; done. Qed.

Lemma Globula_carries h b : globula_ok h b ->
  carries (plain_context h 0) (plain_context h (body_joiner h b)) (Globula_SerializeTo b) Globula_DeserializeFrom (globula_received h b).
Proof.
  intros [H1 H2 H3 H4 H5 H6 H7 H8 H9 H10 H11]. unfold Globula_SerializeTo, Globula_DeserializeFrom, globula_received.
  eapply (carries_ask _ _ _ (phase_of h)); [done|]. cbn zeta. set (t := phase_of h) in *.
  carry_if.
  eapply (carries_bind _ _ _ _ _ _ _ (if one_of t PacketPhase0 PacketPhase1 && pulse_flag h then _ else _)).
  { destruct (one_of t PacketPhase0 PacketPhase1); cbn [andb] in *; [|apply carries_ret].
    eapply (carries_ask _ _ _ (pulse_flag h)); [done|]. apply carries_if; [|done]. intros E. by apply carries_ser, Embedded_carries, H2. }
  apply (carries_bind _ (plain_context h (body_joiner h b)) _ _ _ _ _
    (if one_of t PacketPhase1 PacketPhase2 then membership_received (SourceID h) (gb_Announcement b) else zeroMembership)).
  { unfold body_joiner. fold t. destruct (one_of t PacketPhase1 PacketPhase2); [by apply carries_ser, Membership_carries|apply carries_ret]. }
  eapply (carries_bind _ _ _ _ _ _ _ (if (t =? PacketPhase1) && joiner_ext_flag h then _ else _)).
  { destruct (t =? PacketPhase1); cbn [andb]; [|apply carries_ret].
    eapply (carries_ask _ _ _ (joiner_ext_flag h)); [done|]. apply carries_if; [|done]. intros E. by apply carries_ser, Extended_carries. }
  eapply (carries_ask _ _ _ (intro_flags h)); [done|]. set (flags := intro_flags h).
  do 5 carry_if.
  eapply carries_bind; [apply carries_if; [intros E; apply carries_ser, Vectors_carries, H10; by apply Z.eqb_eq in E|done]|].
  eapply (carries_bind _ _ _ _ _ _ _ zeroClaims); [|apply carries_ret].
  destruct (one_of t PacketPhase1 PacketPhase3); [rewrite H11 by done; apply carries_ser, Claims_none_carries|apply carries_ret].
Qed.

(** ** What is received of a packet *)
Definition pulsar_body_ok (p : Data) : Prop :=
  fits 4 (PulseEpoch p) /\ fits 2 (NextPulseDelta p) /\ fits 2 (PrevPulseDelta p) /\ fits 4 (Timestamp p) /\ length (PulseEntropy p) = 32%nat.

Lemma DataExt_of_bytes_bytes pn p : pulsar_body_ok p ->
  DataExt_of_bytes pn (DataExt_bytes p) = mkData pn (PulseEpoch p) (NextPulseDelta p) (PrevPulseDelta p) (Timestamp p) (PulseEntropy p).
Proof.
  intros (H1 & H2 & H3 & H4 & H5). destruct p as [n e d d' t s]. cbn [PulseEpoch NextPulseDelta PrevPulseDelta Timestamp PulseEntropy] in *.
  unfold DataExt_bytes, DataExt_of_bytes. cbn [PulseEpoch NextPulseDelta PrevPulseDelta Timestamp PulseEntropy].
  set (e4 := be 4 e). set (d2 := be 2 d). set (d2' := be 2 d'). set (t4 := be 4 t).
  rewrite <- (of_be_be 4 e H1), <- (of_be_be 2 d H2), <- (of_be_be 2 d' H3), <- (of_be_be 4 t H4). f_equal.
  change (drop 12 (e4 ++ d2 ++ d2' ++ t4 ++ s)) with s. by rewrite take_ge by lia.
Qed.

Definition body_ok (h : Header) (b : PacketBody) : Prop :=
  match b with BodyPulsar b => pulsar_body_ok (getPulseData b) | BodyGlobula b => globula_ok h b end.
Definition body_protocol (b : PacketBody) : Z :=
  match b with BodyPulsar _ => ProtocolTypePulsar | BodyGlobula _ => ProtocolTypeGlobulaConsensus end.
Definition without_number (p : Data) : Data :=
  mkData 0 (PulseEpoch p) (NextPulseDelta p) (PrevPulseDelta p) (Timestamp p) (PulseEntropy p).
Definition body_received (h : Header) (b : PacketBody) : PacketBody :=
  match b with
  | BodyPulsar b => BodyPulsar (mkPulsarBody (without_number (getPulseData b)) [])
  | BodyGlobula b => BodyGlobula (globula_received h b)
  end.

Record packet_ok (p : Packet) (body : PacketBody) : Prop := {
  po_header : header_ok (pk_Header p);
  po_pulse : fits 4 (pk_PulseNumber p);
  po_body : EncryptableBody p = Some body;
  po_protocol : GetProtocolType (pk_Header p) = body_protocol body;
  po_body_ok : body_ok (pk_Header p) body;
  po_signature : is_bits512 (PacketSignature p);
}.

Lemma Body_carries h b : body_ok h b -> exists c',
  carries (newPacketContext h) c' (Body_SerializeTo b) (Body_DeserializeFrom b) (body_received h b).
Proof.
  destruct b as [b|b]; intros H.
  - exists (newPacketContext h). cbn [Body_SerializeTo Body_DeserializeFrom body_received].
    apply (carries_map _ _ _ _ _ BodyPulsar). apply carries_struct.
    + destruct H as (_ & _ & _ & _ & H). unfold DataExt_bytes. rewrite !length_app, !length_be. lia.
    + by rewrite DataExt_of_bytes_bytes.
  - eexists. apply (carries_map _ _ _ _ _ BodyGlobula). by apply Globula_carries.
Qed.

(** The parser makes a body of its own. *)
Lemma NewBody_protocol b : exists z, NewBody (body_protocol b) = Some z /\ Body_DeserializeFrom z = Body_DeserializeFrom b.
Proof. destruct b; by eexists. Qed.

(** The payload of a packet: its pulse number and its body, as the serializer
    of the body writes it. *)
Definition payload_of (p : Packet) (body : PacketBody) : go (result (list Z)) :=
  r ← (write_uint 4 (pk_PulseNumber p);; Body_SerializeTo body) (mkWriter (newPacketContext (pk_Header p)) []);
  Ret match r with (s, Good _) => Good (written s) | (_, Fail e) => Fail e end.

Section Roundtrip.
Context (digest sign : list Z -> list Z).

Lemma copy_to_full dst src : length dst = length src -> copy_to dst src = src.
Proof. intros E. unfold copy_to. by rewrite E, take_ge, drop_ge, app_nil_r by lia. Qed.

Lemma Finalize_spec p bs : header_ok (pk_Header p) -> is_bits512 (PacketSignature p) -> (forall d, is_bits512 (sign d)) ->
  let n := Z.of_nat (length bs) + 80 in
  if n <=? payloadLengthMask then
    exists h, setPayloadLength n (pk_Header p) = Ret h /\ header_ok h /\ getPayloadLength h = n /\
      h = with_length (HeaderAndPayloadLength h) (pk_Header p) /\
      let m := Header_bytes h ++ bs in
      Finalize digest sign p bs = Ret (setSignature (sign (digest m)) (with_header h p), Good (m ++ sign (digest m)))
  else if n <=? 0xFFFF then Finalize digest sign p bs = Panic "invalid payload length"
  else Finalize digest sign p bs = Ret (p, Fail (Errorf "payload too big")).
Proof.
  intros Hh Hs Hsign n. unfold Finalize, Packet_setPayloadLength. change (Z.of_nat (length bs) + headerSize + signatureSize) with
    (Z.of_nat (length bs) + 16 + 64). replace (Z.of_nat (length bs) + 16 + 64) with n by (unfold n; lia).
  assert (Hn : 0 <= n) by (unfold n; lia).
  pose proof (setPayloadLength_spec n (pk_Header p) (ho_length _ Hh) Hn) as Hset.
  change payloadLengthMask with 16383 in *. destruct (Z.leb_spec n 16383) as [Hle|Hgt].
  - rewrite (proj2 (Z.ltb_ge 16383 n)) in Hset by done. destruct Hset as (h & E & Hl & Hok & Eh).
    exists h. split_and!; auto. rewrite (proj2 (Z.ltb_ge 0xFFFF n)) by lia. rewrite u16_small by lia. rewrite E. cbn [mbind go_bind].
    rewrite !length_app, Hsign. change (length (Header_bytes _)) with 16%nat. destruct (Z.eqb_spec (Z.of_nat (16 + length bs + 64)) n); [done|].
    exfalso. unfold n in *. lia.
  - destruct (Z.leb_spec n 0xFFFF).
    + rewrite (proj2 (Z.ltb_ge 0xFFFF n)), u16_small by lia. rewrite (proj2 (Z.ltb_lt 16383 n)) in Hset by done. by rewrite Hset.
    + by rewrite (proj2 (Z.ltb_lt 0xFFFF n)) by lia.
Qed.

(** The pulse number and the body: what is written, and that it is read
    again under a header that differs in its length only. *)
Lemma payload_carries p body : packet_ok p body -> exists c' payload,
  carries_as payload (newPacketContext (pk_Header p)) c'
    (wrapped "malformed pulse number" (write_uint 4 (pk_PulseNumber p));;
     wrapped "malformed packet body" (Body_SerializeTo body);; mret tt)
    (pn ← wrapped "malformed pulse number" (read_uint 4);
     body ← wrapped "malformed packet body" (Body_DeserializeFrom body); mret (pn, body))
    (pk_PulseNumber p, body_received (pk_Header p) body).
Proof.
  intros [H1 H2 H3 H4 H5 H6]. destruct (Body_carries _ _ H5) as (c' & Hb). exists c'.
  eapply carries_bind; [by apply carries_wrapped, carries_uint|].
  eapply carries_bind; [by apply carries_wrapped|]. apply carries_ret.
Qed.

Lemma relen_same h : relen (HeaderAndPayloadLength h) (newPacketContext h) = newPacketContext h.
Proof. by destruct h. Qed.

(** The parser on the bytes of a packet. *)
Lemma parse_packet h body z payload signature pn b rest : header_ok h -> is_bits512 signature ->
  NewBody (GetProtocolType h) = Some z -> Body_DeserializeFrom z = Body_DeserializeFrom body ->
  getPayloadLength h = Z.of_nat (length payload) + 80 ->
  (forall rest n, exists c', (pn ← wrapped "malformed pulse number" (read_uint 4);
      body ← wrapped "malformed packet body" (Body_DeserializeFrom body); mret (pn, body))
     (mkReader (newPacketContext h) (payload ++ rest) n) = Ret (mkReader c' rest (n + Z.of_nat (length payload)), Good (pn, b))) ->
  newPacketParser ((Header_bytes h ++ payload ++ signature) ++ rest) =
  Ret (Good (mkParser (Header_bytes h ++ payload ++ signature) (mkPacket h pn (Some b) [] signature))).
Proof.
  intros Hh Hs Hz Ez Hl Hr. unfold newPacketParser, capturing.
  set (s0 := mkReader _ _ 0).
  assert (E : exists c', Packet_DeserializeFrom s0 =
    Ret (mkReader c' rest (Z.of_nat (length (Header_bytes h ++ payload ++ signature))), Good (mkPacket h pn (Some b) [] signature))).
  { unfold Packet_DeserializeFrom, Header_DeserializeFrom, s0. rewrite <- !(assoc_L (++)).
    destruct (carries_as_bytes (newPacketContext (mkHeader 0 0 0 0 0 0)) 16 (Header_bytes h) (length_Header_bytes h)) as [_ R].
    specialize (R 0 (payload ++ signature ++ rest) 0). change (relen 0 _) with (newPacketContext (mkHeader 0 0 0 0 0 0)) in R.
    unfold mbind at 1, io_bind at 1, wrapped at 1. unfold mbind at 1, io_bind at 1. rewrite R. cbn [mret io_ret].
    rewrite Header_of_bytes_bytes by done. unfold mbind at 1, io_bind at 1, tell. cbn [get_ctx set_ctx reader_context unread totalRead].
    destruct (Hr (signature ++ rest) (0 + Z.of_nat (length (Header_bytes h)))) as (c' & E).
    rewrite Hz. revert E. unfold mbind, io_bind. 
    destruct (wrapped "malformed pulse number" (read_uint 4) _) as [[s1 [pn1|e]]|]; try done. rewrite Ez.
    destruct (wrapped "malformed packet body" (Body_DeserializeFrom body) s1) as [[s2 [b1|e]]|]; try done.
    cbn [mret io_ret]. intros [= -> -> ->].
    destruct (carries_as_bytes c' 64 signature Hs) as [_ R2]. specialize (R2 (HeaderAndPayloadLength (header c')) rest).
    replace (relen _ c') with c' in R2 by (by destruct c' as [[]]). unfold wrapped, read_bits512. rewrite R2. cbn [gets totalRead].
    rewrite Hl, Hs. change (length (Header_bytes h)) with 16%nat.
    rewrite !length_app, Hs. change (length (Header_bytes h)) with 16%nat.
    replace (0 + Z.of_nat 16 + Z.of_nat (length payload) + Z.of_nat 64) with (Z.of_nat (length payload) + 80) by lia.
    rewrite Z.eqb_refl. cbn [negb guard_io mret io_ret]. eexists.
    replace (Z.of_nat (16 + (length payload + 64))) with (Z.of_nat (length payload) + 80) by lia. reflexivity. }
  destruct E as (c' & ->). unfold s0. cbn [unread mbind go_bind].
  by rewrite length_app, Nat.add_sub, take_app_length.
Qed.

(** ** The round trip *)

Lemma unwrapped_payload p body c' payload :
  (wrapped "malformed pulse number" (write_uint 4 (pk_PulseNumber p));;
   wrapped "malformed packet body" (Body_SerializeTo body);; mret tt) (mkWriter (newPacketContext (pk_Header p)) []) =
    Ret (mkWriter c' payload, Good tt) ->
  payload_of p body = Ret (Good payload).
Proof.
  unfold payload_of, mbind at 1 2 4, io_bind, wrapped. destruct (write_uint 4 _ _) as [[s1 [[]|e1]]|]; [|done..].
  cbn. destruct (Body_SerializeTo body s1) as [[s2 [[]|e2]]|]; [|done..]. cbn. by intros [= ->].
Qed.

(** The bytes of a packet that fits, and what the parser makes of them. *)
Lemma packet_travels p body : packet_ok p body -> (forall d, is_bits512 (sign d)) ->
  exists payload, payload_of p body = Ret (Good payload) /\
  Packet_SerializeTo digest sign p = Finalize digest sign p payload /\
  forall h, h = with_length (HeaderAndPayloadLength h) (pk_Header p) -> header_ok h ->
    getPayloadLength h = Z.of_nat (length payload) + 80 ->
  forall signature rest, is_bits512 signature ->
  newPacketParser ((Header_bytes h ++ payload ++ signature) ++ rest) =
  Ret (Good (mkParser (Header_bytes h ++ payload ++ signature)
    (mkPacket h (pk_PulseNumber p) (Some (body_received (pk_Header p) body)) [] signature))).
Proof.
  intros Hp Hsign. destruct (payload_carries p body Hp) as (c' & payload & Hw & Hr). exists payload.
  destruct Hp as [H1 H2 H3 H4 H5 H6]. split_and!.
  - specialize (Hw (HeaderAndPayloadLength (pk_Header p)) []). rewrite relen_same in Hw. by apply unwrapped_payload in Hw.
  - unfold Packet_SerializeTo. rewrite H3. specialize (Hw (HeaderAndPayloadLength (pk_Header p)) []).
    rewrite relen_same in Hw. by rewrite Hw.
  - intros h Eh Hh El signature rest Hs. destruct (NewBody_protocol body) as (z & Hz & Ez).
    apply (parse_packet h body z payload signature (pk_PulseNumber p) (body_received (pk_Header p) body)); try done.
    + rewrite Eh. change (GetProtocolType (with_length _ _)) with (GetProtocolType (pk_Header p)). by rewrite H4.
    + intros rest' n. eexists. specialize (Hr (HeaderAndPayloadLength h) rest' n).
      replace (relen (HeaderAndPayloadLength h) (newPacketContext (pk_Header p))) with (newPacketContext h) in Hr by (by rewrite Eh at 1).
      exact Hr.
Qed.

(** C34: whatever digests and 64-byte signatures are used, a packet whose
    parts are in their ranges, and that has no claims in phase 1 and 3, has a
    payload: what its pulse number and body are serialized to.  With [n] the
    length of that and of the 80 bytes of header and signature, it is
    serialized exactly if [n] fits 14 bits, and the parser of another node,
    given these bytes and whatever follows them, takes exactly these bytes, the
    header with the length, the pulse number, the body less its parts that the
    flags leave out, and the signature of the bytes before it; if [n] fits 16
    bits only the serializer panics, and above it answers an error. *)
Theorem Packet_roundtrip p body : packet_ok p body -> (forall d, is_bits512 (sign d)) ->
  exists payload, payload_of p body = Ret (Good payload) /\
  let n := Z.of_nat (length payload) + 80 in
  (n <= payloadLengthMask -> exists h p', let m := Header_bytes h ++ payload in let data := m ++ sign (digest m) in
     Packet_SerializeTo digest sign p = Ret (p', Good data) /\
     h = with_length (HeaderAndPayloadLength h) (pk_Header p) /\ getPayloadLength h = n /\
     forall rest, exists parser, newPacketParser (data ++ rest) = Ret (Good parser) /\ pp_data parser = data /\
       pp_packet parser = mkPacket h (pk_PulseNumber p) (Some (body_received (pk_Header p) body)) [] (sign (digest m)) /\
       GetPacketSignature digest parser = (digest m, sign (digest m))) /\
  (payloadLengthMask < n <= 0xFFFF -> Packet_SerializeTo digest sign p = Panic "invalid payload length") /\
  (0xFFFF < n -> Packet_SerializeTo digest sign p = Ret (p, Fail (Errorf "payload too big"))).
Proof.
  intros Hp Hsign. destruct (packet_travels p body Hp Hsign) as (payload & Epl & Es & Htravel). exists payload. split; [done|].
  rewrite Es. pose proof (Finalize_spec p payload (po_header _ _ Hp) (po_signature _ _ Hp) Hsign) as Hf. cbn zeta in *.
  split_and!.
  - intros Hn. rewrite (proj2 (Z.leb_le _ _)) in Hf by done. destruct Hf as (h & _ & Hh & El & Eh & Ef).
    eexists h, _. split_and!; [exact Ef|done|done|]. set (m := Header_bytes h ++ payload) in *. intros rest.
    eexists. split; [unfold m; rewrite <- (assoc_L (++) (Header_bytes h)); by apply Htravel|]. cbn [pp_data pp_packet].
    unfold m. rewrite <- (assoc_L (++) (Header_bytes h)). split_and!; [done|done|].
    unfold GetPacketSignature. cbn [pp_data pp_packet PacketSignature].
    rewrite (assoc_L (++)). fold m. by rewrite length_app, Hsign, Nat.add_sub, take_app_length.
  - intros Hn. rewrite (proj2 (Z.leb_gt _ payloadLengthMask)), (proj2 (Z.leb_le _ 0xFFFF)) in Hf by lia. done.
  - intros Hn. change payloadLengthMask with 16383 in *.
    rewrite (proj2 (Z.leb_gt _ 16383)), (proj2 (Z.leb_gt _ 0xFFFF)) in Hf by lia. done.
Qed.
End Roundtrip.

(** ** A packet of phase 2 *)
Module Sample.
Definition bits (k : Z) : list Z := repeat k 64.
Definition sign (d : list Z) : list Z := bits (Z.of_nat (length d) mod 256).
Definition joiner : NodeBriefIntro := mkBrief 9 3 0 20 (repeat 1 18) (bits 2) [] (bits 3).
Definition member : NodeAnnouncement := mkAnnouncement (mkNodeState (bits 4) (bits 5)) 9 0 joiner.
Definition neighbour : NeighbourAnnouncement :=
  mkNeighbour 6 0x120014 30 zeroBrief 0 (mkAnnouncement (mkNodeState (bits 6) (bits 7)) 6 77 zeroBrief) (bits 8).
Definition the_joiner : NeighbourAnnouncement := mkNeighbour 9 0 20 zeroBrief 0 zeroAnnouncement (bits 9).
Definition body : GlobulaConsensusPacketBody :=
  mkGlobula 0 zeroEmbedded (mkMembership 5 0x110014 40 member (bits 10)) zeroExtended zeroBrief zeroFull zeroCloud (bits 0)
    (mkNeighbourhood 2 [] [neighbour; the_joiner]) zeroVectors zeroClaims.
Definition packet : Packet := mkPacket (mkHeader 7 (16 + PacketPhase2) 1 0 5 7) 65600 (Some (BodyGlobula body)) [] (bits 0).

Ltac parts := repeat first [done | intros _ | intros ? ? | match goal with |- fits _ _ => by split; vm_compute end | split | constructor].
Lemma packet_is_ok : packet_ok packet (BodyGlobula body).
Proof. split; parts. Qed.

(** A joiner without introduction that tells of one neighbour: a member, but
    with the identifier of no node. *)
Definition hostile : list Z :=
  Header_bytes (mkHeader 7 (16 + PacketPhase2) 1 0 5 7) ++ be 4 65600 ++ be 4 0 ++ be 1 20 ++
  be 1 1 ++ be 4 0 ++ be 4 0x110014 ++ be 1 20 ++ repeat 0 128 ++ be 4 6.

(** A packet of phase 1 with one claim. *)
Definition claiming : Packet :=
  mkPacket (mkHeader 7 (16 + PacketPhase1) 1 0 5 7) 65600 (Some (BodyGlobula
    (mkGlobula 0 zeroEmbedded zeroMembership zeroExtended zeroBrief zeroFull zeroCloud (bits 0) zeroNeighbourhood zeroVectors
       (Push (NewGenericClaim [1; 2; 3]) NewClaimList)))) [] (bits 0).
End Sample.

(** ** Any datagram *)
Lemma consumes_globula (ok : Prop) h I :
  (I = context_of h /\ ~ ok \/ I = outside_neighbours h /\ phase_of h <> PacketPhase2) ->
  consumes ok I Globula_DeserializeFrom.
Proof.
  intros HI. assert (Hh : forall c, I c -> header c = h) by (intros c Hc; destruct HI as [[-> _]|[-> _]]; [done|by destruct Hc]).
  unfold Globula_DeserializeFrom, deser, Cloud_DeserializeFrom, read_bits512.
  assert (Hphase : forall (k : Z -> io reader GlobulaConsensusPacketBody),
    consumes ok I (k (phase_of h)) -> consumes ok I (ask packet_phase ≫= k)).
  { intros k Hk s Hs. unfold mbind, io_bind, ask, wp. cbn. rewrite (Hh _ Hs). exact (Hk s Hs). }
  apply Hphase. set (t := phase_of h) in *.
  apply consumes_bind; [consume|]. intros rank. apply consumes_bind; [consume|]. intros pulsar.
  apply consumes_bind.
  { destruct (one_of t PacketPhase1 PacketPhase2); [|consume]. apply consumes_wrapped, (consumes_membership _ h).
    destruct HI as [HI|[HI _]]; [by left|by right]. }
  intros announcement. apply consumes_bind; [consume|]. intros joinerExt. apply consumes_bind; [consume|]. intros flags.
  do 4 (apply consumes_bind; [consume|]; intros ?).
  apply consumes_bind; [|intros; consume].
  destruct (Z.eqb_spec t PacketPhase2) as [Et|]; [|consume]. apply consumes_wrapped.
  destruct HI as [[-> Hok]|[_ Hne]]; [|done]. intros s Hs. eapply (wp_ok False ok); [done|]. by apply consumes_neighbourhood.
Qed.

Definition may_panic (h : Header) : Prop :=
  GetProtocolType h = ProtocolTypeGlobulaConsensus /\ phase_of h = PacketPhase2.

Lemma consumes_body h z : NewBody (GetProtocolType h) = Some z ->
  exists I, I (newPacketContext h) /\ consumes (~ may_panic h) I (Body_DeserializeFrom z).
Proof.
  unfold NewBody. destruct (Z.eqb_spec (GetProtocolType h) ProtocolTypePulsar) as [|Hne]; [|destruct (Z.eqb_spec (GetProtocolType h) ProtocolTypeGlobulaConsensus) as [Eg|]; [|done]].
  - intros [= <-]. exists (context_of h). split; [done|]. cbn [Body_DeserializeFrom]. unfold Pulsar_DeserializeFrom.
    apply consumes_bind; [consume|]. intros. consume.
  - intros [= <-]. destruct (decide (phase_of h = PacketPhase2)) as [E|E].
    + exists (context_of h). split; [done|]. cbn [Body_DeserializeFrom]. apply consumes_bind; [|intros; consume].
      apply (consumes_globula _ h). left. split; [done|]. intros Hn. by apply Hn.
    + exists (outside_neighbours h). split; [done|]. cbn [Body_DeserializeFrom]. apply consumes_bind; [|intros; consume].
      apply (consumes_globula _ h). by right.
Qed.

(** C35: whatever bytes arrive, the parser panics at most on a packet of phase
    2 of the consensus, and a packet it takes is a prefix of them with the
    length its header says, ending with its signature, which is for the bytes
    before it. *)
Theorem newPacketParser_sound datagram digest :
  match newPacketParser datagram with
  | Ret (Good parser) =>
      let packet := pp_packet parser in
      pk_Header packet = Header_of_bytes (take 16 datagram) /\
      (exists rest, datagram = pp_data parser ++ rest) /\
      Z.of_nat (length (pp_data parser)) = getPayloadLength (pk_Header packet) /\
      exists m, pp_data parser = m ++ PacketSignature packet /\ length (PacketSignature packet) = 64%nat /\
        GetPacketSignature digest parser = (digest m, PacketSignature packet)
  | Ret (Fail _) => True
  | Panic _ => may_panic (Header_of_bytes (take 16 datagram))
  end.
Proof.
  unfold newPacketParser, capturing. set (s0 := mkReader _ datagram 0).
  assert (H : wp (~ may_panic (Header_of_bytes (take 16 datagram))) Packet_DeserializeFrom s0 (fun s' r =>
    match r with
    | Good p => pk_Header p = Header_of_bytes (take 16 datagram) /\ length (PacketSignature p) = 64%nat /\
        totalRead s' = getPayloadLength (pk_Header p) /\
        exists m, datagram = (m ++ PacketSignature p) ++ unread s' /\ totalRead s' = Z.of_nat (length (m ++ PacketSignature p))
    | Fail _ => True
    end)).
  { unfold Packet_DeserializeFrom, Header_DeserializeFrom. apply wp_bind, wp_wrapped, wp_bind. unfold read_bytes at 1, wp at 1.
    cbn [s0 unread r_ctx totalRead]. destruct (Nat.ltb_spec (length datagram) 16) as [|Hlen]; [done|]. cbn [wrap_err].
    set (h := Header_of_bytes (take 16 datagram)). apply wp_bind. unfold wp at 1, tell. cbn [get_ctx set_ctx reader_context unread totalRead].
    apply wp_bind, wp_wrapped. eapply wp_mono; [apply (consumes_uint _ (fun c => c = newPacketContext h) 4); done|].
    intros s1 [pn|e] (Hc1 & k1 & E1 & N1); cbn [wrap_err unread totalRead r_ctx] in *; [|done].
    destruct (NewBody (GetProtocolType h)) as [z|] eqn:Ez; [|done].
    destruct (consumes_body h z Ez) as (I & HI & Hbody). apply wp_bind, wp_wrapped.
    eapply wp_mono; [apply Hbody; by rewrite Hc1|]. intros s2 [b|e] (Hc2 & k2 & E2 & N2); cbn [wrap_err]; [|done].
    apply wp_bind, wp_wrapped. unfold wp at 1, read_bits512, read_bytes.
    destruct (Nat.ltb_spec (length (unread s2)) 64) as [|Hsig]; [done|]. cbn [wrap_err].
    apply wp_bind. unfold wp at 1, gets. cbn [totalRead unread]. apply wp_bind.
    destruct (Z.eqb_spec (getPayloadLength h) (totalRead s2 + Z.of_nat 64)) as [El|]; [|done]. cbn.
    split_and!; [done| rewrite length_take; lia|done|]. exists (take 16 datagram ++ k1 ++ k2). split.
    - rewrite <- !(assoc_L (++)), take_drop, <- E2, <- E1. by rewrite take_drop.
    - rewrite !length_app, !length_take. rewrite N2, N1. lia. }
  unfold wp in H. destruct (Packet_DeserializeFrom s0) as [[s' [p|e]]|msg]; cbn [mbind go_bind]; [|done|].
  - destruct H as (H1 & H2 & H3 & m & E & N). cbn [pp_packet pp_data].
    assert (Ed : take (length (unread s0) - length (unread s')) (unread s0) = m ++ PacketSignature p).
    { change (unread s0) with datagram. rewrite E at 1 2. by rewrite length_app, Nat.add_sub, take_app_length. }
    rewrite Ed. split_and!; [done|by exists (unread s')|lia|]. exists m. split_and!; [done..|].
    unfold GetPacketSignature. cbn [pp_data pp_packet]. by rewrite length_app, H2, Nat.add_sub, take_app_length.
  - destruct (decide (may_panic (Header_of_bytes (take 16 datagram)))); [done|]. exfalso. by apply H.
Qed.

(** *** At concrete inputs *)
Lemma Packet_roundtrip_witness : exists p' data parser,
  Packet_SerializeTo (fun d => d) Sample.sign Sample.packet = Ret (p', Good data) /\
  newPacketParser (data ++ [1; 2]) = Ret (Good parser) /\ pp_data parser = data /\
  EncryptableBody (pp_packet parser) = Some (body_received (pk_Header Sample.packet) (BodyGlobula Sample.body)).
Proof.
  destruct (Packet_roundtrip (fun d => d) Sample.sign Sample.packet (BodyGlobula Sample.body) Sample.packet_is_ok
              (fun d => repeat_length _ _)) as (payload & _ & H1 & H2 & H3).
  assert (E : match Packet_SerializeTo (fun d => d) Sample.sign Sample.packet with Ret (_, Good _) => true | _ => false end = true)
    by (vm_compute; reflexivity).
  destruct (Z.le_gt_cases (Z.of_nat (length payload) + 80) payloadLengthMask) as [Hn|Hn].
  - destruct (H1 Hn) as (h & p' & Es & _ & _ & Hp). destruct (Hp [1; 2]) as (parser & Ep & Ed & Epk & _).
    eexists p', _, parser. split_and!; [exact Es|exact Ep|exact Ed|by rewrite Epk].
  - destruct (Z.le_gt_cases (Z.of_nat (length payload) + 80) 0xFFFF) as [Hf|Hf].
    + rewrite H2 in E by done. done.
    + rewrite H3 in E by done. done.
Defined.

(** A datagram from the network makes the parser panic. *)
Example hostile_neighbour : newPacketParser Sample.hostile = Panic "illegal value".
Proof. vm_compute. reflexivity. Qed.

(** A claim is sent, but the packet that carries it is refused. *)
Example claim_refused :
  match Packet_SerializeTo (fun d => d) Sample.sign Sample.claiming with
  | Ret (_, Good data) => newPacketParser data = Ret (Fail ErrPayloadLengthMismatch)
  | _ => False
  end.
Proof. vm_compute. reflexivity. Qed.
