(* ===== verification/PacketBuilder.v ===== *)
(** * What a node says and what another node hears
    (src/network/consensus/serialization: packet_builder.go, fillers.go,
    packet_reader.go; gcpv2/api/transport/transport.go)

    The builder fills packets from what a node announces; the readers answer
    the same questions from a parsed packet.  Public keys, endpoints and
    references are their bytes here; their text forms are outside. *)
From S2P Require Import Prelude Pulse MemberPower MemberRank Wire PacketHeader PacketBody PacketRead PacketCodec.

(** ** transport.go *)
Definition HasAny (o mask : Z) : bool := negb (Z.land o mask =? 0).
Definition SendWithoutPulseData : Z := 1.
Definition TargetNeedsIntro : Z := 2.
Definition PrepareWithoutPulseData : Z := SendWithoutPulseData.
Definition AlternativePhasePacket : Z := Z.shiftl 1 16.
Definition OnlyBriefIntroAboutJoiner : Z := Z.shiftl 1 17.

(** ** What the interfaces of transport and profiles answer *)

(** [BriefIntroductionReader]; [br_signed] is the data of the signed digest. *)
Record BriefIntroduction : Type := mkBriefIntro {
  br_NodeID : Z;
  br_PrimaryRole : Z;
  br_SpecialRoles : Z;
  br_StartPower : Z;
  br_Endpoint : list Z;
  br_PublicKey : list Z;
  br_Signed : list Z;
  br_Signature : list Z;
}.
(** The extension of [FullIntroductionReader]; the time is [UnixNano]. *)
Record IntroExtension : Type := mkExtension {
  ex_IssuedAtPulse : Z;
  ex_IssuedAtTime : Z;
  ex_PowerLevels : PowerSet;
  ex_Reference : list Z;
  ex_IssuerID : Z;
  ex_IssuerSignature : list Z;
}.
(** [JoinerAnnouncementReader] *)
Record JoinerAnnouncement : Type := mkJoiner {
  ja_IntroducedBy : Z;
  ja_Brief : BriefIntroduction;
  ja_Full : option IntroExtension;
}.
(** [MembershipAnnouncementReader]; [None] is nil. *)
Record AnnouncementReader : Type := mkReaderOf {
  an_NodeID : Z;
  an_Rank : Z;
  an_RequestedPower : Z;
  an_State : option (list Z * list Z);
  an_Signature : option (list Z);
  an_IsLeaving : bool;
  an_LeaveReason : Z;
  an_JoinerID : Z;
  an_Joiner : option JoinerAnnouncement;
}.
(** [NodeWelcomePackage] *)
Record WelcomePackage : Type := mkWelcome { we_CloudIdentity : list Z; we_LastCloudStateHash : list Z; we_JoinerSecret : option (list Z) }.
(** [statevector.Vector]: of each part the hash, the signature, the rank. *)
Record SubVector : Type := mkSubVector { sv_Hash : list Z; sv_Signature : list Z; sv_Rank : Z }.
Record Vector : Type := mkVector { ve_Bitset : list Z; ve_Trusted : SubVector; ve_Doubted : option SubVector }.

(** ** fillers.go *)

(** The fields of a fresh introduction. *)
Definition fillBriefInto (intro : BriefIntroduction) : go NodeBriefIntro :=
  i ← SetPrimaryRole (br_PrimaryRole intro)
        (mkBrief (br_NodeID intro) 0 (br_SpecialRoles intro) (br_StartPower intro) (br_Endpoint intro)
           (copy_to zeroBits512 (br_PublicKey intro)) [] (copy_to zeroBits512 (br_Signature intro)));
  SetAddrMode 0 i.

Definition fillExtendedIntro (intro : IntroExtension) : NodeExtendedIntro :=
  mkExtended (ex_IssuedAtPulse intro) (u64 (ex_IssuedAtTime intro)) (ex_PowerLevels intro) 0 []
    1 [copy_to zeroBits512 (ex_Reference intro)] (ex_IssuerID intro) (copy_to zeroBits512 (ex_IssuerSignature intro)).

Definition fillFullInto (brief : BriefIntroduction) (extension : IntroExtension) : go NodeFullIntro :=
  b ← fillBriefInto brief; Ret (mkFull b (fillExtendedIntro extension)).

Definition fillNodeState (evidence : list Z * list Z) : CompactGlobulaNodeState :=
  mkNodeState (copy_to zeroBits512 evidence.1) (copy_to zeroBits512 evidence.2).

(** A method called on a nil interface panics. *)
Definition not_nil {A} (o : option A) : go A := match o with Some a => Ret a | None => Panic "nil pointer dereference" end.
Definition Rank_joins (rank : Z) : bool := Rank_IsJoiner rank.

Definition fillMembershipAnnouncement (sender : AnnouncementReader) : go MembershipAnnouncement :=
  if Rank_joins (an_Rank sender) then
    Ret (mkMembership (an_NodeID sender) (an_Rank sender) (an_RequestedPower sender) zeroAnnouncement zeroBits512)
  else
    signature ← not_nil (an_Signature sender);
    state ← not_nil (an_State sender);
    member ← (if an_IsLeaving sender then
                Ret (mkAnnouncement (fillNodeState state) (an_NodeID sender) (an_LeaveReason sender) zeroBrief)
              else match an_Joiner sender with
                   | Some joiner =>
                       brief ← fillBriefInto (ja_Brief joiner);
                       Ret (mkAnnouncement (fillNodeState state) (an_JoinerID sender) 0 brief)
                   | None => Ret (mkAnnouncement (fillNodeState state) 0 0 zeroBrief)
                   end);
    Ret (mkMembership (an_NodeID sender) (an_Rank sender) (an_RequestedPower sender) member (copy_to zeroBits512 signature)).

Definition fillNeighbourAnnouncement (neighbour : AnnouncementReader) : go NeighbourAnnouncement :=
  signature ← not_nil (an_Signature neighbour);
  let n joiner by_ member := mkNeighbour (an_NodeID neighbour) (an_Rank neighbour) (an_RequestedPower neighbour) joiner by_ member
                               (copy_to zeroBits512 signature) in
  if negb (Rank_joins (an_Rank neighbour)) then
    state ← not_nil (an_State neighbour);
    Ret (n zeroBrief 0 (if an_IsLeaving neighbour then
                          mkAnnouncement (fillNodeState state) (an_NodeID neighbour) (an_LeaveReason neighbour) zeroBrief
                        else mkAnnouncement (fillNodeState state) (an_JoinerID neighbour) 0 zeroBrief))
  else match an_Joiner neighbour with
       | Some announcement =>
           brief ← fillBriefInto (ja_Brief announcement);
           Ret (n brief (ja_IntroducedBy announcement) zeroAnnouncement)
       | None => Ret (n zeroBrief 0 zeroAnnouncement)
       end.

Fixpoint fill_each {A B} (f : A -> go B) (l : list A) : go (list B) :=
  match l with [] => Ret [] | a :: l' => b ← f a; l'' ← fill_each f l'; Ret (b :: l'') end.
Definition fillNeighbourhood (neighbourhood : list AnnouncementReader) : go Neighbourhood :=
  neighbours ← fill_each fillNeighbourAnnouncement neighbourhood;
  Ret (mkNeighbourhood (u8 (Z.of_nat (length neighbourhood))) [] neighbours).

Definition fillWelcome (welcome : WelcomePackage) : CloudIntro * list Z :=
  (mkCloud (copy_to zeroBits512 (we_CloudIdentity welcome)) (copy_to zeroBits512 (we_LastCloudStateHash welcome)),
   match we_JoinerSecret welcome with Some secret => copy_to zeroBits512 secret | None => zeroBits512 end).
Definition fill_welcome (welcome : option WelcomePackage) : CloudIntro * list Z :=
  match welcome with Some w => fillWelcome w | None => (zeroCloud, zeroBits512) end.

Definition fillVector (vector : SubVector) : GlobulaStateVector :=
  mkStateVector (sv_Rank vector) (copy_to zeroBits512 (sv_Hash vector)) (copy_to zeroBits512 (sv_Signature vector)).

(** The static profile of the sender with its extension, if it has one. *)
Definition StaticProfile : Type := BriefIntroduction * option IntroExtension.
Definition fill_self (static : StaticProfile) : go (NodeBriefIntro * NodeFullIntro) :=
  brief ← fillBriefInto static.1;
  full ← match static.2 with Some extension => fillFullInto static.1 extension | None => Ret zeroFull end;
  Ret (brief, full).

(** Each fills the body of a fresh packet. *)
Definition fillPhase0 (sender : AnnouncementReader) (pulsarPacket : list Z) : GlobulaConsensusPacketBody :=
  mkGlobula (an_Rank sender) (setData pulsarPacket zeroEmbedded) zeroMembership zeroExtended zeroBrief zeroFull zeroCloud zeroBits512
    zeroNeighbourhood zeroVectors zeroClaims.

Definition fillPhase1 (sender : AnnouncementReader) (static : StaticProfile) (pulsarPacket : list Z)
    (welcome : option WelcomePackage) : go GlobulaConsensusPacketBody :=
  announcement ← fillMembershipAnnouncement sender;
  let joinerExt := match an_Joiner sender with
                   | Some joiner => match ja_Full joiner with Some full => fillExtendedIntro full | None => zeroExtended end
                   | None => zeroExtended
                   end in
  self ← fill_self static;
  Ret (mkGlobula 0 (setData pulsarPacket zeroEmbedded) announcement joinerExt self.1 self.2 (fill_welcome welcome).1
         (fill_welcome welcome).2 zeroNeighbourhood zeroVectors zeroClaims).

Definition fullPhase2 (sender : AnnouncementReader) (static : StaticProfile) (welcome : option WelcomePackage)
    (neighbourhood : list AnnouncementReader) : go GlobulaConsensusPacketBody :=
  announcement ← fillMembershipAnnouncement sender;
  self ← fill_self static;
  neighbours ← fillNeighbourhood neighbourhood;
  Ret (mkGlobula 0 zeroEmbedded announcement zeroExtended self.1 self.2 (fill_welcome welcome).1 (fill_welcome welcome).2
         neighbours zeroVectors zeroClaims).

Definition fillPhase3 (vectors : Vector) : go GlobulaConsensusPacketBody :=
  mask ← SetBitset (ve_Bitset vectors) zeroBitset;
  Ret (mkGlobula 0 zeroEmbedded zeroMembership zeroExtended zeroBrief zeroFull zeroCloud zeroBits512 zeroNeighbourhood
         (mkVectors mask (fillVector (ve_Trusted vectors))
            match ve_Doubted vectors with Some doubted => [fillVector doubted] | None => [] end) zeroClaims).

(** ** packet_builder.go *)
Definition preparePacket (sourceID pulseNumber packetType : Z) (body : GlobulaConsensusPacketBody) : go Packet :=
  h ← setProtocolType ProtocolTypeGlobulaConsensus (mkHeader 0 0 0 0 sourceID 0);
  h ← setPacketType packetType h;
  setPulseNumber pulseNumber
    (mkPacket (setIsBodyEncrypted false (setIsRelayRestricted true h)) 0 (Some (BodyGlobula body)) [] zeroBits512).

Definition change_header (f : Header -> go Header) (p : Packet) : go Packet := h ← f (pk_Header p); Ret (with_header h p).
Definition when_set (b : bool) (f : Packet -> go Packet) (p : Packet) : go Packet := if b then f p else Ret p.

(** The flags of an introduction of the sender, for phases 1 and 2. *)
Definition prepare_intro (welcome : option WelcomePackage) (p : Packet) : go Packet :=
  p ← change_header (SetFlag FlagSelfIntro1) p;
  match welcome with
  | Some w =>
      p ← change_header (ClearFlag FlagSelfIntro1) p;
      p ← change_header (SetFlag FlagSelfIntro2) p;
      when_set (bool_decide (we_JoinerSecret w <> None)) (change_header (SetFlag FlagSelfIntro1)) p
  | None => Ret p
  end.

Definition PreparePhase0Packet (sender : AnnouncementReader) (pulseNumber : Z) (pulsarPacket : list Z) (options : Z) : go Packet :=
  p ← preparePacket (an_NodeID sender) pulseNumber PacketPhase0 (fillPhase0 sender pulsarPacket);
  when_set (negb (HasAny options PrepareWithoutPulseData)) (change_header (SetFlag FlagHasPulsePacket)) p.

Definition PreparePhase1Packet (sender : AnnouncementReader) (static : StaticProfile) (pulseNumber : Z) (pulsarPacket : list Z)
    (welcome : option WelcomePackage) (options : Z) : go Packet :=
  body ← fillPhase1 sender static pulsarPacket welcome;
  p ← preparePacket (an_NodeID sender) pulseNumber PacketPhase1 body;
  p ← when_set (negb (HasAny options PrepareWithoutPulseData)) (change_header (SetFlag FlagHasPulsePacket)) p;
  p ← when_set (HasAny options AlternativePhasePacket) (change_header (setPacketType PacketReqPhase1)) p;
  p ← when_set (negb (HasAny options OnlyBriefIntroAboutJoiner)) (change_header (SetFlag FlagHasJoinerExt)) p;
  prepare_intro welcome p.

Definition PreparePhase2Packet (sender : AnnouncementReader) (static : StaticProfile) (pulseNumber : Z)
    (welcome : option WelcomePackage) (neighbourhood : list AnnouncementReader) (options : Z) : go Packet :=
  body ← fullPhase2 sender static welcome neighbourhood;
  p ← preparePacket (an_NodeID sender) pulseNumber PacketPhase2 body;
  p ← when_set (HasAny options AlternativePhasePacket) (change_header (setPacketType PacketExtPhase2)) p;
  prepare_intro welcome p.

Definition PreparePhase3Packet (sourceID pulseNumber : Z) (vectors : Vector) (options : Z) : go Packet :=
  body ← fillPhase3 vectors;
  p ← preparePacket sourceID pulseNumber PacketPhase3 body;
  p ← when_set (HasAny options AlternativePhasePacket) (change_header (setPacketType PacketFastPhase3)) p;
  when_set (bool_decide (ve_Doubted vectors <> None)) (change_header (SetFlag 1)) p.

Definition finalizeFlags (sendOptions : Z) (p : Packet) : go Packet :=
  let packetType := GetPayloadEquivalent (GetPacketType (pk_Header p)) in
  p ← when_set (one_of packetType PacketPhase0 PacketPhase1 && HasAny sendOptions SendWithoutPulseData)
        (change_header (ClearFlag FlagHasPulsePacket)) p;
  when_set (one_of packetType PacketPhase1 PacketPhase2 && negb (HasAny sendOptions TargetNeedsIntro))
    (fun p => p ← change_header (ClearFlag FlagSelfIntro1) p; change_header (ClearFlag FlagSelfIntro2) p) p.

(** The packet [SendTo] serializes. *)
Definition SendTo (target sendOptions : Z) (p : Packet) : go Packet :=
  let h := pk_Header p in
  finalizeFlags sendOptions
    (with_header (mkHeader target (ProtocolAndPacketType h) (PacketFlags h) (HeaderAndPayloadLength h) (SourceID h) target) p).

(** ** packet_reader.go, over a packet and its body *)
Section Readers.
Context (p : Packet) (body : GlobulaConsensusPacketBody).

Definition read_source : Z := SourceID (pk_Header p).
Definition brief_of (nodeID : Z) (i : NodeBriefIntro) : BriefIntroduction :=
  mkBriefIntro nodeID (GetPrimaryRole i) (SpecialRoles i) (StartPower i) (Endpoint i) (NodePK i) (JoinerData i) (JoinerSignature i).
(** [GetReference] looks at the sender's own introduction whatever
    introduction it reads. *)
Definition extension_of (ei : NodeExtendedIntro) : go IntroExtension :=
  reference ← (if 0 <? ProofLen (fi_extended (gb_FullSelfIntro body)) then
                 match NodeRefProof ei with r :: _ => Ret r | [] => Panic "index out of range" end
               else Ret zeroBits512);
  Ret (mkExtension (IssuedAtPulse ei) (i64 (IssuedAtTime ei)) (PowerLevels ei) reference (DiscoveryIssuerNodeID ei) (IssuerSignature ei)).

(** ExtendedIntroReader *)
Definition HasFullIntro : go bool := flags ← GetFlagRangeInt (pk_Header p) 1 2; Ret (one_of flags 2 3).
Definition HasJoinerSecret : go bool := flags ← GetFlagRangeInt (pk_Header p) 1 2; Ret (flags =? 3).
Definition GetFullIntroduction : go (option (BriefIntroduction * IntroExtension)) :=
  has ← HasFullIntro;
  if has : bool then
    extension ← extension_of (fi_extended (gb_FullSelfIntro body));
    Ret (Some (brief_of read_source (fi_brief (gb_FullSelfIntro body)), extension))
  else Ret None.
Definition GetCloudIntroduction : go (option (list Z * list Z)) :=
  has ← HasFullIntro;
  Ret (if has : bool then Some (CloudIdentity (gb_CloudIntro body), LastCloudStateHash (gb_CloudIntro body)) else None).
Definition GetJoinerSecret : go (option (list Z)) :=
  has ← HasJoinerSecret; Ret (if has : bool then Some (gb_JoinerSecret body) else None).
Definition GetBriefIntroduction : go (option BriefIntroduction) :=
  flags ← GetFlagRangeInt (pk_Header p) 1 2;
  Ret (if flags =? 1 then Some (brief_of read_source (gb_BriefSelfIntro body)) else None).

(** EmbeddedPulseReader *)
Definition GetEmbeddedPulsePacket : go (option Data) :=
  has ← HasFlag (pk_Header p) FlagHasPulsePacket;
  Ret (if has : bool then Some (getPulseData (ep_Body (gb_PulsarPacket body))) else None).

(** MembershipAnnouncementReader *)
Let ma : MembershipAnnouncement := gb_Announcement body.
Definition Membership_isJoiner : bool := Rank_IsJoiner (ma_CurrentRank ma).
Definition Membership_IsLeaving : bool := if Membership_isJoiner then false else AnnounceID (ma_Member ma) =? read_source.
Definition Membership_GetLeaveReason : Z := if negb Membership_IsLeaving then 0 else LeaveReason (ma_Member ma).
Definition Membership_GetJoinerID : Z :=
  if Membership_isJoiner then 0 else if Membership_IsLeaving then 0 else AnnounceID (ma_Member ma).
Definition Membership_GetJoinerAnnouncement : go (option JoinerAnnouncement) :=
  if Membership_isJoiner then Ret None
  else if (AnnounceID (ma_Member ma) =? read_source) || IsAbsent (AnnounceID (ma_Member ma)) then Ret None
  else
    hasExt ← HasFlag (pk_Header p) FlagHasJoinerExt;
    full ← (if hasExt : bool then extension ← extension_of (gb_JoinerExt body); Ret (Some extension) else Ret None);
    Ret (Some (mkJoiner read_source (brief_of (AnnounceID (ma_Member ma)) (Joiner (ma_Member ma))) full)).
(** Every method of the reader. *)
Definition GetAnnouncementReader : go AnnouncementReader :=
  joiner ← Membership_GetJoinerAnnouncement;
  Ret (mkReaderOf read_source (ma_CurrentRank ma) (ma_RequestedPower ma)
         (if Membership_isJoiner then None
          else Some (NodeStateHash (NodeState (ma_Member ma)), NodeStateHashSignature (NodeState (ma_Member ma))))
         (if Membership_isJoiner then None else Some (ma_AnnounceSignature ma))
         Membership_IsLeaving Membership_GetLeaveReason Membership_GetJoinerID joiner).

(** NeighbourAnnouncementReader *)
Definition Neighbour_isJoiner (ng : NeighbourAnnouncement) : bool := Rank_IsJoiner (ng_CurrentRank ng).
Definition Neighbour_IsLeaving (ng : NeighbourAnnouncement) : bool :=
  if Neighbour_isJoiner ng then false else AnnounceID (ng_Member ng) =? NeighbourNodeID ng.
Definition Neighbour_GetLeaveReason (ng : NeighbourAnnouncement) : Z :=
  if Neighbour_IsLeaving ng then 0 else LeaveReason (ng_Member ng).
Definition Neighbour_GetJoinerID (ng : NeighbourAnnouncement) : Z :=
  if Neighbour_isJoiner ng then 0 else if Neighbour_IsLeaving ng then 0 else AnnounceID (ng_Member ng).
Definition Neighbour_GetJoinerAnnouncement (ng : NeighbourAnnouncement) : option JoinerAnnouncement :=
  if negb (Neighbour_isJoiner ng) then None
  else if Neighbour_IsLeaving ng then None
  else if NeighbourNodeID ng =? AnnounceID (ma_Member ma) then None
  else Some (mkJoiner (JoinerIntroducedBy ng) (brief_of (NeighbourNodeID ng) (ng_Joiner ng)) None).
Definition NeighbourReader (ng : NeighbourAnnouncement) : AnnouncementReader :=
  mkReaderOf (NeighbourNodeID ng) (ng_CurrentRank ng) (ng_RequestedPower ng)
    (Some (NodeStateHash (NodeState (ng_Member ng)), NodeStateHashSignature (NodeState (ng_Member ng))))
    (Some (ng_AnnounceSignature ng)) (Neighbour_IsLeaving ng) (Neighbour_GetLeaveReason ng) (Neighbour_GetJoinerID ng)
    (Neighbour_GetJoinerAnnouncement ng).
Definition GetNeighbourhood : list AnnouncementReader :=
  NeighbourReader <$> take (Z.to_nat (NeighbourCount (gb_Neighbourhood body))) (Neighbours (gb_Neighbourhood body)).

(** Phase3PacketReader *)
Definition hasDoubtedVector : go bool := flags ← GetFlagRangeInt (pk_Header p) 1 2; Ret (0 <? flags).
Definition sub_of (v : GlobulaStateVector) : SubVector := mkSubVector (VectorHash v) (SignedGlobulaStateHash v) (ExpectedRank v).
Definition GetVectors : go Vector :=
  doubted ← hasDoubtedVector;
  d ← (if doubted : bool then
         match AdditionalStateVectors (gb_Vectors body) with v :: _ => Ret (Some (sub_of v)) | [] => Panic "index out of range" end
       else Ret None);
  bitset ← GetBitset (StateVectorMask (gb_Vectors body));
  Ret (mkVector bitset (sub_of (MainStateVector (gb_Vectors body))) d).
End Readers.
