(* ===== verification/PacketDelivery.v ===== *)
(** * What a node announces is what the others hear
    (src/network/consensus/serialization)

    From the builder of one node through the bytes to the readers of another:
    each question a reader can be asked has the answer the sender gave, less
    what the options leave out. *)
From S2P Require Import Prelude Pulse MemberPower MemberRank Wire PacketHeader PacketBody PacketRead PacketCodec PacketBuilder.

(** Prepare, send to a node, serialize, and parse on the other side. *)
Definition transmit (digest sign : list Z -> list Z) (prepared : go Packet) (target sendOptions : Z) : go (result Packet) :=
  p ← prepared;
  p ← SendTo target sendOptions p;
  r ← Packet_SerializeTo digest sign p;
  match r.2 with
  | Good data =>
      r ← newPacketParser data;
      Ret match r with Good parser => Good (pp_packet parser) | Fail e => Fail e end
  | Fail e => Ret (Fail e)
  end.

(** A packet that is prepared for a node arrives if the length of its payload
    with header and signature fits 14 bits; else the sender panics, or is
    answered an error if it does not fit 16 bits. *)
Definition delivered (digest sign : list Z -> list Z) (prepared : go Packet) (target sendOptions : Z)
    (P : Packet -> GlobulaConsensusPacketBody -> Prop) : Prop :=
  exists p body payload, (p ← prepared; SendTo target sendOptions p) = Ret p /\ EncryptableBody p = Some body /\
  payload_of p body = Ret (Good payload) /\
  let n := Z.of_nat (length payload) + 80 in
  match transmit digest sign prepared target sendOptions with
  | Ret (Good p) => n <= payloadLengthMask /\ exists body, EncryptableBody p = Some (BodyGlobula body) /\ P p body
  | Ret (Fail e) => 0xFFFF < n /\ e = Errorf "payload too big"
  | Panic msg => payloadLengthMask < n <= 0xFFFF /\ msg = "invalid payload length"
  end.

Lemma delivered_mono digest sign m target so P Q :
  delivered digest sign m target so P -> (forall p body, P p body -> Q p body) -> delivered digest sign m target so Q.
Proof.
  intros (p & body & payload & H1 & H2 & H3 & H) HPQ. exists p, body, payload. split_and!; [done..|]. cbn zeta in *.
  destruct (transmit _ _ _ _ _) as [[p'|e]|msg]; [|done..]. destruct H as (Hn & body' & E & H). split; [done|]. exists body'. auto.
Qed.

Definition sent_header (target source types flags : Z) : Header := mkHeader target types flags 0 source target.

Lemma transmit_delivers digest sign prepared target so h pn body P :
  (p ← prepared; SendTo target so p) = Ret (mkPacket h pn (Some (BodyGlobula body)) [] zeroBits512) ->
  (forall d, is_bits512 (sign d)) -> header_ok h -> fits 4 pn -> GetProtocolType h = ProtocolTypeGlobulaConsensus ->
  globula_ok h body ->
  (forall l signature, P (mkPacket (with_length l h) pn (Some (BodyGlobula (globula_received h body))) [] signature) (globula_received h body)) ->
  delivered digest sign prepared target so P.
Proof.
  intros Ep Hsign Hh Hpn Ht Hb HP. destruct prepared as [p0|]; [|done]. cbn [mbind go_bind] in Ep.
  set (p := mkPacket _ _ _ _ _) in *.
  assert (Hp : packet_ok p (BodyGlobula body)) by (split; done).
  destruct (packet_travels digest sign p _ Hp Hsign) as (payload & Epl & Es & Htravel).
  exists p, (BodyGlobula body), payload. split_and!; [done|done|done|].
  unfold transmit. cbn [mbind go_bind]. rewrite Ep. cbn [mbind go_bind]. rewrite Es.
  pose proof (Finalize_spec digest sign p payload Hh eq_refl Hsign) as Hf. cbn zeta in Hf.
  destruct (Z.leb_spec (Z.of_nat (length payload) + 80) payloadLengthMask) as [Hn|Hn].
  - destruct Hf as (h' & _ & Hh' & El & Eh & Ef). rewrite Ef. cbn [mbind go_bind snd].
    rewrite <- (app_nil_r (_ ++ sign _)), <- (assoc_L (++) (Header_bytes h')).
    rewrite (Htravel h' Eh Hh' El) by done. cbn [mbind go_bind pp_packet]. split; [done|]. eexists. split; [done|].
    cbn [pk_Header pk_PulseNumber body_received p]. rewrite Eh. apply HP.
  - destruct (Z.leb_spec (Z.of_nat (length payload) + 80) 0xFFFF); by rewrite Hf.
Qed.

(** ** The flags of a packet that is sent *)
Definition sent_flags (pulse intro1 intro2 ext : bool) : Z :=
  1 + (if pulse then 4 else 0) + (if intro1 then 8 else 0) + (if intro2 then 16 else 0) + (if ext then 32 else 0).
Definition is_some {A} (o : option A) : bool := match o with Some _ => true | None => false end.

Definition needs_intro (so : Z) : bool := HasAny so TargetNeedsIntro.
Definition sends_intro1 (welcome : option WelcomePackage) (so : Z) : bool :=
  needs_intro so && match welcome with Some w => is_some (we_JoinerSecret w) | None => true end.
Definition sends_intro2 (welcome : option WelcomePackage) (so : Z) : bool := needs_intro so && is_some welcome.
Definition sends_pulse (options so : Z) : bool := negb (HasAny options PrepareWithoutPulseData) && negb (HasAny so SendWithoutPulseData).
Definition sends_ext (options : Z) : bool := negb (HasAny options OnlyBriefIntroAboutJoiner).
Definition types_of (packetType alternative options : Z) : Z :=
  16 + (if HasAny options AlternativePhasePacket then alternative else packetType).

Lemma bool_decide_some {A} (o : option A) `{!Decision (o <> None)} : bool_decide (o <> None) = is_some o.
Proof. destruct o; [by apply bool_decide_eq_true_2|apply bool_decide_eq_false_2]. by intros []. Qed.

Ltac all_options := repeat match goal with |- context [HasAny ?o ?m] => destruct (HasAny o m) end.

Lemma setPulseNumber_fresh h body pn : 0 <= pn <= pulseNumberMask ->
  setPulseNumber pn (mkPacket h 0 body [] zeroBits512) = Ret (mkPacket h pn body [] zeroBits512).
Proof. intros H. unfold setPulseNumber. cbn [pk_PulseNumber]. by rewrite (proj2 (Z.ltb_ge _ _)) by lia. Qed.

Lemma preparePacket_fresh source pn t body : t ∈ [PacketPhase0; PacketPhase1; PacketPhase2; PacketPhase3] -> 0 <= pn <= pulseNumberMask ->
  preparePacket source pn t body = Ret (mkPacket (mkHeader 0 (16 + t) 1 0 source 0) pn (Some (BodyGlobula body)) [] zeroBits512).
Proof.
  intros Ht Hpn. rewrite !elem_of_cons, elem_of_nil in Ht.
  assert (E : preparePacket source pn t body = setPulseNumber pn (mkPacket (mkHeader 0 (16 + t) 1 0 source 0) 0 (Some (BodyGlobula body)) [] zeroBits512)).
  { by destruct Ht as [->|[->|[->|[->|[]]]]]. }
  rewrite E. by apply setPulseNumber_fresh.
Qed.

Ltac in_list := rewrite !elem_of_cons; tauto.
Ltac flags_of_options := cbn [we_JoinerSecret is_some]; rewrite ?bool_decide_some; cbn [is_some]; all_options; reflexivity.

Lemma sent_phase1 sender static pn pulsar welcome options target so body :
  0 <= pn <= pulseNumberMask -> fillPhase1 sender static pulsar welcome = Ret body ->
  (p ← PreparePhase1Packet sender static pn pulsar welcome options; SendTo target so p) =
  Ret (mkPacket (sent_header target (an_NodeID sender) (types_of PacketPhase1 PacketReqPhase1 options)
        (sent_flags (sends_pulse options so) (sends_intro1 welcome so) (sends_intro2 welcome so) (sends_ext options)))
        pn (Some (BodyGlobula body)) [] zeroBits512).
Proof.
  intros Hpn Eb. unfold PreparePhase1Packet. rewrite Eb. cbn [mbind go_bind]. rewrite preparePacket_fresh by (done || in_list).
  cbn [mbind go_bind]. unfold prepare_intro, SendTo, finalizeFlags, types_of, sends_pulse, sends_intro1, sends_intro2, sends_ext, needs_intro.
  destruct welcome as [[? ? [secret|]]|]; flags_of_options.
Qed.

Lemma sent_phase2 sender static pn welcome neighbourhood options target so body :
  0 <= pn <= pulseNumberMask -> fullPhase2 sender static welcome neighbourhood = Ret body ->
  (p ← PreparePhase2Packet sender static pn welcome neighbourhood options; SendTo target so p) =
  Ret (mkPacket (sent_header target (an_NodeID sender) (types_of PacketPhase2 PacketExtPhase2 options)
        (sent_flags false (sends_intro1 welcome so) (sends_intro2 welcome so) false))
        pn (Some (BodyGlobula body)) [] zeroBits512).
Proof.
  intros Hpn Eb. unfold PreparePhase2Packet. rewrite Eb. cbn [mbind go_bind]. rewrite preparePacket_fresh by (done || in_list).
  cbn [mbind go_bind]. unfold prepare_intro, SendTo, finalizeFlags, types_of, sends_intro1, sends_intro2, needs_intro.
  destruct welcome as [[? ? [secret|]]|]; flags_of_options.
Qed.

Lemma sent_phase3 source pn vectors options target so body :
  0 <= pn <= pulseNumberMask -> fillPhase3 vectors = Ret body ->
  (p ← PreparePhase3Packet source pn vectors options; SendTo target so p) =
  Ret (mkPacket (sent_header target source (types_of PacketPhase3 PacketFastPhase3 options)
        (sent_flags false (is_some (ve_Doubted vectors)) false false)) pn (Some (BodyGlobula body)) [] zeroBits512).
Proof.
  intros Hpn Eb. unfold PreparePhase3Packet. rewrite Eb. cbn [mbind go_bind]. rewrite preparePacket_fresh by (done || in_list).
  cbn [mbind go_bind]. unfold SendTo, finalizeFlags, types_of. rewrite ?bool_decide_some.
  destruct (ve_Doubted vectors); flags_of_options.
Qed.

(** The header that is sent, and what it says. *)
Lemma sent_header_facts target source t alt options pulse intro1 intro2 ext :
  fits 4 target -> fits 4 source ->
  (t, alt) ∈ [(PacketPhase1, PacketReqPhase1); (PacketPhase2, PacketExtPhase2); (PacketPhase3, PacketFastPhase3)] ->
  let h := sent_header target source (types_of t alt options) (sent_flags pulse intro1 intro2 ext) in
  header_ok h /\ GetProtocolType h = ProtocolTypeGlobulaConsensus /\ phase_of h = t /\ pulse_flag h = pulse /\
  joiner_ext_flag h = ext /\ intro_flags h = (if intro1 then 1 else 0) + (if intro2 then 2 else 0).
Proof.
  intros Ht Hs Hin h. rewrite !elem_of_cons, elem_of_nil in Hin. unfold h, sent_header, types_of.
  destruct Hin as [[= -> ->]|[[= -> ->]|[[= -> ->]|[]]]]; destruct (HasAny options AlternativePhasePacket), pulse, intro1, intro2, ext;
    (split; [split; (done || by (split; vm_compute))|done]).
Qed.

(** ** What can be announced *)

(** The bytes an introduction signs: the fields as they are sent. *)
Definition intro_bytes (i : BriefIntroduction) : list Z :=
  be 1 (br_PrimaryRole i) ++ be 1 (br_SpecialRoles i) ++ be 1 (br_StartPower i) ++ br_Endpoint i ++ br_PublicKey i.
Record intro_ok (i : BriefIntroduction) : Prop := {
  io_role : 0 <= br_PrimaryRole i <= primaryRoleMask;
  io_special : fits 1 (br_SpecialRoles i);
  io_power : fits 1 (br_StartPower i);
  io_endpoint : length (br_Endpoint i) = 18%nat;
  io_key : is_bits512 (br_PublicKey i);
  io_signed : br_Signed i = intro_bytes i;
  io_signature : is_bits512 (br_Signature i);
}.
Record extension_ok (e : IntroExtension) : Prop := {
  eo_pn : fits 4 (ex_IssuedAtPulse e);
  eo_time : -2^63 <= ex_IssuedAtTime e < 2^63;
  eo_powers : powers_ok (ex_PowerLevels e);
  eo_reference : is_bits512 (ex_Reference e);
  eo_issuer : fits 4 (ex_IssuerID e);
  eo_signature : is_bits512 (ex_IssuerSignature e);
}.

Lemma copy_bits src : is_bits512 src -> copy_to zeroBits512 src = src.
Proof. intros H. by apply copy_to_full. Qed.

(** The introduction as it is filled. *)
Definition filled_brief (i : BriefIntroduction) : NodeBriefIntro :=
  mkBrief (br_NodeID i) (br_PrimaryRole i) (br_SpecialRoles i) (br_StartPower i) (br_Endpoint i) (br_PublicKey i) [] (br_Signature i).

Lemma fillBriefInto_ok i : intro_ok i -> fillBriefInto i = Ret (filled_brief i) /\ brief_ok (filled_brief i).
Proof.
  intros [H1 H2 H3 H4 H5 H6 H7]. unfold fillBriefInto, SetPrimaryRole, filled_brief. rewrite !copy_bits by done. rewrite (proj2 (Z.ltb_ge _ _)) by lia.
  cbn [mbind go_bind]. unfold SetAddrMode. change (addrModeMax <? 0) with false. cbn. rewrite Z.lor_0_r.
  split; [done|]. split; try done. unfold fits. cbn. change primaryRoleMask with 63 in H1. lia.
Qed.

Lemma brief_heard i nodeID : intro_ok i -> br_NodeID i = nodeID -> brief_of nodeID (brief_received (filled_brief i)) = i.
Proof.
  intros [H1 H2 H3 H4 H5 H6 H7] <-. unfold brief_of, brief_received, GetPrimaryRole, brief_data. cbn.
  change primaryRoleMask with (Z.ones 6) in *. rewrite Z.land_ones, Z.mod_small by (change (Z.ones 6) with 63 in H1; lia).
  destruct i. cbn in *. by rewrite H6.
Qed.

Lemma i64_u64 z : -2^63 <= z < 2^63 -> i64 (u64 z) = z.
Proof.
  intros H. unfold u64. destruct (Z.lt_ge_cases z 0).
  - rewrite <- (Z.mod_unique z (2^64) (-1) (z + 2^64)) by lia. unfold i64.
    rewrite <- (Z.mod_unique (z + 2^64 + 2^63) (2^64) 1 (z + 2^63)) by lia. lia.
  - rewrite Z.mod_small by lia. apply i64_small. lia.
Qed.

Lemma fillExtendedIntro_ok e : extension_ok e -> extended_ok (fillExtendedIntro e).
Proof.
  intros [H1 H2 H3 H4 H5 H6]. unfold fillExtendedIntro. rewrite !copy_bits by done.
  split; cbn [IssuedAtPulse IssuedAtTime PowerLevels EndpointLen ExtraEndpoints ProofLen NodeRefProof DiscoveryIssuerNodeID IssuerSignature]; try done.
  - apply u64_bound.
  - split; [done|]. by repeat constructor.
Qed.

(** What is read of an extension: the reference is answered only if the
    sender's own introduction is there. *)
Definition heard_extension (self : bool) (e : IntroExtension) : IntroExtension :=
  mkExtension (ex_IssuedAtPulse e) (ex_IssuedAtTime e) (ex_PowerLevels e) (if self then ex_Reference e else zeroBits512)
    (ex_IssuerID e) (ex_IssuerSignature e).

Lemma extension_heard body self e : extension_ok e ->
  (0 <? ProofLen (fi_extended (gb_FullSelfIntro body))) = self -> extension_of body (fillExtendedIntro e) = Ret (heard_extension self e).
Proof.
  intros [H1 H2 H3 H4 H5 H6] Hself. unfold extension_of, heard_extension, fillExtendedIntro. rewrite Hself, !copy_bits by done.
  cbn. rewrite i64_u64 by done. by destruct self.
Qed.

(** What a member or a joiner can say of itself. *)
Record member_ok (a : AnnouncementReader) : Prop := {
  co_state : exists s, an_State a = Some s /\ pair_ok s.1 s.2;
  co_signature : exists s, an_Signature a = Some s /\ is_bits512 s;
  co_reason : if an_IsLeaving a then fits 4 (an_LeaveReason a) else an_LeaveReason a = 0;
  co_joiner_id : fits 4 (an_JoinerID a) /\ (an_IsLeaving a = true -> an_JoinerID a = 0) /\ an_JoinerID a <> an_NodeID a;
}.
Record announcer_ok (a : AnnouncementReader) : Prop := {
  wo_id : fits 4 (an_NodeID a) /\ an_NodeID a <> 0;
  wo_rank : fits 4 (an_Rank a);
  wo_power : fits 1 (an_RequestedPower a);
  wo_member : an_Rank a <> 0 -> member_ok a;
  wo_no_joiner : an_Rank a <> 0 -> an_Joiner a = None -> an_JoinerID a = 0;
  wo_joiner : forall j, an_Joiner a = Some j ->
    an_JoinerID a <> 0 /\ br_NodeID (ja_Brief j) = an_JoinerID a /\ ja_IntroducedBy j = an_NodeID a /\ intro_ok (ja_Brief j) /\
    (forall e, ja_Full j = Some e -> extension_ok e);
  wo_joins : an_Rank a = 0 -> an_State a = None /\ an_Signature a = None /\ an_IsLeaving a = false /\ an_LeaveReason a = 0 /\
    an_JoinerID a = 0 /\ an_Joiner a = None;
}.

(** The announcement as it is heard: the joiner comes with its extension if
    the options say so. *)
Definition heard_joiner (ext self : bool) (j : JoinerAnnouncement) : JoinerAnnouncement :=
  mkJoiner (ja_IntroducedBy j) (ja_Brief j)
    (if ext then heard_extension self <$> ja_Full j else None).
Definition heard (ext self : bool) (a : AnnouncementReader) : AnnouncementReader :=
  mkReaderOf (an_NodeID a) (an_Rank a) (an_RequestedPower a) (an_State a) (an_Signature a) (an_IsLeaving a) (an_LeaveReason a)
    (an_JoinerID a) (heard_joiner ext self <$> an_Joiner a).

(** The announcement as it is filled. *)
Definition filled_announcement (a : AnnouncementReader) : NodeAnnouncement :=
  mkAnnouncement match an_State a with Some s => mkNodeState s.1 s.2 | None => zeroNodeState end
    (if an_IsLeaving a then an_NodeID a else an_JoinerID a) (an_LeaveReason a)
    (if an_IsLeaving a then zeroBrief else match an_Joiner a with Some j => filled_brief (ja_Brief j) | None => zeroBrief end).
Definition filled_membership (a : AnnouncementReader) : MembershipAnnouncement :=
  if an_Rank a =? 0 then mkMembership (an_NodeID a) (an_Rank a) (an_RequestedPower a) zeroAnnouncement zeroBits512
  else mkMembership (an_NodeID a) (an_Rank a) (an_RequestedPower a) (filled_announcement a) (default zeroBits512 (an_Signature a)).

Lemma zeroBrief_ok : brief_ok zeroBrief.
Proof. by split. Qed.
Lemma zeroAnnouncement_ok : announcement_ok zeroAnnouncement.
Proof. split; [done..|apply zeroBrief_ok]. Qed.

Lemma member_fills a : announcer_ok a -> an_Rank a <> 0 -> announcement_ok (filled_announcement a) /\
  (an_IsLeaving a = true -> an_Joiner a = None).
Proof.
  intros [[Hid Hne] Hrank Hpower Hm Hnone Hj Hjoins] Hr. destruct (Hm Hr) as [(s & Es & Hs) (g & Eg & Hg) Hreason (Hf & Hl & Hn)].
  assert (Hleave : an_IsLeaving a = true -> an_Joiner a = None).
  { intros E. destruct (an_Joiner a) as [j|] eqn:Ej; [|done]. destruct (Hj j eq_refl) as (Hz & _). by rewrite Hl in Hz. }
  split; [|done]. unfold filled_announcement. rewrite Es. split; cbn [NodeState AnnounceID LeaveReason Joiner NodeStateHash NodeStateHashSignature].
  - done.
  - by destruct (an_IsLeaving a).
  - destruct (an_IsLeaving a); [done|by rewrite Hreason].
  - destruct (an_IsLeaving a); [apply zeroBrief_ok|]. destruct (an_Joiner a) as [j|]; [|apply zeroBrief_ok].
    apply fillBriefInto_ok. by apply (Hj j).
Qed.

Lemma fillMembershipAnnouncement_ok a : announcer_ok a ->
  fillMembershipAnnouncement a = Ret (filled_membership a) /\ membership_ok (filled_membership a).
Proof.
  intros Ha. pose proof Ha as [[Hid Hne] Hrank Hpower Hm Hnone Hj Hjoins]. unfold fillMembershipAnnouncement, filled_membership, Rank_joins, Rank_IsJoiner.
  change JoinerRank with 0. destruct (Z.eqb_spec (an_Rank a) 0) as [|Hr].
  { split; [done|]. split; (done || apply zeroAnnouncement_ok). }
  destruct (member_fills a Ha Hr) as [Hok Hleave]. destruct (Hm Hr) as [(s & Es & Hs) (g & Eg & Hg) Hreason (Hf & Hl & Hn)].
  unfold filled_announcement in *. rewrite Es, Eg in *. cbn [not_nil mbind go_bind default]. unfold fillNodeState.
  destruct Hs as [Hs1 Hs2]. rewrite !copy_bits by done. split; [|by split].
  destruct (an_IsLeaving a) eqn:El; [done|]. rewrite Hreason. destruct (an_Joiner a) as [j|] eqn:Ej.
  - destruct (Hj j eq_refl) as (_ & _ & _ & Hb & _). destruct (fillBriefInto_ok _ Hb) as [-> _]. done.
  - by rewrite (Hnone Hr eq_refl).
Qed.

(** The sender is heard. *)
Lemma membership_heard p body a ext self : announcer_ok a ->
  SourceID (pk_Header p) = an_NodeID a -> gb_Announcement body = membership_received (an_NodeID a) (filled_membership a) ->
  joiner_ext_flag (pk_Header p) = ext -> (0 <? ProofLen (fi_extended (gb_FullSelfIntro body))) = self ->
  (forall j e, an_Joiner a = Some j -> ja_Full j = Some e -> ext = true -> gb_JoinerExt body = fillExtendedIntro e) ->
  (forall j, an_Joiner a = Some j -> ext = true -> is_some (ja_Full j) = true) ->
  GetAnnouncementReader p body = Ret (heard ext self a).
Proof.
  intros Ha Hsrc Hma Hext Hself Hje Hfull. pose proof Ha as [[Hid Hne] Hrank Hpower Hm Hnone Hj Hjoins].
  unfold GetAnnouncementReader, Membership_GetJoinerAnnouncement, Membership_GetJoinerID, Membership_GetLeaveReason,
    Membership_IsLeaving, Membership_isJoiner, read_source, heard. rewrite Hma, Hsrc.
  unfold filled_membership, membership_received. unfold Rank_IsJoiner. change JoinerRank with 0.
  destruct (Z.eqb_spec (an_Rank a) 0) as [Er|Hr]; cbn [ma_CurrentRank ma_RequestedPower ma_Member ma_AnnounceSignature].
  { rewrite Er. cbn. destruct (Hjoins Er) as (-> & -> & -> & -> & -> & ->). done. }
  rewrite (proj2 (Z.eqb_neq _ _) Hr). cbn [ma_CurrentRank ma_RequestedPower ma_Member ma_AnnounceSignature].
  rewrite (proj2 (Z.eqb_neq _ _) Hr).
  destruct (Hm Hr) as [(s & Es & Hs) (g & Eg & Hg) Hreason (Hf & Hl & Hn)]. rewrite Es, Eg.
  unfold sender_received, introduces, filled_announcement. rewrite Es. cbn [NodeState AnnounceID LeaveReason Joiner NodeStateHash NodeStateHashSignature default].
  destruct (an_IsLeaving a) eqn:El.
  { rewrite Z.eqb_refl. cbn. destruct (member_fills a Ha Hr) as [_ ->]; [|done]. rewrite Hl by done. by destruct s. }
  rewrite (proj2 (Z.eqb_neq _ _) Hn). cbn [negb andb orb].
  destruct (an_Joiner a) as [j|] eqn:Ej.
  - destruct (Hj j eq_refl) as (Hz & Eb & Ei & Hb & Hx). unfold IsAbsent. rewrite (proj2 (Z.eqb_neq _ _) Hz). cbn [negb].
    unfold HasFlag. change (maxFlagIndex <? FlagHasJoinerExt) with false. cbn [mbind go_bind].
    change (hasFlag _ (FlagHasJoinerExt + reservedFlagSize)) with (joiner_ext_flag (pk_Header p)). rewrite Hext.
    change (heard_joiner ext self <$> Some j) with (Some (heard_joiner ext self j)).
    rewrite brief_heard by done. unfold heard_joiner. rewrite Ei, Hreason. destruct ext; [|by destruct s].
    specialize (Hfull j eq_refl eq_refl). destruct (ja_Full j) as [e|] eqn:Ee; [|done].
    rewrite (Hje j e eq_refl Ee eq_refl). rewrite (extension_heard _ self) by auto. by destruct s.
  - rewrite (Hnone Hr eq_refl), Hreason. cbn. by destruct s.
Qed.

(** ** Neighbours *)
Record neighbour_announced (source : Z) (announced : Z) (a : AnnouncementReader) : Prop := {
  nn_id : fits 4 (an_NodeID a) /\ an_NodeID a <> 0 /\ an_NodeID a <> source;
  nn_rank : fits 4 (an_Rank a);
  nn_power : fits 1 (an_RequestedPower a);
  nn_signature : exists s, an_Signature a = Some s /\ is_bits512 s;
  nn_member : an_Rank a <> 0 -> member_ok a;
  nn_joins : an_Rank a = 0 -> an_NodeID a <> announced -> is_some (an_Joiner a) = true;
  nn_joiner : forall j, an_Joiner a = Some j -> br_NodeID (ja_Brief j) = an_NodeID a /\ fits 4 (ja_IntroducedBy j) /\ intro_ok (ja_Brief j);
}.

(** A neighbour as it is heard: without the reason it leaves for, and without
    the introduction of a joiner the sender itself announces. *)
Definition heard_neighbour (announced : Z) (a : AnnouncementReader) : AnnouncementReader :=
  if an_Rank a =? 0 then
    mkReaderOf (an_NodeID a) (an_Rank a) (an_RequestedPower a) (Some (zeroBits512, zeroBits512)) (an_Signature a) false 0 0
      (if an_NodeID a =? announced then None else (fun j => mkJoiner (ja_IntroducedBy j) (ja_Brief j) None) <$> an_Joiner a)
  else mkReaderOf (an_NodeID a) (an_Rank a) (an_RequestedPower a) (an_State a) (an_Signature a) (an_IsLeaving a) 0 (an_JoinerID a) None.

Definition filled_neighbour (a : AnnouncementReader) : NeighbourAnnouncement :=
  if an_Rank a =? 0 then
    mkNeighbour (an_NodeID a) (an_Rank a) (an_RequestedPower a)
      match an_Joiner a with Some j => filled_brief (ja_Brief j) | None => zeroBrief end
      match an_Joiner a with Some j => ja_IntroducedBy j | None => 0 end zeroAnnouncement (default zeroBits512 (an_Signature a))
  else
    mkNeighbour (an_NodeID a) (an_Rank a) (an_RequestedPower a) zeroBrief 0
      (mkAnnouncement match an_State a with Some s => mkNodeState s.1 s.2 | None => zeroNodeState end
         (if an_IsLeaving a then an_NodeID a else an_JoinerID a) (an_LeaveReason a) zeroBrief) (default zeroBits512 (an_Signature a)).

Lemma fillNeighbourAnnouncement_ok source announced a : neighbour_announced source announced a ->
  fillNeighbourAnnouncement a = Ret (filled_neighbour a) /\ neighbour_ok (filled_neighbour a).
Proof.
  intros [(Hid & Hne & _) Hrank Hpower (g & Eg & Hg) Hm Hjoins Hj].
  unfold fillNeighbourAnnouncement, filled_neighbour, Rank_joins, Rank_IsJoiner. change JoinerRank with 0. rewrite Eg.
  cbn [not_nil mbind go_bind default]. rewrite !copy_bits by done. destruct (Z.eqb_spec (an_Rank a) 0) as [Er|Hr]; cbn [negb].
  - destruct (an_Joiner a) as [j|].
    + destruct (Hj j eq_refl) as (_ & Hby & Hb). destruct (fillBriefInto_ok _ Hb) as [-> Hok]. split; [done|].
      split; (done || apply zeroAnnouncement_ok).
    + split; [done|]. split; (done || apply zeroAnnouncement_ok || apply zeroBrief_ok).
  - destruct (Hm Hr) as [(s & -> & Hs1 & Hs2) _ Hreason (Hf & _)]. cbn [not_nil mbind go_bind]. unfold fillNodeState.
    rewrite !copy_bits by done. split; [by destruct (an_IsLeaving a); rewrite ?Hreason|].
    split; cbn [NeighbourNodeID ng_CurrentRank ng_RequestedPower ng_Joiner JoinerIntroducedBy ng_Member ng_AnnounceSignature];
      try (done || apply zeroBrief_ok).
    split; cbn [NodeState AnnounceID LeaveReason Joiner NodeStateHash NodeStateHashSignature]; try (done || apply zeroBrief_ok).
    + by destruct (an_IsLeaving a).
    + destruct (an_IsLeaving a); [done|by rewrite Hreason].
Qed.

(** The joiner the sender announces, as the neighbours know it. *)
Definition sender_joiner (a : AnnouncementReader) : Z :=
  if (an_Rank a =? 0) || an_IsLeaving a then 0 else an_JoinerID a.

Lemma sender_joiner_announced a : announcer_ok a -> announced_joiner (an_NodeID a) (filled_membership a) = sender_joiner a.
Proof.
  intros Ha. pose proof Ha as [[Hid Hne] Hrank Hpower Hm Hnone Hj Hjoins].
  unfold announced_joiner, filled_membership, sender_joiner. destruct (Z.eqb_spec (an_Rank a) 0) as [->|Hr]; [done|].
  cbn [ma_CurrentRank ma_Member]. rewrite (proj2 (Z.eqb_neq _ _) Hr). unfold introduces, filled_announcement. cbn [AnnounceID orb negb andb].
  destruct (Hm Hr) as [_ _ _ (_ & _ & Hn)]. destruct (an_IsLeaving a); [by rewrite Z.eqb_refl|].
  rewrite (proj2 (Z.eqb_neq _ _) Hn). unfold IsAbsent. cbn [negb andb]. by destruct (Z.eqb_spec (an_JoinerID a) 0) as [->|].
Qed.

Lemma neighbour_heard body a n : announcer_ok a -> neighbour_announced (an_NodeID a) (sender_joiner a) n ->
  gb_Announcement body = membership_received (an_NodeID a) (filled_membership a) ->
  NeighbourReader body (neighbour_received (sender_joiner a) (filled_neighbour n)) = heard_neighbour (sender_joiner a) n.
Proof.
  intros Ha [(Hid & Hne & Hsrc) Hrank Hpower (g & Eg & Hg) Hm Hjoins Hj] Hma.
  unfold NeighbourReader, Neighbour_GetJoinerAnnouncement, Neighbour_GetJoinerID, Neighbour_GetLeaveReason, Neighbour_IsLeaving, Neighbour_isJoiner.
  rewrite Hma. unfold neighbour_received, filled_neighbour, heard_neighbour, Rank_IsJoiner. change JoinerRank with 0. rewrite Eg. cbn [default].
  destruct (Z.eqb_spec (an_Rank n) 0) as [Er|Hr]; cbn [NeighbourNodeID ng_CurrentRank ng_RequestedPower ng_Joiner JoinerIntroducedBy ng_Member ng_AnnounceSignature].
  - rewrite Er. cbn [Z.eqb]. cbn [NeighbourNodeID ng_CurrentRank ng_RequestedPower ng_Joiner JoinerIntroducedBy ng_Member ng_AnnounceSignature negb Z.eqb zeroAnnouncement LeaveReason NodeState zeroNodeState NodeStateHash NodeStateHashSignature].
    assert (Ea : (an_NodeID n =? AnnounceID (ma_Member (membership_received (an_NodeID a) (filled_membership a)))) = (an_NodeID n =? sender_joiner a)).
    { unfold membership_received, filled_membership, sender_joiner. destruct (Z.eqb_spec (an_Rank a) 0) as [E0|E0]; cbn [ma_CurrentRank]; [by rewrite E0|].
      rewrite (proj2 (Z.eqb_neq _ _) E0). cbn [ma_Member sender_received AnnounceID filled_announcement orb].
      destruct (an_IsLeaving a); [|done]. by rewrite !(proj2 (Z.eqb_neq _ _)). }
    rewrite Ea. unfold sends_joiner, IsAbsent. destruct (Z.eqb_spec (an_NodeID n) (sender_joiner a)) as [E|E]; [done|].
    rewrite orb_true_r. specialize (Hjoins Er E). destruct (an_Joiner n) as [j|]; [|done].
    destruct (Hj j eq_refl) as (Eb & _ & Hb). rewrite brief_heard by done. done.
  - rewrite !(proj2 (Z.eqb_neq _ _) Hr).
    cbn [NeighbourNodeID ng_CurrentRank ng_RequestedPower ng_Joiner JoinerIntroducedBy ng_Member ng_AnnounceSignature negb].
    rewrite !(proj2 (Z.eqb_neq _ _) Hr).
    destruct (Hm Hr) as [(s & -> & Hs1 & Hs2) _ Hreason (_ & Hl & Hn)]. unfold neighbour_part.
    cbn [NodeState AnnounceID LeaveReason Joiner NodeStateHash NodeStateHashSignature].
    destruct (an_IsLeaving n); [rewrite Z.eqb_refl, Hl by done; by destruct s|].
    rewrite !(proj2 (Z.eqb_neq _ _) Hn). by destruct s.
Qed.

Lemma fill_each_ok {A B} (f : A -> go B) (g : A -> B) l : (forall a, a ∈ l -> f a = Ret (g a)) -> fill_each f l = Ret (g <$> l).
Proof.
  induction l as [|a l IH]; intros H; [done|]. cbn [fill_each]. rewrite H by (by left). cbn [mbind go_bind].
  rewrite IH by (intros b Hb; apply H; by right). done.
Qed.

Lemma fillNeighbourhood_ok source announced l : Forall (neighbour_announced source announced) l -> Z.of_nat (length l) < 2^8 ->
  fillNeighbourhood l = Ret (mkNeighbourhood (Z.of_nat (length l)) [] (filled_neighbour <$> l)) /\
  neighbourhood_ok (mkNeighbourhood (Z.of_nat (length l)) [] (filled_neighbour <$> l)).
Proof.
  intros Hl Hlen. rewrite list.Forall_forall in Hl. unfold fillNeighbourhood. rewrite (fill_each_ok _ filled_neighbour).
  - cbn [mbind go_bind]. rewrite u8_small by lia. split; [done|]. split; cbn [NeighbourCount Neighbours].
    + by rewrite length_fmap.
    + unfold fits. cbn. lia.
    + apply list.Forall_forall. intros x Hx. apply list_elem_of_fmap in Hx as (a & -> & Hin). by eapply fillNeighbourAnnouncement_ok, Hl.
  - intros a Hin. by eapply fillNeighbourAnnouncement_ok, Hl.
Qed.

(** ** The packets of phases 1 and 2 *)
Lemma zeroExtended_ok : extended_ok zeroExtended.
Proof. by repeat split. Qed.
Lemma zeroFull_ok : full_ok zeroFull.
Proof. split; [apply zeroBrief_ok|apply zeroExtended_ok]. Qed.
Lemma zeroVectors_ok h : intro_flags h = 0 -> vectors_ok h zeroVectors.
Proof. intros E. split; [done|done|]. split; [|done]. change (flags12 (newPacketContext h)) with (Ret (intro_flags h)). by rewrite E. Qed.

Record static_ok (sender : AnnouncementReader) (static : StaticProfile) : Prop := {
  to_brief : intro_ok static.1 /\ br_NodeID static.1 = an_NodeID sender;
  to_extension : forall e, static.2 = Some e -> extension_ok e;
}.
Definition filled_full (static : StaticProfile) : NodeFullIntro :=
  match static.2 with Some e => mkFull (filled_brief static.1) (fillExtendedIntro e) | None => zeroFull end.
Lemma fill_self_ok sender static : static_ok sender static ->
  fill_self static = Ret (filled_brief static.1, filled_full static) /\ brief_ok (filled_brief static.1) /\ full_ok (filled_full static).
Proof.
  intros [[Hb _] He]. destruct (fillBriefInto_ok _ Hb) as [E Hok]. unfold fill_self, fillFullInto, filled_full. rewrite E. cbn [mbind go_bind].
  destruct (static.2) as [e|]; (split; [done|]; split; [done|]).
  - split; [done|]. by apply fillExtendedIntro_ok, He.
  - apply zeroFull_ok.
Qed.

Record welcome_ok (w : WelcomePackage) : Prop := {
  eo_cloud : pair_ok (we_CloudIdentity w) (we_LastCloudStateHash w);
  eo_secret : forall s, we_JoinerSecret w = Some s -> is_bits512 s;
}.
Definition cloud_of (w : WelcomePackage) : list Z * list Z := (we_CloudIdentity w, we_LastCloudStateHash w).
Definition secret_of (w : WelcomePackage) : list Z := default zeroBits512 (we_JoinerSecret w).
Lemma fill_welcome_ok welcome : (forall w, welcome = Some w -> welcome_ok w) ->
  fill_welcome welcome = (match welcome with Some w => mkCloud (we_CloudIdentity w) (we_LastCloudStateHash w) | None => zeroCloud end,
                          match welcome with Some w => secret_of w | None => zeroBits512 end) /\
  pair_ok (CloudIdentity (fill_welcome welcome).1) (LastCloudStateHash (fill_welcome welcome).1) /\ is_bits512 (fill_welcome welcome).2.
Proof.
  intros H. destruct welcome as [w|]; [|done]. destruct (H w eq_refl) as [[Hc Hl] Hs].
  unfold fill_welcome, fillWelcome, secret_of. rewrite (copy_bits (we_CloudIdentity w)), (copy_bits (we_LastCloudStateHash w)) by done.
  destruct (we_JoinerSecret w) as [s|]; cbn [default].
  - rewrite copy_bits by (by apply Hs). split; [done|]. split; [done|]. cbn. by apply Hs.
  - done.
Qed.

Record pulse_ok (p : Data) : Prop := { uo_number : fits 4 (PulseNumber p); uo_ext : pulsar_body_ok p }.
Lemma pulse_travels p : pulse_ok p -> embedded_ok (setData (pulse_Serialize p) zeroEmbedded) /\
  getPulseData (ep_Body (embedded_received (setData (pulse_Serialize p) zeroEmbedded))) = p.
Proof.
  intros [Hn He]. assert (Hl : length (pulse_Serialize p) = 48%nat).
  { unfold pulse_Serialize, DataExt_bytes. rewrite !length_app, !length_be. destruct He as (_ & _ & _ & _ & ->). done. }
  assert (Ed : pulse_Deserialize (pulse_Serialize p) = Good p).
  { unfold pulse_Deserialize. rewrite Hl. unfold pulse_Serialize. change (48 <? 48)%nat with false. cbn iota.
    rewrite drop_app_length', take_app_length', of_be_be, DataExt_of_bytes_bytes by (done || by rewrite length_be). by destruct p. }
  split.
  - split; [|by exists p]. unfold setData. cbn [ep_Size ep_Data]. by rewrite Hl.
  - unfold embedded_received, setData. cbn [ep_Data ep_Body]. by rewrite Ed.
Qed.

Lemma one_of_flags (intro1 intro2 : bool) : one_of ((if intro1 then 1 else 0) + (if intro2 then 2 else 0)) 2 3 = intro2.
Proof. by destruct intro1, intro2. Qed.
Lemma flags_secret (intro1 intro2 : bool) : ((if intro1 then 1 else 0) + (if intro2 then 2 else 0) =? 3) = intro1 && intro2.
Proof. by destruct intro1, intro2. Qed.
Lemma flags_brief (intro1 intro2 : bool) : ((if intro1 then 1 else 0) + (if intro2 then 2 else 0) =? 1) = intro1 && negb intro2.
Proof. by destruct intro1, intro2. Qed.

(** The introduction of the sender, as it is read. *)
Lemma self_heard p body static sender (intro1 intro2 : bool) :
  static_ok sender static -> (intro2 = true -> is_some static.2 = true) ->
  SourceID (pk_Header p) = an_NodeID sender ->
  intro_flags (pk_Header p) = (if intro1 then 1 else 0) + (if intro2 then 2 else 0) ->
  gb_FullSelfIntro body = (if intro2 then full_received (filled_full static) else zeroFull) ->
  (0 <? ProofLen (fi_extended (gb_FullSelfIntro body))) = intro2 /\
  GetFullIntroduction p body = Ret (if intro2 then (fun e => (static.1, e)) <$> static.2 else None).
Proof.
  intros [[Hb Eb] He] Hsome Hsrc Hf Hfull.
  assert (Hself : (0 <? ProofLen (fi_extended (gb_FullSelfIntro body))) = intro2).
  { rewrite Hfull. destruct intro2; [|done]. specialize (Hsome eq_refl). unfold filled_full. by destruct (static.2). }
  split; [done|]. unfold GetFullIntroduction, HasFullIntro, GetFlagRangeInt. cbn [mbind go_bind Z.ltb Z.compare Pos.compare Pos.compare_cont maxFlagIndex].
  change (getFlagRangeInt _ (1 + reservedFlagSize) (2 + reservedFlagSize)) with (intro_flags (pk_Header p)).
  rewrite Hf, one_of_flags. destruct intro2; [|done]. specialize (Hsome eq_refl).
  rewrite Hfull. unfold filled_full. destruct (static.2) as [e|] eqn:Es; [|done]. cbn [full_received fi_brief fi_extended].
  rewrite (extension_heard _ true) by auto. cbn [mbind go_bind]. unfold read_source. rewrite Hsrc, brief_heard by done.
  unfold heard_extension. by destruct e.
Qed.

Lemma cloud_heard p body welcome (intro1 intro2 : bool) :
  (intro2 = true -> is_some welcome = true) ->
  intro_flags (pk_Header p) = (if intro1 then 1 else 0) + (if intro2 then 2 else 0) ->
  (forall w, welcome = Some w -> welcome_ok w) ->
  gb_CloudIntro body = (if intro2 then (fill_welcome welcome).1 else zeroCloud) ->
  gb_JoinerSecret body = (if intro1 && intro2 then (fill_welcome welcome).2 else zeroBits512) ->
  GetCloudIntroduction p body = Ret (if intro2 then cloud_of <$> welcome else None) /\
  GetJoinerSecret p body = Ret (if intro1 && intro2 then secret_of <$> welcome else None).
Proof.
  intros Hsome Hf Hw Hc Hs. destruct (fill_welcome_ok welcome Hw) as [E _]. rewrite E in Hc, Hs.
  unfold GetCloudIntroduction, GetJoinerSecret, HasFullIntro, HasJoinerSecret, GetFlagRangeInt.
  cbn [mbind go_bind Z.ltb Z.compare Pos.compare Pos.compare_cont maxFlagIndex].
  change (getFlagRangeInt _ (1 + reservedFlagSize) (2 + reservedFlagSize)) with (intro_flags (pk_Header p)).
  rewrite Hf, one_of_flags, flags_secret, Hc, Hs. destruct intro2; [|by rewrite andb_false_r].
  specialize (Hsome eq_refl). destruct welcome as [w|]; [|done]. by destruct intro1.
Qed.

Section Delivery.
Context (digest sign : list Z -> list Z) (Hsign : forall d, is_bits512 (sign d)).
Context (sender : AnnouncementReader) (static : StaticProfile) (pn : Z) (welcome : option WelcomePackage).
Context (options target so : Z).

Record announcement_sent : Prop := {
  as_sender : announcer_ok sender;
  as_static : static_ok sender static;
  as_welcome : forall w, welcome = Some w -> welcome_ok w;
  as_pulse : 0 <= pn <= pulseNumberMask;
  as_target : fits 4 target;
  as_self : sends_intro2 welcome so = true -> is_some static.2 = true;
}.

Let intro1 := sends_intro1 welcome so.
Let intro2 := sends_intro2 welcome so.

(** What both packets tell of their sender. *)
Definition sender_heard (phase : Z) (ext : bool) (p : Packet) (body : GlobulaConsensusPacketBody) : Prop :=
  phase_of (pk_Header p) = phase /\ SourceID (pk_Header p) = an_NodeID sender /\ TargetID (pk_Header p) = target /\
  pk_PulseNumber p = pn /\
  GetAnnouncementReader p body = Ret (heard ext intro2 sender) /\
  GetFullIntroduction p body = Ret (if intro2 then (fun e => (static.1, e)) <$> static.2 else None) /\
  GetCloudIntroduction p body = Ret (if intro2 then cloud_of <$> welcome else None) /\
  GetJoinerSecret p body = Ret (if intro1 && intro2 then secret_of <$> welcome else None).

Lemma fits_pulse : 0 <= pn <= pulseNumberMask -> fits 4 pn.
Proof. intros H. unfold fits. change pulseNumberMask with (2^30 - 1) in H. change (8 * Z.of_nat 4) with 32. lia. Qed.

(** A body filled by the builder for one of these phases. *)
Record filled_body (pulsar : EmbeddedPulsarData) (joinerExt : NodeExtendedIntro) (neighbours : Neighbourhood)
    (body : GlobulaConsensusPacketBody) : Prop := {
  fb_body : body = mkGlobula 0 pulsar (filled_membership sender) joinerExt (filled_brief static.1) (filled_full static)
    (fill_welcome welcome).1 (fill_welcome welcome).2 neighbours zeroVectors zeroClaims;
  fb_ext : extended_ok joinerExt;
  fb_neighbours : neighbourhood_ok neighbours;
}.

Lemma filled_globula h pulsar joinerExt neighbours body : announcement_sent -> filled_body pulsar joinerExt neighbours body ->
  phase_of h <> PacketPhase3 -> (one_of (phase_of h) PacketPhase0 PacketPhase1 && pulse_flag h = true -> embedded_ok pulsar) ->
  globula_ok h body.
Proof.
  intros [Ha Hst Hw Hpn Ht Hs] [-> Hx Hn] Hphase Hp.
  destruct (fill_self_ok _ _ Hst) as (_ & Hb & Hf). destruct (fill_welcome_ok _ Hw) as (_ & Hc & Hsec).
  split; cbn [gb_CurrentRank gb_PulsarPacket gb_Announcement gb_JoinerExt gb_BriefSelfIntro gb_FullSelfIntro gb_CloudIntro gb_JoinerSecret
    gb_Neighbourhood gb_Vectors gb_Claims]; try done.
  by apply fillMembershipAnnouncement_ok.
Qed.

(** The sender is heard in a packet of phase 1 or 2. *)
Lemma sender_is_heard t alt pulse ext pulsar joinerExt neighbours body l signature :
  announcement_sent -> filled_body pulsar joinerExt neighbours body ->
  (t, alt) ∈ [(PacketPhase1, PacketReqPhase1); (PacketPhase2, PacketExtPhase2)] ->
  (ext = true -> t = PacketPhase1) ->
  (forall j e, an_Joiner sender = Some j -> ja_Full j = Some e -> ext = true -> joinerExt = fillExtendedIntro e) ->
  (forall j, an_Joiner sender = Some j -> ext = true -> is_some (ja_Full j) = true) ->
  let h := sent_header target (an_NodeID sender) (types_of t alt options) (sent_flags pulse intro1 intro2 ext) in
  sender_heard t ext (mkPacket (with_length l h) pn (Some (BodyGlobula (globula_received h body))) [] signature) (globula_received h body).
Proof.
  intros [Ha Hst Hw Hpn Ht Hs] [-> Hx Hn] Hin Hext Hje Hfull h.
  assert (Hin3 : (t, alt) ∈ [(PacketPhase1, PacketReqPhase1); (PacketPhase2, PacketExtPhase2); (PacketPhase3, PacketFastPhase3)])
    by (revert Hin; rewrite !elem_of_cons; tauto).
  destruct (wo_id _ Ha) as [Hid _].
  destruct (sent_header_facts target (an_NodeID sender) t alt options pulse intro1 intro2 ext Ht Hid Hin3) as (Hh & Hproto & Hphase & Hpf & Hxf & Hf).
  fold h in Hh, Hproto, Hphase, Hpf, Hxf, Hf.
  assert (H12 : one_of t PacketPhase1 PacketPhase2 = true).
  { revert Hin. rewrite !elem_of_cons, elem_of_nil. by intros [[= -> ->]|[[= -> ->]|[]]]. }
  set (p := mkPacket _ _ _ _ _). set (body := globula_received h _).
  assert (Eself : gb_FullSelfIntro body = if intro2 then full_received (filled_full static) else zeroFull).
  { unfold body, globula_received. cbn [gb_FullSelfIntro]. by rewrite Hphase, H12, Hf, one_of_flags. }
  destruct (self_heard p body static sender intro1 intro2 Hst Hs eq_refl Hf Eself) as [Hself Hfi].
  assert (Hwel : intro2 = true -> is_some welcome = true).
  { unfold intro2, sends_intro2. intros E. by apply andb_true_iff in E as [_ E]. }
  destruct (cloud_heard p body welcome intro1 intro2 Hwel Hf Hw) as [Hc Hsec].
  { unfold body, globula_received. cbn [gb_CloudIntro]. by rewrite Hphase, H12, Hf, one_of_flags. }
  { unfold body, globula_received. cbn [gb_JoinerSecret]. by rewrite Hphase, H12, Hf, flags_secret. }
  split_and!; try done.
  apply membership_heard; try done.
  - unfold body, globula_received. cbn [gb_Announcement]. by rewrite Hphase, H12.
  - intros j e Ej Ee Ext. unfold body, globula_received. cbn [gb_JoinerExt]. rewrite Hphase, Hxf, (Hext Ext), Ext. cbn. by eapply Hje.
Qed.

(** The joiner comes with its extension, if that is sent. *)
Definition joiner_complete : Prop :=
  forall j, an_Joiner sender = Some j -> sends_ext options = true -> is_some (ja_Full j) = true.

(** A packet of phase 1: its sender, the same way, and the pulse unless the
    options leave it out. *)
Theorem phase1_delivered pulse : announcement_sent -> pulse_ok pulse -> joiner_complete ->
  delivered digest sign (PreparePhase1Packet sender static pn (pulse_Serialize pulse) welcome options) target so (fun p body =>
    sender_heard PacketPhase1 (sends_ext options) p body /\
    GetEmbeddedPulsePacket p body = Ret (if sends_pulse options so then Some pulse else None)).
Proof.
  intros Hs Hpulse Hj. pose proof Hs as [Ha Hst Hw Hpn Ht Hself]. destruct (wo_id _ Ha) as [Hid _].
  destruct (fillMembershipAnnouncement_ok _ Ha) as [Ema _]. destruct (fill_self_ok _ _ Hst) as (Efs & _).
  destruct (pulse_travels _ Hpulse) as [Hpe Hpd].
  set (joinerExt := match an_Joiner sender with
                    | Some joiner => match ja_Full joiner with Some full => fillExtendedIntro full | None => zeroExtended end
                    | None => zeroExtended end).
  assert (Hx : extended_ok joinerExt).
  { unfold joinerExt. destruct (an_Joiner sender) as [j|] eqn:Ej; [|apply zeroExtended_ok].
    destruct (ja_Full j) as [e|] eqn:Ee; [|apply zeroExtended_ok]. apply fillExtendedIntro_ok.
    by apply (wo_joiner _ Ha j Ej). }
  assert (Hin : (PacketPhase1, PacketReqPhase1) ∈ [(PacketPhase1, PacketReqPhase1); (PacketPhase2, PacketExtPhase2)]) by (by left).
  destruct (sent_header_facts target (an_NodeID sender) PacketPhase1 PacketReqPhase1 options (sends_pulse options so) intro1 intro2
              (sends_ext options) Ht Hid ltac:(by left)) as (Hh & Hproto & Hphase & Hpf & _).
  eapply transmit_delivers; [|done|exact Hh|by apply fits_pulse|exact Hproto| |].
  - apply sent_phase1; [done|]. unfold fillPhase1. rewrite Ema. cbn [mbind go_bind]. rewrite Efs. cbn [mbind go_bind]. done.
  - eapply filled_globula; [done|by split|by rewrite Hphase|done].
  - intros l signature. split.
    + apply (sender_is_heard _ _ _ _ (setData (pulse_Serialize pulse) zeroEmbedded) joinerExt zeroNeighbourhood); try done.
      intros j e Ej Ee _. unfold joinerExt. by rewrite Ej, Ee.
    + unfold GetEmbeddedPulsePacket, HasFlag. change (maxFlagIndex <? FlagHasPulsePacket) with false. cbn [mbind go_bind pk_Header].
      change (hasFlag (with_length l ?h) (FlagHasPulsePacket + reservedFlagSize)) with (pulse_flag h). rewrite Hpf.
      unfold globula_received. cbn [gb_PulsarPacket]. rewrite Hphase, Hpf. change (one_of PacketPhase1 PacketPhase0 PacketPhase1) with true.
      destruct (sends_pulse options so); [|done]. cbn [andb]. do 2 f_equal. exact Hpd.
Qed.

(** C33: a packet of phase 2 arrives if its payload with header and signature
    fits 14 bits (else the sender panics, or is answered an error if it does
    not fit 16), and its reader finds the pulse, the sender, what it announces
    of itself (its rank, power, state, signature, leave reason and joiner), its
    introduction, the cloud and the joiner secret as far as the send options
    ask for them, and of each neighbour, in order, what the sender knows of it,
    less the reasons of those that leave, the introduction of the joiner that
    the sender itself introduces, and the state evidence and the full
    introduction of joiners. *)
Theorem phase2_delivered neighbourhood : announcement_sent ->
  Forall (neighbour_announced (an_NodeID sender) (sender_joiner sender)) neighbourhood -> Z.of_nat (length neighbourhood) < 2^8 ->
  delivered digest sign (PreparePhase2Packet sender static pn welcome neighbourhood options) target so (fun p body =>
    sender_heard PacketPhase2 false p body /\
    GetBriefIntroduction p body = Ret (if intro1 && negb intro2 then Some static.1 else None) /\
    GetNeighbourhood body = heard_neighbour (sender_joiner sender) <$> neighbourhood).
Proof.
  intros Hs Hnb Hlen. pose proof Hs as [Ha Hst Hw Hpn Ht Hself]. destruct (wo_id _ Ha) as [Hid _].
  destruct (fillMembershipAnnouncement_ok _ Ha) as [Ema _]. destruct (fill_self_ok _ _ Hst) as (Efs & _).
  destruct (fillNeighbourhood_ok _ _ _ Hnb Hlen) as [En Hnok].
  assert (Hin : (PacketPhase2, PacketExtPhase2) ∈ [(PacketPhase1, PacketReqPhase1); (PacketPhase2, PacketExtPhase2)]) by (by right; left).
  destruct (sent_header_facts target (an_NodeID sender) PacketPhase2 PacketExtPhase2 options false intro1 intro2 false Ht Hid
              ltac:(by right; left)) as (Hh & Hproto & Hphase & _ & _ & Hf).
  eapply transmit_delivers; [|done|exact Hh|by apply fits_pulse|exact Hproto| |].
  - apply sent_phase2; [done|]. unfold fullPhase2. rewrite Ema. cbn [mbind go_bind]. rewrite Efs. cbn [mbind go_bind]. rewrite En. done.
  - eapply filled_globula; [done|split; [done|apply zeroExtended_ok|exact Hnok]|by rewrite Hphase|by rewrite Hphase].
  - intros l signature. split_and!.
    + by apply (sender_is_heard _ _ _ _ zeroEmbedded zeroExtended (mkNeighbourhood (Z.of_nat (length neighbourhood)) [] (filled_neighbour <$> neighbourhood))).
    + unfold GetBriefIntroduction, GetFlagRangeInt. cbn [mbind go_bind Z.ltb Z.compare Pos.compare Pos.compare_cont maxFlagIndex pk_Header].
      change (getFlagRangeInt (with_length l ?h) (1 + reservedFlagSize) (2 + reservedFlagSize)) with (intro_flags h).
      rewrite Hf, flags_brief. destruct (intro1 && negb intro2) eqn:Eb; [|done].
      unfold globula_received. cbn [gb_BriefSelfIntro]. rewrite Hphase, Hf, flags_brief, Eb. cbn [Z.eqb andb].
      unfold read_source. cbn. destruct Hst as [[Hb Ebr] _]. by rewrite brief_heard.
    + unfold GetNeighbourhood. set (body := globula_received _ _).
      assert (Enb : gb_Neighbourhood body = neighbourhood_received (sender_joiner sender)
        (mkNeighbourhood (Z.of_nat (length neighbourhood)) [] (filled_neighbour <$> neighbourhood))).
      { unfold body, globula_received. cbn [gb_Neighbourhood]. rewrite Hphase. unfold body_joiner. rewrite Hphase. cbn [one_of gb_Announcement].
        cbn. by rewrite sender_joiner_announced. }
      rewrite Enb. unfold neighbourhood_received. cbn [NeighbourCount Neighbours]. rewrite Nat2Z.id.
      rewrite take_ge by (by rewrite !length_fmap). rewrite <- !list_fmap_compose. apply list_fmap_ext. intros i n Hi. cbn.
      apply (neighbour_heard body sender); [done| |].
      * rewrite list.Forall_forall in Hnb. apply Hnb. by eapply list_elem_of_lookup_2.
      * unfold body, globula_received. cbn [gb_Announcement]. by rewrite Hphase.
Qed.
End Delivery.

(** ** The packets of phase 3 *)

(** The length of a bit set in its two bytes, for every length that is not
    refused. *)
Definition length_checks (n : nat) : bool :=
  match setLength (Z.of_nat n) zeroBitset with
  | Ret nab =>
      let nab := setIsCompressed false nab in
      (getLength nab =? Z.of_nat n) && (0 <=? FlagsAndLoLength nab) && (FlagsAndLoLength nab <? 2^8) &&
      (0 <=? HiLength nab) && (HiLength nab <? 2^8) && (hasHiLength nab || (HiLength nab =? 0)) && negb (isCompressed nab)
  | Panic _ => false
  end.
Lemma all_lengths_check : forallb length_checks (seq 0 4096) = true.
Proof. vm_compute. reflexivity. Qed.

Definition bitset_fits (b : list Z) : Prop := (length b < 4096)%nat.
Lemma SetBitset_ok b : bitset_fits b -> exists nab, SetBitset b zeroBitset = Ret nab /\ bitset_ok nab /\ GetBitset nab = Ret b.
Proof.
  intros Hb. assert (Hc : length_checks (length b) = true).
  { apply (proj1 (forallb_forall length_checks (seq 0 4096)) all_lengths_check). apply in_seq. unfold bitset_fits in Hb. lia. }
  unfold length_checks in Hc. unfold bitset_fits in Hb. unfold SetBitset.
  rewrite (proj2 (Z.ltb_ge _ _)), u16_small by lia. destruct (setLength (Z.of_nat (length b)) zeroBitset) as [nab|]; [|done].
  cbn [mbind go_bind]. set (nab' := setIsCompressed false nab) in *.
  apply andb_true_iff in Hc as [Hc Hz]. apply andb_true_iff in Hc as [Hc Hh]. repeat (apply andb_true_iff in Hc as [Hc ?]).
  assert (El : getLength (mkBitset (FlagsAndLoLength nab') (HiLength nab') b) = Z.of_nat (length b)) by (by apply Z.eqb_eq in Hc).
  eexists. split; [done|]. split.
  - split; cbn [FlagsAndLoLength HiLength Bytes]; unfold fits.
    + change (2^(8 * Z.of_nat 1)) with (2^8). lia.
    + change (2^(8 * Z.of_nat 1)) with (2^8). lia.
    + intros E. change (hasHiLength nab' = false) in E. rewrite E in Hh. by apply Z.eqb_eq in Hh.
    + done.
  - unfold GetBitset. rewrite El, Nat2Z.id. change (isCompressed (mkBitset (FlagsAndLoLength nab') (HiLength nab') b)) with (isCompressed nab').
    destruct (isCompressed nab'); [done|]. cbn [Bytes]. rewrite Nat.ltb_irrefl, Nat.sub_diag. by rewrite app_nil_r.
Qed.

(** The longer sets the format has room for are refused. *)
Lemma SetBitset_refuses b : 4096 <= Z.of_nat (length b) <= byteLengthMax -> SetBitset b zeroBitset = Panic "invalid length".
Proof.
  change byteLengthMax with 8191. intros Hb. unfold SetBitset. rewrite (proj2 (Z.ltb_ge _ _)), u16_small by lia.
  set (n := Z.of_nat (length b)) in *. unfold setLength. change byteLengthMax with 8191. change loByteLengthMask with 63.
  rewrite (proj2 (Z.ltb_ge 8191 n)), (proj2 (Z.ltb_lt 63 n)) by lia. unfold setLoLength. change loByteLengthMask with 63.
  change 63 with (Z.ones 6). rewrite Z.land_ones by lia. pose proof (Z.mod_pos_bound n (2^6)).
  rewrite (proj2 (Z.ltb_ge (Z.ones 6) _)) by (rewrite u8_small by lia; change (Z.ones 6) with 63; lia). cbn [mbind go_bind].
  unfold setHiLength. change hiByteLengthMask with 127. change hiByteLengthShift with 5. rewrite Z.shiftr_div_pow2 by lia.
  assert (128 <= n / 2^5 < 256) by (split; [apply Z.div_le_lower_bound; lia|apply Z.div_lt_upper_bound; lia]).
  by rewrite (proj2 (Z.ltb_lt 127 _)) by (rewrite u8_small by lia; lia).
Qed.

Definition sub_vector_ok (v : SubVector) : Prop := fits 4 (sv_Rank v) /\ is_bits512 (sv_Hash v) /\ is_bits512 (sv_Signature v).
Lemma fillVector_ok v : sub_vector_ok v -> state_vector_ok (fillVector v) /\ sub_of (fillVector v) = v.
Proof.
  intros (H1 & H2 & H3). unfold fillVector. rewrite !copy_bits by done. split; [done|]. by destruct v.
Qed.

Record vector_ok (v : Vector) : Prop := {
  eo_bitset : bitset_fits (ve_Bitset v);
  eo_trusted : sub_vector_ok (ve_Trusted v);
  eo_doubted : forall d, ve_Doubted v = Some d -> sub_vector_ok d;
}.

(** A packet of phase 3: the bit set and the state vectors. *)
Theorem phase3_delivered digest sign source pn v options target so :
  (forall d, is_bits512 (sign d)) -> fits 4 source -> fits 4 target -> 0 <= pn <= pulseNumberMask -> vector_ok v ->
  delivered digest sign (PreparePhase3Packet source pn v options) target so (fun p body =>
    phase_of (pk_Header p) = PacketPhase3 /\ SourceID (pk_Header p) = source /\ pk_PulseNumber p = pn /\ GetVectors p body = Ret v).
Proof.
  intros Hsign Hsrc Ht Hpn [Hb Htr Hd]. destruct (SetBitset_ok _ Hb) as (nab & Enab & Hnab & Eget).
  destruct (fillVector_ok _ Htr) as [Hm Em].
  destruct (sent_header_facts target source PacketPhase3 PacketFastPhase3 options false (is_some (ve_Doubted v)) false false Ht Hsrc
              ltac:(by right; right; left)) as (Hh & Hproto & Hphase & _ & _ & Hf).
  set (additional := match ve_Doubted v with Some d => [fillVector d] | None => [] end).
  assert (Hadd : Forall state_vector_ok additional).
  { unfold additional. destruct (ve_Doubted v) as [d|]; [|constructor]. repeat constructor; by apply fillVector_ok, Hd. }
  assert (Hlen : intro_flags (sent_header target source (types_of PacketPhase3 PacketFastPhase3 options)
                   (sent_flags false (is_some (ve_Doubted v)) false false)) = Z.of_nat (length additional)).
  { rewrite Hf. unfold additional. by destruct (ve_Doubted v). }
  eapply transmit_delivers; [|done|exact Hh|by eapply (fits_pulse pn)|exact Hproto| |].
  - apply sent_phase3; [done|]. unfold fillPhase3. rewrite Enab. cbn [mbind go_bind]. done.
  - split; cbn [gb_CurrentRank gb_PulsarPacket gb_Announcement gb_JoinerExt gb_BriefSelfIntro gb_FullSelfIntro gb_CloudIntro gb_JoinerSecret
      gb_Neighbourhood gb_Vectors gb_Claims]; try (done || apply zeroExtended_ok || apply zeroFull_ok || apply zeroBrief_ok).
    + by rewrite Hphase.
    + intros _. split; [done|done|]. fold additional. cbn [AdditionalStateVectors]. by rewrite <- Hlen.
  - intros l signature. split_and!; [exact Hphase|done|done|].
    unfold GetVectors, hasDoubtedVector, GetFlagRangeInt. cbn [mbind go_bind Z.ltb Z.compare Pos.compare Pos.compare_cont maxFlagIndex pk_Header].
    change (getFlagRangeInt (with_length l ?h) (1 + reservedFlagSize) (2 + reservedFlagSize)) with (intro_flags h). rewrite Hf.
    unfold globula_received. rewrite Hphase. cbn [gb_Vectors StateVectorMask MainStateVector AdditionalStateVectors].
    change (PacketPhase3 =? PacketPhase3) with true. cbn iota. cbn [StateVectorMask MainStateVector AdditionalStateVectors]. rewrite Eget, Em.
    destruct v as [b t [d|]]; cbn [ve_Doubted ve_Bitset ve_Trusted is_some] in *; [|done].
    destruct (fillVector_ok d (Hd d eq_refl)) as [_ Ed]. generalize dependent (fillVector d). intros w _ _ _ Ew. cbn. by rewrite Ew.
Qed.

(** *** At a concrete input *)
Module SampleDelivery.
Definition bits (k : Z) : list Z := repeat k 64.
Definition brief (id : Z) : BriefIntroduction :=
  let b := mkBriefIntro id 3 0 20 (repeat 1 18) (bits 2) [] (bits id) in
  mkBriefIntro id 3 0 20 (repeat 1 18) (bits 2) (intro_bytes b) (bits id).
Definition extension : IntroExtension := mkExtension 65550 (-5) (mkSet 1 2 3 4) (bits 6) 4 (bits 8).
(** Node 5 announces the joiner 9. *)
Definition sender : AnnouncementReader :=
  mkReaderOf 5 0x110014 40 (Some (bits 11, bits 12)) (Some (bits 13)) false 0 9 (Some (mkJoiner 5 (brief 9) None)).
(** Node 6 leaves, and knows of the joiner 10. *)
Definition leaver : AnnouncementReader := mkReaderOf 6 0x120014 30 (Some (bits 14, bits 15)) (Some (bits 16)) true 77 0 None.
Definition joiner (id : Z) : AnnouncementReader :=
  mkReaderOf id 0 20 None (Some (bits 17)) false 0 0 (Some (mkJoiner 6 (brief id) None)).
Definition welcome : WelcomePackage := mkWelcome (bits 18) (bits 19) (Some (bits 20)).
Definition sign (d : list Z) : list Z := bits (Z.of_nat (length d) mod 256).

Lemma brief_is_ok id : fits 4 id -> intro_ok (brief id).
Proof. intros _. split; (done || by split; vm_compute). Qed.
Lemma extension_is_ok : extension_ok extension.
Proof. split; try (done || by split; vm_compute). Qed.
Lemma sample_announcement : announcement_sent sender (brief 5, Some extension) 65600 (Some welcome) 7 TargetNeedsIntro.
Proof.
  split.
  - split; cbn; try (done || by split; vm_compute).
    + intros _. split; cbn; try (done || by split; vm_compute); by eexists.
    + intros j [= <-]. split_and!; (done || by apply brief_is_ok).
  - split; cbn; [by split; [apply brief_is_ok|]|]. intros e [= <-]. apply extension_is_ok.
  - intros w [= <-]. split; [done|]. by intros s [= <-].
  - by split; vm_compute.
  - by split; vm_compute.
  - done.
Qed.
Lemma leaver_is_ok : neighbour_announced 5 9 leaver.
Proof.
  split; cbn; try (done || by split; vm_compute).
  - by eexists.
  - intros _. split; cbn; try (done || by split; vm_compute); by eexists.
Qed.
Lemma joiner_is_ok id : fits 4 id -> id <> 0 -> id <> 5 -> neighbour_announced 5 9 (joiner id).
Proof.
  intros H1 H2 H3. split; cbn -[fits]; [done|by split; vm_compute|by split; vm_compute|by eexists|done|done|].
  intros j [= <-]. split_and!; [done|by split; vm_compute|by apply brief_is_ok].
Qed.
Lemma sample_neighbours : Forall (neighbour_announced (an_NodeID sender) (sender_joiner sender)) [leaver; joiner 9; joiner 10].
Proof.
  rewrite !list.Forall_cons, list.Forall_nil. split_and!; [apply leaver_is_ok| | |done];
    (apply joiner_is_ok; [by split; vm_compute|done|done]).
Qed.
Lemma sample_count : Z.of_nat (length [leaver; joiner 9; joiner 10]) < 2 ^ 8.
Proof. done. Qed.
End SampleDelivery.

Lemma phase2_delivered_witness :
  delivered (fun d => d) SampleDelivery.sign (PreparePhase2Packet SampleDelivery.sender
      (SampleDelivery.brief 5, Some SampleDelivery.extension) 65600 (Some SampleDelivery.welcome)
      [SampleDelivery.leaver; SampleDelivery.joiner 9; SampleDelivery.joiner 10] 0) 7 TargetNeedsIntro (fun p body =>
    GetAnnouncementReader p body = Ret SampleDelivery.sender /\
    GetNeighbourhood body = [heard_neighbour 9 SampleDelivery.leaver; heard_neighbour 9 (SampleDelivery.joiner 9); heard_neighbour 9 (SampleDelivery.joiner 10)]).
Proof.
  apply (delivered_mono _ _ _ _ _ _ _ (phase2_delivered (fun d => d) SampleDelivery.sign (fun d => repeat_length _ _) SampleDelivery.sender
    (SampleDelivery.brief 5, Some SampleDelivery.extension) 65600 (Some SampleDelivery.welcome) 0 7 TargetNeedsIntro
    [SampleDelivery.leaver; SampleDelivery.joiner 9; SampleDelivery.joiner 10] SampleDelivery.sample_announcement
    SampleDelivery.sample_neighbours SampleDelivery.sample_count)).
  intros p body ((_ & _ & _ & _ & Ea & _) & _ & En). exact (conj Ea En).
Defined.
