(* ===== verification/LongBits.v ===== *)
(** * Long bit strings (src/longbits/long_bits.go, byte_string.go)

    A digest is folded into 64 bits for display and for the digests of the
    consensus.  The folding is modelled as it is: of a string of whole words
    only the first word is taken. *)
From S2P Require Import Prelude.

(** ** long_bits.go: little-endian words *)
Fixpoint le (n : nat) (v : Z) : list Z :=
  match n with O => [] | S k => u8 v :: le k (Z.shiftr v 8) end.
Fixpoint of_le (b : list Z) : Z :=
  match b with [] => 0 | x :: b' => Z.lor x (Z.shiftl (of_le b') 8) end.

Definition NewBits64 (v : Z) : list Z := le 8 v.
Definition Bits64_FoldToUint64 (v : list Z) : Z := of_le v.

(** Byte [i] of a slice. *)
Definition byte_of (v : list Z) (i : nat) : go Z :=
  match v !! i with Some x => Ret x | None => Panic "index out of range" end.

(** [folded[k] ^= v[i+k]], for [k] from 0 on. *)
Fixpoint xor_word (folded v : list Z) (i : nat) : go (list Z) :=
  match folded with
  | [] => Ret []
  | x :: folded' => y ← byte_of v i; r ← xor_word folded' v (S i); Ret (Z.lxor x y :: r)
  end.
(** [for i := 0; i < alignedLen; i += 8], with [alignedLen] below 8. *)
Definition fold_words (folded v : list Z) (alignedLen : nat) : go (list Z) :=
  if (0 <? alignedLen)%nat then xor_word folded v 0 else Ret folded.

Definition FoldToBits64 (v : list Z) : go (list Z) :=
  if (length v =? 0)%nat then Ret (repeat 0 8)
  else
    let alignedLen := Z.to_nat (Z.land (Z.of_nat (length v)) 7) in
    let tail := take (8 - alignedLen) v in
    let folded := repeat 0 alignedLen ++ tail ++ repeat 0 (8 - alignedLen - length tail) in
    fold_words folded v alignedLen.
Definition FoldToUint64 (v : list Z) : go Z := b ← FoldToBits64 v; Ret (Bits64_FoldToUint64 b).

(** ** What is folded *)
Lemma of_le_le n v : 0 <= v < 2^(8 * Z.of_nat n) -> of_le (le n v) = v.
Proof.
  revert v. induction n as [|n IH]; intros v Hv; cbn [le of_le]; [change (2^(8 * Z.of_nat 0)) with 1 in Hv; lia|].
  rewrite IH.
  - unfold u8. rewrite <- Z.land_ones by lia. rewrite <- (Z.lor_ldiff_and v (Z.ones 8)) at 3. rewrite Z.lor_comm. f_equal.
    rewrite Z.ldiff_ones_r by lia. done.
  - rewrite Z.shiftr_div_pow2 by lia. replace (8 * Z.of_nat (S n)) with (8 + 8 * Z.of_nat n) in Hv by lia.
    rewrite Z.pow_add_r in Hv by lia. split; [apply Z.div_pos; lia|apply Z.div_lt_upper_bound; lia].
Qed.

(** Of a digest of whole words only the first eight bytes count. *)
Lemma FoldToUint64_words v : v <> [] -> Z.land (Z.of_nat (length v)) 7 = 0 -> FoldToUint64 v = Ret (of_le (take 8 v)).
Proof.
  intros Hne Hl. assert (Hlen : (8 <= length v)%nat).
  { destruct (decide (8 <= length v)%nat); [done|]. exfalso. rewrite Z.land_ones with (n := 3) in Hl by lia.
    rewrite Z.mod_small in Hl by lia. destruct v; [done|cbn in Hl; lia]. }
  unfold FoldToUint64, FoldToBits64. destruct (Nat.eqb_spec (length v) 0); [lia|]. rewrite Hl. unfold fold_words. cbn [Z.to_nat repeat app].
  rewrite Nat.sub_0_r, length_take, Nat.min_l, Nat.sub_diag by lia. cbn [repeat Nat.ltb Nat.leb]. by rewrite app_nil_r.
Qed.

(** So two digests that differ after it are folded alike; and a string shorter
    than a word cannot be folded. *)
Example digests_fold_alike : FoldToUint64 (repeat 1 8 ++ repeat 2 56) = FoldToUint64 (repeat 1 8 ++ repeat 3 56).
Proof. vm_compute. reflexivity. Qed.
Example short_strings_panic : FoldToUint64 [1; 2; 3] = Panic "index out of range".
Proof. vm_compute. reflexivity. Qed.
