(* ===== verification/NodeVector.v ===== *)
(** * The vector of nodes (src/network/consensus: adapters/globulastatehash.go,
    gcpv2/phasebundle/nodeset/seq_calc.go and vector_data.go,
    gcpv2/core/population/realm_vector_helper.go)

    The nodes of a population and the joiners they introduce, in the order of
    their indices and in the order of their ranks; the sequences over them
    that are digested, and the rank each node gets on the way. *)
From Stdlib Require Import Sorting.Sorted.
From S2P Require Import Prelude LongBits MemberPower MemberRank.

(** ** sort.Sort: any sorting, ties in any order; it sees the elements through
    Less only *)
Class Sorting : Type := {
  go_sort : forall {A}, (A -> A -> bool) -> list A -> list A;
  go_sort_perm : forall {A} (less : A -> A -> bool) l, go_sort less l ≡ₚ l;
  go_sort_sorted : forall {A} (less : A -> A -> bool) l,
    (forall x y z, less y x = false -> less z y = false -> less z x = false) ->
    (forall x y, less x y = false \/ less y x = false) ->
    StronglySorted (fun x y => less y x = false) (go_sort less l);
  go_sort_map : forall {A B} (f : A -> B) (less : B -> B -> bool) l,
    go_sort less (f <$> l) = f <$> go_sort (fun x y => less (f x) (f y)) l;
}.

(** ** rank.go *)
Record RankCursor : Type := mkCursor { rc_Role : Z; rc_RoleIndex : Z; rc_RolePowerIndex : Z; rc_TotalIndex : Z }.
Record FullRank : Type := mkFullRank {
  fr_Cursor : RankCursor;
  fr_SpecialRoles : Z;
  fr_Power : Z;
  fr_OpMode : Z;
  fr_RoleCount : Z;
  fr_RolePower : Z;
}.
Definition zeroFullRank : FullRank := mkFullRank (mkCursor 0 0 0 0) 0 0 0 0 0.
Definition AsMembershipRank (v : FullRank) (totalCount : Z) : go Z :=
  NewMembershipRank (fr_OpMode v) (fr_Power v) (rc_TotalIndex (fr_Cursor v)) totalCount.

(** ** globulastatehash.go: the state of a digester is a word *)
Definition Sequence_AddNext (state : Z) (digest : list Z) : go Z :=
  f ← FoldToUint64 digest; Ret (Z.lxor state f).
Definition State_AddNext (state : Z) (digest : option (list Z)) (fullRank : FullRank) : go Z :=
  match digest with
  | None => Sequence_AddNext state (repeat 0 64)
  | Some digest =>
      state ← Sequence_AddNext state digest;
      rank ← AsMembershipRank fullRank MaxNodeIndex;
      Ret (Z.lxor state rank)
  end.

(** ** vector_data.go *)

(** [profiles.ActiveNode] with its static profile. *)
Record ActiveNode : Type := mkActiveNode {
  GetNodeID : Z;
  GetPrimaryRole : Z;
  GetSpecialRoles : Z;
  GetOpMode : Z;
}.
(** The digest of the state evidence and the announcement signature; [None]
    is nil. *)
Record VectorEntryData : Type := mkEntryData {
  RequestedPower : Z;
  RequestedMode : Z;
  TrustLevel : Z;
  Profile : ActiveNode;
  StateEvidence : option (list Z);
  AnnounceSignature : option (list Z);
}.
Definition entry_IsEmpty (d : VectorEntryData) : bool := match StateEvidence d with None => true | Some _ => false end.

(** ** seq_calc.go *)
Record AnnouncementCalc : Type := mkAnnouncementCalc { ac_factory : bool; ac_digester : option Z }.
Definition NewAnnouncementSequenceCalc : AnnouncementCalc := mkAnnouncementCalc true None.
Definition zeroAnnouncementCalc : AnnouncementCalc := mkAnnouncementCalc false None.

Definition Announcement_AddNext (p : AnnouncementCalc) (nodeData : VectorEntryData) : go AnnouncementCalc :=
  state ← match ac_digester p with
          | Some state => Ret state
          | None => if ac_factory p then Ret 0 else Panic "nil pointer"
          end;
  match AnnounceSignature nodeData with
  | None => Panic "nil pointer"
  | Some signature => state ← Sequence_AddNext state signature; Ret (mkAnnouncementCalc (ac_factory p) (Some state))
  end.
Definition Announcement_IsEmpty (p : AnnouncementCalc) : bool :=
  match ac_digester p with Some _ => false | None => negb (ac_factory p) end.
Definition Announcement_ForkSequenceOf (p s : AnnouncementCalc) : go AnnouncementCalc :=
  if negb (Announcement_IsEmpty p) then Panic "illegal state"
  else match ac_digester s with
       | Some state => Ret (mkAnnouncementCalc (ac_factory p) (Some state))
       | None => Ret (mkAnnouncementCalc (ac_factory s) (ac_digester p))
       end.
Definition Announcement_ForkSequence (p : AnnouncementCalc) : go AnnouncementCalc :=
  match ac_digester p with
  | None => Ret (mkAnnouncementCalc (ac_factory p) None)
  | Some _ => Announcement_ForkSequenceOf zeroAnnouncementCalc p
  end.

Record memberEntry : Type := mkMemberEntry {
  me_state : option (list Z);
  me_capture : bool;
  me_SpecialRoles : Z;
  me_Power : Z;
  me_OpMode : Z;
  me_RolePowerIndex : Z;
}.
Record StateCalc : Type := mkStateCalc {
  sc_factory : bool;
  sc_digester : option Z;
  sc_nodeID : Z;
  sc_nodeFullRank : FullRank;
  sc_cursor : RankCursor;
  sc_roleFirstTotalIndex : Z;
  sc_entries : list memberEntry;
}.
(** The role of the first cursor is [^PrimaryRole(0)], above every role. *)
Definition NewStateAndRankSequenceCalc (nodeID : Z) : StateCalc :=
  mkStateCalc true None nodeID zeroFullRank (mkCursor 255 0 0 0) 0 [].

Definition hashMemberEntry (p : StateCalc) (v : memberEntry) (roleIndex : Z) : go StateCalc :=
  state ← match sc_digester p with
          | Some state => Ret state
          | None => if sc_factory p then Ret 0 else Panic "nil pointer"
          end;
  roleCount ← Index_AsUint16 (rc_RoleIndex (sc_cursor p));
  let fr := mkFullRank (mkCursor (rc_Role (sc_cursor p)) roleIndex (me_RolePowerIndex v) (u16 (sc_roleFirstTotalIndex p + roleIndex)))
              (me_SpecialRoles v) (me_Power v) (me_OpMode v) roleCount (rc_RolePowerIndex (sc_cursor p)) in
  state ← State_AddNext state (me_state v) fr;
  Ret (mkStateCalc (sc_factory p) (Some state) (sc_nodeID p) (if me_capture v then fr else sc_nodeFullRank p)
         (sc_cursor p) (sc_roleFirstTotalIndex p) (sc_entries p)).

(** [for roleIndex, v := range p.entries] *)
Fixpoint hash_members (p : StateCalc) (roleIndex : Z) (l : list memberEntry) : go StateCalc :=
  match l with
  | [] => Ret p
  | v :: l' => i ← AsIndex roleIndex; p ← hashMemberEntry p v i; hash_members p (roleIndex + 1) l'
  end.
Definition with_entries (p : StateCalc) (l : list memberEntry) : StateCalc :=
  mkStateCalc (sc_factory p) (sc_digester p) (sc_nodeID p) (sc_nodeFullRank p) (sc_cursor p) (sc_roleFirstTotalIndex p) l.
Definition flushRoleMembers (p : StateCalc) : go StateCalc :=
  p ← hash_members p 0 (sc_entries p); Ret (with_entries p []).

Definition with_cursor (p : StateCalc) (c : RankCursor) (first : Z) : StateCalc :=
  mkStateCalc (sc_factory p) (sc_digester p) (sc_nodeID p) (sc_nodeFullRank p) c first (sc_entries p).
(** A new role starts. *)
Definition enter_role (p : StateCalc) (orderingRole : Z) : go StateCalc :=
  if rc_Role (sc_cursor p) =? orderingRole then Ret p
  else if rc_Role (sc_cursor p) <? orderingRole then Panic "illegal state"
  else
    p ← flushRoleMembers p;
    Ret (with_cursor p (mkCursor orderingRole 0 0 (rc_TotalIndex (sc_cursor p))) (rc_TotalIndex (sc_cursor p))).

Definition State_AddNextNode (p : StateCalc) (nodeData : VectorEntryData) (zeroPower : bool) : go StateCalc :=
  let np := Profile nodeData in
  if GetPrimaryRole np =? PrimaryRoleInactive then Panic "illegal state"
  else
    let orderingRole := if zeroPower then PrimaryRoleInactive else GetPrimaryRole np in
    p ← enter_role p orderingRole;
    let me := mkMemberEntry (StateEvidence nodeData) (sc_nodeID p =? GetNodeID np) (GetSpecialRoles np) in
    if orderingRole =? PrimaryRoleInactive then
      p ← hashMemberEntry p (me 0 (RequestedMode nodeData) 0) 0;
      let c := sc_cursor p in
      Ret (with_cursor p (mkCursor (rc_Role c) (rc_RoleIndex c) (rc_RolePowerIndex c) (u16 (rc_TotalIndex c + 1)))
             (sc_roleFirstTotalIndex p))
    else
      let c := sc_cursor p in
      let p := with_entries p (sc_entries p ++ [me (RequestedPower nodeData) (RequestedMode nodeData) (rc_RolePowerIndex c)]) in
      Ret (with_cursor p (mkCursor (rc_Role c) (u16 (rc_RoleIndex c + 1))
             (u32 (rc_RolePowerIndex c + ToLinearValue (RequestedPower nodeData))) (u16 (rc_TotalIndex c + 1)))
             (sc_roleFirstTotalIndex p)).

Definition State_IsEmpty (p : StateCalc) : bool := match sc_digester p with Some _ => false | None => negb (sc_factory p) end.
Definition State_ForkSequenceOf (p s : StateCalc) : go StateCalc :=
  if negb (State_IsEmpty p) then Panic "illegal state"
  else if State_IsEmpty s then Panic "illegal value"
  else Ret s.

(** The digest of the platform, of a word as bytes. *)
Section Finish.
Context (digestOf : list Z -> list Z).
Definition FinishSequence (state : Z) : list Z := digestOf (NewBits64 state).
Definition Announcement_FinishSequence (p : AnnouncementCalc) : option (list Z) := FinishSequence <$> ac_digester p.
Definition State_FinishSequence (p : StateCalc) : go (option (list Z) * FullRank * Z) :=
  p ← flushRoleMembers p;
  Ret match sc_digester p with
      | None => (None, sc_nodeFullRank p, 0)
      | Some state => (Some (FinishSequence state), sc_nodeFullRank p, rc_TotalIndex (sc_cursor p))
      end.
End Finish.

(** ** realm_vector_helper.go *)

Record VectorEntry : Type := mkVectorEntry { entry_data : VectorEntryData; filterBy : Z }.
Record sortedEntry : Type := mkSortedEntry { sortRank : SortingRank; se_index : Z }.
Record Projection : Type := mkProjection {
  populationVersion : Z;
  indexedRefs : list (option VectorEntry);
  joinersRefs : list VectorEntry;
  poweredSorted : list sortedEntry;
}.

(** What is read of a [NodeAppearance]. *)
Record Appearance : Type := mkAppearance { ap_state : VectorEntryData; ap_JoinerID : Z }.

Definition setMember (d : VectorEntryData) (index : Z) : go sortedEntry :=
  r ← NewSortingRank (GetNodeID (Profile d)) (GetPrimaryRole (Profile d)) (RequestedPower d) ModeNormal;
  Ret (mkSortedEntry r (i16 index)).
Definition setJoiner (d : VectorEntryData) (index : Z) : go sortedEntry := setMember d (- (index + 1)).
Definition isJoiner (v : sortedEntry) : bool := se_index v <? 0.
Definition slice_ref {A} (l : list A) (i : Z) : go A :=
  if i <? 0 then Panic "index out of range"
  else match l !! Z.to_nat i with Some x => Ret x | None => Panic "index out of range" end.
Definition chooseEntry (v : sortedEntry) (members : list (option VectorEntry)) (joiners : list VectorEntry) : go (bool * option VectorEntry) :=
  if isJoiner v then j ← slice_ref joiners (- (se_index v + 1)); Ret (true, Some j)
  else m ← slice_ref members (se_index v); Ret (false, m).

(** The loop of [setNodes]: the indexed entries, the sorted ones and the
    joiners so far, each in the order they are set. *)
Record node_sets : Type := mkSets { ns_indexed : list (option VectorEntry); ns_sorted : list sortedEntry; ns_joiners : list VectorEntry }.
Definition set_joiner (joiner : Appearance) (i : Z) (s : node_sets) : go node_sets :=
  if negb (ap_JoinerID joiner =? 0) then Panic "illegal state"
  else
    let je := mkVectorEntry (ap_state joiner) (u16 i) in
    se ← setJoiner (ap_state joiner) (Z.of_nat (length (ns_joiners s)));
    Ret (mkSets (ns_indexed s) (ns_sorted s ++ [se]) (ns_joiners s ++ [je])).
Fixpoint set_nodes (dynamicNodes : gmap Z Appearance) (i : Z) (nodeIndex : list (option Appearance)) (s : node_sets) : go node_sets :=
  match nodeIndex with
  | [] => Ret s
  | None :: rest => set_nodes dynamicNodes (i + 1) rest (mkSets (ns_indexed s ++ [None]) (ns_sorted s) (ns_joiners s))
  | Some n :: rest =>
      let ve := mkVectorEntry (ap_state n) (u16 i) in
      se ← setMember (ap_state n) i;
      let s := mkSets (ns_indexed s ++ [Some ve]) (ns_sorted s ++ [se]) (ns_joiners s) in
      s ← (if ap_JoinerID n =? 0 then Ret s
           else match dynamicNodes !! ap_JoinerID n with
                | None => Ret s
                | Some joiner => set_joiner joiner i s
                end);
      set_nodes dynamicNodes (i + 1) rest s
  end.

Section Helper.
Context `{Sorting}.

(** The projection [CreateProjection] hands out. *)
Definition setNodes (nodeIndex : list (option Appearance)) (dynamicNodes : gmap Z Appearance) (populationVersion : Z) : go Projection :=
  s ← set_nodes dynamicNodes 0 nodeIndex (mkSets [] [] []);
  Ret (mkProjection populationVersion (ns_indexed s) (ns_joiners s)
         (go_sort (fun a b => SortingRank_Less (sortRank a) (sortRank b)) (ns_sorted s))).

Definition HasSameVersion (p : Projection) (version : Z) : bool :=
  (0 <? Z.of_nat (length (indexedRefs p))) && (populationVersion p =? version).
Definition GetIndexedCount (p : Projection) : Z := Z.of_nat (length (indexedRefs p)).
Definition GetSortedCount (p : Projection) : Z := Z.of_nat (length (poweredSorted p)).

(** [apply] with the state its closure keeps. *)
Fixpoint scan_indexed {S} (apply : Z -> VectorEntryData -> S -> go S) (i : Z) (l : list (option VectorEntry)) (s : S) : go S :=
  match l with
  | [] => Ret s
  | None :: l' => scan_indexed apply (i + 1) l' s
  | Some ve :: l' => s ← apply i (entry_data ve) s; scan_indexed apply (i + 1) l' s
  end.
Definition ScanIndexed {S} (p : Projection) (apply : Z -> VectorEntryData -> S -> go S) (s : S) : go S :=
  scan_indexed apply 0 (indexedRefs p) s.

Fixpoint scan_plain {S} (p : Projection) (apply : VectorEntryData -> bool -> Z -> S -> go S) (filterValue : Z)
    (l : list sortedEntry) (s : S) : go S :=
  match l with
  | [] => Ret s
  | se :: l' =>
      c ← chooseEntry se (indexedRefs p) (joinersRefs p);
      s ← match c.2 with None => Ret s | Some ve => apply (entry_data ve) false filterValue s end;
      scan_plain p apply filterValue l' s
  end.
Definition ScanSorted {S} (p : Projection) (apply : VectorEntryData -> bool -> Z -> S -> go S) (filterValue : Z) (s : S) : go S :=
  scan_plain p apply filterValue (poweredSorted p) s.

(** *** ScanSortedWithFilter *)
Definition postponedEntry : Type := VectorEntry * Z.
Definition entry_id (ve : VectorEntry) : Z := GetNodeID (Profile (entry_data ve)).
Record scan_state (S : Type) : Type := mkScan { sn_skipped : list postponedEntry; sn_unordered : bool; sn_prevID : Z; sn_user : S }.
#[global] Arguments mkScan {S} sn_skipped sn_unordered sn_prevID sn_user.
#[global] Arguments sn_skipped {S} s.
#[global] Arguments sn_unordered {S} s.
#[global] Arguments sn_prevID {S} s.
#[global] Arguments sn_user {S} s.

(** An entry is put aside. *)
Definition postpone_entry {S} (ve : VectorEntry) (filterValue : Z) (s : scan_state S) : scan_state S :=
  let unordered := match last (sn_skipped s) with
                   | None => sn_unordered s
                   | Some (ve', _) => sn_unordered s || LessByID (entry_id ve) (entry_id ve')
                   end in
  mkScan (sn_skipped s ++ [(ve, filterValue)]) unordered (entry_id ve) (sn_user s).

Definition scan_entry {S} (p : Projection) (parentFilter : Z) (apply : VectorEntryData -> bool -> Z -> S -> go S)
    (filter : Z -> VectorEntryData -> Z -> go (bool * Z)) (se : sortedEntry) (s : scan_state S) : go (scan_state S) :=
  c ← chooseEntry se (indexedRefs p) (joinersRefs p);
  match c with
  | (_, None) => Ret s
  | (joiner, Some valueEntry) =>
      filterEntry ← slice_ref (indexedRefs p) (filterBy valueEntry);
      match filterEntry with
      | None => Ret s
      | Some filterEntry =>
          f ← filter (filterBy valueEntry) (entry_data filterEntry) parentFilter;
          let nodeID := entry_id valueEntry in
          let go_on (f : bool * Z) :=
            if f.1 then Ret (postpone_entry valueEntry f.2 s)
            else u ← apply (entry_data valueEntry) false f.2 (sn_user s);
                 Ret (mkScan (sn_skipped s) (sn_unordered s) nodeID u) in
          if joiner : bool then
            if (sn_prevID s =? nodeID) || f.1 then Ret s
            else f ← filter (-1) (entry_data valueEntry) f.2; go_on f
          else if sn_prevID s =? nodeID then Panic "illegal state"
          else go_on f
      end
  end.
Fixpoint scan_entries {S} (p : Projection) (parentFilter : Z) (apply : VectorEntryData -> bool -> Z -> S -> go S)
    (filter : Z -> VectorEntryData -> Z -> go (bool * Z)) (l : list sortedEntry) (s : scan_state S) : go (scan_state S) :=
  match l with
  | [] => Ret s
  | se :: l' => s ← scan_entry p parentFilter apply filter se s; scan_entries p parentFilter apply filter l' s
  end.
Fixpoint apply_skipped {S} (apply : VectorEntryData -> bool -> Z -> S -> go S) (l : list postponedEntry) (s : S) : go S :=
  match l with
  | [] => Ret s
  | pe :: l' => s ← apply (entry_data pe.1) true pe.2 s; apply_skipped apply l' s
  end.
Definition ScanSortedWithFilter {S} (p : Projection) (parentFilter : Z) (apply : VectorEntryData -> bool -> Z -> S -> go S)
    (filter : Z -> VectorEntryData -> Z -> go (bool * Z)) (s : S) : go S :=
  r ← scan_entries p parentFilter apply filter (poweredSorted p) (mkScan [] false 0 s);
  let skipped := if sn_unordered r
                 then go_sort (fun a b => LessByID (entry_id b.1) (entry_id a.1)) (sn_skipped r)
                 else sn_skipped r in
  apply_skipped apply skipped (sn_user r).
End Helper.
