(* ===== verification/VectorBuilder.v ===== *)
(** * Digests of the vector (src/network/consensus/gcpv2/phasebundle/nodeset/
    vector_builder.go)

    From the projection of a population and a bit set of trust the builder
    digests the announcements and the ranked states of the nodes that are
    trusted, and of all that are there. *)
From S2P Require Import Prelude MemberPower MemberRank NodeStats NodeVector.

Record VectorBuilder : Type := mkBuilder { entryScanner : Projection; GetBitset : list Z }.
Definition NewVectorBuilder (s : Projection) (bitset : list Z) : VectorBuilder := mkBuilder s bitset.

Definition mapVectorEntryDataToNodesetEntry (d : VectorEntryData) : Z :=
  if entry_IsEmpty d then BeTimeout
  else if Trust_IsNegative (TrustLevel d) then BeFraud
  else if TrustLevel d =? UnknownTrust then BeBaselineTrust
  else if TrustLevel d <? TrustByNeighbors then BeLimitedTrust
  else BeHighTrust.

(** [bitset[idx] = v] *)
Definition slice_set (l : list Z) (i v : Z) : go (list Z) :=
  _ ← slice_get l i; Ret (<[Z.to_nat i := v]> l).
Definition FillBitset (p : VectorBuilder) : go VectorBuilder :=
  bitset ← ScanIndexed (entryScanner p) (fun idx d bitset => slice_set bitset idx (mapVectorEntryDataToNodesetEntry d)) (GetBitset p);
  Ret (mkBuilder (entryScanner p) bitset).

Definition derived_entry (compared entry : Z) : go Z :=
  if compared =? ComparedMissingHere then Ret BeTimeout
  else if compared =? ComparedDoubtedMissingHere then Ret BeTimeout
  else if compared =? ComparedSame then Ret entry
  else if compared =? ComparedLessTrustedThere then Ret BeBaselineTrust
  else if compared =? ComparedLessTrustedHere then Ret BeHighTrust
  else if compared =? ComparedMissingThere then Ret BeTimeout
  else Panic "unexpected".
(** [for idx := range p.bitset] *)
Fixpoint build_derived (comparedStats : Row) (idx : Z) (bitset : list Z) : go (list Z) :=
  match bitset with
  | [] => Ret []
  | b :: bitset' =>
      c ← Row_Get comparedStats idx;
      x ← derived_entry c b;
      l ← build_derived comparedStats (idx + 1) bitset';
      Ret (x :: l)
  end.
Definition buildDerivedBitset (p : VectorBuilder) (comparedStats : Row) : go (list Z) := build_derived comparedStats 0 (GetBitset p).
Definition CreateDerived (p : VectorBuilder) (comparedStats : Row) : go VectorBuilder :=
  bitset ← buildDerivedBitset p comparedStats; Ret (mkBuilder (entryScanner p) bitset).

(** [statevector.CalcStateWithRank] *)
Record CalcStateWithRank : Type := mkCalcState { cs_StateHash : option (list Z); cs_ExpectedRank : Z }.
Definition zeroCalcState : CalcStateWithRank := mkCalcState None 0.

Section Builder.
Context `{Sorting} (digestOf : list Z -> list Z).

(** *** Announcements *)
Definition announce_one (p : VectorBuilder) (trusted : bool) (idx : Z) (d : VectorEntryData) (calc : AnnouncementCalc) : go AnnouncementCalc :=
  b ← slice_get (GetBitset p) idx;
  if IsTimeout b then Ret calc
  else if trusted && negb (IsTrusted b) then Ret calc
  else Announcement_AddNext calc d.
Definition buildGlobulaAnnouncementHash (p : VectorBuilder) (trusted : bool) : go (option (list Z)) :=
  calc ← ScanIndexed (entryScanner p) (announce_one p trusted) NewAnnouncementSequenceCalc;
  Ret (Announcement_FinishSequence digestOf calc).

(** Both at once: the doubted sequence forks from the trusted one at the first
    node that is not trusted. *)
Definition announce_both (p : VectorBuilder) (idx : Z) (d : VectorEntryData) (s : AnnouncementCalc * AnnouncementCalc) :
    go (AnnouncementCalc * AnnouncementCalc) :=
  let '(calcTrusted, calcDoubted) := s in
  b ← slice_get (GetBitset p) idx;
  if IsTimeout b then Ret (calcTrusted, calcDoubted)
  else if IsTrusted b then
    calcTrusted ← Announcement_AddNext calcTrusted d;
    if Announcement_IsEmpty calcDoubted then Ret (calcTrusted, calcDoubted)
    else calcDoubted ← Announcement_AddNext calcDoubted d; Ret (calcTrusted, calcDoubted)
  else
    calcDoubted ← (if Announcement_IsEmpty calcDoubted then Announcement_ForkSequenceOf calcDoubted calcTrusted else Ret calcDoubted);
    calcDoubted ← Announcement_AddNext calcDoubted d; Ret (calcTrusted, calcDoubted).
Definition BuildAllGlobulaAnnouncementHashes (p : VectorBuilder) : go (option (list Z) * option (list Z)) :=
  s ← ScanIndexed (entryScanner p) (announce_both p) (NewAnnouncementSequenceCalc, zeroAnnouncementCalc);
  Ret (Announcement_FinishSequence digestOf s.1, Announcement_FinishSequence digestOf s.2).

Definition BuildGlobulaAnnouncementHashes (p : VectorBuilder) (buildTrusted buildDoubted : bool)
    (defaultTrusted defaultDoubted : option (list Z)) : go (option (list Z) * option (list Z)) :=
  if buildTrusted && buildDoubted then
    td ← BuildAllGlobulaAnnouncementHashes p;
    Ret match td.2 with None => (td.1, td.1) | Some _ => td end
  else if buildTrusted then t ← buildGlobulaAnnouncementHash p true; Ret (t, defaultDoubted)
  else if buildDoubted then d ← buildGlobulaAnnouncementHash p false; Ret (defaultTrusted, d)
  else Ret (defaultTrusted, defaultDoubted).

(** *** States *)
Definition state_with_rank (r : option (list Z) * FullRank * Z) : go CalcStateWithRank :=
  rank ← AsMembershipRank r.1.2 r.2; Ret (mkCalcState r.1.1 rank).
Definition hash_filter (p : VectorBuilder) (trusted : bool) (idx : Z) (d : VectorEntryData) (_ : Z) : go (bool * Z) :=
  if entry_IsEmpty d || (RequestedPower d =? 0) || IsPowerless (RequestedMode d) then Ret (true, 0)
  else if idx <? 0 then Ret (false, 0)
  else if trusted then b ← slice_get (GetBitset p) idx; Ret (negb (IsTrusted b), 0)
  else Ret (false, 0).
Definition buildGlobulaStateHash (p : VectorBuilder) (trusted : bool) (nodeID : Z) : go CalcStateWithRank :=
  calc ← ScanSortedWithFilter (entryScanner p) 0 (fun d postponed _ calc => State_AddNextNode calc d postponed)
           (hash_filter p trusted) (NewStateAndRankSequenceCalc nodeID);
  r ← State_FinishSequence digestOf calc;
  state_with_rank r.

Definition BuildGlobulaStateHashesAndRanks (p : VectorBuilder) (buildTrusted buildDoubted : bool) (nodeID : Z)
    (defaultTrusted defaultDoubted : CalcStateWithRank) : go (CalcStateWithRank * CalcStateWithRank) :=
  t ← (if buildTrusted then buildGlobulaStateHash p true nodeID else Ret defaultTrusted);
  d ← (if buildDoubted then buildGlobulaStateHash p false nodeID else Ret defaultDoubted);
  Ret (t, d).

(** [apply] has a state of its own beside the calculation. *)
Definition BuildGlobulaStateHashWithFilter {S} (p : VectorBuilder) (nodeID : Z) (apply : VectorEntryData -> bool -> Z -> S -> go S)
    (filter : Z -> VectorEntryData -> Z -> go (bool * Z)) (s : S) : go (S * CalcStateWithRank) :=
  r ← ScanSortedWithFilter (entryScanner p) 0
        (fun d postponed f (s : S * StateCalc) =>
           u ← apply d postponed f s.1; calc ← State_AddNextNode s.2 d postponed; Ret (u, calc))
        filter (s, NewStateAndRankSequenceCalc nodeID);
  q ← State_FinishSequence digestOf r.2;
  c ← state_with_rank q;
  Ret (r.1, c).
End Builder.
