(* ===== verification/VectorInspector.v ===== *)
(** * Inspection of the vectors of other nodes (src/network/consensus/gcpv2/
    phasebundle: nodeset/vector_classifier.go, inspectors/vector_processor.go)

    A node compares the bit set of another with its own, digests what the
    other should have digested, and says of each node what the other's vector
    proves; and from the decision over all nodes it makes the next population. *)
From S2P Require Import Prelude MemberPower MemberRank NodeStats NodeVector VectorBuilder.

(** ** vector_classifier.go *)
Inductive SubVectorCompared : Type := SvcIgnore | verify | verifyAsIs | verifyRecalc.
#[export] Instance SubVectorCompared_eq_dec : EqDecision SubVectorCompared.
Proof. solve_decision. Defined.

Definition UpdateVerify (v n : SubVectorCompared) : go SubVectorCompared :=
  match v with SvcIgnore => Ret SvcIgnore | verify => Ret n | _ => Panic "illegal state" end.
Definition IsNeeded (v : SubVectorCompared) : bool := negb (bool_decide (v = SvcIgnore)).
Definition IsRecalc (v : SubVectorCompared) : bool := bool_decide (v = verifyRecalc).
Definition initVerify (needed : bool) : SubVectorCompared := if needed then verify else SvcIgnore.

(** The two cases of the switch that fall into one body. *)
Definition same_nodes (sr : Row) : go bool :=
  a ← HasAllValuesOf sr ComparedSame ComparedLessTrustedHere;
  if a : bool then Ret true else HasAllValuesOf sr ComparedSame ComparedLessTrustedThere.
Definition compare_parts (sr : Row) (trustedPart doubtedPart : SubVectorCompared) : go (SubVectorCompared * SubVectorCompared) :=
  same ← same_nodes sr;
  if same : bool then
    all ← HasAllValues sr ComparedSame;
    t ← UpdateVerify trustedPart (if all : bool then verifyAsIs else verifyRecalc);
    d ← UpdateVerify doubtedPart verifyAsIs;
    Ret (t, d)
  else
    missing ← HasValues sr ComparedDoubtedMissingHere;
    if missing : bool then
      t ← UpdateVerify trustedPart verifyRecalc;
      d ← UpdateVerify doubtedPart SvcIgnore;
      Ret (t, d)
    else
      t ← UpdateVerify trustedPart verifyRecalc;
      there ← HasValues sr ComparedMissingThere;
      d ← UpdateVerify doubtedPart (if there : bool then verifyRecalc else verifyAsIs);
      Ret (t, d).
Definition PrepareSubVectorsComparison (sr : Row) (hasOtherTrusted hasOtherDoubted : bool) : go (SubVectorCompared * SubVectorCompared) :=
  let trustedPart := initVerify hasOtherTrusted in
  let doubtedPart := initVerify hasOtherDoubted in
  if negb (IsNeeded trustedPart) then Panic "illegal state"
  else
    missing ← HasValues sr ComparedMissingHere;
    if missing : bool then Ret (SvcIgnore, SvcIgnore)
    else
      td ← compare_parts sr trustedPart doubtedPart;
      if bool_decide (td.1 = verify) || bool_decide (td.2 = verify) then Panic "illegal state" else Ret td.

Definition NvrNotVerified : Z := 0.
Definition NvrSenderFault : Z := 1.
Definition NvrMissingNodes : Z := 2.
Definition NvrTrustedValid : Z := 4.
Definition NvrTrustedFraud : Z := 8.
Definition NvrTrustedAlteredNodeSet : Z := 16.
Definition NvrDoubtedValid : Z := 32.
Definition NvrDoubtedFraud : Z := 64.
Definition NvrDoubtedAlteredNodeSet : Z := 128.
Definition NvrHashlessFlags : Z := Z.lor NvrSenderFault NvrMissingNodes.

Definition AnyOf (v f : Z) : bool := negb (Z.land v f =? 0).
Definition AllOf (v f : Z) : bool := Z.land v f =? f.
Definition setOnce (v f : Z) (valid altered : bool) : go Z :=
  if negb (Z.land v (Z.lor f (u16 (Z.shiftl f 1))) =? 0) then Panic "repeated set"
  else
    let v := if altered then Z.lor v (u16 (Z.shiftl f 2)) else v in
    Ret (Z.lor v (if valid then f else u16 (Z.shiftl f 1))).
Definition SetTrusted (v : Z) (valid altered : bool) : go Z := setOnce v NvrTrustedValid valid altered.
Definition SetDoubted (v : Z) (valid altered : bool) : go Z := setOnce v NvrDoubtedValid valid altered.

(** consensus_stats.go, opmode.go *)
Definition ConsensusStatMissingHere : Z := ConsensusStatUnknown.
Definition ModePossibleFraudAndSuspected : Z := Z.lor ModeFlagSuspendedOps ModeFlagValidationWarning.

(** The statistics of a node; the second result, which part to blame, is not
    used. *)
Definition summaryByEntry (otherEntry verifyRes compared : Z) : go (Z * Z) :=
  let missing := Ret (ConsensusStatMissingHere, NvrNotVerified) in
  let by_doubted :=
    if AnyOf verifyRes NvrDoubtedValid then Ret (ConsensusStatDoubted, NvrNotVerified)
    else if AnyOf verifyRes NvrDoubtedFraud then Ret (ConsensusStatFraudSuspect, NvrDoubtedFraud)
    else missing in
  if IsFraud otherEntry then Ret (ConsensusStatFraud, NvrNotVerified)
  else if compared =? ComparedMissingHere then
    if negb (verifyRes =? NvrNotVerified) then Panic "unexpected" else missing
  else if compared =? ComparedDoubtedMissingHere then
    if AnyOf verifyRes (Z.lor NvrDoubtedFraud NvrDoubtedValid) then Panic "unexpected"
    else if IsTrusted otherEntry then
      if AnyOf verifyRes NvrTrustedValid then Ret (ConsensusStatTrusted, NvrNotVerified)
      else if AllOf verifyRes NvrTrustedFraud then Ret (ConsensusStatFraudSuspect, NvrTrustedFraud)
      else missing
    else missing
  else if compared =? ComparedMissingThere then Ret (ConsensusStatMissingThere, NvrNotVerified)
  else if compared =? ComparedSame then
    if IsTimeout otherEntry then Ret (ConsensusStatMissingThere, NvrNotVerified)
    else if IsFraud otherEntry then Ret (ConsensusStatFraud, NvrNotVerified)
    else if IsTrusted otherEntry && AnyOf verifyRes NvrTrustedFraud then Ret (ConsensusStatFraudSuspect, NvrTrustedFraud)
    else if IsTrusted otherEntry && AnyOf verifyRes NvrTrustedValid then Ret (ConsensusStatTrusted, NvrNotVerified)
    else by_doubted
  else if compared =? ComparedLessTrustedThere then
    if IsFraud otherEntry then Ret (ConsensusStatFraudSuspect, NvrNotVerified) else by_doubted
  else if compared =? ComparedLessTrustedHere then
    if AllOf verifyRes (Z.lor NvrTrustedValid NvrTrustedAlteredNodeSet) then Ret (ConsensusStatTrusted, NvrNotVerified)
    else if AllOf verifyRes (Z.lor NvrTrustedFraud NvrTrustedAlteredNodeSet) then Ret (ConsensusStatFraudSuspect, NvrTrustedFraud)
    else by_doubted
  else Panic "unexpected".

Fixpoint summarize (otherDataBitset : list Z) (verifyRes : Z) (sr : Row) (i : Z) (n : nat) (nodeStats : Row) : go Row :=
  match n with
  | O => Ret nodeStats
  | S n' =>
      other ← slice_get otherDataBitset i;
      compared ← Row_Get sr i;
      r ← summaryByEntry other verifyRes compared;
      s ← Row_Set nodeStats i r.1;
      summarize otherDataBitset verifyRes sr (i + 1) n' s.1
  end.
Definition SummarizeStats (otherDataBitset : list Z) (verifyRes : Z) (sr : Row) : go Row :=
  nodeStats ← NewConsensusStatRow (Row_ColumnCount sr);
  summarize otherDataBitset verifyRes sr 0 (Z.to_nat (Row_ColumnCount sr)) nodeStats.

(** ** hashed_vector.go: what is sent; [None] is nil *)
Record HashedSubVector : Type := mkHashed { hv_AnnouncementHash : option (list Z); hv_StateSignature : option (list Z); hv_ExpectedRank : Z }.
Record HashedVector : Type := mkHashedVector { hv_Bitset : list Z; hv_Trusted : HashedSubVector; hv_Doubted : HashedSubVector }.
Record CalcSubVector : Type := mkCalcSub { cv_AnnouncementHash : option (list Z); cv_State : CalcStateWithRank }.

Definition is_nil {A} (o : option A) : bool := match o with None => true | Some _ => false end.
(** [d.Equals(o)]: a nil receiver panics. *)
Definition digest_Equals (d o : option (list Z)) : go bool :=
  match d with None => Panic "nil pointer" | Some d => Ret (bool_decide (o = Some d)) end.

(** ** vector_processor.go *)
Record Inspector : Type := mkInspector {
  in_nodeID : Z;
  disableRanksAndGSH : bool;
  maxPopulationForInlineHashing : Z;
  in_Trusted : CalcSubVector;
  in_Doubted : CalcSubVector;
  in_builder : VectorBuilder;
}.
Definition zeroCalcSub : CalcSubVector := mkCalcSub None zeroCalcState.
Record inspectedVector : Type := mkInspected {
  iv_nodeID : Z;
  otherData : HashedVector;
  customOptions : Z;
  trustedPart : SubVectorCompared;
  doubtedPart : SubVectorCompared;
  verifyResult : Z;
  comparedStats : Row;
  nodeStats : option Row;
}.
Definition zeroRow : Row := mkRow 0 [] [].

Definition CreateInspector (inlineLimit : Z) (disable : bool) (scanner : Projection) (nodeID : Z) : go Inspector :=
  b ← FillBitset (NewVectorBuilder scanner (replicate (Z.to_nat (GetIndexedCount scanner)) 0));
  Ret (mkInspector nodeID disable inlineLimit zeroCalcSub zeroCalcSub b).

Section Inspection.
Context `{Sorting} (digestOf : list Z -> list Z).
(** The signature verifier of each node. *)
Context (IsValidDigestSignature : Z -> list Z -> list Z -> bool).

Definition PrepareForInspection (p : Inspector) : go (Inspector * bool) :=
  if negb (is_nil (cv_AnnouncementHash (in_Trusted p))) then Panic "illegal state"
  else
    td ← BuildAllGlobulaAnnouncementHashes digestOf (in_builder p);
    let with_hashes t d := mkInspector (in_nodeID p) (disableRanksAndGSH p) (maxPopulationForInlineHashing p) t d (in_builder p) in
    if is_nil td.1 then Ret (with_hashes (mkCalcSub td.1 zeroCalcState) (mkCalcSub td.2 zeroCalcState), false)
    else
      s ← BuildGlobulaStateHashesAndRanks digestOf (in_builder p) true (negb (is_nil td.2)) (in_nodeID p) zeroCalcState zeroCalcState;
      Ret (with_hashes (mkCalcSub td.1 s.1) (mkCalcSub td.2 s.2), true).

Definition ensureHashes (p : Inspector) : go unit :=
  if is_nil (cv_AnnouncementHash (in_Trusted p)) then Panic "illegal state" else Ret tt.
Definition Sign (sign : list Z -> list Z) (v : CalcSubVector) : HashedSubVector :=
  match cs_StateHash (cv_State v) with
  | None => mkHashed (cv_AnnouncementHash v) None 0
  | Some h => mkHashed (cv_AnnouncementHash v) (Some (sign h)) (cs_ExpectedRank (cv_State v))
  end.
Definition CreateVector (sign : list Z -> list Z) (p : Inspector) : go HashedVector :=
  _ ← ensureHashes p;
  Ret (mkHashedVector (GetBitset (in_builder p)) (Sign sign (in_Trusted p)) (Sign sign (in_Doubted p))).

(** A verifier (adapters/cryptography.go) asks the signature for its method, so
    a nil one panics. *)
Definition verifySignature (nodeID : Z) (localHash remoteSignature : option (list Z)) : go bool :=
  match localHash, remoteSignature with
  | None, _ => Ret false
  | Some _, None => Panic "nil pointer"
  | Some h, Some s => Ret (IsValidDigestSignature nodeID h s)
  end.

(** The ranks and state hashes of the parts whose announcements are right. *)
Definition verify_states (p : Inspector) (v : inspectedVector) (vectorBuilder : VectorBuilder) (selfTrusted selfDoubted : CalcStateWithRank)
    (validTrusted validDoubted : bool) : go (bool * bool) :=
  let recalcTrusted := IsRecalc (trustedPart v) && validTrusted in
  let recalcDoubted := IsRecalc (doubtedPart v) && validDoubted in
  gsh ← (if recalcTrusted || recalcDoubted then
           BuildGlobulaStateHashesAndRanks digestOf vectorBuilder recalcTrusted recalcDoubted (iv_nodeID v) selfTrusted selfDoubted
         else Ret (selfTrusted, selfDoubted));
  let other := otherData v in
  let validTrusted := if recalcTrusted then cs_ExpectedRank gsh.1 =? hv_ExpectedRank (hv_Trusted other) else validTrusted in
  let validDoubted := if recalcDoubted then cs_ExpectedRank gsh.2 =? hv_ExpectedRank (hv_Doubted other) else validDoubted in
  validTrusted ← (if validTrusted then verifySignature (iv_nodeID v) (cs_StateHash gsh.1) (hv_StateSignature (hv_Trusted other)) else Ret false);
  validDoubted ← (if validDoubted then verifySignature (iv_nodeID v) (cs_StateHash gsh.2) (hv_StateSignature (hv_Doubted other)) else Ret false);
  Ret (validTrusted, validDoubted).

(** What is needed of the two parts as they are. *)
Definition doVerifyVectorHashes (p : Inspector) (v : inspectedVector) : go (SubVectorCompared * Z) :=
  let other := otherData v in
  let selfTrusted := in_Trusted p in
  let selfDoubted := if IsNeeded (doubtedPart v) && is_nil (cv_AnnouncementHash (in_Doubted p)) then in_Trusted p else in_Doubted p in
  let recalc := IsRecalc (trustedPart v) || IsRecalc (doubtedPart v) in
  vectorBuilder ← (if recalc then CreateDerived (in_builder p) (comparedStats v) else Ret (in_builder p));
  gah ← (if recalc then
           BuildGlobulaAnnouncementHashes digestOf vectorBuilder (IsRecalc (trustedPart v)) (IsRecalc (doubtedPart v))
             (cv_AnnouncementHash selfTrusted) (cv_AnnouncementHash selfDoubted)
         else Ret (cv_AnnouncementHash selfTrusted, cv_AnnouncementHash selfDoubted));
  validTrusted ← (if IsNeeded (trustedPart v) then digest_Equals gah.1 (hv_AnnouncementHash (hv_Trusted other)) else Ret false);
  validDoubted ← (if IsNeeded (doubtedPart v) then digest_Equals gah.2 (hv_AnnouncementHash (hv_Doubted other)) else Ret false);
  let fault := validDoubted && negb validTrusted in
  let verifyRes := if fault then NvrSenderFault else NvrNotVerified in
  let part := if fault then SvcIgnore else trustedPart v in
  valid ← (if negb (disableRanksAndGSH p) && (validTrusted || validDoubted) then
             verify_states p (mkInspected (iv_nodeID v) other (customOptions v) part (doubtedPart v) (verifyResult v) (comparedStats v) (nodeStats v))
               vectorBuilder (cv_State selfTrusted) (cv_State selfDoubted) validTrusted validDoubted
           else Ret (validTrusted, validDoubted));
  verifyRes ← (if IsNeeded part then SetTrusted verifyRes valid.1 (IsRecalc part) else Ret verifyRes);
  verifyRes ← (if IsNeeded (doubtedPart v) then SetDoubted verifyRes valid.2 (IsRecalc (doubtedPart v)) else Ret verifyRes);
  Ret (part, verifyRes).

Definition IsInspected (v : inspectedVector) : bool := negb (verifyResult v =? NvrNotVerified).
Definition HasMissingMembers (v : inspectedVector) : bool := AnyOf (verifyResult v) NvrMissingNodes.
Definition HasSenderFault (v : inspectedVector) : bool := AnyOf (verifyResult v) NvrSenderFault.

(** The statistics carry the custom options. *)
Definition Inspect (p : Inspector) (v : inspectedVector) : go inspectedVector :=
  if (iv_nodeID v =? 0) || IsInspected v then Ret v
  else if negb (is_nil (nodeStats v)) then Panic "illegal state"
  else
    r ← doVerifyVectorHashes p v;
    if r.2 =? NvrNotVerified then Panic "illegal state"
    else
      ns ← SummarizeStats (hv_Bitset (otherData v)) (Z.ldiff r.2 NvrHashlessFlags) (comparedStats v);
      Ret (mkInspected (iv_nodeID v) (otherData v) (customOptions v) r.1 (doubtedPart v) r.2 (comparedStats v) (Some ns)).

Definition newInspectedVectorAndPreInspect (p : Inspector) (sender customOptions : Z) (otherVector : HashedVector) : go inspectedVector :=
  let r res stats := mkInspected sender otherVector customOptions SvcIgnore SvcIgnore res stats None in
  if negb (Z.of_nat (length (GetBitset (in_builder p))) =? Z.of_nat (length (hv_Bitset otherVector))) then Ret (r NvrSenderFault zeroRow)
  else
    stats ← CompareToStatRow (GetBitset (in_builder p)) (hv_Bitset otherVector);
    let hasTrusted := negb (is_nil (hv_AnnouncementHash (hv_Trusted otherVector))) in
    let hasDoubted := negb (is_nil (hv_AnnouncementHash (hv_Doubted otherVector))) in
    let res := if negb hasTrusted && negb hasDoubted then NvrSenderFault else NvrNotVerified in
    missing ← HasValues stats ComparedMissingHere;
    if missing : bool then Ret (r (Z.lor res NvrMissingNodes) stats)
    else
      parts ← PrepareSubVectorsComparison stats hasTrusted hasDoubted;
      let v := mkInspected sender otherVector customOptions parts.1 parts.2 res stats None in
      if (maxPopulationForInlineHashing p =? 0) || (GetIndexedCount (entryScanner (in_builder p)) <=? maxPopulationForInlineHashing p)
      then Inspect p v else Ret v.
Definition InspectVector (p : Inspector) (sender customOptions : Z) (otherVector : HashedVector) : go inspectedVector :=
  _ ← ensureHashes p; newInspectedVectorAndPreInspect p sender customOptions otherVector.

(** *** The next population *)
Record PopulationRank : Type := mkPopulationRank { pr_Profile : ActiveNode; pr_Power : Z; pr_OpMode : Z }.

Definition consensusDecisionToOpMode (decision lastMode : Z) : go Z :=
  if decision =? CbsFraud then
    Ret (if IsMistrustful lastMode then ModeEvictedAsFraud
         else if IsSuspended lastMode then ModePossibleFraudAndSuspected
         else ModePossibleFraud)
  else if decision =? CbsSuspected then
    Ret (if IsSuspended lastMode then ModeEvictedAsSuspected
         else if IsMistrustful lastMode then ModePossibleFraudAndSuspected
         else ModeSuspected)
  else if decision =? CbsExcluded then Ret ModeEvictedAsFraud
  else Panic "illegal value".

Definition population_filter (selectionSet : Row) (index : Z) (d : VectorEntryData) (_ : Z) : go (bool * Z) :=
  newMode ← (if 0 <=? index then
               decision ← Row_Get selectionSet index;
               let decision := if entry_IsEmpty d then CbsSuspected else decision in
               if negb (decision =? CbsIncluded) then consensusDecisionToOpMode decision (GetOpMode (Profile d))
               else Ret (RequestedMode d)
             else Ret (RequestedMode d));
  Ret ((RequestedPower d =? 0) || IsPowerless newMode, newMode).
Definition population_apply (count : Z) (d : VectorEntryData) (postponed : bool) (filter : Z) (result : list PopulationRank) : go (list PopulationRank) :=
  let mode := u8 filter in
  if IsPowerless mode && negb postponed then Panic "illegal state"
  else if count <=? Z.of_nat (length result) then Panic "index out of range"
  else Ret (result ++ [mkPopulationRank (Profile d) (if IsPowerless mode then 0 else RequestedPower d) mode]).
Definition createNextPopulation (p : VectorBuilder) (selectionSet : Row) : go (list PopulationRank * option (list Z)) :=
  r ← BuildGlobulaStateHashWithFilter digestOf p 0 (population_apply (GetSortedCount (entryScanner p)))
        (population_filter selectionSet) [];
  Ret (r.1, cs_StateHash r.2).
End Inspection.
