(* ===== verification/VectorsAgree.v ===== *)
(** * What a node says of the others is believed (src/network/consensus/gcpv2/
    phasebundle: nodeset, inspectors)

    A node that digested the same announcements proves its vector to any
    other, however much their trust differs. *)
From S2P Require Import Prelude LongBits MemberPower MemberRank NodeStats NodeVector VectorBuilder VectorInspector.

(** ** Two runs side by side *)
Definition go_rel {A B} (R : A -> B -> Prop) (m : go A) (m' : go B) : Prop :=
  match m, m' with Ret a, Ret b => R a b | Panic msg, Panic msg' => msg = msg' | _, _ => False end.
Lemma go_rel_bind {A B A' B'} (R : A -> B -> Prop) (Q : A' -> B' -> Prop) m m' (k : A -> go A') (k' : B -> go B') :
  go_rel R m m' -> (forall a b, R a b -> go_rel Q (k a) (k' b)) -> go_rel Q (m ≫= k) (m' ≫= k').
Proof. destruct m, m'; cbn; try done. intros H Hk. by apply Hk. Qed.
Lemma go_rel_eq {A} (m m' : go A) : go_rel eq m m' <-> m = m'.
Proof. destruct m, m'; cbn; (split; [by intros ->|by intros [= ->]]) || (split; done). Qed.
Lemma go_rel_refl {A} (R : A -> A -> Prop) (m : go A) : (forall a, R a a) -> go_rel R m m.
Proof. intros HR. destruct m; [apply HR|done]. Qed.

(** ** The trust in a node is not part of what is digested *)
Definition forget (d : VectorEntryData) : VectorEntryData :=
  mkEntryData (RequestedPower d) (RequestedMode d) 0 (Profile d) (StateEvidence d) (AnnounceSignature d).
Definition blind_entry (ve : VectorEntry) : VectorEntry := mkVectorEntry (forget (entry_data ve)) (filterBy ve).
Definition blind_ref (o : option VectorEntry) : option VectorEntry := match o with Some ve => Some (blind_entry ve) | None => None end.
Definition blind (p : Projection) : Projection :=
  mkProjection 0 (blind_ref <$> indexedRefs p) (blind_entry <$> joinersRefs p) (poweredSorted p).
Definition blind_postponed (pe : postponedEntry) : postponedEntry := (blind_entry pe.1, pe.2).

Lemma forget_fields d d' : forget d = forget d' ->
  RequestedPower d = RequestedPower d' /\ RequestedMode d = RequestedMode d' /\ Profile d = Profile d' /\
  StateEvidence d = StateEvidence d' /\ AnnounceSignature d = AnnounceSignature d'.
Proof. destruct d, d'. by intros [= -> -> -> -> ->]. Qed.
Lemma blind_entry_fields ve ve' : blind_entry ve = blind_entry ve' ->
  forget (entry_data ve) = forget (entry_data ve') /\ filterBy ve = filterBy ve' /\ entry_id ve = entry_id ve'.
Proof.
  destruct ve as [d k], ve' as [d' k']. unfold blind_entry, entry_id. cbn. intros [= E E' E'' E''' E4 ->].
  destruct d, d'. cbn in *. by subst.
Qed.

Lemma blind_ref_cases o o' : blind_ref o = blind_ref o' ->
  match o, o' with Some ve, Some ve' => blind_entry ve = blind_entry ve' | None, None => True | _, _ => False end.
Proof. destruct o, o'; try done. intros E. exact (f_equal (default (blind_entry v)) E). Qed.

Lemma fmap_cons_eq {A B} (f : A -> B) x y (l l' : list A) : f <$> (x :: l) = f <$> (y :: l') -> f x = f y /\ f <$> l = f <$> l'.
Proof. rewrite !fmap_cons. intros E. split; [exact (f_equal (hd (f x)) E)|exact (f_equal tail E)]. Qed.
Lemma fmap_lookup_eq {A B} (f : A -> B) (l l' : list A) i x : f <$> l = f <$> l' -> l !! i = Some x -> exists x', l' !! i = Some x' /\ f x = f x'.
Proof.
  intros E Hx. assert (H : (f <$> l') !! i = Some (f x)) by (by rewrite <- E, list_lookup_fmap, Hx).
  apply list_lookup_fmap_Some in H as (x' & H & Hx'). exists x'. by split.
Qed.
Lemma slice_ref_rel {A B} (f : A -> B) (l l' : list A) i : f <$> l = f <$> l' -> go_rel (fun x x' => f x = f x') (slice_ref l i) (slice_ref l' i).
Proof.
  intros E. unfold slice_ref. destruct (i <? 0); [done|]. destruct (l !! Z.to_nat i) as [x|] eqn:Hx.
  - destruct (fmap_lookup_eq f l l' _ _ E Hx) as (x' & -> & Ef). done.
  - apply lookup_ge_None in Hx. rewrite (proj2 (lookup_ge_None l' _)); [done|]. apply (f_equal length) in E. rewrite !length_fmap in E. lia.
Qed.

(** *** Over the indices *)
Lemma scan_indexed_rel {S S'} (R : S -> S' -> Prop) apply apply' l l' i s s' :
  blind_ref <$> l = blind_ref <$> l' -> R s s' ->
  (forall k ve ve' s s', l !! k = Some (Some ve) -> l' !! k = Some (Some ve') -> forget (entry_data ve) = forget (entry_data ve') ->
     R s s' -> go_rel R (apply (i + Z.of_nat k) (entry_data ve) s) (apply' (i + Z.of_nat k) (entry_data ve') s')) ->
  go_rel R (scan_indexed apply i l s) (scan_indexed apply' i l' s').
Proof.
  revert l' i s s'. induction l as [|o l IH]; intros [|o' l'] i s s' E HR Ha; try done; cbn [scan_indexed].
  apply fmap_cons_eq in E as [Eo El].
  assert (Hrest : forall k ve ve' s s', l !! k = Some (Some ve) -> l' !! k = Some (Some ve') -> forget (entry_data ve) = forget (entry_data ve') ->
     R s s' -> go_rel R (apply (i + 1 + Z.of_nat k) (entry_data ve) s) (apply' (i + 1 + Z.of_nat k) (entry_data ve') s')).
  { intros k ve ve' t t' H1 H2 H3 H4. replace (i + 1 + Z.of_nat k) with (i + Z.of_nat (Datatypes.S k)) by lia. by apply Ha. }
  apply blind_ref_cases in Eo. destruct o as [ve|], o' as [ve'|]; try done; [|by apply IH].
  apply (blind_entry_fields ve ve') in Eo as (Ed & _ & _).
  apply (go_rel_bind R R); [|intros t t' Ht; by apply IH].
  specialize (Ha 0%nat ve ve' s s' eq_refl eq_refl Ed HR). by rewrite Z.add_0_r in Ha.
Qed.

(** *** Over the sorted entries *)
Section Scan.
Context `{Sorting} {S S' : Type} (R : S -> S' -> Prop).
Context (p p' : Projection) (parentFilter : Z).
Context (apply : VectorEntryData -> bool -> Z -> S -> go S) (apply' : VectorEntryData -> bool -> Z -> S' -> go S').
Context (filter filter' : Z -> VectorEntryData -> Z -> go (bool * Z)).
Context (Hp : blind p = blind p').
Context (Hf : forall i ve ve' f, slice_ref (indexedRefs p) i = Ret (Some ve) -> slice_ref (indexedRefs p') i = Ret (Some ve') ->
  forget (entry_data ve) = forget (entry_data ve') -> filter i (entry_data ve) f = filter' i (entry_data ve') f).
Context (Hj : forall d d' f, forget d = forget d' -> filter (-1) d f = filter' (-1) d' f).
Context (Ha : forall d d' b f s s', forget d = forget d' -> R s s' -> go_rel R (apply d b f s) (apply' d' b f s')).

Definition scan_like (s : scan_state S) (s' : scan_state S') : Prop :=
  blind_postponed <$> sn_skipped s = blind_postponed <$> sn_skipped s' /\ sn_unordered s = sn_unordered s' /\
  sn_prevID s = sn_prevID s' /\ R (sn_user s) (sn_user s').

Lemma last_fmap_eq {A B} (f : A -> B) (l l' : list A) : f <$> l = f <$> l' ->
  match last l, last l' with Some x, Some x' => f x = f x' | None, None => True | _, _ => False end.
Proof.
  intros E. apply (f_equal last) in E. rewrite !fmap_last in E. destruct (last l), (last l'); try done. exact (f_equal (default (f a)) E).
Qed.

Lemma postpone_like ve ve' f s s' : blind_entry ve = blind_entry ve' -> scan_like s s' ->
  scan_like (postpone_entry ve f s) (postpone_entry ve' f s').
Proof.
  intros Ev (E1 & E2 & E3 & E4). destruct (blind_entry_fields _ _ Ev) as (_ & _ & Eid). unfold postpone_entry, scan_like. cbn.
  rewrite !fmap_app, E1. split_and!; [|  |done|done].
  - cbn. unfold blind_postponed at 2 4. cbn. by rewrite Ev.
  - pose proof (last_fmap_eq _ _ _ E1) as El. destruct (last (sn_skipped s)) as [[a ?]|], (last (sn_skipped s')) as [[a' ?]|]; try done.
    unfold blind_postponed in El. cbn in El. apply (f_equal fst) in El. cbn in El. apply blind_entry_fields in El as (_ & _ & ->). by rewrite E2, Eid.
Qed.

Lemma choose_like se : go_rel (fun c c' : bool * option VectorEntry => c.1 = c'.1 /\ blind_ref c.2 = blind_ref c'.2)
  (chooseEntry se (indexedRefs p) (joinersRefs p)) (chooseEntry se (indexedRefs p') (joinersRefs p')).
Proof.
  injection Hp as Hi Hjn Hs. unfold chooseEntry. destruct (isJoiner se).
  - eapply go_rel_bind; [by apply (slice_ref_rel blind_entry)|]. intros a b E. cbn. by rewrite E.
  - eapply go_rel_bind; [by apply (slice_ref_rel blind_ref)|]. intros a b E. done.
Qed.

Lemma entry_like se s s' : scan_like s s' ->
  go_rel scan_like (scan_entry p parentFilter apply filter se s) (scan_entry p' parentFilter apply' filter' se s').
Proof.
  intros Hs. pose proof Hs as (E1 & E2 & E3 & E4). unfold scan_entry.
  eapply go_rel_bind; [apply choose_like|]. intros [joiner o] [joiner' o'] [Ej Eo]. cbn in Ej, Eo. subst joiner'.
  apply blind_ref_cases in Eo as Ev. destruct o as [ve|], o' as [ve'|]; try done. destruct (blind_entry_fields _ _ Ev) as (Ed & Ek & Eid).
  rewrite <- Ek, <- Eid, <- E3. assert (Hi : blind_ref <$> indexedRefs p = blind_ref <$> indexedRefs p') by (by injection Hp).
  pose proof (slice_ref_rel (blind_ref) _ _ (filterBy ve) Hi) as Hr.
  destruct (slice_ref (indexedRefs p) (filterBy ve)) as [fe|] eqn:Er, (slice_ref (indexedRefs p') (filterBy ve)) as [fe'|] eqn:Er'; try done.
  cbn [mbind go_bind]. cbn in Hr. apply blind_ref_cases in Hr. destruct fe as [fe|], fe' as [fe'|]; try done.
  destruct (blind_entry_fields _ _ Hr) as (Ef & _).
  rewrite (Hf _ _ _ parentFilter Er Er' Ef). destruct (filter' (filterBy ve) (entry_data fe') parentFilter) as [f|]; [|done]. cbn [mbind go_bind].
  assert (Hgo : forall f : bool * Z, go_rel scan_like
    (if f.1 then Ret (postpone_entry ve f.2 s)
     else u ← apply (entry_data ve) false f.2 (sn_user s); Ret (mkScan (sn_skipped s) (sn_unordered s) (entry_id ve) u))
    (if f.1 then Ret (postpone_entry ve' f.2 s')
     else u ← apply' (entry_data ve') false f.2 (sn_user s'); Ret (mkScan (sn_skipped s') (sn_unordered s') (entry_id ve) u))).
  { intros [[] v]; cbn [fst snd].
    - by apply postpone_like.
    - eapply go_rel_bind; [by apply Ha|]. intros u u' Hu. by split_and!. }
  destruct joiner.
  - destruct (_ || _); [done|]. rewrite (Hj _ _ _ Ed). destruct (filter' (-1) (entry_data ve') f.2) as [g|]; [|done]. cbn [mbind go_bind]. apply Hgo.
  - destruct (_ =? _); [done|]. apply Hgo.
Qed.

Lemma entries_like l s s' : scan_like s s' ->
  go_rel scan_like (scan_entries p parentFilter apply filter l s) (scan_entries p' parentFilter apply' filter' l s').
Proof.
  revert s s'. induction l as [|se l IH]; intros s s' Hs; cbn [scan_entries]; [done|].
  eapply go_rel_bind; [by apply entry_like|]. intros. by apply IH.
Qed.

Lemma skipped_like l l' s s' : blind_postponed <$> l = blind_postponed <$> l' -> R s s' ->
  go_rel R (apply_skipped apply l s) (apply_skipped apply' l' s').
Proof.
  revert l' s s'. induction l as [|pe l IH]; intros [|pe' l'] s s' E HR; try done; cbn [apply_skipped].
  apply fmap_cons_eq in E as [Epe El]. assert (Ev : blind_entry pe.1 = blind_entry pe'.1) by (exact (f_equal fst Epe)). assert (E2 : pe.2 = pe'.2) by (exact (f_equal snd Epe)).
  destruct (blind_entry_fields _ _ Ev) as (Ed & _). rewrite E2. eapply go_rel_bind; [by apply Ha|]. intros. by apply IH.
Qed.

(** Entries that differ in trust only are sorted alike. *)
Lemma sorted_like l l' : blind_postponed <$> l = blind_postponed <$> l' ->
  blind_postponed <$> go_sort (fun a b : postponedEntry => LessByID (entry_id b.1) (entry_id a.1)) l =
  blind_postponed <$> go_sort (fun a b : postponedEntry => LessByID (entry_id b.1) (entry_id a.1)) l'.
Proof.
  intros E.
  assert (Hb : forall k, blind_postponed <$> go_sort (fun a b : postponedEntry => LessByID (entry_id b.1) (entry_id a.1)) k =
    go_sort (fun a b : postponedEntry => LessByID (entry_id b.1) (entry_id a.1)) (blind_postponed <$> k)).
  { intros k. by rewrite go_sort_map. }
  by rewrite !Hb, E.
Qed.

Lemma scan_rel s s' : R s s' ->
  go_rel R (ScanSortedWithFilter p parentFilter apply filter s) (ScanSortedWithFilter p' parentFilter apply' filter' s').
Proof.
  intros HR. unfold ScanSortedWithFilter. replace (poweredSorted p') with (poweredSorted p) by (by injection Hp).
  eapply go_rel_bind; [by apply entries_like|]. intros r r' (E1 & E2 & _ & E4). rewrite <- E2.
  apply skipped_like; [|done]. destruct (sn_unordered r); [by apply sorted_like|done].
Qed.
End Scan.

(** ** Announcements *)
Definition announced_in (t : bool) (x : Z) : bool := negb (IsTimeout x) && (negb t || IsTrusted x).

Lemma slice_get_rel {A B} (R : A -> B -> Prop) l l' i : Forall2 R l l' -> go_rel R (slice_get l i) (slice_get l' i).
Proof.
  intros Hl. unfold slice_get. destruct (i <? 0); [done|]. destruct (l !! Z.to_nat i) as [x|] eqn:Ex.
  - destruct (list.Forall2_lookup_l _ _ _ _ _ Hl Ex) as (y & -> & Hxy). done.
  - apply lookup_ge_None in Ex. rewrite (list.Forall2_length _ _ _ Hl) in Ex. by rewrite (proj2 (lookup_ge_None l' _)).
Qed.

Lemma Announcement_AddNext_forget c d d' : forget d = forget d' -> Announcement_AddNext c d = Announcement_AddNext c d'.
Proof. intros E. unfold Announcement_AddNext. by destruct (forget_fields _ _ E) as (_ & _ & _ & _ & ->). Qed.

Section Hashes.
Context `{Sorting} (digestOf : list Z -> list Z).

(** The digest depends on which announcements are in it only. *)
Lemma announcements_alike p p' b b' t t' : blind p = blind p' ->
  Forall2 (fun x y => announced_in t x = announced_in t' y) b b' ->
  buildGlobulaAnnouncementHash digestOf (mkBuilder p b) t = buildGlobulaAnnouncementHash digestOf (mkBuilder p' b') t'.
Proof.
  intros Hp Hb. apply go_rel_eq. unfold buildGlobulaAnnouncementHash. eapply (go_rel_bind eq); [|by intros ? ? ->].
  unfold ScanIndexed. cbn [entryScanner]. apply scan_indexed_rel; [by injection Hp|done|].
  intros k ve ve' s _ _ _ Ed <-. unfold announce_one. cbn [GetBitset].
  eapply go_rel_bind; [by apply slice_get_rel|]. intros x y Hxy. apply go_rel_eq. unfold announced_in in Hxy.
  rewrite (Announcement_AddNext_forget _ _ _ Ed).
  destruct (IsTimeout x), (IsTimeout y), t, t', (IsTrusted x), (IsTrusted y); done.
Qed.

(** *** Both digests in one pass *)
Definition forked (seen : bool) (d cd ct : AnnouncementCalc) : Prop :=
  if seen then ac_digester d = ac_digester cd /\ ac_digester d <> None /\ ac_factory cd = true
  else d = zeroAnnouncementCalc /\ cd = ct.

Lemma AddNext_digester c c' d r : ac_digester c = ac_digester c' -> ac_digester c <> None ->
  Announcement_AddNext c d = Ret r ->
  exists r', Announcement_AddNext c' d = Ret r' /\ ac_digester r = ac_digester r' /\ ac_digester r <> None /\ ac_factory r' = ac_factory c'.
Proof.
  unfold Announcement_AddNext. intros E Hn. rewrite <- E. destruct (ac_digester c) as [s|]; [|done]. cbn [mbind go_bind].
  destruct (AnnounceSignature d) as [sig|]; [|done]. destruct (Sequence_AddNext s sig); [|done]. cbn [mbind go_bind].
  intros [= <-]. eexists. by split_and!.
Qed.
Lemma AddNext_keeps c d r : Announcement_AddNext c d = Ret r -> ac_factory r = ac_factory c /\ ac_digester r <> None.
Proof.
  unfold Announcement_AddNext. destruct (match ac_digester c with Some _ => _ | None => _ end); [|done]. cbn [mbind go_bind].
  destruct (AnnounceSignature d) as [sig|]; [|done]. destruct (Sequence_AddNext _ sig); [|done]. cbn [mbind go_bind]. by intros [= <-].
Qed.

(** A forked sequence goes on like the one it was forked from. *)
Lemma fork_next ct d r : ac_factory ct = true ->
  (c ← Announcement_ForkSequenceOf zeroAnnouncementCalc ct; Announcement_AddNext c d) = Ret r ->
  exists r', Announcement_AddNext ct d = Ret r' /\ ac_digester r = ac_digester r' /\ ac_digester r <> None /\ ac_factory r' = true.
Proof.
  intros Hf. unfold Announcement_ForkSequenceOf. cbn [Announcement_IsEmpty zeroAnnouncementCalc ac_digester ac_factory negb].
  destruct ct as [f [s|]]; cbn [ac_factory ac_digester] in *; subst f; cbn [mbind go_bind].
  - intros E. by apply (AddNext_digester _ (mkAnnouncementCalc true (Some s))) in E.
  - intros E. exists r. destruct (AddNext_keeps _ _ _ E) as [Hr Hn]. by split_and!.
Qed.

Definition doubts (b : list Z) (i : Z) : bool :=
  match slice_get b i with Ret x => negb (IsTimeout x) && negb (IsTrusted x) | Panic _ => false end.
Lemma both_step p i data ct d cd seen r : ac_factory ct = true -> forked seen d cd ct ->
  announce_both p i data (ct, d) = Ret r ->
  exists cd', announce_one p true i data ct = Ret r.1 /\ announce_one p false i data cd = Ret cd' /\
    ac_factory r.1 = true /\ forked (seen || doubts (GetBitset p) i) r.2 cd' r.1.
Proof.
  intros Hf Hseen. unfold announce_both, announce_one, doubts. destruct (slice_get (GetBitset p) i) as [x|]; [|done]. cbn [mbind go_bind].
  destruct (IsTimeout x); cbn [negb andb orb mbind go_bind].
  { intros [= <-]. exists cd. by rewrite orb_false_r. }
  destruct (IsTrusted x) eqn:Ex; cbn [negb andb orb].
  - rewrite orb_false_r. destruct (Announcement_AddNext ct data) as [ct'|] eqn:Ea; [|done]. cbn [mbind go_bind].
    destruct (AddNext_keeps _ _ _ Ea) as [Hf' Hn']. rewrite Hf in Hf'. destruct seen; cbn [forked] in Hseen.
    + destruct Hseen as (Ed & Hn & Hc). unfold Announcement_IsEmpty. destruct (ac_digester d) as [s|] eqn:Es; [|done].
      destruct (Announcement_AddNext d data) as [d'|] eqn:Ead; [|done]. cbn [mbind go_bind]. intros [= <-].
      destruct (AddNext_digester d cd _ _ ltac:(congruence) ltac:(congruence) Ead) as (cd' & -> & E1 & E2 & E3).
      exists cd'. cbn. split_and!; congruence.
    + destruct Hseen as [-> ->]. cbn. intros [= <-]. exists ct'. by rewrite Ea.
  - rewrite orb_true_r. destruct seen; cbn [forked] in Hseen.
    + destruct Hseen as (Ed & Hn & Hc). unfold Announcement_IsEmpty. destruct (ac_digester d) as [s|] eqn:Es; [|done]. cbn [mbind go_bind].
      destruct (Announcement_AddNext d data) as [d'|] eqn:Ead; [|done]. cbn [mbind go_bind]. intros [= <-].
      destruct (AddNext_digester d cd _ _ ltac:(congruence) ltac:(congruence) Ead) as (cd' & -> & E1 & E2 & E3).
      exists cd'. cbn. split_and!; congruence.
    + destruct Hseen as [-> ->]. change (Announcement_IsEmpty zeroAnnouncementCalc) with true. cbn iota.
      pose proof (fork_next ct data) as Hfork.
      destruct (Announcement_ForkSequenceOf zeroAnnouncementCalc ct) as [c|]; [|done]. cbn [mbind go_bind] in *.
      destruct (Announcement_AddNext c data) as [d'|]; [|done]. cbn [mbind go_bind]. intros [= <-].
      destruct (Hfork _ Hf eq_refl) as (cd' & -> & E1 & E2 & E3). exists cd'. cbn. by split_and!.
Qed.
Fixpoint doubted_from (b : list Z) (i : Z) (l : list (option VectorEntry)) : bool :=
  match l with
  | [] => false
  | None :: l' => doubted_from b (i + 1) l'
  | Some _ :: l' => doubts b i || doubted_from b (i + 1) l'
  end.

Lemma both_builds p i l ct d cd seen r : ac_factory ct = true -> forked seen d cd ct ->
  scan_indexed (announce_both p) i l (ct, d) = Ret r ->
  exists cd', scan_indexed (announce_one p true) i l ct = Ret r.1 /\
    scan_indexed (announce_one p false) i l cd = Ret cd' /\
    ac_factory r.1 = true /\ forked (seen || doubted_from (GetBitset p) i l) r.2 cd' r.1.
Proof.
  revert i ct d cd seen. induction l as [|[ve|] l IH]; intros i ct d cd seen Hf Hseen; cbn [scan_indexed doubted_from].
  - intros [= <-]. exists cd. rewrite orb_false_r. done.
  - destruct (announce_both p i (entry_data ve) (ct, d)) as [[ct1 d1]|] eqn:Es; [|done]. cbn [mbind go_bind]. intros Er.
    destruct (both_step _ _ _ _ _ _ _ _ Hf Hseen Es) as (cd1 & -> & -> & Hf1 & Hs1). cbn [mbind go_bind fst snd] in *.
    rewrite orb_assoc. by apply IH with (d := d1).
  - by apply IH.
Qed.

Definition has_doubted (p : VectorBuilder) : bool := doubted_from (GetBitset p) 0 (indexedRefs (entryScanner p)).
(** The fused pass gives the two digests the separate passes give, the second
    one only if there is a node that is not trusted. *)
Lemma BuildAll_builds p td : BuildAllGlobulaAnnouncementHashes digestOf p = Ret td ->
  buildGlobulaAnnouncementHash digestOf p true = Ret td.1 /\
  (if has_doubted p then buildGlobulaAnnouncementHash digestOf p false = Ret td.2 /\ td.2 <> None
   else td.2 = None).
Proof.
  unfold BuildAllGlobulaAnnouncementHashes, buildGlobulaAnnouncementHash, has_doubted, ScanIndexed. destruct p as [q b]. cbn [entryScanner GetBitset].
  destruct (scan_indexed (announce_both _) 0 _ _) as [r|] eqn:Er; [|done]. cbn [mbind go_bind]. intros [= <-].
  destruct (both_builds _ 0 _ NewAnnouncementSequenceCalc _ NewAnnouncementSequenceCalc false r eq_refl (conj eq_refl eq_refl) Er) as (cd & -> & -> & _ & Hr).
  cbn [mbind go_bind orb fst snd GetBitset] in *. split; [done|]. destruct (doubted_from b 0 (indexedRefs q)); cbn [forked] in Hr.
  - destruct Hr as (E & Hn & _). unfold Announcement_FinishSequence. rewrite <- E. split; [done|]. by destruct (ac_digester r.2).
  - destruct Hr as [-> _]. done.
Qed.

(** ** States *)

(** Nothing but the recorded rank depends on the node a rank is wanted for. *)
Definition uncaptured (e : memberEntry) : memberEntry :=
  mkMemberEntry (me_state e) false (me_SpecialRoles e) (me_Power e) (me_OpMode e) (me_RolePowerIndex e).
Definition calc_like (c c' : StateCalc) : Prop :=
  sc_factory c = sc_factory c' /\ sc_digester c = sc_digester c' /\ sc_cursor c = sc_cursor c' /\
  sc_roleFirstTotalIndex c = sc_roleFirstTotalIndex c' /\ uncaptured <$> sc_entries c = uncaptured <$> sc_entries c'.
(** A rank is recorded with the first entry at the earliest. *)
Definition ranked_after (c : StateCalc) : Prop := sc_digester c = None -> sc_nodeFullRank c = zeroFullRank.

Lemma hash_like c c' e e' i : calc_like c c' -> uncaptured e = uncaptured e' -> go_rel calc_like (hashMemberEntry c e i) (hashMemberEntry c' e' i).
Proof.
  intros (E1 & E2 & E3 & E4 & E5) Ee. destruct e, e'. injection Ee as -> -> -> -> ->. unfold hashMemberEntry. cbn.
  rewrite <- E1, <- E2, <- E3, <- E4. destruct (match sc_digester c with Some _ => _ | None => _ end); [|done]. cbn [mbind go_bind].
  destruct (Index_AsUint16 _); [|done]. cbn [mbind go_bind]. destruct (State_AddNext _ _ _); [|done]. cbn [mbind go_bind]. by split_and!.
Qed.
Lemma members_like c c' i l l' : calc_like c c' -> uncaptured <$> l = uncaptured <$> l' -> go_rel calc_like (hash_members c i l) (hash_members c' i l').
Proof.
  revert c c' i l'. induction l as [|e l IH]; intros c c' i [|e' l'] Hc El; try done. apply fmap_cons_eq in El as [Ee El]. cbn [hash_members].
  destruct (AsIndex i); [|done]. cbn [mbind go_bind]. eapply go_rel_bind; [by apply hash_like|]. intros. by apply IH.
Qed.
Lemma flush_like c c' : calc_like c c' -> go_rel calc_like (flushRoleMembers c) (flushRoleMembers c').
Proof.
  intros Hc. unfold flushRoleMembers. eapply go_rel_bind; [apply members_like; [done|by apply Hc]|].
  intros a b (E1 & E2 & E3 & E4 & _). by split_and!.
Qed.
Lemma AddNextNode_like c c' d d' z : forget d = forget d' -> calc_like c c' -> go_rel calc_like (State_AddNextNode c d z) (State_AddNextNode c' d' z).
Proof.
  intros Ed Hc. destruct (forget_fields _ _ Ed) as (E1 & E2 & E3 & E4 & _). unfold State_AddNextNode. rewrite <- E1, <- E2, <- E3, <- E4.
  destruct (_ =? PrimaryRoleInactive); [done|]. eapply (go_rel_bind calc_like).
  { unfold enter_role. replace (sc_cursor c') with (sc_cursor c) by apply Hc. destruct (_ =? _); [done|]. destruct (_ <? _); [done|].
    eapply go_rel_bind; [by apply flush_like|]. intros a b (F1 & F2 & F3 & F4 & F5). rewrite <- F3. by split_and!. }
  intros a b Hab. destruct (_ =? PrimaryRoleInactive).
  - eapply go_rel_bind; [by apply hash_like|]. intros x y (F1 & F2 & F3 & F4 & F5). rewrite <- F3, <- F4. by split_and!.
  - destruct Hab as (F1 & F2 & F3 & F4 & F5). rewrite <- F3. split_and!; try done. cbn. rewrite !fmap_app, F5. done.
Qed.
Lemma AddNextNode_forget c d d' z : forget d = forget d' -> State_AddNextNode c d z = State_AddNextNode c d' z.
Proof. intros Ed. destruct (forget_fields _ _ Ed) as (E1 & E2 & E3 & E4 & _). unfold State_AddNextNode. by rewrite E1, E2, E3, E4. Qed.

Lemma hash_ranked c e i r : hashMemberEntry c e i = Ret r -> ranked_after r.
Proof.
  unfold hashMemberEntry. destruct (match sc_digester c with Some _ => _ | None => _ end); [|done]. cbn [mbind go_bind].
  destruct (Index_AsUint16 _); [|done]. cbn [mbind go_bind]. destruct (State_AddNext _ _ _); [|done]. cbn [mbind go_bind]. by intros [= <-].
Qed.
Lemma members_ranked c i l r : ranked_after c -> hash_members c i l = Ret r -> ranked_after r.
Proof.
  revert c i. induction l as [|e l IH]; intros c i Hc; cbn [hash_members]; [by intros [= <-]|].
  destruct (AsIndex i); [|done]. cbn [mbind go_bind]. destruct (hashMemberEntry c e _) as [c'|] eqn:E; [|done]. cbn [mbind go_bind].
  apply IH. by eapply hash_ranked.
Qed.
Lemma flush_ranked c r : ranked_after c -> flushRoleMembers c = Ret r -> ranked_after r.
Proof.
  intros Hc. unfold flushRoleMembers. destruct (hash_members c 0 (sc_entries c)) as [c'|] eqn:E; [|done]. cbn [mbind go_bind].
  intros [= <-]. exact (members_ranked _ _ _ _ Hc E).
Qed.
Lemma AddNextNode_ranked c d z r : ranked_after c -> State_AddNextNode c d z = Ret r -> ranked_after r.
Proof.
  intros Hc. unfold State_AddNextNode. destruct (_ =? PrimaryRoleInactive); [done|].
  assert (Hr : forall role c', enter_role c role = Ret c' -> ranked_after c').
  { intros role c'. unfold enter_role. destruct (_ =? _); [by intros [= <-]|]. destruct (_ <? _); [done|].
    destruct (flushRoleMembers c) as [c1|] eqn:E; [|done]. cbn [mbind go_bind]. intros [= <-]. exact (flush_ranked _ _ Hc E). }
  destruct (enter_role c _) as [c1|] eqn:E1; [|done]. cbn [mbind go_bind]. specialize (Hr _ _ E1). destruct (_ =? PrimaryRoleInactive).
  - destruct (hashMemberEntry c1 _ 0) as [c2|] eqn:E2; [|done]. cbn [mbind go_bind]. intros [= <-]. exact (hash_ranked _ _ _ _ E2).
  - intros [= <-]. exact Hr.
Qed.

(** Two builders under whose filters the same nodes come with power. *)
Definition powered_alike (p p' : VectorBuilder) (t t' : bool) : Prop :=
  forall i ve, slice_ref (indexedRefs (entryScanner p)) i = Ret (Some ve) -> entry_IsEmpty (entry_data ve) = false ->
    exists x x', slice_get (GetBitset p) i = Ret x /\ slice_get (GetBitset p') i = Ret x' /\ negb t || IsTrusted x = negb t' || IsTrusted x'.

Lemma hash_filter_alike p p' t t' : powered_alike p p' t t' ->
  forall i ve ve' f, slice_ref (indexedRefs (entryScanner p)) i = Ret (Some ve) -> forget (entry_data ve) = forget (entry_data ve') ->
  hash_filter p t i (entry_data ve) f = hash_filter p' t' i (entry_data ve') f.
Proof.
  intros Hp i ve ve' f Hi Ed. specialize (Hp i ve Hi). destruct (forget_fields _ _ Ed) as (E1 & E2 & E3 & E4 & E5).
  unfold hash_filter. replace (entry_IsEmpty (entry_data ve')) with (entry_IsEmpty (entry_data ve)) by (unfold entry_IsEmpty; by rewrite E4).
  rewrite <- E1, <- E2. destruct (entry_IsEmpty (entry_data ve)); [done|]. cbn [orb]. destruct (_ || _); [done|].
  destruct (Z.ltb_spec i 0) as [Hneg|]; [done|]. destruct (Hp eq_refl) as (x & x' & -> & -> & E). cbn [mbind go_bind].
  destruct t, t'; cbn [negb orb] in E; [by rewrite E|by rewrite E|by rewrite <- E|done].
Qed.
Lemma hash_filter_joiner p p' t t' d d' f : forget d = forget d' -> hash_filter p t (-1) d f = hash_filter p' t' (-1) d' f.
Proof.
  intros Ed. destruct (forget_fields _ _ Ed) as (E1 & E2 & E3 & E4 & E5). unfold hash_filter, entry_IsEmpty. rewrite <- E1, <- E2, <- E4.
  destruct (_ || _); [done|]. done.
Qed.

(** The digest of the states is the same, whoever asks; and so is the rank, if
    the same node asks. *)
Lemma states_alike p p' t t' n : blind (entryScanner p) = blind (entryScanner p') -> powered_alike p p' t t' ->
  buildGlobulaStateHash digestOf p t n = buildGlobulaStateHash digestOf p' t' n.
Proof.
  intros Hp Hf. apply go_rel_eq. unfold buildGlobulaStateHash. eapply (go_rel_bind eq); [|intros ? ? ->; by apply go_rel_eq].
  apply scan_rel; [done| | |intros; subst; by apply go_rel_eq, AddNextNode_forget|done].
  - intros i ve ve' f Hi _ Ed. by apply hash_filter_alike.
  - intros d d' f Ed. by apply hash_filter_joiner.
Qed.

Definition state_calc (p : VectorBuilder) (t : bool) (n : Z) : go StateCalc :=
  ScanSortedWithFilter (entryScanner p) 0 (fun d postponed _ calc => State_AddNextNode calc d postponed)
    (hash_filter p t) (NewStateAndRankSequenceCalc n).
Lemma state_calc_ranked p t n c : state_calc p t n = Ret c -> ranked_after c.
Proof.
  intros E. assert (H1 : go_rel (fun a b => a = b /\ ranked_after a) (state_calc p t n) (state_calc p t n)).
  { apply scan_rel; [done|by intros i ve ve' f Hi Hi' _; rewrite Hi in Hi'; injection Hi' as ->| | |done].
    - intros d d' f Ed. by apply hash_filter_joiner.
    - intros d d' b f s s' Ed [<- Hs]. rewrite <- (AddNextNode_forget s d d' b Ed). destruct (State_AddNextNode s d b) as [r|] eqn:Er; [|done].
      split; [done|]. by eapply AddNextNode_ranked. }
  rewrite E in H1. apply H1.
Qed.
Lemma state_hash_some p t n c : buildGlobulaStateHash digestOf p t n = Ret c -> cs_StateHash c <> None.
Proof.
  unfold buildGlobulaStateHash. change (ScanSortedWithFilter _ _ _ _ _) with (state_calc p t n).
  destruct (state_calc p t n) as [calc|] eqn:E; [|done]. apply state_calc_ranked in E. cbn [mbind go_bind]. unfold State_FinishSequence.
  destruct (flushRoleMembers calc) as [r|] eqn:Er; [|done]. apply flush_ranked in Er; [|done]. cbn [mbind go_bind].
  destruct (sc_digester r) as [s|] eqn:Es; unfold state_with_rank; cbn [fst snd].
  - destruct (AsMembershipRank _ _); [|done]. cbn. by intros [= <-].
  - by rewrite (Er Es).
Qed.

Lemma states_sim p p' t t' n n' c c' : blind (entryScanner p) = blind (entryScanner p') -> powered_alike p p' t t' ->
  buildGlobulaStateHash digestOf p t n = Ret c -> buildGlobulaStateHash digestOf p' t' n' = Ret c' -> cs_StateHash c = cs_StateHash c'.
Proof.
  intros Hp Hf. unfold buildGlobulaStateHash.
  assert (H1 : go_rel calc_like (state_calc p t n) (state_calc p' t' n')).
  { apply scan_rel; [done| | |by intros; apply AddNextNode_like|by split_and!].
    - intros i ve ve' f Hi _ Ed. by apply hash_filter_alike.
    - intros d d' f Ed. by apply hash_filter_joiner. }
  unfold state_calc in H1. destruct (ScanSortedWithFilter (entryScanner p) _ _ _ _) as [s|], (ScanSortedWithFilter (entryScanner p') _ _ _ _) as [s'|]; try done.
  cbn [mbind go_bind]. unfold State_FinishSequence. pose proof (flush_like _ _ H1) as H2.
  destruct (flushRoleMembers s) as [r|], (flushRoleMembers s') as [r'|]; try done. cbn [mbind go_bind]. destruct H2 as (_ & E & _).
  rewrite <- E. destruct (sc_digester r); unfold state_with_rank; cbn [fst snd].
  all: destruct (AsMembershipRank (sc_nodeFullRank r) _); [|done]; destruct (AsMembershipRank (sc_nodeFullRank r') _); [|done].
  all: cbn; by intros [= <-] [= <-].
Qed.
End Hashes.
