(* ===== verification/VectorsBelieved.v ===== *)
(** * An honest vector is believed (src/network/consensus/gcpv2/phasebundle:
    nodeset, inspectors)

    Two nodes that know the same announcements, whatever they think of each
    of the others: the vector of the one, inspected by the other, is found
    valid, and gives the statistics of what its sender says. *)
From S2P Require Import Prelude LongBits MemberPower MemberRank NodeStats NodeVector VectorBuilder VectorInspector VectorsAgree.

(** ** The bit set of a projection *)
Definition bit_of (o : option VectorEntry) : Z := match o with Some ve => mapVectorEntryDataToNodesetEntry (entry_data ve) | None => BeHighTrust end.
Definition bits_of (p : Projection) : list Z := bit_of <$> indexedRefs p.

Lemma slice_get_mid (l1 : list Z) x l2 : slice_get (l1 ++ x :: l2) (Z.of_nat (length l1)) = Ret x.
Proof. unfold slice_get. rewrite (proj2 (Z.ltb_ge _ 0)), Nat2Z.id by lia. by rewrite list_lookup_middle. Qed.

Lemma fill_bits l done_ : scan_indexed (fun idx d bitset => slice_set bitset idx (mapVectorEntryDataToNodesetEntry d))
    (Z.of_nat (length done_)) l (done_ ++ replicate (length l) 0) = Ret (done_ ++ (bit_of <$> l)).
Proof.
  revert done_. induction l as [|[ve|] l IH]; intros done_; cbn [scan_indexed length replicate fmap list_fmap]; [done| |].
  - unfold slice_set. rewrite slice_get_mid, Nat2Z.id. cbn [mbind go_bind]. rewrite list.insert_app_r_alt, Nat.sub_diag by lia. cbn [insert list_insert].
    set (x := mapVectorEntryDataToNodesetEntry (entry_data ve)). specialize (IH (done_ ++ [x])). rewrite length_app in IH. cbn [length] in IH.
    replace (Z.of_nat (length done_) + 1) with (Z.of_nat (length done_ + 1)) by lia.
    rewrite <- !(assoc_L (++)) in IH. exact IH.
  - specialize (IH (done_ ++ [0])). rewrite length_app in IH. cbn [length] in IH.
    replace (Z.of_nat (length done_) + 1) with (Z.of_nat (length done_ + 1)) by lia.
    rewrite <- !(assoc_L (++)) in IH. exact IH.
Qed.
Lemma CreateInspector_bits inlineLimit disable p n :
  CreateInspector inlineLimit disable p n = Ret (mkInspector n disable inlineLimit zeroCalcSub zeroCalcSub (mkBuilder p (bits_of p))).
Proof.
  unfold CreateInspector, FillBitset, NewVectorBuilder, GetIndexedCount, ScanIndexed. cbn [entryScanner GetBitset].
  rewrite Nat2Z.id. pose proof (fill_bits (indexedRefs p) []) as E. change BeHighTrust with 0 in *. cbn [app] in E. change (Z.of_nat (length [])) with 0 in E. by rewrite E.
Qed.

Lemma bit_range o : 0 <= bit_of o < MaxBitsetEntry.
Proof. unfold bit_of, mapVectorEntryDataToNodesetEntry. destruct o as [ve|]; [|done]. repeat case_match; done. Qed.
Lemma bit_timeout o : IsTimeout (bit_of o) = match o with Some ve => entry_IsEmpty (entry_data ve) | None => false end.
Proof. unfold bit_of, mapVectorEntryDataToNodesetEntry. destruct o as [ve|]; [|done]. repeat case_match; done. Qed.

(** Who knows the same announcements has them at the same places. *)
Lemma blind_timeouts p p' : blind p = blind p' -> Forall2 (fun x y => IsTimeout x = IsTimeout y) (bits_of p) (bits_of p').
Proof.
  intros Hp. assert (E : blind_ref <$> indexedRefs p = blind_ref <$> indexedRefs p') by (by injection Hp).
  unfold bits_of. rewrite list.Forall2_fmap. revert E. generalize (indexedRefs p) (indexedRefs p'). intros l.
  induction l as [|o l IH]; intros [|o' l'] E; try done. apply fmap_cons_eq in E as [Eo El]. constructor; [|by apply IH].
  rewrite !bit_timeout. apply blind_ref_cases in Eo. destruct o, o'; try done. apply blind_entry_fields in Eo as (Ed & _).
  destruct (forget_fields _ _ Ed) as (_ & _ & _ & Es & _). unfold entry_IsEmpty. by rewrite Es.
Qed.

(** ** The comparison of two such bit sets *)
Definition comparable (x y : Z) : Prop := IsTimeout x = IsTimeout y.
Lemma compare_comparable x y : comparable x y ->
  compare_entries x y = if Bool.eqb (IsTrusted x) (IsTrusted y) then ComparedSame
                        else if IsTrusted y then ComparedLessTrustedHere else ComparedLessTrustedThere.
Proof.
  unfold comparable, compare_entries. intros E. destruct (Z.eqb_spec x y) as [->|Hne]; [by rewrite eqb_reflx|].
  rewrite <- E. destruct (IsTimeout x) eqn:Ex.
  - unfold IsTimeout in *. lia.
  - destruct (Bool.eqb _ _); done.
Qed.
(** The derived bit set trusts whom the other trusts. *)
Lemma derived_comparable x y : comparable x y -> exists z, derived_entry (compare_entries x y) x = Ret z /\
  IsTrusted z = IsTrusted y /\ IsTimeout z = IsTimeout y.
Proof.
  intros E. rewrite (compare_comparable _ _ E). destruct (IsTrusted x) eqn:Ex, (IsTrusted y) eqn:Ey; cbn [Bool.eqb].
  - by exists x.
  - exists BeBaselineTrust. split_and!; [done..|]. rewrite <- E. unfold IsTimeout, IsTrusted in *. change BeBaselineTrust with 2 in *. change BeTimeout with 3.
    symmetry. apply Z.eqb_neq. lia.
  - exists BeHighTrust. split_and!; [done..|]. unfold IsTimeout, IsTrusted in *. change BeBaselineTrust with 2 in *. change BeTimeout with 3.
    symmetry. apply Z.eqb_neq. lia.
  - by exists x.
Qed.

Lemma build_derived_ok sr idx b k : (forall i, (i < length b)%nat -> slice_get (values sr) (idx + Z.of_nat i) =
    slice_get (zip_with compare_entries b k) (Z.of_nat i)) -> Forall2 comparable b k ->
  exists d, build_derived sr idx b = Ret d /\ Forall2 (fun z y => IsTrusted z = IsTrusted y /\ IsTimeout z = IsTimeout y) d k.
Proof.
  intros Hsr Hb. revert idx Hsr. induction Hb as [|x y b k Hxy Hb IH]; intros idx Hsr; cbn [build_derived]; [by exists []|].
  unfold Row_Get. pose proof (Hsr 0%nat ltac:(cbn; lia)) as H0. cbn [Z.of_nat] in H0. rewrite Z.add_0_r in H0. rewrite H0.
  change (slice_get (zip_with compare_entries (x :: b) (y :: k)) (Z.of_nat 0)) with (Ret (compare_entries x y)). cbn [mbind go_bind].
  destruct (derived_comparable _ _ Hxy) as (z & -> & Hz). cbn [mbind go_bind]. destruct (IH (idx + 1)) as (d & -> & Hd).
  { intros i Hi. specialize (Hsr (S i) ltac:(cbn; lia)). replace (idx + 1 + Z.of_nat i) with (idx + Z.of_nat (S i)) by lia. rewrite Hsr.
    unfold slice_get. rewrite !(proj2 (Z.ltb_ge _ 0)) by lia. rewrite !Nat2Z.id. done. }
  eexists. split; [done|]. by constructor.
Qed.

Lemma all_counted l : count_in 0 l = Z.of_nat (length l) -> Forall (fun v => v = ComparedSame) l.
Proof.
  induction l as [|x l IH]; intros E; [constructor|]. rewrite count_in_cons in E. cbn [length] in E. pose proof (count_in_range 0 l).
  destruct (Z.eqb_spec x 0); [|lia]. constructor; [done|]. apply IH. lia.
Qed.

(** ** What the statistics of a comparison say *)
Section Rows.
Context (r : Row) (Hr : row_ok 5 r).
Lemma HasValues_count v : 0 <= v <= 5 -> HasValues r v = Ret (0 <? count_in v (values r)).
Proof. intros Hv. unfold HasValues. by rewrite (Row_GetSummaryByValue_count 5) by done. Qed.
Lemma HasAllValues_same : HasAllValues r ComparedSame = Ret (count_in 0 (values r) =? Z.of_nat (length (values r))).
Proof.
  destruct Hr as [Hm Hn Hv Hc]. unfold HasAllValues. change ComparedSame with 0. rewrite (counts_get _ _ _ _ 0 Hc) by lia. cbn [mbind go_bind]. cbn [Z.eqb negb]. f_equal.
  pose proof (count_in_range 0 (values r)). unfold u16. set (n := Z.of_nat (length (values r))) in *. set (c := count_in 0 (values r)) in *.
  destruct (Z.eqb_spec c n) as [->|Hne]; [by rewrite Z.sub_diag|]. rewrite <- (Z.mod_unique (c - n) (2^16) (-1) (2^16 + (c - n))) by lia.
  apply Z.eqb_neq. lia.
Qed.
Lemma HasAllValuesOf_same v : 0 < v <= 5 ->
  HasAllValuesOf r ComparedSame v = Ret (count_in 0 (values r) + count_in v (values r) =? Z.of_nat (length (values r))).
Proof.
  intros Hv. destruct Hr as [Hm Hn Hvs Hc]. unfold HasAllValuesOf. change ComparedSame with 0. rewrite (counts_get _ _ _ _ 0 Hc) by lia.
  rewrite (counts_get _ _ _ _ v Hc) by lia. cbn [mbind go_bind]. cbn [Z.eqb orb]. f_equal.
  destruct (Z.eqb_spec v 0) as [?|_]; [lia|]. rewrite Z.sub_0_r.
  assert (Hsum : 0 <= count_in 0 (values r) + count_in v (values r) <= Z.of_nat (length (values r))).
  { clear -Hv. induction (values r) as [|x l IH]; [done|]. rewrite !count_in_cons. cbn [length]. destruct (Z.eqb_spec x 0), (Z.eqb_spec x v); lia. }
  unfold u16. set (n := Z.of_nat (length (values r))) in *. set (c := count_in 0 (values r)) in *. set (k := count_in v (values r)) in *.
  rewrite <- Zplus_mod. destruct (Z.eqb_spec (c + k) n) as [Hs|Hne]; [by replace (c - n + k) with 0 by lia|].
  rewrite <- (Z.mod_unique (c - n + k) (2^16) (-1) (2^16 + (c - n + k))) by lia. apply Z.eqb_neq. lia.
Qed.

Lemma count_none v : Forall (fun x => x <> v) (values r) -> count_in v (values r) = 0.
Proof. induction 1 as [|x l Hx _ IH]; [done|]. rewrite count_in_cons, IH. destruct (Z.eqb_spec x v); [done|lia]. Qed.

(** No node is missing on either side. *)
Lemma parts_of_comparable hasDoubted : Forall (fun v => v = ComparedSame \/ v = ComparedLessTrustedHere \/ v = ComparedLessTrustedThere) (values r) ->
  PrepareSubVectorsComparison r true hasDoubted =
  Ret (if count_in 0 (values r) =? Z.of_nat (length (values r)) then verifyAsIs else verifyRecalc, if hasDoubted then verifyAsIs else SvcIgnore).
Proof.
  intros Hv. unfold PrepareSubVectorsComparison. change (negb (IsNeeded (initVerify true))) with false. cbn iota.
  assert (Hnone : forall v, v = ComparedMissingThere \/ v = ComparedDoubtedMissingHere \/ v = ComparedMissingHere -> HasValues r v = Ret false).
  { intros v Hcase. rewrite HasValues_count by (by destruct Hcase as [->|[->| ->]]). rewrite count_none; [done|].
    eapply list.Forall_impl; [exact Hv|]. intros x [->|[->| ->]]; by destruct Hcase as [->|[->| ->]]. }
  rewrite (Hnone ComparedMissingHere) by tauto. cbn [mbind go_bind]. unfold compare_parts, same_nodes.
  rewrite !HasAllValuesOf_same by done. cbn [mbind go_bind]. rewrite HasAllValues_same.
  set (all := count_in 0 (values r) =? Z.of_nat (length (values r))).
  assert (Hall : all = true -> forall v, 0 < v <= 5 -> (count_in 0 (values r) + count_in v (values r) =? Z.of_nat (length (values r))) = true).
  { intros E v Hv'. apply Z.eqb_eq in E. apply Z.eqb_eq. rewrite (count_none v); [lia|].
    eapply list.Forall_impl; [by apply all_counted|]. intros x ->. change ComparedSame with 0. lia. }
  destruct (_ + count_in ComparedLessTrustedHere _ =? _); [cbn [mbind go_bind]; by destruct all, hasDoubted|].
  destruct (_ + count_in ComparedLessTrustedThere _ =? _) eqn:E; [cbn [mbind go_bind]; by destruct all, hasDoubted|].
  cbn [mbind go_bind]. rewrite !Hnone by tauto. cbn [mbind go_bind].
  destruct all eqn:Ea; [|by destruct hasDoubted]. by rewrite (Hall eq_refl ComparedLessTrustedThere) in E by done.
Qed.
End Rows.

(** ** The statistics of an honest vector *)
Definition honest_result (recalc doubted : bool) : Z :=
  Z.lor (if recalc then Z.lor NvrTrustedValid NvrTrustedAlteredNodeSet else NvrTrustedValid) (if doubted then NvrDoubtedValid else 0).

Lemma honest_entry x y recalc doubted : comparable x y -> 0 <= y < MaxBitsetEntry ->
  (compare_entries x y = ComparedSame \/ recalc = true) -> (IsTimeout y = false -> IsTrusted y = false -> doubted = true) ->
  exists w, summaryByEntry y (honest_result recalc doubted) (compare_entries x y) = Ret (stat_of_entry y, w).
Proof.
  intros Hc Hy Hrecalc Hd. pose proof Hc as Ht. unfold comparable in Ht. rewrite (compare_comparable _ _ Hc) in *.
  unfold summaryByEntry, stat_of_entry. assert (Hft : IsFraud y = true -> IsTimeout y = false).
  { unfold IsFraud, IsTimeout. change BeFraud with 4. change BeTimeout with 3. intros E. apply Z.eqb_neq. lia. }
  assert (Htt : IsTrusted y = true -> IsTimeout y = false).
  { unfold IsTrusted, IsTimeout. change BeBaselineTrust with 2. change BeTimeout with 3. intros E. apply Z.eqb_neq. lia. }
  destruct (IsFraud y) eqn:Ef; [rewrite Hft by done; eexists; reflexivity|].
  destruct (IsTrusted y) eqn:Ey.
  - rewrite Htt in * by done. destruct (IsTrusted x); cbn [Bool.eqb] in *.
    + eexists. by destruct recalc, doubted.
    + destruct Hrecalc as [| ->]; [done|]. eexists. by destruct doubted.
  - destruct (IsTrusted x) eqn:Ex; cbn [Bool.eqb] in *.
    + assert (Et : IsTimeout x = false) by (unfold IsTrusted, IsTimeout in *; change BeBaselineTrust with 2 in *; change BeTimeout with 3; apply Z.eqb_neq; lia).
      rewrite <- Ht, Et in *. rewrite Hd by done. destruct Hrecalc as [| ->]; [done|]. by eexists.
    + destruct (IsTimeout y); [by eexists|]. rewrite Hd by done. eexists. by destruct recalc.
Qed.

Lemma summarize_all other vr sr stats i ns :
  (forall k s, stats !! k = Some s -> exists o c w, slice_get other (i + Z.of_nat k) = Ret o /\ Row_Get sr (i + Z.of_nat k) = Ret c /\
     summaryByEntry o vr c = Ret (s, w)) ->
  summarize other vr sr i (length stats) ns = set_all ns i stats.
Proof.
  revert i ns. induction stats as [|s stats IH]; intros i ns Hk; cbn [length summarize set_all]; [done|].
  destruct (Hk 0%nat s eq_refl) as (o & c & w & E1 & E2 & E3). rewrite Z.add_0_r in E1, E2. rewrite E1. cbn [mbind go_bind].
  rewrite E2. cbn [mbind go_bind]. rewrite E3. cbn [mbind go_bind fst]. destruct (Row_Set ns i s) as [r|]; [|done]. cbn [mbind go_bind].
  apply IH. intros k s' Hs. specialize (Hk (S k) s' Hs). by replace (i + 1 + Z.of_nat k) with (i + Z.of_nat (S k)) by lia.
Qed.

Lemma slice_get_nth (l : list Z) k x : l !! k = Some x -> slice_get l (Z.of_nat k) = Ret x.
Proof. intros E. unfold slice_get. rewrite (proj2 (Z.ltb_ge _ 0)), Nat2Z.id by lia. by rewrite E. Qed.

Lemma honest_summary b k sr recalc doubted : Forall2 comparable b k -> Forall (fun y => 0 <= y < MaxBitsetEntry) k ->
  values sr = zip_with compare_entries b k ->
  (recalc = false -> Forall (fun v => v = ComparedSame) (values sr)) ->
  (forall y, y ∈ k -> IsTimeout y = false -> IsTrusted y = false -> doubted = true) ->
  SummarizeStats k (honest_result recalc doubted) sr = StateToConsensusStatRow k.
Proof.
  intros Hb Hk Hsr Hsame Hd. pose proof (list.Forall2_length _ _ _ Hb) as Hl.
  assert (Hn : Row_ColumnCount sr = Z.of_nat (length k)) by (unfold Row_ColumnCount; rewrite Hsr, length_zip_with; lia).
  unfold SummarizeStats, StateToConsensusStatRow. rewrite Hn, Nat2Z.id.
  destruct (NewConsensusStatRow (Z.of_nat (length k))) as [ns|]; [|done]. cbn [mbind go_bind].
  rewrite <- (length_fmap stat_of_entry k) at 1. apply summarize_all. intros i s Hi. rewrite Z.add_0_l.
  apply list_lookup_fmap_Some in Hi as (y & -> & Hy). destruct (list.Forall2_lookup_r _ _ _ _ _ Hb Hy) as (x & Hx & Hxy).
  assert (Hc : values sr !! i = Some (compare_entries x y)) by (by rewrite Hsr, lookup_zip_with, Hx, Hy).
  destruct (honest_entry x y recalc doubted Hxy) as (w & Hw).
  - rewrite list.Forall_forall in Hk. apply Hk. by eapply list_elem_of_lookup_2.
  - destruct recalc; [by right|left]. specialize (Hsame eq_refl). rewrite list.Forall_forall in Hsame. apply Hsame. by eapply list_elem_of_lookup_2.
  - intros Ht Htr. by apply (Hd y); [eapply list_elem_of_lookup_2|..].
  - exists y, (compare_entries x y), w. split_and!; [by apply slice_get_nth|by apply slice_get_nth|done].
Qed.

(** ** Who is doubted *)
Lemma doubted_bits pre l : doubted_from (pre ++ (bit_of <$> l)) (Z.of_nat (length pre)) l =
  existsb (fun x => negb (IsTimeout x) && negb (IsTrusted x)) (bit_of <$> l).
Proof.
  revert pre. induction l as [|o l IH]; intros pre; [done|]. cbn [doubted_from fmap list_fmap existsb].
  specialize (IH (pre ++ [bit_of o])). rewrite length_app in IH. cbn [length] in IH. rewrite <- (assoc_L (++)) in IH. cbn [app] in IH.
  replace (Z.of_nat (length pre) + 1) with (Z.of_nat (length pre + 1)) by lia. destruct o as [ve|].
  - unfold doubts. by rewrite slice_get_mid, IH.
  - by rewrite IH.
Qed.
Lemma has_doubted_bits p : has_doubted (mkBuilder p (bits_of p)) = existsb (fun x => negb (IsTimeout x) && negb (IsTrusted x)) (bits_of p).
Proof. exact (doubted_bits [] (indexedRefs p)). Qed.
Lemma has_doubted_true p y : y ∈ bits_of p -> IsTimeout y = false -> IsTrusted y = false -> has_doubted (mkBuilder p (bits_of p)) = true.
Proof. intros Hy E1 E2. rewrite has_doubted_bits. apply existsb_exists. exists y. rewrite E1, E2. by rewrite <- list_elem_of_In. Qed.
Lemma has_doubted_false p y : has_doubted (mkBuilder p (bits_of p)) = false -> y ∈ bits_of p -> IsTimeout y = true \/ IsTrusted y = true.
Proof.
  intros Hd Hy. destruct (IsTimeout y) eqn:E1; [by left|]. destruct (IsTrusted y) eqn:E2; [by right|]. by rewrite (has_doubted_true p y) in Hd.
Qed.

(** ** Two nodes *)
Lemma powered_of p q b b' t t' : length b = length (indexedRefs p) ->
  Forall2 (fun x y => negb t || IsTrusted x = negb t' || IsTrusted y) b b' -> powered_alike (mkBuilder p b) (mkBuilder q b') t t'.
Proof.
  intros Hl Hb i ve Hi _. cbn [entryScanner GetBitset] in *. unfold slice_ref in Hi. destruct (Z.ltb_spec i 0); [done|].
  destruct (indexedRefs p !! Z.to_nat i) as [o|] eqn:Ei; [|done]. apply lookup_lt_Some in Ei. rewrite <- Hl in Ei.
  destruct (lookup_lt_is_Some_2 _ _ Ei) as (x & Hx). destruct (list.Forall2_lookup_l _ _ _ _ _ Hb Hx) as (y & Hy & Hxy).
  exists x, y. rewrite <- (Z2Nat.id i) by done. split_and!; [by apply slice_get_nth..|done].
Qed.
(** Where nobody is doubted, both digests are over the same nodes. *)
Lemma powered_undoubted p q b' t' : has_doubted (mkBuilder p (bits_of p)) = false -> t' = false -> length b' = length (indexedRefs p) ->
  powered_alike (mkBuilder p (bits_of p)) (mkBuilder q b') true t'.
Proof.
  intros Hd -> Hl i ve Hi He. cbn [entryScanner GetBitset] in *. unfold slice_ref in Hi. destruct (Z.ltb_spec i 0); [done|].
  destruct (indexedRefs p !! Z.to_nat i) as [o|] eqn:Ei; [|done]. injection Hi as ->. pose proof (lookup_lt_Some _ _ _ Ei) as Hlt. rewrite <- Hl in Hlt.
  destruct (lookup_lt_is_Some_2 _ _ Hlt) as (y & Hy).
  assert (Hx : bits_of p !! Z.to_nat i = Some (bit_of (Some ve))) by (unfold bits_of; by rewrite list_lookup_fmap, Ei).
  exists (bit_of (Some ve)), y. rewrite <- (Z2Nat.id i) by done. split_and!; [by apply slice_get_nth..|].
  destruct (has_doubted_false p (bit_of (Some ve)) Hd) as [E|E]; [by eapply list_elem_of_lookup_2| |by rewrite E].
  rewrite bit_timeout, He in E. done.
Qed.

Lemma comparable_row b k : Forall2 comparable b k -> Z.of_nat (length k) < 2^16 -> exists sr, CompareToStatRow b k = Ret sr /\ row_ok 5 sr /\
  values sr = zip_with compare_entries b k /\
  Forall (fun v => v = ComparedSame \/ v = ComparedLessTrustedHere \/ v = ComparedLessTrustedThere) (values sr).
Proof.
  intros Hb Hk. pose proof (list.Forall2_length _ _ _ Hb) as Hl.
  assert (Hv : Forall (fun v => v = ComparedSame \/ v = ComparedLessTrustedHere \/ v = ComparedLessTrustedThere) (zip_with compare_entries b k)).
  { clear Hl Hk. induction Hb as [|x y b k Hxy _ IH]; [constructor|]. cbn [zip_with]. constructor; [|done].
    rewrite (compare_comparable _ _ Hxy). destruct (Bool.eqb _ _); [by left|]. destruct (IsTrusted y); tauto. }
  destruct (filled_row 5 (Z.of_nat (length b)) (zip_with compare_entries b k)) as (sr & E & Hsr & _ & Evals); [lia|rewrite length_zip_with; lia|lia| |].
  - eapply list.Forall_impl; [exact Hv|]. by intros v [->|[->| ->]].
  - exists sr. rewrite Evals. split_and!; try done. unfold CompareToStatRow. rewrite Hl, Z.eqb_refl. cbn [negb]. by rewrite <- Hl.
Qed.

Lemma same_trust b k : Forall2 comparable b k -> Forall (fun v => v = ComparedSame) (zip_with compare_entries b k) ->
  Forall2 (fun z y => IsTrusted z = IsTrusted y /\ IsTimeout z = IsTimeout y) b k.
Proof.
  induction 1 as [|x y b k Hxy _ IH]; intros Hs; [constructor|]. cbn [zip_with] in Hs. apply list.Forall_cons in Hs as [E1 E2].
  constructor; [|by apply IH]. split; [|done]. rewrite (compare_comparable _ _ Hxy) in E1. destruct (IsTrusted x), (IsTrusted y); done.
Qed.

Section Believed.
Context `{Sorting} (digestOf : list Z -> list Z).
Context (IsValidDigestSignature : Z -> list Z -> list Z -> bool).

Definition builder_of (p : Projection) : VectorBuilder := mkBuilder p (bits_of p).
Record prepared (p : Projection) (n : Z) (i : Inspector) : Prop := {
  pp_builder : in_builder i = builder_of p;
  pp_trusted : buildGlobulaAnnouncementHash digestOf (builder_of p) true = Ret (cv_AnnouncementHash (in_Trusted i));
  pp_some : cv_AnnouncementHash (in_Trusted i) <> None;
  pp_states : buildGlobulaStateHash digestOf (builder_of p) true n = Ret (cv_State (in_Trusted i));
  pp_doubted : if has_doubted (builder_of p) then
      buildGlobulaAnnouncementHash digestOf (builder_of p) false = Ret (cv_AnnouncementHash (in_Doubted i)) /\
      cv_AnnouncementHash (in_Doubted i) <> None /\ buildGlobulaStateHash digestOf (builder_of p) false n = Ret (cv_State (in_Doubted i))
    else in_Doubted i = zeroCalcSub;
}.
Lemma Prepare_prepared inlineLimit disable p n i :
  (i ← CreateInspector inlineLimit disable p n; PrepareForInspection digestOf i) = Ret (i, true) ->
  prepared p n i /\ disableRanksAndGSH i = disable.
Proof.
  rewrite CreateInspector_bits. cbn [mbind go_bind]. unfold PrepareForInspection. cbn [in_Trusted cv_AnnouncementHash zeroCalcSub is_nil negb in_builder in_nodeID].
  destruct (BuildAllGlobulaAnnouncementHashes digestOf _) as [td|] eqn:Etd; [|done]. cbn [mbind go_bind].
  destruct (BuildAll_builds digestOf _ _ Etd) as [Et Ed]. destruct (is_nil td.1) eqn:En; [done|].
  assert (Hn : is_nil td.2 = negb (has_doubted (builder_of p))).
  { unfold builder_of. destruct (has_doubted _); [destruct Ed as [_ Hne]; by destruct td.2|by rewrite Ed]. }
  unfold BuildGlobulaStateHashesAndRanks. rewrite Hn. fold (builder_of p) in *.
  destruct (buildGlobulaStateHash digestOf (builder_of p) true n) as [ct|] eqn:Ect; [|done]. cbn [mbind go_bind].
  destruct (has_doubted (builder_of p)) eqn:Ehd; cbn [negb].
  - destruct (buildGlobulaStateHash digestOf (builder_of p) false n) as [cd|] eqn:Ecd; [|done]. cbn [mbind go_bind]. intros [= <-].
    split; [|done]. destruct Ed as [Ed Hne]. split; cbn; try done; [by destruct td.1|]. by rewrite Ehd.
  - cbn [mbind go_bind]. intros [= <-]. split; [|done]. split; cbn; try done; [by destruct td.1|]. rewrite Ehd, Ed. done.
Qed.

(** A node [receiver] that knows [here] inspects the vector of [sender], who
    knows [there]. *)
Section Two.
Context (here there : Projection) (receiver sender : Z) (mine theirs : Inspector) (sign : list Z -> list Z).
Context (Hsame : blind here = blind there) (Hlen : Z.of_nat (length (indexedRefs here)) < 2^16).
Context (Hmine : prepared here receiver mine) (Htheirs : prepared there sender theirs).
Context (Hsign : forall h, IsValidDigestSignature sender h (sign h) = true).

Lemma bits_comparable : Forall2 comparable (bits_of here) (bits_of there).
Proof. exact (blind_timeouts _ _ Hsame). Qed.
Lemma bits_of_length : length (bits_of here) = length (indexedRefs here).
Proof. apply length_fmap. Qed.

(** With the bit set that trusts whom the sender trusts, the receiver digests
    what the sender digested. *)
Lemma trusted_alike d : Forall2 (fun z y => IsTrusted z = IsTrusted y /\ IsTimeout z = IsTimeout y) d (bits_of there) ->
  buildGlobulaAnnouncementHash digestOf (mkBuilder here d) true = Ret (cv_AnnouncementHash (in_Trusted theirs)) /\
  powered_alike (mkBuilder here d) (builder_of there) true true.
Proof.
  intros Hd. assert (Hl : length d = length (indexedRefs here)).
  { rewrite (list.Forall2_length _ _ _ Hd), <- bits_of_length. symmetry. exact (list.Forall2_length _ _ _ bits_comparable). }
  split.
  - rewrite <- (pp_trusted _ _ _ Htheirs). apply announcements_alike; [done|]. eapply list.Forall2_impl; [exact Hd|].
    intros x y [E1 E2]. unfold announced_in. by rewrite E1, E2.
  - apply powered_of; [done|]. eapply list.Forall2_impl; [exact Hd|]. intros x y [E1 _]. by rewrite E1.
Qed.

Definition self_doubted : CalcSubVector := if is_nil (cv_AnnouncementHash (in_Doubted mine)) then in_Trusted mine else in_Doubted mine.
Lemma doubted_alike : has_doubted (builder_of there) = true ->
  cv_AnnouncementHash self_doubted = cv_AnnouncementHash (in_Doubted theirs) /\
  cs_StateHash (cv_State self_doubted) = cs_StateHash (cv_State (in_Doubted theirs)).
Proof.
  intros Hd. pose proof (pp_doubted _ _ _ Htheirs) as Ht. rewrite Hd in Ht. destruct Ht as (Ht1 & _ & Ht2).
  pose proof (pp_doubted _ _ _ Hmine) as Hm. unfold self_doubted. destruct (has_doubted (builder_of here)) eqn:Eh.
  - destruct Hm as (Hm1 & Hne & Hm2). destruct (cv_AnnouncementHash (in_Doubted mine)) as [a|] eqn:Ea; [|done]. cbn [is_nil]. rewrite Ea.
    unfold builder_of in *. split.
    + rewrite (announcements_alike digestOf here there (bits_of here) (bits_of there) false false) in Hm1; [congruence|done|].
      eapply list.Forall2_impl; [exact bits_comparable|]. intros x y E. unfold announced_in. by rewrite E.
    + eapply states_sim; [| |exact Hm2|exact Ht2]; [done|]. apply powered_of; [apply bits_of_length|].
      eapply list.Forall2_impl; [exact bits_comparable|]. done.
  - rewrite Hm. cbn [zeroCalcSub cv_AnnouncementHash is_nil]. pose proof (pp_trusted _ _ _ Hmine) as Hm1. pose proof (pp_states _ _ _ Hmine) as Hm2.
    unfold builder_of in *. split.
    + rewrite (announcements_alike digestOf here there (bits_of here) (bits_of there) true false) in Hm1; [congruence|done|].
      apply list.Forall2_same_length_lookup_2; [exact (list.Forall2_length _ _ _ bits_comparable)|]. intros i x y Hx Hy.
      pose proof (list.Forall2_lookup_lr _ _ _ _ _ _ bits_comparable Hx Hy) as E. unfold comparable in E. unfold announced_in. cbn [negb orb].
      rewrite <- E. destruct (has_doubted_false here x Eh) as [->| ->]; [by eapply list_elem_of_lookup_2|done|by rewrite !andb_true_r].
    + eapply states_sim; [| |exact Hm2|exact Ht2]; [done|]. apply powered_undoubted; [done|done|].
      rewrite <- bits_of_length. symmetry. exact (list.Forall2_length _ _ _ bits_comparable).
Qed.

(** What the sender sends. *)
Definition sent_sub (v : CalcSubVector) : HashedSubVector := Sign sign v.
Definition vector_of : HashedVector := mkHashedVector (bits_of there) (sent_sub (in_Trusted theirs)) (sent_sub (in_Doubted theirs)).
Lemma sent_announcement v : hv_AnnouncementHash (sent_sub v) = cv_AnnouncementHash v.
Proof. unfold sent_sub, Sign. by destruct (cs_StateHash (cv_State v)). Qed.
Lemma sent_valid v c : cs_StateHash (cv_State v) <> None -> cs_StateHash c = cs_StateHash (cv_State v) ->
  verifySignature IsValidDigestSignature sender (cs_StateHash c) (hv_StateSignature (sent_sub v)) = Ret true.
Proof. unfold verifySignature, sent_sub, Sign. intros Hne ->. destruct (cs_StateHash (cv_State v)); [cbn; by rewrite Hsign|done]. Qed.
Lemma sent_rank v : cs_StateHash (cv_State v) <> None -> hv_ExpectedRank (sent_sub v) = cs_ExpectedRank (cv_State v).
Proof. unfold sent_sub, Sign. by destruct (cs_StateHash (cv_State v)). Qed.
Lemma doubted_sent : negb (is_nil (cv_AnnouncementHash (in_Doubted theirs))) = has_doubted (builder_of there).
Proof.
  pose proof (pp_doubted _ _ _ Htheirs) as Hd. destruct (has_doubted (builder_of there)); [destruct Hd as (_ & Hne & _)|by rewrite Hd].
  by destruct (cv_AnnouncementHash (in_Doubted theirs)).
Qed.

Definition parts_of (recalc : bool) : SubVectorCompared * SubVectorCompared :=
  (if recalc then verifyRecalc else verifyAsIs, if has_doubted (builder_of there) then verifyAsIs else SvcIgnore).

(** The digests of the trusted part, before the ranks. *)
Lemma trusted_hash sr recalc :
  (exists d, build_derived sr 0 (bits_of here) = Ret d /\ Forall2 (fun z y => IsTrusted z = IsTrusted y /\ IsTimeout z = IsTimeout y) d (bits_of there)) ->
  (recalc = false -> Forall2 (fun z y => IsTrusted z = IsTrusted y /\ IsTimeout z = IsTimeout y) (bits_of here) (bits_of there)) ->
  exists vb, (if recalc then CreateDerived (in_builder mine) sr else Ret (in_builder mine)) = Ret vb /\
    (forall dflt, BuildGlobulaAnnouncementHashes digestOf vb recalc false (cv_AnnouncementHash (in_Trusted mine)) dflt =
       Ret (cv_AnnouncementHash (in_Trusted theirs), dflt)) /\
    (forall dflt, exists c, BuildGlobulaStateHashesAndRanks digestOf vb recalc false sender (cv_State (in_Trusted mine)) dflt = Ret (c, dflt) /\
       cs_StateHash c = cs_StateHash (cv_State (in_Trusted theirs)) /\ (recalc = true -> c = cv_State (in_Trusted theirs))).
Proof.
  intros (d & Ed & Hd) Has. rewrite (pp_builder _ _ _ Hmine). destruct recalc.
  - unfold CreateDerived, buildDerivedBitset. cbn [builder_of GetBitset entryScanner]. rewrite Ed. cbn [mbind go_bind].
    destruct (trusted_alike d Hd) as [Ha Hp]. eexists. split; [done|]. unfold BuildGlobulaAnnouncementHashes, BuildGlobulaStateHashesAndRanks.
    cbn [andb]. rewrite Ha. split; [done|]. intros dflt.
    rewrite (states_alike digestOf _ (builder_of there) true true sender) by done. rewrite (pp_states _ _ _ Htheirs). by eexists.
  - specialize (Has eq_refl). destruct (trusted_alike _ Has) as [Ha Hp]. eexists. split; [done|].
    assert (E : cv_AnnouncementHash (in_Trusted mine) = cv_AnnouncementHash (in_Trusted theirs)).
    { pose proof (pp_trusted _ _ _ Hmine) as Hm. unfold builder_of in Hm. rewrite Hm in Ha. by injection Ha. }
    split; [intros dflt; by rewrite <- E|]. intros dflt. eexists. split; [done|]. split; [|done].
    eapply states_sim; [|exact Hp|exact (pp_states _ _ _ Hmine)|exact (pp_states _ _ _ Htheirs)]. done.
Qed.

Lemma honest_hashes sr recalc opts res ns :
  (exists d, build_derived sr 0 (bits_of here) = Ret d /\ Forall2 (fun z y => IsTrusted z = IsTrusted y /\ IsTimeout z = IsTimeout y) d (bits_of there)) ->
  (recalc = false -> Forall2 (fun z y => IsTrusted z = IsTrusted y /\ IsTimeout z = IsTimeout y) (bits_of here) (bits_of there)) ->
  doVerifyVectorHashes digestOf IsValidDigestSignature mine
    (mkInspected sender vector_of opts (parts_of recalc).1 (parts_of recalc).2 res sr ns) =
  Ret ((parts_of recalc).1, honest_result recalc (has_doubted (builder_of there))).
Proof.
  intros Hd Has. destruct (trusted_hash sr recalc Hd Has) as (vb & Evb & Eann & Est).
  unfold doVerifyVectorHashes. cbn [otherData trustedPart doubtedPart comparedStats iv_nodeID].
  assert (Hrc : IsRecalc (parts_of recalc).1 = recalc) by (by destruct recalc).
  assert (Hrd : IsRecalc (parts_of recalc).2 = false) by (unfold parts_of; by destruct (has_doubted _)).
  assert (Hnt : IsNeeded (parts_of recalc).1 = true) by (by destruct recalc).
  assert (Hnd : IsNeeded (parts_of recalc).2 = has_doubted (builder_of there)) by (unfold parts_of; by destruct (has_doubted _)).
  rewrite Hrc, Hrd, Hnt, Hnd, orb_false_r, Evb. cbn [mbind go_bind].
  set (sd := if has_doubted (builder_of there) && _ then in_Trusted mine else in_Doubted mine).
  assert (Hsd : has_doubted (builder_of there) = true -> sd = self_doubted).
  { intros E. unfold sd, self_doubted. rewrite E. cbn [andb]. done. }
  assert (Egah : (if recalc then BuildGlobulaAnnouncementHashes digestOf vb recalc false (cv_AnnouncementHash (in_Trusted mine)) (cv_AnnouncementHash sd)
                  else Ret (cv_AnnouncementHash (in_Trusted mine), cv_AnnouncementHash sd)) =
                 Ret (cv_AnnouncementHash (in_Trusted theirs), cv_AnnouncementHash sd)).
  { specialize (Eann (cv_AnnouncementHash sd)). by destruct recalc. }
  rewrite Egah. cbn [mbind go_bind vector_of hv_Trusted hv_Doubted fst snd customOptions verifyResult nodeStats]. rewrite !sent_announcement.
  assert (Evt : digest_Equals (cv_AnnouncementHash (in_Trusted theirs)) (cv_AnnouncementHash (in_Trusted theirs)) = Ret true).
  { pose proof (pp_some _ _ _ Htheirs). destruct (cv_AnnouncementHash (in_Trusted theirs)); [|done]. cbn. by rewrite bool_decide_eq_true_2. }
  assert (Evd : (if has_doubted (builder_of there) then digest_Equals (cv_AnnouncementHash sd) (cv_AnnouncementHash (in_Doubted theirs)) else Ret false) =
                Ret (has_doubted (builder_of there))).
  { pose proof doubted_sent as Hs. destruct (has_doubted (builder_of there)) eqn:E; [|done]. rewrite (Hsd eq_refl).
    destruct (doubted_alike E) as [-> _]. destruct (cv_AnnouncementHash (in_Doubted theirs)); [|done]. cbn. by rewrite bool_decide_eq_true_2. }
  rewrite Evt. cbn [mbind go_bind]. rewrite Evd. cbn [mbind go_bind]. rewrite andb_false_r. cbn [orb]. rewrite Hnt, Hrc, andb_true_r.
  assert (Evalid : forall b : bool, (if b then verify_states digestOf IsValidDigestSignature mine
      (mkInspected sender vector_of opts (parts_of recalc).1 (parts_of recalc).2 res sr ns) vb
      (cv_State (in_Trusted mine)) (cv_State sd) true (has_doubted (builder_of there)) else Ret (true, has_doubted (builder_of there))) =
    Ret (true, has_doubted (builder_of there))).
  { intros [|]; [|done]. unfold verify_states. cbn [trustedPart doubtedPart iv_nodeID otherData]. rewrite Hrc, Hrd, andb_true_r. cbn [andb].
    rewrite orb_false_r. destruct (Est (cv_State sd)) as (c & Ec & Eh & Er).
    replace (if recalc then _ else _) with (Ret (c, cv_State sd)) by (destruct recalc; by rewrite <- Ec). cbn [mbind go_bind fst snd].
    pose proof (state_hash_some digestOf _ _ _ _ (pp_states _ _ _ Htheirs)) as Hne. cbn [vector_of hv_Trusted hv_Doubted].
    assert (Et : (if recalc then cs_ExpectedRank c =? hv_ExpectedRank (sent_sub (in_Trusted theirs)) else true) = true).
    { destruct recalc; [|done]. rewrite sent_rank, (Er eq_refl) by done. apply Z.eqb_refl. }
    rewrite Et, (sent_valid (in_Trusted theirs) c Hne Eh). cbn [mbind go_bind].
    destruct (has_doubted (builder_of there)) eqn:E; [|done]. rewrite (Hsd eq_refl). destruct (doubted_alike E) as [_ Esh].
    rewrite sent_valid; [done| |done]. pose proof (pp_doubted _ _ _ Htheirs) as Hd'. rewrite E in Hd'. destruct Hd' as (_ & _ & Hst).
    exact (state_hash_some digestOf _ _ _ _ Hst). }
  rewrite Evalid. cbn [mbind go_bind fst snd]. unfold SetTrusted, SetDoubted.
  destruct recalc, (has_doubted (builder_of there)); reflexivity.
Qed.
End Two.
End Believed.

Section Belief.
Context `{Sorting} (digestOf : list Z -> list Z) (IsValidDigestSignature : Z -> list Z -> list Z -> bool).

(** A node with a vector, ready to inspect others'. *)
Definition ready (inlineLimit : Z) (disable : bool) (p : Projection) (n : Z) (i : Inspector) : Prop :=
  (i ← CreateInspector inlineLimit disable p n; PrepareForInspection digestOf i) = Ret (i, true).

(** An inspection whose digests are done. *)
Lemma inspect_finds mine sender other opts t d sr t' res row : sender <> 0 ->
  doVerifyVectorHashes digestOf IsValidDigestSignature mine (mkInspected sender other opts t d NvrNotVerified sr None) = Ret (t', res) ->
  res <> NvrNotVerified -> SummarizeStats (hv_Bitset other) (Z.ldiff res NvrHashlessFlags) sr = Ret row ->
  Inspect digestOf IsValidDigestSignature mine (mkInspected sender other opts t d NvrNotVerified sr None) =
  Ret (mkInspected sender other opts t' d res sr (Some row)).
Proof.
  intros Hid E Hne Erow. unfold Inspect, IsInspected. cbn [iv_nodeID verifyResult nodeStats is_nil]. rewrite (proj2 (Z.eqb_neq _ _) Hid).
  change (negb (NvrNotVerified =? NvrNotVerified)) with false. cbn [orb negb]. rewrite E. cbn [mbind go_bind fst snd].
  rewrite (proj2 (Z.eqb_neq _ _) Hne). cbn [otherData comparedStats]. by rewrite Erow.
Qed.
Lemma inspect_again mine v : verifyResult v <> NvrNotVerified -> Inspect digestOf IsValidDigestSignature mine v = Ret v.
Proof. intros Hne. unfold Inspect, IsInspected. rewrite (proj2 (Z.eqb_neq _ _) Hne). cbn [negb]. by rewrite orb_true_r. Qed.

(** An honest vector under inspection: at once, or when it is asked for. *)
Lemma honest_inspection here there receiver sender limit limit' disable disable' mine theirs sign opts :
  blind here = blind there -> Z.of_nat (length (indexedRefs here)) < 2^16 -> sender <> 0 ->
  ready limit disable here receiver mine -> ready limit' disable' there sender theirs ->
  (forall h, IsValidDigestSignature sender h (sign h) = true) ->
  exists vector v0 v row, CreateVector sign theirs = Ret vector /\ hv_Bitset vector = bits_of there /\
    InspectVector digestOf IsValidDigestSignature mine sender opts vector = Ret v0 /\ (v0 = v \/ IsInspected v0 = false) /\
    Inspect digestOf IsValidDigestSignature mine v0 = Ret v /\ IsInspected v = true /\ otherData v = vector /\
    HasMissingMembers v = false /\ HasSenderFault v = false /\
    nodeStats v = Some row /\ StateToConsensusStatRow (hv_Bitset vector) = Ret row.
Proof.
  intros Hsame Hlen Hid Hm Ht Hsign.
  destruct (Prepare_prepared _ _ _ _ _ _ Hm) as [Hmine _]. destruct (Prepare_prepared _ _ _ _ _ _ Ht) as [Htheirs _].
  pose proof (bits_comparable here there Hsame) as Hb. pose proof (list.Forall2_length _ _ _ Hb) as Hl.
  assert (Hlt : Z.of_nat (length (bits_of there)) < 2^16) by (rewrite <- Hl; unfold bits_of; by rewrite length_fmap).
  destruct (comparable_row _ _ Hb Hlt) as (sr & Esr & Hsr & Evals & Hcases).
  destruct (StateToConsensusStatRow_ok (bits_of there) Hlt) as (row & Erow & _ & _).
  set (recalc := negb (count_in 0 (values sr) =? Z.of_nat (length (values sr)))).
  set (vector := vector_of there theirs sign).
  assert (Evec : CreateVector sign theirs = Ret vector).
  { unfold CreateVector, ensureHashes. pose proof (pp_some _ _ _ _ Htheirs). destruct (cv_AnnouncementHash (in_Trusted theirs)) eqn:E; [|done].
    cbn [is_nil mbind go_bind]. by rewrite (pp_builder _ _ _ _ Htheirs). }
  assert (Hder : exists d, build_derived sr 0 (bits_of here) = Ret d /\
    Forall2 (fun z y => IsTrusted z = IsTrusted y /\ IsTimeout z = IsTimeout y) d (bits_of there)).
  { apply build_derived_ok; [|done]. intros i _. by rewrite Z.add_0_l, Evals. }
  assert (Hallsame : recalc = false -> Forall (fun v => v = ComparedSame) (values sr)).
  { unfold recalc. intros E. apply negb_false_iff, Z.eqb_eq in E. by apply all_counted. }
  assert (Has : recalc = false -> Forall2 (fun z y => IsTrusted z = IsTrusted y /\ IsTimeout z = IsTimeout y) (bits_of here) (bits_of there)).
  { intros E. specialize (Hallsame E). rewrite Evals in Hallsame. by apply same_trust. }
  pose proof (honest_hashes digestOf IsValidDigestSignature here there receiver sender mine theirs sign Hsame Hmine Htheirs Hsign sr recalc opts
    NvrNotVerified None Hder Has) as Hhash.
  pose proof (doubted_sent digestOf there sender theirs Htheirs) as Hds.
  set (hasD := has_doubted (builder_of there)) in *.
  set (v0 := mkInspected sender vector opts (parts_of there recalc).1 (parts_of there recalc).2 NvrNotVerified sr None).
  set (v := mkInspected sender vector opts (parts_of there recalc).1 (parts_of there recalc).2 (honest_result recalc hasD) sr (Some row)).
  assert (Einspect : Inspect digestOf IsValidDigestSignature mine v0 = Ret v).
  { apply inspect_finds; [done|exact Hhash|by destruct recalc, hasD|]. cbn [otherData comparedStats vector vector_of hv_Bitset].
    replace (Z.ldiff (honest_result recalc hasD) NvrHashlessFlags) with (honest_result recalc hasD) by (by destruct recalc, hasD).
    rewrite (honest_summary (bits_of here)); [exact Erow|done| |done|done|].
    - unfold bits_of. apply list.Forall_fmap, list.Forall_true. intros o. apply bit_range.
    - intros y Hy E1 E2. by apply (has_doubted_true there y). }
  assert (Epre : InspectVector digestOf IsValidDigestSignature mine sender opts vector =
    if (maxPopulationForInlineHashing mine =? 0) || (GetIndexedCount (entryScanner (in_builder mine)) <=? maxPopulationForInlineHashing mine)
    then Inspect digestOf IsValidDigestSignature mine v0 else Ret v0).
  { unfold InspectVector, ensureHashes. pose proof (pp_some _ _ _ _ Hmine) as Hsome. destruct (cv_AnnouncementHash (in_Trusted mine)) eqn:Em; [|done].
    cbn [is_nil mbind go_bind]. unfold newInspectedVectorAndPreInspect. rewrite (pp_builder _ _ _ _ Hmine).
    cbn [builder_of GetBitset entryScanner vector vector_of hv_Bitset hv_Trusted hv_Doubted]. rewrite Hl, Z.eqb_refl. cbn [negb]. rewrite Esr.
    cbn [mbind go_bind]. rewrite !sent_announcement, Hds. pose proof (pp_some _ _ _ _ Htheirs) as Hts.
    destruct (cv_AnnouncementHash (in_Trusted theirs)) eqn:Et; [|done]. cbn [is_nil negb andb].
    rewrite (HasValues_count sr Hsr) by done. rewrite count_none; [|eapply list.Forall_impl; [exact Hcases|]; by intros ? [->|[->| ->]]].
    cbn [mbind go_bind Z.ltb Z.compare]. rewrite (parts_of_comparable sr Hsr _ Hcases). cbn [mbind go_bind fst snd].
    replace (if count_in 0 (values sr) =? Z.of_nat (length (values sr)) then verifyAsIs else verifyRecalc) with (parts_of there recalc).1
      by (unfold parts_of, recalc; by destruct (_ =? _)).
    change (if hasD then verifyAsIs else SvcIgnore) with (parts_of there recalc).2. reflexivity. }
  exists vector, (if (maxPopulationForInlineHashing mine =? 0) || (GetIndexedCount (entryScanner (in_builder mine)) <=? maxPopulationForInlineHashing mine)
                  then v else v0), v, row.
  split_and!; try done; [by rewrite Epre, Einspect; destruct (_ || _)| | |by destruct recalc, hasD..].
  - destruct (_ || _); [by left|by right].
  - destruct (_ || _); [|exact Einspect]. apply inspect_again. by destruct recalc, hasD.
Qed.

(** C32: when two nodes know the same announcements, whatever the trust of each
    in every node, the vector of the one is taken by the other: nothing is
    missing in it, its sender is not at fault, and the statistics are those
    of the sender's own bit set: trusted, doubted, missing or fraud as the
    sender says. *)
Theorem honest_vector_believed here there receiver sender limit limit' disable disable' mine theirs sign opts :
  blind here = blind there -> Z.of_nat (length (indexedRefs here)) < 2^16 -> sender <> 0 ->
  ready limit disable here receiver mine -> ready limit' disable' there sender theirs ->
  (forall h, IsValidDigestSignature sender h (sign h) = true) ->
  exists vector v row, CreateVector sign theirs = Ret vector /\ hv_Bitset vector = bits_of there /\
    (v ← InspectVector digestOf IsValidDigestSignature mine sender opts vector; Inspect digestOf IsValidDigestSignature mine v) = Ret v /\
    HasMissingMembers v = false /\ HasSenderFault v = false /\
    nodeStats v = Some row /\ StateToConsensusStatRow (hv_Bitset vector) = Ret row.
Proof.
  intros Hsame Hlen Hid Hm Ht Hsign.
  destruct (honest_inspection here there receiver sender limit limit' disable disable' mine theirs sign opts Hsame Hlen Hid Hm Ht Hsign)
    as (vector & v0 & v & row & E1 & E2 & E3 & _ & E4 & _ & _ & E5 & E6 & E7 & E8).
  exists vector, v, row. split_and!; try done. by rewrite E3.
Qed.
End Belief.
