(* ===== verification/Phase3.v ===== *)
(** * The last phase of the consensus: vectors are exchanged and the nodes
    decided (src/network/consensus/gcpv2/phasebundle: ph3ctl/phase3.go,
    inspectors/bypass_inspector.go, consensus/consensus_simple.go)

    The vectors of the other nodes are inspected as they come, and the
    statistics of what each proves are put into a table, from which the worker
    selects.  Whatever a minority of the nodes sends to each of the others, two
    honest nodes do not decide to the contrary. *)
From S2P Require Import Prelude MemberPower MemberRank NodeStats ConsensusDecision NodeVector VectorBuilder VectorInspector VectorsAgree VectorsBelieved.

(** ** The queue of the worker *)
Definition outOfOrderPhase3 : Z := 1.

(** What is known of the sender of a packet; [nodeIndex] is of no joiner. *)
Record NodeAppearance : Type := mkNode { nodeID : Z; nodeIndex : Z; isJoiner : bool }.

(** A vector that came before the node had one of its own, or one that was
    looked at. *)
Inductive InspectedVector : Type :=
  | bypassVector (options : Z) (vector : HashedVector)
  | inspected (v : inspectedVector).

Section Worker.
Context `{Sorting} (digestOf : list Z -> list Z).
Context (IsValidDigestSignature : Z -> list Z -> list Z -> bool).

(** [None]: the sender is registered as a fraud.  Before the worker has an
    inspector of its own the bypass inspector takes everything. *)
Definition DispatchMemberPacket (inspector : option Inspector) (n : NodeAppearance) (options : Z) (vector : HashedVector) :
  go (option InspectedVector) :=
  match inspector with
  | None => Ret (Some (bypassVector options vector))
  | Some p =>
      iv ← InspectVector digestOf IsValidDigestSignature p (nodeID n) options vector;
      Ret (if HasSenderFault iv then None else Some (inspected iv))
  end.

(** The tables; the rows of the verified one have their custom options. *)
Record worker : Type := mkWorker {
  verifiedStatTbl : StatTable;
  originalStatTbl : StatTable;
  rowOptions : gmap Z Z;
  processedNodesFlawlessly : Z;
}.

(** The tables and the row of the node itself; a joiner has none. *)
Definition startRecv (localInspector : Inspector) (nodeCount : Z) (selfIndex : option Z) : go worker :=
  verified ← NewConsensusStatTable nodeCount;
  original ← NewConsensusStatTable nodeCount;
  match selfIndex with
  | None => Ret (mkWorker verified original ∅ 0)
  | Some i =>
      localStat ← StateToConsensusStatRow (GetBitset (in_builder localInspector));
      verified ← PutRow verified i localStat;
      original ← PutRow original i localStat;
      Ret (mkWorker verified original {[i := 0]} 1)
  end.

(** The vector as it is inspected in the end; [None] if it cannot be. *)
Definition inspect_queued (localInspector : Inspector) (n : NodeAppearance) (d : InspectedVector) : go (option inspectedVector) :=
  v ← match d with
      | bypassVector options vector => InspectVector digestOf IsValidDigestSignature localInspector (nodeID n) options vector
      | inspected v => Ret v
      end;
  if IsInspected v then Ret (Some v)
  else
    v ← Inspect digestOf IsValidDigestSignature localInspector v;
    Ret (if IsInspected v then Some v else None).

(** The row of an out-of-order vector makes way for that of a regular one. *)
Definition removeOutOfOrder (w : worker) (index options : Z) : go worker :=
  currentRow ← GetRow (verifiedStatTbl w) index;
  match currentRow with
  | Some row =>
      if (default 0 (rowOptions w !! index) =? outOfOrderPhase3) && negb (options =? outOfOrderPhase3) then
        original ← RemoveRow (originalStatTbl w) index;
        verified ← RemoveRow (verifiedStatTbl w) index;
        flawless ← HasAllValuesOf row ConsensusStatTrusted ConsensusStatDoubted;
        Ret (mkWorker verified.1 original.1 (delete index (rowOptions w))
               (processedNodesFlawlessly w - if flawless : bool then 1 else 0))
      else Ret w
  | None => Ret w
  end.
Definition putRows (w : worker) (index : Z) (v : inspectedVector) (nodeStats : Row) : go worker :=
  w ← removeOutOfOrder w index (customOptions v);
  originalStat ← StateToConsensusStatRow (hv_Bitset (otherData v));
  original ← PutRow (originalStatTbl w) index originalStat;
  verified ← PutRow (verifiedStatTbl w) index nodeStats;
  flawless ← HasAllValuesOf nodeStats ConsensusStatTrusted ConsensusStatDoubted;
  Ret (mkWorker verified original (<[index := customOptions v]> (rowOptions w))
         (processedNodesFlawlessly w + if flawless : bool then 1 else 0)).
(** The case of a received vector, and what the strategy selects at once. *)
Definition receive (localInspector : Inspector) (w : worker) (n : NodeAppearance) (d : InspectedVector) :
  go (worker * option (bool * Row)) :=
  d ← inspect_queued localInspector n d;
  match d with
  | None => Ret (w, None)
  | Some v =>
      if isJoiner n then Panic "not implemented"
      else match nodeStats v with
           | None => Ret (w, None)
           | Some stats => w ← putRows w (nodeIndex n) v stats; Ret (w, TrySelectOnAdded (verifiedStatTbl w) stats)
           end
  end.

(** What wakes the worker, with the population as it was before. *)
Inductive wakeup : Type := Cancelled | Deadline | Received (n : NodeAppearance) (d : InspectedVector).
Record turn : Type := mkTurn { popCount : Z; popCompleteness : bool; woken : wakeup }.

(** The loop: the selection, or none when the round is cancelled or the worker
    waits on. *)
Fixpoint recvLoop (localInspector : Inspector) (chasingEnabled : bool) (turns : list turn) (w : worker) : go (option (bool * Row)) :=
  match turns with
  | [] => Ret None
  | t :: turns' =>
      let stop timeIsOut := s ← SelectOnStopped (verifiedStatTbl w) timeIsOut (BftMajority (popCount t)); Ret (Some s) in
      if popCompleteness t && (popCount t <=? RowCount (verifiedStatTbl w)) then stop false
      else match woken t with
           | Cancelled => Ret None
           | Deadline => stop true
           | Received n d =>
               r ← receive localInspector w n d;
               match r.2 with
               | Some s => if negb s.1 || negb chasingEnabled then Ret (Some s) else recvLoop localInspector chasingEnabled turns' r.1
               | None => recvLoop localInspector chasingEnabled turns' r.1
               end
           end
  end.
Definition selectVectors (localInspector : Inspector) (nodeCount : Z) (selfIndex : option Z) (chasingEnabled : bool) (turns : list turn) :
  go (option (bool * Row)) :=
  w ← startRecv localInspector nodeCount selfIndex; recvLoop localInspector chasingEnabled turns w.

(** The selection makes the next population. *)
Definition workerRecvPhase3 (localInspector : Inspector) (nodeCount : Z) (selfIndex : option Z) (chasingEnabled : bool) (turns : list turn) :
  go (option (list PopulationRank * option (list Z))) :=
  s ← selectVectors localInspector nodeCount selfIndex chasingEnabled turns;
  match s with
  | None => Ret None
  | Some s => next ← createNextPopulation digestOf (in_builder localInspector) s.2; Ret (Some next)
  end.
End Worker.

(** ** Statistics fit the table, whatever the vector *)
Lemma summaryByEntry_range other res compared r : summaryByEntry other res compared = Ret r -> 0 <= r.1 <= 5.
Proof.
  unfold summaryByEntry. change ConsensusStatMissingHere with 0. cbv zeta. intros E.
  repeat match type of E with
  | (if ?b then _ else _) = _ => destruct b
  | Ret _ = Ret _ => injection E as <-; by split
  | Panic _ = _ => discriminate E
  end.
Qed.

Lemma summarize_ok bits res sr i k stats r :
  row_ok 5 stats -> rowIndex stats < 0 -> (i + k <= length (values stats))%nat ->
  summarize bits res sr (Z.of_nat i) k stats = Ret r -> row_ok 5 r.
Proof.
  revert i stats. induction k as [|k IH]; intros i stats Hs Hi Hk; cbn [summarize]; [by intros [= <-]|].
  destruct (slice_get bits (Z.of_nat i)) as [other|]; [|done]. cbn [mbind go_bind].
  destruct (Row_Get sr (Z.of_nat i)) as [compared|]; [|done]. cbn [mbind go_bind].
  destruct (summaryByEntry other res compared) as [e|] eqn:Ee; [|done]. cbn [mbind go_bind].
  destruct (Row_Set_ok 5 stats (Z.of_nat i) e.1 Hs Hi ltac:(lia) (summaryByEntry_range _ _ _ _ Ee)) as (r' & prev & -> & Hr' & Hi' & Ev & _).
  cbn [mbind go_bind fst]. replace (Z.of_nat i + 1) with (Z.of_nat (S i)) by lia. apply IH; [done|lia|]. rewrite Ev, length_insert. lia.
Qed.
Lemma SummarizeStats_ok bits res sr r : SummarizeStats bits res sr = Ret r -> row_ok 5 r.
Proof.
  unfold SummarizeStats, NewConsensusStatRow. change (u8 (maxConsensusStat - 1)) with 5. intros E.
  destruct (Z.lt_ge_cases 65535 (Row_ColumnCount sr)) as [Hc|Hc].
  { unfold NewStatRow in E. by rewrite (proj2 (Z.ltb_lt _ _)) in E. }
  destruct (NewStatRow_ok 5 (Row_ColumnCount sr)) as (s & Es & Hs & Hi & Ev); [lia|unfold Row_ColumnCount in *; lia|].
  rewrite Es in E. cbn [mbind go_bind] in E. apply (summarize_ok bits res sr 0 (Z.to_nat (Row_ColumnCount sr)) s); [done|lia| |exact E].
  rewrite Ev, length_replicate. lia.
Qed.

Definition stats_ok (v : inspectedVector) : Prop := forall r, nodeStats v = Some r -> row_ok 5 r.

Section Received.
Context `{Sorting} (digestOf : list Z -> list Z) (IsValidDigestSignature : Z -> list Z -> list Z -> bool).

Lemma Inspect_stats p v v' : stats_ok v -> Inspect digestOf IsValidDigestSignature p v = Ret v' -> stats_ok v'.
Proof.
  intros Hv. unfold Inspect. destruct (_ || _); [by intros [= <-]|]. destruct (negb _); [done|].
  destruct (doVerifyVectorHashes _ _ _ _) as [r|]; [|done]. cbn [mbind go_bind]. destruct (_ =? _); [done|].
  destruct (SummarizeStats _ _ _) as [ns|] eqn:E; [|done]. cbn [mbind go_bind]. intros [= <-] r'. cbn [nodeStats]. intros [= <-].
  by eapply SummarizeStats_ok.
Qed.
Lemma InspectVector_stats p sender o vec v : InspectVector digestOf IsValidDigestSignature p sender o vec = Ret v -> stats_ok v.
Proof.
  unfold InspectVector. destruct (ensureHashes p); [|done]. cbn [mbind go_bind]. unfold newInspectedVectorAndPreInspect.
  destruct (negb _); [by intros [= <-] r|]. destruct (CompareToStatRow _ _) as [stats|]; [|done]. cbn [mbind go_bind].
  destruct (HasValues _ _) as [[]|]; [by intros [= <-] r| |done]. cbn [mbind go_bind].
  destruct (PrepareSubVectorsComparison _ _ _) as [parts|]; [|done]. cbn [mbind go_bind].
  destruct (_ || _); [|by intros [= <-] r]. by apply Inspect_stats.
Qed.

(** What the queue may hold: what was dispatched before or after the node had
    an inspector. *)
Definition dispatched (p : Inspector) (n : NodeAppearance) (options : Z) (vector : HashedVector) (d : InspectedVector) : Prop :=
  exists inspector, (inspector = None \/ inspector = Some p) /\
    DispatchMemberPacket digestOf IsValidDigestSignature inspector n options vector = Ret (Some d).

Lemma dispatched_cases p n options vector d : dispatched p n options vector d ->
  d = bypassVector options vector \/
  exists v, d = inspected v /\ InspectVector digestOf IsValidDigestSignature p (nodeID n) options vector = Ret v.
Proof.
  intros (i & [-> | ->] & E); cbn [DispatchMemberPacket] in E; [left; congruence|right].
  destruct (InspectVector _ _ _ _ _ _) as [v|]; [|done]. cbn [mbind go_bind] in E.
  destruct (HasSenderFault v); [done|]. injection E as <-. by exists v.
Qed.

Lemma inspect_queued_stats p n options vector d v : dispatched p n options vector d ->
  inspect_queued digestOf IsValidDigestSignature p n d = Ret (Some v) -> stats_ok v.
Proof.
  intros Hd. unfold inspect_queued.
  assert (Hv : forall v0, (match d with bypassVector o vec => InspectVector digestOf IsValidDigestSignature p (nodeID n) o vec | inspected v => Ret v end) = Ret v0 -> stats_ok v0).
  { intros v0. destruct (dispatched_cases _ _ _ _ _ Hd) as [->|(v1 & -> & E)]; [apply InspectVector_stats|].
    intros [= <-]. by eapply InspectVector_stats. }
  destruct (match d with bypassVector _ _ => _ | inspected _ => _ end) as [v0|]; [|done]. cbn [mbind go_bind]. specialize (Hv v0 eq_refl).
  destruct (IsInspected v0); [by intros [= <-]|]. destruct (Inspect _ _ _ _) as [v1|] eqn:E; [|done]. cbn [mbind go_bind].
  pose proof (Inspect_stats _ _ _ Hv E). destruct (IsInspected v1); [by intros [= <-]|done].
Qed.
End Received.

(** ** The rows of a table *)
Definition has_row (t : StatTable) (k : nat) : Prop := exists r, rows t !! k = Some (Some r).

Lemma PutRow_rows t index row t' : 0 <= index -> PutRow t index row = Ret t' ->
  ensureForTable row t = Ret () /\ ~ has_row t (Z.to_nat index) /\
  length (rows t') = Nat.max (length (rows t)) (S (Z.to_nat index)) /\
  forall k r, rows t' !! k = Some (Some r) <->
    k = Z.to_nat index /\ r = mkRow index (values row) (row_summary row) \/ rows t !! k = Some (Some r).
Proof.
  intros Hi. unfold PutRow. destruct (ensureForTable row t) as [[]|]; [|done]. cbn [mbind go_bind].
  set (r0 := mkRow index _ _). set (len := length (rows t)). set (x := Z.to_nat index).
  assert (Hnew : forall rs, length rs = Nat.max len (S x) -> rs !! x = Some (Some r0) ->
    (forall k, k <> x -> forall r, rs !! k = Some (Some r) <-> rows t !! k = Some (Some r)) -> ~ has_row t x ->
    forall k r, rs !! k = Some (Some r) <-> k = x /\ r = r0 \/ rows t !! k = Some (Some r)).
  { intros rs _ Hx Ho Hfree k r. destruct (decide (k = x)) as [->|Hne].
    - rewrite Hx. split; [intros [= <-]; by left|]. intros [[_ ->]|Hr]; [done|]. destruct Hfree. by exists r.
    - rewrite Ho by done. tauto. }
  destruct (Z.eqb_spec index (Z.of_nat len)) as [E|Hne]; [|destruct (Z.ltb_spec (Z.of_nat len) index) as [Hlt|Hge]].
  - cbn [mbind go_bind]. destruct (count_values _ _ _ _) as [c|]; [|done]. cbn [mbind go_bind]. intros [= <-]. cbn [rows].
    assert (Hx : x = len) by lia. assert (Hf : ~ has_row t x) by (intros [r Hr]; apply lookup_lt_Some in Hr; fold len in Hr; lia).
    assert (Hl : length (rows t ++ [Some r0]) = Nat.max len (S x)) by (rewrite length_app; cbn [length]; fold len; lia).
    split_and!; [done|done|done|]. apply Hnew; [done| | |done].
    + rewrite Hx. apply list_lookup_middle. done.
    + intros k Hk r. rewrite lookup_app. destruct (rows t !! k) eqn:Ek; [done|].
      apply lookup_ge_None in Ek. fold len in Ek. fold len. destruct (k - len)%nat eqn:Ed; [lia|]. by split.
  - cbn [mbind go_bind]. destruct (count_values _ _ _ _) as [c|]; [|done]. cbn [mbind go_bind]. intros [= <-]. cbn [rows].
    assert (Hf : ~ has_row t x) by (intros [r Hr]; apply lookup_lt_Some in Hr; fold len in Hr; lia).
    set (rs := rows t ++ replicate _ None).
    assert (Hrs : length rs = Nat.max len (S x)) by (unfold rs; rewrite length_app, length_replicate; fold len; lia).
    assert (Hl : length (<[x := Some r0]> rs) = Nat.max len (S x)) by (by rewrite length_insert).
    split_and!; [done|done|done|]. apply Hnew; [done| | |done].
    + apply list_lookup_insert_eq. lia.
    + intros k Hk r. rewrite list_lookup_insert_ne by done. unfold rs. rewrite lookup_app. destruct (rows t !! k) eqn:Ek; [done|].
      split; [|done]. intros Hr. apply lookup_replicate in Hr as [? _]. done.
  - unfold slice_get. destruct (Z.ltb_spec index 0); [lia|]. fold x. destruct (rows t !! x) as [[r|]|] eqn:Ex; [done| |done].
    cbn [mbind go_bind]. destruct (count_values _ _ _ _) as [c|]; [|done]. cbn [mbind go_bind]. intros [= <-]. cbn [rows].
    assert (Hf : ~ has_row t x) by (intros [r Hr]; congruence).
    pose proof (lookup_lt_Some _ _ _ Ex) as Hlt. fold len in Hlt.
    assert (Hl : length (<[x := Some r0]> (rows t)) = Nat.max len (S x)) by (rewrite length_insert; fold len; lia).
    split_and!; [done|done|done|]. apply Hnew; [done| | |done].
    + apply list_lookup_insert_eq. fold len. lia.
    + intros k Hk r. by rewrite list_lookup_insert_ne by done.
Qed.

Lemma GetRow_row t index row : 0 <= index -> GetRow t index = Ret (Some row) -> rows t !! Z.to_nat index = Some (Some row).
Proof.
  intros Hi. unfold GetRow, slice_get. destruct (_ <=? _); [done|]. destruct (Z.ltb_spec index 0); [lia|].
  destruct (rows t !! Z.to_nat index) as [o|]; [by intros [= ->]|done].
Qed.

Lemma present_length rs : (length (present rs) <= length rs)%nat.
Proof. unfold present. induction rs as [|[r|] rs IH]; cbn; lia. Qed.

(** A table of [n] rows at most, in which the rows of some indices are known. *)
Record rows_of (n : nat) (said : nat -> option (list Z)) (t : StatTable) : Prop := {
  ro_table : table_ok 5 n t;
  ro_length : (length (rows t) <= n)%nat;
  ro_said k r vals : rows t !! k = Some (Some r) -> said k = Some vals -> values r = vals;
}.

Lemma GetRow_free t index : 0 <= index -> ~ has_row t (Z.to_nat index) -> GetRow t index = Ret None.
Proof.
  intros Hi Hf. unfold GetRow, slice_get. destruct (Z.leb_spec (Z.of_nat (length (rows t))) index); [done|].
  destruct (Z.ltb_spec index 0); [lia|]. destruct (rows t !! Z.to_nat index) as [[r|]|] eqn:E; [|done|].
  - destruct Hf. by exists r.
  - apply lookup_ge_None in E. lia.
Qed.
Lemma HasAllValuesOf_returns max r v0 v1 : row_ok max r -> 0 <= v0 <= max -> 0 <= v1 <= max -> exists b, HasAllValuesOf r v0 v1 = Ret b.
Proof.
  intros [_ _ _ Hc] H0 H1. unfold HasAllValuesOf. rewrite (counts_get _ _ _ _ _ Hc H0), (counts_get _ _ _ _ _ Hc H1).
  cbn [mbind go_bind]. by eexists.
Qed.

Section Rows.
Context (n : nat) (said : nat -> option (list Z)).

Lemma put_keeps t index row t' : rows_of n said t -> 0 <= index < Z.of_nat n -> row_ok 5 row ->
  (forall vals, said (Z.to_nat index) = Some vals -> values row = vals) -> PutRow t index row = Ret t' ->
  rows_of n said t' /\ has_row t' (Z.to_nat index) /\ forall k, has_row t k -> has_row t' k.
Proof.
  intros [Ht Hl Hs] Hi Hr Hv E. destruct (PutRow_rows t index row t' ltac:(lia) E) as (Een & Hfree & Elen & Erows).
  pose proof (ensureForTable_fits 5 n t row Ht Hr Een) as Hfit.
  destruct (PutRow_ok 5 n t index row Ht Hfit ltac:(lia)) as (t2 & E2 & Ht2 & _).
  { destruct (rows t !! Z.to_nat index) as [[r|]|] eqn:Er; [|by right|by left]. destruct Hfree. by exists r. }
  rewrite E in E2. injection E2 as <-. split; [split|split].
  - done.
  - lia.
  - intros k r vals Hk Hsk. apply Erows in Hk as [[-> ->]|Hk]; [by apply Hv|by eapply Hs].
  - eexists. apply Erows. by left.
  - intros k [r Hk]. exists r. apply Erows. by right.
Qed.

Lemma remove_keeps t index t' b : rows_of n said t -> 0 <= index -> RemoveRow t index = Ret (t', b) ->
  rows_of n said t' /\ forall k, k <> Z.to_nat index -> has_row t k -> has_row t' k.
Proof.
  intros [Ht Hl Hs] Hi E. destruct (rows t !! Z.to_nat index) as [[r|]|] eqn:Er.
  - destruct (RemoveRow_ok 5 n t index r Ht Hi Er) as (t2 & E2 & Ht2 & Erows). rewrite E in E2. injection E2 as <- ->. split; [split|].
    + done.
    + by rewrite Erows, length_insert.
    + intros k r' vals Hk. rewrite Erows in Hk. apply list_lookup_insert_Some in Hk as [(_ & ? & _)|[_ Hk]]; [done|]. by eapply Hs.
    + intros k Hk [r' Hr']. exists r'. by rewrite Erows, list_lookup_insert_ne.
  - assert (t' = t) as ->; [|done]. revert E. unfold RemoveRow, slice_get. destruct (_ <=? _); [congruence|].
    destruct (_ <? _); [done|]. rewrite Er. cbn [mbind go_bind]. congruence.
  - assert (t' = t) as ->; [|done]. revert E. unfold RemoveRow, slice_get. destruct (_ <=? _); [congruence|].
    destruct (_ <? _); [done|]. by rewrite Er.
Qed.

Lemma putRows_keeps w index v stats w' : rows_of n said (verifiedStatTbl w) -> 0 <= index < Z.of_nat n -> row_ok 5 stats ->
  (forall vals, said (Z.to_nat index) = Some vals -> values stats = vals) -> putRows w index v stats = Ret w' ->
  rows_of n said (verifiedStatTbl w') /\ has_row (verifiedStatTbl w') (Z.to_nat index) /\
  forall k, has_row (verifiedStatTbl w) k -> has_row (verifiedStatTbl w') k.
Proof.
  intros Hw Hi Hr Hv. unfold putRows.
  destruct (removeOutOfOrder w index (customOptions v)) as [w1|] eqn:E1; [|done]. cbn [mbind go_bind].
  assert (Hw1 : rows_of n said (verifiedStatTbl w1) /\
    forall k, k <> Z.to_nat index -> has_row (verifiedStatTbl w) k -> has_row (verifiedStatTbl w1) k).
  { unfold removeOutOfOrder in E1. destruct (GetRow _ _) as [[row|]|] eqn:Eg; [| |done]; cbn [mbind go_bind] in E1; [|by injection E1 as <-].
    destruct (_ && _); [|by injection E1 as <-]. destruct (RemoveRow (originalStatTbl w) index) as [o|]; [|done]. cbn [mbind go_bind] in E1.
    destruct (RemoveRow (verifiedStatTbl w) index) as [[t' b]|] eqn:Er; [|done]. cbn [mbind go_bind] in E1.
    destruct (HasAllValuesOf _ _ _); [|done]. injection E1 as <-. cbn [verifiedStatTbl fst]. eapply remove_keeps; [done|lia|done]. }
  destruct Hw1 as [Hw1 Hother].
  destruct (StateToConsensusStatRow _) as [os|]; [|done]. cbn [mbind go_bind].
  destruct (PutRow (originalStatTbl w1) index os) as [o|]; [|done]. cbn [mbind go_bind].
  destruct (PutRow (verifiedStatTbl w1) index stats) as [t'|] eqn:Ep; [|done]. cbn [mbind go_bind].
  destruct (HasAllValuesOf stats _ _); [|done]. intros [= <-]. cbn [verifiedStatTbl].
  destruct (put_keeps _ _ _ _ Hw1 Hi Hr Hv Ep) as (H1 & H2 & H3). split_and!; [done..|].
  intros k Hk. destruct (decide (k = Z.to_nat index)) as [->|Hne]; [done|]. by apply H3, Hother.
Qed.

(** A row that fits is put where there is none. *)
Lemma put_returns t (k : nat) row : rows_of n said t -> (k < n)%nat -> row_fits 5 n row -> ~ has_row t k ->
  (forall vals, said k = Some vals -> values row = vals) ->
  exists t', PutRow t (Z.of_nat k) row = Ret t' /\ rows_of n said t' /\ forall j, has_row t' j <-> j = k \/ has_row t j.
Proof.
  intros Ht Hk Hrow Hfree Hv. destruct (PutRow_ok 5 n t (Z.of_nat k) row (ro_table _ _ _ Ht) Hrow ltac:(lia)) as (t' & E & _).
  { rewrite Nat2Z.id. destruct (rows t !! k) as [[r|]|] eqn:Er; [|by right|by left]. destruct Hfree. by exists r. }
  exists t'. split; [done|]. destruct (PutRow_rows t (Z.of_nat k) row t' ltac:(lia) E) as (_ & _ & _ & Erows). split.
  - eapply put_keeps; [exact Ht| |exact (rf_ok _ _ _ Hrow)| |exact E]; [lia|]. by rewrite Nat2Z.id.
  - intros j. unfold has_row. setoid_rewrite Erows. rewrite Nat2Z.id. split; [intros (r & [[-> _]|Hr]); [by left|right; by exists r]|].
    intros [->|[r Hr]]; [eexists; by left|exists r; by right].
Qed.

Lemma full_rows t k : rows_of n said t -> Z.of_nat n <= RowCount t -> (k < n)%nat -> has_row t k.
Proof.
  intros [Ht Hl _] Hc Hk. unfold RowCount in Hc. rewrite (to_count _ _ _ Ht) in Hc. unfold has_row. clear Ht.
  revert k n Hl Hc Hk. induction (rows t) as [|o rs IH]; intros k m Hl Hc Hk; cbn in *; [lia|].
  pose proof (present_length rs) as Hp.
  destruct o as [r|]; cbn in Hc; [|unfold present in *; lia]. destruct k as [|k]; [by exists r|].
  apply (IH k (pred m)); unfold present in *; lia.
Qed.
End Rows.

(** ** Counting votes by the indices of the rows *)
Definition votes (P : Row -> Prop) (rs : list (option Row)) (k : nat) : Prop :=
  match rs !! k with Some (Some r) => P r | _ => False end.
#[export] Instance votes_dec P `{!forall r, Decision (P r)} rs k : Decision (votes P rs k).
Proof. unfold votes. destruct (rs !! k) as [[r|]|]; apply _. Defined.

Lemma length_filter_fmap {A B} (f : A -> B) (P : B -> Prop) `{!forall b, Decision (P b)} l :
  length (filter P (f <$> l)) = length (filter (fun a => P (f a)) l).
Proof. induction l as [|a l IH]; [done|]. rewrite fmap_cons, !filter_cons. destruct (decide (P (f a))); cbn [length]; by rewrite IH. Qed.

Lemma tally_votes P `{!forall r, Decision (P r)} rs n : (length rs <= n)%nat ->
  tally P (present rs) = Z.of_nat (length (filter (votes P rs) (seq 0 n))).
Proof.
  unfold tally. intros Hl. f_equal. revert n Hl. induction rs as [|o rs IH]; intros n Hl.
  - cbn. induction (seq 0 n) as [|k l IHl]; [done|]. rewrite filter_cons, decide_False by (by intros ?). exact IHl.
  - destruct n as [|n]; cbn [length] in Hl; [lia|]. rewrite <- cons_seq, <- fmap_S_seq, filter_cons.
    specialize (IH n ltac:(lia)). pose proof (length_filter_fmap S (votes P (o :: rs)) (seq 0 n)) as E.
    change (fun a => votes P (o :: rs) (S a)) with (fun a => votes P rs a) in E.
    assert (E' : length (filter (votes P (o :: rs)) (S <$> seq 0 n)) = length (filter P (present rs))) by (rewrite E, IH; done).
    destruct o as [r|].
    + change (present (Some r :: rs)) with (r :: present rs). rewrite filter_cons.
      destruct (decide (P r)) as [HP|HP]; [rewrite decide_True by done|rewrite decide_False by done]; cbn [length]; by rewrite E'.
    + change (present (None :: rs)) with (present rs). rewrite decide_False by (by intros ?). by rewrite E'.
Qed.

Lemma faulty_count (faulty : list nat) n : (length (filter (fun k => k ∈ faulty) (seq 0 n)) <= length faulty)%nat.
Proof.
  apply submseteq_length, NoDup_submseteq; [by apply list.NoDup_filter, NoDup_seq|]. intros x Hx. by apply list_elem_of_filter in Hx as [? _].
Qed.
Lemma votes_exclusive (P Q : nat -> Prop) `{!forall k, Decision (P k)} `{!forall k, Decision (Q k)} (faulty : list nat) l :
  (forall k, k ∈ l -> P k -> Q k -> k ∈ faulty) ->
  (length (filter P l) + length (filter Q l) <= length l + length (filter (fun k => k ∈ faulty) l))%nat.
Proof.
  intros Hf. induction l as [|k l IH]; [done|]. rewrite !filter_cons. specialize (IH (fun x Hx => Hf x (list_elem_of_further _ _ _ Hx))).
  specialize (Hf k (list_elem_of_here _ _)). cbn [length].
  destruct (decide (P k)), (decide (Q k)), (decide (k ∈ faulty)); cbn [length]; (lia || tauto).
Qed.
Lemma votes_common (P : nat -> Prop) `{!forall k, Decision (P k)} (faulty : list nat) l :
  (forall k, k ∈ l -> k ∉ faulty -> P k) -> (length l <= length (filter P l) + length (filter (fun k => k ∈ faulty) l))%nat.
Proof.
  intros Hf. induction l as [|k l IH]; [done|]. rewrite !filter_cons. specialize (IH (fun x Hx => Hf x (list_elem_of_further _ _ _ Hx))).
  specialize (Hf k (list_elem_of_here _ _)). cbn [length].
  destruct (decide (P k)), (decide (k ∈ faulty)); cbn [length]; (lia || tauto).
Qed.

(** ** A round among honest and faulty nodes *)
Section Round.
Context `{Sorting} (digestOf : list Z -> list Z) (IsValidDigestSignature : Z -> list Z -> list Z -> bool).
(** The nodes of the population by their index; what each honest one knows,
    its inspector, and how it signs. *)
Context (n : nat) (faulty : list nat) (node : nat -> NodeAppearance).
Context (projection : nat -> Projection) (inspectors : nat -> Inspector) (signs : nat -> list Z -> list Z).

Definition honest (k : nat) : Prop := (k < n)%nat /\ k ∉ faulty.

Record population_ok : Prop := {
  pk_count : Z.of_nat n < 2^16;
  pk_nodes k : (k < n)%nat -> nodeIndex (node k) = Z.of_nat k /\ isJoiner (node k) = false /\ nodeID (node k) <> 0;
  pk_indexed k : honest k -> length (indexedRefs (projection k)) = n;
  pk_same j k : honest j -> honest k -> blind (projection j) = blind (projection k);
  pk_ready k : honest k -> exists limit disable, ready digestOf limit disable (projection k) (nodeID (node k)) (inspectors k);
  pk_signs k h : honest k -> IsValidDigestSignature (nodeID (node k)) h (signs k h) = true;
}.

(** What reaches the worker of the node [a]: anything of a faulty node, which
    may send to each node another vector, and again; of an honest node its
    vector. *)
Definition arrives (a : nat) (sender : NodeAppearance) (d : InspectedVector) : Prop :=
  isJoiner sender = true \/
  exists k options vector, (k < n)%nat /\ sender = node k /\
    dispatched digestOf IsValidDigestSignature (inspectors a) (node k) options vector d /\
    (k ∉ faulty -> CreateVector (signs k) (inspectors k) = Ret vector).
Definition turn_ok (a : nat) (t : turn) : Prop :=
  popCount t = Z.of_nat n /\ match woken t with Received sender d => arrives a sender d | _ => True end.
(** Whose vectors come before the worker stops. *)
Fixpoint received (turns : list turn) : list NodeAppearance :=
  match turns with
  | mkTurn _ _ (Received sender _) :: turns' => sender :: received turns'
  | _ => []
  end.

Definition stats_of (k : nat) : list Z := stat_of_entry <$> bits_of (projection k).
Definition said (k : nat) : option (list Z) := if decide (k ∈ faulty) then None else Some (stats_of k).

(** What honest node [a] decides, by the turns of its worker. *)
Definition selects (a : nat) (chasing : bool) (turns : list turn) : go (option (bool * Row)) :=
  selectVectors digestOf IsValidDigestSignature (inspectors a) (Z.of_nat n) (Some (Z.of_nat a)) chasing turns.

Section Node.
Context (Hpop : population_ok) (a : nat) (Ha : honest a).

Lemma honest_bits k : honest k -> Z.of_nat (length (bits_of (projection k))) < 2^16.
Proof. intros Hk. unfold bits_of. rewrite length_fmap, (pk_indexed Hpop k Hk). exact (pk_count Hpop). Qed.

Lemma honest_received k options vector d : honest k ->
  dispatched digestOf IsValidDigestSignature (inspectors a) (node k) options vector d ->
  CreateVector (signs k) (inspectors k) = Ret vector ->
  exists v row, inspect_queued digestOf IsValidDigestSignature (inspectors a) (node k) d = Ret (Some v) /\
    hv_Bitset (otherData v) = bits_of (projection k) /\
    nodeStats v = Some row /\ row_fits 5 n row /\ values row = stats_of k.
Proof.
  intros Hk Hd Ev. destruct (pk_ready Hpop a Ha) as (l & b & Hra). destruct (pk_ready Hpop k Hk) as (l' & b' & Hrk).
  destruct (honest_inspection digestOf IsValidDigestSignature (projection a) (projection k) (nodeID (node a)) (nodeID (node k))
    l l' b b' (inspectors a) (inspectors k) (signs k) options) as (vec & v0 & v & row & E1 & E2 & E3 & Hcase & E4 & E5 & Eo & _ & _ & E6 & E7).
  - by apply (pk_same Hpop).
  - rewrite (pk_indexed Hpop a Ha). exact (pk_count Hpop).
  - apply (pk_nodes Hpop). by destruct Hk.
  - done.
  - done.
  - intros h. by apply (pk_signs Hpop).
  - rewrite Ev in E1. injection E1 as <-. exists v, row. split; [|split; [by rewrite Eo|split; [done|]]].
    + unfold inspect_queued.
      replace (match d with bypassVector _ _ => _ | inspected _ => _ end) with (@Ret inspectedVector v0)
        by (destruct (dispatched_cases _ _ _ _ _ _ _ Hd) as [->|(v1 & -> & E)]; congruence).
      cbn [mbind go_bind]. destruct Hcase as [->|E0]; [by rewrite E5|]. rewrite E0, E4. cbn [mbind go_bind]. by rewrite E5.
    + rewrite E2 in E7. destruct (StateToConsensusStatRow_ok _ (honest_bits k Hk)) as (r & Er & Hfits & Evals). rewrite E7 in Er. injection Er as <-.
      unfold bits_of in Hfits at 1. rewrite length_fmap, (pk_indexed Hpop k Hk) in Hfits. by split.
Qed.

Lemma node_at j k : (j < n)%nat -> (k < n)%nat -> node j = node k -> j = k.
Proof.
  intros Hj Hk E. destruct (pk_nodes Hpop j Hj) as [Ej _]. destruct (pk_nodes Hpop k Hk) as [Ek _]. rewrite E in Ej. lia.
Qed.

Lemma receive_keeps w sender d r : rows_of n said (verifiedStatTbl w) -> arrives a sender d ->
  receive digestOf IsValidDigestSignature (inspectors a) w sender d = Ret r ->
  r.2 = None /\ rows_of n said (verifiedStatTbl r.1) /\
  (forall k, has_row (verifiedStatTbl w) k -> has_row (verifiedStatTbl r.1) k) /\
  (forall k, honest k -> sender = node k -> has_row (verifiedStatTbl r.1) k).
Proof.
  intros Hw [Hj|(k & o & vec & Hk & -> & Hd & Hh)]; unfold receive.
  { destruct (inspect_queued _ _ _ _ _) as [[v|]|]; [by rewrite Hj| |done]. cbn [mbind go_bind]. intros [= <-]. cbn.
    split_and!; [done..|]. intros k [Hk _] ->. destruct (pk_nodes Hpop k Hk) as (_ & E & _). congruence. }
  destruct (inspect_queued _ _ _ _ _) as [o'|] eqn:Eq; [|done]. cbn [mbind go_bind].
  destruct (pk_nodes Hpop k Hk) as (Ei & Ej & _).
  assert (Hhon : k ∉ faulty -> exists v row, o' = Some v /\ nodeStats v = Some row /\ values row = stats_of k).
  { intros Hf. destruct (honest_received k o vec d) as (v & row & E & _ & H1 & _ & H2); [by split|done|by apply Hh|].
    rewrite Eq in E. injection E as ->. by exists v, row. }
  assert (Hnone : k ∈ faulty -> forall k0, honest k0 -> node k = node k0 -> has_row (verifiedStatTbl w) k0).
  { intros Hf k0 [Hk0 Hf0] E. by rewrite (node_at k k0) in Hf. }
  destruct o' as [v|]; [|intros [= <-]; cbn; split_and!; try done; destruct (decide (k ∈ faulty)) as [|Hf]; [by apply Hnone|]; by destruct (Hhon Hf) as (? & ? & ? & _)].
  rewrite Ej, Ei.
  destruct (nodeStats v) as [stats|] eqn:Ens; [|intros [= <-]; cbn; split_and!; try done; destruct (decide (k ∈ faulty)) as [|Hf]; [by apply Hnone|]; destruct (Hhon Hf) as (? & ? & [= <-] & ? & _); congruence].
  destruct (putRows w (Z.of_nat k) v stats) as [w'|] eqn:Ep; [|done]. cbn [mbind go_bind]. intros [= <-]. cbn [fst snd].
  destruct (putRows_keeps n said w (Z.of_nat k) v stats w' Hw) as (H1 & H2 & H3); [lia| | |done|].
  - eapply inspect_queued_stats; [exact Hd|exact Eq|exact Ens].
  - intros vals. rewrite Nat2Z.id. unfold said. destruct (decide _) as [|Hf]; [done|]. intros [= <-].
    destruct (Hhon Hf) as (? & row & [= <-] & E & Ev). rewrite Ens in E. by injection E as ->.
  - rewrite Nat2Z.id in H2. split_and!; [done|done|done|]. intros k0 [Hk0 _] E. by rewrite <- (node_at k k0).
Qed.

(** What is selected is selected from a table with the rows of the honest nodes
    that were received. *)
Lemma recvLoop_keeps chasing turns w s : rows_of n said (verifiedStatTbl w) -> Forall (turn_ok a) turns ->
  recvLoop digestOf IsValidDigestSignature (inspectors a) chasing turns w = Ret (Some s) ->
  exists t timeIsOut, SelectOnStopped t timeIsOut (BftMajority (Z.of_nat n)) = Ret s /\ rows_of n said t /\
    (forall k, has_row (verifiedStatTbl w) k -> has_row t k) /\
    (forall k, honest k -> node k ∈ received turns -> has_row t k).
Proof.
  intros Hw Hturns. revert w Hw. induction Hturns as [|[pc complete e] turns [Hpc He] _ IH]; intros w Hw; cbn [recvLoop]; [done|].
  cbn [popCount popCompleteness woken] in *. subst pc. destruct (complete && _) eqn:Ec.
  { destruct (SelectOnStopped _ _ _) as [s'|] eqn:Es; [|done]. cbn [mbind go_bind]. intros [= <-].
    eexists _, _. split; [exact Es|]. split; [done|]. split; [done|]. intros k [Hk _] _.
    apply andb_prop in Ec as [_ Ec%Z.leb_le]. by apply (full_rows n said). }
  destruct e as [| |sender d]; [done| |].
  { destruct (SelectOnStopped _ _ _) as [s'|] eqn:Es; [|done]. cbn [mbind go_bind]. intros [= <-].
    eexists _, _. split; [exact Es|]. split; [done|]. split; [done|]. intros k _ ?%elem_of_nil. done. }
  destruct (receive _ _ _ _ _ _) as [r|] eqn:Er; [|done]. cbn [mbind go_bind].
  destruct (receive_keeps w sender d r Hw He Er) as (-> & Hr & Hkeep & Hnew). intros E.
  destruct (IH r.1 Hr E) as (t & out & Es & Ht & H1 & H2). exists t, out. split; [done|]. split; [done|]. split; [auto|].
  intros k Hk. cbn [received]. intros [E1|Hin]%elem_of_cons; [|by apply H2]. by apply H1, Hnew.
Qed.

Lemma startRecv_keeps w : startRecv (inspectors a) (Z.of_nat n) (Some (Z.of_nat a)) = Ret w ->
  rows_of n said (verifiedStatTbl w) /\ has_row (verifiedStatTbl w) a.
Proof.
  pose proof (pk_count Hpop) as Hn. unfold startRecv, NewConsensusStatTable. change (u8 (maxConsensusStat - 1)) with 5.
  destruct (NewStatTable_ok 5 (Z.of_nat n)) as (t & -> & Ht & Er); [lia|lia|]. cbn [mbind go_bind]. rewrite Nat2Z.id in Ht.
  destruct (pk_ready Hpop a Ha) as (l & b & Hr). destruct (Prepare_prepared _ _ _ _ _ _ Hr) as [Hprep _].
  rewrite (pp_builder _ _ _ _ Hprep). cbn [builder_of GetBitset].
  destruct (StateToConsensusStatRow_ok _ (honest_bits a Ha)) as (row & -> & Hrow & Ev). cbn [mbind go_bind].
  destruct (PutRow t (Z.of_nat a) row) as [t'|] eqn:Ep; [|done]. cbn [mbind go_bind]. intros [= <-]. cbn [verifiedStatTbl].
  destruct (put_keeps n said t (Z.of_nat a) row t') as (H1 & H2 & _); [|destruct Ha; lia|by destruct Hrow| |done|].
  - split; [done|by rewrite Er; cbn; lia|]. intros k r vals. by rewrite Er.
  - intros vals. rewrite Nat2Z.id. unfold said. destruct Ha as [_ Hf]. rewrite decide_False by done. intros [= <-]. exact Ev.
  - rewrite Nat2Z.id in H2. done.
Qed.

Lemma selects_table chasing turns s : Forall (turn_ok a) turns -> selects a chasing turns = Ret (Some s) ->
  exists t, rows_of n said t /\ has_row t a /\ (forall k, honest k -> node k ∈ received turns -> has_row t k) /\
    values s.2 = decisions (BftMajority (Z.of_nat n)) n (present (rows t)).
Proof.
  intros Hturns. unfold selects, selectVectors. destruct (startRecv _ _ _) as [w|] eqn:Ew; [|done]. cbn [mbind go_bind]. intros E.
  destruct (startRecv_keeps w Ew) as [Hw Hself]. destruct (recvLoop_keeps chasing turns w s Hw Hturns E) as (t & out & Es & Ht & H1 & H2).
  exists t. split_and!; [done|by apply H1|done|]. pose proof (pk_count Hpop) as Hn. destruct Ha as [Han _].
  pose proof (BftMinority_range (Z.of_nat n) ltac:(lia)).
  destruct (SelectOnStopped_decides n t out (BftMajority (Z.of_nat n))) as (r & Er & Ev).
  - apply Ht.
  - pose proof (present_length (rows t)) as Hp. pose proof (ro_length _ _ _ Ht). lia.
  - unfold BftMajority. lia.
  - rewrite Es in Er. injection Er as ->. done.
Qed.
End Node.

(** The worker among honest nodes only: it receives the vectors of some of
    them, each once, and then its time is over. *)
Definition honest_round (a : nat) (senders : list nat) (turns : list turn) : Prop :=
  Forall honest senders /\ NoDup (a :: senders) /\
  exists ts complete, turns = ts ++ [mkTurn (Z.of_nat n) complete Deadline] /\
  Forall2 (fun k t => popCount t = Z.of_nat n /\ exists options vector d, woken t = Received (node k) d /\
    dispatched digestOf IsValidDigestSignature (inspectors a) (node k) options vector d /\
    CreateVector (signs k) (inspectors k) = Ret vector) senders ts.

Section Returns.
Context (Hpop : population_ok) (a : nat) (Ha : honest a).

(** The tables, in which only the rows of [seen] are. *)
Record tables_of (seen : nat -> Prop) (w : worker) : Prop := {
  tb_verified : rows_of n said (verifiedStatTbl w);
  tb_original : rows_of n (fun _ => None) (originalStatTbl w);
  tb_seen k : has_row (verifiedStatTbl w) k \/ has_row (originalStatTbl w) k -> seen k;
}.

Lemma selects_returns t out : rows_of n said t -> exists s, SelectOnStopped t out (BftMajority (Z.of_nat n)) = Ret s.
Proof.
  intros Ht. pose proof (pk_count Hpop) as Hn. destruct Ha as [Han _]. pose proof (BftMinority_range (Z.of_nat n) ltac:(lia)).
  pose proof (present_length (rows t)) as Hp. pose proof (ro_length _ _ _ Ht).
  destruct (SelectOnStopped_decides n t out (BftMajority (Z.of_nat n))) as (r & Er & _); [apply Ht|lia|unfold BftMajority; lia|].
  by eexists.
Qed.

Lemma start_returns : exists w, startRecv (inspectors a) (Z.of_nat n) (Some (Z.of_nat a)) = Ret w /\ tables_of (fun k => k = a) w.
Proof.
  pose proof (pk_count Hpop) as Hn. destruct Ha as [Han Hf]. unfold startRecv, NewConsensusStatTable. change (u8 (maxConsensusStat - 1)) with 5.
  destruct (NewStatTable_ok 5 (Z.of_nat n)) as (t & -> & Ht & Er); [lia|lia|]. cbn [mbind go_bind]. rewrite Nat2Z.id in Ht.
  destruct (pk_ready Hpop a Ha) as (l & b & Hr). destruct (Prepare_prepared _ _ _ _ _ _ Hr) as [Hprep _].
  rewrite (pp_builder _ _ _ _ Hprep). cbn [builder_of GetBitset].
  destruct (StateToConsensusStatRow_ok _ (honest_bits Hpop a Ha)) as (row & -> & Hrow & Ev). cbn [mbind go_bind].
  unfold bits_of in Hrow. rewrite length_fmap, (pk_indexed Hpop a Ha) in Hrow.
  assert (Hempty : forall said, rows_of n said t) by (intros sd; split; [done|by rewrite Er; cbn; lia|intros k r vals; by rewrite Er]).
  assert (Hfree : forall k, ~ has_row t k) by (intros k [r Hk]; by rewrite Er in Hk).
  destruct (put_returns n said t a row (Hempty _) Han Hrow (Hfree a)) as (t1 & -> & H1 & S1).
  { intros vals. unfold said. rewrite decide_False by done. intros [= <-]. exact Ev. }
  cbn [mbind go_bind]. eexists. split; [done|]. split; cbn; [done| |].
  - destruct H1 as [H1 H2 _]. by split.
  - intros k. rewrite S1. intros [[?|Hk]|[?|Hk]]; [done| |done|]; by destruct (Hfree k).
Qed.

Lemma receive_returns (seen : nat -> Prop) w k options vector d : tables_of seen w -> honest k -> ~ seen k ->
  dispatched digestOf IsValidDigestSignature (inspectors a) (node k) options vector d ->
  CreateVector (signs k) (inspectors k) = Ret vector ->
  exists w', receive digestOf IsValidDigestSignature (inspectors a) w (node k) d = Ret (w', None) /\
    tables_of (fun j => j = k \/ seen j) w'.
Proof.
  intros [Hv Ho Hs] Hk Hnew Hd Evec. destruct (honest_received Hpop a Ha k options vector d Hk Hd Evec) as (v & row & Eq & Eb & Ens & Hrow & Evals).
  destruct (pk_nodes Hpop k (proj1 Hk)) as (Ei & Ej & _). unfold receive. rewrite Eq. cbn [mbind go_bind]. rewrite Ej, Ens, Ei.
  unfold putRows, removeOutOfOrder. rewrite (GetRow_free (verifiedStatTbl w)) by (lia || (rewrite Nat2Z.id; auto)). cbn [mbind go_bind].
  rewrite Eb. destruct (StateToConsensusStatRow_ok _ (honest_bits Hpop k Hk)) as (os & -> & Hos & _). cbn [mbind go_bind].
  unfold bits_of in Hos. rewrite length_fmap, (pk_indexed Hpop k Hk) in Hos.
  destruct (put_returns n (fun _ => None) (originalStatTbl w) k os Ho (proj1 Hk) Hos) as (t2 & -> & H2 & S2); [auto|done|].
  cbn [mbind go_bind]. destruct (put_returns n said (verifiedStatTbl w) k row Hv (proj1 Hk) Hrow) as (t1 & -> & H1 & S1); [auto| |].
  { intros vals. unfold said. destruct Hk as [_ Hf]. rewrite decide_False by done. intros [= <-]. exact Evals. }
  cbn [mbind go_bind]. destruct (HasAllValuesOf_returns 5 row ConsensusStatTrusted ConsensusStatDoubted (rf_ok _ _ _ Hrow)) as [b ->]; [done|done|].
  cbn [mbind go_bind]. eexists. split; [reflexivity|]. split; cbn; [done|done|]. intros j. rewrite S1, S2. intuition.
Qed.

Lemma honest_round_selects chasing senders turns : honest_round a senders turns -> exists s, selects a chasing turns = Ret (Some s).
Proof.
  intros (Hh & Hnd & ts & complete & -> & Hts). unfold selects, selectVectors. destruct start_returns as (w & -> & Hw). cbn [mbind go_bind].
  apply list.NoDup_cons in Hnd as [Hna Hnd]. assert (Hnew : forall k, k ∈ senders -> ~ (fun k => k = a) k) by (intros k Hk ->; done).
  revert Hw Hnew Hh Hnd. generalize (fun k => k = a). clear Hna. intros seen Hw Hnew Hh Hnd. revert w seen Hw Hnew Hh Hnd.
  induction Hts as [|k [pc c e] senders ts [Hpc (o & vec & d & He & Hd & Ev)] _ IH]; intros w seen Hw Hnew Hh Hnd.
  - cbn. destruct (selects_returns (verifiedStatTbl w) true (tb_verified _ _ Hw)) as [s1 E1].
    destruct (selects_returns (verifiedStatTbl w) false (tb_verified _ _ Hw)) as [s2 E2]. rewrite E1, E2. cbn. destruct (_ && _); by eexists.
  - cbn [app recvLoop popCount popCompleteness woken] in *. subst pc e.
    destruct (selects_returns (verifiedStatTbl w) false (tb_verified _ _ Hw)) as [s2 E2]. rewrite E2. destruct (_ && _); [by eexists|].
    apply list.Forall_cons in Hh as [Hk Hh]. apply list.NoDup_cons in Hnd as [Hnk Hnd].
    destruct (receive_returns seen w k o vec d Hw Hk (Hnew k (list_elem_of_here _ _)) Hd Ev) as (w' & -> & Hw'). cbn [mbind go_bind fst snd].
    apply (IH w' _ Hw'); [|done|done]. intros j Hj [->|Hsj]; [done|]. exact (Hnew j (list_elem_of_further _ _ _ Hj) Hsj).
Qed.
End Returns.

(** What the row of an honest node votes is what its bit set says. *)
Lemma honest_votes t k i : rows_of n said t -> k ∉ faulty ->
  (votes (says_in i) (rows t) k -> vector_in i (bits_of (projection k))) /\
  (votes (says_fraud i) (rows t) k -> vector_fraud i (bits_of (projection k))) /\
  (has_row t k -> vector_in i (bits_of (projection k)) -> votes (says_in i) (rows t) k) /\
  (has_row t k -> vector_fraud i (bits_of (projection k)) -> votes (says_fraud i) (rows t) k).
Proof.
  intros [_ _ Hs] Hf. unfold votes, has_row.
  assert (Hv : forall r, rows t !! k = Some (Some r) -> values r = stat_of_entry <$> bits_of (projection k)).
  { intros r Hr. apply (Hs k r _ Hr). unfold said. by rewrite decide_False. }
  destruct (rows t !! k) as [[r|]|]; [|split_and!; try done; by intros [? ?]..].
  specialize (Hv r eq_refl). rewrite (says_in_vector i r _ Hv), (says_fraud_vector i r _ Hv). tauto.
Qed.
Lemma in_not_fraud i b : vector_in i b -> vector_fraud i b -> False.
Proof. unfold vector_in, vector_fraud. intros Hin Hf. rewrite Hf in Hin. by destruct Hin. Qed.

Lemma decided_at t i : rows_of n said t -> (i < n)%nat ->
  decisions (BftMajority (Z.of_nat n)) n (present (rows t)) !! i =
  Some (decision (BftMajority (Z.of_nat n)) (Z.of_nat (length (filter (votes (says_in i) (rows t)) (seq 0 n))))
          (Z.of_nat (length (filter (votes (says_fraud i) (rows t)) (seq 0 n))))).
Proof.
  intros Ht Hi. unfold decisions. rewrite list_lookup_fmap, lookup_seq_lt by done. cbn.
  by rewrite !(tally_votes _ _ n (ro_length _ _ _ Ht)).
Qed.

(** C31: when less than a third of the nodes is faulty, the honest nodes (members,
    not joiners, with a complete population) know the same announcements, and
    the faulty send to each of them any vectors, at any time, again and in any
    order: of two honest workers that select, in time or when time is over,
    none includes a node that the other calls fraud.  A worker that received the vectors of all honest nodes
    includes a node that all of these have in, and calls fraud one that all of
    these call fraud; and among honest nodes a worker whose time is over does
    select. *)
Theorem consensus_decides_alike a b i :
  population_ok -> honest a -> honest b -> Z.of_nat (length faulty) <= BftMinority (Z.of_nat n) -> (i < n)%nat ->
  (forall chasing chasing' turns turns' s s', Forall (turn_ok a) turns -> Forall (turn_ok b) turns' ->
     selects a chasing turns = Ret (Some s) -> selects b chasing' turns' = Ret (Some s') ->
     ~ (values s.2 !! i = Some CbsIncluded /\ values s'.2 !! i = Some CbsFraud)) /\
  (forall chasing turns s, Forall (turn_ok a) turns -> selects a chasing turns = Ret (Some s) ->
     (forall k, honest k -> k <> a -> node k ∈ received turns) ->
     ((forall k, honest k -> vector_in i (bits_of (projection k))) -> values s.2 !! i = Some CbsIncluded) /\
     ((forall k, honest k -> vector_fraud i (bits_of (projection k))) -> values s.2 !! i = Some CbsFraud)) /\
  (forall chasing senders turns, honest_round a senders turns -> exists s, selects a chasing turns = Ret (Some s)).
Proof.
  intros Hpop Ha Hb Hfew Hi. pose proof (BftMinority_range (Z.of_nat n) ltac:(destruct Ha; lia)) as Hmin.
  pose proof (faulty_count faulty n) as Hfc. pose proof (length_seq n 0) as Hls.
  assert (Hin : forall k, k ∈ seq 0 n -> (k < n)%nat) by (intros k [_ ?]%elem_of_seq; lia).
  split_and!; [|intros chasing turns s Hturns E Hall|intros chasing senders turns; by apply honest_round_selects].
  - intros chasing chasing' turns turns' s s' Ht Ht' E E'.
    destruct (selects_table Hpop a Ha chasing turns s Ht E) as (t & Hrows & _ & _ & ->).
    destruct (selects_table Hpop b Hb chasing' turns' s' Ht' E') as (t' & Hrows' & _ & _ & ->).
    rewrite (decided_at t i Hrows Hi), (decided_at t' i Hrows' Hi). unfold BftMajority.
    pose proof (votes_exclusive (votes (says_in i) (rows t)) (votes (says_fraud i) (rows t')) faulty (seq 0 n)) as Hx.
    specialize (Hx ltac:(intros k _ H1 H2; destruct (decide (k ∈ faulty)) as [|Hf]; [done|]; exfalso;
      destruct (honest_votes t k i Hrows Hf) as (H3 & _); destruct (honest_votes t' k i Hrows' Hf) as (_ & H4 & _);
      exact (in_not_fraud i _ (H3 H1) (H4 H2)))).
    intros [H1 H2]. injection H1 as H1. injection H2 as H2. unfold decision in H1, H2.
    repeat match type of H1 with context [Z.leb ?x ?y] => destruct (Z.leb_spec x y) in H1; try discriminate H1 end;
    repeat match type of H2 with context [Z.leb ?x ?y] => destruct (Z.leb_spec x y) in H2; try discriminate H2 end; lia.
  - destruct (selects_table Hpop a Ha chasing turns s Hturns E) as (t & Hrows & Hself & Hrec & ->).
    rewrite (decided_at t i Hrows Hi). unfold BftMajority, decision.
    assert (Hrow : forall k, honest k -> has_row t k) by (intros k Hk; destruct (decide (k = a)) as [->|Hne]; auto).
    assert (Hvote : forall k, k ∈ seq 0 n -> k ∉ faulty -> honest k) by (intros k Hk Hf; split; auto).
    split; intros Hv.
    + pose proof (votes_common (votes (says_in i) (rows t)) faulty (seq 0 n)) as Hc.
      specialize (Hc ltac:(intros k Hk Hf; destruct (honest_votes t k i Hrows Hf) as (_ & _ & H3 & _); auto)).
      f_equal. destruct (Z.leb_spec (Z.of_nat n - BftMinority (Z.of_nat n)) (Z.of_nat (length (filter (votes (says_in i) (rows t)) (seq 0 n)))));
        [done|lia].
    + pose proof (votes_common (votes (says_fraud i) (rows t)) faulty (seq 0 n)) as Hc.
      specialize (Hc ltac:(intros k Hk Hf; destruct (honest_votes t k i Hrows Hf) as (_ & _ & _ & H3); auto)).
      pose proof (votes_exclusive (votes (says_in i) (rows t)) (votes (says_fraud i) (rows t)) faulty (seq 0 n)) as Hx.
      specialize (Hx ltac:(intros k _ H1 H2; destruct (decide (k ∈ faulty)) as [|Hf]; [done|]; exfalso;
        destruct (honest_votes t k i Hrows Hf) as (H3 & H4 & _); exact (in_not_fraud i _ (H3 H1) (H4 H2)))).
      f_equal.
      destruct (Z.leb_spec (Z.of_nat n - BftMinority (Z.of_nat n)) (Z.of_nat (length (filter (votes (says_in i) (rows t)) (seq 0 n))))); [lia|].
      destruct (Z.leb_spec (Z.of_nat n - BftMinority (Z.of_nat n)) (Z.of_nat (length (filter (votes (says_fraud i) (rows t)) (seq 0 n)))));
        [done|lia].
Qed.
End Round.
