(* ===== verification/VectorSamples.v ===== *)
(** * Vectors at concrete inputs (src/network/consensus/gcpv2/phasebundle,
    gcpv2/core/population)

    A sorting, a population of four nodes, what the theorems on vectors and on
    the last phase say there; and inputs on which the code does what it should
    not. *)
From Stdlib Require Import Sorting.Sorted.
From S2P Require Import Prelude LongBits MemberPower MemberRank NodeStats ConsensusDecision NodeVector VectorBuilder VectorInspector VectorsAgree VectorsBelieved Phase3.

(** ** Insertion sort is a sorting *)
Fixpoint insert_by {A} (less : A -> A -> bool) (x : A) (l : list A) : list A :=
  match l with [] => [x] | y :: l' => if less y x then y :: insert_by less x l' else x :: l end.
Definition sort_by {A} (less : A -> A -> bool) (l : list A) : list A := foldr (insert_by less) [] l.

Lemma insert_by_perm {A} (less : A -> A -> bool) x l : insert_by less x l ≡ₚ x :: l.
Proof.
  induction l as [|y l IH]; [done|]. cbn [insert_by]. destruct (less y x); [|done]. rewrite IH. apply Permutation_swap.
Qed.
Lemma sort_by_perm {A} (less : A -> A -> bool) l : sort_by less l ≡ₚ l.
Proof. induction l as [|x l IH]; [done|]. cbn [sort_by foldr]. by rewrite insert_by_perm, IH. Qed.
Lemma insert_by_sorted {A} (less : A -> A -> bool) x l :
  (forall x y z, less y x = false -> less z y = false -> less z x = false) -> (forall x y, less x y = false \/ less y x = false) ->
  StronglySorted (fun x y => less y x = false) l -> StronglySorted (fun x y => less y x = false) (insert_by less x l).
Proof.
  intros Ht Htot. induction 1 as [|y l Hl IH Hy]; cbn [insert_by]; [repeat constructor|]. destruct (less y x) eqn:E.
  - constructor; [done|]. rewrite insert_by_perm. constructor; [|done]. by destruct (Htot x y) as [|E']; [|congruence].
  - constructor; [by constructor|]. constructor; [done|]. eapply list.Forall_impl; [exact Hy|]. intros z Hz. by apply (Ht x y z).
Qed.
Lemma sort_by_sorted {A} (less : A -> A -> bool) l :
  (forall x y z, less y x = false -> less z y = false -> less z x = false) -> (forall x y, less x y = false \/ less y x = false) ->
  StronglySorted (fun x y => less y x = false) (sort_by less l).
Proof. intros Ht Htot. induction l as [|x l IH]; [constructor|]. by apply insert_by_sorted. Qed.
Lemma insert_by_map {A B} (f : A -> B) (less : B -> B -> bool) x l :
  insert_by less (f x) (f <$> l) = f <$> insert_by (fun x y => less (f x) (f y)) x l.
Proof. induction l as [|y l IH]; [done|]. cbn [fmap list_fmap insert_by]. destruct (less (f y) (f x)); [|done]. cbn. f_equal. exact IH. Qed.
Lemma sort_by_map {A B} (f : A -> B) (less : B -> B -> bool) l :
  sort_by less (f <$> l) = f <$> sort_by (fun x y => less (f x) (f y)) l.
Proof. induction l as [|x l IH]; [done|]. cbn [fmap list_fmap sort_by foldr] in *. unfold sort_by in IH. cbn [fmap] in IH. rewrite <- insert_by_map. by f_equal. Qed.

#[export] Instance insertion_sort : Sorting := {|
  go_sort A less l := sort_by less l;
  go_sort_perm A := sort_by_perm;
  go_sort_sorted A := sort_by_sorted;
  go_sort_map A B := sort_by_map;
|}.

(** ** Four nodes; the digests and the signatures are the bytes themselves *)
Module Sample.
Definition node (id role : Z) : ActiveNode := mkActiveNode id role 0 ModeNormal.
Definition appears (id role power mode trust joiner : Z) : Appearance :=
  mkAppearance (mkEntryData power mode trust (node id role) (Some (repeat id 64)) (Some (repeat (id + 100) 64))) joiner.
Definition silent (id role power : Z) : Appearance := mkAppearance (mkEntryData power ModeNormal 0 (node id role) None None) 0.
Definition newcomer : gmap Z Appearance := {[ 9 := appears 9 PrimaryRoleVirtual 0 ModeRestrictedAnnouncement 0 0 ]}.

Definition of_go {A} (d : A) (m : go A) : A := match m with Ret a => a | Panic _ => d end.
Definition projection (nodes : list Appearance) : Projection := of_go (mkProjection 0 [] [] []) (setNodes (Some <$> nodes) newcomer 1).
Definition digestOf (b : list Z) : list Z := b.
Definition sign (h : list Z) : list Z := h.
Definition valid (_ : Z) (h s : list Z) : bool := bool_decide (h = s).

(** What node 1 and node 2 know; they trust different nodes. *)
Definition known_by_1 : Projection := projection
  [appears 1 PrimaryRoleVirtual 150 ModeNormal TrustByNetwork 0; appears 2 PrimaryRoleVirtual 140 ModeNormal UnknownTrust 9;
   appears 3 PrimaryRoleHeavyMaterial 130 ModeNormal TrustBySome 0; appears 4 PrimaryRoleLightMaterial 0 ModeNormal FraudByNeighbors 0].
Definition known_by_2 : Projection := projection
  [appears 1 PrimaryRoleVirtual 150 ModeNormal TrustByNetwork 0; appears 2 PrimaryRoleVirtual 140 ModeNormal TrustByNetwork 9;
   appears 3 PrimaryRoleHeavyMaterial 130 ModeNormal UnknownTrust 0; appears 4 PrimaryRoleLightMaterial 0 ModeNormal UnknownTrust 0].
(** Node 3 has not heard of node 4. *)
Definition known_by_3 : Projection := projection
  [appears 1 PrimaryRoleVirtual 150 ModeNormal TrustByNetwork 0; appears 2 PrimaryRoleVirtual 140 ModeNormal UnknownTrust 9;
   appears 3 PrimaryRoleHeavyMaterial 130 ModeNormal TrustBySome 0; silent 4 PrimaryRoleLightMaterial 0].

Definition no_inspector : Inspector := mkInspector 0 false 0 zeroCalcSub zeroCalcSub (mkBuilder (mkProjection 0 [] [] []) []).
Definition inspector (p : Projection) (n : Z) : Inspector :=
  (of_go (no_inspector, false) (i ← CreateInspector 0 false p n; PrepareForInspection digestOf i)).1.
Definition vector (p : Projection) (n : Z) : HashedVector :=
  of_go (mkHashedVector [] (mkHashed None None 0) (mkHashed None None 0)) (CreateVector sign (inspector p n)).
Definition inspected (p : Projection) (n sender : Z) (v : HashedVector) : go (Z * option (list Z)) :=
  v ← InspectVector digestOf valid (inspector p n) sender 0 v; Ret (verifyResult v, values <$> nodeStats v).
End Sample.

Example inspected_1_2 : Sample.inspected Sample.known_by_1 1 2 (Sample.vector Sample.known_by_2 2) =
  Ret (honest_result true true, Some [ConsensusStatTrusted; ConsensusStatTrusted; ConsensusStatDoubted; ConsensusStatDoubted]).
Proof. vm_compute. reflexivity. Qed.

Lemma honest_vector_believed_witness : exists vector v row,
  CreateVector Sample.sign (Sample.inspector Sample.known_by_2 2) = Ret vector /\
  (v ← InspectVector Sample.digestOf Sample.valid (Sample.inspector Sample.known_by_1 1) 2 7 vector;
   Inspect Sample.digestOf Sample.valid (Sample.inspector Sample.known_by_1 1) v) = Ret v /\
  nodeStats v = Some row /\ StateToConsensusStatRow (bits_of Sample.known_by_2) = Ret row.
Proof.
  destruct (honest_vector_believed Sample.digestOf Sample.valid Sample.known_by_1 Sample.known_by_2 1 2 0 0 false false
              (Sample.inspector Sample.known_by_1 1) (Sample.inspector Sample.known_by_2 2) Sample.sign 7)
    as (vector & v & row & E1 & E2 & E3 & _ & _ & E4 & E5).
  - vm_compute. reflexivity.
  - vm_compute. reflexivity.
  - discriminate.
  - vm_compute. reflexivity.
  - vm_compute. reflexivity.
  - intros h. by apply bool_decide_eq_true_2.
  - exists vector, v, row. rewrite E2 in E5. split; [exact E1|]. split; [exact E3|]. split; [exact E4|exact E5].
Defined.

(** A round of the four nodes; the fourth is faulty and sends to each of the
    others what it likes. *)
Module SampleRound.
Definition appearance (k : nat) : NodeAppearance := mkNode (Z.of_nat k + 1) (Z.of_nat k) false.
Definition known (k : nat) : Projection := match k with 1%nat => Sample.known_by_2 | _ => Sample.known_by_1 end.
Definition inspector_of (k : nat) : Inspector := Sample.inspector (known k) (Z.of_nat k + 1).
Definition sign_of (_ : nat) : list Z -> list Z := Sample.sign.
Definition vector_from (k : nat) : HashedVector := Sample.vector (known k) (Z.of_nat k + 1).
Definition falls (options : Z) (k : nat) (v : HashedVector) : turn := mkTurn 4 true (Received (appearance k) (bypassVector options v)).
Definition turns_0 : list turn := [falls 1 1 (vector_from 1); falls 0 1 (vector_from 1); falls 0 3 (Sample.vector Sample.known_by_1 4);
  falls 0 2 (vector_from 2); mkTurn 4 true Deadline].
Definition turns_1 : list turn := [falls 0 3 (Sample.vector Sample.known_by_3 4); falls 0 0 (vector_from 0); falls 0 2 (vector_from 2); mkTurn 4 true Deadline].
Definition selected (a : nat) (turns : list turn) : go (option (bool * Row)) :=
  selects Sample.digestOf Sample.valid 4 inspector_of a false turns.

Lemma population : population_ok Sample.digestOf Sample.valid 4 [3%nat] appearance known inspector_of sign_of.
Proof.
  assert (Hcases : forall k, honest 4 [3%nat] k -> k = 0%nat \/ k = 1%nat \/ k = 2%nat).
  { intros k [Hk Hf]. destruct (decide (k = 3%nat)) as [->|]; [destruct Hf; by left|lia]. }
  split.
  - by vm_compute.
  - intros k _. split; [done|]. split; [done|]. cbn. lia.
  - intros k [->|[->| ->]]%Hcases; by vm_compute.
  - intros j k [->|[->| ->]]%Hcases [->|[->| ->]]%Hcases; by vm_compute.
  - intros k [->|[->| ->]]%Hcases; exists 0, false; by vm_compute.
  - intros k h _. by apply bool_decide_eq_true_2.
Qed.

Lemma falls_ok a options k v : (k < 4)%nat -> (k <> 3%nat -> CreateVector (sign_of k) (inspector_of k) = Ret v) ->
  turn_ok Sample.digestOf Sample.valid 4 [3%nat] appearance inspector_of sign_of a (falls options k v).
Proof.
  intros Hk Hv. split; [done|]. right. exists k, options, v. split; [done|]. split; [done|]. split; [by exists None; split; [left|]|].
  intros Hf. apply Hv. intros ->. apply Hf. by left.
Qed.
Lemma turns_ok : Forall (turn_ok Sample.digestOf Sample.valid 4 [3%nat] appearance inspector_of sign_of 0) turns_0 /\
  Forall (turn_ok Sample.digestOf Sample.valid 4 [3%nat] appearance inspector_of sign_of 1) turns_1.
Proof.
  split; repeat (apply list.Forall_cons_2; [apply falls_ok; [lia|intros Hf; first [exfalso; apply Hf; reflexivity|vm_compute; reflexivity]]|]).
  all: apply list.Forall_cons_2; [split; [reflexivity|exact I]|apply list.Forall_nil_2].
Qed.
End SampleRound.

Lemma consensus_decides_alike_witness : exists s s',
  SampleRound.selected 0 SampleRound.turns_0 = Ret (Some s) /\ SampleRound.selected 1 SampleRound.turns_1 = Ret (Some s') /\
  values s.2 !! 1%nat = Some CbsIncluded /\ values s'.2 !! 1%nat <> Some CbsFraud.
Proof.
  destruct (SampleRound.selected 0 SampleRound.turns_0) as [[s|]|] eqn:E; [|vm_compute in E; discriminate E..].
  destruct (SampleRound.selected 1 SampleRound.turns_1) as [[s'|]|] eqn:E'; [|vm_compute in E'; discriminate E'..].
  destruct (consensus_decides_alike Sample.digestOf Sample.valid 4 [3%nat] SampleRound.appearance SampleRound.known
    SampleRound.inspector_of SampleRound.sign_of 0 1 1) as (Hno & Hall & _).
  - exact SampleRound.population.
  - split; [lia|]. by rewrite elem_of_cons, elem_of_nil; intros [|].
  - split; [lia|]. by rewrite elem_of_cons, elem_of_nil; intros [|].
  - by vm_compute.
  - lia.
  - destruct SampleRound.turns_ok as [H0 H1]. exists s, s'. split; [reflexivity|]. split; [reflexivity|].
    assert (Hin : values s.2 !! 1%nat = Some CbsIncluded).
    { apply (Hall false SampleRound.turns_0 s H0 E).
      - intros k [Hk Hf] Hne. assert (k = 1%nat \/ k = 2%nat) as Hcases
          by (destruct (decide (k = 3%nat)) as [->|]; [destruct Hf; by left|lia]).
        destruct Hcases as [-> | ->]; cbn; rewrite !elem_of_cons; tauto.
      - intros k _. destruct k as [|[|k]]; vm_compute; split; discriminate. }
    split; [exact Hin|]. intros Hf. exact (Hno false false SampleRound.turns_0 SampleRound.turns_1 s s' H0 H1 E E' (conj Hin Hf)).
Defined.

(** ** What goes wrong *)

(** An honest node that misses a node the inspector knows: the announcements
    agree, but the recalculated state still counts the missing node, and the
    inspector takes the others for fraud suspects. *)
Example inspected_1_3 : Sample.inspected Sample.known_by_1 1 3 (Sample.vector Sample.known_by_3 3) =
  Ret (Z.lor (Z.lor NvrTrustedFraud NvrTrustedAlteredNodeSet) (Z.lor NvrDoubtedFraud NvrDoubtedAlteredNodeSet),
       Some [ConsensusStatFraudSuspect; ConsensusStatFraudSuspect; ConsensusStatFraudSuspect; ConsensusStatMissingThere]).
Proof. vm_compute. reflexivity. Qed.

(** A vector whose bit set trusts no one, and which has a trusted part all the
    same, stops the inspector. *)
Definition untrusting : HashedVector :=
  mkHashedVector (repeat BeBaselineTrust 4) (mkHashed (Some []) (Some []) 0) (mkHashed None None 0).
Example untrusting_panics : Sample.inspected Sample.known_by_1 1 3 untrusting = Panic "nil pointer".
Proof. vm_compute. reflexivity. Qed.

(** The joiner and node 4 have no power: they get the index of one another. *)
Definition index_of (id : Z) : go Z :=
  c ← buildGlobulaStateHash Sample.digestOf (in_builder (Sample.inspector Sample.known_by_2 2)) false id; GetIndex (cs_ExpectedRank c).
Example one_index_for_two : (index_of <$> [3; 1; 2; 4; 9]) = [Ret 2; Ret 0; Ret 1; Ret 3; Ret 3].
Proof. vm_compute. reflexivity. Qed.

(** Powerless nodes that come in the descending order of their identifiers
    stay so; in any other order they are sorted in the ascending one. *)
Definition scanned (powers : list (Z * Z)) : go (list Z) :=
  ScanSortedWithFilter (Sample.projection ((fun x => Sample.silent x.1 PrimaryRoleVirtual x.2) <$> powers)) 0
    (fun d _ _ l => Ret (l ++ [GetNodeID (Profile d)])) (fun _ _ _ => Ret (true, 0)) [].
Example ascending_unless_descending :
  (scanned <$> [[(1, 30); (2, 20); (3, 10)]; [(1, 20); (2, 30); (3, 10)]; [(1, 10); (2, 20); (3, 30)]])
  = [Ret [1; 2; 3]; Ret [1; 2; 3]; Ret [3; 2; 1]].
Proof. vm_compute. reflexivity. Qed.

(** The fourth node announces itself to the first one differently than to the
    others.  With the very same vectors of all four, the first node calls each
    of them fraud and the second includes each. *)
Definition known_otherwise : Projection := Sample.projection
  [Sample.appears 1 PrimaryRoleVirtual 150 ModeNormal TrustByNetwork 0; Sample.appears 2 PrimaryRoleVirtual 140 ModeNormal TrustByNetwork 9;
   Sample.appears 3 PrimaryRoleHeavyMaterial 130 ModeNormal TrustByNetwork 0;
   mkAppearance (mkEntryData 0 ModeNormal TrustByNetwork (Sample.node 4 PrimaryRoleLightMaterial) (Some (repeat 77 64)) (Some (repeat 104 64))) 0].
Definition known_to (k : nat) : Projection :=
  match k with
  | 0%nat => Sample.projection
      [Sample.appears 1 PrimaryRoleVirtual 150 ModeNormal TrustByNetwork 0; Sample.appears 2 PrimaryRoleVirtual 140 ModeNormal TrustByNetwork 9;
       Sample.appears 3 PrimaryRoleHeavyMaterial 130 ModeNormal TrustByNetwork 0; Sample.appears 4 PrimaryRoleLightMaterial 0 ModeNormal TrustByNetwork 0]
  | _ => known_otherwise
  end.
Definition decided_by (a : nat) : go (option (list Z)) :=
  let turns := (fun k => SampleRound.falls 0 k (Sample.vector (known_to k) (Z.of_nat k + 1))) <$> filter (fun k => k <> a) [0; 1; 2; 3]%nat in
  s ← selects Sample.digestOf Sample.valid 4 (fun k => Sample.inspector (known_to k) (Z.of_nat k + 1)) a false (turns ++ [mkTurn 4 true Deadline]);
  Ret match s with Some s => Some (values s.2) | None => None end.
Example equivocated_announcement :
  decided_by 0 = Ret (Some [CbsFraud; CbsFraud; CbsFraud; CbsFraud]) /\
  decided_by 1 = Ret (Some [CbsIncluded; CbsIncluded; CbsIncluded; CbsIncluded]).
Proof. vm_compute. split; reflexivity. Qed.

(** After the vector of a node, one from it out of order stops the worker. *)
Example out_of_order_after :
  SampleRound.selected 0 [SampleRound.falls 0 1 (SampleRound.vector_from 1); SampleRound.falls outOfOrderPhase3 1 (SampleRound.vector_from 1)] =
  Panic "row is in use".
Proof. vm_compute. reflexivity. Qed.
